(* ===== verification/_CoqProject ===== *)
-Q . S2P
Prelude.v
RustStr.v
Digest.v
DigestSpec.v
Error.v
Ids.v
Topic.v
Event.v
Scheduler.v
Agent.v
EventCodec.v
Durable.v
StateStore.v
EventLog.v
EventBus.v
DeadLetterCodec.v
DeadLetterStore.v
DeadLetterSafety.v
DurableBus.v
SchedulerRetry.v
TaskState.v
TaskTransition.v
TaskAccept.v
FieldEscape.v
ProviderProcess.v
ProviderAdmission.v
ProviderSupervisor.v
TaskStorage.v
TaskStore.v
TaskWritable.v
TaskDirectory.v
TaskPool.v
TaskConcurrency.v
TaskProgress.v
EffectLedger.v
EffectSafety.v
Policy.v
Capability.v
PolicyGate.v
ProviderRuntime.v
TaskWorker.v
EffectOnce.v
TaskRecovery.v
RecoverySafety.v
RecoveryRun.v
ReplayDelivery.v
ReplaySafety.v
ReplayTick.v
Json.v
JsonGrammar.v
JsonStrings.v
McpJsonRpc.v
McpClient.v
McpReader.v
McpRequests.v
McpCall.v
Ipv6.v
HttpFraming.v
McpEndpoint.v
HttpReader.v
HttpHead.v
HttpSse.v
Sse.v
SseParser.v
SseStream.v
HttpSession.v
HttpSessionSafety.v
HttpRequestHead.v
McpEndpointLaws.v
HttpWire.v
McpServer.v
McpSession.v
ServerRequest.v
ServerDispatch.v
ServerSafety.v
ServerWire.v
ServerReply.v
ServerCall.v
