(* ===== verification/Prelude.v ===== *)
(** * Eva-CLI: a verification library

    Eva-CLI (crates/ of the repository) is a daemon that runs tasks for
    agents.  Events are published on a durable bus and routed to agents;
    capabilities and adapters are used under a layered policy; tasks are
    records on disk that worker processes claim, execute, finish, retry and
    recover after a crash; a handler with an outside effect goes through a
    ledger so that it is run at most once; tools of other programs are called,
    and its own are offered, over the Model Context Protocol (MCP): JSON-RPC
    on a child process's pipes or on HTTP.  This library models that core as
    Rocq functions and proves what makes it correct.

    ** How the code is modelled

    - Rust's [Result<T, EvaError>] is [Res] of Error.v over [Result] below,
      with [let?], [>>?] and [reject .. with .. else] for [?] and early
      returns.  Strings are byte strings ([String::len] counts bytes, texts
      that Rust reads as [str] are checked with [utf8_valid]).  Integers are
      [N] with the width written out ([checked_add], [saturating_add],
      [wrapping_add] against [u32_max] .. [usize_max]); SHA-256 works on
      32-bit words.  A [HashMap] or [BTreeMap] is a [gmap], a [Vec] a list.
    - The file system is a map from path to bytes ([Files], Durable.v), or
      from name to bytes for one directory ([Dir], EventLog.v).
      [atomic_write] ends in one of three ways (replaced, failed before the
      rename, failed after it).  Locks, directory creation, clocks, process
      ids, tokens and the outcome of each write are arguments, so a theorem
      holds whatever they do.
    - A store that several processes use at once is a tree of atomic accesses
      ([StoreProg], TaskStore.v); TaskPool.v interleaves any number of them.
      A worker's dispatch is a tree of interactions ([Work], TaskWorker.v);
      EffectOnce.v interleaves any number of those.  Programs run on their
      own with [run_alone] (TaskProgress.v).
    - Loops are structural.  The only fuel is the source's own
      [TASK_STATE_CAS_RETRY_LIMIT] (32) of the compare-and-set loops, which
      end in the source's error; alone, one turn is enough (TaskProgress.v,
      RecoverySafety.v).  The agent's attempt loop recurses on the attempts
      its policy leaves and never runs out (Agent.v).
    - A method of the provider supervisor is a state-passing [Run]
      (ProviderSupervisor.v).  The lock of the admission table makes the
      source's 200 attempts; the loop of an invocation has as fuel the number
      of its dispatches, and one more than the restart budget is enough.
    - The MCP readers recurse on what is left of the text or the connection:
      their fuel is its length plus one (the JSON scanner, lines, bodies), or a
      bound of the source (ten response heads, 129 header lines).  A reader
      that runs out returns the error [out_of_fuel], which no code produces;
      JsonGrammar.v and HttpHead.v show that it is never returned.
    - A connection is the list of what its reads return ([Stream],
      HttpFraming.v), however the bytes are cut; a child process's output is
      the list of messages its reader thread sends (McpClient.v).  The
      transport of a client carries the connections that its next requests
      find and keeps the texts that it wrote.

    ** Files and sources

    Shared: Prelude.v (results, integers, lists, automation), RustStr.v ([str]
    and [String] operations, UTF-8, numbers, hex, lines of [key=value] text),
    Error.v (eva-core/error.rs), Ids.v (eva-core/ids.rs,
    capability.rs), Digest.v (eva-core/digest.rs, all of SHA-256) and
    DigestSpec.v (SHA-256 as FIPS 180-4 defines it, which Digest.v computes).

    Events: Topic.v (eva-core/topic.rs), Event.v (event.rs, invoke.rs),
    Scheduler.v (eva-scheduler: mailboxes, registry, routing, subscriptions,
    retry backoff, generation gate), Agent.v (eva-agent: lifecycle, queue, run
    loop), EventCodec.v and EventLog.v (eva-storage/event_log.rs: the record
    format, the in-memory and the file log), EventBus.v (eva-eventbus bus.rs,
    dead_letter.rs, in_memory.rs), DeadLetterCodec.v, DeadLetterStore.v,
    DeadLetterSafety.v and DurableBus.v (eva-eventbus/durable.rs: the record
    format, the store with its guarded transactions, what any sequence of its
    calls keeps, the bus), SchedulerRetry.v (eva-runtime/scheduler_retry.rs).

    Storage: Durable.v (eva-storage/durable_backend.rs: layout, writer
    generations and fencing), StateStore.v (state_store.rs).

    Tasks (eva-storage/task_state.rs): TaskState.v (records, validation, the
    lifecycle operations), TaskTransition.v (fences, outcomes, candidates and
    [validate_task_state_transition], the gate of every commit), TaskAccept.v
    (the operations pass the gate), FieldEscape.v and TaskStorage.v (the
    record format), TaskStore.v (the operations of the store), TaskWritable.v
    and TaskDirectory.v (what a directory holds and one access does to it),
    TaskPool.v and TaskConcurrency.v (any number of processes), TaskProgress.v
    (one process alone).

    Effects: EffectLedger.v and EffectSafety.v (eva-storage/effect_ledger.rs
    and what any sequence of its transactions keeps), TaskWorker.v
    (eva-runtime/task.rs and the dispatch of a claimed attempt in
    task_worker.rs), EffectOnce.v (any number of workers on one ledger),
    TaskRecovery.v (eva-runtime/recovery.rs and the listing of the task
    directory), RecoverySafety.v (the abstract decision of recovery and its
    implementation for one task), RecoveryRun.v (for a whole directory),
    ReplayDelivery.v (the replay deliveries of task_worker.rs),
    ReplaySafety.v and ReplayTick.v (what their answers mean among other
    processes, and under the retry tick).

    Providers: ProviderProcess.v (eva-storage/provider_process.rs: process
    snapshots, their transitions and record format, the table in memory and on
    disk), ProviderAdmission.v (provider_admission.rs: reservations of an
    adapter's places), ProviderSupervisor.v (eva-adapter/supervisor.rs:
    admission, slots, completion, circuit and restarts, over any process table
    [ProviderProcessTable] and admission table [ProviderAdmissionTable]),
    ProviderRuntime.v (restart.rs, runtime.rs, credential scopes: restart
    decisions and the loop of a supervised invocation).

    Policy: Policy.v (eva-policy permissions.rs, sandbox.rs, effective.rs),
    PolicyGate.v (domains.rs: the runtime gate; mutation_inventory.rs),
    Capability.v (eva-capability: selection, gate, registry, router).

    MCP (eva-mcp).  JSON (json_rpc.rs): Json.v (the hand-written scanner, string
    literals, object fields), JsonGrammar.v and JsonStrings.v (its
    specification).  Client: McpJsonRpc.v (policy.rs and the
    messages of json_rpc.rs), McpClient.v (the tool call over any transport,
    the interface [McpJsonRpcTransport]; the stdio transport),
    McpReader.v, McpRequests.v and McpCall.v (what is read and written).
    HTTP (json_rpc.rs, http_transport.rs): HttpFraming.v (response heads and
    bodies), HttpReader.v and HttpHead.v (their correctness), HttpSession.v (request heads, the session's operations),
    HttpSessionSafety.v (the session automaton), HttpRequestHead.v and
    HttpWire.v (what goes out).  Endpoints (session.rs): McpEndpoint.v, with
    McpEndpointLaws.v and Ipv6.v (the
    standard library's IPv6 addresses).  Event streams (sse.rs): Sse.v and
    HttpSse.v, with SseParser.v and SseStream.v.  Server: McpServer.v
    (server.rs: tools, argument schemas, the gate), ServerRequest.v and
    ServerDispatch.v (server_transport.rs: requests; sessions, dispatch,
    responses, the report), ServerSafety.v (a concrete dialogue; what reaches
    the handler), ServerWire.v and ServerReply.v
    (client and server read each other), ServerCall.v (a whole call).
    McpSession.v (the process sessions of session.rs, client.rs,
    tool_mapping.rs, streamable_http.rs).

    ** What the theorems show

    - Tasks.  Over any history of accepted commits a task is claimed at most
      as often as its retry budget allows, a task blocked for an unknown
      effect is never run again, and a completed task stays completed
      (TaskTransition.v).  The same holds on disk for any interleaving of
      processes with any I/O failures, and at most one worker holds a claim
      on an attempt (TaskConcurrency.v).  The gate accepts what the code
      builds (TaskAccept.v), a claimable task is claimed and completed
      (TaskProgress.v), and every valid record survives the disk
      (TaskStorage.v), with the exceptions recorded as findings.
    - Effects.  The ledger creates at most one record per idempotency key and
      never loses one; a record is prepared only under a live claim
      (EffectSafety.v).  Hence a non-idempotent handler is started at most
      once per key by any number of workers, and once it has started its
      attempt is completed with an acknowledged commit or not retryable
      (EffectOnce.v).  After a crash, recovery succeeds on every directory
      that agrees with the ledger, leaves no task running, carries out the
      ledger's verdicts, and run again changes nothing (RecoveryRun.v).
    - Events.  An acknowledged event stays acknowledged; what a file log
      opened with the writer reported as written is read back after a restart
      (EventLog.v); receipts
      are backed by records (EventBus.v); the ids under which dead letters
      are republished are unique (DeadLetterSafety.v), a redrive publishes
      exactly the next replay (DurableBus.v), and a retry tick dispatches only
      what a handler delivered (SchedulerRetry.v).  With the daemon's own
      handler that is an execution: each delivery of a dispatched event is a
      completed task on disk, under any interference, and a delivery nobody
      interferes with gets there (ReplayTick.v).  Routing, mailboxes, retry
      budgets and the generation gate follow their specifications
      (Scheduler.v); the agent loop decides (Agent.v).
    - Storage.  Acquiring the writer fences every earlier owner for good
      (Durable.v); the file state store refines the in-memory one, the empty
      key and the last version apart (StateStore.v).
    - Providers.  The process table on disk refines the one in memory
      (ProviderProcess.v).  An adapter never has more live leases than its
      limit, whatever the processes do and whatever their I/O does
      (ProviderAdmission.v).  An invocation ends within its restart budget
      (ProviderRuntime.v).  Two defects are proved: with the durable admission
      table no restarted invocation can end well (ProviderRuntime.v), and a
      rejected half-open probe keeps the circuit open until an invocation that
      was already running completes (ProviderSupervisor.v).
    - Policy.  The effective policy is the intersection of its layers, an
      accepted request stays within it (Policy.v), the gate's decision is
      characterised for every action (PolicyGate.v), and an authorised
      provider plan names only permitted providers (Capability.v).
    - Digests and formats.  The digest is the SHA-256 of FIPS 180-4
      (DigestSpec.v); its padding and the ledger's length-prefixed inputs are
      injective, topic patterns match as specified, record formats round-trip.

    - MCP.  The JSON scanner accepts exactly the JSON grammar up to the nesting
      limit (JsonGrammar.v), objects and strings read back (JsonStrings.v).  A client calls only an allowlisted and advertised tool,
      after the handshake, although an input that is embedded in the request can
      write a second request behind it (McpCall.v); what it writes over HTTP is one
      well-formed request head per request, to its own endpoint (HttpWire.v);
      its session follows an automaton (HttpSessionSafety.v).  A response is
      delimited in one way (HttpHead.v), a chunked body is accepted exactly when
      it is one (HttpReader.v), bodies are bounded and every read ends
      (HttpHead.v); event streams do not depend on how they are cut
      (SseParser.v, HttpSse.v) and their buffer stays within its limits
      (SseStream.v).  The spelling of an endpoint is canonical, and the
      policy pins redirects and production origins (McpEndpointLaws.v).  The server calls its handler only for a checked
      request of an announced session, and its sessions refine an automaton
      bounded by the configuration (ServerSafety.v).  Client and server fit:
      the server reads the client's requests as they were meant
      (ServerWire.v), the client reads everything the server writes
      (ServerReply.v), and so a call of an exposed tool runs it once and
      returns its result (ServerCall.v).

    ** Parameters

    The [sha2] crate's SHA-256 (effect ledger, provider tables) is a function argument, assumed
    to give 32 bytes and to be collision-free on the keys in use (on all adapter
    names in ProviderRuntime.v); the witnesses instantiate it with the digest of
    Digest.v or with the identity.  Task handlers, delivery
    handlers, agent handlers, MCP tool handlers and process supervisors are met
    through their answers; the reads of a connection, deadlines, the result of
    the TLS connector and the random bytes of a session are arguments.  A provider's transport is
    met through what each of its dispatches answers.

    ** Not modelled

    The daemon (processes, sockets, signals), the worker's threads, heartbeat
    and drain, its failure evidence, the redrive and
    provider-process parts of recovery.rs, the supervisor's drain, its MCP
    HTTP lifecycle and credential-release workers, the manifest and lease of
    durable_backend.rs, the artifact, audit and SQLite stores, YAML
    configuration and the readers of domains.rs (over serde values),
    the transports, credential vault and process backend of the adapters, the
    sockets, TLS, threads and lifecycle of MCP and its
    compatibility matrix, service managers, memory, observability, backup, release
    tooling, Lua, discovery, hardware and the command line: they are I/O and
    operating-system integration, or wait for a later extension.  First in
    line are the failure evidence of task_worker.rs,
    the redrive of recovery.rs, and the drain and rollback plans of
    eva-lifecycle. *)

From stdpp Require Import base numbers strings gmap list.

Declare Scope eva_scope.
Delimit Scope eva_scope with eva.
Global Open Scope eva_scope.

(** ** Results: Rust's [Result<A, E>] *)

Inductive Result (E A : Type) : Type :=
| Ok (value : A)
| Err (error : E).
Arguments Ok {E A} value.
Arguments Err {E A} error.

Definition is_ok {E A} (r : Result E A) : bool :=
  match r with Ok _ => true | Err _ => false end.

Definition ok {E A} (r : Result E A) : option A :=
  match r with Ok a => Some a | Err _ => None end.

Definition map_err {E A} (f : E -> E) (r : Result E A) : Result E A :=
  match r with Ok a => Ok a | Err e => Err (f e) end.

Definition result_map {E A B} (f : A -> B) (r : Result E A) : Result E B :=
  match r with Ok a => Ok (f a) | Err e => Err e end.

Definition ok_or {E A} (o : option A) (e : E) : Result E A :=
  match o with Some a => Ok a | None => Err e end.

(** [Option::is_none] and [Option::is_some]. *)
Definition is_none {A} (o : option A) : bool := match o with None => true | Some _ => false end.
Definition is_some {A} (o : option A) : bool := negb (is_none o).

(** The [?] operator, binding the success value. *)
Notation "'let?' x ':=' e 'in' k" :=
  (match e with Ok x => k | Err err => Err err end)
  (at level 10, x binder, e at level 200, k at level 200) : eva_scope.

(** The [?] operator on a [Result<(), E>]. *)
Notation "e '>>?' k" :=
  (match e with Ok _ => k | Err err => Err err end)
  (at level 100, k at level 200, right associativity) : eva_scope.

(** An early return [if guard { return Err(error) }]. *)
Notation "'reject' b 'with' e 'else' k" :=
  (if b then Err e else k)
  (at level 10, b at level 200, e at level 200, k at level 200) : eva_scope.

#[export] Instance Result_eq_dec {E A} `{EqDecision E} `{EqDecision A} :
  EqDecision (Result E A).
Proof. solve_decision. Defined.

Lemma ok_Some {E A} (r : Result E A) a : ok r = Some a <-> r = Ok a.
Proof. destruct r; naive_solver. Qed.

Lemma is_ok_true {E A} (r : Result E A) : is_ok r = true <-> exists a, r = Ok a.
Proof. destruct r; naive_solver. Qed.

Lemma map_err_Ok {E A} (f : E -> E) (r : Result E A) a : map_err f r = Ok a <-> r = Ok a.
Proof. destruct r; naive_solver. Qed.

(** Inverting an early return and a [?] without evaluating what follows. *)
Lemma reject_Ok {E A} (b : bool) (e : E) (k : Result E A) a :
  (reject b with e else k) = Ok a -> b = false /\ k = Ok a.
Proof. by destruct b. Qed.

Lemma then_Ok {E A B} (r : Result E B) (k : Result E A) a :
  (r >>? k) = Ok a -> (exists b, r = Ok b) /\ k = Ok a.
Proof. destruct r; naive_solver. Qed.

(** ** Record update

    [r <| field := v |>] is Rust's [r.field = v].  A record type registers
    its eta-expansion once; the setter of a field is found by abstracting
    the projection out of it. *)

Class Eta (R : Type) := eta_expand : R -> R.
Class Setter {R T : Type} (proj : R -> T) := set_field : (T -> T) -> R -> R.
Arguments set_field {R T} proj {_} f r.

Ltac solve_setter :=
  lazymatch goal with
  | |- @Setter ?R ?T ?proj =>
      let i := constr:(_ : Eta R) in
      let e := eval hnf in i in
      let p := eval pattern proj in e in
      lazymatch p with
      | ?g _ => exact (fun (f : T -> T) => g (fun r => f (proj r)))
      end
  end.
#[export] Hint Extern 1 (Setter _) => solve_setter : typeclass_instances.

Notation "r '<|' proj ':=' v '|>'" := (set_field proj (fun _ => v) r)
  (at level 1, left associativity, format "r  '<|'  proj  ':='  v  '|>'") : eva_scope.

(** ** Machine integers

    Unsigned integers of width [w] are [N] values; every operation that can
    leave the range is written with its Rust semantics. *)

Definition u32_max : N := 4294967295.
Definition u64_max : N := 18446744073709551615.
Definition u128_max : N := 340282366920938463463374607431768211455.
(** [usize] on the 64-bit targets the project builds for. *)
Definition usize_max : N := u64_max.

Definition checked_add (max a b : N) : option N :=
  if decide (a + b <= max)%N then Some (a + b)%N else None.
Definition saturating_add (max a b : N) : N := N.min max (a + b).
(** Release-profile [+] wraps around. *)
Definition wrapping_add (max a b : N) : N := ((a + b) mod (max + 1))%N.

Lemma checked_add_Some max a b c :
  checked_add max a b = Some c <-> (c = a + b)%N /\ (a + b <= max)%N.
Proof. unfold checked_add. case_decide; naive_solver lia. Qed.

Lemma checked_add_None max a b : checked_add max a b = None <-> (max < a + b)%N.
Proof. unfold checked_add. case_decide; split; intros; try done; lia. Qed.

Lemma wrapping_add_small max a b : (a + b <= max)%N -> wrapping_add max a b = (a + b)%N.
Proof. intros. unfold wrapping_add. rewrite N.mod_small; lia. Qed.

(** [Vec::len] and [str::len] as a machine integer. *)
Definition len {A} (l : list A) : N := N.of_nat (length l).

(** ** Automation *)

Create HintDb eva.

(** Splits every test a computation made on the way to a known result. *)
Ltac step_res :=
  repeat (progress (simplify_eq/= || case_match || case_decide)).

(** Turns boolean guards into propositions. *)
Ltac reflect_bools :=
  repeat match goal with
  | H : _ && _ = true |- _ => apply andb_true_iff in H as [? ?]
  | H : _ || _ = false |- _ => apply orb_false_iff in H as [? ?]
  | H : negb _ = true |- _ => apply negb_true_iff in H
  | H : negb _ = false |- _ => apply negb_false_iff in H
  | H : bool_decide _ = true |- _ => apply bool_decide_eq_true in H
  | H : bool_decide _ = false |- _ => apply bool_decide_eq_false in H
  | H : String.eqb _ _ = true |- _ => apply String.eqb_eq in H
  | H : String.eqb _ _ = false |- _ => apply String.eqb_neq in H
  | H : N.eqb _ _ = true |- _ => apply N.eqb_eq in H
  | H : N.eqb _ _ = false |- _ => apply N.eqb_neq in H
  | H : N.leb _ _ = true |- _ => apply N.leb_le in H
  | H : N.leb _ _ = false |- _ => apply N.leb_gt in H
  | H : N.ltb _ _ = true |- _ => apply N.ltb_lt in H
  | H : N.ltb _ _ = false |- _ => apply N.ltb_ge in H
  end.

(** ** Lists *)

Lemma filter_Some_In {A} (f : A -> bool) (l : list A) x :
  List.find f l = Some x -> x ∈ l /\ f x = true.
Proof. intros H. apply List.find_some in H as [? ?]. by rewrite list_elem_of_In. Qed.

Lemma Forall_snoc {A} (P : A -> Prop) l x : Forall P (l ++ [x]) <-> Forall P l /\ P x.
Proof. rewrite Forall_app, Forall_singleton. done. Qed.

Lemma omap_NoDup {A B} (f : A -> option B) l :
  NoDup l -> (forall x y z, x ∈ l -> y ∈ l -> f x = Some z -> f y = Some z -> x = y) -> NoDup (omap f l).
Proof.
  intros Hl. induction Hl as [|x l Hx Hl IH]; intros Hf; [constructor|]. cbn.
  assert (NoDup (omap f l)) as Hr by (apply IH; intros; eapply Hf; (by right) || done).
  destruct (f x) as [z|] eqn:E; [|done]. constructor; [|done].
  intros (y & Hy & Ey)%list_elem_of_omap. rewrite (Hf x y z) in Hx; [done|left|by right|done..].
Qed.
