(* ===== verification/RustStr.v ===== *)
(** * The Rust string and number operations the sources use

    A Rust [str] is modelled by its UTF-8 bytes as a [string]; operations on
    [char]s go through [chars], which cuts the bytes at the lead bytes, so a
    [char] is the 1 to 4 byte [string] of its encoding.  Holds [str::len],
    [trim], [split], [split_once], [strip_prefix], [lines], [join],
    [replace], [to_string]/[parse] of unsigned integers, lowercase hex and
    [String::from_utf8], with the lemmas the stores' round trips need. *)

From stdpp Require Import base numbers strings gmap list.
From Stdlib Require Import Ascii DecimalString DecimalN.
From Stdlib Require Import Ascii.
From S2P Require Import Prelude.

Definition nl : ascii := "010".
Definition cr : ascii := "013".
Definition tab : ascii := "009".
Definition backslash : ascii := "092".
Definition dquote : ascii := "034".

Definition str (c : ascii) : string := String c "".
Definition byte_of (c : ascii) : N := N_of_ascii c.

(** ** Bytes and characters *)

Fixpoint bytes_all (p : ascii -> bool) (s : string) : bool :=
  match s with
  | EmptyString => true
  | String c r => p c && bytes_all p r
  end.

Definition str_len (s : string) : N := N.of_nat (String.length s).
Definition str_is_empty (s : string) : bool := String.eqb s "".

(** Length of the UTF-8 sequence a lead byte announces. *)
Definition utf8_width (c : ascii) : nat :=
  let b := byte_of c in
  if (b <? 192)%N then 1 else if (b <? 224)%N then 2 else if (b <? 240)%N then 3 else 4.

(** [str::chars]. *)
Fixpoint chars (s : string) : list string :=
  match s with
  | EmptyString => []
  | String a r1 =>
      match utf8_width a, r1 with
      | 2, String b r2 => String a (str b) :: chars r2
      | 3, String b (String c r3) => String a (String b (str c)) :: chars r3
      | 4, String b (String c (String d r4)) =>
          String a (String b (String c (str d))) :: chars r4
      | _, _ => str a :: chars r1
      end
  end.

Definition char_bytes (c : string) : list N := byte_of <$> String.list_ascii_of_string c.

(** [char::is_whitespace]: the Unicode [White_Space] property. *)
Definition is_whitespace (c : string) : bool :=
  match char_bytes c with
  | [b] => ((9 <=? b) && (b <=? 13) || (b =? 32))%N
  | [194%N; b] => ((b =? 133) || (b =? 160))%N
  | [225%N; 154%N; 128%N] => true
  | [226%N; 128%N; b] =>
      ((128 <=? b) && (b <=? 138) || (b =? 168) || (b =? 169) || (b =? 175))%N
  | [226%N; 129%N; 159%N] => true
  | [227%N; 128%N; 128%N] => true
  | _ => false
  end.

(** [char::is_control]: the Unicode category [Cc]. *)
Definition is_control (c : string) : bool :=
  match char_bytes c with
  | [b] => ((b <? 32) || (b =? 127))%N
  | [194%N; b] => ((128 <=? b) && (b <=? 159))%N
  | _ => false
  end.

Definition is_ascii_digit (c : ascii) : bool :=
  ((48 <=? byte_of c) && (byte_of c <=? 57))%N.
Definition is_ascii_alphanumeric (c : ascii) : bool :=
  is_ascii_digit c
  || ((65 <=? byte_of c) && (byte_of c <=? 90) || (97 <=? byte_of c) && (byte_of c <=? 122))%N.
Definition is_lower_hex (c : ascii) : bool :=
  is_ascii_digit c || ((97 <=? byte_of c) && (byte_of c <=? 102))%N.

(** [value.chars().all(p)] for a predicate that only accepts ASCII. *)
Definition chars_all_ascii (p : ascii -> bool) (s : string) : bool :=
  forallb (fun ch => match ch with String c EmptyString => p c | _ => false end) (chars s).

(** ** Searching, trimming, splitting *)

Fixpoint drop_while (p : string -> bool) (l : list string) : list string :=
  match l with
  | [] => []
  | c :: r => if p c then drop_while p r else l
  end.

Definition str_concat (l : list string) : string := foldr String.append "" l.

(** [str::trim]. *)
Definition trim (s : string) : string :=
  str_concat (rev (drop_while is_whitespace (rev (drop_while is_whitespace (chars s))))).

Fixpoint contains_char (c : ascii) (s : string) : bool :=
  match s with
  | EmptyString => false
  | String d r => Ascii.eqb c d || contains_char c r
  end.

Fixpoint strip_prefix (p s : string) : option string :=
  match p, s with
  | EmptyString, _ => Some s
  | String a p', String b s' => if Ascii.eqb a b then strip_prefix p' s' else None
  | String _ _, EmptyString => None
  end.
Definition starts_with (p s : string) : bool :=
  match strip_prefix p s with Some _ => true | None => false end.

Fixpoint ends_with_char (c : ascii) (s : string) : bool :=
  match s with
  | EmptyString => false
  | String d EmptyString => Ascii.eqb c d
  | String _ r => ends_with_char c r
  end.

(** [str::split(c)]: never empty. *)
Fixpoint split (c : ascii) (s : string) : list string :=
  match s with
  | EmptyString => [""]
  | String d r =>
      if Ascii.eqb c d then "" :: split c r
      else match split c r with
           | [] => [str d]
           | w :: ws => String d w :: ws
           end
  end.

(** [str::split_once(c)]. *)
Fixpoint split_once (c : ascii) (s : string) : option (string * string) :=
  match s with
  | EmptyString => None
  | String d r =>
      if Ascii.eqb c d then Some ("", r)
      else match split_once c r with
           | Some (k, v) => Some (String d k, v)
           | None => None
           end
  end.

(** [str::lines]: [\n] or [\r\n] ends a line. *)
Fixpoint lines (s : string) : list string :=
  match s with
  | EmptyString => []
  | String c r =>
      if Ascii.eqb c nl then "" :: lines r
      else if Ascii.eqb c cr && starts_with (str nl) r then lines r
      else match lines r with
           | [] => [str c]
           | l :: ls => String c l :: ls
           end
  end.

(** [[String]::join(sep)]. *)
Fixpoint join (sep : string) (l : list string) : string :=
  match l with
  | [] => ""
  | [x] => x
  | x :: r => x +:+ sep +:+ join sep r
  end.

(** [str::replace(char, &str)]. *)
Fixpoint replace_char (c : ascii) (by_ : string) (s : string) : string :=
  match s with
  | EmptyString => ""
  | String d r =>
      if Ascii.eqb c d then by_ +:+ replace_char c by_ r else String d (replace_char c by_ r)
  end.

(** [str::replace(&str, &str)] for a non-empty pattern: left to right,
    [skip] counts the bytes of a match that are still to be dropped. *)
Fixpoint replace_go (p by_ : string) (skip : nat) (s : string) : string :=
  match s with
  | EmptyString => ""
  | String d r =>
      match skip with
      | S k => replace_go p by_ k r
      | O =>
          if starts_with p s then by_ +:+ replace_go p by_ (String.length p - 1) r
          else String d (replace_go p by_ 0 r)
      end
  end.
Definition replace_str (p by_ s : string) : string := replace_go p by_ 0 s.

(** ** Numbers *)

(** [to_string] of an unsigned integer. *)
Definition n_to_string (n : N) : string := NilZero.string_of_uint (N.to_uint n).

(** [bool::to_string]. *)
Definition bool_to_string (b : bool) : string := if b then "true" else "false".

(** [str::parse] for an unsigned integer type: an optional [+], at least one
    digit, and no overflow. *)
Definition parse_unsigned (max : N) (s : string) : option N :=
  let digits := match s with String c r => if Ascii.eqb c "+" then r else s | _ => s end in
  match NilZero.uint_of_string digits with
  | Some d => let n := N.of_uint d in if (n <=? max)%N then Some n else None
  | None => None
  end.

(** ** Hex and UTF-8 *)

Definition hex_digit (n : N) : ascii :=
  ascii_of_N (if (n <? 10)%N then 48 + n else 87 + n).

(** Value of a lowercase or uppercase hex digit. *)
Definition hex_value (c : ascii) : option N :=
  let b := byte_of c in
  if ((48 <=? b) && (b <=? 57))%N then Some (b - 48)%N
  else if ((97 <=? b) && (b <=? 102))%N then Some (b - 87)%N
  else if ((65 <=? b) && (b <=? 70))%N then Some (b - 55)%N
  else None.

(** A [Vec<u8>] is carried as the [string] of its bytes. *)
Fixpoint hex_encode (bytes : string) : string :=
  match bytes with
  | EmptyString => ""
  | String c r =>
      String (hex_digit (N.shiftr (byte_of c) 4))
        (String (hex_digit (N.land (byte_of c) 15)) (hex_encode r))
  end.

Fixpoint hex_decode_pairs (s : string) : option string :=
  match s with
  | EmptyString => Some ""
  | String a (String b r) =>
      match hex_value a, hex_value b with
      | Some h, Some l =>
          match hex_decode_pairs r with
          | Some bytes => Some (String (ascii_of_N (N.lor (N.shiftl h 4) l)) bytes)
          | None => None
          end
      | _, _ => None
      end
  | String _ EmptyString => None
  end.

Definition in_range (lo hi : N) (c : ascii) : bool := ((lo <=? byte_of c) && (byte_of c <=? hi))%N.

(** The well-formedness test of [String::from_utf8]. *)
Fixpoint utf8_valid (s : string) : bool :=
  match s with
  | EmptyString => true
  | String a r1 =>
      if in_range 0 127 a then utf8_valid r1
      else match r1 with
      | EmptyString => false
      | String b r2 =>
          if in_range 194 223 a then in_range 128 191 b && utf8_valid r2
          else match r2 with
          | EmptyString => false
          | String c r3 =>
              if in_range 224 224 a then in_range 160 191 b && in_range 128 191 c && utf8_valid r3
              else if in_range 237 237 a then in_range 128 159 b && in_range 128 191 c && utf8_valid r3
              else if in_range 225 239 a then in_range 128 191 b && in_range 128 191 c && utf8_valid r3
              else match r3 with
              | EmptyString => false
              | String d r4 =>
                  (in_range 240 240 a && in_range 144 191 b
                   || in_range 241 243 a && in_range 128 191 b
                   || in_range 244 244 a && in_range 128 143 b)
                  && in_range 128 191 c && in_range 128 191 d && utf8_valid r4
              end
          end
      end
  end.

(** ** Lemmas: append and prefixes *)

#[global] Arguments Ascii.eqb : simpl never.
#[global] Arguments String.eqb : simpl never.

Lemma append_cons c s t : String c s +:+ t = String c (s +:+ t).
Proof. done. Qed.

Lemma append_nil_l t : "" +:+ t = t.
Proof. done. Qed.

Lemma append_nil_r s : s +:+ "" = s.
Proof. induction s as [|c s IH]; [done|]. by rewrite append_cons, IH. Qed.

Lemma append_assoc (s t u : string) : s +:+ (t +:+ u) = (s +:+ t) +:+ u.
Proof. induction s as [|c s IH]; [done|]. by rewrite !append_cons, IH. Qed.

Lemma length_append s t : String.length (s +:+ t) = String.length s + String.length t.
Proof. induction s as [|c s IH]; [done|]. rewrite append_cons. cbn. by rewrite IH. Qed.

Lemma append_inj_length s1 s2 t1 t2 :
  String.length s1 = String.length s2 -> s1 +:+ t1 = s2 +:+ t2 -> s1 = s2 /\ t1 = t2.
Proof.
  revert s2. induction s1 as [|c s1 IH]; intros [|d s2] Hl; try done.
  rewrite !append_cons. intros [= -> H]. cbn in Hl.
  destruct (IH s2 ltac:(lia) H) as [-> ->]. done.
Qed.

Lemma append_prefix_inj (s t1 t2 : string) : s +:+ t1 = s +:+ t2 -> t1 = t2.
Proof. intros H. by apply append_inj_length in H as [_ H]. Qed.

Lemma append_suffix_inj (s1 s2 t : string) : s1 +:+ t = s2 +:+ t -> s1 = s2.
Proof.
  intros H. assert (String.length s1 = String.length s2) as Hl.
  { apply (f_equal String.length) in H. rewrite !length_append in H. lia. }
  by destruct (append_inj_length _ _ _ _ Hl H).
Qed.

Lemma bytes_all_append p s t : bytes_all p (s +:+ t) = bytes_all p s && bytes_all p t.
Proof. induction s as [|c s IH]; [done|]. rewrite append_cons. cbn. by rewrite IH, andb_assoc. Qed.

Lemma bytes_all_impl (p q : ascii -> bool) s :
  (forall c, p c = true -> q c = true) -> bytes_all p s = true -> bytes_all q s = true.
Proof.
  intros Hpq. induction s as [|c s IH]; [done|]. cbn. rewrite !andb_true_iff. naive_solver.
Qed.

Lemma contains_char_false c s :
  contains_char c s = false <-> bytes_all (fun d => negb (Ascii.eqb c d)) s = true.
Proof.
  induction s as [|d s IH]; [done|]. cbn.
  rewrite orb_false_iff, andb_true_iff, negb_true_iff, IH. done.
Qed.

Lemma contains_char_append c s t :
  contains_char c (s +:+ t) = contains_char c s || contains_char c t.
Proof. induction s as [|d s IH]; [done|]. rewrite append_cons. cbn. by rewrite IH, orb_assoc. Qed.

Lemma strip_prefix_append p s : strip_prefix p (p +:+ s) = Some s.
Proof. induction p as [|c p IH]; [done|]. rewrite append_cons. cbn. by rewrite Ascii.eqb_refl. Qed.

Lemma strip_prefix_Some p s r : strip_prefix p s = Some r <-> s = p +:+ r.
Proof.
  split; [|intros ->; apply strip_prefix_append].
  revert s. induction p as [|c p IH]; intros s; [cbn; naive_solver|].
  destruct s as [|d s]; [done|]. cbn.
  destruct (Ascii.eqb_spec c d) as [->|]; [|done]. intros ->%IH. done.
Qed.

Lemma starts_with_append p s : starts_with p (p +:+ s) = true.
Proof. unfold starts_with. by rewrite strip_prefix_append. Qed.

Lemma split_once_append c k v :
  contains_char c k = false -> split_once c (k +:+ String c v) = Some (k, v).
Proof.
  induction k as [|d k IH]; cbn -[String.append].
  - intros _. rewrite append_nil_l. cbn. by rewrite Ascii.eqb_refl.
  - rewrite orb_false_iff. intros [Hd Hk]. rewrite append_cons. cbn. by rewrite Hd, IH.
Qed.

Lemma split_no_sep c s : contains_char c s = false -> split c s = [s].
Proof.
  induction s as [|d s IH]; [done|]. cbn. rewrite orb_false_iff. intros [-> Hs]. by rewrite IH.
Qed.

Lemma split_append c s t :
  contains_char c s = false -> split c (s +:+ String c t) = s :: split c t.
Proof.
  induction s as [|d s IH]; cbn -[String.append].
  - intros _. rewrite append_nil_l. cbn. by rewrite Ascii.eqb_refl.
  - rewrite orb_false_iff. intros [Hd Hs]. rewrite append_cons. cbn. by rewrite Hd, IH.
Qed.

Lemma split_nonempty c s : split c s <> [].
Proof. destruct s; cbn; [done|]. repeat case_match; done. Qed.

(** [split] loses nothing: joining the pieces gives the string back. *)
Lemma join_split c s : join (str c) (split c s) = s.
Proof.
  induction s as [|d s IH]; [done|]. cbn.
  destruct (Ascii.eqb_spec c d) as [->|].
  - pose proof (split_nonempty d s). destruct (split d s) as [|w ws] eqn:E; [done|].
    change (str d +:+ join (str d) (w :: ws) = String d s). by rewrite IH.
  - pose proof (split_nonempty c s). destruct (split c s) as [|w ws] eqn:E; [done|].
    destruct ws as [|w' ws]; [cbn in IH; by subst|].
    change (String d w +:+ (str c +:+ join (str c) (w' :: ws)) = String d s).
    rewrite append_cons. f_equal. exact IH.
Qed.

Lemma split_contains_no_sep c s w : w ∈ split c s -> contains_char c w = false.
Proof.
  revert w. induction s as [|d s IH]; intros w; cbn.
  - rewrite list_elem_of_singleton. by intros ->.
  - destruct (Ascii.eqb c d) eqn:E.
    + rewrite elem_of_cons. intros [->|?]; [done|auto].
    + pose proof (split_nonempty c s). destruct (split c s) as [|w' ws] eqn:E'; [done|].
      rewrite elem_of_cons. intros [->|?]; cbn.
      * rewrite E. cbn. apply IH. left.
      * apply IH. by right.
Qed.

(** ** Lemmas: lines *)

(** A line the formats can carry: no line terminator inside. *)
Definition line_clean (s : string) : bool :=
  negb (contains_char nl s) && negb (contains_char cr s).

Lemma line_clean_append s t : line_clean (s +:+ t) = line_clean s && line_clean t.
Proof.
  unfold line_clean. rewrite !contains_char_append, !negb_orb.
  by destruct (contains_char nl s), (contains_char nl t), (contains_char cr s), (contains_char cr t).
Qed.

Lemma line_clean_bytes_all (p : ascii -> bool) s :
  p nl = false -> p cr = false -> bytes_all p s = true -> line_clean s = true.
Proof.
  intros Hn Hc Hs. unfold line_clean. rewrite andb_true_iff, !negb_true_iff, !contains_char_false.
  split; eapply bytes_all_impl; eauto; intros c Hp; rewrite negb_true_iff, Ascii.eqb_neq; congruence.
Qed.

Lemma lines_cons_line l r :
  line_clean l = true -> lines (l +:+ String nl r) = l :: lines r.
Proof.
  unfold line_clean. rewrite andb_true_iff, !negb_true_iff. intros [Hn Hc].
  induction l as [|c l IH]; [done|]. cbn in Hn, Hc.
  apply orb_false_iff in Hn as [Hn1 Hn2], Hc as [Hc1 Hc2].
  rewrite append_cons. cbn -[Ascii.eqb].
  rewrite (Ascii.eqb_sym c nl), Hn1, (Ascii.eqb_sym c cr), Hc1. cbn -[String.append].
  by rewrite IH.
Qed.

Lemma join_nl_snoc_empty ls :
  join (str nl) (ls ++ [""]) = foldr (fun l acc => l +:+ String nl acc) "" ls.
Proof.
  induction ls as [|l ls IH]; [done|]. cbn [foldr]. rewrite <- IH.
  destruct ls; done.
Qed.

Lemma lines_join ls :
  Forall (fun l => line_clean l = true) ls -> lines (join (str nl) (ls ++ [""])) = ls.
Proof.
  intros H. rewrite join_nl_snoc_empty. induction H as [|l ls Hl _ IH]; [done|].
  cbn [foldr]. by rewrite lines_cons_line, IH.
Qed.

(** ** Lemmas: numbers *)

Lemma parse_unsigned_to_string max n :
  (n <= max)%N -> parse_unsigned max (n_to_string n) = Some n.
Proof.
  intros Hn. unfold parse_unsigned, n_to_string.
  assert (Hnil : N.to_uint n <> Decimal.Nil) by (destruct n; [done|];
    apply DecimalPos.Unsigned.to_uint_nonnil).
  assert (Hplus : (match NilZero.string_of_uint (N.to_uint n) with
    | String c r => if Ascii.eqb c "+" then r else NilZero.string_of_uint (N.to_uint n)
    | _ => NilZero.string_of_uint (N.to_uint n) end) = NilZero.string_of_uint (N.to_uint n))
    by (by destruct (N.to_uint n)).
  rewrite Hplus, NilZero.usu by done. rewrite DecimalN.Unsigned.of_to.
  by apply N.leb_le in Hn as ->.
Qed.

Lemma string_of_uint_digits d : bytes_all is_ascii_digit (NilEmpty.string_of_uint d) = true.
Proof. induction d; done. Qed.

Lemma n_to_string_digits n : bytes_all is_ascii_digit (n_to_string n) = true.
Proof.
  unfold n_to_string, NilZero.string_of_uint. destruct (N.to_uint n); try done;
  apply string_of_uint_digits.
Qed.

Lemma n_to_string_inj m n : n_to_string m = n_to_string n -> m = n.
Proof.
  intros H. pose proof (parse_unsigned_to_string (N.max m n) m ltac:(lia)) as Hm.
  rewrite H, parse_unsigned_to_string in Hm by lia. by injection Hm.
Qed.

Lemma n_to_string_nonempty n : n_to_string n <> "".
Proof.
  intros H. pose proof (parse_unsigned_to_string n n ltac:(lia)) as Hn. rewrite H in Hn. done.
Qed.

(** ** Lemmas: hex *)

Lemma byte_of_bound c : (byte_of c < 256)%N.
Proof. apply N_ascii_bounded. Qed.

(** Every byte value, for case analyses that compute. *)
Lemma ascii_forall (p : ascii -> bool) :
  forallb p (ascii_of_nat <$> seq 0 256) = true -> forall c, p c = true.
Proof.
  intros H c. rewrite forallb_forall in H. apply H.
  rewrite <- list_elem_of_In, list_elem_of_fmap. exists (nat_of_ascii c).
  rewrite ascii_nat_embedding. split; [done|].
  rewrite elem_of_seq. pose proof (nat_ascii_bounded c). lia.
Qed.

Definition hex_byte_ok (c : ascii) : bool :=
  match hex_value (hex_digit (N.shiftr (byte_of c) 4)),
        hex_value (hex_digit (N.land (byte_of c) 15)) with
  | Some h, Some l => Ascii.eqb (ascii_of_N (N.lor (N.shiftl h 4) l)) c
  | _, _ => false
  end
  && is_lower_hex (hex_digit (N.shiftr (byte_of c) 4))
  && is_lower_hex (hex_digit (N.land (byte_of c) 15)).

Lemma hex_byte_ok_all c : hex_byte_ok c = true.
Proof. revert c. apply ascii_forall. vm_compute. reflexivity. Qed.

Lemma hex_encode_lower s : bytes_all is_lower_hex (hex_encode s) = true.
Proof.
  induction s as [|c s IH]; [done|]. pose proof (hex_byte_ok_all c) as H.
  unfold hex_byte_ok in H. rewrite !andb_true_iff in H. destruct H as [[_ H1] H2].
  cbn [hex_encode bytes_all]. by rewrite H1, H2, IH.
Qed.

Lemma hex_decode_encode s : hex_decode_pairs (hex_encode s) = Some s.
Proof.
  induction s as [|c s IH]; [done|]. pose proof (hex_byte_ok_all c) as H.
  unfold hex_byte_ok in H. rewrite !andb_true_iff in H. destruct H as [[H _] _].
  cbn [hex_encode hex_decode_pairs]. rewrite IH.
  repeat case_match; try done. by apply Ascii.eqb_eq in H as ->.
Qed.

Lemma hex_encode_length s : String.length (hex_encode s) = 2 * String.length s.
Proof. induction s as [|c s IH]; [done|]. cbn [hex_encode String.length]. lia. Qed.

Lemma lower_hex_clean s : bytes_all is_lower_hex s = true -> line_clean s = true.
Proof. by apply line_clean_bytes_all. Qed.

(** ** Lemmas: ASCII text *)

(** Printable, non-blank ASCII: what identifiers are made of. *)
Definition is_graphic (c : ascii) : bool := ((33 <=? byte_of c) && (byte_of c <=? 126))%N.

(** Decides an implication between byte predicates by trying every byte. *)
Lemma ascii_impl (p q : ascii -> bool) :
  forallb (fun c => implb (p c) (q c)) (ascii_of_nat <$> seq 0 256) = true ->
  forall c, p c = true -> q c = true.
Proof. intros H c Hc. pose proof (ascii_forall _ H c) as Hi. cbn in Hi. by rewrite Hc in Hi. Qed.

Lemma alphanumeric_graphic c : is_ascii_alphanumeric c = true -> is_graphic c = true.
Proof. apply ascii_impl. vm_compute. reflexivity. Qed.

Lemma graphic_width c : is_graphic c = true -> utf8_width c = 1.
Proof.
  unfold is_graphic, utf8_width. intros H. reflect_bools.
  destruct (N.ltb_spec (byte_of c) 192); [done|lia].
Qed.

Lemma chars_graphic s :
  bytes_all is_graphic s = true -> chars s = str <$> String.list_ascii_of_string s.
Proof.
  induction s as [|c s IH]; [done|]. cbn [bytes_all]. rewrite andb_true_iff. intros [Hc Hs].
  cbn. rewrite (graphic_width c Hc), (IH Hs). by destruct s as [|? [|? [|]]].
Qed.

Lemma graphic_not_whitespace c : is_graphic c = true -> is_whitespace (str c) = false.
Proof.
  intros H. apply negb_true_iff. revert c H. apply ascii_impl. vm_compute. reflexivity.
Qed.

Lemma graphic_not_control c : is_graphic c = true -> is_control (str c) = false.
Proof.
  intros H. apply negb_true_iff. revert c H. apply ascii_impl. vm_compute. reflexivity.
Qed.

Lemma drop_while_none p l : Forall (fun c => p c = false) l -> drop_while p l = l.
Proof. destruct 1 as [|c l Hc]; [done|]. cbn. by rewrite Hc. Qed.

Lemma str_concat_app l m : str_concat (l ++ m) = str_concat l +:+ str_concat m.
Proof.
  induction l as [|s l IH]; [done|]. change (s +:+ str_concat (l ++ m) = (s +:+ str_concat l) +:+ str_concat m).
  by rewrite IH, append_assoc.
Qed.

Lemma str_concat_singletons l : str_concat (str <$> l) = String.string_of_list_ascii l.
Proof.
  induction l as [|c l IH]; [done|].
  change (String c (str_concat (str <$> l)) = String c (String.string_of_list_ascii l)). by rewrite IH.
Qed.

Lemma graphic_chars_not_whitespace s :
  bytes_all is_graphic s = true -> Forall (fun c => is_whitespace c = false) (chars s).
Proof.
  intros H. rewrite (chars_graphic s H), Forall_fmap. clear -H.
  induction s as [|c s IH]; cbn in *; [constructor|].
  apply andb_true_iff in H as [? ?]. constructor; [by apply graphic_not_whitespace|auto].
Qed.

Lemma trim_graphic s : bytes_all is_graphic s = true -> trim s = s.
Proof.
  intros H. unfold trim. pose proof (graphic_chars_not_whitespace s H) as Hw.
  rewrite (drop_while_none _ _ Hw). rewrite drop_while_none by (by apply Forall_rev).
  rewrite rev_involutive.
  by rewrite chars_graphic, str_concat_singletons, String.string_of_list_ascii_of_string.
Qed.

Lemma graphic_existsb (p : string -> bool) s :
  (forall c, is_graphic c = true -> p (str c) = false) ->
  bytes_all is_graphic s = true -> existsb p (chars s) = false.
Proof.
  intros Hp H. rewrite (chars_graphic s H). clear -H Hp.
  induction s as [|c s IH]; [done|]. cbn in *. apply andb_true_iff in H as [? ?].
  rewrite Hp by done. auto.
Qed.

Lemma chars_all_ascii_graphic (p : ascii -> bool) s :
  bytes_all is_graphic s = true -> chars_all_ascii p s = bytes_all p s.
Proof.
  intros H. unfold chars_all_ascii. rewrite (chars_graphic s H). clear H.
  induction s as [|c s IH]; [done|]. cbn. by rewrite <- IH.
Qed.

Lemma graphic_utf8 s : bytes_all is_graphic s = true -> utf8_valid s = true.
Proof.
  induction s as [|c s IH]; [done|]. cbn [bytes_all utf8_valid]. rewrite andb_true_iff.
  intros [Hc Hs]. unfold in_range at 1. unfold is_graphic in Hc. reflect_bools.
  assert ((0 <=? byte_of c)%N && (byte_of c <=? 127)%N = true) as ->
    by (apply andb_true_iff; split; apply N.leb_le; lia).
  auto.
Qed.

(** A string all of whose characters pass an ASCII test has only such bytes. *)
Lemma chars_all_ascii_bytes (p : ascii -> bool) s :
  chars_all_ascii p s = true -> bytes_all p s = true.
Proof.
  unfold chars_all_ascii.
  enough (forall n s, String.length s <= n -> forallb _ (chars s) = true -> bytes_all p s = true)
    as H by eauto.
  clear s. intros n. induction n as [|n IH]; intros s Hn; destruct s as [|a s]; try done.
  { cbn in Hn. lia. }
  cbn in Hn |- *.
  destruct (utf8_width a) as [|[|[|[|[|]]]]], s as [|b [|c [|d s]]];
    cbn [forallb str bytes_all]; rewrite ?andb_true_iff, ?andb_false_l; try done;
    intros; destruct_and?; try done;
    repeat split; try done;
    match goal with H : forallb _ (chars ?r) = true |- _ =>
      apply IH in H; [cbn in H; rewrite ?andb_true_iff in H; naive_solver|cbn in *; lia] end.
Qed.

(** ** Lemmas: joining and splitting *)

Lemma join_cons sep x y l : join sep (x :: y :: l) = x +:+ (sep +:+ join sep (y :: l)).
Proof. done. Qed.

Lemma split_join c l :
  l <> [] -> Forall (fun s => contains_char c s = false) l -> split c (join (str c) l) = l.
Proof.
  intros Hne Hl. induction Hl as [|x l Hx Hl IH]; [done|].
  destruct l as [|y l]; [by apply split_no_sep|].
  rewrite join_cons. change (str c +:+ ?t) with (String c t).
  rewrite split_append by done. by rewrite IH.
Qed.

Lemma ends_with_snoc c s : ends_with_char c s = true <-> exists p, s = p +:+ str c.
Proof.
  split.
  - induction s as [|d s IH]; [done|]. cbn. destruct s as [|d' s].
    + intros ->%Ascii.eqb_eq. by exists "".
    + intros [p Hp]%IH. exists (String d p). rewrite append_cons. by rewrite <- Hp.
  - intros [p ->]. induction p as [|d p IH].
    + rewrite append_nil_l. cbn. apply Ascii.eqb_refl.
    + rewrite append_cons. cbn. destruct (p +:+ str c) eqn:E; [by destruct p|done].
Qed.

Lemma split_snoc c p : split c (p +:+ str c) = split c p ++ [""].
Proof.
  induction p as [|d p IH].
  - rewrite append_nil_l. cbn. by rewrite Ascii.eqb_refl.
  - rewrite append_cons. cbn. rewrite IH. destruct (Ascii.eqb c d); [done|].
    pose proof (split_nonempty c p). by destruct (split c p).
Qed.

Lemma ends_with_split c s : ends_with_char c s = true -> "" ∈ split c s.
Proof.
  intros [p ->]%ends_with_snoc. rewrite split_snoc, elem_of_app. right. by left.
Qed.

Lemma split_Forall_no_sep c s : Forall (fun w => contains_char c w = false) (split c s).
Proof.
  rewrite List.Forall_forall. intros w Hw. rewrite <- list_elem_of_In in Hw.
  by eapply split_contains_no_sep.
Qed.

Lemma n_to_string_clean n : line_clean (n_to_string n) = true.
Proof. eapply line_clean_bytes_all; [| |apply n_to_string_digits]; done. Qed.

Lemma hex_encode_clean s : line_clean (hex_encode s) = true.
Proof. apply lower_hex_clean, hex_encode_lower. Qed.

Lemma digits_graphic s : bytes_all is_ascii_digit s = true -> bytes_all is_graphic s = true.
Proof. apply bytes_all_impl, ascii_impl. vm_compute. reflexivity. Qed.
#[export] Hint Resolve n_to_string_clean hex_encode_clean : eva.

(** ** Lemmas: UTF-8 *)

Lemma utf8_valid_append s t :
  utf8_valid s = true -> utf8_valid t = true -> utf8_valid (s +:+ t) = true.
Proof.
  intros Hs Ht. remember (String.length s) as n eqn:Hn. revert s Hn Hs.
  induction n as [n IH] using lt_wf_ind. intros s -> Hs.
  destruct s as [|a r1]; [done|]. rewrite append_cons. cbn [utf8_valid] in Hs |- *.
  assert (IH' : forall r, String.length r < String.length (String a r1) ->
    utf8_valid r = true -> utf8_valid (r +:+ t) = true) by (intros; by eapply IH).
  clear IH. destruct (in_range 0 127 a).
  { apply IH'; [cbn; lia|done]. }
  destruct r1 as [|b r2]; [done|]. rewrite append_cons.
  destruct (in_range 194 223 a).
  { apply andb_true_iff in Hs as [-> ?]. apply IH'; [cbn; lia|done]. }
  destruct r2 as [|c r3]; [done|]. rewrite append_cons.
  destruct (in_range 224 224 a).
  { apply andb_true_iff in Hs as [-> ?]. apply IH'; [cbn; lia|done]. }
  destruct (in_range 237 237 a).
  { apply andb_true_iff in Hs as [-> ?]. apply IH'; [cbn; lia|done]. }
  destruct (in_range 225 239 a).
  { apply andb_true_iff in Hs as [-> ?]. apply IH'; [cbn; lia|done]. }
  destruct r3 as [|d r4]; [done|]. rewrite append_cons.
  apply andb_true_iff in Hs as [-> ?]. apply IH'; [cbn; lia|done].
Qed.

Definition is_ascii (c : ascii) : bool := in_range 0 127 c.

Lemma ascii_utf8 s : bytes_all is_ascii s = true -> utf8_valid s = true.
Proof.
  induction s as [|c s IH]; [done|]. cbn [bytes_all utf8_valid]. unfold is_ascii at 1.
  rewrite andb_true_iff. intros [-> ?]. auto.
Qed.

Lemma n_to_string_utf8 n : utf8_valid (n_to_string n) = true.
Proof.
  apply ascii_utf8. eapply bytes_all_impl; [|apply n_to_string_digits].
  apply ascii_impl. vm_compute. reflexivity.
Qed.

Lemma hex_encode_utf8 s : utf8_valid (hex_encode s) = true.
Proof.
  apply ascii_utf8. eapply bytes_all_impl; [|apply hex_encode_lower].
  apply ascii_impl. vm_compute. reflexivity.
Qed.
Lemma hex_no_dot s : contains_char "." (hex_encode s) = false.
Proof.
  apply contains_char_false. eapply bytes_all_impl; [|apply hex_encode_lower].
  apply ascii_impl. vm_compute. reflexivity.
Qed.
Lemma hex_encode_inj a b : hex_encode a = hex_encode b -> a = b.
Proof.
  intros E. apply (f_equal hex_decode_pairs) in E. rewrite !hex_decode_encode in E. by injection E.
Qed.
#[export] Hint Resolve utf8_valid_append n_to_string_utf8 hex_encode_utf8 : eva.

(** ** Key-value text (the line format of the durable records)

    The stores write one [key=value] line per field.  [render] is the text a
    list of fields makes; [fields_map] the map a reader builds from it.  The
    readers differ per store and live with their store; what they share is
    here: which fields survive the trip through [lines] and [split_once]. *)

Abbreviation Fields := (list (string * string)).

Definition field_line (f : string * string) : string := f.1 +:+ "=" +:+ f.2.
Definition render (fs : Fields) : string :=
  foldr (fun f acc => field_line f +:+ String nl acc) "" fs.

Abbreviation FieldMap := (gmap string string).

Definition field_clean (f : string * string) : Prop :=
  f.1 <> "" /\ bytes_all is_graphic f.1 = true /\ contains_char "=" f.1 = false /\
  line_clean f.2 = true.

Lemma trim_graphic_head c s : is_graphic c = true -> trim (String c s) <> "".
Proof.
  intros Hc. unfold trim.
  assert (Hch : exists r, chars (String c s) = str c :: r).
  { cbn. rewrite (graphic_width c Hc). eexists. by destruct s as [|? [|? [|]]]. }
  destruct Hch as [r ->]. cbn [drop_while]. rewrite (graphic_not_whitespace c Hc).
  cbn [rev].
  assert (Hd : exists l, drop_while is_whitespace (rev r ++ [str c]) = l ++ [str c]).
  { induction (rev r) as [|x l IH]; cbn [app drop_while]; [rewrite (graphic_not_whitespace c Hc); by exists []|].
    destruct (is_whitespace x); [exact IH|]. by exists (x :: l). }
  destruct Hd as [l ->]. by rewrite rev_app_distr.
Qed.

Definition fields_map (m : FieldMap) (fs : Fields) : FieldMap :=
  foldl (fun m f => <[f.1 := f.2]> m) m fs.

(** Every field of [fs] is in [m] with its value. *)
Definition holds (m : FieldMap) (fs : Fields) : Prop := Forall (fun f => m !! f.1 = Some f.2) fs.

Lemma holds_app m a b : holds m (a ++ b) <-> holds m a /\ holds m b.
Proof. unfold holds. by rewrite Forall_app. Qed.
Lemma holds_one m k v : holds m [(k, v)] <-> m !! k = Some v.
Proof. unfold holds. by rewrite Forall_singleton. Qed.

Lemma fields_map_lookup_ne m fs k : k ∉ fs.*1 -> fields_map m fs !! k = m !! k.
Proof.
  revert m. induction fs as [|f fs IH]; intros m Hk; [done|]. cbn in Hk.
  rewrite not_elem_of_cons in Hk. destruct Hk as [Hne Hk].
  cbn [fields_map foldl]. fold (fields_map (<[f.1:=f.2]> m) fs). rewrite IH by done.
  by rewrite lookup_insert_ne.
Qed.

Lemma fields_map_holds fs m : NoDup fs.*1 -> holds (fields_map m fs) fs.
Proof.
  revert m. induction fs as [|f fs IH]; intros m Hd; [constructor|]. cbn in Hd.
  apply NoDup_cons in Hd as [Hf Hd].
  cbn [fields_map foldl]. fold (fields_map (<[f.1:=f.2]> m) fs). constructor.
  - rewrite fields_map_lookup_ne by done. by rewrite lookup_insert_eq.
  - by apply IH.
Qed.

(** ** One rendered line *)

Lemma field_line_clean f : field_clean f -> line_clean (field_line f) = true.
Proof.
  destruct f as [k v]. intros (_ & Hg & _ & Hv). unfold field_line. cbn [fst snd] in *.
  rewrite !line_clean_append, Hv, (line_clean_bytes_all is_graphic k) by done. done.
Qed.

Lemma field_line_split f : field_clean f -> split_once "=" (field_line f) = Some f.
Proof.
  destruct f as [k v]. intros (_ & _ & Hk & _). unfold field_line. cbn [fst snd] in *.
  change ("=" +:+ v) with (String "=" v). by rewrite split_once_append.
Qed.

Lemma field_line_trim f : field_clean f -> trim (field_line f) <> "".
Proof.
  destruct f as [[|c k] v]; intros (Hne & Hg & _ & _); [done|]. cbn [fst] in *.
  unfold field_line. cbn [fst snd]. rewrite append_cons. apply trim_graphic_head.
  cbn in Hg. by apply andb_true_iff in Hg as [? _].
Qed.

Lemma field_line_nonempty f : field_line f <> "".
Proof. destruct f as [[|c k] v]; done. Qed.

Lemma lines_render fs : Forall field_clean fs -> lines (render fs) = field_line <$> fs.
Proof.
  induction 1 as [|f fs Hf _ IH]; [done|]. cbn [render foldr].
  rewrite lines_cons_line by (by apply field_line_clean). cbn. by rewrite <- IH.
Qed.

Lemma str_is_empty_false s : s <> "" -> str_is_empty s = false.
Proof. intros. by apply String.eqb_neq. Qed.

Lemma render_utf8 fs :
  Forall field_clean fs -> Forall (fun f => utf8_valid f.2 = true) fs -> utf8_valid (render fs) = true.
Proof.
  induction 1 as [|[k v] fs (_ & Hg & _) _ IH]; intros Hv; [done|].
  inversion Hv; subst. cbn [render foldr]. unfold field_line. cbn [fst snd] in *.
  repeat apply utf8_valid_append; [by apply graphic_utf8|done|done|].
  change (String nl ?x) with (str nl +:+ x). apply utf8_valid_append; [done|by apply IH].
Qed.

Lemma fields_map_size fs m :
  NoDup fs.*1 -> (forall k, k ∈ fs.*1 -> m !! k = None) ->
  size (fields_map m fs) = size m + length fs.
Proof.
  revert m. induction fs as [|f fs IH]; intros m Hd Hm; cbn; [lia|]. cbn in Hd, Hm.
  apply NoDup_cons in Hd as [Hf Hd]. fold (fields_map (<[f.1:=f.2]> m) fs).
  rewrite IH; [|done|].
  - rewrite map_size_insert_None by (apply Hm; left). lia.
  - intros k Hk. rewrite lookup_insert_ne by (by intros <-). apply Hm. by right.
Qed.

Lemma fields_map_facts fs :
  NoDup fs.*1 -> size (fields_map ∅ fs) = length fs /\ holds (fields_map ∅ fs) fs.
Proof.
  intros Hd. split; [|by apply fields_map_holds].
  rewrite fields_map_size by (done || (intros; apply lookup_empty)). by rewrite map_size_empty.
Qed.

(** ** The order of strings *)

(** [str::cmp]: by bytes. *)
Definition text_le (a b : string) : Prop := String.leb a b = true.
#[export] Instance text_le_dec : RelDecision text_le.
Proof. intros a b. unfold text_le. apply _. Defined.

#[export] Instance text_le_total : Total text_le.
Proof. intros a b. unfold text_le. apply String.leb_total. Qed.

Lemma text_compare_trans a b c : String.compare a b = Lt -> String.compare b c = Lt -> String.compare a c = Lt.
Proof.
  revert b c. induction a as [|x a IH]; intros [|y b] [|z c]; cbn; try done.
  unfold Ascii.compare. set (p := N_of_ascii x). set (q := N_of_ascii y). set (r := N_of_ascii z).
  destruct (N.compare_spec p q) as [Epq|Hpq|Hpq]; [| |done]; destruct (N.compare_spec q r) as [Eqr|Hqr|Hqr]; try done;
    destruct (N.compare_spec p r) as [Epr|Hpr|Hpr]; try lia; try done.
  apply IH.
Qed.

#[export] Instance text_le_trans : Transitive text_le.
Proof.
  intros a b c. unfold text_le, String.leb.
  destruct (String.compare a b) eqn:E1; [apply String.compare_eq_iff in E1 as ->; done| |done].
  destruct (String.compare b c) eqn:E2; [apply String.compare_eq_iff in E2 as <-; by rewrite E1| |done].
  by rewrite (text_compare_trans a b c).
Qed.

#[export] Instance text_le_antisym : AntiSymm eq text_le.
Proof. intros a b. unfold text_le. apply String.leb_antisym. Qed.
