(* ===== verification/Digest.v ===== *)
(** * SHA-256 (crates/eva-core/src/digest.rs)

    The dependency-free SHA-256 the stores identify contents with: padding,
    message schedule, the 64 rounds and the textual digest.  Words are [N]
    values kept below 2^32 by explicit wrap-around; a byte slice is a
    [string]. *)

From Stdlib Require Import Ascii.
From stdpp Require Import base numbers strings gmap list.
From S2P Require Import Prelude RustStr.

(** The constants of the standard, written in decimal. *)
Definition INITIAL : list N :=
  [1779033703; 3144134277; 1013904242; 2773480762; 1359893119; 2600822924; 528734635; 1541459225]%N.

Definition ROUND : list N :=
  [1116352408; 1899447441; 3049323471; 3921009573; 961987163; 1508970993; 2453635748; 2870763221;
   3624381080; 310598401; 607225278; 1426881987; 1925078388; 2162078206; 2614888103; 3248222580;
   3835390401; 4022224774; 264347078; 604807628; 770255983; 1249150122; 1555081692; 1996064986;
   2554220882; 2821834349; 2952996808; 3210313671; 3336571891; 3584528711; 113926993; 338241895;
   666307205; 773529912; 1294757372; 1396182291; 1695183700; 1986661051; 2177026350; 2456956037;
   2730485921; 2820302411; 3259730800; 3345764771; 3516065817; 3600352804; 4094571909; 275423344;
   430227734; 506948616; 659060556; 883997877; 958139571; 1322822218; 1537002063; 1747873779;
   1955562222; 2024104815; 2227730452; 2361852424; 2428436474; 2756734187; 3204031479; 3329325298]%N.

Definition wadd (a b : N) : N := wrapping_add u32_max a b.
(** [u32::rotate_right] *)
Definition rotate_right (x k : N) : N :=
  N.lor (N.shiftr x k) (N.land (N.shiftl x (32 - k)) u32_max).
(** [!x] *)
Definition wnot (x : N) : N := N.lxor x u32_max.

(** [u64::to_be_bytes] *)
Definition to_be_bytes (n : N) : string :=
  String.string_of_list_ascii
    ((fun i => ascii_of_N (N.land (N.shiftr n (8 * i)) 255)) <$> [7; 6; 5; 4; 3; 2; 1; 0]%N).

(** [while padded.len() % 64 != 56 { padded.push(0) }] *)
Fixpoint pad_zeros (fuel : nat) (padded : string) : string :=
  match fuel with
  | O => padded
  | S k =>
      if Nat.eqb (String.length padded mod 64) 56 then padded
      else pad_zeros k (padded +:+ str "000")
  end.

Definition pad_message (bytes : string) : string :=
  let bit_len := ((str_len bytes mod (u64_max + 1)) * 8 mod (u64_max + 1))%N in
  pad_zeros 64 (bytes +:+ str "128") +:+ to_be_bytes bit_len.

(** [u32::from_be_bytes] over [chunks_exact(4)] *)
Fixpoint be_words (bytes : string) : list N :=
  match bytes with
  | String a (String b (String c (String d rest))) =>
      (byte_of a * 2 ^ 24 + byte_of b * 2 ^ 16 + byte_of c * 2 ^ 8 + byte_of d)%N :: be_words rest
  | _ => []
  end.

Definition word (w : list N) (i : nat) : N := default 0%N (w !! i).

Definition schedule_word (w : list N) (index : nat) : list N :=
  let s0 := N.lxor (N.lxor (rotate_right (word w (index - 15)) 7)
                           (rotate_right (word w (index - 15)) 18))
                   (N.shiftr (word w (index - 15)) 3) in
  let s1 := N.lxor (N.lxor (rotate_right (word w (index - 2)) 17)
                           (rotate_right (word w (index - 2)) 19))
                   (N.shiftr (word w (index - 2)) 10) in
  <[index := wadd (wadd (wadd (word w (index - 16)) s0) (word w (index - 7))) s1]> w.

(** The array [w] after both loops that fill it. *)
Definition schedule (chunk : string) : list N :=
  let first := take 16 (be_words chunk) in
  foldl schedule_word (first ++ replicate (64 - length first) 0%N) (seq 16 48).

Record Working := MkWorking { wa : N; wb : N; wc : N; wd : N; we : N; wf : N; wg : N; wh : N }.

Definition round (w : list N) (s : Working) (index : nat) : Working :=
  let s1 := N.lxor (N.lxor (rotate_right (we s) 6) (rotate_right (we s) 11)) (rotate_right (we s) 25) in
  let ch := N.lxor (N.land (we s) (wf s)) (N.land (wnot (we s)) (wg s)) in
  let t1 := wadd (wadd (wadd (wadd (wh s) s1) ch) (word ROUND index)) (word w index) in
  let s0 := N.lxor (N.lxor (rotate_right (wa s) 2) (rotate_right (wa s) 13)) (rotate_right (wa s) 22) in
  let maj := N.lxor (N.lxor (N.land (wa s) (wb s)) (N.land (wa s) (wc s))) (N.land (wb s) (wc s)) in
  let t2 := wadd s0 maj in
  MkWorking (wadd t1 t2) (wa s) (wb s) (wc s) (wadd (wd s) t1) (we s) (wf s) (wg s).

Definition compress (state : list N) (chunk : string) : list N :=
  let w := schedule chunk in
  let init := MkWorking (word state 0) (word state 1) (word state 2) (word state 3)
                        (word state 4) (word state 5) (word state 6) (word state 7) in
  let s := foldl (round w) init (seq 0 64) in
  zip_with wadd state [wa s; wb s; wc s; wd s; we s; wf s; wg s; wh s].

(** [chunks_exact(64)] *)
Fixpoint chunks64 (fuel : nat) (bytes : string) : list string :=
  match fuel with
  | O => []
  | S k =>
      if Nat.ltb (String.length bytes) 64 then []
      else String.substring 0 64 bytes
             :: chunks64 k (String.substring 64 (String.length bytes - 64) bytes)
  end.

(** [format!("{word:08x}")] for a 32-bit word *)
Definition hex8 (w : N) : string :=
  String.string_of_list_ascii
    ((fun i => hex_digit (N.land (N.shiftr w (4 * i)) 15)) <$> [7; 6; 5; 4; 3; 2; 1; 0]%N).

Definition sha256_digest (bytes : string) : string :=
  let padded := pad_message bytes in
  let state := foldl compress INITIAL (chunks64 (String.length padded) padded) in
  "sha256:" +:+ str_concat (hex8 <$> state).

(** ** The digest text is canonical *)

Lemma hex8_shape w : String.length (hex8 w) = 8 /\ bytes_all is_lower_hex (hex8 w) = true.
Proof.
  assert (H : forall n, is_lower_hex (hex_digit (N.land n 15)) = true).
  { intros n. assert (Hb : (N.land n 15 < 16)%N).
    { change 15%N with (N.ones 4). rewrite N.land_ones. apply N.mod_lt. done. }
    revert Hb. generalize (N.land n 15) as k. intros k Hk.
    destruct k as [|p]; [done|]. do 4 (destruct p as [p|p|]; try done); lia. }
  split; [done|]. unfold hex8. cbn. by rewrite !H.
Qed.

Lemma compress_length state chunk : length state = 8 -> length (compress state chunk) = 8.
Proof. intros H. unfold compress. rewrite length_zip_with. rewrite H. done. Qed.

Lemma str_concat_hex8 l :
  String.length (str_concat (hex8 <$> l)) = 8 * length l /\
  bytes_all is_lower_hex (str_concat (hex8 <$> l)) = true.
Proof.
  induction l as [|w l [IH1 IH2]]; [done|]. destruct (hex8_shape w) as [H1 H2].
  cbn [fmap list_fmap str_concat foldr]. fold (str_concat (hex8 <$> l)).
  rewrite length_append, bytes_all_append, H1, H2, IH1, IH2. cbn [length]. split; [lia|done].
Qed.

Lemma sha256_digest_shape bytes :
  exists hex, sha256_digest bytes = "sha256:" +:+ hex /\ String.length hex = 64 /\
    bytes_all is_lower_hex hex = true.
Proof.
  unfold sha256_digest.
  set (state := foldl compress INITIAL _).
  assert (Hs : length state = 8).
  { subst state. assert (Hi : length INITIAL = 8) by done. revert Hi. generalize INITIAL as s.
    induction (chunks64 _ _) as [|c cs IH]; intros s Hs; [done|]. cbn. by apply IH, compress_length. }
  exists (str_concat (hex8 <$> state)). destruct (str_concat_hex8 state) as [H1 H2].
  rewrite H1, Hs. done.
Qed.

(** ** The padding *)

Fixpoint nul_bytes (n : nat) : string := match n with O => "" | S k => String "000" (nul_bytes k) end.

Lemma nul_bytes_snoc n s : (s +:+ str "000") +:+ nul_bytes n = s +:+ nul_bytes (S n).
Proof. by rewrite <- append_assoc. Qed.

Lemma pad_zeros_spec fuel : forall s,
  (exists k, k < fuel /\ (String.length s + k) mod 64 = 56) ->
  exists k, pad_zeros fuel s = s +:+ nul_bytes k /\ (String.length s + k) mod 64 = 56 /\ k < fuel.
Proof.
  induction fuel as [|fuel IH]; intros s (k & Hk & Hm); [lia|]. cbn [pad_zeros].
  destruct (Nat.eqb_spec (String.length s mod 64) 56) as [H|H].
  - exists 0. rewrite append_nil_r, Nat.add_0_r. split_and!; [done|done|lia].
  - destruct k as [|k]; [by rewrite Nat.add_0_r in Hm|].
    destruct (IH (s +:+ str "000")) as (j & Hj & Hmj & Hlt).
    { exists k. rewrite length_append. cbn [String.length str].
      split; [lia|]. by replace (String.length s + 1 + k) with (String.length s + S k) by lia. }
    exists (S j). rewrite Hj, nul_bytes_snoc. rewrite length_append in Hmj. cbn [String.length str] in Hmj.
    split_and!; [done| |lia]. by replace (String.length s + S j) with (String.length s + 1 + j) by lia.
Qed.

Lemma nul_bytes_length n : String.length (nul_bytes n) = n.
Proof. induction n; cbn; lia. Qed.

Lemma pad_message_shape bytes :
  exists k, k < 64 /\
    pad_message bytes = (bytes +:+ str "128") +:+ nul_bytes k
      +:+ to_be_bytes ((str_len bytes mod (u64_max + 1)) * 8 mod (u64_max + 1))%N /\
    (String.length bytes + 1 + k) mod 64 = 56.
Proof.
  unfold pad_message.
  destruct (pad_zeros_spec 64 (bytes +:+ str "128")) as (k & Hk & Hm & Hlt).
  { rewrite length_append. cbn [String.length str]. set (m := String.length bytes + 1).
    exists ((56 + 64 - m mod 64) mod 64). split; [apply Nat.mod_upper_bound; lia|].
    rewrite Nat.Div0.add_mod_idemp_r.
    pose proof (Nat.div_mod_eq m 64) as Hd. pose proof (Nat.mod_upper_bound m 64 ltac:(lia)) as Hu.
    rewrite Hd at 1.
    replace (64 * (m / 64) + m mod 64 + (56 + 64 - m mod 64)) with (56 + (m / 64 + 1) * 64) by lia.
    rewrite Nat.Div0.mod_add. done. }
  exists k. rewrite Hk. rewrite length_append in Hm. cbn [String.length str] in Hm.
  split_and!; [done| |done]. by rewrite append_assoc.
Qed.

Lemma to_be_bytes_length n : String.length (to_be_bytes n) = 8.
Proof. done. Qed.

Definition of_be_bytes (s : string) : N :=
  foldl (fun acc c => (acc * 256 + byte_of c)%N) 0%N (String.list_ascii_of_string s).

Lemma of_to_be_bytes n : (n <= u64_max)%N -> of_be_bytes (to_be_bytes n) = n.
Proof.
  intros Hn. unfold of_be_bytes, to_be_bytes. rewrite String.list_ascii_of_string_of_list_ascii.
  cbn [fmap list_fmap foldl]. unfold byte_of.
  assert (Hb : forall x, N_of_ascii (ascii_of_N (N.land x 255)) = (x mod 256)%N).
  { intros x. change 255%N with (N.ones 8). rewrite N.land_ones. change (2 ^ 8)%N with 256%N.
    apply N_ascii_embedding. apply N.mod_lt. done. }
  rewrite !Hb, !N.shiftr_div_pow2.
  assert (Hs : forall k, (n / 2 ^ (8 * (k + 1)) * 256 + n / 2 ^ (8 * k) mod 256 = n / 2 ^ (8 * k))%N).
  { intros k. replace (2 ^ (8 * (k + 1)))%N with (2 ^ (8 * k) * 256)%N
      by (rewrite N.mul_add_distr_l, N.pow_add_r; done).
    rewrite <- N.Div0.div_div. rewrite N.mul_comm. symmetry. by apply N.div_mod. }
  assert (Htop : (0 * 256 + n / 2 ^ (8 * 7) mod 256 = n / 2 ^ (8 * 7))%N).
  { rewrite N.mod_small; [lia|]. apply N.Div0.div_lt_upper_bound. unfold u64_max in Hn. cbn. lia. }
  rewrite Htop.
  rewrite (Hs 6%N : (n / 2 ^ (8 * 7) * 256 + _ = _)%N), (Hs 5%N : (n / 2 ^ (8 * 6) * 256 + _ = _)%N),
    (Hs 4%N : (n / 2 ^ (8 * 5) * 256 + _ = _)%N), (Hs 3%N : (n / 2 ^ (8 * 4) * 256 + _ = _)%N),
    (Hs 2%N : (n / 2 ^ (8 * 3) * 256 + _ = _)%N), (Hs 1%N : (n / 2 ^ (8 * 2) * 256 + _ = _)%N),
    (Hs 0%N : (n / 2 ^ (8 * 1) * 256 + _ = _)%N).
  by rewrite N.mul_0_r, N.pow_0_r, N.div_1_r.
Qed.

(** The padding of [sha256_digest] is the standard's: the loop always
    stops, the padded message is the input, the byte 0x80, fewer than 64
    zero bytes and the bit length, in whole 64-byte blocks; and for inputs
    shorter than 2^61 bytes no two inputs have the same padded message. *)
Theorem sha256_padding_injective a b :
  (String.length (pad_message a) mod 64 = 0 /\
   exists k, k < 64 /\ exists tail, pad_message a = a +:+ String "128" (nul_bytes k +:+ tail) /\
     String.length tail = 8) /\
  ((str_len a < 2 ^ 61)%N -> (str_len b < 2 ^ 61)%N -> pad_message a = pad_message b -> a = b).
Proof.
  destruct (pad_message_shape a) as (ka & Hka & Ha & Hma). split.
  - rewrite Ha. split.
    + rewrite !length_append, nul_bytes_length, to_be_bytes_length. cbn [String.length str].
      replace (String.length a + 1 + (ka + 8)) with (String.length a + 1 + ka + 8) by lia.
      rewrite Nat.Div0.add_mod, Hma. done.
    + exists ka. split; [done|]. eexists. rewrite <- append_assoc. split; [reflexivity|]. done.
  - destruct (pad_message_shape b) as (kb & Hkb & Hb & Hmb). intros Hla Hlb Heq.
    rewrite Ha, Hb, !append_assoc in Heq.
    assert (Hlen : String.length ((a +:+ str "128") +:+ nul_bytes ka) =
                   String.length ((b +:+ str "128") +:+ nul_bytes kb)).
    { apply (f_equal String.length) in Heq. rewrite !(length_append (_ +:+ nul_bytes _)) in Heq.
      rewrite !to_be_bytes_length in Heq. lia. }
    apply append_inj_length in Heq as [Heq Hbits]; [|done].
    apply (f_equal of_be_bytes) in Hbits. change (2 ^ 61)%N with 2305843009213693952%N in *.
    unfold u64_max in Hbits.
    rewrite !of_to_be_bytes in Hbits by (unfold u64_max; apply N.lt_succ_r, N.mod_lt; done).
    rewrite !(N.mod_small (str_len _)) in Hbits by lia. rewrite !N.mod_small in Hbits by lia.
    rewrite <- !append_assoc in Heq. apply append_inj_length in Heq as [-> _]; [done|].
    unfold str_len in Hbits. lia.
Qed.

Lemma sha256_padding_injective_witness : pad_message "abc" <> pad_message "abd".
Proof.
  intros H. apply (proj2 (sha256_padding_injective "abc" "abd")) in H;
    [discriminate|vm_compute; reflexivity|vm_compute; reflexivity].
Defined.
