(* ===== verification/DigestSpec.v ===== *)
(** * The digest is SHA-256 (crates/eva-core/src/digest.rs)

    SHA-256 as FIPS 180-4 defines it, written independently of the code: the
    constants from the roots of the first primes, the functions on words bit
    by bit, the message schedule as a recurrence, the padding as the solution
    of its congruence.  [sha256_digest] returns the hexadecimal text of it. *)

From Stdlib Require Import Ascii.
From stdpp Require Import base numbers strings list.
From S2P Require Import Prelude RustStr Digest.

(** ** FIPS 180-4 *)

(** *** Constants *)

Definition is_prime (p : N) : bool :=
  forallb (fun d => negb (p mod d =? 0)%N) (N.of_nat <$> seq 2 (N.to_nat p - 2)).
(** The first 64 primes. *)
Definition first_primes : list N := filter is_prime (N.of_nat <$> seq 2 310).

(** The greatest [r + k] with [k < 2^bits] whose [e]-th power is at most [x]. *)
Fixpoint root_bits (e x : N) (bits : nat) (r : N) : N :=
  match bits with
  | O => r
  | S b => let r' := (r + 2 ^ N.of_nat b)%N in root_bits e x b (if (r' ^ e <=? x)%N then r' else r)
  end.

(** The first 32 bits of the fractional part of the [e]-th root of [p]: the
    integer part of the root of [p * 2^(32 e)], less its own integer part. *)
Definition root_fraction (e p : N) : N := (root_bits e (p * 2 ^ (32 * e)) 37 0 mod 2 ^ 32)%N.

Definition H0 : list N := root_fraction 2 <$> take 8 first_primes.
Definition K : list N := root_fraction 3 <$> first_primes.

(** *** Words *)

(** The number with the given bits, the lowest first. *)
Fixpoint of_bits (n : nat) (f : N -> bool) : N :=
  match n with
  | O => 0
  | S n => 2 * of_bits n (fun i => f (N.succ i)) + N.b2n (f 0%N)
  end%N.
Definition word_of (f : N -> bool) : N := of_bits 32 f.

Definition ROTR (k x : N) : N := word_of (fun i => N.testbit x ((i + k) mod 32)).
Definition SHR (k x : N) : N := word_of (fun i => N.testbit x (i + k)).
Definition Ch (x y z : N) : N :=
  word_of (fun i => if N.testbit x i then N.testbit y i else N.testbit z i).
Definition Maj (x y z : N) : N :=
  word_of (fun i => let b w := N.b2n (N.testbit w i) in (2 <=? b x + b y + b z)%N).
Definition xor3 (x y z : N) : N :=
  word_of (fun i => xorb (N.testbit x i) (xorb (N.testbit y i) (N.testbit z i))).
Definition add32 (l : list N) : N := (foldr N.add 0 l mod 2 ^ 32)%N.

Definition Sigma0 (x : N) : N := xor3 (ROTR 2 x) (ROTR 13 x) (ROTR 22 x).
Definition Sigma1 (x : N) : N := xor3 (ROTR 6 x) (ROTR 11 x) (ROTR 25 x).
Definition sigma0 (x : N) : N := xor3 (ROTR 7 x) (ROTR 18 x) (SHR 3 x).
Definition sigma1 (x : N) : N := xor3 (ROTR 17 x) (ROTR 19 x) (SHR 10 x).

(** *** Padding and parsing *)

(** Big endian. *)
Definition be_bytes (size n : N) : list N :=
  (fun i => (n / 2 ^ (8 * (size - 1 - N.of_nat i))) mod 256)%N <$> seq 0 (N.to_nat size).
Definition be_number (l : list N) : N := foldl (fun acc b => (acc * 256 + b)%N) 0%N l.

(** The message, the bit 1, as many zeros as make the length 448 modulo 512
    bits, and the length in bits as a 64-bit number; in bytes. *)
Definition padded (message : list N) : list N :=
  let l := len message in
  let zeros := (Z.to_nat ((55 - Z.of_N l) mod 64)) in
  message ++ [128%N] ++ replicate zeros 0%N ++ be_bytes 8 (8 * l).

(** Word [t] of block [i]. *)
Definition block_word (l : list N) (i t : nat) : N := be_number (take 4 (drop (4 * t) (drop (64 * i) l))).

(** *** Hash computation *)

(** The message schedule; [fuel] bounds the depth and is more than [t]. *)
Fixpoint W (m : nat -> N) (fuel t : nat) : N :=
  match fuel with
  | O => 0%N
  | S fuel =>
      if Nat.ltb t 16 then m t
      else add32 [sigma1 (W m fuel (t - 2)); W m fuel (t - 7); sigma0 (W m fuel (t - 15)); W m fuel (t - 16)]
  end.

Definition step (k w : N) (v : Working) : Working :=
  let '(MkWorking a b c d e f g h) := v in
  let T1 := add32 [h; Sigma1 e; Ch e f g; k; w] in
  let T2 := add32 [Sigma0 a; Maj a b c] in
  MkWorking (add32 [T1; T2]) a b c (add32 [d; T1]) e f g.

Definition working_of (H : list N) : Working :=
  MkWorking (word H 0) (word H 1) (word H 2) (word H 3) (word H 4) (word H 5) (word H 6) (word H 7).
Definition words_of (v : Working) : list N := [wa v; wb v; wc v; wd v; we v; wf v; wg v; wh v].

Definition hash_block (H : list N) (m : nat -> N) : list N :=
  let v := foldl (fun v t => step (word K t) (W m 64 t) v) (working_of H) (seq 0 64) in
  zip_with (fun x y => add32 [x; y]) (words_of v) H.

Definition sha256_fips (message : list N) : list N :=
  let l := padded message in
  foldl (fun H i => hash_block H (block_word l i)) H0 (seq 0 (length l / 64)).

(** The digest as text: each word's four bytes in hexadecimal. *)
Definition digest_text (H : list N) : string :=
  "sha256:" +:+ hex_encode (String.string_of_list_ascii (ascii_of_N <$> mjoin (be_bytes 4 <$> H))).

(** The bytes of a Rust byte slice. *)
Definition bytes_of (s : string) : list N := byte_of <$> String.list_ascii_of_string s.

(** ** The roots *)

Lemma root_bits_floor e x bits : forall r, (e <> 0)%N ->
  (r ^ e <= x)%N -> (x < (r + 2 ^ N.of_nat bits) ^ e)%N ->
  let k := root_bits e x bits r in (k ^ e <= x)%N /\ (x < (k + 1) ^ e)%N.
Proof.
  induction bits as [|b IH]; intros r He Hlo Hhi; cbn [root_bits]; [done|].
  rewrite Nat2N.inj_succ, N.pow_succ_r' in Hhi.
  destruct (N.leb_spec ((r + 2 ^ N.of_nat b) ^ e) x) as [H|H]; apply IH; try done.
  by replace (r + 2 ^ N.of_nat b + 2 ^ N.of_nat b)%N with (r + 2 * 2 ^ N.of_nat b)%N by lia.
Qed.

(** The numbers taken for the roots of the primes are their integer parts. *)
Lemma roots_floor e p : p ∈ first_primes -> (e = 2 \/ e = 3)%N ->
  let r := root_bits e (p * 2 ^ (32 * e)) 37 0 in
  (r ^ e <= p * 2 ^ (32 * e))%N /\ (p * 2 ^ (32 * e) < (r + 1) ^ e)%N.
Proof.
  intros Hp He. assert (p < 312)%N as Hb.
  { unfold first_primes in Hp. apply list_elem_of_filter in Hp as [_ Hp].
    apply list_elem_of_fmap in Hp as (n & -> & Hn%elem_of_seq). lia. }
  apply root_bits_floor; [by destruct He as [-> | ->]|destruct He as [-> | ->]; rewrite N.pow_0_l by done; lia|].
  apply N.lt_le_trans with (312 * 2 ^ (32 * e))%N.
  - apply N.mul_lt_mono_pos_r; [|done]. apply N.neq_0_lt_0, N.pow_nonzero. done.
  - destruct He as [-> | ->]; vm_compute; discriminate.
Qed.

Lemma constants_agree : H0 = INITIAL /\ K = ROUND.
Proof. by split; vm_compute. Qed.

(** ** Bits *)

Lemma of_bits_spec n : forall f i, N.testbit (of_bits n f) i = (i <? N.of_nat n)%N && f i.
Proof.
  induction n as [|n IH]; intros f i; cbn [of_bits].
  { rewrite N.bits_0. by destruct i. }
  destruct (N.eq_dec i 0%N) as [->|Hi].
  - by rewrite N.testbit_0_r.
  - rewrite <- (N.succ_pred i Hi), N.testbit_succ_r, IH, Nat2N.inj_succ. f_equal.
    apply eq_true_iff_eq. rewrite !N.ltb_lt. lia.
Qed.

Lemma word_of_bits f i : N.testbit (word_of f) i = (i <? 32)%N && f i.
Proof. apply of_bits_spec. Qed.

Definition is_word (x : N) : Prop := (x < 2 ^ 32)%N.

Lemma word_bits_high x i : is_word x -> (32 <= i)%N -> N.testbit x i = false.
Proof.
  intros Hx Hi. destruct (N.eq_dec x 0%N) as [->|Hne]; [apply N.bits_0|].
  apply N.bits_above_log2. apply N.log2_lt_pow2; [lia|]. apply N.lt_le_trans with (2 ^ 32)%N; [done|].
  by apply N.pow_le_mono_r.
Qed.

Lemma word_of_word f : is_word (word_of f).
Proof.
  unfold is_word. destruct (N.eq_dec (word_of f) 0%N) as [->|H]; [done|].
  apply N.log2_lt_pow2; [lia|]. destruct (N.lt_ge_cases (N.log2 (word_of f)) 32%N) as [?|Hge]; [done|].
  pose proof (N.bit_log2 _ H) as Hb. rewrite word_of_bits in Hb. apply andb_true_iff in Hb as [Hb%N.ltb_lt _]. lia.
Qed.

(** Two words are equal when they agree on the bits of [word_of]. *)
Lemma word_of_eq x f : is_word x -> (forall i, (i < 32)%N -> N.testbit x i = f i) -> x = word_of f.
Proof.
  intros Hx H. apply N.bits_inj. intros i. rewrite word_of_bits.
  destruct (N.ltb_spec i 32%N); [by apply H|by apply word_bits_high].
Qed.

Lemma is_word_bits x : (forall i, (32 <= i)%N -> N.testbit x i = false) -> is_word x.
Proof.
  intros H. unfold is_word. destruct (N.eq_dec x 0%N) as [->|Hx]; [done|]. apply N.log2_lt_pow2; [lia|].
  destruct (N.lt_ge_cases (N.log2 x) 32%N) as [?|Hge]; [done|]. pose proof (N.bit_log2 _ Hx) as Hb. by rewrite (H _ Hge) in Hb.
Qed.

(** ** The functions on words *)

Ltac bits :=
  repeat first [rewrite N.lxor_spec|rewrite N.land_spec|rewrite N.lor_spec|rewrite N.shiftr_spec'].

Lemma u32_max_bits i : N.testbit u32_max i = (i <? 32)%N.
Proof.
  change u32_max with (N.ones 32). destruct (N.ltb_spec i 32%N); [by apply N.ones_spec_low|by apply N.ones_spec_high].
Qed.

Lemma rotate_right_spec x k : is_word x -> (0 < k < 32)%N -> rotate_right x k = ROTR k x.
Proof.
  intros Hx Hk. unfold rotate_right, ROTR.
  assert (forall i, N.testbit (N.lor (N.shiftr x k) (N.land (N.shiftl x (32 - k)) u32_max)) i
    = N.testbit x (i + k) || (N.testbit (N.shiftl x (32 - k)) i && (i <? 32)%N)) as Hb.
  { intros i. bits. by rewrite u32_max_bits. }
  apply word_of_eq.
  - apply is_word_bits. intros i Hi. rewrite Hb, word_bits_high by (done || lia).
    destruct (N.ltb_spec i 32%N); [lia|]. by rewrite andb_false_r.
  - intros i Hi. rewrite Hb, (proj2 (N.ltb_lt i 32) Hi), andb_true_r.
    destruct (N.lt_ge_cases (i + k) 32%N) as [H|H].
    + rewrite N.shiftl_spec_low by lia. by rewrite orb_false_r, N.mod_small.
    + rewrite N.shiftl_spec_high', (word_bits_high x (i + k)) by (done || lia). cbn [orb]. f_equal.
      apply (N.mod_unique _ _ 1); lia.
Qed.

Lemma shiftr_word x k : is_word x -> N.shiftr x k = SHR k x.
Proof.
  intros Hx. apply word_of_eq.
  - apply is_word_bits. intros i Hi. bits. apply word_bits_high; [done|lia].
  - intros i _. by bits.
Qed.

Lemma ch_spec x y z : is_word y -> is_word z ->
  N.lxor (N.land x y) (N.land (wnot x) z) = Ch x y z.
Proof.
  intros Hy Hz. unfold wnot. apply word_of_eq.
  - apply is_word_bits. intros i Hi. bits. rewrite (word_bits_high y i), (word_bits_high z i) by done. by rewrite !andb_false_r.
  - intros i Hi. bits. rewrite u32_max_bits, (proj2 (N.ltb_lt i 32) Hi).
    by destruct (N.testbit x i), (N.testbit y i), (N.testbit z i).
Qed.

Lemma maj_spec x y z : is_word x -> is_word y -> is_word z ->
  N.lxor (N.lxor (N.land x y) (N.land x z)) (N.land y z) = Maj x y z.
Proof.
  intros Hx Hy Hz. apply word_of_eq.
  - apply is_word_bits. intros i Hi. bits. by rewrite (word_bits_high x i), (word_bits_high y i), (word_bits_high z i) by done.
  - intros i Hi. bits. cbv beta zeta. by destruct (N.testbit x i), (N.testbit y i), (N.testbit z i).
Qed.

Lemma xor3_spec x y z : is_word x -> is_word y -> is_word z -> N.lxor (N.lxor x y) z = xor3 x y z.
Proof.
  intros Hx Hy Hz. apply word_of_eq.
  - apply is_word_bits. intros i Hi. bits. by rewrite (word_bits_high x i), (word_bits_high y i), (word_bits_high z i) by done.
  - intros i Hi. bits. by rewrite xorb_assoc.
Qed.

Lemma add32_word l : is_word (add32 l).
Proof. by apply N.mod_lt. Qed.

Lemma wadd_add32 a b : wadd a b = add32 [a; b].
Proof. unfold wadd, wrapping_add, add32. cbn [foldr]. by rewrite N.add_0_r. Qed.

Lemma wadd_cons a l : wadd a (add32 l) = add32 (a :: l).
Proof. unfold wadd, wrapping_add, add32. cbn [foldr]. change (u32_max + 1)%N with (2 ^ 32)%N. apply N.Div0.add_mod_idemp_r. Qed.

Lemma add32_snoc l b : wadd (add32 l) b = add32 (l ++ [b]).
Proof.
  unfold wadd, wrapping_add, add32. change (u32_max + 1)%N with (2 ^ 32)%N. rewrite N.Div0.add_mod_idemp_l. f_equal.
  induction l as [|a l IH]; cbn [app foldr]; [lia|]. rewrite <- IH. lia.
Qed.

Lemma wadd_chain a b c d e : wadd (wadd (wadd (wadd a b) c) d) e = add32 [a; b; c; d; e].
Proof. by rewrite (wadd_add32 a), !add32_snoc. Qed.

Lemma add32_perm l l' : l ≡ₚ l' -> add32 l = add32 l'.
Proof. intros H. unfold add32. f_equal. induction H; cbn [foldr]; lia. Qed.

Lemma add32_swap4 a b c d : add32 [a; b; c; d] = add32 [d; c; b; a].
Proof. apply add32_perm. solve_Permutation. Qed.
Lemma add32_swap a b : add32 [a; b] = add32 [b; a].
Proof. apply add32_perm. solve_Permutation. Qed.

(** ** The schedule *)

Lemma sigma0_spec x : is_word x ->
  N.lxor (N.lxor (rotate_right x 7) (rotate_right x 18)) (N.shiftr x 3) = sigma0 x.
Proof.
  intros Hx. rewrite !rotate_right_spec, shiftr_word by done. apply xor3_spec; apply word_of_word.
Qed.
Lemma sigma1_spec x : is_word x ->
  N.lxor (N.lxor (rotate_right x 17) (rotate_right x 19)) (N.shiftr x 10) = sigma1 x.
Proof.
  intros Hx. rewrite !rotate_right_spec, shiftr_word by done. apply xor3_spec; apply word_of_word.
Qed.
Lemma Sigma0_spec x : is_word x ->
  N.lxor (N.lxor (rotate_right x 2) (rotate_right x 13)) (rotate_right x 22) = Sigma0 x.
Proof. intros Hx. rewrite !rotate_right_spec by done. apply xor3_spec; apply word_of_word. Qed.
Lemma Sigma1_spec x : is_word x ->
  N.lxor (N.lxor (rotate_right x 6) (rotate_right x 11)) (rotate_right x 25) = Sigma1 x.
Proof. intros Hx. rewrite !rotate_right_spec by done. apply xor3_spec; apply word_of_word. Qed.

Section Schedule.
Context (m : nat -> N) (m_word : forall t, t < 16 -> is_word (m t)).

Lemma W_step fuel t :
  W m (S fuel) t = if Nat.ltb t 16 then m t
                   else add32 [sigma1 (W m fuel (t - 2)); W m fuel (t - 7);
                               sigma0 (W m fuel (t - 15)); W m fuel (t - 16)].
Proof using Type. reflexivity. Qed.

Lemma W_fuel t : forall fuel fuel', t < fuel -> t < fuel' -> W m fuel t = W m fuel' t.
Proof using Type.
  induction (lt_wf t) as [t _ IH]. intros [|fuel] [|fuel'] H1 H2; try lia. cbn [W].
  destruct (Nat.ltb_spec t 16); [done|].
  by rewrite (IH (t - 2) ltac:(lia) fuel fuel'), (IH (t - 7) ltac:(lia) fuel fuel'),
    (IH (t - 15) ltac:(lia) fuel fuel'), (IH (t - 16) ltac:(lia) fuel fuel') by lia.
Qed.

Lemma W_word fuel t : t < fuel -> is_word (W m fuel t).
Proof using m_word.
  destruct fuel as [|fuel]; intros H; [lia|]. cbn [W]. destruct (Nat.ltb_spec t 16); [by apply m_word|].
  apply add32_word.
Qed.

(** The words below [n] are in place. *)
Definition filled (w : list N) (n : nat) : Prop :=
  length w = 64 /\ forall t, t < n -> w !! t = Some (W m 64 t).

Lemma filled_word w n t : filled w n -> t < n -> word w t = W m 64 t.
Proof using Type. intros [_ Hw] Ht. unfold word. by rewrite Hw. Qed.

Lemma schedule_word_filled w n : 16 <= n < 64 -> filled w n -> filled (schedule_word w n) (S n).
Proof using m_word.
  intros Hn Hf. unfold schedule_word. cbv zeta.
  rewrite !(filled_word w n _ Hf) by lia.
  rewrite sigma0_spec, sigma1_spec by (apply W_word; lia). destruct Hf as [Hlen Hw].
  split; [by rewrite length_insert|]. intros t Ht. destruct (decide (t = n)) as [->|Hne].
  - rewrite list_lookup_insert_eq by lia. f_equal. rewrite (W_fuel n 64 65) by lia.
    rewrite (W_step 64 n).
    destruct (Nat.ltb_spec n 16); [lia|]. rewrite (wadd_add32 (W m 64 (n - 16))), !add32_snoc. apply add32_swap4.
  - rewrite list_lookup_insert_ne by done. apply Hw. lia.
Qed.

Lemma schedule_filled k : forall w n, 16 <= n -> n + k <= 64 -> filled w n ->
  filled (foldl schedule_word w (seq n k)) (n + k).
Proof using m_word.
  induction k as [|k IH]; intros w n Hn Hk Hf; [by rewrite Nat.add_0_r|]. cbn [seq foldl].
  rewrite <- Nat.add_succ_comm. apply IH; [lia..|]. by apply schedule_word_filled; [lia|].
Qed.

Lemma schedule_spec chunk :
  length (be_words chunk) = 16 -> (forall t, t < 16 -> be_words chunk !! t = Some (m t)) ->
  forall t, t < 64 -> word (schedule chunk) t = W m 64 t.
Proof using m_word.
  intros Hlen Hm t Ht. unfold schedule. rewrite take_ge, Hlen by lia.
  apply (filled_word _ 64); [|done]. apply (schedule_filled 48); [lia..|].
  split; [rewrite length_app, length_replicate, Hlen; lia|].
  intros u Hu. rewrite lookup_app_l by lia. rewrite Hm by done. f_equal. rewrite (W_step 63 u).
  by destruct (Nat.ltb_spec u 16); [|lia].
Qed.
End Schedule.

(** ** The rounds *)

Definition words_ok (v : Working) : Prop := Forall is_word (words_of v).

Lemma round_step w v t : words_ok v -> t < 64 -> round w v t = step (word K t) (word w t) v.
Proof.
  unfold words_ok, words_of. rewrite !Forall_cons. intros (Ha & Hb & Hc & Hd & He & Hf & Hg & Hh & _) Ht.
  destruct v as [a b c d e f g h]. cbn [wa wb wc wd we wf wg wh] in *.
  unfold round. cbn [wa wb wc wd we wf wg wh]. cbv zeta.
  rewrite Sigma0_spec, Sigma1_spec, ch_spec, maj_spec by done.
  rewrite (wadd_chain h), !wadd_add32. by rewrite (proj2 constants_agree).
Qed.

Lemma step_ok k w v : words_ok v -> words_ok (step k w v).
Proof.
  unfold words_ok, words_of. rewrite !Forall_cons. destruct v as [a b c d e f g h].
  cbn [step wa wb wc wd we wf wg wh]. intros (Ha & Hb & Hc & Hd & He & Hf & Hg & Hh & _).
  split_and!; try done; apply add32_word.
Qed.

Lemma rounds_spec (m : nat -> N) w ts : forall v,
  words_ok v -> Forall (fun t => t < 64 /\ word w t = W m 64 t) ts ->
  foldl (round w) v ts = foldl (fun v t => step (word K t) (W m 64 t) v) v ts.
Proof.
  induction ts as [|t ts IH]; intros v Hv Hts; [done|]. apply Forall_cons in Hts as [[Ht Hw] Hts].
  cbn [foldl]. rewrite round_step, Hw by done. apply IH; [by apply step_ok|done].
Qed.

Lemma compress_spec (m : nat -> N) H chunk :
  (forall t, t < 16 -> is_word (m t)) -> length H = 8 -> Forall is_word H ->
  length (be_words chunk) = 16 -> (forall t, t < 16 -> be_words chunk !! t = Some (m t)) ->
  compress H chunk = hash_block H m.
Proof.
  intros Hm Hlen HH Hl Hw. unfold compress, hash_block. cbv zeta. fold (working_of H).
  assert (words_ok (working_of H)) as Hv.
  { do 8 (destruct H as [|? H]; [done|]). destruct H; [|done]. exact HH. }
  rewrite (rounds_spec m); [|done|].
  2: { apply Forall_forall. intros t [_ Ht]%elem_of_seq. split; [lia|]. by apply schedule_spec; [..|lia]. }
  set (v := foldl _ _ _). change [wa v; wb v; wc v; wd v; we v; wf v; wg v; wh v] with (words_of v).
  generalize (words_of v) as l. clear. induction H as [|y H IH]; intros [|x l]; cbn [zip_with]; try done.
  by rewrite wadd_add32, add32_swap, IH.
Qed.

Lemma hash_block_ok H m : length H = 8 -> length (hash_block H m) = 8 /\ Forall is_word (hash_block H m).
Proof.
  intros Hlen. unfold hash_block. cbv zeta. split; [by rewrite length_zip_with, Hlen|].
  set (l := words_of _). clearbody l. revert H Hlen. intros H _. revert H.
  induction l as [|x l IH]; intros [|y H]; cbn [zip_with]; constructor; [apply add32_word|apply IH].
Qed.

(** ** Bytes *)

Lemma bytes_of_append a b : bytes_of (a +:+ b) = bytes_of a ++ bytes_of b.
Proof.
  induction a as [|c a IH]; [done|].
  change (byte_of c :: bytes_of (a +:+ b) = byte_of c :: bytes_of a ++ bytes_of b). by rewrite IH.
Qed.

Lemma bytes_of_length s : length (bytes_of s) = String.length s.
Proof. unfold bytes_of. rewrite length_fmap. induction s as [|c s IH]; cbn; [done|by rewrite IH]. Qed.

Lemma bytes_of_bytes s : Forall (fun b => (b < 256)%N) (bytes_of s).
Proof. apply Forall_fmap, Forall_forall. intros c _. apply byte_of_bound. Qed.

Lemma bytes_of_substring s : forall n k, bytes_of (String.substring n k s) = take k (drop n (bytes_of s)).
Proof.
  induction s as [|c s IH]; intros [|n] [|k]; try done.
  - change (byte_of c :: bytes_of (String.substring 0 k s) = byte_of c :: take k (bytes_of s)). by rewrite IH.
  - change (bytes_of (String.substring n 0 s) = take 0 (drop n (bytes_of s))). apply IH.
  - change (bytes_of (String.substring n (S k) s) = take (S k) (drop n (bytes_of s))). apply IH.
Qed.

Lemma be_words_spec t : forall s, 4 * t + 4 <= String.length s ->
  be_words s !! t = Some (be_number (take 4 (drop (4 * t) (bytes_of s)))).
Proof.
  induction t as [|t IH]; intros s Hs; do 4 (destruct s as [|? s]; [cbn in Hs; lia|]).
  - cbn [be_words lookup list_lookup]. f_equal. rewrite Nat.mul_0_r. unfold be_number, bytes_of.
    cbn [String.list_ascii_of_string fmap list_fmap drop take foldl].
    change (2 ^ 24)%N with 16777216%N. change (2 ^ 16)%N with 65536%N. change (2 ^ 8)%N with 256%N. rewrite take_0. cbn [foldl]. lia.
  - cbn [be_words]. rewrite lookup_cons. rewrite IH by (cbn in Hs; lia).
    replace (4 * S t) with (S (S (S (S (4 * t))))) by lia. done.
Qed.

Lemma be_words_length n : forall s, String.length s = 4 * n -> length (be_words s) = n.
Proof.
  induction n as [|n IH]; intros s Hs; [by destruct s|].
  do 4 (destruct s as [|? s]; [cbn in Hs; lia|]). cbn [be_words length]. f_equal. apply IH. cbn in Hs. lia.
Qed.

Lemma be_number_word l : length l <= 4 -> Forall (fun b => (b < 256)%N) l -> is_word (be_number l).
Proof.
  unfold is_word. change (2 ^ 32)%N with 4294967296%N. intros Hl HF.
  do 4 (destruct l as [|? l]; [cbn; decompose_Forall; lia|]). destruct l; [|cbn in Hl; lia].
  decompose_Forall. cbn. lia.
Qed.

Lemma block_word_word l i t : Forall (fun b => (b < 256)%N) l -> is_word (block_word l i t).
Proof. intros HF. apply be_number_word; [rewrite length_take; lia|by apply Forall_take, Forall_drop, Forall_drop]. Qed.

Lemma foldl_seq_S {A} (f : A -> nat -> A) n : forall a,
  foldl f a (seq 0 (S n)) = foldl (fun a i => f a (S i)) (f a 0) (seq 0 n).
Proof.
  intros a. cbn [seq foldl]. rewrite <- seq_shift. generalize (f a 0) as b. generalize (seq 0 n) as l.
  induction l as [|i l IH]; intros b; [done|]. cbn. apply IH.
Qed.

Lemma foldl_pointwise {A B} (f g : A -> B -> A) l :
  (forall a b, f a b = g a b) -> forall a, foldl f a l = foldl g a l.
Proof. intros E. induction l as [|b l IH]; intros a; cbn [foldl]; [done|]. by rewrite E, IH. Qed.

Lemma chunks_spec n : forall fuel s H,
  String.length s = 64 * n -> n <= fuel -> length H = 8 -> Forall is_word H ->
  foldl compress H (chunks64 fuel s)
  = foldl (fun H i => hash_block H (block_word (bytes_of s) i)) H (seq 0 n).
Proof.
  induction n as [|n IH]; intros fuel s H Hs Hf Hl HH.
  { destruct fuel; [done|]. cbn [chunks64]. by rewrite Hs. }
  destruct fuel as [|fuel]; [lia|]. cbn [chunks64]. destruct (Nat.ltb_spec (String.length s) 64); [lia|].
  rewrite foldl_seq_S. cbn [foldl].
  assert (bytes_of (String.substring 0 64 s) = take 64 (bytes_of s)) as Ec by apply bytes_of_substring.
  assert (String.length (String.substring 0 64 s) = 64) as Elen.
  { rewrite <- bytes_of_length, Ec, length_take, bytes_of_length. lia. }
  assert (bytes_of (String.substring 64 (String.length s - 64) s) = drop 64 (bytes_of s)) as Er.
  { rewrite bytes_of_substring. apply take_ge. rewrite length_drop, bytes_of_length. lia. }
  rewrite (compress_spec (block_word (bytes_of s) 0)); [|intros; apply block_word_word, bytes_of_bytes|done..
    |by apply (be_words_length 16)|].
  - pose proof (hash_block_ok H (block_word (bytes_of s) 0) Hl) as [Hl' HH'].
    rewrite IH; [| |lia|done..].
    + rewrite Er. apply foldl_pointwise. intros H' i. unfold block_word.
      rewrite drop_drop. by replace (64 + 64 * i) with (64 * S i) by lia.
    + rewrite <- bytes_of_length, Er, length_drop, bytes_of_length. lia.
  - intros t Ht. rewrite be_words_spec by lia. unfold block_word. f_equal. f_equal.
    rewrite Ec, Nat.mul_0_r, drop_0, skipn_firstn_comm, take_take. f_equal. lia.
Qed.

(** ** Padding *)

Lemma byte_of_land n : byte_of (ascii_of_N (N.land n 255)) = (n mod 256)%N.
Proof.
  change 255%N with (N.ones 8). rewrite N.land_ones. unfold byte_of. apply N_ascii_embedding. by apply N.mod_lt.
Qed.

Lemma to_be_bytes_spec n : bytes_of (to_be_bytes n) = be_bytes 8 n.
Proof.
  unfold to_be_bytes, bytes_of, be_bytes. rewrite String.list_ascii_of_string_of_list_ascii.
  cbn [fmap list_fmap seq N.to_nat Pos.to_nat Pos.iter_op Nat.add].
  rewrite !byte_of_land, !N.shiftr_div_pow2. reflexivity.
Qed.

Lemma nul_bytes_spec n : bytes_of (nul_bytes n) = replicate n 0%N.
Proof. induction n as [|n IH]; [done|]. change (0%N :: bytes_of (nul_bytes n) = 0%N :: replicate n 0%N). by rewrite IH. Qed.

Lemma padded_spec s : (8 * str_len s < 2 ^ 64)%N ->
  bytes_of (pad_message s) = padded (bytes_of s) /\ String.length (pad_message s) mod 64 = 0.
Proof.
  intros Hs. destruct (pad_message_shape s) as (k & Hk & E & Hm). rewrite E.
  change (2 ^ 64)%N with 18446744073709551616%N in Hs. change (u64_max + 1)%N with 18446744073709551616%N.
  rewrite !N.mod_small by (rewrite ?N.mod_small; lia). split.
  - rewrite !bytes_of_append, nul_bytes_spec, to_be_bytes_spec, <- !app_assoc. unfold padded, len.
    rewrite bytes_of_length. do 2 f_equal.
    assert (Z.to_nat ((55 - Z.of_N (N.of_nat (String.length s))) mod 64) = k) as ->.
    { rewrite nat_N_Z. assert (Z.of_nat k = ((55 - Z.of_nat (String.length s)) mod 64)%Z) as <-; [|lia].
      apply (f_equal Z.of_nat) in Hm. rewrite Nat2Z.inj_mod, !Nat2Z.inj_add in Hm. cbn in Hm.
      Z.to_euclidean_division_equations; lia. }
    do 2 f_equal. unfold str_len. by rewrite N.mul_comm.
  - rewrite !length_append, nul_bytes_length, to_be_bytes_length. cbn [String.length str].
    replace (String.length s + 1 + (k + 8)) with ((String.length s + 1 + k) + 8) by lia.
    rewrite Nat.Div0.add_mod, Hm. done.
Qed.

(** ** The text *)

Lemma hex_encode_append a b : hex_encode (a +:+ b) = hex_encode a +:+ hex_encode b.
Proof. induction a as [|c a IH]; [done|]. rewrite append_cons. cbn [hex_encode]. by rewrite IH. Qed.

Lemma string_of_list_app l l' :
  String.string_of_list_ascii (l ++ l') = String.string_of_list_ascii l +:+ String.string_of_list_ascii l'.
Proof. induction l as [|c l IH]; [done|]. cbn [app String.string_of_list_ascii]. by rewrite IH. Qed.

(** The two digits of byte [k] of a word. *)
Lemma high_digit w k : N.shiftr (w / 2 ^ (8 * k) mod 256) 4 = N.land (N.shiftr w (4 * (2 * k + 1))) 15.
Proof.
  rewrite <- N.shiftr_div_pow2. change 256%N with (2 ^ 8)%N. rewrite <- N.land_ones. change 15%N with (N.ones 4).
  apply N.bits_inj. intros i. bits. replace (i + 4 + 8 * k)%N with (i + 4 * (2 * k + 1))%N by lia. f_equal.
  destruct (N.lt_ge_cases i 4).
  - by rewrite !N.ones_spec_low by lia.
  - by rewrite !N.ones_spec_high by lia.
Qed.
Lemma low_digit w k : N.land (w / 2 ^ (8 * k) mod 256) 15 = N.land (N.shiftr w (4 * (2 * k))) 15.
Proof.
  rewrite <- N.shiftr_div_pow2. change 256%N with (2 ^ 8)%N. rewrite <- N.land_ones. change 15%N with (N.ones 4).
  apply N.bits_inj. intros i. bits. replace (i + 8 * k)%N with (i + 4 * (2 * k))%N by lia.
  destruct (N.lt_ge_cases i 4).
  - rewrite !N.ones_spec_low by lia. by rewrite !andb_true_r.
  - rewrite (N.ones_spec_high 4) by lia. by rewrite !andb_false_r.
Qed.

Lemma hex_byte b l : (b < 256)%N ->
  hex_encode (String.string_of_list_ascii (ascii_of_N <$> b :: l))
  = String (hex_digit (N.shiftr b 4)) (String (hex_digit (N.land b 15))
      (hex_encode (String.string_of_list_ascii (ascii_of_N <$> l)))).
Proof.
  intros Hb. rewrite fmap_cons. cbn [String.string_of_list_ascii hex_encode].
  unfold byte_of. by rewrite N_ascii_embedding.
Qed.

Lemma hex8_spec w : hex8 w = hex_encode (String.string_of_list_ascii (ascii_of_N <$> be_bytes 4 w)).
Proof.
  change (be_bytes 4 w) with
    [w / 2 ^ (8 * 3) mod 256; w / 2 ^ (8 * 2) mod 256; w / 2 ^ (8 * 1) mod 256; w / 2 ^ (8 * 0) mod 256]%N.
  rewrite !hex_byte by (by apply N.mod_lt). rewrite !high_digit, !low_digit. reflexivity.
Qed.

Lemma digest_text_spec H : "sha256:" +:+ str_concat (hex8 <$> H) = digest_text H.
Proof.
  unfold digest_text. f_equal. induction H as [|w H IH]; [done|].
  rewrite !fmap_cons. change (mjoin (be_bytes 4 w :: (be_bytes 4 <$> H))) with (be_bytes 4 w ++ mjoin (be_bytes 4 <$> H)).
  rewrite fmap_app, string_of_list_app, hex_encode_append, <- hex8_spec, <- IH. reflexivity.
Qed.

(** ** Properties *)

(** C40: [sha256_digest] is SHA-256.  For every byte sequence shorter than
    2^61 bytes its result is the prefix "sha256:" and the lowercase
    hexadecimal text of the hash FIPS 180-4 defines: with the constants taken
    from the roots of the first primes, the functions on words given bit by
    bit, the message schedule by its recurrence, the padding by its
    congruence, and every block of the padded message hashed in turn. *)
Theorem sha256_digest_fips bytes :
  (8 * str_len bytes < 2 ^ 64)%N ->
  sha256_digest bytes = digest_text (sha256_fips (bytes_of bytes)).
Proof.
  intros Hs. destruct (padded_spec bytes Hs) as [Hp Hm]. unfold sha256_digest, sha256_fips. cbv zeta.
  rewrite digest_text_spec, <- Hp, bytes_of_length, (proj1 constants_agree).
  rewrite (chunks_spec (String.length (pad_message bytes) / 64)); [done|..].
  - pose proof (Nat.div_mod_eq (String.length (pad_message bytes)) 64). lia.
  - apply Nat.Div0.div_le_upper_bound. lia.
  - reflexivity.
  - by apply (bool_decide_unpack _).
Qed.

Lemma sha256_digest_fips_witness :
  digest_text (sha256_fips (bytes_of "abc"))
  = "sha256:ba7816bf8f01cfea414140de5dae2223b00361a396177a9cb410ff61f20015ad".
Proof.
  rewrite <- (sha256_digest_fips "abc") by (vm_compute; reflexivity). vm_compute. reflexivity.
Defined.

(** The vectors of the source's own tests. *)
Example sha256_empty :
  sha256_digest "" = "sha256:e3b0c44298fc1c149afbf4c8996fb92427ae41e4649b934ca495991b7852b855".
Proof. vm_compute. reflexivity. Qed.
Example sha256_abc :
  sha256_digest "abc" = "sha256:ba7816bf8f01cfea414140de5dae2223b00361a396177a9cb410ff61f20015ad".
Proof. vm_compute. reflexivity. Qed.
(** A message of 56 bytes, whose padding needs a second block. *)
Example sha256_two_blocks :
  sha256_digest "abcdbcdecdefdefgefghfghighijhijkijkljklmklmnlmnomnopnopq" =
  "sha256:248d6a61d20638b8e5c026930c3e6039a33ce45964ff2167f6ecedd419db06c1".
Proof. vm_compute. reflexivity. Qed.
