(* ===== verification/Error.v ===== *)
(** * Structured errors (crates/eva-core/src/error.rs)

    [ErrorKind], [ErrorContext] and [EvaError] with their builders.  Every
    fallible operation of the development returns [Res A], a [Result] whose
    error is an [EvaError]. *)

From stdpp Require Import base numbers strings gmap list.
From S2P Require Import Prelude RustStr.

Inductive ErrorKind :=
| InvalidArgument | NotFound | Conflict | PermissionDenied
| Timeout | Unavailable | Internal | Unsupported.

#[export] Instance ErrorKind_eq_dec : EqDecision ErrorKind.
Proof. solve_decision. Defined.

Definition default_retryable (k : ErrorKind) : bool :=
  match k with Timeout | Unavailable => true | _ => false end.

Definition error_kind_str (k : ErrorKind) : string :=
  match k with
  | InvalidArgument => "invalid_argument"
  | NotFound => "not_found"
  | Conflict => "conflict"
  | PermissionDenied => "permission_denied"
  | Timeout => "timeout"
  | Unavailable => "unavailable"
  | Internal => "internal"
  | Unsupported => "unsupported"
  end.

(** [ProviderCode::new]: a trimmed, non-empty code or nothing. *)
Definition provider_code_new (value : string) : option string :=
  let trimmed := trim value in
  if str_is_empty trimmed then None else Some trimmed.

(** [ErrorContext]: ordered key/value entries. *)
Abbreviation ErrorContext := (list (string * string)).

Definition context_push (ctx : ErrorContext) (key value : string) : ErrorContext :=
  if str_is_empty (trim key) then ctx else ctx ++ [(key, value)].

Record EvaError := MkEvaError {
  err_kind : ErrorKind;
  err_message : string;
  err_retryable : bool;
  err_provider_code : option string;
  err_context : ErrorContext
}.
#[export] Instance EvaError_eta : Eta EvaError := fun e =>
  MkEvaError (err_kind e) (err_message e) (err_retryable e) (err_provider_code e) (err_context e).

#[export] Instance EvaError_eq_dec : EqDecision EvaError.
Proof. solve_decision. Defined.

Abbreviation Res := (Result EvaError).

Definition error_new (k : ErrorKind) (message : string) : EvaError :=
  {| err_kind := k; err_message := message; err_retryable := default_retryable k;
     err_provider_code := None; err_context := [] |}.

Definition invalid_argument : string -> EvaError := error_new InvalidArgument.
Definition not_found : string -> EvaError := error_new NotFound.
Definition conflict : string -> EvaError := error_new Conflict.
Definition permission_denied : string -> EvaError := error_new PermissionDenied.
Definition timeout_error : string -> EvaError := error_new Timeout.
Definition unavailable : string -> EvaError := error_new Unavailable.
Definition internal : string -> EvaError := error_new Internal.
Definition unsupported : string -> EvaError := error_new Unsupported.

Definition with_retryable (e : EvaError) (r : bool) : EvaError := e <| err_retryable := r |>.
Definition with_provider_code (e : EvaError) (code : string) : EvaError :=
  e <| err_provider_code := provider_code_new code |>.
Definition with_context (e : EvaError) (key value : string) : EvaError :=
  e <| err_context := context_push (err_context e) key value |>.

#[warnings="-postfix-notation-not-level-1"]
Notation "e '⊕' ( k , v )" := (with_context e k v)
  (at level 50, left associativity, k at level 200, v at level 200) : eva_scope.

(** [Display for EvaError]. *)
Definition error_display (e : EvaError) : string :=
  error_kind_str (err_kind e) +:+ ": " +:+ err_message e.

(** A [for] loop whose body can return early with [?]. *)
Fixpoint try_each {A} (f : A -> Res unit) (l : list A) : Res unit :=
  match l with
  | [] => Ok tt
  | x :: r => f x >>? try_each f r
  end.

(** A loop that pushes one value per element and can return early with [?]. *)
Fixpoint try_map {A B} (f : A -> Res B) (l : list A) : Res (list B) :=
  match l with
  | [] => Ok []
  | x :: r => let? y := f x in let? ys := try_map f r in Ok (y :: ys)
  end.

(** ** Facts used by every component *)

Lemma with_context_kind e k v : err_kind (e ⊕ (k, v)) = err_kind e.
Proof. done. Qed.
Lemma with_context_retryable e k v : err_retryable (e ⊕ (k, v)) = err_retryable e.
Proof. done. Qed.
Lemma with_context_message e k v : err_message (e ⊕ (k, v)) = err_message e.
Proof. done. Qed.


Lemma error_kind_str_inj k1 k2 : error_kind_str k1 = error_kind_str k2 -> k1 = k2.
Proof. by destruct k1, k2. Qed.

(** Only the kinds that describe a transient condition start out retryable. *)
Lemma error_new_retryable k m :
  err_retryable (error_new k m) = true <-> k = Timeout \/ k = Unavailable.
Proof. destruct k; cbn; naive_solver. Qed.

Lemma try_each_Ok {A} (f : A -> Res unit) l :
  try_each f l = Ok tt <-> Forall (fun x => f x = Ok tt) l.
Proof.
  induction l as [|x l IH]; cbn; [naive_solver|].
  rewrite List.Forall_cons_iff. destruct (f x) as [[]|]; naive_solver.
Qed.

Lemma try_map_Ok {A B} (f : A -> Res B) l ys :
  try_map f l = Ok ys <-> Forall2 (fun x y => f x = Ok y) l ys.
Proof.
  split.
  - revert ys. induction l as [|x l IH]; intros ys; cbn.
    + intros [= <-]. constructor.
    + destruct (f x) eqn:E; [|done]. destruct (try_map f l) eqn:E2; [|done].
      intros [= <-]. constructor; auto.
  - induction 1 as [|x y l ys Hx _ IH]; [done|]. cbn. by rewrite Hx, IH.
Qed.
