(* ===== verification/Ids.v ===== *)
(** * Identifiers (crates/eva-core/src/ids.rs, capability.rs)

    The [define_id!] macro stamps out one newtype per kind of identifier;
    here one type indexed by the kind, with the macro's label as a function
    of the kind.  Capability names are dotted names with cached segments. *)

From stdpp Require Import base numbers strings gmap list.
From Stdlib Require Import Ascii.
From S2P Require Import Prelude RustStr Error.

Inductive IdKind := KAgent | KAdapter | KCapability | KRequest | KEvent | KGeneration.

Definition id_label (k : IdKind) : string :=
  match k with
  | KAgent => "agent" | KAdapter => "adapter" | KCapability => "capability"
  | KRequest => "request" | KEvent => "event" | KGeneration => "generation"
  end.

(** The newtype [struct $name(String)] of [define_id!]. *)
Record Id (k : IdKind) := MkId { id_str : string }.
Arguments MkId {k} id_str.
Arguments id_str {k} i.

Abbreviation AgentId := (Id KAgent).
Abbreviation AdapterId := (Id KAdapter).
Abbreviation CapabilityId := (Id KCapability).
Abbreviation RequestId := (Id KRequest).
Abbreviation EventId := (Id KEvent).
Abbreviation GenerationId := (Id KGeneration).

#[export] Instance Id_eq_dec k : EqDecision (Id k).
Proof. solve_decision. Defined.
#[export] Instance Id_countable k : Countable (Id k).
Proof. apply (inj_countable' id_str MkId). by intros []. Defined.

Definition MAX_ID_LEN : N := 128.

Definition is_stable_id_char (c : ascii) : bool :=
  is_ascii_alphanumeric c
  || Ascii.eqb c "." || Ascii.eqb c "_" || Ascii.eqb c "-" || Ascii.eqb c ":".

Definition id_error (label value message : string) : EvaError :=
  invalid_argument message ⊕ ("id_type", label) ⊕ ("id", value).

Definition validate_id (label value : string) : Res unit :=
  reject str_is_empty value with id_error label value "identifier cannot be empty" else
  reject negb (String.eqb (trim value) value) with
    id_error label value "identifier cannot contain leading or trailing whitespace" else
  reject (MAX_ID_LEN <? str_len value)%N with id_error label value "identifier is too long" else
  reject contains_char "/" value || contains_char backslash value with
    id_error label value "identifier cannot contain path separators" else
  reject negb (chars_all_ascii is_stable_id_char value) with
    id_error label value
      "identifier may only contain ASCII letters, digits, '.', '_', '-', and ':'" else
  Ok tt.

(** [$name::parse], which [new], [FromStr] and [TryFrom<&str>] delegate to. *)
Definition id_parse (k : IdKind) (value : string) : Res (Id k) :=
  validate_id (id_label k) value >>? Ok (MkId value).

(** ** Capability names *)

Record CapabilityName := MkCapabilityName {
  cap_name : string;
  cap_segments : list string
}.
#[export] Instance CapabilityName_eq_dec : EqDecision CapabilityName.
Proof. solve_decision. Defined.
#[export] Instance CapabilityName_countable : Countable CapabilityName.
Proof.
  apply (inj_countable' (fun c => (cap_name c, cap_segments c))
    (fun p => MkCapabilityName p.1 p.2)). by intros [].
Defined.

Definition capability_error (value message : string) : EvaError :=
  invalid_argument message ⊕ ("capability", value).

Definition is_name_char (c : ascii) : bool :=
  is_ascii_alphanumeric c || Ascii.eqb c "_" || Ascii.eqb c "-".

Definition validate_capability_segment (full_name segment : string) : Res unit :=
  reject str_is_empty segment with
    capability_error full_name "capability name cannot contain empty segments" else
  reject negb (chars_all_ascii is_name_char segment) with
    capability_error full_name
      "capability segments may only contain ASCII letters, digits, '_', and '-'" else
  Ok tt.

Definition validate_capability_name (value : string) : Res unit :=
  reject str_is_empty value with capability_error value "capability name cannot be empty" else
  reject negb (String.eqb (trim value) value) with
    capability_error value "capability name cannot contain leading or trailing whitespace" else
  try_each (validate_capability_segment value) (split "." value).

Definition capability_name_parse (value : string) : Res CapabilityName :=
  validate_capability_name value >>?
  Ok {| cap_name := value; cap_segments := split "." value |}.

(** [CapabilityName::namespace]: the first segment ([segments[0]]). *)
Definition namespace (c : CapabilityName) : option string := head (cap_segments c).

Inductive ProviderHint :=
| HintAdapter (id : AdapterId)
| HintNamed (name : string).

Definition validate_provider_name (value : string) : Res unit :=
  reject str_is_empty value || negb (String.eqb (trim value) value)
         || existsb is_whitespace (chars value) with
    invalid_argument "provider hint must be a non-empty stable name"
      ⊕ ("provider_hint", value) else
  Ok tt.

Definition provider_hint_named (value : string) : Res ProviderHint :=
  validate_provider_name value >>? Ok (HintNamed value).

Definition provider_hint_display (h : ProviderHint) : string :=
  match h with
  | HintAdapter id => "adapter:" +:+ id_str id
  | HintNamed name => name
  end.

(** ** What a parsed identifier is *)

Lemma stable_id_char_graphic c : is_stable_id_char c = true -> is_graphic c = true.
Proof. apply ascii_impl. vm_compute. reflexivity. Qed.

Lemma name_char_graphic c : is_name_char c = true -> is_graphic c = true.
Proof. apply ascii_impl. vm_compute. reflexivity. Qed.

(** The language of identifiers, as one predicate. *)
Definition id_valid (value : string) : bool :=
  negb (str_is_empty value) && (str_len value <=? MAX_ID_LEN)%N
  && bytes_all is_stable_id_char value.

Lemma id_valid_graphic value : id_valid value = true -> bytes_all is_graphic value = true.
Proof.
  unfold id_valid. rewrite !andb_true_iff. intros [_ H].
  revert H. apply bytes_all_impl, stable_id_char_graphic.
Qed.

Lemma id_valid_not_contains c value :
  is_stable_id_char c = false -> id_valid value = true -> contains_char c value = false.
Proof.
  unfold id_valid. rewrite !andb_true_iff. intros Hc [_ H]. apply contains_char_false.
  revert H. apply bytes_all_impl. intros d Hd. rewrite negb_true_iff, Ascii.eqb_neq. congruence.
Qed.

Lemma validate_id_iff label value : validate_id label value = Ok tt <-> id_valid value = true.
Proof.
  split.
  - unfold validate_id, id_valid. repeat case_match; intros; simplify_eq. reflect_bools.
    rewrite !andb_true_iff, negb_true_iff, N.leb_le. split_and!; [done..|].
    by apply chars_all_ascii_bytes.
  - intros H. pose proof (id_valid_graphic _ H) as Hg. unfold validate_id.
    rewrite (trim_graphic _ Hg), String.eqb_refl.
    rewrite (id_valid_not_contains "/" _ eq_refl H), (id_valid_not_contains backslash _ eq_refl H).
    rewrite (chars_all_ascii_graphic _ _ Hg).
    unfold id_valid in H. rewrite !andb_true_iff, negb_true_iff, N.leb_le in H.
    destruct H as [[-> Hl] ->]. apply N.ltb_ge in Hl as ->. done.
Qed.

Lemma id_parse_Ok k value i :
  id_parse k value = Ok i <-> id_valid value = true /\ i = MkId value.
Proof.
  unfold id_parse. rewrite <- (validate_id_iff (id_label k)).
  destruct (validate_id (id_label k) value) as [[]|]; naive_solver.
Qed.

Lemma id_parse_valid k value : id_valid value = true -> id_parse k value = Ok (MkId value).
Proof. intros. by apply id_parse_Ok. Qed.
#[export] Hint Resolve id_parse_valid : eva.

Lemma id_parse_Err k value e :
  id_parse k value = Err e -> id_valid value = false /\ err_kind e = InvalidArgument.
Proof.
  intros H. split.
  - destruct (id_valid value) eqn:E; [|done]. by rewrite (id_parse_valid k value E) in H.
  - unfold id_parse, validate_id in H. repeat case_match; by simplify_eq.
Qed.

Lemma capability_name_parse_Ok value c :
  capability_name_parse value = Ok c ->
  cap_name c = value /\ cap_segments c = split "." value /\
  Forall (fun s => s <> "" /\ bytes_all is_name_char s = true) (cap_segments c).
Proof.
  unfold capability_name_parse, validate_capability_name. intros H.
  destruct (str_is_empty value); [done|].
  destruct (negb (String.eqb (trim value) value)); [done|].
  destruct (try_each _ _) as [[]|] eqn:E; simplify_eq. cbn. split_and!; [done..|].
  apply try_each_Ok in E. eapply List.Forall_impl; [|exact E].
  intros s Hs. unfold validate_capability_segment in Hs. repeat case_match; simplify_eq.
  reflect_bools. split; [|by apply chars_all_ascii_bytes].
  intros ->. done.
Qed.
