(* ===== verification/Topic.v ===== *)
(** * Topics and topic patterns (crates/eva-core/src/topic.rs)

    Slash separated paths with cached segments, patterns with [*] and a
    final [**], and the matcher every subscription goes through.  The matcher
    is the source's index loop; [topic_matches] is its declarative reading. *)

From Stdlib Require Import Ascii.
From stdpp Require Import base numbers strings gmap list.
From S2P Require Import Prelude RustStr Error.

Record Topic := MkTopic { topic_path : string; topic_segments : list string }.
#[export] Instance Topic_eq_dec : EqDecision Topic.
Proof. solve_decision. Defined.
#[export] Instance Topic_countable : Countable Topic.
Proof.
  apply (inj_countable' (fun t => (topic_path t, topic_segments t))
    (fun p => MkTopic p.1 p.2)). by intros [].
Defined.

Inductive TopicPatternSegment :=
| Exact (segment : string)
| SingleWildcard
| TailWildcard.
#[export] Instance TopicPatternSegment_eq_dec : EqDecision TopicPatternSegment.
Proof. solve_decision. Defined.

Definition pattern_segment_as_str (s : TopicPatternSegment) : string :=
  match s with Exact segment => segment | SingleWildcard => "*" | TailWildcard => "**" end.

Definition is_wildcard (s : TopicPatternSegment) : bool :=
  match s with SingleWildcard | TailWildcard => true | Exact _ => false end.

Record TopicPattern := MkTopicPattern {
  pattern_str : string;
  pattern_segments : list TopicPatternSegment
}.
#[export] Instance TopicPattern_eq_dec : EqDecision TopicPattern.
Proof. solve_decision. Defined.

Inductive SegmentMode := TopicMode | PatternMode.

Definition topic_error (topic message : string) : EvaError :=
  invalid_argument message ⊕ ("topic", topic).

Definition validate_plain_segment (topic segment : string) : Res unit :=
  reject existsb is_whitespace (chars segment) with
    topic_error topic "topic segments cannot contain whitespace" else
  Ok tt.

Definition validate_topic_segment (topic segment : string) : Res unit :=
  reject String.eqb segment "*" || String.eqb segment "**" || contains_char "*" segment with
    topic_error topic "concrete topic segments cannot contain wildcards" else
  validate_plain_segment topic segment.

Definition validate_pattern_segment (pattern segment : string) : Res unit :=
  if String.eqb segment "*" || String.eqb segment "**" then Ok tt
  else
    reject contains_char "*" segment with
      topic_error pattern "wildcards must occupy an entire pattern segment" else
    validate_plain_segment pattern segment.

(** The loop body of [parse_segments]. *)
Definition parse_segment (value : string) (mode : SegmentMode) (segment : string) : Res string :=
  reject str_is_empty segment with
    topic_error value "topic path must not contain empty segments" else
  match mode with
  | TopicMode => validate_topic_segment value segment
  | PatternMode => validate_pattern_segment value segment
  end >>? Ok segment.

Definition parse_segments (value : string) (mode : SegmentMode) : Res (list string) :=
  match value with
  | EmptyString => Err (topic_error value "topic path cannot be empty")
  | String first rest =>
      reject negb (Ascii.eqb first "/") with
        topic_error value "topic path must start with '/'" else
      reject (str_len value =? 1)%N with
        topic_error value "topic path must contain at least one segment" else
      reject ends_with_char "/" value with
        topic_error value "topic path must not end with '/'" else
      try_map (parse_segment value mode) (split "/" rest)
  end.

Definition topic_parse (value : string) : Res Topic :=
  let? segments := parse_segments value TopicMode in
  Ok {| topic_path := value; topic_segments := segments |}.

(** The [for (index, segment)] loop of [TopicPattern::parse]. *)
Fixpoint pattern_loop (value : string) (last_index index : nat) (raw : list string) :
    Res (list TopicPatternSegment) :=
  match raw with
  | [] => Ok []
  | segment :: rest =>
      let? parsed :=
        if String.eqb segment "*" then Ok SingleWildcard
        else if String.eqb segment "**" then
          if Nat.eqb index last_index then Ok TailWildcard
          else Err (topic_error value "tail wildcard '**' is only allowed as the final segment")
        else Ok (Exact segment) in
      let? others := pattern_loop value last_index (S index) rest in
      Ok (parsed :: others)
  end.

Definition topic_pattern_parse (value : string) : Res TopicPattern :=
  let? raw_segments := parse_segments value PatternMode in
  let last_index := length raw_segments - 1 in
  let? segments := pattern_loop value last_index 0 raw_segments in
  Ok {| pattern_str := value; pattern_segments := segments |}.

Definition is_exact (p : TopicPattern) : bool :=
  forallb (fun s => negb (is_wildcard s)) (pattern_segments p).

Definition as_exact_topic (p : TopicPattern) : option Topic :=
  if is_exact p then ok (topic_parse (pattern_str p)) else None.

(** The loop of [TopicPattern::matches] with its running [topic_index]. *)
Fixpoint matches_loop (pattern : list TopicPatternSegment) (segments : list string)
    (topic_index : nat) : bool :=
  match pattern with
  | [] => Nat.eqb topic_index (length segments)
  | Exact expected :: rest =>
      if decide (segments !! topic_index = Some expected)
      then matches_loop rest segments (S topic_index) else false
  | SingleWildcard :: rest =>
      if Nat.leb (length segments) topic_index then false
      else matches_loop rest segments (S topic_index)
  | TailWildcard :: _ => true
  end.

Definition matches (p : TopicPattern) (t : Topic) : bool :=
  matches_loop (pattern_segments p) (topic_segments t) 0.

(** ** The declarative reading of a pattern *)

Inductive topic_matches : list TopicPatternSegment -> list string -> Prop :=
| tm_end : topic_matches [] []
| tm_exact s p t : topic_matches p t -> topic_matches (Exact s :: p) (s :: t)
| tm_single s p t : topic_matches p t -> topic_matches (SingleWildcard :: p) (s :: t)
| tm_tail p t : topic_matches (TailWildcard :: p) t.
#[export] Hint Constructors topic_matches : eva.

(** What a concrete topic segment and a pattern segment may be. *)
Definition topic_segment_ok (s : string) : Prop :=
  s <> "" /\ contains_char "/" s = false /\ contains_char "*" s = false /\
  existsb is_whitespace (chars s) = false.

Definition pattern_segment_ok (s : TopicPatternSegment) : Prop :=
  match s with Exact w => topic_segment_ok w | _ => True end.

(** [**] occurs only as the final segment. *)
Fixpoint tail_only_last (l : list TopicPatternSegment) : Prop :=
  match l with
  | [] => True
  | [_] => True
  | s :: r => s <> TailWildcard /\ tail_only_last r
  end.

Lemma matches_loop_drop p : forall segs i,
  i <= length segs -> matches_loop p segs i = true <-> topic_matches p (drop i segs).
Proof.
  induction p as [|s p IH]; intros segs i Hi; cbn.
  - rewrite Nat.eqb_eq. split.
    + intros ->. rewrite drop_ge by done. constructor.
    + intros Hm. destruct (drop i segs) eqn:Hd; [|by inversion Hm].
      apply (f_equal length) in Hd. rewrite length_drop in Hd. cbn in Hd. lia.
  - destruct s as [w| |].
    + case_decide as Hw.
      * rewrite IH by (apply lookup_lt_Some in Hw; lia).
        rewrite (drop_S _ _ _ Hw). split; [by constructor|by inversion 1].
      * split; [done|]. intros Hm. destruct Hw.
        rewrite <- (Nat.add_0_r i), <- lookup_drop. by inversion Hm.
    + destruct (Nat.leb_spec (length segs) i) as [Hle|Hlt].
      * split; [done|]. rewrite drop_ge by done. inversion 1.
      * rewrite IH by lia. destruct (lookup_lt_is_Some_2 segs i Hlt) as [w Hw].
        rewrite (drop_S _ _ _ Hw). split; [by constructor|by inversion 1].
    + split; [constructor|done].
Qed.

Lemma matches_topic_matches p t :
  matches p t = true <-> topic_matches (pattern_segments p) (topic_segments t).
Proof. unfold matches. rewrite matches_loop_drop by lia. by rewrite drop_0. Qed.

Lemma topic_matches_exact ws t : topic_matches (Exact <$> ws) t <-> t = ws.
Proof.
  split; [|intros ->; induction ws; cbn; auto with eva].
  revert t. induction ws as [|w ws IH]; inversion 1; simplify_eq/=; [done|].
  f_equal. auto.
Qed.

(** ** What the parsers accept *)

Lemma parse_segment_topic value s w :
  contains_char "/" s = false ->
  parse_segment value TopicMode s = Ok w <-> w = s /\ topic_segment_ok s.
Proof.
  intros Hs. unfold parse_segment, validate_topic_segment, validate_plain_segment, topic_segment_ok.
  unfold str_is_empty.
  destruct (String.eqb_spec s "") as [->|]; [naive_solver|].
  destruct (String.eqb_spec s "*") as [->|]; [cbn; naive_solver|].
  destruct (String.eqb_spec s "**") as [->|]; [cbn; naive_solver|].
  cbn. repeat case_match; naive_solver.
Qed.

Lemma parse_segment_pattern value s w :
  contains_char "/" s = false ->
  parse_segment value PatternMode s = Ok w <->
  w = s /\ (s = "*" \/ s = "**" \/ topic_segment_ok s).
Proof.
  intros Hs. unfold parse_segment, validate_pattern_segment, validate_plain_segment, topic_segment_ok.
  unfold str_is_empty.
  destruct (String.eqb_spec s "") as [->|]; [naive_solver|].
  destruct (String.eqb_spec s "*") as [->|]; [cbn; naive_solver|].
  destruct (String.eqb_spec s "**") as [->|]; [cbn; naive_solver|].
  cbn. repeat case_match; naive_solver.
Qed.

(** Both parsers accept exactly "/" followed by accepted segments joined by
    "/"; [segment_ok] is the mode's condition on one segment. *)
Section ParseSegments.
Context (mode : SegmentMode) (segment_ok : string -> Prop).
Hypothesis parse_segment_iff : forall value s w,
  contains_char "/" s = false ->
  parse_segment value mode s = Ok w <-> w = s /\ segment_ok s.
Hypothesis segment_ok_nonempty : ~ segment_ok "".

Lemma parse_segments_sound value segs :
  parse_segments value mode = Ok segs ->
  value = "/" +:+ join "/" segs /\ segs <> [] /\ Forall segment_ok segs /\
  Forall (fun s => contains_char "/" s = false) segs.
Proof using parse_segment_iff.
  destruct value as [|c rest]; [done|]. cbn [parse_segments].
  destruct (Ascii.eqb_spec c "/") as [->|]; [|done]. cbn [negb].
  case_match; [done|]. case_match; [done|]. rewrite try_map_Ok. intros Hf.
  assert (segs = split "/" rest /\ Forall segment_ok segs) as [-> Hok].
  { pose proof (split_Forall_no_sep "/" rest) as Hc.
    induction Hf as [|x y l ys Hx _ IH]; [done|]. inversion Hc; subst.
    apply parse_segment_iff in Hx as [-> ?]; [|done].
    destruct IH as [-> ?]; [done|]. split; [done|by constructor]. }
  split_and!; [|apply split_nonempty|done|apply split_Forall_no_sep].
  change "/" with (str "/"%char). by rewrite join_split.
Qed.

Lemma parse_segments_complete segs :
  segs <> [] -> Forall segment_ok segs -> Forall (fun s => contains_char "/" s = false) segs ->
  parse_segments ("/" +:+ join "/" segs) mode = Ok segs.
Proof using parse_segment_iff segment_ok_nonempty.
  intros Hne Hok Hc. change ("/" +:+ join "/" segs) with (String "/" (join (str "/") segs)).
  pose proof (split_join "/" segs Hne Hc) as Hs.
  set (rest := join (str "/") segs) in *. cbn [parse_segments]. rewrite Ascii.eqb_refl. cbn [negb].
  assert (rest <> "") as Hr.
  { intros E. rewrite E in Hs. cbn in Hs. subst. by inversion Hok. }
  assert ((str_len (String "/" rest) =? 1)%N = false) as ->.
  { apply N.eqb_neq. unfold str_len. destruct rest; [done|]. cbn [String.length]. lia. }
  assert (ends_with_char "/" (String "/" rest) = false) as ->.
  { apply not_true_iff_false. intros He. cbn in He. destruct rest as [|c r] eqn:E; [done|].
    apply ends_with_split in He. rewrite Hs in He.
    rewrite List.Forall_forall in Hok. apply segment_ok_nonempty, Hok. by rewrite <- list_elem_of_In. }
  rewrite Hs. apply try_map_Ok. generalize (String "/" rest) as v. clear Hs Hr rest Hne. intros v.
  induction segs as [|x segs IH]; [constructor|]. inversion Hok; inversion Hc; subst.
  constructor; [by apply parse_segment_iff|auto].
Qed.
End ParseSegments.

Lemma topic_parse_iff value t :
  topic_parse value = Ok t <->
  value = "/" +:+ join "/" (topic_segments t) /\ topic_path t = value /\
  topic_segments t <> [] /\ Forall topic_segment_ok (topic_segments t).
Proof.
  unfold topic_parse. split.
  - destruct (parse_segments value TopicMode) eqn:E; [|done]. intros [= <-]. cbn.
    apply (parse_segments_sound _ topic_segment_ok) in E; [naive_solver|].
    apply parse_segment_topic.
  - intros (-> & Hp & Hne & Hok). rewrite (parse_segments_complete TopicMode topic_segment_ok).
    + destruct t. by cbn in *; subst.
    + apply parse_segment_topic.
    + by intros [].
    + done.
    + done.
    + eapply List.Forall_impl; [|exact Hok]. by intros ? (?&?&?).
Qed.

Lemma pattern_loop_sound value last raw : forall i segs,
  pattern_loop value last i raw = Ok segs ->
  pattern_segment_as_str <$> segs = raw /\
  Forall (fun s => match s with Exact w => w <> "*" /\ w <> "**" | _ => True end) segs /\
  (forall j, segs !! j = Some TailWildcard -> i + j = last).
Proof.
  induction raw as [|s raw IH]; intros i segs; cbn.
  { intros [= <-]. split_and!; [done|constructor|]. intros j. by rewrite lookup_nil. }
  intros H. destruct (if String.eqb s "*" then _ else _) as [parsed|] eqn:Ep; [|done].
  destruct (pattern_loop value last (S i) raw) as [others|] eqn:E; [|done]. simplify_eq.
  destruct (IH _ _ E) as (Hstr & Hex & Htail).
  assert (Hp : pattern_segment_as_str parsed = s /\
    match parsed with Exact w => w <> "*" /\ w <> "**" | _ => True end /\
    (parsed = TailWildcard -> i = last)).
  { destruct (String.eqb_spec s "*") as [->|]; [by simplify_eq|].
    destruct (String.eqb_spec s "**") as [->|]; [|by simplify_eq].
    destruct (Nat.eqb_spec i last); by simplify_eq. }
  destruct Hp as (<- & Hp & Hl). cbn. rewrite Hstr. split_and!; [done|by constructor|].
  intros [|j]; cbn; [intros [= ->]; rewrite Nat.add_0_r; auto|].
  intros Hj. specialize (Htail j Hj). lia.
Qed.

Lemma tail_only_last_index segs n :
  length segs = n -> (forall j, segs !! j = Some TailWildcard -> j = n - 1) -> tail_only_last segs.
Proof.
  revert n. induction segs as [|s segs IH]; intros n Hn Hj; [done|].
  destruct segs as [|s' segs]; [done|]. cbn in Hn. split.
  - intros ->. specialize (Hj 0 eq_refl). lia.
  - apply (IH (n - 1)); [cbn; lia|]. intros j Hs. specialize (Hj (S j) Hs). lia.
Qed.

Lemma pattern_parse_sound value p :
  topic_pattern_parse value = Ok p ->
  pattern_str p = value /\
  value = "/" +:+ join "/" (pattern_segment_as_str <$> pattern_segments p) /\
  pattern_segments p <> [] /\ Forall pattern_segment_ok (pattern_segments p) /\
  tail_only_last (pattern_segments p).
Proof.
  unfold topic_pattern_parse. destruct (parse_segments value PatternMode) as [raw|] eqn:E; [|done].
  destruct (pattern_loop _ _ _ _) as [segs|] eqn:El; [|done]. intros [= <-]. cbn.
  apply (parse_segments_sound _ (fun s => s = "*" \/ s = "**" \/ topic_segment_ok s)) in E
    as (-> & Hne & Hok & Hc); [|apply parse_segment_pattern].
  apply pattern_loop_sound in El as (<- & Hex & Hl).
  rewrite length_fmap in Hl. split_and!; [done..| | |].
  - by intros ->.
  - clear -Hok Hex. induction segs as [|s segs IH]; [constructor|].
    inversion Hex; inversion Hok; subst. constructor; [|auto].
    destruct s; cbn in *; naive_solver.
  - eapply tail_only_last_index; [done|exact Hl].
Qed.

Lemma exact_segments segs :
  forallb (fun s => negb (is_wildcard s)) segs = true ->
  segs = Exact <$> (pattern_segment_as_str <$> segs).
Proof.
  induction segs as [|s segs IH]; [done|]. cbn. rewrite andb_true_iff. intros [Hs Hr].
  destruct s; try done. cbn. by rewrite <- IH.
Qed.

(** ** Properties *)

(** [TopicPattern::matches] (an index walk with early exits) accepts
    exactly the topics the pattern denotes segment by segment: an exact
    segment matches itself, [*] one segment, [**] any (also empty) rest. *)
Theorem matches_correct p t :
  matches p t = true <-> topic_matches (pattern_segments p) (topic_segments t).
Proof. apply matches_topic_matches. Qed.

(** A pattern accepted by [TopicPattern::parse] is its own source text:
    non-empty, every literal segment is a legal topic segment, the text is
    the segments joined by "/", and [**] appears in the last place only. *)
Theorem topic_pattern_parse_wf value p :
  topic_pattern_parse value = Ok p ->
  pattern_str p = value /\
  value = "/" +:+ join "/" (pattern_segment_as_str <$> pattern_segments p) /\
  pattern_segments p <> [] /\ Forall pattern_segment_ok (pattern_segments p) /\
  tail_only_last (pattern_segments p).
Proof. apply pattern_parse_sound. Qed.

Lemma topic_pattern_parse_wf_witness :
  exists p, topic_pattern_parse "/input/*/**" = Ok p /\ tail_only_last (pattern_segments p).
Proof.
  eexists. split; [vm_compute; reflexivity|].
  apply (topic_pattern_parse_wf "/input/*/**"). vm_compute. reflexivity.
Defined.

(** A wildcard-free pattern denotes exactly one topic: [as_exact_topic]
    returns it, and the pattern matches a parsed topic iff the two paths are
    the same string. *)
Theorem exact_pattern_is_topic value p :
  topic_pattern_parse value = Ok p -> is_exact p = true ->
  as_exact_topic p = Some (MkTopic value (pattern_segment_as_str <$> pattern_segments p)) /\
  forall path t, topic_parse path = Ok t -> matches p t = true <-> path = value.
Proof.
  intros Hp He. destruct (pattern_parse_sound _ _ Hp) as (Hs & Hv & Hne & Hok & _).
  pose proof (exact_segments _ He) as Hx.
  set (ws := pattern_segment_as_str <$> pattern_segments p) in *. split.
  - unfold as_exact_topic. rewrite He, ok_Some, Hs. apply topic_parse_iff. cbn.
    split_and!; [done..| |].
    + subst ws. by destruct (pattern_segments p).
    + rewrite Hx in Hok. by rewrite List.Forall_map in Hok.
  - intros path t Ht. apply topic_parse_iff in Ht as (Hpath & Htp & Htn & Hto).
    rewrite matches_topic_matches, Hx, topic_matches_exact, Hv, Hpath. split; [by intros ->|].
    intros E. apply (inj (String.append "/")) in E.
    apply (f_equal (split "/")) in E. change "/" with (str "/"%char) in E.
    rewrite Hx, List.Forall_map in Hok.
    rewrite !split_join in E; [done|..].
    + subst ws. by destruct (pattern_segments p).
    + eapply List.Forall_impl; [|exact Hok]. by intros ? (?&?&?).
    + done.
    + eapply List.Forall_impl; [|exact Hto]. by intros ? (?&?&?).
Qed.

Lemma exact_pattern_is_topic_witness :
  exists p t, topic_pattern_parse "/a/b" = Ok p /\ topic_parse "/a/c" = Ok t /\
    ~ (matches p t = true).
Proof.
  do 2 eexists. split; [vm_compute; reflexivity|]. split; [vm_compute; reflexivity|].
  intros H.
  apply (exact_pattern_is_topic "/a/b" _ ltac:(vm_compute; reflexivity) ltac:(vm_compute; reflexivity))
    with (path := "/a/c") in H; [done|vm_compute; reflexivity].
Defined.
