(* ===== verification/Event.v ===== *)
(** * Events and invocations (crates/eva-core/src/event.rs, invoke.rs)

    The messages the components exchange: payloads, targets, the trace chain
    and the invoke request and response.  [SystemTime] is a count of
    nanoseconds relative to the Unix epoch, [Duration] a count of
    nanoseconds; a constructor that reads the clock takes the reading [now]
    as an argument. *)

From stdpp Require Import base numbers strings gmap list.
From S2P Require Import Prelude RustStr Error Ids Topic.

Abbreviation SystemTime := Z.
Abbreviation Duration := N.

Inductive EventPayload :=
| PayloadEmpty
| PayloadText (value : string)
| PayloadBytes (value : string).
#[export] Instance EventPayload_eq_dec : EqDecision EventPayload.
Proof. solve_decision. Defined.

Definition payload_is_empty (p : EventPayload) : bool :=
  match p with
  | PayloadEmpty => true
  | PayloadText v | PayloadBytes v => str_is_empty v
  end.

Definition payload_as_text (p : EventPayload) : option string :=
  match p with PayloadText v => Some v | _ => None end.
Definition payload_as_bytes (p : EventPayload) : option string :=
  match p with PayloadBytes v => Some v | _ => None end.

Inductive EventTarget :=
| TargetBroadcast
| TargetAgent (id : AgentId)
| TargetCapability (name : CapabilityName)
| TargetAdapter (id : AdapterId).
#[export] Instance EventTarget_eq_dec : EqDecision EventTarget.
Proof. solve_decision. Defined.

Definition is_directed (t : EventTarget) : bool :=
  match t with TargetBroadcast => false | _ => true end.

Record TraceContext := MkTraceContext {
  correlation_id : option EventId;
  causation_id : option EventId
}.
#[export] Instance TraceContext_eq_dec : EqDecision TraceContext.
Proof. solve_decision. Defined.

Definition trace_default : TraceContext := MkTraceContext None None.
Definition trace_correlated (c : EventId) : TraceContext := MkTraceContext (Some c) None.

Definition child_of (t : TraceContext) (parent_event_id : EventId) : TraceContext :=
  {| correlation_id :=
       match correlation_id t with Some c => Some c | None => Some parent_event_id end;
     causation_id := Some parent_event_id |}.

Record EventMetadata := MkEventMetadata {
  created_at : SystemTime;
  meta_request_id : option RequestId;
  meta_trace : TraceContext;
  meta_generation_id : option GenerationId
}.
#[export] Instance EventMetadata_eta : Eta EventMetadata := fun m =>
  MkEventMetadata (created_at m) (meta_request_id m) (meta_trace m) (meta_generation_id m).
#[export] Instance EventMetadata_eq_dec : EqDecision EventMetadata.
Proof. solve_decision. Defined.

Definition event_metadata_new (now : SystemTime) : EventMetadata :=
  MkEventMetadata now None trace_default None.

Record Event := MkEvent {
  event_id : EventId;
  event_topic : Topic;
  event_target : EventTarget;
  event_payload : EventPayload;
  event_metadata : EventMetadata
}.
#[export] Instance Event_eta : Eta Event := fun e =>
  MkEvent (event_id e) (event_topic e) (event_target e) (event_payload e) (event_metadata e).
#[export] Instance Event_eq_dec : EqDecision Event.
Proof. solve_decision. Defined.

Definition event_new (now : SystemTime) (id : EventId) (topic : Topic) (payload : EventPayload) :
    Event :=
  {| event_id := id; event_topic := topic; event_target := TargetBroadcast;
     event_payload := payload; event_metadata := event_metadata_new now |}.

Definition event_with_target (e : Event) (t : EventTarget) : Event := e <| event_target := t |>.
Definition event_with_request_id (e : Event) (r : RequestId) : Event :=
  e <| event_metadata := (event_metadata e) <| meta_request_id := Some r |> |>.
Definition event_with_trace (e : Event) (t : TraceContext) : Event :=
  e <| event_metadata := (event_metadata e) <| meta_trace := t |> |>.
Definition event_with_generation_id (e : Event) (g : GenerationId) : Event :=
  e <| event_metadata := (event_metadata e) <| meta_generation_id := Some g |> |>.

Definition child_event (now : SystemTime) (parent : Event) (id : EventId) (topic : Topic)
    (payload : EventPayload) : Event :=
  event_with_trace (event_new now id topic payload)
    (child_of (meta_trace (event_metadata parent)) (event_id parent)).

(** ** Invocations *)

Inductive InvokeTarget :=
| InvokeAgent (id : AgentId)
| InvokeCapability (name : CapabilityName)
| InvokeAdapter (id : AdapterId).
#[export] Instance InvokeTarget_eq_dec : EqDecision InvokeTarget.
Proof. solve_decision. Defined.

Record InvokeMetadata := MkInvokeMetadata {
  inv_timeout : option Duration;
  inv_trace : TraceContext;
  inv_generation_id : option GenerationId;
  inv_caller : option AgentId
}.
#[export] Instance InvokeMetadata_eta : Eta InvokeMetadata := fun m =>
  MkInvokeMetadata (inv_timeout m) (inv_trace m) (inv_generation_id m) (inv_caller m).
#[export] Instance InvokeMetadata_eq_dec : EqDecision InvokeMetadata.
Proof. solve_decision. Defined.

Definition invoke_metadata_new : InvokeMetadata :=
  MkInvokeMetadata None trace_default None None.

Record InvokeRequest := MkInvokeRequest {
  req_request_id : RequestId;
  req_target : InvokeTarget;
  req_input : EventPayload;
  req_metadata : InvokeMetadata
}.

Definition invoke_request_new (id : RequestId) (target : InvokeTarget) (input : EventPayload) :
    InvokeRequest :=
  MkInvokeRequest id target input invoke_metadata_new.

Inductive InvokeStatus :=
| InvokeAccepted | InvokeCompleted | InvokeFailed | InvokeCancelled | InvokeTimeout.
#[export] Instance InvokeStatus_eq_dec : EqDecision InvokeStatus.
Proof. solve_decision. Defined.

Definition invoke_is_terminal (s : InvokeStatus) : bool :=
  match s with InvokeAccepted => false | _ => true end.

Record InvokeResponse := MkInvokeResponse {
  resp_request_id : RequestId;
  resp_status : InvokeStatus;
  resp_output : option EventPayload;
  resp_error : option EvaError;
  resp_metadata : InvokeMetadata
}.
#[export] Instance InvokeResponse_eta : Eta InvokeResponse := fun r =>
  MkInvokeResponse (resp_request_id r) (resp_status r) (resp_output r) (resp_error r)
    (resp_metadata r).
#[export] Instance InvokeResponse_eq_dec : EqDecision InvokeResponse.
Proof. solve_decision. Defined.

Definition invoke_response_new (id : RequestId) (status : InvokeStatus)
    (output : option EventPayload) (error : option EvaError) : InvokeResponse :=
  MkInvokeResponse id status output error invoke_metadata_new.

Definition response_accepted (id : RequestId) : InvokeResponse :=
  invoke_response_new id InvokeAccepted None None.
Definition response_completed (id : RequestId) (output : EventPayload) : InvokeResponse :=
  invoke_response_new id InvokeCompleted (Some output) None.
Definition response_failed (id : RequestId) (error : EvaError) : InvokeResponse :=
  invoke_response_new id InvokeFailed None (Some error).
Definition response_cancelled (id : RequestId) (reason : option EvaError) : InvokeResponse :=
  let error := match reason with
               | Some e => Some e
               | None => Some (conflict "invoke request was cancelled") end in
  invoke_response_new id InvokeCancelled None error.
Definition response_timeout (id : RequestId) (message : string) : InvokeResponse :=
  invoke_response_new id InvokeTimeout None (Some (timeout_error message)).
Definition response_timeout_with_error (id : RequestId) (error : EvaError) : InvokeResponse :=
  invoke_response_new id InvokeTimeout None (Some error).
Definition is_success (r : InvokeResponse) : bool :=
  match resp_status r with InvokeCompleted => true | _ => false end.

(** ** The trace chain

    [descends root e]: [e] was built from [root] by a chain of
    [Event::child_event] calls, however the topics and payloads changed. *)
Inductive descends (root : Event) : Event -> Prop :=
| descends_child now id topic payload : descends root (child_event now root id topic payload)
| descends_step e now id topic payload :
    descends root e -> descends root (child_event now e id topic payload).

Definition event_trace (e : Event) : TraceContext := meta_trace (event_metadata e).

(** Every event derived from [root] by any chain of [child_event] keeps
    one correlation id: the root's own correlation id, or the root's event id
    when the root had none. *)
Theorem descendants_share_correlation root e :
  descends root e ->
  correlation_id (event_trace e) =
  Some (default (event_id root) (correlation_id (event_trace root))).
Proof.
  unfold event_trace. induction 1 as [|e ? ? ? ? _ IH]; cbn.
  - by case_match.
  - by rewrite IH.
Qed.

Lemma descendants_share_correlation_witness :
  let root := event_new 0 (MkId "e1") (MkTopic "/a" ["a"]) PayloadEmpty in
  let e := child_event 2 (child_event 1 root (MkId "e2") (MkTopic "/b" ["b"]) PayloadEmpty)
             (MkId "e3") (MkTopic "/c" ["c"]) PayloadEmpty in
  correlation_id (event_trace e) = Some (MkId "e1").
Proof.
  intros root e. rewrite (descendants_share_correlation root e); [reflexivity|].
  apply descends_step, descends_child.
Defined.
