(* ===== verification/Scheduler.v ===== *)
(** * The scheduler (crates/eva-scheduler/src)

    Bounded mailboxes, the registry of mailboxes, topic routing, delivery of
    an event to every planned mailbox, the retry decision and the generation
    route gate.  An operation on [&mut self] takes the state and returns its
    result together with the new state. *)

From stdpp Require Import base numbers strings gmap list.
From S2P Require Import Prelude RustStr Error Ids Topic Event.

(** ** mailbox.rs *)

Record AgentMailbox := MkAgentMailbox { mb_capacity : N; mb_events : list Event }.
#[export] Instance AgentMailbox_eta : Eta AgentMailbox := fun m =>
  MkAgentMailbox (mb_capacity m) (mb_events m).

Definition mailbox_new (capacity : N) : Res AgentMailbox :=
  reject (capacity =? 0)%N with
    invalid_argument "mailbox capacity must be greater than zero" else
  Ok {| mb_capacity := capacity; mb_events := [] |}.

Definition mailbox_push (m : AgentMailbox) (event : Event) : Res unit * AgentMailbox :=
  if (mb_capacity m <=? len (mb_events m))%N then
    (Err (unavailable "agent mailbox is full" ⊕ ("capacity", n_to_string (mb_capacity m))), m)
  else (Ok tt, m <| mb_events := mb_events m ++ [event] |>).

Definition mailbox_pop (m : AgentMailbox) : option Event * AgentMailbox :=
  match mb_events m with
  | [] => (None, m)
  | e :: rest => (Some e, m <| mb_events := rest |>)
  end.

(** ** registry.rs *)

Abbreviation MailboxRegistry := (gmap AgentId AgentMailbox).

Definition registry_register (r : MailboxRegistry) (agent_id : AgentId) (capacity : N) :
    Res unit * MailboxRegistry :=
  match r !! agent_id with
  | Some _ =>
      (Err (conflict "agent mailbox already registered" ⊕ ("agent_id", id_str agent_id)), r)
  | None =>
      match mailbox_new capacity with
      | Ok m => (Ok tt, <[agent_id := m]> r)
      | Err e => (Err e, r)
      end
  end.

Definition unregistered (agent_id : AgentId) : EvaError :=
  not_found "agent mailbox is not registered" ⊕ ("agent_id", id_str agent_id).

Definition registry_deliver (r : MailboxRegistry) (agent_id : AgentId) (event : Event) :
    Res unit * MailboxRegistry :=
  match r !! agent_id with
  | None => (Err (unregistered agent_id), r)
  | Some m => let '(res, m') := mailbox_push m event in (res, <[agent_id := m']> r)
  end.

Definition registry_drain_one (r : MailboxRegistry) (agent_id : AgentId) :
    Res (option Event) * MailboxRegistry :=
  match r !! agent_id with
  | None => (Err (unregistered agent_id), r)
  | Some m => let '(e, m') := mailbox_pop m in (Ok e, <[agent_id := m']> r)
  end.

(** ** routing.rs, matcher.rs, subscription.rs *)

Inductive DeliveryMode := Fanout | Compete.
#[export] Instance DeliveryMode_eq_dec : EqDecision DeliveryMode.
Proof. solve_decision. Defined.

Definition delivery_mode_str (d : DeliveryMode) : string :=
  match d with Fanout => "fanout" | Compete => "compete" end.

Record RoutingRule := MkRoutingRule {
  rule_pattern : TopicPattern;
  rule_delivery : DeliveryMode;
  rule_agents : list AgentId
}.

Definition matching_rules (rules : list RoutingRule) (topic : Topic) : list RoutingRule :=
  List.filter (fun rule => matches (rule_pattern rule) topic) rules.

Record DeliveryPlan := MkDeliveryPlan { plan_agent : AgentId; plan_delivery : DeliveryMode }.

Abbreviation SubscriptionTable := (list RoutingRule).

(** The body of the [for rule] loop of [route]. *)
Definition rule_plans (rule : RoutingRule) : list DeliveryPlan :=
  match rule_delivery rule with
  | Fanout => (fun a => MkDeliveryPlan a Fanout) <$> rule_agents rule
  | Compete =>
      match rule_agents rule with
      | a :: _ => [MkDeliveryPlan a Compete]
      | [] => []
      end
  end.

Definition route (rules : SubscriptionTable) (event : Event) : Res (list DeliveryPlan) :=
  match event_target event with
  | TargetAgent agent_id => Ok [MkDeliveryPlan agent_id Fanout]
  | _ =>
      let plans := mbind rule_plans (matching_rules rules (event_topic event)) in
      match plans with
      | [] => Err (not_found "no scheduler route matched event topic"
                     ⊕ ("topic", topic_path (event_topic event)))
      | _ => Ok plans
      end
  end.

(** The [for plan] loop of [deliver]: stops at the first failed delivery and
    keeps the earlier ones. *)
Fixpoint deliver_plans (r : MailboxRegistry) (plans : list DeliveryPlan) (event : Event) :
    Res unit * MailboxRegistry :=
  match plans with
  | [] => (Ok tt, r)
  | plan :: rest =>
      match registry_deliver r (plan_agent plan) event with
      | (Ok _, r') => deliver_plans r' rest event
      | (Err e, r') => (Err e, r')
      end
  end.

Definition deliver (rules : SubscriptionTable) (r : MailboxRegistry) (event : Event) :
    Res (list DeliveryPlan) * MailboxRegistry :=
  match route rules event with
  | Err e => (Err e, r)
  | Ok plans =>
      match deliver_plans r plans event with
      | (Ok _, r') => (Ok plans, r')
      | (Err e, r') => (Err e, r')
      end
  end.

(** ** retry.rs *)

Definition dispatch_retry_event (table : SubscriptionTable) (r : MailboxRegistry) (event : Event) :
    Res (list DeliveryPlan) * MailboxRegistry := deliver table r event.

Record RetryBackoffPolicy := MkRetryBackoffPolicy { rb_max_attempts : N; rb_backoff_ms : N }.

Record RetryBackoffDecision := MkRetryBackoffDecision {
  rd_enqueue : bool;
  rd_next_attempt : N;
  rd_due_after_ms : option N;
  rd_reason : string
}.

Definition decide_retry_backoff (retryable : bool) (attempts_made : N)
    (policy : RetryBackoffPolicy) : RetryBackoffDecision :=
  if negb retryable then
    MkRetryBackoffDecision false attempts_made None "failure is not retryable"
  else if (rb_max_attempts policy <=? attempts_made)%N then
    MkRetryBackoffDecision false attempts_made None "retry attempts exhausted"
  else
    MkRetryBackoffDecision true (saturating_add u32_max attempts_made 1)
      (Some (rb_backoff_ms policy)) "retryable failure scheduled with backoff".

(** ** generation.rs *)

Record GenerationRouteCandidate := MkCandidate {
  cand_generation : GenerationId;
  cand_shadow_healthy : bool
}.

Record GenerationRouteGate := MkGate {
  gate_active : GenerationId;
  gate_candidate : option GenerationRouteCandidate;
  gate_audit : list string
}.
#[export] Instance GenerationRouteGate_eta : Eta GenerationRouteGate := fun g =>
  MkGate (gate_active g) (gate_candidate g) (gate_audit g).

Definition route_audit (g : GenerationId) (what : string) : string :=
  "generation_route:" +:+ id_str g +:+ ":" +:+ what.

Definition gate_new (active : GenerationId) : GenerationRouteGate :=
  MkGate active None [route_audit active "active"].

Definition start_candidate (g : GenerationRouteGate) (generation : GenerationId) :
    Res unit * GenerationRouteGate :=
  if decide (generation = gate_active g) then
    (Err (conflict "candidate generation must differ from active generation"
            ⊕ ("generation", id_str generation)), g)
  else match gate_candidate g with
  | Some _ => (Err (conflict "candidate generation route already exists"), g)
  | None =>
      (Ok tt,
       g <| gate_audit := gate_audit g ++ [route_audit generation "shadowing"] |>
         <| gate_candidate := Some (MkCandidate generation false) |>)
  end.

Definition no_candidate (generation : GenerationId) : EvaError :=
  not_found "candidate generation route does not exist" ⊕ ("generation", id_str generation).

Definition mark_candidate_shadow_healthy (g : GenerationRouteGate) (generation : GenerationId) :
    Res unit * GenerationRouteGate :=
  match gate_candidate g with
  | None => (Err (no_candidate generation), g)
  | Some c =>
      if decide (cand_generation c = generation) then
        (Ok tt,
         g <| gate_candidate := Some (MkCandidate (cand_generation c) true) |>
           <| gate_audit := gate_audit g ++ [route_audit generation "shadow_healthy"] |>)
      else
        (Err (conflict "shadow health does not match candidate generation"
                ⊕ ("candidate", id_str (cand_generation c)) ⊕ ("health", id_str generation)), g)
  end.

Definition reject_candidate_shadow (g : GenerationRouteGate) (generation : GenerationId)
    (reason : string) : Res GenerationRouteCandidate * GenerationRouteGate :=
  match gate_candidate g with
  | None => (Err (no_candidate generation), g)
  | Some c =>
      if decide (cand_generation c = generation) then
        (Ok c,
         g <| gate_candidate := None |>
           <| gate_audit := gate_audit g ++
                [route_audit generation ("shadow_rejected:" +:+ reason)] |>)
      else
        (Err (conflict "shadow rejection does not match candidate generation"
                ⊕ ("candidate", id_str (cand_generation c)) ⊕ ("rejected", id_str generation)), g)
  end.

Definition selected_generation_for_new_work (g : GenerationRouteGate) : GenerationId :=
  match gate_candidate g with
  | Some c => if cand_shadow_healthy c then cand_generation c else gate_active g
  | None => gate_active g
  end.

Definition stamp_new_work (g : GenerationRouteGate) (event : Event) : Event :=
  event_with_generation_id event (selected_generation_for_new_work g).

(** ** Mailboxes as bounded queues *)

Definition mailbox_wf (m : AgentMailbox) : Prop :=
  (0 < mb_capacity m)%N /\ (len (mb_events m) <= mb_capacity m)%N.
Definition registry_wf (r : MailboxRegistry) : Prop := map_Forall (fun _ m => mailbox_wf m) r.

Inductive MailboxOp := OpPush (e : Event) | OpPop.

(** Runs a sequence of operations; collects the accepted and popped events. *)
Fixpoint run_mailbox (m : AgentMailbox) (ops : list MailboxOp) :
    list Event * list Event * AgentMailbox :=
  match ops with
  | [] => ([], [], m)
  | OpPush e :: rest =>
      let '(res, m1) := mailbox_push m e in
      let '(accepted, popped, m2) := run_mailbox m1 rest in
      ((if is_ok res then e :: accepted else accepted), popped, m2)
  | OpPop :: rest =>
      let '(out, m1) := mailbox_pop m in
      let '(accepted, popped, m2) := run_mailbox m1 rest in
      (accepted, match out with Some e => e :: popped | None => popped end, m2)
  end.

Lemma mailbox_new_wf c m : mailbox_new c = Ok m -> mailbox_wf m.
Proof.
  unfold mailbox_new. case_match; [done|]. intros [= <-]. reflect_bools.
  unfold mailbox_wf. cbn. unfold len. cbn. lia.
Qed.

Lemma mailbox_push_Ok m e m' :
  mailbox_push m e = (Ok tt, m') ->
  m' = m <| mb_events := mb_events m ++ [e] |> /\ (len (mb_events m) < mb_capacity m)%N.
Proof. unfold mailbox_push. case_match; intros; simplify_eq. reflect_bools. done. Qed.

Lemma mailbox_push_Err m e err m' :
  mailbox_push m e = (Err err, m') -> m' = m /\ (mb_capacity m <= len (mb_events m))%N.
Proof. unfold mailbox_push. case_match; intros; simplify_eq. reflect_bools. done. Qed.

Lemma mailbox_push_wf m e : mailbox_wf m -> mailbox_wf (mailbox_push m e).2.
Proof.
  unfold mailbox_wf, mailbox_push. case_match; [done|]. reflect_bools. cbn.
  unfold len in *. rewrite length_app. cbn. lia.
Qed.

Lemma mailbox_pop_wf m : mailbox_wf m -> mailbox_wf (mailbox_pop m).2.
Proof.
  unfold mailbox_wf, mailbox_pop. destruct (mb_events m) eqn:E; cbn; rewrite ?E; [done|].
  unfold len. cbn [length]. lia.
Qed.
#[export] Hint Resolve mailbox_new_wf mailbox_push_wf mailbox_pop_wf : eva.

Lemma run_mailbox_spec ops : forall m accepted popped m',
  mailbox_wf m -> run_mailbox m ops = (accepted, popped, m') ->
  mb_events m ++ accepted = popped ++ mb_events m' /\ mailbox_wf m'.
Proof.
  induction ops as [|[e|] ops IH]; intros m acc pop m' Hwf H; cbn in H; simplify_eq.
  - by rewrite app_nil_r.
  - pose proof (mailbox_push_wf m e Hwf) as Hwf1.
    destruct (mailbox_push m e) as [res m1] eqn:Ep.
    destruct (run_mailbox m1 ops) as [[a p] m2] eqn:Er. simplify_eq.
    apply IH in Er as [Ha Hw]; [|done]. split; [|done].
    destruct res as [[]|err].
    + apply mailbox_push_Ok in Ep as [-> _]. cbn in *. by rewrite <- Ha, <- app_assoc.
    + by apply mailbox_push_Err in Ep as [-> _].
  - pose proof (mailbox_pop_wf m Hwf) as Hwf1.
    destruct (mailbox_pop m) as [out m1] eqn:Ep.
    destruct (run_mailbox m1 ops) as [[a p] m2] eqn:Er. simplify_eq.
    apply IH in Er as [Ha Hw]; [|done]. split; [|done].
    unfold mailbox_pop in Ep. destruct (mb_events m) eqn:E; simplify_eq/=.
    + by rewrite <- Ha, E.
    + by rewrite <- Ha.
Qed.

(** ** Delivery *)

(** [k] copies of the event appended to a mailbox. *)
Definition append_copies (k : nat) (e : Event) (m : AgentMailbox) : AgentMailbox :=
  m <| mb_events := mb_events m ++ replicate k e |>.

Definition plan_count (a : AgentId) (plans : list DeliveryPlan) : nat :=
  length (filter (fun p => plan_agent p = a) plans).

(** [r'] is [r] after one push of [e] per plan. *)
Definition delivered (r r' : MailboxRegistry) (plans : list DeliveryPlan) (e : Event) : Prop :=
  forall a, r' !! a = append_copies (plan_count a plans) e <$> r !! a.

Definition cannot_accept (r : MailboxRegistry) (a : AgentId) : Prop :=
  match r !! a with
  | None => True
  | Some m => (mb_capacity m <= len (mb_events m))%N
  end.

Lemma append_copies_0 e m : append_copies 0 e m = m.
Proof. destruct m. unfold append_copies. cbn. by rewrite app_nil_r. Qed.

Lemma append_copies_S k e m :
  append_copies k e (m <| mb_events := mb_events m ++ [e] |>) = append_copies (S k) e m.
Proof. unfold append_copies. cbn. by rewrite <- app_assoc. Qed.

Lemma delivered_nil r e : delivered r r [] e.
Proof.
  intros a. destruct (r !! a); [|done]. cbn. by rewrite append_copies_0.
Qed.

Lemma registry_deliver_cases r a e :
  match registry_deliver r a e with
  | (Ok _, r') => exists m, r !! a = Some m /\ (len (mb_events m) < mb_capacity m)%N /\
                    r' = <[a := m <| mb_events := mb_events m ++ [e] |>]> r
  | (Err _, r') => r' = r /\ cannot_accept r a
  end.
Proof.
  unfold registry_deliver, cannot_accept. destruct (r !! a) as [m|] eqn:E; [|done].
  destruct (mailbox_push m e) as [[[]|err] m'] eqn:Ep.
  - apply mailbox_push_Ok in Ep as [-> ?]. eauto.
  - apply mailbox_push_Err in Ep as [-> ?]. split; [|done]. by apply insert_id.
Qed.

Lemma registry_deliver_wf r a e : registry_wf r -> registry_wf (registry_deliver r a e).2.
Proof.
  intros Hr. unfold registry_deliver. destruct (r !! a) as [m|] eqn:E; [|done].
  pose proof (mailbox_push_wf m e (Hr _ _ E)) as Hm. destruct (mailbox_push m e) as [res m'].
  cbn in *. by apply map_Forall_insert_2.
Qed.

Lemma deliver_plans_spec plans e : forall r,
  registry_wf r ->
  registry_wf (deliver_plans r plans e).2 /\
  match deliver_plans r plans e with
  | (Ok _, r') => delivered r r' plans e
  | (Err _, r') => exists done p rest, plans = done ++ p :: rest /\
      delivered r r' done e /\ cannot_accept r' (plan_agent p)
  end.
Proof.
  induction plans as [|p plans IH]; intros r Hr; cbn.
  { split; [done|apply delivered_nil]. }
  pose proof (registry_deliver_cases r (plan_agent p) e) as Hc.
  pose proof (registry_deliver_wf r (plan_agent p) e Hr) as Hw.
  destruct (registry_deliver r (plan_agent p) e) as [[u|err] r1]; cbn in Hw.
  - destruct Hc as (m & Hm & _ & ->).
    specialize (IH _ Hw) as [Hw2 IH]. split; [done|].
    assert (Hstep : forall r' l,
      delivered (<[plan_agent p := m <| mb_events := mb_events m ++ [e] |>]> r) r' l e ->
      delivered r r' (p :: l) e).
    { intros r' l Hd a. rewrite (Hd a). unfold plan_count. rewrite filter_cons.
      case_decide as Ha; subst.
      - rewrite lookup_insert_eq, Hm. cbn [fmap option_fmap option_map].
        by rewrite append_copies_S.
      - by rewrite lookup_insert_ne. }
    destruct (deliver_plans _ plans e) as [[v|err] r'].
    + by apply Hstep.
    + destruct IH as (l & q & rest & -> & Hd & Hc). exists (p :: l), q, rest.
      split_and!; [done|by apply Hstep|done].
  - destruct Hc as [-> Hc]. split; [done|]. exists [], p, plans.
    split_and!; [done|apply delivered_nil|done].
Qed.

(** ** Retry and generation gate *)

(** Follows the decisions for a failure that stays retryable. *)
Fixpoint retry_enqueues (fuel : nat) (attempts : N) (policy : RetryBackoffPolicy) : nat :=
  match fuel with
  | O => 0
  | S k =>
      let d := decide_retry_backoff true attempts policy in
      if rd_enqueue d then S (retry_enqueues k (rd_next_attempt d) policy) else 0
  end.

Lemma decide_retry_next attempts policy :
  (attempts < rb_max_attempts policy)%N -> (rb_max_attempts policy <= u32_max)%N ->
  decide_retry_backoff true attempts policy =
  MkRetryBackoffDecision true (attempts + 1) (Some (rb_backoff_ms policy))
    "retryable failure scheduled with backoff".
Proof.
  intros. unfold decide_retry_backoff, saturating_add. cbn [negb].
  destruct (N.leb_spec (rb_max_attempts policy) attempts); [lia|]. f_equal. lia.
Qed.

Inductive gate_step : GenerationRouteGate -> GenerationRouteGate -> Prop :=
| gs_start g x : gate_step g (start_candidate g x).2
| gs_mark g x : gate_step g (mark_candidate_shadow_healthy g x).2
| gs_reject g x why : gate_step g (reject_candidate_shadow g x why).2.

Inductive gate_reachable (active : GenerationId) : GenerationRouteGate -> Prop :=
| gr_new : gate_reachable active (gate_new active)
| gr_step g g' : gate_reachable active g -> gate_step g g' -> gate_reachable active g'.

(** The candidate's entry in the audit: started, then [n] health reports. *)
Definition candidate_history (c : GenerationRouteCandidate) (audit : list string) : Prop :=
  exists pre n,
    audit = pre ++ route_audit (cand_generation c) "shadowing"
              :: replicate n (route_audit (cand_generation c) "shadow_healthy") /\
    cand_shadow_healthy c = Nat.ltb 0 n.

Definition gate_inv (active : GenerationId) (g : GenerationRouteGate) : Prop :=
  gate_active g = active /\
  match gate_candidate g with
  | None => True
  | Some c => cand_generation c <> active /\ candidate_history c (gate_audit g)
  end.

Lemma gate_step_inv active g g' : gate_inv active g -> gate_step g g' -> gate_inv active g'.
Proof.
  intros [Ha Hc] Hs. destruct Hs as [g x|g x|g x why]; cbn.
  - unfold start_candidate. case_decide; [done|]. destruct (gate_candidate g) eqn:E.
    { by unfold gate_inv; cbn; rewrite E. }
    split; [done|]. cbn. split; [congruence|]. by exists (gate_audit g), 0.
  - unfold mark_candidate_shadow_healthy. destruct (gate_candidate g) as [c|] eqn:E;
      [|by unfold gate_inv; cbn; rewrite E].
    case_decide as Hx; [|by unfold gate_inv; cbn; rewrite E]. split; [done|]. cbn.
    destruct Hc as [Hne (pre & n & Hau & Hh)]. split; [done|]. exists pre, (S n). split; [|done].
    cbn. rewrite Hau, <- app_assoc. f_equal. cbn. f_equal. subst x.
    by rewrite <- replicate_S_end.
  - unfold reject_candidate_shadow. destruct (gate_candidate g) as [c|] eqn:E;
      [|by unfold gate_inv; cbn; rewrite E].
    case_decide as Hx; [|by unfold gate_inv; cbn; rewrite E]. by split.
Qed.

Lemma gate_reachable_inv active g : gate_reachable active g -> gate_inv active g.
Proof. induction 1; [done|by eapply gate_step_inv]. Qed.

(** ** Properties *)

(** Over any sequence of pushes and pops from a freshly built mailbox,
    the events popped followed by the events still queued are exactly the
    accepted pushes in their order (nothing lost, duplicated or reordered),
    and the queue never exceeds its capacity. *)
Theorem mailbox_fifo_bounded capacity m ops accepted popped m' :
  mailbox_new capacity = Ok m ->
  run_mailbox m ops = (accepted, popped, m') ->
  accepted = popped ++ mb_events m' /\ (len (mb_events m') <= mb_capacity m')%N.
Proof.
  intros Hn Hr. pose proof (mailbox_new_wf _ _ Hn) as Hw.
  apply run_mailbox_spec in Hr as [Ha [_ Hb]]; [|done].
  unfold mailbox_new in Hn. case_match; simplify_eq. done.
Qed.

Lemma mailbox_fifo_bounded_witness :
  let e n := event_new 0 (MkId n) (MkTopic "/a" ["a"]) PayloadEmpty in
  let r := run_mailbox (MkAgentMailbox 1 []) [OpPush (e "x"); OpPush (e "y"); OpPop; OpPush (e "z")] in
  r.1.1 = r.1.2 ++ mb_events r.2 /\ r.1.1 = [e "x"; e "z"].
Proof.
  intros e r. split; [|reflexivity].
  apply (mailbox_fifo_bounded 1 (MkAgentMailbox 1 [])
    [OpPush (e "x"); OpPush (e "y"); OpPop; OpPush (e "z")] r.1.1 r.1.2 r.2); reflexivity.
Defined.

(** [SubscriptionTable::deliver] appends the event once per planned
    delivery and touches no other mailbox.  When it fails, either no route
    matched and nothing changed, or the plans before the failing one were
    delivered, the failing agent is missing or full, and nothing was rolled
    back.  Capacity bounds hold throughout. *)
Theorem deliver_spec rules r e :
  registry_wf r ->
  registry_wf (deliver rules r e).2 /\
  match deliver rules r e with
  | (Ok plans, r') => route rules e = Ok plans /\ delivered r r' plans e
  | (Err err, r') =>
      (route rules e = Err err /\ r' = r) \/
      exists before p after, route rules e = Ok (before ++ p :: after) /\
        delivered r r' before e /\ cannot_accept r' (plan_agent p)
  end.
Proof.
  intros Hr. unfold deliver. destruct (route rules e) as [plans|err] eqn:E; [|cbn; auto].
  destruct (deliver_plans_spec plans e r Hr) as [Hw Hs].
  destruct (deliver_plans r plans e) as [[u|err] r']; cbn in *; [done|].
  split; [done|]. right. destruct Hs as (l & p & rest & -> & ?). eauto.
Qed.

Lemma deliver_spec_witness :
  let e := event_with_target (event_new 0 (MkId "e") (MkTopic "/a" ["a"]) PayloadEmpty)
             (TargetAgent (MkId "w")) in
  let r : MailboxRegistry := {[ MkId "w" := MkAgentMailbox 1 [] ]} in
  registry_wf (deliver [] r e).2 /\ is_ok (deliver [] r e).1 = true.
Proof.
  intros e r. split; [|vm_compute; reflexivity].
  apply (deliver_spec [] r e). intros a m Hm. apply lookup_singleton_Some in Hm as [_ <-].
  split; vm_compute; [reflexivity|discriminate].
Defined.

(** New work is only ever routed to the active generation or to a
    candidate that was started and then reported healthy: whatever sequence
    of (possibly failing) gate operations ran, the candidate differs from
    the active generation, and if it is selected the audit ends with its
    start followed by at least one health report and nothing else. *)
Theorem gate_routes_only_healthy active g :
  gate_reachable active g ->
  gate_active g = active /\
  (selected_generation_for_new_work g = active \/
   exists c pre n, gate_candidate g = Some c /\ cand_generation c <> active /\
     selected_generation_for_new_work g = cand_generation c /\
     gate_audit g = pre ++ route_audit (cand_generation c) "shadowing"
        :: replicate (S n) (route_audit (cand_generation c) "shadow_healthy")).
Proof.
  intros [Ha Hc]%gate_reachable_inv. split; [done|].
  unfold selected_generation_for_new_work. destruct (gate_candidate g) as [c|]; [|by left].
  destruct Hc as [Hne (pre & n & Hau & Hh)]. destruct (cand_shadow_healthy c); [|by left].
  right. destruct n as [|n]; [done|]. exists c, pre, n. done.
Qed.

Lemma gate_routes_only_healthy_witness :
  let g1 := (start_candidate (gate_new (MkId "g1")) (MkId "g2")).2 in
  let g2 := (mark_candidate_shadow_healthy g1 (MkId "g2")).2 in
  gate_active g2 = MkId "g1" /\ selected_generation_for_new_work g2 = MkId "g2".
Proof.
  intros g1 g2. split; [|reflexivity].
  apply (gate_routes_only_healthy (MkId "g1") g2).
  apply (gr_step _ g1); [|apply gs_mark]. eapply gr_step; [apply gr_new|apply gs_start].
Defined.

(** A failure that stays retryable is re-enqueued exactly
    [max_attempts] times by [decide_retry_backoff], whatever the number of
    decisions asked for beyond that, and a non-retryable one never. *)
Theorem retry_budget_exact policy fuel :
  (rb_max_attempts policy <= u32_max)%N ->
  N.to_nat (rb_max_attempts policy) <= fuel ->
  retry_enqueues fuel 0 policy = N.to_nat (rb_max_attempts policy) /\
  forall attempts, rd_enqueue (decide_retry_backoff false attempts policy) = false.
Proof.
  intros Hmax Hf. split; [|done].
  enough (forall attempts, (attempts <= rb_max_attempts policy)%N ->
    N.to_nat (rb_max_attempts policy - attempts) <= fuel ->
    retry_enqueues fuel attempts policy = N.to_nat (rb_max_attempts policy - attempts)) as H.
  { rewrite H by lia. f_equal. lia. }
  clear Hf. induction fuel as [|fuel IH]; intros attempts Ha Hf; cbn [retry_enqueues]; [lia|].
  destruct (decide (attempts = rb_max_attempts policy)) as [->|].
  - unfold decide_retry_backoff. rewrite N.leb_refl. cbn. lia.
  - rewrite decide_retry_next by lia. cbn. rewrite IH by lia. lia.
Qed.

Lemma retry_budget_exact_witness :
  retry_enqueues 5 0 (MkRetryBackoffPolicy 3 10) = 3.
Proof.
  apply (retry_budget_exact (MkRetryBackoffPolicy 3 10) 5); vm_compute; [discriminate|lia].
Defined.
