(* ===== verification/Agent.v ===== *)
(** * The agent runtime (crates/eva-agent/src)

    Lifecycle, the private bounded queue and [run_next_with_control], the
    loop that runs one event through the handler with a retry budget.  The
    handler is the caller's [FnMut]: a state passing function that also says
    how long the call took, which is what [Instant::elapsed] reads. *)

From stdpp Require Import base numbers strings gmap list.
From S2P Require Import Prelude RustStr Error Ids Topic Event.

(** ** lifecycle.rs *)

Inductive AgentLifecycleState := Created | Running | Draining | Stopped | Failed.
#[export] Instance AgentLifecycleState_eq_dec : EqDecision AgentLifecycleState.
Proof. solve_decision. Defined.

Definition lifecycle_str (s : AgentLifecycleState) : string :=
  match s with
  | Created => "created" | Running => "running" | Draining => "draining"
  | Stopped => "stopped" | Failed => "failed"
  end.

Definition lifecycle_start (s : AgentLifecycleState) : Res unit * AgentLifecycleState :=
  match s with
  | Created | Stopped => (Ok tt, Running)
  | _ => (Err (conflict "agent cannot start from current lifecycle state"
                 ⊕ ("state", lifecycle_str s)), s)
  end.

Definition lifecycle_drain (s : AgentLifecycleState) : Res unit * AgentLifecycleState :=
  match s with
  | Running => (Ok tt, Draining)
  | _ => (Err (conflict "agent cannot drain from current lifecycle state"
                 ⊕ ("state", lifecycle_str s)), s)
  end.

Definition lifecycle_stop (s : AgentLifecycleState) : AgentLifecycleState := Stopped.
Definition lifecycle_fail (s : AgentLifecycleState) : AgentLifecycleState := Failed.

(** ** queue.rs *)

Record AgentQueue := MkAgentQueue { q_capacity : N; q_events : list Event }.
#[export] Instance AgentQueue_eta : Eta AgentQueue := fun q =>
  MkAgentQueue (q_capacity q) (q_events q).

Definition queue_new (capacity : N) : Res AgentQueue :=
  reject (capacity =? 0)%N with
    invalid_argument "agent queue capacity must be greater than zero" else
  Ok {| q_capacity := capacity; q_events := [] |}.

Definition enqueue (q : AgentQueue) (event : Event) : Res unit * AgentQueue :=
  if (q_capacity q <=? len (q_events q))%N then
    (Err (unavailable "agent queue is full" ⊕ ("capacity", n_to_string (q_capacity q))), q)
  else (Ok tt, q <| q_events := q_events q ++ [event] |>).

Definition dequeue (q : AgentQueue) : option Event * AgentQueue :=
  match q_events q with
  | [] => (None, q)
  | e :: rest => (Some e, q <| q_events := rest |>)
  end.

(** ** runtime.rs *)

Record AgentHandlerOutput := MkHandlerOutput {
  ho_status : string;
  ho_output : option string
}.

Inductive AgentRunStatus := RunHandled | RunFailed | RunCancelled | RunTimedOut.
#[export] Instance AgentRunStatus_eq_dec : EqDecision AgentRunStatus.
Proof. solve_decision. Defined.

Definition run_status_str (s : AgentRunStatus) : string :=
  match s with
  | RunHandled => "handled" | RunFailed => "failed"
  | RunCancelled => "cancelled" | RunTimedOut => "timed_out"
  end.

Record AgentRunRecord := MkRunRecord {
  run_agent_id : AgentId;
  run_event_id : EventId;
  run_topic : Topic;
  run_status : AgentRunStatus;
  run_attempts : N;
  run_handler_status : option string;
  run_output : option string;
  run_error : option EvaError
}.

Record AgentRunControl := MkRunControl {
  rc_timeout : option Duration;
  rc_cancel_requested : bool;
  rc_cancel_token : option string;
  rc_deadline_at_ms : option N;
  rc_max_attempts : N
}.
#[export] Instance AgentRunControl_eta : Eta AgentRunControl := fun c =>
  MkRunControl (rc_timeout c) (rc_cancel_requested c) (rc_cancel_token c) (rc_deadline_at_ms c)
    (rc_max_attempts c).

Definition run_control_default : AgentRunControl := MkRunControl None false None None 1.
Definition with_max_attempts (c : AgentRunControl) (n : N) : AgentRunControl :=
  c <| rc_max_attempts := N.max n 1 |>.

Record AgentRuntime := MkAgentRuntime {
  rt_agent_id : AgentId;
  rt_lifecycle : AgentLifecycleState;
  rt_queue : AgentQueue
}.
#[export] Instance AgentRuntime_eta : Eta AgentRuntime := fun r =>
  MkAgentRuntime (rt_agent_id r) (rt_lifecycle r) (rt_queue r).

Definition agent_runtime_new (agent_id : AgentId) (queue_capacity : N) : Res AgentRuntime :=
  let? q := queue_new queue_capacity in Ok (MkAgentRuntime agent_id Created q).

Definition agent_start (r : AgentRuntime) : Res unit * AgentRuntime :=
  let '(res, s) := lifecycle_start (rt_lifecycle r) in (res, r <| rt_lifecycle := s |>).

Definition accept (r : AgentRuntime) (event : Event) : Res unit * AgentRuntime :=
  if decide (rt_lifecycle r = Running) then
    let '(res, q) := enqueue (rt_queue r) event in (res, r <| rt_queue := q |>)
  else
    (Err (conflict "agent runtime is not running"
            ⊕ ("agent_id", id_str (rt_agent_id r))
            ⊕ ("state", lifecycle_str (rt_lifecycle r))), r).

Definition NANOS_PER_MILLI : N := 1000000.

Definition exceeded_timeout (timeout : option Duration) (elapsed : Duration) : bool :=
  match timeout with Some budget => (budget <? elapsed)%N | None => false end.

Definition run_timeout_error (agent_id : AgentId) (timeout : option Duration) : EvaError :=
  timeout_error "agent run exceeded timeout budget"
    ⊕ ("agent_id", id_str agent_id)
    ⊕ ("timeout_ms", match timeout with
                      | Some t => n_to_string (t / NANOS_PER_MILLI)%N
                      | None => "unknown" end).

Definition run_cancelled_error (agent_id : AgentId) (control : AgentRunControl) : EvaError :=
  let error := with_retryable
    (conflict "agent run was cancelled" ⊕ ("agent_id", id_str agent_id)) false in
  let error := match rc_cancel_token control with
               | Some token => error ⊕ ("cancel_token", token) | None => error end in
  match rc_deadline_at_ms control with
  | Some at_ms => error ⊕ ("deadline_at_ms", n_to_string at_ms) | None => error end.

Section RunNext.
Context {HS : Type}.
Variable handler : HS -> AgentId -> Event -> Res AgentHandlerOutput * Duration * HS.
Variable control : AgentRunControl.

(** One iteration: the output that ends the run or the recorded error. *)
Definition attempt_once (hs : HS) (agent_id : AgentId) (event : Event) :
    Res AgentHandlerOutput * HS :=
  match rc_timeout control with
  | Some 0%N =>
      (Err (timeout_error "agent run exceeded timeout budget"
              ⊕ ("agent_id", id_str agent_id) ⊕ ("timeout_ms", "0")), hs)
  | _ =>
      let '(result, elapsed, hs') := handler hs agent_id event in
      match result with
      | Ok output =>
          if exceeded_timeout (rc_timeout control) elapsed
          then (Err (run_timeout_error agent_id (rc_timeout control)), hs')
          else (Ok output, hs')
      | Err error => (Err error, hs')
      end
  end.

(** [for attempt in attempt..=max_attempts]; [None] is the fall-through
    after the loop. *)
Fixpoint run_attempts_loop (remaining : nat) (attempt max_attempts : N) (hs : HS)
    (agent_id : AgentId) (event : Event) : option AgentRunRecord * HS :=
  match remaining with
  | O => (None, hs)
  | S remaining' =>
      match attempt_once hs agent_id event with
      | (Ok output, hs') =>
          (Some {| run_agent_id := agent_id; run_event_id := event_id event;
                   run_topic := event_topic event; run_status := RunHandled;
                   run_attempts := attempt; run_handler_status := Some (ho_status output);
                   run_output := ho_output output; run_error := None |}, hs')
      | (Err error, hs') =>
          if negb (err_retryable error) || (attempt =? max_attempts)%N then
            (Some {| run_agent_id := agent_id; run_event_id := event_id event;
                     run_topic := event_topic event;
                     run_status := if decide (err_kind error = Timeout)
                                   then RunTimedOut else RunFailed;
                     run_attempts := attempt; run_handler_status := None;
                     run_output := None; run_error := Some error |}, hs')
          else run_attempts_loop remaining' (attempt + 1) max_attempts hs' agent_id event
      end
  end.

Definition run_next_with_control (r : AgentRuntime) (hs : HS) :
    option AgentRunRecord * AgentRuntime * HS :=
  match dequeue (rt_queue r) with
  | (None, q) => (None, r <| rt_queue := q |>, hs)
  | (Some event, q) =>
      let r' := r <| rt_queue := q |> in
      if rc_cancel_requested control then
        (Some {| run_agent_id := rt_agent_id r; run_event_id := event_id event;
                 run_topic := event_topic event; run_status := RunCancelled;
                 run_attempts := 0; run_handler_status := None; run_output := None;
                 run_error := Some (run_cancelled_error (rt_agent_id r) control) |}, r', hs)
      else
        let max_attempts := N.max (rc_max_attempts control) 1 in
        let '(record, hs') :=
          run_attempts_loop (N.to_nat max_attempts) 1 max_attempts hs (rt_agent_id r) event in
        (record, r', hs')
  end.

(** [failures n hs hs']: [n] attempts in a row failed with retryable
    errors, taking the handler from [hs] to [hs']. *)
Inductive failures (agent_id : AgentId) (event : Event) : nat -> HS -> HS -> Prop :=
| failures_none hs : failures agent_id event 0 hs hs
| failures_more n hs hs1 hs2 e :
    attempt_once hs agent_id event = (Err e, hs1) -> err_retryable e = true ->
    failures agent_id event n hs1 hs2 -> failures agent_id event (S n) hs hs2.

(** The record of a run that ended at its [n+1]-th attempt. *)
Definition run_verdict (agent_id : AgentId) (event : Event) (n : nat) (max : N)
    (last : Res AgentHandlerOutput) (record : AgentRunRecord) : Prop :=
  run_agent_id record = agent_id /\ run_event_id record = event_id event /\
  run_topic record = event_topic event /\ run_attempts record = N.of_nat (S n) /\
  match last with
  | Ok output => run_status record = RunHandled /\ run_error record = None /\
      run_handler_status record = Some (ho_status output) /\ run_output record = ho_output output
  | Err e => (err_retryable e = false \/ run_attempts record = max) /\
      run_status record = (if decide (err_kind e = Timeout) then RunTimedOut else RunFailed) /\
      run_error record = Some e /\ run_handler_status record = None /\ run_output record = None
  end.

Lemma run_attempts_loop_spec agent_id event max : forall remaining done hs,
  (N.of_nat done + N.of_nat remaining = max)%N -> 0 < remaining ->
  exists record n hs1 last hs2,
    run_attempts_loop remaining (N.of_nat (S done)) max hs agent_id event = (Some record, hs2) /\
    failures agent_id event n hs hs1 /\ attempt_once hs1 agent_id event = (last, hs2) /\
    run_verdict agent_id event (done + n) max last record /\
    (run_attempts record <= max)%N.
Proof using Type.
  induction remaining as [|k IH]; intros d hs Hmax Hpos; [lia|].
  cbn [run_attempts_loop]. destruct (attempt_once hs agent_id event) as [[output|e] hs'] eqn:E.
  { do 2 eexists; exists hs; do 2 eexists. split; [reflexivity|].
    split; [apply failures_none|]. split; [exact E|]. rewrite Nat.add_0_r. split; [done|]. cbn. lia. }
  destruct (negb (err_retryable e) || (N.of_nat (S d) =? max)%N) eqn:Estop.
  { do 2 eexists; exists hs; do 2 eexists. split; [reflexivity|].
    split; [apply failures_none|]. split; [exact E|]. rewrite Nat.add_0_r. split; [|cbn; lia].
    split_and!; try done. cbn. apply orb_true_iff in Estop as [H|H]; reflect_bools; auto. }
  apply orb_false_iff in Estop as [Hr Hne]. reflect_bools.
  replace (N.of_nat (S d) + 1)%N with (N.of_nat (S (S d))) by lia.
  destruct (IH (S d) hs') as (record & n & hs1 & last & hs2 & Hrun & Hf & Hl & Hv & Hle); [lia..|].
  exists record, (S n), hs1, last, hs2. split_and!; try done.
  - by eapply failures_more.
  - by replace (d + S n) with (S d + n) by lia.
Qed.
End RunNext.

(** ** Properties *)

(** Running the next event always ends with a record for the head of
    the queue (the code's fall-through [None] is unreachable), whatever the
    handler does: some [n] attempts failed with retryable errors, attempt
    [n+1] decided the record, and at most [max(max_attempts, 1)] attempts
    were made; the event leaves the queue and nothing else of the runtime
    changes.  A cancelled run makes no attempt. *)
Theorem run_next_decides {HS} (handler : HS -> AgentId -> Event -> Res AgentHandlerOutput * Duration * HS)
    control r hs event rest :
  q_events (rt_queue r) = event :: rest ->
  exists record hs2,
    run_next_with_control handler control r hs =
      (Some record, r <| rt_queue := (rt_queue r) <| q_events := rest |> |>, hs2) /\
    if rc_cancel_requested control then
      run_status record = RunCancelled /\ run_attempts record = 0%N /\ hs2 = hs
    else exists n hs1 last,
      failures handler control (rt_agent_id r) event n hs hs1 /\
      attempt_once handler control hs1 (rt_agent_id r) event = (last, hs2) /\
      run_verdict (rt_agent_id r) event n (N.max (rc_max_attempts control) 1) last record /\
      (1 <= run_attempts record <= N.max (rc_max_attempts control) 1)%N.
Proof.
  intros Hq. unfold run_next_with_control, dequeue. rewrite Hq.
  destruct (rc_cancel_requested control); [by do 2 eexists|].
  destruct (run_attempts_loop_spec handler control (rt_agent_id r) event
    (N.max (rc_max_attempts control) 1) (N.to_nat (N.max (rc_max_attempts control) 1)) 0 hs)
    as (record & n & hs1 & last & hs2 & Hrun & Hf & Hl & Hv & Hle); [lia..|].
  change (N.of_nat 1) with 1%N in Hrun. rewrite Hrun. exists record, hs2. split; [done|].
  exists n, hs1, last. split_and!; try done. destruct Hv as (_ & _ & _ & -> & _). lia.
Qed.

Lemma run_next_decides_witness :
  let handler (k : nat) (_ : AgentId) (_ : Event) :=
    (match k with
     | O => Ok (MkHandlerOutput "done" None)
     | S _ => Err (unavailable "busy") end, 0%N, pred k) in
  let e := event_new 0 (MkId "e") (MkTopic "/a" ["a"]) PayloadEmpty in
  let r := MkAgentRuntime (MkId "a") Running (MkAgentQueue 1 [e]) in
  (exists record, (run_next_with_control handler (with_max_attempts run_control_default 3) r 2).1.1
     = Some record) /\
  option_map run_attempts
    (run_next_with_control handler (with_max_attempts run_control_default 3) r 2).1.1 = Some 3%N.
Proof.
  intros handler e r. split; [|vm_compute; reflexivity].
  destruct (run_next_decides handler (with_max_attempts run_control_default 3) r 2 e [] eq_refl)
    as (record & hs2 & H & _).
  rewrite H. by exists record.
Defined.
