(* ===== verification/EventCodec.v ===== *)
(** * The durable event record format (crates/eva-storage/src/event_log.rs)

    [record_to_storage] and [record_from_storage] with the field helpers
    they use.  A writer's [data: &mut String] is the list of the fields
    pushed so far; [render] is the text they make. *)

From Stdlib Require Import Ascii.
From stdpp Require Import base numbers strings gmap list.
From S2P Require Import Prelude RustStr Error Ids Topic Event.

Definition EVENT_RECORD_VERSION : string := "1".

Inductive EventLogStatus := LogAppended | LogAcked | LogFailed.
#[export] Instance EventLogStatus_eq_dec : EqDecision EventLogStatus.
Proof. solve_decision. Defined.

Definition log_status_str (s : EventLogStatus) : string :=
  match s with LogAppended => "appended" | LogAcked => "acked" | LogFailed => "failed" end.

Definition log_status_from_storage (value : string) : Res EventLogStatus :=
  if String.eqb value "appended" then Ok LogAppended
  else if String.eqb value "acked" then Ok LogAcked
  else if String.eqb value "failed" then Ok LogFailed
  else Err (conflict "event log status is invalid" ⊕ ("status", value)).

Record EventLogRecord := MkEventLogRecord {
  log_sequence : N;
  log_event : Event;
  log_status : EventLogStatus;
  log_consumer : option AgentId;
  log_error : option EvaError
}.
#[export] Instance EventLogRecord_eta : Eta EventLogRecord := fun r =>
  MkEventLogRecord (log_sequence r) (log_event r) (log_status r) (log_consumer r) (log_error r).
#[export] Instance EventLogRecord_eq_dec : EqDecision EventLogRecord.
Proof. solve_decision. Defined.

Definition push_field (key value : string) : Fields := [(key, value)].
Definition push_encoded_string (key value : string) : Fields := [(key, hex_encode value)].
Definition push_optional_string (key : string) (value : option string) : Fields :=
  match value with
  | Some v => push_encoded_string key v
  | None => push_field key ""
  end.

Definition NANOS_PER_SEC : N := 1000000000.

(** [duration_since(UNIX_EPOCH).unwrap_or_default()] *)
Definition since_epoch (t : SystemTime) : Duration := Z.to_N t.

Definition push_target (t : EventTarget) : Fields :=
  match t with
  | TargetBroadcast => push_field "target_kind" "broadcast" ++ push_optional_string "target_value" None
  | TargetAgent v => push_field "target_kind" "agent"
      ++ push_optional_string "target_value" (Some (id_str v))
  | TargetCapability v => push_field "target_kind" "capability"
      ++ push_optional_string "target_value" (Some (cap_name v))
  | TargetAdapter v => push_field "target_kind" "adapter"
      ++ push_optional_string "target_value" (Some (id_str v))
  end.

Definition push_payload (p : EventPayload) : Fields :=
  match p with
  | PayloadEmpty => push_field "payload_kind" "empty" ++ push_field "payload_value" ""
  | PayloadText v => push_field "payload_kind" "text" ++ push_encoded_string "payload_value" v
  | PayloadBytes v => push_field "payload_kind" "bytes" ++ push_field "payload_value" (hex_encode v)
  end.

Definition push_event_fields (e : Event) : Fields :=
  let created := since_epoch (created_at (event_metadata e)) in
  push_encoded_string "event_id" (id_str (event_id e))
  ++ push_encoded_string "topic" (topic_path (event_topic e))
  ++ push_target (event_target e)
  ++ push_payload (event_payload e)
  ++ push_field "created_at_secs" (n_to_string (created / NANOS_PER_SEC))
  ++ push_field "created_at_nanos" (n_to_string (created mod NANOS_PER_SEC))
  ++ push_optional_string "request_id" (id_str <$> meta_request_id (event_metadata e))
  ++ push_optional_string "generation_id" (id_str <$> meta_generation_id (event_metadata e))
  ++ push_optional_string "correlation_id"
       (id_str <$> correlation_id (meta_trace (event_metadata e)))
  ++ push_optional_string "causation_id"
       (id_str <$> causation_id (meta_trace (event_metadata e))).

Definition context_key (prefix : string) (index : nat) (suffix : string) : string :=
  prefix +:+ "_context_" +:+ n_to_string (N.of_nat index) +:+ suffix.

(** The [for (index, (key, value))] loop over the context entries. *)
Fixpoint push_context (prefix : string) (index : nat) (entries : ErrorContext) : Fields :=
  match entries with
  | [] => []
  | (key, value) :: rest =>
      push_encoded_string (context_key prefix index "_key") key
      ++ push_encoded_string (context_key prefix index "_value") value
      ++ push_context prefix (S index) rest
  end.

Definition push_error_fields (prefix : string) (error : option EvaError) : Fields :=
  match error with
  | Some e =>
      push_field (prefix +:+ "_kind") (error_kind_str (err_kind e))
      ++ push_encoded_string (prefix +:+ "_message") (err_message e)
      ++ push_field (prefix +:+ "_retryable") (if err_retryable e then "true" else "false")
      ++ push_optional_string (prefix +:+ "_provider_code") (err_provider_code e)
      ++ push_field (prefix +:+ "_context_len") (n_to_string (len (err_context e)))
      ++ push_context prefix 0 (err_context e)
  | None =>
      push_field (prefix +:+ "_kind") "" ++ push_field (prefix +:+ "_message") ""
      ++ push_field (prefix +:+ "_retryable") "" ++ push_field (prefix +:+ "_provider_code") ""
      ++ push_field (prefix +:+ "_context_len") "0"
  end.

Definition record_fields (r : EventLogRecord) : Fields :=
  push_field "version" EVENT_RECORD_VERSION
  ++ push_field "sequence" (n_to_string (log_sequence r))
  ++ push_field "status" (log_status_str (log_status r))
  ++ push_event_fields (log_event r)
  ++ push_optional_string "consumer" (id_str <$> log_consumer r)
  ++ push_error_fields "error" (log_error r).

Definition record_to_storage (r : EventLogRecord) : string := render (record_fields r).

(** ** Reading *)

(** The body of the loop of [parse_fields]. *)
Definition parse_field_line (fields : FieldMap) (line : string) : Res FieldMap :=
  match split_once "=" line with
  | None => Err (conflict "durable event log record field is invalid")
  | Some (key, value) =>
      reject str_is_empty (trim key) || negb (String.eqb (trim key) key) with
        conflict "durable event log record field key is invalid" ⊕ ("field", key) else
      Ok (<[key := value]> fields)
  end.

Fixpoint parse_field_lines (fields : FieldMap) (ls : list string) : Res FieldMap :=
  match ls with
  | [] => Ok fields
  | line :: rest =>
      let? fields' := parse_field_line fields line in parse_field_lines fields' rest
  end.

Definition parse_fields (data : string) : Res FieldMap :=
  parse_field_lines ∅ (List.filter (fun line => negb (str_is_empty (trim line))) (lines data)).

Definition require_field (fields : FieldMap) (key : string) : Res string :=
  ok_or (fields !! key) (conflict "durable event log record field is missing" ⊕ ("field", key)).

Definition hex_decode (value : string) : Res string :=
  reject negb (str_len value mod 2 =? 0)%N with conflict "hex field has odd length" else
  ok_or (hex_decode_pairs value) (conflict "hex field contains invalid digit").

Definition decode_string (value : string) : Res string :=
  let? bytes := hex_decode value in
  reject negb (utf8_valid bytes) with
    conflict "durable event log string field is not utf-8" else
  Ok bytes.

Definition decoded_required_string (fields : FieldMap) (key : string) : Res string :=
  let? value := require_field fields key in
  map_err (fun error => error ⊕ ("field", key)) (decode_string value).

Definition optional_decoded_string (fields : FieldMap) (key : string) : Res (option string) :=
  match fields !! key with
  | Some value =>
      if str_is_empty value then Ok None
      else result_map Some (map_err (fun error => error ⊕ ("field", key)) (decode_string value))
  | None => Ok None
  end.

Definition parse_number (max : N) (value field : string) : Res N :=
  ok_or (parse_unsigned max value)
    (conflict "durable event log numeric field is invalid" ⊕ ("field", field)).
Definition parse_u64 := parse_number u64_max.
Definition parse_u32 := parse_number u32_max.
Definition parse_usize := parse_number usize_max.

Definition parse_bool (value field : string) : Res bool :=
  if String.eqb value "true" then Ok true
  else if String.eqb value "false" then Ok false
  else Err (conflict "durable event log boolean field is invalid" ⊕ ("field", field)).

(** [optional_decoded_string(..)?.map(|value| Id::parse(&value)).transpose()?] *)
Definition optional_id (k : IdKind) (fields : FieldMap) (key : string) : Res (option (Id k)) :=
  let? value := optional_decoded_string fields key in
  match value with
  | Some v => result_map Some (id_parse k v)
  | None => Ok None
  end.

Definition target_from_fields (fields : FieldMap) : Res EventTarget :=
  let? kind := require_field fields "target_kind" in
  if String.eqb kind "broadcast" then Ok TargetBroadcast
  else if String.eqb kind "agent" then
    let? v := decoded_required_string fields "target_value" in
    result_map TargetAgent (id_parse KAgent v)
  else if String.eqb kind "capability" then
    let? v := decoded_required_string fields "target_value" in
    result_map TargetCapability (capability_name_parse v)
  else if String.eqb kind "adapter" then
    let? v := decoded_required_string fields "target_value" in
    result_map TargetAdapter (id_parse KAdapter v)
  else Err (conflict "event target kind is invalid" ⊕ ("target_kind", kind)).

Definition payload_from_fields (fields : FieldMap) : Res EventPayload :=
  let? kind := require_field fields "payload_kind" in
  if String.eqb kind "empty" then Ok PayloadEmpty
  else if String.eqb kind "text" then
    result_map PayloadText (decoded_required_string fields "payload_value")
  else if String.eqb kind "bytes" then
    let? v := require_field fields "payload_value" in result_map PayloadBytes (hex_decode v)
  else Err (conflict "event payload kind is invalid" ⊕ ("payload_kind", kind)).

(** The clock reading of [EventMetadata::new] is overwritten by
    [with_created_at]; instants past the platform's range are not modelled. *)
Definition event_from_fields (fields : FieldMap) : Res Event :=
  let? id_text := decoded_required_string fields "event_id" in
  let? id := id_parse KEvent id_text in
  let? topic_text := decoded_required_string fields "topic" in
  let? topic := topic_parse topic_text in
  let? target := target_from_fields fields in
  let? payload := payload_from_fields fields in
  let? secs_text := require_field fields "created_at_secs" in
  let? secs := parse_u64 secs_text "created_at_secs" in
  let? nanos_text := require_field fields "created_at_nanos" in
  let? nanos := parse_u32 nanos_text "created_at_nanos" in
  let? request_id := optional_id KRequest fields "request_id" in
  let? generation_id := optional_id KGeneration fields "generation_id" in
  let? correlation := optional_id KEvent fields "correlation_id" in
  let? causation := optional_id KEvent fields "causation_id" in
  Ok {| event_id := id; event_topic := topic; event_target := target; event_payload := payload;
        event_metadata :=
          {| created_at := Z.of_N (secs * NANOS_PER_SEC + nanos);
             meta_request_id := request_id;
             meta_trace := MkTraceContext correlation causation;
             meta_generation_id := generation_id |} |}.

Definition error_kind_from_storage (value : string) : Res ErrorKind :=
  match List.find (fun k => String.eqb value (error_kind_str k))
    [InvalidArgument; NotFound; Conflict; PermissionDenied; Timeout; Unavailable; Internal;
     Unsupported] with
  | Some k => Ok k
  | None => Err (conflict "error kind is invalid" ⊕ ("error_kind", value))
  end.

(** [for index in index..index + count] *)
Fixpoint context_from_fields (fields : FieldMap) (prefix : string) (index count : nat)
    (error : EvaError) : Res EvaError :=
  match count with
  | O => Ok error
  | S rest =>
      let? key := decoded_required_string fields (context_key prefix index "_key") in
      let? value := decoded_required_string fields (context_key prefix index "_value") in
      context_from_fields fields prefix (S index) rest (error ⊕ (key, value))
  end.

Definition error_from_fields (fields : FieldMap) (prefix : string) : Res (option EvaError) :=
  let? kind_value := require_field fields (prefix +:+ "_kind") in
  if str_is_empty kind_value then Ok None
  else
    let? kind := error_kind_from_storage kind_value in
    let? message := decoded_required_string fields (prefix +:+ "_message") in
    let? retryable_text := require_field fields (prefix +:+ "_retryable") in
    let? retryable := parse_bool retryable_text (prefix +:+ "_retryable") in
    let error := with_retryable (error_new kind message) retryable in
    let? provider_code := optional_decoded_string fields (prefix +:+ "_provider_code") in
    let error := match provider_code with
                 | Some code => with_provider_code error code
                 | None => error end in
    let? len_text := require_field fields (prefix +:+ "_context_len") in
    let? context_len := parse_usize len_text (prefix +:+ "_context_len") in
    result_map Some (context_from_fields fields prefix 0 (N.to_nat context_len) error).

Definition record_from_storage (data : string) : Res EventLogRecord :=
  let? fields := parse_fields data in
  let? version := require_field fields "version" in
  reject negb (String.eqb version EVENT_RECORD_VERSION) with
    conflict "event log record version is unsupported" ⊕ ("version", version) else
  let? sequence_text := require_field fields "sequence" in
  let? sequence := parse_u64 sequence_text "sequence" in
  let? status_text := require_field fields "status" in
  let? status := log_status_from_storage status_text in
  let? event := event_from_fields fields in
  let? consumer := optional_id KAgent fields "consumer" in
  let? error := error_from_fields fields "error" in
  Ok {| log_sequence := sequence; log_event := event; log_status := status;
        log_consumer := consumer; log_error := error |}.

(** ** Well-formed records: what the constructors of the sources can build *)

Definition id_ok {k} (i : Id k) : Prop := id_valid (id_str i) = true.
Definition opt_ok {A} (P : A -> Prop) (o : option A) : Prop :=
  match o with Some a => P a | None => True end.

Definition topic_ok (t : Topic) : Prop :=
  topic_parse (topic_path t) = Ok t /\ utf8_valid (topic_path t) = true.
Definition capability_ok (c : CapabilityName) : Prop :=
  capability_name_parse (cap_name c) = Ok c /\ utf8_valid (cap_name c) = true.
Definition target_ok (t : EventTarget) : Prop :=
  match t with
  | TargetBroadcast => True
  | TargetAgent i => id_ok i
  | TargetCapability c => capability_ok c
  | TargetAdapter i => id_ok i
  end.
Definition payload_ok (p : EventPayload) : Prop :=
  match p with PayloadText v => utf8_valid v = true | _ => True end.

Record event_ok (e : Event) : Prop := {
  eo_id : id_ok (event_id e);
  eo_topic : topic_ok (event_topic e);
  eo_target : target_ok (event_target e);
  eo_payload : payload_ok (event_payload e);
  eo_created : (0 <= created_at (event_metadata e))%Z;
  eo_secs : (Z.to_N (created_at (event_metadata e)) / NANOS_PER_SEC <= u64_max)%N;
  eo_request : opt_ok id_ok (meta_request_id (event_metadata e));
  eo_generation : opt_ok id_ok (meta_generation_id (event_metadata e));
  eo_correlation : opt_ok id_ok (correlation_id (meta_trace (event_metadata e)));
  eo_causation : opt_ok id_ok (causation_id (meta_trace (event_metadata e)))
}.

Definition context_entry_ok (kv : string * string) : Prop :=
  str_is_empty (trim kv.1) = false /\ utf8_valid kv.1 = true /\ utf8_valid kv.2 = true.

Record error_ok (e : EvaError) : Prop := {
  ero_message : utf8_valid (err_message e) = true;
  ero_provider : opt_ok (fun c => provider_code_new c = Some c /\ utf8_valid c = true)
                   (err_provider_code e);
  ero_context : Forall context_entry_ok (err_context e);
  ero_context_len : (len (err_context e) <= usize_max)%N
}.

Record record_ok (r : EventLogRecord) : Prop := {
  ro_sequence : (log_sequence r <= u64_max)%N;
  ro_event : event_ok (log_event r);
  ro_consumer : opt_ok id_ok (log_consumer r);
  ro_error : opt_ok error_ok (log_error r)
}.

(** ** Lines: what [parse_fields] makes of rendered fields *)

Lemma parse_field_line_clean m f :
  field_clean f -> parse_field_line m (field_line f) = Ok (<[f.1 := f.2]> m).
Proof.
  intros Hf. unfold parse_field_line. rewrite field_line_split by done.
  destruct f as [k v]. destruct Hf as (Hne & Hg & _). cbn [fst snd] in *.
  rewrite trim_graphic by done. by rewrite String.eqb_refl, str_is_empty_false.
Qed.

Lemma parse_fields_render fs :
  Forall field_clean fs -> parse_fields (render fs) = Ok (fields_map ∅ fs).
Proof.
  intros Hfs. unfold parse_fields. rewrite lines_render by done. generalize (∅ : FieldMap) as m.
  induction Hfs as [|f fs Hf _ IH]; intros m; [done|]. cbn [fmap list_fmap List.filter].
  rewrite str_is_empty_false by (by apply field_line_trim). cbn [negb parse_field_lines].
  by rewrite parse_field_line_clean.
Qed.

(** ** Reading back single fields *)

Lemma hex_decode_hex_encode v : hex_decode (hex_encode v) = Ok v.
Proof.
  unfold hex_decode. rewrite hex_decode_encode. unfold str_len. rewrite hex_encode_length.
  replace (N.of_nat (2 * String.length v)) with (N.of_nat (String.length v) * 2)%N by lia.
  by rewrite N.Div0.mod_mul.
Qed.

Lemma decode_string_hex_encode v : utf8_valid v = true -> decode_string (hex_encode v) = Ok v.
Proof. intros Hv. unfold decode_string. rewrite hex_decode_hex_encode. by rewrite Hv. Qed.

Lemma hex_encode_nonempty v : v <> "" -> hex_encode v <> "".
Proof. by destruct v. Qed.

Lemma require_field_holds m k v : m !! k = Some v -> require_field m k = Ok v.
Proof. intros H. unfold require_field. by rewrite H. Qed.

Lemma decoded_required_holds m k v :
  m !! k = Some (hex_encode v) -> utf8_valid v = true -> decoded_required_string m k = Ok v.
Proof.
  intros H Hv. unfold decoded_required_string. rewrite (require_field_holds _ _ _ H).
  by rewrite decode_string_hex_encode.
Qed.

Lemma optional_decoded_holds m k o :
  holds m (push_optional_string k o) -> opt_ok (fun v => v <> "" /\ utf8_valid v = true) o ->
  optional_decoded_string m k = Ok o.
Proof.
  unfold optional_decoded_string, push_optional_string, push_encoded_string, push_field.
  destruct o as [v|]; rewrite holds_one; intros ->; [|done].
  intros [Hne Hv]. rewrite str_is_empty_false by (by apply hex_encode_nonempty).
  by rewrite decode_string_hex_encode.
Qed.

Lemma id_ok_text {k} (i : Id k) : id_ok i -> id_str i <> "" /\ utf8_valid (id_str i) = true.
Proof.
  intros H. split; [|by apply graphic_utf8, id_valid_graphic]. intros E. unfold id_ok in H.
  by rewrite E in H.
Qed.

Lemma id_parse_id_str {k} (i : Id k) : id_ok i -> id_parse k (id_str i) = Ok i.
Proof. intros H. rewrite id_parse_valid by done. by destruct i. Qed.

Lemma optional_id_holds k m key (o : option (Id k)) :
  holds m (push_optional_string key (id_str <$> o)) -> opt_ok id_ok o ->
  optional_id k m key = Ok o.
Proof.
  intros Hm Ho. unfold optional_id. erewrite optional_decoded_holds; [|exact Hm|].
  - destruct o as [i|]; [|done]. cbn. by rewrite id_parse_id_str.
  - destruct o as [i|]; [|done]. by apply id_ok_text.
Qed.

Lemma parse_number_to_string max n f : (n <= max)%N -> parse_number max (n_to_string n) f = Ok n.
Proof. intros. unfold parse_number. by rewrite parse_unsigned_to_string. Qed.

(** Splits [holds m fs] for a concatenation of pushed fields. *)
Ltac split_holds H :=
  unfold push_encoded_string, push_field in H;
  repeat rewrite holds_app in H; repeat rewrite holds_one in H;
  destruct_and? H.

(** ** Reading back the parts of a record *)

Lemma target_from_fields_holds m t :
  holds m (push_target t) -> target_ok t -> target_from_fields m = Ok t.
Proof.
  intros Hm Ht. unfold target_from_fields, push_target, push_optional_string in *.
  destruct t as [|i|c|i]; split_holds Hm; cbn in Ht;
    rewrite (require_field_holds m "target_kind" _ ltac:(eassumption)); cbn.
  - done.
  - erewrite decoded_required_holds; [|eassumption|by apply id_ok_text].
    by rewrite id_parse_id_str.
  - destruct Ht as [Hp Hu]. erewrite decoded_required_holds; [|eassumption|done]. by rewrite Hp.
  - erewrite decoded_required_holds; [|eassumption|by apply id_ok_text].
    by rewrite id_parse_id_str.
Qed.

Lemma payload_from_fields_holds m p :
  holds m (push_payload p) -> payload_ok p -> payload_from_fields m = Ok p.
Proof.
  intros Hm Hp. unfold payload_from_fields, push_payload in *.
  destruct p as [|v|v]; split_holds Hm; cbn in Hp;
    rewrite (require_field_holds m "payload_kind" _ ltac:(eassumption)); cbn.
  - done.
  - by erewrite decoded_required_holds.
  - erewrite require_field_holds by eassumption. by rewrite hex_decode_hex_encode.
Qed.

Lemma event_from_fields_holds m e :
  holds m (push_event_fields e) -> event_ok e -> event_from_fields m = Ok e.
Proof.
  intros Hm [Hid [Htp Htu] Htarget Hpayload Hcr Hsecs Hreq Hgen Hcor Hcau].
  unfold push_event_fields in Hm. split_holds Hm. unfold event_from_fields.
  erewrite decoded_required_holds; [|eassumption|by apply id_ok_text].
  rewrite id_parse_id_str by done.
  erewrite decoded_required_holds by done. rewrite Htp.
  erewrite target_from_fields_holds by done. erewrite payload_from_fields_holds by done.
  erewrite (require_field_holds m "created_at_secs") by done.
  unfold parse_u64. rewrite parse_number_to_string by done.
  erewrite (require_field_holds m "created_at_nanos") by done.
  unfold parse_u32. rewrite parse_number_to_string.
  2: { pose proof (N.mod_lt (since_epoch (created_at (event_metadata e))) NANOS_PER_SEC ltac:(done)).
       unfold NANOS_PER_SEC, u32_max in *. lia. }
  erewrite (optional_id_holds KRequest) by done. erewrite (optional_id_holds KGeneration) by done.
  do 2 (erewrite (optional_id_holds KEvent) by done).
  f_equal. destruct e as [? ? ? ? [c ? [] ?]]. cbn in *. do 2 f_equal.
  rewrite N.mul_comm, <- N.div_mod by done. unfold since_epoch. lia.
Qed.

Lemma error_kind_from_storage_str k : error_kind_from_storage (error_kind_str k) = Ok k.
Proof. by destruct k. Qed.

Lemma log_status_from_storage_str s : log_status_from_storage (log_status_str s) = Ok s.
Proof. by destruct s. Qed.

Lemma error_kind_str_nonempty k : error_kind_str k <> "".
Proof. by destruct k. Qed.

Lemma context_from_fields_holds m prefix entries : forall index error,
  holds m (push_context prefix index entries) -> Forall context_entry_ok entries ->
  context_from_fields m prefix index (length entries) error =
  Ok (error <| err_context := err_context error ++ entries |>).
Proof.
  induction entries as [|[k v] entries IH]; intros index error Hm Hok.
  { cbn. rewrite app_nil_r. by destruct error. }
  cbn [push_context] in Hm. split_holds Hm. inversion Hok as [|? ? (Hk & Hku & Hvu) Hok']; subst.
  cbn [fst snd] in *. cbn [length context_from_fields].
  do 2 (erewrite decoded_required_holds by done). rewrite IH by done.
  unfold with_context, context_push. rewrite Hk. f_equal. cbn. by rewrite <- app_assoc.
Qed.

Lemma error_from_fields_holds m o :
  holds m (push_error_fields "error" o) -> opt_ok error_ok o -> error_from_fields m "error" = Ok o.
Proof.
  intros Hm Ho. unfold error_from_fields, push_error_fields in *. destruct o as [e|]; split_holds Hm.
  2: { erewrite require_field_holds by done. done. }
  destruct Ho as [Hmsg Hprov Hctx Hlen].
  erewrite require_field_holds by done.
  rewrite str_is_empty_false by apply error_kind_str_nonempty.
  rewrite error_kind_from_storage_str. erewrite decoded_required_holds by done.
  erewrite (require_field_holds m ("error" +:+ "_retryable")) by done.
  replace (parse_bool (if err_retryable e then "true" else "false") ("error" +:+ "_retryable"))
    with (@Ok EvaError _ (err_retryable e)) by (by destruct (err_retryable e)).
  erewrite optional_decoded_holds; [|done|].
  2: { destruct (err_provider_code e) as [c|]; [|done]. destruct Hprov as [Hp Hu].
       split; [|done]. intros ->. done. }
  erewrite (require_field_holds m ("error" +:+ "_context_len")) by done.
  unfold parse_usize. rewrite parse_number_to_string by done.
  unfold len. rewrite Nat2N.id. rewrite context_from_fields_holds by done.
  destruct e as [k msg r pc ctx]. cbn in *. destruct pc as [c|]; [|done].
  destruct Hprov as [Hp _]. unfold with_provider_code. cbn. by rewrite Hp.
Qed.

(** ** Distinct keys *)

Definition STATIC_KEYS : list string :=
  ["version"; "sequence"; "status"; "event_id"; "topic"; "target_kind"; "target_value";
   "payload_kind"; "payload_value"; "created_at_secs"; "created_at_nanos"; "request_id";
   "generation_id"; "correlation_id"; "causation_id"; "consumer"; "error_kind"; "error_message";
   "error_retryable"; "error_provider_code"; "error_context_len"].

Fixpoint context_keys (index count : nat) : list string :=
  match count with
  | O => []
  | S rest => context_key "error" index "_key" :: context_key "error" index "_value"
                :: context_keys (S index) rest
  end.

Lemma push_optional_keys k o : (push_optional_string k o).*1 = [k].
Proof. by destruct o. Qed.

Lemma push_context_keys entries : forall index,
  (push_context "error" index entries).*1 = context_keys index (length entries).
Proof.
  induction entries as [|[k v] entries IH]; intros index; [done|]. cbn. by rewrite IH.
Qed.

Lemma record_fields_keys r :
  exists n, (record_fields r).*1 = STATIC_KEYS ++ context_keys 0 n.
Proof.
  exists (match log_error r with Some e => length (err_context e) | None => 0 end).
  unfold record_fields, push_event_fields, push_error_fields, push_field, push_encoded_string.
  rewrite !fmap_app, !push_optional_keys.
  destruct (event_target (log_event r)), (event_payload (log_event r)), (log_error r);
    cbn -[String.append push_context context_keys];
    rewrite ?fmap_app, ?push_optional_keys, ?fmap_cons, ?push_context_keys; done.
Qed.

(** Context keys carry their index: [error_context_<digits>_key|_value]. *)
Lemma context_key_inj i j s t :
  contains_char "_" s = false -> contains_char "_" t = false ->
  context_key "error" i ("_" +:+ s) = context_key "error" j ("_" +:+ t) -> i = j /\ s = t.
Proof.
  intros Hs Ht H. unfold context_key in H.
  do 2 apply (inj (String.append _)) in H.
  apply (f_equal (split_once "_")) in H.
  assert (Hd : forall n, contains_char "_" (n_to_string n) = false).
  { intros n. apply contains_char_false. eapply bytes_all_impl; [|apply n_to_string_digits].
    apply ascii_impl. vm_compute. reflexivity. }
  change ("_" +:+ ?x) with (String "_" x) in H. rewrite !split_once_append in H by done.
  injection H as Hn ->. apply n_to_string_inj in Hn. split; [lia|done].
Qed.

Lemma context_keys_elem k count : forall index,
  k ∈ context_keys index count <->
  exists i, index <= i < index + count /\
    (k = context_key "error" i "_key" \/ k = context_key "error" i "_value").
Proof.
  induction count as [|count IH]; intros index; cbn.
  - rewrite elem_of_nil. split; [done|]. intros (i & ? & _). lia.
  - rewrite !elem_of_cons, IH. split.
    + intros [->|[->|(i & ? & ?)]]; [exists index; split; [lia|auto]..|exists i; split; [lia|done]].
    + intros (i & Hi & Hk). destruct (decide (i = index)) as [->|]; [naive_solver|].
      right. right. exists i. split; [lia|done].
Qed.

Lemma context_keys_NoDup count : forall index, NoDup (context_keys index count).
Proof.
  induction count as [|count IH]; intros index; cbn; [constructor|].
  rewrite !NoDup_cons, elem_of_cons, !context_keys_elem. split_and!; [| |done].
  - intros [H|(i & Hi & [H|H])]; apply (context_key_inj _ _ "key" _) in H; try done; naive_solver lia.
  - intros (i & Hi & [H|H]); apply (context_key_inj _ _ "value" _) in H; try done; naive_solver lia.
Qed.

(** Tells the context keys from the fixed ones by the byte after the prefix. *)
Definition is_context_key (k : string) : bool :=
  match strip_prefix "error_context_" k with
  | Some (String c _) => is_ascii_digit c
  | _ => false
  end.

Lemma context_key_is i s : is_context_key (context_key "error" i s) = true.
Proof.
  unfold is_context_key, context_key. rewrite !append_assoc.
  change ("error" +:+ "_context_") with "error_context_". rewrite <- append_assoc.
  rewrite strip_prefix_append. pose proof (n_to_string_digits (N.of_nat i)) as Hd.
  pose proof (n_to_string_nonempty (N.of_nat i)). destruct (n_to_string (N.of_nat i)); [done|].
  rewrite append_cons. cbn in Hd. by apply andb_true_iff in Hd as [? _].
Qed.

Lemma record_fields_NoDup r : NoDup (record_fields r).*1.
Proof.
  destruct (record_fields_keys r) as [n ->]. apply NoDup_app. split_and!.
  - apply (bool_decide_eq_true_1 (NoDup STATIC_KEYS)). vm_compute. reflexivity.
  - intros k Hk (i & _ & Hi)%context_keys_elem.
    assert (Hs : is_context_key k = false).
    { clear Hi. revert k Hk. rewrite <- (Forall_forall (fun k => is_context_key k = false)).
      repeat constructor. }
    destruct Hi as [->| ->]; by rewrite context_key_is in Hs.
  - apply context_keys_NoDup.
Qed.

(** ** Clean lines *)

Definition key_clean (k : string) : bool :=
  negb (str_is_empty k) && bytes_all is_graphic k && negb (contains_char "=" k).

Lemma context_key_clean i s :
  bytes_all is_graphic s = true -> contains_char "=" s = false ->
  key_clean (context_key "error" i s) = true.
Proof.
  intros Hg Hc. unfold key_clean, context_key.
  pose proof (n_to_string_digits (N.of_nat i)) as Hd.
  assert (Hn : contains_char "=" (n_to_string (N.of_nat i)) = false).
  { apply contains_char_false. revert Hd. apply bytes_all_impl, ascii_impl. vm_compute. reflexivity. }
  by rewrite !bytes_all_append, !contains_char_append, Hg, Hc, Hn, (digits_graphic _ Hd).
Qed.

Lemma record_keys_clean r : Forall (fun f => key_clean f.1 = true) (record_fields r).
Proof.
  apply (Forall_fmap fst (fun k => key_clean k = true)).
  destruct (record_fields_keys r) as [n ->].
  apply Forall_app. split; [by repeat constructor|].
  apply Forall_forall. intros k (i & _ & [->| ->])%context_keys_elem; by apply context_key_clean.
Qed.

Lemma push_optional_clean k o : Forall (fun f => line_clean f.2 = true) (push_optional_string k o).
Proof. destruct o; repeat constructor; cbn; auto with eva. Qed.

Lemma push_context_clean prefix entries : forall index,
  Forall (fun f => line_clean f.2 = true) (push_context prefix index entries).
Proof. induction entries as [|[k v] entries IH]; intros; repeat constructor; cbn; auto with eva. Qed.

Abbreviation values_clean := (Forall (fun f : string * string => line_clean f.2 = true)).

Lemma one_clean (k v : string) : line_clean v = true -> values_clean [(k, v)].
Proof. by repeat constructor. Qed.

Lemma push_target_clean t : values_clean (push_target t).
Proof.
  destruct t; apply Forall_app; split; try apply push_optional_clean; by apply one_clean.
Qed.

Lemma push_payload_clean p : values_clean (push_payload p).
Proof. destruct p; apply Forall_app; split; apply one_clean; auto with eva. Qed.

Lemma push_error_clean e : values_clean (push_error_fields "error" e).
Proof.
  destruct e as [e|]; cbn [push_error_fields]; [|by repeat constructor].
  unfold push_field, push_encoded_string. rewrite !Forall_app.
  split_and!; try apply push_context_clean; try apply push_optional_clean; apply one_clean;
    auto with eva; [by destruct (err_kind e)|by destruct (err_retryable e)].
Qed.

Lemma record_values_clean r : values_clean (record_fields r).
Proof.
  unfold record_fields, push_event_fields, push_field, push_encoded_string. rewrite !Forall_app.
  split_and!; try apply push_error_clean; try apply push_optional_clean;
    try apply push_target_clean; try apply push_payload_clean; apply one_clean; auto with eva.
  by destruct (log_status r).
Qed.

Lemma keys_values_clean fs :
  Forall (fun f => key_clean f.1 = true) fs -> values_clean fs -> Forall field_clean fs.
Proof.
  intros Hk Hv. rewrite Forall_forall in Hk, Hv |- *. intros f Hf.
  specialize (Hk f Hf). specialize (Hv f Hf).
  unfold key_clean in Hk. rewrite !andb_true_iff, !negb_true_iff in Hk.
  destruct Hk as [[He Hg] Hc]. split_and!; try done. by apply String.eqb_neq.
Qed.

Lemma record_fields_clean r : Forall field_clean (record_fields r).
Proof. apply keys_values_clean; [apply record_keys_clean|apply record_values_clean]. Qed.

Lemma record_roundtrip r : record_ok r -> record_from_storage (record_to_storage r) = Ok r.
Proof.
  intros [Hseq Hev Hco Her]. unfold record_from_storage, record_to_storage.
  rewrite parse_fields_render by apply record_fields_clean.
  pose proof (fields_map_holds (record_fields r) ∅ (record_fields_NoDup r)) as Hm.
  set (m := fields_map ∅ (record_fields r)) in *. clearbody m.
  unfold record_fields in Hm. split_holds Hm.
  erewrite (require_field_holds m "version") by done. rewrite String.eqb_refl. cbn [negb].
  erewrite (require_field_holds m "sequence") by done.
  unfold parse_u64. rewrite parse_number_to_string by done.
  erewrite (require_field_holds m "status") by done. rewrite log_status_from_storage_str.
  erewrite event_from_fields_holds by done. erewrite (optional_id_holds KAgent) by done.
  erewrite error_from_fields_holds by done. by destruct r.
Qed.

(** ** Properties *)

(** The record with its event's creation time no earlier than the epoch, which
    is all the format can hold. *)
Definition epoch_clamped (r : EventLogRecord) : EventLogRecord :=
  let e := log_event r in let m := event_metadata e in
  r <| log_event := e <| event_metadata := m <| created_at := Z.max 0 (created_at m) |> |> |>.

Lemma epoch_clamped_text r : record_to_storage (epoch_clamped r) = record_to_storage r.
Proof.
  destruct r as [s [i tp tg p [c q tr g]] st co er].
  change (epoch_clamped _) with
    (MkEventLogRecord s (MkEvent i tp tg p (MkEventMetadata (Z.max 0 c) q tr g)) st co er).
  assert (since_epoch (Z.max 0 c) = since_epoch c) as E by (unfold since_epoch; lia).
  unfold record_to_storage, record_fields, push_event_fields.
  cbn [log_event log_sequence log_status log_consumer log_error event_metadata event_id event_topic event_target
    event_payload created_at meta_request_id meta_generation_id meta_trace]. by rewrite E.
Qed.

(** C39: what [record_from_storage] reads back from the text
    [record_to_storage] writes of a record is the record itself, with a
    creation time before the epoch replaced by the epoch: whatever its
    target, payload bytes, trace, consumer and structured error with its
    context entries, and exactly the record when its event was created at or
    after the epoch.  The record is one the types allow: parsed identifiers
    and topics, UTF-8 texts, numbers in range and a clamped creation time the
    platform can hold, context keys that are not blank, and a provider code
    that [with_provider_code] keeps as it is. *)
Theorem event_record_roundtrip r :
  record_ok (epoch_clamped r) ->
  record_from_storage (record_to_storage r) = Ok (epoch_clamped r) /\
  ((0 <= created_at (event_metadata (log_event r)))%Z -> epoch_clamped r = r).
Proof.
  intros Hr. split; [rewrite <- epoch_clamped_text; by apply record_roundtrip|].
  intros Hc. unfold epoch_clamped. rewrite Z.max_r by done.
  destruct r as [? [? ? ? ? []] ? ? ?]. reflexivity.
Qed.

Definition sample_event (id : string) : Event :=
  event_with_target
    (event_new 1700000000123456789 (MkId id) (MkTopic "/input/user" ["input"; "user"])
       (PayloadText "a=b"))
    (TargetAgent (MkId "agent-1")).

Definition sample_error : EvaError :=
  with_provider_code (unavailable "down" ⊕ ("k", "v=1") ⊕ ("k", "w")) "E42".

Lemma sample_event_ok id : id_valid id = true -> event_ok (sample_event id).
Proof.
  intros Hid. split; cbn; try done; vm_compute; discriminate.
Qed.

Lemma sample_error_ok : error_ok sample_error.
Proof.
  split; try done; try (vm_compute; discriminate).
  repeat constructor; done.
Qed.

(** A failed record, and the same with an event from a clock before the epoch. *)
Lemma event_record_roundtrip_witness :
  let r := MkEventLogRecord 7 (sample_event "e1") LogFailed (Some (MkId "agent-2"))
             (Some sample_error) in
  let early := r <| log_event := (sample_event "e1") <| event_metadata := event_metadata_new (-5) |> |> in
  record_from_storage (record_to_storage r) = Ok r /\
  record_from_storage (record_to_storage early) = Ok (epoch_clamped early) /\ epoch_clamped early <> early.
Proof.
  intros r early. split_and!.
  - destruct (event_record_roundtrip r) as [H E]; [|rewrite H, E; [reflexivity|vm_compute; discriminate]].
    split; cbn; [vm_compute; discriminate|by apply sample_event_ok|done|apply sample_error_ok].
  - apply (event_record_roundtrip early).
    split; cbn; [vm_compute; discriminate| |done|apply sample_error_ok].
    split; cbn; try done; vm_compute; discriminate.
  - vm_compute. discriminate.
Defined.
