(* ===== verification/Durable.v ===== *)
(** * The durable backend (crates/eva-storage/src/durable_backend.rs)

    Files as a map from path to bytes, [atomic_write] with the two ways it
    can fail, the key-value metadata reader, and the runtime writer guard:
    one writer generation at a time, persisted and checked before every
    mutation.  Lock files are not part of the map: taking a lock is an
    outcome handed to the operation. *)

From Stdlib Require Import Ascii.
From stdpp Require Import base numbers strings gmap list.
From S2P Require Import Prelude RustStr Error.

Abbreviation Files := (gmap string string).

(** ** Files *)

(** [io::Error] values are their display text. *)
Inductive ReadFailure := ReadNotFound | ReadIo (io_error : string).

(** [fs::read_to_string] *)
Definition read_to_string (files : Files) (path : string) : Result ReadFailure string :=
  match files !! path with
  | None => Err ReadNotFound
  | Some data =>
      if utf8_valid data then Ok data else Err (ReadIo "stream did not contain valid UTF-8")
  end.

Definition read_failure_text (f : ReadFailure) : string :=
  match f with ReadNotFound => "No such file or directory (os error 2)" | ReadIo e => e end.

(** How one [atomic_write] ends: replaced and synced, failed before the
    rename, or failed after it (the directory sync). *)
Inductive WriteOutcome := WriteOk | WriteFailed (io_error : string) | WriteUnsynced (io_error : string).

Definition atomic_write (files : Files) (path data : string) (o : WriteOutcome) :
    Result string unit * Files :=
  match o with
  | WriteOk => (Ok tt, <[path := data]> files)
  | WriteFailed e => (Err e, files)
  | WriteUnsynced e => (Err e, <[path := data]> files)
  end.

Definition path_join (dir name : string) : string := dir +:+ "/" +:+ name.

(** ** Versions and generations *)

Abbreviation WriterGeneration := N.
Abbreviation StateVersion := N.

Definition generation_checked_next (g : WriterGeneration) : Res WriterGeneration :=
  ok_or (checked_add u64_max g 1) (conflict "durable writer generation exhausted").

Definition version_checked_next (v : StateVersion) : Res StateVersion :=
  ok_or (checked_add u64_max v 1) (conflict "state record version exhausted").

(** ** Metadata files *)

Fixpoint parse_metadata_lines (label : string) (fields : FieldMap) (ls : list string) : Res FieldMap :=
  match ls with
  | [] => Ok fields
  | line :: rest =>
      match split_once "=" line with
      | None => Err (conflict (label +:+ " metadata is invalid"))
      | Some (key, value) =>
          reject str_is_empty key || bool_decide (is_Some (fields !! key)) with
            conflict (label +:+ " metadata contains a duplicate or empty field") ⊕ ("field", key) else
          parse_metadata_lines label (<[key := value]> fields) rest
      end
  end.

Definition parse_metadata (data label : string) : Res FieldMap :=
  parse_metadata_lines label ∅ (List.filter (fun line => negb (str_is_empty line)) (lines data)).

Definition read_metadata_file (files : Files) (path label : string) : Res FieldMap :=
  match read_to_string files path with
  | Err error =>
      Err (conflict (label +:+ " metadata cannot be read")
             ⊕ ("path", path) ⊕ ("io_error", read_failure_text error))
  | Ok data => map_err (fun error => error ⊕ ("path", path)) (parse_metadata data label)
  end.

(** ** The runtime writer *)

Definition WRITER_GENERATION_FORMAT : string := "eva.writer-generation.v1".
Definition RUNTIME_OWNER_FORMAT : string := "eva.runtime-owner.v1".

Record DurableBackendLayout := MkLayout {
  layout_root : string;
  runtime_owner_path : string;
  runtime_owner_record_path : string;
  writer_generation_path : string;
  layout_event_dir : string;
  layout_state_dir : string;
  layout_task_dir : string
}.

(** [DurableBackendLayout::from_manifest] for the paths modelled here. *)
Definition layout_from_manifest (root event_dir state_dir task_dir : string) : DurableBackendLayout :=
  {| layout_root := root;
     runtime_owner_path := path_join root "runtime.writer.lock";
     runtime_owner_record_path := path_join root "runtime.writer.owner";
     writer_generation_path := path_join root "runtime.writer.generation";
     layout_event_dir := path_join root event_dir;
     layout_state_dir := path_join root state_dir;
     layout_task_dir := path_join root task_dir |}.

Definition read_writer_generation (files : Files) (path : string) : Res WriterGeneration :=
  match read_to_string files path with
  | Err ReadNotFound => Ok 0%N
  | Err error =>
      Err (internal "failed to read durable writer generation"
             ⊕ ("path", path) ⊕ ("io_error", read_failure_text error))
  | Ok data =>
      let? fields := map_err (fun error => error ⊕ ("path", path))
                       (parse_metadata data "durable writer generation") in
      reject negb (Nat.eqb (size fields) 2) with
        conflict "durable writer generation has unexpected fields" ⊕ ("path", path) else
      reject negb (bool_decide (fields !! "format" = Some WRITER_GENERATION_FORMAT)) with
        conflict "durable writer generation format is unsupported" ⊕ ("path", path) else
      let? text := ok_or (fields !! "generation") (conflict "durable writer generation is incomplete") in
      let? generation := ok_or (parse_unsigned u64_max text)
                           (conflict "durable writer generation is invalid" ⊕ ("path", path)) in
      reject (generation =? 0)%N with
        conflict "persisted durable writer generation must be positive" ⊕ ("path", path) else
      Ok generation
  end.

Record DurableWriterGuard := MkWriterGuard {
  wg_root : string;
  wg_owner_path : string;
  wg_owner_record_path : string;
  wg_generation_path : string;
  wg_owner_token : string;
  wg_generation : WriterGeneration;
  wg_pid : N   (** [std::process::id()] of the process that holds the guard *)
}.

Definition unique_token (prefix : string) (generation pid now counter : N) : string :=
  prefix +:+ "-" +:+ n_to_string pid +:+ "-" +:+ n_to_string generation +:+ "-"
    +:+ n_to_string now +:+ "-" +:+ n_to_string counter.

Definition generation_text (generation : WriterGeneration) : string :=
  render [("format", WRITER_GENERATION_FORMAT); ("generation", n_to_string generation)].

Definition owner_text (owner_token : string) (generation : WriterGeneration) (pid : N) : string :=
  render [("format", RUNTIME_OWNER_FORMAT); ("owner_token", owner_token);
          ("generation", n_to_string generation); ("pid", n_to_string pid)].

(** [DurableWriterGuard::acquire].  [anchor] is the outcome of opening,
    locking and syncing the lock anchor; [o1] and [o2] are the outcomes of
    the two metadata writes. *)
Definition writer_acquire (layout : DurableBackendLayout) (files : Files) (anchor : Res unit)
    (pid now counter : N) (o1 o2 : WriteOutcome) : Res DurableWriterGuard * Files :=
  match anchor with
  | Err e => (Err e, files)
  | Ok _ =>
  match read_writer_generation files (writer_generation_path layout) with
  | Err e => (Err e, files)
  | Ok current =>
      if (current =? 0)%N && bool_decide (is_Some (files !! runtime_owner_record_path layout)) then
        (Err (conflict "durable writer generation is missing after ownership was initialized"
                ⊕ ("generation_path", writer_generation_path layout)
                ⊕ ("owner_path", runtime_owner_record_path layout)), files)
      else
  match generation_checked_next current with
  | Err e => (Err e, files)
  | Ok generation =>
  match atomic_write files (writer_generation_path layout) (generation_text generation) o1 with
  | (Err error, files1) =>
      (Err (internal "failed to persist durable writer generation"
              ⊕ ("path", writer_generation_path layout) ⊕ ("io_error", error)), files1)
  | (Ok _, files1) =>
      let owner_token := unique_token "writer" generation pid now counter in
      match atomic_write files1 (runtime_owner_record_path layout)
              (owner_text owner_token generation pid) o2 with
      | (Err error, files2) =>
          (Err (internal "failed to persist runtime writer metadata"
                  ⊕ ("path", runtime_owner_record_path layout) ⊕ ("io_error", error)), files2)
      | (Ok _, files2) =>
          (Ok {| wg_root := layout_root layout;
                 wg_owner_path := runtime_owner_path layout;
                 wg_owner_record_path := runtime_owner_record_path layout;
                 wg_generation_path := writer_generation_path layout;
                 wg_owner_token := owner_token;
                 wg_generation := generation;
                 wg_pid := pid |}, files2)
      end
  end
  end
  end
  end.

Definition verify_current (g : DurableWriterGuard) (files : Files) : Res unit :=
  let? current := read_writer_generation files (wg_generation_path g) in
  reject negb (current =? wg_generation g)%N with
    conflict "durable runtime writer generation is stale"
      ⊕ ("path", wg_owner_path g) ⊕ ("expected", n_to_string (wg_generation g))
      ⊕ ("actual", n_to_string current) else
  let? fields := read_metadata_file files (wg_owner_record_path g) "durable runtime writer owner" in
  let owner_generation := fields !! "generation" ≫= parse_unsigned u64_max in
  let owner_pid := fields !! "pid" ≫= parse_unsigned u32_max in
  reject negb (Nat.eqb (size fields) 4)
         || negb (bool_decide (fields !! "format" = Some RUNTIME_OWNER_FORMAT))
         || negb (bool_decide (fields !! "owner_token" = Some (wg_owner_token g)))
         || negb (bool_decide (owner_generation = Some (wg_generation g)))
         || negb (bool_decide (owner_pid = Some (wg_pid g))) with
    conflict "durable runtime writer owner record is stale or invalid"
      ⊕ ("path", wg_owner_record_path g)
      ⊕ ("expected_generation", n_to_string (wg_generation g)) else
  Ok tt.

(** [with_write_lock]: [lock] is the outcome of the process mutex. *)
Definition with_write_lock {A} (g : DurableWriterGuard) (files : Files) (lock : Res unit)
    (operation : WriterGeneration -> Res A * Files) : Res A * Files :=
  match (lock >>? verify_current g files) with
  | Err e => (Err e, files)
  | Ok _ => operation (wg_generation g)
  end.

(** ** Reading back what was written *)

Lemma parse_metadata_render label fs :
  Forall field_clean fs -> NoDup fs.*1 -> parse_metadata (render fs) label = Ok (fields_map ∅ fs).
Proof.
  intros Hfs Hd. unfold parse_metadata. rewrite lines_render by done.
  assert (Hm : forall k, k ∈ fs.*1 -> (∅ : FieldMap) !! k = None) by (intros; apply lookup_empty).
  revert Hm. generalize (∅ : FieldMap) as m.
  induction Hfs as [|f fs Hf _ IH]; intros m Hm; [done|]. cbn in Hd, Hm.
  apply NoDup_cons in Hd as [Hnot Hd]. cbn [fmap list_fmap List.filter].
  rewrite str_is_empty_false by apply field_line_nonempty. cbn [negb parse_metadata_lines].
  rewrite field_line_split by done. destruct f as [k v]. destruct Hf as (Hne & _). cbn [fst snd] in *.
  rewrite str_is_empty_false by done. rewrite bool_decide_eq_false_2 by (rewrite Hm by left; by intros [? ?]).
  cbn [orb]. apply IH; [done|]. intros k' Hk'. rewrite lookup_insert_ne by (intros ->; done).
  apply Hm. by right.
Qed.

Lemma read_metadata_render files path label fs :
  files !! path = Some (render fs) -> Forall field_clean fs -> NoDup fs.*1 ->
  Forall (fun f => utf8_valid f.2 = true) fs ->
  read_metadata_file files path label = Ok (fields_map ∅ fs).
Proof.
  intros Hf Hc Hd Hu. unfold read_metadata_file, read_to_string. rewrite Hf, render_utf8 by done.
  by rewrite parse_metadata_render.
Qed.

Lemma read_generation_text files path g :
  files !! path = Some (generation_text g) -> (0 < g <= u64_max)%N ->
  read_writer_generation files path = Ok g.
Proof.
  intros Hf Hg. unfold read_writer_generation, read_to_string. rewrite Hf. unfold generation_text.
  assert (Hc : Forall field_clean
    [("format", WRITER_GENERATION_FORMAT); ("generation", n_to_string g)]).
  { repeat constructor; try done. cbn. apply n_to_string_clean. }
  assert (Hd : NoDup [("format", WRITER_GENERATION_FORMAT); ("generation", n_to_string g)].*1)
    by (apply (bool_decide_eq_true_1 (NoDup ["format"; "generation"])); done).
  rewrite render_utf8; [|done|repeat constructor; cbn; auto with eva].
  rewrite parse_metadata_render by done. cbn [map_err].
  destruct (fields_map_facts _ Hd) as [-> Hm]. unfold holds in Hm.
  rewrite !Forall_cons in Hm. destruct Hm as (H1 & H2 & _). cbn [fst snd] in *.
  rewrite H1, H2, bool_decide_eq_true_2 by done. cbn [negb Nat.eqb length ok_or].
  rewrite parse_unsigned_to_string by lia. cbn [ok_or].
  destruct (N.eqb_spec g 0); [lia|done].
Qed.

Lemma generation_checked_next_Ok g g' :
  generation_checked_next g = Ok g' <-> (g' = g + 1)%N /\ (g + 1 <= u64_max)%N.
Proof.
  unfold generation_checked_next. destruct (checked_add u64_max g 1) eqn:E; cbn.
  - apply checked_add_Some in E as [-> ?]. naive_solver.
  - apply checked_add_None in E. naive_solver lia.
Qed.

Lemma version_checked_next_Ok v v' :
  version_checked_next v = Ok v' <-> (v' = v + 1)%N /\ (v + 1 <= u64_max)%N.
Proof.
  unfold version_checked_next. destruct (checked_add u64_max v 1) eqn:E; cbn.
  - apply checked_add_Some in E as [-> ?]. naive_solver.
  - apply checked_add_None in E. naive_solver lia.
Qed.

Lemma unique_token_clean generation pid now counter :
  line_clean (unique_token "writer" generation pid now counter) = true /\
  utf8_valid (unique_token "writer" generation pid now counter) = true.
Proof.
  unfold unique_token. split.
  - by rewrite !line_clean_append, !n_to_string_clean.
  - repeat apply utf8_valid_append; auto with eva.
Qed.

Lemma verify_current_owner g files :
  (0 < wg_generation g <= u64_max)%N -> (wg_pid g <= u32_max)%N ->
  line_clean (wg_owner_token g) = true -> utf8_valid (wg_owner_token g) = true ->
  files !! wg_generation_path g = Some (generation_text (wg_generation g)) ->
  files !! wg_owner_record_path g =
    Some (owner_text (wg_owner_token g) (wg_generation g) (wg_pid g)) ->
  verify_current g files = Ok tt.
Proof.
  intros Hg Hp Hc Hu Hgen Hown. unfold verify_current.
  rewrite (read_generation_text _ _ _ Hgen Hg), N.eqb_refl. cbn [negb]. unfold owner_text in Hown.
  set (fs := [("format", RUNTIME_OWNER_FORMAT); _; _; _]) in Hown.
  assert (Hd : NoDup fs.*1)
    by (apply (bool_decide_eq_true_1 (NoDup ["format"; "owner_token"; "generation"; "pid"])); done).
  erewrite read_metadata_render; [|exact Hown| |exact Hd|].
  2-3: repeat constructor; cbn; auto with eva; done.
  destruct (fields_map_facts _ Hd) as [-> Hm]. unfold holds in Hm. subst fs.
  rewrite !Forall_cons in Hm. destruct Hm as (H1 & H2 & H3 & H4 & _). cbn [fst snd] in *.
  rewrite H1, H2, H3, H4. cbn [mbind option_bind negb Nat.eqb length orb].
  rewrite !parse_unsigned_to_string by lia. by rewrite !bool_decide_eq_true_2.
Qed.

Lemma verify_current_generation g files :
  verify_current g files = Ok tt ->
  read_writer_generation files (wg_generation_path g) = Ok (wg_generation g).
Proof.
  unfold verify_current. destruct (read_writer_generation _ _) as [c|]; [|done].
  destruct (N.eqb_spec c (wg_generation g)) as [->|]; done.
Qed.

(** The generation only ever grows, whatever the write outcomes. *)
Lemma writer_acquire_files layout files anchor pid now counter o1 o2 :
  writer_generation_path layout <> runtime_owner_record_path layout ->
  let '(res, files') := writer_acquire layout files anchor pid now counter o1 o2 in
  match read_writer_generation files (writer_generation_path layout) with
  | Ok before =>
      read_writer_generation files' (writer_generation_path layout) = Ok before \/
      read_writer_generation files' (writer_generation_path layout) = Ok (before + 1)%N
  | Err _ => files' = files
  end.
Proof.
  intros Hne. unfold writer_acquire.
  destruct anchor as [?|e]; [|destruct (read_writer_generation _ _); auto].
  destruct (read_writer_generation files _) as [before|] eqn:Er; [|done].
  destruct ((before =? 0)%N && _); [auto|]. destruct (generation_checked_next before) as [g|] eqn:Eg; [|auto].
  apply generation_checked_next_Ok in Eg as [-> Hg].
  assert (Hw : read_writer_generation
    (<[writer_generation_path layout := generation_text (before + 1)]> files)
    (writer_generation_path layout) = Ok (before + 1)%N).
  { apply read_generation_text; [by rewrite lookup_insert_eq|lia]. }
  destruct o1; cbn [atomic_write]; [|by auto|by auto].
  assert (Hw2 : forall t, read_writer_generation
    (<[runtime_owner_record_path layout := t]>
      (<[writer_generation_path layout := generation_text (before + 1)]> files))
    (writer_generation_path layout) = Ok (before + 1)%N).
  { intros t. apply read_generation_text; [by rewrite lookup_insert_ne, lookup_insert_eq|lia]. }
  destruct o2; cbn [atomic_write]; auto.
Qed.

(** ** Properties *)

(** What the files may go through: acquires of the runtime writer, with any
    lock, process, clock and write outcomes, and any other change that leaves
    the generation file alone. *)
Inductive writer_step (layout : DurableBackendLayout) : Files -> Files -> Prop :=
| writer_step_acquire files anchor pid now counter o1 o2 :
    writer_step layout files (writer_acquire layout files anchor pid now counter o1 o2).2
| writer_step_other files files' :
    files' !! writer_generation_path layout = files !! writer_generation_path layout ->
    writer_step layout files files'.

Lemma writer_steps_generation layout files files' n :
  writer_generation_path layout <> runtime_owner_record_path layout ->
  rtc (writer_step layout) files files' ->
  read_writer_generation files (writer_generation_path layout) = Ok n ->
  exists m, read_writer_generation files' (writer_generation_path layout) = Ok m /\ (n <= m)%N.
Proof.
  intros Hne Hr. revert n.
  induction Hr as [files|files files1 files' Hs _ IH]; intros n Hn; [by exists n|].
  assert (exists m, read_writer_generation files1 (writer_generation_path layout) = Ok m /\ (n <= m)%N)
    as (m & Hm & Hnm).
  { destruct Hs as [files anchor pid now counter o1 o2|files files1 E].
    - pose proof (writer_acquire_files layout files anchor pid now counter o1 o2 Hne) as Ha.
      destruct (writer_acquire _ _ _ _ _ _ _ _) as [r files1]. cbn [snd]. rewrite Hn in Ha.
      destruct Ha as [Ha|Ha]; eexists; (split; [exact Ha|lia]).
    - exists n. split; [|lia]. revert Hn. unfold read_writer_generation, read_to_string. by rewrite E. }
  destruct (IH m Hm) as (m' & Hm' & ?). exists m'. split; [done|lia].
Qed.

(** A guard whose generation is behind the file's is stale. *)
Lemma stale_generation g files n :
  read_writer_generation files (wg_generation_path g) = Ok n -> n <> wg_generation g ->
  is_ok (verify_current g files) = false.
Proof.
  intros Hr Hne. unfold verify_current. rewrite Hr. by destruct (N.eqb_spec n (wg_generation g)).
Qed.

(** C28: acquiring the runtime writer fences every earlier holder: after a
    successful [DurableWriterGuard::acquire] the new guard verifies, its
    generation is one more than any generation that verified before, and
    every guard that verified before is rejected from then on, whatever
    acquires follow, succeeding or failing, and whatever happens to the files
    other than the generation file. *)
Theorem writer_acquire_fences layout files pid now counter o1 o2 guard files' :
  writer_generation_path layout <> runtime_owner_record_path layout ->
  (pid <= u32_max)%N ->
  writer_acquire layout files (Ok tt) pid now counter o1 o2 = (Ok guard, files') ->
  verify_current guard files' = Ok tt /\
  forall old, wg_generation_path old = writer_generation_path layout ->
    verify_current old files = Ok tt ->
    wg_generation guard = (wg_generation old + 1)%N /\
    forall later, rtc (writer_step layout) files' later -> is_ok (verify_current old later) = false.
Proof.
  intros Hne Hpid Hacq. unfold writer_acquire in Hacq.
  destruct (read_writer_generation files _) as [before|] eqn:Er; [|done].
  destruct ((before =? 0)%N && _); [done|]. destruct (generation_checked_next before) as [g|] eqn:Eg; [|done].
  apply generation_checked_next_Ok in Eg as [-> Hg].
  destruct o1; cbn [atomic_write] in Hacq; [|done..].
  destruct o2; cbn [atomic_write] in Hacq; [|done..]. simplify_eq.
  destruct (unique_token_clean (before + 1) pid now counter) as [Hc Hu].
  split.
  - apply verify_current_owner; cbn; try done; [lia| |by rewrite lookup_insert_eq].
    by rewrite lookup_insert_ne, lookup_insert_eq.
  - intros old Hpath Hold%verify_current_generation. rewrite Hpath, Er in Hold. simplify_eq.
    split; [done|]. intros later Hlater.
    eapply (writer_steps_generation layout _ _ (wg_generation old + 1)) in Hlater as (m & Hm & ?); [|done|].
    + apply (stale_generation old later m); [by rewrite Hpath|lia].
    + apply read_generation_text; [by rewrite lookup_insert_ne, lookup_insert_eq|lia].
Qed.

(** The first guard, after another process has taken over and a third has
    failed to. *)
Lemma writer_acquire_fences_witness :
  let layout := layout_from_manifest "r" "e" "s" "t" in
  let a1 := writer_acquire layout ∅ (Ok tt) 7 1 0 WriteOk WriteOk in
  let a2 := writer_acquire layout a1.2 (Ok tt) 8 2 0 WriteOk WriteOk in
  let a3 := writer_acquire layout a2.2 (Ok tt) 9 3 0 WriteOk (WriteFailed "io") in
  match a1.1, a2.1 with
  | Ok g1, Ok _ => is_ok (verify_current g1 a3.2) = false
  | _, _ => False
  end.
Proof.
  intros layout a1 a2 a3.
  destruct a1.1 as [g1|] eqn:E1; [|vm_compute in E1; discriminate].
  destruct a2.1 as [g2|] eqn:E2; [|vm_compute in E2; discriminate].
  assert (H2 : a2 = (Ok g2, a2.2)) by (rewrite <- E2; apply surjective_pairing).
  apply (writer_acquire_fences layout a1.2 8 2 0 WriteOk WriteOk g2 a2.2) in H2 as [_ H2];
    [|vm_compute; discriminate|vm_compute; discriminate].
  apply H2; [| |apply rtc_once; apply writer_step_acquire]; vm_compute in E1; injection E1 as <-; vm_compute; reflexivity.
Defined.
