(* ===== verification/StateStore.v ===== *)
(** * Versioned state records (crates/eva-storage/src/state_store.rs)

    The in-memory store, the file store with its record format, and
    [compare_and_set] of both.  SHA-256 (crate [sha2]) names the record file
    of a key and is a parameter. *)

From Stdlib Require Import Ascii.
From stdpp Require Import base numbers strings gmap list.
From S2P Require Import Prelude RustStr Error Durable.

Record StateRecord := MkStateRecord {
  sr_key : string;
  sr_value : string;
  sr_version : StateVersion;
  sr_owner_generation : WriterGeneration
}.
#[export] Instance StateRecord_eta : Eta StateRecord := fun r =>
  MkStateRecord (sr_key r) (sr_value r) (sr_version r) (sr_owner_generation r).

(** ** In memory *)

Abbreviation InMemoryStateStore := (gmap string StateRecord).

Definition mem_get (s : InMemoryStateStore) (key : string) : option StateRecord := s !! key.

Definition mem_put (s : InMemoryStateStore) (key value : string) : StateRecord * InMemoryStateStore :=
  let version := match s !! key with
                 | Some record => wrapping_add u64_max (sr_version record) 1
                 | None => 1%N end in
  let record := MkStateRecord key value version 0 in
  (record, <[key := record]> s).

Definition version_conflict (key : string) (expected actual : StateVersion) : EvaError :=
  conflict "state version conflict" ⊕ ("key", key)
    ⊕ ("expected", n_to_string expected) ⊕ ("actual", n_to_string actual).

Definition current_version (r : option StateRecord) : StateVersion :=
  match r with Some record => sr_version record | None => 0%N end.

Definition mem_compare_and_set (s : InMemoryStateStore) (key : string) (expected : StateVersion)
    (value : string) : Res StateRecord * InMemoryStateStore :=
  let current := current_version (s !! key) in
  if (current =? expected)%N then
    let '(record, s') := mem_put s key value in (Ok record, s')
  else (Err (version_conflict key expected current), s).

(** ** On disk *)

Definition STATE_RECORD_FORMAT : string := "eva.state-record.v1".

Definition state_record_to_storage (r : StateRecord) : string :=
  render [("format", STATE_RECORD_FORMAT); ("record_version", n_to_string (sr_version r));
          ("owner_generation", n_to_string (sr_owner_generation r));
          ("key_hex", hex_encode (sr_key r)); ("value_hex", hex_encode (sr_value r))].

Fixpoint parse_state_lines (fields : FieldMap) (ls : list string) : Res FieldMap :=
  match ls with
  | [] => Ok fields
  | line :: rest =>
      match split_once "=" line with
      | None => Err (conflict "durable state record is invalid")
      | Some (key, value) =>
          reject str_is_empty key || bool_decide (is_Some (fields !! key)) with
            conflict "durable state record contains a duplicate or empty field" ⊕ ("field", key) else
          parse_state_lines (<[key := value]> fields) rest
      end
  end.

Definition required_state_field (fields : FieldMap) (field : string) : Res string :=
  ok_or (fields !! field) (conflict "durable state record is incomplete" ⊕ ("field", field)).

Definition parse_positive_u64 (value field : string) : Res N :=
  let? parsed := ok_or (parse_unsigned u64_max value)
    (conflict "durable state record field is invalid" ⊕ ("field", field) ⊕ ("value", value)) in
  reject (parsed =? 0)%N with
    conflict "durable state record version fields must be positive" ⊕ ("field", field) else
  Ok parsed.

Definition validate_state_key (key : string) : Res unit :=
  reject str_is_empty key with invalid_argument "state key cannot be empty" else Ok tt.

Definition decode_utf8_hex (value field : string) : Res string :=
  reject negb (str_len value mod 2 =? 0)%N with
    conflict "durable state hex field has odd length" ⊕ ("field", field) else
  let? bytes := ok_or (hex_decode_pairs value)
    (conflict "durable state hex field is invalid" ⊕ ("field", field)) in
  reject negb (utf8_valid bytes) with
    conflict "durable state hex field is not UTF-8" ⊕ ("field", field) else
  Ok bytes.

Definition parse_state_record (data : string) : Res StateRecord :=
  let? fields := parse_state_lines ∅
    (List.filter (fun line => negb (str_is_empty line)) (lines data)) in
  reject negb (Nat.eqb (size fields) 5)
         || negb (bool_decide (fields !! "format" = Some STATE_RECORD_FORMAT)) with
    conflict "durable state record format or fields are unsupported" else
  let? version_text := required_state_field fields "record_version" in
  let? version := parse_positive_u64 version_text "record_version" in
  let? generation_text := required_state_field fields "owner_generation" in
  let? owner_generation := parse_positive_u64 generation_text "owner_generation" in
  let? key_hex := required_state_field fields "key_hex" in
  let? key := decode_utf8_hex key_hex "key_hex" in
  validate_state_key key >>?
  (let? value_hex := required_state_field fields "value_hex" in
   let? value := decode_utf8_hex value_hex "value_hex" in
   Ok (MkStateRecord key value version owner_generation)).

Definition read_state_record (files : Files) (path : string) : Res (option StateRecord) :=
  match read_to_string files path with
  | Err ReadNotFound => Ok None
  | Err error =>
      Err (internal "failed to read durable state record"
             ⊕ ("path", path) ⊕ ("io_error", read_failure_text error))
  | Ok data => result_map Some (map_err (fun error => error ⊕ ("path", path)) (parse_state_record data))
  end.

Definition key_collision (path expected_key actual_key : string) : EvaError :=
  conflict "durable state key digest collision" ⊕ ("path", path)
    ⊕ ("expected_key", expected_key) ⊕ ("actual_key", actual_key).

(** [if let Some(record) = &record { if record.key != key { Err } }] *)
Definition check_key (path key : string) (r : option StateRecord) : Res unit :=
  match r with
  | Some record => if String.eqb (sr_key record) key then Ok tt
                   else Err (key_collision path key (sr_key record))
  | None => Ok tt
  end.

Record FileSystemStateStore := MkFsStateStore {
  fss_root : string;
  fss_state_dir : string;
  fss_writer : option DurableWriterGuard
}.

Section FileStore.
(** [Sha256::digest], as bytes. *)
Variable sha256 : string -> string.

Definition state_record_path (s : FileSystemStateStore) (key : string) : string :=
  path_join (fss_state_dir s) (hex_encode (sha256 key) +:+ ".state").

Definition fs_get (s : FileSystemStateStore) (files : Files) (key : string) :
    Res (option StateRecord) :=
  validate_state_key key >>?
  (let path := state_record_path s key in
   let? record := read_state_record files path in
   check_key path key record >>? Ok record).

(** [lock] and [record_lock] are the outcomes of the process mutex and of
    the record's file lock, [o] that of the record write. *)
Definition fs_compare_and_set (s : FileSystemStateStore) (files : Files) (key : string)
    (expected : StateVersion) (value : string) (lock record_lock : Res unit) (o : WriteOutcome) :
    Res StateRecord * Files :=
  match validate_state_key key with
  | Err e => (Err e, files)
  | Ok _ =>
  match fss_writer s with
  | None => (Err (conflict "durable state mutation requires runtime writer ownership"
                    ⊕ ("root", fss_root s)), files)
  | Some writer =>
      let path := state_record_path s key in
      with_write_lock writer files lock (fun generation =>
        match (record_lock >>? verify_current writer files >>?
               (let? current := read_state_record files path in
                check_key path key current >>?
                (let actual := current_version current in
                 reject negb (actual =? expected)%N with version_conflict key expected actual else
                 let? next := version_checked_next actual in
                 Ok (MkStateRecord key value next generation)))) with
        | Err e => (Err e, files)
        | Ok record =>
            match atomic_write files path (state_record_to_storage record) o with
            | (Ok _, files') => (Ok record, files')
            | (Err error, files') =>
                (Err (internal "failed to atomically write durable state record"
                        ⊕ ("path", path) ⊕ ("io_error", error)), files')
            end
        end)
  end
  end.

Definition fs_create (s : FileSystemStateStore) (files : Files) (key value : string)
    (lock record_lock : Res unit) (o : WriteOutcome) : Res StateRecord * Files :=
  fs_compare_and_set s files key 0 value lock record_lock o.
End FileStore.

(** ** The record format reads back *)

Definition state_record_ok (r : StateRecord) : Prop :=
  sr_key r <> "" /\ utf8_valid (sr_key r) = true /\ utf8_valid (sr_value r) = true /\
  (0 < sr_version r <= u64_max)%N /\ (0 < sr_owner_generation r <= u64_max)%N.

Lemma decode_utf8_hex_encode v f : utf8_valid v = true -> decode_utf8_hex (hex_encode v) f = Ok v.
Proof.
  intros Hv. unfold decode_utf8_hex. rewrite hex_decode_encode. unfold str_len.
  rewrite hex_encode_length.
  replace (N.of_nat (2 * String.length v)) with (N.of_nat (String.length v) * 2)%N by lia.
  rewrite N.Div0.mod_mul. cbn. by rewrite Hv.
Qed.

Lemma parse_positive_to_string n f :
  (0 < n <= u64_max)%N -> parse_positive_u64 (n_to_string n) f = Ok n.
Proof.
  intros Hn. unfold parse_positive_u64. rewrite parse_unsigned_to_string by lia. cbn.
  destruct (N.eqb_spec n 0); [lia|done].
Qed.

Lemma parse_state_lines_render fs :
  Forall field_clean fs -> NoDup fs.*1 ->
  parse_state_lines ∅ (List.filter (fun line => negb (str_is_empty line)) (lines (render fs)))
  = Ok (fields_map ∅ fs).
Proof.
  intros Hfs Hd. rewrite lines_render by done.
  assert (Hm : forall k, k ∈ fs.*1 -> (∅ : FieldMap) !! k = None) by (intros; apply lookup_empty).
  revert Hm. generalize (∅ : FieldMap) as m.
  induction Hfs as [|f fs Hf _ IH]; intros m Hm; [done|]. cbn in Hd, Hm.
  apply NoDup_cons in Hd as [Hnot Hd]. cbn [fmap list_fmap List.filter].
  rewrite str_is_empty_false by apply field_line_nonempty. cbn [negb parse_state_lines].
  rewrite field_line_split by done. destruct f as [k v]. destruct Hf as (Hne & _). cbn [fst snd] in *.
  rewrite str_is_empty_false by done. rewrite bool_decide_eq_false_2 by (rewrite Hm by left; by intros [? ?]).
  cbn [orb]. apply IH; [done|]. intros k' Hk'. rewrite lookup_insert_ne by (intros ->; done).
  apply Hm. by right.
Qed.

Lemma read_state_record_written files path r :
  state_record_ok r -> files !! path = Some (state_record_to_storage r) ->
  read_state_record files path = Ok (Some r).
Proof.
  intros (Hne & Hk & Hv & Hver & Hgen) Hf. unfold read_state_record, read_to_string. rewrite Hf.
  unfold state_record_to_storage.
  set (fs := [("format", STATE_RECORD_FORMAT); _; _; _; _]).
  assert (Hd : NoDup fs.*1) by (apply (bool_decide_eq_true_1 (NoDup
    ["format"; "record_version"; "owner_generation"; "key_hex"; "value_hex"])); done).
  assert (Hc : Forall field_clean fs) by (repeat constructor; cbn; auto with eva; done).
  rewrite render_utf8; [|done|repeat constructor; cbn; auto with eva; done].
  unfold parse_state_record. rewrite parse_state_lines_render by done.
  destruct (fields_map_facts _ Hd) as [-> Hm]. unfold holds in Hm. subst fs.
  rewrite !Forall_cons in Hm. destruct Hm as (H1 & H2 & H3 & H4 & H5 & _). cbn [fst snd] in *.
  unfold required_state_field. rewrite H1, H2, H3, H4, H5. cbn [ok_or].
  rewrite bool_decide_eq_true_2 by done. cbn [negb Nat.eqb length orb].
  rewrite !parse_positive_to_string by done. rewrite !decode_utf8_hex_encode by done.
  unfold validate_state_key. rewrite str_is_empty_false by done. by destruct r.
Qed.

(** ** The file store against the in-memory store *)

(** The in-memory store knows no writer generations. *)
Definition erase (r : StateRecord) : StateRecord := r <| sr_owner_generation := 0%N |>.

Section Refinement.
Variable sha256 : string -> string.
(** The keys the store is used with: SHA-256 keeps them apart. *)
Variable in_use : string -> Prop.
Hypothesis sha256_collision_free : forall a b, in_use a -> in_use b -> sha256 a = sha256 b -> a = b.
Variable s : FileSystemStateStore.

Definition represents (files : Files) (mem : InMemoryStateStore) : Prop :=
  forall key, in_use key -> key <> "" -> exists r,
    fs_get sha256 s files key = Ok r /\ option_map erase r = mem_get mem key.

Lemma state_record_path_inj a b :
  in_use a -> in_use b -> state_record_path sha256 s a = state_record_path sha256 s b -> a = b.
Proof using sha256_collision_free.
  unfold state_record_path, path_join. intros Ha Hb H. do 2 apply (inj (String.append _)) in H.
  assert (Hh : hex_encode (sha256 a) = hex_encode (sha256 b)).
  { apply (f_equal (split_once ".")) in H.
    change (?x +:+ ".state") with (x +:+ String "." "state") in H.
    assert (Hd : forall x, contains_char "." (hex_encode x) = false).
    { intros x. apply contains_char_false. eapply bytes_all_impl; [|apply hex_encode_lower].
      apply ascii_impl. vm_compute. reflexivity. }
    rewrite !split_once_append in H by done. by simplify_eq. }
  apply sha256_collision_free; [done..|]. apply (f_equal hex_decode_pairs) in Hh.
  rewrite !hex_decode_encode in Hh. by simplify_eq.
Qed.

Lemma fs_get_insert_ne files key key' text :
  in_use key -> in_use key' -> key <> key' ->
  fs_get sha256 s (<[state_record_path sha256 s key := text]> files) key' =
  fs_get sha256 s files key'.
Proof using sha256_collision_free.
  intros Hk Hk' Hne. unfold fs_get, read_state_record, read_to_string.
  rewrite lookup_insert_ne; [done|]. by intros ?%state_record_path_inj.
Qed.

Lemma fs_get_written files r :
  state_record_ok r ->
  fs_get sha256 s (<[state_record_path sha256 s (sr_key r) := state_record_to_storage r]> files)
    (sr_key r) = Ok (Some r).
Proof.
  intros Hr. unfold fs_get, validate_state_key.
  rewrite str_is_empty_false by apply Hr.
  erewrite read_state_record_written by (done || by rewrite lookup_insert_eq).
  cbn. by rewrite String.eqb_refl.
Qed.
End Refinement.

(** ** Properties *)

(** C30: the file store refines the in-memory store.  When the writer guard
    verifies and the write succeeds, [compare_and_set] on disk and in memory
    accept the same calls with the same record (up to the owner generation,
    which the file store adds) and leave corresponding stores; a rejected
    call changes neither and both give the same error.  Two kinds of call
    are apart, which the file store alone rejects, without a change: the
    empty key, and an expected version of [u64::MAX], which has no next
    version.  Keys and values are UTF-8; SHA-256 keeps apart the keys the
    store is used with, the call's among them. *)
Theorem fs_cas_refines_memory (sha256 : string -> string) (in_use : string -> Prop)
    (sha256_collision_free : forall a b, in_use a -> in_use b -> sha256 a = sha256 b -> a = b)
    s writer files mem key expected value :
  fss_writer s = Some writer -> verify_current writer files = Ok tt ->
  (0 < wg_generation writer <= u64_max)%N -> (expected <= u64_max)%N -> in_use key ->
  utf8_valid key = true -> utf8_valid value = true ->
  represents sha256 in_use s files mem ->
  let '(res, files') := fs_compare_and_set sha256 s files key expected value (Ok tt) (Ok tt) WriteOk in
  let '(res_mem, mem') := mem_compare_and_set mem key expected value in
  if decide (key = "" \/ expected = u64_max) then is_ok res = false /\ files' = files
  else
    represents sha256 in_use s files' mem' /\
    match res, res_mem with
    | Ok r, Ok r_mem => erase r = r_mem /\ sr_owner_generation r = wg_generation writer
    | Err e, Err e_mem => e = e_mem /\ files' = files /\ mem' = mem
    | _, _ => False
    end.
Proof.
  intros Hw Hver Hgen Hexp Huse Hku Hvu Hrep. unfold fs_compare_and_set, with_write_lock.
  destruct (decide (key = "" \/ expected = u64_max)) as [Hd|[Hkey Hlt]%Decidable.not_or].
  { destruct (mem_compare_and_set mem key expected value) as [res_mem mem']. destruct Hd as [->| ->]; [done|].
    destruct (validate_state_key key) as [[]|]; [|done]. rewrite Hw, Hver. cbv zeta.
    destruct (read_state_record files _) as [r|]; [|done]. destruct (check_key _ _ _) as [[]|]; [|done].
    destruct (N.eqb_spec (current_version r) u64_max) as [->|]; done. }
  unfold validate_state_key. rewrite str_is_empty_false, Hw, Hver by done.
  destruct (Hrep key Huse Hkey) as (r & Hget & Hmem). unfold mem_get in Hmem.
  unfold fs_get, validate_state_key in Hget. rewrite str_is_empty_false in Hget by done.
  destruct (read_state_record files _) as [r'|]; [|done].
  destruct (check_key _ _ r') as [[]|]; [|done]. simplify_eq.
  unfold mem_compare_and_set. rewrite <- Hmem.
  replace (current_version (option_map erase r)) with (current_version r) by (by destruct r).
  destruct (N.eqb_spec (current_version r) expected) as [<-|Hne]; cbn [negb]; [|done].
  destruct (version_checked_next (current_version r)) as [next|] eqn:En.
  2: { unfold version_checked_next in En. destruct (checked_add _ _ _) eqn:Ec; [done|].
       apply checked_add_None in Ec. lia. }
  apply version_checked_next_Ok in En as [-> Hle]. cbn [atomic_write].
  unfold mem_put. rewrite <- Hmem.
  replace (match option_map erase r with Some record => _ | None => _ end)
    with (current_version r + 1)%N
    by (destruct r; cbn in *; [by rewrite wrapping_add_small by (cbn in *; lia)|done]).
  split; [|done]. intros k Hk Hk0. unfold mem_get. destruct (decide (k = key)) as [->|Hne].
  - exists (Some (MkStateRecord key value (current_version r + 1) (wg_generation writer))).
    rewrite lookup_insert_eq. split; [|done].
    apply (fs_get_written sha256 s files (MkStateRecord key value _ _)). split_and!; cbn; done || lia.
  - rewrite lookup_insert_ne by done. erewrite fs_get_insert_ne by done. by apply Hrep.
Qed.

Lemma fs_cas_refines_memory_witness :
  let layout := layout_from_manifest "r" "e" "s" "t" in
  let a := writer_acquire layout ∅ (Ok tt) 7 1 0 WriteOk WriteOk in
  match a.1 with
  | Ok g =>
      let s := MkFsStateStore "r" "r/s" (Some g) in
      let res := (fs_compare_and_set id s a.2 "k" 0 "v" (Ok tt) (Ok tt) WriteOk).1 in
      match res with Ok r => sr_version r = 1%N /\ sr_owner_generation r = 1%N | Err _ => False end
  | Err _ => False
  end.
Proof.
  intros layout a. destruct a.1 as [g|] eqn:E; [|vm_compute in E; discriminate].
  vm_compute in E. injection E as <-. cbv zeta.
  match goal with |- context [MkFsStateStore _ _ (Some ?g)] => set (writer := g) end.
  set (s := MkFsStateStore "r" "r/s" (Some writer)).
  assert (Hrep : represents id (fun _ => True) s a.2 ∅).
  { intros key _ Hkey. exists None. split; [|done]. unfold fs_get, validate_state_key.
    rewrite str_is_empty_false by done. unfold read_state_record, read_to_string.
    replace (a.2 !! state_record_path id s key) with (@None string); [done|]. symmetry.
    change a.2 with (<["r/runtime.writer.owner" := owner_text (wg_owner_token writer) 1 7]>
      (<["r/runtime.writer.generation" := generation_text 1]> (∅ : Files))).
    rewrite !lookup_insert_ne; [apply lookup_empty|..]; unfold state_record_path, path_join;
      intros H; vm_compute in H; discriminate. }
  pose proof (fs_cas_refines_memory id (fun _ => True) (fun a b _ _ H => H) s writer a.2 ∅ "k" 0 "v" eq_refl
    ltac:(vm_compute; reflexivity) ltac:(vm_compute; split; [reflexivity|discriminate])
    ltac:(vm_compute; discriminate) I eq_refl eq_refl Hrep) as H.
  destruct (fs_compare_and_set id s a.2 "k" 0 "v" (Ok tt) (Ok tt) WriteOk) as [[r|e] files'];
    destruct H as [_ H]; cbn in H; [|done].
  destruct H as [He Hg]. cbn. split; [|done]. by apply (f_equal sr_version) in He.
Defined.
