(* ===== verification/EventLog.v ===== *)
(** * Event logs (crates/eva-storage/src/event_log.rs)

    The transitions of a log record, the in-memory log, and the file log:
    one file per record, read back in full by [load_authoritative_records].
    The file log runs against a shared directory, so that several handles
    and several processes can be interleaved; [LogInterface] states what a
    log promises its clients and both implementations discharge it. *)

From Stdlib Require Import Ascii DecimalString DecimalN.
From stdpp Require Import base numbers strings gmap list sorting.
From S2P Require Import Prelude RustStr Error Ids Topic Event EventCodec Durable.

(** ** Record transitions *)

Definition record_appended (sequence : N) (event : Event) : EventLogRecord :=
  MkEventLogRecord sequence event LogAppended None None.

Definition record_id (r : EventLogRecord) : EventId := event_id (log_event r).

(** Returns the new record and whether it changed. *)
Definition transition_to_acked (r : EventLogRecord) (consumer : AgentId) :
    Res (bool * EventLogRecord) :=
  if decide (log_status r = LogAcked) then
    if decide (log_consumer r = Some consumer) then Ok (false, r)
    else Err (conflict "acked event cannot be reassigned to another consumer"
                ⊕ ("event_id", id_str (record_id r)) ⊕ ("consumer", id_str consumer))
  else
    Ok (true, r <| log_status := LogAcked |> <| log_consumer := Some consumer |>
                <| log_error := None |>).

Definition transition_to_failed (r : EventLogRecord) (consumer : AgentId) (error : EvaError) :
    Res EventLogRecord :=
  if decide (log_status r = LogAcked) then
    Err (conflict "acked event cannot transition to failed"
           ⊕ ("event_id", id_str (record_id r)) ⊕ ("consumer", id_str consumer))
  else
    Ok (r <| log_status := LogFailed |> <| log_consumer := Some consumer |>
          <| log_error := Some error |>).

Definition contains_event (records : list EventLogRecord) (id : EventId) : bool :=
  existsb (fun r => bool_decide (record_id r = id)) records.

(** [position] of the first record of an event, with the record. *)
Definition find_record (records : list EventLogRecord) (id : EventId) :
    Res (nat * EventLogRecord) :=
  ok_or (list_find (fun r => record_id r = id) records)
    (not_found "event log record does not exist" ⊕ ("event_id", id_str id)).

Definition event_exists (event : Event) : EvaError :=
  conflict "event already exists in log" ⊕ ("event_id", id_str (event_id event)).

Definition records_from (records : list EventLogRecord) (sequence : N) : list EventLogRecord :=
  List.filter (fun r => (sequence <=? log_sequence r)%N) records.

(** ** In memory *)

Record InMemoryEventLog := MkMemLog {
  ml_next_sequence : N;
  ml_records : list EventLogRecord
}.
#[export] Instance InMemoryEventLog_eta : Eta InMemoryEventLog := fun l =>
  MkMemLog (ml_next_sequence l) (ml_records l).

Definition mem_log_new : InMemoryEventLog := MkMemLog 0 [].

Definition mem_append (l : InMemoryEventLog) (event : Event) :
    Res EventLogRecord * InMemoryEventLog :=
  if contains_event (ml_records l) (event_id event) then (Err (event_exists event), l)
  else
    let next := wrapping_add u64_max (ml_next_sequence l) 1 in
    let record := record_appended next event in
    (Ok record, MkMemLog next (ml_records l ++ [record])).

Definition mem_ack (l : InMemoryEventLog) (id : EventId) (consumer : AgentId) :
    Res EventLogRecord * InMemoryEventLog :=
  match find_record (ml_records l) id with
  | Err e => (Err e, l)
  | Ok (i, r) =>
      match transition_to_acked r consumer with
      | Err e => (Err e, l)
      | Ok (_, r') => (Ok r', l <| ml_records := <[i := r']> (ml_records l) |>)
      end
  end.

Definition mem_fail (l : InMemoryEventLog) (id : EventId) (consumer : AgentId) (error : EvaError) :
    Res EventLogRecord * InMemoryEventLog :=
  match find_record (ml_records l) id with
  | Err e => (Err e, l)
  | Ok (i, r) =>
      match transition_to_failed r consumer error with
      | Err e => (Err e, l)
      | Ok r' => (Ok r', l <| ml_records := <[i := r']> (ml_records l) |>)
      end
  end.

Definition mem_replay_from (l : InMemoryEventLog) (sequence : N) : list EventLogRecord :=
  records_from (ml_records l) sequence.
Definition mem_watermark (l : InMemoryEventLog) : N := ml_next_sequence l.

(** ** On disk *)

(** The directory of the log: file name to content. *)
Abbreviation Dir := (gmap string string).

Definition EVENT_RECORD_EXTENSION : string := "event".

Fixpoint zeros (n : nat) : string := match n with O => "" | S k => String "0" (zeros k) end.

(** [{sequence:020}] *)
Definition pad20 (n : N) : string :=
  let s := n_to_string n in zeros (20 - String.length s) +:+ s.

Definition record_file (sequence : N) : string := pad20 sequence +:+ "." +:+ EVENT_RECORD_EXTENSION.

(** [Path::extension] of a file name. *)
Definition file_extension (name : string) : option string :=
  match rev (split "." name) with
  | ext :: ((_ :: _) as stem) =>
      if str_is_empty (join "." (rev stem)) then None else Some ext
  | _ => None
  end.

Definition is_record_file (name : string) : bool :=
  bool_decide (file_extension name = Some EVENT_RECORD_EXTENSION).

(** The loop body of [load_records], for one directory entry. *)
Definition load_record (root : string) (entry : string * string) : Res EventLogRecord :=
  let path := path_join root entry.1 in
  reject negb (utf8_valid entry.2) with
    conflict "failed to read durable event log record"
      ⊕ ("path", path) ⊕ ("io_error", "stream did not contain valid UTF-8") else
  map_err (fun error => error ⊕ ("path", path)) (record_from_storage entry.2).

Definition load_records (root : string) (dir : Dir) : Res (list EventLogRecord) :=
  try_map (load_record root) (List.filter (fun entry => is_record_file entry.1) (map_to_list dir)).

Definition seq_le (a b : EventLogRecord) : Prop := (log_sequence a <= log_sequence b)%N.
#[export] Instance seq_le_dec : RelDecision seq_le.
Proof. unfold seq_le. solve_decision. Defined.

Fixpoint validate_loaded (sequences : gset N) (ids : gset EventId) (records : list EventLogRecord) :
    Res unit :=
  match records with
  | [] => Ok tt
  | r :: rest =>
      reject bool_decide (log_sequence r ∈ sequences) with
        conflict "durable event log sequence is duplicated"
          ⊕ ("sequence", n_to_string (log_sequence r)) else
      reject bool_decide (record_id r ∈ ids) with
        conflict "durable event log event id is duplicated"
          ⊕ ("event_id", id_str (record_id r)) else
      validate_loaded ({[log_sequence r]} ∪ sequences) ({[record_id r]} ∪ ids) rest
  end.

Definition validate_loaded_records (records : list EventLogRecord) : Res unit :=
  validate_loaded ∅ ∅ records.

Definition last_sequence (records : list EventLogRecord) : N :=
  match last records with Some r => log_sequence r | None => 0%N end.

Definition load_authoritative_records (root : string) (dir : Dir) :
    Res (N * list EventLogRecord) :=
  let? records := load_records root dir in
  let sorted := merge_sort seq_le records in
  validate_loaded_records sorted >>? Ok (last_sequence sorted, sorted).

(** A handle: its cached records, and whether it holds the runtime writer. *)
Record FileSystemEventLog := MkFsLog {
  fl_root : string;
  fl_next_sequence : N;
  fl_records : list EventLogRecord;
  fl_writer : bool
}.
#[export] Instance FileSystemEventLog_eta : Eta FileSystemEventLog := fun l =>
  MkFsLog (fl_root l) (fl_next_sequence l) (fl_records l) (fl_writer l).

Definition reload_authoritative_records (l : FileSystemEventLog) (dir : Dir) :
    Res FileSystemEventLog :=
  let? loaded := load_authoritative_records (fl_root l) dir in
  Ok (l <| fl_next_sequence := loaded.1 |> <| fl_records := loaded.2 |>).

Definition persist_record (l : FileSystemEventLog) (dir : Dir) (r : EventLogRecord)
    (o : WriteOutcome) : Res unit * Dir :=
  let name := record_file (log_sequence r) in
  match atomic_write dir name (record_to_storage r) o with
  | (Ok _, dir') => (Ok tt, dir')
  | (Err error, dir') =>
      (Err (internal "failed to atomically write durable event log record"
              ⊕ ("path", path_join (fl_root l) name) ⊕ ("io_error", error)), dir')
  end.

(** [with_mutation]: a handle with the writer takes the lock ([lock] is its
    outcome) and reloads before it mutates. *)
Definition with_mutation {A} (l : FileSystemEventLog) (dir : Dir) (lock : Res unit)
    (operation : FileSystemEventLog -> Res A * FileSystemEventLog * Dir) :
    Res A * FileSystemEventLog * Dir :=
  if fl_writer l then
    match (lock >>? reload_authoritative_records l dir) with
    | Err e => (Err e, l, dir)
    | Ok l' => operation l'
    end
  else operation l.

(** The closure [append] runs under [with_mutation]. *)
Definition fs_append_in (dir : Dir) (o : WriteOutcome) (event : Event) (log : FileSystemEventLog) :
    Res EventLogRecord * FileSystemEventLog * Dir :=
  if contains_event (fl_records log) (event_id event) then (Err (event_exists event), log, dir)
  else
    let sequence := wrapping_add u64_max (fl_next_sequence log) 1 in
    let record := record_appended sequence event in
    match persist_record log dir record o with
    | (Err e, dir') => (Err e, log, dir')
    | (Ok _, dir') =>
        (Ok record, log <| fl_next_sequence := sequence |>
                        <| fl_records := fl_records log ++ [record] |>, dir')
    end.

Definition fs_append (l : FileSystemEventLog) (dir : Dir) (lock : Res unit) (o : WriteOutcome)
    (event : Event) : Res EventLogRecord * FileSystemEventLog * Dir :=
  with_mutation l dir lock (fs_append_in dir o event).

Definition fs_ack_in (dir : Dir) (o : WriteOutcome) (id : EventId) (consumer : AgentId)
    (log : FileSystemEventLog) : Res EventLogRecord * FileSystemEventLog * Dir :=
  match find_record (fl_records log) id with
  | Err e => (Err e, log, dir)
  | Ok (i, r) =>
      match transition_to_acked r consumer with
      | Err e => (Err e, log, dir)
      | Ok (false, r') => (Ok r', log, dir)
      | Ok (true, r') =>
          match persist_record log dir r' o with
          | (Err e, dir') => (Err e, log, dir')
          | (Ok _, dir') => (Ok r', log <| fl_records := <[i := r']> (fl_records log) |>, dir')
          end
      end
  end.

Definition fs_ack (l : FileSystemEventLog) (dir : Dir) (lock : Res unit) (o : WriteOutcome)
    (id : EventId) (consumer : AgentId) : Res EventLogRecord * FileSystemEventLog * Dir :=
  with_mutation l dir lock (fs_ack_in dir o id consumer).

Definition fs_fail_in (dir : Dir) (o : WriteOutcome) (id : EventId) (consumer : AgentId)
    (error : EvaError) (log : FileSystemEventLog) :
    Res EventLogRecord * FileSystemEventLog * Dir :=
  match find_record (fl_records log) id with
  | Err e => (Err e, log, dir)
  | Ok (i, r) =>
      match transition_to_failed r consumer error with
      | Err e => (Err e, log, dir)
      | Ok r' =>
          match persist_record log dir r' o with
          | (Err e, dir') => (Err e, log, dir')
          | (Ok _, dir') => (Ok r', log <| fl_records := <[i := r']> (fl_records log) |>, dir')
          end
      end
  end.

Definition fs_fail (l : FileSystemEventLog) (dir : Dir) (lock : Res unit) (o : WriteOutcome)
    (id : EventId) (consumer : AgentId) (error : EvaError) :
    Res EventLogRecord * FileSystemEventLog * Dir :=
  with_mutation l dir lock (fs_fail_in dir o id consumer error).

Definition fs_refresh (l : FileSystemEventLog) (dir : option Dir) (lock : Res unit) :
    Res unit * FileSystemEventLog :=
  let reload (d : Dir) :=
    match reload_authoritative_records l d with Ok l' => (Ok tt, l') | Err e => (Err e, l) end in
  if fl_writer l then
    match lock, dir with
    | Err e, _ => (Err e, l)
    | Ok _, Some d => reload d
    | Ok _, None =>
        (Err (internal "failed to read durable event log directory" ⊕ ("path", fl_root l)
                ⊕ ("io_error", "No such file or directory (os error 2)")), l)
    end
  else match dir with
  | None => (Ok tt, l <| fl_next_sequence := 0%N |> <| fl_records := [] |>)
  | Some d => reload d
  end.

Definition fs_replay_from (l : FileSystemEventLog) (sequence : N) : list EventLogRecord :=
  records_from (fl_records l) sequence.
Definition fs_watermark (l : FileSystemEventLog) : N := fl_next_sequence l.

(** What [open_dir_with_mode] finds at the log's path. *)
Inductive RootEntry := RootMissing | RootFile | RootDir (dir : Dir).

(** [create] is the outcome of [create_dir_all]. *)
Definition open_dir_with_mode (root : string) (entry : RootEntry) (create_if_missing : bool)
    (create : Res unit) (writer : bool) : Res FileSystemEventLog :=
  let load (d : Dir) :=
    let? loaded := load_authoritative_records root d in
    Ok (MkFsLog root loaded.1 loaded.2 writer) in
  match entry with
  | RootFile => Err (conflict "durable event log path is not a directory" ⊕ ("path", root))
  | RootDir d => load d
  | RootMissing =>
      if create_if_missing then create >>? load ∅
      else Ok (MkFsLog root 0 [] writer)
  end.

(** ** What a log may do: the abstract step *)

(** One accepted mutation of the record list. *)
Inductive log_step : list EventLogRecord -> list EventLogRecord -> Prop :=
| ls_append rs e :
    event_id e ∉ record_id <$> rs ->
    log_step rs (rs ++ [record_appended (last_sequence rs + 1) e])
| ls_ack rs i r r' consumer :
    rs !! i = Some r -> transition_to_acked r consumer = Ok (true, r') ->
    log_step rs (<[i := r']> rs)
| ls_fail rs i r r' consumer error :
    rs !! i = Some r -> transition_to_failed r consumer error = Ok r' ->
    log_step rs (<[i := r']> rs).

Definition log_steps : relation (list EventLogRecord) := rtc log_step.

(** Sequences grow along the log and no event is recorded twice. *)
Definition log_wf (rs : list EventLogRecord) : Prop :=
  StronglySorted N.lt (log_sequence <$> rs) /\ NoDup (record_id <$> rs).

(** Nothing disappears, and an acknowledged record never changes. *)
Definition log_keeps (rs rs' : list EventLogRecord) : Prop :=
  forall i r, rs !! i = Some r -> exists r', rs' !! i = Some r' /\
    log_event r' = log_event r /\ log_sequence r' = log_sequence r /\
    (log_status r = LogAcked -> r' = r).

Lemma log_keeps_refl rs : log_keeps rs rs.
Proof. intros i r Hr. eauto. Qed.

Lemma log_keeps_trans rs1 rs2 rs3 : log_keeps rs1 rs2 -> log_keeps rs2 rs3 -> log_keeps rs1 rs3.
Proof.
  intros H12 H23 i r Hr. destruct (H12 i r Hr) as (r2 & Hr2 & He & Hs & Ha).
  destruct (H23 i r2 Hr2) as (r3 & Hr3 & He' & Hs' & Ha'). exists r3.
  split_and!; [done|congruence|congruence|]. intros H. specialize (Ha H). subst. auto.
Qed.

(** The two record transitions keep what identifies a record. *)
Definition same_record (r r' : EventLogRecord) : Prop :=
  log_status r <> LogAcked /\ log_event r' = log_event r /\ log_sequence r' = log_sequence r.

Lemma transition_to_acked_same r c r' :
  transition_to_acked r c = Ok (true, r') ->
  same_record r r' /\ log_status r' = LogAcked /\ log_consumer r' = Some c /\ log_error r' = None.
Proof.
  unfold transition_to_acked, same_record. repeat case_decide; intros; simplify_eq. done.
Qed.

Lemma transition_to_acked_idem r c r' :
  transition_to_acked r c = Ok (false, r') ->
  r' = r /\ log_status r = LogAcked /\ log_consumer r = Some c.
Proof. unfold transition_to_acked. repeat case_decide; intros; simplify_eq. done. Qed.

Lemma transition_to_failed_same r c err r' :
  transition_to_failed r c err = Ok r' ->
  same_record r r' /\ log_status r' = LogFailed /\ log_consumer r' = Some c /\
  log_error r' = Some err.
Proof. unfold transition_to_failed, same_record. case_decide; intros; simplify_eq. done. Qed.

Lemma update_log_wf rs i r r' :
  rs !! i = Some r -> same_record r r' -> log_wf rs -> log_wf (<[i := r']> rs).
Proof.
  intros Hi (_ & He & Hs) [Hsort Hnd]. unfold log_wf. rewrite !list_fmap_insert.
  rewrite !list_insert_id; [done|..].
  - rewrite list_lookup_fmap, Hi. cbn. unfold record_id. by rewrite He.
  - rewrite list_lookup_fmap, Hi. cbn. by rewrite Hs.
Qed.

Lemma update_log_keeps rs i r r' :
  rs !! i = Some r -> same_record r r' -> log_keeps rs (<[i := r']> rs).
Proof.
  intros Hi (Hst & He & Hs) j q Hj. destruct (decide (i = j)) as [->|Hne].
  - simplify_eq. exists r'. rewrite list_lookup_insert_eq by (by eapply lookup_lt_Some). done.
  - exists q. by rewrite list_lookup_insert_ne.
Qed.

Lemma last_sequence_bound rs r :
  StronglySorted N.lt (log_sequence <$> rs) -> r ∈ rs -> (log_sequence r <= last_sequence rs)%N.
Proof.
  intros Hs Hr. unfold last_sequence. destruct rs as [|x rs' _] using rev_ind; [by apply not_elem_of_nil in Hr|].
  rewrite last_snoc. rewrite fmap_app, StronglySorted_app in Hs. destruct Hs as [Hlt _].
  rewrite elem_of_app, list_elem_of_singleton in Hr. destruct Hr as [Hr| ->]; [|lia].
  apply N.lt_le_incl, Hlt; [by apply list_elem_of_fmap_2|by left].
Qed.

Lemma append_log_wf rs r :
  log_wf rs -> (last_sequence rs < log_sequence r)%N -> record_id r ∉ record_id <$> rs ->
  log_wf (rs ++ [r]).
Proof.
  intros [Hs Hn] Hlt Hid. split; rewrite fmap_app.
  - apply StronglySorted_app. split_and!; [|done|repeat constructor].
    intros a b (q & -> & Hq)%list_elem_of_fmap ->%list_elem_of_singleton.
    pose proof (last_sequence_bound rs q Hs Hq). lia.
  - apply NoDup_app. split_and!; [done| |apply NoDup_singleton].
    intros x Hx ->%list_elem_of_singleton. done.
Qed.

Lemma append_log_keeps rs r : log_keeps rs (rs ++ [r]).
Proof. intros i q Hq. exists q. by rewrite (lookup_app_l_Some _ _ _ _ Hq). Qed.

Lemma log_step_wf rs rs' : log_step rs rs' -> log_wf rs -> log_wf rs'.
Proof.
  intros [rs0 e Hid|rs0 i r r' c Hi Ht|rs0 i r r' c err Hi Ht] Hwf.
  - apply append_log_wf; [done|cbn; lia|done].
  - apply transition_to_acked_same in Ht as [? _]. by eapply update_log_wf.
  - apply transition_to_failed_same in Ht as [? _]. by eapply update_log_wf.
Qed.

Lemma log_step_keeps rs rs' : log_step rs rs' -> log_keeps rs rs'.
Proof.
  intros [rs0 e Hid|rs0 i r r' c Hi Ht|rs0 i r r' c err Hi Ht].
  - apply append_log_keeps.
  - apply transition_to_acked_same in Ht as [? _]. by eapply update_log_keeps.
  - apply transition_to_failed_same in Ht as [? _]. by eapply update_log_keeps.
Qed.
#[export] Hint Resolve log_step_wf log_step_keeps log_keeps_refl : eva.

Lemma log_steps_wf_keeps rs rs' : log_steps rs rs' -> log_wf rs -> log_wf rs' /\ log_keeps rs rs'.
Proof.
  induction 1 as [|rs1 rs2 rs3 Hstep _ IH]; intros Hwf; [by auto with eva|].
  destruct (IH (log_step_wf _ _ Hstep Hwf)) as [? Hk]. split; [done|].
  eapply log_keeps_trans; [|exact Hk]. by apply log_step_keeps.
Qed.

(** ** The interface: what a log promises its clients *)

(** How a call's result relates the records before and after it. *)
Definition append_outcome (e : Event) (rs rs' : list EventLogRecord) (res : Res EventLogRecord) : Prop :=
  match res with
  | Ok r => rs' = rs ++ [r] /\ r = record_appended (last_sequence rs + 1) e /\
            event_id e ∉ record_id <$> rs
  | Err _ => rs' = rs \/ log_step rs rs'
  end.

Definition ack_outcome (id : EventId) (c : AgentId) (rs rs' : list EventLogRecord)
    (res : Res EventLogRecord) : Prop :=
  (rs' = rs \/ log_step rs rs') /\
  match res with
  | Ok r => r ∈ rs' /\ record_id r = id /\ log_status r = LogAcked /\ log_consumer r = Some c
  | Err _ => True
  end.

Definition fail_outcome (id : EventId) (c : AgentId) (err : EvaError) (rs rs' : list EventLogRecord)
    (res : Res EventLogRecord) : Prop :=
  (rs' = rs \/ log_step rs rs') /\
  match res with
  | Ok r => r ∈ rs' /\ record_id r = id /\ log_status r = LogFailed /\ log_error r = Some err
  | Err _ => True
  end.

(** The trait [EventLog], with the laws its implementations obey. *)
Class LogInterface (L : Type) := {
  li_append : L -> Event -> Res EventLogRecord * L;
  li_ack : L -> EventId -> AgentId -> Res EventLogRecord * L;
  li_fail : L -> EventId -> AgentId -> EvaError -> Res EventLogRecord * L;
  li_records : L -> list EventLogRecord;
  li_inv : L -> Prop;
  li_wf : forall l, li_inv l -> log_wf (li_records l);
  li_append_law : forall l e,
    li_inv l -> event_ok e -> (last_sequence (li_records l) < u64_max)%N ->
    li_inv (li_append l e).2 /\
    append_outcome e (li_records l) (li_records (li_append l e).2) (li_append l e).1;
  li_ack_law : forall l id c, li_inv l -> id_ok c ->
    li_inv (li_ack l id c).2 /\
    ack_outcome id c (li_records l) (li_records (li_ack l id c).2) (li_ack l id c).1;
  li_fail_law : forall l id c err, li_inv l -> id_ok c -> error_ok err ->
    li_inv (li_fail l id c err).2 /\
    fail_outcome id c err (li_records l) (li_records (li_fail l id c err).2) (li_fail l id c err).1
}.

Lemma append_outcome_step e rs rs' res :
  append_outcome e rs rs' res -> rs' = rs \/ log_step rs rs'.
Proof.
  destruct res as [r|]; [|done]. intros (-> & -> & Hid). right. by constructor.
Qed.

Lemma contains_event_elem rs id : contains_event rs id = true <-> id ∈ record_id <$> rs.
Proof.
  unfold contains_event. rewrite existsb_exists, list_elem_of_fmap. split.
  - intros (r & Hr & Hid). apply bool_decide_eq_true in Hid. exists r.
    by rewrite list_elem_of_In.
  - intros (r & -> & Hr). exists r. by rewrite <- list_elem_of_In, bool_decide_eq_true.
Qed.

Lemma contains_event_false rs id : contains_event rs id = false -> id ∉ record_id <$> rs.
Proof. intros H Hin. apply contains_event_elem in Hin. congruence. Qed.

Lemma find_record_Ok rs id i r :
  find_record rs id = Ok (i, r) -> rs !! i = Some r /\ record_id r = id.
Proof.
  unfold find_record. destruct (list_find _ _) as [[j q]|] eqn:E; [|done]. cbn. intros [= -> ->].
  apply list_find_Some in E. naive_solver.
Qed.

(** ** The in-memory log keeps the promise *)

Definition mem_log_inv (l : InMemoryEventLog) : Prop :=
  log_wf (ml_records l) /\ ml_next_sequence l = last_sequence (ml_records l).

Lemma last_sequence_update rs i r r' :
  rs !! i = Some r -> same_record r r' -> last_sequence (<[i := r']> rs) = last_sequence rs.
Proof.
  intros Hi (_ & _ & Hs). unfold last_sequence. rewrite !last_lookup, length_insert.
  destruct (decide (i = pred (length rs))) as [->|Hne].
  - rewrite Hi, list_lookup_insert_eq by (by eapply lookup_lt_Some). done.
  - by rewrite list_lookup_insert_ne.
Qed.

Lemma mem_append_law l e :
  mem_log_inv l -> (last_sequence (ml_records l) < u64_max)%N ->
  mem_log_inv (mem_append l e).2 /\
  append_outcome e (ml_records l) (ml_records (mem_append l e).2) (mem_append l e).1.
Proof.
  intros [Hwf Hnext] Hb. unfold mem_append.
  destruct (contains_event (ml_records l) (event_id e)) eqn:E; [cbn; split; [done|by left]|].
  apply contains_event_false in E. rewrite wrapping_add_small by lia. cbn. split; [|by rewrite Hnext].
  split.
  - apply append_log_wf; [done|cbn; lia|done].
  - cbn. unfold last_sequence. by rewrite last_snoc.
Qed.

Lemma mem_ack_law l id c :
  mem_log_inv l -> mem_log_inv (mem_ack l id c).2 /\
  ack_outcome id c (ml_records l) (ml_records (mem_ack l id c).2) (mem_ack l id c).1.
Proof.
  intros [Hwf Hnext]. unfold mem_ack.
  destruct (find_record (ml_records l) id) as [[i r]|] eqn:Ef; [|by split; [|split; [left|]]].
  apply find_record_Ok in Ef as [Hi Hid].
  destruct (transition_to_acked r c) as [[[] r']|] eqn:Et; [| |by split; [|split; [left|]]].
  - pose proof Et as (Hsame & Hst & Hc & _)%transition_to_acked_same. cbn. split; [split|split].
    + by eapply update_log_wf.
    + cbn. by erewrite last_sequence_update.
    + right. by econstructor.
    + split_and!; try done.
      * apply list_elem_of_lookup. exists i. apply list_lookup_insert_eq. by eapply lookup_lt_Some.
      * destruct Hsame as (_ & He & _). unfold record_id in *. by rewrite He.
  - apply transition_to_acked_idem in Et as (-> & Hst & Hc). cbn. rewrite list_insert_id by done.
    split; [done|]. split; [by left|]. split_and!; try done. by eapply list_elem_of_lookup_2.
Qed.

Lemma mem_fail_law l id c err :
  mem_log_inv l -> mem_log_inv (mem_fail l id c err).2 /\
  fail_outcome id c err (ml_records l) (ml_records (mem_fail l id c err).2) (mem_fail l id c err).1.
Proof.
  intros [Hwf Hnext]. unfold mem_fail.
  destruct (find_record (ml_records l) id) as [[i r]|] eqn:Ef; [|by split; [|split; [left|]]].
  apply find_record_Ok in Ef as [Hi Hid].
  destruct (transition_to_failed r c err) as [r'|] eqn:Et; [|by split; [|split; [left|]]].
  pose proof Et as (Hsame & Hst & Hc & He)%transition_to_failed_same. cbn. split; [split|split].
  - by eapply update_log_wf.
  - cbn. by erewrite last_sequence_update.
  - right. by eapply ls_fail.
  - split_and!; try done.
    + apply list_elem_of_lookup. exists i. apply list_lookup_insert_eq. by eapply lookup_lt_Some.
    + destruct Hsame as (_ & Hev & _). unfold record_id in *. by rewrite Hev.
Qed.

#[export] Instance mem_log_interface : LogInterface InMemoryEventLog := {
  li_append := mem_append;
  li_ack := mem_ack;
  li_fail := mem_fail;
  li_records := ml_records;
  li_inv := mem_log_inv;
  li_wf l Hl := proj1 Hl;
  li_append_law l e Hl _ Hb := mem_append_law l e Hl Hb;
  li_ack_law l id c Hl _ := mem_ack_law l id c Hl;
  li_fail_law l id c err Hl _ _ := mem_fail_law l id c err Hl
}.

(** ** Record file names *)

Lemma zeros_parse k s :
  (N.of_uint <$> NilEmpty.uint_of_string (zeros k +:+ s)) =
  (N.of_uint <$> NilEmpty.uint_of_string s).
Proof.
  induction k as [|k IH]; [done|]. cbn [zeros]. rewrite append_cons. rewrite <- IH. cbn.
  by destruct (NilEmpty.uint_of_string (zeros k +:+ s)).
Qed.

Lemma n_to_string_parse n : (N.of_uint <$> NilEmpty.uint_of_string (n_to_string n)) = Some n.
Proof.
  unfold n_to_string. pose proof (DecimalN.Unsigned.of_to n) as Hof.
  assert (Hnil : N.to_uint n <> Decimal.Nil)
    by (destruct n; [done|]; apply DecimalPos.Unsigned.to_uint_nonnil).
  unfold NilZero.string_of_uint. destruct (N.to_uint n) eqn:E; [done|..];
    rewrite NilEmpty.usu; cbn [fmap option_fmap option_map]; by rewrite <- Hof.
Qed.

Lemma pad20_inj m n : pad20 m = pad20 n -> m = n.
Proof.
  unfold pad20. intros H. apply (f_equal (fun s => N.of_uint <$> NilEmpty.uint_of_string s)) in H.
  rewrite !zeros_parse, !n_to_string_parse in H. by simplify_eq.
Qed.

Lemma zeros_digits k : bytes_all is_ascii_digit (zeros k) = true.
Proof. induction k; done. Qed.

Lemma pad20_no_dot n : contains_char "." (pad20 n) = false.
Proof.
  apply contains_char_false. eapply bytes_all_impl; [|].
  - apply (ascii_impl is_ascii_digit). vm_compute. reflexivity.
  - unfold pad20. by rewrite bytes_all_append, zeros_digits, n_to_string_digits.
Qed.

Lemma pad20_nonempty n : pad20 n <> "".
Proof.
  unfold pad20. intros H. apply (f_equal String.length) in H. rewrite length_append in H.
  pose proof (n_to_string_nonempty n) as Hn. destruct (n_to_string n); [done|]. cbn in H. lia.
Qed.

Lemma record_file_is n : is_record_file (record_file n) = true.
Proof.
  unfold is_record_file, record_file, file_extension. apply bool_decide_eq_true.
  change ("." +:+ EVENT_RECORD_EXTENSION) with (String "." EVENT_RECORD_EXTENSION).
  rewrite split_append by apply pad20_no_dot.
  change (split "." EVENT_RECORD_EXTENSION) with [EVENT_RECORD_EXTENSION].
  cbn [rev app tail join].
  by rewrite str_is_empty_false by apply pad20_nonempty.
Qed.

Lemma record_file_inj m n : record_file m = record_file n -> m = n.
Proof.
  unfold record_file. intros H. apply (f_equal (split_once ".")) in H.
  change ("." +:+ ?x) with (String "." x) in H.
  rewrite !split_once_append in H by apply pad20_no_dot. simplify_eq. by apply pad20_inj.
Qed.

(** ** What a directory stands for *)

Definition file_of (r : EventLogRecord) : string * string :=
  (record_file (log_sequence r), record_to_storage r).

(** The record files of [dir] are exactly the records of [rs]. *)
Record dir_models (dir : Dir) (rs : list EventLogRecord) : Prop := {
  dm_wf : log_wf rs;
  dm_ok : Forall record_ok rs;
  dm_files : forall name text, is_record_file name = true ->
    dir !! name = Some text <-> exists r, r ∈ rs /\ (name, text) = file_of r
}.

Lemma record_to_storage_utf8 r : record_ok r -> utf8_valid (record_to_storage r) = true.
Proof.
  intros Hr. apply render_utf8; [apply record_fields_clean|].
  unfold record_fields, push_event_fields, push_field, push_encoded_string, push_target,
    push_payload, push_error_fields, push_field, push_encoded_string.
  assert (Hone : forall k v, utf8_valid v = true ->
    Forall (fun f : string * string => utf8_valid f.2 = true) [(k, v)]) by (by repeat constructor).
  assert (Hopt : forall k o, Forall (fun f => utf8_valid f.2 = true) (push_optional_string k o))
    by (intros k [v|]; apply Hone; auto with eva).
  assert (Hctx : forall es i, Forall (fun f => utf8_valid f.2 = true) (push_context "error" i es)).
  { induction es as [|[k v] es IH]; intros i; cbn [push_context]; [constructor|].
    rewrite !Forall_app. split_and!; [apply Hone; auto with eva..|apply IH]. }
  rewrite !Forall_app; split_and!; try apply Hopt; try (apply Hone; auto with eva).
  - by destruct (log_status r).
  - destruct (event_target (log_event r)); rewrite Forall_app; split; try apply Hopt; by apply Hone.
  - destruct (event_payload (log_event r)); rewrite Forall_app; split; apply Hone; auto with eva.
  - destruct (log_error r) as [e|]; [|by repeat constructor].
    rewrite !Forall_app; split_and!; try apply Hopt; try apply Hctx; apply Hone; auto with eva;
      [by destruct (err_kind e)|by destruct (err_retryable e)].
Qed.

Lemma load_record_file root r : record_ok r -> load_record root (file_of r) = Ok r.
Proof.
  intros Hr. unfold load_record, file_of. cbn [fst snd].
  rewrite record_to_storage_utf8 by done. cbn [negb]. by rewrite record_roundtrip.
Qed.

Lemma log_wf_seq_inj rs a b :
  log_wf rs -> a ∈ rs -> b ∈ rs -> log_sequence a = log_sequence b -> a = b.
Proof.
  intros [Hs _] (i & Hi)%list_elem_of_lookup (j & Hj)%list_elem_of_lookup Heq.
  enough (i = j) as -> by congruence. revert i j Hi Hj.
  induction rs as [|r rs IH]; intros [|i] [|j] Hi Hj; cbn in Hs, Hi, Hj; try done;
    apply StronglySorted_cons in Hs as [Hf Hs]; rewrite Forall_forall in Hf; simplify_eq.
  - pose proof (Hf (log_sequence b) (list_elem_of_fmap_2 _ _ _ (list_elem_of_lookup_2 _ _ _ Hj))). lia.
  - pose proof (Hf (log_sequence a) (list_elem_of_fmap_2 _ _ _ (list_elem_of_lookup_2 _ _ _ Hi))). lia.
  - f_equal. by apply IH.
Qed.

Lemma log_wf_NoDup rs : log_wf rs -> NoDup rs.
Proof. intros [_ H]. by eapply NoDup_fmap_1. Qed.

Lemma dir_models_entries dir rs :
  dir_models dir rs ->
  List.filter (fun entry => is_record_file entry.1) (map_to_list dir) ≡ₚ map file_of rs.
Proof.
  intros [Hwf Hok Hf]. apply NoDup_Permutation.
  - apply NoDup_ListNoDup, List.NoDup_filter, NoDup_ListNoDup, NoDup_map_to_list.
  - apply (NoDup_fmap_2_strong file_of); [|by apply log_wf_NoDup].
    intros a b Ha Hb [= Hn%record_file_inj _]. by eapply log_wf_seq_inj.
  - intros [name text]. rewrite list_elem_of_In, List.filter_In, <- list_elem_of_In, elem_of_map_to_list.
    cbn. split.
    + intros [Hd Hn]. apply Hf in Hd as (r & Hr & ->); [|done]. by apply list_elem_of_fmap_2.
    + intros (r & Heq & Hr)%list_elem_of_fmap.
      assert (is_record_file name = true) by (unfold file_of in Heq; simplify_eq; apply record_file_is).
      split; [|done]. apply Hf; [done|]. eauto.
Qed.

Lemma validate_loaded_Ok rs : forall seqs ids,
  NoDup (log_sequence <$> rs) -> NoDup (record_id <$> rs) ->
  (forall r, r ∈ rs -> (log_sequence r ∉ seqs) /\ (record_id r ∉ ids)) ->
  validate_loaded seqs ids rs = Ok tt.
Proof.
  induction rs as [|r rs IH]; intros seqs ids Hs Hi Hn; [done|]. cbn in Hs, Hi |- *.
  apply NoDup_cons in Hs as [Hs1 Hs2], Hi as [Hi1 Hi2].
  destruct (Hn r) as [Hr1 Hr2]; [by left|].
  rewrite !bool_decide_eq_false_2 by done. apply IH; [done..|].
  intros q Hq. destruct (Hn q) as [Hq1 Hq2]; [by right|].
  rewrite !not_elem_of_union, !not_elem_of_singleton. split_and!; try done.
  - intros Heq. apply Hs1. rewrite <- Heq. by apply list_elem_of_fmap_2.
  - intros Heq. apply Hi1. rewrite <- Heq. by apply list_elem_of_fmap_2.
Qed.

Lemma StronglySorted_lt_NoDup (l : list N) : StronglySorted N.lt l -> NoDup l.
Proof.
  induction 1 as [|a l _ IH Hf]; constructor; [|done].
  intros Ha. rewrite Forall_forall in Hf. specialize (Hf a Ha). lia.
Qed.

#[local] Instance seq_le_trans : Transitive seq_le.
Proof. unfold seq_le. intros ? ? ? ? ?. lia. Qed.
#[local] Instance seq_le_total : Total seq_le.
Proof. unfold seq_le. intros a b. lia. Qed.

(** Reading the directory back gives exactly the records it stands for. *)
Lemma load_dir_models root dir rs :
  dir_models dir rs -> load_authoritative_records root dir = Ok (last_sequence rs, rs).
Proof.
  intros Hd. pose proof (dir_models_entries dir rs Hd) as Hp. destruct Hd as [Hwf Hok _].
  apply Permutation_map_inv in Hp as (rs0 & Heq & Hp).
  unfold load_authoritative_records, load_records. rewrite Heq.
  assert (Hload : try_map (load_record root) (map file_of rs0) = Ok rs0).
  { apply try_map_Ok. rewrite Hp in Hok. clear Heq Hp.
    induction Hok; constructor; [by apply load_record_file|done]. }
  rewrite Hload.
  assert (Hsort : merge_sort seq_le rs0 = rs).
  { apply (StronglySorted_unique_strong seq_le).
    - intros a b Ha Hb Hab Hba. unfold seq_le in *.
      rewrite (merge_sort_Permutation seq_le rs0), <- Hp in Ha.
      eapply log_wf_seq_inj; [exact Hwf|done..|lia].
    - apply StronglySorted_merge_sort; apply _.
    - clear -Hwf. destruct Hwf as [Hs _]. induction rs as [|r rs IH]; [constructor|].
      cbn in Hs. apply StronglySorted_cons in Hs as [Hf Hs]. constructor; [auto|].
      rewrite Forall_fmap in Hf. eapply Forall_impl; [exact Hf|]. intros q Hq. cbn in Hq.
      unfold seq_le. lia.
    - by rewrite (merge_sort_Permutation seq_le rs0), Hp. }
  rewrite Hsort. unfold validate_loaded_records. rewrite validate_loaded_Ok; [done|..].
  - by apply StronglySorted_lt_NoDup, Hwf.
  - apply Hwf.
  - intros. split; apply not_elem_of_empty.
Qed.

(** Writing the file of one record. *)
Lemma dir_models_put dir rs rs' r :
  dir_models dir rs -> log_wf rs' -> Forall record_ok rs' ->
  (forall q, q ∈ rs' <-> q = r \/ (q ∈ rs /\ log_sequence q <> log_sequence r)) ->
  dir_models (<[record_file (log_sequence r) := record_to_storage r]> dir) rs'.
Proof.
  intros [_ _ Hf] Hwf Hok Hel. split; [done..|]. intros name text Hn.
  destruct (decide (name = record_file (log_sequence r))) as [->|Hne].
  - rewrite lookup_insert_eq. split.
    + intros [= <-]. exists r. split; [apply Hel; by left|done].
    + intros (q & Hq & [= Hs%record_file_inj ->]). apply Hel in Hq as [->|[_ Hq]]; [done|].
      by destruct Hq.
  - rewrite lookup_insert_ne, Hf by done. split; intros (q & Hq & Heq); exists q; (split; [|done]).
    + apply Hel. right. split; [done|]. unfold file_of in Heq. intros E. rewrite E in Heq. by simplify_eq.
    + apply Hel in Hq as [->|[? _]]; [|done]. unfold file_of in Heq. by simplify_eq.
Qed.

Lemma append_elem rs r q :
  log_wf rs -> (last_sequence rs < log_sequence r)%N ->
  q ∈ rs ++ [r] <-> q = r \/ (q ∈ rs /\ log_sequence q <> log_sequence r).
Proof.
  intros [Hs _] Hlt. rewrite elem_of_app, list_elem_of_singleton. split; [|naive_solver].
  intros [Hq| ->]; [|by left]. right. split; [done|].
  pose proof (last_sequence_bound rs q Hs Hq). lia.
Qed.

Lemma update_elem rs i r r' q :
  log_wf rs -> rs !! i = Some r -> same_record r r' ->
  q ∈ <[i := r']> rs <-> q = r' \/ (q ∈ rs /\ log_sequence q <> log_sequence r').
Proof.
  intros Hwf Hi (_ & _ & Hseq). rewrite Hseq. split.
  - intros (j & Hj)%list_elem_of_lookup. destruct (decide (i = j)) as [->|Hne].
    + rewrite list_lookup_insert_eq in Hj by (by eapply lookup_lt_Some). simplify_eq. by left.
    + rewrite list_lookup_insert_ne in Hj by done. right.
      split; [by eapply list_elem_of_lookup_2|]. intros Heq.
      assert (q = r) as -> by (eapply log_wf_seq_inj; [exact Hwf|by eapply list_elem_of_lookup_2..|done]).
      apply Hne. pose proof (log_wf_NoDup _ Hwf) as Hnd. by eapply NoDup_lookup.
  - intros [->|[(j & Hj)%list_elem_of_lookup Hne]].
    + apply list_elem_of_lookup. exists i. apply list_lookup_insert_eq. by eapply lookup_lt_Some.
    + apply list_elem_of_lookup. exists j. rewrite list_lookup_insert_ne; [done|].
      intros <-. by simplify_eq.
Qed.

(** ** The file log keeps the promise

    A handle that holds the writer, a directory, and the outcomes of the
    locks and writes to come (none left means that they succeed). *)
Record FsWorld := MkFsWorld {
  fw_log : FileSystemEventLog;
  fw_dir : Dir;
  fw_faults : list (Res unit * WriteOutcome)
}.

Definition fw_run {A} (w : FsWorld)
    (op : FileSystemEventLog -> Dir -> Res unit -> WriteOutcome -> Res A * FileSystemEventLog * Dir) :
    Res A * FsWorld :=
  let fault := default (Ok tt, WriteOk) (head (fw_faults w)) in
  let '(res, log, dir) := op (fw_log w) (fw_dir w) fault.1 fault.2 in
  (res, MkFsWorld log dir (tail (fw_faults w))).

Definition fw_inv (w : FsWorld) : Prop :=
  fl_writer (fw_log w) = true /\ exists rs, dir_models (fw_dir w) rs.

Definition fw_records (w : FsWorld) : list EventLogRecord :=
  match load_authoritative_records (fl_root (fw_log w)) (fw_dir w) with
  | Ok (_, rs) => rs
  | Err _ => []
  end.

Lemma fw_records_models w rs : dir_models (fw_dir w) rs -> fw_records w = rs.
Proof. intros H. unfold fw_records. by rewrite (load_dir_models _ _ _ H). Qed.

(** Persisting a record that turns [rs] into [rs'] either does nothing or
    makes the directory stand for [rs']. *)
Lemma persist_record_models log dir rs rs' r o res dir' :
  dir_models dir rs -> log_wf rs' -> Forall record_ok rs' ->
  (forall q, q ∈ rs' <-> q = r \/ (q ∈ rs /\ log_sequence q <> log_sequence r)) ->
  persist_record log dir r o = (res, dir') ->
  match res with
  | Ok _ => dir_models dir' rs'
  | Err _ => dir_models dir' rs \/ dir_models dir' rs'
  end.
Proof.
  intros Hd Hwf Hok Hel Hp. pose proof (dir_models_put _ _ _ _ Hd Hwf Hok Hel) as Hput.
  unfold persist_record in Hp. destruct o; cbn [atomic_write] in Hp; simplify_eq; auto.
Qed.

(** The shape shared by the three mutations under the writer lock. *)
Lemma with_mutation_writer {A} l dir lock (op : FileSystemEventLog -> Res A * FileSystemEventLog * Dir) rs :
  fl_writer l = true -> dir_models dir rs ->
  (exists e, with_mutation l dir lock op = (Err e, l, dir)) \/
  with_mutation l dir lock op =
    op (l <| fl_next_sequence := last_sequence rs |> <| fl_records := rs |>).
Proof.
  intros Hw Hd. unfold with_mutation. rewrite Hw.
  destruct lock as [u|e]; [|eauto]. right.
  unfold reload_authoritative_records. by rewrite (load_dir_models _ _ _ Hd).
Qed.

(** What one operation does to the directory of a well-formed log; on
    success the handle's cache is what the directory stands for. *)
Definition fs_outcome {A} (res : Res A) (l' : FileSystemEventLog) (dir' : Dir)
    (P : list EventLogRecord -> Prop) : Prop :=
  fl_writer l' = true /\ exists rs', dir_models dir' rs' /\ P rs' /\
  (is_ok res = true -> fl_records l' = rs' /\ fl_next_sequence l' = last_sequence rs').

Lemma fs_outcome_Err {A} rs e l dir (P : list EventLogRecord -> Prop) :
  fl_writer l = true -> dir_models dir rs -> P rs -> fs_outcome (A:=A) (Err e) l dir P.
Proof. intros Hw Hd HP. split; [done|]. by exists rs. Qed.

Lemma fs_append_outcome l dir lock o e rs res l' dir' :
  fl_writer l = true -> dir_models dir rs -> event_ok e -> (last_sequence rs < u64_max)%N ->
  fs_append l dir lock o e = (res, l', dir') ->
  fs_outcome res l' dir' (fun rs' => append_outcome e rs rs' res).
Proof.
  intros Hw Hd He Hb H. unfold fs_append in H.
  destruct (with_mutation_writer l dir lock (fs_append_in dir o e) rs Hw Hd) as [[err Hm]|Hm];
    rewrite Hm in H; clear Hm.
  { simplify_eq. apply (fs_outcome_Err rs); [done..|by left]. }
  unfold fs_append_in in H. cbn -[persist_record contains_event find_record transition_to_acked transition_to_failed] in H.
  destruct (contains_event rs (event_id e)) eqn:E.
  { simplify_eq. apply (fs_outcome_Err rs); [done..|by left]. }
  apply contains_event_false in E. rewrite wrapping_add_small in H by lia.
  set (r := record_appended (last_sequence rs + 1) e) in *.
  pose proof (dm_wf _ _ Hd) as Hwf.
  assert (Hwf' : log_wf (rs ++ [r])) by (apply append_log_wf; [done|cbn; lia|done]).
  assert (Hok' : Forall record_ok (rs ++ [r])).
  { apply Forall_snoc. split; [apply Hd|]. split; cbn; try done. lia. }
  pose proof (fun q => append_elem rs r q Hwf ltac:(cbn; lia)) as Hel.
  destruct (persist_record _ dir r o) as [[u|err] dir1] eqn:Ep; simplify_eq;
    eapply persist_record_models in Ep; eauto.
  - split; [done|]. exists (rs ++ [r]). split_and!; try done.
    intros _. split; [done|]. unfold last_sequence. by rewrite last_snoc.
  - destruct Ep as [Hd'|Hd']; [by apply (fs_outcome_Err rs); [..|left]|].
    apply (fs_outcome_Err (rs ++ [r])); [done..|]. right. by constructor.
Qed.

(** One record replaced in place by [r'], written to its file. *)
Lemma fs_update_outcome log dir rs i r r' o res dir' :
  dir_models dir rs -> rs !! i = Some r -> same_record r r' -> record_ok r' ->
  persist_record log dir r' o = (res, dir') ->
  match res with
  | Ok _ => dir_models dir' (<[i := r']> rs)
  | Err _ => dir_models dir' rs \/ dir_models dir' (<[i := r']> rs)
  end.
Proof.
  intros Hd Hi Hsame Hr' Hp. pose proof (dm_wf _ _ Hd) as Hwf.
  eapply persist_record_models; [exact Hd| | | |exact Hp].
  - by eapply update_log_wf.
  - apply Forall_insert; [apply Hd|done].
  - intros q. by eapply update_elem.
Qed.

Lemma update_elem_self {A} (rs : list A) i r r' : rs !! i = Some r -> r' ∈ <[i := r']> rs.
Proof.
  intros Hi. apply list_elem_of_lookup. exists i. apply list_lookup_insert_eq.
  by eapply lookup_lt_Some.
Qed.

Lemma record_ok_elem dir rs i r : dir_models dir rs -> rs !! i = Some r -> record_ok r.
Proof. intros Hd Hi. by eapply Forall_lookup_1; [apply Hd|]. Qed.

Lemma fs_ack_outcome l dir lock o id c rs res l' dir' :
  fl_writer l = true -> dir_models dir rs -> id_ok c ->
  fs_ack l dir lock o id c = (res, l', dir') ->
  fs_outcome res l' dir' (fun rs' => ack_outcome id c rs rs' res).
Proof.
  intros Hw Hd Hc H. unfold fs_ack in H.
  destruct (with_mutation_writer l dir lock (fs_ack_in dir o id c) rs Hw Hd) as [[err Hm]|Hm];
    rewrite Hm in H; clear Hm.
  { simplify_eq. apply (fs_outcome_Err rs); [done..|by split; [left|]]. }
  unfold fs_ack_in in H. cbn -[persist_record contains_event find_record transition_to_acked transition_to_failed] in H.
  destruct (find_record rs id) as [[i r]|] eqn:Ef; cycle 1.
  { simplify_eq. apply (fs_outcome_Err rs); [done..|by split; [left|]]. }
  apply find_record_Ok in Ef as [Hi Hid].
  destruct (transition_to_acked r c) as [[[] r']|] eqn:Et; cycle 1.
  { apply transition_to_acked_idem in Et as (-> & Hst & Hco). simplify_eq.
    split; [done|]. exists rs. split_and!; try done. split; [by left|].
    split_and!; try done. by eapply list_elem_of_lookup_2. }
  { simplify_eq. apply (fs_outcome_Err rs); [done..|by split; [left|]]. }
  pose proof Et as (Hsame & Hst & Hco & Herr)%transition_to_acked_same.
  assert (Hr' : record_ok r').
  { destruct (record_ok_elem _ _ _ _ Hd Hi) as [H1 H2 H3 H4]. pose proof Hsame as (_ & He & Hs).
    split; rewrite ?He, ?Hs, ?Hco, ?Herr; done. }
  assert (Hstep : log_step rs (<[i := r']> rs)) by (by eapply ls_ack).
  destruct (persist_record _ dir r' o) as [[u|err] dir1] eqn:Ep; simplify_eq;
    eapply fs_update_outcome in Ep; eauto.
  - split; [done|]. eexists. split; [exact Ep|]. split.
    + split; [by right|]. split_and!; try done; [by eapply update_elem_self|].
      destruct Hsame as (_ & He & _). unfold record_id. by rewrite He.
    + intros _. split; [done|]. symmetry. by eapply last_sequence_update.
  - destruct Ep as [Hd'|Hd']; (eapply fs_outcome_Err; [done|exact Hd'|]).
    + by split; [left|].
    + by split; [right|].
Qed.

Lemma fs_fail_outcome l dir lock o id c error rs res l' dir' :
  fl_writer l = true -> dir_models dir rs -> id_ok c -> error_ok error ->
  fs_fail l dir lock o id c error = (res, l', dir') ->
  fs_outcome res l' dir' (fun rs' => fail_outcome id c error rs rs' res).
Proof.
  intros Hw Hd Hc He H. unfold fs_fail in H.
  destruct (with_mutation_writer l dir lock (fs_fail_in dir o id c error) rs Hw Hd)
    as [[err Hm]|Hm]; rewrite Hm in H; clear Hm.
  { simplify_eq. apply (fs_outcome_Err rs); [done..|by split; [left|]]. }
  unfold fs_fail_in in H. cbn -[persist_record contains_event find_record transition_to_acked transition_to_failed] in H.
  destruct (find_record rs id) as [[i r]|] eqn:Ef; cycle 1.
  { simplify_eq. apply (fs_outcome_Err rs); [done..|by split; [left|]]. }
  apply find_record_Ok in Ef as [Hi Hid].
  destruct (transition_to_failed r c error) as [r'|] eqn:Et; cycle 1.
  { simplify_eq. apply (fs_outcome_Err rs); [done..|by split; [left|]]. }
  pose proof Et as (Hsame & Hst & Hco & Herr)%transition_to_failed_same.
  assert (Hr' : record_ok r').
  { destruct (record_ok_elem _ _ _ _ Hd Hi) as [H1 H2 H3 H4]. pose proof Hsame as (_ & Hev & Hs).
    split; rewrite ?Hev, ?Hs, ?Hco, ?Herr; done. }
  assert (Hstep : log_step rs (<[i := r']> rs)) by (by eapply ls_fail).
  destruct (persist_record _ dir r' o) as [[u|err] dir1] eqn:Ep; simplify_eq;
    eapply fs_update_outcome in Ep; eauto.
  - split; [done|]. eexists. split; [exact Ep|]. split.
    + split; [by right|]. split_and!; try done; [by eapply update_elem_self|].
      destruct Hsame as (_ & Hev & _). unfold record_id. by rewrite Hev.
    + intros _. split; [done|]. symmetry. by eapply last_sequence_update.
  - destruct Ep as [Hd'|Hd']; (eapply fs_outcome_Err; [done|exact Hd'|]).
    + by split; [left|].
    + by split; [right|].
Qed.

Lemma fw_run_law {A} w (op : FileSystemEventLog -> Dir -> Res unit -> WriteOutcome ->
    Res A * FileSystemEventLog * Dir) (P : Res A -> list EventLogRecord -> Prop) :
  (forall lock o res l' dir', op (fw_log w) (fw_dir w) lock o = (res, l', dir') ->
     fs_outcome res l' dir' (P res)) ->
  fw_inv (fw_run w op).2 /\ P (fw_run w op).1 (fw_records (fw_run w op).2).
Proof.
  intros Hop. unfold fw_run.
  destruct (op (fw_log w) (fw_dir w) _ _) as [[res l'] dir'] eqn:E.
  apply Hop in E as (Hw & rs' & Hd & HP & _). cbn [fst snd].
  rewrite (fw_records_models _ rs') by done. split; [|done]. split; [done|]. by exists rs'.
Qed.

Lemma fw_append_law w e :
  fw_inv w -> event_ok e -> (last_sequence (fw_records w) < u64_max)%N ->
  let r := fw_run w (fun l d lock o => fs_append l d lock o e) in
  fw_inv r.2 /\ append_outcome e (fw_records w) (fw_records r.2) r.1.
Proof.
  intros (Hw & rs & Hd) He. rewrite (fw_records_models w rs Hd). intros Hb.
  apply (fw_run_law w _ (fun res rs' => append_outcome e rs rs' res)). intros.
  by eapply fs_append_outcome.
Qed.

Lemma fw_ack_law w id c :
  fw_inv w -> id_ok c ->
  let r := fw_run w (fun l d lock o => fs_ack l d lock o id c) in
  fw_inv r.2 /\ ack_outcome id c (fw_records w) (fw_records r.2) r.1.
Proof.
  intros (Hw & rs & Hd) Hc. rewrite (fw_records_models w rs Hd).
  apply (fw_run_law w _ (fun res rs' => ack_outcome id c rs rs' res)). intros.
  by eapply fs_ack_outcome.
Qed.

Lemma fw_fail_law w id c err :
  fw_inv w -> id_ok c -> error_ok err ->
  let r := fw_run w (fun l d lock o => fs_fail l d lock o id c err) in
  fw_inv r.2 /\ fail_outcome id c err (fw_records w) (fw_records r.2) r.1.
Proof.
  intros (Hw & rs & Hd) Hc He. rewrite (fw_records_models w rs Hd).
  apply (fw_run_law w _ (fun res rs' => fail_outcome id c err rs rs' res)). intros.
  by eapply fs_fail_outcome.
Qed.

Lemma fw_wf w : fw_inv w -> log_wf (fw_records w).
Proof. intros (_ & rs & Hd). rewrite (fw_records_models w rs Hd). apply Hd. Qed.

#[export] Instance fs_log_interface : LogInterface FsWorld := {
  li_append w e := fw_run w (fun l d lock o => fs_append l d lock o e);
  li_ack w id c := fw_run w (fun l d lock o => fs_ack l d lock o id c);
  li_fail w id c err := fw_run w (fun l d lock o => fs_fail l d lock o id c err);
  li_records := fw_records;
  li_inv := fw_inv;
  li_wf := fw_wf;
  li_append_law := fw_append_law;
  li_ack_law := fw_ack_law;
  li_fail_law := fw_fail_law
}.

(** ** Clients of the interface *)

Inductive LogOp :=
| OpAppend (e : Event)
| OpAck (id : EventId) (c : AgentId)
| OpFail (id : EventId) (c : AgentId) (err : EvaError).

Definition log_op_ok (op : LogOp) : Prop :=
  match op with
  | OpAppend e => event_ok e
  | OpAck _ c => id_ok c
  | OpFail _ c err => id_ok c /\ error_ok err
  end.

Section Clients.
Context {L : Type} `{LogInterface L}.

Definition run_log_op (l : L) (op : LogOp) : Res EventLogRecord * L :=
  match op with
  | OpAppend e => li_append l e
  | OpAck id c => li_ack l id c
  | OpFail id c err => li_fail l id c err
  end.

Definition run_log_ops (l : L) (ops : list LogOp) : L := foldl (fun l op => (run_log_op l op).2) l ops.

Lemma run_log_op_step l op :
  li_inv l -> log_op_ok op -> (last_sequence (li_records l) < u64_max)%N ->
  li_inv (run_log_op l op).2 /\
  (li_records (run_log_op l op).2 = li_records l \/
   log_step (li_records l) (li_records (run_log_op l op).2)).
Proof using Type.
  intros Hl Hop Hb. destruct op as [e|id c|id c err]; cbn in *.
  - destruct (li_append_law l e Hl Hop Hb) as [? Ho]. split; [done|]. by eapply append_outcome_step.
  - destruct (li_ack_law l id c Hl Hop) as [? [Ho _]]. done.
  - destruct Hop as [Hc He]. destruct (li_fail_law l id c err Hl Hc He) as [? [Ho _]]. done.
Qed.

Lemma log_step_last rs rs' :
  log_step rs rs' -> (last_sequence rs' <= last_sequence rs + 1)%N.
Proof using Type.
  intros [rs0 e _|rs0 i r r' c Hi Ht|rs0 i r r' c err Hi Ht].
  - unfold last_sequence at 1. rewrite last_snoc. cbn. lia.
  - apply transition_to_acked_same in Ht as [? _]. erewrite last_sequence_update by done. lia.
  - apply transition_to_failed_same in Ht as [? _]. erewrite last_sequence_update by done. lia.
Qed.

Lemma run_log_ops_steps ops : forall l,
  li_inv l -> Forall log_op_ok ops ->
  (last_sequence (li_records l) + N.of_nat (length ops) <= u64_max)%N ->
  li_inv (run_log_ops l ops) /\ log_steps (li_records l) (li_records (run_log_ops l ops)).
Proof using Type.
  induction ops as [|op ops IH]; intros l Hl Hops Hb; cbn; [split; [done|apply rtc_refl]|].
  inversion Hops; subst. cbn [length] in Hb.
  destruct (run_log_op_step l op) as [Hl' Hs]; [done|done|lia|].
  destruct (IH (run_log_op l op).2) as [Hl'' Hs'']; [done|done| |].
  - destruct Hs as [->|Hs]; [lia|]. apply log_step_last in Hs. lia.
  - split; [done|]. destruct Hs as [<-|Hs]; [done|]. by eapply rtc_l.
Qed.
End Clients.

(** ** Properties *)

Lemma dir_models_empty : dir_models ∅ [].
Proof.
  split; [split; constructor|constructor|]. intros name text _. rewrite lookup_empty.
  split; [done|]. by intros (r & ?%not_elem_of_nil & _).
Qed.

(** An acknowledged event is final.  Over any sequence of appends, acks
    and failures through any log that implements the interface, including the
    file log under failing locks and failing or half-failed writes, no
    record disappears or changes its event and sequence, an acked record
    never changes again, sequences stay strictly increasing and no event is
    recorded twice. *)
Theorem log_acked_final {L} `{LogInterface L} (l : L) ops :
  li_inv l -> Forall log_op_ok ops ->
  (last_sequence (li_records l) + N.of_nat (length ops) <= u64_max)%N ->
  log_keeps (li_records l) (li_records (run_log_ops l ops)) /\
  log_wf (li_records (run_log_ops l ops)).
Proof.
  intros Hl Hops Hb. destruct (run_log_ops_steps ops l Hl Hops Hb) as [_ Hs].
  destruct (log_steps_wf_keeps _ _ Hs (li_wf _ Hl)). done.
Qed.

Lemma log_acked_final_witness :
  let w := MkFsWorld (MkFsLog "log" 0 [] true) ∅
             [(Ok tt, WriteOk); (Ok tt, WriteUnsynced "sync failed"); (Ok tt, WriteOk)] in
  let ops := [OpAppend (sample_event "e1"); OpAck (MkId "e1") (MkId "c1");
              OpFail (MkId "e1") (MkId "c2") sample_error] in
  log_wf (li_records (run_log_ops w ops)) /\
  log_status <$> li_records (run_log_ops w ops) = [LogAcked].
Proof.
  intros w ops. split; [|vm_compute; reflexivity].
  apply (log_acked_final w ops).
  - split; [done|]. exists []. apply dir_models_empty.
  - subst ops. rewrite !Forall_cons. cbn [log_op_ok].
    split_and!; [by apply sample_event_ok|reflexivity|reflexivity|apply sample_error_ok|constructor].
  - vm_compute. discriminate.
Defined.

(** C29: what a successful call on a file log that was opened with the writer
    reports is what a restart reads: over a directory of files the log wrote,
    after any operation that returned [Ok], opening the directory again (with
    or without the writer) gives exactly the records and the next sequence
    the handle holds.  An appended event has parsed identifiers and topic and
    was created at or after the epoch, a failure's texts can be stored, and
    the sequence numbers are not used up.  (A handle without the writer does
    not read the directory again before it writes and has no such guarantee:
    [writerless_handles_lose_records].) *)
Theorem fs_success_survives_restart op l dir lock o rs r l' dir' root create_if_missing create writer :
  fl_writer l = true -> dir_models dir rs -> log_op_ok op -> (last_sequence rs < u64_max)%N ->
  match op with
  | OpAppend e => fs_append l dir lock o e
  | OpAck id c => fs_ack l dir lock o id c
  | OpFail id c err => fs_fail l dir lock o id c err
  end = (Ok r, l', dir') ->
  open_dir_with_mode root (RootDir dir') create_if_missing create writer =
  Ok (MkFsLog root (fl_next_sequence l') (fl_records l') writer).
Proof.
  intros Hw Hd Hop Hb Hrun.
  assert (exists rs', dir_models dir' rs' /\ fl_records l' = rs' /\
            fl_next_sequence l' = last_sequence rs') as (rs' & Hd' & -> & ->).
  { destruct op as [e|id c|id c err].
    - eapply fs_append_outcome in Hrun as (_ & rs' & ? & _ & Hc); [|done..]. naive_solver.
    - eapply fs_ack_outcome in Hrun as (_ & rs' & ? & _ & Hc); [|done..]. naive_solver.
    - destruct Hop. eapply fs_fail_outcome in Hrun as (_ & rs' & ? & _ & Hc); [|done..]. naive_solver. }
  unfold open_dir_with_mode. by rewrite (load_dir_models _ _ _ Hd').
Qed.

Lemma fs_success_survives_restart_witness :
  let l := MkFsLog "log" 9 [] true in
  let run := fs_append l ∅ (Ok tt) WriteOk (sample_event "e1") in
  open_dir_with_mode "log" (RootDir run.2) true (Ok tt) false =
  Ok (MkFsLog "log" 1 (fl_records run.1.2) false).
Proof.
  intros l run.
  destruct run as [[[r|e] l'] dir'] eqn:E; [|vm_compute in E; discriminate].
  pose proof (fs_success_survives_restart (OpAppend (sample_event "e1")) l ∅ (Ok tt) WriteOk []
    r l' dir' "log" true (Ok tt) false eq_refl dir_models_empty
    (sample_event_ok "e1" eq_refl) ltac:(vm_compute; reflexivity) E) as H.
  cbn [fst snd]. rewrite H. do 2 f_equal.
  apply (f_equal (fun x => fl_next_sequence x.1.2)) in E. cbn [fst snd] in E. rewrite <- E.
  vm_compute. reflexivity.
Defined.

(** Two handles opened without the writer overwrite each other's records: B,
    which still believes the log empty, replaces the record of A's first
    event, and A goes on from its own list, so A holds a record that a
    restart does not read. *)
Lemma writerless_handles_lose_records :
  let handle := MkFsLog "log" 0 [] false in
  let a1 := fs_append handle ∅ (Ok tt) WriteOk (sample_event "e1") in
  let b1 := fs_append handle a1.2 (Ok tt) WriteOk (sample_event "e2") in
  let a2 := fs_append a1.1.2 b1.2 (Ok tt) WriteOk (sample_event "e3") in
  is_ok a1.1.1 = true /\ is_ok b1.1.1 = true /\ is_ok a2.1.1 = true /\
  (id_str ∘ record_id <$> fl_records a2.1.2) = ["e1"; "e3"] /\
  result_map (fun l => id_str ∘ record_id <$> fl_records l) (open_dir_with_mode "log" (RootDir a2.2) true (Ok tt) true)
  = Ok ["e2"; "e3"].
Proof. intros. split_and!; vm_compute; reflexivity. Qed.
