(* ===== verification/EventBus.v ===== *)
(** * The event bus (crates/eva-eventbus/src: bus.rs, dead_letter.rs, in_memory.rs)

    Dead letters with their replay counters and handler bindings, and the
    bus that publishes through an event log.  The bus is written against
    [LogInterface], with the in-memory log as the instance the source uses;
    [clock i] is the reading of the system clock at the [i]-th replayed
    event. *)

From Stdlib Require Import Ascii.
From stdpp Require Import base numbers strings gmap list.
From S2P Require Import Prelude RustStr Error Ids Topic Event EventCodec EventLog.

(** ** dead_letter.rs *)

Definition MAX_REPLAY_HANDLER_KIND_BYTES : N := 128.
Definition MAX_REPLAY_HANDLERS : N := 32.

Record ReplayHandlerBinding := MkReplayHandlerBinding {
  rh_handler_kind : string;
  rh_agent_id : AgentId;
  rh_idempotency_key : option RequestId
}.

Definition handler_segment_ok (segment : string) : bool :=
  negb (str_is_empty segment) && bytes_all is_name_char segment.

Definition validate_handler_kind (value : string) : Res unit :=
  reject str_is_empty value || negb (String.eqb (trim value) value)
         || (MAX_REPLAY_HANDLER_KIND_BYTES <? str_len value)%N with
    invalid_argument "replay handler kind must be a stable dotted name"
      ⊕ ("handler_kind", value) else
  try_each (fun segment =>
    reject negb (handler_segment_ok segment) with
      invalid_argument "replay handler kind contains an invalid segment"
        ⊕ ("handler_kind", value) else
    Ok tt) (split "." value).

Definition replay_handler_binding_new (handler_kind : string) (agent_id : AgentId) :
    Res ReplayHandlerBinding :=
  validate_handler_kind handler_kind >>? Ok (MkReplayHandlerBinding handler_kind agent_id None).

Definition validate_replay_handlers (bindings : list ReplayHandlerBinding) : Res unit :=
  reject (MAX_REPLAY_HANDLERS <? len bindings)%N with
    invalid_argument "dead-letter replay handler count exceeds scheduler route limit"
      ⊕ ("replay_handler_count", n_to_string (len bindings))
      ⊕ ("max_replay_handlers", n_to_string MAX_REPLAY_HANDLERS) else
  try_each (fun b => validate_handler_kind (rh_handler_kind b)) bindings.

Record RedrivePolicy := MkRedrivePolicy { rp_retry_delay_ms : N; rp_next_attempt_after_ms : N }.
Definition redrive_default : RedrivePolicy := MkRedrivePolicy 0 0.

Record DeadLetterRecord := MkDeadLetter {
  dl_event : Event;
  dl_reason : EvaError;
  dl_replay_count : N;
  dl_redrive : RedrivePolicy;
  dl_replay_handlers : list ReplayHandlerBinding
}.
#[export] Instance DeadLetterRecord_eta : Eta DeadLetterRecord := fun d =>
  MkDeadLetter (dl_event d) (dl_reason d) (dl_replay_count d) (dl_redrive d) (dl_replay_handlers d).

Abbreviation DeadLetterQueue := (list DeadLetterRecord).

Definition dead_letter_new (event : Event) (reason : EvaError) : DeadLetterRecord :=
  MkDeadLetter event reason 0 redrive_default [].

Definition with_replay_handlers_and_redrive (event : Event) (reason : EvaError)
    (handlers : list ReplayHandlerBinding) (redrive : RedrivePolicy) : Res DeadLetterRecord :=
  validate_replay_handlers handlers >>? Ok (MkDeadLetter event reason 0 redrive handlers).

Definition queue_push (q : DeadLetterQueue) (event : Event) (reason : EvaError) :
    DeadLetterRecord * DeadLetterQueue :=
  let record := dead_letter_new event reason in (record, q ++ [record]).

Definition queue_push_with_handlers (q : DeadLetterQueue) (event : Event) (reason : EvaError)
    (handlers : list ReplayHandlerBinding) : Res DeadLetterRecord * DeadLetterQueue :=
  match with_replay_handlers_and_redrive event reason handlers redrive_default with
  | Ok record => (Ok record, q ++ [record])
  | Err e => (Err e, q)
  end.

(** [record.replay_count += 1] *)
Definition bump_replay (d : DeadLetterRecord) : DeadLetterRecord :=
  d <| dl_replay_count := wrapping_add usize_max (dl_replay_count d) 1 |>.

Definition replay_all (q : DeadLetterQueue) : list Event * DeadLetterQueue :=
  (dl_event <$> q, bump_replay <$> q).

Definition replay_event (q : DeadLetterQueue) (id : EventId) : Res Event * DeadLetterQueue :=
  match list_find (fun d => event_id (dl_event d) = id) q with
  | None => (Err (not_found "dead-letter event does not exist" ⊕ ("event_id", id_str id)), q)
  | Some (i, d) => (Ok (dl_event d), <[i := bump_replay d]> q)
  end.

Definition replay_id (d : DeadLetterRecord) : string :=
  id_str (event_id (dl_event d)) +:+ ":replay-" +:+ n_to_string (dl_replay_count d).

(** The event published for a record whose counter was just bumped. *)
Definition replay_child (now : SystemTime) (d : DeadLetterRecord) (id : EventId) : Event :=
  event_with_target
    (child_event now (dl_event d) id (event_topic (dl_event d)) (event_payload (dl_event d)))
    (event_target (dl_event d)).

(** [iter_mut().map(..).collect()]: stops at the first record whose replay
    id does not parse; the counters up to it are already bumped. *)
Fixpoint replay_all_for_publish (clock : nat -> SystemTime) (index : nat) (q : DeadLetterQueue) :
    Res (list Event) * DeadLetterQueue :=
  match q with
  | [] => (Ok [], [])
  | d :: rest =>
      let d' := bump_replay d in
      match id_parse KEvent (replay_id d') with
      | Err e => (Err e, d' :: rest)
      | Ok id =>
          let '(others, rest') := replay_all_for_publish clock (S index) rest in
          (match others with
           | Ok events => Ok (replay_child (clock index) d' id :: events)
           | Err e => Err e
           end, d' :: rest')
      end
  end.

(** ** bus.rs and in_memory.rs *)

Record EventReceipt := MkReceipt {
  rcpt_event_id : EventId;
  rcpt_sequence : N;
  rcpt_topic : Topic;
  rcpt_target : EventTarget
}.

Definition receipt_from_record (r : EventLogRecord) : EventReceipt :=
  MkReceipt (record_id r) (log_sequence r) (event_topic (log_event r)) (event_target (log_event r)).

Record EventBus (L : Type) := MkBus {
  bus_log : L;
  bus_dead_letters : DeadLetterQueue;
  bus_receipts : list EventReceipt
}.
Arguments MkBus {L}.
Arguments bus_log {L}.
Arguments bus_dead_letters {L}.
Arguments bus_receipts {L}.

Section Bus.
Context {L : Type} `{LogInterface L}.

Definition bus_with_log (log : L) : EventBus L := MkBus log [] [].

Definition bus_publish (b : EventBus L) (event : Event) : Res EventReceipt * EventBus L :=
  match li_append (bus_log b) event with
  | (Err e, log) => (Err e, MkBus log (bus_dead_letters b) (bus_receipts b))
  | (Ok record, log) =>
      let receipt := receipt_from_record record in
      (Ok receipt, MkBus log (bus_dead_letters b) (bus_receipts b ++ [receipt]))
  end.

Definition bus_ack (b : EventBus L) (id : EventId) (c : AgentId) :
    Res EventLogRecord * EventBus L :=
  let '(res, log) := li_ack (bus_log b) id c in
  (res, MkBus log (bus_dead_letters b) (bus_receipts b)).

Definition bus_fail (b : EventBus L) (id : EventId) (c : AgentId) (error : EvaError) :
    Res EventLogRecord * EventBus L :=
  let '(res, log) := li_fail (bus_log b) id c error in
  (res, MkBus log (bus_dead_letters b) (bus_receipts b)).

Definition bus_dead_letter (b : EventBus L) (event : Event) (reason : EvaError) :
    DeadLetterRecord * EventBus L :=
  let '(record, q) := queue_push (bus_dead_letters b) event reason in
  (record, MkBus (bus_log b) q (bus_receipts b)).

(** [events.into_iter().map(publish).collect()] *)
Fixpoint publish_all (b : EventBus L) (events : list Event) :
    Res (list EventReceipt) * EventBus L :=
  match events with
  | [] => (Ok [], b)
  | e :: rest =>
      match bus_publish b e with
      | (Err err, b') => (Err err, b')
      | (Ok receipt, b') =>
          let '(others, b'') := publish_all b' rest in
          (match others with Ok rs => Ok (receipt :: rs) | Err err => Err err end, b'')
      end
  end.

Definition replay_dead_letters (clock : nat -> SystemTime) (b : EventBus L) :
    Res (list EventReceipt) * EventBus L :=
  match replay_all_for_publish clock 0 (bus_dead_letters b) with
  | (Err e, q) => (Err e, MkBus (bus_log b) q (bus_receipts b))
  | (Ok events, q) => publish_all (MkBus (bus_log b) q (bus_receipts b)) events
  end.
End Bus.

(** [InMemoryEventBus::new] *)
Definition in_memory_bus_new : EventBus InMemoryEventLog := bus_with_log mem_log_new.

(** ** Replay ids *)

Lemma replay_id_valid d :
  id_valid (id_str (event_id (dl_event d))) = true ->
  id_valid (replay_id d) = (str_len (replay_id d) <=? MAX_ID_LEN)%N.
Proof.
  intros Hid. unfold id_valid in *. rewrite !andb_true_iff in Hid. destruct Hid as [[Hne _] Hb].
  assert (bytes_all is_stable_id_char (replay_id d) = true) as ->.
  { unfold replay_id. rewrite !bytes_all_append, Hb. cbn.
    eapply bytes_all_impl; [|apply n_to_string_digits]. apply ascii_impl. vm_compute. reflexivity. }
  assert (str_is_empty (replay_id d) = false) as ->.
  { apply String.eqb_neq. unfold replay_id. intros E. apply (f_equal String.length) in E.
    rewrite !length_append in E. cbn in E. lia. }
  by rewrite andb_true_r.
Qed.

Lemma replay_id_inj d d' :
  event_id (dl_event d) = event_id (dl_event d') -> replay_id d = replay_id d' ->
  dl_replay_count d = dl_replay_count d'.
Proof.
  unfold replay_id. intros -> E. do 2 apply (inj (String.append _)) in E. by apply n_to_string_inj.
Qed.

(** What every record of the queue must satisfy for a replay to start. *)
Definition replayable (d : DeadLetterRecord) : Prop :=
  id_ok (event_id (dl_event d)) /\ (dl_replay_count d < usize_max)%N /\
  (str_len (replay_id (bump_replay d)) <= MAX_ID_LEN)%N.

(** The events a complete replay publishes. *)
Fixpoint replay_events (clock : nat -> SystemTime) (index : nat) (q : DeadLetterQueue) : list Event :=
  match q with
  | [] => []
  | d :: rest =>
      replay_child (clock index) (bump_replay d) (MkId (replay_id (bump_replay d)))
        :: replay_events clock (S index) rest
  end.

Lemma replay_all_for_publish_Ok clock q : forall index,
  Forall replayable q ->
  replay_all_for_publish clock index q = (Ok (replay_events clock index q), bump_replay <$> q).
Proof.
  induction q as [|d q IH]; intros index Hq; [done|]. inversion Hq as [|? ? (Hid & _ & Hl) Hq']; subst.
  cbn [replay_all_for_publish]. rewrite id_parse_valid.
  - by rewrite IH.
  - rewrite replay_id_valid by done. by apply N.leb_le.
Qed.

Lemma replay_all_for_publish_blocked clock before d after : forall index,
  Forall replayable before -> id_ok (event_id (dl_event d)) ->
  (MAX_ID_LEN < str_len (replay_id (bump_replay d)))%N ->
  exists e, replay_all_for_publish clock index (before ++ d :: after) =
    (Err e, (bump_replay <$> before) ++ bump_replay d :: after) /\ err_kind e = InvalidArgument.
Proof.
  induction before as [|d0 before IH]; intros index Hb Hid Hl; cbn [app replay_all_for_publish].
  - destruct (id_parse KEvent (replay_id (bump_replay d))) as [i|e] eqn:E.
    + apply id_parse_Ok in E as [E _]. rewrite replay_id_valid in E by done. apply N.leb_le in E. lia.
    + apply id_parse_Err in E as [_ E]. by exists e.
  - inversion Hb as [|? ? (Hid0 & _ & Hl0) Hb']; subst. rewrite id_parse_valid.
    + destruct (IH (S index) Hb' Hid Hl) as (e & -> & He). by exists e.
    + rewrite replay_id_valid by done. by apply N.leb_le.
Qed.

(** ** Receipts *)

Section Receipts.
Context {L : Type} `{LogInterface L}.

(** Every receipt handed out is backed by a record of the log. *)
Definition receipts_backed (b : EventBus L) : Prop :=
  forall rc, rc ∈ bus_receipts b ->
    exists r, r ∈ li_records (bus_log b) /\ rc = receipt_from_record r.

Definition bus_ok (b : EventBus L) : Prop :=
  li_inv (bus_log b) /\ receipts_backed b /\
  Forall (fun d => event_ok (dl_event d)) (bus_dead_letters b).

Inductive BusOp :=
| BusPublish (e : Event)
| BusAck (id : EventId) (c : AgentId)
| BusFail (id : EventId) (c : AgentId) (err : EvaError)
| BusDeadLetter (e : Event) (reason : EvaError)
| BusReplay (clock : nat -> SystemTime).

Definition run_bus_op (b : EventBus L) (op : BusOp) : EventBus L :=
  match op with
  | BusPublish e => (bus_publish b e).2
  | BusAck id c => (bus_ack b id c).2
  | BusFail id c err => (bus_fail b id c err).2
  | BusDeadLetter e reason => (bus_dead_letter b e reason).2
  | BusReplay clock => (replay_dead_letters clock b).2
  end.

Definition clock_ok (t : SystemTime) : Prop :=
  (0 <= t)%Z /\ (Z.to_N t / NANOS_PER_SEC <= u64_max)%N.

Definition bus_op_ok (op : BusOp) : Prop :=
  match op with
  | BusPublish e => event_ok e
  | BusAck _ c => id_ok c
  | BusFail _ c err => id_ok c /\ error_ok err
  | BusDeadLetter e _ => event_ok e
  | BusReplay clock => forall i, clock_ok (clock i)
  end.

(** How many events an operation may append. *)
Definition bus_op_cost (b : EventBus L) (op : BusOp) : nat :=
  match op with
  | BusPublish _ => 1
  | BusReplay _ => length (bus_dead_letters b)
  | _ => 0
  end.

Lemma log_keeps_receipt rs rs' rc :
  log_keeps rs rs' -> (exists r, r ∈ rs /\ rc = receipt_from_record r) ->
  exists r, r ∈ rs' /\ rc = receipt_from_record r.
Proof using Type.
  intros Hk (r & (i & Hi)%list_elem_of_lookup & ->).
  destruct (Hk i r Hi) as (r' & Hr' & He & Hs & _). exists r'.
  split; [by eapply list_elem_of_lookup_2|].
  unfold receipt_from_record, record_id. by rewrite He, Hs.
Qed.

Lemma step_or_same_keeps rs rs' : rs' = rs \/ log_step rs rs' -> log_keeps rs rs'.
Proof using Type. intros [->|?]; auto with eva. Qed.

Lemma bus_publish_ok b e :
  bus_ok b -> event_ok e -> (last_sequence (li_records (bus_log b)) < u64_max)%N ->
  bus_ok (bus_publish b e).2 /\
  bus_dead_letters (bus_publish b e).2 = bus_dead_letters b /\
  (last_sequence (li_records (bus_log (bus_publish b e).2)) <=
   last_sequence (li_records (bus_log b)) + 1)%N.
Proof using Type.
  intros (Hl & Hr & Hd) He Hb. unfold bus_publish.
  destruct (li_append_law (bus_log b) e Hl He Hb) as [Hl' Ho].
  pose proof (append_outcome_step _ _ _ _ Ho) as Hstep.
  assert (Hlast : (last_sequence (li_records (li_append (bus_log b) e).2) <=
    last_sequence (li_records (bus_log b)) + 1)%N).
  { destruct Hstep as [->|Hstep]; [lia|]. by apply log_step_last. }
  pose proof (step_or_same_keeps _ _ Hstep) as Hk.
  destruct (li_append (bus_log b) e) as [[r|err] log]; cbn in *; (split; [|done]).
  - split_and!; [done| |done]. intros rc. cbn. rewrite elem_of_app, list_elem_of_singleton.
    intros [Hrc| ->]; [by eapply log_keeps_receipt; [|apply Hr]|].
    exists r. split; [|done]. destruct Ho as (-> & _ & _). rewrite elem_of_app. right. by left.
  - split_and!; [done| |done]. intros rc Hrc. by eapply log_keeps_receipt; [|apply Hr].
Qed.

Lemma publish_all_ok events : forall b,
  bus_ok b -> Forall event_ok events ->
  (last_sequence (li_records (bus_log b)) + N.of_nat (length events) <= u64_max)%N ->
  bus_ok (publish_all b events).2.
Proof using Type.
  induction events as [|e events IH]; intros b Hb He Hs; cbn; [done|].
  inversion He; subst. cbn [length] in Hs.
  destruct (bus_publish_ok b e) as (Hb' & _ & Hlast); [done|done|lia|].
  destruct (bus_publish b e) as [[receipt|err] b']; cbn in *; [|done].
  specialize (IH b' Hb' ltac:(done) ltac:(lia)). by destruct (publish_all b' events).
Qed.

Lemma bump_replay_event_ok q :
  Forall (fun d => event_ok (dl_event d)) q -> forall clock index,
  (forall i, clock_ok (clock i)) ->
  match replay_all_for_publish clock index q with
  | (res, q') => Forall (fun d => event_ok (dl_event d)) q' /\
      match res with
      | Ok events => Forall event_ok events /\ length events = length q
      | Err _ => True end
  end.
Proof using Type.
  intros Hq clock index Hc. revert index.
  induction Hq as [|d q Hd Hq IH]; intros index; cbn [replay_all_for_publish]; [done|].
  destruct (id_parse KEvent _) as [i|e] eqn:E; [|split; [by constructor|done]].
  specialize (IH (S index)). destruct (replay_all_for_publish clock (S index) q) as [[evs|e] q'].
  - destruct IH as [Hq' [Hevs Hlen]]. split; [by constructor|]. split; [|cbn; by rewrite Hlen].
    constructor; [|done]. apply id_parse_Ok in E as [Hid ->].
    destruct (Hc index). destruct Hd as [Hi Ht Htg Hp Hcr Hse Hre Hge Hco Hca].
    split; cbn; try done.
    destruct (correlation_id (meta_trace (event_metadata (dl_event d)))); done.
  - destruct IH as [Hq' _]. split; [by constructor|done].
Qed.
End Receipts.

(** ** Properties *)

(** Every receipt the bus has handed out names a record that is in the
    log, with its sequence, topic and target: this holds of a new bus and is
    preserved by publish, ack, fail, dead-letter and replay, whether they
    succeed or fail, over any log that implements the interface. *)
Theorem bus_receipts_backed {L} `{LogInterface L} (b : EventBus L) op :
  bus_ok b -> bus_op_ok op ->
  (last_sequence (li_records (bus_log b)) + N.of_nat (bus_op_cost b op) <= u64_max)%N ->
  bus_ok (run_bus_op b op).
Proof.
  intros Hb Hop Hcost. destruct op as [e|id c|id c err|e reason|clock]; cbn in *.
  - apply bus_publish_ok; [done|done|lia].
  - destruct Hb as (Hl & Hr & Hd). destruct (li_ack_law (bus_log b) id c Hl Hop) as [Hl' [Hs _]].
    unfold bus_ack. destruct (li_ack (bus_log b) id c) as [res log]; cbn in *.
    split_and!; [done| |done]. intros rc Hrc.
    eapply log_keeps_receipt; [by apply step_or_same_keeps|by apply Hr].
  - destruct Hb as (Hl & Hr & Hd), Hop as [Hc He].
    destruct (li_fail_law (bus_log b) id c err Hl Hc He) as [Hl' [Hs _]].
    unfold bus_fail. destruct (li_fail (bus_log b) id c err) as [res log]; cbn in *.
    split_and!; [done| |done]. intros rc Hrc.
    eapply log_keeps_receipt; [by apply step_or_same_keeps|by apply Hr].
  - destruct Hb as (Hl & Hr & Hd). split_and!; [done|done|]. cbn. by apply Forall_snoc.
  - destruct Hb as (Hl & Hr & Hd). unfold replay_dead_letters.
    pose proof (bump_replay_event_ok (bus_dead_letters b) Hd clock 0 Hop) as Hq.
    destruct (replay_all_for_publish clock 0 (bus_dead_letters b)) as [[events|e] q].
    + destruct Hq as [Hq [Hev Hlen]]. apply publish_all_ok; [done|done|]. cbn. by rewrite Hlen.
    + destruct Hq as [Hq _]. done.
Qed.

Lemma bus_receipts_backed_witness :
  let b := (bus_dead_letter in_memory_bus_new (sample_event "e1") sample_error).2 in
  bus_ok (run_bus_op b (BusReplay (fun _ => 5%Z))) /\
  rcpt_event_id <$> bus_receipts (run_bus_op b (BusReplay (fun _ => 5%Z))) = [MkId "e1:replay-1"].
Proof.
  intros b. split; [|vm_compute; reflexivity].
  apply (bus_receipts_backed b (BusReplay (fun _ => 5%Z))).
  - split_and!; [split; [split; constructor|done]|by intros rc ?%not_elem_of_nil|].
    apply Forall_singleton. by apply sample_event_ok.
  - intros i. split; vm_compute; discriminate.
  - vm_compute. discriminate.
Defined.

(** A complete replay publishes one child per dead letter: when every
    counter can grow and every replay id fits, the generated events carry
    the ids [<id>:replay-<count+1>], keep topic, payload and target, name
    the original as their cause, and every counter grows by one; replaying
    the same record again gives a different id. *)
Theorem replay_events_complete clock q :
  Forall replayable q ->
  replay_all_for_publish clock 0 q = (Ok (replay_events clock 0 q), bump_replay <$> q) /\
  (forall i d, q !! i = Some d -> exists e, replay_events clock 0 q !! i = Some e /\
     id_str (event_id e) = replay_id (bump_replay d) /\
     event_topic e = event_topic (dl_event d) /\ event_payload e = event_payload (dl_event d) /\
     event_target e = event_target (dl_event d) /\
     causation_id (event_trace e) = Some (event_id (dl_event d))) /\
  (forall d, d ∈ q -> replay_id (bump_replay (bump_replay d)) <> replay_id (bump_replay d)).
Proof.
  intros Hq. split; [by apply replay_all_for_publish_Ok|]. split.
  - clear Hq. generalize 0 as index. induction q as [|d q IH]; intros index i d' Hi; [done|].
    destruct i as [|i]; cbn in Hi |- *.
    + simplify_eq. eexists. by split_and!.
    + by apply IH.
  - intros d Hd E. rewrite Forall_forall in Hq. destruct (Hq d Hd) as (_ & Hc & _).
    apply (replay_id_inj (bump_replay (bump_replay d)) (bump_replay d)) in E; [|done].
    cbn in E. unfold wrapping_add in E. rewrite (N.mod_small (dl_replay_count d + 1)) in E by lia.
    destruct (decide (dl_replay_count d + 1 = usize_max)%N) as [Hm|Hm].
    + rewrite Hm in E. rewrite N.Div0.mod_same in E. unfold usize_max, u64_max in *. lia.
    + rewrite N.mod_small in E by lia. lia.
Qed.

Lemma replay_events_complete_witness :
  let q := [dead_letter_new (sample_event "e1") sample_error] in
  event_id <$> replay_events (fun _ => 0%Z) 0 q = [MkId "e1:replay-1"] /\
  replay_all_for_publish (fun _ => 0%Z) 0 q =
    (Ok (replay_events (fun _ => 0%Z) 0 q), bump_replay <$> q).
Proof.
  intros q. split; [vm_compute; reflexivity|].
  apply (replay_events_complete (fun _ => 0%Z) q). apply Forall_singleton.
  split_and!; [done|vm_compute; reflexivity|vm_compute; discriminate].
Defined.

(** One dead letter whose id leaves no room for the ":replay-<n>"
    suffix blocks the whole replay: the call fails with an invalid argument,
    nothing at all is published and no receipt is handed out, although the
    counters of the records before it have already been bumped. *)
Theorem replay_blocked_by_long_id {L} `{LogInterface L} clock (b : EventBus L) before d after :
  bus_dead_letters b = before ++ d :: after ->
  Forall replayable before -> id_ok (event_id (dl_event d)) ->
  (MAX_ID_LEN < str_len (replay_id (bump_replay d)))%N ->
  exists e, err_kind e = InvalidArgument /\
    replay_dead_letters clock b =
      (Err e, MkBus (bus_log b) ((bump_replay <$> before) ++ bump_replay d :: after)
                (bus_receipts b)).
Proof.
  intros Hq Hb Hid Hl. unfold replay_dead_letters. rewrite Hq.
  destruct (replay_all_for_publish_blocked clock before d after 0 Hb Hid Hl) as (e & -> & He).
  by exists e.
Qed.

Lemma replay_blocked_by_long_id_witness :
  let long := zeros 128 in
  let b := (bus_dead_letter (bus_dead_letter in_memory_bus_new (sample_event "e1") sample_error).2
             (sample_event long) sample_error).2 in
  exists e, (replay_dead_letters (fun _ => 0%Z) b).1 = Err e /\ err_kind e = InvalidArgument.
Proof.
  intros long b.
  destruct (replay_blocked_by_long_id (fun _ => 0%Z) b
    [dead_letter_new (sample_event "e1") sample_error]
    (dead_letter_new (sample_event long) sample_error) []) as (e & He & Hr).
  - reflexivity.
  - apply Forall_singleton. split_and!; [done|vm_compute; reflexivity|vm_compute; discriminate].
  - vm_compute. reflexivity.
  - vm_compute. reflexivity.
  - exists e. by rewrite Hr.
Defined.
