(* ===== verification/DeadLetterCodec.v ===== *)
(** * The dead-letter record format (crates/eva-eventbus/src/durable.rs)

    [dead_letter_to_storage] and [dead_letter_from_storage] with the field
    helpers of that file.  They are close to those of the event log, but
    refuse repeated fields, tolerate missing times and keep of the reason
    only its kind, message and retry flag. *)

From Stdlib Require Import Ascii.
From stdpp Require Import base numbers strings gmap list.
From S2P Require Import Prelude RustStr Error Ids Topic Event EventCodec EventLog EventBus.

Definition DEAD_LETTER_VERSION : string := "1".

(** ** Writing *)

Definition dl_push_error_fields (prefix : string) (error : option EvaError) : Fields :=
  match error with
  | Some e =>
      push_field (prefix +:+ "_kind") (error_kind_str (err_kind e))
      ++ push_encoded_string (prefix +:+ "_message") (err_message e)
      ++ push_field (prefix +:+ "_retryable") (if err_retryable e then "true" else "false")
  | None =>
      push_field (prefix +:+ "_kind") "" ++ push_field (prefix +:+ "_message") ""
      ++ push_field (prefix +:+ "_retryable") ""
  end.

Definition handler_key (index : nat) (suffix : string) : string :=
  "replay_handler_" +:+ n_to_string (N.of_nat index) +:+ suffix.

(** The [for (index, binding)] loop. *)
Fixpoint push_handlers (index : nat) (bindings : list ReplayHandlerBinding) : Fields :=
  match bindings with
  | [] => []
  | b :: rest =>
      push_encoded_string (handler_key index "_kind") (rh_handler_kind b)
      ++ push_encoded_string (handler_key index "_agent_id") (id_str (rh_agent_id b))
      ++ push_optional_string (handler_key index "_idempotency_key")
           (id_str <$> rh_idempotency_key b)
      ++ push_handlers (S index) rest
  end.

(** The file's own [push_event_fields] writes the fields of the event log's. *)
Definition dead_letter_fields (d : DeadLetterRecord) : Fields :=
  push_field "version" DEAD_LETTER_VERSION
  ++ push_event_fields (dl_event d)
  ++ dl_push_error_fields "reason" (Some (dl_reason d))
  ++ push_field "replay_count" (n_to_string (dl_replay_count d))
  ++ push_field "retry_delay_ms" (n_to_string (rp_retry_delay_ms (dl_redrive d)))
  ++ push_field "next_attempt_after_ms" (n_to_string (rp_next_attempt_after_ms (dl_redrive d)))
  ++ push_field "replay_handler_count" (n_to_string (len (dl_replay_handlers d)))
  ++ push_handlers 0 (dl_replay_handlers d).

Definition dead_letter_to_storage (d : DeadLetterRecord) : string := render (dead_letter_fields d).

(** ** Reading *)

Definition dl_parse_field_line (fields : FieldMap) (line : string) : Res FieldMap :=
  match split_once "=" line with
  | None => Err (conflict "dead-letter record field is invalid")
  | Some (key, value) =>
      reject str_is_empty (trim key) || negb (String.eqb (trim key) key) with
        conflict "dead-letter record field key is invalid" ⊕ ("field", key) else
      reject bool_decide (is_Some (fields !! key)) with
        conflict "dead-letter record field is duplicated" ⊕ ("field", key) else
      Ok (<[key := value]> fields)
  end.

Fixpoint dl_parse_field_lines (fields : FieldMap) (ls : list string) : Res FieldMap :=
  match ls with
  | [] => Ok fields
  | line :: rest =>
      let? fields' := dl_parse_field_line fields line in dl_parse_field_lines fields' rest
  end.

Definition dl_parse_fields (data : string) : Res FieldMap :=
  dl_parse_field_lines ∅ (List.filter (fun line => negb (str_is_empty (trim line))) (lines data)).

Definition dl_require_field (fields : FieldMap) (key : string) : Res string :=
  ok_or (fields !! key) (conflict "dead-letter record field is missing" ⊕ ("field", key)).

Definition dl_decode_string (value : string) : Res string :=
  let? bytes := hex_decode value in
  reject negb (utf8_valid bytes) with conflict "dead-letter string field is not utf-8" else
  Ok bytes.

Definition dl_decoded_required_string (fields : FieldMap) (key : string) : Res string :=
  let? value := dl_require_field fields key in
  map_err (fun error => error ⊕ ("field", key)) (dl_decode_string value).

Definition dl_optional_decoded_string (fields : FieldMap) (key : string) : Res (option string) :=
  match fields !! key with
  | Some value =>
      if str_is_empty value then Ok None
      else result_map Some (map_err (fun error => error ⊕ ("field", key)) (dl_decode_string value))
  | None => Ok None
  end.

(** [parse_usize], [parse_u64] and the [u32] of [optional_u32]. *)
Definition dl_parse_number (max : N) (value field : string) : Res N :=
  ok_or (parse_unsigned max value)
    (conflict "dead-letter numeric field is invalid" ⊕ ("field", field)).

(** [optional_u64], [optional_usize] and [optional_u32]. *)
Definition dl_optional_number (max : N) (fields : FieldMap) (key : string) : Res (option N) :=
  match fields !! key with
  | Some value => if str_is_empty value then Ok None
                  else result_map Some (dl_parse_number max value key)
  | None => Ok None
  end.

Definition dl_parse_bool (value field : string) : Res bool :=
  if String.eqb value "true" then Ok true
  else if String.eqb value "false" then Ok false
  else Err (conflict "dead-letter boolean field is invalid" ⊕ ("field", field)).

Definition dl_optional_id (k : IdKind) (fields : FieldMap) (key : string) : Res (option (Id k)) :=
  let? value := dl_optional_decoded_string fields key in
  match value with
  | Some v => result_map Some (id_parse k v)
  | None => Ok None
  end.

Definition dl_target_from_fields (fields : FieldMap) : Res EventTarget :=
  let? kind := dl_require_field fields "target_kind" in
  if String.eqb kind "broadcast" then Ok TargetBroadcast
  else if String.eqb kind "agent" then
    let? v := dl_decoded_required_string fields "target_value" in
    result_map TargetAgent (id_parse KAgent v)
  else if String.eqb kind "capability" then
    let? v := dl_decoded_required_string fields "target_value" in
    result_map TargetCapability (capability_name_parse v)
  else if String.eqb kind "adapter" then
    let? v := dl_decoded_required_string fields "target_value" in
    result_map TargetAdapter (id_parse KAdapter v)
  else Err (conflict "dead-letter target kind is invalid" ⊕ ("target_kind", kind)).

Definition dl_payload_from_fields (fields : FieldMap) : Res EventPayload :=
  let? kind := dl_require_field fields "payload_kind" in
  if String.eqb kind "empty" then Ok PayloadEmpty
  else if String.eqb kind "text" then
    result_map PayloadText (dl_decoded_required_string fields "payload_value")
  else if String.eqb kind "bytes" then
    let? v := dl_require_field fields "payload_value" in result_map PayloadBytes (hex_decode v)
  else Err (conflict "dead-letter payload kind is invalid" ⊕ ("payload_kind", kind)).

(** Instants past the platform's range are not modelled. *)
Definition event_metadata_from_fields (fields : FieldMap) : Res EventMetadata :=
  let? secs := dl_optional_number u64_max fields "created_at_secs" in
  let? nanos := dl_optional_number u32_max fields "created_at_nanos" in
  let secs := default 0%N secs in
  let nanos := default 0%N nanos in
  reject (NANOS_PER_SEC <=? nanos)%N with
    conflict "dead-letter created_at_nanos is invalid" ⊕ ("field", "created_at_nanos") else
  let? request_id := dl_optional_id KRequest fields "request_id" in
  let? generation_id := dl_optional_id KGeneration fields "generation_id" in
  let? correlation := dl_optional_id KEvent fields "correlation_id" in
  let? causation := dl_optional_id KEvent fields "causation_id" in
  Ok {| created_at := Z.of_N (secs * NANOS_PER_SEC + nanos);
        meta_request_id := request_id;
        meta_trace := MkTraceContext correlation causation;
        meta_generation_id := generation_id |}.

Definition dl_event_from_fields (fields : FieldMap) : Res Event :=
  let? id_text := dl_decoded_required_string fields "event_id" in
  let? id := id_parse KEvent id_text in
  let? topic_text := dl_decoded_required_string fields "topic" in
  let? topic := topic_parse topic_text in
  let? target := dl_target_from_fields fields in
  let? payload := dl_payload_from_fields fields in
  let? metadata := event_metadata_from_fields fields in
  Ok {| event_id := id; event_topic := topic; event_target := target; event_payload := payload;
        event_metadata := metadata |}.

Definition dl_error_kind_from_storage (value : string) : Res ErrorKind :=
  match List.find (fun k => String.eqb value (error_kind_str k))
    [InvalidArgument; NotFound; Conflict; PermissionDenied; Timeout; Unavailable; Internal;
     Unsupported] with
  | Some k => Ok k
  | None => Err (conflict "dead-letter error kind is invalid" ⊕ ("error_kind", value))
  end.

Definition dl_error_from_fields (fields : FieldMap) (prefix : string) : Res (option EvaError) :=
  let? kind_value := dl_require_field fields (prefix +:+ "_kind") in
  if str_is_empty kind_value then Ok None
  else
    let? kind := dl_error_kind_from_storage kind_value in
    let? message := dl_decoded_required_string fields (prefix +:+ "_message") in
    let? retryable_text := dl_require_field fields (prefix +:+ "_retryable") in
    let? retryable := dl_parse_bool retryable_text (prefix +:+ "_retryable") in
    Ok (Some (with_retryable (error_new kind message) retryable)).

Definition handler_from_fields (fields : FieldMap) (index : nat) : Res ReplayHandlerBinding :=
  let? handler_kind := dl_decoded_required_string fields (handler_key index "_kind") in
  let? agent_text := dl_decoded_required_string fields (handler_key index "_agent_id") in
  let? agent_id := id_parse KAgent agent_text in
  let? idempotency_key := dl_optional_id KRequest fields (handler_key index "_idempotency_key") in
  let? binding := replay_handler_binding_new handler_kind agent_id in
  Ok (MkReplayHandlerBinding (rh_handler_kind binding) (rh_agent_id binding) idempotency_key).

Definition dead_letter_from_storage (data : string) : Res DeadLetterRecord :=
  let? fields := dl_parse_fields data in
  let? version := dl_require_field fields "version" in
  reject negb (String.eqb version DEAD_LETTER_VERSION) with
    conflict "dead-letter record version is unsupported" ⊕ ("version", version) else
  let? event := dl_event_from_fields fields in
  let? reason := dl_error_from_fields fields "reason" in
  let? reason := ok_or reason (conflict "dead-letter reason is missing") in
  let? count_text := dl_require_field fields "replay_count" in
  let? replay_count := dl_parse_number usize_max count_text "replay_count" in
  let? retry_delay_ms := dl_optional_number u64_max fields "retry_delay_ms" in
  let? next_attempt_after_ms := dl_optional_number u64_max fields "next_attempt_after_ms" in
  let? handler_count := dl_optional_number usize_max fields "replay_handler_count" in
  let handler_count := default 0%N handler_count in
  reject (MAX_REPLAY_HANDLERS <? handler_count)%N with
    conflict "dead-letter replay handler count exceeds scheduler route limit"
      ⊕ ("replay_handler_count", n_to_string handler_count)
      ⊕ ("max_replay_handlers", n_to_string MAX_REPLAY_HANDLERS) else
  let? handlers := try_map (handler_from_fields fields) (seq 0 (N.to_nat handler_count)) in
  let? record := with_replay_handlers_and_redrive event reason handlers redrive_default in
  Ok (record <| dl_replay_count := replay_count |>
             <| dl_redrive := MkRedrivePolicy (default 0%N retry_delay_ms)
                                (default 0%N next_attempt_after_ms) |>).

(** ** Well-formed records *)

Record handler_ok (b : ReplayHandlerBinding) : Prop := {
  ho_kind : validate_handler_kind (rh_handler_kind b) = Ok tt;
  ho_utf8 : utf8_valid (rh_handler_kind b) = true;
  ho_agent : id_ok (rh_agent_id b);
  ho_key : opt_ok id_ok (rh_idempotency_key b)
}.

Record dead_letter_ok (d : DeadLetterRecord) : Prop := {
  do_event : event_ok (dl_event d);
  do_message : utf8_valid (err_message (dl_reason d)) = true;
  do_count : (dl_replay_count d <= usize_max)%N;
  do_delay : (rp_retry_delay_ms (dl_redrive d) <= u64_max)%N;
  do_next : (rp_next_attempt_after_ms (dl_redrive d) <= u64_max)%N;
  do_handlers : Forall handler_ok (dl_replay_handlers d);
  do_handler_count : (len (dl_replay_handlers d) <= MAX_REPLAY_HANDLERS)%N
}.

(** What the format keeps of a reason. *)
Definition stored_reason (e : EvaError) : EvaError :=
  with_retryable (error_new (err_kind e) (err_message e)) (err_retryable e).
Definition stored_dead_letter (d : DeadLetterRecord) : DeadLetterRecord :=
  d <| dl_reason := stored_reason (dl_reason d) |>.

Lemma stored_dead_letter_text d :
  dead_letter_to_storage (stored_dead_letter d) = dead_letter_to_storage d.
Proof. done. Qed.
Lemma stored_dead_letter_idem d : stored_dead_letter (stored_dead_letter d) = stored_dead_letter d.
Proof. done. Qed.
Lemma stored_dead_letter_ok d : dead_letter_ok d -> dead_letter_ok (stored_dead_letter d).
Proof. intros []. by split. Qed.

(** ** Lines *)

Lemma dl_parse_field_line_clean m f :
  field_clean f -> m !! f.1 = None -> dl_parse_field_line m (field_line f) = Ok (<[f.1 := f.2]> m).
Proof.
  intros Hf Hm. unfold dl_parse_field_line. rewrite field_line_split by done.
  destruct f as [k v]. destruct Hf as (Hne & Hg & _). cbn [fst snd] in *.
  rewrite trim_graphic by done. rewrite String.eqb_refl, str_is_empty_false by done. cbn [negb orb].
  rewrite bool_decide_eq_false_2; [done|]. rewrite Hm. by intros [].
Qed.

Lemma dl_parse_lines_clean fs : Forall field_clean fs -> forall m,
  NoDup fs.*1 -> (forall k, k ∈ fs.*1 -> m !! k = None) ->
  dl_parse_field_lines m (List.filter (fun line => negb (str_is_empty (trim line))) (field_line <$> fs))
  = Ok (fields_map m fs).
Proof.
  induction 1 as [|f fs Hf _ IH]; intros m Hd Hm; [done|]. cbn [fmap list_fmap List.filter].
  rewrite fmap_cons in Hd, Hm. apply NoDup_cons in Hd as [Hn Hd].
  rewrite str_is_empty_false by (by apply field_line_trim). cbn [negb dl_parse_field_lines].
  rewrite dl_parse_field_line_clean by (done || apply Hm; left). apply IH; [done|].
  intros k Hk. rewrite lookup_insert_ne by (by intros <-). apply Hm. by right.
Qed.

Lemma dl_parse_fields_render fs :
  Forall field_clean fs -> NoDup fs.*1 -> dl_parse_fields (render fs) = Ok (fields_map ∅ fs).
Proof.
  intros Hfs Hd. unfold dl_parse_fields. rewrite lines_render by done.
  apply dl_parse_lines_clean; [done..|]. intros; apply lookup_empty.
Qed.

(** ** Single fields *)

Lemma dl_require_holds m k v : m !! k = Some v -> dl_require_field m k = Ok v.
Proof. intros H. unfold dl_require_field. by rewrite H. Qed.

Lemma dl_decode_hex_encode v : utf8_valid v = true -> dl_decode_string (hex_encode v) = Ok v.
Proof. intros Hv. unfold dl_decode_string. rewrite hex_decode_hex_encode. by rewrite Hv. Qed.

Lemma dl_decoded_holds m k v :
  m !! k = Some (hex_encode v) -> utf8_valid v = true -> dl_decoded_required_string m k = Ok v.
Proof.
  intros H Hv. unfold dl_decoded_required_string. rewrite (dl_require_holds _ _ _ H).
  by rewrite dl_decode_hex_encode.
Qed.

Lemma dl_optional_id_holds k m key (o : option (Id k)) :
  holds m (push_optional_string key (id_str <$> o)) -> opt_ok id_ok o ->
  dl_optional_id k m key = Ok o.
Proof.
  unfold dl_optional_id, dl_optional_decoded_string, push_optional_string, push_encoded_string,
    push_field. destruct o as [i|]; cbn; rewrite holds_one; intros ->; [|done].
  intros Hi. destruct (id_ok_text i Hi) as [Hne Hu].
  rewrite str_is_empty_false by (by apply hex_encode_nonempty).
  rewrite dl_decode_hex_encode by done. cbn. by rewrite id_parse_id_str.
Qed.

Lemma dl_number_to_string max n f : (n <= max)%N -> dl_parse_number max (n_to_string n) f = Ok n.
Proof. intros. unfold dl_parse_number. by rewrite parse_unsigned_to_string. Qed.

Lemma dl_optional_number_holds max m k n :
  m !! k = Some (n_to_string n) -> (n <= max)%N -> dl_optional_number max m k = Ok (Some n).
Proof.
  intros H Hn. unfold dl_optional_number. rewrite H.
  rewrite str_is_empty_false by apply n_to_string_nonempty. by rewrite dl_number_to_string.
Qed.

(** ** Parts of a record *)

Lemma dl_target_holds m t :
  holds m (push_target t) -> target_ok t -> dl_target_from_fields m = Ok t.
Proof.
  intros Hm Ht. unfold dl_target_from_fields, push_target, push_optional_string in *.
  destruct t as [|i|c|i]; split_holds Hm; cbn in Ht;
    rewrite (dl_require_holds m "target_kind" _ ltac:(eassumption)); cbn; [done|..].
  2: destruct Ht as [Hp Hu]; erewrite dl_decoded_holds; [|eassumption|done]; by rewrite Hp.
  all: erewrite dl_decoded_holds; [|eassumption|by apply id_ok_text]; by rewrite id_parse_id_str.
Qed.

Lemma dl_payload_holds m p :
  holds m (push_payload p) -> payload_ok p -> dl_payload_from_fields m = Ok p.
Proof.
  intros Hm Hp. unfold dl_payload_from_fields, push_payload in *.
  destruct p as [|v|v]; split_holds Hm; cbn in Hp;
    rewrite (dl_require_holds m "payload_kind" _ ltac:(eassumption)); cbn; [done|..].
  - by erewrite dl_decoded_holds.
  - erewrite dl_require_holds by eassumption. by rewrite hex_decode_hex_encode.
Qed.

Lemma dl_event_holds m e :
  holds m (push_event_fields e) -> event_ok e -> dl_event_from_fields m = Ok e.
Proof.
  intros Hm [Hid [Htp Htu] Htarget Hpayload Hcr Hsecs Hreq Hgen Hcor Hcau].
  unfold push_event_fields in Hm. split_holds Hm. unfold dl_event_from_fields.
  erewrite dl_decoded_holds; [|eassumption|by apply id_ok_text].
  rewrite id_parse_id_str by done. erewrite dl_decoded_holds by done. rewrite Htp.
  erewrite dl_target_holds by done. erewrite dl_payload_holds by done.
  unfold event_metadata_from_fields.
  pose proof (N.mod_lt (since_epoch (created_at (event_metadata e))) NANOS_PER_SEC ltac:(done)) as Hlt.
  erewrite (dl_optional_number_holds u64_max m "created_at_secs") by done.
  erewrite (dl_optional_number_holds u32_max m "created_at_nanos");
    [|done|unfold NANOS_PER_SEC, u32_max in *; lia].
  cbn [from_option id]. rewrite (proj2 (N.leb_gt _ _) Hlt).
  erewrite (dl_optional_id_holds KRequest) by done. erewrite (dl_optional_id_holds KGeneration) by done.
  do 2 (erewrite (dl_optional_id_holds KEvent) by done).
  f_equal. destruct e as [? ? ? ? [c ? [] ?]]. cbn in *. do 2 f_equal.
  rewrite N.mul_comm, <- N.div_mod by done. unfold since_epoch. lia.
Qed.

Lemma dl_error_holds m e :
  holds m (dl_push_error_fields "reason" (Some e)) -> utf8_valid (err_message e) = true ->
  dl_error_from_fields m "reason" = Ok (Some (stored_reason e)).
Proof.
  intros Hm Hu. unfold dl_error_from_fields, dl_push_error_fields in *. split_holds Hm.
  erewrite dl_require_holds by done. rewrite str_is_empty_false by apply error_kind_str_nonempty.
  replace (dl_error_kind_from_storage (error_kind_str (err_kind e)))
    with (@Ok EvaError _ (err_kind e)) by (by destruct (err_kind e)).
  erewrite dl_decoded_holds by done.
  erewrite (dl_require_holds m ("reason" +:+ "_retryable")) by done.
  unfold stored_reason. by destruct (err_retryable e).
Qed.

Lemma handlers_hold m bs : forall index,
  holds m (push_handlers index bs) -> Forall handler_ok bs ->
  try_map (handler_from_fields m) (seq index (length bs)) = Ok bs.
Proof.
  induction bs as [|b bs IH]; intros index Hm Hb; [done|].
  cbn [push_handlers] in Hm. split_holds Hm. inversion Hb as [|? ? [Hk Hu Ha Hi] Hbs]; subst.
  cbn [length seq try_map]. unfold handler_from_fields at 1.
  erewrite dl_decoded_holds by done.
  erewrite dl_decoded_holds; [|done|by apply id_ok_text]. rewrite id_parse_id_str by done.
  erewrite (dl_optional_id_holds KRequest) by done.
  unfold replay_handler_binding_new. rewrite Hk. cbn. rewrite IH by done. by destruct b.
Qed.

Lemma validate_replay_handlers_ok bs :
  Forall handler_ok bs -> (len bs <= MAX_REPLAY_HANDLERS)%N -> validate_replay_handlers bs = Ok tt.
Proof.
  intros Hb Hn. unfold validate_replay_handlers. rewrite (proj2 (N.ltb_ge _ _) Hn).
  apply try_each_Ok. eapply Forall_impl; [exact Hb|]. by intros b [].
Qed.

(** ** Distinct keys, clean lines *)

Definition DEAD_LETTER_KEYS : list string :=
  ["version"; "event_id"; "topic"; "target_kind"; "target_value"; "payload_kind"; "payload_value";
   "created_at_secs"; "created_at_nanos"; "request_id"; "generation_id"; "correlation_id";
   "causation_id"; "reason_kind"; "reason_message"; "reason_retryable"; "replay_count";
   "retry_delay_ms"; "next_attempt_after_ms"; "replay_handler_count"].

Fixpoint handler_keys (index count : nat) : list string :=
  match count with
  | O => []
  | S rest => handler_key index "_kind" :: handler_key index "_agent_id"
                :: handler_key index "_idempotency_key" :: handler_keys (S index) rest
  end.

Lemma push_handlers_keys bs : forall index, (push_handlers index bs).*1 = handler_keys index (length bs).
Proof.
  induction bs as [|b bs IH]; intros index; [done|]. cbn [push_handlers length handler_keys].
  rewrite !fmap_app, push_optional_keys, IH. done.
Qed.

Lemma dead_letter_fields_keys d :
  (dead_letter_fields d).*1 = DEAD_LETTER_KEYS ++ handler_keys 0 (length (dl_replay_handlers d)).
Proof.
  unfold dead_letter_fields, push_event_fields, dl_push_error_fields, push_field, push_encoded_string.
  rewrite !fmap_app, !push_optional_keys, push_handlers_keys.
  destruct (event_target (dl_event d)), (event_payload (dl_event d)); cbn [push_target push_payload];
    rewrite ?fmap_app, ?push_optional_keys; reflexivity.
Qed.

Lemma handler_keys_app a b : forall index,
  handler_keys index (a + b) = handler_keys index a ++ handler_keys (index + a) b.
Proof.
  induction a as [|a IH]; intros index; cbn; [by rewrite Nat.add_0_r|].
  rewrite IH. by rewrite Nat.add_succ_r.
Qed.

(** A record never has more keys than one with the maximal number of handlers. *)
Definition ALL_DEAD_LETTER_KEYS : list string :=
  DEAD_LETTER_KEYS ++ handler_keys 0 (N.to_nat MAX_REPLAY_HANDLERS).

Lemma dead_letter_keys_prefix d :
  (len (dl_replay_handlers d) <= MAX_REPLAY_HANDLERS)%N ->
  exists rest, ALL_DEAD_LETTER_KEYS = (dead_letter_fields d).*1 ++ rest.
Proof.
  intros Hn. unfold ALL_DEAD_LETTER_KEYS, len in *. rewrite dead_letter_fields_keys.
  exists (handler_keys (length (dl_replay_handlers d))
            (N.to_nat MAX_REPLAY_HANDLERS - length (dl_replay_handlers d))).
  rewrite <- app_assoc. f_equal. etrans; [|apply (handler_keys_app _ _ 0)]. f_equal. lia.
Qed.

Lemma all_dead_letter_keys_ok :
  NoDup ALL_DEAD_LETTER_KEYS /\ Forall (fun k => key_clean k = true) ALL_DEAD_LETTER_KEYS.
Proof.
  split; [apply (bool_decide_eq_true_1 (NoDup ALL_DEAD_LETTER_KEYS))
         |apply (bool_decide_eq_true_1 (Forall (fun k => key_clean k = true) ALL_DEAD_LETTER_KEYS))];
    vm_compute; reflexivity.
Qed.

Lemma dead_letter_keys_ok d :
  (len (dl_replay_handlers d) <= MAX_REPLAY_HANDLERS)%N ->
  NoDup (dead_letter_fields d).*1 /\ Forall (fun f => key_clean f.1 = true) (dead_letter_fields d).
Proof.
  intros Hn. destruct (dead_letter_keys_prefix d Hn) as [rest Hr].
  destruct all_dead_letter_keys_ok as [Hd Hc]. rewrite Hr in Hd, Hc.
  apply NoDup_app in Hd as [Hd _]. apply Forall_app in Hc as [Hc _].
  split; [done|]. by apply (Forall_fmap fst (fun k => key_clean k = true)).
Qed.

Lemma push_handlers_clean bs : forall index, values_clean (push_handlers index bs).
Proof.
  induction bs as [|b bs IH]; intros index; [constructor|]. cbn [push_handlers].
  unfold push_encoded_string. rewrite !Forall_app.
  split_and!; [apply one_clean; auto with eva..|apply push_optional_clean|apply IH].
Qed.

Lemma dead_letter_values_clean d : values_clean (dead_letter_fields d).
Proof.
  unfold dead_letter_fields, push_event_fields, dl_push_error_fields, push_field, push_encoded_string.
  rewrite !Forall_app.
  split_and!; try apply push_optional_clean; try apply push_target_clean;
    try apply push_payload_clean; try apply push_handlers_clean; apply one_clean; auto with eva;
    [by destruct (err_kind (dl_reason d))|by destruct (err_retryable (dl_reason d))].
Qed.

Lemma dead_letter_fields_clean d :
  (len (dl_replay_handlers d) <= MAX_REPLAY_HANDLERS)%N -> Forall field_clean (dead_letter_fields d).
Proof.
  intros Hn. apply keys_values_clean; [by apply dead_letter_keys_ok|apply dead_letter_values_clean].
Qed.

Lemma dead_letter_read d :
  dead_letter_ok d -> dead_letter_from_storage (dead_letter_to_storage d) = Ok (stored_dead_letter d).
Proof.
  intros [Hev Hmsg Hcount Hdelay Hnext Hh Hn].
  unfold dead_letter_from_storage, dead_letter_to_storage.
  destruct (dead_letter_keys_ok d Hn) as [Hd _].
  rewrite dl_parse_fields_render by (done || by apply dead_letter_fields_clean).
  pose proof (fields_map_holds (dead_letter_fields d) ∅ Hd) as Hm.
  set (m := fields_map ∅ (dead_letter_fields d)) in *. clearbody m.
  unfold dead_letter_fields in Hm. split_holds Hm.
  erewrite (dl_require_holds m "version") by done. rewrite String.eqb_refl. cbn [negb].
  erewrite dl_event_holds by done. erewrite dl_error_holds by done. cbn [ok_or].
  erewrite (dl_require_holds m "replay_count") by done. rewrite dl_number_to_string by exact Hcount.
  erewrite (dl_optional_number_holds u64_max m "retry_delay_ms") by eassumption.
  erewrite (dl_optional_number_holds u64_max m "next_attempt_after_ms") by eassumption.
  assert (Hlen : (len (dl_replay_handlers d) <= usize_max)%N) by (etrans; [exact Hn|done]).
  erewrite (dl_optional_number_holds usize_max m "replay_handler_count") by eassumption.
  cbn [from_option id]. rewrite (proj2 (N.ltb_ge _ _) Hn). unfold len at 1. rewrite Nat2N.id.
  rewrite handlers_hold by done. unfold with_replay_handlers_and_redrive.
  rewrite validate_replay_handlers_ok by done. cbn. destruct d as [? ? ? [] ?]. reflexivity.
Qed.

(** The dead-letter record format loses nothing of the event, the replay
    counter, the redrive policy and the handler bindings; of the reason it
    keeps the kind, the message and the retry flag (its context entries and
    provider code are dropped), and what it keeps is written the same way
    again. *)
Theorem dead_letter_roundtrip d :
  dead_letter_ok d ->
  exists d', dead_letter_from_storage (dead_letter_to_storage d) = Ok d' /\
    dl_event d' = dl_event d /\ dl_replay_count d' = dl_replay_count d /\
    dl_redrive d' = dl_redrive d /\ dl_replay_handlers d' = dl_replay_handlers d /\
    err_kind (dl_reason d') = err_kind (dl_reason d) /\
    err_message (dl_reason d') = err_message (dl_reason d) /\
    err_retryable (dl_reason d') = err_retryable (dl_reason d) /\
    dead_letter_to_storage d' = dead_letter_to_storage d.
Proof. intros Hd. exists (stored_dead_letter d). by rewrite dead_letter_read. Qed.

Definition sample_dead_letter : DeadLetterRecord :=
  MkDeadLetter (sample_event "e1") sample_error 3 (MkRedrivePolicy 250 1000)
    [MkReplayHandlerBinding "agent.run" (MkId "agent-1") (Some (MkId "req-1"));
     MkReplayHandlerBinding "audit" (MkId "agent-2") None].

Lemma dead_letter_roundtrip_witness :
  exists d', dead_letter_from_storage (dead_letter_to_storage sample_dead_letter) = Ok d' /\
    dl_replay_handlers d' = dl_replay_handlers sample_dead_letter /\ err_context (dl_reason d') = [].
Proof.
  destruct (dead_letter_roundtrip sample_dead_letter) as (d' & Hr & _ & _ & _ & Hh & _).
  - split; try (vm_compute; discriminate); [by apply sample_event_ok|reflexivity|].
    repeat constructor.
  - exists d'. split_and!; [exact Hr|exact Hh|].
    apply (f_equal (fun r => result_map (fun q => err_context (dl_reason q)) r)) in Hr.
    cbn [result_map] in Hr. vm_compute in Hr. by injection Hr.
Defined.
