(* ===== verification/DeadLetterStore.v ===== *)
(** * The durable dead-letter store and bus (crates/eva-eventbus/src/durable.rs)

    One file per dead letter, named by the hex of its event id.  A handle
    that holds the runtime writer takes the process lock, checks that its
    generation is current and reloads the directory before it mutates; a
    handle without it works on the records it has.  The durable bus couples
    the store with the file event log. *)

From Stdlib Require Import Ascii.
From stdpp Require Import base numbers strings gmap list sorting.
From S2P Require Import Prelude RustStr Error Ids Topic Event EventCodec Durable EventLog.
From S2P Require Import EventBus DeadLetterCodec.

Definition DEAD_LETTER_DIR : string := "dead_letters".
Definition DEAD_LETTER_EXTENSION : string := "dead".

Record FileSystemDeadLetterStore := MkDeadStore {
  ds_root : string;
  ds_records : list DeadLetterRecord;
  ds_writer : option DurableWriterGuard
}.
#[export] Instance FileSystemDeadLetterStore_eta : Eta FileSystemDeadLetterStore := fun s =>
  MkDeadStore (ds_root s) (ds_records s) (ds_writer s).

Definition dl_id (d : DeadLetterRecord) : EventId := event_id (dl_event d).

(** What one access of the store meets: the project files the writer guard
    is checked against, the process lock, how its write ends, the clock. *)
Record Access := MkAccess {
  ac_files : Files;
  ac_lock : Res unit;
  ac_write : WriteOutcome;
  ac_now : SystemTime
}.

(** ** Files *)

Definition dead_letter_file (id : EventId) : string :=
  hex_encode (id_str id) +:+ "." +:+ DEAD_LETTER_EXTENSION.
Definition is_dead_file (name : string) : bool :=
  bool_decide (file_extension name = Some DEAD_LETTER_EXTENSION).

Definition persist_dead_letter (root : string) (dir : Dir) (d : DeadLetterRecord)
    (o : WriteOutcome) : Res unit * Dir :=
  let name := dead_letter_file (dl_id d) in
  match atomic_write dir name (dead_letter_to_storage d) o with
  | (Ok _, dir) => (Ok tt, dir)
  | (Err error, dir) =>
      (Err (internal "failed to atomically write durable dead-letter record"
              ⊕ ("path", path_join root name) ⊕ ("io_error", error)), dir)
  end.

Definition load_dead_letter (root : string) (entry : string * string) : Res DeadLetterRecord :=
  let path := path_join root entry.1 in
  reject negb (utf8_valid entry.2) with
    conflict "failed to read durable dead-letter record"
      ⊕ ("path", path) ⊕ ("io_error", "stream did not contain valid UTF-8") else
  map_err (fun error => error ⊕ ("path", path)) (dead_letter_from_storage entry.2).

Definition load_dead_letters (root : string) (dir : Dir) : Res (list DeadLetterRecord) :=
  try_map (load_dead_letter root) (List.filter (fun entry => is_dead_file entry.1) (map_to_list dir)).

Fixpoint validate_records_from (event_ids : gset EventId) (records : list DeadLetterRecord) : Res unit :=
  match records with
  | [] => Ok tt
  | d :: rest =>
      reject bool_decide (dl_id d ∈ event_ids) with
        conflict "durable dead-letter event id is duplicated" ⊕ ("event_id", id_str (dl_id d)) else
      validate_records_from ({[dl_id d]} ∪ event_ids) rest
  end.
Definition validate_records (records : list DeadLetterRecord) : Res unit :=
  validate_records_from ∅ records.

(** [sort_by] event id: [String] orders by bytes. *)
Definition dl_le (a b : DeadLetterRecord) : Prop :=
  String.leb (id_str (dl_id a)) (id_str (dl_id b)) = true.
#[export] Instance dl_le_dec : RelDecision dl_le.
Proof. unfold dl_le. solve_decision. Defined.
Definition sort_dead_letters (records : list DeadLetterRecord) : list DeadLetterRecord :=
  merge_sort dl_le records.

(** The load, sort and validate sequence of every reader of the directory. *)
Definition load_sorted (root : string) (dir : Dir) : Res (list DeadLetterRecord) :=
  let? records := load_dead_letters root dir in
  let records := sort_dead_letters records in
  validate_records records >>? Ok records.

Definition dead_open_dir_with_mode (root : string) (entry : RootEntry) (create_if_missing : bool)
    (create : Res unit) (writer : option DurableWriterGuard) : Res FileSystemDeadLetterStore :=
  let load (d : Dir) :=
    let? records := load_sorted root d in Ok (MkDeadStore root records writer) in
  match entry with
  | RootFile => Err (conflict "durable dead-letter path is not a directory" ⊕ ("path", root))
  | RootDir d => load d
  | RootMissing =>
      if create_if_missing then create >>? load ∅ else Ok (MkDeadStore root [] writer)
  end.

Definition dead_root (layout : DurableBackendLayout) : string :=
  path_join (layout_event_dir layout) DEAD_LETTER_DIR.

Definition dead_open (layout : DurableBackendLayout) (entry : RootEntry) (create : Res unit) :
    Res FileSystemDeadLetterStore :=
  dead_open_dir_with_mode (dead_root layout) entry true create None.

Definition dead_open_with_writer (layout : DurableBackendLayout) (files : Files) (entry : RootEntry)
    (create : Res unit) (writer : DurableWriterGuard) : Res FileSystemDeadLetterStore :=
  reject negb (String.eqb (wg_root writer) (layout_root layout)) with
    conflict "durable dead-letter writer belongs to a different backend root"
      ⊕ ("layout_root", layout_root layout) ⊕ ("writer_root", wg_root writer) else
  verify_current writer files >>?
  dead_open_dir_with_mode (dead_root layout) entry true create (Some writer).

Definition dead_open_read_only (layout : DurableBackendLayout) (entry : RootEntry) :
    Res FileSystemDeadLetterStore :=
  dead_open_dir_with_mode (dead_root layout) entry false (Ok tt) None.

Definition dead_refresh (s : FileSystemDeadLetterStore) (dir : option Dir) (a : Access) :
    Res unit * FileSystemDeadLetterStore :=
  let missing := Err (internal "failed to read durable dead-letter directory" ⊕ ("path", ds_root s)
                        ⊕ ("io_error", "No such file or directory (os error 2)")) in
  let reload := match dir with Some d => load_sorted (ds_root s) d | None => missing end in
  let loaded := match ds_writer s, dir with
                | Some writer, _ => ac_lock a >>? verify_current writer (ac_files a) >>? reload
                | None, None => Ok []
                | None, Some _ => reload
                end in
  match loaded with
  | Ok records => (Ok tt, s <| ds_records := records |>)
  | Err e => (Err e, s)
  end.

(** ** Transactions *)

Definition dead_transaction {A} (s : FileSystemDeadLetterStore) (dir : Dir) (a : Access)
    (operation : list DeadLetterRecord -> Res A * list DeadLetterRecord * Dir) :
    Res A * FileSystemDeadLetterStore * Dir :=
  match ds_writer s with
  | None =>
      let '(res, records, dir) := operation (ds_records s) in
      (res, s <| ds_records := records |>, dir)
  | Some writer =>
      match (ac_lock a >>? verify_current writer (ac_files a) >>? load_sorted (ds_root s) dir) with
      | Err e => (Err e, s, dir)
      | Ok records =>
          match operation records with
          | (Err e, _, dir) => (Err e, s, dir)
          | (Ok value, records, dir) => (Ok value, s <| ds_records := records |>, dir)
          end
      end
  end.

Definition dead_missing (id : EventId) : EvaError :=
  not_found "dead-letter event does not exist" ⊕ ("event_id", id_str id).

(** The closures of the operations, run on the records of the transaction. *)
Definition push_in (root : string) (dir : Dir) (o : WriteOutcome) (event : Event) (reason : EvaError)
    (handlers : list ReplayHandlerBinding) (redrive : RedrivePolicy)
    (records : list DeadLetterRecord) : Res DeadLetterRecord * list DeadLetterRecord * Dir :=
  if existsb (fun d => bool_decide (dl_id d = event_id event)) records then
    (Err (conflict "dead-letter event already exists" ⊕ ("event_id", id_str (event_id event))),
     records, dir)
  else
    match with_replay_handlers_and_redrive event reason handlers redrive with
    | Err e => (Err e, records, dir)
    | Ok d =>
        match persist_dead_letter root dir d o with
        | (Err e, dir) => (Err e, records, dir)
        | (Ok _, dir) => (Ok d, sort_dead_letters (records ++ [d]), dir)
        end
    end.

Definition set_redrive_policy_in (root : string) (dir : Dir) (o : WriteOutcome) (id : EventId)
    (redrive : RedrivePolicy) (records : list DeadLetterRecord) :
    Res DeadLetterRecord * list DeadLetterRecord * Dir :=
  match list_find (fun d => dl_id d = id) records with
  | None => (Err (dead_missing id), records, dir)
  | Some (i, d) =>
      let d := d <| dl_redrive := redrive |> in
      match persist_dead_letter root dir d o with
      | (Err e, dir) => (Err e, records, dir)
      | (Ok _, dir) => (Ok d, <[i := d]> records, dir)
      end
  end.

(** The event a redrive publishes; unlike the in-memory queue it keeps the
    request and generation of the original. *)
Definition replay_event_for_publish (now : SystemTime) (d : DeadLetterRecord) : Res Event :=
  let? id := id_parse KEvent (replay_id d) in
  let original := event_metadata (dl_event d) in
  Ok {| event_id := id; event_topic := event_topic (dl_event d);
        event_target := event_target (dl_event d); event_payload := event_payload (dl_event d);
        event_metadata :=
          {| created_at := now; meta_request_id := meta_request_id original;
             meta_trace := child_of (meta_trace original) (dl_id d);
             meta_generation_id := meta_generation_id original |} |}.

Definition redrive_in (root : string) (dir : Dir) (a : Access) (id : EventId)
    (next_attempt_after_ms : DeadLetterRecord -> N) (records : list DeadLetterRecord) :
    Res Event * list DeadLetterRecord * Dir :=
  match list_find (fun d => dl_id d = id) records with
  | None => (Err (dead_missing id), records, dir)
  | Some (i, d) =>
      let d := bump_replay d in
      let d := d <| dl_redrive := MkRedrivePolicy (rp_retry_delay_ms (dl_redrive d))
                                    (next_attempt_after_ms d) |> in
      match replay_event_for_publish (ac_now a) d with
      | Err e => (Err e, records, dir)
      | Ok event =>
          match persist_dead_letter root dir d (ac_write a) with
          | (Err e, dir) => (Err e, records, dir)
          | (Ok _, dir) => (Ok event, <[i := d]> records, dir)
          end
      end
  end.

Definition push_with_handlers_and_redrive (s : FileSystemDeadLetterStore) (dir : Dir) (a : Access)
    (event : Event) (reason : EvaError) (handlers : list ReplayHandlerBinding)
    (redrive : RedrivePolicy) : Res DeadLetterRecord * FileSystemDeadLetterStore * Dir :=
  dead_transaction s dir a (push_in (ds_root s) dir (ac_write a) event reason handlers redrive).

Definition set_redrive_policy (s : FileSystemDeadLetterStore) (dir : Dir) (a : Access) (id : EventId)
    (redrive : RedrivePolicy) : Res DeadLetterRecord * FileSystemDeadLetterStore * Dir :=
  dead_transaction s dir a (set_redrive_policy_in (ds_root s) dir (ac_write a) id redrive).

Definition redrive_for_publish_with_next (s : FileSystemDeadLetterStore) (dir : Dir) (a : Access)
    (id : EventId) (next : DeadLetterRecord -> N) : Res Event * FileSystemDeadLetterStore * Dir :=
  dead_transaction s dir a (redrive_in (ds_root s) dir a id next).

(** [retry_delay_ms.saturating_mul(replay_count as u64)] *)
Definition default_next_attempt (d : DeadLetterRecord) : N :=
  N.min u64_max (rp_retry_delay_ms (dl_redrive d) * dl_replay_count d).

Definition redrive_for_publish (s : FileSystemDeadLetterStore) (dir : Dir) (a : Access)
    (id : EventId) : Res Event * FileSystemDeadLetterStore * Dir :=
  redrive_for_publish_with_next s dir a id default_next_attempt.

Definition redrive_for_publish_at (s : FileSystemDeadLetterStore) (dir : Dir) (a : Access)
    (id : EventId) (next_attempt_after_ms : N) : Res Event * FileSystemDeadLetterStore * Dir :=
  redrive_for_publish_with_next s dir a id (fun _ => next_attempt_after_ms).

(** [event_ids.iter().map(redrive).collect()]: one transaction per id, up to
    the first failure; the [i]-th of them meets [env i]. *)
Fixpoint redrive_each (s : FileSystemDeadLetterStore) (dir : Dir) (env : nat -> Access) (index : nat)
    (ids : list EventId) : Res (list Event) * FileSystemDeadLetterStore * Dir :=
  match ids with
  | [] => (Ok [], s, dir)
  | id :: rest =>
      match redrive_for_publish s dir (env index) id with
      | (Err e, s, dir) => (Err e, s, dir)
      | (Ok event, s, dir) =>
          let '(others, s, dir) := redrive_each s dir env (S index) rest in
          (match others with Ok events => Ok (event :: events) | Err e => Err e end, s, dir)
      end
  end.

Definition dead_replay_all_for_publish (s : FileSystemDeadLetterStore) (dir : Dir)
    (env : nat -> Access) : Res (list Event) * FileSystemDeadLetterStore * Dir :=
  match dead_transaction s dir (env 0)
          (fun records => (Ok (dl_id <$> records), records, dir)) with
  | (Err e, s, dir) => (Err e, s, dir)
  | (Ok ids, s, dir) => redrive_each s dir env 1 ids
  end.

(** ** The directory *)

Lemma dead_letter_file_split id :
  rev (split "." (dead_letter_file id)) = ["dead"; hex_encode (id_str id)].
Proof.
  unfold dead_letter_file. change ("." +:+ DEAD_LETTER_EXTENSION) with (String "." "dead").
  by rewrite split_append by apply hex_no_dot.
Qed.

Lemma dead_letter_file_inj a b : dead_letter_file a = dead_letter_file b -> a = b.
Proof.
  intros E. apply (f_equal (fun n => rev (split "." n))) in E. rewrite !dead_letter_file_split in E.
  injection E as E%hex_encode_inj. destruct a, b. cbn in E. by subst.
Qed.

Lemma dead_letter_file_is id : id_ok id -> is_dead_file (dead_letter_file id) = true.
Proof.
  intros Hid. apply bool_decide_eq_true_2. unfold file_extension. rewrite dead_letter_file_split. cbn.
  by rewrite str_is_empty_false by (by apply hex_encode_nonempty, id_ok_text).
Qed.

(** A record as the directory can hold it. *)
Definition dead_stored (d : DeadLetterRecord) : Prop := dead_letter_ok d /\ stored_dead_letter d = d.

(** Every dead-letter file is one the store wrote. *)
Definition dead_ok (dir : Dir) : Prop :=
  forall name text, dir !! name = Some text -> is_dead_file name = true ->
    exists d, dead_stored d /\ name = dead_letter_file (dl_id d) /\ text = dead_letter_to_storage d.

Definition on_dead (dir : Dir) (d : DeadLetterRecord) : Prop :=
  dead_stored d /\ dir !! dead_letter_file (dl_id d) = Some (dead_letter_to_storage d).

Lemma dead_letter_to_storage_inj d d' :
  dead_stored d -> dead_stored d' -> dead_letter_to_storage d = dead_letter_to_storage d' -> d = d'.
Proof.
  intros [Ho Hs] [Ho' Hs'] E. apply (f_equal dead_letter_from_storage) in E.
  rewrite !dead_letter_read, Hs, Hs' in E by done. by injection E.
Qed.

Lemma on_dead_unique dir d d' : on_dead dir d -> on_dead dir d' -> dl_id d = dl_id d' -> d = d'.
Proof.
  intros [Hd Hf] [Hd' Hf'] E. rewrite E in Hf. apply dead_letter_to_storage_inj; [done..|congruence].
Qed.

(** ** Loading *)

Lemma dead_fields_utf8 d : Forall (fun f => utf8_valid f.2 = true) (dead_letter_fields d).
Proof.
  assert (Hone : forall k v, utf8_valid v = true ->
    Forall (fun f : string * string => utf8_valid f.2 = true) [(k, v)]) by (by repeat constructor).
  assert (Hopt : forall k o, Forall (fun f => utf8_valid f.2 = true) (push_optional_string k o))
    by (intros k [v|]; apply Hone; auto with eva).
  assert (Hh : forall bs i, Forall (fun f => utf8_valid f.2 = true) (push_handlers i bs)).
  { induction bs as [|b bs IH]; intros i; cbn [push_handlers]; [constructor|].
    rewrite !Forall_app. split_and!; [apply Hone; auto with eva..|apply Hopt|apply IH]. }
  unfold dead_letter_fields, push_event_fields, dl_push_error_fields, push_field,
    push_encoded_string, push_target, push_payload, push_field, push_encoded_string.
  rewrite !Forall_app; split_and!; try apply Hopt; try apply Hh; try (apply Hone; auto with eva).
  - destruct (event_target (dl_event d)); rewrite Forall_app; split; try apply Hopt; by apply Hone.
  - destruct (event_payload (dl_event d)); rewrite Forall_app; split; apply Hone; auto with eva.
  - by destruct (err_kind (dl_reason d)).
  - by destruct (err_retryable (dl_reason d)).
Qed.

Lemma load_dead_letter_stored root d :
  dead_stored d ->
  load_dead_letter root (dead_letter_file (dl_id d), dead_letter_to_storage d) = Ok d.
Proof.
  intros [Ho Hs]. unfold load_dead_letter. cbn [fst snd]. unfold dead_letter_to_storage at 1.
  rewrite render_utf8; [|by apply dead_letter_fields_clean, Ho|apply dead_fields_utf8].
  cbn [negb]. by rewrite dead_letter_read, Hs.
Qed.

(** The records of an ordinary list of entries. *)
Lemma load_entries root entries :
  NoDup entries.*1 ->
  (forall name text, (name, text) ∈ entries ->
     exists d, dead_stored d /\ name = dead_letter_file (dl_id d) /\ text = dead_letter_to_storage d) ->
  exists rs, try_map (load_dead_letter root) entries = Ok rs /\ NoDup (dl_id <$> rs) /\
    forall d, d ∈ rs <-> dead_stored d /\ (dead_letter_file (dl_id d), dead_letter_to_storage d) ∈ entries.
Proof.
  induction entries as [|[name text] entries IH]; intros Hd He.
  { exists []. split_and!; [done|constructor|]. intros d. rewrite !elem_of_nil. naive_solver. }
  rewrite fmap_cons, NoDup_cons in Hd. destruct Hd as [Hn Hd].
  destruct (He name text) as (d & Hs & -> & ->); [by left|].
  destruct IH as (rs & Hl & Hnd & Hel); [done|intros; apply He; by right|].
  exists (d :: rs). cbn [try_map]. rewrite load_dead_letter_stored, Hl by done. split; [done|].
  split.
  - rewrite fmap_cons, NoDup_cons. split; [|done]. intros (d' & E & Hd')%list_elem_of_fmap.
    apply Hel in Hd' as [_ Hd']. apply Hn. rewrite E. by apply (list_elem_of_fmap_2 fst) in Hd'.
  - intros d'. rewrite !elem_of_cons, Hel. split.
    + intros [->|[? ?]]; [by split; [|left]|]. by split; [|right].
    + intros [Hs' [E|?]]; [|by right]. left. apply (f_equal snd) in E. by apply dead_letter_to_storage_inj.
Qed.

Lemma validate_records_from_Ok rs : forall ids,
  NoDup (dl_id <$> rs) -> (forall d, d ∈ rs -> dl_id d ∉ ids) ->
  validate_records_from ids rs = Ok tt.
Proof.
  induction rs as [|d rs IH]; intros ids Hd Hn; [done|]. cbn [validate_records_from].
  rewrite fmap_cons, NoDup_cons in Hd. destruct Hd as [Hd Hr].
  rewrite bool_decide_eq_false_2 by (apply Hn; left). apply IH; [done|].
  intros q Hq. rewrite not_elem_of_union, not_elem_of_singleton.
  split; [|apply Hn; by right]. intros E. apply Hd. rewrite <- E. by apply list_elem_of_fmap_2.
Qed.

Lemma NoDup_filter_keys {A} (p : string * A -> bool) l : NoDup l.*1 -> NoDup (List.filter p l).*1.
Proof.
  induction l as [|[k v] l IH]; [done|]. rewrite fmap_cons, NoDup_cons. intros [Hk Hl]. cbn.
  destruct (p (k, v)); [|by apply IH]. rewrite fmap_cons, NoDup_cons. split; [|by apply IH].
  intros ([k' v'] & E & Hin)%list_elem_of_fmap. apply Hk. cbn in E. subst.
  rewrite list_elem_of_In, List.filter_In, <- list_elem_of_In in Hin.
  destruct Hin as [Hin _]. by apply (list_elem_of_fmap_2 fst) in Hin.
Qed.

(** A reader finds exactly the records of the directory. *)
Definition loads (dir : Dir) (rs : list DeadLetterRecord) : Prop :=
  NoDup (dl_id <$> rs) /\ forall d, d ∈ rs <-> on_dead dir d.

Lemma load_sorted_ok root dir :
  dead_ok dir -> exists rs, load_sorted root dir = Ok rs /\ loads dir rs.
Proof.
  intros Hd. unfold load_sorted, load_dead_letters.
  destruct (load_entries root (List.filter (fun entry => is_dead_file entry.1) (map_to_list dir)))
    as (rs & -> & Hnd & Hel).
  - apply NoDup_filter_keys, NoDup_fst_map_to_list.
  - intros name text Hin. rewrite list_elem_of_In, List.filter_In, <- list_elem_of_In,
      elem_of_map_to_list in Hin. destruct Hin as [Hin Hn]. by apply Hd.
  - pose proof (merge_sort_Permutation dl_le rs) as Hp. unfold validate_records, sort_dead_letters.
    assert (Hnd' : NoDup (dl_id <$> merge_sort dl_le rs)) by (by rewrite Hp).
    rewrite validate_records_from_Ok; [|done|intros; apply not_elem_of_empty].
    eexists. split; [done|]. split; [done|]. intros d. rewrite Hp, Hel. unfold on_dead.
    rewrite list_elem_of_In, List.filter_In, <- list_elem_of_In, elem_of_map_to_list. cbn [fst].
    split; [naive_solver|]. intros [Hs Hf]. split_and!; try done.
    apply dead_letter_file_is. destruct Hs as [[[Hid] ] _]. done.
Qed.

Lemma loads_find dir rs id :
  loads dir rs ->
  match list_find (fun d => dl_id d = id) rs with
  | Some (i, d) => rs !! i = Some d /\ on_dead dir d /\ dl_id d = id
  | None => forall d, on_dead dir d -> dl_id d <> id
  end.
Proof.
  intros [_ Hel]. destruct (list_find _ rs) as [[i d]|] eqn:E.
  - apply list_find_Some in E as (Hi & Hid & _). split_and!; try done.
    apply Hel. by eapply list_elem_of_lookup_2.
  - apply list_find_None in E. rewrite Forall_forall in E. intros d Hd. by apply E, Hel.
Qed.

(** ** Writing one record *)

Definition dead_put (dir : Dir) (d : DeadLetterRecord) : Dir :=
  <[dead_letter_file (dl_id d) := dead_letter_to_storage d]> dir.

Lemma persist_dead_letter_cases root dir d o res dir' :
  persist_dead_letter root dir d o = (res, dir') ->
  (dir' = dead_put dir d) \/ (dir' = dir /\ is_ok res = false).
Proof. unfold persist_dead_letter. destruct o; cbn; intros; simplify_eq; auto. Qed.

Lemma dead_put_ok dir d : dead_ok dir -> dead_letter_ok d -> dead_ok (dead_put dir d).
Proof.
  intros Hd Ho name text H Hn. unfold dead_put in H.
  apply lookup_insert_Some in H as [[<- <-]|[_ H]]; [|by apply Hd].
  exists (stored_dead_letter d). split; [|done]. by split; [apply stored_dead_letter_ok|].
Qed.

Lemma on_dead_put dir d q :
  dead_letter_ok d ->
  on_dead (dead_put dir d) q <->
    q = stored_dead_letter d \/ (on_dead dir q /\ dl_id q <> dl_id d).
Proof.
  intros Ho. assert (Hs : dead_stored (stored_dead_letter d)) by (by split; [apply stored_dead_letter_ok|]).
  unfold on_dead, dead_put. split.
  - intros [Hq Hf]. destruct (decide (dl_id q = dl_id d)) as [E|E].
    + left. rewrite E, lookup_insert_eq in Hf. apply dead_letter_to_storage_inj; [done..|].
      rewrite stored_dead_letter_text. congruence.
    + right. rewrite lookup_insert_ne in Hf; [done|]. by intros ?%dead_letter_file_inj.
  - intros [->|[[Hq Hf] E]]; (split; [done|]).
    + by rewrite lookup_insert_eq.
    + rewrite lookup_insert_ne; [done|]. by intros ?%dead_letter_file_inj.
Qed.
