(* ===== verification/DeadLetterSafety.v ===== *)
(** * What the durable dead letters promise (crates/eva-eventbus/src/durable.rs)

    Dead letters are never lost, and the events redriven from them carry ids
    that are never given out twice, whatever handles of the current writer
    work on the directory and however their locks and writes end. *)

From Stdlib Require Import Ascii.
From stdpp Require Import base numbers strings gmap list.
From S2P Require Import Prelude RustStr Error Ids Topic Event EventCodec Durable EventLog.
From S2P Require Import EventBus DeadLetterCodec DeadLetterStore.

(** ** Operations *)

Inductive DeadOp :=
| DoPush (event : Event) (reason : EvaError) (handlers : list ReplayHandlerBinding)
    (redrive : RedrivePolicy)
| DoSetPolicy (id : EventId) (redrive : RedrivePolicy)
| DoRedrive (id : EventId)
| DoRedriveAt (id : EventId) (next_attempt_after_ms : N)
| DoReplayAll.

Definition emitted {A} (r : Res A) (events : A -> list Event) : list Event :=
  match r with Ok a => events a | Err _ => [] end.

(** The events an operation hands to its caller, and the directory after it. *)
Definition run_dead_op (s : FileSystemDeadLetterStore) (dir : Dir) (env : nat -> Access)
    (op : DeadOp) : list Event * Dir :=
  match op with
  | DoPush event reason handlers redrive =>
      ([], (push_with_handlers_and_redrive s dir (env 0) event reason handlers redrive).2)
  | DoSetPolicy id redrive => ([], (set_redrive_policy s dir (env 0) id redrive).2)
  | DoRedrive id =>
      let '(res, _, dir') := redrive_for_publish s dir (env 0) id in
      (emitted res (fun e => [e]), dir')
  | DoRedriveAt id next =>
      let '(res, _, dir') := redrive_for_publish_at s dir (env 0) id next in
      (emitted res (fun e => [e]), dir')
  | DoReplayAll =>
      let '(res, _, dir') := dead_replay_all_for_publish s dir env in (emitted res id, dir')
  end.

(** Any handles may take turns on the directory. *)
Fixpoint run_dead_ops (dir : Dir) (turns : list (FileSystemDeadLetterStore * (nat -> Access) * DeadOp)) :
    list Event * Dir :=
  match turns with
  | [] => ([], dir)
  | (s, env, op) :: rest =>
      let '(events, dir) := run_dead_op s dir env op in
      let '(others, dir) := run_dead_ops dir rest in (events ++ others, dir)
  end.

Definition redrive_policy_ok (r : RedrivePolicy) : Prop :=
  (rp_retry_delay_ms r <= u64_max)%N /\ (rp_next_attempt_after_ms r <= u64_max)%N.

Definition dead_op_ok (op : DeadOp) : Prop :=
  match op with
  | DoPush event reason handlers redrive =>
      event_ok event /\ utf8_valid (err_message reason) = true /\
      Forall handler_ok handlers /\ redrive_policy_ok redrive
  | DoSetPolicy _ redrive => redrive_policy_ok redrive
  | DoRedriveAt _ next => (next <= u64_max)%N
  | DoRedrive _ | DoReplayAll => True
  end.

(** ** Replay ids *)

Definition replay_name (id : EventId) (n : N) : string :=
  id_str id +:+ ":replay-" +:+ n_to_string n.

Lemma replay_suffix_no_colon n : contains_char ":" ("replay-" +:+ n_to_string n) = false.
Proof.
  rewrite contains_char_append. cbn. apply contains_char_false.
  eapply bytes_all_impl; [|apply n_to_string_digits]. apply ascii_impl. vm_compute. reflexivity.
Qed.

(** Cutting at the last separator. *)
Lemma last_separator c a b p q :
  contains_char c p = false -> contains_char c q = false ->
  a +:+ String c p = b +:+ String c q -> a = b /\ p = q.
Proof.
  intros Hp Hq. revert b. induction a as [|x a IH]; intros [|y b] E; cbn in E.
  - by injection E as ->.
  - injection E as -> E. rewrite E, contains_char_append in Hp. cbn in Hp.
    by rewrite Ascii.eqb_refl, orb_true_r in Hp.
  - injection E as -> E. rewrite <- E, contains_char_append in Hq. cbn in Hq.
    by rewrite Ascii.eqb_refl, orb_true_r in Hq.
  - injection E as -> E. by apply IH in E as [-> ->].
Qed.

Lemma replay_name_inj i j n m : replay_name i n = replay_name j m -> i = j /\ n = m.
Proof.
  intros E. apply last_separator in E as [Ei En]; try apply replay_suffix_no_colon.
  apply (inj (String.append "replay-")), n_to_string_inj in En.
  destruct i, j. cbn in Ei. by subst.
Qed.

(** ** How the directory may change *)

(** No dead letter is lost or replaced, and its counter advances by at most
    [f] of its id; new dead letters start from zero. *)
Record dead_grows (f : EventId -> N) (dir dir' : Dir) : Prop := {
  dg_ok : dead_ok dir';
  dg_keeps : forall d, on_dead dir d -> exists d', on_dead dir' d' /\ dl_event d' = dl_event d /\
    (dl_replay_count d <= dl_replay_count d' <= dl_replay_count d + f (dl_id d))%N;
  dg_new : forall d', on_dead dir' d' ->
    (dl_replay_count d' <= f (dl_id d'))%N \/ exists d, on_dead dir d /\ dl_event d = dl_event d'
}.

(** The event of the [n]-th replay of a dead letter of [dir'], where all
    replays recorded in [dir] came before. *)
Record emits (dir dir' : Dir) (e : Event) : Prop := {
  em_replay : exists d n, on_dead dir' d /\ id_str (event_id e) = replay_name (dl_id d) n /\
    (1 <= n <= dl_replay_count d)%N /\
    (forall d0, on_dead dir d0 -> dl_id d0 = dl_id d -> dl_replay_count d0 < n)%N /\
    event_topic e = event_topic (dl_event d) /\ event_payload e = event_payload (dl_event d) /\
    event_target e = event_target (dl_event d) /\
    causation_id (meta_trace (event_metadata e)) = Some (dl_id d)
}.

Record op_spec (f : EventId -> N) (dir dir' : Dir) (es : list Event) : Prop := {
  os_grows : dead_grows f dir dir';
  os_emits : Forall (emits dir dir') es;
  os_unique : NoDup (event_id <$> es)
}.

Lemma same_event_id d d' : dl_event d = dl_event d' -> dl_id d = dl_id d'.
Proof. unfold dl_id. by intros ->. Qed.

Lemma dead_grows_refl f dir : dead_ok dir -> dead_grows f dir dir.
Proof.
  intros Hd. split; [done| |]; intros d H; [exists d|right; by exists d]. split_and!; [done..|lia|lia].
Qed.

Lemma dead_grows_weaken f g dir dir' :
  (forall i, f i <= g i)%N -> dead_grows f dir dir' -> dead_grows g dir dir'.
Proof.
  intros Hfg [Hd Hk Hn]. split; [done| |]; intros d H.
  - destruct (Hk d H) as (d' & ? & ? & ?). exists d'. specialize (Hfg (dl_id d)).
    split_and!; try done; lia.
  - destruct (Hn d H) as [?|?]; [|by right]. left. etrans; [done|apply Hfg].
Qed.

Lemma dead_grows_trans f g dir1 dir2 dir3 :
  dead_grows f dir1 dir2 -> dead_grows g dir2 dir3 ->
  dead_grows (fun i => f i + g i)%N dir1 dir3.
Proof.
  intros [_ K1 N1] [D2 K2 N2]. split; [done| |].
  - intros d H. destruct (K1 d H) as (d1 & H1 & E1 & L1). destruct (K2 d1 H1) as (d2 & H2 & E2 & L2).
    exists d2. rewrite (same_event_id d1 d E1) in L2. split_and!; [done|congruence|lia..].
  - intros d' H. destruct (N2 d' H) as [?|(d & Hd & E)]; [left; lia|].
    destruct (K2 d Hd) as (d2 & H2 & E2 & L2).
    assert (d2 = d') as -> by (eapply on_dead_unique; [done..|]; apply same_event_id; congruence).
    rewrite (same_event_id d d' E) in L2.
    destruct (N1 d Hd) as [H0|(d0 & ? & ?)]; [|right; exists d0; split; [done|congruence]].
    left. rewrite (same_event_id d d' E) in H0. lia.
Qed.

Lemma emits_later f dir1 dir2 dir3 e :
  emits dir1 dir2 e -> dead_grows f dir2 dir3 -> emits dir1 dir3 e.
Proof.
  intros [(d & n & Hd & Hid & Hn & Hf & Ht & Hp & Hta & Hc)] [_ K _].
  destruct (K d Hd) as (d' & Hd' & E & L). split. exists d', n.
  rewrite (same_event_id d' d E), E. split_and!; try done; lia.
Qed.

Lemma emits_earlier f dir1 dir2 dir3 e :
  dead_grows f dir1 dir2 -> emits dir2 dir3 e -> emits dir1 dir3 e.
Proof.
  intros [_ K _] [(d & n & Hd & Hid & Hn & Hf & Ht)]. split. exists d, n.
  do 3 (split; [done|]). split; [|done].
  intros d0 H0 E0. destruct (K d0 H0) as (d1 & H1 & E1 & L1).
  rewrite <- (same_event_id _ _ E1) in E0. specialize (Hf d1 H1 E0). lia.
Qed.

Lemma emits_distinct dir1 dir2 dir3 e e' :
  emits dir1 dir2 e -> emits dir2 dir3 e' -> event_id e <> event_id e'.
Proof.
  intros [(d & n & Hd & Hid & Hn & _)] [(d' & n' & _ & Hid' & _ & Hf & _)] E.
  rewrite E, Hid' in Hid. apply replay_name_inj in Hid as [Ei ->].
  specialize (Hf d Hd (eq_sym Ei)). lia.
Qed.

Lemma op_spec_quiet f dir dir' : dead_grows f dir dir' -> op_spec f dir dir' [].
Proof. intros H. split; [done|constructor..]. Qed.

Lemma op_spec_seq f g dir1 dir2 dir3 es1 es2 :
  op_spec f dir1 dir2 es1 -> op_spec g dir2 dir3 es2 ->
  op_spec (fun i => f i + g i)%N dir1 dir3 (es1 ++ es2).
Proof.
  intros [G1 E1 U1] [G2 E2 U2]. split; [by eapply dead_grows_trans| |].
  - apply Forall_app. split; [eapply Forall_impl; [exact E1|]|eapply Forall_impl; [exact E2|]]; intros e He.
    + by eapply emits_later.
    + by eapply emits_earlier.
  - rewrite fmap_app. apply NoDup_app. split_and!; [done| |done].
    intros i (e & -> & He)%list_elem_of_fmap (e' & E & He')%list_elem_of_fmap.
    rewrite Forall_forall in E1, E2. by eapply emits_distinct; [apply E1|apply E2|].
Qed.

Lemma op_spec_weaken f g dir dir' es :
  (forall i, f i <= g i)%N -> op_spec f dir dir' es -> op_spec g dir dir' es.
Proof. intros H [G E U]. split; [by eapply dead_grows_weaken|done..]. Qed.

(** ** Transactions of a guarded handle *)

Lemma dead_transaction_guarded {A} s dir a (op : list DeadLetterRecord -> _) w res s' dir' :
  ds_writer s = Some w -> dead_ok dir ->
  dead_transaction (A := A) s dir a op = (res, s', dir') ->
  ds_writer s' = Some w /\
  ((dir' = dir /\ is_ok res = false) \/
   exists rs records, loads dir rs /\ op rs = (res, records, dir')).
Proof.
  intros Hw Hd. unfold dead_transaction. rewrite Hw.
  destruct (load_sorted_ok (ds_root s) dir Hd) as (rs & Hl & Hrs). rewrite Hl.
  destruct (ac_lock a) as [[]|e]; [|intros; simplify_eq; auto].
  destruct (verify_current w (ac_files a)) as [[]|e]; [|intros; simplify_eq; auto].
  destruct (op rs) as [[r records] dir1] eqn:E.
  destruct r; intros; simplify_eq; (split; [done|]); right; by exists rs, records.
Qed.

(** Replacing one record by [d'], a later state of it, or adding a new one. *)
Lemma dead_put_grows f dir d' :
  dead_ok dir -> dead_letter_ok d' ->
  (forall d, on_dead dir d -> dl_id d = dl_id d' -> dl_event d = dl_event d' /\
     (dl_replay_count d <= dl_replay_count d' <= dl_replay_count d + f (dl_id d))%N) ->
  ((dl_replay_count d' <= f (dl_id d'))%N \/ exists d, on_dead dir d /\ dl_event d = dl_event d') ->
  dead_grows f dir (dead_put dir d').
Proof.
  intros Hd Ho Hs Hn. split; [by apply dead_put_ok| |].
  - intros d H. destruct (decide (dl_id d = dl_id d')) as [E|E].
    + exists (stored_dead_letter d'). rewrite on_dead_put by done. destruct (Hs d H E) as [? ?].
      split_and!; [by left|done|cbn; lia..].
    + exists d. rewrite on_dead_put by done. split_and!; [by right|done|lia..].
  - intros q [->|[Hq _]]%on_dead_put; [done|right; by exists q|done].
Qed.

Definition at_id (id : EventId) (i : EventId) : N := if decide (i = id) then 1 else 0.
Definition none (i : EventId) : N := 0.

(** The record a redrive writes. *)
Definition redriven (next : DeadLetterRecord -> N) (d : DeadLetterRecord) : DeadLetterRecord :=
  let d := bump_replay d in
  d <| dl_redrive := MkRedrivePolicy (rp_retry_delay_ms (dl_redrive d)) (next d) |>.

Lemma redriven_count next d :
  (dl_replay_count d + 1 <= usize_max)%N ->
  dl_replay_count (redriven next d) = (dl_replay_count d + 1)%N.
Proof. intros H. cbn. apply wrapping_add_small. lia. Qed.

Lemma redriven_ok next d :
  dead_letter_ok d -> (forall q, next q <= u64_max)%N -> (dl_replay_count d + 1 <= usize_max)%N ->
  dead_letter_ok (redriven next d).
Proof.
  intros [H1 H2 _ H4 _ H6 H7] Hn Hc.
  split; [exact H1|exact H2| |exact H4|exact (Hn _)|exact H6|exact H7].
  rewrite redriven_count by exact Hc. exact Hc.
Qed.

Lemma replay_event_emits next now d e :
  replay_event_for_publish now (redriven next d) = Ok e ->
  id_str (event_id e) = replay_name (dl_id d) (dl_replay_count (redriven next d)) /\
  event_topic e = event_topic (dl_event d) /\ event_payload e = event_payload (dl_event d) /\
  event_target e = event_target (dl_event d) /\
  causation_id (meta_trace (event_metadata e)) = Some (dl_id d).
Proof.
  unfold replay_event_for_publish. destruct (id_parse _ _) as [i|] eqn:E; [|done].
  apply id_parse_Ok in E as [_ ->]. intros [= <-]. done.
Qed.

Lemma redrive_spec s dir a id next w res s' dir' :
  ds_writer s = Some w -> dead_ok dir -> (forall q, next q <= u64_max)%N ->
  (forall d, on_dead dir d -> dl_id d = id -> dl_replay_count d + 1 <= usize_max)%N ->
  redrive_for_publish_with_next s dir a id next = (res, s', dir') ->
  ds_writer s' = Some w /\ op_spec (at_id id) dir dir' (emitted res (fun e => [e])).
Proof.
  intros Hw Hd Hnext Hb Hrun. apply (dead_transaction_guarded _ _ _ _ w) in Hrun as [Hw' Hrun]; [|done..].
  split; [done|]. destruct Hrun as [[-> Hres]|(rs & records & Hrs & Hop)].
  { destruct res; [done|]. by apply op_spec_quiet, dead_grows_refl. }
  unfold redrive_in in Hop. pose proof (loads_find dir rs id Hrs) as Hf.
  destruct (list_find _ rs) as [[i d]|].
  2: { simplify_eq. by apply op_spec_quiet, dead_grows_refl. }
  destruct Hf as (_ & Hon & Hid). specialize (Hb d Hon Hid). fold (redriven next d) in Hop.
  pose proof Hon as [[Hok _] _]. pose proof (redriven_ok next d Hok Hnext Hb) as Hok'.
  pose proof (redriven_count next d Hb) as Hc.
  destruct (replay_event_for_publish (ac_now a) (redriven next d)) as [e|err] eqn:Ee.
  2: { simplify_eq. by apply op_spec_quiet, dead_grows_refl. }
  assert (Hg : dead_grows (at_id id) dir (dead_put dir (redriven next d))).
  { apply dead_put_grows; [done..| |right; by exists d].
    intros q Hq Eq. assert (q = d) as -> by (by eapply on_dead_unique).
    unfold at_id. rewrite decide_True by done. split; [done|]. lia. }
  destruct (persist_dead_letter _ _ _ _) as [r dir1] eqn:Ep.
  apply persist_dead_letter_cases in Ep as [->|[-> Hr]].
  2: { destruct r; [done|]. simplify_eq. by apply op_spec_quiet, dead_grows_refl. }
  destruct r; simplify_eq; [|by apply op_spec_quiet].
  split; [done| |apply NoDup_singleton]. apply Forall_singleton. split.
  exists (stored_dead_letter (redriven next d)), (dl_replay_count (redriven next d)).
  apply replay_event_emits in Ee as (Hi & He). split; [by apply on_dead_put; [|left]|].
  split; [done|]. split; [split; [lia|done]|]. split; [|done].
  intros d0 H0 E0. assert (d0 = d) as -> by (by eapply on_dead_unique). lia.
Qed.

Lemma push_spec s dir a event reason handlers redrive w :
  ds_writer s = Some w -> dead_ok dir -> dead_op_ok (DoPush event reason handlers redrive) ->
  dead_grows none dir (push_with_handlers_and_redrive s dir a event reason handlers redrive).2.
Proof.
  intros Hw Hd (Hev & Hmsg & Hh & Hdel & Hnext).
  destruct (push_with_handlers_and_redrive _ _ _ _ _ _ _) as [[res s'] dir'] eqn:Hrun.
  apply (dead_transaction_guarded _ _ _ _ w) in Hrun as [_ Hrun]; [|done..]. cbn [snd].
  destruct Hrun as [[-> _]|(rs & records & [_ Hrs] & Hop)]; [by apply dead_grows_refl|].
  unfold push_in in Hop. destruct (existsb _ rs) eqn:Ex.
  { simplify_eq. by apply dead_grows_refl. }
  unfold with_replay_handlers_and_redrive in Hop.
  destruct (validate_replay_handlers handlers) as [[]|] eqn:Ev.
  2: { simplify_eq. by apply dead_grows_refl. }
  unfold validate_replay_handlers in Ev. apply reject_Ok in Ev as [Hn%N.ltb_ge _].
  destruct (persist_dead_letter _ _ _ _) as [r dir1] eqn:Ep.
  apply persist_dead_letter_cases in Ep as [->|[-> Hr]].
  2: { destruct r; [done|]. simplify_eq. by apply dead_grows_refl. }
  assert (dir' = dead_put dir (MkDeadLetter event reason 0 redrive handlers)) as ->
    by (by destruct r; simplify_eq).
  apply dead_put_grows; [done| |  |by left].
  - split; [exact Hev|exact Hmsg|apply N.le_0_l|exact Hdel|exact Hnext|exact Hh|exact Hn].
  - intros q Hq E. exfalso. apply not_true_iff_false in Ex. apply Ex, existsb_exists. exists q.
    split; [by apply list_elem_of_In, Hrs|]. by apply bool_decide_eq_true_2.
Qed.

Lemma set_policy_spec s dir a id redrive w :
  ds_writer s = Some w -> dead_ok dir -> redrive_policy_ok redrive ->
  dead_grows none dir (set_redrive_policy s dir a id redrive).2.
Proof.
  intros Hw Hd [Hdel Hnext].
  destruct (set_redrive_policy _ _ _ _ _) as [[res s'] dir'] eqn:Hrun.
  apply (dead_transaction_guarded _ _ _ _ w) in Hrun as [_ Hrun]; [|done..]. cbn [snd].
  destruct Hrun as [[-> _]|(rs & records & Hrs & Hop)]; [by apply dead_grows_refl|].
  unfold set_redrive_policy_in in Hop. pose proof (loads_find dir rs id Hrs) as Hf.
  destruct (list_find _ rs) as [[i d]|].
  2: { simplify_eq. by apply dead_grows_refl. }
  destruct Hf as (_ & Hon & Hid). destruct (persist_dead_letter _ _ _ _) as [r dir1] eqn:Ep.
  apply persist_dead_letter_cases in Ep as [->|[-> Hr]].
  2: { destruct r; [done|]. simplify_eq. by apply dead_grows_refl. }
  assert (dir' = dead_put dir (d <| dl_redrive := redrive |>)) as -> by (by destruct r; simplify_eq).
  pose proof Hon as [[[H1 H2 H3 _ _ H6 H7] _] _].
  apply dead_put_grows; [done| | |right; by exists d].
  { split; [exact H1|exact H2|exact H3|exact Hdel|exact Hnext|exact H6|exact H7]. }
  intros q Hq E. assert (q = d) as -> by (by eapply on_dead_unique). cbn. split; [done|lia].
Qed.

Definition in_list (ids : list EventId) (i : EventId) : N := if decide (i ∈ ids) then 1 else 0.

Lemma default_next_bound q : (default_next_attempt q <= u64_max)%N.
Proof. apply N.le_min_l. Qed.

Lemma redrive_each_spec env w ids : forall s dir index res s' dir',
  ds_writer s = Some w -> dead_ok dir -> NoDup ids ->
  (forall d, on_dead dir d -> dl_id d ∈ ids -> dl_replay_count d + 1 <= usize_max)%N ->
  redrive_each s dir env index ids = (res, s', dir') ->
  op_spec (in_list ids) dir dir' (emitted res id).
Proof.
  induction ids as [|i ids IH]; intros s dir index res s' dir' Hw Hd Hn Hb Hrun.
  { cbn in Hrun. simplify_eq. by apply op_spec_quiet, dead_grows_refl. }
  apply NoDup_cons in Hn as [Hi Hn]. cbn [redrive_each] in Hrun.
  destruct (redrive_for_publish s dir (env index) i) as [[r s1] dir1] eqn:E1.
  apply (redrive_spec _ _ _ _ _ w) in E1 as [Hw1 H1]; [|done|done|apply default_next_bound|].
  2: { intros d Hd' <-. apply Hb; [done|left]. }
  pose proof (dg_ok _ _ _ (os_grows _ _ _ _ H1)) as Hd1.
  assert (Hb1 : forall d, on_dead dir1 d -> dl_id d ∈ ids -> (dl_replay_count d + 1 <= usize_max)%N).
  { intros d Hd' Hin. destruct (dg_new _ _ _ (os_grows _ _ _ _ H1) d Hd') as [H0|(q & Hq & E)].
    - unfold at_id in H0. rewrite decide_False in H0 by congruence. unfold usize_max, u64_max. lia.
    - destruct (dg_keeps _ _ _ (os_grows _ _ _ _ H1) q Hq) as (q' & Hq' & Eq' & Hc).
      assert (q' = d) as -> by (eapply on_dead_unique; [done..|]; apply same_event_id; congruence).
      rewrite <- (same_event_id q d E) in Hin. specialize (Hb q Hq). unfold at_id in Hc.
      rewrite decide_False in Hc by congruence. specialize (Hb ltac:(by right)). lia. }
  assert (Hweak : forall j, (at_id i j + in_list ids j <= in_list (i :: ids) j)%N).
  { intros j. unfold at_id, in_list. pose proof (elem_of_cons ids j i) as He.
    repeat case_decide; subst; try lia; naive_solver. }
  destruct r as [e|err].
  - destruct (redrive_each s1 dir1 env (S index) ids) as [[others s2] dir2] eqn:E2.
    apply IH in E2; [|done..]. simplify_eq. eapply op_spec_weaken; [exact Hweak|].
    pose proof (op_spec_seq _ _ _ _ _ _ _ H1 E2) as Hs.
    destruct others; [done|]. by apply op_spec_quiet, Hs.
  - simplify_eq. apply op_spec_quiet. eapply dead_grows_weaken; [|apply H1].
    intros j. specialize (Hweak j). lia.
Qed.

Definition one (i : EventId) : N := 1.

Lemma run_dead_op_spec s dir env op w :
  ds_writer s = Some w -> dead_ok dir -> dead_op_ok op ->
  (forall d, on_dead dir d -> dl_replay_count d + 1 <= usize_max)%N ->
  op_spec one dir (run_dead_op s dir env op).2 (run_dead_op s dir env op).1.
Proof.
  intros Hw Hd Hop Hb. destruct op as [event reason handlers redrive|id redrive|id|id next|];
    cbn [run_dead_op].
  - apply op_spec_quiet. eapply dead_grows_weaken; [|by eapply push_spec]. intros i. apply N.le_0_l.
  - apply op_spec_quiet. eapply dead_grows_weaken; [|by eapply set_policy_spec]. intros i. apply N.le_0_l.
  - destruct (redrive_for_publish _ _ _ _) as [[res s'] dir'] eqn:E.
    apply (redrive_spec _ _ _ _ _ w) in E as [_ E]; [|done|done|apply default_next_bound|intros; by apply Hb].
    eapply op_spec_weaken; [|exact E]. intros i. unfold at_id, one. case_decide; lia.
  - destruct (redrive_for_publish_at _ _ _ _ _) as [[res s'] dir'] eqn:E.
    apply (redrive_spec _ _ _ _ _ w) in E as [_ E]; [|done|done|intros; exact Hop|intros; by apply Hb].
    eapply op_spec_weaken; [|exact E]. intros i. unfold at_id, one. case_decide; lia.
  - unfold dead_replay_all_for_publish.
    destruct (dead_transaction s dir (env 0) _) as [[r s1] dir1] eqn:E1.
    apply (dead_transaction_guarded _ _ _ _ w) in E1 as [Hw1 H1]; [|done..].
    destruct H1 as [[-> Hr]|(rs & records & [Hnd Hrs] & Hi)].
    { destruct r; [done|]. by apply op_spec_quiet, dead_grows_refl. }
    simplify_eq. destruct (redrive_each _ _ _ _ _) as [[res s'] dir'] eqn:E2.
    apply (redrive_each_spec env w) in E2; [|done|done|done|intros; by apply Hb].
    eapply op_spec_weaken; [|exact E2]. intros i. unfold in_list, one. case_decide; lia.
Qed.

Definition turn_ok (turn : FileSystemDeadLetterStore * (nat -> Access) * DeadOp) : Prop :=
  is_Some (ds_writer turn.1.1) /\ dead_op_ok turn.2.

Lemma counters_bounded (f : EventId -> N) k dir dir' :
  dead_grows f dir dir' -> (forall i, f i <= 1)%N -> (k + 1 <= usize_max)%N ->
  (forall d, on_dead dir d -> dl_replay_count d + (k + 1) <= usize_max)%N ->
  forall d, on_dead dir' d -> (dl_replay_count d + k <= usize_max)%N.
Proof.
  intros [_ K Nw] Hf Hk Hb d Hd. pose proof (Hf (dl_id d)) as Hfd.
  destruct (Nw d Hd) as [H0|(q & Hq & E)]; [lia|].
  destruct (K q Hq) as (q' & Hq' & Eq' & Hc).
  assert (q' = d) as -> by (eapply on_dead_unique; [done..|]; apply same_event_id; congruence).
  pose proof (Hf (dl_id q)) as Hfq. specialize (Hb q Hq). lia.
Qed.

Lemma run_dead_ops_spec turns : forall dir,
  dead_ok dir -> Forall turn_ok turns -> (len turns <= usize_max)%N ->
  (forall d, on_dead dir d -> dl_replay_count d + len turns <= usize_max)%N ->
  op_spec (fun _ => len turns) dir (run_dead_ops dir turns).2 (run_dead_ops dir turns).1.
Proof.
  induction turns as [|[[s env] op] turns IH]; intros dir Hd Ht Hl Hb; cbn [run_dead_ops].
  { by apply op_spec_quiet, dead_grows_refl. }
  inversion Ht as [|? ? [[w Hw] Hop] Ht']; subst. cbn [fst snd] in Hw, Hop.
  assert (Hlen : len ((s, env, op) :: turns) = (len turns + 1)%N) by (unfold len; cbn; lia).
  rewrite Hlen in *.
  pose proof (run_dead_op_spec s dir env op w Hw Hd Hop) as H1.
  destruct (run_dead_op s dir env op) as [es dir1]. cbn [fst snd] in H1.
  specialize (H1 ltac:(intros d Hd'; specialize (Hb d Hd'); lia)).
  pose proof (os_grows _ _ _ _ H1) as G1.
  pose proof (IH dir1 (dg_ok _ _ _ G1) Ht' ltac:(lia)
    (counters_bounded one (len turns) dir dir1 G1 (fun _ => N.le_refl 1) Hl Hb)) as H2.
  destruct (run_dead_ops dir1 turns) as [others dir2]. cbn [fst snd] in *.
  eapply op_spec_weaken; [|by eapply op_spec_seq]. intros i. unfold one. lia.
Qed.

(** Replay ids are never given out twice.  Let any handles that hold a
    runtime writer take turns on the dead-letter directory, pushing dead
    letters, changing redrive policies, redriving single ones or replaying
    all, under every outcome of locks, generation checks and writes (also
    writes that fail after they took effect).  Then the events handed out
    have pairwise different ids; each is the [n]-th replay of a dead letter
    the directory still holds, with [n] at most its counter, and keeps its
    topic, payload and target with the dead letter as its cause.  No dead
    letter is lost. *)
Theorem redrive_ids_unique dir turns events dir' :
  dead_ok dir -> Forall turn_ok turns -> (len turns <= usize_max)%N ->
  (forall d, on_dead dir d -> dl_replay_count d + len turns <= usize_max)%N ->
  run_dead_ops dir turns = (events, dir') ->
  NoDup (event_id <$> events) /\ Forall (emits dir dir') events /\
  forall d, on_dead dir d -> exists d', on_dead dir' d' /\ dl_event d' = dl_event d.
Proof.
  intros Hd Ht Hl Hb Hrun. pose proof (run_dead_ops_spec turns dir Hd Ht Hl Hb) as [G E U].
  rewrite Hrun in G, E, U. split_and!; try done.
  intros d Hon. destruct (dg_keeps _ _ _ G d Hon) as (d' & ? & ? & _). by exists d'.
Qed.

(** ** A writer and its accesses, for concrete runs *)

Definition sample_layout : DurableBackendLayout := layout_from_manifest "r" "e" "s" "t".
Definition sample_acquired : Res DurableWriterGuard * Files :=
  writer_acquire sample_layout ∅ (Ok tt) 7 1 0 WriteOk WriteOk.
Definition sample_store (records : list DeadLetterRecord) : FileSystemDeadLetterStore :=
  MkDeadStore (dead_root sample_layout) records (ok sample_acquired.1).
Definition sample_access (o : WriteOutcome) (_ : nat) : Access :=
  MkAccess sample_acquired.2 (Ok tt) o 1700000001000000000.

(** The second handle still has an empty cache; the first redrive is
    persisted but reported as failed, so its id is skipped. *)
Definition sample_turns : list (FileSystemDeadLetterStore * (nat -> Access) * DeadOp) :=
  [(sample_store [], sample_access WriteOk, DoPush (sample_event "e1") sample_error [] redrive_default);
   (sample_store [], sample_access (WriteUnsynced "sync"), DoRedrive (MkId "e1"));
   (sample_store [], sample_access WriteOk, DoRedriveAt (MkId "e1") 5);
   (sample_store [], sample_access WriteOk, DoReplayAll)].

Lemma dead_ok_empty : dead_ok ∅.
Proof. intros name text H. by rewrite lookup_empty in H. Qed.
Lemma on_dead_empty d : ~ on_dead ∅ d.
Proof. intros [_ H]. by rewrite lookup_empty in H. Qed.

Lemma redrive_ids_unique_witness :
  NoDup (event_id <$> (run_dead_ops ∅ sample_turns).1) /\
  (id_str ∘ event_id) <$> (run_dead_ops ∅ sample_turns).1 = ["e1:replay-2"; "e1:replay-3"].
Proof.
  split; [|vm_compute; reflexivity].
  apply (redrive_ids_unique ∅ sample_turns _ (run_dead_ops ∅ sample_turns).2).
  - apply dead_ok_empty.
  - assert (is_Some (ds_writer (sample_store []))) by (vm_compute; eexists; reflexivity).
    unfold sample_turns. rewrite !Forall_cons. unfold turn_ok. cbn [fst snd dead_op_ok].
    split_and!; try assumption; [by apply sample_event_ok|reflexivity|constructor|
      split; vm_compute; discriminate|exact I|vm_compute; discriminate|exact I|constructor].
  - vm_compute; discriminate.
  - intros d Hd. by apply on_dead_empty in Hd.
  - apply surjective_pairing.
Defined.
