(* ===== verification/DurableBus.v ===== *)
(** * The durable event bus (crates/eva-eventbus/src/durable.rs)

    The bus over the file event log and the dead-letter store.  [ldir] and
    [ddir] are the two directories; every access names the outcome of its
    locks and writes.  The composition theorem: redriving a dead letter
    publishes its next replay exactly once. *)

From Stdlib Require Import Ascii.
From stdpp Require Import base numbers strings gmap list.
From S2P Require Import Prelude RustStr Error Ids Topic Event EventCodec Durable EventLog.
From S2P Require Import EventBus DeadLetterCodec DeadLetterStore DeadLetterSafety.

Record DurableEventBus := MkDurableBus {
  db_log : FileSystemEventLog;
  db_dead : FileSystemDeadLetterStore;
  db_receipts : list EventReceipt
}.

(** The lock of the log (with its generation check) and how its write ends. *)
Record LogAccess := MkLogAccess { la_lock : Res unit; la_write : WriteOutcome }.

(** [open], [open_with_writer] and [open_read_only], given the two opened parts. *)
Definition durable_bus_open (log : Res FileSystemEventLog) (dead : Res FileSystemDeadLetterStore) :
    Res DurableEventBus :=
  let? log := log in let? dead := dead in Ok (MkDurableBus log dead []).

Definition due_dead_letters (b : DurableEventBus) (ready_at_ms : N) : list DeadLetterRecord :=
  List.filter (fun d => (rp_next_attempt_after_ms (dl_redrive d) <=? ready_at_ms)%N)
    (ds_records (db_dead b)).

Definition event_log_record (b : DurableEventBus) (id : EventId) : option EventLogRecord :=
  List.find (fun r => bool_decide (record_id r = id)) (fl_records (db_log b)).
Definition event_log_status (b : DurableEventBus) (id : EventId) : option EventLogStatus :=
  log_status <$> event_log_record b id.

Definition latest_replay_record (b : DurableEventBus) (original : EventId) : option EventLogRecord :=
  List.find (fun r => bool_decide (is_Some (strip_prefix (id_str original +:+ ":replay-")
                                              (id_str (record_id r)))))
    (rev (fl_records (db_log b))).

Definition durable_publish (b : DurableEventBus) (ldir : Dir) (la : LogAccess) (event : Event) :
    Res EventReceipt * DurableEventBus * Dir :=
  match fs_append (db_log b) ldir (la_lock la) (la_write la) event with
  | (Err e, log, ldir) => (Err e, MkDurableBus log (db_dead b) (db_receipts b), ldir)
  | (Ok record, log, ldir) =>
      let receipt := receipt_from_record record in
      (Ok receipt, MkDurableBus log (db_dead b) (db_receipts b ++ [receipt]), ldir)
  end.

Definition durable_ack (b : DurableEventBus) (ldir : Dir) (la : LogAccess) (id : EventId)
    (consumer : AgentId) : Res EventLogRecord * DurableEventBus * Dir :=
  let through := let '(res, log, ldir) := fs_ack (db_log b) ldir (la_lock la) (la_write la) id consumer in
                 (res, MkDurableBus log (db_dead b) (db_receipts b), ldir) in
  match event_log_record b id with
  | Some record =>
      if bool_decide (log_status record = LogAcked) then
        if bool_decide (log_consumer record = Some consumer) then (Ok record, b, ldir)
        else (Err (conflict "acked event cannot be reassigned to another consumer"
                     ⊕ ("event_id", id_str id) ⊕ ("consumer", id_str consumer)), b, ldir)
      else through
  | None => through
  end.

Definition durable_fail (b : DurableEventBus) (ldir : Dir) (la : LogAccess) (id : EventId)
    (consumer : AgentId) (error : EvaError) : Res EventLogRecord * DurableEventBus * Dir :=
  if bool_decide (event_log_status b id = Some LogAcked) then
    (Err (conflict "acked event cannot transition to failed"
            ⊕ ("event_id", id_str id) ⊕ ("consumer", id_str consumer)), b, ldir)
  else
    let '(res, log, ldir) := fs_fail (db_log b) ldir (la_lock la) (la_write la) id consumer error in
    (res, MkDurableBus log (db_dead b) (db_receipts b), ldir).

(** A store operation run on the bus. *)
Definition on_store {A} (b : DurableEventBus)
    (r : Res A * FileSystemDeadLetterStore * Dir) : Res A * DurableEventBus * Dir :=
  let '(res, dead, ddir) := r in (res, MkDurableBus (db_log b) dead (db_receipts b), ddir).

Definition durable_dead_letter_with_redrive (b : DurableEventBus) (ddir : Dir) (a : Access)
    (event : Event) (reason : EvaError) (redrive : RedrivePolicy) :
    Res DeadLetterRecord * DurableEventBus * Dir :=
  on_store b (push_with_handlers_and_redrive (db_dead b) ddir a event reason [] redrive).

(** [push] uses the default policy. *)
Definition durable_dead_letter (b : DurableEventBus) (ddir : Dir) (a : Access) (event : Event)
    (reason : EvaError) : Res DeadLetterRecord * DurableEventBus * Dir :=
  durable_dead_letter_with_redrive b ddir a event reason redrive_default.

Definition durable_dead_letter_for_handlers_with_redrive (b : DurableEventBus) (ddir : Dir)
    (a : Access) (event : Event) (reason : EvaError) (handlers : list ReplayHandlerBinding)
    (redrive : RedrivePolicy) : Res DeadLetterRecord * DurableEventBus * Dir :=
  match handlers with
  | [] => (Err (invalid_argument "dead-letter replay handler plan cannot be empty"), b, ddir)
  | _ => on_store b (push_with_handlers_and_redrive (db_dead b) ddir a event reason handlers redrive)
  end.

Definition durable_dead_letter_for_handlers (b : DurableEventBus) (ddir : Dir) (a : Access)
    (event : Event) (reason : EvaError) (handlers : list ReplayHandlerBinding) :
    Res DeadLetterRecord * DurableEventBus * Dir :=
  durable_dead_letter_for_handlers_with_redrive b ddir a event reason handlers redrive_default.

Definition set_dead_letter_redrive_policy (b : DurableEventBus) (ddir : Dir) (a : Access)
    (id : EventId) (redrive : RedrivePolicy) : Res DeadLetterRecord * DurableEventBus * Dir :=
  on_store b (set_redrive_policy (db_dead b) ddir a id redrive).

(** [redrive_for_publish(event_id)?] followed by [publish]. *)
Definition publish_redriven (b : DurableEventBus) (ldir : Dir) (la : LogAccess)
    (r : Res Event * FileSystemDeadLetterStore * Dir) :
    Res EventReceipt * DurableEventBus * Dir * Dir :=
  match on_store b r with
  | (Err e, b, ddir) => (Err e, b, ldir, ddir)
  | (Ok event, b, ddir) =>
      let '(res, b, ldir) := durable_publish b ldir la event in (res, b, ldir, ddir)
  end.

Definition redrive_dead_letter (b : DurableEventBus) (ldir ddir : Dir) (a : Access) (la : LogAccess)
    (id : EventId) : Res EventReceipt * DurableEventBus * Dir * Dir :=
  publish_redriven b ldir la (redrive_for_publish (db_dead b) ddir a id).

Definition redrive_dead_letter_at (b : DurableEventBus) (ldir ddir : Dir) (a : Access)
    (la : LogAccess) (id : EventId) (next_attempt_after_ms : N) :
    Res EventReceipt * DurableEventBus * Dir * Dir :=
  publish_redriven b ldir la (redrive_for_publish_at (db_dead b) ddir a id next_attempt_after_ms).

(** [events.into_iter().map(publish).collect()] *)
Fixpoint durable_publish_all (b : DurableEventBus) (ldir : Dir) (las : nat -> LogAccess) (index : nat)
    (events : list Event) : Res (list EventReceipt) * DurableEventBus * Dir :=
  match events with
  | [] => (Ok [], b, ldir)
  | event :: rest =>
      match durable_publish b ldir (las index) event with
      | (Err e, b, ldir) => (Err e, b, ldir)
      | (Ok receipt, b, ldir) =>
          let '(others, b, ldir) := durable_publish_all b ldir las (S index) rest in
          (match others with Ok rs => Ok (receipt :: rs) | Err e => Err e end, b, ldir)
      end
  end.

Definition durable_replay_dead_letters (b : DurableEventBus) (ldir ddir : Dir) (env : nat -> Access)
    (las : nat -> LogAccess) : Res (list EventReceipt) * DurableEventBus * Dir * Dir :=
  match on_store b (dead_replay_all_for_publish (db_dead b) ddir env) with
  | (Err e, b, ddir) => (Err e, b, ldir, ddir)
  | (Ok events, b, ddir) =>
      let '(res, b, ldir) := durable_publish_all b ldir las 0 events in (res, b, ldir, ddir)
  end.

(** ** Redrive and publish together *)

(** The log has no replay of [id] past the [count]-th. *)
Definition replays_behind (rs : list EventLogRecord) (id : EventId) (count : N) : Prop :=
  forall r n, r ∈ rs -> id_str (record_id r) = replay_name id n -> (n <= count)%N.

Lemma replay_event_ok next now d e :
  dead_letter_ok d -> clock_ok now ->
  replay_event_for_publish now (redriven next d) = Ok e -> event_ok e.
Proof.
  intros [[Hid Ht Hta Hp _ _ Hr Hg Hco _] _ _ _ _ _ _] [Hn1 Hn2].
  unfold replay_event_for_publish. destruct (id_parse _ _) as [i|] eqn:E; [|done].
  apply id_parse_Ok in E as [Hv ->]. intros [= <-].
  split; cbn; [exact Hv|exact Ht|exact Hta|exact Hp|exact Hn1|exact Hn2|exact Hr|exact Hg| |exact Hid].
  by destruct (correlation_id _).
Qed.

Lemma redrive_succeeds s ddir a id next w d :
  ds_writer s = Some w -> dead_ok ddir -> on_dead ddir d -> dl_id d = id ->
  ac_lock a = Ok tt -> verify_current w (ac_files a) = Ok tt -> ac_write a = WriteOk ->
  id_valid (replay_id (redriven next d)) = true ->
  exists e s', redrive_for_publish_with_next s ddir a id next =
    (Ok e, s', dead_put ddir (redriven next d)) /\
    replay_event_for_publish (ac_now a) (redriven next d) = Ok e.
Proof.
  intros Hw Hd Hon Hid Hlock Hver Hwrite Hv.
  unfold redrive_for_publish_with_next, dead_transaction. rewrite Hw, Hlock, Hver.
  destruct (load_sorted_ok (ds_root s) ddir Hd) as (rs & -> & Hrs). unfold redrive_in.
  pose proof (loads_find ddir rs id Hrs) as Hf. destruct (list_find _ rs) as [[i q]|].
  2: { by apply Hf in Hon. }
  destruct Hf as (_ & Hq & Hqid). assert (q = d) as -> by (eapply on_dead_unique; [done..|congruence]).
  fold (redriven next d). unfold replay_event_for_publish. rewrite (id_parse_valid KEvent) by done.
  unfold persist_dead_letter. rewrite Hwrite. cbn [atomic_write]. eauto.
Qed.

Lemma append_succeeds l ldir rs e :
  fl_writer l = true -> dir_models ldir rs -> event_ok e -> (last_sequence rs < u64_max)%N ->
  event_id e ∉ record_id <$> rs ->
  exists l' ldir', fs_append l ldir (Ok tt) WriteOk e =
    (Ok (record_appended (last_sequence rs + 1) e), l', ldir') /\
    dir_models ldir' (rs ++ [record_appended (last_sequence rs + 1) e]).
Proof.
  intros Hw Hm He Hs Hn.
  destruct (fs_append l ldir (Ok tt) WriteOk e) as [[res l'] ldir'] eqn:E.
  pose proof (fs_append_outcome _ _ _ _ _ _ _ _ _ Hw Hm He Hs E) as (_ & rs' & Hm' & Ho & _).
  destruct res as [r|err].
  - destruct Ho as (-> & -> & _). eauto.
  - exfalso. unfold fs_append, with_mutation in E. rewrite Hw in E.
    unfold reload_authoritative_records in E. rewrite (load_dir_models _ _ _ Hm) in E.
    unfold fs_append_in in E. cbn -[persist_record contains_event] in E.
    destruct (contains_event rs (event_id e)) eqn:Ec; [|done].
    apply Hn. by apply contains_event_elem.
Qed.

(** Redriving a dead letter publishes its next replay, once.  When the
    log holds no later replay of it and locks, generation check and writes
    succeed, [redrive_dead_letter] appends exactly one record, of the event
    [<id>:replay-<count + 1>], to the log, returns its receipt, stores the
    advanced counter, and leaves the log again without later replays. *)
Theorem redrive_publishes_next_replay b ldir ddir a la rs d w :
  fl_writer (db_log b) = true -> dir_models ldir rs -> (last_sequence rs < u64_max)%N ->
  ds_writer (db_dead b) = Some w -> dead_ok ddir -> on_dead ddir d ->
  (dl_replay_count d + 1 <= usize_max)%N ->
  (str_len (replay_name (dl_id d) (dl_replay_count d + 1)) <= MAX_ID_LEN)%N ->
  replays_behind rs (dl_id d) (dl_replay_count d) -> clock_ok (ac_now a) ->
  ac_lock a = Ok tt -> verify_current w (ac_files a) = Ok tt -> ac_write a = WriteOk ->
  la = MkLogAccess (Ok tt) WriteOk ->
  exists e b' ldir' d',
    redrive_dead_letter b ldir ddir a la (dl_id d) =
      (Ok (receipt_from_record (record_appended (last_sequence rs + 1) e)), b', ldir', dead_put ddir d') /\
    id_str (event_id e) = replay_name (dl_id d) (dl_replay_count d + 1) /\
    event_payload e = event_payload (dl_event d) /\
    dir_models ldir' (rs ++ [record_appended (last_sequence rs + 1) e]) /\
    dl_event d' = dl_event d /\ dl_replay_count d' = (dl_replay_count d + 1)%N /\
    on_dead (dead_put ddir d') (stored_dead_letter d') /\
    replays_behind (rs ++ [record_appended (last_sequence rs + 1) e]) (dl_id d) (dl_replay_count d').
Proof.
  intros Hlw Hm Hseq Hw Hd Hon Hc Hlen Hbehind Hclock Hlock Hver Hwrite ->.
  pose proof (redriven_count default_next_attempt d Hc) as Hcount.
  pose proof Hon as [[Hok _] _].
  assert (Hname : replay_id (redriven default_next_attempt d) =
                  replay_name (dl_id d) (dl_replay_count d + 1)).
  { unfold replay_id. by rewrite Hcount. }
  assert (Hv : id_valid (replay_id (redriven default_next_attempt d)) = true).
  { rewrite replay_id_valid by apply Hok. rewrite Hname. by apply N.leb_le. }
  destruct (redrive_succeeds (db_dead b) ddir a (dl_id d) default_next_attempt w d
    Hw Hd Hon eq_refl Hlock Hver Hwrite Hv) as (e & s' & Hr & He).
  pose proof (replay_event_emits _ _ _ _ He) as (Hid & _ & Hp & _). rewrite Hcount in Hid.
  pose proof (replay_event_ok _ _ _ _ Hok Hclock He) as Heok.
  assert (Hnew : event_id e ∉ record_id <$> rs).
  { intros (r & E & Hin)%list_elem_of_fmap. specialize (Hbehind r (dl_replay_count d + 1)%N Hin).
    rewrite <- E in Hbehind. specialize (Hbehind Hid). lia. }
  destruct (append_succeeds (db_log b) ldir rs e Hlw Hm Heok Hseq Hnew) as (l' & ldir' & Ha & Hm').
  unfold redrive_dead_letter, publish_redriven, redrive_for_publish. rewrite Hr. cbn [on_store].
  unfold durable_publish. cbn [db_log la_lock la_write]. rewrite Ha.
  do 3 eexists. exists (redriven default_next_attempt d).
  split; [reflexivity|]. split; [exact Hid|]. split; [exact Hp|]. split; [exact Hm'|].
  split; [done|]. split; [exact Hcount|]. split.
  { apply on_dead_put; [|by left]. by apply redriven_ok; [|apply default_next_bound|]. }
  rewrite Hcount. intros r n [Hin| ->%list_elem_of_singleton]%elem_of_app Hrn.
  - specialize (Hbehind r n Hin Hrn). lia.
  - change (record_id (record_appended _ e)) with (event_id e) in Hrn. rewrite Hid in Hrn.
    apply replay_name_inj in Hrn as [_ <-]. done.
Qed.

Definition sample_bus : DurableEventBus :=
  MkDurableBus (MkFsLog "r/e/log" 0 [] true) (sample_store []) [].

Lemma sample_dead_letter_ok : dead_letter_ok sample_dead_letter.
Proof.
  split; try (vm_compute; discriminate); [by apply sample_event_ok|reflexivity|]. repeat constructor.
Qed.

(** The fourth replay of a dead letter that was replayed three times. *)
Lemma redrive_publishes_next_replay_witness :
  let ddir := dead_put ∅ sample_dead_letter in
  exists receipt b' ldir' ddir',
    redrive_dead_letter sample_bus ∅ ddir (sample_access WriteOk 0)
      (MkLogAccess (Ok tt) WriteOk) (MkId "e1") = (Ok receipt, b', ldir', ddir') /\
    id_str (rcpt_event_id receipt) = "e1:replay-4".
Proof.
  intros ddir. destruct (ds_writer (sample_store [])) as [w|] eqn:Ew; [|vm_compute in Ew; discriminate].
  destruct (redrive_publishes_next_replay sample_bus ∅ ddir (sample_access WriteOk 0)
    (MkLogAccess (Ok tt) WriteOk) [] (stored_dead_letter sample_dead_letter) w)
    as (e & b' & ldir' & d' & Hr & Hid & _).
  - reflexivity.
  - apply dir_models_empty.
  - reflexivity.
  - exact Ew.
  - apply dead_put_ok; [apply dead_ok_empty|apply sample_dead_letter_ok].
  - apply on_dead_put; [apply sample_dead_letter_ok|by left].
  - vm_compute; discriminate.
  - vm_compute; discriminate.
  - intros r n Hr. by apply elem_of_nil in Hr.
  - split; vm_compute; discriminate.
  - reflexivity.
  - vm_compute in Ew. injection Ew as <-. vm_compute. reflexivity.
  - reflexivity.
  - reflexivity.
  - exists (receipt_from_record (record_appended (last_sequence [] + 1) e)), b', ldir', (dead_put ddir d').
    split; [exact Hr|]. exact Hid.
Defined.
