(* ===== verification/SchedulerRetry.v ===== *)
(** * Retrying dead letters through the scheduler (crates/eva-runtime/src/scheduler_retry.rs)

    One tick looks at every dead letter of the durable bus: it skips the
    ones that are not due, unknown to the log or already handled, redrives
    the others (or takes up the replay that is already in the log), routes
    the replay and reconciles one delivery task per handler binding.  The
    replay is acknowledged when all deliveries succeeded, failed when one
    failed, and left for a later tick otherwise.

    The [OwnedReplayHandler] of the daemon is a parameter with a state of its
    own; of the project configuration the records hold the fields this file
    reads. *)

From Stdlib Require Import Ascii.
From stdpp Require Import base numbers strings gmap list.
From S2P Require Import Prelude RustStr Error Ids Topic Event Scheduler EventCodec Durable.
From S2P Require Import EventLog EventBus DeadLetterCodec DeadLetterStore DeadLetterSafety DurableBus.

(** ** What the tick reads of the configuration *)

Inductive RouteDelivery := RouteFanout | RouteCompete.
Record RouteRule := MkRouteRule {
  rr_pattern : TopicPattern;
  rr_delivery : RouteDelivery;
  rr_agents : list AgentId
}.
Record AgentManifest := MkAgentManifest { am_id : AgentId; am_enabled : bool }.
Record ProjectConfig := MkProjectConfig {
  pc_agents : list AgentManifest;
  pc_routes : list RouteRule
}.

Definition subscription_table (project : ProjectConfig) : SubscriptionTable :=
  (fun route => MkRoutingRule (rr_pattern route)
     (match rr_delivery route with RouteFanout => Fanout | RouteCompete => Compete end)
     (rr_agents route)) <$> pc_routes project.

(** ** Reports *)

Inductive OwnedReplayDeliveryStatus :=
| DeliveryPending (task_id status : string)
| DeliverySucceeded (task_id result_digest : string) (result_size_bytes : N)
| DeliveryFailed (task_id : string) (error : EvaError) (retry_scheduled : bool).

Definition DEFAULT_MAILBOX_CAPACITY : N := 256.
Definition SCHEDULER_RETRY_CONSUMER : string := "scheduler-retry".

Record SchedulerRetryTickOptions := MkTickOptions {
  opt_redrive_ready_at_ms : N;
  opt_mailbox_capacity : N
}.
Definition tick_options_default : SchedulerRetryTickOptions := MkTickOptions 0 DEFAULT_MAILBOX_CAPACITY.

Record SchedulerRetryDispatchedEvent := MkDispatched {
  dis_event_id : string;
  dis_replay_event_id : string;
  dis_sequence : N;
  dis_topic : string;
  dis_ack_consumer : string;
  dis_deliveries : list DeliveryPlan
}.
Record SchedulerRetryFailedEvent := MkFailedRetry {
  fre_event_id : string;
  fre_replay_event_id : string;
  fre_sequence : N;
  fre_reason_kind : string;
  fre_reason : string
}.
Record SchedulerRetrySkippedEvent := MkSkipped { ski_event_id : string; ski_reason : string }.

Record SchedulerRetryTickReport := MkTickReport {
  rep_scanned_dead_letters : N;
  rep_due_dead_letters : N;
  rep_dispatched_events : list SchedulerRetryDispatchedEvent;
  rep_failed_events : list SchedulerRetryFailedEvent;
  rep_skipped_events : list SchedulerRetrySkippedEvent;
  rep_audit : list string
}.
#[export] Instance SchedulerRetryTickReport_eta : Eta SchedulerRetryTickReport := fun r =>
  MkTickReport (rep_scanned_dead_letters r) (rep_due_dead_letters r) (rep_dispatched_events r)
    (rep_failed_events r) (rep_skipped_events r) (rep_audit r).

Definition audit (r : SchedulerRetryTickReport) (line : string) : SchedulerRetryTickReport :=
  r <| rep_audit := rep_audit r ++ [line] |>.

Definition skip_retry (r : SchedulerRetryTickReport) (id : EventId) (reason : string) :
    SchedulerRetryTickReport :=
  r <| rep_skipped_events := rep_skipped_events r ++ [MkSkipped (id_str id) reason] |>.

(** ** Consumers and bindings *)

Definition scheduler_retry_consumer : Res AgentId := id_parse KAgent SCHEDULER_RETRY_CONSUMER.

Definition replay_ack_consumer (bindings : list ReplayHandlerBinding) : Res AgentId :=
  match bindings with
  | [binding] => Ok (rh_agent_id binding)
  | _ => scheduler_retry_consumer
  end.

Definition replay_failure_consumer (bindings : list ReplayHandlerBinding)
    (failed_agent_id : option string) : Res AgentId :=
  match failed_agent_id with
  | Some agent_id =>
      match List.find (fun b => String.eqb (id_str (rh_agent_id b)) agent_id) bindings with
      | Some binding => Ok (rh_agent_id binding)
      | None => replay_ack_consumer bindings
      end
  | None => replay_ack_consumer bindings
  end.

Definition agent_enabled (project : ProjectConfig) (id : AgentId) : bool :=
  existsb (fun agent => am_enabled agent && bool_decide (am_id agent = id)) (pc_agents project).

(** The [zip] loop of [validate_replay_bindings]. *)
Fixpoint validate_pairs (project : ProjectConfig) (index : N)
    (pairs : list (ReplayHandlerBinding * DeliveryPlan)) : Res unit :=
  match pairs with
  | [] => Ok tt
  | (binding, delivery) :: rest =>
      reject negb (bool_decide (rh_agent_id binding = plan_agent delivery)) with
        conflict "dead-letter replay handler owner does not match scheduler delivery"
          ⊕ ("delivery_index", n_to_string index)
          ⊕ ("binding_agent_id", id_str (rh_agent_id binding))
          ⊕ ("delivery_agent_id", id_str (plan_agent delivery)) else
      reject negb (agent_enabled project (plan_agent delivery)) with
        not_found "dead-letter replay handler Agent is not enabled"
          ⊕ ("agent_id", id_str (plan_agent delivery)) else
      validate_pairs project (index + 1) rest
  end.

Definition validate_replay_bindings (project : ProjectConfig) (bindings : list ReplayHandlerBinding)
    (deliveries : list DeliveryPlan) (max_deliveries : N) : Res unit :=
  reject match bindings with [] => true | _ => false end with
    not_found "dead-letter replay handler binding is missing" else
  reject negb (len bindings =? len deliveries)%N with
    conflict "dead-letter replay handler plan does not match scheduler route"
      ⊕ ("binding_count", n_to_string (len bindings))
      ⊕ ("delivery_count", n_to_string (len deliveries)) else
  reject (max_deliveries <? len deliveries)%N with
    conflict "dead-letter replay handler plan exceeds the configured delivery bound"
      ⊕ ("delivery_count", n_to_string (len deliveries))
      ⊕ ("max_deliveries", n_to_string max_deliveries) else
  validate_pairs project 0 (zip bindings deliveries).

Definition retry_replay_event (b : DurableEventBus) (id : EventId) : Res Event :=
  ok_or (log_event <$> event_log_record b id)
    (internal "redriven event was not persisted before scheduler dispatch"
       ⊕ ("event_id", id_str id)).

(** ** The tick *)

Inductive ReplayPlanStatus :=
| PlanPending
| PlanSucceeded (deliveries : list DeliveryPlan)
| PlanFailed (error : EvaError).

(** What the accesses of one iteration meet. *)
Record TickAccess := MkTickAccess {
  ta_redrive : Access;
  ta_publish : LogAccess;
  ta_finish : LogAccess;
  ta_policy : Access
}.

Definition bool_text (b : bool) : string := if b then "true" else "false".

Section Tick.
Context {H : Type}.
(** [reconcile_replay_delivery(binding, event, delivery_index, retry_backoff_ms, observed_at_ms)] *)
Variable handler : ReplayHandlerBinding -> Event -> N -> N -> N -> H ->
  Res OwnedReplayDeliveryStatus * H.
Variable project : ProjectConfig.
Variable options : SchedulerRetryTickOptions.

(** The loop over the bindings: whether one is pending, the first failure,
    and the audit lines, which are kept when the loop ends in an error. *)
Fixpoint reconcile_bindings (event : Event) (retry_delay_ms : N) (index : N)
    (bindings : list ReplayHandlerBinding) (pending : bool) (failure : option EvaError)
    (lines : list string) (h : H) : Res (bool * option EvaError) * list string * H :=
  match bindings with
  | [] => (Ok (pending, failure), lines, h)
  | binding :: rest =>
      match handler binding event index retry_delay_ms (opt_redrive_ready_at_ms options) h with
      | (Err error, h) =>
          (Err (error ⊕ ("handler_kind", rh_handler_kind binding)
                  ⊕ ("agent_id", id_str (rh_agent_id binding))
                  ⊕ ("delivery_index", n_to_string index)), lines, h)
      | (Ok (DeliveryPending task_id status), h) =>
          reconcile_bindings event retry_delay_ms (index + 1) rest true failure
            (lines ++ ["scheduler.retry:delivery_pending:" +:+ n_to_string index +:+ ":" +:+ task_id
                         +:+ ":" +:+ status]) h
      | (Ok (DeliverySucceeded task_id result_digest result_size_bytes), h) =>
          reconcile_bindings event retry_delay_ms (index + 1) rest pending failure
            (lines ++ ["scheduler.retry:delivery_succeeded:" +:+ n_to_string index +:+ ":" +:+ task_id
                         +:+ ":" +:+ result_digest +:+ ":" +:+ n_to_string result_size_bytes]) h
      | (Ok (DeliveryFailed task_id error retry_scheduled), h) =>
          reconcile_bindings event retry_delay_ms (index + 1) rest pending
            (match failure with
             | Some _ => failure
             | None => Some (error ⊕ ("agent_id", id_str (rh_agent_id binding))
                               ⊕ ("delivery_index", n_to_string index))
             end)
            (lines ++ ["scheduler.retry:delivery_failed:" +:+ n_to_string index +:+ ":" +:+ task_id
                         +:+ ":" +:+ error_kind_str (err_kind error) +:+ ":"
                         +:+ bool_text retry_scheduled]) h
      end
  end.

Definition reconcile_replay_plan (d : DeadLetterRecord) (event : Event) (h : H) :
    Res ReplayPlanStatus * list string * H :=
  match (let? deliveries := route (subscription_table project) event in
         validate_replay_bindings project (dl_replay_handlers d) deliveries
           (opt_mailbox_capacity options) >>? Ok deliveries) with
  | Err e => (Err e, [], h)
  | Ok deliveries =>
      match reconcile_bindings event (rp_retry_delay_ms (dl_redrive d)) 0 (dl_replay_handlers d)
              false None [] h with
      | (Err e, lines, h) => (Err e, lines, h)
      | (Ok (_, Some error), lines, h) => (Ok (PlanFailed error), lines, h)
      | (Ok (true, None), lines, h) => (Ok PlanPending, lines, h)
      | (Ok (false, None), lines, h) => (Ok (PlanSucceeded deliveries), lines, h)
      end
  end.

Record TickState := MkTickState {
  tk_bus : DurableEventBus;
  tk_ldir : Dir;
  tk_ddir : Dir;
  tk_handler : H;
  tk_report : SchedulerRetryTickReport
}.
#[local] Instance TickState_eta : Eta TickState := fun s =>
  MkTickState (tk_bus s) (tk_ldir s) (tk_ddir s) (tk_handler s) (tk_report s).

Definition report_with (s : TickState) (f : SchedulerRetryTickReport -> SchedulerRetryTickReport) :
    TickState := s <| tk_report := f (tk_report s) |>.

(** The arm for a complete plan. *)
Definition finish_succeeded (a : TickAccess) (s : TickState) (d : DeadLetterRecord)
    (receipt : EventReceipt) (deliveries : list DeliveryPlan) : Res unit * TickState :=
  match replay_ack_consumer (dl_replay_handlers d) with
  | Err e => (Err e, s)
  | Ok ack_consumer =>
      let '(res, bus, ldir) :=
        durable_ack (tk_bus s) (tk_ldir s) (ta_finish a) (rcpt_event_id receipt) ack_consumer in
      let s := s <| tk_bus := bus |> <| tk_ldir := ldir |> in
      match res with
      | Err e => (Err e, s)
      | Ok _ =>
          (Ok tt, report_with s (fun r =>
             let r := audit r ("scheduler.retry:acked:" +:+ id_str (rcpt_event_id receipt)) in
             r <| rep_dispatched_events := rep_dispatched_events r ++
                    [MkDispatched (id_str (dl_id d)) (id_str (rcpt_event_id receipt))
                       (rcpt_sequence receipt) (topic_path (rcpt_topic receipt))
                       (id_str ack_consumer) deliveries] |>))
      end
  end.

Definition error_agent (error : EvaError) : option string :=
  snd <$> List.find (fun kv => String.eqb kv.1 "agent_id") (err_context error).

(** The arm for a failed plan or a failed reconciliation. *)
Definition finish_failed (a : TickAccess) (s : TickState) (d : DeadLetterRecord)
    (receipt : EventReceipt) (error : EvaError) : Res unit * TickState :=
  match replay_failure_consumer (dl_replay_handlers d) (error_agent error) with
  | Err e => (Err e, s)
  | Ok failure_consumer =>
      let '(res, bus, ldir) :=
        durable_fail (tk_bus s) (tk_ldir s) (ta_finish a) (rcpt_event_id receipt) failure_consumer error in
      let s := s <| tk_bus := bus |> <| tk_ldir := ldir |> in
      match res with
      | Err e => (Err e, s)
      | Ok _ =>
          let delay := rp_retry_delay_ms (dl_redrive d) in
          let '(res, s) :=
            if (0 <? delay)%N then
              let '(res, bus, ddir) :=
                set_dead_letter_redrive_policy (tk_bus s) (tk_ddir s) (ta_policy a) (dl_id d)
                  (MkRedrivePolicy delay
                     (saturating_add u64_max (opt_redrive_ready_at_ms options) delay)) in
              (result_map (fun _ => tt) res, s <| tk_bus := bus |> <| tk_ddir := ddir |>)
            else (Ok tt, s) in
          match res with
          | Err e => (Err e, s)
          | Ok _ =>
              (Ok tt, report_with s (fun r =>
                 let r := audit r ("scheduler.retry:failed:" +:+ id_str (rcpt_event_id receipt)) in
                 r <| rep_failed_events := rep_failed_events r ++
                        [MkFailedRetry (id_str (dl_id d)) (id_str (rcpt_event_id receipt))
                           (rcpt_sequence receipt) (error_kind_str (err_kind error))
                           (err_message error)] |>))
          end
      end
  end.

(** From the receipt of the replay on. *)
Definition reconcile_receipt (a : TickAccess) (s : TickState) (d : DeadLetterRecord)
    (receipt : EventReceipt) : Res unit * TickState :=
  match retry_replay_event (tk_bus s) (rcpt_event_id receipt) with
  | Err e => (Err e, s)
  | Ok event =>
      let '(execution, lines, h) := reconcile_replay_plan d event (tk_handler s) in
      let s := report_with (s <| tk_handler := h |>)
                 (fun r => r <| rep_audit := rep_audit r ++ lines |>) in
      match execution with
      | Ok (PlanSucceeded deliveries) => finish_succeeded a s d receipt deliveries
      | Ok PlanPending =>
          (Ok tt, report_with s (fun r =>
             audit (skip_retry r (dl_id d) "handler_pending")
               ("scheduler.retry:handler_pending:" +:+ id_str (rcpt_event_id receipt))))
      | Ok (PlanFailed error) | Err error => finish_failed a s d receipt error
      end
  end.

(** The body of the loop over the dead letters. *)
Definition retry_one (a : TickAccess) (s : TickState) (d : DeadLetterRecord) : Res unit * TickState :=
  let id := dl_id d in
  let skip s reason := (Ok tt, report_with s (fun r => skip_retry r id reason)) in
  if (opt_redrive_ready_at_ms options <? rp_next_attempt_after_ms (dl_redrive d))%N then
    skip s "redrive_not_due"
  else
    let s := report_with s (fun r =>
      r <| rep_due_dead_letters := wrapping_add usize_max (rep_due_dead_letters r) 1 |>) in
    match event_log_status (tk_bus s) id with
    | None => skip s "event_log_missing"
    | Some LogAcked => skip s "already_acked"
    | Some _ =>
        match latest_replay_record (tk_bus s) id with
        | Some replay =>
            if bool_decide (log_status replay = LogAcked) then skip s "already_dispatched"
            else reconcile_receipt a s d (receipt_from_record replay)
        | None =>
            let '(res, bus, ldir, ddir) :=
              redrive_dead_letter_at (tk_bus s) (tk_ldir s) (tk_ddir s) (ta_redrive a) (ta_publish a)
                id (opt_redrive_ready_at_ms options) in
            let s := s <| tk_bus := bus |> <| tk_ldir := ldir |> <| tk_ddir := ddir |> in
            match res with
            | Err e => (Err e, s)
            | Ok receipt => reconcile_receipt a s d receipt
            end
        end
    end.

Fixpoint retry_each (env : nat -> TickAccess) (index : nat) (s : TickState)
    (dead_letters : list DeadLetterRecord) : Res unit * TickState :=
  match dead_letters with
  | [] => (Ok tt, s)
  | d :: rest =>
      match retry_one (env index) s d with
      | (Err e, s) => (Err e, s)
      | (Ok _, s) => retry_each env (S index) s rest
      end
  end.

(** The state after the tick is returned also when it fails. *)
Definition run_scheduler_retry_tick_with_handler (env : nat -> TickAccess) (bus : DurableEventBus)
    (ldir ddir : Dir) (h : H) : Res SchedulerRetryTickReport * TickState :=
  let dead_letters := ds_records (db_dead bus) in
  let scanned := len dead_letters in
  let report := MkTickReport scanned 0 [] [] [] ["scheduler.retry:scanned:" +:+ n_to_string scanned] in
  let s := MkTickState bus ldir ddir h report in
  if (opt_mailbox_capacity options =? 0)%N then
    (Err (invalid_argument "scheduler retry capacity must be greater than zero"), s)
  else
    match retry_each env 0 s dead_letters with
    | (Err e, s) => (Err e, s)
    | (Ok _, s) =>
        let s := report_with s (fun r =>
          let r := audit r ("scheduler.retry:due:" +:+ n_to_string (rep_due_dead_letters r)) in
          let r := audit r ("scheduler.retry:dispatched:" +:+ n_to_string (len (rep_dispatched_events r))) in
          let r := audit r ("scheduler.retry:failed:" +:+ n_to_string (len (rep_failed_events r))) in
          audit r ("scheduler.retry:skipped:" +:+ n_to_string (len (rep_skipped_events r)))) in
        (Ok (tk_report s), s)
    end.
End Tick.
Arguments MkTickState {H}.
Arguments tk_bus {H}.
Arguments tk_ldir {H}.
Arguments tk_ddir {H}.
Arguments tk_handler {H}.
Arguments tk_report {H}.

(** [MissingOwnedReplayHandler], the handler of [run_scheduler_retry_tick]. *)
Definition missing_replay_handler (binding : ReplayHandlerBinding) (event : Event)
    (delivery_index retry_backoff_ms observed_at_ms : N) (h : unit) :
    Res OwnedReplayDeliveryStatus * unit :=
  (Err (not_found "owned replay handler is not available"
          ⊕ ("handler_kind", rh_handler_kind binding) ⊕ ("agent_id", id_str (rh_agent_id binding))
          ⊕ ("event_id", id_str (event_id event)) ⊕ ("delivery_index", n_to_string delivery_index)), h).

Definition run_scheduler_retry_tick (project : ProjectConfig) (env : nat -> TickAccess)
    (bus : DurableEventBus) (ldir ddir : Dir) (options : SchedulerRetryTickOptions) :
    Res SchedulerRetryTickReport * TickState (H := unit) :=
  run_scheduler_retry_tick_with_handler missing_replay_handler project options env bus ldir ddir tt.

(** ** What a report says *)

(** The state a tick starts its iterations in. *)
Definition tick_start {H} (bus : DurableEventBus) (ldir ddir : Dir) (h : H) : TickState (H := H) :=
  let scanned := len (ds_records (db_dead bus)) in
  MkTickState bus ldir ddir h
    (MkTickReport scanned 0 [] [] [] ["scheduler.retry:scanned:" +:+ n_to_string scanned]).

(** One call of the handler, with its answer. *)
Record DeliveryCall := MkCall {
  call_binding : ReplayHandlerBinding;
  call_event : Event;
  call_index : N;
  call_result : Res OwnedReplayDeliveryStatus
}.

(** A handler that also keeps the list of its calls. *)
Definition recorded {H} (handler : ReplayHandlerBinding -> Event -> N -> N -> N -> H ->
      Res OwnedReplayDeliveryStatus * H)
    (binding : ReplayHandlerBinding) (event : Event) (index backoff observed : N)
    (st : H * list DeliveryCall) : Res OwnedReplayDeliveryStatus * (H * list DeliveryCall) :=
  let '(res, h) := handler binding event index backoff observed st.1 in
  (res, (h, st.2 ++ [MkCall binding event index res])).

Definition delivered_call (calls : list DeliveryCall) (binding : ReplayHandlerBinding) (event : Event)
    (index : N) : Prop :=
  exists task_id digest size,
    MkCall binding event index (Ok (DeliverySucceeded task_id digest size)) ∈ calls.

(** Why a dead letter may be reported as dispatched, [event] being its replay. *)
Record dispatch_ok (project : ProjectConfig) (options : SchedulerRetryTickOptions)
    (d : DeadLetterRecord) (event : Event) (e : SchedulerRetryDispatchedEvent)
    (calls : list DeliveryCall) : Prop := {
  dk_event : dis_event_id e = id_str (dl_id d);
  dk_due : (rp_next_attempt_after_ms (dl_redrive d) <= opt_redrive_ready_at_ms options)%N;
  dk_replay : exists rest, dis_replay_event_id e = id_str (dl_id d) +:+ ":replay-" +:+ rest;
  dk_bound : (len (dl_replay_handlers d) <= opt_mailbox_capacity options)%N;
  dk_event_id : id_str (event_id event) = dis_replay_event_id e;
  dk_route : route (subscription_table project) event = Ok (dis_deliveries e);
  dk_agents : rh_agent_id <$> dl_replay_handlers d = plan_agent <$> dis_deliveries e;
  dk_handlers : dl_replay_handlers d <> [];
  dk_enabled : Forall (fun p => agent_enabled project (plan_agent p) = true) (dis_deliveries e);
  dk_delivered : forall i b, dl_replay_handlers d !! i = Some b -> delivered_call calls b event (N.of_nat i)
}.

Lemma delivered_call_more calls calls' b e i :
  calls `prefix_of` calls' -> delivered_call calls b e i -> delivered_call calls' b e i.
Proof. intros [k ->] (t & g & z & Hin). exists t, g, z. apply elem_of_app. by left. Qed.

Lemma dispatch_ok_more project options d ev e calls calls' :
  calls `prefix_of` calls' -> dispatch_ok project options d ev e calls ->
  dispatch_ok project options d ev e calls'.
Proof.
  intros Hp [? ? ? ? ? ? ? ? ? Hd]. split; try done. intros i b Hb.
  by eapply delivered_call_more; [|apply Hd].
Qed.

Lemma validate_pairs_Ok project pairs : forall index,
  validate_pairs project index pairs = Ok tt ->
  Forall (fun p => rh_agent_id p.1 = plan_agent p.2 /\
                   agent_enabled project (plan_agent p.2) = true) pairs.
Proof.
  induction pairs as [|[b p] pairs IH]; intros index Hv; [constructor|]. cbn in Hv.
  apply reject_Ok in Hv as [Hb Hv]. apply reject_Ok in Hv as [He Hv].
  apply negb_false_iff, bool_decide_eq_true_1 in Hb. apply negb_false_iff in He.
  constructor; [done|]. by eapply IH.
Qed.

Lemma validate_replay_bindings_Ok project bs ps max :
  validate_replay_bindings project bs ps max = Ok tt ->
  bs <> [] /\ (len bs <= max)%N /\ rh_agent_id <$> bs = plan_agent <$> ps /\
  Forall (fun p => agent_enabled project (plan_agent p) = true) ps.
Proof.
  unfold validate_replay_bindings. intros Hv.
  apply reject_Ok in Hv as [Hne Hv]. apply reject_Ok in Hv as [Hlen Hv].
  apply reject_Ok in Hv as [Hmax Hv]. apply negb_false_iff, N.eqb_eq in Hlen.
  apply N.ltb_ge in Hmax. split; [by destruct bs|]. split; [by rewrite Hlen|].
  apply validate_pairs_Ok in Hv. unfold len in Hlen. apply Nat2N.inj in Hlen. clear Hne Hmax.
  revert ps Hlen Hv. induction bs as [|b bs IH]; intros [|p ps] Hlen Hv; try done.
  inversion Hv as [|? ? [Hb He] Hv']; subst. cbn in Hlen. destruct (IH ps) as [E Hf]; [lia|done|].
  split; [by rewrite !fmap_cons, E; cbn in Hb; rewrite Hb|by constructor].
Qed.

(** ** Receipts of redriven events *)

Lemma fs_append_Ok l dir lock o event r l' dir' :
  fs_append l dir lock o event = (Ok r, l', dir') -> log_event r = event.
Proof.
  unfold fs_append, with_mutation.
  assert (Hin : forall l0, fs_append_in dir o event l0 = (Ok r, l', dir') -> log_event r = event).
  { intros l0. unfold fs_append_in. destruct (contains_event _ _); [done|].
    destruct (persist_record _ _ _ _) as [[] ?]; intros; by simplify_eq. }
  destruct (fl_writer l); [|apply Hin]. destruct (lock >>? _); [apply Hin|done].
Qed.

Lemma redrive_in_name root dir a id next records e records' dir' :
  redrive_in root dir a id next records = (Ok e, records', dir') ->
  exists rest, id_str (event_id e) = id_str id +:+ ":replay-" +:+ rest.
Proof.
  unfold redrive_in. destruct (list_find _ records) as [[i d]|] eqn:Ef; [|done].
  apply list_find_Some in Ef as (_ & Hid & _). fold (redriven next d).
  destruct (replay_event_for_publish _ _) as [e'|] eqn:Ee; [|done].
  apply replay_event_emits in Ee as [Hn _].
  destruct (persist_dead_letter _ _ _ _) as [[] ?]; intros; simplify_eq. by eexists.
Qed.

Lemma redrive_at_name b ldir ddir a la id next receipt b' ldir' ddir' :
  redrive_dead_letter_at b ldir ddir a la id next = (Ok receipt, b', ldir', ddir') ->
  exists rest, id_str (rcpt_event_id receipt) = id_str id +:+ ":replay-" +:+ rest.
Proof.
  unfold redrive_dead_letter_at, publish_redriven, redrive_for_publish_at,
    redrive_for_publish_with_next.
  destruct (dead_transaction _ _ _ _) as [[[e|] s] dir] eqn:Et; [|done]. cbn [on_store].
  unfold durable_publish. destruct (fs_append _ _ _ _ _) as [[[r|] l] d] eqn:Ea; [|done].
  apply fs_append_Ok in Ea. intros [= <- _ _ _].
  change (rcpt_event_id (receipt_from_record r)) with (event_id (log_event r)). rewrite Ea.
  unfold dead_transaction in Et. destruct (ds_writer (db_dead b)) as [w|].
  - destruct (_ >>? _) as [rs|]; [|done].
    destruct (redrive_in _ _ _ _ _ rs) as [[[] ?] ?] eqn:Er; simplify_eq. by apply redrive_in_name in Er.
  - destruct (redrive_in _ _ _ _ _ _) as [[? ?] ?] eqn:Er. simplify_eq. by apply redrive_in_name in Er.
Qed.

Section Recorded.
Context {H : Type}.
Variable handler : ReplayHandlerBinding -> Event -> N -> N -> N -> H ->
  Res OwnedReplayDeliveryStatus * H.
Variable project : ProjectConfig.
Variable options : SchedulerRetryTickOptions.

Abbreviation State := (TickState (H := H * list DeliveryCall)).
Abbreviation calls s := (snd (tk_handler s)).

Lemma reconcile_bindings_calls event delay bs : forall index pending failure lines st res lines' st',
  reconcile_bindings (recorded handler) options event delay index bs pending failure lines st
    = (res, lines', st') ->
  st.2 `prefix_of` st'.2 /\
  (res = Ok (false, None) -> pending = false /\ failure = None /\
     forall i b, bs !! i = Some b -> delivered_call st'.2 b event (index + N.of_nat i)).
Proof using Type.
  induction bs as [|b bs IH]; intros index pending failure lines st res lines' st' Hr; cbn in Hr.
  { simplify_eq. split; [done|]. intros [= -> ->]. done. }
  unfold recorded in Hr at 1.
  destruct (handler b event index delay (opt_redrive_ready_at_ms options) st.1) as [[status|err] h] eqn:Eh.
  2: { simplify_eq. split; [by apply prefix_app_r|]. done. }
  assert (Hnext : forall pending' failure' lines0,
    reconcile_bindings (recorded handler) options event delay (index + 1) bs pending' failure' lines0
      (h, st.2 ++ [MkCall b event index (Ok status)]) = (res, lines', st') ->
    st.2 `prefix_of` st'.2 /\ MkCall b event index (Ok status) ∈ st'.2 /\
    (res = Ok (false, None) -> pending' = false /\ failure' = None /\
      forall i b', bs !! i = Some b' -> delivered_call st'.2 b' event (index + 1 + N.of_nat i))).
  { intros p f l0 Hn. apply IH in Hn as [Hp Hs]. cbn [snd] in Hp. split_and!; [|by eapply elem_of_prefix; [|exact Hp]; apply elem_of_app; right; left|exact Hs].
    etrans; [|exact Hp]. by apply prefix_app_r. }
  destruct status as [task status|task digest size|task error scheduled];
    apply Hnext in Hr as (Hp & Hin & Hs); (split; [exact Hp|]); intros Hres; destruct (Hs Hres) as (E1 & E2 & Hall).
  - done.
  - split_and!; [done..|]. intros [|i] b' Hb; cbn in Hb; simplify_eq.
    + rewrite N.add_0_r. by exists task, digest, size.
    + replace (index + N.of_nat (S i))%N with (index + 1 + N.of_nat i)%N by lia. by apply Hall.
  - by destruct failure.
Qed.

Lemma reconcile_plan_calls d event st res lines st' :
  reconcile_replay_plan (recorded handler) project options d event st = (res, lines, st') ->
  st.2 `prefix_of` st'.2 /\
  forall deliveries, res = Ok (PlanSucceeded deliveries) ->
    route (subscription_table project) event = Ok deliveries /\
    validate_replay_bindings project (dl_replay_handlers d) deliveries
      (opt_mailbox_capacity options) = Ok tt /\
    forall i b, dl_replay_handlers d !! i = Some b -> delivered_call st'.2 b event (N.of_nat i).
Proof using Type.
  unfold reconcile_replay_plan. destruct (route _ event) as [ps|]; [|intros; by simplify_eq].
  destruct (validate_replay_bindings _ _ _ _) as [[]|] eqn:Ev; [|intros; by simplify_eq].
  destruct (reconcile_bindings _ _ _ _ _ _ _ _ _ _) as [[r lines'] st1] eqn:Er.
  apply reconcile_bindings_calls in Er as [Hp Hs].
  intros Hrun. assert (st1 = st') as -> by (by destruct r as [[[] []]|]; simplify_eq).
  split; [done|]. intros deliveries ->.
  destruct r as [[[] []]|]; simplify_eq. destruct (Hs eq_refl) as (_ & _ & Hall). split_and!; try done.
Qed.

(** ** One dead letter *)

(** The replay of a dead letter that an iteration started in [s] delivers: the
    event the log holds for the latest replay, or for the replay the iteration
    itself appends when the log has none. *)
Definition letter_replay (a : TickAccess) (s : State) (d : DeadLetterRecord) : Res Event :=
  match latest_replay_record (tk_bus s) (dl_id d) with
  | Some replay => retry_replay_event (tk_bus s) (record_id replay)
  | None =>
      let '(res, bus, _, _) :=
        redrive_dead_letter_at (tk_bus s) (tk_ldir s) (tk_ddir s) (ta_redrive a) (ta_publish a)
          (dl_id d) (opt_redrive_ready_at_ms options) in
      let? receipt := res in retry_replay_event bus (rcpt_event_id receipt)
  end.

(** What one iteration adds to the report, [replay] being the letter's replay. *)
Definition adds (replay : Res Event) (d : DeadLetterRecord) (calls : list DeliveryCall) (r r' : SchedulerRetryTickReport) : Prop :=
  (exists e, rep_dispatched_events r' = rep_dispatched_events r ++ [e] /\
     rep_failed_events r' = rep_failed_events r /\ rep_skipped_events r' = rep_skipped_events r /\
     exists event, replay = Ok event /\ dispatch_ok project options d event e calls) \/
  (exists e, rep_failed_events r' = rep_failed_events r ++ [e] /\
     rep_dispatched_events r' = rep_dispatched_events r /\
     rep_skipped_events r' = rep_skipped_events r /\ fre_event_id e = id_str (dl_id d)) \/
  (exists e, rep_skipped_events r' = rep_skipped_events r ++ [e] /\
     rep_dispatched_events r' = rep_dispatched_events r /\
     rep_failed_events r' = rep_failed_events r /\ ski_event_id e = id_str (dl_id d)).

Lemma finish_failed_adds replay a (s : State) d receipt error u s' :
  finish_failed options a s d receipt error = (Ok u, s') ->
  tk_handler s' = tk_handler s /\ adds replay d (calls s) (tk_report s) (tk_report s').
Proof using Type.
  unfold finish_failed. destruct (replay_failure_consumer _ _); [|done].
  destruct (durable_fail _ _ _ _ _ _) as [[[rec|] bus] ldir]; [|done].
  destruct (0 <? _)%N.
  - destruct (set_dead_letter_redrive_policy _ _ _ _ _) as [[[q|] bus'] ddir]; [|done].
    intros [= _ <-]. split; [done|]. right; left. by eexists.
  - intros [= _ <-]. split; [done|]. right; left. by eexists.
Qed.

Lemma reconcile_receipt_adds a (s : State) d receipt u s' :
  (rp_next_attempt_after_ms (dl_redrive d) <= opt_redrive_ready_at_ms options)%N ->
  (exists rest, id_str (rcpt_event_id receipt) = id_str (dl_id d) +:+ ":replay-" +:+ rest) ->
  reconcile_receipt (recorded handler) project options a s d receipt = (Ok u, s') ->
  calls s `prefix_of` calls s' /\
  adds (retry_replay_event (tk_bus s) (rcpt_event_id receipt)) d (calls s') (tk_report s) (tk_report s').
Proof using Type.
  intros Hdue Hname. unfold reconcile_receipt, retry_replay_event.
  destruct (event_log_record (tk_bus s) (rcpt_event_id receipt)) as [rec|] eqn:El; [|done].
  cbn [fmap option_fmap option_map ok_or].
  destruct (reconcile_replay_plan _ _ _ _ _ _) as [[execution lines] st] eqn:Er.
  apply reconcile_plan_calls in Er as [Hp Hs].
  assert (Hid : record_id rec = rcpt_event_id receipt).
  { apply List.find_some in El as [_ El]. by apply bool_decide_eq_true_1 in El. }
  destruct execution as [[|deliveries|error]|error].
  - intros [= _ <-]. split; [exact Hp|]. right; right. by eexists.
  - destruct (Hs deliveries eq_refl) as (Hroute & Hval & Hall).
    apply validate_replay_bindings_Ok in Hval as (Hne & Hbound & Hagents & Hen).
    unfold finish_succeeded. destruct (replay_ack_consumer _) as [consumer|]; [|done].
    destruct (durable_ack _ _ _ _ _) as [[[r|] bus] ldir]; [|done].
    intros [= _ <-]. split; [exact Hp|]. left. eexists. split; [reflexivity|].
    split; [done|]. split; [done|]. exists (log_event rec). split; [done|].
    split; cbn [dis_event_id dis_replay_event_id dis_deliveries]; try done. by rewrite <- Hid.
  - intros Hf. eapply finish_failed_adds in Hf as [Eh Ha]. rewrite Eh. split; [exact Hp|exact Ha].
  - intros Hf. eapply finish_failed_adds in Hf as [Eh Ha]. rewrite Eh. split; [exact Hp|exact Ha].
Qed.

Lemma retry_one_adds a (s : State) d u s' :
  retry_one (recorded handler) project options a s d = (Ok u, s') ->
  calls s `prefix_of` calls s' /\ adds (letter_replay a s d) d (calls s') (tk_report s) (tk_report s').
Proof using Type.
  assert (Hskip : forall reason (s0 : State), calls s0 = calls s ->
    rep_dispatched_events (tk_report s0) = rep_dispatched_events (tk_report s) ->
    rep_failed_events (tk_report s0) = rep_failed_events (tk_report s) ->
    rep_skipped_events (tk_report s0) = rep_skipped_events (tk_report s) ->
    (Ok tt, report_with s0 (fun r => skip_retry r (dl_id d) reason)) = (@Ok EvaError _ u, s') ->
    calls s `prefix_of` calls s' /\ adds (letter_replay a s d) d (calls s') (tk_report s) (tk_report s')).
  { intros reason s0 Hc H1 H2 H3 [= _ <-]. split; [by rewrite <- Hc|].
    right; right. eexists. split; [cbn; by rewrite H3|]. done. }
  unfold retry_one. destruct (_ <? _)%N eqn:Edue; [by apply Hskip|]. apply N.ltb_ge in Edue.
  set (s1 := report_with s _).
  assert (Hgo : forall s2 receipt, tk_handler s2 = tk_handler s -> tk_report s2 = tk_report s1 ->
    (exists rest, id_str (rcpt_event_id receipt) = id_str (dl_id d) +:+ ":replay-" +:+ rest) ->
    retry_replay_event (tk_bus s2) (rcpt_event_id receipt) = letter_replay a s d ->
    reconcile_receipt (recorded handler) project options a s2 d receipt = (Ok u, s') ->
    calls s `prefix_of` calls s' /\ adds (letter_replay a s d) d (calls s') (tk_report s) (tk_report s')).
  { intros s2 receipt Hh Hr Hn He Hrun. apply reconcile_receipt_adds in Hrun as [Hp Ha]; [|done..].
    rewrite Hh in Hp. rewrite Hr, He in Ha. split; [exact Hp|exact Ha]. }
  change (tk_bus s1) with (tk_bus s). change (tk_ldir s1) with (tk_ldir s). change (tk_ddir s1) with (tk_ddir s).
  destruct (event_log_status (tk_bus s) (dl_id d)) as [[]|]; try (by apply Hskip).
  all: destruct (latest_replay_record (tk_bus s) (dl_id d)) as [replay|] eqn:El.
  1,3: case_bool_decide; [by apply Hskip|]; apply Hgo; try done;
    [|by unfold letter_replay; rewrite El]; apply List.find_some in El as [_ El]; apply bool_decide_eq_true_1 in El;
    destruct El as [rest El%strip_prefix_Some]; exists rest; cbn; by rewrite El, append_assoc.
  all: destruct (redrive_dead_letter_at _ _ _ _ _ _ _) as [[[[receipt|] bus] ldir] ddir] eqn:Er; [|done].
  all: apply Hgo; try done; [by eapply redrive_at_name|].
  all: unfold letter_replay; by rewrite El, Er.
Qed.

Definition reported_ids (r : SchedulerRetryTickReport) : list string :=
  (dis_event_id <$> rep_dispatched_events r) ++ (fre_event_id <$> rep_failed_events r)
  ++ (ski_event_id <$> rep_skipped_events r).

Lemma adds_ids replay d cs r r' : adds replay d cs r r' -> reported_ids r' ≡ₚ id_str (dl_id d) :: reported_ids r.
Proof using Type.
  unfold reported_ids. intros [(e & -> & -> & -> & ev & _ & [He _ _ _ _ _ _ _ _ _])|[(e & -> & -> & -> & He)|(e & -> & -> & -> & He)]];
    rewrite fmap_app, <- He; cbn; solve_Permutation.
Qed.

(** The iteration for the dead letter at position [k] of the list starts in
    the state the earlier ones leave, and [event] is the replay it delivers. *)
Definition reaches (env : nat -> TickAccess) (index : nat) (s : State) (ds : list DeadLetterRecord)
    (k : nat) (d : DeadLetterRecord) (event : Event) : Prop :=
  ds !! k = Some d /\
  exists s', retry_each (recorded handler) project options env index s (take k ds) = (Ok tt, s') /\
    letter_replay (env (index + k)) s' d = Ok event.

Lemma retry_each_reports env ds : forall index (s : State) u s',
  retry_each (recorded handler) project options env index s ds = (Ok u, s') ->
  calls s `prefix_of` calls s' /\
  reported_ids (tk_report s') ≡ₚ (id_str ∘ dl_id <$> ds) ++ reported_ids (tk_report s) /\
  forall e, e ∈ rep_dispatched_events (tk_report s') ->
    e ∈ rep_dispatched_events (tk_report s) \/
    exists k d event, reaches env index s ds k d event /\ dispatch_ok project options d event e (calls s').
Proof using Type.
  induction ds as [|d ds IH]; intros index s u s' Hrun; cbn in Hrun.
  { simplify_eq. split_and!; [done..|]. by left. }
  destruct (retry_one _ _ _ _ _ _) as [[[]|] s1] eqn:E1; [|done].
  pose proof E1 as Ha. apply retry_one_adds in Ha as [Hp1 Ha]. apply IH in Hrun as (Hp & Hids & Hdis).
  split; [by etrans|]. split.
  - rewrite Hids, (adds_ids _ _ _ _ _ Ha), fmap_cons. cbn. solve_Permutation.
  - intros e He. apply Hdis in He as [He|(k & d' & ev & (Hk & sk & Hrun & Hev) & Hok)].
    + destruct Ha as [(x & Ex & _ & _ & ev & Hev & Hx)|[(x & _ & Ex & _)|(x & _ & Ex & _)]]; rewrite Ex in He;
        [|by left..]. apply elem_of_app in He as [He| ->%list_elem_of_singleton]; [by left|].
      right. exists 0, d, ev. split; [|by eapply dispatch_ok_more].
      split; [done|]. exists s. by rewrite Nat.add_0_r.
    + right. exists (S k), d', ev. split; [|done]. split; [done|]. exists sk. cbn [take retry_each].
      rewrite E1. split; [done|]. by rewrite Nat.add_succ_r.
Qed.
End Recorded.

(** A retry tick that succeeds reports every dead letter exactly once, as
    dispatched, failed or skipped; and it reports one as dispatched only when
    it was due, its replay is routed to exactly the agents of its handler
    bindings, in order and all enabled, within the delivery bound, and the
    handler answered [Succeeded] for every single binding. *)
Theorem tick_dispatches_only_delivered {H} (handler : ReplayHandlerBinding -> Event -> N -> N -> N -> H ->
      Res OwnedReplayDeliveryStatus * H) project options env bus ldir ddir h report s' :
  run_scheduler_retry_tick_with_handler (recorded handler) project options env bus ldir ddir (h, [])
    = (Ok report, s') ->
  reported_ids report ≡ₚ (id_str ∘ dl_id <$> ds_records (db_dead bus)) /\
  forall e, e ∈ rep_dispatched_events report ->
    exists d event, d ∈ ds_records (db_dead bus) /\
      dispatch_ok project options d event e (tk_handler s').2.
Proof.
  unfold run_scheduler_retry_tick_with_handler. destruct (_ =? 0)%N; [done|].
  destruct (retry_each _ _ _ _ _ _ _) as [[u|] s1] eqn:E; [|done]. intros [= <- <-].
  apply retry_each_reports in E as (_ & Hids & Hdis). split.
  - change (reported_ids (tk_report s1) ≡ₚ (id_str ∘ dl_id <$> ds_records (db_dead bus))).
    rewrite Hids. cbn. by rewrite app_nil_r.
  - intros e He. destruct (Hdis e He) as [He'|(k & d & ev & [Hk _] & Hok)]; [by apply elem_of_nil in He'|].
    exists d, ev. split; [by eapply list_elem_of_lookup_2|done].
Qed.

Definition sample_retry_letter (id : string) : DeadLetterRecord :=
  MkDeadLetter (sample_event id) sample_error 0 redrive_default
    [MkReplayHandlerBinding "agent.run" (MkId "agent-1") None].
Definition sample_retry_bus (log : list EventLogRecord) (dead : list DeadLetterRecord) : DurableEventBus :=
  MkDurableBus (MkFsLog "log" (last_sequence log) log false) (MkDeadStore "dead" dead None) [].
Definition sample_project : ProjectConfig := MkProjectConfig [MkAgentManifest (MkId "agent-1") true] [].
Definition sample_tick_access (_ : nat) : TickAccess :=
  MkTickAccess (sample_access WriteOk 0) (MkLogAccess (Ok tt) WriteOk) (MkLogAccess (Ok tt) WriteOk)
    (sample_access WriteOk 0).
Definition delivering_handler (_ : ReplayHandlerBinding) (_ : Event) (_ _ _ : N) (n : N) :
    Res OwnedReplayDeliveryStatus * N := (Ok (DeliverySucceeded "task" "sha256:0" 2), (n + 1)%N).

(** A due dead letter that is dispatched, and one the log does not know. *)
Lemma tick_dispatches_only_delivered_witness :
  let bus := sample_retry_bus [record_appended 1 (sample_event "e1")]
               [sample_retry_letter "e1"; sample_retry_letter "e2"] in
  match run_scheduler_retry_tick_with_handler (recorded delivering_handler) sample_project
          tick_options_default sample_tick_access bus ∅ ∅ (0%N, []) with
  | (Ok report, s') =>
      reported_ids report ≡ₚ ["e1"; "e2"] /\
      dis_replay_event_id <$> rep_dispatched_events report = ["e1:replay-1"] /\
      forall e, e ∈ rep_dispatched_events report ->
        exists d event, dispatch_ok sample_project tick_options_default d event e (tk_handler s').2
  | _ => False
  end.
Proof.
  intros bus. destruct (run_scheduler_retry_tick_with_handler _ _ _ _ _ _ _ _) as [[report|] s'] eqn:E.
  2: { apply (f_equal (fun x => is_ok x.1)) in E. vm_compute in E. discriminate. }
  pose proof (tick_dispatches_only_delivered delivering_handler sample_project tick_options_default
    sample_tick_access bus ∅ ∅ 0%N report s' E) as [Hids Hdis].
  split_and!; [exact Hids| |].
  - apply (f_equal (fun x => result_map (fun r => dis_replay_event_id <$> rep_dispatched_events r) x.1)) in E.
    cbn [fst result_map] in E. vm_compute in E. by injection E.
  - intros e He. destruct (Hdis e He) as (d & event & _ & Hd). by exists d, event.
Defined.

(** Event ids may themselves end in a replay suffix, and the prefix test of
    [latest_replay_record] then takes the replay of another dead letter: here
    the dead letter "a" is taken for dispatched because the replay of the dead
    letter "a:replay-1" was acknowledged, although the only replay of "a"
    itself has failed. *)
Lemma latest_replay_takes_foreign_record :
  let foreign := MkEventLogRecord 3 (sample_event "a:replay-1:replay-1") LogAcked (Some (MkId "agent-1")) None in
  let bus := sample_retry_bus
    [record_appended 1 (sample_event "a");
     MkEventLogRecord 2 (sample_event "a:replay-1") LogFailed (Some (MkId "agent-1")) (Some sample_error);
     foreign] [sample_retry_letter "a"] in
  latest_replay_record bus (MkId "a") = Some foreign /\
  exists s' report, run_scheduler_retry_tick_with_handler delivering_handler sample_project
      tick_options_default sample_tick_access bus ∅ ∅ 0%N = (Ok report, s') /\
    rep_skipped_events report = [MkSkipped "a" "already_dispatched"] /\ tk_handler s' = 0%N.
Proof. split; [reflexivity|]. do 2 eexists. split_and!; vm_compute; reflexivity. Qed.
