(* ===== verification/TaskState.v ===== *)
(** * Task snapshots (crates/eva-storage/src/task_state.rs, lines 19-1980)

    The durable task record: its fields, [validate], and the operations that
    move it through its lifecycle.  A method on [&mut self] returns the new
    snapshot, or the error; what [self] holds after an error is never stored
    by the callers.  Statuses are strings, as in the source. *)

From Stdlib Require Import Ascii.
From stdpp Require Import base numbers strings gmap list.
From S2P Require Import Prelude RustStr Error Ids Digest Durable.

Definition REPLAY_DELIVERY_TASK_PREFIX : string := "replay-delivery-".
Definition MAX_TASK_KIND_BYTES : N := 128.
Definition MAX_INLINE_TASK_INPUT_BYTES : N := 1024 * 1024.
Definition MAX_TASK_EXECUTION_OWNER_BYTES : N := 512.
Definition MAX_TASK_CANCEL_TOKEN_BYTES : N := 256.
Definition COMMITTED_EFFECT_RECOVERY_LOG_PREFIX : string :=
  "task recovered from committed effect: operation_digest=".
Definition UNKNOWN_EFFECT_RECOVERY_REASON_PREFIX : string :=
  "non-idempotent effect outcome is unknown; operator reconciliation required; operation_digest=".
Definition DEFAULT_TASK_HEARTBEAT_DEGRADED_AFTER_MS : N := 5000.
Definition DEFAULT_TASK_HEARTBEAT_STALE_AFTER_MS : N := 15000.

Inductive TaskFreshness := Live | Degraded | Stale | NotApplicable.
#[export] Instance TaskFreshness_eq_dec : EqDecision TaskFreshness.
Proof. solve_decision. Defined.

(** ** Data *)

Record TaskAttemptPolicySnapshot := MkAttemptPolicy {
  ap_max_attempts : N;                    (** u32 *)
  ap_retry_backoff_ms : N;                (** u64 *)
  ap_attempt_timeout_ms : option N        (** u64 *)
}.
#[export] Instance TaskAttemptPolicySnapshot_eq_dec : EqDecision TaskAttemptPolicySnapshot.
Proof. solve_decision. Defined.

Inductive TaskInputSnapshot :=
| InputInline (bytes digest : string)
| InputArtifact (artifact_ref digest : string).
#[export] Instance TaskInputSnapshot_eq_dec : EqDecision TaskInputSnapshot.
Proof. solve_decision. Defined.

Record TaskEnvelopeSnapshot := MkEnvelope {
  env_kind : string;
  env_agent_id : string;
  env_input : TaskInputSnapshot;
  env_idempotency_key : string;
  env_attempt_policy : TaskAttemptPolicySnapshot
}.
#[export] Instance TaskEnvelopeSnapshot_eq_dec : EqDecision TaskEnvelopeSnapshot.
Proof. solve_decision. Defined.

Record TaskReplayDeliverySnapshot := MkReplayDelivery {
  rd_replay_event_id : string;
  rd_delivery_index : N
}.
#[export] Instance TaskReplayDeliverySnapshot_eq_dec : EqDecision TaskReplayDeliverySnapshot.
Proof. solve_decision. Defined.

Record TaskStateLogSnapshot := MkTaskLog {
  tl_sequence : N;
  tl_level : string;
  tl_message : string
}.
#[export] Instance TaskStateLogSnapshot_eq_dec : EqDecision TaskStateLogSnapshot.
Proof. solve_decision. Defined.

Record TaskStateDeadLetterSnapshot := MkTaskDeadLetter {
  td_event_id : string;
  td_topic : string;
  td_reason_kind : string;
  td_reason : string;
  td_replay_count : N
}.
#[export] Instance TaskStateDeadLetterSnapshot_eq_dec : EqDecision TaskStateDeadLetterSnapshot.
Proof. solve_decision. Defined.

Record TaskStateReplaySnapshot := MkTaskReplay {
  tr_event_id : string;
  tr_sequence : N;
  tr_topic : string
}.
#[export] Instance TaskStateReplaySnapshot_eq_dec : EqDecision TaskStateReplaySnapshot.
Proof. solve_decision. Defined.

Record TaskStateSnapshot := MkTask {
  ts_record_version : StateVersion;
  ts_owner_generation : WriterGeneration;
  ts_task_id : string;
  ts_envelope : option TaskEnvelopeSnapshot;
  ts_replay_delivery : option TaskReplayDeliverySnapshot;
  ts_status : string;
  ts_attempts : N;
  ts_execution_owner : option string;
  ts_retry_max_attempts : N;
  ts_cancel_requested : bool;
  ts_cancel_accepted : bool;
  ts_cancel_reason : option string;
  ts_heartbeat_at_ms : option N;
  ts_deadline_at_ms : option N;
  ts_cancel_token : option string;
  ts_result_digest : option string;
  ts_result_size_bytes : option N;
  ts_interrupted_reason : option string;
  ts_error_kind : option string;
  ts_error_message : option string;
  ts_error_retryable : option bool;
  ts_retry_ready_at_ms : option N;
  ts_logs : list TaskStateLogSnapshot;
  ts_dead_letters : list TaskStateDeadLetterSnapshot;
  ts_replayed_events : list TaskStateReplaySnapshot
}.
#[export] Instance TaskStateSnapshot_eta : Eta TaskStateSnapshot := fun t =>
  MkTask (ts_record_version t) (ts_owner_generation t) (ts_task_id t) (ts_envelope t)
    (ts_replay_delivery t) (ts_status t) (ts_attempts t) (ts_execution_owner t)
    (ts_retry_max_attempts t) (ts_cancel_requested t) (ts_cancel_accepted t) (ts_cancel_reason t)
    (ts_heartbeat_at_ms t) (ts_deadline_at_ms t) (ts_cancel_token t) (ts_result_digest t)
    (ts_result_size_bytes t) (ts_interrupted_reason t) (ts_error_kind t) (ts_error_message t)
    (ts_error_retryable t) (ts_retry_ready_at_ms t) (ts_logs t) (ts_dead_letters t)
    (ts_replayed_events t).
#[export] Instance TaskStateSnapshot_eq_dec : EqDecision TaskStateSnapshot.
Proof. solve_decision. Defined.

(** [matches!(status, a | b | ..)] *)
Definition is_one_of (value : string) (options : list string) : bool :=
  existsb (String.eqb value) options.

(** ** Field validators *)

Definition validate_canonical_sha256 (value field : string) : Res unit :=
  let error := invalid_argument "task digest must use canonical lowercase SHA-256"
                 ⊕ ("field", field) ⊕ ("digest", value) in
  match strip_prefix "sha256:" value with
  | None => Err error
  | Some hex =>
      reject negb (str_len hex =? 64)%N || negb (bytes_all is_lower_hex hex) with error else Ok tt
  end.

Definition validate_task_kind (value : string) : Res unit :=
  reject str_is_empty value || negb (String.eqb (trim value) value)
         || (MAX_TASK_KIND_BYTES <? str_len value)%N with
    invalid_argument "task kind must be a stable non-empty dotted name"
      ⊕ ("task_kind", value) else
  try_each (fun segment =>
    reject str_is_empty segment || negb (bytes_all is_name_char segment) with
      invalid_argument "task kind contains an invalid dotted segment" ⊕ ("task_kind", value) else
    Ok tt) (split "." value).

Definition is_replay_delivery_task_id (task_id : string) : bool :=
  match strip_prefix REPLAY_DELIVERY_TASK_PREFIX task_id with
  | Some suffix => (str_len suffix =? 64)%N && bytes_all is_lower_hex suffix
  | None => false
  end.

Definition stable_identity_rejected (limit : N) (value : string) : bool :=
  str_is_empty value || negb (String.eqb (trim value) value) || (limit <? str_len value)%N
  || existsb is_control (chars value).

Definition validate_execution_owner (value : string) : Res unit :=
  reject stable_identity_rejected MAX_TASK_EXECUTION_OWNER_BYTES value with
    invalid_argument "task execution owner is not a stable bounded identity" else
  Ok tt.

Definition validate_cancel_token (value : string) : Res unit :=
  reject stable_identity_rejected MAX_TASK_CANCEL_TOKEN_BYTES value with
    invalid_argument "task cancel token is not a stable bounded fence" else
  Ok tt.

(** artifact_store.rs *)
Definition validate_filesystem_artifact_key (key : string) : Res string :=
  let unstable := invalid_argument "artifact key must be a stable relative path"
                    ⊕ ("artifact_key", key) in
  reject str_is_empty (trim key) || negb (String.eqb (trim key) key) || contains_char backslash key
    with unstable else
  try_each (fun segment =>
    reject str_is_empty segment || String.eqb segment "." || String.eqb segment ".."
      with unstable else
    reject negb (bytes_all (fun c => is_name_char c || Ascii.eqb c ".") segment) with
      invalid_argument "artifact key contains unsupported filesystem characters"
        ⊕ ("artifact_key", key) else
    Ok tt) (split "/" key) >>?
  Ok key.

(** ** Policies, inputs, envelopes *)

Definition attempt_policy_validate (p : TaskAttemptPolicySnapshot) : Res unit :=
  reject (ap_max_attempts p =? 0)%N with
    invalid_argument "task attempt policy max_attempts must be at least one" else
  reject bool_decide (ap_attempt_timeout_ms p = Some 0%N) with
    invalid_argument "task attempt timeout must be greater than zero when present" else
  Ok tt.

Definition attempt_policy_new (max_attempts retry_backoff_ms : N) (attempt_timeout_ms : option N) :
    Res TaskAttemptPolicySnapshot :=
  let policy := MkAttemptPolicy max_attempts retry_backoff_ms attempt_timeout_ms in
  attempt_policy_validate policy >>? Ok policy.

Definition inline_too_large (bytes : string) : EvaError :=
  invalid_argument "inline task input exceeds the durable size limit"
    ⊕ ("size_bytes", n_to_string (str_len bytes))
    ⊕ ("max_size_bytes", n_to_string MAX_INLINE_TASK_INPUT_BYTES).

Definition input_inline (bytes : string) : Res TaskInputSnapshot :=
  reject (MAX_INLINE_TASK_INPUT_BYTES <? str_len bytes)%N with inline_too_large bytes else
  Ok (InputInline bytes (sha256_digest bytes)).

Definition input_validate (i : TaskInputSnapshot) : Res unit :=
  match i with
  | InputInline bytes digest =>
      reject (MAX_INLINE_TASK_INPUT_BYTES <? str_len bytes)%N with inline_too_large bytes else
      validate_canonical_sha256 digest "task input digest" >>?
      (let actual := sha256_digest bytes in
       reject negb (String.eqb digest actual) with
         invalid_argument "inline task input digest does not match payload bytes"
           ⊕ ("expected_digest", digest) ⊕ ("actual_digest", actual) else
       Ok tt)
  | InputArtifact artifact_ref digest =>
      validate_filesystem_artifact_key artifact_ref >>?
      validate_canonical_sha256 digest "task artifact digest"
  end.

Definition input_artifact (artifact_ref digest : string) : Res TaskInputSnapshot :=
  let input := InputArtifact artifact_ref digest in input_validate input >>? Ok input.

Definition envelope_validate (e : TaskEnvelopeSnapshot) : Res unit :=
  validate_task_kind (env_kind e) >>?
  id_parse KAgent (env_agent_id e) >>?
  map_err (fun error => invalid_argument "task idempotency key is invalid"
             ⊕ ("idempotency_key", env_idempotency_key e) ⊕ ("cause", err_message error))
    (id_parse KRequest (env_idempotency_key e)) >>?
  input_validate (env_input e) >>?
  attempt_policy_validate (env_attempt_policy e).

Definition envelope_new (kind agent_id : string) (input : TaskInputSnapshot)
    (idempotency_key : string) (policy : TaskAttemptPolicySnapshot) : Res TaskEnvelopeSnapshot :=
  let envelope := MkEnvelope kind agent_id input idempotency_key policy in
  envelope_validate envelope >>? Ok envelope.

Definition replay_delivery_validate (r : TaskReplayDeliverySnapshot) : Res unit :=
  id_parse KEvent (rd_replay_event_id r) >>? Ok tt.

Definition replay_delivery_new (replay_event_id : string) (delivery_index : N) :
    Res TaskReplayDeliverySnapshot :=
  let marker := MkReplayDelivery replay_event_id delivery_index in
  replay_delivery_validate marker >>? Ok marker.

(** ** Snapshots *)

(** A snapshot with the given id and status and every other field at its
    starting value; [TaskStateSnapshot::queued] and [from_storage] start
    from it. *)
Definition blank_task (task_id status : string) : TaskStateSnapshot :=
  {| ts_record_version := 0; ts_owner_generation := 0; ts_task_id := task_id; ts_envelope := None;
     ts_replay_delivery := None; ts_status := status; ts_attempts := 0;
     ts_execution_owner := None; ts_retry_max_attempts := 1; ts_cancel_requested := false;
     ts_cancel_accepted := false; ts_cancel_reason := None; ts_heartbeat_at_ms := None;
     ts_deadline_at_ms := None; ts_cancel_token := None; ts_result_digest := None;
     ts_result_size_bytes := None; ts_interrupted_reason := None; ts_error_kind := None;
     ts_error_message := None; ts_error_retryable := None; ts_retry_ready_at_ms := None;
     ts_logs := []; ts_dead_letters := []; ts_replayed_events := [] |}.

Definition task_queued (task_id : string) : Res TaskStateSnapshot :=
  id_parse KRequest task_id >>? Ok (blank_task task_id "queued").

(** The checks of [validate], in the order of the source. *)
Definition validate_owner (t : TaskStateSnapshot) : Res unit :=
  match ts_execution_owner t with
  | Some owner =>
      validate_execution_owner owner >>?
      (reject is_none (ts_envelope t) || (ts_attempts t =? 0)%N || is_none (ts_cancel_token t) with
        invalid_argument
          "task execution owner requires an envelope, active attempt, and cancel token" else
       Ok tt)
  | None => Ok tt
  end.

Definition validate_replay_marker (t : TaskStateSnapshot) : Res unit :=
  match ts_replay_delivery t with
  | None => Ok tt
  | Some marker =>
      replay_delivery_validate marker >>?
      (reject negb (is_replay_delivery_task_id (ts_task_id t)) with
         invalid_argument "replay delivery marker requires a reserved deterministic task id"
           ⊕ ("task_id", ts_task_id t) else
       match ts_envelope t with
       | None => Err (invalid_argument "replay delivery marker requires a task envelope")
       | Some envelope =>
           reject negb (ap_max_attempts (env_attempt_policy envelope) =? u32_max)%N
                  || is_some (ap_attempt_timeout_ms (env_attempt_policy envelope)) with
             invalid_argument "replay delivery envelope does not match its internal retry contract"
               ⊕ ("task_id", ts_task_id t) else
           Ok tt
       end)
  end.

Definition validate_result (t : TaskStateSnapshot) : Res unit :=
  match ts_result_digest t, ts_result_size_bytes t with
  | None, None => Ok tt
  | Some digest, Some _ =>
      if String.eqb (ts_status t) "completed" && is_some (ts_envelope t)
      then validate_canonical_sha256 digest "task result digest"
      else Err (invalid_argument "task result metadata requires completed status")
  | _, _ => Err (invalid_argument "task result digest and size must appear together")
  end.

Definition no_outcome_metadata (t : TaskStateSnapshot) : bool :=
  is_none (ts_error_kind t) && is_none (ts_error_message t) && is_none (ts_error_retryable t)
  && is_none (ts_retry_ready_at_ms t) && is_none (ts_interrupted_reason t).

Definition execution_metadata_valid (t : TaskStateSnapshot) : bool :=
  if is_one_of (ts_status t) ["running"; "cancelling"] then
    is_none (ts_result_digest t) && no_outcome_metadata t
  else if String.eqb (ts_status t) "completed" then
    is_some (ts_result_digest t) && no_outcome_metadata t
  else if String.eqb (ts_status t) "failed" then
    is_none (ts_result_digest t) && is_some (ts_error_kind t) && is_some (ts_error_message t)
    && is_none (ts_interrupted_reason t)
  else if String.eqb (ts_status t) "timed_out" then
    is_none (ts_result_digest t) && bool_decide (ts_error_kind t = Some "timeout")
    && is_some (ts_error_message t) && is_some (ts_heartbeat_at_ms t)
    && is_none (ts_interrupted_reason t)
  else if String.eqb (ts_status t) "cancelled" then
    is_none (ts_result_digest t) && no_outcome_metadata t
  else if is_one_of (ts_status t) ["interrupted"; "recovering"] then is_none (ts_result_digest t)
  else true.

Definition validate_envelope_mirror (t : TaskStateSnapshot) : Res unit :=
  match ts_envelope t with
  | None => Ok tt
  | Some envelope =>
      envelope_validate envelope >>?
      (reject negb (ts_retry_max_attempts t =? ap_max_attempts (env_attempt_policy envelope))%N with
         invalid_argument "task retry policy mirror does not match immutable envelope"
           ⊕ ("retry_max_attempts", n_to_string (ts_retry_max_attempts t))
           ⊕ ("envelope_max_attempts",
              n_to_string (ap_max_attempts (env_attempt_policy envelope))) else
       Ok tt)
  end.

Definition task_validate (t : TaskStateSnapshot) : Res unit :=
  id_parse KRequest (ts_task_id t) >>?
  (reject str_is_empty (ts_status t) with invalid_argument "task state status cannot be empty" else
   reject (ts_retry_max_attempts t =? 0)%N with
     invalid_argument "task retry_max_attempts must be at least one" else
   reject (ts_retry_max_attempts t <? ts_attempts t)%N with
     invalid_argument "task attempts cannot exceed retry_max_attempts"
       ⊕ ("attempts", n_to_string (ts_attempts t))
       ⊕ ("retry_max_attempts", n_to_string (ts_retry_max_attempts t)) else
   validate_owner t >>?
   match ts_cancel_token t with Some token => validate_cancel_token token | None => Ok tt end >>?
   validate_replay_marker t >>?
   (reject is_some (ts_error_retryable t)
           && (negb (is_one_of (ts_status t) ["failed"; "timed_out"])
               || is_none (ts_error_kind t) || is_none (ts_error_message t)) with
      invalid_argument "task retry classification requires a failed or timed-out outcome" else
    reject is_some (ts_retry_ready_at_ms t)
           && (negb (is_one_of (ts_status t) ["failed"; "timed_out"])
               || (ts_retry_max_attempts t <=? ts_attempts t)%N
               || bool_decide (ts_error_retryable t = Some false)) with
      invalid_argument "task retry readiness requires a retryable outcome with remaining attempts" else
    validate_result t >>?
    (reject is_some (ts_execution_owner t) && negb (execution_metadata_valid t) with
       invalid_argument "task execution metadata does not match lifecycle status"
         ⊕ ("status", ts_status t) else
     validate_envelope_mirror t))).

Definition queued_with_envelope (task_id : string) (envelope : TaskEnvelopeSnapshot) :
    Res TaskStateSnapshot :=
  envelope_validate envelope >>?
  (let? snapshot := task_queued task_id in
   let snapshot := snapshot
     <| ts_retry_max_attempts := ap_max_attempts (env_attempt_policy envelope) |>
     <| ts_envelope := Some envelope |> in
   task_validate snapshot >>? Ok snapshot).

Definition queued_with_replay_delivery (task_id : string) (envelope : TaskEnvelopeSnapshot)
    (replay_event_id : string) (delivery_index : N) : Res TaskStateSnapshot :=
  envelope_validate envelope >>?
  (let? snapshot := task_queued task_id in
   let? marker := replay_delivery_new replay_event_id delivery_index in
   let snapshot := snapshot
     <| ts_retry_max_attempts := ap_max_attempts (env_attempt_policy envelope) |>
     <| ts_envelope := Some envelope |> <| ts_replay_delivery := Some marker |> in
   task_validate snapshot >>? Ok snapshot).

(** ** Lifecycle operations *)

Definition push_log (t : TaskStateSnapshot) (level message : string) : TaskStateSnapshot :=
  t <| ts_logs := ts_logs t ++ [MkTaskLog (wrapping_add u64_max (len (ts_logs t)) 1) level message] |>.

Definition clear_result (t : TaskStateSnapshot) : TaskStateSnapshot :=
  t <| ts_result_digest := None |> <| ts_result_size_bytes := None |>.

(** The four error fields the source resets together. *)
Definition clear_error (t : TaskStateSnapshot) : TaskStateSnapshot :=
  t <| ts_error_kind := None |> <| ts_error_message := None |>
    <| ts_error_retryable := None |> <| ts_retry_ready_at_ms := None |>.

Definition is_terminal (t : TaskStateSnapshot) : bool :=
  is_one_of (ts_status t) ["completed"; "failed"; "cancelled"; "timed_out"; "interrupted"].

Definition requires_operator_reconciliation (t : TaskStateSnapshot) : bool :=
  String.eqb (ts_status t) "interrupted"
  && match ts_interrupted_reason t with
     | Some reason => starts_with UNKNOWN_EFFECT_RECOVERY_REASON_PREFIX reason
     | None => false end.

Definition task_error (message : string) (t : TaskStateSnapshot) : EvaError :=
  conflict message ⊕ ("task_id", ts_task_id t).
Definition status_error (message : string) (t : TaskStateSnapshot) : EvaError :=
  task_error message t ⊕ ("status", ts_status t).

Definition mark_running (t : TaskStateSnapshot) (heartbeat_at_ms : N) (deadline_at_ms : option N)
    (cancel_token : string) : TaskStateSnapshot :=
  push_log (t <| ts_status := "running" |> <| ts_heartbeat_at_ms := Some heartbeat_at_ms |>
              <| ts_deadline_at_ms := deadline_at_ms |> <| ts_cancel_token := Some cancel_token |>)
    "info" "task marked running".

Definition claim_for_execution (t : TaskStateSnapshot) (execution_owner : string)
    (heartbeat_at_ms : N) (deadline_at_ms : option N) (cancel_token : string) :
    Res (N * TaskStateSnapshot) :=
  reject negb (String.eqb (ts_status t) "queued") with
    status_error "only a queued task can be claimed" t else
  reject is_none (ts_envelope t) with
    task_error "task claim requires a recoverable task envelope" t else
  reject ts_cancel_requested t with task_error "cancelled queued task cannot be claimed" t else
  reject match ts_dead_letters t with [] => false | _ => true end with
    task_error "task with dead letters requires the retry owner before execution" t else
  reject is_some (ts_execution_owner t) || is_some (ts_cancel_token t) with
    task_error "queued task already carries an execution claim" t else
  validate_execution_owner execution_owner >>?
  validate_cancel_token cancel_token >>?
  (let? attempt := ok_or (checked_add usize_max (ts_attempts t) 1)
                     (conflict "task attempt counter is exhausted") in
   reject (ts_retry_max_attempts t <? attempt)%N with
     task_error "task retry policy has no remaining attempt" t
       ⊕ ("attempt", n_to_string attempt)
       ⊕ ("max_attempts", n_to_string (ts_retry_max_attempts t)) else
   let t := t <| ts_attempts := attempt |> <| ts_execution_owner := Some execution_owner |> in
   let t := clear_error ((clear_result t) <| ts_interrupted_reason := None |>) in
   let t := mark_running t heartbeat_at_ms deadline_at_ms cancel_token in
   let t := push_log t "info" ("task attempt " +:+ n_to_string attempt +:+ " claimed by worker") in
   task_validate t >>? Ok (attempt, t)).

Definition verify_execution_claim (t : TaskStateSnapshot) (execution_owner : string) (attempt : N)
    (cancel_token : string) : Res unit :=
  if bool_decide (ts_execution_owner t = Some execution_owner) && (ts_attempts t =? attempt)%N
     && bool_decide (ts_cancel_token t = Some cancel_token)
  then Ok tt
  else Err (task_error "task execution claim no longer matches the worker" t
              ⊕ ("attempt", n_to_string attempt)).

Definition complete_execution (t : TaskStateSnapshot) (execution_owner : string) (attempt : N)
    (cancel_token result_digest : string) (result_size_bytes : N) : Res TaskStateSnapshot :=
  verify_execution_claim t execution_owner attempt cancel_token >>?
  (reject negb (String.eqb (ts_status t) "running") with
     status_error "task is no longer running" t else
   validate_canonical_sha256 result_digest "task result digest" >>?
   (let t := t <| ts_status := "completed" |> <| ts_result_digest := Some result_digest |>
               <| ts_result_size_bytes := Some result_size_bytes |> in
    let t := push_log (clear_error t) "info" "task completed" in
    task_validate t >>? Ok t)).

Definition complete_committed_effect_execution (t : TaskStateSnapshot) (execution_owner : string)
    (attempt : N) (cancel_token result_digest : string) (result_size_bytes : N) :
    Res TaskStateSnapshot :=
  verify_execution_claim t execution_owner attempt cancel_token >>?
  (reject negb (is_one_of (ts_status t) ["running"; "cancelling"]) with
     status_error "committed effect task is no longer active" t else
   validate_canonical_sha256 result_digest "task result digest" >>?
   (let t := if String.eqb (ts_status t) "cancelling" then
               push_log (t <| ts_cancel_accepted := false |>) "warning"
                 "task cancellation was superseded by a committed effect"
             else t in
    let t := t <| ts_status := "completed" |> <| ts_result_digest := Some result_digest |>
               <| ts_result_size_bytes := Some result_size_bytes |> in
    let t := push_log (clear_error t) "info" "task completed from committed effect" in
    task_validate t >>? Ok t)).

Definition mark_failed (t : TaskStateSnapshot) (attempts : N) (error_kind error_message : string)
    (retryable : bool) : TaskStateSnapshot :=
  push_log ((clear_result (t <| ts_status := "failed" |> <| ts_attempts := attempts |>))
     <| ts_error_kind := Some error_kind |> <| ts_error_message := Some error_message |>
     <| ts_error_retryable := Some retryable |> <| ts_retry_ready_at_ms := None |>)
    "error" "task failed".

Definition fail_execution (t : TaskStateSnapshot) (execution_owner : string) (attempt : N)
    (cancel_token error_kind error_message : string) (retryable : bool) : Res TaskStateSnapshot :=
  verify_execution_claim t execution_owner attempt cancel_token >>?
  (reject negb (String.eqb (ts_status t) "running") with
     status_error "task is no longer running" t else
   let t := mark_failed (clear_result t) attempt error_kind error_message retryable in
   task_validate t >>? Ok t).

Definition mark_timed_out (t : TaskStateSnapshot) (now_ms : N) (retryable : bool) :
    TaskStateSnapshot :=
  push_log ((clear_result (t <| ts_status := "timed_out" |> <| ts_heartbeat_at_ms := Some now_ms |>))
     <| ts_error_kind := Some "timeout" |> <| ts_error_message := Some "task deadline exceeded" |>
     <| ts_error_retryable := Some retryable |> <| ts_retry_ready_at_ms := None |>)
    "error" ("task timed out at " +:+ n_to_string now_ms).

Definition time_out_execution (t : TaskStateSnapshot) (execution_owner : string) (attempt : N)
    (cancel_token : string) (now_ms : N) (retryable : bool) : Res TaskStateSnapshot :=
  verify_execution_claim t execution_owner attempt cancel_token >>?
  (reject negb (String.eqb (ts_status t) "running") with
     status_error "task is no longer running" t else
   let t := mark_timed_out (clear_result t) now_ms retryable in
   task_validate t >>? Ok t).

Definition mark_cancelled (t : TaskStateSnapshot) : TaskStateSnapshot :=
  push_log (clear_error (clear_result
    (t <| ts_status := "cancelled" |> <| ts_cancel_requested := true |>
       <| ts_cancel_accepted := true |>))) "warning" "task marked cancelled".

Definition cancel_execution (t : TaskStateSnapshot) (execution_owner : string) (attempt : N)
    (cancel_token : string) : Res TaskStateSnapshot :=
  verify_execution_claim t execution_owner attempt cancel_token >>?
  (reject negb (String.eqb (ts_status t) "cancelling") with
     status_error "task is not awaiting cancellation" t else
   let t := mark_cancelled (clear_result t) in
   task_validate t >>? Ok t).

Definition record_heartbeat (t : TaskStateSnapshot) (heartbeat_at_ms : N) : TaskStateSnapshot :=
  push_log (t <| ts_heartbeat_at_ms := Some heartbeat_at_ms |>) "info"
    ("task heartbeat at " +:+ n_to_string heartbeat_at_ms).

Definition touch_heartbeat (t : TaskStateSnapshot) (heartbeat_at_ms : N) : TaskStateSnapshot :=
  t <| ts_heartbeat_at_ms := Some (match ts_heartbeat_at_ms t with
                                   | Some previous => N.max previous heartbeat_at_ms
                                   | None => heartbeat_at_ms end) |>.

Definition request_cancel (t : TaskStateSnapshot) (reason : string) : TaskStateSnapshot :=
  let t := t <| ts_cancel_requested := true |> <| ts_cancel_reason := Some reason |> in
  if is_terminal t then
    push_log (t <| ts_cancel_accepted := false |>) "warning"
      "cancel requested after task reached a terminal state"
  else
    push_log (t <| ts_cancel_accepted := true |> <| ts_status := "cancelling" |>) "warning"
      ("cancel requested: " +:+ reason).

Definition mark_completed (t : TaskStateSnapshot) (attempts : N) : TaskStateSnapshot :=
  push_log (clear_error (clear_result
    (t <| ts_status := "completed" |> <| ts_attempts := attempts |>))) "info" "task completed".

Definition mark_interrupted (t : TaskStateSnapshot) (reason : string) : TaskStateSnapshot :=
  push_log ((clear_result (t <| ts_status := "interrupted" |>))
     <| ts_interrupted_reason := Some reason |>) "warning" ("task interrupted: " +:+ reason).

Definition mark_recovering (t : TaskStateSnapshot) (reason : string) : TaskStateSnapshot :=
  push_log ((clear_result (t <| ts_status := "recovering" |>))
     <| ts_interrupted_reason := Some reason |>) "warning" ("task recovering: " +:+ reason).

(** Back to the queue with the claim and every outcome field removed; the
    attempt counter stays. *)
Definition reset_to_queued (t : TaskStateSnapshot) : TaskStateSnapshot :=
  clear_error ((clear_result
    (t <| ts_status := "queued" |> <| ts_execution_owner := None |> <| ts_cancel_token := None |>
       <| ts_heartbeat_at_ms := None |> <| ts_deadline_at_ms := None |>))
    <| ts_interrupted_reason := None |>).

Definition not_recoverable (t : TaskStateSnapshot) : bool :=
  negb (is_one_of (ts_status t) ["running"; "interrupted"; "recovering"])
  || ts_cancel_requested t || ts_cancel_accepted t
  || match ts_dead_letters t with [] => false | _ => true end
  || (ts_retry_max_attempts t <=? ts_attempts t)%N || requires_operator_reconciliation t.

Definition mark_abandoned_replay_delivery_queued (t : TaskStateSnapshot) : Res TaskStateSnapshot :=
  reject is_none (ts_replay_delivery t) || not_recoverable t with
    status_error "task is not an abandoned replay delivery eligible for recovery" t else
  let t' := push_log (reset_to_queued t) "warning"
    ("abandoned replay delivery recovered from " +:+ ts_status t +:+ " after writer turnover") in
  task_validate t' >>? Ok t'.

Definition mark_abandoned_task_queued (t : TaskStateSnapshot) : Res TaskStateSnapshot :=
  reject is_some (ts_replay_delivery t) || is_none (ts_envelope t) || not_recoverable t with
    status_error "task is not an abandoned task eligible for safe recovery" t else
  let t' := push_log (reset_to_queued t) "warning"
    ("abandoned task recovered from " +:+ ts_status t +:+ " for a safe retry") in
  task_validate t' >>? Ok t'.

Definition RECONCILABLE : list string :=
  ["queued"; "running"; "cancelling"; "failed"; "timed_out"; "cancelled"; "interrupted"; "recovering"].

Definition recover_committed_effect (t : TaskStateSnapshot) (operation_digest result_digest : string)
    (result_size_bytes : N) : Res TaskStateSnapshot :=
  validate_canonical_sha256 operation_digest "effect operation digest" >>?
  validate_canonical_sha256 result_digest "task result digest" >>?
  (reject is_none (ts_envelope t) with
     task_error "committed effect recovery requires a task envelope" t else
   if String.eqb (ts_status t) "completed" then
     if bool_decide (ts_result_digest t = Some result_digest)
        && bool_decide (ts_result_size_bytes t = Some result_size_bytes)
     then Ok t
     else Err (task_error "committed effect conflicts with the existing task result" t
                 ⊕ ("operation_digest", operation_digest))
   else
     reject negb (is_one_of (ts_status t) RECONCILABLE) with
       status_error "task status cannot be reconciled from a committed effect" t else
     let t := t <| ts_status := "completed" |> <| ts_cancel_accepted := false |>
                <| ts_result_digest := Some result_digest |>
                <| ts_result_size_bytes := Some result_size_bytes |>
                <| ts_interrupted_reason := None |> in
     let t := push_log (clear_error t) "info"
                (COMMITTED_EFFECT_RECOVERY_LOG_PREFIX +:+ operation_digest) in
     task_validate t >>? Ok t).

Definition block_unknown_effect (t : TaskStateSnapshot) (operation_digest : string) :
    Res TaskStateSnapshot :=
  validate_canonical_sha256 operation_digest "effect operation digest" >>?
  (let reason := UNKNOWN_EFFECT_RECOVERY_REASON_PREFIX +:+ operation_digest in
   if String.eqb (ts_status t) "interrupted"
      && bool_decide (ts_interrupted_reason t = Some reason) then Ok t
   else
     reject String.eqb (ts_status t) "completed" with
       task_error "completed task cannot be blocked by a prepared effect" t
         ⊕ ("operation_digest", operation_digest) else
     reject is_none (ts_envelope t) with
       task_error "prepared effect recovery requires a task envelope" t else
     reject negb (is_one_of (ts_status t) RECONCILABLE) with
       status_error "task status cannot be blocked by a prepared effect" t else
     let t := (clear_result (t <| ts_status := "interrupted" |> <| ts_cancel_accepted := false |>))
                <| ts_interrupted_reason := Some reason |> in
     let t := push_log (clear_error t) "error" reason in
     task_validate t >>? Ok t).

(** ** Deadlines and freshness *)

Definition deadline_expired (t : TaskStateSnapshot) (now_ms : N) : bool :=
  match ts_deadline_at_ms t with Some deadline => (deadline <=? now_ms)%N | None => false end.

(** [saturating_sub] is truncated subtraction. *)
Definition heartbeat_age_ms (t : TaskStateSnapshot) (now_ms : N) : option N :=
  (fun heartbeat => (now_ms - heartbeat)%N) <$> ts_heartbeat_at_ms t.

Definition freshness_at (t : TaskStateSnapshot) (now_ms degraded_after_ms stale_after_ms : N) :
    TaskFreshness :=
  if negb (is_one_of (ts_status t) ["running"; "cancelling"]) then NotApplicable
  else if is_none (ts_execution_owner t) || is_none (ts_cancel_token t) || (ts_attempts t =? 0)%N
  then Stale
  else match heartbeat_age_ms t now_ms with
  | None => Stale
  | Some age_ms =>
      if (stale_after_ms <? degraded_after_ms)%N then Stale
      else if (age_ms <? degraded_after_ms)%N then Live
      else if (age_ms <? stale_after_ms)%N then Degraded
      else Stale
  end.

Definition default_freshness_at (t : TaskStateSnapshot) (now_ms : N) : TaskFreshness :=
  freshness_at t now_ms DEFAULT_TASK_HEARTBEAT_DEGRADED_AFTER_MS
    DEFAULT_TASK_HEARTBEAT_STALE_AFTER_MS.
