(* ===== verification/TaskTransition.v ===== *)
(** * Task fences, outcomes and the transition gate
    (crates/eva-storage/src/task_state.rs, lines 243-434 and 2957-3422)

    What a worker may do with a claimed attempt, the retry and recovery
    candidates, and [validate_task_state_transition], the one gate every
    commit of an existing record goes through. *)

From stdpp Require Import base numbers strings gmap list.
From S2P Require Import Prelude RustStr Error Ids Digest Durable TaskState.

Record TaskAttemptFence := MkFence {
  fence_task_id : string;
  fence_owner_generation : WriterGeneration;
  fence_execution_owner : string;
  fence_attempt : N;
  fence_cancel_token : string
}.

Record TaskExecutionClaim := MkClaim {
  claim_snapshot : TaskStateSnapshot;
  claim_fence : TaskAttemptFence
}.

Inductive TaskAttemptOutcome :=
| OutcomeCompleted (result_digest : string) (result_size_bytes : N)
| OutcomeFailed (error_kind error_message : string) (retryable : bool)
| OutcomeTimedOut (observed_at_ms : N) (retryable : bool).

Inductive TaskStateCommitMode :=
| Create | CompareAndSet | AttemptOutcome | Heartbeat | RetryRequeue | RestartRecovery.

Definition create_only (m : TaskStateCommitMode) : bool :=
  match m with Create => true | _ => false end.
Definition allow_attempt_outcome (m : TaskStateCommitMode) : bool :=
  match m with AttemptOutcome => true | _ => false end.
Definition allow_heartbeat (m : TaskStateCommitMode) : bool :=
  match m with AttemptOutcome | Heartbeat => true | _ => false end.
Definition allow_retry_requeue (m : TaskStateCommitMode) : bool :=
  match m with RetryRequeue => true | _ => false end.
Definition allow_restart_recovery (m : TaskStateCommitMode) : bool :=
  match m with RestartRecovery => true | _ => false end.

Definition task_execution_claim (t : TaskStateSnapshot) : Res TaskExecutionClaim :=
  let? execution_owner := ok_or (ts_execution_owner t)
    (internal "committed task claim is missing execution owner" ⊕ ("task_id", ts_task_id t)) in
  let? cancel_token := ok_or (ts_cancel_token t)
    (internal "committed task claim is missing cancel token" ⊕ ("task_id", ts_task_id t)) in
  reject negb (String.eqb (ts_status t) "running") || (ts_attempts t =? 0)%N with
    internal "committed task claim is not a running attempt"
      ⊕ ("task_id", ts_task_id t) ⊕ ("status", ts_status t) else
  Ok {| claim_snapshot := t;
        claim_fence := MkFence (ts_task_id t) (ts_owner_generation t) execution_owner
                         (ts_attempts t) cancel_token |}.

Definition verify_task_attempt_fence (t : TaskStateSnapshot) (fence : TaskAttemptFence) : Res unit :=
  reject negb (String.eqb (ts_task_id t) (fence_task_id fence)) with
    conflict "task attempt fence belongs to another task" else
  reject negb (ts_owner_generation t =? fence_owner_generation fence)%N with
    conflict "task attempt fence belongs to another writer generation"
      ⊕ ("task_id", fence_task_id fence) else
  verify_execution_claim t (fence_execution_owner fence) (fence_attempt fence)
    (fence_cancel_token fence).

Definition apply_task_attempt_outcome (t : TaskStateSnapshot) (fence : TaskAttemptFence)
    (outcome : TaskAttemptOutcome) : Res TaskStateSnapshot :=
  match outcome with
  | OutcomeCompleted result_digest result_size_bytes =>
      complete_execution t (fence_execution_owner fence) (fence_attempt fence)
        (fence_cancel_token fence) result_digest result_size_bytes
  | OutcomeFailed error_kind error_message retryable =>
      fail_execution t (fence_execution_owner fence) (fence_attempt fence)
        (fence_cancel_token fence) error_kind error_message retryable
  | OutcomeTimedOut observed_at_ms retryable =>
      time_out_execution t (fence_execution_owner fence) (fence_attempt fence)
        (fence_cancel_token fence) observed_at_ms retryable
  end.

Definition task_attempt_outcome_is_committed (t : TaskStateSnapshot) (outcome : TaskAttemptOutcome) :
    bool :=
  match outcome with
  | OutcomeCompleted result_digest result_size_bytes =>
      String.eqb (ts_status t) "completed"
      && bool_decide (ts_result_digest t = Some result_digest)
      && bool_decide (ts_result_size_bytes t = Some result_size_bytes)
  | OutcomeFailed error_kind error_message retryable =>
      String.eqb (ts_status t) "failed"
      && bool_decide (ts_error_kind t = Some error_kind)
      && bool_decide (ts_error_message t = Some error_message)
      && bool_decide (ts_error_retryable t = Some retryable)
  | OutcomeTimedOut observed_at_ms retryable =>
      String.eqb (ts_status t) "timed_out"
      && bool_decide (ts_heartbeat_at_ms t = Some observed_at_ms)
      && bool_decide (ts_error_retryable t = Some retryable)
  end.

(** ** Retry and recovery candidates *)

Definition stored_task_error_is_retryable (t : TaskStateSnapshot) : bool :=
  match ts_error_retryable t with
  | Some retryable => retryable
  | None => bool_decide (ts_error_kind t = Some "timeout")
            || bool_decide (ts_error_kind t = Some "unavailable")
  end.

Definition task_retry_is_eligible (t : TaskStateSnapshot) : bool :=
  is_one_of (ts_status t) ["failed"; "timed_out"]
  && (ts_attempts t <? ts_retry_max_attempts t)%N
  && is_some (ts_envelope t) && negb (ts_cancel_requested t) && negb (ts_cancel_accepted t)
  && stored_task_error_is_retryable t.

Definition task_retry_schedule_candidate (t : TaskStateSnapshot) (ready_at_ms : N) :
    option TaskStateSnapshot :=
  if negb (task_retry_is_eligible t) || is_some (ts_retry_ready_at_ms t) then None
  else Some (push_log (t <| ts_retry_ready_at_ms := Some ready_at_ms |>) "warning"
    ("task attempt " +:+ n_to_string (ts_attempts t) +:+ " retry scheduled for "
       +:+ n_to_string ready_at_ms)).

Definition task_retry_requeue_candidate (t : TaskStateSnapshot) : option TaskStateSnapshot :=
  if negb (task_retry_is_eligible t) then None
  else Some (push_log (reset_to_queued t) "warning"
    ("task attempt " +:+ n_to_string (ts_attempts t) +:+ " queued for retry after "
       +:+ ts_status t +:+ ": kind=" +:+ default "unknown" (ts_error_kind t)
       +:+ "; message=" +:+ default "failure details unavailable" (ts_error_message t))).

Definition task_retry_transition_candidate (t : TaskStateSnapshot) (observed_at_ms : N) :
    option TaskStateSnapshot :=
  if negb (task_retry_is_eligible t) then None
  else match ts_retry_ready_at_ms t with
  | Some ready_at_ms =>
      if (ready_at_ms <=? observed_at_ms)%N then task_retry_requeue_candidate t else None
  | None =>
      match ts_envelope t with
      | None => None
      | Some envelope =>
          let retry_backoff_ms := ap_retry_backoff_ms (env_attempt_policy envelope) in
          if (retry_backoff_ms =? 0)%N then task_retry_requeue_candidate t
          else task_retry_schedule_candidate t
                 (saturating_add u128_max observed_at_ms retry_backoff_ms)
      end
  end.

Definition task_replay_recovery_candidate (t : TaskStateSnapshot) : option TaskStateSnapshot :=
  ok (mark_abandoned_replay_delivery_queued t).

Definition task_abandoned_recovery_candidate (t : TaskStateSnapshot) : option TaskStateSnapshot :=
  ok (mark_abandoned_task_queued t).

Definition reject_current_generation_recovery (t : TaskStateSnapshot)
    (writer_generation : WriterGeneration) : Res unit :=
  reject (ts_owner_generation t =? writer_generation)%N with
    status_error "task restart recovery cannot reclaim the current writer generation" t
      ⊕ ("writer_generation", n_to_string writer_generation) else
  Ok tt.

(** ** The transition gate *)

Definition task_restart_recovery_transition_matches (current proposed : TaskStateSnapshot) : bool :=
  if negb (len (ts_logs proposed) =? saturating_add usize_max (len (ts_logs current)) 1)%N
     || negb (bool_decide (take (length (ts_logs current)) (ts_logs proposed) = ts_logs current))
  then false
  else match last (ts_logs proposed) with
  | None => false
  | Some log =>
      if String.eqb (tl_level log) "info" then
        match strip_prefix COMMITTED_EFFECT_RECOVERY_LOG_PREFIX (tl_message log),
              ts_result_digest proposed, ts_result_size_bytes proposed with
        | Some operation_digest, Some result_digest, Some result_size_bytes =>
            match recover_committed_effect current operation_digest result_digest
                    result_size_bytes with
            | Ok expected => bool_decide (expected = proposed)
            | Err _ => false
            end
        | _, _, _ => false
        end
      else if String.eqb (tl_level log) "error" then
        match strip_prefix UNKNOWN_EFFECT_RECOVERY_REASON_PREFIX (tl_message log) with
        | Some operation_digest =>
            match block_unknown_effect current operation_digest with
            | Ok expected => bool_decide (expected = proposed)
            | Err _ => false
            end
        | None => false
        end
      else false
  end.

Definition task_retry_special_transition_matches (current proposed : TaskStateSnapshot) : bool :=
  bool_decide (task_retry_requeue_candidate current = Some proposed)
  || match ts_retry_ready_at_ms proposed with
     | Some ready_at_ms =>
         bool_decide (task_retry_schedule_candidate current ready_at_ms = Some proposed)
     | None => false end
  || bool_decide (task_replay_recovery_candidate current = Some proposed)
  || bool_decide (task_abandoned_recovery_candidate current = Some proposed).

Definition claim_deadline_valid (current proposed : TaskStateSnapshot) : bool :=
  match (ts_envelope current ≫= fun e => ap_attempt_timeout_ms (env_attempt_policy e)),
        ts_heartbeat_at_ms proposed, ts_deadline_at_ms proposed with
  | None, Some _, None => true
  | Some timeout_ms, Some heartbeat_at_ms, Some deadline_at_ms =>
      bool_decide (checked_add u128_max heartbeat_at_ms timeout_ms = Some deadline_at_ms)
  | _, _, _ => false
  end.

Definition is_claim (current proposed : TaskStateSnapshot) : bool :=
  String.eqb (ts_status current) "queued" && String.eqb (ts_status proposed) "running"
  && bool_decide (checked_add usize_max (ts_attempts current) 1 = Some (ts_attempts proposed))
  && is_some (ts_envelope current) && negb (ts_cancel_requested current)
  && negb (ts_cancel_requested proposed)
  && match ts_dead_letters current with [] => true | _ => false end
  && (ts_attempts current <? ts_retry_max_attempts current)%N
  && is_none (ts_execution_owner current) && is_none (ts_cancel_token current)
  && is_some (ts_execution_owner proposed) && is_some (ts_cancel_token proposed)
  && is_none (ts_result_digest proposed) && is_none (ts_result_size_bytes proposed)
  && is_none (ts_interrupted_reason proposed) && is_none (ts_error_kind proposed)
  && is_none (ts_error_message proposed) && claim_deadline_valid current proposed.

Definition active (t : TaskStateSnapshot) : bool :=
  is_some (ts_execution_owner t) && is_one_of (ts_status t) ["running"; "cancelling"].

(** The status changes the lifecycle allows. *)
Definition lifecycle_allowed (current proposed : string) : bool :=
  if String.eqb current "queued" then
    is_one_of proposed ["queued"; "running"; "cancelling"; "cancelled"; "interrupted"; "recovering"]
  else if String.eqb current "running" then
    is_one_of proposed ["running"; "cancelling"; "completed"; "failed"; "cancelled"; "timed_out";
                        "interrupted"; "recovering"]
  else if String.eqb current "cancelling" then
    is_one_of proposed ["cancelling"; "completed"; "cancelled"; "interrupted"; "recovering"]
  else if String.eqb current "recovering" then
    is_one_of proposed ["recovering"; "cancelling"; "cancelled"; "interrupted"]
  else String.eqb proposed current.

Definition terminal_outcome_changed (current proposed : TaskStateSnapshot) : bool :=
  negb (bool_decide (ts_result_digest current = ts_result_digest proposed))
  || negb (bool_decide (ts_result_size_bytes current = ts_result_size_bytes proposed))
  || negb (bool_decide (ts_error_kind current = ts_error_kind proposed))
  || negb (bool_decide (ts_error_message current = ts_error_message proposed))
  || negb (bool_decide (ts_error_retryable current = ts_error_retryable proposed))
  || negb (bool_decide (ts_retry_ready_at_ms current = ts_retry_ready_at_ms proposed))
  || negb (bool_decide (ts_interrupted_reason current = ts_interrupted_reason proposed))
  || negb (bool_decide (ts_heartbeat_at_ms current = ts_heartbeat_at_ms proposed)).

Definition validate_task_state_transition (current proposed : TaskStateSnapshot)
    (attempt_outcome heartbeat retry_requeue restart_recovery : bool) : Res unit :=
  let is_claim := is_claim current proposed in
  let is_retry_requeue := retry_requeue && task_retry_special_transition_matches current proposed in
  let is_restart_recovery :=
    restart_recovery && task_restart_recovery_transition_matches current proposed in
  reject (negb (ts_attempts current =? ts_attempts proposed)%N
          || negb (bool_decide (ts_execution_owner current = ts_execution_owner proposed))
          || negb (bool_decide (ts_cancel_token current = ts_cancel_token proposed)))
         && negb is_claim && negb is_retry_requeue && negb is_restart_recovery with
    task_error "task execution fence can change only during queued claim" current
      ⊕ ("current_status", ts_status current) ⊕ ("proposed_status", ts_status proposed) else
  reject is_some (ts_execution_owner current)
         && negb (bool_decide (ts_deadline_at_ms current = ts_deadline_at_ms proposed))
         && negb is_retry_requeue && negb is_restart_recovery with
    task_error "task attempt deadline is immutable after claim" current else
  reject active current
         && negb (bool_decide (ts_heartbeat_at_ms current = ts_heartbeat_at_ms proposed))
         && negb heartbeat && negb is_retry_requeue && negb is_restart_recovery with
    status_error "claimed task heartbeat requires the fenced heartbeat API" current else
  reject active current
         && is_one_of (ts_status proposed) ["completed"; "failed"; "timed_out"; "cancelled"]
         && negb attempt_outcome && negb is_restart_recovery with
    task_error "claimed task outcome requires the fenced finish API" current
      ⊕ ("proposed_status", ts_status proposed) else
  reject is_terminal current && negb is_retry_requeue && negb is_restart_recovery
         && terminal_outcome_changed current proposed with
    status_error "task terminal outcome metadata is immutable" current else
  reject (negb (lifecycle_allowed (ts_status current) (ts_status proposed))
          && negb is_retry_requeue && negb is_restart_recovery)
         || (String.eqb (ts_status proposed) "running" && negb is_claim
             && negb (String.eqb (ts_status current) "running")) with
    task_error "task lifecycle transition is not allowed" current
      ⊕ ("current_status", ts_status current) ⊕ ("proposed_status", ts_status proposed) else
  Ok tt.

Definition validate_transition_in (mode : TaskStateCommitMode) (current proposed : TaskStateSnapshot) :
    Res unit :=
  validate_task_state_transition current proposed (allow_attempt_outcome mode)
    (allow_heartbeat mode) (allow_retry_requeue mode) (allow_restart_recovery mode).

(** ** What the candidates keep *)

Lemma is_some_true {A} (o : option A) : is_some o = true <-> exists a, o = Some a.
Proof. destruct o; naive_solver. Qed.
Lemma is_none_true {A} (o : option A) : is_none o = true <-> o = None.
Proof. destruct o; naive_solver. Qed.

Lemma is_one_of_true v l : is_one_of v l = true <-> v ∈ l.
Proof.
  unfold is_one_of. rewrite existsb_exists. split.
  - intros (x & Hx & ->%String.eqb_eq). by rewrite list_elem_of_In.
  - intros H. exists v. by rewrite <- list_elem_of_In, String.eqb_refl.
Qed.

(** How a special transition left the record: requeued, or scheduled. *)
Lemma retry_special_cases current proposed :
  task_retry_special_transition_matches current proposed = true ->
  ts_attempts proposed = ts_attempts current /\
  ((task_retry_is_eligible current = true /\
    ((exists m, proposed = push_log (reset_to_queued current) "warning" m) \/
     (exists ready m, proposed = push_log (current <| ts_retry_ready_at_ms := Some ready |>) "warning" m)))
   \/ (not_recoverable current = false /\
       exists m, proposed = push_log (reset_to_queued current) "warning" m)).
Proof.
  unfold task_retry_special_transition_matches. rewrite !orb_true_iff, !bool_decide_eq_true.
  intros [[[H|H]|H]|H].
  - unfold task_retry_requeue_candidate in H. destruct (task_retry_is_eligible current); [|done].
    cbn in H. simplify_eq. split; [done|]. left. split; [done|]. left. by eexists.
  - destruct (ts_retry_ready_at_ms proposed) as [ready|]; [|done]. apply bool_decide_eq_true in H.
    unfold task_retry_schedule_candidate in H. destruct (task_retry_is_eligible current); [|done].
    cbn [negb orb] in H. case_match; [done|]. simplify_eq. split; [done|]. left. split; [done|].
    right. by do 2 eexists.
  - unfold task_replay_recovery_candidate in H. rewrite ok_Some in H.
    unfold mark_abandoned_replay_delivery_queued in H.
    destruct (is_none (ts_replay_delivery current)); [done|]. cbn [orb] in H.
    destruct (not_recoverable current); [done|]. destruct (task_validate _); [|done]. simplify_eq.
    split; [done|]. right. split; [done|]. by eexists.
  - unfold task_abandoned_recovery_candidate in H. rewrite ok_Some in H.
    unfold mark_abandoned_task_queued in H.
    destruct (is_some (ts_replay_delivery current) || is_none (ts_envelope current)); [done|].
    cbn [orb] in H. destruct (not_recoverable current); [done|].
    destruct (task_validate _); [|done]. simplify_eq.
    split; [done|]. right. split; [done|]. by eexists.
Qed.

Lemma recover_committed_effect_Ok t op rd rs t' :
  recover_committed_effect t op rd rs = Ok t' ->
  (t' = t /\ ts_status t = "completed" /\ ts_result_digest t = Some rd /\
   ts_result_size_bytes t = Some rs) \/
  (ts_status t <> "completed" /\ is_one_of (ts_status t) RECONCILABLE = true /\
   ts_status t' = "completed" /\ ts_result_digest t' = Some rd /\ ts_result_size_bytes t' = Some rs /\
   ts_attempts t' = ts_attempts t).
Proof.
  unfold recover_committed_effect. intros H.
  destruct (validate_canonical_sha256 op _); [|done]. destruct (validate_canonical_sha256 rd _); [|done].
  destruct (is_none (ts_envelope t)); [done|].
  destruct (String.eqb_spec (ts_status t) "completed") as [Hs|Hs].
  - destruct (bool_decide _ && bool_decide _) eqn:E; [|done]. injection H as <-. reflect_bools. by left.
  - destruct (is_one_of (ts_status t) RECONCILABLE); [|done]. cbv zeta in H.
    destruct (task_validate _); [|done]. injection H as <-. right. by split_and!.
Qed.

Lemma block_unknown_effect_Ok t op t' :
  block_unknown_effect t op = Ok t' ->
  (t' = t /\ ts_status t = "interrupted" /\ requires_operator_reconciliation t = true) \/
  (ts_status t <> "completed" /\ is_one_of (ts_status t) RECONCILABLE = true /\
   ts_status t' = "interrupted" /\ requires_operator_reconciliation t' = true /\
   ts_attempts t' = ts_attempts t).
Proof.
  unfold block_unknown_effect, requires_operator_reconciliation. intros H.
  destruct (validate_canonical_sha256 op _); [|done]. cbv zeta in H.
  destruct (String.eqb (ts_status t) "interrupted" && _) eqn:E.
  { apply andb_true_iff in E as [E1 E2]. injection H as <-. left. rewrite E1.
    apply bool_decide_eq_true in E2 as ->. apply String.eqb_eq in E1.
    by rewrite starts_with_append. }
  destruct (String.eqb_spec (ts_status t) "completed") as [Hs|Hs]; [done|].
  destruct (is_none (ts_envelope t)); [done|].
  destruct (is_one_of (ts_status t) RECONCILABLE); [|done].
  destruct (task_validate _); [|done]. injection H as <-. right. by split_and!.
Qed.

Lemma restart_recovery_cases current proposed :
  task_restart_recovery_transition_matches current proposed = true ->
  ts_attempts proposed = ts_attempts current /\
  (ts_status current = "completed" -> proposed = current) /\
  (ts_status proposed = "completed" \/ requires_operator_reconciliation proposed = true).
Proof.
  unfold task_restart_recovery_transition_matches. intros H.
  destruct (negb (len (ts_logs proposed) =? _)%N || _); [done|].
  destruct (last (ts_logs proposed)) as [log|]; [|done].
  destruct (String.eqb (tl_level log) "info").
  - destruct (strip_prefix _ _) as [op|]; [|done]. destruct (ts_result_digest proposed) as [rd|]; [|done].
    destruct (ts_result_size_bytes proposed) as [rs|]; [|done].
    destruct (recover_committed_effect current op rd rs) as [e|] eqn:E; [|done].
    apply bool_decide_eq_true in H as ->.
    apply recover_committed_effect_Ok in E as [(-> & ? & _)|(? & _ & ? & _ & _ & ?)]; naive_solver.
  - destruct (String.eqb (tl_level log) "error"); [|done].
    destruct (strip_prefix _ _) as [op|]; [|done].
    destruct (block_unknown_effect current op) as [e|] eqn:E; [|done].
    apply bool_decide_eq_true in H as ->.
    apply block_unknown_effect_Ok in E as [(-> & Hs & ?)|(? & _ & ? & ? & ?)]; [|naive_solver].
    split_and!; [done| |by right]. done.
Qed.

(** The gate, check by check. *)
Lemma gate_cases current proposed ao hb rr rec :
  validate_task_state_transition current proposed ao hb rr rec = Ok tt ->
  let special := rr && task_retry_special_transition_matches current proposed in
  let recovery := rec && task_restart_recovery_transition_matches current proposed in
  (is_claim current proposed = true \/ special = true \/ recovery = true \/
   (ts_attempts proposed = ts_attempts current /\
    ts_execution_owner proposed = ts_execution_owner current /\
    ts_cancel_token proposed = ts_cancel_token current)) /\
  (special = true \/ recovery = true \/
   (lifecycle_allowed (ts_status current) (ts_status proposed) = true /\
    (is_terminal current = true -> terminal_outcome_changed current proposed = false) /\
    (active current = true -> is_one_of (ts_status proposed)
       ["completed"; "failed"; "timed_out"; "cancelled"] = true -> ao = true) /\
    (is_some (ts_execution_owner current) = true ->
       ts_deadline_at_ms proposed = ts_deadline_at_ms current))).
Proof.
  unfold validate_task_state_transition. cbv zeta.
  set (special := rr && _). set (recovery := rec && _). clearbody special recovery.
  intros H. repeat case_match; try done.
  split.
  - destruct (is_claim current proposed); [by left|]. destruct special; [by auto|].
    destruct recovery; [by auto|]. right. right. right.
    repeat match goal with H : (_ || _) && _ && _ && _ = false |- _ =>
      rewrite !andb_true_r in H; apply orb_false_iff in H as [[? ?]%orb_false_iff ?] end.
    reflect_bools. done.
  - destruct special; [by auto|]. destruct recovery; [by auto|]. right. right.
    cbn [negb] in *. rewrite ?andb_true_r in *.
    repeat match goal with
    | H : _ || (String.eqb _ "running" && _ && _) = false |- _ =>
        apply orb_false_iff in H as [?%negb_false_iff _]
    end.
    split_and!; [done|..].
    + intros Ht. by rewrite Ht in *.
    + intros Ha Ho. destruct ao; [done|]. by rewrite Ha, Ho in *.
    + intros Hs. rewrite Hs in *. cbn [andb] in *. reflect_bools. done.
Qed.

(** ** Histories of one record

    A commit of an existing record takes [proposed] through the gate, keeps
    the immutable identity, and stores it under the next version and the
    generation of the writer that committed it. *)
Definition store_commit (proposed : TaskStateSnapshot) (version : StateVersion)
    (generation : WriterGeneration) : TaskStateSnapshot :=
  proposed <| ts_record_version := version |> <| ts_owner_generation := generation |>.

Record TaskCommit := MkCommit {
  commit_mode : TaskStateCommitMode;
  commit_current : TaskStateSnapshot;
  commit_committed : TaskStateSnapshot
}.

Definition accepted (c : TaskCommit) : Prop :=
  exists proposed version generation,
    create_only (commit_mode c) = false /\
    task_validate proposed = Ok tt /\
    ts_envelope proposed = ts_envelope (commit_current c) /\
    ts_replay_delivery proposed = ts_replay_delivery (commit_current c) /\
    validate_transition_in (commit_mode c) (commit_current c) proposed = Ok tt /\
    commit_committed c = store_commit proposed version generation.

Inductive task_history : TaskStateSnapshot -> list TaskCommit -> TaskStateSnapshot -> Prop :=
| history_nil t : task_history t [] t
| history_cons c h t :
    accepted c -> task_history (commit_committed c) h t -> task_history (commit_current c) (c :: h) t.

Definition is_claim_commit (c : TaskCommit) : bool := is_claim (commit_current c) (commit_committed c).
Definition claims (h : list TaskCommit) : N := len (List.filter is_claim_commit h).

(** Neither the gate's tests nor [validate] look at the version or the
    writer generation. *)
Lemma is_claim_store t p v g : is_claim t (store_commit p v g) = is_claim t p.
Proof. reflexivity. Qed.
Lemma task_validate_store p v g : task_validate (store_commit p v g) = task_validate p.
Proof. reflexivity. Qed.

Lemma is_claim_true t p :
  is_claim t p = true ->
  ts_status t = "queued" /\ ts_status p = "running" /\
  ts_attempts p = (ts_attempts t + 1)%N /\ (ts_attempts p <= ts_retry_max_attempts t)%N /\
  ts_execution_owner t = None /\ is_Some (ts_execution_owner p) /\ is_Some (ts_envelope t).
Proof.
  unfold is_claim. intros H. repeat (apply andb_true_iff in H as [H ?]).
  repeat match goal with
  | H : is_some _ = true |- _ => apply is_some_true in H as [? ?]
  | H : is_none _ = true |- _ => apply is_none_true in H
  end.
  reflect_bools. match goal with H : checked_add _ _ _ = _ |- _ =>
    apply checked_add_Some in H as [? ?] end.
  split_and!; try done; lia.
Qed.

(** The attempt counter moves by one on a claim and not at all otherwise. *)
Lemma gate_attempts mode t p :
  validate_transition_in mode t p = Ok tt ->
  ts_attempts p = (ts_attempts t + if is_claim t p then 1 else 0)%N.
Proof.
  intros H. destruct (is_claim t p) eqn:Hc.
  { by apply is_claim_true in Hc as (_ & _ & ? & _). }
  apply gate_cases in H as [[H|[H|[H|H]]] _]; try congruence; rewrite N.add_0_r.
  - apply andb_true_iff in H as [_ H]. by apply retry_special_cases in H as [? _].
  - apply andb_true_iff in H as [_ H]. by apply restart_recovery_cases in H as [? _].
  - by destruct H.
Qed.

Lemma task_validate_bound t :
  task_validate t = Ok tt ->
  (ts_attempts t <= ts_retry_max_attempts t)%N /\
  forall e, ts_envelope t = Some e -> ts_retry_max_attempts t = ap_max_attempts (env_attempt_policy e).
Proof.
  unfold task_validate. intros H.
  destruct (id_parse _ _); [|done]. destruct (str_is_empty (ts_status t)); [done|].
  destruct (ts_retry_max_attempts t =? 0)%N; [done|].
  destruct (ts_retry_max_attempts t <? ts_attempts t)%N eqn:Ea; [done|].
  destruct (validate_owner t); [|done].
  destruct (match ts_cancel_token t with Some _ => _ | None => _ end); [|done].
  destruct (validate_replay_marker t); [|done].
  do 2 (match type of H with (if ?b then _ else _) = _ => destruct b; [done|] end).
  destruct (validate_result t); [|done].
  match type of H with (if ?b then _ else _) = _ => destruct b; [done|] end.
  reflect_bools. split; [done|]. intros e He. unfold validate_envelope_mirror in H.
  rewrite He in H. destruct (envelope_validate e); [|done].
  destruct (_ =? _)%N eqn:E; [|done]. by apply N.eqb_eq in E.
Qed.

Lemma history_valid t h t' :
  task_history t h t' -> task_validate t = Ok tt ->
  task_validate t' = Ok tt /\ ts_envelope t' = ts_envelope t /\
  ts_attempts t' = (ts_attempts t + claims h)%N.
Proof.
  induction 1 as [t|c h t' (p & v & g & _ & Hv & He & _ & Hg & Hc) _ IH]; intros Hvalid.
  - unfold claims. cbn. by rewrite N.add_0_r.
  - destruct IH as (Hv' & He' & Ha). { by rewrite Hc, task_validate_store. }
    split; [done|]. rewrite He', Ha. split; [by rewrite Hc|].
    apply gate_attempts in Hg. unfold claims, len, is_claim_commit. cbn [List.filter].
    rewrite Hc at 1. rewrite Hc at 1. rewrite is_claim_store. cbn [ts_attempts].
    change (ts_attempts (store_commit p v g)) with (ts_attempts p). rewrite Hg.
    destruct (is_claim (commit_current c) p); cbn [length]; lia.
Qed.

(** C1: along every sequence of accepted commits of a task record, by any
    writers and in any commit modes, the attempt counter counts exactly the
    claims that were committed, the envelope never changes, and the number of
    executions ever claimed stays within the envelope's [max_attempts]. *)
Theorem claims_within_budget t h t' :
  task_history t h t' -> task_validate t = Ok tt ->
  ts_attempts t' = (ts_attempts t + claims h)%N /\
  (ts_attempts t' <= ts_retry_max_attempts t')%N /\
  forall e, ts_envelope t = Some e ->
    ts_envelope t' = Some e /\ (claims h <= ap_max_attempts (env_attempt_policy e))%N.
Proof.
  intros Hh Hv. destruct (history_valid _ _ _ Hh Hv) as (Hv' & He & Ha).
  apply task_validate_bound in Hv' as [Hb Hm]. split_and!; [done..|].
  intros e Hse. rewrite He. split; [done|]. rewrite <- (Hm e) by congruence. lia.
Qed.

(** ** Final and blocked records *)

Lemma lifecycle_same current proposed :
  is_one_of current ["completed"; "failed"; "cancelled"; "timed_out"; "interrupted"] = true ->
  lifecycle_allowed current proposed = true -> proposed = current.
Proof.
  unfold lifecycle_allowed. intros Ht%is_one_of_true H.
  repeat (apply elem_of_cons in Ht as [Ht|Ht]); [..|by apply not_elem_of_nil in Ht];
    subst; by apply String.eqb_eq in H.
Qed.

Lemma eligible_status t :
  task_retry_is_eligible t = true -> ts_status t = "failed" \/ ts_status t = "timed_out".
Proof.
  unfold task_retry_is_eligible. intros H. repeat (apply andb_true_iff in H as [H _]).
  apply is_one_of_true in H. set_solver.
Qed.

Lemma recoverable_status t :
  not_recoverable t = false ->
  (ts_status t = "running" \/ ts_status t = "interrupted" \/ ts_status t = "recovering") /\
  requires_operator_reconciliation t = false.
Proof.
  unfold not_recoverable. intros H. repeat (apply orb_false_iff in H as [H ?]).
  apply negb_false_iff, is_one_of_true in H. set_solver.
Qed.

Lemma blocked_status t : requires_operator_reconciliation t = true -> ts_status t = "interrupted".
Proof. unfold requires_operator_reconciliation. intros [H _]%andb_true_iff. by apply String.eqb_eq. Qed.

Lemma special_not_completed t p :
  task_retry_special_transition_matches t p = true ->
  ts_status t <> "completed" /\ requires_operator_reconciliation t = false.
Proof.
  intros [_ [[[Hs|Hs]%eligible_status _]|[[Hs Hb]%recoverable_status _]]]%retry_special_cases.
  1,2: rewrite Hs; split; [done|]; destruct (requires_operator_reconciliation t) eqn:E; [|done];
    apply blocked_status in E; congruence.
  split; [|done]. intros E. rewrite E in Hs. naive_solver.
Qed.

(** Finished for good: completed, or waiting for an operator. *)
Definition parked (t : TaskStateSnapshot) : bool :=
  String.eqb (ts_status t) "completed" || requires_operator_reconciliation t.

Lemma parked_terminal t : parked t = true -> is_terminal t = true.
Proof.
  unfold parked, is_terminal. rewrite is_one_of_true. intros [H|H]%orb_true_iff.
  - apply String.eqb_eq in H as ->. set_solver.
  - apply blocked_status in H as ->. set_solver.
Qed.

Lemma parked_not_queued t : parked t = true -> ts_status t <> "queued".
Proof. intros H%parked_terminal E. unfold is_terminal in H. by rewrite E in H. Qed.

(** What a gate accepts from a parked record. *)
Lemma parked_gate mode t p :
  parked t = true -> validate_transition_in mode t p = Ok tt ->
  (mode = RestartRecovery /\ task_restart_recovery_transition_matches t p = true) \/
  (ts_status p = ts_status t /\ ts_result_digest p = ts_result_digest t /\
   ts_result_size_bytes p = ts_result_size_bytes t /\
   ts_interrupted_reason p = ts_interrupted_reason t).
Proof.
  intros Hp H. apply gate_cases in H as [_ [H|[H|(Hl & Ht & _)]]].
  - apply andb_true_iff in H as [_ H]. apply special_not_completed in H as [H1 H2].
    apply orb_true_iff in Hp as [Hp%String.eqb_eq|Hp]; congruence.
  - apply andb_true_iff in H as [H H']. left. by destruct mode.
  - apply parked_terminal in Hp. right. split; [by apply lifecycle_same|].
    specialize (Ht Hp). unfold terminal_outcome_changed in Ht. reflect_bools. done.
Qed.

Lemma parked_step c :
  accepted c -> parked (commit_current c) = true ->
  parked (commit_committed c) = true /\ is_claim_commit c = false.
Proof.
  intros (p & v & g & _ & _ & _ & _ & Hg & Hc) Hp. unfold is_claim_commit. rewrite Hc, is_claim_store.
  split.
  - change (parked p = true).
    destruct (parked_gate _ _ _ Hp Hg) as [[_ Hr]|(Hs & _ & _ & Hi)].
    + apply restart_recovery_cases in Hr as (_ & _ & [Hr|Hr]); unfold parked.
      * by rewrite Hr.
      * by rewrite Hr, orb_true_r.
    + revert Hp. unfold parked, requires_operator_reconciliation. by rewrite Hs, Hi.
  - destruct (is_claim _ _) eqn:E; [|done]. apply is_claim_true in E as [E _].
    by apply parked_not_queued in Hp.
Qed.

Lemma parked_history t h t' :
  task_history t h t' -> parked t = true -> parked t' = true /\ claims h = 0%N.
Proof.
  induction 1 as [|c h t' Hc _ IH]; [done|]. intros Hp.
  destruct (parked_step c Hc Hp) as [Hp' Hn]. destruct (IH Hp') as [? ?].
  split; [done|]. unfold claims. cbn [List.filter]. by rewrite Hn.
Qed.

Lemma completed_step c :
  accepted c -> ts_status (commit_current c) = "completed" ->
  ts_status (commit_committed c) = "completed" /\
  ts_result_digest (commit_committed c) = ts_result_digest (commit_current c) /\
  ts_result_size_bytes (commit_committed c) = ts_result_size_bytes (commit_current c) /\
  ts_envelope (commit_committed c) = ts_envelope (commit_current c) /\
  ts_replay_delivery (commit_committed c) = ts_replay_delivery (commit_current c).
Proof.
  intros (p & v & g & _ & _ & He & Hr & Hg & Hc) Hs. rewrite Hc.
  assert (parked (commit_current c) = true) as Hp by (unfold parked; by rewrite Hs).
  destruct (parked_gate _ _ _ Hp Hg) as [[_ Hm]|(? & ? & ? & _)].
  - apply restart_recovery_cases in Hm as (_ & Hm & _). by rewrite (Hm Hs).
  - cbn. split_and!; congruence.
Qed.

(** C3: a completed task stays completed with the same result digest and
    size through every later accepted commit, in every mode and by every
    writer, and is never claimed again. *)
Theorem completed_is_final t h t' :
  task_history t h t' -> ts_status t = "completed" ->
  ts_status t' = "completed" /\ ts_result_digest t' = ts_result_digest t /\
  ts_result_size_bytes t' = ts_result_size_bytes t /\ claims h = 0%N.
Proof.
  intros Hh Hs. assert (claims h = 0%N) as ->.
  { eapply parked_history; [done|]. unfold parked. by rewrite Hs. }
  induction Hh as [|c h t' Hc _ IH]; [done|].
  destruct (completed_step c Hc Hs) as (H1 & H2 & H3 & _). destruct (IH H1) as (? & Hd & Hz & _).
  split_and!; congruence.
Qed.

(** C2: a task blocked because a non-idempotent effect may have happened is
    never executed again: no accepted commit claims it, it can only stay
    blocked or become completed by restart recovery, and without a restart
    recovery its reason stays what it was. *)
Theorem unknown_effect_never_rerun t h t' :
  task_history t h t' -> requires_operator_reconciliation t = true ->
  claims h = 0%N /\
  (ts_status t' = "completed" \/ requires_operator_reconciliation t' = true) /\
  (Forall (fun c => commit_mode c <> RestartRecovery) h ->
   ts_status t' = "interrupted" /\ ts_interrupted_reason t' = ts_interrupted_reason t).
Proof.
  intros Hh Hb. assert (parked t = true) as Hp by (unfold parked; by rewrite Hb, orb_true_r).
  destruct (parked_history _ _ _ Hh Hp) as [Hp' ->]. split_and!; [done|..].
  { apply orb_true_iff in Hp' as [?%String.eqb_eq|?]; auto. }
  clear Hp'. induction Hh as [|c h t' (p & v & g & _ & _ & _ & _ & Hg & Hc) _ IH].
  { intros _. split; [by apply blocked_status|done]. }
  intros [Hm HF]%Forall_cons.
  destruct (parked_gate _ _ _ Hp Hg) as [[? _]|(Hs & _ & _ & Hi)]; [done|].
  rewrite Hc in IH.
  assert (requires_operator_reconciliation (store_commit p v g) = true) as Hb'.
  { change (requires_operator_reconciliation p = true). revert Hb.
    unfold requires_operator_reconciliation. by rewrite Hs, Hi. }
  destruct IH as [? Hr]; [done| |done|].
  { unfold parked. by rewrite Hb', orb_true_r. }
  split; [done|]. by rewrite Hr, <- Hi.
Qed.

(** ** A concrete history *)

(** A commit of [proposed] over [current], checked by evaluation. *)
Definition commit_of (mode : TaskStateCommitMode) (generation : WriterGeneration)
    (current proposed : TaskStateSnapshot) : TaskCommit :=
  MkCommit mode current
    (store_commit proposed (ts_record_version current + 1)%N generation).

Definition commit_checks (mode : TaskStateCommitMode) (current proposed : TaskStateSnapshot) : bool :=
  negb (create_only mode) && is_ok (task_validate proposed)
  && bool_decide (ts_envelope proposed = ts_envelope current)
  && bool_decide (ts_replay_delivery proposed = ts_replay_delivery current)
  && is_ok (validate_transition_in mode current proposed).

Lemma commit_of_accepted mode g t p :
  commit_checks mode t p = true -> accepted (commit_of mode g t p).
Proof.
  unfold commit_checks. intros H. repeat (apply andb_true_iff in H as [H ?]).
  repeat match goal with H : is_ok _ = true |- _ => apply is_ok_true in H as [[] ?] end.
  reflect_bools. exists p, (ts_record_version t + 1)%N, g. by split_and!.
Qed.

(** Proposals made one after the other; [None] once one is refused. *)
Fixpoint run_commits (t : TaskStateSnapshot)
    (proposals : list (TaskStateCommitMode * (TaskStateSnapshot -> option TaskStateSnapshot))) :
    option (list TaskCommit * TaskStateSnapshot) :=
  match proposals with
  | [] => Some ([], t)
  | (mode, propose) :: proposals =>
      p ← propose t;
      if commit_checks mode t p then
        let c := commit_of mode 1 t p in
        r ← run_commits (commit_committed c) proposals;
        Some (c :: r.1, r.2)
      else None
  end.

Lemma run_commits_history proposals t h t' :
  run_commits t proposals = Some (h, t') -> task_history t h t'.
Proof.
  revert t h. induction proposals as [|[mode propose] proposals IH]; intros t h; cbn [run_commits].
  - intros [= <- <-]. constructor.
  - destruct (propose t) as [p|]; [|done]. cbn [mbind option_bind].
    destruct (commit_checks mode t p) eqn:E; [|done].
    destruct (run_commits _ proposals) as [[h' t'']|] eqn:R; [|done].
    intros [= <- <-]. apply (history_cons (commit_of mode 1 t p)).
    + by apply commit_of_accepted.
    + by apply IH.
Qed.

Definition sample_policy : TaskAttemptPolicySnapshot := MkAttemptPolicy 2 0 (Some 1000%N).
Definition sample_envelope : TaskEnvelopeSnapshot :=
  MkEnvelope "agent.run" "basic-agent" (InputInline "hello" (sha256_digest "hello")) "request-1"
    sample_policy.
Definition sample_task : TaskStateSnapshot :=
  (blank_task "task-1" "queued") <| ts_retry_max_attempts := 2%N |>
     <| ts_envelope := Some sample_envelope |>.

Definition propose_claim (now : N) (t : TaskStateSnapshot) : option TaskStateSnapshot :=
  snd <$> ok (claim_for_execution t "worker-1" now (Some (now + 1000)%N) "token-1").
Definition propose_outcome (o : TaskAttemptOutcome) (t : TaskStateSnapshot) :
    option TaskStateSnapshot :=
  ok (apply_task_attempt_outcome t
        (MkFence "task-1" (ts_owner_generation t) "worker-1" (ts_attempts t) "token-1") o).

(** Claimed, failed, requeued, claimed again, completed. *)
Definition sample_proposals :
    list (TaskStateCommitMode * (TaskStateSnapshot -> option TaskStateSnapshot)) :=
  [ (CompareAndSet, propose_claim 10);
    (AttemptOutcome, propose_outcome (OutcomeFailed "unavailable" "no route" true));
    (RetryRequeue, task_retry_requeue_candidate);
    (CompareAndSet, propose_claim 20);
    (AttemptOutcome, propose_outcome (OutcomeCompleted (sha256_digest "done") 4)) ].

(** Reads an observation of a computed run off its equation. *)
Lemma run_observe {A} (f : list TaskCommit * TaskStateSnapshot -> A) r x v :
  r = Some x -> f <$> r = Some v -> f x = v.
Proof. intros ->. by intros [= ->]. Qed.

Lemma claims_within_budget_witness :
  exists h t', task_history sample_task h t' /\ claims h = 2%N /\ ts_attempts t' = 2%N.
Proof.
  destruct (run_commits sample_task sample_proposals) as [[h t']|] eqn:E.
  - assert (claims h = 2%N) as Hc.
    { apply (run_observe (fun r => claims r.1) _ _ _ E). vm_compute. reflexivity. }
    exists h, t'. pose proof (run_commits_history _ _ _ _ E) as Hh.
    destruct (claims_within_budget sample_task h t' Hh) as (Ha & _ & _);
      [vm_compute; reflexivity|].
    split; [exact Hh|]. split; [exact Hc|]. rewrite Ha, Hc. reflexivity.
  - exfalso. apply (f_equal is_some) in E. vm_compute in E. discriminate E.
Defined.

Definition completed_sample : TaskStateSnapshot :=
  default sample_task (snd <$> run_commits sample_task sample_proposals).

Lemma completed_is_final_witness :
  exists h t', task_history completed_sample h t' /\ length h = 1 /\
    ts_status t' = "completed" /\ ts_result_digest t' = Some (sha256_digest "done").
Proof.
  destruct (run_commits completed_sample [(CompareAndSet, fun t => Some (request_cancel t "late"))])
    as [[h t']|] eqn:E.
  - exists h, t'. pose proof (run_commits_history _ _ _ _ E) as Hh.
    destruct (completed_is_final completed_sample h t' Hh) as (Hs & Hd & _ & _);
      [vm_compute; reflexivity|].
    split; [exact Hh|]. split.
    { apply (run_observe (fun r => length r.1) _ _ _ E). vm_compute. reflexivity. }
    split; [exact Hs|]. rewrite Hd. vm_compute. reflexivity.
  - exfalso. apply (f_equal is_some) in E. vm_compute in E. discriminate E.
Defined.

Definition blocked_sample : TaskStateSnapshot :=
  default sample_task (snd <$> run_commits sample_task
    [ (CompareAndSet, propose_claim 10);
      (RestartRecovery, fun t => ok (block_unknown_effect t (sha256_digest "effect"))) ]).

Lemma unknown_effect_never_rerun_witness :
  exists h t', task_history blocked_sample h t' /\ length h = 1 /\ claims h = 0%N /\
    ts_status t' = "interrupted".
Proof.
  destruct (run_commits blocked_sample [(CompareAndSet, fun t => Some (request_cancel t "late"))])
    as [[h t']|] eqn:E.
  - exists h, t'. pose proof (run_commits_history _ _ _ _ E) as Hh.
    destruct (unknown_effect_never_rerun blocked_sample h t' Hh) as (Hc & _ & Hi);
      [vm_compute; reflexivity|].
    assert (commit_mode <$> h = [CompareAndSet]) as Hm.
    { apply (run_observe (fun r => commit_mode <$> r.1) _ _ _ E). vm_compute. reflexivity. }
    destruct h as [|c [|c' h]]; [discriminate Hm| |discriminate Hm]. injection Hm as Hm.
    split; [exact Hh|]. split; [reflexivity|]. split; [exact Hc|]. apply Hi.
    apply Forall_singleton. rewrite Hm. discriminate.
  - exfalso. apply (f_equal is_some) in E. vm_compute in E. discriminate E.
Defined.
