(* ===== verification/TaskAccept.v ===== *)
(** * Task operations and the gate (crates/eva-storage/src/task_state.rs)

    The snapshots the lifecycle operations build are the ones
    [validate_task_state_transition] lets through in the commit mode the
    store uses for them: claims, outcomes, cancellations, heartbeats,
    retries and restart recovery. *)

From stdpp Require Import base numbers strings gmap list.
From S2P Require Import Prelude RustStr Error Ids Digest Durable TaskState TaskTransition.

(** ** The operations pass their gate *)

(** The deadline [try_claim_queued] computes for a claim at [now]. *)
Definition claim_deadline (t : TaskStateSnapshot) (now : N) : option (option N) :=
  match ts_envelope t ≫= fun e => ap_attempt_timeout_ms (env_attempt_policy e) with
  | None => Some None
  | Some timeout_ms => Some <$> checked_add u128_max now timeout_ms
  end.

Lemma claim_for_execution_Ok t owner now deadline token n t' :
  claim_for_execution t owner now deadline token = Ok (n, t') ->
  claim_deadline t now = Some deadline ->
  is_claim t t' = true /\ task_validate t' = Ok tt /\ ts_envelope t' = ts_envelope t /\
  ts_replay_delivery t' = ts_replay_delivery t /\ n = ts_attempts t'.
Proof.
  unfold claim_for_execution. intros H Hd.
  destruct (String.eqb (ts_status t) "queued") eqn:Es; [|done]. cbn [negb] in H.
  destruct (ts_envelope t) as [e|] eqn:Ee; [|done]. cbn [is_none] in H.
  destruct (ts_cancel_requested t) eqn:Ec; [done|]. destruct (ts_dead_letters t) eqn:El; [|done].
  destruct (ts_execution_owner t) eqn:Eo; [done|]. destruct (ts_cancel_token t) eqn:Et; [done|].
  cbn [is_some is_none negb orb] in H.
  destruct (validate_execution_owner owner); [|done]. destruct (validate_cancel_token token); [|done].
  destruct (checked_add usize_max (ts_attempts t) 1) as [a|] eqn:Ea; [|done]. cbn [ok_or] in H.
  destruct (ts_retry_max_attempts t <? a)%N eqn:Em; [done|]. cbv zeta in H.
  match type of H with context [task_validate ?x] => set (t1 := x) in H end.
  destruct (task_validate t1) as [[]|] eqn:Ev; [|done]. injection H as <- <-.
  split; [|by rewrite Ev].
  pose proof (proj1 (checked_add_Some _ _ _ _) Ea) as [-> ?].
  unfold is_claim. rewrite Es, Ee, Ec, Eo, Et, El, Ea.
  apply N.ltb_ge in Em. assert (ts_attempts t <? ts_retry_max_attempts t = true)%N as -> by (apply N.ltb_lt; lia).
  unfold claim_deadline_valid. unfold claim_deadline in Hd. rewrite Ee in *.
  cbn in Hd. cbn -[u128_max usize_max checked_add].
  rewrite !bool_decide_eq_true_2 by done. rewrite Ec. cbn [negb andb].
  destruct (ap_attempt_timeout_ms _) as [ms|]; cbn in *; [|by simplify_eq].
  destruct (checked_add u128_max now ms) eqn:E; [|done]. cbn in Hd. simplify_eq.
  by apply bool_decide_eq_true_2.
Qed.

(** A claimed attempt whose fence and deadline are kept: what the gate still
    asks of it. *)
Lemma gate_attempt_ok mode t p :
  ts_attempts p = ts_attempts t -> ts_execution_owner p = ts_execution_owner t ->
  ts_cancel_token p = ts_cancel_token t -> ts_deadline_at_ms p = ts_deadline_at_ms t ->
  ts_status t = "running" \/ ts_status t = "cancelling" ->
  ts_status p = ts_status t \/ ts_status p <> "running" ->
  lifecycle_allowed (ts_status t) (ts_status p) = true ->
  allow_heartbeat mode = true \/ ts_heartbeat_at_ms p = ts_heartbeat_at_ms t ->
  allow_attempt_outcome mode = true \/
    is_one_of (ts_status p) ["completed"; "failed"; "timed_out"; "cancelled"] = false ->
  validate_transition_in mode t p = Ok tt.
Proof.
  intros Ha Ho Hc Hd Hs Hp Hl Hh Hout.
  unfold validate_transition_in, validate_task_state_transition. cbv zeta.
  set (special := allow_retry_requeue mode && _). set (recovery := allow_restart_recovery mode && _).
  clearbody special recovery. rewrite Ha, Ho, Hc, Hd, N.eqb_refl.
  rewrite !(bool_decide_eq_true_2 (_ = _)) by done. cbn [negb orb andb].
  rewrite andb_false_r. cbn [andb].
  assert (negb (bool_decide (ts_heartbeat_at_ms t = ts_heartbeat_at_ms p)) &&
          negb (allow_heartbeat mode) = false) as Hhb.
  { destruct Hh as [Hh|Hh]; rewrite Hh; [by rewrite andb_false_r|]. by rewrite bool_decide_eq_true_2. }
  assert (is_one_of (ts_status p) ["completed"; "failed"; "timed_out"; "cancelled"] &&
          negb (allow_attempt_outcome mode) = false) as Hoc.
  { destruct Hout as [Hout|Hout]; rewrite Hout; [by rewrite andb_false_r|done]. }
  assert (active t && negb (bool_decide (ts_heartbeat_at_ms t = ts_heartbeat_at_ms p)) &&
          negb (allow_heartbeat mode) && negb special && negb recovery = false) as ->.
  { rewrite <- (andb_assoc (active t)), Hhb, andb_false_r. done. }
  assert (active t && is_one_of (ts_status p) ["completed"; "failed"; "timed_out"; "cancelled"] &&
          negb (allow_attempt_outcome mode) && negb recovery = false) as ->.
  { rewrite <- (andb_assoc (active t)), Hoc, andb_false_r. done. }
  assert (is_terminal t = false) as ->.
  { unfold is_terminal. destruct Hs as [Hs|Hs]; by rewrite Hs. }
  rewrite Hl. cbn [negb orb andb].
  destruct (String.eqb_spec (ts_status p) "running") as [Hr|]; [|done].
  destruct Hp as [Hp|]; [|done]. rewrite <- Hp, Hr. cbn. by rewrite andb_false_r.
Qed.

Lemma verify_execution_claim_Ok t owner n token :
  verify_execution_claim t owner n token = Ok tt ->
  ts_execution_owner t = Some owner /\ ts_attempts t = n /\ ts_cancel_token t = Some token.
Proof.
  unfold verify_execution_claim. intros H. destruct (_ && _) eqn:E; [|done]. reflect_bools. done.
Qed.

(** One case per element of a listed set. *)
Ltac elem_cases H :=
  repeat (apply elem_of_cons in H as [H|H]); try (by apply not_elem_of_nil in H).

(** The last step of every operation: validate, then return. *)
Lemma validated_Ok t t' : (task_validate t >>? Ok t) = Ok t' -> t' = t /\ task_validate t = Ok tt.
Proof. destruct (task_validate t) as [[]|]; [|done]. by intros [= <-]. Qed.

Lemma attempt_guard_Ok {A} t owner n token status error (k : Res A) a :
  (verify_execution_claim t owner n token >>?
   (reject negb (String.eqb (ts_status t) status) with error else k)) = Ok a ->
  ts_execution_owner t = Some owner /\ ts_attempts t = n /\ ts_cancel_token t = Some token /\
  ts_status t = status /\ k = Ok a.
Proof.
  intros H. destruct (verify_execution_claim t owner n token) as [[]|] eqn:E; [|done].
  apply verify_execution_claim_Ok in E as (? & ? & ?).
  destruct (String.eqb_spec (ts_status t) status); [|done]. by split_and!.
Qed.

(** What an outcome must keep for the gate. *)
Lemma gate_outcome_ok t p :
  ts_attempts p = ts_attempts t -> ts_execution_owner p = ts_execution_owner t ->
  ts_cancel_token p = ts_cancel_token t -> ts_deadline_at_ms p = ts_deadline_at_ms t ->
  ts_status t = "running" /\ ts_status p ∈ ["completed"; "failed"; "timed_out"] \/
  ts_status t = "cancelling" /\ ts_status p ∈ ["completed"; "cancelled"] ->
  validate_transition_in AttemptOutcome t p = Ok tt.
Proof.
  intros ? ? ? ? Hs. apply gate_attempt_ok; try done; [| | |by left|by left].
  - destruct Hs as [[? _]|[? _]]; auto.
  - right. intros E. rewrite E in Hs. set_solver.
  - destruct Hs as [[-> Hp]|[-> Hp]]; elem_cases Hp; rewrite Hp; reflexivity.
Qed.

Lemma complete_execution_Ok t owner n token d z t' :
  complete_execution t owner n token d z = Ok t' ->
  task_validate t' = Ok tt /\ ts_envelope t' = ts_envelope t /\
  ts_replay_delivery t' = ts_replay_delivery t /\
  task_attempt_outcome_is_committed t' (OutcomeCompleted d z) = true /\
  validate_transition_in AttemptOutcome t t' = Ok tt.
Proof.
  unfold complete_execution. intros (? & ? & ? & Hs & H)%attempt_guard_Ok.
  destruct (validate_canonical_sha256 _ _); [|done].
  apply validated_Ok in H as [-> Hv]. split_and!; [exact Hv|done|done| |].
  - cbn. by rewrite !bool_decide_eq_true_2.
  - apply gate_outcome_ok; try done. left. split; [done|]. cbn. set_solver.
Qed.

Lemma fail_execution_Ok t owner n token k m r t' :
  fail_execution t owner n token k m r = Ok t' ->
  task_validate t' = Ok tt /\ ts_envelope t' = ts_envelope t /\
  ts_replay_delivery t' = ts_replay_delivery t /\
  task_attempt_outcome_is_committed t' (OutcomeFailed k m r) = true /\
  validate_transition_in AttemptOutcome t t' = Ok tt.
Proof.
  unfold fail_execution. intros (? & ? & ? & Hs & H)%attempt_guard_Ok.
  apply validated_Ok in H as [-> Hv]. split_and!; [exact Hv|done|done| |].
  - cbn. by rewrite !bool_decide_eq_true_2.
  - apply gate_outcome_ok; try done. left. split; [done|]. cbn. set_solver.
Qed.

Lemma time_out_execution_Ok t owner n token now r t' :
  time_out_execution t owner n token now r = Ok t' ->
  task_validate t' = Ok tt /\ ts_envelope t' = ts_envelope t /\
  ts_replay_delivery t' = ts_replay_delivery t /\
  task_attempt_outcome_is_committed t' (OutcomeTimedOut now r) = true /\
  validate_transition_in AttemptOutcome t t' = Ok tt.
Proof.
  unfold time_out_execution. intros (? & ? & ? & Hs & H)%attempt_guard_Ok.
  apply validated_Ok in H as [-> Hv]. split_and!; [exact Hv|done|done| |].
  - cbn. by rewrite !bool_decide_eq_true_2.
  - apply gate_outcome_ok; try done. left. split; [done|]. cbn. set_solver.
Qed.

Lemma cancel_execution_Ok t owner n token t' :
  cancel_execution t owner n token = Ok t' ->
  task_validate t' = Ok tt /\ ts_envelope t' = ts_envelope t /\
  ts_replay_delivery t' = ts_replay_delivery t /\
  validate_transition_in AttemptOutcome t t' = Ok tt.
Proof.
  unfold cancel_execution. intros (? & ? & ? & Hs & H)%attempt_guard_Ok.
  apply validated_Ok in H as [-> Hv]. split_and!; [exact Hv|done|done|].
  apply gate_outcome_ok; try done. right. split; [done|]. cbn. set_solver.
Qed.

Lemma commit_checks_true mode t p :
  create_only mode = false -> task_validate p = Ok tt -> ts_envelope p = ts_envelope t ->
  ts_replay_delivery p = ts_replay_delivery t -> validate_transition_in mode t p = Ok tt ->
  commit_checks mode t p = true.
Proof.
  intros Hc Hv He Hr Hg. unfold commit_checks. rewrite Hc, Hv, He, Hr, Hg.
  by rewrite !bool_decide_eq_true_2.
Qed.

(** An accepted claim. *)
Lemma gate_claim_ok t p : is_claim t p = true -> validate_transition_in CompareAndSet t p = Ok tt.
Proof.
  intros Hc. pose proof (is_claim_true _ _ Hc) as (Hs & Hp & _ & _ & Ho & _).
  unfold validate_transition_in, validate_task_state_transition. cbv zeta.
  rewrite Hc, Hs, Hp. unfold active, is_terminal. rewrite Ho, Hs.
  cbn [negb]. rewrite andb_false_r. reflexivity.
Qed.

(** A renewed heartbeat keeps a running record valid. *)
Lemma touch_heartbeat_valid t now :
  task_validate t = Ok tt -> is_one_of (ts_status t) ["running"; "cancelling"] = true ->
  task_validate (touch_heartbeat t now) = Ok tt.
Proof.
  intros Hv Hs.
  assert (execution_metadata_valid (touch_heartbeat t now) = execution_metadata_valid t) as He.
  { unfold execution_metadata_valid. change (ts_status (touch_heartbeat t now)) with (ts_status t).
    by rewrite Hs. }
  revert Hv. unfold task_validate. rewrite He. done.
Qed.

(** Everything a worker does with a task goes through: a claim the code
    builds is a claim for the gate and is accepted as a plain compare-and-set,
    the outcome of a fenced attempt (completed, failed or timed out) is
    accepted as an attempt outcome and recognised as committed afterwards, a
    fenced cancellation likewise, and a heartbeat as a heartbeat; each keeps
    the immutable identity and leaves a valid record (the heartbeat one of a
    valid record). *)
Theorem attempt_operations_accepted t :
  (forall owner now deadline token n t',
     claim_for_execution t owner now deadline token = Ok (n, t') ->
     claim_deadline t now = Some deadline ->
     commit_checks CompareAndSet t t' = true /\ is_claim t t' = true /\ n = ts_attempts t') /\
  (forall fence o t',
     apply_task_attempt_outcome t fence o = Ok t' ->
     commit_checks AttemptOutcome t t' = true /\ task_attempt_outcome_is_committed t' o = true) /\
  (forall owner n token t',
     cancel_execution t owner n token = Ok t' -> commit_checks AttemptOutcome t t' = true) /\
  (forall fence now,
     verify_task_attempt_fence t fence = Ok tt -> task_validate t = Ok tt ->
     is_one_of (ts_status t) ["running"; "cancelling"] = true ->
     commit_checks Heartbeat t (touch_heartbeat t now) = true).
Proof.
  split_and!.
  - intros owner now deadline token n t' H Hd.
    destruct (claim_for_execution_Ok _ _ _ _ _ _ _ H Hd) as (Hc & Hv & He & Hr & ->).
    split_and!; [|done..]. apply commit_checks_true; try done. by apply gate_claim_ok.
  - intros fence o t' H. destruct o; cbn [apply_task_attempt_outcome] in H.
    + apply complete_execution_Ok in H as (? & ? & ? & ? & ?). by auto using commit_checks_true.
    + apply fail_execution_Ok in H as (? & ? & ? & ? & ?). by auto using commit_checks_true.
    + apply time_out_execution_Ok in H as (? & ? & ? & ? & ?). by auto using commit_checks_true.
  - intros owner n token t' H. apply cancel_execution_Ok in H as (? & ? & ? & ?).
    by apply commit_checks_true.
  - intros fence now _ Hv Hs. apply commit_checks_true; try done.
    + by apply touch_heartbeat_valid.
    + apply is_one_of_true in Hs. apply gate_attempt_ok; try done; [| | |by left|].
      * set_solver.
      * by left.
      * elem_cases Hs; cbn; rewrite Hs; reflexivity.
      * right. elem_cases Hs; cbn; rewrite Hs; reflexivity.
Qed.

Lemma attempt_operations_accepted_witness :
  exists t', claim_for_execution sample_task "worker-1" 10 (Some 1010%N) "token-1" = Ok (1%N, t') /\
    commit_checks CompareAndSet sample_task t' = true.
Proof.
  destruct (claim_for_execution sample_task "worker-1" 10 (Some 1010%N) "token-1") as [[n t']|e] eqn:E.
  - assert (Ok 1%N = result_map fst (claim_for_execution sample_task "worker-1" 10 (Some 1010%N) "token-1"))
      as Hn by (vm_compute; reflexivity).
    rewrite E in Hn. injection Hn as <-. exists t'. split; [reflexivity|].
    apply (proj1 (attempt_operations_accepted sample_task) _ _ _ _ _ _ E). reflexivity.
  - exfalso. apply (f_equal is_ok) in E. vm_compute in E. discriminate E.
Defined.

(** ** Retries and recovery *)

(** [validate], check by check. *)
Record task_valid (t : TaskStateSnapshot) : Prop := {
  tv_id : exists i, id_parse KRequest (ts_task_id t) = Ok i;
  tv_status : str_is_empty (ts_status t) = false;
  tv_max : ts_retry_max_attempts t <> 0%N;
  tv_attempts : (ts_attempts t <= ts_retry_max_attempts t)%N;
  tv_owner : validate_owner t = Ok tt;
  tv_token : match ts_cancel_token t with Some token => validate_cancel_token token | None => Ok tt end
             = Ok tt;
  tv_marker : validate_replay_marker t = Ok tt;
  tv_retryable : is_some (ts_error_retryable t)
           && (negb (is_one_of (ts_status t) ["failed"; "timed_out"])
               || is_none (ts_error_kind t) || is_none (ts_error_message t)) = false;
  tv_ready : is_some (ts_retry_ready_at_ms t)
           && (negb (is_one_of (ts_status t) ["failed"; "timed_out"])
               || (ts_retry_max_attempts t <=? ts_attempts t)%N
               || bool_decide (ts_error_retryable t = Some false)) = false;
  tv_result : validate_result t = Ok tt;
  tv_metadata : is_some (ts_execution_owner t) && negb (execution_metadata_valid t) = false;
  tv_mirror : validate_envelope_mirror t = Ok tt
}.

Lemma task_validate_iff t : task_validate t = Ok tt <-> task_valid t.
Proof.
  unfold task_validate. split.
  - intros H. destruct (id_parse _ _) eqn:?; [|done]. destruct (str_is_empty (ts_status t)) eqn:?; [done|].
    destruct (ts_retry_max_attempts t =? 0)%N eqn:?; [done|].
    destruct (ts_retry_max_attempts t <? ts_attempts t)%N eqn:?; [done|].
    destruct (validate_owner t) as [[]|] eqn:?; [|done].
    destruct (match ts_cancel_token t with Some _ => _ | None => _ end) as [[]|] eqn:?; [|done].
    destruct (validate_replay_marker t) as [[]|] eqn:?; [|done].
    match type of H with (if ?b then _ else _) = _ => destruct b eqn:?; [done|] end.
    match type of H with (if ?b then _ else _) = _ => destruct b eqn:?; [done|] end.
    destruct (validate_result t) as [[]|] eqn:?; [|done].
    match type of H with (if ?b then _ else _) = _ => destruct b eqn:?; [done|] end.
    constructor; try done; [by eexists|by apply N.eqb_neq|by apply N.ltb_ge].
  - intros [[i ->] -> Hm Ha -> -> -> -> -> -> -> ->].
    apply N.eqb_neq in Hm as ->. by apply N.ltb_ge in Ha as ->.
Qed.

(** Requeueing a valid record gives a valid one. *)
Lemma reset_to_queued_valid t l m :
  task_validate t = Ok tt -> task_validate (push_log (reset_to_queued t) l m) = Ok tt.
Proof.
  rewrite !task_validate_iff. intros []. by constructor.
Qed.

Lemma schedule_valid t ready l m :
  task_validate t = Ok tt -> task_retry_is_eligible t = true ->
  task_validate (push_log (t <| ts_retry_ready_at_ms := Some ready |>) l m) = Ok tt.
Proof.
  rewrite !task_validate_iff. intros [] He. constructor; try done.
  - unfold task_retry_is_eligible in He.
    destruct (is_one_of (ts_status t) ["failed"; "timed_out"]) eqn:E1; [|done]. cbn [andb] in He.
    destruct (ts_attempts t <? ts_retry_max_attempts t)%N eqn:E2; [|done].
    apply andb_true_iff in He as [_ He]. unfold stored_task_error_is_retryable in He.
    cbn -[is_one_of]. rewrite E1. apply N.ltb_lt, N.leb_gt in E2. rewrite E2. cbn.
    apply bool_decide_eq_false_2. intros E. by rewrite E in He.
  - revert tv_metadata0. unfold execution_metadata_valid. unfold task_retry_is_eligible in He.
    destruct (is_one_of (ts_status t) ["failed"; "timed_out"]) eqn:E1; [|done].
    apply is_one_of_true in E1. elem_cases E1; cbn; rewrite E1; cbn; done.
Qed.

Lemma eligible_not_active t : task_retry_is_eligible t = true -> active t = false.
Proof.
  intros [H|H]%eligible_status; unfold active; rewrite H; by rewrite andb_false_r.
Qed.

(** The gate lets a special transition through in its mode. *)
Lemma gate_special_ok t p :
  task_retry_special_transition_matches t p = true -> validate_transition_in RetryRequeue t p = Ok tt.
Proof.
  intros Hm. unfold validate_transition_in, validate_task_state_transition. cbv zeta. rewrite Hm.
  cbn [allow_retry_requeue allow_attempt_outcome allow_restart_recovery andb negb].
  rewrite !andb_false_r. cbn [orb andb].
  assert (ts_status p = "queued" \/ active t = false /\ ts_status p = ts_status t) as Hs.
  { apply retry_special_cases in Hm as [_ [[He [[m ->]|(r & m & ->)]]|[_ [m ->]]]]; [by left| |by left].
    right. split; [by apply eligible_not_active|done]. }
  assert (active t && is_one_of (ts_status p) ["completed"; "failed"; "timed_out"; "cancelled"]
          = false) as ->.
  { destruct Hs as [Hs|[Hs _]]; rewrite Hs; [by rewrite andb_false_r|done]. }
  cbn [andb]. destruct Hs as [Hs|[_ Hs]]; rewrite Hs; [done|].
  destruct (String.eqb (ts_status t) "running"); [|done]. by rewrite andb_false_r.
Qed.

Lemma gate_recovery_ok t p :
  task_restart_recovery_transition_matches t p = true ->
  validate_transition_in RestartRecovery t p = Ok tt.
Proof.
  intros Hm. unfold validate_transition_in, validate_task_state_transition. cbv zeta. rewrite Hm.
  cbn [allow_restart_recovery andb negb]. rewrite !andb_false_r. cbn [orb andb].
  apply restart_recovery_cases in Hm as (_ & _ & [Hp|Hp%blocked_status]); by rewrite Hp.
Qed.

(** The step a recovery takes: one log line on top of the old ones. *)
Definition logged (t p : TaskStateSnapshot) (level message : string) : Prop :=
  ts_logs p = ts_logs t ++ [MkTaskLog (wrapping_add u64_max (len (ts_logs t)) 1) level message].

Lemma recover_committed_effect_step t op rd z p :
  recover_committed_effect t op rd z = Ok p -> p <> t ->
  task_validate p = Ok tt /\ ts_envelope p = ts_envelope t /\
  ts_replay_delivery p = ts_replay_delivery t /\
  ts_result_digest p = Some rd /\ ts_result_size_bytes p = Some z /\
  logged t p "info" (COMMITTED_EFFECT_RECOVERY_LOG_PREFIX +:+ op).
Proof.
  unfold recover_committed_effect. intros H Hne.
  destruct (validate_canonical_sha256 op _); [|done]. destruct (validate_canonical_sha256 rd _); [|done].
  destruct (is_none (ts_envelope t)); [done|].
  destruct (String.eqb (ts_status t) "completed").
  { destruct (bool_decide _ && bool_decide _); [|done]. by injection H as <-. }
  apply reject_Ok in H as [_ H]. apply validated_Ok in H as [-> Hv]. by split_and!.
Qed.

Lemma block_unknown_effect_step t op p :
  block_unknown_effect t op = Ok p -> p <> t ->
  task_validate p = Ok tt /\ ts_envelope p = ts_envelope t /\
  ts_replay_delivery p = ts_replay_delivery t /\
  logged t p "error" (UNKNOWN_EFFECT_RECOVERY_REASON_PREFIX +:+ op).
Proof.
  unfold block_unknown_effect. intros H Hne.
  destruct (validate_canonical_sha256 op _); [|done]. cbv zeta in H.
  destruct (String.eqb (ts_status t) "interrupted" && _). { by injection H as <-. }
  destruct (String.eqb (ts_status t) "completed"); [done|].
  destruct (is_none (ts_envelope t)); [done|].
  apply reject_Ok in H as [_ H]. apply validated_Ok in H as [-> Hv]. by split_and!.
Qed.

Lemma logged_matches t p level message :
  logged t p level message -> (len (ts_logs t) < usize_max)%N ->
  negb (len (ts_logs p) =? saturating_add usize_max (len (ts_logs t)) 1)%N
   || negb (bool_decide (take (length (ts_logs t)) (ts_logs p) = ts_logs t)) = false /\
  last (ts_logs p) = Some (MkTaskLog (wrapping_add u64_max (len (ts_logs t)) 1) level message).
Proof.
  unfold logged. intros -> Hl. rewrite last_snoc. split; [|done].
  rewrite take_app_length, bool_decide_eq_true_2 by done.
  rewrite orb_false_r. apply negb_false_iff, N.eqb_eq. unfold saturating_add.
  unfold len in *. rewrite length_app. cbn. lia.
Qed.

Lemma recover_matches t op rd z p :
  recover_committed_effect t op rd z = Ok p -> p <> t -> (len (ts_logs t) < usize_max)%N ->
  task_restart_recovery_transition_matches t p = true.
Proof.
  intros H Hne Hl. destruct (recover_committed_effect_step _ _ _ _ _ H Hne) as (_ & _ & _ & Hd & Hz & Hlog).
  destruct (logged_matches _ _ _ _ Hlog Hl) as [E1 E2].
  unfold task_restart_recovery_transition_matches. rewrite E1, E2. cbn [tl_level tl_message].
  change (String.eqb "info" "info") with true. cbv iota.
  rewrite strip_prefix_append, Hd, Hz, H. by apply bool_decide_eq_true_2.
Qed.

Lemma block_matches t op p :
  block_unknown_effect t op = Ok p -> p <> t -> (len (ts_logs t) < usize_max)%N ->
  task_restart_recovery_transition_matches t p = true.
Proof.
  intros H Hne Hl. destruct (block_unknown_effect_step _ _ _ H Hne) as (_ & _ & _ & Hlog).
  destruct (logged_matches _ _ _ _ Hlog Hl) as [E1 E2].
  unfold task_restart_recovery_transition_matches. rewrite E1, E2. cbn [tl_level tl_message].
  change (String.eqb "error" "info") with false. change (String.eqb "error" "error") with true.
  cbv iota. rewrite strip_prefix_append, H. by apply bool_decide_eq_true_2.
Qed.

Lemma retry_candidate_special t now p :
  task_retry_transition_candidate t now = Some p ->
  task_retry_is_eligible t = true /\ task_retry_special_transition_matches t p = true.
Proof.
  unfold task_retry_transition_candidate, task_retry_special_transition_matches. intros H.
  destruct (task_retry_is_eligible t) eqn:He; [|done]. cbn [negb] in H. split; [done|].
  assert (forall r, task_retry_schedule_candidate t r = Some p ->
            match ts_retry_ready_at_ms p with
            | Some ready => bool_decide (task_retry_schedule_candidate t ready = Some p)
            | None => false end = true) as Hsch.
  { intros r Hr. pose proof Hr as Hr'. unfold task_retry_schedule_candidate in Hr.
    destruct (negb _ || _); [done|]. injection Hr as Hp. rewrite <- Hp at 1. cbn.
    by apply bool_decide_eq_true_2. }
  repeat case_match; try done.
  all: first [ rewrite (bool_decide_eq_true_2 (task_retry_requeue_candidate t = Some p)) by done;
               done | idtac ].
  all: rewrite !orb_true_iff; left; left; right.
  all: match goal with H : task_retry_schedule_candidate _ _ = _ |- _ => apply Hsch in H end.
  all: repeat case_match; done.
Qed.

Lemma recovery_candidate_special t p :
  task_replay_recovery_candidate t = Some p \/ task_abandoned_recovery_candidate t = Some p ->
  task_retry_special_transition_matches t p = true.
Proof.
  unfold task_retry_special_transition_matches. intros [H|H]; rewrite H, !orb_true_iff, !bool_decide_eq_true;
    [left; by right|by right].
Qed.

Lemma special_identity t p :
  task_retry_special_transition_matches t p = true -> task_validate t = Ok tt ->
  task_validate p = Ok tt /\ ts_envelope p = ts_envelope t /\
  ts_replay_delivery p = ts_replay_delivery t /\ ts_attempts p = ts_attempts t.
Proof.
  intros [Ha [[He [[m ->]|(r & m & ->)]]|[_ [m ->]]]]%retry_special_cases Hv;
    split_and!; try done; by auto using reset_to_queued_valid, schedule_valid.
Qed.

Lemma special_accepted t p :
  task_retry_special_transition_matches t p = true -> task_validate t = Ok tt ->
  commit_checks RetryRequeue t p = true /\ ts_attempts p = ts_attempts t.
Proof.
  intros Hm Hv. destruct (special_identity t p Hm Hv) as (? & ? & ? & ?). split; [|done].
  apply commit_checks_true; try done. by apply gate_special_ok.
Qed.

Lemma restart_accepted t p :
  p <> t -> (len (ts_logs t) < usize_max)%N ->
  (exists op rd z, recover_committed_effect t op rd z = Ok p) \/
  (exists op, block_unknown_effect t op = Ok p) ->
  commit_checks RestartRecovery t p = true.
Proof.
  intros Hne Hl [(op & rd & z & H)|[op H]].
  - destruct (recover_committed_effect_step _ _ _ _ _ H Hne) as (? & ? & ? & _).
    apply commit_checks_true; try done. eapply gate_recovery_ok, recover_matches; eauto.
  - destruct (block_unknown_effect_step _ _ _ H Hne) as (? & ? & ? & _).
    apply commit_checks_true; try done. eapply gate_recovery_ok, block_matches; eauto.
Qed.

(** The system can always make the progress its own rules promise: for
    a valid record, the retry or schedule candidate, the replay and the
    abandoned-task recovery candidates are accepted in retry mode with the
    attempt counter unchanged, and the recovery from a committed effect and
    the block for an unknown one, when they change anything, are accepted in
    restart-recovery mode (the log has room for one more line). *)
Theorem retry_recovery_accepted t :
  task_validate t = Ok tt -> (len (ts_logs t) < usize_max)%N ->
  (forall p, (exists now, task_retry_transition_candidate t now = Some p) \/
     task_replay_recovery_candidate t = Some p \/ task_abandoned_recovery_candidate t = Some p ->
     commit_checks RetryRequeue t p = true /\ ts_attempts p = ts_attempts t) /\
  (forall p, p <> t ->
     (exists op rd z, recover_committed_effect t op rd z = Ok p) \/
     (exists op, block_unknown_effect t op = Ok p) ->
     commit_checks RestartRecovery t p = true).
Proof.
  intros Hv Hl. split.
  - intros p H. apply special_accepted; [|done].
    destruct H as [[now H]|H]; [by apply retry_candidate_special in H as [_ ?]|].
    by apply recovery_candidate_special.
  - intros p Hne H. by apply restart_accepted.
Qed.

Definition running_sample : TaskStateSnapshot :=
  default sample_task (propose_claim 10 sample_task).

Lemma retry_recovery_accepted_witness :
  exists p, task_abandoned_recovery_candidate running_sample = Some p /\
    commit_checks RetryRequeue running_sample p = true /\ ts_attempts p = 1%N.
Proof.
  destruct (task_abandoned_recovery_candidate running_sample) as [p|] eqn:E.
  - exists p. split; [reflexivity|].
    destruct (retry_recovery_accepted running_sample) as [H _];
      [vm_compute; reflexivity|vm_compute; reflexivity|].
    destruct (H p (or_intror (or_intror E))) as [Hc Ha]. split; [exact Hc|]. rewrite Ha.
    vm_compute. reflexivity.
  - exfalso. apply (f_equal is_some) in E. vm_compute in E. discriminate E.
Defined.
