(* ===== verification/FieldEscape.v ===== *)
(** * Escaped fields (crates/eva-storage/src/task_state.rs, lines 3682-3701)

    [encode_field] and [decode_field], six sequential replacements each.  Both
    are reduced to byte-by-byte translations: a text in which every byte is
    either itself or a three-byte escape is rewritten escape by escape. *)

From Stdlib Require Import Ascii.
From stdpp Require Import base numbers strings gmap list.
From S2P Require Import Prelude RustStr.

Definition encode_field (value : string) : string :=
  replace_char "=" "%3D" (replace_char "|" "%7C" (replace_char tab "%09"
    (replace_char cr "%0D" (replace_char nl "%0A" (replace_char "%" "%25" value))))).

Definition decode_field (value : string) : string :=
  replace_str "%25" "%" (replace_str "%3D" "=" (replace_str "%7C" "|"
    (replace_str "%09" (str tab) (replace_str "%0D" (str cr) (replace_str "%0A" (str nl) value))))).

(** ** Byte-wise translation *)

Fixpoint translate (f : ascii -> string) (s : string) : string :=
  match s with
  | EmptyString => ""
  | String c r => f c +:+ translate f r
  end.

Lemma translate_ext f g s : (forall c, f c = g c) -> translate f s = translate g s.
Proof. intros H. induction s as [|c s IH]; [done|]. cbn. by rewrite H, IH. Qed.

Lemma translate_str s : translate str s = s.
Proof. induction s as [|c s IH]; [done|]. cbn -[String.append]. by rewrite IH. Qed.

Lemma replace_char_append c b s t :
  replace_char c b (s +:+ t) = replace_char c b s +:+ replace_char c b t.
Proof.
  induction s as [|d s IH]; [done|]. rewrite append_cons. cbn [replace_char].
  rewrite IH. destruct (Ascii.eqb c d); [by rewrite append_assoc|done].
Qed.

Lemma replace_char_translate c b f s :
  replace_char c b (translate f s) = translate (fun x => replace_char c b (f x)) s.
Proof. induction s as [|d s IH]; [done|]. cbn [translate]. by rewrite replace_char_append, IH. Qed.

(** What [encode_field] makes of one byte. *)
Definition escape (c : ascii) : string := encode_field (str c).

Lemma encode_field_translate s : encode_field s = translate escape s.
Proof.
  unfold encode_field. rewrite <- (translate_str s) at 1. by rewrite !replace_char_translate.
Qed.

Lemma bytes_all_translate p f s :
  (forall c, bytes_all p (f c) = true) -> bytes_all p (translate f s) = true.
Proof. intros H. induction s as [|c s IH]; [done|]. cbn. by rewrite bytes_all_append, H. Qed.

(** ** Replacing one escape *)

(** One byte other than [%], or a three-byte escape. *)
Definition is_token (t : string) : bool :=
  match t with
  | String a "" => negb (Ascii.eqb "%" a)
  | String a (String b (String c "")) =>
      Ascii.eqb "%" a && negb (Ascii.eqb "%" b) && negb (Ascii.eqb "%" c)
  | _ => false
  end.

Lemma replace_go_token x y b t s :
  is_token t = true ->
  replace_str (String "%" (String x (String y ""))) b (t +:+ s) =
  (if String.eqb t (String "%" (String x (String y ""))) then b else t)
    +:+ replace_str (String "%" (String x (String y ""))) b s.
Proof.
  unfold replace_str. destruct t as [|a [|a1 [|a2 [|? ?]]]]; try done; cbn [is_token]; intros Ht.
  - apply negb_true_iff in Ht. rewrite append_cons, append_nil_l. cbn [replace_go].
    unfold starts_with. cbn [strip_prefix]. rewrite Ht.
    destruct (String.eqb_spec (String a "") (String "%" (String x (String y "")))); [done|done].
  - apply andb_true_iff in Ht as [[Ha H1]%andb_true_iff H2].
    apply Ascii.eqb_eq in Ha as <-. apply negb_true_iff in H1, H2.
    rewrite !append_cons, append_nil_l. unfold starts_with. cbn [replace_go strip_prefix].
    destruct (String.eqb_spec (String "%" (String a1 (String a2 "")))
                (String "%" (String x (String y "")))) as [E|E].
    + injection E as -> ->. unfold starts_with. cbn [strip_prefix].
      change (Ascii.eqb "%" "%") with true.
      rewrite !Ascii.eqb_refl. reflexivity.
    + unfold starts_with. cbn [strip_prefix]. change (Ascii.eqb "%" "%") with true. cbv iota.
      assert ((if Ascii.eqb x a1 then (if Ascii.eqb y a2 then Some s else None) else None) = None) as ->.
      { destruct (Ascii.eqb_spec x a1) as [->|]; [|done].
        destruct (Ascii.eqb_spec y a2) as [->|]; [done|done]. }
      rewrite H1, H2. reflexivity.
Qed.

Lemma replace_str_translate x y b f s :
  (forall c, is_token (f c) = true) ->
  replace_str (String "%" (String x (String y ""))) b (translate f s) =
  translate (fun c => if String.eqb (f c) (String "%" (String x (String y ""))) then b else f c) s.
Proof.
  intros Hf. induction s as [|c s IH]; [done|]. cbn [translate]. by rewrite replace_go_token, IH.
Qed.

(** Escaping loses nothing. *)
Lemma decode_encode_field s : decode_field (encode_field s) = s.
Proof.
  rewrite encode_field_translate. unfold decode_field. rewrite <- (translate_str s) at 2.
  repeat (rewrite replace_str_translate; [|apply ascii_forall; vm_compute; reflexivity]).
  apply translate_ext. intros c. apply String.eqb_eq. revert c.
  apply ascii_forall. vm_compute. reflexivity.
Qed.

(** ** The shape of escaped text *)

Definition is_escaped_byte (c : ascii) : bool :=
  negb (Ascii.eqb c nl) && negb (Ascii.eqb c cr) && negb (Ascii.eqb c tab)
  && negb (Ascii.eqb c "|") && negb (Ascii.eqb c "=").

Lemma encode_field_bytes s : bytes_all is_escaped_byte (encode_field s) = true.
Proof.
  rewrite encode_field_translate. apply bytes_all_translate, ascii_forall. vm_compute. reflexivity.
Qed.

Lemma encode_field_clean s : line_clean (encode_field s) = true.
Proof. apply (line_clean_bytes_all is_escaped_byte); [done..|apply encode_field_bytes]. Qed.

Lemma encode_field_no_bar s : contains_char "|" (encode_field s) = false.
Proof.
  apply contains_char_false. eapply bytes_all_impl; [|apply encode_field_bytes].
  apply ascii_impl. vm_compute. reflexivity.
Qed.

Lemma encode_field_nonempty s : s <> "" -> encode_field s <> "".
Proof.
  destruct s as [|c s]; [done|]. intros _. rewrite encode_field_translate. cbn [translate].
  assert (Hc : negb (String.eqb (escape c) "") = true)
    by (revert c; apply ascii_forall; vm_compute; reflexivity).
  destruct (escape c); [done|]. by rewrite append_cons.
Qed.

(** Text without special bytes is left alone, in both directions. *)
Definition is_plain_byte (c : ascii) : bool := is_escaped_byte c && negb (Ascii.eqb c "%").

Lemma encode_field_plain s : bytes_all is_plain_byte s = true -> encode_field s = s.
Proof.
  rewrite encode_field_translate. induction s as [|c s IH]; [done|]. cbn [bytes_all translate].
  intros [Hc Hs]%andb_true_iff. rewrite IH by done.
  assert (implb (is_plain_byte c) (String.eqb (escape c) (str c)) = true) as H
    by (revert c Hc; intros c _; revert c; apply ascii_forall; vm_compute; reflexivity).
  rewrite Hc in H. cbn [implb] in H. apply String.eqb_eq in H as ->. done.
Qed.

Lemma decode_field_plain s : bytes_all is_plain_byte s = true -> decode_field s = s.
Proof. intros H. rewrite <- (encode_field_plain s H) at 1. apply decode_encode_field. Qed.

(** Escaping keeps UTF-8 well-formed: only ASCII bytes are replaced. *)
Lemma translate_utf8 f s :
  (forall c, is_ascii c = true -> utf8_valid (f c) = true) ->
  (forall c, is_ascii c = false -> f c = str c) ->
  utf8_valid s = true -> utf8_valid (translate f s) = true.
Proof.
  intros Ha Hn. remember (String.length s) as n eqn:Hlen. revert s Hlen.
  induction n as [n IH] using lt_wf_ind. intros s -> Hs.
  destruct s as [|a r1]; [done|]. cbn [translate]. cbn [utf8_valid] in Hs.
  assert (IH' : forall r, String.length r < String.length (String a r1) ->
    utf8_valid r = true -> utf8_valid (translate f r) = true) by (intros; by eapply IH).
  clear IH. destruct (in_range 0 127 a) eqn:Ea.
  { apply utf8_valid_append; [by apply Ha|]. apply IH'; [cbn; lia|done]. }
  assert (Hcont : forall c lo hi, (128 <= lo)%N -> in_range lo hi c = true -> f c = str c).
  { intros c lo hi Hlo Hc. apply Hn. unfold is_ascii, in_range in *. reflect_bools.
    apply andb_false_iff. right. apply N.leb_gt. lia. }
  assert (Ho : forall r, str a +:+ r = String a r) by done. rewrite (Hn a Ea), Ho.
  assert (Hb : forall b lo hi r, (128 <= lo)%N -> in_range lo hi b = true -> f b +:+ r = String b r).
  { intros b lo hi r Hlo Hr. by rewrite (Hcont b lo hi). }
  destruct r1 as [|b r2]; [done|]. cbn [translate].
  destruct (in_range 194 223 a) eqn:E1.
  { apply andb_true_iff in Hs as [H1 Hs]. rewrite (Hb b 128 191)%N by done.
    cbn [utf8_valid]. rewrite Ea, E1, H1. apply IH'; [cbn; lia|done]. }
  destruct r2 as [|c r3]; [done|]. cbn [translate].
  destruct (in_range 224 224 a) eqn:E2.
  { apply andb_true_iff in Hs as [[H1 H2]%andb_true_iff Hs].
    rewrite (Hb b 160 191)%N by done. rewrite (Hb c 128 191)%N by done.
    cbn [utf8_valid]. rewrite Ea, E1, E2, H1, H2. apply IH'; [cbn; lia|done]. }
  destruct (in_range 237 237 a) eqn:E3.
  { apply andb_true_iff in Hs as [[H1 H2]%andb_true_iff Hs].
    rewrite (Hb b 128 159)%N by done. rewrite (Hb c 128 191)%N by done.
    cbn [utf8_valid]. rewrite Ea, E1, E2, E3, H1, H2. apply IH'; [cbn; lia|done]. }
  destruct (in_range 225 239 a) eqn:E4.
  { apply andb_true_iff in Hs as [[H1 H2]%andb_true_iff Hs].
    rewrite (Hb b 128 191)%N by done. rewrite (Hb c 128 191)%N by done.
    cbn [utf8_valid]. rewrite Ea, E1, E2, E3, E4, H1, H2. apply IH'; [cbn; lia|done]. }
  destruct r3 as [|d r4]; [done|]. cbn [translate].
  apply andb_true_iff in Hs as [[[H1 H2]%andb_true_iff H3]%andb_true_iff Hs].
  assert (exists lo hi, (128 <= lo)%N /\ in_range lo hi b = true) as (lo & hi & Hlo & Hlb).
  { apply orb_true_iff in H1 as [[H1|H1]%orb_true_iff|H1]; apply andb_true_iff in H1 as [_ H1];
      [exists 144%N, 191%N|exists 128%N, 191%N|exists 128%N, 143%N]; done. }
  rewrite (Hb b lo hi) by done. rewrite (Hb c 128 191)%N by done. rewrite (Hb d 128 191)%N by done.
  cbn [utf8_valid]. rewrite Ea, E1, E2, E3, E4, H1, H2, H3. apply IH'; [cbn; lia|done].
Qed.

Lemma encode_field_utf8 s : utf8_valid s = true -> utf8_valid (encode_field s) = true.
Proof.
  rewrite encode_field_translate. apply translate_utf8.
  - apply ascii_impl. vm_compute. reflexivity.
  - intros c Hc. apply negb_true_iff in Hc. apply String.eqb_eq. revert c Hc.
    apply ascii_impl. vm_compute. reflexivity.
Qed.

#[export] Hint Resolve encode_field_clean encode_field_no_bar encode_field_utf8 : eva.
