(* ===== verification/ProviderProcess.v ===== *)
(** * Provider processes (crates/eva-storage/src/provider_process.rs)

    The session snapshot of a supervised provider, the restart states it goes
    through, its line format, and the table of snapshots in memory and on disk
    behind one interface, [ProviderProcessTable].  SHA-256 (crate [sha2])
    names the file of a session and is a parameter. *)

From Stdlib Require Import Ascii.
From stdpp Require Import base numbers strings gmap list sorting.
From S2P Require Import Prelude RustStr Error Ids Durable FieldEscape.

Record ProviderProcessSnapshot := MkProcess {
  pp_session_id : string;
  pp_provider_process_id : string;
  pp_pid : option N;
  pp_process_start_token : option string;
  pp_process_group_id : option N;
  pp_job_id : option string;
  pp_request_id : RequestId;
  pp_adapter_id : AdapterId;
  pp_capability : CapabilityName;
  pp_transport : string;
  pp_manifest_digest : string;
  pp_start_command : string;
  pp_health : string;
  pp_restart_policy : string;
  pp_retry_backoff_ms : option N;
  pp_attempt : N;
  pp_restart_max_attempts : N;
  pp_restart_backoff_ms : N;
  pp_restart_attempts : N;
  pp_restart_due_at_ms : option N;
  pp_restart_state : string;
  pp_record_version : StateVersion;
  pp_owner_generation : WriterGeneration;
  pp_active : bool;
  pp_last_error : option string;
  pp_started_at_ms : N;
  pp_updated_at_ms : N;
  pp_audit : list string
}.
#[export] Instance ProviderProcessSnapshot_eta : Eta ProviderProcessSnapshot := fun p =>
  MkProcess (pp_session_id p) (pp_provider_process_id p) (pp_pid p) (pp_process_start_token p)
    (pp_process_group_id p) (pp_job_id p) (pp_request_id p) (pp_adapter_id p) (pp_capability p)
    (pp_transport p) (pp_manifest_digest p) (pp_start_command p) (pp_health p) (pp_restart_policy p)
    (pp_retry_backoff_ms p) (pp_attempt p) (pp_restart_max_attempts p) (pp_restart_backoff_ms p)
    (pp_restart_attempts p) (pp_restart_due_at_ms p) (pp_restart_state p) (pp_record_version p)
    (pp_owner_generation p) (pp_active p) (pp_last_error p) (pp_started_at_ms p) (pp_updated_at_ms p)
    (pp_audit p).
#[export] Instance ProviderProcessSnapshot_eq_dec : EqDecision ProviderProcessSnapshot.
Proof. solve_decision. Defined.

(** [self.audit.push(..)], once per entry. *)
Definition push_audit (entries : list string) (p : ProviderProcessSnapshot) : ProviderProcessSnapshot :=
  p <| pp_audit := pp_audit p ++ entries |>.

(** [ProviderProcessSnapshot::running] *)
Definition process_running (session_id provider_process_id : string) (request_id : RequestId)
    (adapter_id : AdapterId) (capability : CapabilityName)
    (transport manifest_digest start_command restart_policy : string) (now : N) : ProviderProcessSnapshot :=
  {| pp_session_id := session_id; pp_provider_process_id := provider_process_id;
     pp_pid := None; pp_process_start_token := None; pp_process_group_id := None; pp_job_id := None;
     pp_request_id := request_id; pp_adapter_id := adapter_id; pp_capability := capability;
     pp_transport := transport; pp_manifest_digest := manifest_digest;
     pp_start_command := start_command; pp_health := "running"; pp_restart_policy := restart_policy;
     pp_retry_backoff_ms := None; pp_attempt := 0; pp_restart_max_attempts := 0;
     pp_restart_backoff_ms := 0; pp_restart_attempts := 0; pp_restart_due_at_ms := None;
     pp_restart_state := if String.eqb restart_policy "none" then "disabled" else "stable";
     pp_record_version := 0; pp_owner_generation := 0; pp_active := true; pp_last_error := None;
     pp_started_at_ms := now; pp_updated_at_ms := now;
     pp_audit := ["provider.supervisor.acquired"; "provider.session:" +:+ session_id;
                  "provider.process:" +:+ provider_process_id] |}.

(** ** Validation *)

(** Empty, over 256 bytes or with a control character. *)
Definition malformed_token (token : string) : bool :=
  str_is_empty (trim token) || (256 <? str_len token)%N || existsb is_control (chars token).

Definition validate_identity (p : ProviderProcessSnapshot) : Res unit :=
  match pp_pid p with
  | Some pid =>
      reject (pid =? 0)%N || (pp_attempt p =? 0)%N with
        invalid_argument "provider process identity requires positive pid and attempt" else
      let? token := ok_or (pp_process_start_token p)
        (invalid_argument "provider process identity requires start token") in
      reject malformed_token token with
        invalid_argument "provider process start token is empty, oversized, or contains controls" else
      reject is_none (pp_process_group_id p) && is_none (pp_job_id p) with
        invalid_argument "provider process identity requires a process group or Windows job id" else
      Ok tt
  | None =>
      reject is_some (pp_process_start_token p) || is_some (pp_process_group_id p)
             || is_some (pp_job_id p) || negb (pp_attempt p =? 0)%N with
        invalid_argument "provider process identity fields require a pid" else
      Ok tt
  end >>?
  (reject is_some (pp_process_group_id p) && is_some (pp_job_id p) with
     invalid_argument "provider process group and Windows job identities are mutually exclusive" else
   reject bool_decide (pp_process_group_id p = Some 0%N) with
     invalid_argument "provider process group id must be positive" else
   reject match pp_job_id p with Some job => malformed_token job | None => false end with
     invalid_argument "provider Windows job id is empty, oversized, or contains controls" else
   Ok tt).

Definition RESTART_STATES : list string :=
  ["disabled"; "unconfigured"; "stable"; "running"; "pending"; "starting"; "exhausted"; "failed"].

Definition validate_restart_state (p : ProviderProcessSnapshot) : Res unit :=
  let pending := String.eqb (pp_restart_state p) "pending" in
  reject negb (bool_decide (pp_restart_state p ∈ RESTART_STATES)) with
    invalid_argument "provider restart state is invalid" ⊕ ("restart_state", pp_restart_state p) else
  reject (pp_restart_max_attempts p <? pp_restart_attempts p)%N with
    conflict "provider restart attempts exceed configured budget" else
  reject pending && is_none (pp_restart_due_at_ms p) with
    invalid_argument "pending provider restart requires a due timestamp" else
  reject negb pending && is_some (pp_restart_due_at_ms p) with
    invalid_argument "non-pending provider restart cannot carry a due timestamp" else
  reject (pp_restart_max_attempts p =? 0)%N && negb (pp_restart_backoff_ms p =? 0)%N with
    invalid_argument "disabled provider restart requires zero backoff" else
  reject (0 <? pp_restart_max_attempts p)%N && (pp_restart_backoff_ms p =? 0)%N with
    invalid_argument "automatic provider restart requires positive backoff" else
  Ok tt.

Definition validate_record (persisted : bool) (p : ProviderProcessSnapshot) : Res unit :=
  reject str_is_empty (trim (pp_session_id p)) || str_is_empty (trim (pp_provider_process_id p)) with
    invalid_argument "provider process identity fields cannot be empty" else
  reject str_is_empty (trim (pp_transport p)) || str_is_empty (trim (pp_health p)) with
    invalid_argument "provider process transport and health cannot be empty" else
  validate_identity p >>?
  validate_restart_state p >>?
  (reject persisted && (pp_record_version p =? 0)%N with
     conflict "persisted provider process record must have a positive version" else
   Ok tt).

(** A mutator that ends in [self.validate_record(false)]. *)
Definition validated (p : ProviderProcessSnapshot) : Res ProviderProcessSnapshot :=
  validate_record false p >>? Ok p.

(** ** Transitions

    A mutator returns the snapshot it leaves behind; its callers drop the
    snapshot when it fails.  [now] is its reading of the clock. *)

Definition set_process_identity (p : ProviderProcessSnapshot) (pid : N) (process_start_token : string)
    (process_group_id : option N) (job_id : option string) (attempt : N) : Res ProviderProcessSnapshot :=
  let candidate := p <| pp_pid := Some pid |> <| pp_process_start_token := Some process_start_token |>
                     <| pp_process_group_id := process_group_id |> <| pp_job_id := job_id |>
                     <| pp_attempt := attempt |> in
  validate_identity candidate >>? Ok candidate.

Definition has_process_identity (p : ProviderProcessSnapshot) : bool := is_some (pp_pid p).

(** The five identity fields reset together. *)
Definition clear_identity (p : ProviderProcessSnapshot) : ProviderProcessSnapshot :=
  p <| pp_pid := None |> <| pp_process_start_token := None |> <| pp_process_group_id := None |>
    <| pp_job_id := None |> <| pp_attempt := 0%N |>.

Definition configure_restart_budget (p : ProviderProcessSnapshot) (max_attempts backoff_ms : N) :
    Res ProviderProcessSnapshot :=
  let candidate := p <| pp_restart_max_attempts := max_attempts |> <| pp_restart_backoff_ms := backoff_ms |>
                     <| pp_restart_attempts := 0%N |> <| pp_restart_due_at_ms := None |>
                     <| pp_restart_state := if (max_attempts =? 0)%N then "disabled" else "running" |> in
  validate_restart_state candidate >>? Ok candidate.

Definition next_process_attempt (p : ProviderProcessSnapshot) : N :=
  N.max (saturating_add u32_max (pp_restart_attempts p) 1) 1.

Definition prepare_for_restart (p : ProviderProcessSnapshot) (now : N) : Res ProviderProcessSnapshot :=
  reject pp_active p || negb (String.eqb (pp_restart_state p) "pending") with
    conflict "provider restart preparation requires an inactive pending session"
      ⊕ ("session_id", pp_session_id p) ⊕ ("restart_state", pp_restart_state p) else
  let? due_at_ms := ok_or (pp_restart_due_at_ms p)
    (conflict "pending provider restart has no durable due time" ⊕ ("session_id", pp_session_id p)) in
  reject (now <? due_at_ms)%N with
    with_retryable (unavailable "provider restart backoff has not elapsed") true
      ⊕ ("session_id", pp_session_id p) ⊕ ("restart_due_at_ms", n_to_string due_at_ms)
      ⊕ ("retry_after_ms", n_to_string (due_at_ms - now)) else
  validated (push_audit ["provider.restart:spawn_requested"]
    ((clear_identity p) <| pp_restart_due_at_ms := None |> <| pp_restart_state := "starting" |>
       <| pp_health := "restart_starting" |> <| pp_updated_at_ms := now |>)).

Definition mark_restart_running (p : ProviderProcessSnapshot) (now : N) : Res ProviderProcessSnapshot :=
  reject negb (String.eqb (pp_restart_state p) "starting") || negb (has_process_identity p) with
    conflict "provider restart requires a starting record and real process identity"
      ⊕ ("session_id", pp_session_id p) else
  validated (push_audit ["provider.restart:process_registered"]
    (p <| pp_active := true |> <| pp_health := "running" |> <| pp_last_error := None |>
       <| pp_updated_at_ms := now |> <| pp_restart_state := "running" |>)).

(** A line break in a reason cannot start another audit entry. *)
Definition sanitize_audit_value (value : string) : string :=
  replace_char cr " " (replace_char nl " " value).

Definition mark_restart_pending (p : ProviderProcessSnapshot) (attempt due_at_ms : N) (reason : string)
    (now : N) : Res ProviderProcessSnapshot :=
  reject (attempt =? 0)%N || (attempt <=? pp_restart_attempts p)%N
         || (pp_restart_max_attempts p <? attempt)%N with
    conflict "provider restart attempt is outside budget" ⊕ ("attempt", n_to_string attempt)
      ⊕ ("max_attempts", n_to_string (pp_restart_max_attempts p)) else
  validated (push_audit
    ["provider.restart:attempt:" +:+ n_to_string attempt;
     "provider.restart:due_at_ms:" +:+ n_to_string due_at_ms;
     "provider.restart:pending_reason:" +:+ sanitize_audit_value reason]
    ((clear_identity p) <| pp_restart_attempts := attempt |> <| pp_restart_due_at_ms := Some due_at_ms |>
       <| pp_restart_state := "pending" |> <| pp_active := false |> <| pp_health := "restart_pending" |>
       <| pp_updated_at_ms := now |>)).

Definition recover_starting_restart (p : ProviderProcessSnapshot) (now : N) : Res ProviderProcessSnapshot :=
  reject pp_active p || negb (String.eqb (pp_restart_state p) "starting") with
    conflict "starting provider restart is not recoverable from its current state"
      ⊕ ("session_id", pp_session_id p) else
  validated (push_audit ["provider.restart:starting_recovered"]
    ((clear_identity p) <| pp_restart_due_at_ms := Some now |> <| pp_restart_state := "pending" |>
       <| pp_health := "restart_pending" |> <| pp_updated_at_ms := now |>)).

(** The end of a restart sequence: [mark_restart_exhausted] and
    [mark_restart_failed] differ in their texts. *)
Definition restart_terminal (state health first_entry reason_entry : string) (p : ProviderProcessSnapshot)
    (reason : string) (now : N) : Res ProviderProcessSnapshot :=
  validated (push_audit [first_entry; reason_entry +:+ sanitize_audit_value reason]
    ((clear_identity p) <| pp_restart_state := state |> <| pp_restart_due_at_ms := None |>
       <| pp_active := false |> <| pp_health := health |> <| pp_updated_at_ms := now |>)).

Definition mark_restart_exhausted : ProviderProcessSnapshot -> string -> N -> Res ProviderProcessSnapshot :=
  restart_terminal "exhausted" "restart_exhausted" "provider.restart:budget_exhausted"
    "provider.restart:exhausted_reason:".

Definition mark_restart_failed : ProviderProcessSnapshot -> string -> N -> Res ProviderProcessSnapshot :=
  restart_terminal "failed" "failed" "provider.restart:non_retryable" "provider.restart:failure_reason:".

Definition mark_stable_success (p : ProviderProcessSnapshot) : Res ProviderProcessSnapshot :=
  validated (push_audit ["provider.restart:stable_reset"]
    (p <| pp_restart_attempts := 0%N |> <| pp_restart_due_at_ms := None |>
       <| pp_restart_state := if (pp_restart_max_attempts p =? 0)%N then "disabled" else "stable" |>)).

(** [release] does not validate the record. *)
Definition release_process (p : ProviderProcessSnapshot) (health : string) (last_error : option string)
    (now : N) : Res ProviderProcessSnapshot :=
  reject str_is_empty (trim health) with invalid_argument "provider process health cannot be empty" else
  Ok (push_audit ["provider.slot:released"; "provider.health:" +:+ health;
                  if is_some last_error then "provider.supervisor.failed" else "provider.supervisor.completed"]
    (p <| pp_active := false |> <| pp_health := health |> <| pp_last_error := last_error |>
       <| pp_updated_at_ms := now |>)).

Definition mark_interrupted_after_restart (p : ProviderProcessSnapshot) (reason : string) (now : N) :
    ProviderProcessSnapshot :=
  push_audit
    ((if is_none (pp_last_error p) then [] else ["provider.recovery:last_error_preserved"]) ++
     ["provider.recovery:restart_scan"; "provider.recovery:previous_health:" +:+ pp_health p;
      "provider.recovery:interrupted_reason:" +:+ sanitize_audit_value reason;
      "provider.health:interrupted"])
    (p <| pp_active := false |> <| pp_health := "interrupted" |>
       <| pp_last_error := Some (default reason (pp_last_error p)) |> <| pp_updated_at_ms := now |>).

(** ** The record format *)

Definition option_text {A} (f : A -> string) (o : option A) : string :=
  match o with Some a => f a | None => "" end.

Definition process_fields (p : ProviderProcessSnapshot) : Fields :=
  [ ("version", "3");
    ("record_version", n_to_string (pp_record_version p));
    ("owner_generation", n_to_string (pp_owner_generation p));
    ("attempt", n_to_string (pp_attempt p));
    ("restart_max_attempts", n_to_string (pp_restart_max_attempts p));
    ("restart_backoff_ms", n_to_string (pp_restart_backoff_ms p));
    ("restart_attempts", n_to_string (pp_restart_attempts p));
    ("restart_due_at_ms", option_text n_to_string (pp_restart_due_at_ms p));
    ("restart_state", encode_field (pp_restart_state p));
    ("session_id", encode_field (pp_session_id p));
    ("provider_process_id", encode_field (pp_provider_process_id p));
    ("pid", option_text n_to_string (pp_pid p));
    ("process_start_token", option_text encode_field (pp_process_start_token p));
    ("process_group_id", option_text n_to_string (pp_process_group_id p));
    ("job_id", option_text encode_field (pp_job_id p));
    ("request_id", encode_field (id_str (pp_request_id p)));
    ("adapter_id", encode_field (id_str (pp_adapter_id p)));
    ("capability", encode_field (cap_name (pp_capability p)));
    ("transport", encode_field (pp_transport p));
    ("manifest_digest", encode_field (pp_manifest_digest p));
    ("start_command", encode_field (pp_start_command p));
    ("health", encode_field (pp_health p));
    ("restart_policy", encode_field (pp_restart_policy p));
    ("retry_backoff_ms", option_text n_to_string (pp_retry_backoff_ms p));
    ("active", bool_to_string (pp_active p));
    ("last_error", option_text encode_field (pp_last_error p));
    ("started_at_ms", n_to_string (pp_started_at_ms p));
    ("updated_at_ms", n_to_string (pp_updated_at_ms p)) ].

Definition audit_fields (p : ProviderProcessSnapshot) : Fields :=
  (fun entry => ("audit", encode_field entry)) <$> pp_audit p.

Definition process_to_storage (p : ProviderProcessSnapshot) : string :=
  render (process_fields p ++ audit_fields p).

Definition parse_process_number (max : N) (message value : string) : Res N :=
  ok_or (parse_unsigned max value) (invalid_argument message).

Definition parse_optional_number (max : N) (message value : string) : Res (option N) :=
  if str_is_empty value then Ok None
  else result_map Some (ok_or (parse_unsigned max value) (invalid_argument message ⊕ ("value", value))).

Definition parse_process_bool (field value : string) : Res bool :=
  if String.eqb value "true" then Ok true
  else if String.eqb value "false" then Ok false
  else Err (invalid_argument "provider process boolean field is invalid"
              ⊕ ("field", field) ⊕ ("value", value)).

Definition process_optional_field (value : string) : option string :=
  if str_is_empty value then None else Some (decode_field value).

(** What the reader has collected: [rd_seen] holds the scalar keys read so
    far, so a field is [Some] in the source exactly when its key is in it. *)
Record ProcessReader := MkProcessReader {
  rd_version : option N;
  rd_process : ProviderProcessSnapshot;
  rd_seen : list string
}.
#[export] Instance ProcessReader_eta : Eta ProcessReader := fun r =>
  MkProcessReader (rd_version r) (rd_process r) (rd_seen r).

Definition blank_process : ProviderProcessSnapshot :=
  (process_running "" "" (MkId "") (MkId "") (MkCapabilityName "" []) "" "" "" "" 0)
    <| pp_health := "" |> <| pp_restart_state := "" |> <| pp_active := false |> <| pp_audit := [] |>.

Definition process_reader_new : ProcessReader := MkProcessReader None blank_process [].

Definition ProcessHandler : Type := ProcessReader -> string -> Res ProcessReader.

(** A scalar whose value is parsed, and one that is only decoded. *)
Definition parsed_field {A} (parse : string -> Res A)
    (set : A -> ProviderProcessSnapshot -> ProviderProcessSnapshot) : ProcessHandler :=
  fun r value => let? a := parse value in Ok (r <| rd_process := set a (rd_process r) |>).
Definition decoded_field (set : string -> ProviderProcessSnapshot -> ProviderProcessSnapshot) : ProcessHandler :=
  parsed_field (fun value => Ok (decode_field value)) set.

Definition PROCESS_HANDLERS : list (string * ProcessHandler) :=
  [ ("version", fun r value =>
       let? n := parse_process_number u32_max "provider process version is invalid" value in
       Ok (r <| rd_version := Some n |>));
    ("record_version", parsed_field (parse_process_number u64_max "provider process record_version is invalid")
       (fun n p => p <| pp_record_version := n |>));
    ("owner_generation", parsed_field (parse_process_number u64_max "provider process owner_generation is invalid")
       (fun n p => p <| pp_owner_generation := n |>));
    ("attempt", parsed_field (parse_process_number u32_max "provider process attempt is invalid")
       (fun n p => p <| pp_attempt := n |>));
    ("restart_max_attempts",
     parsed_field (parse_process_number u32_max "provider process restart_max_attempts is invalid")
       (fun n p => p <| pp_restart_max_attempts := n |>));
    ("restart_backoff_ms",
     parsed_field (parse_process_number u64_max "provider process restart_backoff_ms is invalid")
       (fun n p => p <| pp_restart_backoff_ms := n |>));
    ("restart_attempts", parsed_field (parse_process_number u32_max "provider process restart_attempts is invalid")
       (fun n p => p <| pp_restart_attempts := n |>));
    ("restart_due_at_ms",
     parsed_field (parse_optional_number u128_max "provider process restart_due_at_ms is invalid")
       (fun n p => p <| pp_restart_due_at_ms := n |>));
    ("restart_state", decoded_field (fun s p => p <| pp_restart_state := s |>));
    ("session_id", decoded_field (fun s p => p <| pp_session_id := s |>));
    ("provider_process_id", decoded_field (fun s p => p <| pp_provider_process_id := s |>));
    ("pid", parsed_field (parse_optional_number u32_max "provider process pid is invalid")
       (fun n p => p <| pp_pid := n |>));
    ("process_start_token", parsed_field (fun value => Ok (process_optional_field value))
       (fun s p => p <| pp_process_start_token := s |>));
    ("process_group_id", parsed_field (parse_optional_number u32_max "provider process group id is invalid")
       (fun n p => p <| pp_process_group_id := n |>));
    ("job_id", parsed_field (fun value => Ok (process_optional_field value))
       (fun s p => p <| pp_job_id := s |>));
    ("request_id", parsed_field (fun value => id_parse KRequest (decode_field value))
       (fun i p => p <| pp_request_id := i |>));
    ("adapter_id", parsed_field (fun value => id_parse KAdapter (decode_field value))
       (fun i p => p <| pp_adapter_id := i |>));
    ("capability", parsed_field (fun value => capability_name_parse (decode_field value))
       (fun c p => p <| pp_capability := c |>));
    ("transport", decoded_field (fun s p => p <| pp_transport := s |>));
    ("manifest_digest", decoded_field (fun s p => p <| pp_manifest_digest := s |>));
    ("start_command", decoded_field (fun s p => p <| pp_start_command := s |>));
    ("health", decoded_field (fun s p => p <| pp_health := s |>));
    ("restart_policy", decoded_field (fun s p => p <| pp_restart_policy := s |>));
    ("retry_backoff_ms", parsed_field (parse_optional_number u64_max "provider process retry_backoff_ms is invalid")
       (fun n p => p <| pp_retry_backoff_ms := n |>));
    ("active", parsed_field (parse_process_bool "active") (fun b p => p <| pp_active := b |>));
    ("last_error", parsed_field (fun value => Ok (process_optional_field value))
       (fun s p => p <| pp_last_error := s |>));
    ("started_at_ms", parsed_field (parse_process_number u128_max "provider process started_at_ms is invalid")
       (fun n p => p <| pp_started_at_ms := n |>));
    ("updated_at_ms", parsed_field (parse_process_number u128_max "provider process updated_at_ms is invalid")
       (fun n p => p <| pp_updated_at_ms := n |>));
    ("audit", decoded_field (fun s p => push_audit [s] p)) ].

(** The arm of the [match key] that the key selects. *)
Fixpoint find_handler (handlers : list (string * ProcessHandler)) (key : string) : option ProcessHandler :=
  match handlers with
  | [] => None
  | (k, handler) :: handlers => if String.eqb k key then Some handler else find_handler handlers key
  end.

Definition process_line (r : ProcessReader) (line : string) : Res ProcessReader :=
  match split_once "=" line with
  | None => Err (invalid_argument "provider process snapshot is invalid")
  | Some (key, value) =>
      let scalar := negb (String.eqb key "audit") in
      reject scalar && bool_decide (key ∈ rd_seen r) with
        invalid_argument "provider process snapshot contains a duplicate scalar field" ⊕ ("field", key) else
      match find_handler PROCESS_HANDLERS key with
      | None => Err (invalid_argument "provider process snapshot has unknown field" ⊕ ("field", key))
      | Some handler => handler (r <| rd_seen := if scalar then key :: rd_seen r else rd_seen r |>) value
      end
  end.

Fixpoint process_lines (r : ProcessReader) (ls : list string) : Res ProcessReader :=
  match ls with
  | [] => Ok r
  | line :: ls =>
      if str_is_empty (trim line) then process_lines r ls
      else let? r := process_line r line in process_lines r ls
  end.

Definition V2_FIELDS : list string :=
  ["record_version"; "owner_generation"; "attempt"; "pid"; "process_start_token"; "process_group_id"; "job_id"].
Definition V3_FIELDS : list string :=
  ["restart_max_attempts"; "restart_backoff_ms"; "restart_attempts"; "restart_due_at_ms"; "restart_state"].
(** The fields every version needs, in the order they are looked up. *)
Definition REQUIRED_FIELDS : list string :=
  ["session_id"; "provider_process_id"; "request_id"; "adapter_id"; "capability"; "transport";
   "manifest_digest"; "start_command"; "health"; "restart_policy"; "active"; "started_at_ms"; "updated_at_ms"].

Definition lacks (seen fields : list string) : bool :=
  existsb (fun field => negb (bool_decide (field ∈ seen))) fields.

Definition finish_process (r : ProcessReader) : Res ProviderProcessSnapshot :=
  let? version := ok_or (rd_version r) (invalid_argument "provider process snapshot is missing version") in
  let p := rd_process r in
  reject (version <? 1)%N || (3 <? version)%N with
    invalid_argument "provider process version mismatch" ⊕ ("version", n_to_string version) else
  reject (2 <=? version)%N && lacks (rd_seen r) V2_FIELDS with
    invalid_argument "provider process v2 snapshot is missing identity or CAS fields" else
  reject (version =? 3)%N && lacks (rd_seen r) V3_FIELDS with
    invalid_argument "provider process v3 snapshot is missing restart controller fields" else
  reject (2 <=? version)%N && (pp_owner_generation p =? 0)%N with
    conflict "provider process v2 snapshot requires a positive owner generation" else
  let p := if bool_decide ("restart_state" ∈ rd_seen r) then p
           else p <| pp_restart_state := if (version <? 3)%N then "unconfigured" else "" |> in
  try_each (fun field =>
    reject negb (bool_decide (field ∈ rd_seen r)) with
      invalid_argument ("provider process missing " +:+ field) else Ok tt) REQUIRED_FIELDS >>?
  validate_record (2 <=? version)%N p >>? Ok p.

Definition process_from_storage (data : string) : Res ProviderProcessSnapshot :=
  let? r := process_lines process_reader_new (lines data) in finish_process r.

(** ** The table of snapshots *)

(** The trait [ProviderProcessTable].  An operation returns the table it
    leaves behind, as an I/O failure may still have changed it. *)
Class ProviderProcessTable (T : Type) := {
  compare_and_set : T -> ProviderProcessSnapshot -> Res ProviderProcessSnapshot * T;
  read_session : T -> string -> Res ProviderProcessSnapshot;
  list_sessions : T -> Res (list ProviderProcessSnapshot)
}.

Definition same_identity (current candidate : ProviderProcessSnapshot) : bool :=
  String.eqb (pp_provider_process_id current) (pp_provider_process_id candidate)
  && bool_decide (pp_request_id current = pp_request_id candidate)
  && bool_decide (pp_adapter_id current = pp_adapter_id candidate)
  && bool_decide (pp_capability current = pp_capability candidate)
  && String.eqb (pp_transport current) (pp_transport candidate)
  && String.eqb (pp_manifest_digest current) (pp_manifest_digest candidate)
  && String.eqb (pp_start_command current) (pp_start_command candidate)
  && String.eqb (pp_restart_policy current) (pp_restart_policy candidate)
  && bool_decide (pp_retry_backoff_ms current = pp_retry_backoff_ms candidate)
  && (pp_restart_max_attempts current =? pp_restart_max_attempts candidate)%N
  && (pp_restart_backoff_ms current =? pp_restart_backoff_ms candidate)%N
  && (pp_started_at_ms current =? pp_started_at_ms candidate)%N.

Definition ensure_immutable_identity (current candidate : ProviderProcessSnapshot) : Res unit :=
  reject negb (same_identity current candidate) with
    conflict "provider process immutable identity changed" ⊕ ("session_id", pp_session_id candidate) else
  Ok tt.

Definition process_version (current : option ProviderProcessSnapshot) : StateVersion :=
  match current with Some p => pp_record_version p | None => 0%N end.

Definition process_version_conflict (candidate : ProviderProcessSnapshot) (actual : StateVersion) : EvaError :=
  conflict "provider process record version conflict" ⊕ ("session_id", pp_session_id candidate)
    ⊕ ("expected", n_to_string (pp_record_version candidate)) ⊕ ("actual", n_to_string actual).

(** *** In memory *)

(** The [BTreeMap], by session id. *)
Record InMemoryProviderProcessTable := MkMemTable { mt_snapshots : gmap string ProviderProcessSnapshot }.

Definition mem_table_new : InMemoryProviderProcessTable := MkMemTable ∅.

(** The record a compare-and-set commits over what the table holds. *)
Definition mem_candidate (current : option ProviderProcessSnapshot) (candidate : ProviderProcessSnapshot) :
    Res ProviderProcessSnapshot :=
  validate_record false candidate >>?
  match current with Some current => ensure_immutable_identity current candidate | None => Ok tt end >>?
  (let actual := process_version current in
   reject negb (actual =? pp_record_version candidate)%N with process_version_conflict candidate actual else
   let? next := version_checked_next actual in
   let committed := candidate <| pp_record_version := next |> in
   validate_record true committed >>? Ok committed).

Definition mem_table_cas (t : InMemoryProviderProcessTable) (candidate : ProviderProcessSnapshot) :
    Res ProviderProcessSnapshot * InMemoryProviderProcessTable :=
  match mem_candidate (mt_snapshots t !! pp_session_id candidate) candidate with
  | Ok committed => (Ok committed, MkMemTable (<[pp_session_id committed := committed]> (mt_snapshots t)))
  | Err e => (Err e, t)
  end.

Definition mem_table_read (t : InMemoryProviderProcessTable) (session_id : string) : Res ProviderProcessSnapshot :=
  ok_or (mt_snapshots t !! session_id)
    (not_found "provider process session does not exist" ⊕ ("session_id", session_id)).

Definition session_le (a b : string * ProviderProcessSnapshot) : Prop := String.leb a.1 b.1 = true.
#[export] Instance session_le_dec : RelDecision session_le.
Proof. intros a b. unfold session_le. apply _. Defined.

(** [BTreeMap::values]: in the order of the keys. *)
Definition mem_table_list (t : InMemoryProviderProcessTable) : list ProviderProcessSnapshot :=
  (merge_sort session_le (map_to_list (mt_snapshots t))).*2.

#[export] Instance mem_process_table : ProviderProcessTable InMemoryProviderProcessTable := {
  compare_and_set := mem_table_cas;
  read_session := mem_table_read;
  list_sessions t := Ok (mem_table_list t)
}.

(** *** On disk *)

Record FileSystemProviderProcessTable := MkFsTable {
  ft_process_dir : string;
  ft_writer : option DurableWriterGuard
}.

(** The outcomes of the I/O of one compare-and-set: the directory, the
    process mutex, the record lock, the write, and the removal of the file
    under the old name. *)
Record CasOutcomes := MkCasOutcomes {
  co_dir : Res unit;
  co_lock : Res unit;
  co_record_lock : Res unit;
  co_write : WriteOutcome;
  co_legacy : Result string unit
}.
Definition cas_fine : CasOutcomes := MkCasOutcomes (Ok tt) (Ok tt) (Ok tt) WriteOk (Ok tt).

(** The name of the first format's files. *)
Definition legacy_safe_file_segment (value : string) : string :=
  str_concat ((fun ch => if chars_all_ascii (fun c => is_ascii_alphanumeric c || Ascii.eqb c "-"
                                                   || Ascii.eqb c "_" || Ascii.eqb c ".") ch
                         then ch else "-") <$> chars value).

Section FileTable.
(** [Sha256::digest], as bytes. *)
Variable sha256 : string -> string.

Definition snapshot_path (t : FileSystemProviderProcessTable) (session_id : string) : Res string :=
  reject str_is_empty (trim session_id) with
    invalid_argument "provider process session id cannot be empty" else
  Ok (path_join (ft_process_dir t) (hex_encode (sha256 session_id) +:+ ".provider")).

Definition legacy_snapshot_path (t : FileSystemProviderProcessTable) (session_id : string) : Res string :=
  reject str_is_empty (trim session_id) with
    invalid_argument "provider process session id cannot be empty" else
  Ok (path_join (ft_process_dir t) (legacy_safe_file_segment session_id +:+ ".provider")).

Definition read_provider_snapshot (files : Files) (path : string) : Res (option ProviderProcessSnapshot) :=
  match read_to_string files path with
  | Err ReadNotFound => Ok None
  | Err error => Err (internal "failed to read provider process snapshot"
                        ⊕ ("path", path) ⊕ ("io_error", read_failure_text error))
  | Ok data => result_map Some (map_err (fun error => error ⊕ ("path", path)) (process_from_storage data))
  end.

Definition file_exists (files : Files) (path : string) : bool := bool_decide (is_Some (files !! path)).

Definition process_key_collision (path expected actual : string) : EvaError :=
  conflict "provider process snapshot key collision" ⊕ ("path", path)
    ⊕ ("expected_session_id", expected) ⊕ ("actual_session_id", actual).

(** What the closure of [compare_and_set] decides to write over what it
    read at [path]. *)
Definition file_candidate (path : string) (current : option ProviderProcessSnapshot)
    (candidate : ProviderProcessSnapshot) (generation : WriterGeneration) : Res ProviderProcessSnapshot :=
  match current with
  | Some current =>
      reject negb (String.eqb (pp_session_id current) (pp_session_id candidate)) with
        process_key_collision path (pp_session_id candidate) (pp_session_id current) else
      reject negb (pp_owner_generation candidate =? pp_owner_generation current)%N with
        conflict "provider process owner generation conflict" ⊕ ("session_id", pp_session_id candidate)
          ⊕ ("expected_generation", n_to_string (pp_owner_generation candidate))
          ⊕ ("actual_generation", n_to_string (pp_owner_generation current)) else
      ensure_immutable_identity current candidate
  | None =>
      reject negb (pp_owner_generation candidate =? 0)%N with
        conflict "new provider process record cannot claim an existing owner generation"
          ⊕ ("session_id", pp_session_id candidate)
          ⊕ ("generation", n_to_string (pp_owner_generation candidate)) else
      Ok tt
  end >>?
  (let actual := process_version current in
   reject negb (actual =? pp_record_version candidate)%N with process_version_conflict candidate actual else
   let? next := version_checked_next actual in
   let committed := candidate <| pp_record_version := next |> <| pp_owner_generation := generation |> in
   validate_record true committed >>? Ok committed).

Definition file_table_cas (t : FileSystemProviderProcessTable) (files : Files)
    (candidate : ProviderProcessSnapshot) (o : CasOutcomes) : Res ProviderProcessSnapshot * Files :=
  match (validate_record false candidate >>?
         (let? writer := ok_or (ft_writer t)
            (conflict "provider process mutation requires runtime writer ownership"
               ⊕ ("path", ft_process_dir t)) in
          co_dir o >>?
          (let? path := snapshot_path t (pp_session_id candidate) in
           let? legacy_path := legacy_snapshot_path t (pp_session_id candidate) in
           Ok (writer, path, legacy_path)))) with
  | Err e => (Err e, files)
  | Ok (writer, path, legacy_path) =>
      with_write_lock writer files (co_lock o) (fun generation =>
        match (co_record_lock o >>? verify_current writer files >>?
               (let current_path := if file_exists files path then path
                                    else if file_exists files legacy_path then legacy_path else path in
                let? current := read_provider_snapshot files current_path in
                file_candidate current_path current candidate generation)) with
        | Err e => (Err e, files)
        | Ok committed =>
            match atomic_write files path (process_to_storage committed) (co_write o) with
            | (Err error, files) =>
                (Err (internal "failed to atomically write provider process snapshot"
                        ⊕ ("session_id", pp_session_id committed) ⊕ ("path", path)
                        ⊕ ("io_error", error)), files)
            | (Ok _, files) =>
                if negb (String.eqb legacy_path path) && file_exists files legacy_path then
                  match co_legacy o with
                  | Ok _ => (Ok committed, delete legacy_path files)
                  | Err error =>
                      (Err (internal "failed to remove migrated provider process snapshot"
                              ⊕ ("path", legacy_path) ⊕ ("io_error", error)), files)
                  end
                else (Ok committed, files)
            end
        end)
  end.

Definition file_table_read (t : FileSystemProviderProcessTable) (files : Files) (session_id : string) :
    Res ProviderProcessSnapshot :=
  let? path := snapshot_path t session_id in
  let? legacy_path := legacy_snapshot_path t session_id in
  let read_path := if file_exists files path then path else legacy_path in
  let? snapshot := read_provider_snapshot files read_path in
  let? snapshot := ok_or snapshot
    (not_found "provider process session does not exist" ⊕ ("path", read_path)) in
  reject negb (String.eqb (pp_session_id snapshot) session_id) with
    process_key_collision read_path session_id (pp_session_id snapshot) else
  Ok snapshot.

(** The [.provider] files of the directory, sorted by path: the keys that
    are the directory, a separator and a name without one. *)
Definition path_le (a b : string) : Prop := String.leb a b = true.
#[local] Instance path_le_dec : RelDecision path_le.
Proof. intros a b. unfold path_le. apply _. Defined.

Definition is_provider_file (dir path : string) : bool :=
  match strip_prefix (dir +:+ "/") path with
  | Some name => negb (contains_char "/" name)
                 && match reverse (split "." name) with
                    | extension :: stem :: rest => String.eqb extension "provider"
                                                   && negb (str_is_empty (join "." (reverse (stem :: rest))))
                    | _ => false
                    end
  | None => false
  end.

Definition provider_paths (t : FileSystemProviderProcessTable) (files : Files) : list string :=
  merge_sort path_le (List.filter (is_provider_file (ft_process_dir t)) (map_to_list files).*1).

(** One file of the listing: of two files of a session, the one under the
    digest wins over the one under the old name. *)
Definition ListedSessions : Type := gmap string (bool * string * ProviderProcessSnapshot).

Definition list_file (t : FileSystemProviderProcessTable) (files : Files) (acc : ListedSessions) (path : string) :
    Res ListedSessions :=
  let? snapshot := read_provider_snapshot files path in
  let? snapshot := ok_or snapshot
    (internal "provider process snapshot disappeared while listing" ⊕ ("path", path)) in
  let? canonical_path := snapshot_path t (pp_session_id snapshot) in
  let is_canonical := String.eqb path canonical_path in
  match acc !! pp_session_id snapshot with
  | None => Ok (<[pp_session_id snapshot := (is_canonical, path, snapshot)]> acc)
  | Some (existing_canonical, existing_path, existing) =>
      if existing_canonical && negb is_canonical then Ok acc
      else if negb existing_canonical && is_canonical then
        Ok (<[pp_session_id snapshot := (true, path, snapshot)]> acc)
      else Err (conflict "duplicate provider process snapshots share a session id"
                  ⊕ ("session_id", pp_session_id snapshot) ⊕ ("first_path", existing_path)
                  ⊕ ("second_path", path) ⊕ ("first_version", n_to_string (pp_record_version existing))
                  ⊕ ("second_version", n_to_string (pp_record_version snapshot)))
  end.

Fixpoint list_files (t : FileSystemProviderProcessTable) (files : Files) (acc : ListedSessions)
    (paths : list string) : Res ListedSessions :=
  match paths with
  | [] => Ok acc
  | path :: paths => let? acc := list_file t files acc path in list_files t files acc paths
  end.

Definition listed_le (a b : string * ProviderProcessSnapshot) : Prop := String.leb a.1 b.1 = true.
#[local] Instance listed_le_dec : RelDecision listed_le.
Proof. intros a b. unfold listed_le. apply _. Defined.

Definition file_table_list (t : FileSystemProviderProcessTable) (files : Files) : Res (list ProviderProcessSnapshot) :=
  let? sessions := list_files t files ∅ (provider_paths t files) in
  Ok (merge_sort listed_le ((fun e => (e.2.1.2, e.2.2)) <$> map_to_list sessions)).*2.
End FileTable.

(** The table with the files it works on, and the outcomes of the I/O of its
    operations in their order. *)
Record ProcessDisk := MkProcessDisk {
  pd_table : FileSystemProviderProcessTable;
  pd_files : Files;
  pd_outcomes : nat -> CasOutcomes;
  pd_operations : nat
}.

Definition disk_cas (sha256 : string -> string) (d : ProcessDisk) (candidate : ProviderProcessSnapshot) :
    Res ProviderProcessSnapshot * ProcessDisk :=
  let '(r, files) := file_table_cas sha256 (pd_table d) (pd_files d) candidate (pd_outcomes d (pd_operations d)) in
  (r, MkProcessDisk (pd_table d) files (pd_outcomes d) (S (pd_operations d))).

Definition disk_process_table (sha256 : string -> string) : ProviderProcessTable ProcessDisk := {|
  compare_and_set := disk_cas sha256;
  read_session d session_id := file_table_read sha256 (pd_table d) (pd_files d) session_id;
  list_sessions d := file_table_list sha256 (pd_table d) (pd_files d)
|}.

(** ** The record format reads back *)

(** What has to hold of a record, besides its validation, for its text to be
    read back. *)
Definition writable_process (p : ProviderProcessSnapshot) : Prop :=
  id_valid (id_str (pp_request_id p)) = true /\ id_valid (id_str (pp_adapter_id p)) = true /\
  capability_name_parse (cap_name (pp_capability p)) = Ok (pp_capability p) /\
  pp_last_error p <> Some "" /\
  (pp_attempt p <= u32_max)%N /\ (pp_restart_max_attempts p <= u32_max)%N /\
  (pp_restart_backoff_ms p <= u64_max)%N /\ (pp_restart_attempts p <= u32_max)%N /\
  (default 0 (pp_restart_due_at_ms p) <= u128_max)%N /\ (default 0 (pp_pid p) <= u32_max)%N /\
  (default 0 (pp_process_group_id p) <= u32_max)%N /\ (default 0 (pp_retry_backoff_ms p) <= u64_max)%N /\
  (pp_started_at_ms p <= u128_max)%N /\ (pp_updated_at_ms p <= u128_max)%N.

(** A record the table can have written. *)
Definition storable_process (p : ProviderProcessSnapshot) : Prop :=
  validate_record true p = Ok tt /\ (0 < pp_owner_generation p <= u64_max)%N /\
  (pp_record_version p <= u64_max)%N /\ writable_process p.

Lemma option_text_clean {A} (f : A -> string) o :
  (forall a, line_clean (f a) = true) -> line_clean (option_text f o) = true.
Proof. intros H. destruct o; [apply H|reflexivity]. Qed.

Lemma process_fields_clean p : Forall field_clean (process_fields p ++ audit_fields p).
Proof.
  apply Forall_app. split.
  - unfold process_fields. repeat (apply Forall_cons; split; [|try apply Forall_nil; try done]).
    all: split_and!; [discriminate|reflexivity|reflexivity|cbn [snd]].
    all: try first [apply n_to_string_clean|apply encode_field_clean|reflexivity
                   |apply option_text_clean; intros; first [apply n_to_string_clean|apply encode_field_clean]].
    by destruct (pp_active p).
  - apply Forall_fmap, Forall_true. intros entry.
    split_and!; [discriminate|reflexivity|reflexivity|apply encode_field_clean].
Qed.

Lemma parse_process_number_ok max message n :
  (n <= max)%N -> parse_process_number max message (n_to_string n) = Ok n.
Proof. intros H. unfold parse_process_number. by rewrite parse_unsigned_to_string. Qed.

Lemma parse_optional_number_ok max message o :
  (default 0 o <= max)%N -> parse_optional_number max message (option_text n_to_string o) = Ok o.
Proof.
  intros H. unfold parse_optional_number. destruct o as [n|]; [|reflexivity]. cbn in *.
  rewrite str_is_empty_false by apply n_to_string_nonempty. by rewrite parse_unsigned_to_string.
Qed.

Lemma process_optional_field_ok o :
  o <> Some "" -> process_optional_field (option_text encode_field o) = o.
Proof.
  intros H. unfold process_optional_field. destruct o as [s|]; [|reflexivity]. cbn [option_text].
  rewrite str_is_empty_false by (apply encode_field_nonempty; congruence). by rewrite decode_encode_field.
Qed.

(** Reading one scalar, and the audit entries at the end. *)
Lemma process_lines_field r k v handler fs x :
  Forall field_clean ((k, v) :: fs) -> k <> "audit" -> find_handler PROCESS_HANDLERS k = Some handler ->
  k ∉ rd_seen r ->
  (Forall field_clean fs -> (let? r := handler (r <| rd_seen := k :: rd_seen r |>) v in
                             process_lines r (field_line <$> fs)) = x) ->
  process_lines r (field_line <$> (k, v) :: fs) = x.
Proof.
  intros [Hc Hcs]%Forall_cons Hk Hf Hs <-; [|done]. rewrite fmap_cons. cbn [process_lines].
  rewrite str_is_empty_false by (by apply field_line_trim).
  unfold process_line. rewrite field_line_split by done. rewrite (proj2 (String.eqb_neq _ _) Hk), Hf.
  cbn [negb andb]. by rewrite bool_decide_eq_false_2.
Qed.

Lemma process_lines_parsed {A} (parse : string -> Res A) set version p seen k v a fs x :
  Forall field_clean ((k, v) :: fs) -> k <> "audit" ->
  find_handler PROCESS_HANDLERS k = Some (parsed_field parse set) -> k ∉ seen -> parse v = Ok a ->
  (Forall field_clean fs ->
   process_lines (MkProcessReader version (set a p) (k :: seen)) (field_line <$> fs) = x) ->
  process_lines (MkProcessReader version p seen) (field_line <$> (k, v) :: fs) = x.
Proof.
  intros Hc Hk Hf Hs Hp Hx. eapply process_lines_field; [done..|]. intros Hcs. unfold parsed_field.
  rewrite Hp. by apply Hx.
Qed.

Lemma process_lines_audit entries r :
  process_lines r (field_line <$> ((fun e => ("audit", encode_field e)) <$> entries))
  = Ok (r <| rd_process := push_audit entries (rd_process r) |>).
Proof.
  revert r. induction entries as [|e entries IH]; intros r.
  - destruct r as [v p seen]. destruct p. unfold push_audit. cbn. by rewrite app_nil_r.
  - rewrite !fmap_cons. cbn [process_lines]. rewrite str_is_empty_false.
    2:{ apply field_line_trim. split_and!; [discriminate|reflexivity|reflexivity|apply encode_field_clean]. }
    unfold process_line. rewrite field_line_split.
    2:{ split_and!; [discriminate|reflexivity|reflexivity|apply encode_field_clean]. }
    change (find_handler PROCESS_HANDLERS "audit") with (Some (decoded_field (fun s p => push_audit [s] p))).
    change (negb (String.eqb "audit" "audit")) with false. cbn [andb]. unfold decoded_field, parsed_field.
    rewrite decode_encode_field. cbv beta iota. rewrite IH. destruct r as [v p seen]. destruct p.
    unfold push_audit. cbn. by rewrite <- app_assoc.
Qed.

Lemma parse_process_bool_ok field b : parse_process_bool field (bool_to_string b) = Ok b.
Proof. by destruct b. Qed.

(** The record without its audit entries, as the scalar fields give it. *)
Definition read_seen : list string := reverse (process_fields blank_process).*1.

Lemma process_token_nonempty p :
  validate_identity p = Ok tt -> pp_process_start_token p <> Some "" /\ pp_job_id p <> Some "".
Proof.
  unfold validate_identity. intros H. apply then_Ok in H as [[[] H1] H2].
  apply reject_Ok in H2 as [_ H2]. apply reject_Ok in H2 as [_ H2]. apply reject_Ok in H2 as [H2 _].
  split; intros E; rewrite E in *; [|by vm_compute in H2].
  destruct (pp_pid p); [|by cbn in H1]. apply reject_Ok in H1 as [_ H1]. cbn [ok_or] in H1.
  apply reject_Ok in H1 as [H1 _]. by vm_compute in H1.
Qed.


Ltac not_seen :=   match goal with |- ?k ∉ ?l => apply (bool_decide_eq_false_1 (k ∈ l)); vm_compute; reflexivity end.
Ltac read_value := cbv beta;
  first [by apply parse_process_number_ok|by apply parse_optional_number_ok
        |rewrite process_optional_field_ok by assumption; reflexivity
        |rewrite decode_encode_field; by apply id_parse_valid
        |rewrite decode_encode_field; first [eassumption|reflexivity]
        |apply parse_process_bool_ok].
Ltac read_field :=
  eapply process_lines_parsed; [eassumption|discriminate|reflexivity|not_seen|read_value|
    match goal with H : Forall field_clean (_ :: _) |- _ => clear H end; intros ?].

Lemma process_scalars_read p :
  storable_process p ->
  process_lines process_reader_new (field_line <$> process_fields p ++ audit_fields p)
  = Ok (MkProcessReader (Some 3%N) p read_seen).
Proof.
  intros (Hv & [_ H1] & H2 & Hr & Ha & Hcap & Herr & H3 & H4 & H5 & H6 & H7 & H8 & H9 & H10 & H11 & H12).
  assert (Htok : pp_process_start_token p <> Some "" /\ pp_job_id p <> Some "").
  { apply process_token_nonempty. unfold validate_record in Hv.
    apply reject_Ok in Hv as [_ Hv]. apply reject_Ok in Hv as [_ Hv]. by apply then_Ok in Hv as [[[] ?] _]. }
  destruct Htok as [Ht Hj].
  pose proof (process_fields_clean p) as Hc. revert Hc. unfold process_fields. cbn [app]. intros Hc.
  eapply process_lines_field; [exact Hc|discriminate|reflexivity|not_seen|]. clear Hc. intros Hc.
  cbv beta. change (parse_process_number u32_max _ "3") with (@Ok EvaError N 3%N). cbv iota.
  unfold process_reader_new. cbn [set_field rd_seen rd_version rd_process].
  do 27 read_field. unfold audit_fields. rewrite process_lines_audit. f_equal.
  destruct p as [? ? ? ? ? ? [] [] ?]. reflexivity.
Qed.

(** A record the table wrote is read back. *)
Lemma process_record_roundtrip p :
  storable_process p -> process_from_storage (process_to_storage p) = Ok p.
Proof.
  intros Hp. unfold process_from_storage, process_to_storage.
  rewrite lines_render by apply process_fields_clean. rewrite process_scalars_read by exact Hp.
  destruct Hp as (Hv & Hg & _). unfold finish_process. cbn [rd_version rd_process rd_seen ok_or].
  replace (pp_owner_generation p =? 0)%N with false by (symmetry; apply N.eqb_neq; lia).
  change (lacks read_seen V2_FIELDS) with false. change (lacks read_seen V3_FIELDS) with false.
  change (bool_decide ("restart_state" ∈ read_seen)) with true. cbv iota.
  change (try_each _ REQUIRED_FIELDS) with (@Ok EvaError unit tt). change (2 <=? 3)%N with true.
  by rewrite Hv.
Qed.

(** ** The file table against the table in memory *)

(** The table in memory knows no writer generations. *)
Definition erase_generation (p : ProviderProcessSnapshot) : ProviderProcessSnapshot :=
  p <| pp_owner_generation := 0%N |>.

Lemma erase_version p : pp_record_version (erase_generation p) = pp_record_version p.
Proof. by destruct p. Qed.
Lemma erase_session p : pp_session_id (erase_generation p) = pp_session_id p.
Proof. by destruct p. Qed.
Lemma erase_validate b p : validate_record b (erase_generation p) = validate_record b p.
Proof. by destruct p. Qed.
Lemma erase_same_identity p q : same_identity (erase_generation p) (erase_generation q) = same_identity p q.
Proof. by destruct p, q. Qed.

(** Session ids as the supervisor makes them. *)
Definition supervised_session (session_id : string) : Prop := exists rest, session_id = "session-" +:+ rest.

Section FileRefinement.
Variable sha256 : string -> string.
Variable t : FileSystemProviderProcessTable.
(** The sessions in use, which the supervisor named, and of which SHA-256
    takes no two to one digest. *)
Variable known : string -> Prop.
Hypothesis known_supervised : forall a, known a -> supervised_session a.
Hypothesis sha256_apart : forall a b, known a -> known b -> sha256 a = sha256 b -> a = b.

Definition hashed_path (session_id : string) : string :=
  path_join (ft_process_dir t) (hex_encode (sha256 session_id) +:+ ".provider").
Definition old_path (session_id : string) : string :=
  path_join (ft_process_dir t) (legacy_safe_file_segment session_id +:+ ".provider").

Lemma hashed_path_inj a b : known a -> known b -> hashed_path a = hashed_path b -> a = b.
Proof using sha256_apart.
  unfold hashed_path, path_join. intros Ha Hb H. do 2 apply (inj (String.append _)) in H.
  apply append_suffix_inj, hex_encode_inj in H. by apply sha256_apart.
Qed.

Lemma old_path_not_hashed a b : supervised_session a -> old_path a <> hashed_path b.
Proof.
  intros [rest ->]. unfold old_path, hashed_path, path_join. intros H. do 2 apply (inj (String.append _)) in H.
  assert (Hhex := hex_encode_lower (sha256 b)).
  assert (E : exists r, legacy_safe_file_segment ("session-" +:+ rest) = String "s" r) by (eexists; reflexivity).
  destruct E as [r E]. rewrite E in H. destruct (hex_encode (sha256 b)) as [|c x]; [discriminate H|].
  rewrite !append_cons in H. injection H as Hc _. subst c. discriminate Hhex.
Qed.

Lemma supervised_paths session_id :
  supervised_session session_id ->
  snapshot_path sha256 t session_id = Ok (hashed_path session_id) /\
  legacy_snapshot_path t session_id = Ok (old_path session_id).
Proof.
  intros [rest ->]. unfold snapshot_path, legacy_snapshot_path.
  rewrite str_is_empty_false by (by apply (trim_graphic_head "s")). done.
Qed.

Definition process_text_utf8 (p : ProviderProcessSnapshot) : Prop :=
  Forall (fun f => utf8_valid f.2 = true) (process_fields p ++ audit_fields p).

(** The directory holds the table [mem]: the record of a session in the file
    its digest names or, before its first commit in this format, in the file
    under its old name.  Two sessions can have the same old name; the file
    belongs to the one its record names. *)
Definition represents_processes (files : Files) (mem : gmap string ProviderProcessSnapshot) : Prop :=
  forall session_id, known session_id ->
    match files !! hashed_path session_id with
    | Some data => exists p, storable_process p /\ process_text_utf8 p /\ data = process_to_storage p /\
                     pp_session_id p = session_id /\ mem !! session_id = Some (erase_generation p)
    | None =>
        match files !! old_path session_id with
        | Some data => exists p, utf8_valid data = true /\ process_from_storage data = Ok p /\
                         mem !! session_id = if String.eqb (pp_session_id p) session_id
                                             then Some (erase_generation p) else None
        | None => mem !! session_id = None
        end
    end.

(** The file under the old name of the session is its own, if there is one. *)
Definition own_old_file (files : Files) (session_id : string) : Prop :=
  forall data p, files !! old_path session_id = Some data -> process_from_storage data = Ok p ->
    pp_session_id p = session_id.

Lemma read_provider_stored files path p :
  storable_process p -> process_text_utf8 p -> files !! path = Some (process_to_storage p) ->
  read_provider_snapshot files path = Ok (Some p).
Proof.
  intros Hp Hu Hf. unfold read_provider_snapshot, read_to_string. rewrite Hf.
  assert (E : utf8_valid (process_to_storage p) = true) by (apply render_utf8; [apply process_fields_clean|exact Hu]).
  by rewrite E, process_record_roundtrip.
Qed.

(** The file a session is read from. *)
Definition current_path (files : Files) (session_id : string) : string :=
  if file_exists files (hashed_path session_id) then hashed_path session_id
  else if file_exists files (old_path session_id) then old_path session_id else hashed_path session_id.

(** What a read of a session finds. *)
Lemma represented_read files mem session_id :
  represents_processes files mem -> known session_id ->
  exists current, read_provider_snapshot files (current_path files session_id) = Ok current /\
    mem !! session_id = (current ≫= fun p => if String.eqb (pp_session_id p) session_id
                                             then Some (erase_generation p) else None).
Proof.
  intros Hr Hs. specialize (Hr _ Hs). unfold current_path, file_exists.
  destruct (files !! hashed_path session_id) as [data|] eqn:E.
  - destruct Hr as (p & Hp & Hu & -> & Hid & Hm). exists (Some p).
    rewrite bool_decide_eq_true_2 by (by eexists). rewrite (read_provider_stored _ _ p) by done.
    split; [done|]. cbn. by rewrite Hid, String.eqb_refl.
  - rewrite bool_decide_eq_false_2 by (by intros []). unfold read_provider_snapshot, read_to_string.
    destruct (files !! old_path session_id) as [data|] eqn:Eo.
    + rewrite bool_decide_eq_true_2 by (by eexists). destruct Hr as (p & Hu & Hp & Hm). exists (Some p).
      rewrite Eo, Hu, Hp. by split.
    + rewrite bool_decide_eq_false_2 by (by intros []). exists None. by rewrite E.
Qed.

(** What the file table commits, the table in memory commits too. *)
Lemma file_candidate_Ok path current c generation committed :
  validate_record false c = Ok tt -> file_candidate path current c generation = Ok committed ->
  exists next, committed = c <| pp_record_version := next |> <| pp_owner_generation := generation |> /\
    (next <= u64_max)%N /\ validate_record true committed = Ok tt /\
    mem_candidate (erase_generation <$> current) (erase_generation c) = Ok (erase_generation committed).
Proof.
  intros Hv. unfold file_candidate. intros H. apply then_Ok in H as [[[] Hid] H].
  apply reject_Ok in H as [Hver H].
  destruct (version_checked_next (process_version current)) as [next|] eqn:En; [|done].
  apply then_Ok in H as [[[] Hc] H]. injection H as <-. exists next.
  split; [done|]. split; [unfold version_checked_next in En; destruct (checked_add _ _ _) eqn:Ea; [|done];
    apply checked_add_Some in Ea; simplify_eq/=; lia|]. split; [done|].
  unfold mem_candidate. rewrite erase_validate, Hv. cbv iota.
  replace (process_version (erase_generation <$> current)) with (process_version current)
    by (by destruct current as [[]|]).
  assert (Hsame : match erase_generation <$> current with
                  | Some p => ensure_immutable_identity p (erase_generation c) | None => Ok tt end = Ok tt).
  { destruct current as [p|]; [|done]. cbn. apply reject_Ok in Hid as [_ Hid]. apply reject_Ok in Hid as [_ Hid].
    unfold ensure_immutable_identity in *. rewrite erase_same_identity. by destruct (same_identity p c). }
  rewrite Hsame. cbv iota. rewrite erase_version, Hver, En.
  replace ((erase_generation c) <| pp_record_version := next |>)
    with (erase_generation (c <| pp_record_version := next |> <| pp_owner_generation := generation |>))
    by (by destruct c).
  by rewrite erase_validate, Hc.
Qed.

Lemma process_text_committed c next generation :
  process_text_utf8 c ->
  process_text_utf8 (c <| pp_record_version := next |> <| pp_owner_generation := generation |>).
Proof.
  unfold process_text_utf8. rewrite !Forall_app. intros [H Ha]. split; [|by destruct c].
  destruct c. unfold process_fields in *. cbn -[utf8_valid n_to_string encode_field option_text bool_to_string] in *.
  rewrite !Forall_cons in *. cbn [snd] in *. naive_solver eauto using n_to_string_utf8.
Qed.

Lemma represents_insert files mem p :
  represents_processes files mem -> known (pp_session_id p) ->
  storable_process p -> process_text_utf8 p ->
  represents_processes (<[hashed_path (pp_session_id p) := process_to_storage p]> files)
    (<[pp_session_id p := erase_generation p]> mem).
Proof using sha256_apart known_supervised.
  intros Hr Hs Hp Hu sid Hsid. destruct (decide (sid = pp_session_id p)) as [->|Hne].
  - rewrite !lookup_insert_eq. by exists p.
  - rewrite (lookup_insert_ne files _ (hashed_path sid)) by (intros E; apply Hne; symmetry; by apply hashed_path_inj).
    rewrite (lookup_insert_ne files _ (old_path sid)) by (intros E; symmetry in E; by eapply old_path_not_hashed, E; apply known_supervised).
    rewrite lookup_insert_ne by congruence. by apply Hr.
Qed.

(** Removing the file under the old name of a session that has its own. *)
Lemma represents_delete files mem session_id :
  represents_processes files mem -> known session_id -> own_old_file files session_id ->
  is_Some (files !! hashed_path session_id) ->
  represents_processes (delete (old_path session_id) files) mem.
Proof using known_supervised.
  intros Hr Hs Hown Hex sid Hsid. specialize (Hr _ Hsid).
  rewrite lookup_delete_ne by (intros E; by eapply old_path_not_hashed, E; apply known_supervised).
  destruct (files !! hashed_path sid) as [data|] eqn:E; [done|].
  destruct (decide (old_path sid = old_path session_id)) as [Eo|Hne].
  - rewrite <- Eo, lookup_delete_eq. destruct (files !! old_path sid) as [data|] eqn:Ef; [|done].
    destruct Hr as (p & _ & Hp & ->). destruct (String.eqb_spec (pp_session_id p) sid) as [<-|]; [|done].
    rewrite Eo in Ef. specialize (Hown _ _ Ef Hp). rewrite <- Hown in Hex. rewrite E in Hex. by destruct Hex.
  - by rewrite lookup_delete_ne.
Qed.

(** C16: The compare-and-set of the file table refines the one in memory: what
    is on disk afterwards is the table before, or the table the in-memory
    operation makes of the same candidate; an answer [Ok] is the latter.  An
    error after the commit comes from a write that could not be synced, or
    from the removal of the session's file in the old place.  Supposed are a
    candidate the format can carry (no error text that is empty), sessions
    named by the supervisor that SHA-256 keeps apart, and that the file under
    the candidate's old name, if there is one, is its own. *)
Theorem file_cas_refines_memory writer files mem c o r files' :
  represents_processes files mem -> known (pp_session_id c) -> own_old_file files (pp_session_id c) ->
  writable_process c -> process_text_utf8 c ->
  ft_writer t = Some writer -> (0 < wg_generation writer <= u64_max)%N ->
  file_table_cas sha256 t files c o = (r, files') ->
  (represents_processes files' mem /\ is_ok r = false) \/
  (exists p mem', represents_processes files' mem' /\
     mem_table_cas (MkMemTable mem) (erase_generation c) = (Ok (erase_generation p), MkMemTable mem') /\
     (r = Ok p \/
      is_ok r = false /\ ((exists e, co_write o = WriteUnsynced e) \/
                         (exists e, co_legacy o = Err e) /\ is_Some (files !! old_path (pp_session_id c))))).
Proof using sha256_apart known_supervised.
  intros Hr Hs Hown Hw Hu Hwr Hg. destruct (supervised_paths _ (known_supervised _ Hs)) as [Hp Hl].
  assert (Hsame : forall e, (Err e, files) = (r, files') ->
    (represents_processes files' mem /\ is_ok r = false)) by (intros e [= <- <-]; done).
  unfold file_table_cas. rewrite Hwr, Hp, Hl. cbn [ok_or].
  destruct (validate_record false c) as [[]|e] eqn:Hv; [|intros; left; eauto].
  destruct (co_dir o) as [[]|e]; [|intros; left; eauto]. cbv iota. unfold with_write_lock.
  destruct (co_lock o >>? verify_current writer files) as [[]|e]; [|intros; left; eauto].
  destruct (co_record_lock o) as [[]|e]; [|intros; left; eauto]. cbv iota.
  destruct (verify_current writer files) as [[]|e]; [|intros; left; eauto]. cbv iota zeta.
  change (if file_exists files (hashed_path (pp_session_id c)) then _ else _) with (current_path files (pp_session_id c)).
  destruct (represented_read _ _ _ Hr Hs) as (current & Hread & Hmem). rewrite Hread. cbv iota.
  destruct (file_candidate _ current c (wg_generation writer)) as [p|e] eqn:Ec; [|intros; left; eauto].
  assert (Hmem' : mem !! pp_session_id c = erase_generation <$> current).
  { rewrite Hmem. destruct current as [q|]; [|done]. cbn. unfold file_candidate in Ec. apply then_Ok in Ec as [[[] Eq] _].
    apply reject_Ok in Eq as [Eq _]. apply negb_false_iff in Eq. by rewrite Eq. }
  apply file_candidate_Ok in Ec as (next & E & Hn & Hvt & Hm); [|done].
  assert (Hsid : pp_session_id p = pp_session_id c) by (subst p; by destruct c).
  assert (Hst : storable_process p).
  { subst p. split; [done|]. destruct c. cbn in *. split_and!; try apply Hw; try apply Hg; exact Hn. }
  assert (Hut : process_text_utf8 p) by (subst p; by apply process_text_committed).
  assert (Hins : represents_processes (<[hashed_path (pp_session_id c) := process_to_storage p]> files)
                   (<[pp_session_id c := erase_generation p]> mem)).
  { rewrite <- Hsid. apply represents_insert; try done. by rewrite Hsid. }
  assert (Hcas : mem_table_cas (MkMemTable mem) (erase_generation c)
                 = (Ok (erase_generation p), MkMemTable (<[pp_session_id c := erase_generation p]> mem))).
  { unfold mem_table_cas. cbn [mt_snapshots]. by rewrite erase_session, Hmem', Hm, erase_session, Hsid. }
  destruct (co_write o) as [|e|e] eqn:Ew; cbn [atomic_write].
  - assert (Hne : hashed_path (pp_session_id c) <> old_path (pp_session_id c))
      by (intros E'; symmetry in E'; by eapply old_path_not_hashed, E'; apply known_supervised).
    assert (Hex : file_exists (<[hashed_path (pp_session_id c) := process_to_storage p]> files) (old_path (pp_session_id c))
                  = bool_decide (is_Some (files !! old_path (pp_session_id c))))
      by (unfold file_exists; by rewrite lookup_insert_ne).
    rewrite Hex. clear Hex. destruct (negb _ && _) eqn:Hmig; [|intros [= <- <-]; right; eauto 10].
    apply andb_true_iff in Hmig as [_ Hmig%bool_decide_eq_true]. destruct (co_legacy o) as [[]|e].
    + intros [= <- <-]. right. exists p. eexists. split_and!; [|exact Hcas|by left].
      apply represents_delete; [done..| |by rewrite lookup_insert_eq].
      intros data q. rewrite lookup_insert_ne by done. apply Hown.
    + intros [= <- <-]. right. exists p. eexists. split_and!; [exact Hins|exact Hcas|]. right. split; [done|]. right. eauto.
  - intros. left. eauto.
  - intros [= <- <-]. right. exists p, (<[pp_session_id c := erase_generation p]> mem). eauto 10.
Qed.
End FileRefinement.

(** The first commit of a session under a current writer. *)
Module FirstCommit.
Definition table : FileSystemProviderProcessTable :=
  MkFsTable "p" (Some (MkWriterGuard "r" "r/owner" "r/record" "r/generation" "token" 1 7)).
Definition files : Files := <["r/generation" := generation_text 1]> (<["r/record" := owner_text "token" 1 7]> ∅).
Definition candidate : ProviderProcessSnapshot :=
  process_running "session-a" "provider-a" (MkId "req-1") (MkId "adapter-1") (MkCapabilityName "text.summarise" ["text"; "summarise"])
    "stdio" "sha256:0" "run" "on_failure" 10.

Definition known (session_id : string) : Prop := session_id = "session-a".

Lemma directory_empty : represents_processes id table known files ∅.
Proof.
  intros sid _. unfold old_path, hashed_path, path_join, files. cbn [table ft_process_dir].
  rewrite !lookup_insert_ne by discriminate. by rewrite !lookup_empty.
Qed.

Lemma no_old_file : own_old_file table files "session-a".
Proof. intros data p H. exfalso. vm_compute in H. discriminate H. Qed.

Lemma candidate_writable : writable_process candidate.
Proof. unfold writable_process. split_and!; vm_compute; done. Qed.

Lemma committed : is_ok (file_table_cas id table files candidate cas_fine).1 = true.
Proof. vm_compute. reflexivity. Qed.
End FirstCommit.

Lemma file_cas_refines_memory_witness :
  exists p mem' files',
    file_table_cas id FirstCommit.table FirstCommit.files FirstCommit.candidate cas_fine = (Ok p, files') /\
    represents_processes id FirstCommit.table FirstCommit.known files' mem' /\
    mem_table_cas mem_table_new (erase_generation FirstCommit.candidate) = (Ok (erase_generation p), MkMemTable mem').
Proof.
  destruct (file_table_cas id FirstCommit.table FirstCommit.files FirstCommit.candidate cas_fine) as [r files'] eqn:E.
  pose proof FirstCommit.committed as Hok. rewrite E in Hok. cbn in Hok.
  destruct (file_cas_refines_memory id FirstCommit.table FirstCommit.known
    (fun a Ha => ex_intro _ "a" Ha) (fun a b _ _ H => H)
    (MkWriterGuard "r" "r/owner" "r/record" "r/generation" "token" 1 7) FirstCommit.files ∅ FirstCommit.candidate cas_fine
    r files' FirstCommit.directory_empty eq_refl FirstCommit.no_old_file)
    as [[_ Hr]|(p & mem' & Hrep & Hcas & [->|[Hr _]])].
  - exact FirstCommit.candidate_writable.
  - repeat apply Forall_cons_2; try apply Forall_nil_2; reflexivity.
  - reflexivity.
  - split; [reflexivity|vm_compute; discriminate].
  - exact E.
  - rewrite Hr in Hok. discriminate Hok.
  - exists p, mem', files'. split; [reflexivity|]. split; [exact Hrep|exact Hcas].
  - rewrite Hr in Hok. discriminate Hok.
Defined.

(** ** What clients of a table rely on *)

(** A committed record: the candidate with the version and generation it got. *)
Definition committed_as (c r : ProviderProcessSnapshot) : Prop :=
  exists version generation, r = c <| pp_record_version := version |> <| pp_owner_generation := generation |>.

(** The laws of a process table, for the tables [table_ok] describes: a read
    answers with the session asked for; a compare-and-set that answers is
    read back and changes no other session; one that fails has committed its
    candidate or nothing. *)
Class ProviderTableLaws (T : Type) `{!ProviderProcessTable T} := {
  table_ok : T -> Prop;
  read_session_id : forall t sid p, table_ok t -> read_session t sid = Ok p -> pp_session_id p = sid;
  cas_table_ok : forall t c r t', table_ok t -> compare_and_set t c = (r, t') -> table_ok t';
  cas_Ok_read : forall t c r t', table_ok t -> compare_and_set t c = (Ok r, t') ->
    committed_as c r /\ read_session t' (pp_session_id c) = Ok r;
  cas_Ok_other : forall t c r t' sid, table_ok t -> compare_and_set t c = (Ok r, t') -> sid <> pp_session_id c ->
    read_session t' sid = read_session t sid;
  cas_Err_read : forall t c e t' sid, table_ok t -> compare_and_set t c = (Err e, t') ->
    read_session t' sid = read_session t sid \/
    (sid = pp_session_id c /\ exists r, committed_as c r /\ read_session t' sid = Ok r)
}.

(** In memory: every record is kept under its session. *)
Definition mem_table_ok (t : InMemoryProviderProcessTable) : Prop :=
  forall sid p, mt_snapshots t !! sid = Some p -> pp_session_id p = sid.

Lemma mem_candidate_Ok current c r :
  mem_candidate current c = Ok r ->
  exists version, r = c <| pp_record_version := version |> /\ version_checked_next (process_version current) = Ok version /\
    pp_record_version c = process_version current /\ validate_record true r = Ok tt /\
    forall p, current = Some p -> same_identity p c = true.
Proof.
  unfold mem_candidate. intros H. apply then_Ok in H as [_ H]. apply then_Ok in H as [[[] Hid] H].
  apply reject_Ok in H as [Hv H]. destruct (version_checked_next _) as [next|] eqn:En; [|done].
  apply then_Ok in H as [[[] Hval] H]. injection H as <-. exists next. reflect_bools. split_and!; try done.
  intros p ->. unfold ensure_immutable_identity in Hid. by destruct (same_identity p c).
Qed.

Lemma mem_cas_Ok t c r t' :
  mem_table_cas t c = (Ok r, t') ->
  mem_candidate (mt_snapshots t !! pp_session_id c) c = Ok r /\
  t' = MkMemTable (<[pp_session_id c := r]> (mt_snapshots t)) /\ pp_session_id r = pp_session_id c.
Proof.
  unfold mem_table_cas. destruct (mem_candidate _ c) as [p|] eqn:E; [|done]. intros [= <- <-].
  apply mem_candidate_Ok in E as (v & -> & _). by destruct c.
Qed.

#[export] Program Instance mem_table_laws : ProviderTableLaws InMemoryProviderProcessTable := {|
  table_ok := mem_table_ok
|}.
Next Obligation.
  intros t sid p Ht H. cbn in H. unfold mem_table_read in H.
  destruct (mt_snapshots t !! sid) eqn:E; [|done]. injection H as <-. by apply Ht.
Qed.
Next Obligation.
  intros t c [r|e] t' Ht H; cbn in H.
  - apply mem_cas_Ok in H as (_ & -> & Hs). intros sid p. cbn.
    destruct (decide (sid = pp_session_id c)) as [->|Hne]; [rewrite lookup_insert_eq; by intros [= <-]|].
    rewrite lookup_insert_ne by done. apply Ht.
  - unfold mem_table_cas in H. destruct (mem_candidate _ c); [done|]. by injection H as _ <-.
Qed.
Next Obligation.
  intros t c r t' Ht H. cbn in H. apply mem_cas_Ok in H as (Hc & -> & _).
  apply mem_candidate_Ok in Hc as (v & -> & _). split.
  - exists v, (pp_owner_generation c). by destruct c.
  - cbn. unfold mem_table_read. cbn. by rewrite lookup_insert_eq.
Qed.
Next Obligation.
  intros t c r t' sid Ht H Hne. cbn in H. apply mem_cas_Ok in H as (_ & -> & _). cbn. unfold mem_table_read. cbn.
  by rewrite lookup_insert_ne.
Qed.
Next Obligation.
  intros t c e t' sid Ht H. cbn in H. unfold mem_table_cas in H. destruct (mem_candidate _ c); [done|].
  injection H as _ <-. by left.
Qed.

(** ** What the transitions keep *)

Lemma process_validated_Ok p q : validated p = Ok q -> q = p /\ validate_record false p = Ok tt.
Proof. unfold validated. intros H. apply then_Ok in H as [[[] ?] [= <-]]. done. Qed.

(** Everything a transition of a session never changes. *)
Definition same_session (p q : ProviderProcessSnapshot) : Prop :=
  pp_session_id q = pp_session_id p /\ pp_adapter_id q = pp_adapter_id p /\ pp_request_id q = pp_request_id p /\
  pp_provider_process_id q = pp_provider_process_id p /\
  pp_restart_max_attempts q = pp_restart_max_attempts p /\ pp_restart_policy q = pp_restart_policy p.

Lemma same_session_trans p q r : same_session p q -> same_session q r -> same_session p r.
Proof. unfold same_session. intros. intuition congruence. Qed.

Lemma prepare_for_restart_Ok p now q :
  prepare_for_restart p now = Ok q ->
  same_session p q /\ pp_restart_attempts q = pp_restart_attempts p /\
  pp_active p = false /\ pp_active q = false /\ pp_restart_state p = "pending" /\ pp_restart_state q = "starting" /\
  exists due, pp_restart_due_at_ms p = Some due /\ (due <= now)%N.
Proof.
  unfold prepare_for_restart. intros H. apply reject_Ok in H as [Hg H].
  destruct (pp_restart_due_at_ms p) as [due|] eqn:Ed; [|done]. cbn [ok_or] in H. apply reject_Ok in H as [Hdue H].
  apply process_validated_Ok in H as [-> _]. reflect_bools. destruct p. cbn in *. subst.
  split_and!; try done. exists due. split; [done|]. done.
Qed.

Lemma mark_restart_pending_Ok p attempt due reason now q :
  mark_restart_pending p attempt due reason now = Ok q ->
  same_session p q /\ pp_restart_attempts q = attempt /\ (pp_restart_attempts p < attempt <= pp_restart_max_attempts p)%N /\
  pp_active q = false /\ pp_restart_state q = "pending".
Proof.
  unfold mark_restart_pending. intros H. apply reject_Ok in H as [Hg H]. apply process_validated_Ok in H as [-> _].
  reflect_bools. destruct p. cbn in *. split_and!; done.
Qed.

Lemma restart_terminal_Ok state health e1 e2 p reason now q :
  restart_terminal state health e1 e2 p reason now = Ok q ->
  same_session p q /\ pp_restart_attempts q = pp_restart_attempts p /\ pp_active q = false /\ pp_restart_state q = state.
Proof. unfold restart_terminal. intros H. apply process_validated_Ok in H as [-> _]. by destruct p. Qed.

Lemma release_process_Ok p health error now q :
  release_process p health error now = Ok q ->
  same_session p q /\ pp_restart_attempts q = pp_restart_attempts p /\ pp_active q = false /\
  pp_health q = health /\ pp_last_error q = error /\ pp_restart_state q = pp_restart_state p.
Proof. unfold release_process. intros H. apply reject_Ok in H as [_ H]. injection H as <-. by destruct p. Qed.

Lemma mark_stable_success_Ok p q :
  mark_stable_success p = Ok q ->
  same_session p q /\ pp_restart_attempts q = 0%N /\ pp_active q = pp_active p /\
  pp_restart_state q = (if (pp_restart_max_attempts p =? 0)%N then "disabled" else "stable").
Proof. unfold mark_stable_success. intros H. apply process_validated_Ok in H as [-> _]. by destruct p. Qed.

Lemma set_process_identity_Ok p pid token group job attempt q :
  set_process_identity p pid token group job attempt = Ok q ->
  same_session p q /\ pp_restart_attempts q = pp_restart_attempts p /\ pp_active q = pp_active p /\
  pp_restart_state q = pp_restart_state p /\ pp_health q = pp_health p.
Proof. unfold set_process_identity. intros H. apply then_Ok in H as [_ H]. injection H as <-. by destruct p. Qed.

Lemma mark_restart_running_Ok p now q :
  mark_restart_running p now = Ok q ->
  same_session p q /\ pp_restart_attempts q = pp_restart_attempts p /\ pp_restart_state p = "starting" /\
  pp_active q = true /\ pp_restart_state q = "running".
Proof.
  unfold mark_restart_running. intros H. apply reject_Ok in H as [Hg H]. apply process_validated_Ok in H as [-> _].
  reflect_bools. by destruct p.
Qed.
