(* ===== verification/ProviderAdmission.v ===== *)
(** * Provider admission (crates/eva-storage/src/provider_admission.rs)

    The reservations of an adapter: leases that share its concurrency limit
    between processes, kept in one file per adapter and changed under a lock
    file.  Proved: the limit holds whatever the processes do, whatever their
    clocks show, and whatever I/O fails; a lease stays until its owner
    releases it or its time is over. *)

From Stdlib Require Import Ascii.
From stdpp Require Import base numbers strings gmap list.
From S2P Require Import Prelude RustStr Error Ids Durable.

Definition DEFAULT_RESERVATION_TTL_MS : N := 120000.

Record ProviderAdmissionReservation := MkReservation {
  rs_reservation_id : string;
  rs_session_id : string;
  rs_expires_at_ms : N
}.
#[export] Instance ProviderAdmissionReservation_eq_dec : EqDecision ProviderAdmissionReservation.
Proof. solve_decision. Defined.

Record ProviderAdmissionSnapshot := MkAdmission {
  ad_adapter_id : AdapterId;
  ad_max_concurrency : N;
  ad_reservations : list ProviderAdmissionReservation
}.
#[export] Instance ProviderAdmissionSnapshot_eta : Eta ProviderAdmissionSnapshot := fun s =>
  MkAdmission (ad_adapter_id s) (ad_max_concurrency s) (ad_reservations s).

(** ** The file format *)

Definition reservation_line (r : ProviderAdmissionReservation) : string :=
  "reservation=" +:+ rs_reservation_id r +:+ str tab +:+ rs_session_id r +:+ str tab
    +:+ n_to_string (rs_expires_at_ms r) +:+ str nl.

Definition admission_encode (s : ProviderAdmissionSnapshot) : string :=
  "version=1" +:+ str nl +:+ "max=" +:+ n_to_string (ad_max_concurrency s) +:+ str nl
    +:+ str_concat (reservation_line <$> ad_reservations s).

Definition decode_reservation (value : string) : Res ProviderAdmissionReservation :=
  match split tab value with
  | [reservation_id; session_id; expires] =>
      let? expires_at_ms := ok_or (parse_unsigned u128_max expires) (invalid_argument "invalid admission expiry") in
      Ok (MkReservation reservation_id session_id expires_at_ms)
  | _ => Err (invalid_argument "invalid admission reservation")
  end.

Fixpoint decode_lines (max : N) (reservations : list ProviderAdmissionReservation) (ls : list string) :
    Res (N * list ProviderAdmissionReservation) :=
  match ls with
  | [] => Ok (max, reservations)
  | line :: ls =>
      match strip_prefix "max=" line with
      | Some v =>
          let? max := ok_or (parse_unsigned usize_max v) (invalid_argument "invalid admission max") in
          decode_lines max reservations ls
      | None =>
          match strip_prefix "reservation=" line with
          | Some v => let? r := decode_reservation v in decode_lines max (reservations ++ [r]) ls
          | None => decode_lines max reservations ls
          end
      end
  end.

Definition admission_decode (adapter : AdapterId) (text : string) : Res ProviderAdmissionSnapshot :=
  let? mr := decode_lines 0 [] (lines text) in Ok (MkAdmission adapter mr.1 mr.2).

(** ** The lock file *)

(** One attempt to create the lock file. *)
Inductive LockTry := TryCreated | TryExists | TryFailed (error : string).

(** The loop of [lock] over its attempts. *)
Fixpoint lock_loop (fuel : nat) (tries : nat -> LockTry) (i : nat) : Res unit :=
  match fuel with
  | O => Err (timeout_error "provider admission lock acquisition timed out")
  | S fuel =>
      match tries i with
      | TryCreated => Ok tt
      | TryExists => lock_loop fuel tries (S i)
      | TryFailed e => Err (internal "acquire provider admission lock" ⊕ ("error", e))
      end
  end.
Definition admission_lock (tries : nat -> LockTry) : Res unit := lock_loop 200 tries 0.

(** ** The operations *)

(** How one [write] ends: the file renamed into place, or the step that
    failed. *)
Inductive PublishOutcome :=
| Published
| TempNotCreated (error : string)
| TempNotWritten (partial error : string)
| NotRenamed (error : string).

(** What the environment decides about one operation. *)
Record AdmissionIo := MkAdmissionIo { io_tries : nat -> LockTry; io_publish : PublishOutcome }.
Definition admission_io_fine : AdmissionIo := MkAdmissionIo (fun _ => TryCreated) Published.

(** [state.reservations.retain(|r| r.expires_at_ms > now_ms)] *)
Definition retain_live (now : N) (s : ProviderAdmissionSnapshot) : ProviderAdmissionSnapshot :=
  s <| ad_reservations := List.filter (fun r => now <? rs_expires_at_ms r)%N (ad_reservations s) |>.

Definition owned_by (reservation_id session_id : string) (r : ProviderAdmissionReservation) : bool :=
  String.eqb (rs_reservation_id r) reservation_id && String.eqb (rs_session_id r) session_id.

(** [position] and [remove]: the first match goes. *)
Fixpoint remove_first {A} (p : A -> bool) (l : list A) : option (list A) :=
  match l with
  | [] => None
  | x :: l => if p x then Some l else (cons x) <$> remove_first p l
  end.

(** [iter_mut().find(..)]: the first match, and the list with it replaced. *)
Fixpoint update_first {A} (p : A -> bool) (f : A -> A) (l : list A) : option (A * list A) :=
  match l with
  | [] => None
  | x :: l => if p x then Some (x, f x :: l)
              else (fun y => (y.1, x :: y.2)) <$> update_first p f l
  end.

Definition not_owned : EvaError := conflict "provider admission reservation is not owned".

Section Admission.
(** [Sha256::digest], as bytes. *)
Variable sha256 : string -> string.
Variable root : string.

Definition admission_path (adapter : AdapterId) : string :=
  path_join root (hex_encode (sha256 (id_str adapter)) +:+ ".admission").
Definition admission_temp_path (adapter : AdapterId) : string :=
  path_join root (hex_encode (sha256 (id_str adapter)) +:+ ".admission.tmp").

Definition admission_read (files : Files) (adapter : AdapterId) : Res ProviderAdmissionSnapshot :=
  match read_to_string files (admission_path adapter) with
  | Err ReadNotFound => Ok (MkAdmission adapter 0 [])
  | Err e => Err (internal "read provider admission" ⊕ ("error", read_failure_text e))
  | Ok text => admission_decode adapter text
  end.

Definition admission_write (files : Files) (adapter : AdapterId) (s : ProviderAdmissionSnapshot)
    (o : PublishOutcome) : Res unit * Files :=
  match o with
  | Published => (Ok tt, <[admission_path adapter := admission_encode s]> (delete (admission_temp_path adapter) files))
  | TempNotCreated e => (Err (internal "write provider admission" ⊕ ("error", e)), files)
  | TempNotWritten partial e =>
      (Err (internal "write provider admission" ⊕ ("error", e)), <[admission_temp_path adapter := partial]> files)
  | NotRenamed e =>
      (Err (internal "publish provider admission" ⊕ ("error", e)),
       <[admission_temp_path adapter := admission_encode s]> files)
  end.

(** An operation under the lock: what it answers and the state it writes, if
    it writes one. *)
Definition locked {A} (files : Files) (adapter : AdapterId) (io : AdmissionIo)
    (operation : ProviderAdmissionSnapshot -> Res (A * option ProviderAdmissionSnapshot)) : Res A * Files :=
  match (admission_lock (io_tries io) >>?
         (let? s := admission_read files adapter in operation s)) with
  | Err e => (Err e, files)
  | Ok (a, None) => (Ok a, files)
  | Ok (a, Some s) =>
      match admission_write files adapter s (io_publish io) with
      | (Ok _, files) => (Ok a, files)
      | (Err e, files) => (Err e, files)
      end
  end.

Definition reserve_in (max_concurrency : N) (session_id : string) (now ttl : N) (s : ProviderAdmissionSnapshot) :
    Res (ProviderAdmissionReservation * option ProviderAdmissionSnapshot) :=
  let s := retain_live now (s <| ad_max_concurrency := max_concurrency |>) in
  match List.find (fun r => String.eqb (rs_session_id r) session_id) (ad_reservations s) with
  | Some existing => Ok (existing, None)
  | None =>
      reject (max_concurrency <=? len (ad_reservations s))%N with
        with_retryable (unavailable "provider concurrency limit is exhausted") true
          ⊕ ("provider_code", "provider_concurrency_limited") else
      let reservation := MkReservation (session_id +:+ "-" +:+ n_to_string now) session_id
                           (saturating_add u128_max now (N.max ttl 1)) in
      Ok (reservation, Some (s <| ad_reservations := ad_reservations s ++ [reservation] |>))
  end.

Definition reserve (files : Files) (adapter : AdapterId) (max_concurrency : N) (session_id : string)
    (now ttl : N) (io : AdmissionIo) : Res ProviderAdmissionReservation * Files :=
  if (max_concurrency =? 0)%N || str_is_empty session_id then
    (Err (invalid_argument "provider admission reservation is invalid"), files)
  else locked files adapter io (reserve_in max_concurrency session_id now ttl).

(** [release]: every reservation of the session. *)
Definition release_session (files : Files) (adapter : AdapterId) (session_id : string) (io : AdmissionIo) :
    Res unit * Files :=
  locked files adapter io (fun s =>
    Ok (tt, Some (s <| ad_reservations :=
      List.filter (fun r => negb (String.eqb (rs_session_id r) session_id)) (ad_reservations s) |>))).

Definition release_owned (files : Files) (adapter : AdapterId) (reservation_id session_id : string)
    (io : AdmissionIo) : Res unit * Files :=
  locked files adapter io (fun s =>
    let? rest := ok_or (remove_first (owned_by reservation_id session_id) (ad_reservations s)) not_owned in
    Ok (tt, Some (s <| ad_reservations := rest |>))).

Definition renew (files : Files) (adapter : AdapterId) (reservation_id session_id : string)
    (now ttl : N) (io : AdmissionIo) : Res ProviderAdmissionReservation * Files :=
  locked files adapter io (fun s =>
    let expires := saturating_add u128_max now (N.max ttl 1) in
    let extend r := MkReservation (rs_reservation_id r) (rs_session_id r) expires in
    let? found := ok_or (update_first (owned_by reservation_id session_id) extend (ad_reservations s)) not_owned in
    reject (rs_expires_at_ms found.1 <=? now)%N with
      conflict "provider admission reservation has expired" else
    Ok (extend found.1, Some (s <| ad_reservations := found.2 |>))).

Definition admission_snapshot (files : Files) (adapter : AdapterId) (now : N) (io : AdmissionIo) :
    Res ProviderAdmissionSnapshot * Files :=
  locked files adapter io (fun s => let s := retain_live now s in Ok (s, Some s)).
End Admission.

(** ** Processes sharing the table *)

(** A call of some process, with its reading of the clock. *)
Inductive AdmissionCall :=
| CallReserve (adapter : AdapterId) (max_concurrency : N) (session_id : string) (now ttl : N)
| CallRelease (adapter : AdapterId) (session_id : string)
| CallReleaseOwned (adapter : AdapterId) (reservation_id session_id : string)
| CallRenew (adapter : AdapterId) (reservation_id session_id : string) (now ttl : N)
| CallSnapshot (adapter : AdapterId) (now : N).

(** The files, the latest time any call has read, and the leases the calls
    have been granted and have not given back, by adapter and session.  The
    clocks of the calls need not agree: a process reads its clock before it
    takes the lock, so that a later call may bring an earlier time. *)
Record LeaseWorld := MkLeaseWorld {
  lw_files : Files;
  lw_clock : N;
  lw_held : gmap (AdapterId * string) ProviderAdmissionReservation
}.

Definition call_adapter (call : AdmissionCall) : AdapterId :=
  match call with
  | CallReserve adapter _ _ _ _ | CallRelease adapter _ | CallReleaseOwned adapter _ _
  | CallRenew adapter _ _ _ _ | CallSnapshot adapter _ => adapter
  end.

Definition call_time (call : AdmissionCall) (clock : N) : N :=
  match call with
  | CallReserve _ _ _ now _ | CallRenew _ _ _ now _ | CallSnapshot _ now => N.max clock now
  | CallRelease _ _ | CallReleaseOwned _ _ _ => clock
  end.

Definition lease_call (sha256 : string -> string) (root : string) (w : LeaseWorld) (call : AdmissionCall)
    (io : AdmissionIo) : LeaseWorld :=
  let clock := call_time call (lw_clock w) in
  let held := lw_held w in
  match call with
  | CallReserve adapter max session_id now ttl =>
      let '(r, files) := reserve sha256 root (lw_files w) adapter max session_id now ttl io in
      MkLeaseWorld files clock (match r with Ok lease => <[(adapter, session_id) := lease]> held | Err _ => held end)
  | CallRelease adapter session_id =>
      let '(r, files) := release_session sha256 root (lw_files w) adapter session_id io in
      MkLeaseWorld files clock (match r with Ok _ => delete (adapter, session_id) held | Err _ => held end)
  | CallReleaseOwned adapter reservation_id session_id =>
      let '(r, files) := release_owned sha256 root (lw_files w) adapter reservation_id session_id io in
      MkLeaseWorld files clock
        (match r, held !! (adapter, session_id) with
         | Ok _, Some lease => if String.eqb (rs_reservation_id lease) reservation_id
                               then delete (adapter, session_id) held else held
         | _, _ => held end)
  | CallRenew adapter reservation_id session_id now ttl =>
      let '(r, files) := renew sha256 root (lw_files w) adapter reservation_id session_id now ttl io in
      MkLeaseWorld files clock (match r with Ok lease => <[(adapter, session_id) := lease]> held | Err _ => held end)
  | CallSnapshot adapter now =>
      let '(_, files) := admission_snapshot sha256 root (lw_files w) adapter now io in
      MkLeaseWorld files clock held
  end.

Fixpoint lease_run (sha256 : string -> string) (root : string) (w : LeaseWorld)
    (calls : list (AdmissionCall * AdmissionIo)) : LeaseWorld :=
  match calls with
  | [] => w
  | (call, io) :: calls => lease_run sha256 root (lease_call sha256 root w call io) calls
  end.

(** The leases of an adapter that are held, and that no call has yet read a
    time at which they are over. *)
Definition live_leases (w : LeaseWorld) (adapter : AdapterId) : list ((AdapterId * string) * ProviderAdmissionReservation) :=
  List.filter (fun e => bool_decide (e.1.1 = adapter) && (lw_clock w <? rs_expires_at_ms e.2)%N)
    (map_to_list (lw_held w)).

(** ** The format reads back *)

(** A field the format can carry. *)
Definition token_ok (s : string) : bool :=
  line_clean s && negb (contains_char tab s) && utf8_valid s.

Definition reservation_ok (r : ProviderAdmissionReservation) : Prop :=
  token_ok (rs_reservation_id r) = true /\ token_ok (rs_session_id r) = true /\
  (rs_expires_at_ms r <= u128_max)%N.

Lemma decode_reservation_text r :
  reservation_ok r ->
  decode_reservation (rs_reservation_id r +:+ str tab +:+ rs_session_id r +:+ str tab
                        +:+ n_to_string (rs_expires_at_ms r)) = Ok r.
Proof.
  intros (Hr & Hs & He). unfold token_ok in *. reflect_bools. unfold decode_reservation.
  unfold str. rewrite (append_cons tab ""), append_nil_l, split_append by done.
  rewrite (append_cons tab ""), append_nil_l, split_append by done.
  rewrite split_no_sep.
  - rewrite parse_unsigned_to_string by exact He. by destruct r.
  - apply contains_char_false. eapply bytes_all_impl; [|apply n_to_string_digits].
    apply ascii_impl. vm_compute. reflexivity.
Qed.

Lemma reservation_line_shape r rest :
  reservation_ok r ->
  lines (reservation_line r +:+ rest)
  = ("reservation=" +:+ (rs_reservation_id r +:+ str tab +:+ rs_session_id r +:+ str tab
                           +:+ n_to_string (rs_expires_at_ms r))) :: lines rest.
Proof.
  intros (Hr & Hs & _). unfold token_ok in *. reflect_bools. unfold reservation_line.
  rewrite <- !append_assoc. unfold str at 3. rewrite (append_cons nl ""), append_nil_l.
  rewrite !append_assoc. rewrite lines_cons_line; [reflexivity|].
  rewrite !line_clean_append. rewrite n_to_string_clean.
  repeat match goal with H : line_clean _ = true |- _ => rewrite H; clear H end. reflexivity.
Qed.

Lemma decode_reservation_lines rs max acc :
  Forall reservation_ok rs ->
  decode_lines max acc (lines (str_concat (reservation_line <$> rs))) = Ok (max, acc ++ rs).
Proof.
  intros H. revert acc. induction H as [|r rs Hr _ IH]; intros acc; [by rewrite app_nil_r|].
  cbn [fmap list_fmap str_concat foldr]. rewrite reservation_line_shape by done.
  cbn [decode_lines]. rewrite strip_prefix_append.
  change (strip_prefix "max=" ("reservation=" +:+ _)) with (@None string).
  rewrite decode_reservation_text by done. fold (str_concat (reservation_line <$> rs)).
  rewrite IH. by rewrite <- app_assoc.
Qed.

Definition admission_storable (s : ProviderAdmissionSnapshot) : Prop :=
  (ad_max_concurrency s <= usize_max)%N /\ Forall reservation_ok (ad_reservations s).

Lemma admission_roundtrip s :
  admission_storable s -> admission_decode (ad_adapter_id s) (admission_encode s) = Ok s.
Proof.
  intros [Hm Hr]. unfold admission_decode, admission_encode, str.
  rewrite (append_cons nl ""), append_nil_l, lines_cons_line by reflexivity.
  rewrite (append_cons nl ""), append_nil_l, append_assoc.
  rewrite lines_cons_line by (rewrite line_clean_append, n_to_string_clean; reflexivity).
  cbn [decode_lines]. change (strip_prefix "max=" "version=1") with (@None string).
  change (strip_prefix "reservation=" "version=1") with (@None string). cbv iota.
  rewrite strip_prefix_append, parse_unsigned_to_string by exact Hm. cbn [ok_or].
  rewrite decode_reservation_lines by done. by destruct s.
Qed.

Lemma reservation_line_utf8 r : reservation_ok r -> utf8_valid (reservation_line r) = true.
Proof.
  intros (Hr & Hs & _). unfold token_ok in *. reflect_bools. unfold reservation_line.
  repeat (apply utf8_valid_append; [first [assumption|reflexivity|apply n_to_string_utf8]|]).
  reflexivity.
Qed.

Lemma admission_encode_utf8 s : admission_storable s -> utf8_valid (admission_encode s) = true.
Proof.
  intros [_ Hr]. unfold admission_encode.
  repeat (apply utf8_valid_append; [first [reflexivity|apply n_to_string_utf8]|]).
  induction Hr as [|r rs Hr _ IH]; [reflexivity|]. cbn [fmap list_fmap str_concat foldr].
  apply utf8_valid_append; [by apply reservation_line_utf8|exact IH].
Qed.

(** ** One operation on one adapter's reservations *)

Section Capacity.
Context (sha256 : string -> string) (root : string).
(** The adapters the table is used with: SHA-256 keeps them apart. *)
Context (in_use : AdapterId -> Prop).
Hypothesis sha256_apart : forall a b, in_use a -> in_use b -> sha256 (id_str a) = sha256 (id_str b) -> a = b.

Abbreviation path := (admission_path sha256 root).
Abbreviation temp := (admission_temp_path sha256 root).
Abbreviation load files adapter := (admission_read sha256 root files adapter).

Lemma admission_path_inj a b : in_use a -> in_use b -> path a = path b -> a = b.
Proof.
  unfold admission_path, path_join. intros Ha Hb H. do 2 apply (inj (String.append _)) in H.
  apply append_suffix_inj, hex_encode_inj in H. by apply sha256_apart.
Qed.

Lemma admission_temp_not_path a b : temp a <> path b.
Proof.
  unfold admission_path, admission_temp_path, path_join. intros H. do 2 apply (inj (String.append _)) in H.
  apply (f_equal (split ".")) in H.
  change ".admission.tmp" with (String "." ("admission" +:+ String "." "tmp")) in H.
  change ".admission" with (String "." "admission") in H.
  rewrite !split_append in H by first [apply hex_no_dot|reflexivity]. discriminate H.
Qed.

(** The file of an adapter is one the table wrote: at most [M] leases, of
    different sessions. *)
Definition admission_good (M : N) (s : ProviderAdmissionSnapshot) : Prop :=
  admission_storable s /\ (len (ad_reservations s) <= M)%N /\ NoDup (rs_session_id <$> ad_reservations s).

Definition admissions_ok (M : AdapterId -> N) (files : Files) : Prop :=
  forall adapter, in_use adapter ->
    exists s, load files adapter = Ok s /\ ad_adapter_id s = adapter /\ admission_good (M adapter) s.

(** The reservations on disk. *)
Definition stored_leases (files : Files) (adapter : AdapterId) : list ProviderAdmissionReservation :=
  match load files adapter with Ok s => ad_reservations s | Err _ => [] end.

Lemma load_insert files adapter s adapter' :
  in_use adapter -> in_use adapter' -> admission_storable s -> ad_adapter_id s = adapter ->
  load (<[path adapter := admission_encode s]> (delete (temp adapter) files)) adapter'
  = if decide (adapter' = adapter) then Ok s else load files adapter'.
Proof.
  intros Hu Hu' Hs Ha. unfold admission_read, read_to_string. case_decide as E.
  - subst adapter'. rewrite lookup_insert_eq, admission_encode_utf8 by done. subst adapter.
    by rewrite admission_roundtrip.
  - rewrite lookup_insert_ne by (intros H; by apply admission_path_inj in H).
    rewrite lookup_delete_ne by apply admission_temp_not_path. done.
Qed.

Lemma load_temp files adapter text adapter' :
  load (<[temp adapter := text]> files) adapter' = load files adapter'.
Proof.
  unfold admission_read, read_to_string. by rewrite lookup_insert_ne by apply admission_temp_not_path.
Qed.

(** What [locked] can do: nothing and an error, an answer without a write,
    or an answer whose state is on disk. *)
Lemma locked_cases {A} M files adapter io (op : ProviderAdmissionSnapshot -> Res (A * option ProviderAdmissionSnapshot)) r files' :
  in_use adapter -> admissions_ok M files ->
  (forall s a s', admission_good (M adapter) s -> ad_adapter_id s = adapter -> op s = Ok (a, Some s') ->
     admission_good (M adapter) s' /\ ad_adapter_id s' = adapter) ->
  locked sha256 root files adapter io op = (r, files') ->
  admissions_ok M files' /\
  (forall adapter', in_use adapter' -> adapter' <> adapter -> load files' adapter' = load files adapter') /\
  ((exists e, r = Err e /\ load files' adapter = load files adapter) \/
   exists s a, load files adapter = Ok s /\ r = Ok a /\
     ((op s = Ok (a, None) /\ load files' adapter = load files adapter) \/
      exists s', op s = Ok (a, Some s') /\ load files' adapter = Ok s')).
Proof.
  intros Hu Hok Hop. unfold locked.
  destruct (admission_lock (io_tries io)) as [|e]; [|intros [= <- <-]; split_and!; eauto].
  destruct (Hok adapter Hu) as (s & Hl & Ha & Hg). rewrite Hl.
  destruct (op s) as [[a [s'|]]|e] eqn:Eo; [|intros [= <- <-]; split_and!; eauto 10|intros [= <- <-]; split_and!; eauto].
  destruct (Hop s a s' Hg Ha Eo) as [Hg' Ha']. pose proof Hg' as [Hst _].
  assert (Htemp : forall text, admissions_ok M (<[temp adapter := text]> files)).
  { intros text b Hb. destruct (Hok b Hb) as (t & Ht & ?). exists t. by rewrite load_temp. }
  unfold admission_write. destruct (io_publish io); intros [= <- <-].
  2-4: split_and!; [first [exact Hok|apply Htemp]|intros; by rewrite ?load_temp|left; eexists; by rewrite ?load_temp].
  assert (Hself : load (<[path adapter := admission_encode s']> (delete (temp adapter) files)) adapter = Ok s')
    by (rewrite load_insert by done; by rewrite decide_True).
  split_and!.
  - intros b Hb. destruct (decide (b = adapter)) as [->|Hne]; [by exists s'|].
    rewrite load_insert, decide_False by done. by apply Hok.
  - intros b Hb Hne. by rewrite load_insert, decide_False.
  - right. exists s, a. rewrite Hself. split_and!; [done..|]. right. by exists s'.
Qed.

(** ** The capacity under many processes *)

(** The limit every reservation of an adapter asks for stays below [M],
    session ids can be written, and the adapter is one of those in use. *)
Definition call_ok (M : AdapterId -> N) (call : AdmissionCall) : Prop :=
  in_use (call_adapter call) /\
  match call with
  | CallReserve adapter max session_id _ _ =>
      (max <= M adapter)%N /\ (max <= usize_max)%N /\ token_ok session_id = true
  | _ => True
  end.

Definition calls_ok (M : AdapterId -> N) (calls : list (AdmissionCall * AdmissionIo)) : Prop :=
  Forall (fun c => call_ok M c.1) calls.

Lemma call_time_later call clock : (clock <= call_time call clock)%N.
Proof. destruct call; cbn; lia. Qed.

(** Every live lease is on disk. *)
Definition lease_world_ok (M : AdapterId -> N) (w : LeaseWorld) : Prop :=
  admissions_ok M (lw_files w) /\
  forall adapter session_id r, in_use adapter -> lw_held w !! (adapter, session_id) = Some r ->
    rs_session_id r = session_id /\
    ((lw_clock w < rs_expires_at_ms r)%N -> r ∈ stored_leases (lw_files w) adapter).

Lemma stored_Ok files adapter s : load files adapter = Ok s -> stored_leases files adapter = ad_reservations s.
Proof. intros H. unfold stored_leases. by rewrite H. Qed.

Lemma filter_elem {A} (p : A -> bool) l x : x ∈ List.filter p l <-> x ∈ l /\ p x = true.
Proof. rewrite !list_elem_of_In. apply List.filter_In. Qed.

Lemma remove_first_sublist {A} (p : A -> bool) l l' : remove_first p l = Some l' -> l' `sublist_of` l.
Proof.
  revert l'. induction l as [|x l IH]; intros l'; [done|]. cbn. destruct (p x).
  - intros [= <-]. by constructor.
  - destruct (remove_first p l); [|done]. intros [= <-]. apply sublist_skip. by apply IH.
Qed.

Lemma remove_first_other {A} (p : A -> bool) l l' x :
  remove_first p l = Some l' -> p x = false -> x ∈ l -> x ∈ l'.
Proof.
  revert l'. induction l as [|y l IH]; intros l'; [done|]. cbn. destruct (p y) eqn:E.
  - intros [= <-] Hx Hin. apply elem_of_cons in Hin as [->|]; [congruence|done].
  - destruct (remove_first p l); [|done]. intros [= <-] Hx Hin. apply elem_of_cons in Hin as [->|]; [left|right; by eapply IH].
Qed.

Lemma update_first_spec {A} (p : A -> bool) f l x l' :
  update_first p f l = Some (x, l') ->
  exists l1 l2, l = l1 ++ x :: l2 /\ l' = l1 ++ f x :: l2 /\ p x = true.
Proof.
  revert x l'. induction l as [|y l IH]; intros x l'; [done|]. cbn. destruct (p y) eqn:E.
  - intros [= <- <-]. by exists [], l.
  - destruct (update_first p f l) as [[z l'']|] eqn:Eu; [|done]. intros [= <- <-].
    destruct (IH _ _ eq_refl) as (l1 & l2 & -> & -> & ?). by exists (y :: l1), l2.
Qed.

Lemma sublist_good M s rs :
  admission_good M s -> rs `sublist_of` ad_reservations s -> admission_good M (s <| ad_reservations := rs |>).
Proof.
  intros ((Hm & Hr) & Hl & Hd) Hs. split_and!; [split|..]; cbn.
  - exact Hm.
  - rewrite Forall_forall in Hr |- *. intros x Hx. by eapply Hr, elem_of_sublist.
  - unfold len in *. apply sublist_length in Hs. lia.
  - eapply sublist_NoDup; [exact Hd|by apply fmap_sublist].
Qed.

Lemma filter_sublist {A} (p : A -> bool) (l : list A) : List.filter p l `sublist_of` l.
Proof. induction l as [|x l IH]; [constructor|]. cbn. destruct (p x); by constructor. Qed.

Lemma retain_live_good M now s : admission_good M s -> admission_good M (retain_live now s).
Proof. intros H. apply sublist_good; [exact H|apply filter_sublist]. Qed.

Lemma token_ok_reservation_id session_id now :
  token_ok session_id = true -> token_ok (session_id +:+ "-" +:+ n_to_string now) = true.
Proof.
  unfold token_ok. intros H. reflect_bools. rewrite !line_clean_append, !contains_char_append.
  rewrite !utf8_valid_append; [|try assumption; try reflexivity; try apply n_to_string_utf8..].
  assert (Ht : contains_char tab (n_to_string now) = false).
  { apply contains_char_false. eapply bytes_all_impl; [|apply n_to_string_digits].
    apply ascii_impl. vm_compute. reflexivity. }
  rewrite Ht, n_to_string_clean. repeat match goal with H : _ = _ |- _ => rewrite H; clear H end. reflexivity.
Qed.

Lemma reserve_in_good M max session_id now ttl s r s' :
  admission_good M s -> (max <= M)%N -> (max <= usize_max)%N -> token_ok session_id = true ->
  reserve_in max session_id now ttl s = Ok (r, Some s') ->
  admission_good M s' /\ ad_adapter_id s' = ad_adapter_id s /\
  rs_session_id r = session_id /\ ad_reservations s' = ad_reservations (retain_live now s) ++ [r].
Proof.
  intros Hg HM Hu Ht. unfold reserve_in. pose proof (retain_live_good M now s Hg) as ((_ & Hr) & Hl & Hd).
  cbn [ad_reservations retain_live set_field] in *.
  set (live := List.filter _ (ad_reservations s)) in *.
  destruct (List.find _ _) eqn:Ef; [done|].
  destruct (max <=? len live)%N eqn:El; [done|]. apply N.leb_gt in El. intros [= <- <-].
  split_and!; [split_and!; [split|..]|..]; cbn; try done.
  - apply Forall_snoc. split; [done|]. split_and!; cbn; [by apply token_ok_reservation_id|done|].
    unfold saturating_add. lia.
  - unfold len in *. rewrite length_app. cbn. lia.
  - rewrite fmap_app. apply NoDup_app. split_and!; [done| |apply NoDup_singleton].
    intros x (y & -> & Hy)%list_elem_of_fmap. cbn. rewrite list_elem_of_singleton. intros E.
    rewrite list_elem_of_In in Hy. eapply List.find_none in Ef; [|exact Hy].
    apply String.eqb_neq in Ef. done.
Qed.

Lemma reserve_in_existing max session_id now ttl s r :
  reserve_in max session_id now ttl s = Ok (r, None) -> rs_session_id r = session_id /\ r ∈ ad_reservations s.
Proof.
  unfold reserve_in. destruct (List.find _ _) eqn:Ef; [|by destruct (_ <=? _)%N].
  intros [= <-]. apply filter_Some_In in Ef as [Hin E]. apply String.eqb_eq in E. split; [done|].
  cbn in Hin. by apply filter_elem in Hin as [? _].
Qed.

(** An extension of one lease keeps the table good. *)
Lemma extend_good M s l1 x l2 expires :
  admission_good M s -> ad_reservations s = l1 ++ x :: l2 -> (expires <= u128_max)%N ->
  admission_good M (s <| ad_reservations :=
    l1 ++ MkReservation (rs_reservation_id x) (rs_session_id x) expires :: l2 |>).
Proof.
  intros ((Hm & Hr) & Hl & Hd) E He. rewrite E in Hr, Hl, Hd. split_and!; [split|..]; cbn.
  - done.
  - apply Forall_app in Hr as [H1 H2]. apply Forall_cons in H2 as [(Ha & Hb & _) H2].
    apply Forall_app. split; [done|]. by constructor.
  - unfold len in *. rewrite length_app in *. cbn in *. done.
  - rewrite fmap_app in *. done.
Qed.

(** What a call has to keep: every lease it leaves held is on disk, or was held
    before and stays there while its time lasts. *)
Lemma world_step M w files' clock' held' adapter :
  in_use adapter -> lease_world_ok M w -> (lw_clock w <= clock')%N -> admissions_ok M files' ->
  (forall a, in_use a -> a <> adapter -> load files' a = load (lw_files w) a) ->
  (forall a sid, a <> adapter -> held' !! (a, sid) = lw_held w !! (a, sid)) ->
  (forall sid r, held' !! (adapter, sid) = Some r ->
     (rs_session_id r = sid /\ r ∈ stored_leases files' adapter) \/
     (lw_held w !! (adapter, sid) = Some r /\
      (r ∈ stored_leases (lw_files w) adapter -> (clock' < rs_expires_at_ms r)%N -> r ∈ stored_leases files' adapter))) ->
  lease_world_ok M (MkLeaseWorld files' clock' held').
Proof.
  intros Hu [Hf Hh] Hc Hf' Ho Hoh Hs. split; [done|]. cbn. intros a sid r Ha Hr.
  destruct (decide (a = adapter)) as [->|Hne].
  - destruct (Hs _ _ Hr) as [[? ?]|[Hold Hk]]; [done|]. destruct (Hh _ _ _ Ha Hold) as [? Hin].
    split; [done|]. intros. apply Hk; [apply Hin; lia|done].
  - rewrite Hoh in Hr by done. destruct (Hh _ _ _ Ha Hr) as [? Hin]. split; [done|]. intros.
    unfold stored_leases. rewrite Ho by done. apply Hin. lia.
Qed.

(** The same, for a call whose leases on disk and held leases do not change. *)
Lemma world_same M w files' clock' adapter :
  in_use adapter -> lease_world_ok M w -> (lw_clock w <= clock')%N -> admissions_ok M files' ->
  (forall a, in_use a -> a <> adapter -> load files' a = load (lw_files w) a) ->
  load files' adapter = load (lw_files w) adapter ->
  lease_world_ok M (MkLeaseWorld files' clock' (lw_held w)).
Proof.
  intros Hu Hw Hc Hf Ho Hs. eapply world_step; eauto. intros sid r Hr. right. split; [done|].
  unfold stored_leases. by rewrite Hs.
Qed.

Lemma call_reserve_ok M w adapter max sid now ttl io :
  lease_world_ok M w -> call_ok M (CallReserve adapter max sid now ttl) ->
  lease_world_ok M (lease_call sha256 root w (CallReserve adapter max sid now ttl) io).
Proof.
  intros Hw (Huse & HM & Hu & Ht). cbn in Huse. pose proof Hw as [Hf _]. pose proof (N.le_max_l (lw_clock w) now) as Hc. cbn. unfold reserve.
  destruct (_ || _); [apply world_same with adapter; by (destruct Hw || eauto)|].
  destruct (locked _ _ _ _ _ _) as [r files'] eqn:El.
  eapply locked_cases in El as (Hf' & Ho & Hcase); [|exact Huse|exact Hf|].
  2:{ intros s a s' Hg Ha E. apply (reserve_in_good (M adapter)) in E as (? & E & _); [|done..]. by rewrite E. }
  destruct Hcase as [(e & -> & Hl)|(s & a & Hs & -> & [[Eo Hl]|(s' & Eo & Hl)])].
  - by apply world_same with adapter.
  - apply reserve_in_existing in Eo as [E Hin].
    eapply world_step; eauto; [by intros; rewrite lookup_insert_ne by congruence|].
    intros sid' r. destruct (decide (sid' = sid)) as [->|Hne].
    + rewrite lookup_insert_eq. intros [= <-]. left. split; [done|]. unfold stored_leases. by rewrite Hl, Hs.
    + rewrite lookup_insert_ne by congruence. intros Hr. right. split; [done|]. unfold stored_leases. by rewrite Hl.
  - destruct (Hf adapter Huse) as (s0 & Hs0 & _ & Hg). rewrite Hs in Hs0. injection Hs0 as <-.
    apply (reserve_in_good (M adapter)) in Eo as (_ & _ & E & Hres); [|done..].
    eapply world_step; eauto; [by intros; rewrite lookup_insert_ne by congruence|].
    intros sid' r. rewrite !(stored_Ok _ _ _ Hl), (stored_Ok _ _ _ Hs), Hres.
    destruct (decide (sid' = sid)) as [->|Hne].
    + rewrite lookup_insert_eq. intros [= <-]. left. split; [done|]. apply elem_of_app. right. by left.
    + rewrite lookup_insert_ne by congruence. intros Hr. right. split; [done|]. intros Hin Hlt.
      apply elem_of_app. left. apply filter_elem. split; [done|]. apply N.ltb_lt. lia.
Qed.

(** The calls that give leases back or drop those whose time is over. *)
Lemma call_shrink_ok {A} M w adapter io clock' held' keep
    (op : ProviderAdmissionSnapshot -> Res (A * option ProviderAdmissionSnapshot)) r files' :
  in_use adapter -> lease_world_ok M w -> (lw_clock w <= clock')%N ->
  (forall s a s', op s = Ok (a, s') -> exists rs, s' = Some (s <| ad_reservations := rs |>) /\
     rs `sublist_of` ad_reservations s /\
     forall x, x ∈ ad_reservations s -> (clock' < rs_expires_at_ms x)%N -> keep x = true -> x ∈ rs) ->
  locked sha256 root (lw_files w) adapter io op = (r, files') ->
  held' ⊆ lw_held w -> (forall a sid, a <> adapter -> held' !! (a, sid) = lw_held w !! (a, sid)) ->
  (is_ok r = true -> forall sid x, held' !! (adapter, sid) = Some x -> keep x = true) ->
  lease_world_ok M (MkLeaseWorld files' clock' held').
Proof.
  intros Huse Hw Hc Hop El Hsub Hoh Hkeep. pose proof Hw as [Hf _].
  eapply locked_cases in El as (Hf' & Ho & Hcase); [|exact Huse|exact Hf|].
  2:{ intros s a s' Hg Ha E. apply Hop in E as (rs & [= ->] & Hrs & _). split; [by apply sublist_good|done]. }
  eapply world_step; eauto. intros sid x Hx. right. split; [by eapply lookup_weaken|].
  destruct Hcase as [(e & -> & Hl)|(s & a & Hs & -> & [[Eo Hl]|(s' & Eo & Hl)])].
  1,2: unfold stored_leases; by rewrite Hl.
  apply Hop in Eo as (rs & [= ->] & _ & Hin). rewrite (stored_Ok _ _ _ Hl), (stored_Ok _ _ _ Hs). cbn.
  intros. apply Hin; [done..|]. by eapply Hkeep.
Qed.

Lemma call_release_ok M w adapter sid io :
  in_use adapter -> lease_world_ok M w -> lease_world_ok M (lease_call sha256 root w (CallRelease adapter sid) io).
Proof.
  intros Huse Hw. cbn. unfold release_session. destruct (locked _ _ _ _ _ _) as [r files'] eqn:El.
  eapply (call_shrink_ok M w adapter io _ _ (fun x => negb (String.eqb (rs_session_id x) sid))); [done|done|done| |exact El|..].
  - intros s a s' [= <- <-]. eexists. split; [done|]. split; [apply filter_sublist|].
    intros x Hx _ Hk. by apply filter_elem.
  - destruct r; [apply delete_subseteq|done].
  - intros a sid' Hne. destruct r; [|done]. by rewrite lookup_delete_ne by congruence.
  - destruct r; [|done]. intros _ sid' x Hx. apply lookup_delete_Some in Hx as [Hne Hx].
    destruct Hw as [_ Hh]. destruct (Hh _ _ _ Huse Hx) as [<- _]. apply negb_true_iff, String.eqb_neq. congruence.
Qed.

Lemma call_release_owned_ok M w adapter rid sid io :
  in_use adapter -> lease_world_ok M w -> lease_world_ok M (lease_call sha256 root w (CallReleaseOwned adapter rid sid) io).
Proof.
  intros Huse Hw. cbn. unfold release_owned. destruct (locked _ _ _ _ _ _) as [r files'] eqn:El.
  eapply (call_shrink_ok M w adapter io _ _ (fun x => negb (owned_by rid sid x))); [done|done|done| |exact El|..].
  - intros s a s'. cbv beta. destruct (remove_first (owned_by rid sid) (ad_reservations s)) as [rs|] eqn:Er; [|done]. intros [= <- <-].
    eexists. split; [done|]. split; [by eapply remove_first_sublist|].
    intros x Hx _ Hk. eapply remove_first_other; [done| |done]. by apply negb_true_iff.
  - destruct r; [|done]. repeat case_match; [apply delete_subseteq|done..].
  - intros a sid' Hne. destruct r; [|done]. repeat case_match; [by rewrite lookup_delete_ne by congruence|done..].
  - destruct r as [|e]; [|done]. intros _ sid' x Hx. apply negb_true_iff. unfold owned_by. apply andb_false_iff.
    destruct Hw as [_ Hh]. destruct (decide (sid' = sid)) as [->|Hne].
    + destruct (lw_held w !! (adapter, sid)) as [lease|] eqn:E; [|congruence].
      destruct (String.eqb (rs_reservation_id lease) rid) eqn:Er; [by rewrite lookup_delete_eq in Hx|].
      left. congruence.
    + right. apply String.eqb_neq. intros <-. apply Hne.
      destruct (lw_held w !! (adapter, rs_session_id x)) as [lease|] eqn:E;
        [destruct (String.eqb (rs_reservation_id lease) rid)|].
      * apply lookup_delete_Some in Hx as [_ Hx]. by destruct (Hh _ _ _ Huse Hx) as [-> _].
      * by destruct (Hh _ _ _ Huse Hx) as [-> _].
      * by destruct (Hh _ _ _ Huse Hx) as [-> _].
Qed.

Lemma call_snapshot_ok M w adapter now io :
  in_use adapter -> lease_world_ok M w -> lease_world_ok M (lease_call sha256 root w (CallSnapshot adapter now) io).
Proof.
  intros Huse Hw. pose proof (N.le_max_l (lw_clock w) now) as Hc. cbn. unfold admission_snapshot. destruct (locked _ _ _ _ _ _) as [r files'] eqn:El.
  eapply (call_shrink_ok M w adapter io _ _ (fun _ => true)); [done|done|done| |exact El|done..].
  intros s a s' [= <- <-]. eexists. split; [done|]. split; [apply filter_sublist|].
  intros x Hx Hlt _. apply filter_elem. split; [done|]. apply N.ltb_lt. lia.
Qed.

Lemma call_renew_ok M w adapter rid sid now ttl io :
  in_use adapter -> lease_world_ok M w -> lease_world_ok M (lease_call sha256 root w (CallRenew adapter rid sid now ttl) io).
Proof.
  intros Huse Hw. pose proof Hw as [Hf _]. pose proof (N.le_max_l (lw_clock w) now) as Hc. cbn. unfold renew.
  set (expires := saturating_add u128_max now (N.max ttl 1)).
  assert (He : (expires <= u128_max)%N) by (unfold expires, saturating_add; lia).
  destruct (locked _ _ _ _ _ _) as [r files'] eqn:El.
  eapply locked_cases in El as (Hf' & Ho & Hcase); [|exact Huse|exact Hf|].
  2:{ intros s a s' Hg Ha. cbv beta. destruct (update_first (owned_by rid sid) _ (ad_reservations s)) as [[x l']|] eqn:Eu; [|done]. cbn.
      destruct (_ <=? _)%N; [done|]. intros [= <- <-].
      apply update_first_spec in Eu as (l1 & l2 & E & -> & _). split; [|done]. by eapply extend_good. }
  destruct Hcase as [(e & -> & Hl)|(s & a & Hs & -> & [[Eo Hl]|(s' & Eo & Hl)])].
  - by apply world_same with adapter.
  - cbv beta in Eo. destruct (update_first (owned_by rid sid) _ (ad_reservations s)) as [[x l']|]; [|done]. cbn in Eo. by destruct (_ <=? _)%N.
  - cbv beta in Eo. destruct (update_first (owned_by rid sid) _ (ad_reservations s)) as [[x l']|] eqn:Eu; [|done]. cbn in Eo.
    destruct (_ <=? _)%N; [done|]. injection Eo as <- <-.
    apply update_first_spec in Eu as (l1 & l2 & E & -> & Hp). unfold owned_by in Hp. reflect_bools. subst.
    eapply world_step; eauto; [by intros; rewrite lookup_insert_ne by congruence|].
    intros sid' r. rewrite (stored_Ok _ _ _ Hl), (stored_Ok _ _ _ Hs), E. cbn.
    destruct (decide (sid' = rs_session_id x)) as [->|Hne].
    + rewrite lookup_insert_eq. intros [= <-]. left. split; [done|]. apply elem_of_app. right. by left.
    + rewrite lookup_insert_ne by congruence. intros Hr. right. split; [done|]. intros Hin _.
      destruct Hw as [_ Hh]. destruct (Hh _ _ _ Huse Hr) as [Hsid _].
      apply elem_of_app in Hin as [?|[->|?]%elem_of_cons]; apply elem_of_app; [by left|congruence|right; by right].
Qed.

Lemma lease_call_ok M w call io :
  lease_world_ok M w -> call_ok M call -> lease_world_ok M (lease_call sha256 root w call io).
Proof.
  intros Hw Hc. pose proof (proj1 Hc) as Hu. destruct call; cbn in Hu.
  - by apply call_reserve_ok.
  - by apply call_release_ok.
  - by apply call_release_owned_ok.
  - by apply call_renew_ok.
  - by apply call_snapshot_ok.
Qed.

Lemma lease_run_ok M calls : forall w,
  lease_world_ok M w -> calls_ok M calls -> lease_world_ok M (lease_run sha256 root w calls).
Proof.
  induction calls as [|[call io] calls IH]; intros w Hw Hc; [done|]. apply Forall_cons in Hc as [Hc Hcs]. cbn.
  apply IH; [by apply lease_call_ok|done].
Qed.

Lemma live_leases_bounded M w adapter :
  in_use adapter -> lease_world_ok M w -> (len (live_leases w adapter) <= M adapter)%N.
Proof.
  intros Hu [Hf Hh]. destruct (Hf adapter Hu) as (s & Hs & _ & _ & Hl & _). unfold len in *.
  etrans; [|exact Hl]. rewrite <- (length_fmap (fun e => e.2) (live_leases w adapter)).
  rewrite <- (stored_Ok _ _ _ Hs).
  cut (length ((fun e => e.2) <$> live_leases w adapter) <= length (stored_leases (lw_files w) adapter)); [lia|].
  apply submseteq_length, NoDup_submseteq.
  - apply NoDup_fmap_2_strong; [|eapply sublist_NoDup; [apply NoDup_map_to_list|apply filter_sublist]].
    intros [[a1 s1] r1] [[a2 s2] r2] H1 H2 E. cbn in E. subst r2.
    apply filter_elem in H1 as [H1 B1], H2 as [H2 B2]. reflect_bools. cbn in *. subst.
    rewrite elem_of_map_to_list in H1, H2.
    destruct (Hh _ _ _ Hu H1) as [<- _], (Hh _ _ _ Hu H2) as [<- _]. done.
  - intros r ([[a sid] r'] & -> & Hin)%list_elem_of_fmap. cbn. apply filter_elem in Hin as [Hin B].
    reflect_bools. cbn in *. subst. rewrite elem_of_map_to_list in Hin. by apply Hh in Hin as [_ Hin]; [apply Hin|].
Qed.
(** No call breaks the table, whoever makes it. *)
Lemma call_keeps_table M files call io :
  admissions_ok M files -> call_ok M call ->
  admissions_ok M (lw_files (lease_call sha256 root (MkLeaseWorld files 0 ∅) call io)).
Proof.
  intros Hf Hc. apply lease_call_ok; [|exact Hc]. split; [exact Hf|]. intros a sid r _ H. cbn in H.
  by rewrite lookup_empty in H.
Qed.

(** A reservation is given back once. *)
Lemma released_once M files adapter rid sid io files' io' r files'' :
  in_use adapter -> admissions_ok M files ->
  release_owned sha256 root files adapter rid sid io = (Ok tt, files') ->
  release_owned sha256 root files' adapter rid sid io' = (r, files'') -> is_ok r = false.
Proof.
  intros Hu Hf H1 H2. unfold release_owned in *.
  assert (Hop : forall s (a : unit) s', admission_good (M adapter) s -> ad_adapter_id s = adapter ->
    (let? rest := ok_or (remove_first (owned_by rid sid) (ad_reservations s)) not_owned in
     Ok (tt, Some (s <| ad_reservations := rest |>))) = Ok (a, Some s') ->
    admission_good (M adapter) s' /\ ad_adapter_id s' = adapter).
  { intros s a s' Hg Ha. destruct (remove_first (owned_by rid sid) (ad_reservations s)) as [rs|] eqn:Er; [|done].
    intros [= _ <-]. split; [|done]. apply sublist_good; [done|]. by eapply remove_first_sublist. }
  destruct (locked_cases M _ _ _ _ _ _ Hu Hf Hop H1) as (Hf' & _ & [(e & [=] & _)|(s & a & Hs & _ & [[E _]|(s' & E & Hl)])]).
  { by destruct (remove_first (owned_by rid sid) (ad_reservations s)). }
  destruct (Hf adapter Hu) as (s0 & Hs0 & _ & _ & _ & Hd). rewrite Hs in Hs0. injection Hs0 as <-.
  destruct (remove_first (owned_by rid sid) (ad_reservations s)) as [rs|] eqn:Er; [|done].
  injection E as _ <-.
  assert (Hnone : remove_first (owned_by rid sid) rs = None).
  { clear -Er Hd. revert rs Er. induction (ad_reservations s) as [|x l IH]; intros rs; [done|]. cbn.
    apply NoDup_cons in Hd as [Hx Hd]. destruct (owned_by rid sid x) eqn:Ex.
    - intros [= <-]. unfold owned_by in Ex. reflect_bools. subst sid. clear IH Hd.
      induction l as [|y l IH]; [done|]. cbn. cbn in Hx. rewrite not_elem_of_cons in Hx. destruct Hx as [Hne Hx].
      unfold owned_by at 1. rewrite (proj2 (String.eqb_neq (rs_session_id y) _)), andb_false_r by congruence.
      by rewrite IH.
    - destruct (remove_first _ l) as [l'|]; [|done]. intros [= <-]. cbn. rewrite Ex. by rewrite (IH Hd l'). }
  destruct (locked_cases M _ _ _ _ _ _ Hu Hf' Hop H2) as (_ & _ & [(e & -> & _)|(s1 & a1 & Hs1 & -> & Hc)]); [done|].
  rewrite Hl in Hs1. injection Hs1 as <-. cbn in Hc. rewrite Hnone in Hc. cbn in Hc.
  destruct Hc as [[? _]|(? & ? & _)]; done.
Qed.
End Capacity.

(** A table nobody has used yet. *)
Definition empty_world (clock : N) : LeaseWorld := MkLeaseWorld ∅ clock ∅.

Lemma empty_world_ok sha256 root in_use M clock : lease_world_ok sha256 root in_use M (empty_world clock).
Proof.
  split.
  - intros adapter _. exists (MkAdmission adapter 0 []). split; [done|]. split; [done|].
    split; [split; [done|by apply Forall_nil]|]. split; [apply N.le_0_l|by apply NoDup_nil].
  - intros adapter sid r _ H. cbn in H. by rewrite lookup_empty in H.
Qed.

(** C13: Whatever processes do with a table, in any interleaving, whatever
    their clocks show and with any outcome of their locks and writes, an
    adapter never has more live leases than the largest limit its
    reservations ask for.  A lease is live from the reservation that granted
    it until it is released or a call reads a time at which it is over; a
    renewal moves that time.  The session ids are texts the file can carry,
    and SHA-256 keeps apart the adapters the table is used with. *)
Theorem leases_within_capacity sha256 root (in_use : AdapterId -> Prop) M clock calls adapter :
  (forall a b, in_use a -> in_use b -> sha256 (id_str a) = sha256 (id_str b) -> a = b) ->
  calls_ok in_use M calls -> in_use adapter ->
  (len (live_leases (lease_run sha256 root (empty_world clock) calls) adapter) <= M adapter)%N.
Proof.
  intros Hinj Hc Hu. eapply live_leases_bounded; [exact Hu|].
  eapply lease_run_ok; [exact Hinj|apply empty_world_ok|exact Hc].
Qed.

(** Sessions ask for the one place of an adapter; the second gets it when the
    first lease is over, the third, whose clock is behind, does not. *)
Definition sample_adapter : AdapterId := MkId "provider-admission".
Definition sample_calls : list (AdmissionCall * AdmissionIo) :=
  [ (CallReserve sample_adapter 1 "s1" 10 100, admission_io_fine);
    (CallReserve sample_adapter 1 "s2" 11 100, admission_io_fine);
    (CallReserve sample_adapter 1 "s2" 110 100, admission_io_fine);
    (CallReserve sample_adapter 1 "s3" 50 100, admission_io_fine);
    (CallReleaseOwned sample_adapter "s1-10" "s1", admission_io_fine) ].

Lemma leases_within_capacity_witness :
  calls_ok (fun a => a = sample_adapter) (fun _ => 1%N) sample_calls /\
  (len (live_leases (lease_run id "admission" (empty_world 0) sample_calls) sample_adapter) <= 1)%N.
Proof.
  assert (Hc : calls_ok (fun a => a = sample_adapter) (fun _ => 1%N) sample_calls).
  { repeat (apply Forall_cons; split; [split; [reflexivity|cbn; try done; repeat split; try done; apply N.leb_le; reflexivity]|]). by apply Forall_nil. }
  split; [exact Hc|].
  apply (leases_within_capacity id "admission" (fun a => a = sample_adapter) (fun _ => 1%N) 0 sample_calls sample_adapter);
    [intros a b -> -> _; reflexivity|exact Hc|reflexivity].
Defined.

Example sample_calls_held :
  live_leases (lease_run id "admission" (empty_world 0) sample_calls) sample_adapter
  = [((sample_adapter, "s2"), MkReservation "s2-110" "s2" 210)].
Proof. vm_compute. reflexivity. Qed.
