(* ===== verification/ProviderSupervisor.v ===== *)
(** * The provider supervisor (crates/eva-adapter/src/supervisor.rs)

    The admission of one execution of a provider (circuit breaker, concurrency,
    rate limit, durable reservation), the slot it gets, and the slot's life:
    process registration, restarts, completion, retirement at shutdown.  The
    supervisor is written against two interfaces, the table of process
    snapshots and the table of admission reservations; MCP HTTP sessions and
    the operating system's processes are not part of the state. *)

From Stdlib Require Import Ascii.
From stdpp Require Import base numbers strings gmap list.
From S2P Require Import Prelude RustStr Error Ids Durable ProviderProcess ProviderAdmission.

(** ** Configuration (eva-config manifest/adapter.rs, eva-adapter manifest.rs) *)

Inductive ProviderRestartMode := RestartNone | RestartOnFailure | RestartAlways.
#[export] Instance ProviderRestartMode_eq_dec : EqDecision ProviderRestartMode.
Proof. solve_decision. Defined.

Definition restart_mode_parse (value : string) : Res ProviderRestartMode :=
  if String.eqb value "none" then Ok RestartNone
  else if String.eqb value "on_failure" then Ok RestartOnFailure
  else if String.eqb value "always" then Ok RestartAlways
  else Err (unsupported "unsupported provider restart mode" ⊕ ("restart_mode", value)).

Definition restart_mode_str (m : ProviderRestartMode) : string :=
  match m with RestartNone => "none" | RestartOnFailure => "on_failure" | RestartAlways => "always" end.

Record ProviderRestartConfig := MkRestartConfig {
  rc_mode : ProviderRestartMode;
  rc_max_attempts : N;
  rc_backoff_ms : N
}.

Inductive ProviderRunAsIdentity :=
| RunAsCurrent
| RunAsUnix (uid gid : N)
| RunAsWindows (account : string).

Definition run_as_kind (i : ProviderRunAsIdentity) : string :=
  match i with RunAsCurrent => "current" | RunAsUnix _ _ => "unix" | RunAsWindows _ => "windows" end.

Record ProviderVaultSecretRef := MkVaultSecret { vs_env : string; vs_secret_ref : string }.

Record ProviderConfig := MkProviderConfig {
  pc_restart : ProviderRestartConfig;
  pc_run_as : ProviderRunAsIdentity;
  pc_vault_secrets : list ProviderVaultSecretRef
}.

Inductive AdapterTransport :=
| TrBuiltin | TrStdio | TrHttp | TrEventbus | TrMcp | TrSkill | TrHardware | TrLuaCapability.

Definition transport_str (t : AdapterTransport) : string :=
  match t with
  | TrBuiltin => "builtin" | TrStdio => "stdio" | TrHttp => "http" | TrEventbus => "eventbus"
  | TrMcp => "mcp" | TrSkill => "skill" | TrHardware => "hardware" | TrLuaCapability => "lua_capability"
  end.

Record AdapterRateLimit := MkRateLimit { rl_max_requests : N; rl_window_ms : N }.
Record AdapterCircuitBreaker := MkCircuitBreaker { cb_failure_threshold : N; cb_recovery_window_ms : N }.

(** ** Requests, slots, outcomes *)

Record ProviderExecutionRequest := MkExecutionRequest {
  rq_request_id : RequestId;
  rq_adapter_id : AdapterId;
  rq_capability : CapabilityName;
  rq_transport : AdapterTransport;
  rq_manifest_digest : string;
  rq_start_command : string;
  rq_provider : ProviderConfig;
  rq_max_concurrency : option N;
  rq_rate_limit : option AdapterRateLimit;
  rq_circuit_breaker : option AdapterCircuitBreaker;
  rq_retry_backoff_ms : option N
}.

Record ProviderExecutionSlot := MkSlot {
  sl_session_id : string;
  sl_provider_process_id : string;
  sl_request_id : RequestId;
  sl_adapter_id : AdapterId;
  sl_admission_reservation_id : option string;
  sl_half_open_probe : bool
}.

Record ProviderExecutionOutcome := MkOutcome { oc_health : string; oc_last_error : option string }.

Definition outcome_completed (status : string) : ProviderExecutionOutcome :=
  if String.eqb status "completed" then MkOutcome "completed" None
  else MkOutcome "failed" (Some ("adapter returned status " +:+ status)).

Definition outcome_failed (error : EvaError) : ProviderExecutionOutcome :=
  MkOutcome "failed" (Some (error_kind_str (err_kind error) +:+ ": " +:+ err_message error)).

Record ProcessIdentity := MkProcessIdentity {
  pi_pid : N;
  pi_process_start_token : string;
  pi_process_group_id : option N;
  pi_job_id : option string
}.

Definition safe_segment (value : string) : string :=
  str_concat ((fun ch => if chars_all_ascii (fun c => is_ascii_alphanumeric c || Ascii.eqb c "-"
                                                   || Ascii.eqb c "_" || Ascii.eqb c ".") ch
                         then ch else "-") <$> chars value).

Definition session_id (request_id : RequestId) (adapter_id : AdapterId) : string :=
  "session-" +:+ safe_segment (id_str adapter_id) +:+ "-" +:+ safe_segment (id_str request_id).
Definition provider_process_id (request_id : RequestId) (adapter_id : AdapterId) : string :=
  "provider-" +:+ safe_segment (id_str adapter_id) +:+ "-" +:+ safe_segment (id_str request_id).

Definition admission_error (request : ProviderExecutionRequest) (message provider_code : string)
    (retry_after_ms : option N) : EvaError :=
  let error := with_provider_code (unavailable message) provider_code
    ⊕ ("adapter_id", id_str (rq_adapter_id request)) ⊕ ("request_id", id_str (rq_request_id request))
    ⊕ ("capability", cap_name (rq_capability request)) in
  match retry_after_ms with
  | Some ms => error ⊕ ("retry_after_ms", n_to_string ms)
  | None => error
  end.

Definition limit_audit_entries (request : ProviderExecutionRequest) (half_open_probe : bool) : list string :=
  let restart := pc_restart (rq_provider request) in
  ["provider.restart.mode:" +:+ restart_mode_str (rc_mode restart);
   "provider.restart.max_attempts:" +:+ n_to_string (rc_max_attempts restart);
   "provider.restart.backoff_ms:" +:+ n_to_string (rc_backoff_ms restart);
   "provider.run_as.kind:" +:+ run_as_kind (pc_run_as (rq_provider request));
   "provider.vault_secret_refs:" +:+ n_to_string (len (pc_vault_secrets (rq_provider request)))]
  ++ match rq_max_concurrency request with
     | Some max => ["provider.concurrency.max:" +:+ n_to_string max] | None => [] end
  ++ match rq_rate_limit request with
     | Some limit => ["provider.rate_limit:" +:+ n_to_string (rl_max_requests limit) +:+ ":"
                        +:+ n_to_string (rl_window_ms limit)]
     | None => [] end
  ++ match rq_circuit_breaker request with
     | Some breaker => ["provider.circuit.failure_threshold:" +:+ n_to_string (cb_failure_threshold breaker);
                        "provider.circuit.recovery_window_ms:" +:+ n_to_string (cb_recovery_window_ms breaker)]
     | None => [] end
  ++ (if half_open_probe then ["provider.circuit:half_open_probe"] else []).

Definition RESERVATION_AUDIT_PREFIX : string := "provider.admission:reservation:".
Definition RELEASE_PENDING_AUDIT_PREFIX : string := "provider.admission:release_pending:".
Definition RELEASE_RESOLVED_AUDIT_PREFIX : string := "provider.admission:release_resolved:".
Definition SUCCESSOR_PRESERVED_AUDIT_PREFIX : string := "provider.admission:successor_preserved:".

Definition audited (p : ProviderProcessSnapshot) (entry : string) : bool := existsb (String.eqb entry) (pp_audit p).

(** The non-empty text after a prefix. *)
Definition strip_audit (prefix entry : string) : option string :=
  match strip_prefix prefix entry with
  | Some value => if str_is_empty value then None else Some value
  | None => None
  end.

Definition reservation_id_from_audit (p : ProviderProcessSnapshot) : option string :=
  head (omap (strip_audit RESERVATION_AUDIT_PREFIX) (reverse (pp_audit p))).

(** The loop of [pending_release_ids]. *)
Fixpoint pending_ids (p : ProviderProcessSnapshot) (pending entries : list string) : list string :=
  match entries with
  | [] => pending
  | entry :: entries =>
      match strip_audit RELEASE_PENDING_AUDIT_PREFIX entry with
      | Some id =>
          if negb (audited p (RELEASE_RESOLVED_AUDIT_PREFIX +:+ id)) && negb (existsb (String.eqb id) pending)
          then pending_ids p (pending ++ [id]) entries
          else pending_ids p pending entries
      | None => pending_ids p pending entries
      end
  end.
Definition pending_release_ids (p : ProviderProcessSnapshot) : list string := pending_ids p [] (pp_audit p).
Definition pending_release_id (p : ProviderProcessSnapshot) : option string := last (pending_release_ids p).

Definition ensure_slot_matches_snapshot (slot : ProviderExecutionSlot) (p : ProviderProcessSnapshot) : Res unit :=
  if String.eqb (pp_provider_process_id p) (sl_provider_process_id slot)
     && bool_decide (pp_request_id p = sl_request_id slot)
     && bool_decide (pp_adapter_id p = sl_adapter_id slot) then Ok tt
  else Err (conflict "provider execution slot identity does not match durable snapshot"
              ⊕ ("session_id", sl_session_id slot)).

Definition ensure_request_matches_snapshot (request : ProviderExecutionRequest) (p : ProviderProcessSnapshot) : Res unit :=
  let restart := pc_restart (rq_provider request) in
  if bool_decide (pp_request_id p = rq_request_id request)
     && bool_decide (pp_adapter_id p = rq_adapter_id request)
     && bool_decide (pp_capability p = rq_capability request)
     && String.eqb (pp_transport p) (transport_str (rq_transport request))
     && String.eqb (pp_manifest_digest p) (rq_manifest_digest request)
     && String.eqb (pp_start_command p) (rq_start_command request)
     && String.eqb (pp_restart_policy p) (restart_mode_str (rc_mode restart))
     && (pp_restart_max_attempts p =? rc_max_attempts restart)%N
     && (pp_restart_backoff_ms p =? rc_backoff_ms restart)%N then Ok tt
  else Err (conflict "provider restart request does not match its durable session identity"
              ⊕ ("session_id", pp_session_id p) ⊕ ("adapter_id", id_str (rq_adapter_id request))
              ⊕ ("request_id", id_str (rq_request_id request))).

(** ** The admission table's interface *)

Class ProviderAdmissionTable (A : Type) := {
  adm_reserve : A -> AdapterId -> N -> string -> N -> N -> Res ProviderAdmissionReservation * A;
  adm_release_owned : A -> AdapterId -> string -> string -> Res unit * A;
  adm_renew : A -> AdapterId -> string -> string -> N -> N -> Res ProviderAdmissionReservation * A;
  adm_snapshot : A -> AdapterId -> N -> Res ProviderAdmissionSnapshot * A
}.

(** The file table, with the outcomes of the locks and writes of its
    operations in their order. *)
Record AdmissionDisk := MkAdmissionDisk {
  adk_root : string;
  adk_files : Files;
  adk_outcomes : nat -> AdmissionIo;
  adk_operations : nat
}.

Definition on_admission_disk {X} (d : AdmissionDisk) (operation : Files -> AdmissionIo -> Res X * Files) :
    Res X * AdmissionDisk :=
  let '(r, files) := operation (adk_files d) (adk_outcomes d (adk_operations d)) in
  (r, MkAdmissionDisk (adk_root d) files (adk_outcomes d) (S (adk_operations d))).

Definition disk_admission_table (sha256 : string -> string) : ProviderAdmissionTable AdmissionDisk := {|
  adm_reserve d adapter max session now ttl :=
    on_admission_disk d (fun files => reserve sha256 (adk_root d) files adapter max session now ttl);
  adm_release_owned d adapter reservation session :=
    on_admission_disk d (fun files => release_owned sha256 (adk_root d) files adapter reservation session);
  adm_renew d adapter reservation session now ttl :=
    on_admission_disk d (fun files => renew sha256 (adk_root d) files adapter reservation session now ttl);
  adm_snapshot d adapter now :=
    on_admission_disk d (fun files => admission_snapshot sha256 (adk_root d) files adapter now)
|}.

(** ** The supervisor *)

Record ProviderRateWindow := MkRateWindow { rw_started_at_ms : N; rw_count : N }.

Record ProviderCircuitState := MkCircuitState {
  cs_failure_count : N;
  cs_opened_at_ms : option N;
  cs_half_open_probe_active : bool;
  cs_failure_threshold : N
}.
#[export] Instance ProviderCircuitState_eta : Eta ProviderCircuitState := fun s =>
  MkCircuitState (cs_failure_count s) (cs_opened_at_ms s) (cs_half_open_probe_active s) (cs_failure_threshold s).
Definition circuit_default : ProviderCircuitState := MkCircuitState 0 None false 0.

(** [table] is the authoritative process table: the durable one when it is
    configured, the one in memory otherwise. *)
Record ProviderSupervisor (T A : Type) := MkSupervisor {
  sv_table : T;
  sv_admission : option A;
  sv_rate_windows : gmap AdapterId ProviderRateWindow;
  sv_circuit_states : gmap AdapterId ProviderCircuitState;
  sv_draining : bool
}.
Arguments MkSupervisor {T A}.
Arguments sv_table {T A}.
Arguments sv_admission {T A}.
Arguments sv_rate_windows {T A}.
Arguments sv_circuit_states {T A}.
Arguments sv_draining {T A}.
#[export] Instance ProviderSupervisor_eta T A : Eta (ProviderSupervisor T A) := fun s =>
  MkSupervisor (sv_table s) (sv_admission s) (sv_rate_windows s) (sv_circuit_states s) (sv_draining s).

Definition supervisor_new {T A} (table : T) (admission : option A) : ProviderSupervisor T A :=
  MkSupervisor table admission ∅ ∅ false.

(** A method of the supervisor: its answer and the state it leaves, also when
    it fails. *)
Definition Run (S X : Type) : Type := S -> Res X * S.
Definition run_ret {S X} (x : X) : Run S X := fun s => (Ok x, s).
Definition run_lift {S X} (r : Res X) : Run S X := fun s => (r, s).
Definition run_bind {S X Y} (m : Run S X) (k : X -> Run S Y) : Run S Y :=
  fun s => match m s with (Ok x, s) => k x s | (Err e, s) => (Err e, s) end.
Definition run_get {S X} (f : S -> X) : Run S X := fun s => (Ok (f s), s).
Definition run_set {S} (f : S -> S) : Run S unit := fun s => (Ok tt, f s).
(** The result as a value, for a [match] on it. *)
Definition run_try {S X} (m : Run S X) : Run S (Res X) := fun s => let '(r, s) := m s in (Ok r, s).

Notation "'do?' x ':=' m 'in' k" := (run_bind m (fun x => k))
  (at level 200, x binder, m at level 200, k at level 200) : eva_scope.
Notation "m '>>!' k" := (run_bind m (fun _ => k)) (at level 100, k at level 200, right associativity) : eva_scope.

Fixpoint run_each {S X} (f : X -> Run S unit) (l : list X) : Run S unit :=
  match l with
  | [] => run_ret tt
  | x :: l => f x >>! run_each f l
  end.

Section Supervisor.
Context {T A : Type} `{!ProviderProcessTable T, !ProviderAdmissionTable A}.
Abbreviation S := (ProviderSupervisor T A).
Abbreviation M := (Run (ProviderSupervisor T A)).

Definition read_process (session : string) : M ProviderProcessSnapshot :=
  fun s => (read_session (sv_table s) session, s).

Definition upsert_process (p : ProviderProcessSnapshot) : M ProviderProcessSnapshot :=
  fun s => let '(r, table) := compare_and_set (sv_table s) p in (r, s <| sv_table := table |>).

Definition processes : M (list ProviderProcessSnapshot) := fun s => (list_sessions (sv_table s), s).

Definition active_of (adapter : AdapterId) (l : list ProviderProcessSnapshot) : list ProviderProcessSnapshot :=
  List.filter (fun p => pp_active p && bool_decide (pp_adapter_id p = adapter)) l.

Definition active_for_adapter (adapter : AdapterId) : M (list ProviderProcessSnapshot) :=
  do? l := processes in run_ret (active_of adapter l).

(** A call of the admission table, where there is one. *)
Definition with_admission {X} (table : A) (call : A -> Res X * A) : M X :=
  fun s => let '(r, table) := call table in (r, s <| sv_admission := Some table |>).
Definition on_admission {X} (absent : M X) (call : A -> Res X * A) : M X :=
  fun s => match sv_admission s with None => absent s | Some table => with_admission table call s end.

(** *** Pending releases *)

(** A conflict on the marker is another writer's success. *)
Definition mark_admission_release_resolved (p : ProviderProcessSnapshot) (reservation_id : string) : M unit :=
  do? current := read_process (pp_session_id p) in
  if audited current (RELEASE_RESOLVED_AUDIT_PREFIX +:+ reservation_id) then run_ret tt else
  do? result := run_try (upsert_process (push_audit [RELEASE_RESOLVED_AUDIT_PREFIX +:+ reservation_id] current)) in
  match result with
  | Ok _ => run_ret tt
  | Err e => if decide (err_kind e = Conflict) then run_ret tt else run_lift (Err e)
  end.

(** One pending release.  [clock] is the reading of the clock taken for it. *)
Definition reconcile_release (clock : string -> N) (p : ProviderProcessSnapshot) (reservation_id : string) : M unit :=
  do? state := on_admission (run_lift (Err (internal "no admission table")))
                 (fun table => adm_snapshot table (pp_adapter_id p) (clock reservation_id)) in
  let exact := existsb (owned_by reservation_id (pp_session_id p)) (ad_reservations state) in
  let successor := existsb (fun r => String.eqb (rs_session_id r) (pp_session_id p)
                                     && negb (String.eqb (rs_reservation_id r) reservation_id))
                     (ad_reservations state) in
  (if exact then on_admission (run_ret tt)
       (fun table => adm_release_owned table (pp_adapter_id p) reservation_id (pp_session_id p))
   else run_ret tt) >>!
  do? current := read_process (pp_session_id p) in
  (if successor && negb (audited current (SUCCESSOR_PRESERVED_AUDIT_PREFIX +:+ reservation_id)) then
     upsert_process (push_audit [SUCCESSOR_PRESERVED_AUDIT_PREFIX +:+ reservation_id] current) >>! run_ret tt
   else run_ret tt) >>!
  mark_admission_release_resolved p reservation_id.

Definition reconcile_pending_admission_releases (clock : string -> N) : M unit :=
  do? admission := run_get sv_admission in
  match admission with
  | None => run_ret tt
  | Some _ =>
      do? snapshots := processes in
      run_each (fun p => run_each (reconcile_release clock p) (pending_release_ids p)) snapshots
  end.

(** *** Admission *)

Definition admit_circuit (request : ProviderExecutionRequest) (now : N) : M bool :=
  match rq_circuit_breaker request with
  | None => run_ret false
  | Some config =>
      do? states := run_get sv_circuit_states in
      let state := (default circuit_default (states !! rq_adapter_id request))
                     <| cs_failure_threshold := cb_failure_threshold config |> in
      let put state := run_set (fun s => s <| sv_circuit_states := <[rq_adapter_id request := state]> (sv_circuit_states s) |>) in
      put state >>!
      match cs_opened_at_ms state with
      | None => run_ret false
      | Some opened_at_ms =>
          let elapsed := (now - opened_at_ms)%N in
          if (cb_recovery_window_ms config <=? elapsed)%N && negb (cs_half_open_probe_active state) then
            put (state <| cs_half_open_probe_active := true |>) >>! run_ret true
          else
            let retry_after_ms := (cb_recovery_window_ms config - elapsed)%N in
            run_lift (Err (admission_error request "provider circuit breaker is open" "provider_circuit_open"
                             (Some (if (retry_after_ms <=? u64_max)%N then retry_after_ms else u64_max))
                           ⊕ ("circuit_failure_threshold", n_to_string (cb_failure_threshold config))
                           ⊕ ("circuit_recovery_window_ms", n_to_string (cb_recovery_window_ms config))))
      end
  end.

Definition admit_concurrency (request : ProviderExecutionRequest) : M unit :=
  match rq_max_concurrency request with
  | None => run_ret tt
  | Some max_concurrency =>
      do? l := active_for_adapter (rq_adapter_id request) in
      let active := len l in
      if (max_concurrency <=? active)%N then
        run_lift (Err (admission_error request "provider concurrency limit is exhausted"
                         "provider_concurrency_limited" (rq_retry_backoff_ms request)
                       ⊕ ("active", n_to_string active) ⊕ ("max_concurrency", n_to_string max_concurrency)))
      else run_ret tt
  end.

(** The window after the roll-over check. *)
Definition rolled_window (limit : AdapterRateLimit) (now : N) (window : option ProviderRateWindow) : ProviderRateWindow :=
  let window := default (MkRateWindow now 0) window in
  if (rl_window_ms limit <=? now - rw_started_at_ms window)%N then MkRateWindow now 0 else window.

Definition admit_rate_limit (request : ProviderExecutionRequest) (now : N) : M unit :=
  match rq_rate_limit request with
  | None => run_ret tt
  | Some limit =>
      do? windows := run_get sv_rate_windows in
      let window := rolled_window limit now (windows !! rq_adapter_id request) in
      let put window := run_set (fun s => s <| sv_rate_windows := <[rq_adapter_id request := window]> (sv_rate_windows s) |>) in
      if (rl_max_requests limit <=? rw_count window)%N then
        let elapsed := (now - rw_started_at_ms window)%N in
        let retry_after_ms := (rl_window_ms limit - elapsed)%N in
        put window >>!
        run_lift (Err (admission_error request "provider rate limit is exhausted" "provider_rate_limited"
                         (Some (if (retry_after_ms <=? u64_max)%N then retry_after_ms else u64_max))
                       ⊕ ("rate_limit_max_requests", n_to_string (rl_max_requests limit))
                       ⊕ ("rate_limit_window_ms", n_to_string (rl_window_ms limit))))
      else put (MkRateWindow (rw_started_at_ms window) (saturating_add u32_max (rw_count window) 1))
  end.

Definition reservation_audit (reservation : option string) (p : ProviderProcessSnapshot) : ProviderProcessSnapshot :=
  match reservation with
  | Some id => push_audit [RESERVATION_AUDIT_PREFIX +:+ id] p
  | None => p
  end.

(** The branch of [acquire] for a session the table already knows: a restart
    that is due. *)
Definition acquire_restart (request : ProviderExecutionRequest) (existing : ProviderProcessSnapshot) (now : N) :
    M ProviderExecutionSlot :=
  run_lift (ensure_request_matches_snapshot request existing) >>!
  do? existing := run_lift (prepare_for_restart existing now) in
  do? reservation := on_admission (run_ret None) (fun table =>
    let '(state, table) := adm_snapshot table (pp_adapter_id existing) now in
    ((let? state := state in
      match List.filter (fun r => String.eqb (rs_session_id r) (pp_session_id existing)) (ad_reservations state) with
      | [reservation] => Ok (Some (rs_reservation_id reservation))
      | [] => Err (conflict "provider restart lacks an active admission reservation")
      | _ => Err (conflict "provider restart has conflicting admission reservations")
      end), table)) in
  do? committed := upsert_process (reservation_audit reservation existing) in
  run_ret {| sl_session_id := pp_session_id committed;
             sl_provider_process_id := pp_provider_process_id committed;
             sl_request_id := pp_request_id committed;
             sl_adapter_id := pp_adapter_id committed;
             sl_admission_reservation_id := reservation;
             sl_half_open_probe := false |}.

(** The branch for a new session.  [started] is the clock when its snapshot
    is made. *)
Definition acquire_new (request : ProviderExecutionRequest) (now started : N) : M ProviderExecutionSlot :=
  let session := session_id (rq_request_id request) (rq_adapter_id request) in
  let process := provider_process_id (rq_request_id request) (rq_adapter_id request) in
  do? half_open_probe := admit_circuit request now in
  admit_concurrency request >>!
  admit_rate_limit request now >>!
  let restart := pc_restart (rq_provider request) in
  let snapshot := (push_audit (limit_audit_entries request half_open_probe)
    (process_running session process (rq_request_id request) (rq_adapter_id request) (rq_capability request)
       (transport_str (rq_transport request)) (rq_manifest_digest request) (rq_start_command request)
       (restart_mode_str (rc_mode restart)) started)) <| pp_retry_backoff_ms := rq_retry_backoff_ms request |> in
  do? snapshot := run_lift (configure_restart_budget snapshot (rc_max_attempts restart) (rc_backoff_ms restart)) in
  do? reservation := on_admission (run_ret None) (fun table =>
    let '(r, table) := adm_reserve table (rq_adapter_id request) (default usize_max (rq_max_concurrency request))
                         session now DEFAULT_RESERVATION_TTL_MS in
    (result_map (fun r => Some (rs_reservation_id r)) r, table)) in
  do? result := run_try (upsert_process (reservation_audit reservation snapshot)) in
  match result with
  | Err error =>
      match reservation with
      | Some reservation_id =>
          run_try (on_admission (run_ret tt) (fun table =>
            adm_release_owned table (rq_adapter_id request) reservation_id session)) >>!
          run_lift (Err error)
      | None => run_lift (Err error)
      end
  | Ok _ =>
      run_ret {| sl_session_id := session; sl_provider_process_id := process;
                 sl_request_id := rq_request_id request; sl_adapter_id := rq_adapter_id request;
                 sl_admission_reservation_id := reservation; sl_half_open_probe := half_open_probe |}
  end.

Definition acquire (request : ProviderExecutionRequest) (clock : string -> N) (now started : N) :
    M ProviderExecutionSlot :=
  reconcile_pending_admission_releases clock >>!
  do? draining := run_get sv_draining in
  if (draining : bool) then
    run_lift (Err (admission_error request "provider supervisor is draining" "provider_draining" None))
  else
  do? existing := run_try (read_process (session_id (rq_request_id request) (rq_adapter_id request))) in
  match existing with
  | Ok existing => acquire_restart request existing now
  | Err error => if decide (err_kind error = NotFound) then acquire_new request now started
                 else run_lift (Err error)
  end.

(** *** Completion *)

(** The circuit state after an outcome, and the snapshot with what it says
    about the circuit. *)
Definition record_circuit_outcome (slot : ProviderExecutionSlot) (p : ProviderProcessSnapshot) (now : N) :
    M ProviderProcessSnapshot :=
  do? states := run_get sv_circuit_states in
  match states !! sl_adapter_id slot with
  | None => run_ret p
  | Some state =>
      let put state := run_set (fun s => s <| sv_circuit_states := <[sl_adapter_id slot := state]> (sv_circuit_states s) |>) in
      if String.eqb (pp_health p) "completed" then
        put (state <| cs_failure_count := 0%N |> <| cs_opened_at_ms := None |> <| cs_half_open_probe_active := false |>) >>!
        run_ret (if sl_half_open_probe slot then push_audit ["provider.circuit:closed"] p else p)
      else
        let state := state <| cs_failure_count := saturating_add u32_max (cs_failure_count state) 1 |>
                           <| cs_half_open_probe_active := false |> in
        if sl_half_open_probe slot
           || (0 <? cs_failure_threshold state)%N && (cs_failure_threshold state <=? cs_failure_count state)%N then
          put (state <| cs_opened_at_ms := Some now |>) >>!
          run_ret (push_audit ["provider.circuit:opened"; "provider.health:circuit_open"]
                     (p <| pp_health := "circuit_open" |>))
        else put state >>! run_ret p
  end.

Definition lacks_admission : EvaError := conflict "provider execution slot lacks admission identity".

(** [released] and [opened] are the clock when the snapshot is released and
    when the circuit opens. *)
Definition complete (slot : ProviderExecutionSlot) (outcome : ProviderExecutionOutcome) (released opened : N) :
    M ProviderProcessSnapshot :=
  do? p := read_process (sl_session_id slot) in
  if negb (pp_active p) then
    run_lift (Err (conflict "provider execution slot has already reached a terminal state"
                     ⊕ ("session_id", sl_session_id slot) ⊕ ("health", pp_health p)))
  else
  do? p := run_lift (release_process p (oc_health outcome) (oc_last_error outcome) released) in
  do? p := run_lift (if is_none (pp_last_error p) && String.eqb (pp_health p) "completed"
                     then mark_stable_success p else Ok p) in
  do? p := record_circuit_outcome slot p opened in
  do? committed := upsert_process p in
  on_admission (run_ret tt) (fun table =>
    match sl_admission_reservation_id slot with
    | None => (Err lacks_admission, table)
    | Some reservation_id => adm_release_owned table (sl_adapter_id slot) reservation_id (sl_session_id slot)
    end) >>!
  run_ret committed.

Definition renew_admission (slot : ProviderExecutionSlot) (now : N) : M unit :=
  on_admission (run_lift (Err (unsupported "provider supervisor has no durable admission table"))) (fun table =>
    match sl_admission_reservation_id slot with
    | None => (Err lacks_admission, table)
    | Some reservation_id =>
        let '(r, table) := adm_renew table (sl_adapter_id slot) reservation_id (sl_session_id slot) now
                             DEFAULT_RESERVATION_TTL_MS in
        (result_map (fun _ => tt) r, table)
    end).

(** *** Restarts *)

Definition draining_error (what : string) (slot : ProviderExecutionSlot) : EvaError :=
  with_provider_code (unavailable ("provider supervisor is draining; " +:+ what)) "provider_draining"
    ⊕ ("session_id", sl_session_id slot).

(** Read the slot's snapshot, change it, and commit. *)
Definition update_slot (slot : ProviderExecutionSlot) (f : ProviderProcessSnapshot -> Res ProviderProcessSnapshot) :
    M ProviderProcessSnapshot :=
  do? p := read_process (sl_session_id slot) in
  run_lift (ensure_slot_matches_snapshot slot p) >>!
  do? p := run_lift (f p) in
  upsert_process p.

Definition unless_draining {X} (what : string) (slot : ProviderExecutionSlot) (m : M X) : M X :=
  do? draining := run_get sv_draining in
  if (draining : bool) then run_lift (Err (draining_error what slot)) else m.

Definition schedule_restart (slot : ProviderExecutionSlot) (attempt due_at_ms : N) (reason : string) (now : N) :
    M ProviderProcessSnapshot :=
  unless_draining "restart scheduling is closed" slot
    (update_slot slot (fun p => mark_restart_pending p attempt due_at_ms reason now)).

Definition prepare_restart (slot : ProviderExecutionSlot) (now : N) : M ProviderProcessSnapshot :=
  unless_draining "restart admission is closed" slot (update_slot slot (fun p => prepare_for_restart p now)).

Definition exhaust_restart (slot : ProviderExecutionSlot) (reason : string) (now : N) : M ProviderProcessSnapshot :=
  update_slot slot (fun p => mark_restart_exhausted p reason now).

Definition fail_restart (slot : ProviderExecutionSlot) (reason : string) (now : N) : M ProviderProcessSnapshot :=
  update_slot slot (fun p => mark_restart_failed p reason now).

Definition slot_snapshot (slot : ProviderExecutionSlot) : M ProviderProcessSnapshot :=
  do? p := read_process (sl_session_id slot) in
  run_lift (ensure_slot_matches_snapshot slot p) >>! run_ret p.

(** What [register_process_identity] makes of the snapshot. *)
Definition registered_process (identity : ProcessIdentity) (slot : ProviderExecutionSlot) (now : N)
    (p : ProviderProcessSnapshot) : Res ProviderProcessSnapshot :=
  let restarting := String.eqb (pp_restart_state p) "starting" in
  reject (negb (pp_active p) || negb (String.eqb (pp_health p) "running")) && negb restarting with
    conflict "provider process registration requires an active running slot"
      ⊕ ("session_id", sl_session_id slot) else
  reject has_process_identity p with
    conflict "provider process slot already has an OS identity" ⊕ ("session_id", sl_session_id slot) else
  let? p := set_process_identity p (pi_pid identity) (pi_process_start_token identity)
              (pi_process_group_id identity) (pi_job_id identity) (next_process_attempt p) in
  let? p := (if restarting then mark_restart_running p now else Ok p) in
  Ok (push_audit ["provider.process:registered"; "provider.pid:" +:+ n_to_string (pi_pid identity);
                  "provider.process_boundary:"
                    +:+ (if is_some (pi_process_group_id identity) then "unix_group" else "windows_job")] p).

Definition register_process_identity (slot : ProviderExecutionSlot) (identity : ProcessIdentity) (now : N) :
    M ProviderProcessSnapshot :=
  unless_draining "process registration is closed" slot
    (update_slot slot (registered_process identity slot now)).
End Supervisor.

(** ** Runs *)

Section Runs.
Context {S : Type}.

(** A property of the state that a run never breaks, whatever it answers. *)
Definition keeps {X} (P : S -> Prop) (m : Run S X) : Prop := forall s r s', P s -> m s = (r, s') -> P s'.

Lemma keeps_ret {X} P (x : X) : keeps P (run_ret x).
Proof. by intros s r s' H [= _ <-]. Qed.
Lemma keeps_lift {X} P (r : Res X) : keeps P (run_lift r).
Proof. by intros s r' s' H [= _ <-]. Qed.
Lemma keeps_get {X} P (f : S -> X) : keeps P (run_get f).
Proof. by intros s r s' H [= _ <-]. Qed.
Lemma keeps_set P (f : S -> S) : (forall s, P s -> P (f s)) -> keeps P (run_set f).
Proof. intros Hf s r s' H [= _ <-]. by apply Hf. Qed.
Lemma keeps_bind {X Y} P (m : Run S X) (k : X -> Run S Y) :
  keeps P m -> (forall x, keeps P (k x)) -> keeps P (run_bind m k).
Proof.
  intros Hm Hk s r s' H. unfold run_bind. destruct (m s) as [[x|e] s1] eqn:E.
  - intros H2. eapply Hk; [by eapply Hm|done].
  - intros [= _ <-]. by eapply Hm.
Qed.
Lemma keeps_try {X} P (m : Run S X) : keeps P m -> keeps P (run_try m).
Proof.
  intros Hm s r s' H. unfold run_try. destruct (m s) as [x s1] eqn:E. intros [= _ <-]. by eapply Hm.
Qed.
Lemma keeps_each {X} P (f : X -> Run S unit) l : (forall x, keeps P (f x)) -> keeps P (run_each f l).
Proof. intros Hf. induction l as [|x l IH]; [apply keeps_ret|]. apply keeps_bind; auto. Qed.

(** Inverting a sequence that answered. *)
Lemma run_bind_Ok {X Y} (m : Run S X) (k : X -> Run S Y) s y s' :
  run_bind m k s = (Ok y, s') -> exists x s1, m s = (Ok x, s1) /\ k x s1 = (Ok y, s').
Proof. unfold run_bind. destruct (m s) as [[x|e] s1]; [eauto|done]. Qed.
Lemma run_try_Ok {X} (m : Run S X) s r s' : run_try m s = (Ok r, s') <-> m s = (r, s').
Proof. unfold run_try. destruct (m s) as [x s1]. naive_solver. Qed.
Lemma run_lift_Ok {X} (r : Res X) s x s' : @run_lift S X r s = (Ok x, s') <-> r = Ok x /\ s' = s.
Proof. unfold run_lift. naive_solver. Qed.
End Runs.

Create HintDb runs.
#[export] Hint Resolve keeps_ret keeps_lift keeps_get keeps_try keeps_each : runs.

(** Walks through a run, leaving its primitive operations. *)
Ltac keeps_step :=
  first [ apply keeps_bind; [|intros ?]
        | solve [auto with runs]
        | apply keeps_try
        | apply keeps_each; intros ?
        | match goal with
          | |- keeps _ (match ?x with _ => _ end) => destruct x
          | |- keeps _ (if ?x then _ else _) => destruct x
          end ].
Ltac keeps_solve := repeat (intros; cbv zeta; keeps_step).

(** The circuit's part of a completion changes the health and the audit. *)
Lemma record_circuit_Ok {T A} slot p now (s : ProviderSupervisor T A) q s' :
  record_circuit_outcome slot p now s = (Ok q, s') ->
  sv_table s' = sv_table s /\ sv_admission s' = sv_admission s /\ sv_draining s' = sv_draining s /\
  pp_session_id q = pp_session_id p /\ pp_restart_attempts q = pp_restart_attempts p /\
  pp_active q = pp_active p /\ pp_adapter_id q = pp_adapter_id p.
Proof.
  unfold record_circuit_outcome, run_bind, run_get, run_set, run_ret.
  destruct (sv_circuit_states s !! _) as [state|]; [|intros [= <- <-]; done].
  destruct (String.eqb _ _); [intros [= <- <-]; by destruct p, (sl_half_open_probe slot)|].
  destruct (_ || _); intros [= <- <-]; by destruct p.
Qed.

Lemma record_circuit_total {T A} slot p now (s : ProviderSupervisor T A) :
  exists q s', record_circuit_outcome slot p now s = (Ok q, s').
Proof.
  unfold record_circuit_outcome, run_bind, run_get, run_set, run_ret.
  destruct (sv_circuit_states s !! _) as [state|]; [|eauto].
  destruct (String.eqb _ _); [eauto|]. destruct (_ || _); eauto.
Qed.

(** A completion that answers gave the slot's reservation back, where there is
    a table of them. *)
Lemma complete_gives_back {T A} `{!ProviderProcessTable T, !ProviderAdmissionTable A}
    slot outcome released opened (s : ProviderSupervisor T A) c s' :
  complete slot outcome released opened s = (Ok c, s') ->
  match sv_admission s with
  | None => sv_admission s' = None
  | Some table => exists rid table', sl_admission_reservation_id slot = Some rid /\ sv_admission s' = Some table' /\
      adm_release_owned table (sl_adapter_id slot) rid (sl_session_id slot) = (Ok tt, table')
  end.
Proof.
  intros H. unfold complete in H. apply run_bind_Ok in H as (p & s1 & [= Hr <-] & H).
  destruct (negb (pp_active p)); [by apply run_lift_Ok in H as [? _]|].
  apply run_bind_Ok in H as (p1 & s2 & H1 & H). apply run_lift_Ok in H1 as [H1 ->].
  apply run_bind_Ok in H as (p2 & s2 & H2 & H). apply run_lift_Ok in H2 as [H2 ->].
  apply run_bind_Ok in H as (p3 & s3 & H3 & H). apply record_circuit_Ok in H3 as (_ & Ea & _).
  apply run_bind_Ok in H as (c' & s4 & H4 & H). unfold upsert_process in H4.
  destruct (compare_and_set _ _) as [x t] eqn:Ec. injection H4 as -> <-.
  apply run_bind_Ok in H as ([] & s5 & H5 & [= -> <-]).
  unfold on_admission, with_admission in H5. cbn in H5. rewrite <- Ea.
  destruct (sv_admission s3) as [table|] eqn:E; [|by injection H5 as <-].
  destruct (sl_admission_reservation_id slot) as [rid|]; [|done].
  destruct (adm_release_owned _ _ _ _) as [y table'] eqn:Er. injection H5 as -> <-. by exists rid, table'.
Qed.

Section TableOk.
Context {T A : Type} `{!ProviderProcessTable T, !ProviderAdmissionTable A, !ProviderTableLaws T}.
Abbreviation S := (ProviderSupervisor T A).

Definition supervisor_ok (s : S) : Prop := table_ok (sv_table s).

Lemma keeps_read sid : keeps supervisor_ok (read_process (A := A) sid).
Proof. by intros s r s' H [= _ <-]. Qed.
Lemma keeps_processes : keeps supervisor_ok (processes (T := T) (A := A)).
Proof. by intros s r s' H [= _ <-]. Qed.
Lemma keeps_upsert p : keeps supervisor_ok (upsert_process (A := A) p).
Proof.
  intros s r s' H. unfold upsert_process. destruct (compare_and_set _ _) as [x t] eqn:E. intros [= _ <-].
  by eapply cas_table_ok.
Qed.
Lemma keeps_on_admission {X} (absent : Run S X) call :
  keeps supervisor_ok absent -> keeps supervisor_ok (on_admission absent call).
Proof.
  intros Ha s r s' H. unfold on_admission, with_admission. destruct (sv_admission s) as [a|]; [|by apply Ha].
  destruct (call a) as [x a']. by intros [= _ <-].
Qed.
Hint Resolve keeps_read keeps_processes keeps_upsert keeps_on_admission : runs.

Lemma keeps_reconcile clock : keeps supervisor_ok (reconcile_pending_admission_releases (T := T) (A := A) clock).
Proof.
  unfold reconcile_pending_admission_releases. keeps_solve.
Qed.

Lemma keeps_circuit request now : keeps supervisor_ok (admit_circuit (T := T) (A := A) request now).
Proof. unfold admit_circuit. keeps_solve; by apply keeps_set. Qed.
Lemma keeps_concurrency request : keeps supervisor_ok (admit_concurrency (T := T) (A := A) request).
Proof. unfold admit_concurrency, active_for_adapter. keeps_solve. Qed.
Lemma keeps_rate request now : keeps supervisor_ok (admit_rate_limit (T := T) (A := A) request now).
Proof. unfold admit_rate_limit. keeps_solve; by apply keeps_set. Qed.
Hint Resolve keeps_circuit keeps_concurrency keeps_rate keeps_reconcile : runs.

Lemma keeps_acquire request clock now started : keeps supervisor_ok (acquire (T := T) (A := A) request clock now started).
Proof.
  unfold acquire. keeps_solve.
Qed.

Lemma keeps_complete slot outcome released opened :
  keeps supervisor_ok (complete (T := T) (A := A) slot outcome released opened).
Proof. unfold complete, record_circuit_outcome. keeps_solve; by apply keeps_set. Qed.

Lemma keeps_update_slot slot f : keeps supervisor_ok (update_slot (T := T) (A := A) slot f).
Proof. unfold update_slot. keeps_solve. Qed.
(** What [update_slot] answers with is the changed snapshot, committed. *)
Lemma update_slot_Ok slot f (s : S) q s' :
  supervisor_ok s -> update_slot slot f s = (Ok q, s') ->
  exists p p', read_session (sv_table s) (sl_session_id slot) = Ok p /\ pp_session_id p = sl_session_id slot /\
    ensure_slot_matches_snapshot slot p = Ok tt /\ f p = Ok p' /\ committed_as p' q /\
    read_session (sv_table s') (pp_session_id p') = Ok q /\ sv_admission s' = sv_admission s.
Proof.
  intros Hok H. unfold update_slot in H. apply run_bind_Ok in H as (p & s1 & [= Hr <-] & H).
  apply run_bind_Ok in H as ([] & s2 & Hm & H). apply run_lift_Ok in Hm as [Hm ->].
  apply run_bind_Ok in H as (p' & s3 & Hf & H). apply run_lift_Ok in Hf as [Hf ->].
  unfold upsert_process in H. destruct (compare_and_set _ _) as [r t] eqn:Ec. injection H as -> <-.
  destruct (cas_Ok_read _ _ _ _ Hok Ec) as [Hc Hread]. exists p, p'.
  split_and!; try done. by eapply read_session_id.
Qed.

(** The restarts a slot's snapshot has consumed. *)
Definition attempts_are (slot : ProviderExecutionSlot) (k : N) (s : S) : Prop :=
  supervisor_ok s /\ exists p, read_session (sv_table s) (sl_session_id slot) = Ok p /\ pp_restart_attempts p = k.

Lemma committed_attempts c r : committed_as c r -> pp_restart_attempts r = pp_restart_attempts c.
Proof. intros (v & g & ->). by destruct c. Qed.
Lemma committed_session c r : committed_as c r -> pp_session_id r = pp_session_id c.
Proof. intros (v & g & ->). by destruct c. Qed.

Lemma upsert_attempts slot k p (s : S) r s' :
  attempts_are slot k s -> pp_restart_attempts p = k -> upsert_process p s = (r, s') -> attempts_are slot k s'.
Proof.
  intros [Hok (q & Hq & Hk)] Hp H. split; [by eapply keeps_upsert|].
  unfold upsert_process in H. destruct (compare_and_set _ _) as [x t] eqn:Ec. injection H as <- <-. cbn.
  destruct x as [c|e].
  - destruct (decide (sl_session_id slot = pp_session_id p)) as [->|Hne].
    + destruct (cas_Ok_read _ _ _ _ Hok Ec) as [Hc Hread]. exists c. split; [done|].
      by rewrite (committed_attempts _ _ Hc).
    + exists q. split; [|done]. by rewrite (cas_Ok_other _ _ _ _ _ Hok Ec).
  - destruct (cas_Err_read _ _ _ _ (sl_session_id slot) Hok Ec) as [->|(-> & c & Hc & Hread)]; [by exists q|].
    exists c. split; [done|]. by rewrite (committed_attempts _ _ Hc).
Qed.

Lemma update_slot_attempts slot f k (s : S) r s' :
  (forall p p', f p = Ok p' -> pp_restart_attempts p' = pp_restart_attempts p) ->
  attempts_are slot k s -> update_slot slot f s = (r, s') -> attempts_are slot k s'.
Proof.
  intros Hf Ha H. pose proof Ha as [Hok (p & Hp & Hk)]. unfold update_slot, run_bind, read_process, run_lift in H.
  rewrite Hp in H. destruct (ensure_slot_matches_snapshot slot p); [|by injection H as _ <-].
  destruct (f p) as [p'|] eqn:E; [|by injection H as _ <-].
  eapply upsert_attempts; [done| |done]. by rewrite (Hf _ _ E).
Qed.

Lemma unless_draining_keeps {X} P what slot (m : Run S X) :
  keeps P m -> keeps P (unless_draining what slot m).
Proof. intros H. unfold unless_draining. keeps_solve. Qed.

(** The rest of a completion that answers: the slot was active, its snapshot
    is released and committed. *)
Lemma complete_Ok slot outcome released opened (s : S) c s' :
  supervisor_ok s -> complete slot outcome released opened s = (Ok c, s') ->
  exists p p1 p2,
    read_session (sv_table s) (sl_session_id slot) = Ok p /\ pp_active p = true /\
    release_process p (oc_health outcome) (oc_last_error outcome) released = Ok p1 /\
    (if is_none (pp_last_error p1) && String.eqb (pp_health p1) "completed" then mark_stable_success p1 else Ok p1)
      = Ok p2 /\
    pp_restart_attempts c = pp_restart_attempts p2 /\ pp_session_id c = pp_session_id p2 /\
    pp_active c = pp_active p2 /\ pp_adapter_id c = pp_adapter_id p2 /\
    read_session (sv_table s') (pp_session_id p2) = Ok c.
Proof.
  intros Hok H. unfold complete in H. apply run_bind_Ok in H as (p & s1 & [= Hr <-] & H).
  destruct (pp_active p) eqn:Ha; [|by apply run_lift_Ok in H as [? _]]. cbn [negb] in H.
  apply run_bind_Ok in H as (p1 & s2 & H1 & H). apply run_lift_Ok in H1 as [H1 ->].
  apply run_bind_Ok in H as (p2 & s2 & H2 & H). apply run_lift_Ok in H2 as [H2 ->].
  apply run_bind_Ok in H as (p3 & s3 & H3 & H). apply record_circuit_Ok in H3 as (Et & Ea & _ & Es & Ek & Eact & Ead).
  apply run_bind_Ok in H as (c' & s4 & H4 & H). unfold upsert_process in H4.
  destruct (compare_and_set _ _) as [x t] eqn:Ec. injection H4 as -> <-. rewrite Et in Ec.
  destruct (cas_Ok_read _ _ _ _ Hok Ec) as [Hc Hread]. rewrite Es in Hread.
  apply run_bind_Ok in H as ([] & s5 & H5 & [= -> <-]). exists p, p1, p2.
  assert (Hc' : pp_active c = pp_active p3 /\ pp_adapter_id c = pp_adapter_id p3)
    by (destruct Hc as (v & g & ->); by destruct p3). destruct Hc' as [Hca Hcd].
  split_and!; try done; [by rewrite (committed_attempts _ _ Hc)|by rewrite (committed_session _ _ Hc)|congruence|congruence|].
  unfold on_admission, with_admission in H5. cbn in H5. destruct (sv_admission s3) as [table|].
  - destruct (sl_admission_reservation_id slot); [|done]. destruct (adm_release_owned _ _ _ _). by injection H5 as _ <-.
  - by injection H5 as <-.
Qed.
End TableOk.
#[export] Hint Resolve keeps_read keeps_processes keeps_upsert keeps_on_admission keeps_update_slot : runs.

Lemma registered_process_Ok identity slot now p q :
  registered_process identity slot now p = Ok q ->
  same_session p q /\ pp_restart_attempts q = pp_restart_attempts p /\
  (pp_restart_state p = "starting" /\ pp_active q = true /\ pp_restart_state q = "running" \/
   pp_restart_state p <> "starting" /\ pp_active p = true /\ pp_active q = true /\
   pp_restart_state q = pp_restart_state p).
Proof.
  unfold registered_process. intros H. apply reject_Ok in H as [H1 H]. apply reject_Ok in H as [_ H].
  destruct (set_process_identity _ _ _ _ _ _) as [p1|] eqn:E1; [|done].
  apply set_process_identity_Ok in E1 as (S1 & K1 & A1 & R1 & _).
  destruct (String.eqb (pp_restart_state p) "starting") eqn:Es.
  - apply String.eqb_eq in Es. destruct (mark_restart_running p1 now) as [p2|] eqn:E2; [|done].
    apply mark_restart_running_Ok in E2 as (S2 & K2 & _ & A2 & R2). injection H as <-.
    assert (S3 := same_session_trans _ _ _ S1 S2). split_and!; [by destruct p2|destruct p2; cbn in *; congruence|].
    left. by destruct p2.
  - apply String.eqb_neq in Es. injection H as <-. rewrite andb_true_r in H1. reflect_bools.
    split_and!; [by destruct p1|by destruct p1|]. right. split_and!; [done|done|destruct p1; cbn in *; congruence|by destruct p1].
Qed.

(** ** A probe that is not given back *)

Section Probe.
Context {T A : Type} `{!ProviderProcessTable T, !ProviderAdmissionTable A}.
Abbreviation S := (ProviderSupervisor T A).

(** The circuit of an adapter is open and its one probe is taken. *)
Definition probe_taken (adapter : AdapterId) (s : S) : Prop :=
  exists st, sv_circuit_states s !! adapter = Some st /\ is_some (cs_opened_at_ms st) = true /\
    cs_half_open_probe_active st = true.

(** The circuit of an adapter is open, and a request at [now] may probe it. *)
Definition probe_due (config : AdapterCircuitBreaker) (adapter : AdapterId) (now : N) (s : S) : Prop :=
  exists st opened, sv_circuit_states s !! adapter = Some st /\ cs_opened_at_ms st = Some opened /\
    cs_half_open_probe_active st = false /\ (cb_recovery_window_ms config <= now - opened)%N.

(** The request's session is one the table does not know. *)
Definition new_session (s : S) (request : ProviderExecutionRequest) : Prop :=
  exists error, read_session (sv_table s) (session_id (rq_request_id request) (rq_adapter_id request)) = Err error /\
    err_kind error = NotFound.

Definition circuit_open_error {X} (r : Res X) : Prop :=
  match r with Ok _ => False | Err error => err_provider_code error = Some "provider_circuit_open" end.

(** What is asked of the supervisor, with the readings of the clock. *)
Inductive SupervisorCall :=
| SupAcquire (request : ProviderExecutionRequest) (clock : string -> N) (now started : N)
| SupComplete (slot : ProviderExecutionSlot) (outcome : ProviderExecutionOutcome) (released opened : N)
| SupRenew (slot : ProviderExecutionSlot) (now : N)
| SupScheduleRestart (slot : ProviderExecutionSlot) (attempt due_at_ms : N) (reason : string) (now : N)
| SupPrepareRestart (slot : ProviderExecutionSlot) (now : N)
| SupExhaustRestart (slot : ProviderExecutionSlot) (reason : string) (now : N)
| SupFailRestart (slot : ProviderExecutionSlot) (reason : string) (now : N)
| SupRegister (slot : ProviderExecutionSlot) (identity : ProcessIdentity) (now : N).

Definition supervisor_call (c : SupervisorCall) (s : S) : S :=
  match c with
  | SupAcquire request clock now started => (acquire request clock now started s).2
  | SupComplete slot outcome released opened => (complete slot outcome released opened s).2
  | SupRenew slot now => (renew_admission slot now s).2
  | SupScheduleRestart slot attempt due_at_ms reason now => (schedule_restart slot attempt due_at_ms reason now s).2
  | SupPrepareRestart slot now => (prepare_restart slot now s).2
  | SupExhaustRestart slot reason now => (exhaust_restart slot reason now s).2
  | SupFailRestart slot reason now => (fail_restart slot reason now s).2
  | SupRegister slot identity now => (register_process_identity slot identity now s).2
  end.
Definition supervisor_run (calls : list SupervisorCall) (s : S) : S := foldl (fun s c => supervisor_call c s) s calls.

(** The call completes an invocation of the adapter. *)
Definition completes_for (adapter : AdapterId) (c : SupervisorCall) : bool :=
  match c with SupComplete slot _ _ _ => bool_decide (sl_adapter_id slot = adapter) | _ => false end.

Lemma acquire_new_session request clock now started (s : S) :
  sv_admission s = None -> sv_draining s = false -> new_session s request ->
  acquire request clock now started s = acquire_new request now started s.
Proof.
  intros Ha Hd (error & Hr & Hk).
  unfold acquire, reconcile_pending_admission_releases, run_bind, run_get, run_try, read_process, run_ret.
  rewrite Ha, Hd, Hr. by destruct (decide _).
Qed.

(** While the probe is taken no new session is admitted. *)
Lemma probe_taken_blocks request clock now started (s : S) :
  probe_taken (rq_adapter_id request) s -> is_some (rq_circuit_breaker request) = true ->
  sv_admission s = None -> sv_draining s = false -> new_session s request ->
  circuit_open_error (acquire request clock now started s).1.
Proof.
  intros (st & Hst & Ho & Hp) Hb Ha Hd Hn. rewrite acquire_new_session by done.
  unfold acquire_new, admit_circuit. destruct (rq_circuit_breaker request) as [config|]; [|done].
  unfold run_bind, run_get, run_set, run_lift. rewrite Hst. destruct st as [n [opened|] probe th]; [|done]. cbn in Hp. subst probe.
  cbn. by rewrite andb_false_r.
Qed.

(** What the concurrency and rate checks leave alone. *)
Lemma admit_concurrency_state request (s : S) r s' : admit_concurrency request s = (r, s') -> s' = s.
Proof.
  unfold admit_concurrency, active_for_adapter, run_bind, processes, run_ret, run_lift.
  destruct (rq_max_concurrency request); [|by intros [= _ <-]].
  destruct (list_sessions (sv_table s)); [|by intros [= _ <-]]. destruct (_ <=? _)%N; by intros [= _ <-].
Qed.

Lemma admit_rate_limit_state request now (s : S) r s' :
  admit_rate_limit request now s = (r, s') ->
  sv_table s' = sv_table s /\ sv_circuit_states s' = sv_circuit_states s /\
  sv_admission s' = sv_admission s /\ sv_draining s' = sv_draining s.
Proof.
  unfold admit_rate_limit, run_bind, run_get, run_set, run_ret, run_lift.
  destruct (rq_rate_limit request); [|by intros [= _ <-]]. destruct (_ <=? _)%N; by intros [= _ <-].
Qed.

(** *** It stays taken *)

Definition stays_taken (adapter : AdapterId) (s : S) : Prop :=
  probe_taken adapter s /\ sv_admission s = None /\ sv_draining s = false.

Section Stays.
Context (adapter : AdapterId).
Abbreviation P := (stays_taken adapter).

Lemma stays_read session : keeps P (read_process session).
Proof. by intros s r s' H [= _ <-]. Qed.
Lemma stays_processes : keeps P processes.
Proof. by intros s r s' H [= _ <-]. Qed.
Lemma stays_upsert p : keeps P (upsert_process p).
Proof. intros s r s' H. unfold upsert_process. destruct (compare_and_set _ _). by intros [= _ <-]. Qed.
Lemma stays_on_admission {X} (absent : Run S X) call : keeps P absent -> keeps P (on_admission absent call).
Proof. intros Hk s r s' H E. unfold on_admission in E. rewrite (proj1 (proj2 H)) in E. by eapply Hk. Qed.
Lemma stays_reconcile clock : keeps P (reconcile_pending_admission_releases clock).
Proof.
  intros s r s' H. unfold reconcile_pending_admission_releases, run_bind, run_get. rewrite (proj1 (proj2 H)). by intros [= _ <-].
Qed.
Lemma stays_circuit_state other st s :
  P s -> (other = adapter -> is_some (cs_opened_at_ms st) = true /\ cs_half_open_probe_active st = true) ->
  P (s <| sv_circuit_states := <[other := st]> (sv_circuit_states s) |>).
Proof.
  intros ((st0 & H0 & Ho & Hp) & Ha & Hd) Hst. split; [|done]. destruct (decide (other = adapter)) as [->|Hne].
  - exists st. split; [cbn; apply lookup_insert_eq|by apply Hst].
  - exists st0. split; [cbn; by rewrite lookup_insert_ne|done].
Qed.
Lemma stays_circuit request now : keeps P (admit_circuit request now).
Proof.
  unfold admit_circuit. destruct (rq_circuit_breaker request) as [config|]; [|apply keeps_ret].
  intros s r s' H. unfold run_bind at 1, run_get.
  set (st := (default circuit_default (sv_circuit_states s !! rq_adapter_id request)) <| cs_failure_threshold := _ |>).
  assert (Hst : rq_adapter_id request = adapter -> is_some (cs_opened_at_ms st) = true /\ cs_half_open_probe_active st = true).
  { intros E. destruct H as ((st0 & H0 & Ho & Hp) & _). subst st. rewrite E, H0. by destruct st0. }
  clearbody st. unfold run_bind at 1, run_set at 1. pose proof (stays_circuit_state _ st s H Hst) as H1.
  set (s1 := s <| sv_circuit_states := _ |>) in *.
  destruct (cs_opened_at_ms st) as [opened|] eqn:Eo; [|by intros [= _ <-]].
  destruct (_ && negb (cs_half_open_probe_active st)) eqn:Ep; [|by intros [= _ <-]].
  apply andb_true_iff in Ep as [_ Ep%negb_true_iff]. unfold run_bind, run_set, run_ret. intros [= _ <-].
  apply stays_circuit_state; [done|]. intros E. destruct (Hst E) as [_ ?]. congruence.
Qed.
Lemma stays_concurrency request : keeps P (admit_concurrency request).
Proof. intros s r s' H ->%admit_concurrency_state. done. Qed.
Lemma stays_rate request now : keeps P (admit_rate_limit request now).
Proof.
  intros s r s' ((st & Hp) & Ha & Hd) E. apply admit_rate_limit_state in E as (_ & Ec & Ea & Ed).
  split; [exists st; by rewrite Ec|]. by rewrite Ea, Ed.
Qed.

Hint Resolve stays_read stays_processes stays_upsert stays_on_admission stays_reconcile stays_circuit stays_concurrency
  stays_rate keeps_ret keeps_lift keeps_get keeps_try : keeps.
Ltac keep := repeat first [progress eauto with keeps|apply keeps_bind; [|intros ?]|progress case_match].

Lemma stays_acquire request clock now started : keeps P (acquire request clock now started).
Proof. unfold acquire, acquire_restart, acquire_new. keep. Qed.
Lemma stays_outcome slot p now : sl_adapter_id slot <> adapter -> keeps P (record_circuit_outcome slot p now).
Proof.
  intros Hne. unfold record_circuit_outcome. apply keeps_bind; [apply keeps_get|]. intros states.
  assert (Hput : forall st, keeps P (run_set (fun s => s <| sv_circuit_states := <[sl_adapter_id slot := st]> (sv_circuit_states s) |>))).
  { intros st. apply keeps_set. intros s H. by apply stays_circuit_state. }
  case_match; [|apply keeps_ret]. case_match; [apply keeps_bind; [apply Hput|intros; apply keeps_ret]|].
  case_match; (apply keeps_bind; [apply Hput|intros; apply keeps_ret]).
Qed.
Hint Resolve stays_acquire stays_outcome : keeps.

Lemma stays_call c s : completes_for adapter c = false -> P s -> P (supervisor_call c s).
Proof.
  assert (Hk : forall {X} (m : Run S X), keeps P m -> P s -> P (m s).2).
  { intros X m Hm H. destruct (m s) as [r s'] eqn:E. by eapply Hm. }
  intros Hc. destruct c as [| slot | | | | | |]; cbn [supervisor_call]; apply Hk.
  all: unfold complete, renew_admission, schedule_restart, prepare_restart, exhaust_restart, fail_restart,
    register_process_identity, unless_draining, update_slot.
  2: cbn in Hc; apply bool_decide_eq_false in Hc.
  all: keep.
Qed.
End Stays.

Lemma stays_run adapter calls s : Forall (fun c => completes_for adapter c = false) calls ->
  stays_taken adapter s -> stays_taken adapter (supervisor_run calls s).
Proof.
  intros Hc. revert s. induction Hc as [|c calls Hc _ IH]; intros s H; [done|]. apply IH. by apply stays_call.
Qed.

Lemma probe_due_admitted request config now (s : S) :
  rq_circuit_breaker request = Some config -> probe_due config (rq_adapter_id request) now s ->
  exists s', admit_circuit request now s = (Ok true, s') /\ probe_taken (rq_adapter_id request) s' /\
    sv_table s' = sv_table s /\ sv_admission s' = sv_admission s /\ sv_draining s' = sv_draining s /\
    sv_rate_windows s' = sv_rate_windows s.
Proof.
  intros Hb (st & opened & Hst & Ho & Hp & Hw). unfold admit_circuit. rewrite Hb.
  unfold run_bind at 1, run_get. cbn beta. rewrite Hst. destruct st as [n op probe th]. cbn in Ho, Hp. subst op probe.
  apply N.leb_le in Hw. cbn. rewrite Hw. eexists. split; [reflexivity|]. split; [|done].
  eexists. split; [cbn; apply lookup_insert_eq|]. done.
Qed.

(** The two checks after the circuit's. *)
Definition within_limits (request : ProviderExecutionRequest) (now : N) (s : S) : bool :=
  is_ok (admit_concurrency request s).1 && is_ok (admit_rate_limit request now s).1.

Lemma rejected_probe_taken request config clock now started (s : S) :
  rq_circuit_breaker request = Some config -> probe_due config (rq_adapter_id request) now s ->
  sv_admission s = None -> sv_draining s = false -> new_session s request -> within_limits request now s = false ->
  exists error s', acquire request clock now started s = (Err error, s') /\
    probe_taken (rq_adapter_id request) s' /\
    sv_table s' = sv_table s /\ sv_admission s' = None /\ sv_draining s' = false.
Proof.
  intros Hb Hdue Ha Hd Hn Hl. rewrite acquire_new_session by done. unfold acquire_new.
  destruct (probe_due_admitted _ _ _ _ Hb Hdue) as (s1 & E1 & Hprobe & Et & Ea & Ed & Ew).
  unfold run_bind at 1. rewrite E1. cbv beta. unfold run_bind at 1. unfold within_limits in Hl.
  assert (Ec : (admit_concurrency request s1).1 = (admit_concurrency request s).1).
  { unfold admit_concurrency, active_for_adapter, run_bind, processes, run_ret, run_lift.
    destruct (rq_max_concurrency request); [|done]. rewrite Et. destruct (list_sessions _); [|done]. by destruct (_ <=? _)%N. }
  assert (Er : (admit_rate_limit request now s1).1 = (admit_rate_limit request now s).1).
  { unfold admit_rate_limit, run_bind, run_get, run_set, run_ret, run_lift.
    destruct (rq_rate_limit request); [|done]. rewrite Ew. by destruct (_ <=? _)%N. }
  rewrite <- Ec, <- Er in Hl. destruct (admit_concurrency request s1) as [[u|error] s2] eqn:E2;
    apply admit_concurrency_state in E2 as ->; [|eexists _, s1; split_and!; try reflexivity; congruence].
  cbn in Hl. unfold run_bind at 1. destruct (admit_rate_limit request now s1) as [[u'|error] s2] eqn:E3; [done|].
  apply admit_rate_limit_state in E3 as (Et2 & Ec2 & Ea2 & Ed2). eexists _, s2. split; [reflexivity|].
  split_and!; try congruence. unfold probe_taken. by rewrite Ec2.
Qed.
End Probe.


(** One failure opens the circuit for 10 ms, the rate limit is one request in
    1000 ms: the probe at 50 ms is over it. *)
Module RejectedProbe.
Definition request (id : string) : ProviderExecutionRequest := {|
  rq_request_id := MkId id; rq_adapter_id := MkId "adapter-1";
  rq_capability := MkCapabilityName "text.summarise" ["text"; "summarise"];
  rq_transport := TrStdio; rq_manifest_digest := "sha256:0"; rq_start_command := "run";
  rq_provider := MkProviderConfig (MkRestartConfig RestartNone 0 0) RunAsCurrent [];
  rq_max_concurrency := Some 1%N; rq_rate_limit := Some (MkRateLimit 1 1000);
  rq_circuit_breaker := Some (MkCircuitBreaker 1 10); rq_retry_backoff_ms := None |}.

#[local] Instance no_admissions : ProviderAdmissionTable AdmissionDisk := disk_admission_table id.
Abbreviation Sup := (ProviderSupervisor InMemoryProviderProcessTable AdmissionDisk).
Definition clock (_ : string) : N := 0.

Definition first_run : Run Sup ProviderProcessSnapshot :=
  do? slot := acquire (request "req-1") clock 0 0 in
  complete slot (MkOutcome "failed" (Some "crashed")) 1 1.
Definition opened : Sup := (first_run (supervisor_new (MkMemTable ∅) None)).2.

(** Another request that is refused, and one that would come much later. *)
Definition calls : list SupervisorCall := [SupAcquire (request "req-3") clock 5000 5000].
Definition after_rejection : Sup := supervisor_run calls (acquire (request "req-2") clock 50 50 opened).2.

Lemma opened_circuit :
  sv_circuit_states opened !! (MkId "adapter-1" : AdapterId) = Some (MkCircuitState 1 (Some 1%N) false 1).
Proof. vm_compute. reflexivity. Qed.

Definition unknown (r : Res ProviderProcessSnapshot) : bool :=
  match r with Ok _ => false | Err error => bool_decide (err_kind error = NotFound) end.
Lemma unknown_session (s : Sup) id :
  unknown (read_session (sv_table s) (session_id (MkId id) (MkId "adapter-1"))) = true -> new_session s (request id).
Proof.
  unfold new_session. cbn [request rq_request_id rq_adapter_id].
  destruct (read_session _ _) as [p|error]; [done|]. intros H. exists error. split; [done|]. by apply bool_decide_eq_true in H.
Qed.
End RejectedProbe.

