(* ===== verification/TaskStorage.v ===== *)
(** * The durable task record format (crates/eva-storage/src/task_state.rs, 848-1361, 3424-3701)

    [to_storage] writes one [key=value] line per scalar field and one line
    per log, dead letter and replayed event; [from_storage] reads the lines in
    any order, refuses a repeated scalar, and then checks the format version
    against the fields it saw.  The chain of [strip_prefix] tests of the
    reader is the table [LINE_HANDLERS], tried in order. *)

From Stdlib Require Import Ascii.
From stdpp Require Import base numbers strings gmap list.
From S2P Require Import Prelude RustStr Error Ids Digest Durable TaskState.
From S2P Require Import TaskTransition TaskAccept FieldEscape.

Definition TASK_STATE_FORMAT_V2 : string := "eva.task-state.v2".
Definition TASK_STATE_FORMAT_V3 : string := "eva.task-state.v3".
Definition TASK_STATE_FORMAT_V4 : string := "eva.task-state.v4".
Definition TASK_STATE_FORMAT_V5 : string := "eva.task-state.v5".

(** ** Field codecs *)

Definition stored_error (name value : string) : EvaError :=
  invalid_argument "stored task field is not an unsigned integer"
    ⊕ ("field", name) ⊕ ("value", value).

Definition parse_stored_usize (name value : string) : Res N :=
  ok_or (parse_unsigned usize_max value) (stored_error name value).
Definition parse_optional_stored_usize (name value : string) : Res (option N) :=
  if str_is_empty value then Ok None else result_map Some (parse_stored_usize name value).
Definition parse_stored_u32 (name value : string) : Res N :=
  ok_or (parse_unsigned u32_max value)
    (invalid_argument "stored task field is not an unsigned 32-bit integer"
       ⊕ ("field", name) ⊕ ("value", value)).
Definition parse_stored_u64 (name value : string) : Res N :=
  ok_or (parse_unsigned u64_max value) (stored_error name value).
Definition parse_optional_stored_u64 (name value : string) : Res (option N) :=
  if str_is_empty value then Ok None else result_map Some (parse_stored_u64 name value).
Definition parse_optional_stored_u128 (name value : string) : Res (option N) :=
  if str_is_empty value then Ok None
  else result_map Some (ok_or (parse_unsigned u128_max value) (stored_error name value)).
Definition parse_optional_stored_bool (name value : string) : Res (option bool) :=
  if str_is_empty value then Ok None
  else if String.eqb value "true" then Ok (Some true)
  else if String.eqb value "false" then Ok (Some false)
  else Err (invalid_argument "task state contains an invalid optional boolean"
              ⊕ ("field", name) ⊕ ("value", value)).

Definition decode_optional_field (value : string) : option string :=
  if str_is_empty value then None else Some (decode_field value).

Definition decode_hex (value field : string) : Res string :=
  let error := invalid_argument "task state binary field is not canonical lowercase hex"
                 ⊕ ("field", field) in
  reject negb (N.even (str_len value)) || negb (bytes_all is_lower_hex value) with error else
  ok_or (hex_decode_pairs value) error.

Definition split_stored_fields (value : string) (expected : nat) (field : string) :
    Res (list string) :=
  let parts := split "|" value in
  reject negb (length parts =? expected)%nat with
    invalid_argument "task state field has invalid arity" ⊕ ("field", field)
      ⊕ ("expected", n_to_string (N.of_nat expected))
      ⊕ ("actual", n_to_string (len parts)) else
  Ok parts.

Definition required_stored_field {A} (value : option A) (field : string) : Res A :=
  ok_or value (invalid_argument "task state is missing an envelope scalar field"
                 ⊕ ("field", field)).

(** ** Writing *)

(** [map(..).unwrap_or_default()] *)
Definition opt_field {A} (f : A -> string) (o : option A) : string :=
  match o with Some a => f a | None => "" end.

(** Input kind, inline hex, artifact reference and digest. *)
Definition input_fields (i : TaskInputSnapshot) : string * string * string * string :=
  match i with
  | InputInline bytes digest => ("inline", hex_encode bytes, "", digest)
  | InputArtifact artifact_ref digest => ("artifact", "", encode_field artifact_ref, digest)
  end.

Definition envelope_fields (t : TaskStateSnapshot) (e : TaskEnvelopeSnapshot) : Fields :=
  let '(input_kind, inline_input_hex, artifact_ref, input_digest) := input_fields (env_input e) in
  let p := env_attempt_policy e in
  [ ("envelope_kind", encode_field (env_kind e));
    ("envelope_agent_id", encode_field (env_agent_id e));
    ("envelope_input_kind", input_kind);
    ("envelope_inline_input_hex", inline_input_hex);
    ("envelope_artifact_ref", artifact_ref);
    ("envelope_input_digest", input_digest);
    ("envelope_idempotency_key", encode_field (env_idempotency_key e));
    ("envelope_max_attempts", n_to_string (ap_max_attempts p));
    ("envelope_retry_backoff_ms", n_to_string (ap_retry_backoff_ms p));
    ("envelope_attempt_timeout_ms", opt_field n_to_string (ap_attempt_timeout_ms p));
    ("execution_owner", opt_field encode_field (ts_execution_owner t));
    ("result_digest", opt_field id (ts_result_digest t));
    ("result_size_bytes", opt_field n_to_string (ts_result_size_bytes t));
    ("replay_event_id",
       opt_field (fun r => encode_field (rd_replay_event_id r)) (ts_replay_delivery t));
    ("replay_delivery_index",
       opt_field (fun r => n_to_string (rd_delivery_index r)) (ts_replay_delivery t));
    ("error_retryable", opt_field bool_to_string (ts_error_retryable t));
    ("retry_ready_at_ms", opt_field n_to_string (ts_retry_ready_at_ms t)) ].

Definition head_fields (t : TaskStateSnapshot) : Fields :=
  [ ("format", match ts_envelope t with
               | Some _ => TASK_STATE_FORMAT_V5 | None => TASK_STATE_FORMAT_V2 end);
    ("record_version", n_to_string (ts_record_version t));
    ("owner_generation", n_to_string (ts_owner_generation t));
    ("task_id", encode_field (ts_task_id t));
    ("status", encode_field (ts_status t));
    ("attempts", n_to_string (ts_attempts t));
    ("retry_max_attempts", n_to_string (ts_retry_max_attempts t)) ].

Definition tail_fields (t : TaskStateSnapshot) : Fields :=
  [ ("cancel_requested", bool_to_string (ts_cancel_requested t));
    ("cancel_accepted", bool_to_string (ts_cancel_accepted t));
    ("cancel_reason", opt_field encode_field (ts_cancel_reason t));
    ("heartbeat_at_ms", opt_field n_to_string (ts_heartbeat_at_ms t));
    ("deadline_at_ms", opt_field n_to_string (ts_deadline_at_ms t));
    ("cancel_token", opt_field encode_field (ts_cancel_token t));
    ("interrupted_reason", opt_field encode_field (ts_interrupted_reason t));
    ("error_kind", opt_field encode_field (ts_error_kind t));
    ("error_message", opt_field encode_field (ts_error_message t)) ].

Definition log_field (l : TaskStateLogSnapshot) : string * string :=
  ("log", n_to_string (tl_sequence l) +:+ "|" +:+ encode_field (tl_level l) +:+ "|"
            +:+ encode_field (tl_message l)).
Definition dead_letter_field (d : TaskStateDeadLetterSnapshot) : string * string :=
  ("dead_letter", encode_field (td_event_id d) +:+ "|" +:+ encode_field (td_topic d) +:+ "|"
     +:+ encode_field (td_reason_kind d) +:+ "|" +:+ encode_field (td_reason d) +:+ "|"
     +:+ n_to_string (td_replay_count d)).
Definition replay_field (r : TaskStateReplaySnapshot) : string * string :=
  ("replay", encode_field (tr_event_id r) +:+ "|" +:+ n_to_string (tr_sequence r) +:+ "|"
     +:+ encode_field (tr_topic r)).

Definition task_fields (t : TaskStateSnapshot) : Fields :=
  head_fields t
  ++ match ts_envelope t with Some e => envelope_fields t e | None => [] end
  ++ tail_fields t ++ (log_field <$> ts_logs t) ++ (dead_letter_field <$> ts_dead_letters t)
  ++ (replay_field <$> ts_replayed_events t).

Definition to_storage (t : TaskStateSnapshot) : string :=
  join (str nl) ((field_line <$> task_fields t) ++ [""]).

(** ** Reading *)

(** The local variables of [from_storage] besides the scalars it saw. *)
Record TaskReader := MkReader {
  tr_snapshot : TaskStateSnapshot;
  tr_format : option string;
  tr_kind : option string;
  tr_agent_id : option string;
  tr_input_kind : option string;
  tr_inline_input_hex : option string;
  tr_artifact_ref : option string;
  tr_input_digest : option string;
  tr_idempotency_key : option string;
  tr_max_attempts : option N;
  tr_retry_backoff_ms : option N;
  tr_attempt_timeout_ms : option (option N);
  tr_replay_event_id : option (option string);
  tr_replay_delivery_index : option (option N)
}.
#[export] Instance TaskReader_eta : Eta TaskReader := fun r =>
  MkReader (tr_snapshot r) (tr_format r) (tr_kind r) (tr_agent_id r) (tr_input_kind r)
    (tr_inline_input_hex r) (tr_artifact_ref r) (tr_input_digest r) (tr_idempotency_key r)
    (tr_max_attempts r) (tr_retry_backoff_ms r) (tr_attempt_timeout_ms r) (tr_replay_event_id r)
    (tr_replay_delivery_index r).

Definition reader_new : TaskReader :=
  MkReader (blank_task "" "") None None None None None None None None None None None None None.

Definition is_single_task_field (field : string) : bool :=
  is_one_of field
    [ "format"; "record_version"; "owner_generation"; "task_id"; "status"; "attempts";
      "execution_owner"; "retry_max_attempts"; "envelope_kind"; "envelope_agent_id";
      "envelope_input_kind"; "envelope_inline_input_hex"; "envelope_artifact_ref";
      "envelope_input_digest"; "envelope_idempotency_key"; "envelope_max_attempts";
      "envelope_retry_backoff_ms"; "envelope_attempt_timeout_ms"; "replay_event_id";
      "replay_delivery_index"; "error_retryable"; "retry_ready_at_ms"; "cancel_requested";
      "cancel_accepted"; "cancel_reason"; "heartbeat_at_ms"; "deadline_at_ms"; "cancel_token";
      "result_digest"; "result_size_bytes"; "interrupted_reason"; "error_kind"; "error_message" ].

Definition LineHandler : Type := TaskReader -> string -> Res TaskReader.

Definition set_snapshot (f : TaskStateSnapshot -> TaskStateSnapshot) (r : TaskReader) : TaskReader :=
  r <| tr_snapshot := f (tr_snapshot r) |>.

(** [if let Some(value) = line.strip_prefix("<key>=") { .. } else if ..], in
    the order of the source. *)
Definition LINE_HANDLERS : list (string * LineHandler) :=
  [ ("format", fun r v => Ok (r <| tr_format := Some v |>));
    ("record_version", fun r v => let? n := parse_stored_u64 "record_version" v in
       Ok (set_snapshot (fun t => t <| ts_record_version := n |>) r));
    ("owner_generation", fun r v => let? n := parse_stored_u64 "owner_generation" v in
       Ok (set_snapshot (fun t => t <| ts_owner_generation := n |>) r));
    ("task_id", fun r v => Ok (set_snapshot (fun t => t <| ts_task_id := decode_field v |>) r));
    ("status", fun r v => Ok (set_snapshot (fun t => t <| ts_status := decode_field v |>) r));
    ("attempts", fun r v => let? n := parse_stored_usize "attempts" v in
       Ok (set_snapshot (fun t => t <| ts_attempts := n |>) r));
    ("execution_owner", fun r v =>
       Ok (set_snapshot (fun t => t <| ts_execution_owner := decode_optional_field v |>) r));
    ("retry_max_attempts", fun r v => let? n := parse_stored_usize "retry_max_attempts" v in
       Ok (set_snapshot (fun t => t <| ts_retry_max_attempts := n |>) r));
    ("envelope_kind", fun r v => Ok (r <| tr_kind := Some (decode_field v) |>));
    ("envelope_agent_id", fun r v => Ok (r <| tr_agent_id := Some (decode_field v) |>));
    ("envelope_input_kind", fun r v => Ok (r <| tr_input_kind := Some v |>));
    ("envelope_inline_input_hex", fun r v => Ok (r <| tr_inline_input_hex := Some v |>));
    ("envelope_artifact_ref", fun r v => Ok (r <| tr_artifact_ref := Some (decode_field v) |>));
    ("envelope_input_digest", fun r v => Ok (r <| tr_input_digest := Some v |>));
    ("envelope_idempotency_key", fun r v =>
       Ok (r <| tr_idempotency_key := Some (decode_field v) |>));
    ("envelope_max_attempts", fun r v => let? n := parse_stored_u32 "envelope_max_attempts" v in
       Ok (r <| tr_max_attempts := Some n |>));
    ("envelope_retry_backoff_ms", fun r v =>
       let? n := parse_stored_u64 "envelope_retry_backoff_ms" v in
       Ok (r <| tr_retry_backoff_ms := Some n |>));
    ("envelope_attempt_timeout_ms", fun r v =>
       let? n := parse_optional_stored_u64 "envelope_attempt_timeout_ms" v in
       Ok (r <| tr_attempt_timeout_ms := Some n |>));
    ("replay_event_id", fun r v => Ok (r <| tr_replay_event_id := Some (decode_optional_field v) |>));
    ("replay_delivery_index", fun r v =>
       let? n := parse_optional_stored_usize "replay_delivery_index" v in
       Ok (r <| tr_replay_delivery_index := Some n |>));
    ("error_retryable", fun r v => let? b := parse_optional_stored_bool "error_retryable" v in
       Ok (set_snapshot (fun t => t <| ts_error_retryable := b |>) r));
    ("retry_ready_at_ms", fun r v => let? n := parse_optional_stored_u128 "retry_ready_at_ms" v in
       Ok (set_snapshot (fun t => t <| ts_retry_ready_at_ms := n |>) r));
    ("cancel_requested", fun r v =>
       Ok (set_snapshot (fun t => t <| ts_cancel_requested := String.eqb v "true" |>) r));
    ("cancel_accepted", fun r v =>
       Ok (set_snapshot (fun t => t <| ts_cancel_accepted := String.eqb v "true" |>) r));
    ("cancel_reason", fun r v =>
       Ok (set_snapshot (fun t => t <| ts_cancel_reason := decode_optional_field v |>) r));
    ("heartbeat_at_ms", fun r v => let? n := parse_optional_stored_u128 "heartbeat_at_ms" v in
       Ok (set_snapshot (fun t => t <| ts_heartbeat_at_ms := n |>) r));
    ("deadline_at_ms", fun r v => let? n := parse_optional_stored_u128 "deadline_at_ms" v in
       Ok (set_snapshot (fun t => t <| ts_deadline_at_ms := n |>) r));
    ("cancel_token", fun r v =>
       Ok (set_snapshot (fun t => t <| ts_cancel_token := decode_optional_field v |>) r));
    ("result_digest", fun r v =>
       Ok (set_snapshot (fun t => t <| ts_result_digest := decode_optional_field v |>) r));
    ("result_size_bytes", fun r v =>
       let? n := parse_optional_stored_usize "result_size_bytes" v in
       Ok (set_snapshot (fun t => t <| ts_result_size_bytes := n |>) r));
    ("interrupted_reason", fun r v =>
       Ok (set_snapshot (fun t => t <| ts_interrupted_reason := decode_optional_field v |>) r));
    ("error_kind", fun r v =>
       Ok (set_snapshot (fun t => t <| ts_error_kind := decode_optional_field v |>) r));
    ("error_message", fun r v =>
       Ok (set_snapshot (fun t => t <| ts_error_message := decode_optional_field v |>) r));
    ("log", fun r v => let? parts := split_stored_fields v 3 "log" in
       let part i := nth i parts "" in
       let? sequence := parse_stored_u64 "log.sequence" (part 0) in
       Ok (set_snapshot (fun t => t <| ts_logs := ts_logs t
             ++ [MkTaskLog sequence (decode_field (part 1)) (decode_field (part 2))] |>) r));
    ("dead_letter", fun r v => let? parts := split_stored_fields v 5 "dead_letter" in
       let part i := nth i parts "" in
       let? replay_count := parse_stored_usize "dead_letter.replay_count" (part 4) in
       Ok (set_snapshot (fun t => t <| ts_dead_letters := ts_dead_letters t
             ++ [MkTaskDeadLetter (decode_field (part 0)) (decode_field (part 1))
                   (decode_field (part 2)) (decode_field (part 3)) replay_count] |>) r));
    ("replay", fun r v => let? parts := split_stored_fields v 3 "replay" in
       let part i := nth i parts "" in
       let? sequence := parse_stored_u64 "replay.sequence" (part 1) in
       Ok (set_snapshot (fun t => t <| ts_replayed_events := ts_replayed_events t
             ++ [MkTaskReplay (decode_field (part 0)) sequence (decode_field (part 2))] |>) r)) ].

(** The first handler whose prefix the line has; other lines are ignored. *)
Fixpoint handle_line (handlers : list (string * LineHandler)) (r : TaskReader) (line : string) :
    Res TaskReader :=
  match handlers with
  | [] => Ok r
  | (key, handler) :: handlers =>
      match strip_prefix (key +:+ "=") line with
      | Some value => handler r value
      | None => handle_line handlers r line
      end
  end.

Definition duplicate_scalar (seen : list string) (line : string) : option string :=
  match split_once "=" line with
  | Some (key, _) => if is_single_task_field key && is_one_of key seen then Some key else None
  | None => None
  end.
Definition note_scalar (seen : list string) (line : string) : list string :=
  match split_once "=" line with
  | Some (key, _) => if is_single_task_field key then key :: seen else seen
  | None => seen
  end.

Fixpoint read_task_lines (seen : list string) (r : TaskReader) (ls : list string) :
    Res (list string * TaskReader) :=
  match ls with
  | [] => Ok (seen, r)
  | line :: ls =>
      if str_is_empty (trim line) then read_task_lines seen r ls
      else match duplicate_scalar seen line with
      | Some key => Err (invalid_argument "task state contains a duplicate scalar field"
                           ⊕ ("field", key))
      | None =>
          let? r := handle_line LINE_HANDLERS r line in
          read_task_lines (note_scalar seen line) r ls
      end
  end.

Definition has_envelope_fields (r : TaskReader) : bool :=
  is_some (tr_kind r) || is_some (tr_agent_id r) || is_some (tr_input_kind r)
  || is_some (tr_inline_input_hex r) || is_some (tr_artifact_ref r) || is_some (tr_input_digest r)
  || is_some (tr_idempotency_key r) || is_some (tr_max_attempts r)
  || is_some (tr_retry_backoff_ms r) || is_some (tr_attempt_timeout_ms r).

Definition EXECUTION_FIELDS : list string := ["execution_owner"; "result_digest"; "result_size_bytes"].
Definition V5_FIELDS : list string :=
  ["replay_event_id"; "replay_delivery_index"; "error_retryable"; "retry_ready_at_ms"].

Definition require_seen (seen : list string) (message : string) (fields : list string) : Res unit :=
  try_each (fun field =>
    reject negb (is_one_of field seen) with invalid_argument message ⊕ ("field", field) else Ok tt)
    fields.

Definition read_input (input_kind inline_input_hex artifact_ref digest : string) :
    Res TaskInputSnapshot :=
  if String.eqb input_kind "inline" && str_is_empty artifact_ref then
    let? bytes := decode_hex inline_input_hex "envelope_inline_input_hex" in
    Ok (InputInline bytes digest)
  else if String.eqb input_kind "artifact" && str_is_empty inline_input_hex then
    Ok (InputArtifact artifact_ref digest)
  else if is_one_of input_kind ["inline"; "artifact"] then
    Err (invalid_argument "task envelope input discriminator has conflicting fields"
           ⊕ ("input_kind", input_kind))
  else Err (invalid_argument "task envelope input discriminator is unsupported"
              ⊕ ("input_kind", input_kind)).

Definition read_envelope (r : TaskReader) : Res TaskEnvelopeSnapshot :=
  let? kind := required_stored_field (tr_kind r) "envelope_kind" in
  let? agent_id := required_stored_field (tr_agent_id r) "envelope_agent_id" in
  let? input_kind := required_stored_field (tr_input_kind r) "envelope_input_kind" in
  let? inline_input_hex :=
    required_stored_field (tr_inline_input_hex r) "envelope_inline_input_hex" in
  let? artifact_ref := required_stored_field (tr_artifact_ref r) "envelope_artifact_ref" in
  let? digest := required_stored_field (tr_input_digest r) "envelope_input_digest" in
  let? idempotency_key :=
    required_stored_field (tr_idempotency_key r) "envelope_idempotency_key" in
  let? max_attempts := required_stored_field (tr_max_attempts r) "envelope_max_attempts" in
  let? retry_backoff_ms :=
    required_stored_field (tr_retry_backoff_ms r) "envelope_retry_backoff_ms" in
  let? attempt_timeout_ms :=
    required_stored_field (tr_attempt_timeout_ms r) "envelope_attempt_timeout_ms" in
  let? input := read_input input_kind inline_input_hex artifact_ref digest in
  let? policy := attempt_policy_new max_attempts retry_backoff_ms attempt_timeout_ms in
  envelope_new kind agent_id input idempotency_key policy.

Definition read_replay_delivery (r : TaskReader) : Res (option TaskReplayDeliverySnapshot) :=
  let? event_id := ok_or (tr_replay_event_id r)
    (invalid_argument "v5 task state is missing replay_event_id") in
  let? delivery_index := ok_or (tr_replay_delivery_index r)
    (invalid_argument "v5 task state is missing replay_delivery_index") in
  match event_id, delivery_index with
  | None, None => Ok None
  | Some event_id, Some delivery_index =>
      result_map Some (replay_delivery_new event_id delivery_index)
  | _, _ => Err (invalid_argument "replay delivery identity fields must appear together")
  end.

(** Formats 3 to 5: which later fields may and must be there, then the
    envelope and the replay marker. *)
Definition read_versioned (task_format : string) (seen : list string) (r : TaskReader) :
    Res TaskStateSnapshot :=
  let fmt_is f := String.eqb task_format f in
  let has_execution_fields := existsb (fun f => is_one_of f seen) EXECUTION_FIELDS in
  let has_v5_fields := existsb (fun f => is_one_of f seen) V5_FIELDS in
  reject fmt_is TASK_STATE_FORMAT_V3 && (has_execution_fields || has_v5_fields) with
    invalid_argument "v3 task state cannot contain later execution fields" else
  reject fmt_is TASK_STATE_FORMAT_V4 && has_v5_fields with
    invalid_argument "v4 task state cannot contain v5 replay or retry fields" else
  (if fmt_is TASK_STATE_FORMAT_V4 || fmt_is TASK_STATE_FORMAT_V5 then
     require_seen seen "task state is missing an execution scalar field" EXECUTION_FIELDS
   else Ok tt) >>?
  (if fmt_is TASK_STATE_FORMAT_V5 then
     require_seen seen "v5 task state is missing a replay or retry scalar field" V5_FIELDS
   else Ok tt) >>?
  (let? envelope := read_envelope r in
   let t := (tr_snapshot r) <| ts_envelope := Some envelope |> in
   if fmt_is TASK_STATE_FORMAT_V5 then
     let? marker := read_replay_delivery r in
     Ok (match marker with Some m => t <| ts_replay_delivery := Some m |> | None => t end)
   else Ok t).

Definition finish_reader (seen : list string) (r : TaskReader) : Res TaskStateSnapshot :=
  let t := tr_snapshot r in
  reject str_is_empty (ts_task_id t) || str_is_empty (ts_status t) with
    invalid_argument "task state file is incomplete" else
  let has_execution_fields := existsb (fun f => is_one_of f seen) EXECUTION_FIELDS in
  let has_v5_fields := existsb (fun f => is_one_of f seen) V5_FIELDS in
  let committed := negb (ts_record_version t =? 0)%N || (ts_owner_generation t =? 0)%N in
  let? t := match tr_format r with
    | None =>
        if (ts_record_version t =? 0)%N && (ts_owner_generation t =? 0)%N
           && negb (has_envelope_fields r) && negb has_execution_fields && negb has_v5_fields
        then Ok t
        else Err (invalid_argument "legacy task state cannot contain version metadata")
    | Some format =>
        if String.eqb format TASK_STATE_FORMAT_V2 && committed then
          reject has_envelope_fields r || has_execution_fields || has_v5_fields with
            invalid_argument "v2 task state cannot contain envelope or execution fields" else
          Ok t
        else if is_one_of format [TASK_STATE_FORMAT_V3; TASK_STATE_FORMAT_V4; TASK_STATE_FORMAT_V5]
                && committed then read_versioned format seen r
        else if is_one_of format [TASK_STATE_FORMAT_V2; TASK_STATE_FORMAT_V3; TASK_STATE_FORMAT_V4;
                                  TASK_STATE_FORMAT_V5] then
          Err (invalid_argument "uncommitted task state cannot have a durable owner generation")
        else Err (invalid_argument "task state format is unsupported" ⊕ ("format", format))
    end in
  task_validate t >>? Ok t.

Definition from_storage (data : string) : Res TaskStateSnapshot :=
  let? sr := read_task_lines [] reader_new (lines data) in finish_reader sr.1 sr.2.

(** ** Codec lemmas *)

Definition opt_le (max : N) (o : option N) : Prop := match o with Some n => (n <= max)%N | None => True end.

Lemma parse_stored_u64_ok name n : (n <= u64_max)%N -> parse_stored_u64 name (n_to_string n) = Ok n.
Proof. intros. unfold parse_stored_u64. by rewrite parse_unsigned_to_string. Qed.
Lemma parse_stored_usize_ok name n :
  (n <= usize_max)%N -> parse_stored_usize name (n_to_string n) = Ok n.
Proof. intros. unfold parse_stored_usize. by rewrite parse_unsigned_to_string. Qed.
Lemma parse_stored_u32_ok name n : (n <= u32_max)%N -> parse_stored_u32 name (n_to_string n) = Ok n.
Proof. intros. unfold parse_stored_u32. by rewrite parse_unsigned_to_string. Qed.

Lemma n_to_string_not_empty n : str_is_empty (n_to_string n) = false.
Proof. apply str_is_empty_false, n_to_string_nonempty. Qed.

Lemma parse_optional_u64_ok name o :
  opt_le u64_max o -> parse_optional_stored_u64 name (opt_field n_to_string o) = Ok o.
Proof.
  destruct o as [n|]; [|done]. intros. unfold parse_optional_stored_u64. cbn [opt_field].
  by rewrite n_to_string_not_empty, parse_stored_u64_ok.
Qed.
Lemma parse_optional_usize_ok name o :
  opt_le usize_max o -> parse_optional_stored_usize name (opt_field n_to_string o) = Ok o.
Proof.
  destruct o as [n|]; [|done]. intros. unfold parse_optional_stored_usize. cbn [opt_field].
  by rewrite n_to_string_not_empty, parse_stored_usize_ok.
Qed.
Lemma parse_optional_u128_ok name o :
  opt_le u128_max o -> parse_optional_stored_u128 name (opt_field n_to_string o) = Ok o.
Proof.
  destruct o as [n|]; [|done]. intros. unfold parse_optional_stored_u128. cbn [opt_field].
  by rewrite n_to_string_not_empty, parse_unsigned_to_string.
Qed.
Lemma parse_optional_bool_ok name o :
  parse_optional_stored_bool name (opt_field bool_to_string o) = Ok o.
Proof. by destruct o as [[]|]. Qed.
Lemma bool_field_ok b : String.eqb (bool_to_string b) "true" = b.
Proof. by destruct b. Qed.

Lemma decode_optional_ok o : o <> Some "" -> decode_optional_field (opt_field encode_field o) = o.
Proof.
  destruct o as [s|]; [|done]. intros Hs. unfold decode_optional_field. cbn [opt_field].
  rewrite str_is_empty_false by (apply encode_field_nonempty; congruence).
  by rewrite decode_encode_field.
Qed.

Lemma decode_hex_encode field s : decode_hex (hex_encode s) field = Ok s.
Proof.
  unfold decode_hex. rewrite hex_encode_lower, hex_decode_encode.
  unfold str_len. rewrite hex_encode_length, Nat2N.inj_mul.
  rewrite N.even_mul. done.
Qed.

Lemma canonical_sha256_shape value field :
  validate_canonical_sha256 value field = Ok tt ->
  value <> "" /\ bytes_all is_graphic value = true /\ bytes_all is_plain_byte value = true.
Proof.
  unfold validate_canonical_sha256. intros H. destruct (strip_prefix _ _) as [hex|] eqn:E; [|done].
  apply strip_prefix_Some in E as ->. apply reject_Ok in H as [H _].
  apply orb_false_iff in H as [_ H%negb_false_iff]. split; [done|].
  rewrite !bytes_all_append.
  rewrite (bytes_all_impl is_lower_hex is_graphic hex), (bytes_all_impl is_lower_hex is_plain_byte hex);
    try done; apply ascii_impl; vm_compute; reflexivity.
Qed.

Lemma graphic_line_clean s : bytes_all is_graphic s = true -> line_clean s = true.
Proof. by apply line_clean_bytes_all. Qed.

(** ** Reading key-value pairs *)

Fixpoint find_handler (handlers : list (string * LineHandler)) (key : string) : option LineHandler :=
  match handlers with
  | [] => None
  | (k, h) :: handlers => if String.eqb k key then Some h else find_handler handlers key
  end.

Fixpoint read_fields (seen : list string) (r : TaskReader) (fs : Fields) :
    Res (list string * TaskReader) :=
  match fs with
  | [] => Ok (seen, r)
  | (k, v) :: fs =>
      reject is_single_task_field k && is_one_of k seen with
        invalid_argument "task state contains a duplicate scalar field" ⊕ ("field", k) else
      let? r := match find_handler LINE_HANDLERS k with Some h => h r v | None => Ok r end in
      read_fields (if is_single_task_field k then k :: seen else seen) r fs
  end.

Lemma strip_key_line key k v :
  contains_char "=" key = false -> contains_char "=" k = false ->
  strip_prefix (key +:+ "=") (field_line (k, v)) = if String.eqb key k then Some v else None.
Proof.
  unfold field_line. cbn [fst snd]. revert k.
  induction key as [|c key IH]; intros k Hkey Hk.
  - destruct k as [|d k]; [done|]. cbn in Hk. apply orb_false_iff in Hk as [Hd _].
    change (strip_prefix (String "=" "") (String d (k +:+ "=" +:+ v)) = None). cbn. by rewrite Hd.
  - cbn in Hkey. apply orb_false_iff in Hkey as [Hc Hkey]. rewrite append_cons.
    destruct k as [|d k].
    + change (("" +:+ "=" +:+ v)) with (String "=" v). cbn. rewrite Ascii.eqb_sym, Hc. done.
    + rewrite append_cons. cbn in Hk. apply orb_false_iff in Hk as [_ Hk]. cbn [strip_prefix].
      rewrite IH by done. destruct (Ascii.eqb_spec c d) as [->|Hne].
      * destruct (String.eqb_spec key k) as [->|Hne]; [by rewrite String.eqb_refl|].
        destruct (String.eqb_spec (String d key) (String d k)); congruence.
      * destruct (String.eqb_spec (String c key) (String d k)); congruence.
Qed.

Lemma handle_line_field handlers r k v :
  Forall (fun h => contains_char "=" h.1 = false) handlers -> contains_char "=" k = false ->
  handle_line handlers r (field_line (k, v)) =
  match find_handler handlers k with Some h => h r v | None => Ok r end.
Proof.
  induction 1 as [|[key h] handlers Hkey _ IH]; intros Hk; [done|]. cbn [handle_line find_handler].
  rewrite strip_key_line by done. destruct (String.eqb key k); [done|]. by apply IH.
Qed.

Lemma read_task_lines_fields fs : forall seen r,
  Forall field_clean fs -> read_task_lines seen r (field_line <$> fs) = read_fields seen r fs.
Proof.
  induction fs as [|[k v] fs IH]; intros seen r Hc; [done|].
  apply Forall_cons in Hc as [Hf Hc]. rewrite fmap_cons. cbn [read_task_lines].
  rewrite str_is_empty_false by (by apply field_line_trim).
  unfold duplicate_scalar, note_scalar. rewrite field_line_split by done.
  cbn [read_fields]. destruct (is_single_task_field k && is_one_of k seen); [done|].
  destruct Hf as (_ & _ & Hk & _). rewrite handle_line_field; [|by repeat constructor|done].
  destruct (match find_handler _ _ with Some _ => _ | None => _ end); [|done]. by apply IH.
Qed.

Lemma read_fields_app seen r a b :
  read_fields seen r (a ++ b) = let? sr := read_fields seen r a in read_fields sr.1 sr.2 b.
Proof.
  revert seen r. induction a as [|[k v] a IH]; intros seen r; [done|]. cbn [read_fields app].
  destruct (_ && _); [done|]. destruct (match find_handler _ _ with Some _ => _ | None => _ end); [|done].
  apply IH.
Qed.

Lemma read_single seen r k v fs h r' :
  find_handler LINE_HANDLERS k = Some h -> is_single_task_field k = true ->
  is_one_of k seen = false -> h r v = Ok r' ->
  read_fields seen r ((k, v) :: fs) = read_fields (k :: seen) r' fs.
Proof. intros Hf Hs Hd Hh. cbn [read_fields]. by rewrite Hf, Hs, Hd, Hh. Qed.

Lemma read_repeated seen r k v fs h r' :
  find_handler LINE_HANDLERS k = Some h -> is_single_task_field k = false ->
  h r v = Ok r' -> read_fields seen r ((k, v) :: fs) = read_fields seen r' fs.
Proof. intros Hf Hs Hh. cbn [read_fields]. by rewrite Hf, Hs, Hh. Qed.

(** ** Round trip *)

(** The machine ranges the Rust types give, and what a stored record needs
    besides [validate]: a committed version, no optional text that is present
    but empty (the format writes it like an absent one), and the error
    classification only where the format has a place for it. *)
Record task_in_range (t : TaskStateSnapshot) : Prop := {
  tir_version : (ts_record_version t <= u64_max)%N;
  tir_generation : (ts_owner_generation t <= u64_max)%N;
  tir_max : (ts_retry_max_attempts t <= usize_max)%N;
  tir_heartbeat : opt_le u128_max (ts_heartbeat_at_ms t);
  tir_deadline : opt_le u128_max (ts_deadline_at_ms t);
  tir_ready : opt_le u128_max (ts_retry_ready_at_ms t);
  tir_size : opt_le usize_max (ts_result_size_bytes t);
  tir_index : opt_le usize_max (rd_delivery_index <$> ts_replay_delivery t);
  tir_policy : forall e, ts_envelope t = Some e ->
    let p := env_attempt_policy e in
    (ap_max_attempts p <= u32_max)%N /\ (ap_retry_backoff_ms p <= u64_max)%N /\
    opt_le u64_max (ap_attempt_timeout_ms p);
  tir_logs : Forall (fun l => tl_sequence l <= u64_max)%N (ts_logs t);
  tir_dead : Forall (fun d => td_replay_count d <= usize_max)%N (ts_dead_letters t);
  tir_replays : Forall (fun r => tr_sequence r <= u64_max)%N (ts_replayed_events t)
}.

Record storable (t : TaskStateSnapshot) : Prop := {
  sto_range : task_in_range t;
  sto_valid : task_validate t = Ok tt;
  sto_committed : ts_record_version t <> 0%N \/ ts_owner_generation t = 0%N;
  sto_cancel_reason : ts_cancel_reason t <> Some "";
  sto_interrupted : ts_interrupted_reason t <> Some "";
  sto_error_kind : ts_error_kind t <> Some "";
  sto_error_message : ts_error_message t <> Some "";
  sto_plain : ts_envelope t = None -> ts_error_retryable t = None /\ ts_retry_ready_at_ms t = None
}.

(** What [validate] gives about the texts of the record. *)
Lemma identity_nonempty limit v : stable_identity_rejected limit v = false -> v <> "".
Proof. intros H ->. done. Qed.

Lemma valid_owner t : task_valid t ->
  ts_execution_owner t <> Some "" /\ (ts_execution_owner t <> None -> ts_envelope t <> None).
Proof.
  intros [_ _ _ _ H _ _ _ _ _ _ _]. unfold validate_owner in H.
  destruct (ts_execution_owner t) as [o|]; [|done].
  apply then_Ok in H as [[u Ho] H]. apply reject_Ok in H as [H _].
  unfold validate_execution_owner in Ho. apply reject_Ok in Ho as [Ho%identity_nonempty _].
  split; [congruence|]. intros _ E. by rewrite E in H.
Qed.

Lemma valid_token t : task_valid t -> ts_cancel_token t <> Some "".
Proof.
  intros [_ _ _ _ _ H _ _ _ _ _ _]. destruct (ts_cancel_token t) as [o|]; [|done].
  unfold validate_cancel_token in H. apply reject_Ok in H as [H%identity_nonempty _]. congruence.
Qed.

Lemma valid_result t : task_valid t ->
  (ts_result_digest t = None /\ ts_result_size_bytes t = None) \/
  exists d n, ts_result_digest t = Some d /\ ts_result_size_bytes t = Some n /\
    ts_envelope t <> None /\ validate_canonical_sha256 d "task result digest" = Ok tt.
Proof.
  intros [_ _ _ _ _ _ _ _ _ H _ _]. unfold validate_result in H.
  destruct (ts_result_digest t) as [d|], (ts_result_size_bytes t) as [n|]; try done; [|by left].
  right. exists d, n. destruct (String.eqb (ts_status t) "completed" && _) eqn:E; [|done].
  apply andb_true_iff in E as [_ E]. split_and!; try done. intros E'. by rewrite E' in E.
Qed.

Lemma id_parse_nonempty K s i : id_parse K s = Ok i -> s <> "".
Proof. intros H ->. done. Qed.

Lemma valid_marker t m : task_valid t -> ts_replay_delivery t = Some m ->
  rd_replay_event_id m <> "" /\ ts_envelope t <> None /\ replay_delivery_validate m = Ok tt.
Proof.
  intros [_ _ _ _ _ _ H _ _ _ _ _] E. unfold validate_replay_marker in H. rewrite E in H.
  apply then_Ok in H as [[[] Hm] H]. apply reject_Ok in H as [_ H].
  split_and!; [|by destruct (ts_envelope t)|done].
  unfold replay_delivery_validate in Hm. apply then_Ok in Hm as [[i Hi] _]. by eapply id_parse_nonempty.
Qed.

Lemma valid_envelope t e : task_valid t -> ts_envelope t = Some e -> envelope_validate e = Ok tt.
Proof.
  intros [_ _ _ _ _ _ _ _ _ _ _ H] E. unfold validate_envelope_mirror in H. rewrite E in H.
  by destruct (envelope_validate e) as [[]|].
Qed.

Lemma decode_optional_digest t : task_valid t ->
  decode_optional_field (opt_field id (ts_result_digest t)) = ts_result_digest t.
Proof.
  intros Hv. destruct (valid_result t Hv) as [[-> _]|(d & n & -> & _ & _ & Hd)]; [done|].
  apply canonical_sha256_shape in Hd as (Hne & _ & Hp). unfold decode_optional_field. cbn [opt_field id].
  rewrite str_is_empty_false by done. by rewrite decode_field_plain.
Qed.

Lemma decode_optional_event t : task_valid t ->
  decode_optional_field (opt_field (fun r => encode_field (rd_replay_event_id r)) (ts_replay_delivery t))
  = rd_replay_event_id <$> ts_replay_delivery t.
Proof.
  intros Hv. destruct (ts_replay_delivery t) as [m|] eqn:E; [|done].
  destruct (valid_marker t m Hv E) as (Hne & _ & _). apply (decode_optional_ok (Some _)). congruence.
Qed.

Lemma parse_optional_index_ok name (o : option TaskReplayDeliverySnapshot) :
  opt_le usize_max (rd_delivery_index <$> o) ->
  parse_optional_stored_usize name (opt_field (fun r => n_to_string (rd_delivery_index r)) o)
  = Ok (rd_delivery_index <$> o).
Proof. intros H. rewrite <- (parse_optional_usize_ok name _ H). by destruct o. Qed.

(** *** The lines are clean *)

Lemma opt_field_clean {A} (f : A -> string) o :
  (forall a, o = Some a -> line_clean (f a) = true) -> line_clean (opt_field f o) = true.
Proof. destruct o; [|done]. intros H. by apply H. Qed.

Lemma bool_to_string_clean b : line_clean (bool_to_string b) = true.
Proof. by destruct b. Qed.

Lemma bar_clean a b : line_clean a = true -> line_clean b = true -> line_clean (a +:+ "|" +:+ b) = true.
Proof. intros. rewrite !line_clean_append. by rewrite H, H0. Qed.

#[local] Hint Resolve opt_field_clean bool_to_string_clean bar_clean : eva.

Lemma clean_key k v :
  negb (String.eqb k "") && bytes_all is_graphic k && negb (contains_char "=" k) = true ->
  line_clean v = true -> field_clean (k, v).
Proof. intros H Hl. reflect_bools. by split_and!. Qed.

Ltac clean_fields :=
  repeat (apply Forall_cons; split; [apply clean_key; [reflexivity|eauto with eva]|]);
  apply Forall_nil_2.

Lemma task_fields_clean t : task_valid t -> Forall field_clean (task_fields t).
Proof.
  intros Hv.
  assert (format : line_clean (match ts_envelope t with
      Some _ => TASK_STATE_FORMAT_V5 | None => TASK_STATE_FORMAT_V2 end) = true)
    by (by destruct (ts_envelope t)).
  unfold task_fields. rewrite !Forall_app. split_and!.
  - clean_fields.
  - destruct (ts_envelope t) as [e|] eqn:Ee; [|constructor].
    pose proof (valid_envelope t e Hv Ee) as He.
    assert (Hi : line_clean (input_fields (env_input e)).2 = true).
    { unfold envelope_validate in He. repeat (apply then_Ok in He as [? He] || idtac).
      destruct H2 as [[] Hin]. unfold input_validate in Hin.
      destruct (env_input e) as [bytes d|a d]; cbn.
      - apply reject_Ok in Hin as [_ Hin]. apply then_Ok in Hin as [[[] Hd] _].
        by apply canonical_sha256_shape in Hd as (_ & ?%graphic_line_clean & _).
      - apply then_Ok in Hin as [_ Hd].
        by apply canonical_sha256_shape in Hd as (_ & ?%graphic_line_clean & _). }
    unfold envelope_fields.
    destruct (input_fields (env_input e)) as [[[ik ih] ar] dg] eqn:Ei.
    assert (line_clean ik = true /\ line_clean ih = true /\ line_clean ar = true) as (? & ? & ?).
    { destruct (env_input e); injection Ei as <- <- <- <-; split_and!; eauto with eva. }
    assert (line_clean (opt_field id (ts_result_digest t)) = true).
    { destruct (valid_result t Hv) as [[-> _]|(d & n & -> & _ & _ & Hd)]; [done|].
      by apply canonical_sha256_shape in Hd as (_ & ?%graphic_line_clean & _). }
    clean_fields.
  - clean_fields.
  - apply Forall_fmap, Forall_true. intros l. apply clean_key; [reflexivity|]. cbn [log_field snd].
    eauto with eva.
  - apply Forall_fmap, Forall_true. intros l. apply clean_key; [reflexivity|]. cbn. eauto 10 with eva.
  - apply Forall_fmap, Forall_true. intros l. apply clean_key; [reflexivity|]. cbn. eauto 10 with eva.
Qed.

(** *** Reading what was written *)

(** A hypothesis, found without evaluating anything. *)
Ltac known := match goal with H : ?P |- ?Q => constr_eq P Q; exact H end.

(** Reads one scalar line: its handler is found by evaluation, its value by
    the codec lemmas. *)
Ltac read_one :=
  erewrite read_single;
  [|reflexivity|reflexivity|reflexivity|
   cbv beta;
   rewrite ?decode_encode_field, ?bool_field_ok, ?parse_optional_bool_ok;
   try first
     [ rewrite parse_stored_u64_ok by known | rewrite parse_stored_usize_ok by known
     | rewrite parse_stored_u32_ok by known | rewrite parse_optional_u64_ok by known
     | rewrite parse_optional_usize_ok by known | rewrite parse_optional_u128_ok by known
     | rewrite parse_optional_index_ok by known | rewrite decode_optional_ok by known
     | rewrite decode_optional_digest by known | rewrite decode_optional_event by known ];
   reflexivity].

Definition HEAD_KEYS : list string := rev (head_fields (blank_task "" "")).*1.

Definition snapshot_head (t : TaskStateSnapshot) : TaskStateSnapshot :=
  (blank_task (ts_task_id t) (ts_status t)) <| ts_record_version := ts_record_version t |>
    <| ts_owner_generation := ts_owner_generation t |> <| ts_attempts := ts_attempts t |>
    <| ts_retry_max_attempts := ts_retry_max_attempts t |>.

Definition reader_head (t : TaskStateSnapshot) : TaskReader :=
  reader_new <| tr_snapshot := snapshot_head t |>
    <| tr_format := Some (match ts_envelope t with
                          | Some _ => TASK_STATE_FORMAT_V5 | None => TASK_STATE_FORMAT_V2 end) |>.

Lemma read_head t : storable t ->
  read_fields [] reader_new (head_fields t) = Ok (HEAD_KEYS, reader_head t).
Proof.
  intros [[] Hv _ _ _ _ _ _]. apply task_validate_iff in Hv.
  assert (ts_attempts t <= usize_max)%N by (destruct Hv; lia).
  unfold head_fields. do 7 read_one. reflexivity.
Qed.

Definition ENVELOPE_KEYS : list string :=
  [ "envelope_kind"; "envelope_agent_id"; "envelope_input_kind"; "envelope_inline_input_hex";
    "envelope_artifact_ref"; "envelope_input_digest"; "envelope_idempotency_key";
    "envelope_max_attempts"; "envelope_retry_backoff_ms"; "envelope_attempt_timeout_ms";
    "execution_owner"; "result_digest"; "result_size_bytes"; "replay_event_id";
    "replay_delivery_index"; "error_retryable"; "retry_ready_at_ms" ].

(** The reader after the envelope lines; the artifact reference is decoded. *)
Definition reader_envelope (t : TaskStateSnapshot) (e : TaskEnvelopeSnapshot) (r : TaskReader) :
    TaskReader :=
  let '(input_kind, inline_input_hex, artifact_ref, input_digest) := input_fields (env_input e) in
  let p := env_attempt_policy e in
  MkReader
    ((tr_snapshot r) <| ts_execution_owner := ts_execution_owner t |>
       <| ts_result_digest := ts_result_digest t |> <| ts_result_size_bytes := ts_result_size_bytes t |>
       <| ts_error_retryable := ts_error_retryable t |>
       <| ts_retry_ready_at_ms := ts_retry_ready_at_ms t |>)
    (tr_format r) (Some (env_kind e)) (Some (env_agent_id e)) (Some input_kind)
    (Some inline_input_hex) (Some (decode_field artifact_ref)) (Some input_digest)
    (Some (env_idempotency_key e)) (Some (ap_max_attempts p)) (Some (ap_retry_backoff_ms p))
    (Some (ap_attempt_timeout_ms p)) (Some (rd_replay_event_id <$> ts_replay_delivery t))
    (Some (rd_delivery_index <$> ts_replay_delivery t)).

Lemma read_envelope_fields t e : storable t -> ts_envelope t = Some e ->
  read_fields HEAD_KEYS (reader_head t) (envelope_fields t e)
  = Ok (rev ENVELOPE_KEYS ++ HEAD_KEYS, reader_envelope t e (reader_head t)).
Proof.
  intros [Hr Hv _ _ _ _ _ _] He. pose proof Hr as []. apply task_validate_iff in Hv.
  destruct (tir_policy t Hr e He) as (? & ? & ?).
  pose proof (proj1 (valid_owner t Hv)).
  unfold envelope_fields, reader_envelope.
  destruct (input_fields (env_input e)) as [[[ik ih] ar] dg].
  do 17 read_one. reflexivity.
Qed.

Definition TAIL_KEYS : list string :=
  [ "cancel_requested"; "cancel_accepted"; "cancel_reason"; "heartbeat_at_ms"; "deadline_at_ms";
    "cancel_token"; "interrupted_reason"; "error_kind"; "error_message" ].

Definition snapshot_tail (t s : TaskStateSnapshot) : TaskStateSnapshot :=
  s <| ts_cancel_requested := ts_cancel_requested t |> <| ts_cancel_accepted := ts_cancel_accepted t |>
    <| ts_cancel_reason := ts_cancel_reason t |> <| ts_heartbeat_at_ms := ts_heartbeat_at_ms t |>
    <| ts_deadline_at_ms := ts_deadline_at_ms t |> <| ts_cancel_token := ts_cancel_token t |>
    <| ts_interrupted_reason := ts_interrupted_reason t |> <| ts_error_kind := ts_error_kind t |>
    <| ts_error_message := ts_error_message t |>.

(** The same over scalars seen before. *)
Ltac read_tail_one :=
  erewrite read_single; [|reflexivity|reflexivity| |
    cbv beta; rewrite ?bool_field_ok;
    try first [rewrite parse_optional_u128_ok by known|rewrite decode_optional_ok by known];
    reflexivity];
  [|unfold is_one_of in *; cbn [existsb]; repeat (rewrite orb_false_iff; split); known || reflexivity].

Lemma read_tail t seen r : storable t -> existsb (fun k => is_one_of k seen) TAIL_KEYS = false ->
  read_fields seen r (tail_fields t) = Ok (rev TAIL_KEYS ++ seen, set_snapshot (snapshot_tail t) r).
Proof.
  intros [[] Hv _ ? ? ? ? _] Hs. apply task_validate_iff in Hv. pose proof (valid_token t Hv).
  cbn [TAIL_KEYS existsb] in Hs. reflect_bools. unfold tail_fields.
  do 9 read_tail_one. reflexivity.
Qed.

Lemma bar_split a b : contains_char "|" a = false -> split "|" (a +:+ "|" +:+ b) = a :: split "|" b.
Proof. apply split_append. Qed.
Lemma n_to_string_no_bar n : contains_char "|" (n_to_string n) = false.
Proof.
  apply contains_char_false. eapply bytes_all_impl; [|apply n_to_string_digits].
  apply ascii_impl. vm_compute. reflexivity.
Qed.
#[local] Hint Resolve n_to_string_no_bar : eva.

Lemma read_logs seen ls : forall r rest,
  Forall (fun l => tl_sequence l <= u64_max)%N ls ->
  read_fields seen r ((log_field <$> ls) ++ rest)
  = read_fields seen (set_snapshot (fun t => t <| ts_logs := ts_logs t ++ ls |>) r) rest.
Proof.
  induction ls as [|[n lv m] ls IH]; intros r rest Hl.
  - cbn [fmap list_fmap app]. f_equal. destruct r as [[]]. unfold set_snapshot. cbn. by rewrite app_nil_r.
  - apply Forall_cons in Hl as [Hn Hl]. cbn [tl_sequence] in Hn.
    rewrite fmap_cons, <- app_comm_cons. unfold log_field at 1. cbn [tl_sequence tl_level tl_message].
    erewrite read_repeated; [|reflexivity|reflexivity|].
    2:{ cbv beta. unfold split_stored_fields. rewrite !bar_split by eauto with eva.
        rewrite split_no_sep by eauto with eva. cbn [length Nat.eqb negb nth]. cbv zeta.
        rewrite parse_stored_u64_ok by known. rewrite !decode_encode_field. reflexivity. }
    rewrite IH by done. f_equal. destruct r as [[]]. unfold set_snapshot. cbn. by rewrite <- app_assoc.
Qed.

Lemma read_dead_letters seen ls : forall r rest,
  Forall (fun d => td_replay_count d <= usize_max)%N ls ->
  read_fields seen r ((dead_letter_field <$> ls) ++ rest)
  = read_fields seen (set_snapshot (fun t => t <| ts_dead_letters := ts_dead_letters t ++ ls |>) r) rest.
Proof.
  induction ls as [|[a b c d n] ls IH]; intros r rest Hl.
  - cbn [fmap list_fmap app]. f_equal. destruct r as [[]]. unfold set_snapshot. cbn. by rewrite app_nil_r.
  - apply Forall_cons in Hl as [Hn Hl]. cbn [td_replay_count] in Hn.
    rewrite fmap_cons, <- app_comm_cons. unfold dead_letter_field at 1.
    cbn [td_event_id td_topic td_reason_kind td_reason td_replay_count].
    erewrite read_repeated; [|reflexivity|reflexivity|].
    2:{ cbv beta. unfold split_stored_fields. rewrite !bar_split by eauto with eva.
        rewrite split_no_sep by eauto with eva. cbn [length Nat.eqb negb nth]. cbv zeta.
        rewrite parse_stored_usize_ok by known. rewrite !decode_encode_field. reflexivity. }
    rewrite IH by done. f_equal. destruct r as [[]]. unfold set_snapshot. cbn. by rewrite <- app_assoc.
Qed.

Lemma read_replays seen ls : forall r rest,
  Forall (fun d => tr_sequence d <= u64_max)%N ls ->
  read_fields seen r ((replay_field <$> ls) ++ rest)
  = read_fields seen
      (set_snapshot (fun t => t <| ts_replayed_events := ts_replayed_events t ++ ls |>) r) rest.
Proof.
  induction ls as [|[a n b] ls IH]; intros r rest Hl.
  - cbn [fmap list_fmap app]. f_equal. destruct r as [[]]. unfold set_snapshot. cbn. by rewrite app_nil_r.
  - apply Forall_cons in Hl as [Hn Hl]. cbn [tr_sequence] in Hn.
    rewrite fmap_cons, <- app_comm_cons. unfold replay_field at 1.
    cbn [tr_event_id tr_sequence tr_topic].
    erewrite read_repeated; [|reflexivity|reflexivity|].
    2:{ cbv beta. unfold split_stored_fields. rewrite !bar_split by eauto with eva.
        rewrite split_no_sep by eauto with eva. cbn [length Nat.eqb negb nth]. cbv zeta.
        rewrite parse_stored_u64_ok by known. rewrite !decode_encode_field. reflexivity. }
    rewrite IH by done. f_equal. destruct r as [[]]. unfold set_snapshot. cbn. by rewrite <- app_assoc.
Qed.

(** The reader when all lines are read, from the one after the optional
    envelope. *)
Definition reader_final (t : TaskStateSnapshot) (r : TaskReader) : TaskReader :=
  set_snapshot (fun s => s <| ts_replayed_events := ts_replayed_events s ++ ts_replayed_events t |>)
    (set_snapshot (fun s => s <| ts_dead_letters := ts_dead_letters s ++ ts_dead_letters t |>)
      (set_snapshot (fun s => s <| ts_logs := ts_logs s ++ ts_logs t |>)
        (set_snapshot (snapshot_tail t) r))).

Lemma read_rest t seen r : storable t -> existsb (fun k => is_one_of k seen) TAIL_KEYS = false ->
  read_fields seen r (tail_fields t ++ (log_field <$> ts_logs t)
    ++ (dead_letter_field <$> ts_dead_letters t) ++ (replay_field <$> ts_replayed_events t))
  = Ok (rev TAIL_KEYS ++ seen, reader_final t r).
Proof.
  intros Hs Hk. rewrite read_fields_app, (read_tail t) by done. cbn [fst snd].
  destruct Hs as [[] _ _ _ _ _ _ _].
  rewrite read_logs by done. rewrite read_dead_letters by done.
  rewrite <- (app_nil_r (replay_field <$> _)), read_replays by done. reflexivity.
Qed.

Lemma read_task t : storable t ->
  read_fields [] reader_new (task_fields t) =
  Ok (match ts_envelope t with
      | Some e => (rev TAIL_KEYS ++ rev ENVELOPE_KEYS ++ HEAD_KEYS,
                   reader_final t (reader_envelope t e (reader_head t)))
      | None => (rev TAIL_KEYS ++ HEAD_KEYS, reader_final t (reader_head t))
      end).
Proof.
  intros Hs. unfold task_fields. rewrite read_fields_app, read_head by done. cbn [fst snd].
  destruct (ts_envelope t) as [e|] eqn:He.
  - rewrite read_fields_app, read_envelope_fields by done. cbn [fst snd]. by apply read_rest.
  - by apply read_rest.
Qed.

Lemma read_input_ok i :
  let '(k, h, a, d) := input_fields i in read_input k h (decode_field a) d = Ok i.
Proof.
  destruct i as [bytes d|a d]; cbn [input_fields]; unfold read_input.
  - change (String.eqb "inline" "inline" && str_is_empty (decode_field "")) with true. cbv iota.
    by rewrite decode_hex_encode.
  - by rewrite decode_encode_field.
Qed.

Lemma read_envelope_ok t e r :
  envelope_validate e = Ok tt -> read_envelope (reader_final t (reader_envelope t e r)) = Ok e.
Proof.
  intros He. assert (attempt_policy_validate (env_attempt_policy e) = Ok tt) as Hp.
  { unfold envelope_validate in He. repeat apply then_Ok in He as [_ He]. done. }
  pose proof (read_input_ok (env_input e)) as Hi. unfold reader_envelope.
  destruct (input_fields (env_input e)) as [[[k h] a] d].
  unfold read_envelope. cbn -[read_input attempt_policy_new envelope_new decode_field].
  rewrite Hi. unfold attempt_policy_new. destruct e as [k' a' i' id' [m b o]].
  cbn [env_attempt_policy ap_max_attempts ap_retry_backoff_ms ap_attempt_timeout_ms] in *.
  rewrite Hp. unfold envelope_new.
  cbn [env_kind env_agent_id env_input env_idempotency_key] in *. by rewrite He.
Qed.

Lemma read_marker_ok t e r :
  task_valid t ->
  read_replay_delivery (reader_final t (reader_envelope t e r)) = Ok (ts_replay_delivery t).
Proof.
  intros Hv. unfold reader_envelope. destruct (input_fields (env_input e)) as [[[k h] a] d].
  unfold read_replay_delivery. cbn -[replay_delivery_new].
  destruct (ts_replay_delivery t) as [[ev ix]|] eqn:E; [|done]. cbn -[replay_delivery_new].
  destruct (valid_marker t _ Hv E) as (_ & _ & Hm). unfold replay_delivery_new. by rewrite Hm.
Qed.

Lemma final_snapshot_plain t :
  storable t -> ts_envelope t = None -> tr_snapshot (reader_final t (reader_head t)) = t.
Proof.
  intros [_ Hv _ _ _ _ _ Hp] He. apply task_validate_iff in Hv. destruct (Hp He) as [H1 H2].
  assert (ts_execution_owner t = None) as H3.
  { destruct (ts_execution_owner t) eqn:E; [|done]. exfalso. apply (proj2 (valid_owner t Hv)); congruence. }
  assert (ts_replay_delivery t = None) as H4.
  { destruct (ts_replay_delivery t) eqn:E; [|done]. by destruct (valid_marker t _ Hv E) as (_ & ? & _). }
  destruct (valid_result t Hv) as [[H5 H6]|(? & ? & _ & _ & ? & _)]; [|done].
  clear Hv Hp. destruct t. cbn in *. subst. reflexivity.
Qed.

Lemma final_snapshot_envelope t e :
  ts_envelope t = Some e ->
  (tr_snapshot (reader_final t (reader_envelope t e (reader_head t))))
    <| ts_envelope := Some e |> <| ts_replay_delivery := ts_replay_delivery t |> = t.
Proof.
  intros He. unfold reader_envelope. destruct (input_fields (env_input e)) as [[[k h] a] d].
  destruct t. cbn in *. subst. reflexivity.
Qed.

Lemma read_versioned_v5 seen r e m :
  is_ok (require_seen seen "task state is missing an execution scalar field" EXECUTION_FIELDS) = true ->
  is_ok (require_seen seen "v5 task state is missing a replay or retry scalar field" V5_FIELDS) = true ->
  read_envelope r = Ok e -> read_replay_delivery r = Ok m ->
  read_versioned TASK_STATE_FORMAT_V5 seen r =
  Ok (match m with
      | Some m => (tr_snapshot r) <| ts_envelope := Some e |> <| ts_replay_delivery := Some m |>
      | None => (tr_snapshot r) <| ts_envelope := Some e |> end).
Proof.
  intros H1 H2 He Hm. unfold read_versioned. rewrite He, Hm.
  apply is_ok_true in H1 as [[] ->]. by apply is_ok_true in H2 as [[] ->].
Qed.

Lemma read_back t : storable t -> from_storage (to_storage t) = Ok t.
Proof.
  intros Hs. pose proof (sto_valid t Hs) as Hv. pose proof (proj1 (task_validate_iff t) Hv) as Hv'.
  unfold from_storage, to_storage. rewrite lines_join.
  2:{ apply Forall_fmap. eapply Forall_impl; [by apply task_fields_clean|apply field_line_clean]. }
  rewrite read_task_lines_fields by (by apply task_fields_clean). rewrite read_task by done.
  assert (str_is_empty (ts_task_id t) || str_is_empty (ts_status t) = false) as Hne.
  { destruct Hv' as [[i Hi] -> _ _ _ _ _ _ _ _ _ _].
    by rewrite (str_is_empty_false _ (id_parse_nonempty _ _ _ Hi)). }
  assert (negb (ts_record_version t =? 0)%N || (ts_owner_generation t =? 0)%N = true) as Hcom.
  { apply orb_true_iff. rewrite negb_true_iff, N.eqb_neq, N.eqb_eq. apply (sto_committed t Hs). }
  unfold finish_reader. destruct (ts_envelope t) as [e|] eqn:He; cbn [fst snd].
  - pose proof (final_snapshot_envelope t e He) as Hsnap.
    pose proof (read_envelope_ok t e (reader_head t) (valid_envelope t e Hv' He)) as Henv.
    pose proof (read_marker_ok t e (reader_head t) Hv') as Hm.
    set (r := reader_final t _) in *.
    assert (tr_format r = Some TASK_STATE_FORMAT_V5) as ->.
    { unfold r, reader_envelope. destruct (input_fields _) as [[[? ?] ?] ?]. cbn. by rewrite He. }
    assert (ts_task_id (tr_snapshot r) = ts_task_id t /\ ts_status (tr_snapshot r) = ts_status t /\
            ts_record_version (tr_snapshot r) = ts_record_version t /\
            ts_owner_generation (tr_snapshot r) = ts_owner_generation t) as (E1 & E2 & E3 & E4).
    { rewrite <- Hsnap. done. }
    rewrite E1, E2, E3, E4, Hne, Hcom. 
    erewrite (read_versioned_v5 _ r e _); [|vm_compute; reflexivity|vm_compute; reflexivity|exact Henv|exact Hm].
    change (String.eqb TASK_STATE_FORMAT_V5 TASK_STATE_FORMAT_V2 && true) with false.
    change (is_one_of TASK_STATE_FORMAT_V5 _ && true) with true. cbv zeta iota.
    assert ((match ts_replay_delivery t with
             | Some m => (tr_snapshot r) <| ts_envelope := Some e |> <| ts_replay_delivery := Some m |>
             | None => (tr_snapshot r) <| ts_envelope := Some e |> end) = t) as Hfin.
    { etransitivity; [|exact Hsnap]. destruct (ts_replay_delivery t); [done|].
      unfold r, reader_envelope. by destruct (input_fields (env_input e)) as [[[? ?] ?] ?]. }
    rewrite Hfin, Hv. done.
  - pose proof (final_snapshot_plain t Hs He) as Hsnap.
    set (r := reader_final t _) in *.
    assert (tr_format r = Some TASK_STATE_FORMAT_V2) as -> by (cbn; by rewrite He).
    assert (has_envelope_fields r = false) as -> by done.
    rewrite Hsnap, Hne, Hcom.
    assert (existsb (fun f => is_one_of f (rev TAIL_KEYS ++ HEAD_KEYS)) EXECUTION_FIELDS = false) as ->
      by (vm_compute; reflexivity).
    assert (existsb (fun f => is_one_of f (rev TAIL_KEYS ++ HEAD_KEYS)) V5_FIELDS = false) as ->
      by (vm_compute; reflexivity).
    change (String.eqb TASK_STATE_FORMAT_V2 TASK_STATE_FORMAT_V2 && true) with true.
    cbv zeta iota. cbn [orb]. rewrite Hv. done.
Qed.

(** C7: a committed task record survives the disk: for every valid snapshot
    with its machine-range fields, [from_storage] reads back exactly the
    snapshot [to_storage] wrote, in both formats (with envelope, input bytes,
    replay marker and error classification; or plain), whatever bytes its
    texts, logs, dead letters and replayed events hold.  The only texts the
    format cannot hold are optional ones that are present but empty. *)
Theorem task_record_roundtrip t : storable t -> from_storage (to_storage t) = Ok t.
Proof. apply read_back. Qed.

(** A record that came back from a failed attempt, with awkward texts. *)
Definition stored_sample : TaskStateSnapshot :=
  push_log (sample_task <| ts_record_version := 3%N |> <| ts_owner_generation := 1%N |>
    <| ts_cancel_requested := true |> <| ts_cancel_reason := Some "100% | a=b" |>)
    "info" "50%25 |done".

Lemma stored_sample_storable : storable stored_sample.
Proof.
  constructor.
  - constructor; try exact I; try (apply N.leb_le; reflexivity).
    + intros e [= <-]. split_and!; apply N.leb_le; reflexivity.
    + apply Forall_singleton, N.leb_le. reflexivity.
    + constructor.
    + constructor.
  - vm_compute. reflexivity.
  - left. discriminate.
  - discriminate.
  - discriminate.
  - discriminate.
  - discriminate.
  - discriminate.
Qed.

Lemma task_record_roundtrip_witness :
  storable stored_sample /\ from_storage (to_storage stored_sample) = Ok stored_sample.
Proof.
  split; [exact stored_sample_storable|].
  apply (task_record_roundtrip stored_sample). exact stored_sample_storable.
Defined.

(** The limit of the format.  A record with an empty error message is
    written exactly like one without a message, and such a record can be
    committed: a worker that fails its attempt with an empty message passes
    [fail_execution] and the gate, but the committed text is refused by
    [from_storage], so the task can no longer be read. *)
Theorem empty_failure_message_unreadable :
  (forall t, to_storage (t <| ts_error_message := Some "" |>) = to_storage (t <| ts_error_message := None |>)) /\
  exists t, fail_execution running_sample "worker-1" 1 "token-1" "unavailable" "" true = Ok t /\
    commit_checks AttemptOutcome running_sample t = true /\
    is_ok (from_storage (to_storage t)) = false.
Proof.
  split; [reflexivity|].
  destruct (fail_execution running_sample "worker-1" 1 "token-1" "unavailable" "" true) as [t|] eqn:E.
  - exists t. split; [reflexivity|]. split.
    + apply fail_execution_Ok in E as (H1 & H2 & H3 & _ & H4).
      exact (commit_checks_true AttemptOutcome _ _ eq_refl H1 H2 H3 H4).
    + assert (result_map (fun t => is_ok (from_storage (to_storage t)))
        (fail_execution running_sample "worker-1" 1 "token-1" "unavailable" "" true) = Ok false) as H
        by (vm_compute; reflexivity).
      rewrite E in H. by injection H.
  - exfalso. apply (f_equal is_ok) in E. vm_compute in E. discriminate E.
Qed.

(** A plain record (no envelope) is stored without its error
    classification: whatever [error_retryable] and [retry_ready_at_ms] the
    committed snapshot carries, the stored text is read back without them. *)
Theorem plain_record_drops_classification t :
  ts_envelope t = None ->
  storable (t <| ts_error_retryable := None |> <| ts_retry_ready_at_ms := None |>) ->
  from_storage (to_storage t)
  = Ok (t <| ts_error_retryable := None |> <| ts_retry_ready_at_ms := None |>).
Proof.
  intros He Hs. etransitivity; [|exact (read_back _ Hs)]. f_equal. unfold to_storage, task_fields.
  cbn. by rewrite He.
Qed.

Definition plain_failed_sample : TaskStateSnapshot :=
  (blank_task "task-2" "failed") <| ts_record_version := 1%N |> <| ts_attempts := 1%N |>
    <| ts_error_kind := Some "internal" |> <| ts_error_message := Some "boom" |>
    <| ts_error_retryable := Some true |>.

Lemma plain_failed_sample_storable :
  storable (plain_failed_sample <| ts_error_retryable := None |> <| ts_retry_ready_at_ms := None |>).
Proof.
  constructor.
  - constructor; try exact I; try (apply N.leb_le; reflexivity).
    + intros e. discriminate.
    + constructor.
    + constructor.
    + constructor.
  - vm_compute. reflexivity.
  - left. discriminate.
  - discriminate.
  - discriminate.
  - discriminate.
  - discriminate.
  - intros _. split; reflexivity.
Qed.

Lemma plain_record_drops_classification_witness :
  is_ok (task_validate plain_failed_sample) = true /\
  from_storage (to_storage plain_failed_sample)
  = Ok (plain_failed_sample <| ts_error_retryable := None |> <| ts_retry_ready_at_ms := None |>) /\
  ts_error_retryable plain_failed_sample = Some true.
Proof.
  split; [vm_compute; reflexivity|]. split; [|reflexivity].
  exact (plain_record_drops_classification plain_failed_sample eq_refl plain_failed_sample_storable).
Defined.
