(* ===== verification/TaskStore.v ===== *)
(** * The task store (crates/eva-storage/src/task_state.rs, lines 391-400 and 1982-2955)

    Every operation of [FileSystemTaskStateStore] reads a record, builds a
    proposal, commits it with compare-and-set under the writer and record
    locks, and on a conflict reads again, at most
    [TASK_STATE_CAS_RETRY_LIMIT] times.  Other processes may act between any
    two of these accesses.  An operation is therefore a tree of accesses
    ([StoreProg]): what it reads or commits next as a function of the answers
    so far.  One access is atomic (the source holds the record lock across a
    commit, and a read is one [read_to_string] of an atomically replaced
    file); [perform] gives its effect on the files. *)

From Stdlib Require Import Ascii.
From stdpp Require Import base numbers strings gmap list.
From S2P Require Import Prelude RustStr Error Ids Digest Durable TaskState.
From S2P Require Import TaskTransition TaskAccept FieldEscape TaskStorage.

Definition TASK_STATE_CAS_RETRY_LIMIT : nat := 32.

Record FileSystemTaskStateStore := MkTaskStore {
  tss_project_root : string;
  tss_task_dir : string;
  tss_durable_writer_required : bool;
  tss_writer : option DurableWriterGuard
}.

Definition store_new (project_root : string) : FileSystemTaskStateStore :=
  MkTaskStore project_root (path_join (path_join project_root ".eva") "tasks") false None.

Definition store_from_durable_layout (layout : DurableBackendLayout) : FileSystemTaskStateStore :=
  MkTaskStore (layout_root layout) (layout_task_dir layout) true None.

Definition store_from_runtime_writer (layout : DurableBackendLayout) (writer : DurableWriterGuard)
    (files : Files) : Res FileSystemTaskStateStore :=
  reject negb (String.eqb (wg_root writer) (layout_root layout)) with
    conflict "durable task writer belongs to a different backend root"
      ⊕ ("layout_root", layout_root layout) ⊕ ("writer_root", wg_root writer) else
  verify_current writer files >>?
  Ok (MkTaskStore (layout_root layout) (layout_task_dir layout) true (Some writer)).

(** ** Paths and reads *)

Definition latest_task_path (s : FileSystemTaskStateStore) : string :=
  path_join (tss_task_dir s) "latest-basic.task".

Definition task_file (s : FileSystemTaskStateStore) (task_id : string) : string :=
  path_join (tss_task_dir s) (task_id +:+ ".task").

Definition task_path (s : FileSystemTaskStateStore) (task_id : string) : Res string :=
  id_parse KRequest task_id >>? Ok (task_file s task_id).

Definition read_optional_task_snapshot (files : Files) (path : string) :
    Res (option TaskStateSnapshot) :=
  match read_to_string files path with
  | Ok data => result_map Some (map_err (fun error => error ⊕ ("path", path)) (from_storage data))
  | Err ReadNotFound => Ok None
  | Err error =>
      Err (internal "failed to read task state" ⊕ ("path", path)
             ⊕ ("io_error", read_failure_text error))
  end.

Definition read_task_snapshot (files : Files) (path : string) : Res TaskStateSnapshot :=
  let? record := read_optional_task_snapshot files path in
  ok_or record (not_found "task state does not exist" ⊕ ("path", path)
                  ⊕ ("suggestion", "run `eva run --example basic` first")).

Definition file_key_error (path expected actual : string) : EvaError :=
  conflict "task state file key does not match record" ⊕ ("path", path)
    ⊕ ("expected_task_id", expected) ⊕ ("actual_task_id", actual).

Definition store_read (s : FileSystemTaskStateStore) (files : Files) (task_id : option string) :
    Res TaskStateSnapshot :=
  let? path := match task_id with
               | Some task_id => task_path s task_id | None => Ok (latest_task_path s) end in
  let? snapshot := read_task_snapshot files path in
  match task_id with
  | Some expected =>
      reject negb (String.eqb (ts_task_id snapshot) expected) with
        file_key_error path expected (ts_task_id snapshot) else Ok snapshot
  | None => Ok snapshot
  end.

(** ** Commits *)

(** How the locks and writes of one transaction end. *)
Record Outcomes := MkOutcomes {
  out_create_dir : Res unit;
  out_process_lock : Res unit;
  out_record_lock : Res unit;
  out_canonical : WriteOutcome;
  out_latest : WriteOutcome
}.
Definition all_well : Outcomes := MkOutcomes (Ok tt) (Ok tt) (Ok tt) WriteOk WriteOk.

Definition with_writer_transaction {A} (s : FileSystemTaskStateStore) (files : Files) (o : Outcomes)
    (operation : option DurableWriterGuard -> WriterGeneration -> Res A * Files) : Res A * Files :=
  match tss_writer s with
  | Some writer => with_write_lock writer files (out_process_lock o) (operation (Some writer))
  | None =>
      if tss_durable_writer_required s then
        (Err (conflict "durable task mutation requires runtime writer ownership"
                ⊕ ("root", tss_project_root s)), files)
      else operation None 0%N
  end.

(** The record lock, and the second look at the writer generation. *)
Definition enter_record (files : Files) (o : Outcomes) (writer : option DurableWriterGuard) : Res unit :=
  out_record_lock o >>?
  match writer with Some writer => verify_current writer files | None => Ok tt end.

(** What [commit_snapshot] checks against the record it found. *)
Definition check_current (path : string) (current snapshot : TaskStateSnapshot)
    (mode : TaskStateCommitMode) : Res unit :=
  reject negb (String.eqb (ts_task_id current) (ts_task_id snapshot)) with
    file_key_error path (ts_task_id snapshot) (ts_task_id current) else
  reject negb (ts_owner_generation current =? ts_owner_generation snapshot)%N with
    conflict "task state owner generation does not match current record"
      ⊕ ("task_id", ts_task_id snapshot)
      ⊕ ("expected", n_to_string (ts_owner_generation current))
      ⊕ ("actual", n_to_string (ts_owner_generation snapshot)) else
  reject negb (bool_decide (ts_envelope current = ts_envelope snapshot))
         || negb (bool_decide (ts_replay_delivery current = ts_replay_delivery snapshot)) with
    conflict "task lifecycle update cannot modify immutable task identity"
      ⊕ ("task_id", ts_task_id snapshot) else
  validate_transition_in mode current snapshot.

(** The record a commit will write, or why it will not. *)
Definition prepare_commit (s : FileSystemTaskStateStore) (files : Files)
    (snapshot : TaskStateSnapshot) (expected : StateVersion) (mode : TaskStateCommitMode)
    (generation : WriterGeneration) : Res (string * TaskStateSnapshot) :=
  let? path := task_path s (ts_task_id snapshot) in
  let? current := read_optional_task_snapshot files path in
  match current with
  | Some current => check_current path current snapshot mode
  | None => Ok tt
  end >>?
  (reject create_only mode && is_some current with
     conflict "task state already exists" ⊕ ("task_id", ts_task_id snapshot) else
   let actual := match current with Some record => ts_record_version record | None => 0%N end in
   reject negb (actual =? expected)%N with
     conflict "task state version conflict" ⊕ ("task_id", ts_task_id snapshot)
       ⊕ ("expected", n_to_string expected) ⊕ ("actual", n_to_string actual) else
   let? next := version_checked_next actual in
   let committed := store_commit snapshot next generation in
   task_validate committed >>? Ok (path, committed)).

(** The canonical file first, then the pointer to the latest task. *)
Definition write_commit (s : FileSystemTaskStateStore) (files : Files) (o : Outcomes)
    (path : string) (committed : TaskStateSnapshot) : Res TaskStateSnapshot * Files :=
  let data := to_storage committed in
  match atomic_write files path data (out_canonical o) with
  | (Err error, files) =>
      (Err (internal "failed to atomically write task state"
              ⊕ ("task_id", ts_task_id committed) ⊕ ("path", path) ⊕ ("io_error", error)), files)
  | (Ok _, files) =>
      match atomic_write files (latest_task_path s) data (out_latest o) with
      | (Err error, files) =>
          (Err (internal "failed to atomically write latest task state"
                  ⊕ ("task_id", ts_task_id committed) ⊕ ("canonical_committed", "true")
                  ⊕ ("current_version", n_to_string (ts_record_version committed))
                  ⊕ ("io_error", error)), files)
      | (Ok _, files) => (Ok committed, files)
      end
  end.

Definition commit_snapshot (s : FileSystemTaskStateStore) (files : Files) (o : Outcomes)
    (snapshot : TaskStateSnapshot) (expected : StateVersion) (mode : TaskStateCommitMode) :
    Res TaskStateSnapshot * Files :=
  match (task_validate snapshot >>? out_create_dir o) with
  | Err e => (Err e, files)
  | Ok _ =>
      with_writer_transaction s files o (fun writer generation =>
        match (enter_record files o writer >>?
               prepare_commit s files snapshot expected mode generation) with
        | Err e => (Err e, files)
        | Ok (path, committed) => write_commit s files o path committed
        end)
  end.

(** Rewrites the latest pointer from the canonical record. *)
Definition refresh_latest (s : FileSystemTaskStateStore) (files : Files) (o : Outcomes)
    (task_id : string) : Res TaskStateSnapshot * Files :=
  match id_parse KRequest task_id with
  | Err e => (Err e, files)
  | Ok _ =>
      with_writer_transaction s files o (fun writer _ =>
        match (enter_record files o writer >>? store_read s files (Some task_id)) with
        | Err e => (Err e, files)
        | Ok snapshot =>
            match atomic_write files (latest_task_path s) (to_storage snapshot) (out_latest o) with
            | (Err error, files) =>
                (Err (internal "failed to atomically refresh latest task state"
                        ⊕ ("task_id", task_id) ⊕ ("io_error", error)), files)
            | (Ok _, files) => (Ok snapshot, files)
            end
        end)
  end.

(** ** Operations as trees of accesses *)

Inductive Access :=
| ARead (task_id : string)
| ACommit (snapshot : TaskStateSnapshot) (expected : StateVersion) (mode : TaskStateCommitMode)
| ARefresh (task_id : string).

Definition perform (s : FileSystemTaskStateStore) (files : Files) (o : Outcomes) (a : Access) :
    Res TaskStateSnapshot * Files :=
  match a with
  | ARead task_id => (store_read s files (Some task_id), files)
  | ACommit snapshot expected mode => commit_snapshot s files o snapshot expected mode
  | ARefresh task_id => refresh_latest s files o task_id
  end.

Inductive StoreProg (A : Type) :=
| Done (result : Res A)
| Perform (a : Access) (k : Res TaskStateSnapshot -> StoreProg A).
Arguments Done {A} result.
Arguments Perform {A} a k.

(** [self.read(Some(task_id))?] *)
Definition reading {A} (task_id : string) (k : TaskStateSnapshot -> StoreProg A) : StoreProg A :=
  Perform (ARead task_id) (fun r => match r with Ok t => k t | Err e => Done (Err e) end).

(** [return self.refresh_latest(task_id)] *)
Definition refreshing (task_id : string) : StoreProg TaskStateSnapshot :=
  Perform (ARefresh task_id) Done.

(** An [Err] of the local computation ends the operation. *)
Definition attempt {A B} (r : Res B) (k : B -> StoreProg A) : StoreProg A :=
  match r with Ok b => k b | Err e => Done (Err e) end.

(** [match self.compare_and_set..(&candidate) { Ok(committed) => .., Err(error)
    => { let observed = self.read(..)?; if observed.record_version ==
    expected_version { return Err(error) } .. } }] *)
Definition committing {A} (task_id : string) (expected_version : StateVersion)
    (candidate : TaskStateSnapshot) (mode : TaskStateCommitMode)
    (committed : TaskStateSnapshot -> StoreProg A)
    (conflicted : TaskStateSnapshot -> StoreProg A) : StoreProg A :=
  Perform (ACommit candidate (ts_record_version candidate) mode) (fun r =>
    match r with
    | Ok t => committed t
    | Err error =>
        reading task_id (fun observed =>
          if (ts_record_version observed =? expected_version)%N then Done (Err error)
          else conflicted observed)
    end).

Definition returning : TaskStateSnapshot -> StoreProg TaskStateSnapshot := fun t => Done (Ok t).

(** [for _ in 0..TASK_STATE_CAS_RETRY_LIMIT { .. } Err(exceeded)] *)
Fixpoint cas_loop {A} (fuel : nat) (body : StoreProg A -> StoreProg A) (exceeded : EvaError) :
    StoreProg A :=
  match fuel with
  | O => Done (Err exceeded)
  | S fuel => body (cas_loop fuel body exceeded)
  end.

(** ** The operations *)

Definition create (snapshot : TaskStateSnapshot) : StoreProg TaskStateSnapshot :=
  if negb (ts_record_version snapshot =? 0)%N then
    Done (Err (invalid_argument "new task state must start at record version zero"
                 ⊕ ("task_id", ts_task_id snapshot)
                 ⊕ ("actual", n_to_string (ts_record_version snapshot))))
  else Perform (ACommit snapshot 0 Create) Done.

Definition compare_and_set (snapshot : TaskStateSnapshot) : StoreProg TaskStateSnapshot :=
  Perform (ACommit snapshot (ts_record_version snapshot) CompareAndSet) Done.

(** [update] is the caller's closure. *)
Definition update_snapshot (task_id : string) (update : TaskStateSnapshot -> Res TaskStateSnapshot) :
    StoreProg TaskStateSnapshot :=
  reading task_id (fun snapshot => attempt (update snapshot) (fun updated =>
    if negb (ts_record_version updated =? ts_record_version snapshot)%N
       || negb (ts_owner_generation updated =? ts_owner_generation snapshot)%N then
      Done (Err (invalid_argument "task update cannot modify record version or owner generation"))
    else compare_and_set updated)).

Definition not_claimable (t : TaskStateSnapshot) : bool :=
  negb (String.eqb (ts_status t) "queued") || is_none (ts_envelope t) || ts_cancel_requested t
  || match ts_dead_letters t with [] => false | _ => true end
  || (ts_retry_max_attempts t <=? ts_attempts t)%N
  || is_some (ts_execution_owner t) || is_some (ts_cancel_token t).

Definition try_claim_queued (task_id execution_owner cancel_token : string) (observed_at_ms : N) :
    StoreProg (option TaskExecutionClaim) :=
  attempt (validate_execution_owner execution_owner) (fun _ =>
  attempt (validate_cancel_token cancel_token) (fun _ =>
  reading task_id (fun snapshot =>
  if not_claimable snapshot then Done (Ok None) else
  attempt (ok_or (claim_deadline snapshot observed_at_ms)
             (conflict "task attempt deadline is out of range" ⊕ ("task_id", task_id)))
    (fun deadline_at_ms =>
  attempt (claim_for_execution snapshot execution_owner observed_at_ms deadline_at_ms cancel_token)
    (fun '(n, candidate) =>
  committing task_id (ts_record_version snapshot) candidate CompareAndSet
    (fun committed => Done (result_map Some (task_execution_claim committed)))
    (fun current =>
      if String.eqb (ts_status current) "running"
         && bool_decide (ts_execution_owner current = Some execution_owner)
         && (ts_attempts current =? n)%N
         && bool_decide (ts_cancel_token current = Some cancel_token)
      then Perform (ARefresh task_id) (fun r =>
             attempt r (fun current => Done (result_map Some (task_execution_claim current))))
      else Done (Ok None))))))).

Definition cas_limit_error (message task_id : string) : EvaError :=
  conflict message ⊕ ("task_id", task_id).

Definition requeue_retryable (task_id : string) (observed_at_ms : N) : StoreProg TaskStateSnapshot :=
  attempt (id_parse KRequest task_id) (fun _ =>
  cas_loop TASK_STATE_CAS_RETRY_LIMIT (fun again =>
    reading task_id (fun current =>
    match task_retry_transition_candidate current observed_at_ms with
    | None => Done (Ok current)
    | Some candidate =>
        committing task_id (ts_record_version current) candidate RetryRequeue returning
          (fun observed =>
            if is_none (task_retry_transition_candidate observed observed_at_ms)
            then Done (Ok observed) else again)
    end))
    (cas_limit_error "task retry requeue exceeded the CAS retry limit" task_id)).

Definition recover_abandoned_replay_delivery (s : FileSystemTaskStateStore) (task_id : string) :
    StoreProg TaskStateSnapshot :=
  attempt (id_parse KRequest task_id) (fun _ =>
  attempt (ok_or (wg_generation <$> tss_writer s)
             (conflict "replay delivery recovery requires runtime writer ownership"))
    (fun writer_generation =>
  cas_loop TASK_STATE_CAS_RETRY_LIMIT (fun again =>
    reading task_id (fun current =>
    if is_none (ts_replay_delivery current) then
      Done (Err (conflict "task is not a persisted replay delivery" ⊕ ("task_id", task_id)))
    else if String.eqb (ts_status current) "running"
            && (ts_owner_generation current =? writer_generation)%N then
      Done (Err (conflict "current writer cannot reclaim its own running replay delivery"
                   ⊕ ("task_id", task_id)))
    else match task_replay_recovery_candidate current with
    | None => Done (Ok current)
    | Some candidate =>
        committing task_id (ts_record_version current) candidate RetryRequeue returning
          (fun observed =>
            if is_none (task_replay_recovery_candidate observed)
            then Done (Ok observed) else again)
    end))
    (cas_limit_error "replay delivery recovery exceeded the CAS retry limit" task_id))).

Definition recovery_writer_generation (s : FileSystemTaskStateStore) : Res WriterGeneration :=
  ok_or (wg_generation <$> tss_writer s)
    (conflict "task restart recovery requires runtime writer ownership").

Definition recover_abandoned_task_for_retry (s : FileSystemTaskStateStore) (task_id : string) :
    StoreProg TaskStateSnapshot :=
  attempt (id_parse KRequest task_id) (fun _ =>
  attempt (recovery_writer_generation s) (fun writer_generation =>
  cas_loop TASK_STATE_CAS_RETRY_LIMIT (fun again =>
    reading task_id (fun current =>
    if is_some (ts_replay_delivery current) then
      Done (Err (conflict "operator task recovery cannot mutate a replay delivery"
                   ⊕ ("task_id", task_id)))
    else if String.eqb (ts_status current) "queued" then Done (Ok current)
    else match task_abandoned_recovery_candidate current with
    | None => Done (Ok current)
    | Some candidate =>
        attempt (reject_current_generation_recovery current writer_generation) (fun _ =>
        committing task_id (ts_record_version current) candidate RetryRequeue returning
          (fun observed =>
            if String.eqb (ts_status observed) "queued"
               || is_none (task_abandoned_recovery_candidate observed)
            then Done (Ok observed) else again))
    end))
    (cas_limit_error "abandoned task recovery exceeded the CAS retry limit" task_id))).

Definition recover_task_from_committed_effect (s : FileSystemTaskStateStore)
    (task_id operation_digest result_digest : string) (result_size_bytes : N) :
    StoreProg TaskStateSnapshot :=
  attempt (id_parse KRequest task_id) (fun _ =>
  attempt (validate_canonical_sha256 operation_digest "effect operation digest") (fun _ =>
  attempt (validate_canonical_sha256 result_digest "task result digest") (fun _ =>
  attempt (recovery_writer_generation s) (fun writer_generation =>
  cas_loop TASK_STATE_CAS_RETRY_LIMIT (fun again =>
    reading task_id (fun current =>
    attempt (recover_committed_effect current operation_digest result_digest result_size_bytes)
      (fun candidate =>
    if bool_decide (candidate = current) then Done (Ok current) else
    attempt (reject_current_generation_recovery current writer_generation) (fun _ =>
    committing task_id (ts_record_version current) candidate RestartRecovery returning
      (fun _ => again)))))
    (cas_limit_error "committed effect task recovery exceeded the CAS retry limit" task_id
       ⊕ ("operation_digest", operation_digest)))))).

Definition block_task_for_unknown_effect (s : FileSystemTaskStateStore)
    (task_id operation_digest : string) : StoreProg TaskStateSnapshot :=
  attempt (id_parse KRequest task_id) (fun _ =>
  attempt (validate_canonical_sha256 operation_digest "effect operation digest") (fun _ =>
  attempt (recovery_writer_generation s) (fun writer_generation =>
  cas_loop TASK_STATE_CAS_RETRY_LIMIT (fun again =>
    reading task_id (fun current =>
    attempt (block_unknown_effect current operation_digest) (fun candidate =>
    if bool_decide (candidate = current) then Done (Ok current) else
    attempt (reject_current_generation_recovery current writer_generation) (fun _ =>
    committing task_id (ts_record_version current) candidate RestartRecovery returning
      (fun _ => again)))))
    (cas_limit_error "unknown effect task block exceeded the CAS retry limit" task_id
       ⊕ ("operation_digest", operation_digest))))).

Definition superseded (message : string) (fence : TaskAttemptFence) (t : TaskStateSnapshot) : EvaError :=
  conflict message ⊕ ("task_id", fence_task_id fence) ⊕ ("status", ts_status t).

Definition fence_cancel (t : TaskStateSnapshot) (fence : TaskAttemptFence) : Res TaskStateSnapshot :=
  cancel_execution t (fence_execution_owner fence) (fence_attempt fence) (fence_cancel_token fence).

Definition finish_execution (fence : TaskAttemptFence) (outcome : TaskAttemptOutcome) :
    StoreProg TaskStateSnapshot :=
  let task_id := fence_task_id fence in
  cas_loop TASK_STATE_CAS_RETRY_LIMIT (fun again =>
    reading task_id (fun current =>
    attempt (verify_task_attempt_fence current fence) (fun _ =>
    if task_attempt_outcome_is_committed current outcome
       || String.eqb (ts_status current) "cancelled" then refreshing task_id else
    attempt (if String.eqb (ts_status current) "running" then
               apply_task_attempt_outcome current fence outcome
             else if String.eqb (ts_status current) "cancelling" then fence_cancel current fence
             else Err (superseded "task attempt terminal result was superseded" fence current))
      (fun finished =>
    committing task_id (ts_record_version current) finished AttemptOutcome returning
      (fun _ => again)))))
    (cas_limit_error "task attempt finish exceeded the CAS retry limit" task_id).

Definition finish_committed_effect_execution (fence : TaskAttemptFence) (result_digest : string)
    (result_size_bytes : N) : StoreProg TaskStateSnapshot :=
  let task_id := fence_task_id fence in
  let outcome := OutcomeCompleted result_digest result_size_bytes in
  cas_loop TASK_STATE_CAS_RETRY_LIMIT (fun again =>
    reading task_id (fun current =>
    attempt (verify_task_attempt_fence current fence) (fun _ =>
    if task_attempt_outcome_is_committed current outcome then refreshing task_id
    else if negb (is_one_of (ts_status current) ["running"; "cancelling"]) then
      Done (Err (superseded "committed effect task outcome was superseded" fence current))
    else
    attempt (complete_committed_effect_execution current (fence_execution_owner fence)
               (fence_attempt fence) (fence_cancel_token fence) result_digest result_size_bytes)
      (fun finished =>
    committing task_id (ts_record_version current) finished AttemptOutcome returning
      (fun _ => again)))))
    (cas_limit_error "committed effect task finish exceeded the CAS retry limit" task_id).

Definition request_execution_cancellation (fence : TaskAttemptFence) (reason : string) :
    StoreProg TaskStateSnapshot :=
  let task_id := fence_task_id fence in
  cas_loop TASK_STATE_CAS_RETRY_LIMIT (fun again =>
    reading task_id (fun current =>
    attempt (verify_task_attempt_fence current fence) (fun _ =>
    if is_terminal current then refreshing task_id
    else if ts_cancel_requested current then refreshing task_id
    else if negb (is_one_of (ts_status current) ["running"; "cancelling"]) then
      Done (Err (superseded "task attempt cannot enter shutdown cancellation" fence current))
    else
    committing task_id (ts_record_version current) (request_cancel current reason) CompareAndSet
      returning
      (fun observed =>
        if is_terminal observed || ts_cancel_requested observed then refreshing task_id else again))))
    (cas_limit_error "task shutdown cancellation exceeded the CAS retry limit" task_id).

Definition block_prepared_effect_execution (fence : TaskAttemptFence) (operation_digest : string) :
    StoreProg TaskStateSnapshot :=
  let task_id := fence_task_id fence in
  attempt (validate_canonical_sha256 operation_digest "effect operation digest") (fun _ =>
  cas_loop TASK_STATE_CAS_RETRY_LIMIT (fun again =>
    reading task_id (fun current =>
    attempt (verify_task_attempt_fence current fence) (fun _ =>
    attempt (block_unknown_effect current operation_digest) (fun candidate =>
    if bool_decide (candidate = current) then refreshing task_id
    else if negb (is_one_of (ts_status current) ["running"; "cancelling"]) then
      Done (Err (superseded "prepared effect attempt is no longer active" fence current))
    else
    committing task_id (ts_record_version current) candidate AttemptOutcome returning
      (fun observed =>
        if requires_operator_reconciliation observed then
          if bool_decide (ts_interrupted_reason observed = ts_interrupted_reason candidate)
          then refreshing task_id
          else Done (Err (cas_limit_error
                 "prepared effect shutdown block conflicts with another operation" task_id
                   ⊕ ("operation_digest", operation_digest)))
        else again)))))
    (cas_limit_error "prepared effect shutdown block exceeded the CAS retry limit" task_id
       ⊕ ("operation_digest", operation_digest))).

Definition heartbeat_execution (fence : TaskAttemptFence) (heartbeat_at_ms : N) :
    StoreProg TaskStateSnapshot :=
  let task_id := fence_task_id fence in
  cas_loop TASK_STATE_CAS_RETRY_LIMIT (fun again =>
    reading task_id (fun current =>
    attempt (verify_task_attempt_fence current fence) (fun _ =>
    if negb (is_one_of (ts_status current) ["running"; "cancelling"]) then
      Done (Err (superseded "task heartbeat cannot renew a terminal attempt" fence current))
    else if (heartbeat_at_ms <=? default 0 (ts_heartbeat_at_ms current))%N then Done (Ok current)
    else
    committing task_id (ts_record_version current) (touch_heartbeat current heartbeat_at_ms) Heartbeat
      returning (fun _ => again))))
    (cas_limit_error "task heartbeat exceeded the CAS retry limit" task_id).

Definition cancel_recorded (reason : string) (t : TaskStateSnapshot) : bool :=
  ts_cancel_requested t && bool_decide (ts_cancel_reason t = Some reason).

Definition request_cancellation (task_id reason : string) : StoreProg TaskStateSnapshot :=
  cas_loop TASK_STATE_CAS_RETRY_LIMIT (fun again =>
    reading task_id (fun current =>
    if cancel_recorded reason current then refreshing task_id else
    let cancelled := request_cancel current reason in
    let candidate := if String.eqb (ts_status current) "queued" then mark_cancelled cancelled
                     else cancelled in
    committing task_id (ts_record_version current) candidate CompareAndSet returning
      (fun observed => if cancel_recorded reason observed then refreshing task_id else again)))
    (cas_limit_error "task cancellation exceeded the CAS retry limit" task_id).
