(* ===== verification/TaskWritable.v ===== *)
(** * Records the disk can hold (crates/eva-storage/src/task_state.rs)

    [writable] collects what the Rust types give for free (machine ranges,
    UTF-8 texts) and what the record format asks besides [validate] (optional
    texts are absent or non-empty, error classification only with an
    envelope).  Every lifecycle operation keeps it, so that what the store
    commits is what a later read returns. *)

From Stdlib Require Import Ascii.
From stdpp Require Import base numbers strings gmap list.
From S2P Require Import Prelude RustStr Error Ids Digest Durable TaskState.
From S2P Require Import TaskTransition TaskAccept FieldEscape TaskStorage TaskStore.

Definition utf8_opt (o : option string) : Prop :=
  match o with Some s => utf8_valid s = true | None => True end.

Definition input_utf8 (i : TaskInputSnapshot) : Prop :=
  match i with
  | InputInline _ digest => utf8_valid digest = true
  | InputArtifact artifact_ref digest => utf8_valid artifact_ref = true /\ utf8_valid digest = true
  end.

Record task_utf8 (t : TaskStateSnapshot) : Prop := {
  tu_id : utf8_valid (ts_task_id t) = true;
  tu_status : utf8_valid (ts_status t) = true;
  tu_owner : utf8_opt (ts_execution_owner t);
  tu_cancel_reason : utf8_opt (ts_cancel_reason t);
  tu_token : utf8_opt (ts_cancel_token t);
  tu_digest : utf8_opt (ts_result_digest t);
  tu_interrupted : utf8_opt (ts_interrupted_reason t);
  tu_kind : utf8_opt (ts_error_kind t);
  tu_message : utf8_opt (ts_error_message t);
  tu_marker : utf8_opt (rd_replay_event_id <$> ts_replay_delivery t);
  tu_envelope : forall e, ts_envelope t = Some e ->
    utf8_valid (env_kind e) = true /\ utf8_valid (env_agent_id e) = true /\
    utf8_valid (env_idempotency_key e) = true /\ input_utf8 (env_input e);
  tu_logs : Forall (fun l => utf8_valid (tl_level l) = true /\ utf8_valid (tl_message l) = true)
              (ts_logs t);
  tu_dead : Forall (fun d => utf8_valid (td_event_id d) = true /\ utf8_valid (td_topic d) = true /\
                utf8_valid (td_reason_kind d) = true /\ utf8_valid (td_reason d) = true)
              (ts_dead_letters t);
  tu_replays : Forall (fun r => utf8_valid (tr_event_id r) = true /\ utf8_valid (tr_topic r) = true)
              (ts_replayed_events t)
}.

Record writable (t : TaskStateSnapshot) : Prop := {
  wr_range : task_in_range t;
  wr_utf8 : task_utf8 t;
  wr_cancel_reason : ts_cancel_reason t <> Some "";
  wr_interrupted : ts_interrupted_reason t <> Some "";
  wr_error_kind : ts_error_kind t <> Some "";
  wr_error_message : ts_error_message t <> Some "";
  wr_plain : ts_envelope t = None -> ts_error_retryable t = None /\ ts_retry_ready_at_ms t = None
}.

Lemma writable_storable t :
  writable t -> task_validate t = Ok tt ->
  (ts_record_version t <> 0%N \/ ts_owner_generation t = 0%N) -> storable t.
Proof. intros [] ? ?. by constructor. Qed.

(** ** The stored text is UTF-8 *)

Lemma opt_field_utf8 {A} (f : A -> string) o :
  (forall a, o = Some a -> utf8_valid (f a) = true) -> utf8_valid (opt_field f o) = true.
Proof. destruct o; [|done]. intros H. by apply H. Qed.
Lemma opt_encode_utf8 o : utf8_opt o -> utf8_valid (opt_field encode_field o) = true.
Proof. destruct o; [|done]. cbn. apply encode_field_utf8. Qed.
Lemma opt_number_utf8 o : utf8_valid (opt_field n_to_string o) = true.
Proof. destruct o; [|done]. apply n_to_string_utf8. Qed.
Lemma bool_to_string_utf8 b : utf8_valid (bool_to_string b) = true.
Proof. by destruct b. Qed.
Lemma bar_utf8 a b : utf8_valid a = true -> utf8_valid b = true -> utf8_valid (a +:+ "|" +:+ b) = true.
Proof. intros. repeat apply utf8_valid_append; done. Qed.

#[export] Hint Resolve opt_encode_utf8 opt_number_utf8 bool_to_string_utf8 bar_utf8
  encode_field_utf8 n_to_string_utf8 hex_encode_utf8 : eva.

Ltac utf8_fields :=
  repeat (apply Forall_cons; split; [cbn [snd]; eauto with eva|]); apply Forall_nil_2.

Lemma task_fields_utf8 t : task_utf8 t -> Forall (fun f => utf8_valid f.2 = true) (task_fields t).
Proof.
  intros []. unfold task_fields. rewrite !Forall_app. split_and!.
  - assert (utf8_valid (match ts_envelope t with
      Some _ => TASK_STATE_FORMAT_V5 | None => TASK_STATE_FORMAT_V2 end) = true)
      by (by destruct (ts_envelope t)).
    utf8_fields.
  - destruct (ts_envelope t) as [e|] eqn:Ee; [|constructor].
    destruct (tu_envelope0 e eq_refl) as (? & ? & ? & Hi).
    unfold envelope_fields. destruct (input_fields (env_input e)) as [[[ik ih] ar] dg] eqn:Ei.
    assert (utf8_valid ik = true /\ utf8_valid ih = true /\ utf8_valid ar = true /\
            utf8_valid dg = true) as (? & ? & ? & ?).
    { destruct (env_input e); cbn in Hi, Ei; injection Ei as <- <- <- <-;
        split_and!; naive_solver eauto with eva. }
    assert (utf8_valid (opt_field id (ts_result_digest t)) = true) by (by destruct (ts_result_digest t)).
    assert (utf8_valid (opt_field (fun r => encode_field (rd_replay_event_id r))
      (ts_replay_delivery t)) = true).
    { destruct (ts_replay_delivery t); [|done]. by apply encode_field_utf8. }
    assert (utf8_valid (opt_field (fun r => n_to_string (rd_delivery_index r))
      (ts_replay_delivery t)) = true).
    { destruct (ts_replay_delivery t); [|done]. apply n_to_string_utf8. }
    assert (utf8_valid (opt_field bool_to_string (ts_error_retryable t)) = true)
      by (by destruct (ts_error_retryable t) as [[]|]).
    utf8_fields.
  - utf8_fields.
  - apply Forall_fmap. eapply Forall_impl; [done|]. intros l [? ?]. cbn. eauto with eva.
  - apply Forall_fmap. eapply Forall_impl; [done|]. intros l (? & ? & ? & ?). cbn. eauto 10 with eva.
  - apply Forall_fmap. eapply Forall_impl; [done|]. intros l [? ?]. cbn. eauto 10 with eva.
Qed.

Lemma to_storage_utf8 t : writable t -> task_valid t -> utf8_valid (to_storage t) = true.
Proof.
  intros [_ Hu _ _ _ _ _] Hv. unfold to_storage. rewrite join_nl_snoc_empty.
  assert (foldr (fun l acc => l +:+ String nl acc) "" (field_line <$> task_fields t)
          = render (task_fields t)) as ->.
  { unfold render. induction (task_fields t) as [|f fs IH]; [done|]. cbn. by rewrite IH. }
  apply render_utf8; [by apply task_fields_clean|by apply task_fields_utf8].
Qed.

(** ** One field at a time *)

(** Rebuild the three records slot by slot: slot [n] is the updated one and
    gets [new], the others are those of [t] (slot 0: none is updated). *)
Ltac slot k n new old := match n with k => exact new | _ => exact old end.
Ltac range_update n new R :=
  constructor;
  [ slot 1 n new (tir_version _ R) | slot 2 n new (tir_generation _ R) | slot 3 n new (tir_max _ R)
  | slot 4 n new (tir_heartbeat _ R) | slot 5 n new (tir_deadline _ R) | slot 6 n new (tir_ready _ R)
  | slot 7 n new (tir_size _ R) | exact (tir_index _ R) | exact (tir_policy _ R)
  | slot 8 n new (tir_logs _ R) | exact (tir_dead _ R) | exact (tir_replays _ R) ].
Ltac utf8_update n new U :=
  constructor;
  [ exact (tu_id _ U) | slot 1 n new (tu_status _ U) | slot 2 n new (tu_owner _ U)
  | slot 3 n new (tu_cancel_reason _ U) | slot 4 n new (tu_token _ U) | slot 5 n new (tu_digest _ U)
  | slot 6 n new (tu_interrupted _ U) | slot 7 n new (tu_kind _ U) | slot 8 n new (tu_message _ U)
  | exact (tu_marker _ U) | exact (tu_envelope _ U) | slot 9 n new (tu_logs _ U)
  | exact (tu_dead _ U) | exact (tu_replays _ U) ].
(** Range slot, text slot, format slot, each with its new proof. *)
Ltac writable_update W nr r nu u nt p :=
  let R := fresh in let U := fresh in
  pose proof (wr_range _ W) as R; pose proof (wr_utf8 _ W) as U; constructor;
  [> range_update nr r R | utf8_update nu u U
  | slot 1 nt p (wr_cancel_reason _ W) | slot 2 nt p (wr_interrupted _ W)
  | slot 3 nt p (wr_error_kind _ W) | slot 4 nt p (wr_error_message _ W)
  | slot 5 nt p (wr_plain _ W) ].

Lemma writable_status t v (Hu : utf8_valid v = true) (W : writable t) :
  writable (t <| ts_status := v |>).
Proof. writable_update W 0 I 1 Hu 0 I. Qed.
Lemma writable_attempts t n (W : writable t) :
  writable (t <| ts_attempts := n |>).
Proof. writable_update W 0 I 0 I 0 I. Qed.
Lemma writable_owner t o (Hu : utf8_opt o) (W : writable t) :
  writable (t <| ts_execution_owner := o |>).
Proof. writable_update W 0 I 2 Hu 0 I. Qed.
Lemma writable_token t o (Hu : utf8_opt o) (W : writable t) :
  writable (t <| ts_cancel_token := o |>).
Proof. writable_update W 0 I 4 Hu 0 I. Qed.
Lemma writable_cancel_requested t b (W : writable t) :
  writable (t <| ts_cancel_requested := b |>).
Proof. writable_update W 0 I 0 I 0 I. Qed.
Lemma writable_cancel_accepted t b (W : writable t) :
  writable (t <| ts_cancel_accepted := b |>).
Proof. writable_update W 0 I 0 I 0 I. Qed.
Lemma writable_cancel_reason t o (Hn : o <> Some "") (Hu : utf8_opt o) (W : writable t) :
  writable (t <| ts_cancel_reason := o |>).
Proof. writable_update W 0 I 3 Hu 1 Hn. Qed.
Lemma writable_heartbeat t o (Hr : opt_le u128_max o) (W : writable t) :
  writable (t <| ts_heartbeat_at_ms := o |>).
Proof. writable_update W 4 Hr 0 I 0 I. Qed.
Lemma writable_deadline t o (Hr : opt_le u128_max o) (W : writable t) :
  writable (t <| ts_deadline_at_ms := o |>).
Proof. writable_update W 5 Hr 0 I 0 I. Qed.
Lemma writable_digest t o (Hu : utf8_opt o) (W : writable t) :
  writable (t <| ts_result_digest := o |>).
Proof. writable_update W 0 I 5 Hu 0 I. Qed.
Lemma writable_size t o (Hr : opt_le usize_max o) (W : writable t) :
  writable (t <| ts_result_size_bytes := o |>).
Proof. writable_update W 7 Hr 0 I 0 I. Qed.
Lemma writable_interrupted t o (Hn : o <> Some "") (Hu : utf8_opt o) (W : writable t) :
  writable (t <| ts_interrupted_reason := o |>).
Proof. writable_update W 0 I 6 Hu 2 Hn. Qed.
Lemma writable_error_kind t o (Hn : o <> Some "") (Hu : utf8_opt o) (W : writable t) :
  writable (t <| ts_error_kind := o |>).
Proof. writable_update W 0 I 7 Hu 3 Hn. Qed.
Lemma writable_error_message t o (Hn : o <> Some "") (Hu : utf8_opt o) (W : writable t) :
  writable (t <| ts_error_message := o |>).
Proof. writable_update W 0 I 8 Hu 4 Hn. Qed.
Lemma writable_error_retryable t o (He : ts_envelope t = None -> o = None) (W : writable t) :
  writable (t <| ts_error_retryable := o |>).
Proof. 
  assert (Hp : ts_envelope t = None -> o = None /\ ts_retry_ready_at_ms t = None)
    by (intros E; split; [by apply He|by apply (wr_plain t W)]).
  writable_update W 0 I 0 I 5 Hp. Qed.
Lemma writable_retry_ready t o (He : ts_envelope t = None -> o = None) (Hr : opt_le u128_max o) (W : writable t) :
  writable (t <| ts_retry_ready_at_ms := o |>).
Proof. 
  assert (Hp : ts_envelope t = None -> ts_error_retryable t = None /\ o = None)
    by (intros E; split; [by apply (wr_plain t W)|by apply He]).
  writable_update W 6 Hr 0 I 5 Hp. Qed.
Lemma writable_version t v (Hr : (v <= u64_max)%N) (W : writable t) :
  writable (t <| ts_record_version := v |>).
Proof. writable_update W 1 Hr 0 I 0 I. Qed.
Lemma writable_generation t g (Hr : (g <= u64_max)%N) (W : writable t) :
  writable (t <| ts_owner_generation := g |>).
Proof. writable_update W 2 Hr 0 I 0 I. Qed.

Lemma wrapping_add_le max a b : (wrapping_add max a b <= max)%N.
Proof. unfold wrapping_add. pose proof (N.mod_upper_bound (a + b) (max + 1)). lia. Qed.

Lemma writable_push_log t level message (Hl : utf8_valid level = true)
    (Hm : utf8_valid message = true) (W : writable t) : writable (push_log t level message).
Proof.
  unfold push_log.
  set (log := MkTaskLog _ level message).
  assert (Hr : Forall (fun l => tl_sequence l <= u64_max)%N (ts_logs t ++ [log])).
  { apply Forall_snoc. split; [exact (tir_logs _ (wr_range _ W))|]. apply wrapping_add_le. }
  assert (Hu : Forall (fun l => utf8_valid (tl_level l) = true /\ utf8_valid (tl_message l) = true)
                 (ts_logs t ++ [log])).
  { apply Forall_snoc. split; [exact (tu_logs _ (wr_utf8 _ W))|]. split; assumption. }
  writable_update W 8 Hr 9 Hu 0 I.
Qed.

Create HintDb writable.
#[export] Hint Resolve writable_status writable_attempts writable_owner writable_token
  writable_cancel_requested writable_cancel_accepted writable_cancel_reason writable_heartbeat
  writable_deadline writable_digest writable_size writable_interrupted writable_error_kind
  writable_error_message writable_error_retryable writable_retry_ready writable_push_log
  n_to_string_utf8 : writable.
#[export] Hint Extern 5 (_ <> _) => congruence : writable.
#[export] Hint Extern 5 (utf8_valid _ = true) => reflexivity : writable.
#[export] Hint Extern 3 (utf8_opt _) => first [exact I | assumption | reflexivity] : writable.
#[export] Hint Extern 3 (opt_le _ _) => first [exact I | assumption] : writable.

Lemma clear_result_writable t : writable t -> writable (clear_result t).
Proof. intros. unfold clear_result. auto with writable. Qed.
Lemma clear_error_writable t : writable t -> writable (clear_error t).
Proof. intros. unfold clear_error. auto 20 with writable. Qed.
#[export] Hint Resolve clear_result_writable clear_error_writable : writable.

(** ** The operations *)

Lemma request_cancel_writable t reason :
  reason <> "" -> utf8_valid reason = true -> writable t -> writable (request_cancel t reason).
Proof.
  intros ? ? ?. unfold request_cancel. case_match; apply writable_push_log;
    auto using utf8_valid_append with writable.
Qed.

Lemma mark_cancelled_writable t : writable t -> writable (mark_cancelled t).
Proof. intros. unfold mark_cancelled. auto 20 with writable. Qed.

Lemma touch_heartbeat_writable t now :
  (now <= u128_max)%N -> writable t -> writable (touch_heartbeat t now).
Proof.
  intros Hn Hw. unfold touch_heartbeat. apply writable_heartbeat; [|done].
  pose proof (tir_heartbeat t (wr_range t Hw)) as Hh.
  destruct (ts_heartbeat_at_ms t); cbn in *; lia.
Qed.

Lemma reset_to_queued_writable t : writable t -> writable (reset_to_queued t).
Proof. intros. unfold reset_to_queued. auto 20 with writable. Qed.
#[export] Hint Resolve mark_cancelled_writable reset_to_queued_writable : writable.

Lemma claim_deadline_le t now deadline :
  claim_deadline t now = Some deadline -> opt_le u128_max deadline.
Proof.
  unfold claim_deadline. destruct (_ ≫= _) as [ms|]; [|by intros [= <-]].
  destruct (checked_add u128_max now ms) eqn:E; [|done]. intros [= <-].
  by apply checked_add_Some in E as [-> ?].
Qed.

Lemma claim_writable t owner now deadline token n t' :
  claim_for_execution t owner now deadline token = Ok (n, t') ->
  utf8_valid owner = true -> utf8_valid token = true -> (now <= u128_max)%N ->
  opt_le u128_max deadline -> writable t -> writable t'.
Proof.
  unfold claim_for_execution. intros H ? ? ? ? Hw.
  do 5 apply reject_Ok in H as [_ H]. do 2 apply then_Ok in H as [_ H].
  destruct (ok_or _ _) as [a|]; [|done]. apply reject_Ok in H as [_ H]. cbv zeta in H.
  apply then_Ok in H as [_ H]. injection H as _ <-. unfold mark_running.
  repeat apply writable_push_log; try reflexivity.
  - repeat apply utf8_valid_append; auto with eva.
  - auto 20 with writable.
Qed.

Lemma active_envelope t owner :
  task_validate t = Ok tt -> ts_execution_owner t = Some owner -> ts_envelope t <> None.
Proof. intros Hv%task_validate_iff E. apply (valid_owner t Hv). congruence. Qed.

Lemma complete_writable t owner n token d z t' :
  complete_execution t owner n token d z = Ok t' ->
  utf8_valid d = true -> (z <= usize_max)%N -> writable t -> writable t'.
Proof.
  unfold complete_execution. intros (_ & _ & _ & _ & H)%attempt_guard_Ok ? ? Hw.
  apply then_Ok in H as [_ H]. apply validated_Ok in H as [-> _].
  apply writable_push_log; auto 20 with writable.
Qed.

Lemma complete_committed_writable t owner n token d z t' :
  complete_committed_effect_execution t owner n token d z = Ok t' ->
  utf8_valid d = true -> (z <= usize_max)%N -> writable t -> writable t'.
Proof.
  unfold complete_committed_effect_execution. intros H ? ? Hw. apply then_Ok in H as [_ H].
  apply reject_Ok in H as [_ H]. apply then_Ok in H as [_ H]. apply validated_Ok in H as [-> _].
  apply writable_push_log; [reflexivity..|].
  case_match; auto 20 with writable.
Qed.

Lemma fail_writable t owner n token k m r t' :
  fail_execution t owner n token k m r = Ok t' -> task_validate t = Ok tt ->
  k <> "" -> m <> "" -> utf8_valid k = true -> utf8_valid m = true -> writable t -> writable t'.
Proof.
  unfold fail_execution. intros (Ho & _ & _ & _ & H)%attempt_guard_Ok Hv ? ? ? ? Hw.
  pose proof (active_envelope t owner Hv Ho). apply validated_Ok in H as [-> _]. unfold mark_failed.
  apply writable_push_log; [reflexivity..|]. apply writable_retry_ready; [done|exact I|].
  apply writable_error_retryable; [done|]. auto 20 with writable.
Qed.

Lemma time_out_writable t owner n token now r t' :
  time_out_execution t owner n token now r = Ok t' -> task_validate t = Ok tt ->
  (now <= u128_max)%N -> writable t -> writable t'.
Proof.
  unfold time_out_execution. intros (Ho & _ & _ & _ & H)%attempt_guard_Ok Hv ? Hw.
  pose proof (active_envelope t owner Hv Ho). apply validated_Ok in H as [-> _].
  unfold mark_timed_out. apply writable_push_log; [reflexivity| |].
  { apply utf8_valid_append; auto with eva. }
  apply writable_retry_ready; [done|exact I|]. apply writable_error_retryable; [done|].
  auto 20 with writable.
Qed.

Lemma cancel_writable t owner n token t' :
  cancel_execution t owner n token = Ok t' -> writable t -> writable t'.
Proof.
  unfold cancel_execution. intros (_ & _ & _ & _ & H)%attempt_guard_Ok Hw.
  apply validated_Ok in H as [-> _]. auto with writable.
Qed.

Definition outcome_writable (o : TaskAttemptOutcome) : Prop :=
  match o with
  | OutcomeCompleted d z => utf8_valid d = true /\ (z <= usize_max)%N
  | OutcomeFailed k m _ => k <> "" /\ m <> "" /\ utf8_valid k = true /\ utf8_valid m = true
  | OutcomeTimedOut now _ => (now <= u128_max)%N
  end.

Lemma apply_outcome_writable t fence o t' :
  apply_task_attempt_outcome t fence o = Ok t' -> task_validate t = Ok tt ->
  outcome_writable o -> writable t -> writable t'.
Proof.
  destruct o; cbn [apply_task_attempt_outcome outcome_writable]; intros H Hv Ho Hw.
  - destruct Ho. by eapply complete_writable.
  - destruct Ho as (? & ? & ? & ?). by eapply fail_writable.
  - by eapply time_out_writable.
Qed.

(** Logs of an operation that mentions the record's own texts. *)
Lemma opt_default_utf8 d o : utf8_valid d = true -> utf8_opt o -> utf8_valid (default d o) = true.
Proof. by destruct o. Qed.

Lemma retry_candidate_writable t now p :
  task_retry_transition_candidate t now = Some p -> writable t -> writable p.
Proof.
  intros H Hw. unfold task_retry_transition_candidate in H. destruct (task_retry_is_eligible t) eqn:He; [|done].
  assert (ts_envelope t <> None).
  { unfold task_retry_is_eligible in He. destruct (ts_envelope t); [done|]. by rewrite !andb_false_r in He. }
  assert (forall q, task_retry_requeue_candidate t = Some q -> writable q) as Hreq.
  { unfold task_retry_requeue_candidate. rewrite He. intros q [= <-].
    destruct (wr_utf8 t Hw). apply writable_push_log; [reflexivity| |auto with writable].
    repeat apply utf8_valid_append; auto using opt_default_utf8 with eva. }
  assert (forall r q, (r <= u128_max)%N -> task_retry_schedule_candidate t r = Some q -> writable q) as Hsch.
  { unfold task_retry_schedule_candidate. rewrite He. intros r q Hr H'. case_match; [done|].
    injection H' as <-. apply writable_push_log; [reflexivity| |].
    { repeat apply utf8_valid_append; auto with eva. }
    apply writable_retry_ready; [done|exact Hr|done]. }
  cbn [negb] in H. case_match.
  - case_match; [by apply Hreq|done].
  - case_match; [|done]. case_match; [by apply Hreq|]. eapply Hsch; [|done].
    unfold saturating_add. lia.
Qed.

Lemma recovery_candidate_writable t p :
  task_replay_recovery_candidate t = Some p \/ task_abandoned_recovery_candidate t = Some p ->
  writable t -> writable p.
Proof.
  intros H Hw. pose proof (tu_status t (wr_utf8 t Hw)).
  unfold task_replay_recovery_candidate, task_abandoned_recovery_candidate in H.
  rewrite !ok_Some in H.
  unfold mark_abandoned_replay_delivery_queued, mark_abandoned_task_queued in H.
  destruct H as [H|H]; apply reject_Ok in H as [_ H]; apply validated_Ok in H as [-> _];
    (apply writable_push_log; [reflexivity| |auto with writable]);
    repeat apply utf8_valid_append; auto with eva.
Qed.

Lemma recover_writable t op rd z p :
  recover_committed_effect t op rd z = Ok p ->
  utf8_valid op = true -> utf8_valid rd = true -> (z <= usize_max)%N -> writable t -> writable p.
Proof.
  unfold recover_committed_effect. intros H ? ? ? Hw.
  do 2 apply then_Ok in H as [_ H]. apply reject_Ok in H as [_ H].
  destruct (String.eqb (ts_status t) "completed").
  { destruct (_ && _); [|done]. by injection H as <-. }
  apply reject_Ok in H as [_ H]. apply validated_Ok in H as [-> _].
  apply writable_push_log; [reflexivity| |auto 20 with writable].
  by apply utf8_valid_append.
Qed.

Lemma block_writable t op p :
  block_unknown_effect t op = Ok p -> utf8_valid op = true -> writable t -> writable p.
Proof.
  unfold block_unknown_effect. intros H ? Hw. apply then_Ok in H as [_ H]. cbv zeta in H.
  destruct (String.eqb (ts_status t) "interrupted" && _). { by injection H as <-. }
  do 3 apply reject_Ok in H as [_ H]. apply validated_Ok in H as [-> _].
  assert (utf8_valid (UNKNOWN_EFFECT_RECOVERY_REASON_PREFIX +:+ op) = true)
    by (by apply utf8_valid_append).
  apply writable_push_log; [reflexivity|done|]. apply clear_error_writable.
  apply writable_interrupted; [done|done|]. auto 20 with writable.
Qed.
