(* ===== verification/TaskDirectory.v ===== *)
(** * The task directory and one access to it (crates/eva-storage/src/task_state.rs)

    What the files of a task directory hold, and what one access of a store
    (a read, a commit or a refresh of the latest pointer, with any outcome of
    its locks and writes) does to the record of each task: nothing, its
    creation, or one commit accepted by the transition gate. *)

From Stdlib Require Import Ascii.
From stdpp Require Import base numbers strings gmap list.
From S2P Require Import Prelude RustStr Error Ids Digest Durable TaskState.
From S2P Require Import TaskTransition TaskAccept FieldEscape TaskStorage TaskStore.
From S2P Require Import TaskWritable.

(** ** The task directory *)

Section Directory.
(** The directory the stores share. *)
Context (dir : string).

Definition record_path (task_id : string) : string := path_join dir (task_id +:+ ".task").

Lemma record_path_inj a b : record_path a = record_path b -> a = b.
Proof.
  unfold record_path, path_join. intros H. do 2 apply (inj (String.append _)) in H.
  apply append_inj_length in H as [H _]; [done|].
  apply (f_equal String.length) in H. rewrite !length_append in H. lia.
Qed.

(** A record as the store writes it. *)
Definition stored (t : TaskStateSnapshot) : Prop := storable t /\ writable t.

Definition latest_id : string := "latest-basic".

(** Every task file holds the text of a record the store could have written,
    under its own id (the latest pointer under any id). *)
Definition dir_ok (files : Files) : Prop :=
  forall task_id data, files !! record_path task_id = Some data ->
    exists t, stored t /\ data = to_storage t /\ (task_id <> latest_id -> ts_task_id t = task_id).

(** The record of a task on disk. *)
Definition on_disk (files : Files) (task_id : string) (t : TaskStateSnapshot) : Prop :=
  files !! record_path task_id = Some (to_storage t) /\ stored t /\ ts_task_id t = task_id.

Lemma read_stored files path t :
  files !! path = Some (to_storage t) -> stored t ->
  read_optional_task_snapshot files path = Ok (Some t).
Proof.
  intros Hf [Hs Hw]. unfold read_optional_task_snapshot, read_to_string. rewrite Hf.
  rewrite to_storage_utf8 by (done || (apply task_validate_iff, Hs)).
  by rewrite read_back.
Qed.

Lemma on_disk_unique files task_id t t' : on_disk files task_id t -> on_disk files task_id t' -> t = t'.
Proof.
  intros (H & Hs & _) (H' & Hs' & _). pose proof (read_stored _ _ _ H Hs) as E.
  rewrite (read_stored _ _ _ H' Hs') in E. congruence.
Qed.

(** What a read of a good directory can answer. *)
Lemma read_dir files task_id :
  dir_ok files ->
  match files !! record_path task_id with
  | None => read_optional_task_snapshot files (record_path task_id) = Ok None
  | Some _ => exists t, stored t /\ files !! record_path task_id = Some (to_storage t) /\
      read_optional_task_snapshot files (record_path task_id) = Ok (Some t)
  end.
Proof.
  intros Hd. destruct (files !! record_path task_id) as [data|] eqn:E.
  - destruct (Hd _ _ E) as (t & Hs & -> & _). exists t. split_and!; [done..|].
    by apply read_stored.
  - unfold read_optional_task_snapshot, read_to_string. by rewrite E.
Qed.

(** ** One access *)

(** The stores that share the directory; their generations are [u64]s. *)
Definition store_ok (s : FileSystemTaskStateStore) : Prop :=
  tss_task_dir s = dir /\ forall g, tss_writer s = Some g -> (wg_generation g <= u64_max)%N.

(** The proposals of an operation can be written. *)
Definition access_ok (a : Access) : Prop :=
  match a with ACommit snapshot _ _ => writable snapshot | _ => True end.

(** The effect of one access on one task: none, its creation, or an accepted
    commit. *)
Inductive record_step (files files' : Files) (task_id : string) : Prop :=
| record_same : files' !! record_path task_id = files !! record_path task_id ->
    record_step files files' task_id
| record_created t : files !! record_path task_id = None -> on_disk files' task_id t ->
    ts_record_version t = 1%N -> record_step files files' task_id
| record_committed c : accepted c -> on_disk files task_id (commit_current c) ->
    on_disk files' task_id (commit_committed c) ->
    ts_record_version (commit_committed c) = (ts_record_version (commit_current c) + 1)%N ->
    record_step files files' task_id.

Definition access_effect (files files' : Files) : Prop :=
  dir_ok files' /\ forall task_id, task_id <> latest_id -> record_step files files' task_id.

(** A record an access answers with is the one on disk when it returns. *)
Definition answered (files : Files) (t : TaskStateSnapshot) : Prop :=
  stored t /\ (ts_task_id t <> latest_id -> on_disk files (ts_task_id t) t).

Lemma access_effect_refl files : dir_ok files -> access_effect files files.
Proof. intros. split; [done|]. intros. by apply record_same. Qed.

Lemma dir_ok_insert files task_id t :
  dir_ok files -> stored t -> (task_id <> latest_id -> ts_task_id t = task_id) ->
  dir_ok (<[record_path task_id := to_storage t]> files).
Proof.
  intros Hd Hs Hid task_id' data. destruct (decide (task_id' = task_id)) as [->|Hne].
  - rewrite lookup_insert_eq. intros [= <-]. by exists t.
  - rewrite lookup_insert_ne by (by intros ?%record_path_inj). apply Hd.
Qed.

Lemma latest_path_record s : store_ok s -> latest_task_path s = record_path latest_id.
Proof. intros [E _]. unfold latest_task_path, record_path. by rewrite E. Qed.
Lemma task_file_record s task_id : store_ok s -> task_file s task_id = record_path task_id.
Proof. intros [E _]. unfold task_file, record_path. by rewrite E. Qed.

(** What [commit_snapshot] found when it decided to write. *)
Lemma prepare_commit_Ok s files snapshot expected mode generation path c :
  prepare_commit s files snapshot expected mode generation = Ok (path, c) ->
  path = task_file s (ts_task_id snapshot) /\ task_validate c = Ok tt /\
  exists current, read_optional_task_snapshot files path = Ok current /\
    c = store_commit snapshot (expected + 1)%N generation /\ (expected + 1 <= u64_max)%N /\
    match current with
    | None => expected = 0%N
    | Some current => expected = ts_record_version current /\ create_only mode = false /\
        check_current path current snapshot mode = Ok tt
    end.
Proof.
  unfold prepare_commit, task_path. intros H.
  destruct (id_parse KRequest (ts_task_id snapshot)) as [i|]; [|done].
  destruct (read_optional_task_snapshot files _) as [current|] eqn:Er; [|done].
  apply then_Ok in H as [Hc H]. apply reject_Ok in H as [Hcr H]. cbv zeta in H.
  apply reject_Ok in H as [Hv H]. apply negb_false_iff, N.eqb_eq in Hv.
  destruct (version_checked_next _) as [next|] eqn:En; [|done].
  apply version_checked_next_Ok in En as [-> Hle]. apply then_Ok in H as [[[] Hval] H].
  injection H as <- <-. split; [done|]. split; [done|]. exists current. rewrite Hv in *.
  split_and!; try done. destruct current as [current|]; [|done].
  destruct Hc as [[] Hc]. split_and!; try done. by destruct (create_only mode).
Qed.

Lemma check_current_Ok path current snapshot mode :
  check_current path current snapshot mode = Ok tt ->
  ts_task_id current = ts_task_id snapshot /\ ts_owner_generation current = ts_owner_generation snapshot /\
  ts_envelope snapshot = ts_envelope current /\
  ts_replay_delivery snapshot = ts_replay_delivery current /\
  validate_transition_in mode current snapshot = Ok tt.
Proof.
  unfold check_current. intros H. apply reject_Ok in H as [H1 H]. apply reject_Ok in H as [H2 H].
  apply reject_Ok in H as [H3 H]. reflect_bools. done.
Qed.

(** The files a commit may leave: untouched, with the record replaced, or
    with the latest pointer replaced too. *)
Lemma write_commit_files s files o path c res files' :
  write_commit s files o path c = (res, files') ->
  (files' = files \/ files' = <[path := to_storage c]> files \/
   files' = <[latest_task_path s := to_storage c]> (<[path := to_storage c]> files)) /\
  (forall t, res = Ok t -> t = c /\
     files' = <[latest_task_path s := to_storage c]> (<[path := to_storage c]> files)).
Proof.
  unfold write_commit, atomic_write. intros H.
  destruct (out_canonical o), (out_latest o); simplify_eq; split; auto; naive_solver.
Qed.

Lemma commit_decides s files o snapshot expected mode res files' :
  commit_snapshot s files o snapshot expected mode = (res, files') ->
  (exists e, res = Err e /\ files' = files) \/
  exists path c generation, task_validate snapshot = Ok tt /\
    (generation = 0%N \/ exists g, tss_writer s = Some g /\ generation = wg_generation g /\
       verify_current g files = Ok tt) /\
    prepare_commit s files snapshot expected mode generation = Ok (path, c) /\
    write_commit s files o path c = (res, files').
Proof.
  unfold commit_snapshot. intros H.
  destruct (task_validate snapshot) as [[]|] eqn:Ev; [|left; naive_solver].
  destruct (out_create_dir o) as [u|]; [|left; naive_solver].
  unfold with_writer_transaction in H. destruct (tss_writer s) as [g|] eqn:Ew.
  - unfold with_write_lock in H. destruct (out_process_lock o) as [u'|]; [|left; naive_solver].
    destruct (verify_current g files) as [[]|] eqn:Eg; [|left; naive_solver].
    destruct (enter_record files o (Some g)); [|left; naive_solver].
    destruct (prepare_commit _ _ _ _ _ _) as [[path c]|] eqn:Ep; [|left; naive_solver].
    right. exists path, c, (wg_generation g). split_and!; try done. right. by exists g.
  - destruct (tss_durable_writer_required s); [left; naive_solver|].
    destruct (enter_record files o None); [|left; naive_solver].
    destruct (prepare_commit _ _ _ _ _ _) as [[path c]|] eqn:Ep; [|left; naive_solver].
    right. exists path, c, 0%N. split_and!; try done. by left.
Qed.

Lemma stored_commit snapshot version generation :
  writable snapshot -> task_validate (store_commit snapshot version generation) = Ok tt ->
  (0 < version <= u64_max)%N -> (generation <= u64_max)%N ->
  stored (store_commit snapshot version generation).
Proof.
  intros Hw Hv Hr Hg. assert (writable (store_commit snapshot version generation)) as Hw'.
  { unfold store_commit. apply writable_generation; [done|]. apply writable_version; [lia|done]. }
  split; [|done]. apply writable_storable; try done. left. cbn. lia.
Qed.

Lemma commit_effect s files o snapshot expected mode res files' :
  dir_ok files -> store_ok s -> writable snapshot ->
  commit_snapshot s files o snapshot expected mode = (res, files') ->
  access_effect files files' /\ forall t, res = Ok t -> answered files' t.
Proof.
  intros Hd Hs Hw H.
  apply commit_decides in H as [(e & -> & ->)|(path & c & g & Hv & Hg & Hp & Hwr)].
  { split; [by apply access_effect_refl|done]. }
  assert (g <= u64_max)%N as Hgr.
  { destruct Hg as [->|(w & Hw' & -> & _)]; [done|]. by apply Hs. }
  apply prepare_commit_Ok in Hp as (-> & Hval & current & Hr & Hc & Hle & Hcur).
  assert (stored c) as Hst by (subst c; apply stored_commit; [done..|lia|done]).
  assert (ts_task_id c = ts_task_id snapshot) as Hid by (by subst c).
  rewrite task_file_record in * by done.
  apply write_commit_files in Hwr as [Hfiles Hres].
  rewrite latest_path_record in * by done.
  split.
  2:{ intros t Ht. destruct (Hres t Ht) as [-> ->]. split; [done|]. intros Hl. rewrite Hid in *.
      split_and!; [|done..]. rewrite lookup_insert_ne by (by intros ?%record_path_inj).
      apply lookup_insert_eq. }
  set (files1 := <[record_path (ts_task_id snapshot) := to_storage c]> files) in *.
  assert (dir_ok files1) as Hd1 by (by apply dir_ok_insert).
  split.
  { destruct Hfiles as [-> |[-> | ->]]; [done|done|]. by apply dir_ok_insert. }
  intros task_id Hlatest.
  assert (files' !! record_path task_id = files !! record_path task_id \/
          task_id = ts_task_id snapshot /\ files' !! record_path task_id = Some (to_storage c)) as [E|[-> E]].
  { destruct (decide (task_id = ts_task_id snapshot)) as [->|Hne].
    - destruct Hfiles as [-> |[-> | ->]]; [by left| |].
      + right. split; [done|]. apply lookup_insert_eq.
      + right. split; [done|]. rewrite lookup_insert_ne by (by intros ?%record_path_inj).
        apply lookup_insert_eq.
    - left. assert (files1 !! record_path task_id = files !! record_path task_id) as E1
        by (unfold files1; by rewrite lookup_insert_ne by (by intros ?%record_path_inj)).
      destruct Hfiles as [-> |[-> | ->]]; [done|done|].
      by rewrite lookup_insert_ne by (by intros ?%record_path_inj). }
  - by apply record_same.
  - assert (on_disk files' (ts_task_id snapshot) c) as Hon by (by split_and!).
    pose proof (read_dir files (ts_task_id snapshot) Hd) as Hread.
    destruct (files !! record_path (ts_task_id snapshot)) as [data|] eqn:Ef.
    + destruct Hread as (t & Ht & Hft & Hrt). rewrite Hrt in Hr. injection Hr as <-.
      destruct Hcur as (-> & Hcreate & Hcheck).
      apply check_current_Ok in Hcheck as (Hti & _ & He & Hrd & Hgate).
      apply (record_committed files files' _ (MkCommit mode t c)).
      * exists snapshot, (ts_record_version t + 1)%N, g. by split_and!.
      * split_and!; [by rewrite Ef|done|done].
      * done.
      * by subst c.
    + rewrite Hread in Hr. injection Hr as <-. apply (record_created files files' _ c); [done..|].
      by subst c expected.
Qed.

Lemma store_read_stored s files task_id t :
  dir_ok files -> store_ok s -> store_read s files (Some task_id) = Ok t ->
  stored t /\ ts_task_id t = task_id /\ files !! record_path task_id = Some (to_storage t).
Proof.
  intros Hd Hs H. unfold store_read, task_path in H.
  destruct (id_parse KRequest task_id) as [i|]; [|done].
  rewrite task_file_record in H by done. unfold read_task_snapshot in H.
  pose proof (read_dir files task_id Hd) as Hr.
  destruct (files !! record_path task_id) as [data|].
  - destruct Hr as (t' & Hst & Hf & Hr). rewrite Hr in H. cbn [ok_or] in H.
    apply reject_Ok in H as [Hid H]. injection H as <-. by reflect_bools.
  - by rewrite Hr in H.
Qed.

Lemma refresh_effect s files o task_id res files' :
  dir_ok files -> store_ok s -> refresh_latest s files o task_id = (res, files') ->
  access_effect files files' /\ forall t, res = Ok t -> answered files' t.
Proof.
  intros Hd Hs H. assert (Hsame : access_effect files files) by (by apply access_effect_refl).
  unfold refresh_latest in H. destruct (id_parse KRequest task_id) as [i|]; [|naive_solver].
  assert (forall writer,
    match (enter_record files o writer >>? store_read s files (Some task_id)) with
    | Err e => (Err e, files)
    | Ok snapshot =>
        match atomic_write files (latest_task_path s) (to_storage snapshot) (out_latest o) with
        | (Err error, files) =>
            (Err (internal "failed to atomically refresh latest task state"
                    ⊕ ("task_id", task_id) ⊕ ("io_error", error)), files)
        | (Ok _, files) => (Ok snapshot, files)
        end
    end = (res, files') -> access_effect files files' /\ forall t, res = Ok t -> answered files' t) as Hin.
  { intros writer Hm. destruct (enter_record files o writer); [|naive_solver].
    destruct (store_read s files (Some task_id)) as [t|] eqn:Er; [|naive_solver].
    apply store_read_stored in Er as (Hst & Hid & Hon); [|done..].
    rewrite latest_path_record in Hm by done.
    assert (access_effect files (<[record_path latest_id := to_storage t]> files)).
    { split; [by apply dir_ok_insert|]. intros task_id' Hne. apply record_same.
      by rewrite lookup_insert_ne by (by intros ?%record_path_inj). }
    unfold atomic_write in Hm. destruct (out_latest o); [|naive_solver..]. injection Hm as <- <-.
    split; [done|]. intros t0 [= <-]. split; [done|]. intros Hne. rewrite Hid in *.
    split_and!; [|done..]. by rewrite lookup_insert_ne by (by intros ?%record_path_inj). }
  unfold with_writer_transaction in H. destruct (tss_writer s) as [g|].
  - unfold with_write_lock in H. destruct (out_process_lock o) as [u'|]; [|naive_solver].
    destruct (verify_current g files); [|naive_solver]. by apply Hin in H.
  - destruct (tss_durable_writer_required s); [naive_solver|]. by apply Hin in H.
Qed.

Lemma perform_effect s files o a res files' :
  dir_ok files -> store_ok s -> access_ok a -> perform s files o a = (res, files') ->
  access_effect files files' /\ forall t, res = Ok t -> answered files' t.
Proof.
  intros Hd Hs Ha H. destruct a as [task_id|snapshot expected mode|task_id]; cbn [perform] in H.
  - injection H as <- <-. split; [by apply access_effect_refl|].
    intros t Ht. apply store_read_stored in Ht as (? & Hid & ?); [|done..]. subst task_id. by split.
  - by eapply commit_effect.
  - by eapply refresh_effect.
Qed.
End Directory.

(** ** A directory with one queued task *)

Definition shared_store : FileSystemTaskStateStore := store_new "project".
Definition shared_dir : string := tss_task_dir shared_store.
Definition shared_task : TaskStateSnapshot := sample_task <| ts_record_version := 1%N |>.
Definition shared_files : Files := {[ record_path shared_dir "task-1" := to_storage shared_task ]}.

Lemma shared_store_ok : store_ok shared_dir shared_store.
Proof. done. Qed.

Lemma shared_task_stored : stored shared_task.
Proof.
  assert (writable shared_task) as Hw.
  { split; [|split| | | | |]; try done.
    - split; try done. intros e [= <-]. split_and!; done.
    - intros e [= <-]. split_and!; vm_compute; reflexivity. }
  split; [|exact Hw]. apply writable_storable; [exact Hw|vm_compute; reflexivity|left; discriminate].
Qed.

Lemma shared_on_disk : on_disk shared_dir shared_files "task-1" shared_task.
Proof.
  split; [apply lookup_singleton_eq|]. split; [exact shared_task_stored|reflexivity].
Qed.

Lemma shared_dir_ok : dir_ok shared_dir shared_files.
Proof.
  intros task_id data H. unfold shared_files in H. apply lookup_singleton_Some in H as [Hid <-].
  apply record_path_inj in Hid as <-. exists shared_task. split; [exact shared_task_stored|].
  by split.
Qed.
