(* ===== verification/TaskPool.v ===== *)
(** * Processes sharing one task directory (crates/eva-storage/src/task_state.rs)

    Any number of processes run store operations over the same files, one
    access at a time and in any order, with failing locks and writes, while
    files outside the task directory change arbitrarily (a new writer takes
    over, for instance).  Under every such interleaving the record of a task
    evolves by accepted commits only: the histories of [TaskTransition]. *)

From Stdlib Require Import Ascii.
From stdpp Require Import base numbers strings gmap list.
From S2P Require Import Prelude RustStr Error Ids Digest Durable TaskState.
From S2P Require Import TaskTransition TaskAccept FieldEscape TaskStorage TaskStore.
From S2P Require Import TaskWritable TaskDirectory.

(** ** What a process may run *)

(** The public operations of the store, with their arguments. *)
Inductive Operation :=
| OpCreate (snapshot : TaskStateSnapshot)
| OpCompareAndSet (snapshot : TaskStateSnapshot)
| OpUpdate (task_id : string) (update : TaskStateSnapshot -> Res TaskStateSnapshot)
| OpClaim (task_id execution_owner cancel_token : string) (observed_at_ms : N)
| OpRequeue (task_id : string) (observed_at_ms : N)
| OpRecoverReplay (task_id : string)
| OpRecoverAbandoned (task_id : string)
| OpRecoverCommitted (task_id operation_digest result_digest : string) (result_size_bytes : N)
| OpBlockUnknown (task_id operation_digest : string)
| OpFinish (fence : TaskAttemptFence) (outcome : TaskAttemptOutcome)
| OpFinishCommitted (fence : TaskAttemptFence) (result_digest : string) (result_size_bytes : N)
| OpCancelExecution (fence : TaskAttemptFence) (reason : string)
| OpBlockPrepared (fence : TaskAttemptFence) (operation_digest : string)
| OpHeartbeat (fence : TaskAttemptFence) (heartbeat_at_ms : N)
| OpCancel (task_id reason : string).

Inductive OpResult :=
| TaskResult (t : TaskStateSnapshot)
| ClaimResult (claim : option TaskExecutionClaim).

Fixpoint prog_map {A B} (f : A -> B) (p : StoreProg A) : StoreProg B :=
  match p with
  | Done r => Done (result_map f r)
  | Perform a k => Perform a (fun r => prog_map f (k r))
  end.

Definition operation_prog (s : FileSystemTaskStateStore) (op : Operation) : StoreProg OpResult :=
  match op with
  | OpCreate snapshot => prog_map TaskResult (create snapshot)
  | OpCompareAndSet snapshot => prog_map TaskResult (compare_and_set snapshot)
  | OpUpdate task_id update => prog_map TaskResult (update_snapshot task_id update)
  | OpClaim task_id owner token now => prog_map ClaimResult (try_claim_queued task_id owner token now)
  | OpRequeue task_id now => prog_map TaskResult (requeue_retryable task_id now)
  | OpRecoverReplay task_id => prog_map TaskResult (recover_abandoned_replay_delivery s task_id)
  | OpRecoverAbandoned task_id => prog_map TaskResult (recover_abandoned_task_for_retry s task_id)
  | OpRecoverCommitted task_id op rd z =>
      prog_map TaskResult (recover_task_from_committed_effect s task_id op rd z)
  | OpBlockUnknown task_id op => prog_map TaskResult (block_task_for_unknown_effect s task_id op)
  | OpFinish fence outcome => prog_map TaskResult (finish_execution fence outcome)
  | OpFinishCommitted fence rd z => prog_map TaskResult (finish_committed_effect_execution fence rd z)
  | OpCancelExecution fence reason => prog_map TaskResult (request_execution_cancellation fence reason)
  | OpBlockPrepared fence op => prog_map TaskResult (block_prepared_effect_execution fence op)
  | OpHeartbeat fence now => prog_map TaskResult (heartbeat_execution fence now)
  | OpCancel task_id reason => prog_map TaskResult (request_cancellation task_id reason)
  end.

(** What the types and the caller guarantee of the arguments: Rust strings
    are UTF-8 and its integers have their widths; the texts stored as optional
    fields are not empty; a snapshot the caller built can be written. *)
Definition operation_ok (op : Operation) : Prop :=
  match op with
  | OpCreate snapshot | OpCompareAndSet snapshot => writable snapshot
  | OpUpdate _ update => forall t t', stored t -> update t = Ok t' -> writable t'
  | OpClaim _ owner token now =>
      utf8_valid owner = true /\ utf8_valid token = true /\ (now <= u128_max)%N
  | OpRequeue _ _ | OpRecoverReplay _ | OpRecoverAbandoned _ => True
  | OpRecoverCommitted _ op rd z =>
      utf8_valid op = true /\ utf8_valid rd = true /\ (z <= usize_max)%N
  | OpBlockUnknown _ op | OpBlockPrepared _ op => utf8_valid op = true
  | OpFinish _ outcome => outcome_writable outcome
  | OpFinishCommitted _ rd z => utf8_valid rd = true /\ (z <= usize_max)%N
  | OpCancelExecution _ reason | OpCancel _ reason => reason <> "" /\ utf8_valid reason = true
  | OpHeartbeat _ now => (now <= u128_max)%N
  end.

(** ** Every commit of an operation is writable *)

(** Whatever good records the accesses of an operation return, its commits
    are writable. *)
Fixpoint prog_ok {A} (p : StoreProg A) : Prop :=
  match p with
  | Done _ => True
  | Perform a k => access_ok a /\ (forall t, stored t -> prog_ok (k (Ok t))) /\
                   forall e, prog_ok (k (Err e))
  end.

Lemma prog_map_ok {A B} (f : A -> B) p : prog_ok p -> prog_ok (prog_map f p).
Proof. induction p as [r|a k IH]; cbn; [done|]. intros (Ha & Hk & He). split_and!; auto. Qed.

Lemma reading_ok {A} task_id (k : TaskStateSnapshot -> StoreProg A) :
  (forall t, stored t -> prog_ok (k t)) -> prog_ok (reading task_id k).
Proof. intros H. cbn. by split_and!. Qed.

Lemma attempt_ok {A B} (r : Res B) (k : B -> StoreProg A) :
  (forall b, r = Ok b -> prog_ok (k b)) -> prog_ok (attempt r k).
Proof. destruct r; [|done]. intros H. by apply H. Qed.

Lemma committing_ok {A} task_id v candidate mode (committed conflicted : TaskStateSnapshot -> StoreProg A) :
  writable candidate -> (forall t, stored t -> prog_ok (committed t)) ->
  (forall t, stored t -> prog_ok (conflicted t)) ->
  prog_ok (committing task_id v candidate mode committed conflicted).
Proof.
  intros Hw Hc Hf. cbn. split_and!; [done|done|]. intros e. split_and!; [done| |done].
  intros t Ht. case_match; [done|]. by apply Hf.
Qed.

Lemma cas_loop_ok {A} fuel (body : StoreProg A -> StoreProg A) exceeded :
  (forall again, prog_ok again -> prog_ok (body again)) -> prog_ok (cas_loop fuel body exceeded).
Proof. intros Hb. induction fuel; cbn; auto. Qed.

Lemma refresh_ok {A} task_id (k : Res TaskStateSnapshot -> StoreProg A) :
  (forall r, prog_ok (k r)) -> prog_ok (Perform (ARefresh task_id) k).
Proof. intros H. cbn. by split_and!. Qed.

(** Walks through an operation down to the proposals it commits. *)
Ltac walk_prog :=
  repeat match goal with
  | |- prog_ok (attempt _ _) => apply attempt_ok; intros
  | |- prog_ok (reading _ _) => apply reading_ok; intros ? [??]
  | |- prog_ok (cas_loop _ _ _) => apply cas_loop_ok; intros
  | |- prog_ok (Perform (ARefresh _) _) => apply refresh_ok; intros
  | |- prog_ok (refreshing _) => apply refresh_ok; intros
  | |- prog_ok (Done _) => exact I
  | |- prog_ok (committing _ _ _ _ _ _) => apply committing_ok; [|intros ? [??]|intros ? [??]]
  | |- prog_ok (returning _) => exact I
  | |- prog_ok (if ?b then _ else _) => destruct b
  | |- prog_ok (match ?x with Some _ => _ | None => _ end) => destruct x eqn:?
  | H : prog_ok ?p |- prog_ok ?p => exact H
  end.

Lemma claim_prog_ok task_id owner token now :
  utf8_valid owner = true -> utf8_valid token = true -> (now <= u128_max)%N ->
  prog_ok (try_claim_queued task_id owner token now).
Proof.
  intros Ho Ht Hn. unfold try_claim_queued. walk_prog. destruct b2 as [n candidate]. walk_prog.
  eapply claim_writable; [exact H4|exact Ho|exact Ht|exact Hn| |exact H2].
  apply (claim_deadline_le t now). by destruct (claim_deadline t now); simplify_eq/=.
Qed.

Lemma requeue_prog_ok task_id now : prog_ok (requeue_retryable task_id now).
Proof. unfold requeue_retryable. walk_prog. by eapply retry_candidate_writable. Qed.

Lemma recover_replay_prog_ok s task_id : prog_ok (recover_abandoned_replay_delivery s task_id).
Proof.
  unfold recover_abandoned_replay_delivery. walk_prog. by eapply recovery_candidate_writable; [left|].
Qed.

Lemma recover_abandoned_prog_ok s task_id : prog_ok (recover_abandoned_task_for_retry s task_id).
Proof.
  unfold recover_abandoned_task_for_retry. walk_prog. by eapply recovery_candidate_writable; [right|].
Qed.

Lemma recover_committed_prog_ok s task_id op rd z :
  utf8_valid op = true -> utf8_valid rd = true -> (z <= usize_max)%N ->
  prog_ok (recover_task_from_committed_effect s task_id op rd z).
Proof.
  intros. unfold recover_task_from_committed_effect. walk_prog. by eapply recover_writable.
Qed.

Lemma block_unknown_prog_ok s task_id op :
  utf8_valid op = true -> prog_ok (block_task_for_unknown_effect s task_id op).
Proof. intros. unfold block_task_for_unknown_effect. walk_prog. by eapply block_writable. Qed.

Lemma block_prepared_prog_ok fence op :
  utf8_valid op = true -> prog_ok (block_prepared_effect_execution fence op).
Proof. intros. unfold block_prepared_effect_execution. walk_prog. by eapply block_writable. Qed.

Lemma finish_prog_ok fence outcome :
  outcome_writable outcome -> prog_ok (finish_execution fence outcome).
Proof.
  intros Ho. unfold finish_execution. walk_prog.
  pose proof (sto_valid _ H0). case_match.
  - by eapply apply_outcome_writable.
  - case_match; [|done]. by eapply cancel_writable.
Qed.

Lemma finish_committed_prog_ok fence rd z :
  utf8_valid rd = true -> (z <= usize_max)%N ->
  prog_ok (finish_committed_effect_execution fence rd z).
Proof. intros. unfold finish_committed_effect_execution. walk_prog. by eapply complete_committed_writable. Qed.

Lemma cancel_execution_prog_ok fence reason :
  reason <> "" -> utf8_valid reason = true -> prog_ok (request_execution_cancellation fence reason).
Proof. intros. unfold request_execution_cancellation. walk_prog. by apply request_cancel_writable. Qed.

Lemma heartbeat_prog_ok fence now : (now <= u128_max)%N -> prog_ok (heartbeat_execution fence now).
Proof. intros. unfold heartbeat_execution. walk_prog. by apply touch_heartbeat_writable. Qed.

Lemma cancel_prog_ok task_id reason :
  reason <> "" -> utf8_valid reason = true -> prog_ok (request_cancellation task_id reason).
Proof.
  intros. unfold request_cancellation. walk_prog.
  case_match; [apply mark_cancelled_writable|]; by apply request_cancel_writable.
Qed.

Lemma operation_prog_ok s op : operation_ok op -> prog_ok (operation_prog s op).
Proof.
  destruct op; cbn [operation_ok operation_prog]; intros H; apply prog_map_ok.
  - unfold create. case_match; [done|]. cbn. by split_and!.
  - cbn. by split_and!.
  - unfold update_snapshot. walk_prog. cbn. split_and!; [|done..]. by eapply H.
  - destruct H as (? & ? & ?). by apply claim_prog_ok.
  - apply requeue_prog_ok.
  - apply recover_replay_prog_ok.
  - apply recover_abandoned_prog_ok.
  - destruct H as (? & ? & ?). by apply recover_committed_prog_ok.
  - by apply block_unknown_prog_ok.
  - by apply finish_prog_ok.
  - destruct H. by apply finish_committed_prog_ok.
  - destruct H. by apply cancel_execution_prog_ok.
  - by apply block_prepared_prog_ok.
  - by apply heartbeat_prog_ok.
  - destruct H. by apply cancel_prog_ok.
Qed.

(** ** The pool *)

Section Pool.
Context (dir : string).

Record Proc := MkProc {
  proc_store : FileSystemTaskStateStore;
  proc_prog : StoreProg OpResult
}.

(** One process makes its next access, with any outcome of its locks and
    writes; a process starts an operation; or something else changes files
    that are not task files. *)
Inductive pool_step : Files * list Proc -> Files * list Proc -> Prop :=
| pool_access files pool i s a k o :
    pool !! i = Some (MkProc s (Perform a k)) ->
    pool_step (files, pool)
      ((perform s files o a).2, <[i := MkProc s (k (perform s files o a).1)]> pool)
| pool_start files pool s op :
    store_ok dir s -> operation_ok op ->
    pool_step (files, pool) (files, pool ++ [MkProc s (operation_prog s op)])
| pool_environment files files' pool :
    (forall task_id, files' !! record_path dir task_id = files !! record_path dir task_id) ->
    pool_step (files, pool) (files', pool).

Definition proc_ok (p : Proc) : Prop := store_ok dir (proc_store p) /\ prog_ok (proc_prog p).
Definition pool_ok (st : Files * list Proc) : Prop := dir_ok dir st.1 /\ Forall proc_ok st.2.

(** One access of one process of a good pool. *)
Lemma pool_access_effect files pool i s a k o :
  pool_ok (files, pool) -> pool !! i = Some (MkProc s (Perform a k)) ->
  access_effect dir files (perform s files o a).2 /\
  (forall t, (perform s files o a).1 = Ok t -> answered dir (perform s files o a).2 t) /\
  proc_ok (MkProc s (k (perform s files o a).1)).
Proof.
  intros [Hd Hp] Hi. pose proof (proj1 (Forall_lookup proc_ok pool) Hp i _ Hi) as [Hs (Ha & Hk & Hke)].
  cbn [proc_store proc_prog fst snd] in *.
  destruct (perform s files o a) as [res files'] eqn:E. cbn [fst snd].
  destruct (perform_effect dir s files o a res files' Hd Hs Ha E) as [Heff Hres].
  split_and!; [done..|]. split; [done|]. cbn [proc_prog].
  destruct res as [t|e]; [|apply Hke]. destruct (Hres t eq_refl) as [Hst _]. by apply Hk.
Qed.

Lemma pool_step_effect st st' :
  pool_ok st -> pool_step st st' -> access_effect dir st.1 st'.1 /\ pool_ok st'.
Proof.
  intros Hok Hstep. pose proof Hok as [Hd Hp].
  destruct Hstep as [files pool i s a k o Hi|files pool s op Hs Hop|files files' pool He].
  - destruct (pool_access_effect files pool i s a k o Hok Hi) as (Heff & _ & Hproc).
    split; [done|]. split; [apply Heff|]. by apply Forall_insert.
  - split; [by apply access_effect_refl|]. split; [done|]. cbn [snd] in *. apply Forall_snoc.
    split; [done|]. split; [done|]. by apply operation_prog_ok.
  - assert (dir_ok dir files') as Hd' by (intros task_id data; rewrite He; apply Hd).
    split; [|done]. split; [done|]. intros. apply record_same. apply He.
Qed.

(** ** Histories on disk *)

Lemma record_step_history files files' task_id t :
  record_step dir files files' task_id -> on_disk dir files task_id t ->
  exists h t', task_history t h t' /\ on_disk dir files' task_id t'.
Proof.
  intros Hs Hon. destruct Hs as [E|t' E _ _|c Hc Hcur Hcom _].
  - exists [], t. split; [constructor|]. destruct Hon as (? & ? & ?). split_and!; [congruence|done|done].
  - destruct Hon as (Hf & _). congruence.
  - pose proof (on_disk_unique _ _ _ _ _ Hon Hcur) as ->.
    exists [c], (commit_committed c). split; [|done]. apply history_cons; [done|constructor].
Qed.

Lemma history_app t h t' h' t'' : task_history t h t' -> task_history t' h' t'' -> task_history t (h ++ h') t''.
Proof. induction 1; [done|]. intros. cbn. constructor; auto. Qed.

Lemma pool_history st st' task_id t :
  rtc pool_step st st' -> pool_ok st -> task_id <> latest_id -> on_disk dir st.1 task_id t ->
  exists h t', task_history t h t' /\ on_disk dir st'.1 task_id t'.
Proof.
  intros Hr. revert t. induction Hr as [st|st st1 st' Hstep _ IH]; intros t Hok Hne Hon.
  - exists [], t. split; [constructor|done].
  - destruct (pool_step_effect _ _ Hok Hstep) as [[_ Heff] Hok1].
    destruct (record_step_history _ _ _ _ (Heff task_id Hne) Hon) as (h & t1 & Hh & Hon1).
    destruct (IH t1 Hok1 Hne Hon1) as (h' & t' & Hh' & Hon').
    exists (h ++ h'), t'. split; [by eapply history_app|done].
Qed.
End Pool.
