(* ===== verification/TaskConcurrency.v ===== *)
(** * Shared tasks under every interleaving (crates/eva-storage/src/task_state.rs)

    What the store promises when any number of processes work on one task
    directory at once: executions stay within the attempt budget, finished
    tasks stay finished, and one attempt belongs to one worker. *)

From Stdlib Require Import Ascii.
From stdpp Require Import base numbers strings gmap list.
From S2P Require Import Prelude RustStr Error Ids Digest Durable TaskState.
From S2P Require Import TaskTransition TaskAccept FieldEscape TaskStorage TaskStore.
From S2P Require Import TaskWritable TaskDirectory TaskPool.

(** ** The fence along a history *)

Lemma recover_keeps_fence t op rd z p :
  recover_committed_effect t op rd z = Ok p ->
  ts_execution_owner p = ts_execution_owner t /\ ts_cancel_token p = ts_cancel_token t.
Proof.
  unfold recover_committed_effect. intros H. do 2 apply then_Ok in H as [_ H].
  apply reject_Ok in H as [_ H]. destruct (String.eqb (ts_status t) "completed").
  { destruct (_ && _); [|done]. by injection H as <-. }
  apply reject_Ok in H as [_ H]. by apply validated_Ok in H as [-> _].
Qed.

Lemma block_keeps_fence t op p :
  block_unknown_effect t op = Ok p ->
  ts_execution_owner p = ts_execution_owner t /\ ts_cancel_token p = ts_cancel_token t.
Proof.
  unfold block_unknown_effect. intros H. apply then_Ok in H as [_ H]. cbv zeta in H.
  destruct (String.eqb (ts_status t) "interrupted" && _). { by injection H as <-. }
  do 3 apply reject_Ok in H as [_ H]. by apply validated_Ok in H as [-> _].
Qed.

Lemma restart_keeps_fence t p :
  task_restart_recovery_transition_matches t p = true ->
  ts_execution_owner p = ts_execution_owner t /\ ts_cancel_token p = ts_cancel_token t.
Proof.
  unfold task_restart_recovery_transition_matches. intros H. repeat (case_match; try done).
  - apply bool_decide_eq_true in H. subst. by eapply recover_keeps_fence.
  - apply bool_decide_eq_true in H. subst. by eapply block_keeps_fence.
Qed.

(** The fence of an attempt that is over, or was never claimed. *)
Definition unfenced (t : TaskStateSnapshot) : Prop :=
  ts_execution_owner t = None /\ ts_cancel_token t = None.

Definition same_fence (t p : TaskStateSnapshot) : Prop :=
  ts_execution_owner p = ts_execution_owner t /\ ts_cancel_token p = ts_cancel_token t.

(** Outside a claim the gate keeps the attempt, and keeps or clears its fence. *)
Lemma gate_fence mode t p :
  validate_transition_in mode t p = Ok tt -> is_claim t p = false ->
  ts_attempts p = ts_attempts t /\ (same_fence t p \/ unfenced p).
Proof.
  intros H Hc. split; [by rewrite (gate_attempts _ _ _ H), Hc, N.add_0_r|].
  apply gate_cases in H as [[H|[H|[H|H]]] _]; [congruence|..].
  - apply andb_true_iff in H as [_ H].
    apply retry_special_cases in H as [_ [[_ [[m ->]|(r & m & ->)]]|[_ [m ->]]]].
    + by right. + by left. + by right.
  - apply andb_true_iff in H as [_ H]. left. by apply restart_keeps_fence.
  - left. by destruct H as (_ & ? & ?).
Qed.

(** Who holds attempt [n], as far as a record tells: its worker, nobody any
    more, or a later attempt has begun. *)
Definition holder (t : TaskStateSnapshot) (n : N) (owner token : string) : Prop :=
  (n < ts_attempts t)%N \/
  (ts_attempts t = n /\
   ((ts_execution_owner t = Some owner /\ ts_cancel_token t = Some token) \/ unfenced t)).

Lemma holder_step c n owner token :
  accepted c -> holder (commit_current c) n owner token -> holder (commit_committed c) n owner token.
Proof.
  intros (p & v & g & _ & _ & _ & _ & Hg & ->) Hh.
  change (holder p n owner token). destruct (is_claim (commit_current c) p) eqn:Hc.
  - left. apply is_claim_true in Hc as (_ & _ & -> & _). destruct Hh as [?|[? _]]; lia.
  - destruct (gate_fence _ _ _ Hg Hc) as [Ha Hf]. unfold holder. rewrite Ha.
    destruct Hh as [?|[? Hh]]; [by left|]. right. split; [done|].
    destruct Hf as [[Ho Ht]|?]; [|by right]. unfold unfenced. by rewrite Ho, Ht.
Qed.

(** ** Claims are read off the record *)

Lemma task_execution_claim_Ok t c :
  task_execution_claim t = Ok c ->
  fence_task_id (claim_fence c) = ts_task_id t /\ fence_attempt (claim_fence c) = ts_attempts t /\
  ts_execution_owner t = Some (fence_execution_owner (claim_fence c)) /\
  ts_cancel_token t = Some (fence_cancel_token (claim_fence c)) /\ claim_snapshot c = t.
Proof.
  unfold task_execution_claim. destruct (ts_execution_owner t); [|done].
  destruct (ts_cancel_token t); [|done]. cbn [ok_or]. intros [_ H]%reject_Ok. by injection H as <-.
Qed.

Lemma holder_agrees t c owner token :
  task_execution_claim t = Ok c -> holder t (fence_attempt (claim_fence c)) owner token ->
  fence_execution_owner (claim_fence c) = owner /\ fence_cancel_token (claim_fence c) = token.
Proof.
  intros (_ & Ha & Ho & Ht & _)%task_execution_claim_Ok [Hlt|[_ [[Ho' Ht']|[Ho' _]]]]; [lia| |congruence].
  split; congruence.
Qed.

Definition claimed (p : StoreProg OpResult) (c : TaskExecutionClaim) : Prop :=
  p = Done (Ok (ClaimResult (Some c))).

(** An operation answers with a claim only right after an access, and the
    claim is that of the record the access returned. *)
Fixpoint claims_read (p : StoreProg OpResult) : Prop :=
  match p with
  | Done _ => True
  | Perform a k =>
      (forall t c, claimed (k (Ok t)) c -> task_execution_claim t = Ok c) /\
      (forall e c, ~ claimed (k (Err e)) c) /\ forall r, claims_read (k r)
  end.

Lemma task_result_claims p : claims_read (prog_map TaskResult p) /\ forall c, ~ claimed (prog_map TaskResult p) c.
Proof.
  induction p as [r|a k IH]; cbn; [split; [done|]; by destruct r|].
  split; [|done]. split_and!.
  - intros t c H. by apply IH in H.
  - intros e c H. by apply IH in H.
  - intros r. apply IH.
Qed.

Lemma claim_result_claims task_id owner token now :
  claims_read (prog_map ClaimResult (try_claim_queued task_id owner token now)) /\
  forall c, ~ claimed (prog_map ClaimResult (try_claim_queued task_id owner token now)) c.
Proof.
  unfold try_claim_queued.
  destruct (validate_execution_owner owner); [|done]. destruct (validate_cancel_token token); [|done].
  cbn [attempt]. split; [|done].
  cbn [reading prog_map claims_read]. split_and!; [| |intros [snapshot|e]; [|done]].
  - intros t c. destruct (not_claimable t); [done|]. destruct (ok_or _ _); [|done]. cbn [attempt].
    destruct (claim_for_execution _ _ _ _ _) as [[n candidate]|]; done.
  - done.
  - destruct (not_claimable snapshot); [done|]. destruct (ok_or _ _); [|done]. cbn [attempt].
    destruct (claim_for_execution _ _ _ _ _) as [[n candidate]|]; [|done].
    cbn [attempt committing prog_map claims_read]. split_and!; [|done|intros [committed|e]; [done|]].
    + intros t c H. unfold claimed in H. cbn in H. injection H as H.
      destruct (task_execution_claim t); cbn in H; congruence.
    + cbn [reading prog_map claims_read]. split_and!; [| |intros [observed|e']; [|done]].
      * intros t c. repeat case_match; done.
      * done.
      * case_match; [done|]. case_match; [|done]. cbn [prog_map claims_read].
        split_and!; [|done|by intros [?|?]]. intros t c H'. unfold claimed in H'. cbn in H'.
        injection H' as H'. destruct (task_execution_claim t); cbn in H'; congruence.
Qed.

Lemma operation_claims s op :
  claims_read (operation_prog s op) /\ forall c, ~ claimed (operation_prog s op) c.
Proof. destruct op; cbn [operation_prog]; apply task_result_claims || apply claim_result_claims. Qed.

(** ** One worker per attempt *)

Section Pool.
Context (dir : string).

(** The process at [i] returned a claim with this fence. *)
Definition holds (pool : list Proc) (i : nat) (fence : TaskAttemptFence) : Prop :=
  exists s c, pool !! i = Some (MkProc s (Done (Ok (ClaimResult (Some c))))) /\ claim_fence c = fence.

Definition held_on_disk (files : Files) (fence : TaskAttemptFence) : Prop :=
  exists t, on_disk dir files (fence_task_id fence) t /\
    holder t (fence_attempt fence) (fence_execution_owner fence) (fence_cancel_token fence).

Definition same_worker (f f' : TaskAttemptFence) : Prop :=
  fence_execution_owner f = fence_execution_owner f' /\ fence_cancel_token f = fence_cancel_token f'.

Record exclusive (st : Files * list Proc) : Prop := {
  ex_ok : pool_ok dir st;
  ex_read : forall i p, st.2 !! i = Some p -> claims_read (proc_prog p);
  ex_held : forall i f, holds st.2 i f -> fence_task_id f <> latest_id -> held_on_disk st.1 f;
  ex_one : forall i j f f', holds st.2 i f -> holds st.2 j f' -> fence_task_id f = fence_task_id f' ->
    fence_task_id f <> latest_id -> fence_attempt f = fence_attempt f' -> same_worker f f'
}.

Lemma held_step files files' f :
  access_effect dir files files' -> fence_task_id f <> latest_id ->
  held_on_disk files f -> held_on_disk files' f.
Proof.
  intros [_ Heff] Hne (t & Hon & Hh). destruct (Heff _ Hne) as [E|t' E _ _|c Hc Hcur Hcom _].
  - exists t. split; [|done]. destruct Hon as (? & ? & ?). split_and!; [congruence|done..].
  - destruct Hon as (Hf & _). congruence.
  - pose proof (on_disk_unique _ _ _ _ _ Hon Hcur) as ->. exists (commit_committed c).
    split; [done|]. by apply holder_step.
Qed.

(** A claim just read agrees with every claim of the same attempt. *)
Lemma new_claim_agrees files t c f :
  task_execution_claim t = Ok c -> answered dir files t -> fence_task_id f = fence_task_id (claim_fence c) ->
  fence_task_id f <> latest_id -> held_on_disk files f ->
  fence_attempt f = fence_attempt (claim_fence c) -> same_worker (claim_fence c) f.
Proof.
  intros Hc [_ Hd] Hid Hne (t' & Hon & Hh) Ha. pose proof (task_execution_claim_Ok _ _ Hc) as (Et & _).
  rewrite Hid, Et in *. rewrite (on_disk_unique _ _ _ _ _ Hon (Hd Hne)) in Hh. rewrite Ha in Hh.
  by apply (holder_agrees t c).
Qed.

Lemma new_claim_held files t c :
  task_execution_claim t = Ok c -> answered dir files t -> ts_task_id t <> latest_id ->
  held_on_disk files (claim_fence c).
Proof.
  intros Hc [_ Hd] Hne. apply task_execution_claim_Ok in Hc as (Ei & Ea & Eo & Et & _).
  exists t. rewrite Ei. split; [by apply Hd|]. right. auto.
Qed.

Lemma same_worker_sym f f' : same_worker f f' -> same_worker f' f.
Proof. by intros [? ?]. Qed.

Lemma holds_insert pool i p j f :
  holds (<[i := p]> pool) j f ->
  (j = i /\ exists c, claimed (proc_prog p) c /\ claim_fence c = f) \/ (j <> i /\ holds pool j f).
Proof.
  intros (s & c & H & Hf). destruct (decide (j = i)) as [->|Hne].
  - apply list_lookup_insert_Some in H as [(_ & -> & _)|[? _]]; [|done]. left. split; [done|]. by exists c.
  - rewrite list_lookup_insert_ne in H by done. right. split; [done|]. by exists s, c.
Qed.

Lemma exclusive_access files pool i s a k o :
  exclusive (files, pool) -> pool !! i = Some (MkProc s (Perform a k)) ->
  exclusive ((perform s files o a).2, <[i := MkProc s (k (perform s files o a).1)]> pool).
Proof.
  intros [Hok Hread Hheld Hone] Hi. cbn [fst snd] in *.
  destruct (pool_access_effect dir files pool i s a k o Hok Hi) as (Heff & Hans & Hproc).
  pose proof (Hread _ _ Hi) as (Hnew & Herr & Hrest). cbn [proc_prog] in *.
  set (files' := (perform s files o a).2) in *. set (res := (perform s files o a).1) in *.
  assert (forall c, claimed (k res) c -> exists t, task_execution_claim t = Ok c /\ answered dir files' t) as Hclaim.
  { intros c Hc. destruct res as [t|e]; [|by apply Herr in Hc]. exists t. auto. }
  assert (forall j f, j <> i -> holds pool j f -> fence_task_id f <> latest_id -> held_on_disk files' f) as Hold.
  { intros j f _ Hj Hne. eapply held_step; eauto. }
  split; cbn [fst snd].
  - by apply (pool_step_effect dir (files, pool) _ Hok), pool_access.
  - intros j p [(-> & <- & _)|[_ Hj]]%list_lookup_insert_Some; [apply Hrest|by eapply Hread].
  - intros j f [(-> & c & Hc & <-)|[Hj Hf]]%holds_insert Hne; [|by eapply Hold].
    destruct (Hclaim c Hc) as (t & Ht & Ha). eapply new_claim_held; eauto.
    by rewrite <- (proj1 (task_execution_claim_Ok _ _ Ht)).
  - intros j j' f f' [(-> & c & Hc & <-)|[Hj Hf]]%holds_insert
      [(-> & c' & Hc' & <-)|[Hj' Hf']]%holds_insert Hid Hne Ha.
    + unfold claimed in *. rewrite Hc in Hc'. by simplify_eq.
    + destruct (Hclaim c Hc) as (t & Ht & Hw).
      apply (new_claim_agrees files' t c f' Ht Hw); [congruence| |eapply Hold|]; eauto; congruence.
    + destruct (Hclaim c' Hc') as (t & Ht & Hw). apply same_worker_sym.
      apply (new_claim_agrees files' t c' f Ht Hw); [done..|eapply Hold|]; eauto.
    + by eapply (Hone j j').
Qed.

Lemma exclusive_start files pool s op :
  exclusive (files, pool) -> store_ok dir s -> operation_ok op ->
  exclusive (files, pool ++ [MkProc s (operation_prog s op)]).
Proof.
  intros [Hok Hread Hheld Hone] Hs Hop. cbn [fst snd] in *.
  destruct (operation_claims s op) as [Hc Hn].
  assert (forall j f, holds (pool ++ [MkProc s (operation_prog s op)]) j f -> holds pool j f) as Hback.
  { intros j f (s' & c & H & Hf). apply lookup_snoc_Some in H as [[_ H]|[_ H]]; [by exists s', c|].
    injection H as _ H. by apply Hn in H. }
  split; cbn [fst snd].
  - by apply (pool_step_effect dir (files, pool) _ Hok), pool_start.
  - intros j p [[_ Hj]|[_ <-]]%lookup_snoc_Some; [by eapply Hread|done].
  - eauto.
  - intros j j' f f' Hj Hj'. apply (Hone j j'); auto.
Qed.

Lemma exclusive_step st st' : exclusive st -> pool_step dir st st' -> exclusive st'.
Proof.
  intros Hex Hstep. destruct Hstep as [files pool i s a k o Hi|files pool s op Hs Hop|files files' pool He].
  - by apply exclusive_access.
  - by apply exclusive_start.
  - destruct (pool_step_effect dir (files, pool) (files', pool) (ex_ok _ Hex)) as [Heff Hok].
    { by apply pool_environment. }
    destruct Hex as [_ Hread Hheld Hone]. split; cbn [fst snd] in *; [done..| |done].
    intros i f Hi Hne. eapply held_step; eauto.
Qed.

Lemma exclusive_reachable files st :
  dir_ok dir files -> rtc (pool_step dir) (files, []) st -> exclusive st.
Proof.
  intros Hd Hr. assert (exclusive (files, [])) as H0.
  { split; [split; [done|apply Forall_nil_2]|done|..]; cbn [snd].
    - by intros ? ? (? & ? & ? & _).
    - by intros ? ? ? ? (? & ? & ? & _). }
  remember (files, []) as st0. clear Heqst0. induction Hr as [|st0 st1 st Hstep _ IH]; [done|].
  apply IH. by eapply exclusive_step.
Qed.
End Pool.

(** C4: under every interleaving of any number of processes running the
    store's operations over one task directory, with any failures of locks
    and writes, and with writers taking over from each other, one attempt of
    a task is never held by two workers: two processes whose claims name the
    same task and attempt carry the same execution owner and cancel token. *)
Theorem one_worker_per_attempt dir files files' pool i j f f' :
  dir_ok dir files -> rtc (pool_step dir) (files, []) (files', pool) ->
  holds pool i f -> holds pool j f' ->
  fence_task_id f = fence_task_id f' -> fence_task_id f <> latest_id ->
  fence_attempt f = fence_attempt f' ->
  fence_execution_owner f = fence_execution_owner f' /\ fence_cancel_token f = fence_cancel_token f'.
Proof.
  intros Hd Hr Hi Hj Hid Hne Ha. destruct (exclusive_reachable dir files _ Hd Hr) as [_ _ _ Hone].
  exact (Hone i j f f' Hi Hj Hid Hne Ha).
Qed.

(** C5: let any number of processes run the store's operations over one task
    directory, interleaved in any way, with any failures of locks and writes,
    starting from task files the store wrote.  Suppose their arguments can be
    written: texts are UTF-8 and integers fit their types, the kind and the
    message of a failure and the reason of a cancellation are not empty, and
    a record a caller built itself (or computes in [update_snapshot]) has no
    empty optional text, and no retry classification unless it has an
    envelope; nothing else writes the task's file.  (Without this a commit
    can make a record unreadable: [empty_failure_message_unreadable].)  Then
    the record of every task other than [latest-basic] evolves on disk by
    accepted commits only: it stays readable and valid, its attempt counter
    counts the claims committed and never exceeds the envelope's
    [max_attempts], and a task that was completed, or blocked for an unknown
    effect, is not executed again and stays so. *)
Theorem shared_task_within_budget dir files files' pool task_id t e :
  dir_ok dir files -> rtc (pool_step dir) (files, []) (files', pool) ->
  task_id <> latest_id -> on_disk dir files task_id t -> ts_envelope t = Some e ->
  exists h t', task_history t h t' /\ on_disk dir files' task_id t' /\
    read_optional_task_snapshot files' (record_path dir task_id) = Ok (Some t') /\
    task_validate t' = Ok tt /\ ts_envelope t' = Some e /\
    ts_attempts t' = (ts_attempts t + claims h)%N /\
    (ts_attempts t' <= ap_max_attempts (env_attempt_policy e))%N /\
    (parked t = true -> parked t' = true /\ claims h = 0%N).
Proof.
  intros Hd Hr Hne Hon He.
  destruct (pool_history dir _ _ task_id t Hr) as (h & t' & Hh & Hon'); [by split|done..|].
  assert (task_validate t = Ok tt) as Hv by apply Hon.
  destruct (history_valid _ _ _ Hh Hv) as (Hv' & He' & Ha). exists h, t'. rewrite He in He'.
  destruct (task_validate_bound _ Hv') as [Hb Hm]. rewrite (Hm e He') in Hb.
  split_and!; try done; [by apply read_stored; apply Hon'|by apply (parked_history t)..].
Qed.

(** ** A concrete run *)

(** The process at [i] takes a turn, and everything goes well. *)
Definition pool_turn (st : Files * list Proc) (i : nat) : Files * list Proc :=
  match st.2 !! i with
  | Some (MkProc s (Perform a k)) =>
      ((perform s st.1 all_well a).2, <[i := MkProc s (k (perform s st.1 all_well a).1)]> st.2)
  | _ => st
  end.

Lemma pool_turns_steps dir turns st : rtc (pool_step dir) st (foldl pool_turn st turns).
Proof.
  revert st. induction turns as [|i turns IH]; intros st; cbn [foldl]; [done|].
  unfold pool_turn at 2. destruct st as [files pool]. cbn [fst snd].
  destruct (pool !! i) as [[s [r|a k]]|] eqn:E; [apply IH| |apply IH].
  eapply rtc_l; [|apply IH]. by apply pool_access.
Qed.

(** Processes that start operations one after the other. *)
Definition started (s : FileSystemTaskStateStore) (ops : list Operation) : list Proc :=
  (fun op => MkProc s (operation_prog s op)) <$> ops.

Lemma started_steps dir s files ops :
  store_ok dir s -> Forall operation_ok ops ->
  rtc (pool_step dir) (files, []) (files, started s ops).
Proof.
  intros Hs. induction ops as [|op ops IH] using rev_ind; [done|].
  intros [Hops Hop]%Forall_snoc. eapply rtc_r; [by apply IH|].
  unfold started. rewrite fmap_app. by apply pool_start.
Qed.

Definition held_fence (pool : list Proc) (i : nat) : option TaskAttemptFence :=
  match pool !! i with
  | Some (MkProc _ (Done (Ok (ClaimResult (Some c))))) => Some (claim_fence c)
  | _ => None
  end.

Lemma held_fence_holds pool i f : held_fence pool i = Some f -> holds pool i f.
Proof.
  unfold held_fence. destruct (pool !! i) as [[s [[[|[c|]]|]|]]|] eqn:E; try done.
  intros [= <-]. by exists s, c.
Qed.

(** Two processes of one worker claim the task at once; the second finds the
    claim of the first and takes it for its own. *)
Definition twin_claims : list Operation :=
  [ OpClaim "task-1" "worker-1" "token-1" 10; OpClaim "task-1" "worker-1" "token-1" 10 ].
Definition twin_run : Files * list Proc :=
  foldl pool_turn (shared_files, started shared_store twin_claims) [0; 1; 0; 1; 1; 1].

Lemma twin_claims_ok : Forall operation_ok twin_claims.
Proof. by repeat (apply Forall_cons; split; [split_and!; vm_compute; done|]). Qed.

Lemma twin_run_steps : rtc (pool_step shared_dir) (shared_files, []) twin_run.
Proof.
  etrans; [|apply pool_turns_steps]. apply started_steps; [exact shared_store_ok|exact twin_claims_ok].
Qed.

Definition twin_fence : TaskAttemptFence := MkFence "task-1" 0 "worker-1" 1 "token-1".

Lemma twin_run_holds i : i < 2 -> holds twin_run.2 i twin_fence.
Proof.
  intros Hi. apply held_fence_holds. destruct i as [|[|i]]; [..|lia]; vm_compute; reflexivity.
Qed.

Lemma one_worker_per_attempt_witness :
  holds twin_run.2 0 twin_fence /\ holds twin_run.2 1 twin_fence /\
  fence_execution_owner twin_fence = "worker-1" /\
  fence_cancel_token twin_fence = fence_cancel_token twin_fence.
Proof.
  assert (holds twin_run.2 0 twin_fence) as H0 by (apply twin_run_holds; lia).
  assert (holds twin_run.2 1 twin_fence) as H1 by (apply twin_run_holds; lia).
  split; [exact H0|]. split; [exact H1|]. split; [reflexivity|].
  pose proof twin_run_steps as Hr. rewrite (surjective_pairing twin_run) in Hr.
  apply (one_worker_per_attempt shared_dir shared_files twin_run.1 twin_run.2 0 1 twin_fence twin_fence
           shared_dir_ok Hr H0 H1); [reflexivity|discriminate|reflexivity].
Defined.

Lemma shared_task_within_budget_witness :
  exists t', on_disk shared_dir twin_run.1 "task-1" t' /\ (ts_attempts t' <= 2)%N /\
    read_optional_task_snapshot twin_run.1 (record_path shared_dir "task-1") = Ok (Some t').
Proof.
  pose proof twin_run_steps as Hr. rewrite (surjective_pairing twin_run) in Hr.
  destruct (shared_task_within_budget shared_dir shared_files twin_run.1 twin_run.2 "task-1" shared_task
              sample_envelope shared_dir_ok Hr) as (h & t' & _ & Hon & Hread & _ & _ & _ & Hle & _);
    [discriminate|exact shared_on_disk|reflexivity|].
  exists t'. split; [exact Hon|]. split; [exact Hle|exact Hread].
Defined.
