(* ===== verification/TaskProgress.v ===== *)
(** * Progress of a task alone (crates/eva-storage/src/task_state.rs)

    The store's operations run without interference and without I/O
    failures: a claimable task is claimed, and its worker can complete it.
    The compare-and-set loops then need one turn of their
    [TASK_STATE_CAS_RETRY_LIMIT]. *)

From Stdlib Require Import Ascii.
From stdpp Require Import base numbers strings gmap list.
From S2P Require Import Prelude RustStr Error Ids Digest Durable TaskState.
From S2P Require Import TaskTransition TaskAccept FieldEscape TaskStorage TaskStore.
From S2P Require Import TaskWritable TaskDirectory.

(** An operation runs to its end on its own. *)
Fixpoint run_alone {A} (s : FileSystemTaskStateStore) (files : Files) (p : StoreProg A) : Res A * Files :=
  match p with
  | Done r => (r, files)
  | Perform a k =>
      let '(r, files) := perform s files all_well a in run_alone s files (k r)
  end.

(** ** The operations build valid proposals *)

Lemma claim_total t owner now deadline token :
  task_validate t = Ok tt -> not_claimable t = false -> (ts_retry_max_attempts t <= usize_max)%N ->
  validate_execution_owner owner = Ok tt -> validate_cancel_token token = Ok tt ->
  exists t', claim_for_execution t owner now deadline token = Ok ((ts_attempts t + 1)%N, t').
Proof.
  intros Hv%task_validate_iff Hn Hm Ho Ht. unfold not_claimable in Hn. reflect_bools.
  unfold claim_for_execution.
  destruct (ts_envelope t) as [e|] eqn:Ee; [|done].
  destruct (ts_dead_letters t) eqn:Ed; [|done].
  destruct (ts_execution_owner t) eqn:Eo; [done|]. destruct (ts_cancel_token t) eqn:Et; [done|].
  match goal with H : ts_status t = _ |- _ => rewrite H end.
  match goal with H : ts_cancel_requested t = _ |- _ => rewrite H end.
  rewrite Ho, Ht. cbn [is_some is_none negb orb String.eqb].
  rewrite (proj2 (checked_add_Some usize_max (ts_attempts t) 1 (ts_attempts t + 1)%N)) by lia.
  cbn [ok_or]. rewrite (proj2 (N.ltb_ge _ _)) by lia. cbv zeta.
  match goal with |- context [task_validate ?x] => set (t' := x) end.
  assert (task_validate t' = Ok tt) as ->; [|by exists t'].
  apply task_validate_iff. destruct Hv. constructor; try done.
  - cbn. lia.
  - unfold validate_owner. cbn -[validate_execution_owner]. rewrite Ho, Ee.
    by rewrite (proj2 (N.eqb_neq _ _)) by lia.
Qed.

Lemma complete_total t fence d z :
  task_validate t = Ok tt -> verify_task_attempt_fence t fence = Ok tt -> ts_status t = "running" ->
  validate_canonical_sha256 d "task result digest" = Ok tt ->
  exists t', apply_task_attempt_outcome t fence (OutcomeCompleted d z) = Ok t' /\
    ts_status t' = "completed" /\ ts_result_digest t' = Some d /\ ts_result_size_bytes t' = Some z.
Proof.
  intros Hv%task_validate_iff Hf Hs Hd. unfold verify_task_attempt_fence in Hf.
  do 2 apply reject_Ok in Hf as [_ Hf]. cbn [apply_task_attempt_outcome].
  unfold complete_execution. rewrite Hf, Hs, Hd. cbn [String.eqb negb].
  apply verify_execution_claim_Ok in Hf as (Ho & _ & _).
  match goal with |- context [task_validate ?x] => set (t' := x) end.
  assert (task_validate t' = Ok tt) as ->; [|by exists t'].
  apply task_validate_iff. pose proof (valid_owner t Hv) as He. destruct Hv. constructor; try done.
  - unfold validate_result. cbn -[validate_canonical_sha256]. destruct (ts_envelope t); [done|].
    exfalso. apply He; congruence.
  - assert (ts_interrupted_reason t = None) as Hi.
    { unfold execution_metadata_valid, no_outcome_metadata in tv_metadata. rewrite Ho, Hs in tv_metadata.
      change (is_one_of "running" ["running"; "cancelling"]) with true in tv_metadata.
      apply andb_false_iff in tv_metadata as [?|?%negb_false_iff]; [done|]. reflect_bools.
      by apply is_none_true. }
    change (is_some (ts_execution_owner t) && negb (true && is_none (ts_interrupted_reason t)) = false).
    by rewrite Hi, andb_false_r.
Qed.

(** ** A commit alone *)

(** The store may write, under generation [g]. *)
Definition can_write (s : FileSystemTaskStateStore) (files : Files) (g : WriterGeneration) : Prop :=
  match tss_writer s with
  | Some w => verify_current w files = Ok tt /\ g = wg_generation w
  | None => tss_durable_writer_required s = false /\ g = 0%N
  end.

(** The writer's own files are not task files (they end in [.generation] and
    [.owner]). *)
Definition writer_apart (s : FileSystemTaskStateStore) : Prop :=
  forall w, tss_writer s = Some w ->
    (exists a, wg_generation_path w = a +:+ "runtime.writer.generation") /\
    (exists a, wg_owner_record_path w = a +:+ "runtime.writer.owner").

Section Directory.
Context (dir : string).

Lemma append_inj_suffix s1 s2 t1 t2 :
  String.length t1 = String.length t2 -> s1 +:+ t1 = s2 +:+ t2 -> t1 = t2.
Proof.
  intros Hl H. apply append_inj_length in H as [_ ?]; [done|].
  apply (f_equal String.length) in H. rewrite !length_append in H. lia.
Qed.

Lemma writer_files_apart s w task_id :
  writer_apart s -> tss_writer s = Some w ->
  record_path dir task_id <> wg_generation_path w /\ record_path dir task_id <> wg_owner_record_path w.
Proof.
  intros Hs Hw. destruct (Hs w Hw) as [[a Ha] [b Hb]]. unfold record_path, path_join. rewrite Ha, Hb.
  change "runtime.writer.generation" with ("runtime.writer.gener" +:+ "ation").
  change "runtime.writer.owner" with ("runtime.writer." +:+ "owner").
  rewrite !append_assoc. split; intros H; by apply append_inj_suffix in H.
Qed.

Lemma can_write_insert s files g task_id data :
  writer_apart s -> can_write s files g -> can_write s (<[record_path dir task_id := data]> files) g.
Proof.
  intros Ha. unfold can_write. destruct (tss_writer s) as [w|] eqn:E; [|done]. intros [Hv ->].
  split; [|done]. destruct (writer_files_apart s w task_id Ha E) as [Hg Ho]. revert Hv.
  unfold verify_current, read_writer_generation, read_metadata_file, read_to_string.
  by rewrite !lookup_insert_ne.
Qed.

Lemma commit_checks_inv mode t p :
  commit_checks mode t p = true ->
  create_only mode = false /\ task_validate p = Ok tt /\ ts_envelope p = ts_envelope t /\
  ts_replay_delivery p = ts_replay_delivery t /\ validate_transition_in mode t p = Ok tt.
Proof.
  unfold commit_checks. intros H. reflect_bools.
  repeat match goal with H : is_ok _ = true |- _ => apply is_ok_true in H as [[] ?] end.
  by split_and!.
Qed.

(** A commit whose checks pass is written, with the latest pointer. *)
Lemma perform_commit_alone s files g task_id p expected mode c :
  store_ok dir s -> can_write s files g -> task_validate p = Ok tt ->
  prepare_commit s files p expected mode g = Ok (record_path dir task_id, c) ->
  perform s files all_well (ACommit p expected mode)
  = (Ok c, <[record_path dir latest_id := to_storage c]> (<[record_path dir task_id := to_storage c]> files)).
Proof.
  intros Hs Hw Hval Hprep. set (files' := <[_ := _]> (<[_ := _]> files)).
  unfold perform, commit_snapshot. rewrite Hval. cbn [out_create_dir all_well].
  assert (write_commit s files all_well (record_path dir task_id) c = (Ok c, files')) as Hwr.
  { unfold write_commit, atomic_write. cbn. by rewrite (latest_path_record dir s). }
  unfold with_writer_transaction. unfold can_write in Hw. destruct (tss_writer s) as [w|].
  - destruct Hw as [Hver ->]. unfold with_write_lock, enter_record. cbn [out_process_lock out_record_lock all_well].
    by rewrite Hver, Hprep.
  - destruct Hw as [-> ->]. unfold enter_record. cbn [out_record_lock all_well]. by rewrite Hprep.
Qed.

(** A proposal the gate accepts is committed, as the next version. *)
Lemma commit_alone s files g task_id t p mode :
  dir_ok dir files -> store_ok dir s -> writer_apart s -> can_write s files g ->
  task_id <> latest_id -> on_disk dir files task_id t -> writable p ->
  ts_task_id p = ts_task_id t -> ts_owner_generation p = ts_owner_generation t ->
  commit_checks mode t p = true -> (ts_record_version t + 1 <= u64_max)%N ->
  let c := store_commit p (ts_record_version t + 1) g in
  exists files', perform s files all_well (ACommit p (ts_record_version t) mode) = (Ok c, files') /\
    dir_ok dir files' /\ can_write s files' g /\ on_disk dir files' task_id c /\
    forall path, path <> record_path dir task_id -> path <> record_path dir latest_id -> files' !! path = files !! path.
Proof.
  intros Hd Hs Ha Hw Hne Hon Hp Hid Hgen Hc Hv c.
  set (files' := <[record_path dir latest_id := to_storage c]> (<[record_path dir task_id := to_storage c]> files)).
  pose proof Hon as (Hf & Hst & Htid).
  apply commit_checks_inv in Hc as (Hcr & Hval & He & Hr & Hgate).
  assert (perform s files all_well (ACommit p (ts_record_version t) mode) = (Ok c, files')) as E.
  { apply (perform_commit_alone s files g); try done.
    { unfold prepare_commit, task_path. rewrite Hid, Htid.
      assert (exists i, id_parse KRequest task_id = Ok i) as [i ->].
      { rewrite <- Htid. apply tv_id, task_validate_iff, Hst. }
      rewrite task_file_record with (dir := dir) by done.
      rewrite (read_stored _ _ t Hf Hst). unfold check_current.
      rewrite Hid, Hgen, String.eqb_refl, N.eqb_refl, !bool_decide_eq_true_2 by done.
      cbn [negb orb]. rewrite Hgate, Hcr. cbn [andb]. rewrite N.eqb_refl. cbn [negb].
      rewrite (proj2 (version_checked_next_Ok _ _)) by done. cbv zeta.
      fold c. replace (task_validate c) with (task_validate p) by done. by rewrite Hval. } }
  exists files'. split; [done|].
  destruct (commit_effect dir s files all_well p _ mode _ _ Hd Hs Hp E) as [[Hd' _] Hans].
  split_and!; [done|apply can_write_insert; [done|]; by apply can_write_insert| |].
  - destruct (Hans c eq_refl) as [_ Hoc]. rewrite <- Htid, <- Hid. apply Hoc. by rewrite <- Htid, <- Hid in Hne.
  - intros path Ho Hl. unfold files'. by rewrite !lookup_insert_ne.
Qed.

(** A new task is created, as version one. *)
Lemma create_alone s files g task_id p :
  dir_ok dir files -> store_ok dir s -> writer_apart s -> can_write s files g ->
  task_id <> latest_id -> files !! record_path dir task_id = None -> writable p ->
  ts_task_id p = task_id -> task_validate p = Ok tt -> ts_record_version p = 0%N ->
  let c := store_commit p 1 g in
  exists files', run_alone s files (create p) = (Ok c, files') /\
    dir_ok dir files' /\ can_write s files' g /\ on_disk dir files' task_id c.
Proof.
  intros Hd Hs Ha Hw Hne Hf Hp Hid Hval Hv c.
  set (files' := <[record_path dir latest_id := to_storage c]> (<[record_path dir task_id := to_storage c]> files)).
  assert (perform s files all_well (ACommit p 0 Create) = (Ok c, files')) as E.
  { apply (perform_commit_alone s files g); try done.
    { unfold prepare_commit, task_path. rewrite Hid.
      assert (exists i, id_parse KRequest task_id = Ok i) as [i ->].
      { rewrite <- Hid. apply tv_id, task_validate_iff, Hval. }
      rewrite task_file_record with (dir := dir) by done.
      pose proof (read_dir dir files task_id Hd) as Hr. rewrite Hf in Hr. rewrite Hr.
      cbn [create_only is_some is_none andb negb N.eqb]. cbv zeta.
      change (version_checked_next 0) with (Ok 1%N : Res N). cbv beta iota.
      replace (task_validate (store_commit p 1 g)) with (task_validate p) by done. by rewrite Hval. } }
  exists files'. split.
  { unfold create. rewrite Hv. cbn [N.eqb negb run_alone]. by rewrite E. }
  destruct (commit_effect dir s files all_well p _ Create _ _ Hd Hs Hp E) as [[Hd' _] Hans].
  split_and!; [done|apply can_write_insert; [done|]; by apply can_write_insert|].
  destruct (Hans c eq_refl) as [_ Hoc]. rewrite <- Hid. apply Hoc. by rewrite <- Hid in Hne.
Qed.

Lemma read_alone s files task_id t :
  store_ok dir s -> on_disk dir files task_id t ->
  perform s files all_well (ARead task_id) = (Ok t, files).
Proof.
  intros Hs (Hf & Hst & Hid). cbn [perform]. f_equal. unfold store_read, task_path.
  assert (exists i, id_parse KRequest task_id = Ok i) as [i ->].
  { rewrite <- Hid. apply tv_id, task_validate_iff, Hst. }
  rewrite (task_file_record dir) by done. unfold read_task_snapshot.
  rewrite (read_stored _ _ t Hf Hst). cbn [ok_or]. by rewrite Hid, String.eqb_refl.
Qed.

Lemma claim_fields t owner now deadline token n t' :
  claim_for_execution t owner now deadline token = Ok (n, t') ->
  ts_task_id t' = ts_task_id t /\ ts_owner_generation t' = ts_owner_generation t /\
  ts_record_version t' = ts_record_version t /\ ts_status t' = "running" /\ ts_attempts t' = n /\
  ts_execution_owner t' = Some owner /\ ts_cancel_token t' = Some token.
Proof.
  unfold claim_for_execution. intros H.
  do 5 apply reject_Ok in H as [_ H]. do 2 apply then_Ok in H as [_ H].
  destruct (ok_or _ _) as [a|]; [|done]. apply reject_Ok in H as [_ H]. cbv zeta in H.
  apply then_Ok in H as [_ H]. by injection H as <- <-.
Qed.

Lemma claim_of_running c owner token :
  ts_status c = "running" -> (0 < ts_attempts c)%N ->
  ts_execution_owner c = Some owner -> ts_cancel_token c = Some token ->
  task_execution_claim c
  = Ok (MkClaim c (MkFence (ts_task_id c) (ts_owner_generation c) owner (ts_attempts c) token)).
Proof.
  intros Hs Ha Ho Ht. unfold task_execution_claim. rewrite Ho, Ht, Hs. cbn [ok_or].
  by rewrite (proj2 (N.eqb_neq _ _)) by lia.
Qed.

(** The claim of a claimable task, alone. *)
Lemma claim_alone s files g task_id t owner token now deadline :
  dir_ok dir files -> store_ok dir s -> writer_apart s -> can_write s files g ->
  task_id <> latest_id -> on_disk dir files task_id t -> not_claimable t = false ->
  validate_execution_owner owner = Ok tt -> validate_cancel_token token = Ok tt ->
  utf8_valid owner = true -> utf8_valid token = true -> (now <= u128_max)%N ->
  claim_deadline t now = Some deadline -> (ts_record_version t + 1 <= u64_max)%N ->
  exists c files', 
    run_alone s files (try_claim_queued task_id owner token now)
    = (Ok (Some (MkClaim c (MkFence task_id g owner (ts_attempts t + 1) token))), files') /\
    dir_ok dir files' /\ can_write s files' g /\ on_disk dir files' task_id c /\
    ts_status c = "running" /\ ts_attempts c = (ts_attempts t + 1)%N /\
    ts_execution_owner c = Some owner /\ ts_cancel_token c = Some token /\
    ts_owner_generation c = g /\ ts_record_version c = (ts_record_version t + 1)%N.
Proof.
  intros Hd Hs Ha Hw Hne Hon Hn Ho Ht Huo Hut Hnow Hdl Hv.
  pose proof Hon as (Hf & [Hst Hwr] & Hid).
  destruct (claim_total t owner now deadline token) as [p Hp]; [apply Hst|done|apply Hst|done..|].
  destruct (claim_for_execution_Ok _ _ _ _ _ _ _ Hp Hdl) as (Hc & Hval & He & Hr & Hatt).
  destruct (claim_fields _ _ _ _ _ _ _ Hp) as (Fi & Fg & Fv & Fs & Fa & Fo & Ft).
  pose proof (claim_deadline_le t now deadline Hdl).
  assert (writable p) as Hwp by (by eapply claim_writable).
  destruct (commit_alone s files g task_id t p CompareAndSet) as (files' & E & Hd' & Hw' & Hon' & _);
    try done.
  { apply commit_checks_true; try done. by apply gate_claim_ok. }
  set (c := store_commit p (ts_record_version t + 1) g) in *.
  exists c, files'. split; [|by split_and!].
  unfold try_claim_queued. rewrite Ho, Ht. cbn [attempt]. unfold reading at 1. cbn [run_alone].
  rewrite (read_alone s files task_id t Hs Hon), Hn, Hdl. cbn [ok_or attempt]. rewrite Hp.
  cbn [attempt]. unfold committing. cbn [run_alone]. rewrite Fv, E. cbn [run_alone].
  rewrite (claim_of_running c owner token) by (done || (cbn; lia)).
  cbn [result_map]. change (ts_task_id c) with (ts_task_id p).
  change (ts_attempts c) with (ts_attempts p). change (ts_owner_generation c) with g.
  by rewrite Fi, Hid, Fa.
Qed.

Lemma verify_fence_of c task_id g owner token :
  ts_task_id c = task_id -> ts_owner_generation c = g -> ts_execution_owner c = Some owner ->
  ts_cancel_token c = Some token ->
  verify_task_attempt_fence c (MkFence task_id g owner (ts_attempts c) token) = Ok tt.
Proof.
  intros <- <- Ho Ht. unfold verify_task_attempt_fence, verify_execution_claim. cbn.
  by rewrite String.eqb_refl, !N.eqb_refl, !bool_decide_eq_true_2.
Qed.

Lemma complete_fields t fence d z t' :
  apply_task_attempt_outcome t fence (OutcomeCompleted d z) = Ok t' ->
  ts_task_id t' = ts_task_id t /\ ts_owner_generation t' = ts_owner_generation t /\
  ts_record_version t' = ts_record_version t /\ ts_attempts t' = ts_attempts t.
Proof.
  cbn [apply_task_attempt_outcome]. unfold complete_execution. intros (_ & _ & _ & _ & H)%attempt_guard_Ok.
  apply then_Ok in H as [_ H]. by apply validated_Ok in H as [-> _].
Qed.

(** A running attempt completed by its worker, alone. *)
Lemma complete_alone s files g task_id t fence d z :
  dir_ok dir files -> store_ok dir s -> writer_apart s -> can_write s files g ->
  task_id <> latest_id -> on_disk dir files task_id t ->
  ts_status t = "running" -> fence_task_id fence = task_id -> verify_task_attempt_fence t fence = Ok tt ->
  validate_canonical_sha256 d "task result digest" = Ok tt ->
  utf8_valid d = true -> (z <= usize_max)%N -> (ts_record_version t + 1 <= u64_max)%N ->
  exists c files',
    run_alone s files (finish_execution fence (OutcomeCompleted d z)) = (Ok c, files') /\
    dir_ok dir files' /\ can_write s files' g /\ on_disk dir files' task_id c /\
    ts_status c = "completed" /\ ts_result_digest c = Some d /\ ts_result_size_bytes c = Some z /\
    ts_attempts c = ts_attempts t /\ ts_record_version c = (ts_record_version t + 1)%N.
Proof.
  intros Hd Hs Ha Hw Hne Hon Hrun Hfid Hf Hdig Hud Hz Hv. pose proof Hon as (_ & [Hst Hwr] & Hid).
  destruct (complete_total t fence d z) as (p & Hp & Ps & Pd & Pz); [apply Hst|done..|].
  destruct (complete_fields _ _ _ _ _ Hp) as (Fi & Fg & Fv & Fa).
  assert (writable p) as Hwp.
  { eapply apply_outcome_writable; [exact Hp|apply Hst|by split|exact Hwr]. }
  destruct (commit_alone s files g task_id t p AttemptOutcome) as (files' & E & Hd' & Hw' & Hon' & _);
    try done.
  { cbn [apply_task_attempt_outcome] in Hp. apply complete_execution_Ok in Hp as (? & ? & ? & _ & ?).
    by apply commit_checks_true. }
  set (c := store_commit p (ts_record_version t + 1) g) in *.
  exists c, files'. split; [|by split_and!].
  unfold finish_execution. rewrite Hfid. cbn [cas_loop TASK_STATE_CAS_RETRY_LIMIT].
  unfold reading at 1. cbn [run_alone]. rewrite (read_alone s files task_id t Hs Hon), Hf. cbn [attempt].
  assert (task_attempt_outcome_is_committed t (OutcomeCompleted d z) = false) as ->.
  { cbn. by rewrite Hrun. }
  rewrite Hrun. change (String.eqb "running" "cancelled") with false.
  change (String.eqb "running" "running") with true. cbn [orb]. rewrite Hp. cbn [attempt].
  unfold committing. cbn [run_alone]. by rewrite Fv, E.
Qed.
End Directory.

(** C6: a task that can be claimed is executed to its end: when no other
    process interferes and the writes succeed, [try_claim_queued] of a record
    it does not refuse returns a claim for the next attempt, and the finish of
    that claim with a canonical result digest commits the completed record,
    and the disk holds the completed task two versions later.  The texts are
    valid, the numbers in their machine ranges with two versions left, and
    the task is not [latest-basic], the name the store keeps for its alias. *)
Theorem claimed_task_completes dir s files g task_id t owner token now deadline d z :
  dir_ok dir files -> store_ok dir s -> writer_apart s -> can_write s files g ->
  task_id <> latest_id -> on_disk dir files task_id t -> not_claimable t = false ->
  validate_execution_owner owner = Ok tt -> validate_cancel_token token = Ok tt ->
  utf8_valid owner = true -> utf8_valid token = true -> (now <= u128_max)%N ->
  claim_deadline t now = Some deadline ->
  validate_canonical_sha256 d "task result digest" = Ok tt -> utf8_valid d = true ->
  (z <= usize_max)%N -> (ts_record_version t + 2 <= u64_max)%N ->
  exists claim files1 t2 files2,
    run_alone s files (try_claim_queued task_id owner token now) = (Ok (Some claim), files1) /\
    claim_fence claim = MkFence task_id g owner (ts_attempts t + 1) token /\
    run_alone s files1 (finish_execution (claim_fence claim) (OutcomeCompleted d z)) = (Ok t2, files2) /\
    on_disk dir files2 task_id t2 /\ ts_status t2 = "completed" /\ ts_result_digest t2 = Some d /\
    ts_attempts t2 = (ts_attempts t + 1)%N /\ ts_record_version t2 = (ts_record_version t + 2)%N.
Proof.
  intros Hd Hs Ha Hw Hne Hon Hn Ho Ht Huo Hut Hnow Hdl Hdig Hud Hz Hv.
  destruct (claim_alone dir s files g task_id t owner token now deadline)
    as (c & files1 & Hrun & Hd1 & Hw1 & Hon1 & Hs1 & Ha1 & Ho1 & Ht1 & Hg1 & Hv1); try done; [lia|].
  pose proof (verify_fence_of c task_id g owner token (proj2 (proj2 Hon1)) Hg1 Ho1 Ht1) as Hver.
  rewrite Ha1 in Hver.
  destruct (complete_alone dir s files1 g task_id c
    (MkFence task_id g owner (ts_attempts t + 1) token) d z) as (t2 & files2 & Hrun2 & _ & _ & Hon2 & Hs2 & Hd2 & _ & Ha2 & Hv2);
    try done; [lia|].
  exists (MkClaim c (MkFence task_id g owner (ts_attempts t + 1) token)), files1, t2, files2.
  split_and!; try done; [congruence|lia].
Qed.

(** ** A concrete task *)

Lemma claimed_task_completes_witness :
  exists t2 files2, on_disk shared_dir files2 "task-1" t2 /\ ts_status t2 = "completed" /\
    ts_attempts t2 = 1%N.
Proof.
  destruct (claimed_task_completes shared_dir shared_store shared_files 0 "task-1" shared_task
              "worker-1" "token-1" 10 (Some 1010%N) (sha256_digest "done") 4)
    as (claim & files1 & t2 & files2 & _ & _ & _ & Hon & Hs & _ & Ha & _);
    [exact shared_dir_ok|exact shared_store_ok|intros w Hw; discriminate Hw|split; reflexivity
    |discriminate|exact shared_on_disk|first [vm_compute; reflexivity | vm_compute; discriminate]..|].
  exists t2, files2. split; [exact Hon|]. split; [exact Hs|exact Ha].
Defined.
