(* ===== verification/EffectLedger.v ===== *)
(** * The effect ledger (crates/eva-storage/src/effect_ledger.rs)

    Before a worker performs an effect that must not happen twice it records
    a prepared entry under the task's idempotency key, and afterwards the
    committed result.  One file per key, named by a digest of the key; every
    transaction runs under the runtime writer's lock and reloads the whole
    directory.  SHA-256 (crate [sha2]) is a parameter. *)

From Stdlib Require Import Ascii.
From stdpp Require Import base numbers strings gmap list.
From S2P Require Import Prelude RustStr Digest Error Ids Durable EventLog TaskState.
From S2P Require Import TaskTransition TaskAccept FieldEscape TaskStorage TaskStore TaskWritable.
From S2P Require Import TaskDirectory.

Definition EFFECT_RECORD_EXTENSION : string := "effect".
Definition EFFECT_LEDGER_DIR : string := "effects".
Definition EFFECT_LEDGER_FORMAT : string := "eva.effect-ledger.v1".
Definition EFFECT_RECORD_FIELD_COUNT : nat := 16.
Definition MAX_EFFECT_FENCE_FIELD_BYTES : N := 512.

Inductive EffectLedgerState := EffectPrepared | EffectCommitted.
#[export] Instance EffectLedgerState_eq_dec : EqDecision EffectLedgerState.
Proof. solve_decision. Defined.

Record EffectOperationIdentity := MkEffectOperation {
  eo_idempotency_key : string;
  eo_operation_digest : string;
  eo_task_kind : string;
  eo_agent_id : string;
  eo_effect_scope : string;
  eo_input_digest : string
}.
#[export] Instance EffectOperationIdentity_eq_dec : EqDecision EffectOperationIdentity.
Proof. solve_decision. Defined.

Record EffectLedgerIntent := MkEffectIntent {
  ei_operation : EffectOperationIdentity;
  ei_task_id : string;
  ei_owner_generation : WriterGeneration;
  ei_attempt : N;
  ei_fence_digest : string;
  ei_prepared_at_ms : N
}.
#[export] Instance EffectLedgerIntent_eta : Eta EffectLedgerIntent := fun i =>
  MkEffectIntent (ei_operation i) (ei_task_id i) (ei_owner_generation i) (ei_attempt i)
    (ei_fence_digest i) (ei_prepared_at_ms i).

Record EffectLedgerRecord := MkEffectRecord {
  er_operation : EffectOperationIdentity;
  er_state : EffectLedgerState;
  er_prepared_task_id : string;
  er_prepared_owner_generation : WriterGeneration;
  er_prepared_attempt : N;
  er_prepared_fence_digest : string;
  er_prepared_at_ms : N;
  er_committed_at_ms : option N;
  er_result_digest : option string;
  er_result_size_bytes : option N
}.
#[export] Instance EffectLedgerRecord_eta : Eta EffectLedgerRecord := fun r =>
  MkEffectRecord (er_operation r) (er_state r) (er_prepared_task_id r) (er_prepared_owner_generation r)
    (er_prepared_attempt r) (er_prepared_fence_digest r) (er_prepared_at_ms r) (er_committed_at_ms r)
    (er_result_digest r) (er_result_size_bytes r).

Inductive EffectPrepareOutcome :=
| OutcomeCreated (record : EffectLedgerRecord)
| OutcomePrepared (record : EffectLedgerRecord)
| OutcomeCommitted (record : EffectLedgerRecord).

Definition outcome_record (o : EffectPrepareOutcome) : EffectLedgerRecord :=
  match o with OutcomeCreated r | OutcomePrepared r | OutcomeCommitted r => r end.

Definition effect_state_str (s : EffectLedgerState) : string :=
  match s with EffectPrepared => "prepared" | EffectCommitted => "committed" end.

Definition effect_state_from_storage (value : string) : Res EffectLedgerState :=
  if String.eqb value "prepared" then Ok EffectPrepared
  else if String.eqb value "committed" then Ok EffectCommitted
  else Err (conflict "effect ledger state is invalid" ⊕ ("state", value)).

(** ** Validation *)

Definition validate_fence_field (field value : string) : Res unit :=
  reject str_is_empty value || negb (String.eqb (trim value) value)
         || (MAX_EFFECT_FENCE_FIELD_BYTES <? str_len value)%N || existsb is_control (chars value) with
    invalid_argument "effect task fence field is invalid" ⊕ ("field", field) else
  Ok tt.

Definition validate_sha256_digest (field value : string) : Res unit :=
  let error := conflict "effect digest is not canonical SHA-256" ⊕ ("field", field) in
  match strip_prefix "sha256:" value with
  | None => Err error
  | Some hex =>
      reject negb (str_len hex =? 64)%N || negb (bytes_all is_lower_hex hex) with error else Ok tt
  end.

(** A length as eight big-endian bytes, then the bytes. *)
Definition length_prefixed (s : string) : string := to_be_bytes (str_len s) +:+ s.

(** What [canonical_digest] feeds to the hasher. *)
Definition digest_input (domain : string) (fields : list string) : string :=
  foldl (fun acc field => acc +:+ length_prefixed field) (length_prefixed domain) fields.

(** [trim_start_matches]: every leading copy of the prefix goes. *)
Fixpoint trim_start_matches_go (fuel : nat) (p s : string) : string :=
  match fuel with
  | O => s
  | S fuel => match strip_prefix p s with
              | Some rest => trim_start_matches_go fuel p rest
              | None => s end
  end.
Definition trim_start_matches (p s : string) : string := trim_start_matches_go (String.length s) p s.

Abbreviation EffectRecords := (gmap string EffectLedgerRecord).

Section Ledger.
(** [Sha256::digest], as bytes. *)
Variable sha256 : string -> string.

Definition canonical_digest (domain : string) (fields : list string) : string :=
  "sha256:" +:+ hex_encode (sha256 (digest_input domain fields)).

Definition operation_new (idempotency_key task_kind agent_id effect_scope input_digest : string) :
    Res EffectOperationIdentity :=
  map_err (fun error => invalid_argument "effect idempotency key is invalid"
                          ⊕ ("cause", err_message error)) (id_parse KRequest idempotency_key) >>?
  validate_task_kind task_kind >>?
  id_parse KAgent agent_id >>?
  map_err (fun error => invalid_argument "effect scope is invalid"
                          ⊕ ("cause", err_message error)) (id_parse KRequest effect_scope) >>?
  validate_sha256_digest "input_digest" input_digest >>?
  Ok (MkEffectOperation idempotency_key
        (canonical_digest "eva.effect-operation.v1"
           [idempotency_key; task_kind; agent_id; effect_scope; input_digest])
        task_kind agent_id effect_scope input_digest).

Definition fence_digest (task_id : string) (generation : WriterGeneration) (execution_owner : string)
    (attempt : N) (cancel_token : string) : string :=
  canonical_digest "eva.effect-attempt-fence.v1"
    [task_id; n_to_string generation; execution_owner; n_to_string attempt; cancel_token].

Definition intent_new (operation : EffectOperationIdentity) (task_id : string)
    (owner_generation : WriterGeneration) (execution_owner : string) (attempt : N)
    (cancel_token : string) (prepared_at_ms : N) : Res EffectLedgerIntent :=
  id_parse KRequest task_id >>?
  (reject (owner_generation =? 0)%N with
     invalid_argument "effect prepare requires a non-zero writer generation" else
   reject (attempt =? 0)%N with
     invalid_argument "effect prepare requires a one-based task attempt" else
   validate_fence_field "execution_owner" execution_owner >>?
   validate_fence_field "cancel_token" cancel_token >>?
   Ok (MkEffectIntent operation task_id owner_generation attempt
         (fence_digest task_id owner_generation execution_owner attempt cancel_token)
         prepared_at_ms)).

Definition effect_prepared (intent : EffectLedgerIntent) : EffectLedgerRecord :=
  {| er_operation := ei_operation intent;
     er_state := EffectPrepared;
     er_prepared_task_id := ei_task_id intent;
     er_prepared_owner_generation := ei_owner_generation intent;
     er_prepared_attempt := ei_attempt intent;
     er_prepared_fence_digest := ei_fence_digest intent;
     er_prepared_at_ms := ei_prepared_at_ms intent;
     er_committed_at_ms := None;
     er_result_digest := None;
     er_result_size_bytes := None |}.

(** The [match self.state] of [validate]. *)
Definition validate_effect_result (r : EffectLedgerRecord) : Res unit :=
  match er_state r with
  | EffectPrepared =>
      reject is_some (er_committed_at_ms r) || is_some (er_result_digest r)
             || is_some (er_result_size_bytes r) with
        conflict "prepared effect record contains committed result fields" else
      Ok tt
  | EffectCommitted =>
      let? committed_at_ms := ok_or (er_committed_at_ms r)
        (conflict "committed effect record is missing commit time") in
      reject (committed_at_ms <? er_prepared_at_ms r)%N with
        conflict "effect commit time precedes its prepare boundary" else
      let? result_digest := ok_or (er_result_digest r)
        (conflict "committed effect record is missing result digest") in
      validate_sha256_digest "result_digest" result_digest >>?
      (reject is_none (er_result_size_bytes r) with
         conflict "committed effect record is missing result size" else
       Ok tt)
  end.

Definition effect_validate (r : EffectLedgerRecord) : Res unit :=
  let op := er_operation r in
  let? canonical := operation_new (eo_idempotency_key op) (eo_task_kind op) (eo_agent_id op)
                      (eo_effect_scope op) (eo_input_digest op) in
  reject negb (String.eqb (eo_operation_digest canonical) (eo_operation_digest op)) with
    conflict "effect operation digest does not match its immutable identity" else
  id_parse KRequest (er_prepared_task_id r) >>?
  (reject (er_prepared_owner_generation r =? 0)%N || (er_prepared_attempt r =? 0)%N with
     conflict "effect prepared task fence is incomplete" else
   validate_sha256_digest "prepared_fence_digest" (er_prepared_fence_digest r) >>?
   validate_effect_result r).

(** ** The record format *)

(** [Option::map(to_string).unwrap_or_default()] *)
Definition opt_number_text (o : option N) : string :=
  match o with Some n => n_to_string n | None => "" end.

Definition effect_fields (r : EffectLedgerRecord) : Fields :=
  [ ("format", EFFECT_LEDGER_FORMAT);
    ("idempotency_key", eo_idempotency_key (er_operation r));
    ("operation_digest", eo_operation_digest (er_operation r));
    ("task_kind", eo_task_kind (er_operation r));
    ("agent_id", eo_agent_id (er_operation r));
    ("effect_scope", eo_effect_scope (er_operation r));
    ("input_digest", eo_input_digest (er_operation r));
    ("state", effect_state_str (er_state r));
    ("prepared_task_id", er_prepared_task_id r);
    ("prepared_owner_generation", n_to_string (er_prepared_owner_generation r));
    ("prepared_attempt", n_to_string (er_prepared_attempt r));
    ("prepared_fence_digest", er_prepared_fence_digest r);
    ("prepared_at_ms", n_to_string (er_prepared_at_ms r));
    ("committed_at_ms", opt_number_text (er_committed_at_ms r));
    ("result_digest", default "" (er_result_digest r));
    ("result_size_bytes", opt_number_text (er_result_size_bytes r)) ].

Definition effect_record_to_storage (r : EffectLedgerRecord) : string := render (effect_fields r).

Definition EFFECT_FIELD_NAMES : list string :=
  ["format"; "idempotency_key"; "operation_digest"; "task_kind"; "agent_id"; "effect_scope";
   "input_digest"; "state"; "prepared_task_id"; "prepared_owner_generation"; "prepared_attempt";
   "prepared_fence_digest"; "prepared_at_ms"; "committed_at_ms"; "result_digest";
   "result_size_bytes"].

(** The loop over the lines of a record. *)
Fixpoint parse_effect_lines (fields : FieldMap) (ls : list string) : Res FieldMap :=
  match ls with
  | [] => Ok fields
  | line :: rest =>
      match split_once "=" line with
      | None => Err (conflict "effect ledger record field is invalid")
      | Some (key, value) =>
          reject negb (is_one_of key EFFECT_FIELD_NAMES) with
            conflict "effect ledger record has unknown field" ⊕ ("field", key) else
          reject bool_decide (is_Some (fields !! key)) with
            conflict "effect ledger record field is duplicated" ⊕ ("field", key) else
          parse_effect_lines (<[key := value]> fields) rest
      end
  end.

Definition required_effect_field (fields : FieldMap) (key : string) : Res string :=
  ok_or (fields !! key) (conflict "effect ledger record field is missing" ⊕ ("field", key)).

Definition optional_text_field (fields : FieldMap) (key : string) : Res (option string) :=
  let? value := required_effect_field fields key in
  Ok (if str_is_empty value then None else Some value).

Definition numeric_error (key : string) : EvaError :=
  conflict "effect ledger numeric field is invalid" ⊕ ("field", key).

(** [parse::<T>] for the unsigned [T] with the maximum [max]. *)
Definition parse_effect_field (max : N) (fields : FieldMap) (key : string) : Res N :=
  let? value := required_effect_field fields key in ok_or (parse_unsigned max value) (numeric_error key).

Definition parse_optional_effect_field (max : N) (fields : FieldMap) (key : string) : Res (option N) :=
  let? value := required_effect_field fields key in
  if str_is_empty value then Ok None
  else result_map Some (ok_or (parse_unsigned max value) (numeric_error key)).

Definition effect_record_from_storage (data : string) : Res EffectLedgerRecord :=
  let? fields := parse_effect_lines ∅
    (List.filter (fun line => negb (str_is_empty line)) (lines data)) in
  reject negb (Nat.eqb (size fields) EFFECT_RECORD_FIELD_COUNT) with
    conflict "effect ledger record field set is incomplete" else
  let? format := required_effect_field fields "format" in
  reject negb (String.eqb format EFFECT_LEDGER_FORMAT) with
    conflict "effect ledger record format is unsupported" else
  let? idempotency_key := required_effect_field fields "idempotency_key" in
  let? task_kind := required_effect_field fields "task_kind" in
  let? agent_id := required_effect_field fields "agent_id" in
  let? effect_scope := required_effect_field fields "effect_scope" in
  let? input_digest := required_effect_field fields "input_digest" in
  let? operation := operation_new idempotency_key task_kind agent_id effect_scope input_digest in
  let? operation_digest := required_effect_field fields "operation_digest" in
  reject negb (String.eqb (eo_operation_digest operation) operation_digest) with
    conflict "effect operation digest does not match stored identity" else
  let? state_text := required_effect_field fields "state" in
  let? state := effect_state_from_storage state_text in
  let? prepared_task_id := required_effect_field fields "prepared_task_id" in
  let? generation := parse_effect_field u64_max fields "prepared_owner_generation" in
  let? attempt := parse_effect_field usize_max fields "prepared_attempt" in
  let? fence := required_effect_field fields "prepared_fence_digest" in
  let? prepared_at_ms := parse_effect_field u128_max fields "prepared_at_ms" in
  let? committed_at_ms := parse_optional_effect_field u128_max fields "committed_at_ms" in
  let? result_digest := optional_text_field fields "result_digest" in
  let? result_size_bytes := parse_optional_effect_field usize_max fields "result_size_bytes" in
  let record := MkEffectRecord operation state prepared_task_id generation attempt fence
                  prepared_at_ms committed_at_ms result_digest result_size_bytes in
  effect_validate record >>? Ok record.

(** ** The directory *)

Definition effect_record_stem (idempotency_key : string) : string :=
  trim_start_matches "sha256:" (canonical_digest "eva.effect-record-key.v1" [idempotency_key]).

Definition effect_file (idempotency_key : string) : string :=
  effect_record_stem idempotency_key +:+ "." +:+ EFFECT_RECORD_EXTENSION.

(** [Path::file_stem] of a file name. *)
Definition file_stem (name : string) : string :=
  match rev (split "." name) with
  | _ :: ((_ :: _) as stem) =>
      let s := join "." (rev stem) in if str_is_empty s then name else s
  | _ => name
  end.

(** The loop body of [load_effect_records], for one directory entry. *)
Definition load_effect_record (root : string) (records : EffectRecords) (entry : string * string) :
    Res EffectRecords :=
  let path := path_join root entry.1 in
  reject negb (utf8_valid entry.2) with
    conflict "failed to read effect ledger record"
      ⊕ ("path", path) ⊕ ("io_error", "stream did not contain valid UTF-8") else
  let? record := map_err (fun error => error ⊕ ("path", path)) (effect_record_from_storage entry.2) in
  let key := eo_idempotency_key (er_operation record) in
  reject negb (String.eqb (file_stem entry.1) (effect_record_stem key)) with
    conflict "effect ledger file key does not match record" ⊕ ("path", path) else
  reject bool_decide (is_Some (records !! key)) with
    conflict "effect ledger idempotency key is duplicated" else
  Ok (<[key := record]> records).

Fixpoint load_effect_entries (root : string) (records : EffectRecords)
    (entries : list (string * string)) : Res EffectRecords :=
  match entries with
  | [] => Ok records
  | entry :: rest =>
      if negb (bool_decide (file_extension entry.1 = Some EFFECT_RECORD_EXTENSION))
      then load_effect_entries root records rest
      else let? records := load_effect_record root records entry in
           load_effect_entries root records rest
  end.

Definition load_effect_records (root : string) (dir : Dir) : Res EffectRecords :=
  load_effect_entries root ∅ (map_to_list dir).

Definition persist_effect_record (root : string) (dir : Dir) (r : EffectLedgerRecord)
    (o : WriteOutcome) : Res unit * Dir :=
  let name := effect_file (eo_idempotency_key (er_operation r)) in
  match atomic_write dir name (effect_record_to_storage r) o with
  | (Ok _, dir) => (Ok tt, dir)
  | (Err error, dir) =>
      (Err (internal "failed to atomically write effect ledger record"
              ⊕ ("path", path_join root name) ⊕ ("io_error", error)), dir)
  end.

(** ** The ledger *)

Record FileSystemEffectLedger := MkEffectLedger {
  el_root : string;
  el_records : EffectRecords;
  el_writer : option DurableWriterGuard
}.

Definition ensure_operation_matches (record : EffectLedgerRecord)
    (operation : EffectOperationIdentity) : Res unit :=
  if bool_decide (er_operation record = operation) then Ok tt
  else Err (conflict "effect idempotency key is already bound to another operation"
              ⊕ ("existing_operation_digest", eo_operation_digest (er_operation record))
              ⊕ ("requested_operation_digest", eo_operation_digest operation)).

Definition prepare_effect_record (root : string) (records : EffectRecords) (dir : Dir)
    (o : WriteOutcome) (intent : EffectLedgerIntent) :
    Res EffectPrepareOutcome * EffectRecords * Dir :=
  let key := eo_idempotency_key (ei_operation intent) in
  match records !! key with
  | Some record =>
      (ensure_operation_matches record (ei_operation intent) >>?
       Ok (match er_state record with
           | EffectPrepared => OutcomePrepared record
           | EffectCommitted => OutcomeCommitted record end), records, dir)
  | None =>
      let record := effect_prepared intent in
      match effect_validate record with
      | Err e => (Err e, records, dir)
      | Ok _ =>
          match persist_effect_record root dir record o with
          | (Err e, dir) => (Err e, records, dir)
          | (Ok _, dir) => (Ok (OutcomeCreated record), <[key := record]> records, dir)
          end
      end
  end.

Definition input_digest (i : TaskInputSnapshot) : string :=
  match i with InputInline _ digest | InputArtifact _ digest => digest end.

(** The live task record must be the claim the intent was made for. *)
Definition verify_effect_task_claim (task_store : FileSystemTaskStateStore) (files : Files)
    (intent : EffectLedgerIntent) (writer_generation : WriterGeneration) (observed_at_ms : N) :
    Res unit :=
  let task_id := ei_task_id intent in
  let op := ei_operation intent in
  reject negb (ei_owner_generation intent =? writer_generation)%N with
    conflict "effect prepare belongs to another writer generation" ⊕ ("task_id", task_id) else
  let? snapshot := store_read task_store files (Some task_id) in
  reject negb (String.eqb (ts_status snapshot) "running") || ts_cancel_requested snapshot
         || ts_cancel_accepted snapshot with
    with_retryable (conflict "effect prepare requires an uncancelled running task") false
      ⊕ ("task_id", task_id) ⊕ ("status", ts_status snapshot) else
  reject deadline_expired snapshot observed_at_ms with
    timeout_error "effect task deadline expired before prepare" else
  let? envelope := ok_or (ts_envelope snapshot)
    (conflict "effect task is missing its immutable envelope" ⊕ ("task_id", task_id)) in
  reject negb (String.eqb (env_idempotency_key envelope) (eo_idempotency_key op))
         || negb (String.eqb (env_kind envelope) (eo_task_kind op))
         || negb (String.eqb (env_agent_id envelope) (eo_agent_id op))
         || negb (String.eqb (input_digest (env_input envelope)) (eo_input_digest op)) with
    conflict "effect operation does not match the claimed task envelope"
      ⊕ ("task_id", task_id) ⊕ ("operation_digest", eo_operation_digest op) else
  let? execution_owner := ok_or (ts_execution_owner snapshot)
    (conflict "effect task is missing its execution owner" ⊕ ("task_id", task_id)) in
  let? cancel_token := ok_or (ts_cancel_token snapshot)
    (conflict "effect task is missing its cancellation fence" ⊕ ("task_id", task_id)) in
  let actual_fence_digest := fence_digest (ts_task_id snapshot) (ts_owner_generation snapshot)
                               execution_owner (ts_attempts snapshot) cancel_token in
  reject negb (ts_owner_generation snapshot =? ei_owner_generation intent)%N
         || negb (ts_attempts snapshot =? ei_attempt intent)%N
         || negb (String.eqb actual_fence_digest (ei_fence_digest intent)) with
    conflict "effect prepare task fence does not match the live claim" ⊕ ("task_id", task_id) else
  Ok tt.

(** [with_write_transaction] and [with_claim_transaction] share their end:
    the records of a successful transaction become the cached ones. *)
Definition end_transaction {A} (l : FileSystemEffectLedger)
    (outcome : Res A * EffectRecords * Dir) : Res A * FileSystemEffectLedger * Dir :=
  match outcome with
  | (Ok a, records, dir) => (Ok a, MkEffectLedger (el_root l) records (el_writer l), dir)
  | (Err e, _, dir) => (Err e, l, dir)
  end.

Definition with_write_transaction {A} (l : FileSystemEffectLedger) (files : Files) (dir : Dir)
    (lock : Res unit) (operation : EffectRecords -> Res A * EffectRecords * Dir) :
    Res A * FileSystemEffectLedger * Dir :=
  match el_writer l with
  | None => (Err (conflict "read-only effect ledger cannot mutate records"), l, dir)
  | Some writer =>
      match (lock >>? verify_current writer files >>? load_effect_records (el_root l) dir) with
      | Err e => (Err e, l, dir)
      | Ok records => end_transaction l (operation records)
      end
  end.

(** [now] is the outcome of [effect_now_ms]. *)
Definition with_claim_transaction {A} (l : FileSystemEffectLedger) (files : Files) (dir : Dir)
    (task_store : FileSystemTaskStateStore) (intent : EffectLedgerIntent) (lock : Res unit)
    (now : Res N) (operation : EffectRecords -> N -> Res A * EffectRecords * Dir) :
    Res A * FileSystemEffectLedger * Dir :=
  match el_writer l with
  | None => (Err (conflict "read-only effect ledger cannot prepare records"), l, dir)
  | Some writer =>
      if negb (String.eqb (tss_project_root task_store) (wg_root writer))
         || negb (bool_decide (wg_generation <$> tss_writer task_store = Some (wg_generation writer)))
      then (Err (conflict "effect ledger and task store do not share runtime writer ownership"), l, dir)
      else
        match (lock >>? verify_current writer files >>?
               (let? observed_at_ms := now in
                verify_effect_task_claim task_store files intent (wg_generation writer) observed_at_ms >>?
                (let? records := load_effect_records (el_root l) dir in
                 Ok (observed_at_ms, records)))) with
        | Err e => (Err e, l, dir)
        | Ok (observed_at_ms, records) => end_transaction l (operation records observed_at_ms)
        end
  end.

(** The record of an operation, if its key is known. *)
Definition find_effect (records : EffectRecords) (operation : EffectOperationIdentity) :
    Res (option EffectLedgerRecord) :=
  match records !! eo_idempotency_key operation with
  | Some record => ensure_operation_matches record operation >>? Ok (Some record)
  | None => Ok None
  end.

Definition inspect_for_claim (l : FileSystemEffectLedger) (files : Files) (dir : Dir)
    (task_store : FileSystemTaskStateStore) (intent : EffectLedgerIntent) (lock : Res unit)
    (now : Res N) : Res (option EffectLedgerRecord) * FileSystemEffectLedger * Dir :=
  with_claim_transaction l files dir task_store intent lock now (fun records _ =>
    (find_effect records (ei_operation intent), records, dir)).

Definition prepare_for_claim (l : FileSystemEffectLedger) (files : Files) (dir : Dir)
    (task_store : FileSystemTaskStateStore) (intent : EffectLedgerIntent) (lock : Res unit)
    (now : Res N) (o : WriteOutcome) : Res EffectPrepareOutcome * FileSystemEffectLedger * Dir :=
  with_claim_transaction l files dir task_store intent lock now (fun records observed_at_ms =>
    prepare_effect_record (el_root l) records dir o
      (intent <| ei_prepared_at_ms := observed_at_ms |>)).

(** The closure [commit] runs under [with_write_transaction]. *)
Definition commit_effect_record (root : string) (records : EffectRecords) (dir : Dir)
    (o : WriteOutcome) (intent : EffectLedgerIntent) (result_digest : string)
    (result_size_bytes committed_at_ms : N) : Res EffectLedgerRecord * EffectRecords * Dir :=
  let op := ei_operation intent in
  let about (e : EvaError) := e ⊕ ("operation_digest", eo_operation_digest op) in
  match records !! eo_idempotency_key op with
  | None => (Err (about (conflict "effect cannot commit before prepare")), records, dir)
  | Some current =>
      match ensure_operation_matches current op with
      | Err e => (Err e, records, dir)
      | Ok _ =>
          if negb (String.eqb (er_prepared_task_id current) (ei_task_id intent))
             || negb (er_prepared_owner_generation current =? ei_owner_generation intent)%N
             || negb (er_prepared_attempt current =? ei_attempt intent)%N
             || negb (String.eqb (er_prepared_fence_digest current) (ei_fence_digest intent)) then
            (Err (about (conflict "effect commit task fence does not match the prepare owner")),
             records, dir)
          else if bool_decide (er_state current = EffectCommitted) then
            if bool_decide (er_result_digest current = Some result_digest)
               && bool_decide (er_result_size_bytes current = Some result_size_bytes)
            then (Ok current, records, dir)
            else (Err (about (conflict "committed effect result identity cannot be rewritten")),
                  records, dir)
          else
            let committed := current <| er_state := EffectCommitted |>
              <| er_committed_at_ms := Some committed_at_ms |>
              <| er_result_digest := Some result_digest |>
              <| er_result_size_bytes := Some result_size_bytes |> in
            match effect_validate committed with
            | Err e => (Err e, records, dir)
            | Ok _ =>
                match persist_effect_record root dir committed o with
                | (Err e, dir) => (Err e, records, dir)
                | (Ok _, dir) => (Ok committed, <[eo_idempotency_key op := committed]> records, dir)
                end
            end
      end
  end.

Definition effect_commit (l : FileSystemEffectLedger) (files : Files) (dir : Dir)
    (intent : EffectLedgerIntent) (result_digest : string) (result_size_bytes committed_at_ms : N)
    (lock : Res unit) (o : WriteOutcome) : Res EffectLedgerRecord * FileSystemEffectLedger * Dir :=
  match validate_sha256_digest "result_digest" result_digest with
  | Err e => (Err e, l, dir)
  | Ok _ =>
      if negb (bool_decide (wg_generation <$> el_writer l = Some (ei_owner_generation intent))) then
        (Err (conflict "effect commit belongs to another writer generation"
                ⊕ ("operation_digest", eo_operation_digest (ei_operation intent))), l, dir)
      else with_write_transaction l files dir lock (fun records =>
             commit_effect_record (el_root l) records dir o intent result_digest
               result_size_bytes committed_at_ms)
  end.

(** [dir] is [None] when the directory does not exist. *)
Definition effect_refresh (l : FileSystemEffectLedger) (files : Files) (dir : option Dir)
    (lock : Res unit) : Res FileSystemEffectLedger :=
  let missing := internal "failed to read effect ledger directory" ⊕ ("path", el_root l)
                   ⊕ ("io_error", "No such file or directory (os error 2)") in
  let? records :=
    match el_writer l with
    | Some writer =>
        lock >>? verify_current writer files >>?
        match dir with Some dir => load_effect_records (el_root l) dir | None => Err missing end
    | None => match dir with Some dir => load_effect_records (el_root l) dir | None => Ok ∅ end
    end in
  Ok (MkEffectLedger (el_root l) records (el_writer l)).

Definition effect_inspect (l : FileSystemEffectLedger) (files : Files) (dir : option Dir)
    (lock : Res unit) (operation : EffectOperationIdentity) :
    Res (option EffectLedgerRecord) * FileSystemEffectLedger :=
  match effect_refresh l files dir lock with
  | Err e => (Err e, l)
  | Ok l => (find_effect (el_records l) operation, l)
  end.

Definition not_a_directory (root : string) : EvaError :=
  conflict "effect ledger path is not a directory" ⊕ ("path", root).

(** [create] is the outcome of [create_dir_all]. *)
Definition open_with_writer (layout : DurableBackendLayout) (writer : DurableWriterGuard)
    (files : Files) (entry : RootEntry) (lock create : Res unit) : Res FileSystemEffectLedger :=
  let root := path_join (layout_state_dir layout) EFFECT_LEDGER_DIR in
  reject negb (String.eqb (wg_root writer) (layout_root layout)) with
    conflict "effect ledger writer belongs to a different backend root"
      ⊕ ("layout_root", layout_root layout) ⊕ ("writer_root", wg_root writer) else
  lock >>? verify_current writer files >>?
  (let? records := match entry with
                   | RootFile => Err (not_a_directory root)
                   | RootDir dir => load_effect_records root dir
                   | RootMissing => create >>? load_effect_records root ∅ end in
   Ok (MkEffectLedger root records (Some writer))).

Definition open_read_only (layout : DurableBackendLayout) (entry : RootEntry) :
    Res FileSystemEffectLedger :=
  let root := path_join (layout_state_dir layout) EFFECT_LEDGER_DIR in
  let? records := match entry with
                  | RootFile => Err (not_a_directory root)
                  | RootDir dir => load_effect_records root dir
                  | RootMissing => Ok ∅ end in
  Ok (MkEffectLedger root records None).
End Ledger.
