(* ===== verification/EffectSafety.v ===== *)
(** * What the effect ledger promises (crates/eva-storage/src/effect_ledger.rs)

    Records read back as written, the directory of a ledger always loads,
    and under any sequence of transactions of any handles an idempotency key
    is prepared by one intent only and its committed result is final. *)

From Stdlib Require Import Ascii.
From stdpp Require Import base numbers strings gmap list.
From S2P Require Import Prelude RustStr Digest Error Ids Durable EventLog TaskState.
From S2P Require Import TaskTransition TaskAccept FieldEscape TaskStorage TaskStore TaskWritable.
From S2P Require Import TaskDirectory EffectLedger.

(** ** What is hashed *)

Lemma length_prefixed_inj a b x y :
  (str_len a <= u64_max)%N -> (str_len b <= u64_max)%N ->
  length_prefixed a +:+ x = length_prefixed b +:+ y -> a = b /\ x = y.
Proof.
  unfold length_prefixed. rewrite <- !append_assoc. intros Ha Hb H.
  apply append_inj_length in H as [H1 H2]; [|by rewrite !to_be_bytes_length].
  apply (f_equal of_be_bytes) in H1. rewrite !of_to_be_bytes in H1 by done.
  apply append_inj_length in H2; [done|]. unfold str_len in H1. lia.
Qed.

Lemma digest_input_spec domain fields :
  digest_input domain fields = length_prefixed domain +:+ str_concat (length_prefixed <$> fields).
Proof.
  unfold digest_input. generalize (length_prefixed domain) as acc.
  induction fields as [|f fs IH]; intros acc; cbn [foldl fmap list_fmap str_concat foldr].
  - by rewrite append_nil_r.
  - rewrite IH. by rewrite <- append_assoc.
Qed.

Lemma prefixed_list_inj fs gs :
  Forall (fun f => str_len f <= u64_max)%N fs -> Forall (fun f => str_len f <= u64_max)%N gs ->
  str_concat (length_prefixed <$> fs) = str_concat (length_prefixed <$> gs) -> fs = gs.
Proof.
  intros Hf. revert gs. induction Hf as [|f fs Hf _ IH]; intros [|g gs] Hg; cbn; [done|..].
  - intros H. apply (f_equal String.length) in H. unfold length_prefixed in H.
    rewrite !length_append, to_be_bytes_length in H. cbn in H. lia.
  - intros H. apply (f_equal String.length) in H. unfold length_prefixed in H.
    rewrite !length_append, to_be_bytes_length in H. cbn in H. lia.
  - apply Forall_cons in Hg as [Hg Hgs]. intros H.
    apply length_prefixed_inj in H as [-> H]; [|done..]. f_equal. by apply IH.
Qed.

(** ** File names *)

Lemma hex_no_s x : contains_char "s" (hex_encode x) = false.
Proof.
  apply contains_char_false. eapply bytes_all_impl; [|apply hex_encode_lower].
  apply ascii_impl. vm_compute. reflexivity.
Qed.
Lemma trim_digest_prefix x : trim_start_matches "sha256:" ("sha256:" +:+ hex_encode x) = hex_encode x.
Proof.
  unfold trim_start_matches. rewrite length_append. cbn [String.length Nat.add trim_start_matches_go].
  rewrite strip_prefix_append. destruct (strip_prefix "sha256:" (hex_encode x)) as [r|] eqn:E; [|done].
  apply strip_prefix_Some in E. pose proof (hex_no_s x) as H. rewrite E in H. done.
Qed.

Section Names.
Variable sha256 : string -> string.
Hypothesis sha256_length : forall s, String.length (sha256 s) = 32.

Definition key_hash (key : string) : string := sha256 (digest_input "eva.effect-record-key.v1" [key]).

Lemma effect_record_stem_hex key : effect_record_stem sha256 key = hex_encode (key_hash key).
Proof. unfold effect_record_stem, canonical_digest. by rewrite trim_digest_prefix. Qed.

Lemma stem_split key : rev (split "." (effect_file sha256 key)) = ["effect"; hex_encode (key_hash key)].
Proof.
  unfold effect_file. rewrite effect_record_stem_hex.
  change ("." +:+ EFFECT_RECORD_EXTENSION) with (String "." "effect").
  by rewrite split_append by apply hex_no_dot.
Qed.

Lemma hex_nonempty key : str_is_empty (hex_encode (key_hash key)) = false.
Proof using sha256_length.
  apply str_is_empty_false. intros H. apply (f_equal String.length) in H.
  rewrite hex_encode_length in H. unfold key_hash in H. rewrite sha256_length in H. discriminate H.
Qed.

Lemma effect_file_extension key : file_extension (effect_file sha256 key) = Some EFFECT_RECORD_EXTENSION.
Proof using sha256_length. unfold file_extension. rewrite stem_split. cbn. by rewrite hex_nonempty. Qed.

Lemma effect_file_stem key : file_stem (effect_file sha256 key) = effect_record_stem sha256 key.
Proof using sha256_length.
  unfold file_stem. rewrite stem_split. cbn. by rewrite hex_nonempty, effect_record_stem_hex.
Qed.

Lemma effect_file_inj a b : effect_file sha256 a = effect_file sha256 b -> key_hash a = key_hash b.
Proof.
  intros H. apply (f_equal (fun n => rev (split "." n))) in H. rewrite !stem_split in H.
  by injection H as H%hex_encode_inj.
Qed.
End Names.

(** ** Records read back *)

Section Records.
Variable sha256 : string -> string.

Record effect_valid (r : EffectLedgerRecord) : Prop := {
  ev_operation : operation_new sha256 (eo_idempotency_key (er_operation r)) (eo_task_kind (er_operation r))
                   (eo_agent_id (er_operation r)) (eo_effect_scope (er_operation r))
                   (eo_input_digest (er_operation r)) = Ok (er_operation r);
  ev_task : exists i, id_parse KRequest (er_prepared_task_id r) = Ok i;
  ev_fence : (er_prepared_owner_generation r =? 0)%N || (er_prepared_attempt r =? 0)%N = false;
  ev_digest : validate_sha256_digest "prepared_fence_digest" (er_prepared_fence_digest r) = Ok tt;
  ev_result : validate_effect_result r = Ok tt
}.

Lemma operation_new_Ok key kind agent scope input op :
  operation_new sha256 key kind agent scope input = Ok op ->
  op = MkEffectOperation key (canonical_digest sha256 "eva.effect-operation.v1" [key; kind; agent; scope; input])
         kind agent scope input /\
  id_valid key = true /\ validate_task_kind kind = Ok tt /\ id_valid agent = true /\
  id_valid scope = true /\ validate_sha256_digest "input_digest" input = Ok tt.
Proof.
  unfold operation_new. intros H.
  apply then_Ok in H as [[i H1] H]. apply map_err_Ok, id_parse_Ok in H1 as [H1 _].
  apply then_Ok in H as [[[] H2] H]. apply then_Ok in H as [[j H3] H]. apply id_parse_Ok in H3 as [H3 _].
  apply then_Ok in H as [[k H4] H]. apply map_err_Ok, id_parse_Ok in H4 as [H4 _].
  apply then_Ok in H as [[[] H5] H]. by injection H as <-.
Qed.

Lemma effect_validate_iff r : effect_validate sha256 r = Ok tt <-> effect_valid r.
Proof.
  unfold effect_validate. split.
  - intros H. destruct (operation_new _ _ _ _ _ _) as [op|] eqn:E; [|done].
    apply reject_Ok in H as [Hd H]. apply negb_false_iff, String.eqb_eq in Hd.
    apply then_Ok in H as [Ht H]. apply reject_Ok in H as [Hf H]. apply then_Ok in H as [[[] Hg] H].
    constructor; try done. rewrite E. apply operation_new_Ok in E as [-> _]. cbn in Hd.
    destruct (er_operation r); cbn in *. by rewrite Hd.
  - intros [Ho [i Ht] Hf Hg Hr]. rewrite Ho, Ht, Hf, Hg. by rewrite String.eqb_refl.
Qed.

(** The integers a record's fields can hold. *)
Record effect_in_range (r : EffectLedgerRecord) : Prop := {
  erg_generation : (er_prepared_owner_generation r <= u64_max)%N;
  erg_attempt : (er_prepared_attempt r <= usize_max)%N;
  erg_prepared : (er_prepared_at_ms r <= u128_max)%N;
  erg_committed : opt_le u128_max (er_committed_at_ms r);
  erg_size : opt_le usize_max (er_result_size_bytes r)
}.

Lemma sha256_shape_graphic field v :
  validate_sha256_digest field v = Ok tt -> v <> "" /\ bytes_all is_graphic v = true.
Proof.
  unfold validate_sha256_digest. destruct (strip_prefix _ _) as [hex|] eqn:E; [|done].
  apply strip_prefix_Some in E as ->. intros [H _]%reject_Ok.
  apply orb_false_iff in H as [_ H%negb_false_iff]. split; [done|]. rewrite bytes_all_append.
  rewrite (bytes_all_impl is_lower_hex is_graphic hex); [done| |done].
  apply ascii_impl. vm_compute. reflexivity.
Qed.

Lemma canonical_digest_graphic domain fields :
  bytes_all is_graphic (canonical_digest sha256 domain fields) = true.
Proof.
  unfold canonical_digest. rewrite bytes_all_append. cbn [andb].
  eapply bytes_all_impl; [|apply hex_encode_lower]. apply ascii_impl. vm_compute. reflexivity.
Qed.

Lemma bytes_all_join p sep l :
  bytes_all p sep = true -> Forall (fun s => bytes_all p s = true) l -> bytes_all p (join sep l) = true.
Proof.
  intros Hs. induction 1 as [|x [|y l] Hx Hl IH]; [done|done|].
  rewrite join_cons, !bytes_all_append, Hx, Hs. exact IH.
Qed.

Lemma task_kind_graphic v : validate_task_kind v = Ok tt -> bytes_all is_graphic v = true.
Proof.
  unfold validate_task_kind. intros [_ H]%reject_Ok. rewrite <- (join_split "." v).
  apply bytes_all_join; [done|]. apply try_each_Ok in H. eapply Forall_impl; [exact H|].
  cbn. intros s [Hs _]%reject_Ok. apply orb_false_iff in Hs as [_ Hs%negb_false_iff].
  revert Hs. apply bytes_all_impl, name_char_graphic.
Qed.

Lemma n_to_string_graphic n : bytes_all is_graphic (n_to_string n) = true.
Proof. apply digits_graphic, n_to_string_digits. Qed.

Lemma opt_number_graphic o : bytes_all is_graphic (opt_number_text o) = true.
Proof. destruct o; [apply n_to_string_graphic|done]. Qed.

Lemma effect_digest_graphic r : effect_valid r -> bytes_all is_graphic (default "" (er_result_digest r)) = true.
Proof.
  intros [_ _ _ _ H]. unfold validate_effect_result in H. destruct (er_state r).
  - apply reject_Ok in H as [H _]. by destruct (er_result_digest r); [rewrite orb_true_r in H|].
  - destruct (er_committed_at_ms r); [|done]. apply reject_Ok in H as [_ H].
    destruct (er_result_digest r); [|done]. apply then_Ok in H as [[[] H] _].
    by apply sha256_shape_graphic in H as [_ ?].
Qed.

Lemma effect_fields_graphic r :
  effect_valid r -> Forall (fun f => bytes_all is_graphic f.2 = true) (effect_fields r).
Proof.
  intros Hv. pose proof (effect_digest_graphic r Hv) as Hd. destruct Hv as [Ho [i Ht] _ Hf _].
  apply operation_new_Ok in Ho as (Ho & Hk & Hkind & Ha & Hs & Hi).
  apply id_parse_Ok in Ht as [Ht _].
  assert (bytes_all is_graphic (eo_operation_digest (er_operation r)) = true) as Hod.
  { rewrite Ho. apply canonical_digest_graphic. }
  apply sha256_shape_graphic in Hf as [_ Hf]. apply sha256_shape_graphic in Hi as [_ Hi].
  unfold effect_fields.
  repeat apply Forall_cons_2; cbn [snd];
    auto using id_valid_graphic, task_kind_graphic, n_to_string_graphic, opt_number_graphic.
  by destruct (er_state r).
Qed.

Lemma effect_names_NoDup : NoDup EFFECT_FIELD_NAMES.
Proof. apply (bool_decide_eq_true_1 (NoDup EFFECT_FIELD_NAMES)). reflexivity. Qed.

Lemma effect_field_names r : (effect_fields r).*1 = EFFECT_FIELD_NAMES.
Proof. reflexivity. Qed.

Lemma effect_fields_clean r : effect_valid r -> Forall field_clean (effect_fields r).
Proof.
  intros Hv. pose proof (effect_fields_graphic r Hv) as Hg.
  assert (Forall (fun k => k <> "" /\ bytes_all is_graphic k = true /\ contains_char "=" k = false)
            (effect_fields r).*1) as Hk.
  { rewrite effect_field_names. repeat apply Forall_cons_2; [by split_and!..|constructor]. }
  apply Forall_fmap in Hk. eapply Forall_impl; [exact (proj2 (Forall_and _ _) (conj Hk Hg))|].
  cbn. intros f [(? & ? & ?) ?]. split_and!; [done..|by apply graphic_line_clean].
Qed.

Lemma parse_effect_lines_render fs :
  Forall field_clean fs -> NoDup fs.*1 -> Forall (fun k => is_one_of k EFFECT_FIELD_NAMES = true) fs.*1 ->
  parse_effect_lines ∅ (List.filter (fun line => negb (str_is_empty line)) (lines (render fs)))
  = Ok (fields_map ∅ fs).
Proof.
  intros Hfs Hd Hn. rewrite lines_render by done.
  assert (Hm : forall k, k ∈ fs.*1 -> (∅ : FieldMap) !! k = None) by (intros; apply lookup_empty).
  revert Hm. generalize (∅ : FieldMap) as m.
  induction Hfs as [|f fs Hf _ IH]; intros m Hm; [done|]. rewrite fmap_cons in Hd, Hm, Hn.
  apply NoDup_cons in Hd as [Hnot Hd]. apply Forall_cons in Hn as [Hn Hns].
  cbn [fmap list_fmap List.filter].
  rewrite str_is_empty_false by apply field_line_nonempty. cbn [negb parse_effect_lines].
  rewrite field_line_split by done. destruct f as [k v]. cbn [fst snd] in *. rewrite Hn.
  rewrite bool_decide_eq_false_2 by (rewrite Hm by left; by intros [? ?]).
  cbn [negb]. apply IH; [done|done|]. intros k' Hk'. rewrite lookup_insert_ne by (intros ->; done).
  apply Hm. by right.
Qed.

Lemma parse_effect_number max fields key n :
  fields !! key = Some (n_to_string n) -> (n <= max)%N -> parse_effect_field max fields key = Ok n.
Proof.
  intros Hf Hn. unfold parse_effect_field, required_effect_field. rewrite Hf. cbn.
  by rewrite parse_unsigned_to_string.
Qed.

Lemma parse_optional_effect_number max fields key o :
  fields !! key = Some (opt_number_text o) -> opt_le max o ->
  parse_optional_effect_field max fields key = Ok o.
Proof.
  intros Hf Ho. unfold parse_optional_effect_field, required_effect_field. rewrite Hf. cbn.
  destruct o as [n|]; [|done]. cbn in *. rewrite n_to_string_not_empty.
  by rewrite parse_unsigned_to_string.
Qed.

Lemma optional_digest_text r fields key :
  effect_valid r -> fields !! key = Some (default "" (er_result_digest r)) ->
  optional_text_field fields key = Ok (er_result_digest r).
Proof.
  intros [_ _ _ _ H] Hf. unfold optional_text_field, required_effect_field. rewrite Hf. cbn.
  unfold validate_effect_result in H. destruct (er_state r).
  - apply reject_Ok in H as [H _]. by destruct (er_result_digest r); [rewrite orb_true_r in H|].
  - destruct (er_committed_at_ms r); [|done]. apply reject_Ok in H as [_ H].
    destruct (er_result_digest r); [|done]. apply then_Ok in H as [[[] H] _].
    apply sha256_shape_graphic in H as [H _]. cbn. by rewrite str_is_empty_false.
Qed.

Lemma effect_read_back r :
  effect_valid r -> effect_in_range r ->
  effect_record_from_storage sha256 (effect_record_to_storage r) = Ok r.
Proof.
  intros Hv Hr. unfold effect_record_from_storage, effect_record_to_storage.
  rewrite parse_effect_lines_render; [|by apply effect_fields_clean|rewrite effect_field_names; apply effect_names_NoDup|].
  2:{ rewrite effect_field_names. repeat apply Forall_cons_2; [reflexivity..|constructor]. }
  destruct (fields_map_facts (effect_fields r)) as [-> Hm].
  { rewrite effect_field_names. apply effect_names_NoDup. }
  set (m := fields_map ∅ (effect_fields r)) in *. clearbody m.
  unfold RustStr.holds, effect_fields in Hm. rewrite !Forall_cons in Hm.
  destruct Hm as (F1 & F2 & F3 & F4 & F5 & F6 & F7 & F8 & F9 & F10 & F11 & F12 & F13 & F14 & F15 & F16 & _).
  cbn [fst snd] in *.
  rewrite (optional_digest_text r m "result_digest" Hv F15).
  rewrite (parse_optional_effect_number usize_max m "result_size_bytes" _ F16) by apply Hr.
  rewrite (parse_optional_effect_number u128_max m "committed_at_ms" _ F14) by apply Hr.
  rewrite (parse_effect_number u128_max m "prepared_at_ms" _ F13) by apply Hr.
  rewrite (parse_effect_number usize_max m "prepared_attempt" _ F11) by apply Hr.
  rewrite (parse_effect_number u64_max m "prepared_owner_generation" _ F10) by apply Hr.
  unfold required_effect_field. rewrite F1, F2, F3, F4, F5, F6, F7, F8, F9, F12. cbn [ok_or].
  rewrite String.eqb_refl. pose proof Hv as [Ho _ _ _ _]. rewrite Ho, String.eqb_refl.
  change (length (effect_fields r)) with 16. cbn [Nat.eqb EFFECT_RECORD_FIELD_COUNT negb].
  assert (effect_state_from_storage (effect_state_str (er_state r)) = Ok (er_state r)) as ->
    by (by destruct (er_state r)).
  apply effect_validate_iff in Hv. destruct r; cbn in *. by rewrite Hv.
Qed.

Lemma effect_text_utf8 r : effect_valid r -> utf8_valid (effect_record_to_storage r) = true.
Proof.
  intros Hv. apply render_utf8; [by apply effect_fields_clean|].
  eapply Forall_impl; [by apply effect_fields_graphic|]. cbn. intros f. apply graphic_utf8.
Qed.
End Records.

(** ** The directory always loads *)

Section Directory.
Variable sha256 : string -> string.
Hypothesis sha256_length : forall s, String.length (sha256 s) = 32.

Definition effect_key (r : EffectLedgerRecord) : string := eo_idempotency_key (er_operation r).

Definition effect_ok (r : EffectLedgerRecord) : Prop := effect_valid sha256 r /\ effect_in_range r.

(** The record of [key] on disk. *)
Definition on_ledger (dir : Dir) (key : string) (r : EffectLedgerRecord) : Prop :=
  dir !! effect_file sha256 key = Some (effect_record_to_storage r) /\ effect_ok r /\ effect_key r = key.

(** Every record file holds a record, under the name of its key. *)
Definition ledger_ok (dir : Dir) : Prop :=
  forall name data, dir !! name = Some data -> file_extension name = Some EFFECT_RECORD_EXTENSION ->
    exists r, effect_ok r /\ data = effect_record_to_storage r /\ name = effect_file sha256 (effect_key r).

Lemma effect_text_inj r r' :
  effect_ok r -> effect_ok r' -> effect_record_to_storage r = effect_record_to_storage r' -> r = r'.
Proof.
  intros [Hv Hr] [Hv' Hr'] E. pose proof (effect_read_back sha256 r Hv Hr) as H.
  rewrite E, (effect_read_back sha256 r' Hv' Hr') in H. congruence.
Qed.

Lemma on_ledger_unique dir key r r' : on_ledger dir key r -> on_ledger dir key r' -> r = r'.
Proof. intros (H & Hr & _) (H' & Hr' & _). rewrite H in H'. apply effect_text_inj; [done..|congruence]. Qed.

Lemma load_effect_record_ok root records r :
  effect_ok r -> records !! effect_key r = None ->
  load_effect_record sha256 root records (effect_file sha256 (effect_key r), effect_record_to_storage r)
  = Ok (<[effect_key r := r]> records).
Proof using sha256_length.
  intros [Hv Hr] Hn. unfold load_effect_record. cbn [fst snd].
  rewrite (effect_text_utf8 sha256) by done. rewrite effect_read_back by done. cbn [map_err negb].
  rewrite effect_file_stem by done. fold (effect_key r). rewrite String.eqb_refl, Hn.
  by rewrite bool_decide_eq_false_2 by (by intros [? ?]).
Qed.

(** The records of some entries, read on top of [records]. *)
Lemma load_effect_entries_ok root entries : forall records,
  NoDup entries.*1 ->
  (forall name data, (name, data) ∈ entries -> file_extension name = Some EFFECT_RECORD_EXTENSION ->
     exists r, effect_ok r /\ data = effect_record_to_storage r /\
       name = effect_file sha256 (effect_key r) /\ records !! effect_key r = None) ->
  exists records', load_effect_entries sha256 root records entries = Ok records' /\
    forall key r, records' !! key = Some r <->
      records !! key = Some r \/
      (effect_ok r /\ effect_key r = key /\ (effect_file sha256 key, effect_record_to_storage r) ∈ entries).
Proof using sha256_length.
  induction entries as [|[name data] entries IH]; intros records Hd He.
  { exists records. split; [done|]. intros key r. set_solver. }
  rewrite fmap_cons in Hd. apply NoDup_cons in Hd as [Hnew Hd]. cbn [fst] in Hnew.
  cbn [load_effect_entries fst].
  destruct (decide (file_extension name = Some EFFECT_RECORD_EXTENSION)) as [Hx|Hx].
  - rewrite bool_decide_eq_true_2 by done. cbn [negb].
    destruct (He name data) as (r0 & Hr0 & -> & -> & Hn0); [left|done|].
    rewrite load_effect_record_ok by done.
    destruct (IH (<[effect_key r0 := r0]> records)) as (records' & Hl & Hiff); [done| |].
    { intros name data Hin Hext. destruct (He name data) as (r & Hr & -> & -> & Hn); [by right|done|].
      exists r. split_and!; try done. rewrite lookup_insert_ne; [done|]. intros E. apply Hnew.
      rewrite E. apply (list_elem_of_fmap_2 fst _ _ Hin). }
    exists records'. split; [done|]. intros key r. rewrite Hiff. split.
    + intros [H|(Hok & Hk & Hin)]; [|right; split_and!; [done..|by right]].
      apply lookup_insert_Some in H as [[<- <-]|[Hne H]]; [|by left].
      right. split_and!; [done..|left].
    + intros [H|(Hok & Hk & Hin)].
      * left. rewrite lookup_insert_ne; [done|]. intros E. congruence.
      * apply elem_of_cons in Hin as [Hin|Hin]; [|right; by split_and!]. apply pair_equal_spec in Hin as [Hf Ht].
        apply effect_text_inj in Ht; [|done..]. subst r key. left. apply lookup_insert_eq.
  - rewrite bool_decide_eq_false_2 by done. cbn [negb].
    destruct (IH records) as (records' & Hl & Hiff); [done|intros; apply He; [by right|done]|].
    exists records'. split; [done|]. intros key r. rewrite Hiff. split.
    + intros [?|(? & ? & ?)]; [by left|right; split_and!; [done..|by right]].
    + intros [?|(? & ? & Hin)]; [by left|]. right. split_and!; try done.
      apply elem_of_cons in Hin as [Hin|Hin]; [|done]. apply pair_equal_spec in Hin as [Hf _]. exfalso. apply Hx.
      rewrite <- Hf. by apply effect_file_extension.
Qed.

Lemma load_effect_records_ok root dir :
  ledger_ok dir ->
  exists records, load_effect_records sha256 root dir = Ok records /\
    forall key r, records !! key = Some r <-> on_ledger dir key r.
Proof using sha256_length.
  intros Hd. destruct (load_effect_entries_ok root (map_to_list dir) ∅) as (records & Hl & Hiff).
  - apply NoDup_fst_map_to_list.
  - intros name data Hin%elem_of_map_to_list Hext. destruct (Hd name data Hin Hext) as (r & ? & ? & ?).
    exists r. by split_and!.
  - exists records. split; [done|]. intros key r. rewrite Hiff, lookup_empty, elem_of_map_to_list.
    unfold on_ledger. naive_solver.
Qed.
End Directory.

(** ** Transactions *)

(** What a transaction may ask, with everything it depends on: the handle,
    the files of the writer and of the tasks, the clock, the locks and the
    outcome of the write. *)
Inductive EffectCall :=
| CallPrepare (l : FileSystemEffectLedger) (files : Files) (task_store : FileSystemTaskStateStore)
    (intent : EffectLedgerIntent) (lock : Res unit) (now : Res N) (o : WriteOutcome)
| CallCommit (l : FileSystemEffectLedger) (files : Files) (intent : EffectLedgerIntent)
    (result_digest : string) (result_size_bytes committed_at_ms : N) (lock : Res unit)
    (o : WriteOutcome).

Inductive EffectAnswer :=
| AnswerPrepare (r : Res EffectPrepareOutcome)
| AnswerCommit (r : Res EffectLedgerRecord).

Definition call_intent (c : EffectCall) : EffectLedgerIntent :=
  match c with CallPrepare _ _ _ i _ _ _ | CallCommit _ _ i _ _ _ _ _ => i end.

(** Integers of their types. *)
Definition call_in_range (c : EffectCall) : Prop :=
  (ei_owner_generation (call_intent c) <= u64_max)%N /\ (ei_attempt (call_intent c) <= usize_max)%N /\
  match c with
  | CallPrepare _ _ _ _ _ now _ => forall t, now = Ok t -> (t <= u128_max)%N
  | CallCommit _ _ _ _ size at_ms _ _ => (size <= usize_max)%N /\ (at_ms <= u128_max)%N
  end.

Section Calls.
Variable sha256 : string -> string.

Definition effect_call (dir : Dir) (c : EffectCall) : EffectAnswer * Dir :=
  match c with
  | CallPrepare l files store intent lock now o =>
      let '(r, _, dir) := prepare_for_claim sha256 l files dir store intent lock now o in
      (AnswerPrepare r, dir)
  | CallCommit l files intent digest size at_ms lock o =>
      let '(r, _, dir) := effect_commit sha256 l files dir intent digest size at_ms lock o in
      (AnswerCommit r, dir)
  end.

Fixpoint run_calls (dir : Dir) (cs : list EffectCall) : list EffectAnswer * Dir :=
  match cs with
  | [] => ([], dir)
  | c :: cs =>
      let '(a, dir) := effect_call dir c in
      let '(answers, dir) := run_calls dir cs in (a :: answers, dir)
  end.

Definition creates (key : string) (a : EffectAnswer) : bool :=
  match a with
  | AnswerPrepare (Ok (OutcomeCreated r)) => String.eqb (effect_key r) key
  | _ => false
  end.
Definition creations (key : string) (answers : list EffectAnswer) : nat :=
  length (List.filter (creates key) answers).

Hypothesis sha256_length : forall s, String.length (sha256 s) = 32.
(** The idempotency keys in use, which SHA-256 keeps apart. *)
Variable in_use : string -> Prop.
Hypothesis sha256_collision_free : forall a b,
  in_use a -> in_use b -> key_hash sha256 a = key_hash sha256 b -> a = b.

Record ledger_wf (dir : Dir) : Prop := {
  lw_ok : ledger_ok sha256 dir;
  lw_used : forall key r, on_ledger sha256 dir key r -> in_use key
}.

(** The record of the same preparation. *)
Definition same_preparation (r r' : EffectLedgerRecord) : Prop :=
  er_operation r' = er_operation r /\ er_prepared_task_id r' = er_prepared_task_id r /\
  er_prepared_owner_generation r' = er_prepared_owner_generation r /\
  er_prepared_attempt r' = er_prepared_attempt r /\
  er_prepared_fence_digest r' = er_prepared_fence_digest r /\
  er_prepared_at_ms r' = er_prepared_at_ms r.

(** What a transaction may do to the directory. *)
Inductive ledger_change (dir dir' : Dir) : Prop :=
| change_none : dir' = dir -> ledger_change dir dir'
| change_added r : effect_ok sha256 r -> in_use (effect_key r) -> er_state r = EffectPrepared ->
    dir !! effect_file sha256 (effect_key r) = None ->
    dir' = <[effect_file sha256 (effect_key r) := effect_record_to_storage r]> dir ->
    ledger_change dir dir'
| change_committed r r' : on_ledger sha256 dir (effect_key r) r -> er_state r = EffectPrepared ->
    effect_ok sha256 r' -> er_state r' = EffectCommitted -> same_preparation r r' ->
    dir' = <[effect_file sha256 (effect_key r) := effect_record_to_storage r']> dir ->
    ledger_change dir dir'.

(** What its answer tells. *)
Definition answer_true (dir dir' : Dir) (a : EffectAnswer) : Prop :=
  match a with
  | AnswerPrepare (Ok (OutcomeCreated r)) =>
      dir !! effect_file sha256 (effect_key r) = None /\ on_ledger sha256 dir' (effect_key r) r
  | AnswerPrepare (Ok o) => on_ledger sha256 dir' (effect_key (outcome_record o)) (outcome_record o)
  | AnswerCommit (Ok r) => on_ledger sha256 dir' (effect_key r) r /\ er_state r = EffectCommitted
  | _ => True
  end.

Lemma ledger_file_used dir key data :
  ledger_wf dir -> in_use key -> dir !! effect_file sha256 key = Some data ->
  exists r, on_ledger sha256 dir key r.
Proof using sha256_length sha256_collision_free.
  intros [Hok Hu] Hk Hd. destruct (Hok _ _ Hd) as (r & Hr & -> & Hf); [by apply effect_file_extension|].
  assert (on_ledger sha256 dir (effect_key r) r) as Hon by (split_and!; [by rewrite <- Hf|done..]).
  apply effect_file_inj in Hf. apply sha256_collision_free in Hf as ->; [by exists r|done|].
  by eapply Hu.
Qed.

Lemma on_ledger_insert dir key r : effect_ok sha256 r -> effect_key r = key ->
  on_ledger sha256 (<[effect_file sha256 key := effect_record_to_storage r]> dir) key r.
Proof. intros ? ?. split; [apply lookup_insert_eq|done]. Qed.

Lemma persist_effect_cases root dir r o res dir' :
  persist_effect_record sha256 root dir r o = (res, dir') ->
  (dir' = dir /\ exists e, res = Err e) \/
  (dir' = <[effect_file sha256 (effect_key r) := effect_record_to_storage r]> dir).
Proof.
  unfold persist_effect_record, atomic_write. destruct o; intros [= <- <-]; [by right| |by right].
  left. split; [done|]. by eexists.
Qed.

(** The records a transaction loaded. *)
Definition loaded (dir : Dir) (records : EffectRecords) : Prop :=
  forall key r, records !! key = Some r <-> on_ledger sha256 dir key r.

Lemma prepare_record_step root records dir o intent res records' dir' :
  ledger_wf dir -> loaded dir records -> in_use (eo_idempotency_key (ei_operation intent)) ->
  effect_in_range (effect_prepared intent) ->
  prepare_effect_record sha256 root records dir o intent = (res, records', dir') ->
  ledger_change dir dir' /\ answer_true dir dir' (AnswerPrepare res).
Proof using sha256_length sha256_collision_free.
  intros Hwf Hl Hu Hrange. unfold prepare_effect_record.
  destruct (records !! _) as [r|] eqn:Er.
  - intros [= <- <- <-]. split; [by apply change_none|]. apply Hl in Er.
    unfold ensure_operation_matches. case_bool_decide; [|done]. cbn.
    assert (effect_key r = eo_idempotency_key (ei_operation intent)) as Ek by (apply Er).
    destruct (er_state r); cbn [answer_true outcome_record]; by rewrite Ek.
  - destruct (effect_validate sha256 (effect_prepared intent)) as [[]|] eqn:Ev.
    2:{ intros [= <- <- <-]. split; [by apply change_none|done]. }
    apply effect_validate_iff in Ev.
    assert (effect_ok sha256 (effect_prepared intent)) as Hok by done.
    assert (dir !! effect_file sha256 (effect_key (effect_prepared intent)) = None) as Hnone.
    { destruct (dir !! _) as [data|] eqn:E; [|done].
      destruct (ledger_file_used dir _ data Hwf Hu E) as [r Hr]. apply Hl in Hr. unfold effect_key in Hr.
      cbn in Hr. congruence. }
    destruct (persist_effect_record sha256 root dir (effect_prepared intent) o) as [res0 dir0] eqn:Ep.
    assert (ledger_change dir dir0) as Hch.
    { destruct (persist_effect_cases _ _ _ _ _ _ Ep) as [[-> _]|E]; [by apply change_none|].
      by apply (change_added dir dir0 (effect_prepared intent)). }
    destruct res0 as [[]|e]; intros [= <- <- <-]; (split; [done|]); cbn [answer_true]; [|done].
    destruct (persist_effect_cases _ _ _ _ _ _ Ep) as [[_ [e ?]]| ->]; [done|].
    split; [done|]. by apply on_ledger_insert.
Qed.

Lemma commit_record_step root records dir o intent d z at_ms res records' dir' :
  ledger_wf dir -> loaded dir records -> (z <= usize_max)%N -> (at_ms <= u128_max)%N ->
  commit_effect_record sha256 root records dir o intent d z at_ms = (res, records', dir') ->
  ledger_change dir dir' /\ answer_true dir dir' (AnswerCommit res).
Proof using sha256_length.
  intros Hwf Hl Hz Hat. unfold commit_effect_record. cbv zeta.
  assert (forall e : EvaError, ledger_change dir dir /\ answer_true dir dir (AnswerCommit (Err e))) as Hsame.
  { intros e. split; [by apply change_none|done]. }
  destruct (records !! _) as [r|] eqn:Er; [|intros [= <- <- <-]; apply Hsame].
  apply Hl in Er. pose proof Er as (_ & [Hrv Hrr] & Ek).
  unfold ensure_operation_matches. case_bool_decide; [|intros [= <- <- <-]; apply Hsame].
  case_match; [intros [= <- <- <-]; apply Hsame|]. case_bool_decide as Hst.
  { destruct (_ && _); intros [= <- <- <-]; [|apply Hsame].
    split; [by apply change_none|]. cbn [answer_true]. by rewrite Ek. }
  set (c := r <| er_state := EffectCommitted |> <| er_committed_at_ms := Some at_ms |>
              <| er_result_digest := Some d |> <| er_result_size_bytes := Some z |>).
  destruct (effect_validate sha256 c) as [[]|] eqn:Ev; [|intros [= <- <- <-]; apply Hsame].
  apply effect_validate_iff in Ev.
  assert (effect_ok sha256 c) as Hok by (split; [exact Ev|destruct Hrr as [R1 R2 R3 _ _]; constructor;
    [exact R1|exact R2|exact R3|exact Hat|exact Hz]]).
  assert (er_state r = EffectPrepared) as Hpr by (by destruct (er_state r)).
  assert (effect_key c = effect_key r) as Eck by done.
  destruct (persist_effect_record sha256 root dir c o) as [res0 dir0] eqn:Ep.
  assert (ledger_change dir dir0) as Hch.
  { destruct (persist_effect_cases _ _ _ _ _ _ Ep) as [[-> _]|E]; [by apply change_none|].
    rewrite Eck in E. apply (change_committed dir dir0 r c); try done. by rewrite Ek. }
  destruct res0 as [[]|e]; intros [= <- <- <-]; (split; [exact Hch|]); cbn [answer_true]; [|exact I].
  destruct (persist_effect_cases _ _ _ _ _ _ Ep) as [[_ [e He]]| ->]; [discriminate He|].
  split; [|reflexivity]. apply on_ledger_insert; [exact Hok|reflexivity].
Qed.

Lemma effect_call_step dir c a dir' :
  ledger_wf dir -> call_in_range c -> in_use (eo_idempotency_key (ei_operation (call_intent c))) ->
  effect_call dir c = (a, dir') -> ledger_change dir dir' /\ answer_true dir dir' a.
Proof using sha256_length sha256_collision_free.
  intros Hwf (Hg & Hn & Hr) Hu.
  assert (forall a', match a' with AnswerPrepare (Err _) | AnswerCommit (Err _) => True | _ => False end ->
            ledger_change dir dir /\ answer_true dir dir a') as Hsame.
  { intros a' Ha. split; [by apply change_none|]. by destruct a' as [[|]|[|]]. }
  destruct c as [l files store intent lock now o|l files intent d z at_ms lock o]; cbn [effect_call call_intent] in *.
  - unfold prepare_for_claim, with_claim_transaction.
    destruct (el_writer l) as [w|]; [|intros [= <- <-]; by apply Hsame].
    destruct (_ || _); [intros [= <- <-]; by apply Hsame|].
    destruct (load_effect_records_ok sha256 sha256_length (el_root l) dir (lw_ok _ Hwf)) as (records & Hload & Hl).
    destruct lock as [u|]; [|intros [= <- <-]; by apply Hsame].
    destruct (verify_current w files); [|intros [= <- <-]; by apply Hsame].
    destruct now as [now|]; [|intros [= <- <-]; by apply Hsame].
    destruct (verify_effect_task_claim _ _ _ _ _ _); [|intros [= <- <-]; by apply Hsame].
    rewrite Hload. unfold end_transaction.
    destruct (prepare_effect_record _ _ _ _ _ _) as [[res records'] dir0] eqn:Ep.
    apply prepare_record_step in Ep; [|done..|].
    2:{ constructor; [exact Hg|exact Hn|by apply Hr|exact I|exact I]. }
    destruct res; by intros [= <- <-].
  - destruct Hr as [Hz Hat]. unfold effect_commit, with_write_transaction.
    destruct (validate_sha256_digest _ _); [|intros [= <- <-]; by apply Hsame].
    destruct (negb _); [intros [= <- <-]; by apply Hsame|].
    destruct (el_writer l) as [w|]; [|intros [= <- <-]; by apply Hsame].
    destruct (load_effect_records_ok sha256 sha256_length (el_root l) dir (lw_ok _ Hwf)) as (records & Hload & Hl).
    destruct lock as [u|]; [|intros [= <- <-]; by apply Hsame].
    destruct (verify_current w files); [|intros [= <- <-]; by apply Hsame].
    rewrite Hload. unfold end_transaction.
    destruct (commit_effect_record _ _ _ _ _ _ _ _ _) as [[res records'] dir0] eqn:Ep.
    apply commit_record_step in Ep; [|done..]. destruct res; by intros [= <- <-].
Qed.

(** ** Along a sequence of transactions *)

(** What becomes of a record. *)
Definition effect_kept (dir' : Dir) (r : EffectLedgerRecord) : Prop :=
  exists r', on_ledger sha256 dir' (effect_key r) r' /\ same_preparation r r' /\
    (er_state r = EffectCommitted -> r' = r).

Lemma same_preparation_refl r : same_preparation r r.
Proof. by split_and!. Qed.

Lemma effect_file_ne a b : in_use a -> in_use b -> a <> b -> effect_file sha256 a <> effect_file sha256 b.
Proof using sha256_collision_free. intros Ha Hb Hne H%effect_file_inj. by apply Hne, sha256_collision_free. Qed.

(** Writing a good record over nothing, or over the record of its key. *)
Lemma ledger_wf_insert dir r :
  ledger_wf dir -> effect_ok sha256 r -> in_use (effect_key r) ->
  ledger_wf (<[effect_file sha256 (effect_key r) := effect_record_to_storage r]> dir).
Proof using sha256_collision_free.
  intros [Hok Hu] Hr Hk. split.
  - intros name data H Hext. apply lookup_insert_Some in H as [[<- <-]|[_ H]]; [by exists r|].
    by apply Hok.
  - intros key r' (Hf & Hr' & Ek). apply lookup_insert_Some in Hf as [[_ Ht]|[Hne Hf]].
    + apply (effect_text_inj sha256) in Ht; [|done..]. by subst.
    + apply (Hu key r'). by split_and!.
Qed.

Lemma ledger_change_wf dir dir' : ledger_wf dir -> ledger_change dir dir' -> ledger_wf dir'.
Proof using sha256_collision_free.
  intros Hwf [->|r Hr Hu _ _ ->|r r' Hon _ Hr' _ (Ho & _) ->]; [done|by apply ledger_wf_insert|].
  assert (effect_key r' = effect_key r) as Ek by (unfold effect_key; by rewrite Ho).
  rewrite <- Ek. apply ledger_wf_insert; [done..|]. rewrite Ek. by eapply lw_used.
Qed.

Lemma on_ledger_other dir key key' r text :
  in_use key -> in_use key' -> key <> key' -> on_ledger sha256 dir key r ->
  on_ledger sha256 (<[effect_file sha256 key' := text]> dir) key r.
Proof using sha256_collision_free.
  intros Hu Hu' Hne (Hf & ? & ?). split_and!; [|done..].
  rewrite lookup_insert_ne; [done|]. by apply effect_file_ne.
Qed.

Lemma ledger_change_keeps dir dir' key r :
  ledger_wf dir -> ledger_change dir dir' -> on_ledger sha256 dir key r -> effect_kept dir' r.
Proof using sha256_collision_free.
  intros Hwf Hch Hon. pose proof Hon as (Hf & _ & <-). pose proof (lw_used _ Hwf _ _ Hon) as Hu.
  destruct Hch as [->|r1 Hr1 Hu1 _ Hnone ->|r1 r2 Hon1 Hs1 Hr2 Hs2 Hsp ->].
  - exists r. split_and!; [done|apply same_preparation_refl|done].
  - exists r. split_and!; [|apply same_preparation_refl|done]. apply on_ledger_other; [done..| |done].
    intros E. rewrite E in Hf. congruence.
  - destruct (decide (effect_key r1 = effect_key r)) as [E|Hne].
    + rewrite E in Hon1. pose proof (on_ledger_unique sha256 _ _ _ _ Hon Hon1) as ->.
      exists r2. split_and!; [|done|congruence]. apply on_ledger_insert; [done|].
      destruct Hsp as (Ho & _). unfold effect_key. by rewrite Ho.
    + exists r. split_and!; [|apply same_preparation_refl|done].
      apply on_ledger_other; try done. by eapply lw_used.
Qed.

Lemma same_preparation_trans a b c : same_preparation a b -> same_preparation b c -> same_preparation a c.
Proof. unfold same_preparation. intuition congruence. Qed.

Lemma same_preparation_key a b : same_preparation a b -> effect_key b = effect_key a.
Proof. intros (E & _). unfold effect_key. by rewrite E. Qed.

Definition call_ok (c : EffectCall) : Prop :=
  call_in_range c /\ in_use (eo_idempotency_key (ei_operation (call_intent c))).

Lemma run_calls_keep cs : forall dir answers dir',
  ledger_wf dir -> Forall call_ok cs -> run_calls dir cs = (answers, dir') ->
  ledger_wf dir' /\ (forall key r, on_ledger sha256 dir key r -> effect_kept dir' r) /\
  (forall key r, on_ledger sha256 dir key r -> creations key answers = 0) /\
  (forall key, creations key answers <= 1) /\
  (forall r, AnswerCommit (Ok r) ∈ answers -> on_ledger sha256 dir' (effect_key r) r /\ er_state r = EffectCommitted).
Proof using sha256_length sha256_collision_free.
  induction cs as [|c cs IH]; intros dir answers dir' Hwf Hcs; cbn [run_calls].
  { intros [= <- <-]. split_and!; [done| |done|by unfold creations; cbn; lia|set_solver].
    intros key r Hon. exists r. pose proof Hon as (_ & _ & ->).
    split_and!; [done|apply same_preparation_refl|done]. }
  apply Forall_cons in Hcs as [[Hr Hu] Hcs].
  destruct (effect_call dir c) as [a dir1] eqn:Ec. destruct (run_calls dir1 cs) as [answers1 dir2] eqn:Er.
  intros [= <- <-]. destruct (effect_call_step dir c a dir1 Hwf Hr Hu Ec) as [Hch Ha].
  pose proof (ledger_change_wf _ _ Hwf Hch) as Hwf1.
  destruct (IH dir1 answers1 dir2 Hwf1 Hcs Er) as (Hwf2 & Hk & Hz & H1 & Hcom).
  assert (forall key, creates key a = true -> creations key answers1 = 0 /\
            forall r, ~ on_ledger sha256 dir key r) as Hcreate.
  { intros key Hc. destruct a as [[[r| |]|]|]; try discriminate Hc. cbn in Hc, Ha.
    apply String.eqb_eq in Hc as <-. destruct Ha as [Hnone Hon]. split; [by eapply Hz|].
    intros r' (Hf & _). congruence. }
  split_and!; [done|..].
  - intros key r Hon. destruct (ledger_change_keeps _ _ _ _ Hwf Hch Hon) as (r1 & Hon1 & Hs1 & Hf1).
    destruct (Hk _ _ Hon1) as (r2 & Hon2 & Hs2 & Hf2). exists r2.
    rewrite (same_preparation_key _ _ Hs1) in Hon2.
    split_and!; [done|by eapply same_preparation_trans|]. intros Hst. rewrite (Hf1 Hst) in *. by apply Hf2.
  - intros key r Hon. unfold creations. cbn [List.filter]. destruct (creates key a) eqn:E.
    { destruct (Hcreate key E) as [_ Hno]. by apply Hno in Hon. }
    destruct (ledger_change_keeps _ _ _ _ Hwf Hch Hon) as (r1 & Hon1 & _).
    pose proof Hon as (_ & _ & Ek). rewrite Ek in Hon1. by eapply Hz.
  - intros key. unfold creations. cbn [List.filter]. destruct (creates key a) eqn:E; [|apply H1].
    destruct (Hcreate key E) as [H0 _]. cbn [length]. unfold creations in H0. lia.
  - intros r [E|Hin]%elem_of_cons; [|by apply Hcom]. subst a. cbn [answer_true] in Ha. destruct Ha as [Hon Hst].
    destruct (Hk _ _ Hon) as (r' & Hon' & _ & Hfix). rewrite (Hfix Hst) in Hon'. done.
Qed.
End Calls.

(** C8: an effect is prepared once.  Over any sequence of prepare and
    commit transactions, by any handles and writers, with any failures of
    locks, clocks and writes, a ledger directory stays loadable; for every
    idempotency key at most one prepare ever answers [Created], and none when
    the key was already recorded; a recorded operation keeps its identity and
    the fence of the attempt that prepared it; a committed record never
    changes, and a commit that succeeded is on disk at the end. *)
Theorem effect_created_once (sha256 : string -> string) (in_use : string -> Prop)
    (sha256_length : forall s, String.length (sha256 s) = 32)
    (sha256_collision_free : forall a b, in_use a -> in_use b ->
       key_hash sha256 a = key_hash sha256 b -> a = b)
    dir cs answers dir' root :
  ledger_wf sha256 in_use dir -> Forall (call_ok in_use) cs ->
  run_calls sha256 dir cs = (answers, dir') ->
  is_ok (load_effect_records sha256 root dir') = true /\
  (forall key, creations key answers <= 1) /\
  (forall key r, on_ledger sha256 dir key r ->
     creations key answers = 0 /\
     exists r', on_ledger sha256 dir' key r' /\ same_preparation r r' /\
       (er_state r = EffectCommitted -> r' = r)) /\
  (forall r, AnswerCommit (Ok r) ∈ answers ->
     on_ledger sha256 dir' (effect_key r) r /\ er_state r = EffectCommitted).
Proof.
  intros Hwf Hcs Hrun.
  destruct (run_calls_keep sha256 sha256_length in_use sha256_collision_free cs dir answers dir' Hwf Hcs Hrun)
    as (Hwf' & Hk & Hz & H1 & Hcom).
  split_and!; [|done| |done].
  - destruct (load_effect_records_ok sha256 sha256_length root dir' (lw_ok _ _ _ Hwf')) as (records & -> & _).
    done.
  - intros key r Hon. split; [by eapply Hz|]. pose proof Hon as (_ & _ & <-). by apply (Hk _ _ Hon).
Qed.

(** C27: an effect is prepared only for the live claim.  When
    [prepare_for_claim] answers, the ledger's writer is the current one and
    shares its project and its generation with the task store, and the task
    on disk at that moment is running, neither asked to cancel nor cancelled,
    and within its deadline; its envelope has the idempotency key, the kind,
    the agent and the input digest of the operation; and it carries the
    generation, the attempt and the fence of the intent. *)
Theorem effect_prepare_needs_live_claim sha256 l files dir store intent lock now o outcome l' dir' :
  prepare_for_claim sha256 l files dir store intent lock now o = (Ok outcome, l', dir') ->
  exists writer t e owner token at_ms,
    el_writer l = Some writer /\ verify_current writer files = Ok tt /\
    tss_project_root store = wg_root writer /\
    (wg_generation <$> tss_writer store) = Some (wg_generation writer) /\
    ei_owner_generation intent = wg_generation writer /\ now = Ok at_ms /\
    store_read store files (Some (ei_task_id intent)) = Ok t /\
    ts_status t = "running" /\ ts_cancel_requested t = false /\ ts_cancel_accepted t = false /\
    deadline_expired t at_ms = false /\
    ts_envelope t = Some e /\ env_idempotency_key e = eo_idempotency_key (ei_operation intent) /\
    env_kind e = eo_task_kind (ei_operation intent) /\
    env_agent_id e = eo_agent_id (ei_operation intent) /\
    input_digest (env_input e) = eo_input_digest (ei_operation intent) /\
    ts_execution_owner t = Some owner /\ ts_cancel_token t = Some token /\
    ts_owner_generation t = ei_owner_generation intent /\ ts_attempts t = ei_attempt intent /\
    ei_fence_digest intent = fence_digest sha256 (ts_task_id t) (ts_owner_generation t) owner
                               (ts_attempts t) token.
Proof.
  unfold prepare_for_claim, with_claim_transaction. intros H.
  destruct (el_writer l) as [w|]; [|done]. destruct (_ || _) eqn:Ew; [done|].
  destruct lock as [u|]; [|done]. destruct (verify_current w files) as [[]|] eqn:Ev; [|done].
  destruct now as [at_ms|]; [|done].
  destruct (verify_effect_task_claim _ _ _ _ _ _) as [[]|] eqn:Ec; [|done]. clear H.
  unfold verify_effect_task_claim in Ec. cbv zeta in Ec. apply reject_Ok in Ec as [Hg Ec].
  destruct (store_read _ _ _) as [t|] eqn:Er; [|done]. apply reject_Ok in Ec as [Hs Ec].
  apply reject_Ok in Ec as [Hd Ec]. destruct (ts_envelope t) as [e|] eqn:Ee; [|done].
  apply reject_Ok in Ec as [He Ec]. destruct (ts_execution_owner t) as [owner|] eqn:Eo; [|done].
  destruct (ts_cancel_token t) as [token|] eqn:Et; [|done]. apply reject_Ok in Ec as [Hf _].
  reflect_bools. exists w, t, e, owner, token, at_ms. by split_and!.
Qed.

(** What [canonical_digest] hashes determines the domain and the
    fields: two inputs of the hash are equal only when the domains and the
    field lists are, whatever bytes the fields hold.  So equal fence digests
    of equal hashes name the same task, generation, owner, attempt and
    token. *)
Theorem digest_input_injective d d' fs fs' :
  Forall (fun f => str_len f <= u64_max)%N (d :: fs) ->
  Forall (fun f => str_len f <= u64_max)%N (d' :: fs') ->
  digest_input d fs = digest_input d' fs' -> d = d' /\ fs = fs'.
Proof.
  intros [Hd Hf]%Forall_cons [Hd' Hf']%Forall_cons H. rewrite !digest_input_spec in H.
  apply length_prefixed_inj in H as [-> H]; [|done..]. split; [done|]. by apply prefixed_list_inj.
Qed.

Lemma digest_input_injective_witness :
  digest_input "d" ["a"; "bc"] <> digest_input "d" ["ab"; "c"].
Proof.
  intros H. destruct (digest_input_injective "d" "d" ["a"; "bc"] ["ab"; "c"]) as [_ E];
    [repeat apply Forall_cons_2; try apply N.leb_le; try reflexivity; apply Forall_nil_2..|exact H|discriminate E].
Defined.

(** ** A concrete ledger *)

(** The bytes of the digest the program itself computes. *)
Definition sha256_bytes (s : string) : string :=
  default "" (strip_prefix "sha256:" (sha256_digest s) ≫= hex_decode_pairs).

Lemma hex_decode_lower n s :
  String.length s = 2 * n -> bytes_all is_lower_hex s = true ->
  exists b, hex_decode_pairs s = Some b /\ String.length b = n.
Proof.
  revert s. induction n as [|n IH]; intros s Hl Hs; [by destruct s; [exists ""|]|].
  destruct s as [|c [|d s]]; [done|cbn in Hl; lia|]. cbn in Hl, Hs.
  apply andb_true_iff in Hs as [Hc [Hd Hs]%andb_true_iff].
  destruct (IH s) as (b & Hb & Hlb); [lia|done|].
  assert (forall x, is_lower_hex x = true -> is_some (hex_value x) = true) as Hv.
  { apply (ascii_impl is_lower_hex (fun x => is_some (hex_value x))). vm_compute. reflexivity. }
  apply Hv in Hc. apply Hv in Hd. cbn [hex_decode_pairs].
  destruct (hex_value c); [|done]. destruct (hex_value d); [|done]. cbn. rewrite Hb. cbn.
  eexists. split; [done|]. cbn. by rewrite Hlb.
Qed.

Lemma sha256_bytes_length s : String.length (sha256_bytes s) = 32.
Proof.
  unfold sha256_bytes. destruct (sha256_digest_shape s) as (hex & -> & Hl & Hh).
  rewrite strip_prefix_append. cbn.
  destruct (hex_decode_lower 32 hex) as (b & -> & Hb); done.
Qed.

Definition effect_layout : DurableBackendLayout := layout_from_manifest "r" "events" "state" "tasks".
Definition effect_acquired : Res DurableWriterGuard * Files :=
  writer_acquire effect_layout ∅ (Ok tt) 7 1 0 WriteOk WriteOk.
Definition effect_writer : DurableWriterGuard :=
  match effect_acquired.1 with
  | Ok g => g
  | Err _ => MkWriterGuard "" "" "" "" "" 0 0 end.
Definition effect_store : FileSystemTaskStateStore :=
  MkTaskStore "r" (layout_task_dir effect_layout) true (Some effect_writer).
Definition effect_task : TaskStateSnapshot :=
  running_sample <| ts_record_version := 2%N |> <| ts_owner_generation := 1%N |>.
Definition effect_files : Files :=
  <[record_path (layout_task_dir effect_layout) "task-1" := to_storage effect_task]> effect_acquired.2.
Definition effect_ledger : FileSystemEffectLedger :=
  MkEffectLedger (path_join (layout_state_dir effect_layout) EFFECT_LEDGER_DIR) ∅ (Some effect_writer).
Definition effect_operation : EffectOperationIdentity :=
  match operation_new sha256_bytes "request-1" "agent.run" "basic-agent" "mail" (sha256_digest "hello") with
  | Ok op => op
  | Err _ => MkEffectOperation "" "" "" "" "" ""
  end.
Definition sample_intent : EffectLedgerIntent :=
  match intent_new sha256_bytes effect_operation "task-1" 1 "worker-1" 1 "token-1" 0 with
  | Ok i => i
  | Err _ => MkEffectIntent effect_operation "" 0 0 "" 0
  end.

(** Prepared, prepared again, committed. *)
Definition effect_calls : list EffectCall :=
  [ CallPrepare effect_ledger effect_files effect_store sample_intent (Ok tt) (Ok 20%N) WriteOk;
    CallPrepare effect_ledger effect_files effect_store sample_intent (Ok tt) (Ok 30%N) WriteOk;
    CallCommit effect_ledger effect_files sample_intent (sha256_digest "sent") 4 40 (Ok tt) WriteOk ].

Definition answer_kind (a : EffectAnswer) : string :=
  match a with
  | AnswerPrepare (Ok (OutcomeCreated _)) => "created"
  | AnswerPrepare (Ok (OutcomePrepared _)) => "prepared"
  | AnswerPrepare (Ok (OutcomeCommitted _)) => "done"
  | AnswerPrepare (Err e) | AnswerCommit (Err e) => err_message e
  | AnswerCommit (Ok _) => "committed"
  end.

Example effect_calls_answers :
  answer_kind <$> (run_calls sha256_bytes ∅ effect_calls).1 = ["created"; "prepared"; "committed"].
Proof. vm_compute. reflexivity. Qed.

Definition effect_keys : list string := ["request-1"; "request-2"].

Lemma effect_keys_apart a b :
  a ∈ effect_keys -> b ∈ effect_keys -> key_hash sha256_bytes a = key_hash sha256_bytes b -> a = b.
Proof.
  intros Ha Hb H. unfold effect_keys in *. elem_cases Ha; elem_cases Hb; subst; try reflexivity; exfalso;
    apply (f_equal (String.eqb (key_hash sha256_bytes "request-1"))) in H; vm_compute in H; discriminate H.
Qed.

Lemma effect_calls_ok : Forall (call_ok (fun k => k ∈ effect_keys)) effect_calls.
Proof.
  assert (eo_idempotency_key (ei_operation sample_intent) = "request-1") as Ek by (vm_compute; reflexivity).
  assert (ei_owner_generation sample_intent = 1%N) as Eg by (vm_compute; reflexivity).
  assert (ei_attempt sample_intent = 1%N) as Ea by (vm_compute; reflexivity).
  unfold effect_calls. repeat apply Forall_cons_2; [| | |apply Forall_nil_2].
  all: split; [|cbn [call_intent]; rewrite Ek; apply elem_of_cons; by left].
  all: split; [cbn [call_intent]; rewrite Eg; apply N.leb_le; reflexivity|].
  all: split; [cbn [call_intent]; rewrite Ea; apply N.leb_le; reflexivity|].
  - intros t [= <-]. apply N.leb_le. reflexivity.
  - intros t [= <-]. apply N.leb_le. reflexivity.
  - split; apply N.leb_le; reflexivity.
Qed.

Lemma empty_ledger_wf : ledger_wf sha256_bytes (fun k => k ∈ effect_keys) ∅.
Proof.
  split.
  - intros name data H. by rewrite lookup_empty in H.
  - intros key r (H & _). by rewrite lookup_empty in H.
Qed.

Lemma effect_created_once_witness :
  exists answers dir', run_calls sha256_bytes ∅ effect_calls = (answers, dir') /\
    is_ok (load_effect_records sha256_bytes "ledger" dir') = true /\ creations "request-1" answers = 1 /\
    forall r, AnswerCommit (Ok r) ∈ answers -> on_ledger sha256_bytes dir' (effect_key r) r.
Proof.
  destruct (run_calls sha256_bytes ∅ effect_calls) as [answers dir'] eqn:E.
  destruct (effect_created_once sha256_bytes (fun k => k ∈ effect_keys) sha256_bytes_length effect_keys_apart
              ∅ effect_calls answers dir' "ledger" empty_ledger_wf effect_calls_ok E) as (Hl & _ & _ & Hc).
  exists answers, dir'. split; [reflexivity|]. split; [exact Hl|]. split.
  - apply (f_equal (fun r => creations "request-1" r.1)) in E. cbn [fst] in E. rewrite <- E.
    vm_compute. reflexivity.
  - intros r Hr. exact (proj1 (Hc r Hr)).
Defined.

Lemma effect_prepare_needs_live_claim_witness :
  exists outcome l' dir', prepare_for_claim sha256_bytes effect_ledger effect_files ∅ effect_store
      sample_intent (Ok tt) (Ok 20%N) WriteOk = (Ok outcome, l', dir') /\
    exists t, store_read effect_store effect_files (Some "task-1") = Ok t /\ ts_status t = "running".
Proof.
  destruct (prepare_for_claim sha256_bytes effect_ledger effect_files ∅ effect_store
      sample_intent (Ok tt) (Ok 20%N) WriteOk) as [[[outcome|e] l'] dir'] eqn:E.
  - exists outcome, l', dir'. split; [reflexivity|].
    destruct (effect_prepare_needs_live_claim _ _ _ _ _ _ _ _ _ _ _ _ E)
      as (w & t & _ & _ & _ & _ & _ & _ & _ & _ & _ & _ & Hr & Hs & _).
    exists t. split; [|exact Hs]. rewrite <- Hr. f_equal.
  - exfalso. apply (f_equal (fun r => is_ok r.1.1)) in E. vm_compute in E. discriminate E.
Defined.
