(* ===== verification/Policy.v ===== *)
(** * Permissions and effective policies (crates/eva-policy/src/permissions.rs,
    sandbox.rs, effective.rs)

    Permission sets, Lua sandbox limits, and the policy that results from a
    stack of layers.  The abstract reading of a permission set is the set of
    actions it permits; layering is intersection of these sets. *)

From stdpp Require Import base numbers strings gmap list.
From S2P Require Import Prelude RustStr Error Ids.

(** ** Permission sets *)

Record PermissionSet := MkPermissions {
  ps_network : bool;
  ps_shell : bool;
  ps_read_workspace : bool;
  ps_write_workspace : bool;
  ps_max_timeout_ms : option N;
  ps_capabilities : option (gset CapabilityName);
  ps_adapters : option (gset AdapterId)
}.
#[export] Instance PermissionSet_eta : Eta PermissionSet := fun p =>
  MkPermissions (ps_network p) (ps_shell p) (ps_read_workspace p) (ps_write_workspace p)
    (ps_max_timeout_ms p) (ps_capabilities p) (ps_adapters p).

Definition deny_all : PermissionSet := MkPermissions false false false false None None None.
Definition read_only_runtime : PermissionSet := deny_all <| ps_read_workspace := true |>.

Definition with_network (p : PermissionSet) (value : bool) := p <| ps_network := value |>.
Definition with_shell (p : PermissionSet) (value : bool) := p <| ps_shell := value |>.
Definition with_read_workspace (p : PermissionSet) (value : bool) := p <| ps_read_workspace := value |>.
Definition with_write_workspace (p : PermissionSet) (value : bool) := p <| ps_write_workspace := value |>.
Definition with_max_timeout_ms (p : PermissionSet) (value : N) := p <| ps_max_timeout_ms := Some value |>.
Definition allow_capability (p : PermissionSet) (capability : CapabilityName) : PermissionSet :=
  p <| ps_capabilities := Some ({[capability]} ∪ default ∅ (ps_capabilities p)) |>.
Definition allow_adapter (p : PermissionSet) (adapter : AdapterId) : PermissionSet :=
  p <| ps_adapters := Some ({[adapter]} ∪ default ∅ (ps_adapters p)) |>.

Definition min_timeout (l r : option N) : option N :=
  match l, r with
  | Some l, Some r => Some (N.min l r)
  | Some value, None | None, Some value => Some value
  | None, None => None
  end.

Definition timeout_expands (requested upper_bound : option N) : bool :=
  match requested, upper_bound with
  | Some requested, Some upper_bound => (upper_bound <? requested)%N
  | Some _, None | None, _ => false
  end.

Definition intersect_optional_sets {T} `{Countable T} (l r : option (gset T)) : option (gset T) :=
  match l, r with
  | Some l, Some r => Some (l ∩ r)
  | Some values, None | None, Some values => Some values
  | None, None => None
  end.

Definition optional_set_expands {T} `{Countable T} (requested upper_bound : option (gset T)) : bool :=
  match requested, upper_bound with
  | Some requested, Some upper_bound => negb (bool_decide (requested ⊆ upper_bound))
  | None, Some _ => true
  | Some _, None | None, None => false
  end.

Definition narrowed_by (p other : PermissionSet) : PermissionSet :=
  {| ps_network := ps_network p && ps_network other;
     ps_shell := ps_shell p && ps_shell other;
     ps_read_workspace := ps_read_workspace p && ps_read_workspace other;
     ps_write_workspace := ps_write_workspace p && ps_write_workspace other;
     ps_max_timeout_ms := min_timeout (ps_max_timeout_ms p) (ps_max_timeout_ms other);
     ps_capabilities := intersect_optional_sets (ps_capabilities p) (ps_capabilities other);
     ps_adapters := intersect_optional_sets (ps_adapters p) (ps_adapters other) |}.

(** The names of the fields that go beyond the bound, in the order checked. *)
Definition diff_against (p upper_bound : PermissionSet) : list string :=
  (if ps_network p && negb (ps_network upper_bound) then ["network"] else []) ++
  (if ps_shell p && negb (ps_shell upper_bound) then ["shell"] else []) ++
  (if ps_read_workspace p && negb (ps_read_workspace upper_bound) then ["read_workspace"] else []) ++
  (if ps_write_workspace p && negb (ps_write_workspace upper_bound) then ["write_workspace"] else []) ++
  (if timeout_expands (ps_max_timeout_ms p) (ps_max_timeout_ms upper_bound)
   then ["max_timeout_ms"] else []) ++
  (if optional_set_expands (ps_capabilities p) (ps_capabilities upper_bound)
   then ["capabilities"] else []) ++
  (if optional_set_expands (ps_adapters p) (ps_adapters upper_bound) then ["adapters"] else []).

Definition is_subset_of (p upper_bound : PermissionSet) : bool :=
  match diff_against p upper_bound with [] => true | _ => false end.

Definition allows_capability (p : PermissionSet) (capability : CapabilityName) : bool :=
  match ps_capabilities p with Some s => bool_decide (capability ∈ s) | None => true end.
Definition explicitly_allows_capability (p : PermissionSet) (capability : CapabilityName) : bool :=
  match ps_capabilities p with Some s => bool_decide (capability ∈ s) | None => false end.
Definition allows_adapter (p : PermissionSet) (adapter : AdapterId) : bool :=
  match ps_adapters p with Some s => bool_decide (adapter ∈ s) | None => true end.
Definition explicitly_allows_adapter (p : PermissionSet) (adapter : AdapterId) : bool :=
  match ps_adapters p with Some s => bool_decide (adapter ∈ s) | None => false end.

(** ** Sandboxes *)

Record SandboxPolicy := MkSandbox {
  sb_disabled_lua_libs : gset string;
  sb_memory_mb : option N;
  sb_execution_timeout_ms : option N;
  sb_filesystem_enabled : bool;
  sb_network_enabled : bool;
  sb_environment_enabled : bool;
  sb_return_schema_validation : bool;
  sb_emitted_topic_validation : bool
}.

Definition lua_default : SandboxPolicy :=
  {| sb_disabled_lua_libs := {["debug"; "io"; "os"]};
     sb_memory_mb := Some 64%N;
     sb_execution_timeout_ms := Some 30000%N;
     sb_filesystem_enabled := false;
     sb_network_enabled := false;
     sb_environment_enabled := false;
     sb_return_schema_validation := true;
     sb_emitted_topic_validation := true |}.

Definition min_option (l r : option N) : option N :=
  match l, r with
  | Some l, Some r => Some (N.min l r)
  | Some value, None | None, Some value => Some value
  | None, None => None
  end.

Definition sandbox_narrowed_by (s other : SandboxPolicy) : SandboxPolicy :=
  {| sb_disabled_lua_libs := sb_disabled_lua_libs s ∪ sb_disabled_lua_libs other;
     sb_memory_mb := min_option (sb_memory_mb s) (sb_memory_mb other);
     sb_execution_timeout_ms := min_option (sb_execution_timeout_ms s) (sb_execution_timeout_ms other);
     sb_filesystem_enabled := sb_filesystem_enabled s && sb_filesystem_enabled other;
     sb_network_enabled := sb_network_enabled s && sb_network_enabled other;
     sb_environment_enabled := sb_environment_enabled s && sb_environment_enabled other;
     sb_return_schema_validation := sb_return_schema_validation s || sb_return_schema_validation other;
     sb_emitted_topic_validation := sb_emitted_topic_validation s || sb_emitted_topic_validation other |}.

Definition permits_lua_lib (s : SandboxPolicy) (library : string) : bool :=
  negb (bool_decide (library ∈ sb_disabled_lua_libs s)).

(** ** Layers *)

Record PolicyLayer := MkLayer {
  layer_name : string;
  layer_permissions : PermissionSet;
  layer_sandbox : SandboxPolicy
}.

Record EffectivePolicy := MkEffective {
  eff_permissions : PermissionSet;
  eff_sandbox : SandboxPolicy;
  eff_layer_names : list string
}.

(** One turn of the loop of [from_layers]. *)
Definition add_layer (e : EffectivePolicy) (l : PolicyLayer) : EffectivePolicy :=
  {| eff_permissions := narrowed_by (eff_permissions e) (layer_permissions l);
     eff_sandbox := sandbox_narrowed_by (eff_sandbox e) (layer_sandbox l);
     eff_layer_names := eff_layer_names e ++ [layer_name l] |}.

Definition from_layers (layers : list PolicyLayer) : Res EffectivePolicy :=
  match layers with
  | [] => Err (invalid_argument "at least one policy layer is required")
  | first :: rest =>
      Ok (foldl add_layer
            (MkEffective (layer_permissions first) (layer_sandbox first) [layer_name first]) rest)
  end.

Definition narrow_request (e : EffectivePolicy) (request : PermissionSet) : PermissionSet :=
  narrowed_by (eff_permissions e) request.

Definition ensure_request_allowed (e : EffectivePolicy) (request : PermissionSet) : Res unit :=
  match diff_against request (eff_permissions e) with
  | [] => Ok tt
  | expanded =>
      Err (permission_denied "request expands effective policy"
             ⊕ ("expanded_fields", join "," expanded))
  end.

(** ** What policies permit *)

(** What a request may want to do. *)
Inductive Action :=
| UseNetwork | UseShell | ReadWorkspace | WriteWorkspace
| RunFor (timeout_ms : N)
| CallCapability (capability : CapabilityName)
| CallAdapter (adapter : AdapterId).

Definition within (limit : option N) (n : N) : Prop :=
  match limit with Some limit => (n <= limit)%N | None => True end.
Definition listed {T} `{Countable T} (set : option (gset T)) (x : T) : Prop :=
  match set with Some set => x ∈ set | None => True end.

Definition permits (p : PermissionSet) (a : Action) : Prop :=
  match a with
  | UseNetwork => ps_network p = true
  | UseShell => ps_shell p = true
  | ReadWorkspace => ps_read_workspace p = true
  | WriteWorkspace => ps_write_workspace p = true
  | RunFor n => within (ps_max_timeout_ms p) n
  | CallCapability c => listed (ps_capabilities p) c
  | CallAdapter a => listed (ps_adapters p) a
  end.

(** What a Lua program may want to do. *)
Inductive LuaAction :=
| LuaLibrary (library : string)
| LuaMemory (mb : N)
| LuaRun (timeout_ms : N)
| LuaFilesystem | LuaNetwork | LuaEnvironment
| LuaUncheckedReturn | LuaUncheckedTopic.

Definition sandbox_permits (s : SandboxPolicy) (a : LuaAction) : Prop :=
  match a with
  | LuaLibrary l => permits_lua_lib s l = true
  | LuaMemory n => within (sb_memory_mb s) n
  | LuaRun n => within (sb_execution_timeout_ms s) n
  | LuaFilesystem => sb_filesystem_enabled s = true
  | LuaNetwork => sb_network_enabled s = true
  | LuaEnvironment => sb_environment_enabled s = true
  | LuaUncheckedReturn => sb_return_schema_validation s = false
  | LuaUncheckedTopic => sb_emitted_topic_validation s = false
  end.

Lemma within_min a b n : within (min_option a b) n <-> within a n /\ within b n.
Proof. destruct a, b; cbn; split; try tauto; lia. Qed.

Lemma listed_intersect {T} `{Countable T} (a b : option (gset T)) x :
  listed (intersect_optional_sets a b) x <-> listed a x /\ listed b x.
Proof. destruct a, b; cbn; set_solver. Qed.

Lemma permits_narrowed p q a : permits (narrowed_by p q) a <-> permits p a /\ permits q a.
Proof.
  destruct a; cbn; rewrite ?andb_true_iff; try done.
  - apply (within_min (ps_max_timeout_ms p) (ps_max_timeout_ms q)).
  - apply listed_intersect.
  - apply listed_intersect.
Qed.

Lemma sandbox_permits_narrowed s r a :
  sandbox_permits (sandbox_narrowed_by s r) a <-> sandbox_permits s a /\ sandbox_permits r a.
Proof.
  destruct a; cbn; rewrite ?andb_true_iff, ?orb_false_iff; try done; try apply within_min.
  unfold permits_lua_lib. rewrite !negb_true_iff, !bool_decide_eq_false. cbn. set_solver.
Qed.

Lemma layers_permit layers e :
  (forall a, permits (eff_permissions (foldl add_layer e layers)) a <->
     permits (eff_permissions e) a /\ Forall (fun l => permits (layer_permissions l) a) layers) /\
  (forall a, sandbox_permits (eff_sandbox (foldl add_layer e layers)) a <->
     sandbox_permits (eff_sandbox e) a /\ Forall (fun l => sandbox_permits (layer_sandbox l) a) layers) /\
  eff_layer_names (foldl add_layer e layers) = eff_layer_names e ++ (layer_name <$> layers).
Proof.
  revert e. induction layers as [|l layers IH]; intros e; cbn [foldl].
  { split_and!; [intros; rewrite Forall_nil; tauto..|by rewrite app_nil_r]. }
  destruct (IH (add_layer e l)) as (Hp & Hs & ->). split_and!.
  - intros a. rewrite Hp, Forall_cons. cbn [add_layer eff_permissions]. rewrite permits_narrowed. tauto.
  - intros a. rewrite Hs, Forall_cons. cbn [add_layer eff_sandbox]. rewrite sandbox_permits_narrowed. tauto.
  - cbn. by rewrite <- app_assoc.
Qed.

Lemma subset_dimensions p q :
  is_subset_of p q = true <->
  (ps_network p = true -> ps_network q = true) /\ (ps_shell p = true -> ps_shell q = true) /\
  (ps_read_workspace p = true -> ps_read_workspace q = true) /\
  (ps_write_workspace p = true -> ps_write_workspace q = true) /\
  timeout_expands (ps_max_timeout_ms p) (ps_max_timeout_ms q) = false /\
  optional_set_expands (ps_capabilities p) (ps_capabilities q) = false /\
  optional_set_expands (ps_adapters p) (ps_adapters q) = false.
Proof.
  assert (forall a b : bool, (a = true -> b = true) <-> a && negb b = false) as Hb
    by (intros [] []; naive_solver).
  assert (forall (c : bool) (x : string), (if c then [x] else []) = [] <-> c = false) as Hi
    by (intros [] x; naive_solver).
  assert (is_subset_of p q = true <-> diff_against p q = []) as ->
    by (unfold is_subset_of; by destruct (diff_against p q)).
  rewrite !Hb. unfold diff_against. rewrite !app_nil, !Hi. tauto.
Qed.

Lemma set_expands_false {T} `{Countable T} (a b : option (gset T)) :
  optional_set_expands a b = false ->
  forall x, listed a x -> listed b x.
Proof.
  destruct a as [a|], b as [b|]; cbn; try done.
  intros Hn%negb_false_iff%bool_decide_eq_true. set_solver.
Qed.

(** C38: layering is intersection.  The effective policy of a non-empty
    stack of layers permits exactly the actions, and its sandbox exactly the
    Lua actions, that every layer permits, whatever the order of the layers;
    it names the layers it came from; an empty stack is refused.  A request
    narrowed by it permits what both permit. *)
Theorem effective_policy_is_intersection layers :
  match from_layers layers with
  | Ok e =>
      layers <> [] /\ eff_layer_names e = layer_name <$> layers /\
      (forall a, permits (eff_permissions e) a <-> Forall (fun l => permits (layer_permissions l) a) layers) /\
      (forall a, sandbox_permits (eff_sandbox e) a <->
         Forall (fun l => sandbox_permits (layer_sandbox l) a) layers) /\
      (forall request a, permits (narrow_request e request) a <->
         permits request a /\ Forall (fun l => permits (layer_permissions l) a) layers)
  | Err e => layers = [] /\ err_kind e = InvalidArgument
  end.
Proof.
  destruct layers as [|first rest]; cbn [from_layers]; [done|].
  destruct (layers_permit rest (MkEffective (layer_permissions first) (layer_sandbox first) [layer_name first]))
    as (Hp & Hs & Hn). cbn [eff_permissions eff_sandbox eff_layer_names] in *.
  split_and!; [done|by rewrite Hn|..].
  - intros a. by rewrite Hp, Forall_cons.
  - intros a. by rewrite Hs, Forall_cons.
  - intros request a. unfold narrow_request. rewrite permits_narrowed, Hp, Forall_cons. tauto.
Qed.

(** What [ensure_request_allowed] lets through.  An accepted request
    permits nothing the policy does not, apart from running time: a request
    without a timeout of its own passes every timeout limit.  A request
    narrowed by the policy is always accepted. *)
Theorem accepted_request_within_policy e request :
  (ensure_request_allowed e request = Ok tt ->
   forall a, permits request a ->
     permits (eff_permissions e) a \/ (exists n, a = RunFor n /\ ps_max_timeout_ms request = None)) /\
  ensure_request_allowed e (narrow_request e request) = Ok tt.
Proof.
  assert (forall p, ensure_request_allowed e p = Ok tt <-> is_subset_of p (eff_permissions e) = true) as Hiff.
  { intros p. unfold ensure_request_allowed, is_subset_of. by destruct (diff_against _ _). }
  rewrite !Hiff, !subset_dimensions. split.
  - intros (Hn & Hs & Hr & Hw & Ht & Hc & Ha) a Hp. destruct a; cbn [permits] in *; auto.
    + destruct (ps_max_timeout_ms request) as [r|] eqn:Er; [|by right; eauto]. left.
      destruct (ps_max_timeout_ms (eff_permissions e)); cbn in *; [|done]. apply N.ltb_ge in Ht. lia.
    + left. by eapply set_expands_false.
    + left. by eapply set_expands_false.
  - unfold narrow_request. cbn. rewrite !andb_true_iff. split_and!; try tauto.
    + destruct (ps_max_timeout_ms (eff_permissions e)), (ps_max_timeout_ms request); cbn; try done;
        apply N.ltb_ge; lia.
    + destruct (ps_capabilities (eff_permissions e)), (ps_capabilities request); cbn; try done;
        apply negb_false_iff, bool_decide_eq_true; set_solver.
    + destruct (ps_adapters (eff_permissions e)), (ps_adapters request); cbn; try done;
        apply negb_false_iff, bool_decide_eq_true; set_solver.
Qed.

Lemma accepted_request_within_policy_witness :
  let e := MkEffective (with_max_timeout_ms (with_network deny_all true) 100) lua_default ["base"] in
  let request := with_max_timeout_ms deny_all 50 in
  ensure_request_allowed e request = Ok tt /\ permits (eff_permissions e) (RunFor 50).
Proof.
  cbv zeta. split; [vm_compute; reflexivity|].
  destruct (accepted_request_within_policy
    (MkEffective (with_max_timeout_ms (with_network deny_all true) 100) lua_default ["base"])
    (with_max_timeout_ms deny_all 50)) as [H _].
  destruct (H ltac:(vm_compute; reflexivity) (RunFor 50)) as [Hp|(n & _ & E)].
  - apply N.leb_le. reflexivity.
  - exact Hp.
  - discriminate E.
Defined.
