(* ===== verification/Capability.v ===== *)
(** * Capability routing (crates/eva-capability/src/registry.rs, selection.rs,
    gate.rs, router.rs, host_api.rs)

    Which provider may serve a capability: the registry of descriptors, the
    ordered plan of candidate providers, the permission gate, and the router
    that puts them together before anything is executed. *)

From Stdlib Require Import Ascii.
From stdpp Require Import base numbers strings gmap list.
From S2P Require Import Prelude RustStr Error Ids Topic Event Policy.

(** ** Selection *)

Record CapabilityProviderSelection := MkSelection {
  sel_manifest_provider : option AdapterId;
  sel_default_provider : option AdapterId;
  sel_fallback_providers : list AdapterId;
  sel_required_adapter_capabilities : list CapabilityName
}.
Definition selection_default : CapabilityProviderSelection := MkSelection None None [] [].

Inductive CapabilityProviderSource :=
| ExplicitRequest | ManifestProvider | DefaultProvider | FallbackProvider.
#[export] Instance CapabilityProviderSource_eq_dec : EqDecision CapabilityProviderSource.
Proof. solve_decision. Defined.

Definition provider_source_str (s : CapabilityProviderSource) : string :=
  match s with
  | ExplicitRequest => "explicit_request"
  | ManifestProvider => "manifest_provider"
  | DefaultProvider => "default_provider"
  | FallbackProvider => "fallback_provider"
  end.

Record CapabilityProviderCandidate := MkCandidate {
  cand_provider : AdapterId;
  cand_source : CapabilityProviderSource
}.

Record CapabilityProviderPlan := MkPlan {
  plan_capability : CapabilityName;
  plan_providers : list CapabilityProviderCandidate;
  plan_manifest_allowed_providers : list AdapterId;
  plan_required_adapter_capabilities : list CapabilityName
}.

Definition push_allowed (providers : list AdapterId) (provider : AdapterId) : list AdapterId :=
  if bool_decide (provider ∈ providers) then providers else providers ++ [provider].

Definition push_unique (providers : list CapabilityProviderCandidate) (provider : AdapterId)
    (source : CapabilityProviderSource) : list CapabilityProviderCandidate :=
  if existsb (fun candidate => bool_decide (cand_provider candidate = provider)) providers
  then providers else providers ++ [MkCandidate provider source].

(** A provider the manifest names: allowed, and a candidate. *)
Definition push_manifest (source : CapabilityProviderSource)
    (lists : list CapabilityProviderCandidate * list AdapterId) (provider : AdapterId) :
    list CapabilityProviderCandidate * list AdapterId :=
  (push_unique lists.1 provider source, push_allowed lists.2 provider).

Definition plan_for (s : CapabilityProviderSelection) (capability : CapabilityName)
    (explicit_provider : option AdapterId) : CapabilityProviderPlan :=
  let providers := match explicit_provider with
                   | Some provider => push_unique [] provider ExplicitRequest | None => [] end in
  let lists := (providers, []) in
  let lists := match sel_manifest_provider s with
               | Some provider => push_manifest ManifestProvider lists provider | None => lists end in
  let lists := match sel_default_provider s with
               | Some provider => push_manifest DefaultProvider lists provider | None => lists end in
  let lists := foldl (push_manifest FallbackProvider) lists (sel_fallback_providers s) in
  MkPlan capability lists.1 lists.2 (sel_required_adapter_capabilities s).

Definition provider_ids (p : CapabilityProviderPlan) : list AdapterId := cand_provider <$> plan_providers p.
Definition plan_is_empty (p : CapabilityProviderPlan) : bool :=
  match plan_providers p with [] => true | _ => false end.
Definition allows_manifest_provider (p : CapabilityProviderPlan) (provider : AdapterId) : bool :=
  bool_decide (provider ∈ plan_manifest_allowed_providers p).

(** ** Gate *)

Definition ensure_capability_allowed (permissions : PermissionSet) (capability : CapabilityName) :
    Res unit :=
  if explicitly_allows_capability permissions capability then Ok tt
  else Err (permission_denied "capability is not explicitly allowed"
              ⊕ ("capability", cap_name capability) ⊕ ("gate", "capability")).

Definition ensure_required_adapter_capabilities_allowed (permissions : PermissionSet)
    (plan : CapabilityProviderPlan) : Res unit :=
  try_each (fun capability =>
    reject negb (explicitly_allows_capability permissions capability) with
      permission_denied "required adapter capability is not explicitly allowed"
        ⊕ ("capability", cap_name (plan_capability plan))
        ⊕ ("required_capability", cap_name capability) ⊕ ("gate", "adapter_capability") else
    Ok tt) (plan_required_adapter_capabilities plan).

Definition provider_denied (message gate : string) (plan : CapabilityProviderPlan)
    (candidate : CapabilityProviderCandidate) : EvaError :=
  permission_denied message ⊕ ("capability", cap_name (plan_capability plan))
    ⊕ ("provider", id_str (cand_provider candidate))
    ⊕ ("provider_source", provider_source_str (cand_source candidate)) ⊕ ("gate", gate).

Definition ensure_provider_allowed (permissions : PermissionSet) (plan : CapabilityProviderPlan)
    (candidate : CapabilityProviderCandidate) : Res unit :=
  ensure_capability_allowed permissions (plan_capability plan) >>?
  ensure_required_adapter_capabilities_allowed permissions plan >>?
  (reject negb (explicitly_allows_adapter permissions (cand_provider candidate)) with
     provider_denied "adapter provider is not explicitly allowed" "adapter" plan candidate else
   reject negb (allows_manifest_provider plan (cand_provider candidate)) with
     provider_denied "adapter provider is not allowed by capability manifest" "manifest" plan candidate
   else Ok tt).

Definition ensure_plan_allowed (permissions : PermissionSet) (plan : CapabilityProviderPlan) : Res unit :=
  ensure_capability_allowed permissions (plan_capability plan) >>?
  ensure_required_adapter_capabilities_allowed permissions plan >>?
  try_each (ensure_provider_allowed permissions plan) (plan_providers plan).

(** ** Registry *)

Record CapabilityDescriptor := MkDescriptor {
  desc_id : CapabilityId;
  desc_name : CapabilityName;
  desc_enabled : bool;
  desc_provider : string;
  desc_provider_selection : CapabilityProviderSelection
}.

Definition descriptor_builtin (id : CapabilityId) (name : CapabilityName) : CapabilityDescriptor :=
  MkDescriptor id name true "builtin" selection_default.

Definition descriptor_plan (d : CapabilityDescriptor) (explicit_provider : option AdapterId) :
    CapabilityProviderPlan :=
  plan_for (desc_provider_selection d) (desc_name d) explicit_provider.

Abbreviation CapabilityRegistry := (gmap CapabilityName CapabilityDescriptor).

Definition registry_insert (r : CapabilityRegistry) (d : CapabilityDescriptor) :
    Res unit * CapabilityRegistry :=
  match r !! desc_name d with
  | Some _ => (Err (conflict "capability already registered" ⊕ ("capability", cap_name (desc_name d))), r)
  | None => (Ok tt, <[desc_name d := d]> r)
  end.

Definition with_v04_builtins : Res CapabilityRegistry :=
  let? lint_id := id_parse KCapability "config-lint-builtin" in
  let? lint := capability_name_parse "config.lint" in
  let? echo_id := id_parse KCapability "runtime-echo-builtin" in
  let? echo := capability_name_parse "runtime.echo" in
  let '(r1, registry) := registry_insert ∅ (descriptor_builtin lint_id lint) in
  let '(r2, registry) := registry_insert registry (descriptor_builtin echo_id echo) in
  r1 >>? r2 >>? Ok registry.

(** ** Router *)

Definition descriptor_for_request (registry : CapabilityRegistry) (request : InvokeRequest) :
    Res CapabilityDescriptor :=
  match req_target request with
  | InvokeCapability capability =>
      ok_or (registry !! capability)
        (not_found "capability is not registered" ⊕ ("capability", cap_name capability))
  | _ => Err (invalid_argument "capability router requires capability target")
  end.

Definition ensure_enabled (d : CapabilityDescriptor) : Res unit :=
  if desc_enabled d then Ok tt
  else Err (permission_denied "capability is disabled" ⊕ ("capability", cap_name (desc_name d))).

Definition provider_plan (registry : CapabilityRegistry) (request : InvokeRequest)
    (explicit_provider : option AdapterId) : Res CapabilityProviderPlan :=
  let? descriptor := descriptor_for_request registry request in
  ensure_enabled descriptor >>? Ok (descriptor_plan descriptor explicit_provider).

Definition authorized_provider_plan (registry : CapabilityRegistry) (request : InvokeRequest)
    (explicit_provider : option AdapterId) (permissions : PermissionSet) : Res CapabilityProviderPlan :=
  let? plan := provider_plan registry request explicit_provider in
  ensure_plan_allowed permissions plan >>? Ok plan.

Fixpoint escape_json (value : string) : string :=
  match value with
  | EmptyString => ""
  | String c rest =>
      let escaped :=
        if Ascii.eqb c dquote then String backslash (str dquote)
        else if Ascii.eqb c backslash then String backslash (str backslash)
        else if Ascii.eqb c nl then String backslash "n"
        else if Ascii.eqb c cr then String backslash "r"
        else if Ascii.eqb c tab then String backslash "t"
        else str c in
      escaped +:+ escape_json rest
  end.

Definition quoted (s : string) : string := String dquote (s +:+ str dquote).

Definition invoke_descriptor (descriptor : CapabilityDescriptor) (request : InvokeRequest) :
    Res InvokeResponse :=
  ensure_enabled descriptor >>?
  (let text := default "" (payload_as_text (req_input request)) in
   let name := cap_name (desc_name descriptor) in
   let? output :=
     if String.eqb name "config.lint" then
       Ok ("{" +:+ quoted "valid" +:+ ":true," +:+ quoted "findings" +:+ ":[]," +:+ quoted "input"
             +:+ ":" +:+ quoted (escape_json text) +:+ "}")
     else if String.eqb name "runtime.echo" then
       Ok ("{" +:+ quoted "echo" +:+ ":" +:+ quoted (escape_json text) +:+ "}")
     else Err (unsupported "capability has no builtin provider" ⊕ ("capability", name)) in
   Ok (response_completed (req_request_id request) (PayloadText output))).

Definition router_invoke (registry : CapabilityRegistry) (request : InvokeRequest) : Res InvokeResponse :=
  let? descriptor := descriptor_for_request registry request in invoke_descriptor descriptor request.

(** The default method of [CapabilityHostApi]. *)
Definition invoke_with_provider (registry : CapabilityRegistry) (request : InvokeRequest)
    (explicit_provider : option AdapterId) : Res InvokeResponse :=
  match explicit_provider with
  | Some provider =>
      Err (unsupported "capability host does not support explicit provider routing"
             ⊕ ("provider", id_str provider))
  | None => router_invoke registry request
  end.

(** ** Plans *)

Lemma push_unique_providers ps provider source :
  cand_provider <$> push_unique ps provider source = push_allowed (cand_provider <$> ps) provider.
Proof.
  unfold push_unique, push_allowed.
  assert (existsb (fun c => bool_decide (cand_provider c = provider)) ps
          = bool_decide (provider ∈ cand_provider <$> ps)) as ->.
  { apply eq_true_iff_eq. rewrite existsb_exists, bool_decide_eq_true, list_elem_of_fmap. split.
    - intros (c & Hc & E%bool_decide_eq_true). exists c. by rewrite list_elem_of_In.
    - intros (c & -> & Hc). exists c. rewrite <- list_elem_of_In. by rewrite bool_decide_eq_true. }
  case_bool_decide; [done|]. by rewrite fmap_app.
Qed.

Lemma push_allowed_elem l x y : y ∈ push_allowed l x <-> y ∈ l \/ y = x.
Proof. unfold push_allowed. case_bool_decide; set_solver. Qed.

Lemma push_allowed_NoDup l x : NoDup l -> NoDup (push_allowed l x).
Proof.
  intros Hl. unfold push_allowed. case_bool_decide; [done|]. apply NoDup_app.
  split_and!; [done|set_solver|apply NoDup_singleton].
Qed.

(** The manifest's providers of a selection, in the order they are tried. *)
Definition manifest_order (s : CapabilityProviderSelection) : list AdapterId :=
  option_list (sel_manifest_provider s) ++ option_list (sel_default_provider s)
  ++ sel_fallback_providers s.

Lemma plan_lists s capability explicit :
  provider_ids (plan_for s capability explicit)
    = foldl push_allowed (option_list explicit) (manifest_order s) /\
  plan_manifest_allowed_providers (plan_for s capability explicit)
    = foldl push_allowed [] (manifest_order s).
Proof.
  assert (forall source xs lists,
    cand_provider <$> (foldl (push_manifest source) lists xs).1
      = foldl push_allowed (cand_provider <$> lists.1) xs /\
    (foldl (push_manifest source) lists xs).2 = foldl push_allowed lists.2 xs) as Hfold.
  { intros source xs. induction xs as [|x xs IH]; intros lists; [done|]. cbn [foldl].
    destruct (IH (push_manifest source lists x)) as [-> ->]. cbn. by rewrite push_unique_providers. }
  unfold provider_ids, plan_for, manifest_order. cbn [plan_providers plan_manifest_allowed_providers].
  rewrite !foldl_app. destruct (Hfold FallbackProvider (sel_fallback_providers s)
    (match sel_default_provider s with
     | Some p => push_manifest DefaultProvider
         (match sel_manifest_provider s with
          | Some p => push_manifest ManifestProvider
              (match explicit with Some p => push_unique [] p ExplicitRequest | None => [] end, []) p
          | None => (match explicit with Some p => push_unique [] p ExplicitRequest | None => [] end, [])
          end) p
     | None => match sel_manifest_provider s with
          | Some p => push_manifest ManifestProvider
              (match explicit with Some p => push_unique [] p ExplicitRequest | None => [] end, []) p
          | None => (match explicit with Some p => push_unique [] p ExplicitRequest | None => [] end, [])
          end
     end)) as [H1 H2].
  rewrite H1, H2. split; f_equal.
  - destruct explicit, (sel_manifest_provider s), (sel_default_provider s); cbn [option_list foldl];
      unfold push_manifest; cbn [fst snd]; by rewrite ?push_unique_providers.
  - by destruct (sel_manifest_provider s), (sel_default_provider s).
Qed.

Lemma foldl_push_elem xs l y : y ∈ foldl push_allowed l xs <-> y ∈ l \/ y ∈ xs.
Proof.
  revert l. induction xs as [|x xs IH]; intros l; cbn [foldl]; [set_solver|].
  rewrite IH, push_allowed_elem. set_solver.
Qed.

Lemma foldl_push_NoDup xs l : NoDup l -> NoDup (foldl push_allowed l xs).
Proof. revert l. induction xs as [|x xs IH]; intros l Hl; [done|]. by apply IH, push_allowed_NoDup. Qed.

Lemma foldl_push_prefix xs l : l `prefix_of` foldl push_allowed l xs.
Proof.
  revert l. induction xs as [|x xs IH]; intros l; [done|]. cbn [foldl]. etrans; [|apply IH].
  unfold push_allowed. case_bool_decide; [done|]. by apply prefix_app_r.
Qed.

Lemma option_list_NoDup {A} (o : option A) : NoDup (option_list o).
Proof. destruct o; cbn; [apply NoDup_singleton|constructor]. Qed.

(** Every registry built with [register] files descriptors under their name. *)
Definition registry_wf (r : CapabilityRegistry) : Prop :=
  forall name d, r !! name = Some d -> desc_name d = name.

Lemma registry_insert_wf r d : registry_wf r -> registry_wf (registry_insert r d).2.
Proof.
  intros Hr. unfold registry_insert. destruct (r !! desc_name d); [done|].
  cbn [snd]. intros name d' [[<- <-]|[_ H]]%lookup_insert_Some; [done|by apply Hr].
Qed.

(** What an authorised plan guarantees.  The router hands out a plan
    only for a registered, enabled capability the caller may call explicitly;
    every provider on it is explicitly permitted and named by the capability's
    manifest, every adapter capability it needs is permitted, no provider
    appears twice, the one asked for explicitly comes first, and all the
    manifest's providers are on it. *)
Theorem authorized_plan_permitted registry request explicit permissions plan :
  registry_wf registry ->
  authorized_provider_plan registry request explicit permissions = Ok plan ->
  exists d, req_target request = InvokeCapability (plan_capability plan) /\
    registry !! plan_capability plan = Some d /\ desc_enabled d = true /\
    explicitly_allows_capability permissions (plan_capability plan) = true /\
    Forall (fun c => explicitly_allows_capability permissions c = true)
      (plan_required_adapter_capabilities plan) /\
    NoDup (provider_ids plan) /\
    (forall p, p ∈ provider_ids plan ->
       explicitly_allows_adapter permissions p = true /\ p ∈ manifest_order (desc_provider_selection d)) /\
    (forall p, p ∈ manifest_order (desc_provider_selection d) -> p ∈ provider_ids plan) /\
    (forall p, explicit = Some p -> head (provider_ids plan) = Some p).
Proof.
  intros Hwf H. unfold authorized_provider_plan, provider_plan, descriptor_for_request in H.
  destruct (req_target request) as [|name|]; [done| |done].
  destruct (registry !! name) as [d|] eqn:Er; [|done]. cbn [ok_or] in H.
  unfold ensure_enabled in H. destruct (desc_enabled d) eqn:Ee; [|done].
  apply then_Ok in H as [[[] Hg] H]. injection H as <-.
  unfold ensure_plan_allowed in Hg. apply then_Ok in Hg as [[[] Hcap] Hg].
  apply then_Ok in Hg as [[[] Hreq] Hprov]. apply try_each_Ok in Hprov.
  unfold ensure_capability_allowed in Hcap. destruct (explicitly_allows_capability _ _) eqn:Ec in Hcap; [|done].
  unfold descriptor_plan in *. set (plan := plan_for _ _ _) in *.
  destruct (plan_lists (desc_provider_selection d) (desc_name d) explicit) as [Hids Hallowed]. fold plan in Hids, Hallowed.
  exists d. assert (plan_capability plan = name) as -> by apply (Hwf _ _ Er).
  assert (plan_capability plan = desc_name d) as Epc by done.
  split_and!; try done.
  - by rewrite <- (Hwf _ _ Er).
  - apply try_each_Ok in Hreq. eapply Forall_impl; [exact Hreq|]. cbn.
    intros c [Hc%negb_false_iff _]%reject_Ok. done.
  - rewrite Hids. apply foldl_push_NoDup, option_list_NoDup.
  - intros p Hp. unfold provider_ids in Hp. apply list_elem_of_fmap in Hp as (c & -> & Hc).
    rewrite Forall_forall in Hprov. specialize (Hprov c Hc). unfold ensure_provider_allowed in Hprov.
    do 2 apply then_Ok in Hprov as [_ Hprov]. apply reject_Ok in Hprov as [Ha%negb_false_iff Hprov].
    apply reject_Ok in Hprov as [Hm%negb_false_iff _]. split; [done|].
    unfold allows_manifest_provider in Hm. apply bool_decide_eq_true in Hm. rewrite Hallowed in Hm.
    apply foldl_push_elem in Hm as [Hm|Hm]; [set_solver|done].
  - intros p Hp. rewrite Hids. apply foldl_push_elem. by right.
  - intros p ->. rewrite Hids. destruct (foldl_push_prefix (manifest_order (desc_provider_selection d))
      (option_list (Some p))) as [rest ->]. done.
Qed.

Definition sample_capability : CapabilityName := MkCapabilityName "text.summarise" ["text"; "summarise"].
Definition sample_adapter (n : string) : AdapterId := MkId n.
Definition sample_registry : CapabilityRegistry :=
  (registry_insert ∅ (MkDescriptor (MkId "summarise") sample_capability true "a"
     (MkSelection (Some (sample_adapter "a")) (Some (sample_adapter "b")) [sample_adapter "a"] []))).2.
Definition sample_permissions : PermissionSet :=
  allow_adapter (allow_adapter (allow_capability deny_all sample_capability) (sample_adapter "a"))
    (sample_adapter "b").
Definition sample_request : InvokeRequest :=
  invoke_request_new (MkId "r1") (InvokeCapability sample_capability) PayloadEmpty.

Lemma authorized_plan_permitted_witness :
  exists plan, authorized_provider_plan sample_registry sample_request (Some (sample_adapter "b"))
      sample_permissions = Ok plan /\ NoDup (provider_ids plan) /\
    head (provider_ids plan) = Some (sample_adapter "b").
Proof.
  destruct (authorized_provider_plan sample_registry sample_request (Some (sample_adapter "b"))
      sample_permissions) as [plan|] eqn:E.
  - exists plan. split; [reflexivity|].
    destruct (authorized_plan_permitted sample_registry sample_request (Some (sample_adapter "b"))
      sample_permissions plan) as (d & _ & _ & _ & _ & _ & Hn & _ & _ & Hh).
    + apply registry_insert_wf. intros name d H. by rewrite lookup_empty in H.
    + exact E.
    + split; [exact Hn|]. apply Hh. reflexivity.
  - exfalso. apply (f_equal is_ok) in E. vm_compute in E. discriminate E.
Defined.
