(* ===== verification/PolicyGate.v ===== *)
(** * The runtime policy gate (crates/eva-policy/src/domains.rs, mutation_inventory.rs)

    The decision on every high-risk action, from the typed policy domains,
    and the inventory that ties each mutation of the system to the gate that
    guards it.  The YAML readers that fill the domains are not modelled. *)

From stdpp Require Import base numbers strings gmap list.
From S2P Require Import Prelude RustStr Error Ids Topic Policy.

Inductive HighRiskAction :=
| AdapterInvoke | ProviderCredentialSession | McpToolCall | McpTopicEmit | SkillRun | HardwareBind
| HardwareRawIo | BackupCreate | RestoreApply | UpgradeApply | ReleasePointerMutation
| SupervisorHandoff.
#[export] Instance HighRiskAction_eq_dec : EqDecision HighRiskAction.
Proof. solve_decision. Defined.

Definition high_risk_str (a : HighRiskAction) : string :=
  match a with
  | AdapterInvoke => "adapter.invoke"
  | ProviderCredentialSession => "provider.credential_session"
  | McpToolCall => "mcp.tool.call"
  | McpTopicEmit => "mcp.topic.emit"
  | SkillRun => "skill.run"
  | HardwareBind => "hardware.bind"
  | HardwareRawIo => "hardware.raw_io"
  | BackupCreate => "backup.create"
  | RestoreApply => "restore.apply"
  | UpgradeApply => "upgrade.apply"
  | ReleasePointerMutation => "release.pointer_mutation"
  | SupervisorHandoff => "supervisor.handoff"
  end.

Definition HIGH_RISK_ACTIONS : list HighRiskAction :=
  [AdapterInvoke; ProviderCredentialSession; McpToolCall; McpTopicEmit; SkillRun; HardwareBind;
   HardwareRawIo; BackupCreate; RestoreApply; UpgradeApply; ReleasePointerMutation; SupervisorHandoff].

(** The [match value] of [parse]: the action with that name. *)
Definition high_risk_parse (value : string) : Res HighRiskAction :=
  ok_or (List.find (fun a => String.eqb (high_risk_str a) value) HIGH_RISK_ACTIONS)
    (invalid_argument "unknown high-risk policy action" ⊕ ("action", value)).

Lemma high_risk_roundtrip a : high_risk_parse (high_risk_str a) = Ok a.
Proof. by destruct a. Qed.

#[export] Instance HighRiskAction_countable : Countable HighRiskAction.
Proof.
  apply (inj_countable high_risk_str (fun v => ok (high_risk_parse v))).
  intros a. by rewrite high_risk_roundtrip.
Defined.

(** ** Domains *)

Record CapabilityRetryPolicy := MkCapabilityRetry {
  cr_max_attempts : N;
  cr_backoff_ms : option N
}.
Record RetryPolicyDomain := MkRetryDomain {
  rp_default_max_attempts : N;
  rp_capabilities : gmap CapabilityName CapabilityRetryPolicy
}.
Record SkillPolicy := MkSkillPolicy {
  sk_require_schema : bool;
  sk_allow_user_local_skills : bool;
  sk_allowed_runtime_gates : gset string;
  sk_deny_kinds : gset string
}.
Definition skill_default : SkillPolicy := MkSkillPolicy true false {["normal"]} ∅.

Record AdapterPolicyDomain := MkAdapterDomain {
  ad_defaults : PermissionSet;
  ad_allow_write_workspace : gset AdapterId;
  ad_deny_capabilities : gset CapabilityName;
  ad_skill : SkillPolicy;
  ad_retry : RetryPolicyDomain
}.

Record HardwareHotplugPolicy := MkHotplugPolicy {
  hp_require_identity_match : bool;
  hp_quarantine_unknown_devices : bool;
  hp_emit_events : list Topic
}.
Definition hotplug_default : HardwareHotplugPolicy := MkHotplugPolicy true true [].

Record HardwarePolicyDomain := MkHardwareDomain {
  hw_enabled : bool;
  hw_allow_raw_io : bool;
  hw_claim : string;
  hw_network_bridge : bool;
  hw_max_timeout_ms : option N;
  hw_allowed_buses : gset string;
  hw_denied_capabilities : gset CapabilityName;
  hw_hotplug : HardwareHotplugPolicy
}.
Definition hardware_default : HardwarePolicyDomain :=
  MkHardwareDomain false false "exclusive" false None ∅ ∅ hotplug_default.

Record McpToolPolicy := MkToolPolicy {
  tool_enabled : bool;
  tool_allowed_agents : gset AgentId;
  tool_allowed_capabilities : gset CapabilityName;
  tool_allowed_providers : gset AdapterId;
  tool_allowed_topics : list TopicPattern;
  tool_timeout_ms : option N
}.
Record McpServerPolicyDomain := MkMcpDomain {
  mcp_enabled : bool;
  mcp_bind : option string;
  mcp_tools : gmap string McpToolPolicy
}.

(** [RuntimePolicyDomain] is its set of explicitly allowed actions. *)
Record PolicyDomainSet := MkDomains {
  dom_adapter : AdapterPolicyDomain;
  dom_hardware : HardwarePolicyDomain;
  dom_mcp_server : McpServerPolicyDomain;
  dom_allow_high_risk_actions : gset HighRiskAction
}.

Definition domains_default : PolicyDomainSet :=
  MkDomains (MkAdapterDomain deny_all ∅ ∅ skill_default (MkRetryDomain 0 ∅)) hardware_default
    (MkMcpDomain false None ∅) ∅.

Definition hardware_permissions (policy : HardwarePolicyDomain) : PermissionSet :=
  deny_all <| ps_network := hw_network_bridge policy |>
    <| ps_max_timeout_ms := hw_max_timeout_ms policy |>.

Record RuntimePolicyRequest := MkPolicyRequest {
  pr_action : HighRiskAction;
  pr_tool : option string;
  pr_agent : option AgentId;
  pr_capability : option CapabilityName;
  pr_provider : option AdapterId;
  pr_adapter : option AdapterId;
  pr_topic : option Topic;
  pr_bus : option string;
  pr_timeout_ms : option N
}.
#[export] Instance RuntimePolicyRequest_eta : Eta RuntimePolicyRequest := fun r =>
  MkPolicyRequest (pr_action r) (pr_tool r) (pr_agent r) (pr_capability r) (pr_provider r)
    (pr_adapter r) (pr_topic r) (pr_bus r) (pr_timeout_ms r).
Definition policy_request_new (action : HighRiskAction) : RuntimePolicyRequest :=
  MkPolicyRequest action None None None None None None None None.

Record PolicyDecision := MkDecision {
  dec_action : HighRiskAction;
  dec_allowed : bool;
  dec_reason : string;
  dec_audit : list string
}.

Definition allowed (action : HighRiskAction) (reason : string) : PolicyDecision :=
  MkDecision action true reason
    ["policy.action:" +:+ high_risk_str action; "policy.decision:allow"; "policy.reason:" +:+ reason].
Definition denied (action : HighRiskAction) (reason : string) : PolicyDecision :=
  MkDecision action false reason
    ["policy.action:" +:+ high_risk_str action; "policy.decision:deny"; "policy.reason:" +:+ reason].

Definition ensure_decision_allowed (d : PolicyDecision) : Res unit :=
  if dec_allowed d then Ok tt
  else Err (permission_denied "runtime policy denied high-risk action"
              ⊕ ("action", high_risk_str (dec_action d)) ⊕ ("reason", dec_reason d)
              ⊕ ("audit", join ";" (dec_audit d))).

(** ** Decisions *)

(** [if let Some(timeout) = .. { if let Some(limit) = .. { timeout > limit } }] *)
Definition over_limit (timeout limit : option N) : bool :=
  match timeout, limit with Some timeout, Some limit => (limit <? timeout)%N | _, _ => false end.

(** A value that is present but not on a non-empty list. *)
Definition not_listed {T} `{Countable T} (value : option T) (allowed : gset T) : option T :=
  match value with
  | Some v => if negb (bool_decide (allowed = ∅)) && negb (bool_decide (v ∈ allowed)) then Some v else None
  | None => None
  end.

(** A value that is present and on a deny list. *)
Definition on_list {T} `{Countable T} (value : option T) (denied : gset T) : option T :=
  match value with Some v => if bool_decide (v ∈ denied) then Some v else None | None => None end.

Section Gate.
Variable domains : PolicyDomainSet.

Definition adapter_retry_backoff_ms (capability : CapabilityName) : option N :=
  rp_capabilities (ad_retry (dom_adapter domains)) !! capability ≫= cr_backoff_ms.

Definition decide_adapter_invoke (r : RuntimePolicyRequest) : PolicyDecision :=
  match on_list (pr_capability r) (ad_deny_capabilities (dom_adapter domains)) with
  | Some c => denied (pr_action r) ("capability " +:+ cap_name c +:+ " is globally denied")
  | None =>
      if over_limit (pr_timeout_ms r) (ps_max_timeout_ms (ad_defaults (dom_adapter domains)))
      then denied (pr_action r) "adapter request timeout exceeds policy limit"
      else allowed (pr_action r) "adapter request is within policy domain"
  end.

Definition decide_provider_credential_session (r : RuntimePolicyRequest) : PolicyDecision :=
  match pr_adapter r, pr_provider r with
  | None, _ => denied (pr_action r) "provider credential session requires adapter scope"
  | _, None => denied (pr_action r) "provider credential session requires provider scope"
  | Some adapter, Some provider =>
      if bool_decide (adapter = provider)
      then allowed (pr_action r) "provider credential session is scoped to requested provider"
      else denied (pr_action r) "provider credential session cannot be reused across providers"
  end.

Definition decide_skill_run (r : RuntimePolicyRequest) : PolicyDecision :=
  match pr_tool r with
  | None => denied (pr_action r) "skill runtime gate is required"
  | Some gate =>
      if bool_decide (gate ∈ sk_allowed_runtime_gates (ad_skill (dom_adapter domains)))
      then allowed (pr_action r) "skill runtime gate is allowed"
      else denied (pr_action r) ("skill runtime gate " +:+ gate +:+ " is not allowed")
  end.

Definition decide_mcp_tool_call (r : RuntimePolicyRequest) : PolicyDecision :=
  match pr_tool r with
  | None => denied (pr_action r) "MCP tool name is required"
  | Some tool_name =>
  match mcp_tools (dom_mcp_server domains) !! tool_name with
  | None => denied (pr_action r) ("MCP tool " +:+ tool_name +:+ " is not declared")
  | Some tool =>
      if negb (mcp_enabled (dom_mcp_server domains)) || negb (tool_enabled tool)
      then denied (pr_action r) ("MCP tool " +:+ tool_name +:+ " is disabled") else
      match not_listed (pr_agent r) (tool_allowed_agents tool) with
      | Some agent => denied (pr_action r)
          ("agent " +:+ id_str agent +:+ " is not allowed for " +:+ tool_name)
      | None =>
      match not_listed (pr_capability r) (tool_allowed_capabilities tool) with
      | Some capability => denied (pr_action r)
          ("capability " +:+ cap_name capability +:+ " is not allowed for " +:+ tool_name)
      | None =>
      match not_listed (pr_provider r) (tool_allowed_providers tool) with
      | Some provider => denied (pr_action r)
          ("provider " +:+ id_str provider +:+ " is not allowed for " +:+ tool_name)
      | None =>
          if over_limit (pr_timeout_ms r) (tool_timeout_ms tool)
          then denied (pr_action r) ("MCP tool " +:+ tool_name +:+ " timeout exceeds policy")
          else allowed (pr_action r) ("MCP tool " +:+ tool_name +:+ " is allowed")
      end end end
  end end.

Definition decide_mcp_topic_emit (r : RuntimePolicyRequest) : PolicyDecision :=
  match mcp_tools (dom_mcp_server domains) !! "topic.emit" with
  | None => denied (pr_action r) "topic.emit policy is not declared"
  | Some tool =>
      if negb (mcp_enabled (dom_mcp_server domains)) || negb (tool_enabled tool)
      then denied (pr_action r) "topic.emit is disabled" else
      match pr_topic r with
      | None => denied (pr_action r) "topic.emit requires a topic"
      | Some topic =>
          if existsb (fun pattern => matches pattern topic) (tool_allowed_topics tool)
          then allowed (pr_action r) ("topic " +:+ topic_path topic +:+ " is allowed")
          else denied (pr_action r) ("topic " +:+ topic_path topic +:+ " is not allowlisted")
      end
  end.

Definition decide_hardware_bind (r : RuntimePolicyRequest) : PolicyDecision :=
  let hardware := dom_hardware domains in
  if negb (hw_enabled hardware) then denied (pr_action r) "hardware policy is disabled" else
  match not_listed (pr_bus r) (hw_allowed_buses hardware) with
  | Some bus => denied (pr_action r) ("hardware bus " +:+ bus +:+ " is not allowed")
  | None =>
  match on_list (pr_capability r) (hw_denied_capabilities hardware) with
  | Some c => denied (pr_action r) ("hardware capability " +:+ cap_name c +:+ " is denied")
  | None =>
      if over_limit (pr_timeout_ms r) (hw_max_timeout_ms hardware)
      then denied (pr_action r) "hardware timeout exceeds policy limit"
      else allowed (pr_action r) "hardware bind is within policy domain"
  end end.

Definition decide_hardware_raw_io (r : RuntimePolicyRequest) : PolicyDecision :=
  if negb (hw_enabled (dom_hardware domains)) then denied (pr_action r) "hardware policy is disabled"
  else if negb (hw_allow_raw_io (dom_hardware domains))
  then denied (pr_action r) "hardware raw I/O is disabled by policy"
  else decide_hardware_bind r.

Definition decide_explicit_runtime_action (r : RuntimePolicyRequest) : PolicyDecision :=
  if bool_decide (pr_action r ∈ dom_allow_high_risk_actions domains)
  then allowed (pr_action r) "runtime policy explicitly allows high-risk action"
  else denied (pr_action r)
         "high-risk action requires explicit runtime_policy allow_high_risk_actions entry".

Definition gate_decide (r : RuntimePolicyRequest) : PolicyDecision :=
  match pr_action r with
  | McpToolCall => decide_mcp_tool_call r
  | McpTopicEmit => decide_mcp_topic_emit r
  | HardwareBind => decide_hardware_bind r
  | HardwareRawIo => decide_hardware_raw_io r
  | AdapterInvoke => decide_adapter_invoke r
  | ProviderCredentialSession => decide_provider_credential_session r
  | SkillRun => decide_skill_run r
  | BackupCreate | RestoreApply | UpgradeApply | ReleasePointerMutation | SupervisorHandoff =>
      decide_explicit_runtime_action r
  end.
End Gate.

(** ** The mutation inventory *)

Inductive MutationOperation :=
| DaemonShutdown | DaemonTaskSubmit | DaemonTaskCancel | DaemonAgentDrain | DaemonAgentReload
| MutRestoreApply | RestoreRollback | UpgradeHandoff | ReleasePointerPromote | MutHardwareBind
| ServiceInstall | ServiceStart | ServiceStop | ServiceRestart | ServiceUninstall | MemoryMaintenance.
#[export] Instance MutationOperation_eq_dec : EqDecision MutationOperation.
Proof. solve_decision. Defined.

Inductive MutationGate :=
| AuthenticatedDaemon | HighRisk (action : HighRiskAction) | ServiceManager | MemoryPolicy.
#[export] Instance MutationGate_eq_dec : EqDecision MutationGate.
Proof. solve_decision. Defined.

Record MutationInventoryEntry := MkInventoryEntry {
  inv_operation : MutationOperation;
  inv_stable_name : string;
  inv_gate : MutationGate
}.

Definition MUTATION_INVENTORY : list MutationInventoryEntry :=
  [ MkInventoryEntry DaemonShutdown "daemon.shutdown" AuthenticatedDaemon;
    MkInventoryEntry DaemonTaskSubmit "daemon.task_submit" AuthenticatedDaemon;
    MkInventoryEntry DaemonTaskCancel "daemon.task_cancel" AuthenticatedDaemon;
    MkInventoryEntry DaemonAgentDrain "daemon.agent_drain" AuthenticatedDaemon;
    MkInventoryEntry DaemonAgentReload "daemon.agent_reload" AuthenticatedDaemon;
    MkInventoryEntry MutRestoreApply "restore.apply" (HighRisk RestoreApply);
    MkInventoryEntry RestoreRollback "restore.rollback" (HighRisk RestoreApply);
    MkInventoryEntry UpgradeHandoff "upgrade.handoff" (HighRisk SupervisorHandoff);
    MkInventoryEntry ReleasePointerPromote "release.pointer_promote" (HighRisk ReleasePointerMutation);
    MkInventoryEntry MutHardwareBind "hardware.bind" (HighRisk HardwareBind);
    MkInventoryEntry ServiceInstall "service.install" ServiceManager;
    MkInventoryEntry ServiceStart "service.start" ServiceManager;
    MkInventoryEntry ServiceStop "service.stop" ServiceManager;
    MkInventoryEntry ServiceRestart "service.restart" ServiceManager;
    MkInventoryEntry ServiceUninstall "service.uninstall" ServiceManager;
    MkInventoryEntry MemoryMaintenance "memory.maintenance" MemoryPolicy ].

Definition stable_name (operation : MutationOperation) : string :=
  match List.find (fun e => bool_decide (inv_operation e = operation)) MUTATION_INVENTORY with
  | Some e => inv_stable_name e
  | None => "unknown"
  end.

Record MutationDecision := MkMutationDecision {
  md_operation : MutationOperation;
  md_allowed : bool;
  md_reason : string;
  md_audit : list string
}.

Definition registered (operation : MutationOperation) (gate : MutationGate) : bool :=
  existsb (fun e => bool_decide (inv_operation e = operation) && bool_decide (inv_gate e = gate))
    MUTATION_INVENTORY.

Definition mutation_audit (operation : MutationOperation) (allowed : bool) : list string :=
  ["mutation.policy:" +:+ stable_name operation +:+ ":" +:+ if allowed then "allow" else "deny"].

Definition authenticated_daemon (operation : MutationOperation) (authenticated : bool) :
    MutationDecision :=
  let allowed := authenticated && registered operation AuthenticatedDaemon in
  MkMutationDecision operation allowed
    (if allowed then "authenticated daemon mutation gate allowed"
     else "daemon mutation requires authenticated active lease ownership")
    (mutation_audit operation allowed).

Definition service_manager (operation : MutationOperation) (configured adapter_allowed : bool) :
    MutationDecision :=
  let registered := registered operation ServiceManager in
  let allowed := registered && configured && adapter_allowed in
  MkMutationDecision operation allowed
    (if negb registered then "service mutation is not registered in the mutation inventory"
     else if negb configured then "service manager configuration is disabled"
     else if negb adapter_allowed then "service manager adapter is not allowed for this host or mode"
     else "service manager mutation gate allowed")
    (mutation_audit operation allowed).

Definition ensure_mutation_allowed (d : MutationDecision) : Res unit :=
  if md_allowed d then Ok tt
  else Err (permission_denied "mutation policy denied operation"
              ⊕ ("operation", stable_name (md_operation d)) ⊕ ("reason", md_reason d)).

(** ** What the gate promises *)

(** A value that is absent, or on a list that is empty (no restriction) or has it. *)
Definition listed {T} `{Countable T} (value : option T) (allowed : gset T) : Prop :=
  allowed = ∅ ∨ ∀ v, value = Some v → v ∈ allowed.
Definition unlisted {T} `{Countable T} (value : option T) (denied : gset T) : Prop :=
  ∀ v, value = Some v → v ∉ denied.
Definition within (timeout limit : option N) : Prop :=
  ∀ t l, timeout = Some t → limit = Some l → (t ≤ l)%N.

Definition bind_permitted (hw : HardwarePolicyDomain) (r : RuntimePolicyRequest) : Prop :=
  hw_enabled hw = true ∧ listed (pr_bus r) (hw_allowed_buses hw)
  ∧ unlisted (pr_capability r) (hw_denied_capabilities hw)
  ∧ within (pr_timeout_ms r) (hw_max_timeout_ms hw).

(** When the domains permit a request, action by action. *)
Definition permitted (d : PolicyDomainSet) (r : RuntimePolicyRequest) : Prop :=
  let tool_of name tool :=
    mcp_enabled (dom_mcp_server d) = true ∧ mcp_tools (dom_mcp_server d) !! name = Some tool
    ∧ tool_enabled tool = true in
  match pr_action r with
  | AdapterInvoke =>
      unlisted (pr_capability r) (ad_deny_capabilities (dom_adapter d))
      ∧ within (pr_timeout_ms r) (ps_max_timeout_ms (ad_defaults (dom_adapter d)))
  | ProviderCredentialSession => ∃ a, pr_adapter r = Some a ∧ pr_provider r = Some a
  | SkillRun => ∃ g, pr_tool r = Some g ∧ g ∈ sk_allowed_runtime_gates (ad_skill (dom_adapter d))
  | McpToolCall => ∃ name tool, pr_tool r = Some name ∧ tool_of name tool
      ∧ listed (pr_agent r) (tool_allowed_agents tool)
      ∧ listed (pr_capability r) (tool_allowed_capabilities tool)
      ∧ listed (pr_provider r) (tool_allowed_providers tool)
      ∧ within (pr_timeout_ms r) (tool_timeout_ms tool)
  | McpTopicEmit => ∃ tool topic pattern, tool_of "topic.emit" tool ∧ pr_topic r = Some topic
      ∧ pattern ∈ tool_allowed_topics tool ∧ matches pattern topic = true
  | HardwareBind => bind_permitted (dom_hardware d) r
  | HardwareRawIo => hw_allow_raw_io (dom_hardware d) = true ∧ bind_permitted (dom_hardware d) r
  | a => a ∈ dom_allow_high_risk_actions d
  end.

Lemma over_limit_spec timeout limit : over_limit timeout limit = false ↔ within timeout limit.
Proof.
  unfold over_limit, within. destruct timeout as [t|], limit as [l|]; rewrite ?N.ltb_ge; naive_solver.
Qed.
Lemma not_listed_spec {T} `{Countable T} (value : option T) allowed :
  not_listed value allowed = None ↔ listed value allowed.
Proof.
  unfold not_listed, listed. destruct value as [v|]; [|naive_solver].
  repeat case_bool_decide; cbn; naive_solver.
Qed.
Lemma on_list_spec {T} `{Countable T} (value : option T) denied :
  on_list value denied = None ↔ unlisted value denied.
Proof.
  unfold on_list, unlisted. destruct value as [v|]; [|naive_solver]. case_bool_decide; naive_solver.
Qed.

Ltac gate_cases :=
  repeat match goal with
  | |- context [over_limit ?t ?l] =>
      let H := fresh in pose proof (over_limit_spec t l) as H; destruct (over_limit t l)
  | |- context [not_listed ?v ?s] =>
      let H := fresh in pose proof (not_listed_spec v s) as H; destruct (not_listed v s)
  | |- context [on_list ?v ?s] =>
      let H := fresh in pose proof (on_list_spec v s) as H; destruct (on_list v s)
  end; cbn.

Lemma bind_permitted_spec d r :
  dec_allowed (decide_hardware_bind d r) = true ↔ bind_permitted (dom_hardware d) r.
Proof.
  unfold decide_hardware_bind, bind_permitted.
  destruct (hw_enabled _); cbn; [|naive_solver]. gate_cases; naive_solver.
Qed.

Lemma raw_io_spec d r :
  dec_allowed (decide_hardware_raw_io d r) = true ↔
    hw_allow_raw_io (dom_hardware d) = true ∧ bind_permitted (dom_hardware d) r.
Proof.
  rewrite <- bind_permitted_spec. unfold decide_hardware_raw_io, decide_hardware_bind.
  destruct (hw_enabled (dom_hardware d)); cbn; [|naive_solver].
  destruct (hw_allow_raw_io _); naive_solver.
Qed.

Lemma adapter_permitted_spec d r :
  dec_allowed (decide_adapter_invoke d r) = true ↔
    unlisted (pr_capability r) (ad_deny_capabilities (dom_adapter d))
    ∧ within (pr_timeout_ms r) (ps_max_timeout_ms (ad_defaults (dom_adapter d))).
Proof. unfold decide_adapter_invoke. gate_cases; naive_solver. Qed.

Lemma topic_emit_spec d r :
  dec_allowed (decide_mcp_topic_emit d r) = true ↔
    permitted d (r <| pr_action := McpTopicEmit |>).
Proof.
  unfold decide_mcp_topic_emit, permitted; cbn.
  destruct (mcp_tools _ !! _) as [tool|]; [|naive_solver].
  destruct (mcp_enabled _); cbn; [|naive_solver].
  destruct (tool_enabled tool) eqn:Ht; cbn; [|naive_solver].
  destruct (pr_topic r) as [topic|]; cbn; [|naive_solver].
  destruct (existsb _ _) eqn:Hx; cbn; split; try done.
  - intros _. apply existsb_exists in Hx as (p & Hp%list_elem_of_In & Hm). naive_solver.
  - intros (tool' & topic' & p & (_ & [= <-] & _) & [= <-] & Hp & Hm).
    rewrite <- Hx. apply existsb_exists. exists p. by rewrite <- list_elem_of_In.
Qed.

Lemma tool_call_spec d r :
  dec_allowed (decide_mcp_tool_call d r) = true ↔
    permitted d (r <| pr_action := McpToolCall |>).
Proof.
  unfold decide_mcp_tool_call, permitted; cbn.
  destruct (pr_tool r) as [name|]; [|naive_solver].
  destruct (mcp_tools _ !! name) as [tool|] eqn:Hl; [|naive_solver].
  destruct (mcp_enabled _); cbn; [|naive_solver].
  destruct (tool_enabled tool) eqn:Ht; cbn; [|naive_solver].
  gate_cases; naive_solver.
Qed.

Lemma decision_action d r : dec_action (gate_decide d r) = pr_action r.
Proof.
  unfold gate_decide, decide_mcp_tool_call, decide_mcp_topic_emit, decide_hardware_raw_io,
    decide_hardware_bind, decide_adapter_invoke, decide_provider_credential_session,
    decide_skill_run, decide_explicit_runtime_action.
  destruct (pr_action r) eqn:Ha; repeat case_match; cbn; congruence.
Qed.

Lemma permitted_same_action d r : permitted d (r <| pr_action := pr_action r |>) ↔ permitted d r.
Proof. by destruct r. Qed.

Lemma gate_decide_permitted d r : dec_allowed (gate_decide d r) = true ↔ permitted d r.
Proof.
  rewrite <- permitted_same_action. unfold gate_decide.
  destruct (pr_action r) eqn:Ha;
    [apply adapter_permitted_spec | | apply tool_call_spec | apply topic_emit_spec | |
     apply bind_permitted_spec | apply raw_io_spec | | | | |].
  { unfold decide_provider_credential_session, permitted; cbn.
    destruct (pr_adapter r), (pr_provider r); try case_bool_decide; naive_solver. }
  { unfold decide_skill_run, permitted; cbn.
    destruct (pr_tool r); try case_bool_decide; naive_solver. }
  all: unfold decide_explicit_runtime_action, permitted; cbn; rewrite Ha; case_bool_decide; naive_solver.
Qed.

Lemma decision_Ok dec : ensure_decision_allowed dec = Ok tt ↔ dec_allowed dec = true.
Proof. unfold ensure_decision_allowed. destruct (dec_allowed dec); naive_solver. Qed.

Lemma default_permitted r :
  permitted domains_default r ↔
    pr_action r = AdapterInvoke
    ∨ pr_action r = SkillRun ∧ pr_tool r = Some "normal"
    ∨ pr_action r = ProviderCredentialSession ∧ ∃ a, pr_adapter r = Some a ∧ pr_provider r = Some a.
Proof.
  unfold permitted, bind_permitted, unlisted, within.
  destruct (pr_action r); cbn; try set_solver; naive_solver set_solver.
Qed.

(** The policy gate decides every request exactly as its domains say: it
    allows a request when, and only when, the declarative rule of that action
    holds; the decision it returns is about the requested action, and passing
    it on ([ensure_allowed]) fails with a permission error in all other
    cases.  Under the built-in default domains nothing is allowed except
    adapter invocations, skill runs behind the "normal" gate and credential
    sessions of an adapter with itself. *)
Theorem gate_decides_exactly d r :
  dec_action (gate_decide d r) = pr_action r
  ∧ (ensure_decision_allowed (gate_decide d r) = Ok tt ↔ permitted d r)
  ∧ (¬ permitted d r → ∃ e, ensure_decision_allowed (gate_decide d r) = Err e
                            ∧ err_kind e = PermissionDenied)
  ∧ (ensure_decision_allowed (gate_decide domains_default r) = Ok tt ↔
     pr_action r = AdapterInvoke
     ∨ pr_action r = SkillRun ∧ pr_tool r = Some "normal"
     ∨ pr_action r = ProviderCredentialSession ∧ ∃ a, pr_adapter r = Some a ∧ pr_provider r = Some a).
Proof.
  pose proof (decision_action d r) as Ha.
  split; [done|]. rewrite !decision_Ok, !gate_decide_permitted, default_permitted.
  split; [done|]. split; [|done]. rewrite <- gate_decide_permitted. intros Hn.
  unfold ensure_decision_allowed. destruct (dec_allowed _); [done|]. eauto.
Qed.

(** The inventory names every operation once and puts it behind one gate, so
    daemon authentication and the service manager never stand in for each
    other or for a high-risk decision. *)
Lemma mutation_gates_exclusive op :
  (∃ e, List.filter (fun e => bool_decide (inv_operation e = op)) MUTATION_INVENTORY = [e]
        ∧ (∀ auth, md_allowed (authenticated_daemon op auth) = true ↔
                   auth = true ∧ inv_gate e = AuthenticatedDaemon)
        ∧ (∀ conf ok, md_allowed (service_manager op conf ok) = true ↔
                      conf = true ∧ ok = true ∧ inv_gate e = ServiceManager))
  ∧ ∀ op', stable_name op = stable_name op' → op = op'.
Proof.
  split; [|by destruct op, op'].
  destruct op; eexists; (split; [reflexivity|]); split;
    unfold authenticated_daemon, service_manager; cbn; intros [|]; try intros [|]; naive_solver.
Qed.
