(* ===== verification/ProviderRuntime.v ===== *)
(** * Supervised invocations (crates/eva-adapter/src/restart.rs, runtime.rs, supervisor.rs)

    The restart controller and the loop of [invoke_supervised]: acquire a
    slot, dispatch the transport, complete the slot, and restart within the
    budget of the manifest; and the credential scope of the slot.  The
    transports and the operating system's processes are met through what a
    dispatch answers. *)

From Stdlib Require Import Ascii ZArith.
From stdpp Require Import base numbers strings gmap list.
From S2P Require Import Prelude RustStr Error Ids Digest Durable Topic Policy PolicyGate ProviderProcess ProviderAdmission.
From S2P Require Import ProviderSupervisor.

(** ** Restart decisions (restart.rs) *)

Definition DEFAULT_STABLE_RUN_WINDOW_MS : N := 30000.
Definition MAX_RESTART_BACKOFF_MS : N := 86400000.

Inductive RestartOutcome := StableSuccess | Failure.

Inductive RestartDecision :=
| NoRestart
| Restart (attempt delay_ms : N)
| BudgetExhausted.

Definition wrapping_mul_u64 (a b : N) : N := (a * b) mod (u64_max + 1).
Definition saturating_mul (max a b : N) : N := N.min max (a * b).

(** FNV-1a over the bytes. *)
Fixpoint fnv1a64_from (hash : N) (bytes : string) : N :=
  match bytes with
  | EmptyString => hash
  | String byte bytes => fnv1a64_from (wrapping_mul_u64 (N.lxor hash (byte_of byte)) 1099511628211) bytes
  end.
Definition fnv1a64 (bytes : string) : N := fnv1a64_from 14695981039346656037 bytes.

(** The capped exponential delay of an attempt, and the delay with its jitter. *)
Definition capped_backoff (backoff_ms attempt : N) : N :=
  let exponent := N.min (attempt - 1) 63 in
  N.min (saturating_mul u64_max backoff_ms (N.shiftl 1 exponent)) MAX_RESTART_BACKOFF_MS.

Definition jittered_delay (capped hash : N) : N :=
  let jitter_window := N.max (capped / 4) 1 in
  let span := saturating_add u64_max (saturating_mul u64_max jitter_window 2) 1 in
  let jitter := (Z.of_N (hash mod span) - Z.of_N jitter_window)%Z in
  Z.to_N (Z.min (Z.max (Z.of_N capped + jitter) 0) (Z.of_N MAX_RESTART_BACKOFF_MS)).

Definition decide_restart (config : ProviderRestartConfig) (consumed_attempts : N) (outcome : RestartOutcome)
    (seed : string) : RestartDecision :=
  match outcome with
  | StableSuccess => NoRestart
  | Failure =>
      match rc_mode config with
      | RestartNone => NoRestart
      | RestartOnFailure | RestartAlways =>
          if (rc_max_attempts config <=? consumed_attempts)%N then BudgetExhausted
          else
            let attempt := saturating_add u32_max consumed_attempts 1 in
            Restart attempt (jittered_delay (capped_backoff (rc_backoff_ms config) attempt)
                               (fnv1a64 (seed +:+ ":" +:+ n_to_string attempt)))
      end
  end.

Definition due_at_ms (now delay : N) : N := saturating_add u128_max now delay.

(** ** Credential scopes (supervisor.rs) *)

Record ProviderCredentialScope := MkCredentialScope {
  sc_session_id : string;
  sc_adapter_id : AdapterId;
  sc_request_id : RequestId;
  sc_capability : CapabilityName;
  sc_token_digest : string
}.

(** [format!("{:016x}", n)] of a [u64]: its eight bytes. *)
Definition hex16 (n : N) : string := hex_encode (to_be_bytes n).

Definition credential_token_digest (session : string) (adapter : AdapterId) (request : RequestId)
    (capability : CapabilityName) : string :=
  "fnv64:" +:+ hex16 (fnv1a64 (session +:+ "|" +:+ id_str adapter +:+ "|" +:+ id_str request +:+ "|"
                                 +:+ cap_name capability)).

Definition scope_from_slot (slot : ProviderExecutionSlot) (capability : CapabilityName) : ProviderCredentialScope :=
  {| sc_session_id := sl_session_id slot; sc_adapter_id := sl_adapter_id slot;
     sc_request_id := sl_request_id slot; sc_capability := capability;
     sc_token_digest := credential_token_digest (sl_session_id slot) (sl_adapter_id slot) (sl_request_id slot) capability |}.

Definition scope_ensure_matches (scope : ProviderCredentialScope) (adapter : AdapterId) (request : RequestId)
    (capability : CapabilityName) : Res unit :=
  reject negb (bool_decide (sc_adapter_id scope = adapter)) with
    permission_denied "provider credential session cannot be reused across providers"
      ⊕ ("session_id", sc_session_id scope) ⊕ ("session_provider", id_str (sc_adapter_id scope))
      ⊕ ("requested_provider", id_str adapter) else
  reject negb (bool_decide (sc_request_id scope = request)) || negb (bool_decide (sc_capability scope = capability)) with
    permission_denied "provider credential session cannot be reused across requests"
      ⊕ ("session_id", sc_session_id scope) ⊕ ("session_request", id_str (sc_request_id scope))
      ⊕ ("requested_request", id_str request) else
  Ok tt.

Definition validate_credential_scope (scope : option ProviderCredentialScope) (adapter : AdapterId)
    (request : RequestId) (capability : CapabilityName) (required : bool) : Res (option ProviderCredentialScope) :=
  match scope with
  | Some scope => scope_ensure_matches scope adapter request capability >>? Ok (Some scope)
  | None =>
      if required then Err (permission_denied "provider credential session scope is required"
                              ⊕ ("adapter_id", id_str adapter) ⊕ ("request_id", id_str request))
      else Ok None
  end.

Definition SESSION_TOKEN_PREFIX : string := "eva-provider-session:".

Definition session_token (scope : ProviderCredentialScope) : string :=
  SESSION_TOKEN_PREFIX +:+ sc_session_id scope +:+ ":" +:+ sc_token_digest scope.

(** The text before the first occurrence of [p], and the text from it on. *)
Fixpoint find_str (p s : string) : option (string * string) :=
  if starts_with p s then Some ("", s)
  else match s with
       | EmptyString => None
       | String c r => match find_str p r with Some (a, b) => Some (String c a, b) | None => None end
       end.

(** What ends a token: a blank, a quote, a backslash or an angle bracket. *)
Definition ends_token (ch : string) : bool :=
  is_whitespace ch || bool_decide (ch ∈ [str dquote; "'"; str backslash; "<"; ">"]).

(** The rest of the text after the token that it starts with: from the first
    ending character after its first one. *)
Definition after_token (text : string) : string :=
  match chars text with
  | [] => ""
  | _ :: rest => str_concat (drop_while (fun ch => negb (ends_token ch)) rest)
  end.

(** The loop of [redact_provider_session_tokens]. *)
Fixpoint redact_tokens (fuel : nat) (redacted : string) : string :=
  match fuel with
  | O => redacted
  | S fuel =>
      match find_str SESSION_TOKEN_PREFIX redacted with
      | None => redacted
      | Some (before, token) => redact_tokens fuel (before +:+ "[REDACTED]" +:+ after_token token)
      end
  end.
Definition redact_provider_session_tokens (value : string) : string :=
  redact_tokens (S (String.length value)) value.

(** ** One invocation (runtime.rs) *)

(** [AdapterInvokeReport], for the fields the runtime looks at. *)
Record AdapterInvokeReport := MkInvokeReport {
  ir_status : string;
  ir_output : string;
  ir_audit : list string
}.

Definition extend_report (entries : list string) (r : AdapterInvokeReport) : AdapterInvokeReport :=
  MkInvokeReport (ir_status r) (ir_output r) (ir_audit r ++ entries).

Definition supervisor_audit (p : ProviderProcessSnapshot) : list string :=
  ["provider.session:" +:+ pp_session_id p; "provider.process:" +:+ pp_provider_process_id p;
   "provider.manifest_digest:" +:+ pp_manifest_digest p; "provider.health:" +:+ pp_health p;
   "provider.restart.attempts:" +:+ n_to_string (pp_restart_attempts p);
   "provider.restart.max_attempts:" +:+ n_to_string (pp_restart_max_attempts p);
   "provider.restart.state:" +:+ pp_restart_state p; "provider.slot:released"].

Definition report_status_restart_eligible (status : string) : bool :=
  bool_decide (status ∈ ["failed"; "timeout"]).

(** What one dispatch of the transport does: the process it spawns and has
    registered, if it spawns one, and its result, which can depend on the
    registration's; what the renewal thread reports when it is stopped; and
    the readings of the clock in the order they are taken. *)
Record Dispatch := MkDispatch {
  dp_spawn : option ProcessIdentity;
  dp_result : Res unit -> Res AdapterInvokeReport;
  dp_renewal : Res unit;
  dp_registered : N;
  dp_released : N;
  dp_opened : N;
  dp_decided : N;
  dp_pending : N;
  dp_prepared : N
}.

Inductive ProviderRestartStep :=
| StepRetry (delay_ms : N) (snapshot : ProviderProcessSnapshot)
| StepTerminal (snapshot : ProviderProcessSnapshot).

Section Invocation.
Context {T A : Type} `{!ProviderProcessTable T, !ProviderAdmissionTable A}.
Abbreviation M := (Run (ProviderSupervisor T A)).

Definition restart_after_failure (config : ProviderRestartConfig) (slot : ProviderExecutionSlot)
    (p : ProviderProcessSnapshot) (reason : string) (eligible : bool) (d : Dispatch) : M ProviderRestartStep :=
  if negb eligible then
    do? failed := fail_restart slot reason (dp_pending d) in run_ret (StepTerminal failed)
  else
    match decide_restart config (pp_restart_attempts p) Failure (sl_session_id slot) with
    | NoRestart => run_ret (StepTerminal p)
    | BudgetExhausted =>
        do? exhausted := exhaust_restart slot reason (dp_pending d) in run_ret (StepTerminal exhausted)
    | Restart attempt delay_ms =>
        do? pending := schedule_restart slot attempt (due_at_ms (dp_decided d) delay_ms) reason (dp_pending d) in
        run_ret (StepRetry delay_ms pending)
    end.

(** [admission_lease]: whether there is a lease to renew. *)
Definition admission_lease (slot : ProviderExecutionSlot) : M bool :=
  fun s => match sv_admission s with
           | None => (Ok false, s)
           | Some _ => match sl_admission_reservation_id slot with
                       | Some _ => (Ok true, s)
                       | None => (Err lacks_admission, s)
                       end
           end.

(** The transport's dispatch with the registering spawner, and the end of the
    renewal. *)
Definition dispatch_transport (slot : ProviderExecutionSlot) (d : Dispatch) : M (Res AdapterInvokeReport) :=
  do? leased := admission_lease slot in
  do? registration :=
    match dp_spawn d with
    | None => run_ret (Ok tt)
    | Some identity =>
        do? r := run_try (register_process_identity slot identity (dp_registered d)) in
        run_ret (match r with
                 | Ok _ => Ok tt
                 | Err error => Err (error ⊕ ("session_id", sl_session_id slot) ⊕ ("pid", n_to_string (pi_pid identity)))
                 end)
    end in
  let result := dp_result d registration in
  run_ret (match (leased : bool), dp_renewal d with true, Err error => Err error | _, _ => result end).

(** One turn of the loop: the invocation's result, or another turn. *)
Definition invoke_turn (config : ProviderRestartConfig) (slot : ProviderExecutionSlot) (policy_audit : list string)
    (d : Dispatch) : M (option (Res AdapterInvokeReport)) :=
  do? result := dispatch_transport slot d in
  match result with
  | Ok report =>
      do? completed := complete slot (outcome_completed (ir_status report)) (dp_released d) (dp_opened d) in
      if String.eqb (ir_status report) "completed" then
        run_ret (Some (Ok (extend_report (policy_audit ++ supervisor_audit completed) report)))
      else
        do? step := restart_after_failure config slot completed ("adapter returned status " +:+ ir_status report)
                      (report_status_restart_eligible (ir_status report)) d in
        match step with
        | StepRetry _ _ => prepare_restart slot (dp_prepared d) >>! run_ret None
        | StepTerminal p => run_ret (Some (Ok (extend_report (policy_audit ++ supervisor_audit p) report)))
        end
  | Err error =>
      do? completed := complete slot (outcome_failed error) (dp_released d) (dp_opened d) in
      do? step := restart_after_failure config slot completed (err_message error) (err_retryable error) d in
      match step with
      | StepRetry _ _ => prepare_restart slot (dp_prepared d) >>! run_ret None
      | StepTerminal p =>
          run_ret (Some (Err (error ⊕ ("restart_attempts", n_to_string (pp_restart_attempts p))
                                ⊕ ("restart_max_attempts", n_to_string (pp_restart_max_attempts p))
                                ⊕ ("restart_state", pp_restart_state p))))
      end
  end.

(** The loop.  [None] is a loop that has not ended after [fuel] dispatches. *)
Fixpoint invoke_loop (fuel : nat) (i : nat) (config : ProviderRestartConfig) (slot : ProviderExecutionSlot)
    (policy_audit : list string) (dispatches : nat -> Dispatch) (s : ProviderSupervisor T A) :
    option (Res AdapterInvokeReport) * nat * ProviderSupervisor T A :=
  match fuel with
  | O => (None, i, s)
  | S fuel =>
      match invoke_turn config slot policy_audit (dispatches i) s with
      | (Ok None, s) => invoke_loop fuel (S i) config slot policy_audit dispatches s
      | (Ok (Some result), s) => (Some result, S i, s)
      | (Err error, s) => (Some (Err error), S i, s)
      end
  end.

(** [invoke_supervised] with its policy gate; the number is that of the
    dispatches. *)
Definition invoke_supervised (domains : PolicyDomainSet) (request : ProviderExecutionRequest)
    (clock : string -> N) (now started released opened : N) (dispatches : nat -> Dispatch) (fuel : nat)
    (s : ProviderSupervisor T A) : option (Res AdapterInvokeReport) * nat * ProviderSupervisor T A :=
  match acquire request clock now started s with
  | (Err error, s) => (Some (Err error), 0, s)
  | (Ok slot, s) =>
      let decision := gate_decide domains
        ((policy_request_new ProviderCredentialSession)
           <| pr_adapter := Some (rq_adapter_id request) |> <| pr_provider := Some (sl_adapter_id slot) |>
           <| pr_capability := Some (rq_capability request) |>) in
      if negb (dec_allowed decision) then
        match complete slot (MkOutcome "failed" (Some (dec_reason decision))) released opened s with
        | (Err error, s) => (Some (Err error), 0, s)
        | (Ok _, s) => (Some (ensure_decision_allowed decision >>? Err (internal "denied decision")), 0, s)
        end
      else invoke_loop fuel 0 (pc_restart (rq_provider request)) slot (dec_audit decision) dispatches s
  end.
End Invocation.

(** ** The restart budget *)

Lemma decide_restart_spec config consumed seed attempt delay_ms :
  decide_restart config consumed Failure seed = Restart attempt delay_ms ->
  (rc_max_attempts config <= u32_max)%N ->
  rc_mode config <> RestartNone /\ attempt = (consumed + 1)%N /\ (attempt <= rc_max_attempts config)%N /\
  (delay_ms <= MAX_RESTART_BACKOFF_MS)%N.
Proof.
  unfold decide_restart. intros H Hmax.
  destruct (rc_mode config) eqn:Em; [done| |]; destruct (rc_max_attempts config <=? consumed)%N eqn:E; try done;
    apply N.leb_gt in E; injection H as <- <-; unfold saturating_add; split_and!; try done; try lia;
    unfold jittered_delay; lia.
Qed.

Section Budget.
Context {T A : Type} `{!ProviderProcessTable T, !ProviderAdmissionTable A, !ProviderTableLaws T}.
Abbreviation S' := (ProviderSupervisor T A).
Context (config : ProviderRestartConfig) (slot : ProviderExecutionSlot) (policy_audit : list string).
Hypothesis max_fits : (rc_max_attempts config <= u32_max)%N.

Lemma keeps_attempts_lease k : keeps (attempts_are slot k) (admission_lease (T := T) (A := A) slot).
Proof. intros s r s' H. unfold admission_lease. repeat case_match; by intros [= _ <-]. Qed.

Lemma keeps_attempts_register identity now k :
  keeps (attempts_are slot k) (register_process_identity (T := T) (A := A) slot identity now).
Proof.
  apply unless_draining_keeps. intros s r s' H. apply update_slot_attempts; [|done].
  intros p p' E. by apply registered_process_Ok in E as (_ & ? & _).
Qed.

Lemma keeps_attempts_dispatch d k : keeps (attempts_are slot k) (dispatch_transport (T := T) (A := A) slot d).
Proof.
  unfold dispatch_transport. apply keeps_bind; [apply keeps_attempts_lease|]. intros leased.
  apply keeps_bind; [|intros; apply keeps_ret]. destruct (dp_spawn d) as [identity|]; [|apply keeps_ret].
  apply keeps_bind; [|intros; apply keeps_ret]. apply keeps_try, keeps_attempts_register.
Qed.

Lemma supervisor_ok_dispatch d : keeps supervisor_ok (dispatch_transport (T := T) (A := A) slot d).
Proof.
  unfold dispatch_transport. keeps_solve.
  intros s r s' H. unfold admission_lease. repeat case_match; by intros [= _ <-].
Qed.

(** A failed completion keeps the restarts its slot has consumed. *)
Lemma complete_failed_attempts outcome released opened (s : S') c s' :
  supervisor_ok s -> is_some (oc_last_error outcome) = true ->
  complete slot outcome released opened s = (Ok c, s') ->
  supervisor_ok s' /\ attempts_are slot (pp_restart_attempts c) s' /\
  (forall k, attempts_are slot k s -> pp_restart_attempts c = k).
Proof.
  intros Hok Herr H. pose proof (keeps_complete _ _ _ _ _ _ _ Hok H) as Hok'.
  apply complete_Ok in H as (p & p1 & p2 & Hr & _ & H1 & H2 & Hk & _ & _ & _ & Hread); [|done].
  apply release_process_Ok in H1 as (Hs & Hk1 & _ & _ & He & _). rewrite He in H2.
  destruct (oc_last_error outcome); [|done]. cbn in H2. injection H2 as <-.
  assert (Hsid : pp_session_id p1 = sl_session_id slot)
    by (rewrite (proj1 Hs); eapply read_session_id; [exact Hok|exact Hr]).
  split_and!; [done|split; [done|]; exists c; rewrite <- Hsid; done|].
  intros k [_ (q & Hq & <-)]. rewrite Hr in Hq. injection Hq as <-. congruence.
Qed.

(** A restart that is scheduled has consumed one more attempt of the budget. *)
Lemma restart_retry p reason eligible d (s : S') delay q s' :
  supervisor_ok s -> restart_after_failure config slot p reason eligible d s = (Ok (StepRetry delay q), s') ->
  (pp_restart_attempts p < rc_max_attempts config)%N /\ (delay <= MAX_RESTART_BACKOFF_MS)%N /\
  attempts_are slot (pp_restart_attempts p + 1) s'.
Proof.
  intros Hok H. unfold restart_after_failure in H. destruct (negb eligible).
  { by apply run_bind_Ok in H as (? & ? & _ & ?). }
  destruct (decide_restart _ _ _ _) as [|attempt delay_ms|] eqn:Ed; [done| |by apply run_bind_Ok in H as (? & ? & _ & ?)].
  apply decide_restart_spec in Ed as (_ & -> & Hm & Hd); [|done].
  apply run_bind_Ok in H as (q' & s1 & H & [= <- <- <-]). split_and!; [lia|done|].
  unfold schedule_restart, unless_draining in H. apply run_bind_Ok in H as (draining & s2 & [= <- <-] & H).
  destruct (sv_draining s); [by apply run_lift_Ok in H as [? _]|].
  pose proof (keeps_update_slot _ _ _ _ _ Hok H) as Hok'.
  apply update_slot_Ok in H as (p0 & p1 & Hr & Hsid & _ & Hp & Hc & Hread & _); [|done].
  apply mark_restart_pending_Ok in Hp as ((Hs1 & _) & Hk & _). split; [done|]. exists q'. split; [congruence|].
  by rewrite (committed_attempts _ _ Hc).
Qed.

Lemma prepare_attempts now k : keeps (attempts_are slot k) (prepare_restart (T := T) (A := A) slot now).
Proof.
  apply unless_draining_keeps. intros s r s' H. apply update_slot_attempts; [|done].
  intros p p' E. by apply prepare_for_restart_Ok in E as (_ & ? & _).
Qed.

(** Another turn of the loop means one more restart, within the budget. *)
Lemma invoke_turn_again d (s s' : S') :
  supervisor_ok s -> invoke_turn config slot policy_audit d s = (Ok None, s') ->
  exists k, attempts_are slot k s' /\ (0 < k <= rc_max_attempts config)%N /\
    forall k0, attempts_are slot k0 s -> k = (k0 + 1)%N.
Proof.
  intros Hok H. unfold invoke_turn in H. apply run_bind_Ok in H as (result & s1 & Hd & H).
  pose proof (supervisor_ok_dispatch d _ _ _ Hok Hd) as Hok1.
  assert (Hstep : forall outcome reason eligible s2 c step,
    is_some (oc_last_error outcome) = true ->
    complete slot outcome (dp_released d) (dp_opened d) s1 = (Ok c, s2) ->
    forall s3, restart_after_failure config slot c reason eligible d s2 = (Ok step, s3) ->
    match step with
    | StepRetry _ _ => (prepare_restart slot (dp_prepared d) >>! run_ret None) s3 = (Ok (@None (Res AdapterInvokeReport)), s')
    | StepTerminal _ => False end ->
    exists k, attempts_are slot k s' /\ (0 < k <= rc_max_attempts config)%N /\
      forall k0, attempts_are slot k0 s -> k = (k0 + 1)%N).
  { intros outcome reason eligible s2 c step Herr Hc s3 Hr Hp.
    apply complete_failed_attempts in Hc as (Hok2 & _ & Hk); [|done..].
    destruct step as [delay q|]; [|done].
    apply restart_retry in Hr as (Hlt & _ & Ha); [|done].
    apply run_bind_Ok in Hp as (q' & s4 & Hp & [= <-]). exists (pp_restart_attempts c + 1)%N.
    split_and!; [by eapply prepare_attempts|lia|lia|]. intros k0 Hk0.
    rewrite (Hk k0); [done|]. by eapply keeps_attempts_dispatch. }
  destruct result as [report|error].
  - apply run_bind_Ok in H as (c & s2 & Hc & H). destruct (String.eqb (ir_status report) "completed") eqn:Es; [done|].
    apply run_bind_Ok in H as (step & s3 & Hr & H). eapply Hstep; [|exact Hc|exact Hr|destruct step; done].
    unfold outcome_completed. by rewrite Es.
  - apply run_bind_Ok in H as (c & s2 & Hc & H). apply run_bind_Ok in H as (step & s3 & Hr & H).
    eapply Hstep; [|exact Hc|exact Hr|destruct step; done]. done.
Qed.

(** With more fuel than the budget that is left, the loop ends within it. *)
Lemma invoke_loop_ends dispatches left : forall fuel i k (s : S'),
  attempts_are slot k s -> (rc_max_attempts config <= k + N.of_nat left)%N -> left < fuel ->
  exists result n s', invoke_loop fuel i config slot policy_audit dispatches s = (Some result, n, s') /\ n <= i + S left.
Proof.
  induction left as [|left IH]; intros [|fuel] i k s Ha Hk Hf; try lia; cbn [invoke_loop];
    destruct (invoke_turn config slot policy_audit (dispatches i) s) as [[[result|]|error] s'] eqn:E;
    try (eexists _, _, _; split; [reflexivity|lia]);
    apply invoke_turn_again in E as (k' & Ha' & Hk' & Hnext); try apply Ha; specialize (Hnext _ Ha); [lia|].
  destruct (IH fuel (S i) k' s' Ha') as (result & n & s'' & Hl & Hn); [lia..|].
  exists result, n, s''. split; [exact Hl|lia].
Qed.

(** From any state: the first turn may be the only one. *)
Lemma invoke_loop_total dispatches (s : S') fuel :
  supervisor_ok s -> N.to_nat (rc_max_attempts config) < fuel ->
  exists result n s', invoke_loop fuel 0 config slot policy_audit dispatches s = (Some result, n, s') /\
    n <= S (N.to_nat (rc_max_attempts config)).
Proof.
  intros Hok Hf. destruct fuel as [|fuel]; [lia|]. cbn [invoke_loop].
  destruct (invoke_turn config slot policy_audit (dispatches 0) s) as [[[result|]|error] s'] eqn:E;
    try (eexists _, _, _; split; [reflexivity|lia]).
  apply invoke_turn_again in E as (k & Ha & Hk & _); [|done].
  destruct (invoke_loop_ends dispatches (N.to_nat (rc_max_attempts config) - N.to_nat k) fuel 1 k s' Ha)
    as (result & n & s'' & Hl & Hn); [lia..|].
  exists result, n, s''. split; [exact Hl|lia].
Qed.
End Budget.

(** C14: An invocation ends: whatever the transport does in each dispatch and
    whatever the tables answer, the loop of a supervised invocation returns
    after at most one dispatch more than the restarts its manifest allows. *)
Theorem invocation_within_budget {T A} `{!ProviderProcessTable T, !ProviderAdmissionTable A, !ProviderTableLaws T}
    domains request clock now started released opened dispatches fuel (s : ProviderSupervisor T A) :
  supervisor_ok s -> (rc_max_attempts (pc_restart (rq_provider request)) <= u32_max)%N ->
  N.to_nat (rc_max_attempts (pc_restart (rq_provider request))) < fuel ->
  exists result n s',
    invoke_supervised domains request clock now started released opened dispatches fuel s = (Some result, n, s') /\
    n <= S (N.to_nat (rc_max_attempts (pc_restart (rq_provider request)))).
Proof.
  intros Hok Hmax Hf. unfold invoke_supervised.
  destruct (acquire request clock now started s) as [[slot|error] s1] eqn:Ea;
    [|eexists _, _, _; split; [reflexivity|lia]].
  pose proof (keeps_acquire _ _ _ _ _ _ _ Hok Ea) as Hok1.
  destruct (negb _).
  - destruct (complete _ _ _ _ s1) as [[c|error] s2]; eexists _, _, _; (split; [reflexivity|lia]).
  - by apply invoke_loop_total.
Qed.

(** ** Restarts with a durable admission table *)

Section DurableAdmission.
Context {T : Type} `{!ProviderProcessTable T}.
Variable sha256 : string -> string.
(** Documented behaviour of SHA-256: no two adapters collide. *)
Hypothesis sha256_collision_free : forall a b, sha256 a = sha256 b -> a = b.

(** Every adapter. *)
Definition any_adapter (_ : AdapterId) : Prop := True.
Lemma adapters_apart a b : any_adapter a -> any_adapter b -> sha256 (id_str a) = sha256 (id_str b) -> a = b.
Proof. intros _ _ H%sha256_collision_free. destruct a, b. cbn in H. by subst. Qed.

#[local] Instance durable_admissions : ProviderAdmissionTable AdmissionDisk := disk_admission_table sha256.
Abbreviation S' := (ProviderSupervisor T AdmissionDisk).

(** The admission table's files, as the table left them. *)
Definition disk_admissions_ok (d : AdmissionDisk) : Prop :=
  admissions_ok sha256 (adk_root d) any_adapter (fun _ => usize_max) (adk_files d).
Definition admission_ok (s : S') : Prop := exists d, sv_admission s = Some d /\ disk_admissions_ok d.

(** A run that does not touch the admission table. *)
Definition same_admission {X} (m : Run S' X) : Prop := forall s r s', m s = (r, s') -> sv_admission s' = sv_admission s.

Lemma same_admission_bind {X Y} (m : Run S' X) (k : X -> Run S' Y) :
  same_admission m -> (forall x, same_admission (k x)) -> same_admission (run_bind m k).
Proof.
  intros Hm Hk s r s' H. unfold run_bind in H. destruct (m s) as [[x|e] s1] eqn:E.
  - rewrite (Hk _ _ _ _ H). by eapply Hm.
  - injection H as _ <-. by eapply Hm.
Qed.
Lemma same_admission_pure {X} (f : S' -> Res X) : same_admission (fun s => (f s, s)).
Proof. by intros s r s' [= _ <-]. Qed.
Lemma same_admission_upsert p : same_admission (upsert_process p).
Proof. intros s r s' H. unfold upsert_process in H. destruct (compare_and_set _ _). by injection H as _ <-. Qed.
Lemma same_admission_update slot f : same_admission (update_slot slot f).
Proof.
  unfold update_slot. repeat (apply same_admission_bind; [apply same_admission_pure|intros ?]).
  apply same_admission_upsert.
Qed.
Lemma same_admission_unless {X} what slot (m : Run S' X) : same_admission m -> same_admission (unless_draining what slot m).
Proof.
  intros Hm. unfold unless_draining. apply same_admission_bind; [apply same_admission_pure|].
  intros []; [apply same_admission_pure|done].
Qed.
Lemma same_admission_dispatch slot d : same_admission (dispatch_transport slot d).
Proof.
  unfold dispatch_transport. apply same_admission_bind.
  { intros s r s' H. unfold admission_lease in H. repeat case_match; by injection H as _ <-. }
  intros leased. apply same_admission_bind; [|intros; apply same_admission_pure].
  destruct (dp_spawn d); [|apply same_admission_pure]. apply same_admission_bind; [|intros; apply same_admission_pure].
  intros s r s' H. unfold run_try in H. destruct (register_process_identity _ _ _ s) as [x s1] eqn:E.
  injection H as _ <-. eapply same_admission_unless; [|exact E]. apply same_admission_update.
Qed.
Lemma same_admission_restart config slot p reason eligible d :
  same_admission (restart_after_failure config slot p reason eligible d).
Proof.
  unfold restart_after_failure. destruct (negb eligible).
  { apply same_admission_bind; [apply same_admission_update|intros; apply same_admission_pure]. }
  destruct (decide_restart _ _ _ _); [apply same_admission_pure| |].
  - apply same_admission_bind; [apply same_admission_unless, same_admission_update|intros; apply same_admission_pure].
  - apply same_admission_bind; [apply same_admission_update|intros; apply same_admission_pure].
Qed.

(** The reservation of a slot that has been completed is gone. *)
Definition slot_released (slot : ProviderExecutionSlot) (s : S') : Prop :=
  exists d, sv_admission s = Some d /\ disk_admissions_ok d /\
    forall rid, sl_admission_reservation_id slot = Some rid ->
      forall io r files, release_owned sha256 (adk_root d) (adk_files d) (sl_adapter_id slot) rid (sl_session_id slot) io
                         = (r, files) -> is_ok r = false.

Lemma complete_releases slot outcome released opened (s : S') c s' :
  admission_ok s -> complete slot outcome released opened s = (Ok c, s') -> slot_released slot s'.
Proof.
  intros (d & Hd & Hf) H. pose proof (complete_gives_back _ _ _ _ _ _ _ H) as Hadm. rewrite Hd in Hadm.
  destruct Hadm as (rid & d' & Hrid & Hd' & Hrel). cbn in Hrel.
  unfold on_admission_disk in Hrel. destruct (release_owned _ _ _ _ _ _ _) as [r files] eqn:Er.
  injection Hrel as -> <-. eexists. split; [exact Hd'|]. split.
  - pose proof (call_keeps_table _ (adk_root d) _ adapters_apart _ _
      (CallReleaseOwned (sl_adapter_id slot) rid (sl_session_id slot)) (adk_outcomes d (adk_operations d)) Hf) as Hk.
    cbn in Hk. rewrite Er in Hk. by apply Hk.
  - intros rid' Hrid' io r files'. rewrite Hrid in Hrid'. injection Hrid' as <-. cbn. intros Hagain.
    by eapply (released_once _ _ _ adapters_apart); [exact I|exact Hf|exact Er|exact Hagain].
Qed.

Lemma released_not_completed slot outcome released opened (s : S') r s' :
  slot_released slot s -> complete slot outcome released opened s = (r, s') -> is_ok r = false.
Proof.
  intros (d & Hd & _ & Hgone) H. destruct r as [c|]; [|done].
  pose proof (complete_gives_back _ _ _ _ _ _ _ H) as Hadm. rewrite Hd in Hadm.
  destruct Hadm as (rid & d' & Hrid & _ & Hrel). cbn in Hrel. unfold on_admission_disk in Hrel.
  destruct (release_owned _ _ _ _ _ _ _) as [r files] eqn:Er. injection Hrel as -> _.
  exact (Hgone _ Hrid _ _ _ Er).
Qed.

Lemma released_same slot (s s' : S') :
  slot_released slot s -> sv_admission s' = sv_admission s -> slot_released slot s'.
Proof. unfold slot_released. by intros H ->. Qed.

(** A turn that asks for another one leaves the slot without its reservation. *)
Lemma turn_again_released config slot audit d (s s' : S') :
  admission_ok s -> invoke_turn config slot audit d s = (Ok None, s') -> slot_released slot s'.
Proof.
  intros Hs H. unfold invoke_turn in H. apply run_bind_Ok in H as (result & s1 & Hd & H).
  assert (Hs1 : admission_ok s1) by (unfold admission_ok; by rewrite (same_admission_dispatch _ _ _ _ _ Hd)).
  assert (Hstep : forall outcome reason eligible s2 c step s3,
    complete slot outcome (dp_released d) (dp_opened d) s1 = (Ok c, s2) ->
    restart_after_failure config slot c reason eligible d s2 = (Ok step, s3) ->
    match step with
    | StepRetry _ _ => (prepare_restart slot (dp_prepared d) >>! run_ret None) s3 = (Ok (@None (Res AdapterInvokeReport)), s')
    | StepTerminal _ => False end -> slot_released slot s').
  { intros outcome reason eligible s2 c step s3 Hc Hr Hp. pose proof (complete_releases _ _ _ _ _ _ _ Hs1 Hc) as Hrel.
    pose proof (same_admission_restart _ _ _ _ _ _ _ _ _ Hr) as Ea.
    destruct step as [delay q|]; [|done]. apply run_bind_Ok in Hp as (q' & s4 & Hp & [= <-]).
    eapply released_same; [exact Hrel|]. rewrite <- Ea.
    eapply same_admission_unless; [|exact Hp]. apply same_admission_update. }
  destruct result as [report|error].
  - apply run_bind_Ok in H as (c & s2 & Hc & H). destruct (String.eqb _ _); [done|].
    apply run_bind_Ok in H as (step & s3 & Hr & H). eapply Hstep; [exact Hc|exact Hr|destruct step; done].
  - apply run_bind_Ok in H as (c & s2 & Hc & H). apply run_bind_Ok in H as (step & s3 & Hr & H).
    eapply Hstep; [exact Hc|exact Hr|destruct step; done].
Qed.

(** The turn after that answers with an error. *)
Lemma turn_after_release config slot audit d (s : S') r s' :
  slot_released slot s -> invoke_turn config slot audit d s = (r, s') -> is_ok r = false.
Proof.
  intros Hs H. destruct r as [x|]; [|done]. unfold invoke_turn in H.
  apply run_bind_Ok in H as (result & s1 & Hd & H).
  assert (Hs1 : slot_released slot s1)
    by (eapply released_same; [exact Hs|by eapply same_admission_dispatch]).
  destruct result as [report|error]; apply run_bind_Ok in H as (c & s2 & Hc & _);
    apply (released_not_completed _ _ _ _ _ _ _ Hs1) in Hc; done.
Qed.

Lemma safe_segment_bytes value :
  bytes_all (fun c => is_ascii_alphanumeric c || Ascii.eqb c "-" || Ascii.eqb c "_" || Ascii.eqb c ".")
    (safe_segment value) = true.
Proof.
  unfold safe_segment. induction (chars value) as [|ch l IH]; [done|]. rewrite fmap_cons. cbn [str_concat foldr].
  rewrite bytes_all_append. apply andb_true_iff. split; [|exact IH].
  destruct (chars_all_ascii _ ch) eqn:E; [by apply chars_all_ascii_bytes in E|done].
Qed.

Lemma session_id_token request adapter : token_ok (session_id request adapter) = true.
Proof.
  assert (H : bytes_all is_graphic (session_id request adapter) = true).
  { unfold session_id. rewrite !bytes_all_append. rewrite !andb_true_iff.
    split_and!; try reflexivity; (eapply bytes_all_impl; [|apply safe_segment_bytes];
      apply ascii_impl; vm_compute; reflexivity). }
  unfold token_ok. rewrite graphic_utf8 by exact H.
  rewrite (line_clean_bytes_all is_graphic _ eq_refl eq_refl H).
  replace (contains_char tab _) with false; [done|]. symmetry. apply contains_char_false.
  eapply bytes_all_impl; [|exact H]. apply ascii_impl. vm_compute. reflexivity.
Qed.

(** Acquiring a slot leaves the admission table's files good. *)
Lemma keeps_disk_admission {X} (absent : Run S' X) call :
  (forall d r d', disk_admissions_ok d -> call d = (r, d') -> disk_admissions_ok d') ->
  keeps admission_ok (on_admission absent call).
Proof.
  intros Hc s r s' (d & Hd & Hok) H. unfold on_admission, with_admission in H. rewrite Hd in H.
  destruct (call d) as [x d'] eqn:E. injection H as _ <-. exists d'. split; [done|]. by eapply Hc.
Qed.

Lemma keeps_same_admission {X} (m : Run S' X) : same_admission m -> keeps admission_ok m.
Proof. intros Hm s r s' (d & Hd & Hok) H. exists d. by rewrite (Hm _ _ _ H). Qed.

Ltac use_call c io Hd := 
  let Hk := fresh in
  pose proof (call_keeps_table sha256 _ _ adapters_apart _ _ c io Hd) as Hk; cbn in Hk.

Lemma disk_release_keeps d adapter rid sid r d' :
  disk_admissions_ok d -> adm_release_owned d adapter rid sid = (r, d') -> disk_admissions_ok d'.
Proof.
  intros Hd H. cbn in H. unfold on_admission_disk in H. destruct (release_owned _ _ _ _ _ _ _) as [x files] eqn:E.
  injection H as _ <-. use_call (CallReleaseOwned adapter rid sid) (adk_outcomes d (adk_operations d)) Hd.
  rewrite E in H. by apply H.
Qed.

Lemma disk_snapshot_keeps d adapter now r d' :
  disk_admissions_ok d -> adm_snapshot d adapter now = (r, d') -> disk_admissions_ok d'.
Proof.
  intros Hd H. cbn in H. unfold on_admission_disk in H. destruct (admission_snapshot _ _ _ _ _ _) as [x files] eqn:E.
  injection H as _ <-. use_call (CallSnapshot adapter now) (adk_outcomes d (adk_operations d)) Hd.
  rewrite E in H. by apply H.
Qed.

Lemma disk_reserve_keeps d adapter max sid now ttl r d' :
  disk_admissions_ok d -> (max <= usize_max)%N -> token_ok sid = true ->
  adm_reserve d adapter max sid now ttl = (r, d') -> disk_admissions_ok d'.
Proof.
  intros Hd Hm Ht H. cbn in H. unfold on_admission_disk in H. destruct (reserve _ _ _ _ _ _ _ _ _) as [x files] eqn:E.
  injection H as _ <-. use_call (CallReserve adapter max sid now ttl) (adk_outcomes d (adk_operations d)) Hd.
  rewrite E in H. by apply H.
Qed.

Lemma keeps_admission_acquire request clock now started :
  (default usize_max (rq_max_concurrency request) <= usize_max)%N ->
  keeps admission_ok (acquire (T := T) (A := AdmissionDisk) request clock now started).
Proof.
  intros Hmax. assert (Hread : forall sid, keeps admission_ok (read_process (T := T) (A := AdmissionDisk) sid))
    by (intros; apply keeps_same_admission, same_admission_pure).
  assert (Hups : forall p, keeps admission_ok (upsert_process (T := T) (A := AdmissionDisk) p))
    by (intros; apply keeps_same_admission, same_admission_upsert).
  assert (Hproc : keeps admission_ok (processes (T := T) (A := AdmissionDisk)))
    by apply keeps_same_admission, same_admission_pure.
  assert (Hset : forall f : S' -> S', (forall s, sv_admission (f s) = sv_admission s) -> keeps admission_ok (run_set f))
    by (intros f Hf; apply keeps_same_admission; intros s r s' [= _ <-]; apply Hf).
  unfold acquire. keeps_solve.
  - apply keeps_disk_admission. intros d r d' Hd H. by eapply disk_snapshot_keeps.
  - apply keeps_disk_admission. intros d r d' Hd H. by eapply disk_release_keeps.
  - apply keeps_disk_admission. intros d r d' Hd H. destruct (adm_snapshot _ _ _) as [y d1] eqn:E.
    injection H as _ <-. by eapply disk_snapshot_keeps.
  - unfold admit_circuit. keeps_solve; by apply Hset.
  - unfold admit_concurrency, active_for_adapter. keeps_solve.
  - unfold admit_rate_limit. keeps_solve; by apply Hset.
  - apply keeps_disk_admission. intros d r d' Hd H. destruct (adm_reserve _ _ _ _ _ _) as [y d1] eqn:E.
    injection H as _ <-. eapply disk_reserve_keeps; [done|done|apply session_id_token|done].
  - apply keeps_disk_admission. intros d r d' Hd H. by eapply disk_release_keeps.
Qed.

(** C15: With a durable admission table a restart never helps: completing the
    failed first dispatch gives the slot's reservation back, so completing any
    later dispatch fails, and an invocation that restarts its provider ends
    with an error whatever the provider then does. *)
Theorem durable_restart_always_fails domains request clock now started released opened dispatches fuel (s : S')
    result n s' :
  admission_ok s -> (default usize_max (rq_max_concurrency request) <= usize_max)%N ->
  invoke_supervised domains request clock now started released opened dispatches fuel s = (Some result, n, s') ->
  1 < n -> n = 2 /\ is_ok result = false.
Proof.
  intros Ha Hmax. unfold invoke_supervised.
  destruct (acquire request clock now started s) as [[slot|error] s1] eqn:E; [|intros [= <- <- <-]; lia].
  assert (Hs1 : admission_ok s1) by (eapply keeps_admission_acquire; [exact Hmax|exact Ha|exact E]).
  destruct (negb _).
  { destruct (complete _ _ _ _ s1) as [[c|error] s2]; intros [= <- <- <-]; lia. }
  destruct fuel as [|fuel]; [done|]. cbn [invoke_loop].
  destruct (invoke_turn _ slot _ (dispatches 0) s1) as [[[x|]|error] s2] eqn:E1; try (intros [= <- <- <-]; lia).
  apply turn_again_released in E1; [|exact Hs1]. destruct fuel as [|fuel]; [done|]. cbn [invoke_loop].
  destruct (invoke_turn _ slot _ (dispatches 1) s2) as [r s3] eqn:E2.
  apply turn_after_release in E2; [|exact E1]. destruct r as [x|error]; [done|].
  intros [= <- <- <-]. done.
Qed.
End DurableAdmission.

(** ** A provider that fails once *)

Module FailsOnce.
Definition request : ProviderExecutionRequest := {|
  rq_request_id := MkId "req-1"; rq_adapter_id := MkId "adapter-1";
  rq_capability := MkCapabilityName "text.summarise" ["text"; "summarise"];
  rq_transport := TrStdio; rq_manifest_digest := "sha256:0"; rq_start_command := "run";
  rq_provider := MkProviderConfig (MkRestartConfig RestartOnFailure 2 100) RunAsCurrent [];
  rq_max_concurrency := Some 1%N; rq_rate_limit := None; rq_circuit_breaker := None; rq_retry_backoff_ms := None |}.

(** The first process answers "failed", the second one "completed". *)
Definition dispatches (i : nat) : Dispatch :=
  let t := (1000 * N.of_nat i)%N in
  MkDispatch (Some (MkProcessIdentity (100 + N.of_nat i) "start" (Some (100 + N.of_nat i)%N) None))
    (fun registered => result_map (fun _ => MkInvokeReport (if Nat.eqb i 0 then "failed" else "completed") "" []) registered)
    (Ok tt) (t + 10) (t + 20) (t + 20) (t + 30) (t + 30) (t + 900).

Definition domains : PolicyDomainSet := domains_default.
Definition disk : AdmissionDisk := MkAdmissionDisk "admission" ∅ (fun _ => admission_io_fine) 0.
Definition supervisor (admission : option AdmissionDisk) :
    ProviderSupervisor InMemoryProviderProcessTable AdmissionDisk := supervisor_new (MkMemTable ∅) admission.

#[local] Instance sample_admissions : ProviderAdmissionTable AdmissionDisk := disk_admission_table id.
Definition run admission :=
  invoke_supervised domains request (fun _ => 1%N) 1 2 3 4 dispatches 5 (supervisor admission).

(** Without an admission table the restart helps; with one it ends in an error. *)
Example restart_helps :
  let '(result, n, _) := run None in
  match result with Some (Ok report) => ir_status report | _ => "" end = "completed" /\ n = 2.
Proof. vm_compute. done. Qed.

Definition outcome_of (r : option (Res AdapterInvokeReport) * nat *
    ProviderSupervisor InMemoryProviderProcessTable AdmissionDisk) : option (Res AdapterInvokeReport) * nat :=
  (r.1.1, r.1.2).

Lemma run_durable :
  outcome_of (run (Some disk)) = (Some (Err (conflict "provider admission reservation is not owned")), 2).
Proof. vm_compute. reflexivity. Qed.

Lemma supervisor_fresh admission : supervisor_ok (supervisor admission).
Proof. intros sid p H. cbn in H. by rewrite lookup_empty in H. Qed.

Lemma disk_fresh : admission_ok id (supervisor (Some disk)).
Proof.
  exists disk. split; [done|]. intros adapter _. exists (MkAdmission adapter 0 []). split; [done|].
  split; [done|]. split; [split; [done|by apply Forall_nil]|]. split; [apply N.le_0_l|by apply NoDup_nil].
Qed.
End FailsOnce.

Lemma invocation_within_budget_witness :
  exists result n s', FailsOnce.run None = (Some result, n, s') /\ n <= 3.
Proof.
  apply (invocation_within_budget FailsOnce.domains FailsOnce.request (fun _ => 1%N) 1 2 3 4 FailsOnce.dispatches 5
           (FailsOnce.supervisor None)).
  - apply FailsOnce.supervisor_fresh.
  - vm_compute. done.
  - vm_compute. lia.
Defined.

Lemma durable_restart_always_fails_witness :
  exists result n s', FailsOnce.run (Some FailsOnce.disk) = (Some result, n, s') /\ n = 2 /\ is_ok result = false.
Proof.
  destruct (FailsOnce.run (Some FailsOnce.disk)) as [[result n] s'] eqn:E.
  pose proof FailsOnce.run_durable as H. rewrite E in H. injection H as -> ->.
  eexists _, _, s'. split; [reflexivity|].
  eapply (durable_restart_always_fails id (fun a b H => H) FailsOnce.domains FailsOnce.request (fun _ => 1%N) 1 2 3 4
           FailsOnce.dispatches 5 (FailsOnce.supervisor (Some FailsOnce.disk))).
  - apply FailsOnce.disk_fresh.
  - vm_compute. done.
  - exact E.
  - lia.
Defined.
