(* ===== verification/TaskWorker.v ===== *)
(** * Dispatching a claimed attempt (crates/eva-runtime/src/task_worker.rs, task.rs)

    What a worker does with a task it has claimed: resolve the payload, run
    the handler, and decide the outcome of the attempt.  Handlers registered
    as non-idempotent go through the effect ledger: inspect, prepare, run,
    commit.

    A dispatch is a tree of its interactions with the world ([Work]), so that
    any number of workers and processes can be interleaved on one ledger.
    The answer to [Invoke] covers everything [invoke_handler_isolated] can
    return, in particular that the handler failed, panicked, ran past its
    deadline or was revoked.  The pause of the debug-build test harness after
    a commit is left out (it is [Ok] in release builds). *)

From Stdlib Require Import Ascii.
From stdpp Require Import base numbers strings gmap list.
From S2P Require Import Prelude RustStr Digest Error Ids Durable EventLog TaskState.
From S2P Require Import TaskTransition TaskAccept FieldEscape TaskStorage TaskStore TaskWritable.
From S2P Require Import TaskDirectory EffectLedger EffectSafety.

(** ** task.rs: the typed envelope *)

(** [TaskKind] and [IdempotencyKey] are their strings; [TaskInput] and
    [TaskAttemptPolicy] have the shape of their snapshots. *)
Record TaskEnvelope := MkTaskEnvelope {
  te_kind : string;
  te_agent_id : AgentId;
  te_input : TaskInputSnapshot;
  te_idempotency_key : string;
  te_attempt_policy : TaskAttemptPolicySnapshot
}.

Definition task_kind_parse (value : string) : Res string := validate_task_kind value >>? Ok value.

Definition idempotency_key_parse (value : string) : Res string :=
  map_err (fun error => invalid_argument "task idempotency key is invalid"
             ⊕ ("idempotency_key", value) ⊕ ("cause", err_message error))
    (id_parse KRequest value) >>? Ok value.

Definition envelope_to_snapshot (e : TaskEnvelope) : TaskEnvelopeSnapshot :=
  MkEnvelope (te_kind e) (id_str (te_agent_id e)) (te_input e) (te_idempotency_key e)
    (te_attempt_policy e).

Definition task_envelope_new (kind : string) (agent_id : AgentId) (input : TaskInputSnapshot)
    (idempotency_key : string) (policy : TaskAttemptPolicySnapshot) : Res TaskEnvelope :=
  let envelope := MkTaskEnvelope kind agent_id input idempotency_key policy in
  envelope_validate (envelope_to_snapshot envelope) >>? Ok envelope.

Definition envelope_try_from (value : TaskEnvelopeSnapshot) : Res TaskEnvelope :=
  envelope_validate value >>?
  (let? kind := task_kind_parse (env_kind value) in
   let? agent_id := id_parse KAgent (env_agent_id value) in
   let? idempotency_key := idempotency_key_parse (env_idempotency_key value) in
   task_envelope_new kind agent_id (env_input value) idempotency_key (env_attempt_policy value)).

(** ** The handler registry *)

(** A registration is its effect scope; the handler behind it is met through
    the answers to [Invoke]. *)
Abbreviation TaskHandlerRegistry := (gmap string (option string)).

Definition register_with_effect_scope (r : TaskHandlerRegistry) (kind : string)
    (effect_scope : option string) : Res TaskHandlerRegistry :=
  reject bool_decide (is_Some (r !! kind)) with
    conflict "task handler kind is already registered" ⊕ ("task_kind", kind) else
  Ok (<[kind := effect_scope]> r).

Definition register (r : TaskHandlerRegistry) (kind : string) : Res TaskHandlerRegistry :=
  register_with_effect_scope r kind None.

Definition register_non_idempotent (r : TaskHandlerRegistry) (kind effect_scope : string) :
    Res TaskHandlerRegistry :=
  map_err (fun error => invalid_argument "task handler effect scope is invalid"
             ⊕ ("cause", err_message error)) (id_parse KRequest effect_scope) >>?
  register_with_effect_scope r kind (Some effect_scope).

Definition non_idempotent_effect_scope (r : TaskHandlerRegistry) (kind : string) : option string :=
  r !! kind ≫= id.

(** ** Interactions *)

Record ArtifactRecord := MkArtifact {
  ar_key : string;
  ar_bytes : string;
  ar_digest : string;
  ar_size_bytes : N
}.

Record TaskHandlerInvocation := MkInvocation {
  inv_task_id : string;
  inv_envelope : TaskEnvelope;
  inv_payload : string;
  inv_payload_digest : string;
  inv_attempt : N;
  inv_deadline_at_ms : option N
}.

(** [TaskHandlerResult] is its bytes. *)
Definition result_digest (bytes : string) : string := sha256_digest bytes.
Definition result_size_bytes (bytes : string) : N := str_len bytes.

Inductive IsolatedHandlerOutcome :=
| HandlerReturned (result : Res string)
| HandlerDeadlineExceeded (observed_at_ms : N)
| HandlerResultRevoked.

Inductive Work (A : Type) : Type :=
| Done (a : A)
| Clock (k : Res N -> Work A)
| Artifact (key digest : string) (k : Res (option ArtifactRecord) -> Work A)
| Inspect (intent : EffectLedgerIntent) (k : Res (option EffectLedgerRecord) -> Work A)
| Prepare (intent : EffectLedgerIntent) (k : Res EffectPrepareOutcome -> Work A)
| Cancelled (k : bool -> Work A)
| Invoke (invocation : TaskHandlerInvocation) (k : Res IsolatedHandlerOutcome -> Work A)
| Commit (intent : EffectLedgerIntent) (digest : string) (size committed_at_ms : N)
    (k : Res EffectLedgerRecord -> Work A).
Arguments Done {A} a.
Arguments Clock {A} k.
Arguments Artifact {A} key digest k.
Arguments Inspect {A} intent k.
Arguments Prepare {A} intent k.
Arguments Cancelled {A} k.
Arguments Invoke {A} invocation k.
Arguments Commit {A} intent digest size committed_at_ms k.

Fixpoint work_bind {A B} (w : Work A) (f : A -> Work B) : Work B :=
  match w with
  | Done a => f a
  | Clock k => Clock (fun r => work_bind (k r) f)
  | Artifact key digest k => Artifact key digest (fun r => work_bind (k r) f)
  | Inspect i k => Inspect i (fun r => work_bind (k r) f)
  | Prepare i k => Prepare i (fun r => work_bind (k r) f)
  | Cancelled k => Cancelled (fun r => work_bind (k r) f)
  | Invoke i k => Invoke i (fun r => work_bind (k r) f)
  | Commit i d s t k => Commit i d s t (fun r => work_bind (k r) f)
  end.

(** [?] on the answer of an interaction, and on a plain result. *)
Definition on_ok {A B} (k : A -> Work (Res B)) (r : Res A) : Work (Res B) :=
  match r with Ok a => k a | Err e => Done (Err e) end.

(** ** Payloads *)

Definition payload_from_artifact (envelope : TaskEnvelope) (key digest : string)
    (found : option ArtifactRecord) : Res (string * string) :=
  let about (e : EvaError) := e ⊕ ("task_kind", te_kind envelope) in
  let? record := ok_or found
    (about (not_found "task input artifact is missing") ⊕ ("artifact_key", key)) in
  reject negb (String.eqb (ar_key record) key) with
    about (conflict "task input artifact key mismatch")
      ⊕ ("expected_artifact_key", key) ⊕ ("actual_artifact_key", ar_key record) else
  reject negb (ar_size_bytes record =? str_len (ar_bytes record))%N with
    about (conflict "task input artifact size mismatch") ⊕ ("artifact_key", key)
      ⊕ ("expected_size", n_to_string (ar_size_bytes record))
      ⊕ ("actual_size", n_to_string (str_len (ar_bytes record))) else
  let actual_digest := sha256_digest (ar_bytes record) in
  reject negb (String.eqb (ar_digest record) actual_digest) with
    about (conflict "task input artifact record digest mismatch") ⊕ ("artifact_key", key)
      ⊕ ("record_digest", ar_digest record) ⊕ ("actual_digest", actual_digest) else
  reject negb (String.eqb actual_digest digest) with
    about (conflict "task input artifact digest does not match envelope") ⊕ ("artifact_key", key)
      ⊕ ("expected_digest", digest) ⊕ ("actual_digest", actual_digest) else
  Ok (ar_bytes record, actual_digest).

(** The payload and its digest, or the error with the caller's context. *)
Definition resolve_task_payload (task_id : string) (envelope : TaskEnvelope) {B}
    (k : string * string -> Work (Res B)) : Work (Res B) :=
  let located (r : Res (string * string)) :=
    map_err (fun error => error ⊕ ("task_id", task_id) ⊕ ("agent_id", id_str (te_agent_id envelope))) r in
  match te_input envelope with
  | InputInline bytes digest =>
      let actual_digest := sha256_digest bytes in
      on_ok k (located
        (reject negb (String.eqb actual_digest digest) with
           conflict "task inline input digest mismatch" ⊕ ("task_kind", te_kind envelope)
             ⊕ ("expected_digest", digest) ⊕ ("actual_digest", actual_digest) else
         Ok (bytes, digest)))
  | InputArtifact key digest =>
      Artifact key digest (fun found =>
        on_ok k (located (let? found := found in payload_from_artifact envelope key digest found)))
  end.

(** ** Effects *)

Inductive ClaimedDispatchResult :=
| Executed (bytes : string)
| EffectDone (result_digest : string) (result_size_bytes : N)
| EffectPreparedUnknown (operation_digest : string).

Definition unresolved_effect_error (record : EffectLedgerRecord) : EvaError :=
  with_retryable (conflict "non-idempotent effect outcome is unresolved") false
    ⊕ ("effect_state", effect_state_str (er_state record))
    ⊕ ("operation_digest", eo_operation_digest (er_operation record)).

Definition prepared_effect_error (error : EvaError) (operation : EffectOperationIdentity) : EvaError :=
  with_retryable error false ⊕ ("effect_state", effect_state_str EffectPrepared)
    ⊕ ("operation_digest", eo_operation_digest operation).

Definition dispatch_from_effect_record (record : EffectLedgerRecord) : Res ClaimedDispatchResult :=
  let about (e : EvaError) := e ⊕ ("operation_digest", eo_operation_digest (er_operation record)) in
  match er_state record with
  | EffectPrepared => Err (unresolved_effect_error record)
  | EffectCommitted =>
      let? digest := ok_or (er_result_digest record)
        (about (conflict "committed effect is missing its result digest")) in
      let? size := ok_or (er_result_size_bytes record)
        (about (conflict "committed effect is missing its result size")) in
      Ok (EffectDone digest size)
  end.

Section Dispatch.
(** SHA-256 of the [sha2] crate, as the ledger uses it. *)
Variable sha256 : string -> string.

Definition effect_intent (operation : EffectOperationIdentity) (fence : TaskAttemptFence)
    (prepared_at_ms : N) : Res EffectLedgerIntent :=
  intent_new sha256 operation (fence_task_id fence) (fence_owner_generation fence)
    (fence_execution_owner fence) (fence_attempt fence) (fence_cancel_token fence) prepared_at_ms.

(** [effect_intent(operation, fence, worker_now_ms()?)?] *)
Definition intent_now (operation : EffectOperationIdentity) (fence : TaskAttemptFence) {B}
    (k : EffectLedgerIntent -> Work (Res B)) : Work (Res B) :=
  Clock (on_ok (fun now => on_ok k (effect_intent operation fence now))).

(** From the created record on: the handler runs, and its result is committed. *)
Definition run_prepared (invocation : TaskHandlerInvocation) (intent : EffectLedgerIntent) :
    Work (Res ClaimedDispatchResult) :=
  let operation := ei_operation intent in
  let unknown := Done (Ok (EffectPreparedUnknown (eo_operation_digest operation))) in
  Cancelled (fun cancelled =>
    if cancelled then unknown else
    Invoke invocation (fun outcome =>
      match outcome with
      | Ok (HandlerReturned (Ok bytes)) =>
          Clock (on_ok (fun now =>
            Commit intent (result_digest bytes) (result_size_bytes bytes) now (fun committed =>
              match committed with
              | Ok _ => Done (Ok (EffectDone (result_digest bytes) (result_size_bytes bytes)))
              | Err error => Done (Err (prepared_effect_error error operation))
              end)))
      | Ok (HandlerReturned (Err error)) =>
          Cancelled (fun cancelled =>
            if cancelled then unknown else Done (Err (prepared_effect_error error operation)))
      | Ok (HandlerDeadlineExceeded _) | Ok HandlerResultRevoked | Err _ => unknown
      end)).

Definition dispatch_non_idempotent_attempt (effect_scope : string) (task_id : string)
    (envelope : TaskEnvelope) (snapshot : TaskStateSnapshot) (fence : TaskAttemptFence)
    (has_ledger : bool) : Work (Res ClaimedDispatchResult) :=
  if negb has_ledger then
    Done (Err (with_retryable (unavailable "non-idempotent task handler requires a durable effect ledger")
                 false ⊕ ("task_id", task_id) ⊕ ("task_kind", te_kind envelope)
                 ⊕ ("agent_id", id_str (te_agent_id envelope))))
  else if is_some (ts_replay_delivery snapshot) && String.eqb (te_idempotency_key envelope) task_id then
    Done (Err (with_retryable (conflict "non-idempotent replay delivery is missing its original idempotency key")
                 false ⊕ ("task_id", task_id) ⊕ ("task_kind", te_kind envelope)))
  else
    on_ok (fun operation =>
      intent_now operation fence (fun inspection_intent =>
      Inspect inspection_intent (on_ok (fun found =>
        match found with
        | Some record => Done (dispatch_from_effect_record record)
        | None =>
            resolve_task_payload task_id envelope (fun payload =>
            intent_now operation fence (fun intent =>
            Prepare intent (on_ok (fun prepared =>
              match prepared with
              | OutcomeCreated _ =>
                  run_prepared (MkInvocation task_id envelope payload.1 payload.2
                                  (ts_attempts snapshot) None) intent
              | OutcomePrepared record => Done (Err (unresolved_effect_error record))
              | OutcomeCommitted record => Done (dispatch_from_effect_record record)
              end))))
        end))))
      (operation_new sha256 (te_idempotency_key envelope) (te_kind envelope)
         (id_str (te_agent_id envelope)) effect_scope (input_digest (te_input envelope))).

(** ** The decision *)

Record TaskDispatchDecision := MkDecision {
  td_outcome : TaskAttemptOutcome;
  td_non_idempotent : bool;
  td_effect_committed : bool;
  td_prepared_effect_operation_digest : option string
}.

Definition TASK_HANDLER_NOT_REGISTERED_MESSAGE : string := "task handler is not registered".

(** An idempotent handler runs directly. *)
Definition dispatch_idempotent (task_id : string) (envelope : TaskEnvelope)
    (snapshot : TaskStateSnapshot) : Work (Res (Res ClaimedDispatchResult)) :=
  resolve_task_payload task_id envelope (fun payload =>
    Invoke (MkInvocation task_id envelope payload.1 payload.2 (ts_attempts snapshot)
              (ts_deadline_at_ms snapshot)) (fun outcome =>
      Done (Ok
        match outcome with
        | Ok (HandlerReturned result) => result_map Executed result
        | Ok (HandlerDeadlineExceeded observed_at_ms) =>
            Err (with_retryable (timeout_error "task handler exceeded its durable attempt deadline") true
                   ⊕ ("observed_at_ms", n_to_string observed_at_ms))
        | Ok HandlerResultRevoked =>
            Err (with_retryable
                   (timeout_error "task handler outlived the daemon shutdown drain deadline") false)
        | Err error => Err error
        end))).

Definition decide_outcome (snapshot : TaskStateSnapshot) (non_idempotent : bool) (observed_at_ms : N)
    (dispatched : Res ClaimedDispatchResult) : TaskDispatchDecision :=
  if negb non_idempotent && deadline_expired snapshot observed_at_ms then
    MkDecision (OutcomeTimedOut observed_at_ms true) non_idempotent false None
  else
    match dispatched with
    | Ok (Executed bytes) =>
        MkDecision (OutcomeCompleted (result_digest bytes) (result_size_bytes bytes)) non_idempotent
          false None
    | Ok (EffectDone digest size) => MkDecision (OutcomeCompleted digest size) non_idempotent true None
    | Ok (EffectPreparedUnknown operation_digest) =>
        MkDecision (OutcomeFailed (error_kind_str Conflict)
                      "non-idempotent effect outcome requires operator reconciliation" false)
          non_idempotent false (Some operation_digest)
    | Err error =>
        if bool_decide (err_kind error = Timeout) then
          MkDecision (OutcomeTimedOut observed_at_ms (err_retryable error)) non_idempotent false None
        else
          MkDecision (OutcomeFailed (error_kind_str (err_kind error)) (err_message error)
                        (err_retryable error)) non_idempotent false None
    end.

Definition dispatch_claimed_attempt (registry : TaskHandlerRegistry) (task_id : string)
    (snapshot : TaskStateSnapshot) (fence : TaskAttemptFence) (has_ledger : bool) :
    Work (Res TaskDispatchDecision) :=
  match (let? envelope := ok_or (ts_envelope snapshot) (internal "claimed task is missing its envelope") in
         envelope_try_from envelope) with
  | Err e => Done (Err e)
  | Ok envelope =>
      let registration := registry !! te_kind envelope in
      let non_idempotent := match registration with Some scope => is_some scope | None => false end in
      work_bind
        (match registration with
         | Some (Some scope) =>
             work_bind (dispatch_non_idempotent_attempt scope task_id envelope snapshot fence has_ledger)
               (fun r => Done (Ok r))
         | Some None => dispatch_idempotent task_id envelope snapshot
         | None =>
             Done (Ok (Err (not_found TASK_HANDLER_NOT_REGISTERED_MESSAGE ⊕ ("task_id", task_id)
                              ⊕ ("task_kind", te_kind envelope)
                              ⊕ ("agent_id", id_str (te_agent_id envelope)))))
         end)
        (on_ok (fun dispatched =>
           Clock (on_ok (fun observed_at_ms =>
             Done (Ok (decide_outcome snapshot non_idempotent observed_at_ms dispatched))))))
  end.
End Dispatch.
