(* ===== verification/EffectOnce.v ===== *)
(** * A non-idempotent handler runs once (crates/eva-runtime/src/task_worker.rs,
    crates/eva-storage/src/effect_ledger.rs)

    Workers of any number of processes dispatch claimed attempts at the same
    time, one interaction at a time, on one effect ledger.  Every run of a
    non-idempotent handler is paid for by a prepared record that the same
    dispatch created, and the ledger creates one record per idempotency key. *)

From Stdlib Require Import Ascii.
From stdpp Require Import base numbers strings gmap list.
From S2P Require Import Prelude RustStr Digest Error Ids Durable EventLog TaskState.
From S2P Require Import TaskTransition TaskAccept FieldEscape TaskStorage TaskStore TaskWritable.
From S2P Require Import TaskDirectory EffectLedger EffectSafety TaskWorker.

(** ** Workers *)

Record Worker := MkWorker {
  wk_ledger : FileSystemEffectLedger;
  wk_store : FileSystemTaskStateStore;
  wk_work : Work (Res TaskDispatchDecision)
}.

(** What the world answers in one turn. *)
Record Turn := MkTurn {
  tn_files : Files;
  tn_lock : Res unit;
  tn_now : Res N;
  tn_write : WriteOutcome;
  tn_cancelled : bool;
  tn_artifact : Res (option ArtifactRecord);
  tn_handler : Res IsolatedHandlerOutcome
}.

(** What others can see of a turn. *)
Inductive WorkEvent :=
| EvLedger (answer : EffectAnswer)
| EvInvoke (invocation : TaskHandlerInvocation).

Section Turns.
Variable sha256 : string -> string.

Definition work_turn (w : Worker) (dir : Dir) (t : Turn) : Worker * Dir * list WorkEvent :=
  let continue work ledger := MkWorker ledger (wk_store w) work in
  match wk_work w with
  | Done _ => (w, dir, [])
  | Clock k => (continue (k (tn_now t)) (wk_ledger w), dir, [])
  | Artifact _ _ k => (continue (k (tn_artifact t)) (wk_ledger w), dir, [])
  | Cancelled k => (continue (k (tn_cancelled t)) (wk_ledger w), dir, [])
  | Inspect intent k =>
      let '(r, ledger, dir) := inspect_for_claim sha256 (wk_ledger w) (tn_files t) dir (wk_store w) intent
                                 (tn_lock t) (tn_now t) in
      (continue (k r) ledger, dir, [])
  | Prepare intent k =>
      let '(r, ledger, dir) := prepare_for_claim sha256 (wk_ledger w) (tn_files t) dir (wk_store w) intent
                                 (tn_lock t) (tn_now t) (tn_write t) in
      (continue (k r) ledger, dir, [EvLedger (AnswerPrepare r)])
  | Invoke invocation k => (continue (k (tn_handler t)) (wk_ledger w), dir, [EvInvoke invocation])
  | Commit intent digest size at_ms k =>
      let '(r, ledger, dir) := effect_commit sha256 (wk_ledger w) (tn_files t) dir intent digest size at_ms
                                 (tn_lock t) (tn_write t) in
      (continue (k r) ledger, dir, [EvLedger (AnswerCommit r)])
  end.

(** A schedule names the worker that takes each turn. *)
Fixpoint run_workers (ws : list Worker) (dir : Dir) (schedule : list (nat * Turn)) :
    list Worker * Dir * list WorkEvent :=
  match schedule with
  | [] => (ws, dir, [])
  | (i, t) :: rest =>
      match ws !! i with
      | None => run_workers ws dir rest
      | Some w =>
          let '(w, dir, events) := work_turn w dir t in
          let '(ws, dir, others) := run_workers (<[i := w]> ws) dir rest in
          (ws, dir, events ++ others)
      end
  end.
End Turns.

(** ** Counting *)

(** A run of a handler that is registered as non-idempotent, for [key]. *)
Definition effect_run (registry : TaskHandlerRegistry) (key : string) (e : WorkEvent) : bool :=
  match e with
  | EvInvoke i => is_some (non_idempotent_effect_scope registry (te_kind (inv_envelope i)))
                  && String.eqb (te_idempotency_key (inv_envelope i)) key
  | EvLedger _ => false
  end.
Definition effect_runs (registry : TaskHandlerRegistry) (key : string) (events : list WorkEvent) : nat :=
  length (List.filter (effect_run registry key) events).

Definition ledger_answers (events : list WorkEvent) : list EffectAnswer :=
  omap (fun e => match e with EvLedger a => Some a | EvInvoke _ => None end) events.

Definition turn_in_range (t : Turn) : Prop :=
  (forall n, tn_now t = Ok n -> n <= u128_max)%N /\
  (forall bytes, tn_handler t = Ok (HandlerReturned (Ok bytes)) -> str_len bytes <= usize_max)%N.

(** ** Paid work *)

Section Paid.
Variable registry : TaskHandlerRegistry.
Variable in_use : string -> Prop.
Variable key : string.

Definition intent_in_range (i : EffectLedgerIntent) : Prop :=
  (ei_owner_generation i <= u64_max)%N /\ (ei_attempt i <= usize_max)%N /\
  in_use (eo_idempotency_key (ei_operation i)).

(** [credit]: the dispatch holds a created record of [key] it has not used. *)
Fixpoint paid {A} (credit : bool) (w : Work A) : Prop :=
  match w with
  | Done _ => True
  | Clock k => forall r, (forall n, r = Ok n -> n <= u128_max)%N -> paid credit (k r)
  | Artifact _ _ k => forall r, paid credit (k r)
  | Inspect _ k => forall r, paid credit (k r)
  | Cancelled k => forall r, paid credit (k r)
  | Prepare i k => intent_in_range i /\
      forall r, (forall rec, r = Ok (OutcomeCreated rec) ->
                   effect_key rec = eo_idempotency_key (ei_operation i)) ->
        paid (credit || creates key (AnswerPrepare r)) (k r)
  | Invoke i k =>
      let counted := effect_run registry key (EvInvoke i) in
      (counted = true -> credit = true) /\
      forall r, (forall bytes, r = Ok (HandlerReturned (Ok bytes)) -> str_len bytes <= usize_max)%N ->
        paid (credit && negb counted) (k r)
  | Commit i _ size at_ms k => intent_in_range i /\ (size <= usize_max)%N /\ (at_ms <= u128_max)%N /\
      forall r, paid credit (k r)
  end.

Lemma paid_bind {A B} (w : Work A) (f : A -> Work B) : forall credit,
  paid credit w -> (forall c a, paid c (f a)) -> paid credit (work_bind w f).
Proof.
  induction w as [a|k IH|? ? k IH|i k IH|i k IH|k IH|i k IH|i d s t k IH]; intros credit Hw Hf; cbn in *.
  - apply Hf.
  - intros r Hr. by apply IH; [apply Hw|].
  - intros r. by apply IH; [apply Hw|].
  - intros r. by apply IH; [apply Hw|].
  - destruct Hw as [Hi Hw]. split; [done|]. intros r Hr. by apply IH; [apply Hw|].
  - intros r. by apply IH; [apply Hw|].
  - destruct Hw as [Hc Hw]. split; [done|]. intros r Hr. by apply IH; [apply Hw|].
  - destruct Hw as (Hi & Hs & Ht & Hw). split_and!; [done..|]. intros r. by apply IH; [apply Hw|].
Qed.

Lemma paid_on_ok {A B} credit (k : A -> Work (Res B)) r :
  (forall a, r = Ok a -> paid credit (k a)) -> paid credit (on_ok k r).
Proof. destruct r; cbn; auto. Qed.

Lemma paid_payload {B} credit task_id envelope (k : string * string -> Work (Res B)) :
  (forall p, paid credit (k p)) -> paid credit (resolve_task_payload task_id envelope k).
Proof.
  intros Hk. unfold resolve_task_payload. destruct (te_input envelope); cbn [paid]; intros;
    by apply paid_on_ok.
Qed.
End Paid.

(** ** Dispatches are paid *)

Lemma intent_new_Ok sha256 op task_id g owner a token at_ms i :
  intent_new sha256 op task_id g owner a token at_ms = Ok i ->
  ei_operation i = op /\ ei_owner_generation i = g /\ ei_attempt i = a.
Proof.
  unfold intent_new. intros H. apply then_Ok in H as [_ H]. apply reject_Ok in H as [_ H].
  apply reject_Ok in H as [_ H]. apply then_Ok in H as [_ H]. apply then_Ok in H as [_ H].
  by injection H as <-.
Qed.

Definition fence_in_range (f : TaskAttemptFence) : Prop :=
  (fence_owner_generation f <= u64_max)%N /\ (fence_attempt f <= usize_max)%N.

Section Dispatches.
Variable sha256 : string -> string.
Variable registry : TaskHandlerRegistry.
Variable in_use : string -> Prop.
Variable key : string.
Abbreviation paid := (paid registry in_use key).

Lemma paid_run_prepared credit invocation intent :
  intent_in_range in_use intent ->
  (effect_run registry key (EvInvoke invocation) = true -> credit = true) ->
  paid credit (run_prepared invocation intent).
Proof.
  intros Hi Hc. cbn. intros [|]; [done|]. split; [exact Hc|].
  intros [[[bytes|err]|ms|]|err] Hr; cbn; try done.
  - intros r Hn. apply paid_on_ok. intros now ->. cbn. split; [exact Hi|].
    split; [by apply Hr|]. split; [by apply Hn|]. by intros [].
  - by intros [].
Qed.

Lemma paid_non_idempotent credit scope task_id envelope snapshot fence ledger :
  fence_in_range fence -> in_use (te_idempotency_key envelope) ->
  paid credit (dispatch_non_idempotent_attempt sha256 scope task_id envelope snapshot fence ledger).
Proof.
  intros [Hg Ha] Hu. unfold dispatch_non_idempotent_attempt.
  destruct (negb ledger); [done|]. destruct (_ && _); [done|].
  apply paid_on_ok. intros op Hop0. apply operation_new_Ok in Hop0 as [Hop0 _].
  assert (eo_idempotency_key op = te_idempotency_key envelope) as Hop by (by rewrite Hop0). clear Hop0. unfold intent_now. cbn [EffectOnce.paid].
  intros r1 _. apply paid_on_ok. intros now1 _. apply paid_on_ok. intros i1 _. cbn [EffectOnce.paid].
  intros found. apply paid_on_ok. intros [record|] _; [done|].
  apply paid_payload. intros payload. cbn [EffectOnce.paid]. intros r2 _.
  apply paid_on_ok. intros now2 _. apply paid_on_ok. intros i2 (Eo & Eg & Ea)%intent_new_Ok.
  assert (Hi : intent_in_range in_use i2).
  { unfold intent_in_range. rewrite Eo, Eg, Ea, Hop. exact (conj Hg (conj Ha Hu)). }
  cbn [EffectOnce.paid]. split; [exact Hi|]. intros r Hr. apply paid_on_ok. intros out ->.
  destruct out as [rec|rec|rec]; [|done|done]. apply paid_run_prepared; [exact Hi|].
  specialize (Hr rec eq_refl). rewrite Eo, Hop in Hr. cbn. rewrite Hr.
  intros [_ ->]%andb_true_iff. by rewrite orb_true_r.
Qed.

Lemma envelope_try_from_key value envelope :
  envelope_try_from value = Ok envelope ->
  te_idempotency_key envelope = env_idempotency_key value /\ te_kind envelope = env_kind value.
Proof.
  unfold envelope_try_from, task_kind_parse, idempotency_key_parse, task_envelope_new. intros H.
  apply then_Ok in H as [_ H]. destruct (validate_task_kind _); [|done].
  destruct (id_parse KAgent _) as [a|]; [|done]. destruct (map_err _ _); [|done].
  apply then_Ok in H as [_ H]. by injection H as <-.
Qed.

Lemma paid_dispatch credit task_id snapshot fence ledger :
  fence_in_range fence ->
  (forall e, ts_envelope snapshot = Some e -> in_use (env_idempotency_key e)) ->
  paid credit (dispatch_claimed_attempt sha256 registry task_id snapshot fence ledger).
Proof.
  intros Hf Hu. unfold dispatch_claimed_attempt.
  destruct (ts_envelope snapshot) as [value|]; [|done]. cbn [ok_or].
  destruct (envelope_try_from value) as [envelope|] eqn:Ee; [|done].
  apply envelope_try_from_key in Ee as [Ek _]. specialize (Hu value eq_refl). rewrite <- Ek in Hu.
  apply paid_bind.
  - destruct (registry !! te_kind envelope) as [[scope|]|] eqn:Er; [| |done].
    + apply paid_bind; [by apply paid_non_idempotent|done].
    + apply paid_payload. intros payload. cbn [EffectOnce.paid effect_run].
      unfold non_idempotent_effect_scope. cbn [inv_envelope]. rewrite Er. cbn. split; [done|]. done.
  - intros c dispatched. apply paid_on_ok. intros d _. cbn. intros r _. apply paid_on_ok. done.
Qed.
End Dispatches.

(** ** Turns *)

Section Runs.
Variable sha256 : string -> string.
Variable registry : TaskHandlerRegistry.
Variable in_use : string -> Prop.
Variable key : string.
Abbreviation paid := (paid registry in_use key).

Lemma claim_transaction_Ok {A} l files dir store intent lock now op a l' dir' :
  with_claim_transaction sha256 (A := A) l files dir store intent lock now op = (Ok a, l', dir') ->
  exists records at_ms records', op records at_ms = (Ok a, records', dir').
Proof.
  unfold with_claim_transaction. destruct (el_writer l); [|done].
  destruct (_ || _); [done|]. destruct (_ >>? _) as [[at_ms records]|]; [|done].
  unfold end_transaction. destruct (op records at_ms) as [[[a'|] records'] dir1] eqn:E; [|done].
  intros; simplify_eq. by exists records, at_ms, records'.
Qed.

Lemma prepare_created_key l files dir store intent lock now o rec l' dir' :
  prepare_for_claim sha256 l files dir store intent lock now o = (Ok (OutcomeCreated rec), l', dir') ->
  effect_key rec = eo_idempotency_key (ei_operation intent).
Proof.
  intros H. apply claim_transaction_Ok in H as (records & at_ms & records' & H).
  unfold prepare_effect_record in H. destruct (records !! _) as [r|].
  - destruct (ensure_operation_matches _ _); [|done]. by destruct (er_state r).
  - destruct (effect_validate sha256 _); [|done]. destruct (persist_effect_record _ _ _ _ _) as [[] ?]; [|done].
    by simplify_eq.
Qed.

Lemma claim_transaction_same {A} l files dir store intent lock now (op : EffectRecords -> N -> Res A * _ * Dir) res l' dir' :
  (forall records at_ms, (op records at_ms).2 = dir) ->
  with_claim_transaction sha256 l files dir store intent lock now op = (res, l', dir') -> dir' = dir.
Proof.
  intros Hop. unfold with_claim_transaction. destruct (el_writer l); [|by intros; simplify_eq].
  destruct (_ || _); [by intros; simplify_eq|].
  destruct (_ >>? _) as [[at_ms records]|]; [|by intros; simplify_eq].
  unfold end_transaction. specialize (Hop records at_ms).
  destruct (op records at_ms) as [[[a'|] records'] dir1]; intros; by simplify_eq.
Qed.

Lemma run_calls_app cs1 cs2 : forall dir answers1 dir1 answers2 dir2,
  run_calls sha256 dir cs1 = (answers1, dir1) -> run_calls sha256 dir1 cs2 = (answers2, dir2) ->
  run_calls sha256 dir (cs1 ++ cs2) = (answers1 ++ answers2, dir2).
Proof.
  induction cs1 as [|c cs1 IH]; intros dir answers1 dir1 answers2 dir2 H1 H2; cbn in *; [by simplify_eq|].
  destruct (effect_call sha256 dir c) as [a d]. destruct (run_calls sha256 d cs1) as [as1 d1] eqn:E.
  simplify_eq. by rewrite (IH d as1 dir1 answers2 dir2 E H2).
Qed.

Definition cost (b : bool) : nat := if b then 1 else 0.

(** A turn that does not touch the ledger. *)
Ltac quiet := split_and!; [apply Forall_nil_2|reflexivity|unfold effect_runs, creations; cbn; lia].

Lemma work_turn_paid w dir t w' dir' events credit :
  paid credit (wk_work w) -> turn_in_range t -> work_turn sha256 w dir t = (w', dir', events) ->
  exists credit' cs, paid credit' (wk_work w') /\ Forall (call_ok in_use) cs /\
    run_calls sha256 dir cs = (ledger_answers events, dir') /\
    effect_runs registry key events + cost credit' <= cost credit + creations key (ledger_answers events).
Proof.
  intros Hp [Hnow Hres]. unfold work_turn.
  destruct (wk_work w) as [a|k|ak ad k|i k|i k|k|inv k|i d s at_ms k] eqn:Ew; cbn [EffectOnce.paid] in Hp.
  - intros; simplify_eq. exists credit, []. rewrite Ew. split; [done|]. quiet.
  - intros; simplify_eq. exists credit, []. split; [by apply Hp|]. quiet.
  - intros; simplify_eq. exists credit, []. split; [by apply Hp|]. quiet.
  - destruct (inspect_for_claim _ _ _ _ _ _ _ _) as [[r l] d] eqn:E. intros; simplify_eq.
    apply claim_transaction_same in E as ->; [|done].
    exists credit, []. split; [by apply Hp|]. quiet.
  - destruct (prepare_for_claim _ _ _ _ _ _ _ _ _) as [[r l] d] eqn:E. intros; simplify_eq.
    destruct Hp as [(Hg & Ha & Hu) Hk].
    exists (credit || creates key (AnswerPrepare r)),
      [CallPrepare (wk_ledger w) (tn_files t) (wk_store w) i (tn_lock t) (tn_now t) (tn_write t)].
    split_and!.
    + apply Hk. intros rec ->. by eapply prepare_created_key.
    + apply Forall_singleton. exact (conj (conj Hg (conj Ha Hnow)) Hu).
    + cbn. by rewrite E.
    + unfold effect_runs, creations. cbn [ledger_answers omap list_omap List.filter effect_run].
      destruct credit, (creates key (AnswerPrepare r)); cbn; lia.
  - intros; simplify_eq. exists credit, []. split; [by apply Hp|]. quiet.
  - intros; simplify_eq. destruct Hp as [Hc Hk].
    exists (credit && negb (effect_run registry key (EvInvoke inv))), [].
    split_and!; [by apply Hk|apply Forall_nil_2|done|].
    unfold effect_runs. cbn [List.filter ledger_answers]. destruct (effect_run registry key (EvInvoke inv)).
    + rewrite (Hc eq_refl). cbn. lia.
    + rewrite andb_true_r. cbn. lia.
  - destruct (effect_commit _ _ _ _ _ _ _ _ _ _) as [[r l] d'] eqn:E. intros; simplify_eq.
    destruct Hp as ((Hg & Ha & Hu) & Hs & Ht & Hk).
    exists credit, [CallCommit (wk_ledger w) (tn_files t) i d s at_ms (tn_lock t) (tn_write t)].
    split_and!; [by apply Hk| | |unfold effect_runs, creations; cbn; lia].
    + apply Forall_singleton. exact (conj (conj Hg (conj Ha (conj Hs Ht))) Hu).
    + cbn. by rewrite E.
Qed.

Fixpoint credits (cs : list bool) : nat :=
  match cs with [] => 0 | c :: cs => cost c + credits cs end.

Lemma credits_insert cs i c c' :
  cs !! i = Some c -> credits (<[i := c']> cs) + cost c = credits cs + cost c'.
Proof.
  revert i. induction cs as [|b cs IH]; intros [|i] H; try done.
  - injection H as ->. change (credits (<[0 := c']> (c :: cs))) with (cost c' + credits cs).
    cbn [credits]. lia.
  - specialize (IH i H).
    change (credits (<[S i := c']> (b :: cs))) with (cost b + credits (<[i := c']> cs)).
    cbn [credits]. lia.
Qed.

Lemma run_workers_paid schedule : forall ws dir cs ws' dir' events,
  Forall2 (fun c w => paid c (wk_work w)) cs ws -> Forall (fun it => turn_in_range it.2) schedule ->
  run_workers sha256 ws dir schedule = (ws', dir', events) ->
  exists calls, Forall (call_ok in_use) calls /\
    run_calls sha256 dir calls = (ledger_answers events, dir') /\
    effect_runs registry key events <= credits cs + creations key (ledger_answers events).
Proof.
  induction schedule as [|[i t] rest IH]; intros ws dir cs ws' dir' events Hp Ht Hrun; cbn in Hrun.
  { simplify_eq. exists []. split_and!; [apply Forall_nil_2|done|unfold effect_runs; cbn; lia]. }
  apply Forall_cons in Ht as [Ht Hrest]. destruct (ws !! i) as [w|] eqn:Ei; [|by eapply IH].
  destruct (Forall2_lookup_r _ _ _ _ _ Hp Ei) as (c & Hc & Hw).
  destruct (work_turn sha256 w dir t) as [[w1 dir1] ev1] eqn:E1.
  destruct (run_workers sha256 (<[i:=w1]> ws) dir1 rest) as [[ws2 dir2] ev2] eqn:E2. simplify_eq.
  destruct (work_turn_paid _ _ _ _ _ _ _ Hw Ht E1) as (c' & calls1 & Hw' & Hok1 & Hr1 & Hle1).
  apply (IH _ _ (<[i := c']> cs)) in E2 as (calls2 & Hok2 & Hr2 & Hle2); [|by apply Forall2_insert|done].
  exists (calls1 ++ calls2). split; [by apply Forall_app|].
  unfold ledger_answers in *. rewrite omap_app. split; [by eapply run_calls_app|].
  unfold effect_runs, creations in *. rewrite !List.filter_app, !length_app.
  pose proof (credits_insert cs i c c' Hc). lia.
Qed.
End Runs.

(** A worker at the start of a dispatch. *)
Definition dispatching (sha256 : string -> string) (registry : TaskHandlerRegistry)
    (in_use : string -> Prop) (w : Worker) : Prop :=
  exists task_id snapshot fence ledger, fence_in_range fence /\
    (forall e, ts_envelope snapshot = Some e -> in_use (env_idempotency_key e)) /\
    wk_work w = dispatch_claimed_attempt sha256 registry task_id snapshot fence ledger.

(** C9: a non-idempotent handler runs at most once for an idempotency key.
    However many workers dispatch claimed attempts on one effect ledger, in
    whatever order their interactions are interleaved, and whatever locks,
    clocks, writes, cancellations and handlers do in between, the handlers
    registered as non-idempotent are started at most once per idempotency
    key, and never for a key the ledger already records. *)
Theorem effect_handler_runs_once (sha256 : string -> string) (in_use : string -> Prop)
    (sha256_length : forall s, String.length (sha256 s) = 32)
    (sha256_collision_free : forall a b, in_use a -> in_use b ->
       key_hash sha256 a = key_hash sha256 b -> a = b)
    registry ws dir schedule ws' dir' events key :
  ledger_wf sha256 in_use dir -> Forall (dispatching sha256 registry in_use) ws ->
  Forall (fun it => turn_in_range it.2) schedule ->
  run_workers sha256 ws dir schedule = (ws', dir', events) ->
  effect_runs registry key events <= 1 /\
  ((exists r, on_ledger sha256 dir key r) -> effect_runs registry key events = 0).
Proof.
  intros Hwf Hws Ht Hrun.
  assert (Hp : Forall2 (fun c w => paid registry in_use key c (wk_work w)) (replicate (length ws) false) ws).
  { clear Hrun. induction Hws as [|w ws (task_id & snapshot & fence & ledger & Hf & Hu & Ew) _ IH]; constructor.
    - rewrite Ew. by apply paid_dispatch.
    - exact IH. }
  destruct (run_workers_paid _ _ _ _ _ _ _ _ _ _ _ Hp Ht Hrun) as (calls & Hok & Hcalls & Hle).
  assert (Hz : credits (replicate (length ws) false) = 0).
  { clear. by induction ws. }
  destruct (run_calls_keep sha256 sha256_length in_use sha256_collision_free calls dir _ dir' Hwf Hok Hcalls)
    as (_ & _ & Hnone & Hone & _).
  specialize (Hone key). split; [lia|]. intros [r Hr]. specialize (Hnone key r Hr). lia.
Qed.

(** ** What a dispatch decides once the handler has run *)

Definition outcome_retryable (o : TaskAttemptOutcome) : bool :=
  match o with
  | OutcomeCompleted _ _ => false
  | OutcomeFailed _ _ retryable | OutcomeTimedOut _ retryable => retryable
  end.

(** Completed with a commit the ledger acknowledged, or not to be retried. *)
Definition decision_settled (acknowledged : bool) (d : TaskDispatchDecision) : Prop :=
  match td_outcome d with
  | OutcomeCompleted _ _ => td_effect_committed d = true /\ acknowledged = true
  | o => td_effect_committed d = false /\ outcome_retryable o = false
  end.

Section Settled.
Variable registry : TaskHandlerRegistry.
Variable key : string.

(** [ran] and [acknowledged] sum up the events so far. *)
Fixpoint settles {A} (post : bool -> bool -> A -> Prop) (ran acknowledged : bool) (w : Work A) : Prop :=
  match w with
  | Done a => post ran acknowledged a
  | Clock k => forall r, (forall e, r = Err e -> err_retryable e = false) -> settles post ran acknowledged (k r)
  | Artifact _ _ k => forall r, settles post ran acknowledged (k r)
  | Inspect _ k => forall r, settles post ran acknowledged (k r)
  | Cancelled k => forall r, settles post ran acknowledged (k r)
  | Prepare _ k => forall r, settles post ran acknowledged (k r)
  | Invoke i k => forall r, settles post (ran || effect_run registry key (EvInvoke i)) acknowledged (k r)
  | Commit _ _ _ _ k => forall r, settles post ran (acknowledged || is_ok r) (k r)
  end.

Lemma settles_bind {A B} (post : bool -> bool -> A -> Prop) (post' : bool -> bool -> B -> Prop)
    (w : Work A) (f : A -> Work B) :
  (forall ran ack a, post ran ack a -> settles post' ran ack (f a)) ->
  forall ran ack, settles post ran ack w -> settles post' ran ack (work_bind w f).
Proof. intros Hf. induction w; cbn in *; eauto. Qed.

Lemma settles_on_ok {A B} (post : bool -> bool -> Res B -> Prop) ran ack (k : A -> Work (Res B)) r :
  (forall e, r = Err e -> post ran ack (Err e)) -> (forall a, r = Ok a -> settles post ran ack (k a)) ->
  settles post ran ack (on_ok k r).
Proof. destruct r; cbn; auto. Qed.

Lemma settles_payload {B} (post : bool -> bool -> Res B -> Prop) ran ack task_id envelope k :
  (forall e, post ran ack (Err e)) -> (forall p, settles post ran ack (k p)) ->
  settles post ran ack (resolve_task_payload task_id envelope k).
Proof.
  intros He Hk. unfold resolve_task_payload. destruct (te_input envelope); cbn [settles]; intros;
    by apply settles_on_ok.
Qed.

Definition dispatch_settled (ran ack : bool) (r : Res ClaimedDispatchResult) : Prop :=
  ran = true ->
  match r with
  | Ok (Executed _) => False
  | Ok (EffectDone _ _) => ack = true
  | Ok (EffectPreparedUnknown _) => True
  | Err e => err_retryable e = false
  end.

Lemma settles_run_prepared invocation intent :
  settles dispatch_settled false false (run_prepared invocation intent).
Proof.
  cbn. intros [|]; cbn; [done|].
  intros [[[bytes|err]|ms|]|err]; cbn; try done.
  - intros r Hr. apply settles_on_ok; [intros e -> _; by apply Hr|].
    intros now _. cbn. by intros [].
  - by intros [].
Qed.

Lemma settles_non_idempotent sha256 scope task_id envelope snapshot fence ledger :
  settles dispatch_settled false false
    (dispatch_non_idempotent_attempt sha256 scope task_id envelope snapshot fence ledger).
Proof.
  unfold dispatch_non_idempotent_attempt, intent_now.
  destruct (negb ledger); [done|]. destruct (_ && _); [done|].
  apply settles_on_ok; [done|]. intros op _. cbn [settles]. intros r1 _.
  apply settles_on_ok; [done|]. intros now1 _. apply settles_on_ok; [done|]. intros i1 _. cbn [settles].
  intros found. apply settles_on_ok; [done|]. intros [record|] _; [done|].
  apply settles_payload; [done|]. intros payload. cbn [settles]. intros r2 _.
  apply settles_on_ok; [done|]. intros now2 _. apply settles_on_ok; [done|]. intros i2 _. cbn [settles].
  intros r. apply settles_on_ok; [done|]. intros [rec|rec|rec] _; [|done|done].
  apply settles_run_prepared.
Qed.

Definition answer_settled (ran ack : bool) (r : Res TaskDispatchDecision) : Prop :=
  forall d, r = Ok d -> ran = true -> decision_settled ack d.

Lemma decide_outcome_settled snapshot observed ran ack r :
  dispatch_settled ran ack r -> ran = true -> decision_settled ack (decide_outcome snapshot true observed r).
Proof.
  intros Hr ->. specialize (Hr eq_refl). unfold decide_outcome. cbn [negb andb].
  destruct r as [[bytes|digest size|operation]|err]; cbn; [done|done|done|].
  by case_bool_decide.
Qed.

Lemma settles_dispatch sha256 task_id snapshot fence ledger :
  settles answer_settled false false
    (dispatch_claimed_attempt sha256 registry task_id snapshot fence ledger).
Proof.
  unfold dispatch_claimed_attempt.
  destruct (let? envelope := _ in _) as [envelope|]; [|done].
  destruct (registry !! te_kind envelope) as [[scope|]|] eqn:Er.
  - apply (settles_bind (fun ran ack r => forall x, r = Ok x -> dispatch_settled ran ack x)).
    + intros ran ack r Hr. apply settles_on_ok; [done|]. intros x ->. cbn [settles]. intros now _.
      apply settles_on_ok; [done|]. intros t _ d [= <-] Hran.
      exact (decide_outcome_settled _ _ _ _ _ (Hr x eq_refl) Hran).
    + apply (settles_bind dispatch_settled); [|apply settles_non_idempotent].
      intros ran ack x Hx. cbn. by intros ? [= <-].
  - apply (settles_bind (fun ran _ _ => ran = false)).
    + intros ran ack r ->. apply settles_on_ok; [done|]. intros x _. cbn. intros now _.
      by apply settles_on_ok.
    + apply settles_payload; [done|]. intros payload. cbn [settles effect_run].
      intros r. unfold non_idempotent_effect_scope. cbn [inv_envelope]. rewrite Er. done.
  - cbn. intros r _. by apply settles_on_ok.
Qed.
End Settled.

(** The events of a dispatch that one worker runs from start to end. *)
Lemma settles_run sha256 registry key post schedule : forall w dir w' dir' events ran ack,
  settles registry key post ran ack (wk_work w) ->
  Forall (fun it => forall e, tn_now it.2 = Err e -> err_retryable e = false) schedule ->
  run_workers sha256 [w] dir schedule = ([w'], dir', events) ->
  settles registry key post (ran || existsb (effect_run registry key) events)
    (ack || existsb (fun e => match e with EvLedger (AnswerCommit (Ok _)) => true | _ => false end) events)
    (wk_work w').
Proof.
  induction schedule as [|[i t] rest IH]; intros w dir w' dir' events ran ack Hw Ht Hrun; cbn in Hrun.
  { simplify_eq. cbn. by rewrite !orb_false_r. }
  apply Forall_cons in Ht as [Ht Hrest]. destruct i as [|i]; cbn in Hrun; [|exact (IH _ _ _ _ _ _ _ Hw Hrest Hrun)].
  destruct (work_turn sha256 w dir t) as [[w1 dir1] ev1] eqn:E1.
  destruct (run_workers sha256 [w1] dir1 rest) as [[ws2 dir2] ev2] eqn:E2. simplify_eq.
  rewrite !existsb_app, !orb_assoc. apply (IH w1 dir1 w' dir'); [|done|done]. clear IH E2.
  unfold work_turn in E1. destruct (wk_work w) eqn:Ew; cbn [settles] in Hw.
  - simplify_eq. rewrite Ew, !orb_false_r. exact Hw.
  - simplify_eq. cbn. rewrite !orb_false_r. by apply Hw.
  - simplify_eq. cbn. rewrite !orb_false_r. by apply Hw.
  - destruct (inspect_for_claim _ _ _ _ _ _ _ _) as [[r l] d]. simplify_eq. cbn. rewrite !orb_false_r. apply Hw.
  - destruct (prepare_for_claim _ _ _ _ _ _ _ _ _) as [[r l] d]. simplify_eq. cbn.
    rewrite !orb_false_r. apply Hw.
  - simplify_eq. cbn. rewrite !orb_false_r. apply Hw.
  - simplify_eq. cbn [existsb]. rewrite !orb_false_r. apply Hw.
  - destruct (effect_commit _ _ _ _ _ _ _ _ _ _) as [[r l] d']. simplify_eq. cbn. specialize (Hw r).
    destruct r; cbn [is_ok] in Hw; rewrite ?orb_false_r in *; exact Hw.
Qed.

(** C10: once a non-idempotent handler has been started, the dispatch never
    asks for a retry.  If the dispatch ends with a decision, the attempt is
    completed with a commit that the ledger acknowledged, or it fails or times
    out without being retryable.  (The clock's only error is not retryable.) *)
Theorem started_effect_not_retried sha256 registry ledger store task_id snapshot fence has_ledger
    dir schedule w' dir' events key d :
  Forall (fun it => forall e, tn_now it.2 = Err e -> err_retryable e = false) schedule ->
  run_workers sha256
    [MkWorker ledger store (dispatch_claimed_attempt sha256 registry task_id snapshot fence has_ledger)]
    dir schedule = ([w'], dir', events) ->
  wk_work w' = Done (Ok d) -> effect_runs registry key events > 0 ->
  decision_settled
    (existsb (fun e => match e with EvLedger (AnswerCommit (Ok _)) => true | _ => false end) events) d.
Proof.
  intros Ht Hrun Hw Hpos.
  pose proof (settles_run sha256 registry key answer_settled schedule (MkWorker _ _ _) dir w' dir' events _ _
                (settles_dispatch registry key sha256 task_id snapshot fence has_ledger) Ht Hrun) as Hs.
  rewrite Hw in Hs. cbn [settles] in Hs. apply (Hs d eq_refl). cbn [orb]. apply existsb_exists.
  unfold effect_runs in Hpos. destruct (List.filter _ events) as [|e l] eqn:E; [cbn in Hpos; lia|].
  exists e. apply filter_In. rewrite E. by left.
Qed.

(** ** Samples *)

Definition mail_registry : TaskHandlerRegistry := {["agent.run" := Some "mail"]}.
Definition mail_fence : TaskAttemptFence := MkFence "task-1" 1 "worker-1" 1 "token-1".
Definition mail_worker : Worker :=
  MkWorker effect_ledger effect_store
    (dispatch_claimed_attempt sha256_bytes mail_registry "task-1" effect_task mail_fence true).
Definition mail_turn : Turn :=
  MkTurn effect_files (Ok tt) (Ok 20%N) WriteOk false (Ok None) (Ok (HandlerReturned (Ok "sent"))).

(** Both workers find no record before either prepares one. *)
Definition mail_schedule : list (nat * Turn) :=
  (fun i => (i, mail_turn)) <$> [0; 1; 0; 1; 0; 0; 1; 1; 0; 0; 1; 0; 0; 0; 1; 0; 1; 0].

Lemma mail_turns_in_range : Forall (fun it => turn_in_range it.2) mail_schedule.
Proof.
  apply Forall_fmap, Forall_true. intros i. split; cbn.
  - intros n [= <-]. apply N.leb_le. reflexivity.
  - intros bytes [= <-]. apply N.leb_le. reflexivity.
Qed.

Lemma mail_clock_answers :
  Forall (fun it => forall e, tn_now it.2 = Err e -> err_retryable e = false) mail_schedule.
Proof. apply Forall_fmap, Forall_true. intros i e H. discriminate H. Qed.

Lemma mail_worker_dispatching : dispatching sha256_bytes mail_registry (fun k => k ∈ effect_keys) mail_worker.
Proof.
  exists "task-1", effect_task, mail_fence, true. split_and!; [split; apply N.leb_le; reflexivity| |reflexivity].
  intros e He. assert (env_idempotency_key <$> ts_envelope effect_task = Some "request-1") as Hk
    by (vm_compute; reflexivity).
  rewrite He in Hk. apply (inj Some) in Hk. rewrite Hk. apply elem_of_cons. by left.
Qed.

Lemma effect_handler_runs_once_witness :
  exists ws' dir' events,
    run_workers sha256_bytes [mail_worker; mail_worker] ∅ mail_schedule = (ws', dir', events) /\
    effect_runs mail_registry "request-1" events = 1 /\ effect_runs mail_registry "request-2" events <= 1.
Proof.
  destruct (run_workers sha256_bytes [mail_worker; mail_worker] ∅ mail_schedule) as [[ws' dir'] events] eqn:E.
  exists ws', dir', events. split; [reflexivity|]. split.
  - apply (f_equal (fun r => effect_runs mail_registry "request-1" r.2)) in E. cbn [snd] in E. rewrite <- E.
    vm_compute. reflexivity.
  - refine (proj1 (effect_handler_runs_once sha256_bytes (fun k => k ∈ effect_keys) sha256_bytes_length
      effect_keys_apart mail_registry _ _ _ _ _ _ "request-2" empty_ledger_wf _ mail_turns_in_range E)).
    repeat apply Forall_cons_2; [exact mail_worker_dispatching..|apply Forall_nil_2].
Defined.

(** The handler of the first worker alone, and the decision it leads to. *)
Lemma started_effect_not_retried_witness :
  exists w' dir' events d,
    run_workers sha256_bytes [mail_worker] ∅ mail_schedule = ([w'], dir', events) /\
    wk_work w' = Done (Ok d) /\ td_effect_committed d = true /\ decision_settled true d.
Proof.
  destruct (run_workers sha256_bytes [mail_worker] ∅ mail_schedule) as [[ws' dir'] events] eqn:E.
  assert (match ws' with [w] => match wk_work w with Done (Ok d) => td_effect_committed d | _ => false end
          | _ => false end = true) as Hd.
  { apply (f_equal (fun r => match r.1.1 with
      [w] => match wk_work w with Done (Ok d) => td_effect_committed d | _ => false end
      | _ => false end)) in E. cbn [fst] in E. rewrite <- E. vm_compute. reflexivity. }
  destruct ws' as [|w' [|]]; [discriminate Hd| |discriminate Hd].
  destruct (wk_work w') as [[d|]| | | | | | |] eqn:Ew; try discriminate Hd.
  exists w', dir', events, d. split; [reflexivity|]. split; [exact Ew|]. split; [exact Hd|].
  pose proof (started_effect_not_retried sha256_bytes mail_registry _ _ _ _ _ _ _ _ _ _ _ "request-1" d
    mail_clock_answers E Ew) as H.
  assert (0 < effect_runs mail_registry "request-1" events) as Hpos.
  { apply (f_equal (fun r => effect_runs mail_registry "request-1" r.2)) in E. cbn [snd] in E. rewrite <- E.
    apply Nat.ltb_lt. vm_compute. reflexivity. }
  specialize (H Hpos). unfold decision_settled in *. destruct (td_outcome d); [|exact H|exact H].
  split; [exact Hd|reflexivity].
Defined.
