(* ===== verification/TaskRecovery.v ===== *)
(** * Restart recovery (crates/eva-runtime/src/recovery.rs)

    What the daemon does with the tasks it finds on disk before it starts its
    workers: from the handler registry and the effect ledger it decides which
    abandoned attempts are queued again, completed, blocked for an operator or
    interrupted.  The listing of the task directory
    (crates/eva-storage/src/task_state.rs) is here too.

    The redrive of events and the provider processes (their table, signals and
    backoff) are not modelled, nor are the fields of the report they fill. *)

From Stdlib Require Import Ascii.
From stdpp Require Import base numbers strings gmap list sorting.
From S2P Require Import Prelude RustStr Digest Error Ids Durable EventLog TaskState.
From S2P Require Import TaskTransition TaskAccept FieldEscape TaskStorage EffectLedger TaskWorker TaskStore.

(** ** Listing the task directory *)

(** The names [read_dir] gives. *)
Definition dir_names (files : Files) (dir : string) : list string :=
  omap (fun entry =>
    match strip_prefix (dir +:+ "/") entry.1 with
    | Some name => if contains_char "/" name then None else Some name
    | None => None
    end) (map_to_list files).

Definition is_task_name (name : string) : bool :=
  negb (String.eqb name "latest-basic.task") && bool_decide (file_extension name = Some "task").

(** Paths of one directory are ordered by their names, as bytes. *)
Definition name_le (a b : string) : Prop := String.leb a b = true.
#[export] Instance name_le_dec : RelDecision name_le.
Proof. unfold name_le. solve_decision. Defined.

Definition list_record (s : FileSystemTaskStateStore) (files : Files) (name : string) :
    Res TaskStateSnapshot :=
  let path := path_join (tss_task_dir s) name in
  match read_to_string files path with
  | Err failure =>
      Err (internal "failed to read task state" ⊕ ("path", path)
             ⊕ ("io_error", read_failure_text failure))
  | Ok data =>
      let? snapshot := map_err (fun error => error ⊕ ("path", path)) (from_storage data) in
      let expected_task_id := file_stem name in
      reject negb (utf8_valid expected_task_id) with
        conflict "task state file name is not valid UTF-8" ⊕ ("path", path) else
      reject negb (String.eqb (ts_task_id snapshot) expected_task_id) with
        file_key_error path expected_task_id (ts_task_id snapshot) else
      Ok snapshot
  end.

(** [listing] is the outcome of reading the directory and its entries; a
    missing directory has no entries. *)
Definition list_records (s : FileSystemTaskStateStore) (files : Files) (listing : Res unit) :
    Res (list TaskStateSnapshot) :=
  listing >>?
  try_map (list_record s files)
    (merge_sort name_le (List.filter is_task_name (dir_names files (tss_task_dir s)))).

(** ** Reports *)

Record RecoveredTask := MkRecovered {
  rt_task_id : string;
  rt_previous_status : string;
  rt_status : string;
  rt_redrive_candidate : bool
}.

Record RuntimeRecoveryReport := MkReport {
  rr_scanned_tasks : N;
  rr_recovered_tasks : list RecoveredTask;
  rr_unchanged_tasks : list string;
  rr_recovered_snapshots : list TaskStateSnapshot;
  rr_audit : list string
}.
#[export] Instance RuntimeRecoveryReport_eta : Eta RuntimeRecoveryReport := fun r =>
  MkReport (rr_scanned_tasks r) (rr_recovered_tasks r) (rr_unchanged_tasks r)
    (rr_recovered_snapshots r) (rr_audit r).

Definition empty_recovery_report (scanned_tasks : N) : RuntimeRecoveryReport :=
  MkReport scanned_tasks [] [] [] [].

(** ** One task *)

Definition recovery_status (t : TaskStateSnapshot) : option string :=
  if match ts_dead_letters t with [] => false | _ => true end
     && is_one_of (ts_status t) ["queued"; "running"; "cancelling"] then Some "recovering"
  else if is_some (ts_replay_delivery t) && negb (ts_cancel_requested t)
          && negb (ts_cancel_accepted t) then
    if String.eqb (ts_status t) "queued" then None
    else if is_one_of (ts_status t) ["running"; "interrupted"; "recovering"] then Some "queued"
    else None
  else if String.eqb (ts_status t) "queued" then None
  else if is_one_of (ts_status t) ["running"; "cancelling"] then Some "interrupted"
  else None.

Definition marked_text (previous_status status : string) : string :=
  "runtime recovery marked " +:+ previous_status +:+ " task as " +:+ status +:+ " after restart".

(** The status change that [recover_snapshots] and [recover_baseline_snapshot]
    write. *)
Definition mark_recovered (t : TaskStateSnapshot) (status : string) : TaskStateSnapshot :=
  push_log (t <| ts_status := status |>) "warning" (marked_text (ts_status t) status).

(** [recover_snapshots] of one snapshot: unchanged, or the new snapshot and
    its entry of the report. *)
Definition recover_snapshot (t : TaskStateSnapshot) : option (TaskStateSnapshot * RecoveredTask) :=
  match recovery_status t with
  | None => None
  | Some status =>
      let marked :=
        if String.eqb status "queued" && is_some (ts_replay_delivery t)
        then ok (mark_abandoned_replay_delivery_queued t)
        else Some (t <| ts_status := status |>) in
      (fun t' => (push_log t' "warning" (marked_text (ts_status t) status),
                  MkRecovered (ts_task_id t') (ts_status t) status (String.eqb status "recovering")))
        <$> marked
  end.

Fixpoint recover_snapshots_loop (r : RuntimeRecoveryReport) (snapshots : list TaskStateSnapshot) :
    RuntimeRecoveryReport :=
  match snapshots with
  | [] => r
  | t :: rest =>
      recover_snapshots_loop
        match recover_snapshot t with
        | None => r <| rr_unchanged_tasks := rr_unchanged_tasks r ++ [ts_task_id t] |>
        | Some (t', entry) =>
            r <| rr_recovered_tasks := rr_recovered_tasks r ++ [entry] |>
              <| rr_recovered_snapshots := rr_recovered_snapshots r ++ [t'] |>
        end rest
  end.

Definition scan_audit (r : RuntimeRecoveryReport) : list string :=
  [ "runtime.recovery:scanned:" +:+ n_to_string (rr_scanned_tasks r);
    "runtime.recovery:recovered:" +:+ n_to_string (len (rr_recovered_tasks r));
    "runtime.recovery:unchanged:" +:+ n_to_string (len (rr_unchanged_tasks r)) ].

Definition recover_snapshots (snapshots : list TaskStateSnapshot) : RuntimeRecoveryReport :=
  let r := recover_snapshots_loop (empty_recovery_report (len snapshots)) snapshots in
  r <| rr_audit := scan_audit r |>.

(** ** One task, with the handlers and the effect ledger *)

(** [p?] followed by [k]. *)
Fixpoint prog_bind {A B} (p : StoreProg A) (k : A -> StoreProg B) : StoreProg B :=
  match p with
  | Done (Ok a) => k a
  | Done (Err e) => Done (Err e)
  | Perform a f => Perform a (fun r => prog_bind (f r) k)
  end.

(** [Ok((p?, decision))] *)
Definition deciding (p : StoreProg TaskStateSnapshot) (decision : string) :
    StoreProg (TaskStateSnapshot * string) :=
  prog_bind p (fun t => Done (Ok (t, decision))).

Definition reject_current_generation_live_recovery (s : FileSystemTaskStateStore)
    (t : TaskStateSnapshot) : Res unit :=
  reject bool_decide (wg_generation <$> tss_writer s = Some (ts_owner_generation t))
         && is_one_of (ts_status t) ["running"; "cancelling"] with
    conflict "restart recovery cannot interrupt a live task from the current writer generation"
      ⊕ ("task_id", ts_task_id t) ⊕ ("status", ts_status t)
      ⊕ ("writer_generation", n_to_string (ts_owner_generation t)) else
  Ok tt.

Definition interrupt_task_after_restart (t : TaskStateSnapshot) (reason : string) :
    StoreProg TaskStateSnapshot := compare_and_set (mark_interrupted t reason).

Definition interrupt_unknown_handler_after_restart (t : TaskStateSnapshot) :
    StoreProg TaskStateSnapshot :=
  if is_one_of (ts_status t) ["running"; "cancelling"; "recovering"] then
    interrupt_task_after_restart t "registered task handler is unavailable during restart recovery"
  else Done (Ok t).

Definition recover_baseline_snapshot (s : FileSystemTaskStateStore) (t : TaskStateSnapshot) :
    StoreProg TaskStateSnapshot :=
  match recovery_status t with
  | None => Done (Ok t)
  | Some status =>
      if String.eqb status "queued" && is_some (ts_replay_delivery t)
      then recover_abandoned_replay_delivery s (ts_task_id t)
      else compare_and_set (mark_recovered t status)
  end.

Definition recover_registered_safe_task (s : FileSystemTaskStateStore) (t : TaskStateSnapshot) :
    StoreProg TaskStateSnapshot :=
  if is_one_of (ts_status t) ["running"; "interrupted"; "recovering"] then
    prog_bind (if is_some (ts_replay_delivery t)
               then recover_abandoned_replay_delivery s (ts_task_id t)
               else recover_abandoned_task_for_retry s (ts_task_id t))
      (fun recovered =>
        if negb (bool_decide (recovered = t)) || String.eqb (ts_status t) "interrupted"
        then Done (Ok recovered)
        else if is_some (ts_replay_delivery t)
                && match ts_dead_letters t with [] => true | _ => false end
        then interrupt_task_after_restart t
               "abandoned replay delivery is not eligible for another attempt"
        else recover_baseline_snapshot s t)
  else recover_baseline_snapshot s t.

(** What the ledger's record of the operation decides. *)
Definition recover_from_effect (s : FileSystemTaskStateStore) (t : TaskStateSnapshot)
    (record : EffectLedgerRecord) : StoreProg (TaskStateSnapshot * string) :=
  let operation_digest := eo_operation_digest (er_operation record) in
  let missing what :=
    conflict ("committed effect record is missing its result " +:+ what)
      ⊕ ("task_id", ts_task_id t) ⊕ ("operation_digest", operation_digest) in
  match er_state record with
  | EffectPrepared =>
      deciding (block_task_for_unknown_effect s (ts_task_id t) operation_digest)
        "effect_prepared_operator_block"
  | EffectCommitted =>
      attempt (ok_or (er_result_digest record) (missing "digest")) (fun result_digest =>
      attempt (ok_or (er_result_size_bytes record) (missing "size")) (fun result_size_bytes =>
      deciding (recover_task_from_committed_effect s (ts_task_id t) operation_digest result_digest
                  result_size_bytes) "effect_committed_completed"))
  end.

Section Recovery.
(** SHA-256 of the [sha2] crate, as the ledger uses it. *)
Variable sha256 : string -> string.

(** The ledger is inspected before the store is touched: the files, ledger
    directory and lock outcome are those of that moment. *)
Definition recover_effect_aware_task (s : FileSystemTaskStateStore) (handlers : TaskHandlerRegistry)
    (l : FileSystemEffectLedger) (files : Files) (dir : option Dir) (lock : Res unit)
    (t : TaskStateSnapshot) : StoreProg (TaskStateSnapshot * string) * FileSystemEffectLedger :=
  let about (r : EvaError) := r ⊕ ("task_id", ts_task_id t) in
  match reject_current_generation_live_recovery s t with
  | Err e => (Done (Err e), l)
  | Ok _ =>
  match ts_envelope t with
  | None => (deciding (recover_baseline_snapshot s t) "legacy_conservative", l)
  | Some envelope =>
  match map_err about (task_kind_parse (env_kind envelope)) with
  | Err e => (Done (Err e), l)
  | Ok kind =>
  match handlers !! kind with
  | None => (deciding (interrupt_unknown_handler_after_restart t) "unknown_handler_interrupted", l)
  | Some None => (deciding (recover_registered_safe_task s t) "safe_handler", l)
  | Some (Some effect_scope) =>
  match map_err about (operation_new sha256 (env_idempotency_key envelope) (env_kind envelope)
                         (env_agent_id envelope) effect_scope (input_digest (env_input envelope))) with
  | Err e => (Done (Err e), l)
  | Ok operation =>
      let '(found, l) := effect_inspect sha256 l files dir lock operation in
      (match map_err about found with
       | Err e => Done (Err e)
       | Ok None => deciding (recover_registered_safe_task s t) "effect_absent_safe_retry"
       | Ok (Some record) => recover_from_effect s t record
       end, l)
  end end end end end.

(** ** All tasks *)

(** How the store runs an operation: its turns may be interleaved with those
    of other processes, and its locks and writes may fail. *)
Variable run : Files -> StoreProg (TaskStateSnapshot * string) ->
  Res (TaskStateSnapshot * string) * Files.

Definition note_recovery (r : RuntimeRecoveryReport) (previous recovered : TaskStateSnapshot)
    (decision : string) : RuntimeRecoveryReport :=
  let r := r <| rr_audit := rr_audit r ++
                  ["runtime.recovery:task:" +:+ ts_task_id previous +:+ ":" +:+ decision] |> in
  if bool_decide (recovered = previous)
  then r <| rr_unchanged_tasks := rr_unchanged_tasks r ++ [ts_task_id previous] |>
  else r <| rr_recovered_tasks := rr_recovered_tasks r ++
              [MkRecovered (ts_task_id recovered) (ts_status previous) (ts_status recovered)
                 (String.eqb (ts_status recovered) "recovering")] |>
         <| rr_recovered_snapshots := rr_recovered_snapshots r ++ [recovered] |>.

(** [lock t]: the outcome of the ledger's lock for task [t]. *)
Fixpoint recover_each (s : FileSystemTaskStateStore) (handlers : TaskHandlerRegistry)
    (l : FileSystemEffectLedger) (files : Files) (dir : option Dir) (lock : TaskStateSnapshot -> Res unit)
    (r : RuntimeRecoveryReport) (snapshots : list TaskStateSnapshot) :
    Res RuntimeRecoveryReport * FileSystemEffectLedger * Files :=
  match snapshots with
  | [] => (Ok r, l, files)
  | t :: rest =>
      let '(p, l) := recover_effect_aware_task s handlers l files dir (lock t) t in
      match run files p with
      | (Err e, files) => (Err e, l, files)
      | (Ok (recovered, decision), files) =>
          recover_each s handlers l files dir lock (note_recovery r t recovered decision) rest
      end
  end.

Definition recover_effect_aware_tasks (s : FileSystemTaskStateStore) (handlers : TaskHandlerRegistry)
    (l : FileSystemEffectLedger) (files : Files) (dir : option Dir) (listing : Res unit)
    (lock : TaskStateSnapshot -> Res unit) :
    Res RuntimeRecoveryReport * FileSystemEffectLedger * Files :=
  match list_records s files listing with
  | Err e => (Err e, l, files)
  | Ok snapshots =>
      let '(res, l, files) :=
        recover_each s handlers l files dir lock (empty_recovery_report (len snapshots)) snapshots in
      ((let? r := res in
        Ok (r <| rr_audit := rr_audit r ++ scan_audit r ++ ["runtime.recovery:effect_aware:true"] |>)),
       l, files)
  end.
End Recovery.

(** ** The recovery without handlers *)

Section Persist.
(** [read] and the operations of the store, as they are run. *)
Variable run : Files -> StoreProg TaskStateSnapshot -> Res TaskStateSnapshot * Files.

Definition persist_recovered_snapshot (s : FileSystemTaskStateStore) (t : TaskStateSnapshot) :
    StoreProg TaskStateSnapshot :=
  if is_some (ts_replay_delivery t) && String.eqb (ts_status t) "queued"
  then recover_abandoned_replay_delivery s (ts_task_id t) else compare_and_set t.

(** The snapshots as they are after the loop (up to the first failure), and
    how many were written. *)
Fixpoint persist_each (s : FileSystemTaskStateStore) (files : Files) (persisted : N)
    (snapshots : list TaskStateSnapshot) : Res N * list TaskStateSnapshot * Files :=
  match snapshots with
  | [] => (Ok persisted, [], files)
  | t :: rest =>
      match run files (reading (ts_task_id t) returning) with
      | (Err e, files) => (Err e, t :: rest, files)
      | (Ok found, files) =>
          if bool_decide (found = t) then
            let '(res, rest, files) := persist_each s files persisted rest in (res, t :: rest, files)
          else match run files (persist_recovered_snapshot s t) with
          | (Err e, files) => (Err e, t :: rest, files)
          | (Ok t', files) =>
              let '(res, rest, files) := persist_each s files (persisted + 1) rest in
              (res, t' :: rest, files)
          end
      end
  end.

Definition persist_recovered_snapshots (s : FileSystemTaskStateStore) (files : Files)
    (r : RuntimeRecoveryReport) : Res unit * RuntimeRecoveryReport * Files :=
  let '(res, snapshots, files) := persist_each s files 0 (rr_recovered_snapshots r) in
  let r := r <| rr_recovered_snapshots := snapshots |> in
  match res with
  | Err e => (Err e, r, files)
  | Ok persisted =>
      (Ok tt, r <| rr_audit := rr_audit r ++ ["runtime.recovery:persisted:" +:+ n_to_string persisted] |>,
       files)
  end.

Definition recover_task_store (s : FileSystemTaskStateStore) (files : Files) (listing : Res unit) :
    Res RuntimeRecoveryReport * Files :=
  match list_records s files listing with
  | Err e => (Err e, files)
  | Ok snapshots =>
      let '(res, r, files) := persist_recovered_snapshots s files (recover_snapshots snapshots) in
      ((res >>? Ok r), files)
  end.
End Persist.
