(* ===== verification/RecoverySafety.v ===== *)
(** * Restart recovery decides every task (crates/eva-runtime/src/recovery.rs)

    [recovery_proposal] says what recovery commits for a task, as a function
    of the task, the handler registry and the ledger's record of its
    operation.  Run alone, the recovery of the daemon implements it: it
    succeeds, no task stays running, and running it again changes nothing. *)

From Stdlib Require Import Ascii.
From stdpp Require Import base numbers strings gmap list sorting.
From S2P Require Import Prelude RustStr Digest Error Ids Durable EventLog TaskState.
From S2P Require Import TaskTransition TaskAccept FieldEscape TaskStorage EffectLedger EffectSafety TaskWorker TaskStore.
From S2P Require Import TaskWritable TaskDirectory TaskProgress TaskRecovery.

(** ** The decision *)

Abbreviation Proposal := (option (TaskStateCommitMode * TaskStateSnapshot)).

(** A proposal that differs from the record. *)
Definition changed (mode : TaskStateCommitMode) (t p : TaskStateSnapshot) : Proposal :=
  if bool_decide (p = t) then None else Some (mode, p).

Definition requeue_proposal (t : TaskStateSnapshot) : Proposal :=
  (fun p => (RetryRequeue, p)) <$>
    (if is_some (ts_replay_delivery t) then task_replay_recovery_candidate t
     else task_abandoned_recovery_candidate t).

Definition baseline_proposal (t : TaskStateSnapshot) : Proposal :=
  match recovery_status t with
  | None => None
  | Some status =>
      if String.eqb status "queued" && is_some (ts_replay_delivery t)
      then requeue_proposal t else Some (CompareAndSet, mark_recovered t status)
  end.

Definition interrupt_proposal (t : TaskStateSnapshot) (reason : string) : Proposal :=
  Some (CompareAndSet, mark_interrupted t reason).

Definition safe_proposal (t : TaskStateSnapshot) : Proposal :=
  if is_one_of (ts_status t) ["running"; "interrupted"; "recovering"] then
    match requeue_proposal t with
    | Some proposal => Some proposal
    | None =>
        if String.eqb (ts_status t) "interrupted" then None
        else if is_some (ts_replay_delivery t)
                && match ts_dead_letters t with [] => true | _ => false end
        then interrupt_proposal t "abandoned replay delivery is not eligible for another attempt"
        else baseline_proposal t
    end
  else baseline_proposal t.

(** [found] is the ledger's record of the task's operation. *)
Definition recovery_proposal (handlers : TaskHandlerRegistry) (found : option EffectLedgerRecord)
    (t : TaskStateSnapshot) : Proposal :=
  match ts_envelope t with
  | None => baseline_proposal t
  | Some envelope =>
      match handlers !! env_kind envelope with
      | None =>
          if is_one_of (ts_status t) ["running"; "cancelling"; "recovering"] then
            interrupt_proposal t "registered task handler is unavailable during restart recovery"
          else None
      | Some None => safe_proposal t
      | Some (Some _) =>
          match found with
          | None => safe_proposal t
          | Some record =>
              let operation_digest := eo_operation_digest (er_operation record) in
              match er_state record, er_result_digest record, er_result_size_bytes record with
              | EffectPrepared, _, _ =>
                  ok (block_unknown_effect t operation_digest) ≫= changed RestartRecovery t
              | EffectCommitted, Some d, Some z =>
                  ok (recover_committed_effect t operation_digest d z) ≫= changed RestartRecovery t
              | _, _, _ => None
              end
          end
      end
  end.

(** The record recovery leaves. *)
Definition recovered_as (g : WriterGeneration) (proposal : Proposal) (t : TaskStateSnapshot) :
    TaskStateSnapshot :=
  match proposal with
  | None => t
  | Some (_, p) => store_commit p (ts_record_version t + 1) g
  end.

(** ** Running a program alone *)

Lemma run_alone_bind {A B} s (p : StoreProg A) (k : A -> StoreProg B) : forall files,
  run_alone s files (prog_bind p k) =
  match run_alone s files p with
  | (Ok a, files') => run_alone s files' (k a)
  | (Err e, files') => (Err e, files')
  end.
Proof.
  induction p as [[a|e]|a f IH]; intros files; cbn; [done..|].
  destruct (perform s files all_well a) as [r files']. apply IH.
Qed.

Section Alone.
Context (dir : string) (s : FileSystemTaskStateStore) (w : DurableWriterGuard).
Hypothesis Hstore : store_ok dir s.
Hypothesis Hapart : writer_apart s.
Hypothesis Hwriter : tss_writer s = Some w.
Abbreviation g := (wg_generation w).

(** The record of one task is now [t']; but for it and the alias of the latest
    record every file is untouched. *)
Definition left_with (files files' : Files) (task_id : string) (t' : TaskStateSnapshot) : Prop :=
  dir_ok dir files' /\ verify_current w files' = Ok tt /\ on_disk dir files' task_id t' /\
  forall path, path <> record_path dir task_id -> path <> record_path dir latest_id -> files' !! path = files !! path.

(** [p] ends with the outcome of [proposal] for the task. *)
Definition decides (files : Files) (task_id : string) (t : TaskStateSnapshot) (proposal : Proposal)
    {A} (p : StoreProg A) (a : A) : Prop :=
  exists files', run_alone s files p = (Ok a, files') /\
    left_with files files' task_id (recovered_as g proposal t) /\ (proposal = None -> files' = files).

(** A task at rest on disk, that may be committed once more. *)
Definition at_rest (files : Files) (task_id : string) (t : TaskStateSnapshot) : Prop :=
  dir_ok dir files /\ verify_current w files = Ok tt /\ on_disk dir files task_id t /\
  task_id <> latest_id.

Definition acceptable (t : TaskStateSnapshot) (proposal : Proposal) : Prop :=
  match proposal with
  | None => True
  | Some (mode, p) =>
      commit_checks mode t p = true /\ writable p /\ ts_task_id p = ts_task_id t /\
      ts_owner_generation p = ts_owner_generation t /\ ts_record_version p = ts_record_version t /\
      (ts_record_version t + 1 <= u64_max)%N
  end.

Lemma decides_done files task_id t : at_rest files task_id t -> decides files task_id t None (Done (Ok t)) t.
Proof. intros (Hd & Hv & Hon & _). exists files. split; [done|]. by split; [split_and!|]. Qed.

Lemma perform_proposal files task_id t mode p :
  at_rest files task_id t -> acceptable t (Some (mode, p)) ->
  exists files', perform s files all_well (ACommit p (ts_record_version t) mode)
      = (Ok (recovered_as g (Some (mode, p)) t), files') /\
    left_with files files' task_id (recovered_as g (Some (mode, p)) t).
Proof using Hstore Hapart Hwriter.
  intros (Hd & Hv & Hon & Hne) (Hc & Hw & Hid & Hg & Hver & Hle).
  destruct (commit_alone dir s files g task_id t p mode) as (files' & E & Hd' & Hw' & Hon' & Hf); try done.
  { unfold can_write. rewrite Hwriter. done. }
  exists files'. split; [exact E|]. unfold can_write in Hw'. rewrite Hwriter in Hw'.
  split_and!; [done|apply Hw'|exact Hon'|done].
Qed.

(** A commit in the pattern of the store's operations. *)
Lemma decides_committing files task_id t mode p version conflicted :
  at_rest files task_id t -> acceptable t (Some (mode, p)) ->
  decides files task_id t (Some (mode, p)) (committing task_id version p mode returning conflicted)
    (recovered_as g (Some (mode, p)) t).
Proof using Hstore Hapart Hwriter.
  intros Hr Ha. destruct (perform_proposal files task_id t mode p Hr Ha) as (files' & E & Hl).
  exists files'. split; [|by split]. destruct Ha as (_ & _ & _ & _ & Hver & _).
  unfold committing. cbn [run_alone]. rewrite Hver, E. reflexivity.
Qed.

Lemma decides_compare_and_set files task_id t p :
  at_rest files task_id t -> acceptable t (Some (CompareAndSet, p)) ->
  decides files task_id t (Some (CompareAndSet, p)) (compare_and_set p)
    (recovered_as g (Some (CompareAndSet, p)) t).
Proof using Hstore Hapart Hwriter.
  intros Hr Ha. destruct (perform_proposal files task_id t _ p Hr Ha) as (files' & E & Hl).
  exists files'. split; [|by split]. destruct Ha as (_ & _ & _ & _ & Hver & _).
  unfold compare_and_set. cbn [run_alone]. rewrite Hver, E. reflexivity.
Qed.

Lemma decides_reading {A} files task_id t proposal (k : TaskStateSnapshot -> StoreProg A) a :
  at_rest files task_id t -> decides files task_id t proposal (k t) a ->
  decides files task_id t proposal (reading task_id k) a.
Proof using Hstore.
  intros (_ & _ & Hon & _) (files' & E & Hl). exists files'. split; [|done].
  unfold reading. cbn [run_alone]. by rewrite (read_alone dir s files task_id t Hstore Hon).
Qed.

Lemma decides_bind {A B} files task_id t proposal (p : StoreProg A) a (k : A -> StoreProg B) b :
  decides files task_id t proposal p a -> (forall files', run_alone s files' (k a) = (Ok b, files')) ->
  decides files task_id t proposal (prog_bind p k) b.
Proof.
  intros (files' & E & Hl) Hk. exists files'. split; [|done]. by rewrite run_alone_bind, E.
Qed.

Lemma at_rest_id files task_id t : at_rest files task_id t -> exists i, id_parse KRequest task_id = Ok i.
Proof.
  intros (_ & _ & (_ & [Hst _] & <-) & _). apply tv_id, task_validate_iff, Hst.
Qed.

(** ** The store's recovery operations, alone *)

Lemma replay_decides files task_id t :
  at_rest files task_id t -> is_some (ts_replay_delivery t) = true ->
  (ts_status t = "running" -> ts_owner_generation t <> g) -> acceptable t (requeue_proposal t) ->
  decides files task_id t (requeue_proposal t) (recover_abandoned_replay_delivery s task_id)
    (recovered_as g (requeue_proposal t) t).
Proof using Hstore Hapart Hwriter.
  intros Hr Hrep Hlive Ha. unfold recover_abandoned_replay_delivery.
  destruct (at_rest_id _ _ _ Hr) as [i ->]. cbn [attempt]. rewrite Hwriter. cbn [fmap option_fmap option_map ok_or attempt].
  cbn [cas_loop TASK_STATE_CAS_RETRY_LIMIT]. apply decides_reading; [done|].
  destruct (ts_replay_delivery t) as [rd|] eqn:Erd; [|done]. cbn [is_none].
  assert (String.eqb (ts_status t) "running" && (ts_owner_generation t =? g)%N = false) as ->.
  { destruct (String.eqb_spec (ts_status t) "running") as [Hs|]; [|done].
    apply N.eqb_neq. by apply Hlive. }
  unfold requeue_proposal in *. rewrite Erd in *. cbn [is_some] in *.
  destruct (task_replay_recovery_candidate t) as [p|]; cbn [fmap option_fmap option_map] in *.
  - by apply decides_committing.
  - by apply decides_done.
Qed.

Lemma abandoned_decides files task_id t :
  at_rest files task_id t -> is_some (ts_replay_delivery t) = false -> ts_status t <> "queued" ->
  (requeue_proposal t <> None -> ts_owner_generation t <> g) -> acceptable t (requeue_proposal t) ->
  decides files task_id t (requeue_proposal t) (recover_abandoned_task_for_retry s task_id)
    (recovered_as g (requeue_proposal t) t).
Proof using Hstore Hapart Hwriter.
  intros Hr Hrep Hq Hgen Ha. unfold recover_abandoned_task_for_retry, recovery_writer_generation.
  destruct (at_rest_id _ _ _ Hr) as [i ->]. rewrite Hwriter. cbn [attempt fmap option_fmap option_map ok_or].
  cbn [cas_loop TASK_STATE_CAS_RETRY_LIMIT]. apply decides_reading; [done|]. rewrite Hrep.
  rewrite (proj2 (String.eqb_neq _ _) Hq). unfold requeue_proposal in *. rewrite Hrep in *.
  destruct (task_abandoned_recovery_candidate t) as [p|]; cbn [fmap option_fmap option_map] in *.
  - unfold reject_current_generation_recovery. rewrite (proj2 (N.eqb_neq _ _)) by (by apply Hgen).
    cbn [attempt]. by apply decides_committing.
  - by apply decides_done.
Qed.

Lemma block_decides files task_id t op p :
  at_rest files task_id t -> validate_canonical_sha256 op "effect operation digest" = Ok tt ->
  block_unknown_effect t op = Ok p ->
  (p <> t -> ts_owner_generation t <> g) -> acceptable t (changed RestartRecovery t p) ->
  decides files task_id t (changed RestartRecovery t p) (block_task_for_unknown_effect s task_id op)
    (recovered_as g (changed RestartRecovery t p) t).
Proof using Hstore Hapart Hwriter.
  intros Hr Hop Hp Hgen Ha. unfold block_task_for_unknown_effect, recovery_writer_generation.
  destruct (at_rest_id _ _ _ Hr) as [i ->]. rewrite Hop, Hwriter. cbn [attempt fmap option_fmap option_map ok_or].
  cbn [cas_loop TASK_STATE_CAS_RETRY_LIMIT]. apply decides_reading; [done|]. rewrite Hp. cbn [attempt].
  unfold changed in *. case_bool_decide as Heq; [by apply decides_done|].
  unfold reject_current_generation_recovery. rewrite (proj2 (N.eqb_neq _ _)) by (by apply Hgen).
  cbn [attempt]. by apply decides_committing.
Qed.

Lemma committed_decides files task_id t op d z p :
  at_rest files task_id t -> validate_canonical_sha256 op "effect operation digest" = Ok tt ->
  validate_canonical_sha256 d "task result digest" = Ok tt ->
  recover_committed_effect t op d z = Ok p ->
  (p <> t -> ts_owner_generation t <> g) -> acceptable t (changed RestartRecovery t p) ->
  decides files task_id t (changed RestartRecovery t p)
    (recover_task_from_committed_effect s task_id op d z)
    (recovered_as g (changed RestartRecovery t p) t).
Proof using Hstore Hapart Hwriter.
  intros Hr Hop Hd Hp Hgen Ha. unfold recover_task_from_committed_effect, recovery_writer_generation.
  destruct (at_rest_id _ _ _ Hr) as [i ->]. rewrite Hop, Hd, Hwriter. cbn [attempt fmap option_fmap option_map ok_or].
  cbn [cas_loop TASK_STATE_CAS_RETRY_LIMIT]. apply decides_reading; [done|]. rewrite Hp. cbn [attempt].
  unfold changed in *. case_bool_decide as Heq; [by apply decides_done|].
  unfold reject_current_generation_recovery. rewrite (proj2 (N.eqb_neq _ _)) by (by apply Hgen).
  cbn [attempt]. by apply decides_committing.
Qed.
End Alone.

(** ** The proposals are acceptable *)

(** A record that can be committed once more. *)
Definition committable (t : TaskStateSnapshot) : Prop :=
  stored t /\ (ts_record_version t + 1 <= u64_max)%N /\ (len (ts_logs t) < usize_max)%N.

Lemma requeue_candidate_shape t mode p :
  requeue_proposal t = Some (mode, p) ->
  mode = RetryRequeue /\ not_recoverable t = false /\
  (exists m, p = push_log (reset_to_queued t) "warning" m) /\
  (task_replay_recovery_candidate t = Some p \/ task_abandoned_recovery_candidate t = Some p).
Proof.
  unfold requeue_proposal. destruct (is_some (ts_replay_delivery t)).
  - destruct (task_replay_recovery_candidate t) as [q|] eqn:E; [|done]. intros [= <- <-].
    unfold task_replay_recovery_candidate in E. rewrite ok_Some in E.
    unfold mark_abandoned_replay_delivery_queued in E. apply reject_Ok in E as [[_ H]%orb_false_iff E].
    apply validated_Ok in E as [-> _]. split_and!; [done|done|by eexists|by left].
  - destruct (task_abandoned_recovery_candidate t) as [q|] eqn:E; [|done]. intros [= <- <-].
    unfold task_abandoned_recovery_candidate in E. rewrite ok_Some in E.
    unfold mark_abandoned_task_queued in E. apply reject_Ok in E as [[_ H]%orb_false_iff E].
    apply validated_Ok in E as [-> _]. split_and!; [done|done|by eexists|by right].
Qed.

Lemma requeue_acceptable t : committable t -> acceptable t (requeue_proposal t).
Proof.
  intros ([Hst Hw] & Hv & Hl). destruct (requeue_proposal t) as [[mode p]|] eqn:E; [|done].
  destruct (requeue_candidate_shape _ _ _ E) as (-> & _ & (m & Hp) & Hc).
  destruct (special_accepted t p) as [Hacc _]; [by apply recovery_candidate_special|apply Hst|].
  split_and!; [done|by eapply recovery_candidate_writable|by subst p..|done].
Qed.

(** A status change that keeps the fence, the deadline and the heartbeat. *)
Lemma gate_plain_ok t p :
  ts_attempts p = ts_attempts t -> ts_execution_owner p = ts_execution_owner t ->
  ts_cancel_token p = ts_cancel_token t -> ts_deadline_at_ms p = ts_deadline_at_ms t ->
  ts_heartbeat_at_ms p = ts_heartbeat_at_ms t -> is_terminal t = false ->
  is_one_of (ts_status p) ["completed"; "failed"; "timed_out"; "cancelled"] = false ->
  ts_status p <> "running" -> lifecycle_allowed (ts_status t) (ts_status p) = true ->
  validate_transition_in CompareAndSet t p = Ok tt.
Proof.
  intros Ha Ho Hc Hd Hh Ht Hp Hr Hl. unfold validate_transition_in, validate_task_state_transition.
  cbv zeta. rewrite Ha, Ho, Hc, Hd, Hh, N.eqb_refl, Ht, Hp, Hl.
  rewrite !(bool_decide_eq_true_2 (_ = _)) by done. cbn [negb orb andb].
  rewrite !andb_false_r. cbn [andb orb]. by rewrite (proj2 (String.eqb_neq _ _) Hr).
Qed.

(** Records that are not finished hold no result and no error class. *)
Lemma unfinished_fields t :
  task_valid t -> ts_status t ∈ ["queued"; "running"; "cancelling"; "recovering"] ->
  ts_result_digest t = None /\ ts_result_size_bytes t = None /\
  ts_error_retryable t = None /\ ts_retry_ready_at_ms t = None.
Proof.
  intros V Hs. pose proof (tv_result t V) as Hr. pose proof (tv_retryable t V) as He.
  pose proof (tv_ready t V) as Hd. unfold validate_result in Hr.
  assert (String.eqb (ts_status t) "completed" = false /\
          is_one_of (ts_status t) ["failed"; "timed_out"] = false) as [Ec Ef].
  { elem_cases Hs; rewrite Hs; done. }
  rewrite Ec in Hr. rewrite Ef in He, Hd. cbn [negb orb] in *. rewrite andb_true_r in He, Hd.
  destruct (ts_result_digest t), (ts_result_size_bytes t), (ts_error_retryable t), (ts_retry_ready_at_ms t); done.
Qed.

(** A mark by recovery: another status without a result. *)
Lemma marked_valid t p :
  task_validate t = Ok tt -> ts_status t ∈ ["queued"; "running"; "cancelling"; "recovering"] ->
  ts_status p ∈ ["recovering"; "interrupted"] ->
  (exists reason l m, p = push_log ((clear_result (t <| ts_status := ts_status p |>))
                                    <| ts_interrupted_reason := reason |>) l m) ->
  task_validate p = Ok tt.
Proof.
  rewrite !task_validate_iff. intros V Hs Hp (reason & l & m & E).
  destruct (unfinished_fields t V Hs) as (Ed & Ez & Er & Ey).
  assert (Es : str_is_empty (ts_status p) = false) by (elem_cases Hp; by rewrite Hp).
  assert (Em : execution_metadata_valid p = true).
  { unfold execution_metadata_valid. elem_cases Hp; rewrite Hp, E; reflexivity. }
  destruct V. rewrite E. rewrite E in Es, Em. constructor; try done.
  - cbn. by rewrite Er.
  - cbn. by rewrite Ey.
  - by rewrite Em, andb_false_r.
Qed.

Lemma plain_acceptable t p :
  committable t -> ts_status t ∈ ["queued"; "running"; "cancelling"; "recovering"] ->
  lifecycle_allowed (ts_status t) (ts_status p) = true -> ts_status p ∈ ["recovering"; "interrupted"] ->
  (exists reason l m, p = push_log ((clear_result (t <| ts_status := ts_status p |>))
                                    <| ts_interrupted_reason := reason |>) l m) ->
  writable p -> acceptable t (Some (CompareAndSet, p)).
Proof.
  intros ([Hst _] & Hv & Hl) Hs Ha Hp Hshape Hw.
  assert (task_validate p = Ok tt) as Hval by (by apply (marked_valid t); [apply Hst|..]).
  destruct Hshape as (reason & l & m & E).
  split_and!; try done; try by rewrite E.
  apply commit_checks_true; try done; try by rewrite E.
  apply gate_plain_ok; try done; try by rewrite E.
  - unfold is_terminal. elem_cases Hs; rewrite Hs; done.
  - elem_cases Hp; rewrite Hp; done.
  - intros R. rewrite R in Hp. set_solver.
Qed.

Lemma recovery_status_cases t status :
  recovery_status t = Some status ->
  (status = "queued" /\ is_some (ts_replay_delivery t) = true /\
   ts_status t ∈ ["running"; "interrupted"; "recovering"]) \/
  (ts_status t ∈ ["queued"; "running"; "cancelling"] /\ status ∈ ["recovering"; "interrupted"] /\
   lifecycle_allowed (ts_status t) status = true).
Proof.
  unfold recovery_status. intros H.
  destruct (_ && is_one_of (ts_status t) ["queued"; "running"; "cancelling"]) eqn:E.
  { injection H as <-. apply andb_true_iff in E as [_ E%is_one_of_true]. right.
    split_and!; [done|set_solver|]. elem_cases E; rewrite E; done. }
  destruct (is_some (ts_replay_delivery t) && _ && _) eqn:E2.
  - apply andb_true_iff in E2 as [[E2 _]%andb_true_iff _].
    destruct (String.eqb (ts_status t) "queued"); [done|].
    destruct (is_one_of (ts_status t) ["running"; "interrupted"; "recovering"]) eqn:E3; [|done].
    injection H as <-. left.
    split_and!; [done|done|by apply is_one_of_true].
  - destruct (String.eqb (ts_status t) "queued"); [done|].
    destruct (is_one_of (ts_status t) ["running"; "cancelling"]) eqn:E3; [|done]. injection H as <-. right.
    apply is_one_of_true in E3. split_and!; [set_solver|set_solver|]. elem_cases E3; rewrite E3; done.
Qed.

Lemma mark_recovered_acceptable t status :
  committable t -> ts_status t ∈ ["queued"; "running"; "cancelling"] ->
  status ∈ ["recovering"; "interrupted"] -> lifecycle_allowed (ts_status t) status = true ->
  acceptable t (Some (CompareAndSet, mark_recovered t status)).
Proof.
  intros Hc Hs Hst Hl. pose proof Hc as ([Hsto Hw] & _).
  assert (Hs' : ts_status t ∈ ["queued"; "running"; "cancelling"; "recovering"]) by set_solver.
  destruct (unfinished_fields t) as (Ed & Ez & _ & _); [apply task_validate_iff, Hsto|done|].
  apply plain_acceptable; try done.
  - exists (ts_interrupted_reason t), "warning", (marked_text (ts_status t) status).
    unfold mark_recovered, clear_result. destruct t. cbn in *. subst. reflexivity.
  - assert (utf8_valid status = true) by (elem_cases Hst; by rewrite Hst).
    pose proof (tu_status t (wr_utf8 t Hw)).
    apply writable_push_log; [done| |by apply writable_status].
    unfold marked_text. repeat apply utf8_valid_append; done.
Qed.

Lemma interrupt_acceptable t reason :
  committable t -> ts_status t ∈ ["running"; "cancelling"; "recovering"] ->
  reason <> "" -> utf8_valid reason = true -> acceptable t (interrupt_proposal t reason).
Proof.
  intros Hc Hs Hn Hu. pose proof Hc as ([Hsto Hw] & _). apply plain_acceptable; try done.
  - set_solver.
  - elem_cases Hs; rewrite Hs; done.
  - cbn. set_solver.
  - by exists (Some reason), "warning", ("task interrupted: " +:+ reason).
  - unfold mark_interrupted. apply writable_push_log; [done|by apply utf8_valid_append|].
    apply writable_interrupted; [congruence|done|]. auto with writable.
Qed.

Lemma baseline_acceptable t : committable t -> acceptable t (baseline_proposal t).
Proof.
  intros Hc. unfold baseline_proposal. destruct (recovery_status t) as [status|] eqn:E; [|done].
  destruct (_ && _) eqn:Eq; [by apply requeue_acceptable|].
  apply recovery_status_cases in E as [(-> & Hr & _)|(? & ? & ?)]; [|by apply mark_recovered_acceptable].
  by rewrite Hr in Eq.
Qed.

Lemma safe_acceptable t : committable t -> acceptable t (safe_proposal t).
Proof.
  intros Hc. unfold safe_proposal. destruct (is_one_of _ _) eqn:Es; [|by apply baseline_acceptable].
  apply is_one_of_true in Es. pose proof (requeue_acceptable t Hc) as Hq.
  destruct (requeue_proposal t) as [proposal|]; [done|].
  destruct (String.eqb_spec (ts_status t) "interrupted"); [done|].
  destruct (_ && _); [|by apply baseline_acceptable]. apply interrupt_acceptable; try done. set_solver.
Qed.

Lemma restart_acceptable t p :
  committable t -> writable p ->
  (exists op rd z, recover_committed_effect t op rd z = Ok p) \/ (exists op, block_unknown_effect t op = Ok p) ->
  acceptable t (changed RestartRecovery t p).
Proof.
  intros ([Hst _] & Hv & Hl) Hw Hp. unfold changed. case_bool_decide as Hne; [done|].
  assert (ts_task_id p = ts_task_id t /\ ts_owner_generation p = ts_owner_generation t /\
          ts_record_version p = ts_record_version t) as (? & ? & ?).
  { destruct Hp as [(op & rd & z & H)|[op H]].
    - unfold recover_committed_effect in H. do 2 apply then_Ok in H as [_ H]. apply reject_Ok in H as [_ H].
      destruct (String.eqb (ts_status t) "completed").
      { destruct (_ && _); [|done]. by injection H as <-. }
      apply reject_Ok in H as [_ H]. by apply validated_Ok in H as [-> _].
    - unfold block_unknown_effect in H. apply then_Ok in H as [_ H]. cbv zeta in H.
      destruct (String.eqb (ts_status t) "interrupted" && _). { by injection H as <-. }
      do 3 apply reject_Ok in H as [_ H]. by apply validated_Ok in H as [-> _]. }
  split_and!; try done. by apply restart_accepted.
Qed.

(** ** One task, alone *)

(** Recovery may commit a change only to a record of an earlier generation. *)
Definition ready (g : WriterGeneration) (t : TaskStateSnapshot) (proposal : Proposal) : Prop :=
  proposal <> None -> committable t /\ ts_owner_generation t <> g.

Definition is_live (t : TaskStateSnapshot) : bool := is_one_of (ts_status t) ["running"; "cancelling"].

Lemma ready_acceptable g t proposal :
  ready g t proposal -> (committable t -> acceptable t proposal) -> acceptable t proposal.
Proof. intros Hr Ha. destruct proposal; [|done]. by apply Ha, Hr. Qed.

Section Tasks.
Context (dir : string) (s : FileSystemTaskStateStore) (w : DurableWriterGuard).
Hypothesis Hstore : store_ok dir s.
Hypothesis Hapart : writer_apart s.
Hypothesis Hwriter : tss_writer s = Some w.
Abbreviation g := (wg_generation w).
Abbreviation at_rest := (at_rest dir w).
Abbreviation decides := (decides dir s w).

Lemma decides_bind_same {A} files task_id t (p : StoreProg TaskStateSnapshot)
    (k : TaskStateSnapshot -> StoreProg A) proposal a :
  decides files task_id t None p t -> task_id <> latest_id ->
  (forall files', at_rest files' task_id t -> decides files' task_id t proposal (k t) a) ->
  decides files task_id t proposal (prog_bind p k) a.
Proof.
  intros (files' & E & (Hd & Hv & Hon & Hf) & Hsame) Hne Hk.
  destruct (Hk files') as (files'' & E' & (Hd' & Hv' & Hon' & Hf') & Hsame'); [by split_and!|].
  exists files''. split; [by rewrite run_alone_bind, E|]. split.
  - split_and!; try done. intros path H1 H2. by rewrite Hf', Hf.
  - intros Hn. by rewrite Hsame', Hsame.
Qed.

Lemma requeue_decides files task_id t :
  at_rest files task_id t -> (is_live t = true -> ts_owner_generation t <> g) ->
  ready g t (requeue_proposal t) ->
  (is_some (ts_replay_delivery t) = false -> ts_status t <> "queued") ->
  decides files task_id t (requeue_proposal t)
    (if is_some (ts_replay_delivery t) then recover_abandoned_replay_delivery s task_id
     else recover_abandoned_task_for_retry s task_id)
    (recovered_as g (requeue_proposal t) t).
Proof using Hstore Hapart Hwriter.
  intros Hr Hlive Hready Hq.
  pose proof (ready_acceptable _ _ _ Hready (requeue_acceptable t)) as Ha.
  destruct (is_some (ts_replay_delivery t)) eqn:E.
  - apply replay_decides; try done. intros Hs. apply Hlive. unfold is_live. by rewrite Hs.
  - apply abandoned_decides; try done; [by apply Hq|]. intros H. by apply Hready.
Qed.

Lemma at_rest_key files task_id t : at_rest files task_id t -> ts_task_id t = task_id.
Proof. by intros (_ & _ & (_ & _ & ->) & _). Qed.

Lemma baseline_decides files task_id t :
  at_rest files task_id t -> (is_live t = true -> ts_owner_generation t <> g) ->
  ready g t (baseline_proposal t) ->
  decides files task_id t (baseline_proposal t) (recover_baseline_snapshot s t)
    (recovered_as g (baseline_proposal t) t).
Proof using Hstore Hapart Hwriter.
  intros Hr Hlive Hready. pose proof (ready_acceptable _ _ _ Hready (baseline_acceptable t)) as Ha.
  unfold recover_baseline_snapshot, baseline_proposal in *. rewrite (at_rest_key _ _ _ Hr).
  destruct (recovery_status t) as [status|]; [|by apply decides_done].
  destruct (String.eqb status "queued" && is_some (ts_replay_delivery t)) eqn:E.
  - apply andb_true_iff in E as [_ E]. pose proof (requeue_decides files task_id t Hr Hlive Hready) as H.
    rewrite E in H. by apply H.
  - by apply decides_compare_and_set.
Qed.

Lemma recovered_differs proposal t : proposal <> None -> recovered_as g proposal t <> t.
Proof.
  destruct proposal as [[mode p]|]; [|done]. intros _ H.
  apply (f_equal ts_record_version) in H. cbn in H. lia.
Qed.

Lemma safe_decides files task_id t :
  at_rest files task_id t -> (is_live t = true -> ts_owner_generation t <> g) ->
  ready g t (safe_proposal t) ->
  decides files task_id t (safe_proposal t) (recover_registered_safe_task s t)
    (recovered_as g (safe_proposal t) t).
Proof using Hstore Hapart Hwriter.
  intros Hr Hlive Hready. pose proof (ready_acceptable _ _ _ Hready (safe_acceptable t)) as Ha.
  unfold recover_registered_safe_task, safe_proposal in *.
  destruct (is_one_of _ _) eqn:Es; [|by apply baseline_decides]. apply is_one_of_true in Es.
  rewrite (at_rest_key _ _ _ Hr).
  assert (Hq : ready g t (requeue_proposal t)).
  { intros H. apply Hready. by destruct (requeue_proposal t). }
  assert (Hd : decides files task_id t (requeue_proposal t)
    (if is_some (ts_replay_delivery t) then recover_abandoned_replay_delivery s task_id
     else recover_abandoned_task_for_retry s task_id)
    (recovered_as g (requeue_proposal t) t)).
  { apply requeue_decides; try done. intros _ R. rewrite R in Es. set_solver. }
  destruct (requeue_proposal t) as [proposal|] eqn:Eq.
  - eapply decides_bind; [exact Hd|]. intros files'.
    by rewrite bool_decide_eq_false_2 by (by apply recovered_differs).
  - eapply decides_bind_same; [exact Hd|apply Hr|]. intros files' Hr'.
    rewrite bool_decide_eq_true_2 by done. cbn [negb orb].
    destruct (String.eqb (ts_status t) "interrupted"); [by apply decides_done|].
    destruct (is_some (ts_replay_delivery t) && _); [|by apply baseline_decides].
    by apply decides_compare_and_set.
Qed.
End Tasks.

(** ** The ledger's verdict *)

Lemma sha256_forms field field' v :
  validate_sha256_digest field v = Ok tt -> validate_canonical_sha256 v field' = Ok tt /\ utf8_valid v = true.
Proof.
  intros H. split; [|by apply graphic_utf8, (sha256_shape_graphic field)]. revert H.
  unfold validate_sha256_digest, validate_canonical_sha256. destruct (strip_prefix _ _); [|done].
  by destruct (_ || _).
Qed.

Section Ledger.
Variable sha256 : string -> string.
Hypothesis sha256_length : forall s, String.length (sha256 s) = 32.

Lemma canonical_digest_forms domain fields field :
  validate_canonical_sha256 (canonical_digest sha256 domain fields) field = Ok tt /\
  utf8_valid (canonical_digest sha256 domain fields) = true.
Proof using sha256_length.
  split; [|apply graphic_utf8, canonical_digest_graphic].
  unfold validate_canonical_sha256, canonical_digest. rewrite strip_prefix_append, hex_encode_lower.
  unfold str_len. by rewrite hex_encode_length, sha256_length.
Qed.

Lemma operation_digest_forms r field :
  effect_valid sha256 r ->
  validate_canonical_sha256 (eo_operation_digest (er_operation r)) field = Ok tt /\
  utf8_valid (eo_operation_digest (er_operation r)) = true.
Proof using sha256_length.
  intros V. destruct (operation_new_Ok _ _ _ _ _ _ _ (ev_operation _ _ V)) as [-> _].
  apply canonical_digest_forms.
Qed.

Lemma committed_result_forms r :
  effect_ok sha256 r -> er_state r = EffectCommitted ->
  exists d z, er_result_digest r = Some d /\ er_result_size_bytes r = Some z /\
    validate_canonical_sha256 d "task result digest" = Ok tt /\ utf8_valid d = true /\ (z <= usize_max)%N.
Proof.
  intros [V R] Hs. pose proof (ev_result _ _ V) as H. unfold validate_effect_result in H. rewrite Hs in H.
  destruct (er_committed_at_ms r) as [c|]; [|done]. cbn [ok_or] in H. apply reject_Ok in H as [_ H].
  destruct (er_result_digest r) as [d|]; [|done]. cbn [ok_or] in H. apply then_Ok in H as [[[] Hd] H].
  pose proof (erg_size _ R) as Hz.
  destruct (er_result_size_bytes r) as [z|]; [|done]. exists d, z.
  destruct (sha256_forms _ "task result digest" _ Hd). by split_and!.
Qed.
End Ledger.

Definition known_status (t : TaskStateSnapshot) : Prop :=
  ts_status t = "completed" \/ is_one_of (ts_status t) RECONCILABLE = true.

Lemma block_total t op :
  task_validate t = Ok tt -> known_status t -> ts_status t <> "completed" -> ts_envelope t <> None ->
  validate_canonical_sha256 op "effect operation digest" = Ok tt ->
  exists p, block_unknown_effect t op = Ok p.
Proof.
  intros Hv [Hk|Hk] Hs He Hop; [done|]. unfold block_unknown_effect. rewrite Hop. cbv zeta.
  destruct (_ && _); [by eexists|]. rewrite (proj2 (String.eqb_neq _ _) Hs).
  destruct (ts_envelope t) as [e|] eqn:Ee; [|done]. rewrite Hk. cbn [is_none negb].
  match goal with |- context [task_validate ?x] => set (p := x) end.
  assert (task_validate p = Ok tt) as ->; [|by exists p].
  apply task_validate_iff in Hv. apply task_validate_iff. destruct Hv. constructor; try done.
  change (is_some (ts_execution_owner t) && negb true = false). by rewrite andb_false_r.
Qed.

Lemma recover_total t op d z :
  task_validate t = Ok tt -> known_status t -> ts_envelope t <> None ->
  (ts_status t = "completed" -> ts_result_digest t = Some d /\ ts_result_size_bytes t = Some z) ->
  validate_canonical_sha256 op "effect operation digest" = Ok tt ->
  validate_canonical_sha256 d "task result digest" = Ok tt ->
  exists p, recover_committed_effect t op d z = Ok p.
Proof.
  intros Hv Hk He Hc Hop Hd. unfold recover_committed_effect. rewrite Hop, Hd.
  destruct (ts_envelope t) as [e|] eqn:Ee; [|done]. cbn [is_none].
  destruct (String.eqb_spec (ts_status t) "completed") as [Hs|Hs].
  { destruct (Hc Hs) as [-> ->]. rewrite !bool_decide_eq_true_2 by done. by eexists. }
  destruct Hk as [Hk|Hk]; [done|]. rewrite Hk. cbn [negb]. cbv zeta.
  match goal with |- context [task_validate ?x] => set (p := x) end.
  assert (task_validate p = Ok tt) as ->; [|by exists p].
  apply task_validate_iff in Hv. apply task_validate_iff. destruct Hv. constructor; try done.
  - unfold validate_result. cbn -[validate_canonical_sha256]. by rewrite Ee.
  - change (is_some (ts_execution_owner t) && negb true = false). by rewrite andb_false_r.
Qed.

(** The operation of a task whose handler is registered as non-idempotent. *)
Definition task_operation (sha256 : string -> string) (handlers : TaskHandlerRegistry)
    (t : TaskStateSnapshot) : option (Res EffectOperationIdentity) :=
  e ← ts_envelope t; scope ← non_idempotent_effect_scope handlers (env_kind e);
  Some (operation_new sha256 (env_idempotency_key e) (env_kind e) (env_agent_id e) scope
          (input_digest (env_input e))).

(** The ledger and the task tell the same story: its operation is well
    formed, a record under its key is a record of that operation, a prepared
    one belongs to an unfinished task and a committed one agrees with a
    completed task's result. *)
Definition ledger_agrees (sha256 : string -> string) (handlers : TaskHandlerRegistry) (ledger : Dir)
    (t : TaskStateSnapshot) : Prop :=
  forall r, task_operation sha256 handlers t = Some r ->
    exists op, r = Ok op /\ forall record, on_ledger sha256 ledger (eo_idempotency_key op) record ->
      er_operation record = op /\
      match er_state record with
      | EffectPrepared => ts_status t <> "completed"
      | EffectCommitted => ts_status t = "completed" ->
          ts_result_digest t = er_result_digest record /\
          ts_result_size_bytes t = er_result_size_bytes record
      end.

(** [found] is what the ledger holds for the task. *)
Definition finds (sha256 : string -> string) (ledger : Dir) (t : TaskStateSnapshot)
    (found : option EffectLedgerRecord) : Prop :=
  forall e, ts_envelope t = Some e -> forall record,
    on_ledger sha256 ledger (env_idempotency_key e) record <-> found = Some record.

Section Decision.
Variable sha256 : string -> string.
Hypothesis sha256_length : forall s, String.length (sha256 s) = 32.
Context (dir : string) (s : FileSystemTaskStateStore) (w : DurableWriterGuard).
Hypothesis Hstore : store_ok dir s.
Hypothesis Hapart : writer_apart s.
Hypothesis Hwriter : tss_writer s = Some w.
Context (handlers : TaskHandlerRegistry) (ledger : Dir).
Hypothesis Hledger : ledger_ok sha256 ledger.
Abbreviation g := (wg_generation w).
Abbreviation at_rest := (at_rest dir w).
Abbreviation decides := (decides dir s w).

Lemma decides_deciding files task_id t proposal p decision :
  decides files task_id t proposal p (recovered_as g proposal t) ->
  decides files task_id t proposal (deciding p decision) (recovered_as g proposal t, decision).
Proof. intros H. by eapply decides_bind. Qed.

Lemma effect_decides files task_id t record :
  at_rest files task_id t -> known_status t -> ts_envelope t <> None -> effect_ok sha256 record ->
  match er_state record with
  | EffectPrepared => ts_status t <> "completed"
  | EffectCommitted => ts_status t = "completed" ->
      ts_result_digest t = er_result_digest record /\ ts_result_size_bytes t = er_result_size_bytes record
  end ->
  let op := eo_operation_digest (er_operation record) in
  let proposal := match er_state record, er_result_digest record, er_result_size_bytes record with
    | EffectPrepared, _, _ => ok (block_unknown_effect t op) ≫= changed RestartRecovery t
    | EffectCommitted, Some d, Some z => ok (recover_committed_effect t op d z) ≫= changed RestartRecovery t
    | _, _, _ => None
    end in
  ready g t proposal ->
  exists decision, decides files task_id t proposal (recover_from_effect s t record)
                     (recovered_as g proposal t, decision).
Proof using sha256_length Hstore Hapart Hwriter.
  intros Hr Hk He Hok Hagree op proposal Hready.
  pose proof Hr as (_ & _ & (_ & [Hst Hw] & Hid) & _).
  assert (Hval : task_validate t = Ok tt) by apply Hst.
  destruct (operation_digest_forms sha256 sha256_length record "effect operation digest" (proj1 Hok)) as [Hop Hu].
  unfold recover_from_effect. fold op in Hop, Hu |- *. rewrite Hid.
  destruct (er_state record) eqn:Es.
  - destruct (block_total t op Hval Hk Hagree He Hop) as [p Hp].
    assert (proposal = changed RestartRecovery t p) as Epr by (unfold proposal; by rewrite Hp).
    exists "effect_prepared_operator_block". rewrite Epr in *. apply decides_deciding, block_decides; try done.
    + intros Hne. apply Hready. unfold changed. by rewrite bool_decide_eq_false_2.
    + eapply ready_acceptable; [exact Hready|]. intros Hc. apply restart_acceptable; [done| |right; by eexists].
      by eapply block_writable.
  - destruct (committed_result_forms sha256 record Hok Es) as (d & z & Ed & Ez & Hd & Hud & Hz).
    rewrite Ed, Ez in Hagree. rewrite Ed, Ez. cbn [ok_or attempt].
    destruct (recover_total t op d z Hval Hk He Hagree Hop Hd) as [p Hp].
    assert (proposal = changed RestartRecovery t p) as Epr by (unfold proposal; by rewrite Ed, Ez, Hp).
    exists "effect_committed_completed". rewrite Epr in *. apply decides_deciding, committed_decides; try done.
    + intros Hne. apply Hready. unfold changed. by rewrite bool_decide_eq_false_2.
    + eapply ready_acceptable; [exact Hready|]. intros Hc.
      apply restart_acceptable; [done| |left; by do 3 eexists]. by eapply recover_writable.
Qed.

Lemma inspect_finds l files op :
  el_writer l = Some w -> verify_current w files = Ok tt ->
  exists records, effect_inspect sha256 l files (Some ledger) (Ok tt) op
      = (find_effect records op, MkEffectLedger (el_root l) records (el_writer l)) /\
    forall key r, records !! key = Some r <-> on_ledger sha256 ledger key r.
Proof using sha256_length Hledger.
  intros Hw Hv. destruct (load_effect_records_ok sha256 sha256_length (el_root l) ledger Hledger)
    as (records & Hl & Hiff).
  exists records. split; [|done]. unfold effect_inspect, effect_refresh. by rewrite Hw, Hv, Hl.
Qed.

Lemma envelope_kind_parses t e :
  task_validate t = Ok tt -> ts_envelope t = Some e -> task_kind_parse (env_kind e) = Ok (env_kind e).
Proof.
  intros Hv%task_validate_iff He. pose proof (tv_mirror t Hv) as H. unfold validate_envelope_mirror in H.
  rewrite He in H. apply then_Ok in H as [[[] H] _]. unfold envelope_validate in H.
  apply then_Ok in H as [[[] H] _]. unfold task_kind_parse. by rewrite H.
Qed.

(** The recovery of one task follows the decision. *)
Lemma task_decides files task_id t l found :
  at_rest files task_id t -> el_writer l = Some w -> known_status t ->
  ledger_agrees sha256 handlers ledger t -> finds sha256 ledger t found ->
  (is_live t = true -> ts_owner_generation t <> g) -> ready g t (recovery_proposal handlers found t) ->
  exists p l' decision,
    recover_effect_aware_task sha256 s handlers l files (Some ledger) (Ok tt) t = (p, l') /\
    el_writer l' = Some w /\
    decides files task_id t (recovery_proposal handlers found t) p
      (recovered_as g (recovery_proposal handlers found t) t, decision).
Proof using sha256_length Hstore Hapart Hwriter Hledger.
  intros Hr Hl Hk Hagree Hfinds Hlive Hready. pose proof Hr as (_ & Hcur & (_ & [Hst _] & _) & _).
  unfold recover_effect_aware_task, recovery_proposal in *.
  assert (reject_current_generation_live_recovery s t = Ok tt) as ->.
  { unfold reject_current_generation_live_recovery. rewrite Hwriter. cbn [fmap option_fmap option_map].
    destruct (is_one_of (ts_status t) ["running"; "cancelling"]) eqn:El; [|by rewrite andb_false_r].
    rewrite bool_decide_eq_false_2; [done|]. intros [= E]. by apply Hlive. }
  destruct (ts_envelope t) as [e|] eqn:Ee.
  2:{ do 3 eexists. split_and!; [reflexivity|done|]. by apply decides_deciding, baseline_decides. }
  rewrite (envelope_kind_parses t e) by (done || apply Hst). cbn [map_err].
  destruct (handlers !! env_kind e) as [[scope|]|] eqn:Eh.
  - destruct (Hagree (operation_new sha256 (env_idempotency_key e) (env_kind e) (env_agent_id e) scope
                        (input_digest (env_input e)))) as (op & Hop & Hrec).
    { unfold task_operation, non_idempotent_effect_scope. rewrite Ee. cbn. by rewrite Eh. }
    rewrite Hop. cbn [map_err]. pose proof (operation_new_Ok _ _ _ _ _ _ _ Hop) as [Eop _].
    assert (Ek : eo_idempotency_key op = env_idempotency_key e) by (by rewrite Eop). rewrite Ek in Hrec.
    destruct (inspect_finds l files op Hl Hcur) as (records & -> & Hiff). unfold find_effect. rewrite Ek.
    assert (records !! env_idempotency_key e = found) as ->.
    { destruct (records !! _) as [r|] eqn:Er.
      - symmetry. by apply (Hfinds e Ee), Hiff.
      - destruct found as [r|]; [|done]. rewrite <- Er. by apply Hiff, (Hfinds e Ee). }
    destruct found as [record|].
    + pose proof (proj2 (Hfinds e Ee record) eq_refl) as Hon.
      destruct (Hrec record Hon) as [Hopr Hstate].
      assert (ensure_operation_matches record op = Ok tt) as ->.
      { unfold ensure_operation_matches. by rewrite Hopr, bool_decide_eq_true_2. }
      cbn [map_err]. destruct (effect_decides files task_id t record) as [decision H]; try done; [by rewrite Ee|by destruct Hon as (_ & ? & _)|].
      do 3 eexists. split_and!; [reflexivity|done|exact H].
    + do 3 eexists. split_and!; [reflexivity|done|]. by apply decides_deciding, safe_decides.
  - do 3 eexists. split_and!; [reflexivity|done|]. by apply decides_deciding, safe_decides.
  - do 3 eexists. split_and!; [reflexivity|done|]. apply decides_deciding.
    unfold interrupt_unknown_handler_after_restart.
    destruct (is_one_of (ts_status t) ["running"; "cancelling"; "recovering"]) eqn:Es; [|by apply decides_done].
    apply decides_compare_and_set; try done. eapply (ready_acceptable g t (Some _)); [exact Hready|].
    intros Hc. apply interrupt_acceptable; try done. by apply is_one_of_true.
Qed.
End Decision.

(** ** What the decision leaves behind *)

(** Nothing is left to do for [t]: it is not running, and recovery would not
    change it. *)
Lemma requeue_refused t : not_recoverable t = true -> requeue_proposal t = None.
Proof.
  intros H. unfold requeue_proposal, task_replay_recovery_candidate, task_abandoned_recovery_candidate.
  unfold mark_abandoned_replay_delivery_queued, mark_abandoned_task_queued. rewrite H, !orb_true_r.
  by destruct (is_some _).
Qed.

Lemma requeue_offered t :
  task_validate t = Ok tt -> ts_envelope t <> None -> requeue_proposal t = None -> not_recoverable t = true.
Proof.
  intros Hv He. unfold requeue_proposal, task_replay_recovery_candidate, task_abandoned_recovery_candidate.
  unfold mark_abandoned_replay_delivery_queued, mark_abandoned_task_queued.
  destruct (ts_envelope t); [|done]. destruct (not_recoverable t); [done|].
  destruct (ts_replay_delivery t); cbn [is_some is_none orb]; by rewrite reset_to_queued_valid by done.
Qed.

(** Refused for a reason that outlives a change of status. *)
Definition refused (t : TaskStateSnapshot) : bool :=
  ts_cancel_requested t || ts_cancel_accepted t
  || match ts_dead_letters t with [] => false | _ => true end
  || (ts_retry_max_attempts t <=? ts_attempts t)%N.

Lemma refused_not_recoverable t : refused t = true -> not_recoverable t = true.
Proof.
  unfold refused, not_recoverable. rewrite !orb_true_iff. intros [[[H|H]|H]|H]; rewrite H; auto 10.
Qed.

Lemma not_recoverable_refused t :
  is_one_of (ts_status t) ["running"; "recovering"] = true -> not_recoverable t = true -> refused t = true.
Proof.
  intros Hs%is_one_of_true. unfold refused, not_recoverable, requires_operator_reconciliation.
  elem_cases Hs; rewrite Hs; cbn [is_one_of existsb String.eqb]; cbn -[N.leb]; by rewrite orb_false_r.
Qed.

(** The tasks of valid directories: a cancelling task was asked to cancel. *)
Definition cancelling_requested (t : TaskStateSnapshot) : Prop :=
  ts_status t = "cancelling" -> ts_cancel_requested t = true.

Lemma recovery_status_queued t : ts_dead_letters t = [] -> ts_status t = "queued" -> recovery_status t = None.
Proof. intros Hd Hs. unfold recovery_status. rewrite Hd, Hs. cbn. by destruct (_ && _). Qed.

Lemma recovery_status_final t :
  ts_status t = "interrupted" \/ ts_status t = "recovering" -> recovery_status t = None \/ recovery_status t = Some "queued".
Proof.
  intros Hs. unfold recovery_status.
  assert (is_one_of (ts_status t) ["queued"; "running"; "cancelling"] = false) as ->
    by (destruct Hs as [Hs|Hs]; by rewrite Hs).
  rewrite andb_false_r. destruct (is_some (ts_replay_delivery t) && _ && _) eqn:E.
  - destruct Hs as [Hs|Hs]; rewrite Hs; by right.
  - destruct Hs as [Hs|Hs]; rewrite Hs; by left.
Qed.

Lemma baseline_refused t :
  ts_status t = "interrupted" \/ ts_status t = "recovering" -> not_recoverable t = true \/ ts_replay_delivery t = None ->
  baseline_proposal t = None.
Proof.
  intros Hs Hn. unfold baseline_proposal. destruct (recovery_status_final t Hs) as [E|E].
  - by rewrite E.
  - rewrite E. apply recovery_status_cases in E as [(_ & Hr & _)|(_ & Hq & _)]; [|set_solver].
    rewrite Hr. cbn [andb]. change (String.eqb "queued" "queued") with true. cbn [andb].
    destruct Hn as [Hn|Hn]; [by apply requeue_refused|]. by rewrite Hn in Hr.
Qed.

Lemma baseline_queued t : ts_dead_letters t = [] -> ts_status t = "queued" -> baseline_proposal t = None.
Proof. intros. unfold baseline_proposal. by rewrite recovery_status_queued. Qed.

Lemma recovery_status_recovering t : recovery_status t = Some "recovering" -> refused t = true /\ ts_dead_letters t <> [].
Proof.
  unfold recovery_status, refused. intros H.
  destruct (ts_dead_letters t); [|rewrite !orb_true_r; by split].
  cbn [andb] in H. repeat case_match; simplify_eq.
Qed.

Lemma recovery_status_interrupted t :
  recovery_status t = Some "interrupted" -> ts_status t ∈ ["running"; "cancelling"].
Proof.
  unfold recovery_status. intros H. destruct (_ && is_one_of _ _); [done|].
  destruct (_ && _); [by repeat case_match; simplify_eq|].
  destruct (String.eqb _ _); [done|]. destruct (is_one_of _ _) eqn:E; [|done]. by apply is_one_of_true.
Qed.

Lemma safe_refused t :
  ts_status t = "interrupted" \/ ts_status t = "recovering" /\ ts_dead_letters t <> [] ->
  refused t = true -> safe_proposal t = None.
Proof.
  intros Hs Hr. apply refused_not_recoverable in Hr. unfold safe_proposal.
  assert (is_one_of (ts_status t) ["running"; "interrupted"; "recovering"] = true) as ->
    by (destruct Hs as [Hs|[Hs _]]; by rewrite Hs).
  rewrite requeue_refused by done. destruct Hs as [Hs|[Hs Hd]]; rewrite Hs; [done|].
  change (String.eqb "recovering" "interrupted") with false. cbv iota.
  destruct (ts_dead_letters t) eqn:E; [done|]. rewrite andb_false_r.
  apply baseline_refused; [by right|by left].
Qed.

(** The outcome of recovery for a task whose handler may be run again. *)
Definition final (t' : TaskStateSnapshot) : Prop := is_live t' = false /\ safe_proposal t' = None.

Lemma marked_final g t status :
  recovery_status t = Some status -> status ∈ ["recovering"; "interrupted"] ->
  (status = "interrupted" -> refused t = true) ->
  final (store_commit (mark_recovered t status) (ts_record_version t + 1) g).
Proof.
  intros Hst Hin Hr. elem_cases Hin; subst status.
  - destruct (recovery_status_recovering t Hst) as [Hd Hn]. split; [done|].
    apply safe_refused; [right; done|done].
  - split; [done|]. apply safe_refused; [by left|by apply Hr].
Qed.

Lemma requeue_final g t proposal :
  requeue_proposal t = Some proposal -> final (recovered_as g (Some proposal) t).
Proof.
  destruct proposal as [mode p]. intros Ep.
  destruct (requeue_candidate_shape _ _ _ Ep) as (-> & Hrec & (m & ->) & _).
  assert (ts_dead_letters t = []) as Hd.
  { unfold not_recoverable in Hrec. reflect_bools. by destruct (ts_dead_letters t). }
  split; [done|]. unfold safe_proposal. cbn -[baseline_proposal]. by apply baseline_queued.
Qed.

Lemma baseline_final g t :
  cancelling_requested t -> safe_proposal t = baseline_proposal t ->
  (is_one_of (ts_status t) ["running"; "recovering"] = true -> refused t = true /\
     (is_some (ts_replay_delivery t) = true -> ts_dead_letters t <> [])) ->
  final (recovered_as g (baseline_proposal t) t).
Proof.
  intros Hc Esafe Hr. unfold baseline_proposal in *. destruct (recovery_status t) as [status|] eqn:E.
  - destruct (String.eqb status "queued" && is_some (ts_replay_delivery t)) eqn:Eq.
    + apply andb_true_iff in Eq as [->%String.eqb_eq Hrep].
      pose proof (recovery_status_cases t _ E) as [(_ & _ & Hs)|(_ & Hq & _)]; [|set_solver].
      destruct (requeue_proposal t) as [proposal|] eqn:Ep.
      * by apply requeue_final.
      * split; [|done]. unfold is_live. cbn [recovered_as]. elem_cases Hs; rewrite Hs; try done. exfalso.
        destruct Hr as [_ Hdead]; [by rewrite Hs|]. specialize (Hdead Hrep).
        unfold recovery_status in E. rewrite Hs in E. by destruct (ts_dead_letters t).
    + apply marked_final; [done| |].
      * apply recovery_status_cases in E as [(-> & Hrep & _)|(_ & ? & _)]; [by rewrite Hrep in Eq|done].
      * intros ->. apply recovery_status_interrupted in E. elem_cases E.
        -- apply Hr. by rewrite E.
        -- unfold refused. by rewrite (Hc E).
  - split; [|done]. unfold is_live. cbn [recovered_as].
    destruct (is_one_of (ts_status t) ["running"; "cancelling"]) eqn:El; [|done]. exfalso.
    apply is_one_of_true in El. unfold recovery_status in E. elem_cases El.
    + rewrite El in E. repeat case_match; done.
    + rewrite El, (Hc El) in E. cbn in E. rewrite andb_false_r in E. repeat case_match; done.
Qed.

Lemma safe_final g t :
  task_validate t = Ok tt -> ts_envelope t <> None -> cancelling_requested t ->
  final (recovered_as g (safe_proposal t) t).
Proof.
  intros Hv He Hc.
  destruct (is_one_of (ts_status t) ["running"; "interrupted"; "recovering"]) eqn:Es.
  - destruct (requeue_proposal t) as [proposal|] eqn:Eq.
    { assert (safe_proposal t = Some proposal) as -> by (unfold safe_proposal; by rewrite Es, Eq).
      by apply requeue_final. }
    pose proof (requeue_offered t Hv He Eq) as Hn.
    destruct (String.eqb (ts_status t) "interrupted") eqn:Ei.
    { assert (safe_proposal t = None) as E by (unfold safe_proposal; by rewrite Es, Eq, Ei).
      rewrite E. split; [|done]. apply String.eqb_eq in Ei. unfold is_live. cbn [recovered_as]. by rewrite Ei. }
    assert (is_one_of (ts_status t) ["running"; "recovering"] = true) as Hs.
    { apply is_one_of_true in Es. apply String.eqb_neq in Ei. elem_cases Es; try done; by rewrite Es. }
    pose proof (not_recoverable_refused t Hs Hn) as Hr.
    destruct (is_some (ts_replay_delivery t) && match ts_dead_letters t with [] => true | _ => false end) eqn:Er.
    { assert (safe_proposal t = interrupt_proposal t
        "abandoned replay delivery is not eligible for another attempt") as ->
        by (unfold safe_proposal; by rewrite Es, Eq, Ei, Er).
      split; [done|]. apply safe_refused; [by left|exact Hr]. }
    assert (safe_proposal t = baseline_proposal t) as E by (unfold safe_proposal; by rewrite Es, Eq, Ei, Er).
    rewrite E. apply baseline_final; try done. intros _. split; [done|]. intros Hrep.
    rewrite Hrep in Er. by destruct (ts_dead_letters t).
  - assert (safe_proposal t = baseline_proposal t) as E by (unfold safe_proposal; by rewrite Es).
    rewrite E. apply baseline_final; try done. intros Hs%is_one_of_true. exfalso.
    elem_cases Hs; by rewrite Hs in Es.
Qed.

(** ** Fields of a proposal *)

Definition kept (t p : TaskStateSnapshot) : Prop :=
  ts_attempts p = ts_attempts t /\ ts_envelope p = ts_envelope t /\ ts_task_id p = ts_task_id t /\
  ts_status p ∈ ["queued"; "interrupted"; "recovering"; "completed"].

Lemma requeue_kept t mode p : requeue_proposal t = Some (mode, p) -> kept t p.
Proof.
  intros (_ & _ & (m & ->) & _)%requeue_candidate_shape. split_and!; [done..|]. cbn. set_solver.
Qed.

Lemma baseline_kept t mode p : baseline_proposal t = Some (mode, p) -> kept t p.
Proof.
  unfold baseline_proposal. destruct (recovery_status t) as [status|] eqn:E; [|done].
  destruct (_ && _) eqn:Eq; [apply requeue_kept|]. intros [= <- <-]. split_and!; [done..|].
  apply recovery_status_cases in E as [(-> & Hr & _)|(_ & Hs & _)]; [by rewrite Hr in Eq|].
  cbn. set_solver.
Qed.

Lemma safe_kept t mode p : safe_proposal t = Some (mode, p) -> kept t p.
Proof.
  unfold safe_proposal. destruct (is_one_of _ _); [|apply baseline_kept].
  destruct (requeue_proposal t) as [[m q]|] eqn:E; [intros [= <- <-]; by eapply requeue_kept|].
  destruct (String.eqb _ _); [done|]. destruct (_ && _); [|apply baseline_kept].
  intros [= <- <-]. split_and!; [done..|]. cbn. set_solver.
Qed.

Lemma block_kept t op p : block_unknown_effect t op = Ok p -> kept t p.
Proof.
  unfold block_unknown_effect. intros H. apply then_Ok in H as [_ H]. cbv zeta in H.
  destruct (String.eqb (ts_status t) "interrupted" && _) eqn:E.
  { injection H as <-. apply andb_true_iff in E as [E%String.eqb_eq _]. split_and!; [done..|]. set_solver. }
  do 3 apply reject_Ok in H as [_ H]. apply validated_Ok in H as [-> _]. split_and!; [done..|]. cbn. set_solver.
Qed.

Lemma recover_kept t op d z p : recover_committed_effect t op d z = Ok p -> kept t p.
Proof.
  unfold recover_committed_effect. intros H. do 2 apply then_Ok in H as [_ H]. apply reject_Ok in H as [_ H].
  destruct (String.eqb_spec (ts_status t) "completed") as [E|].
  { destruct (_ && _); [|done]. injection H as <-. split_and!; [done..|]. set_solver. }
  apply reject_Ok in H as [_ H]. apply validated_Ok in H as [-> _]. split_and!; [done..|]. cbn. set_solver.
Qed.

Lemma changed_cases mode t p :
  changed mode t p = None /\ p = t \/ changed mode t p = Some (mode, p) /\ p <> t.
Proof. unfold changed. case_bool_decide; auto. Qed.
Lemma changed_same mode t : changed mode t t = None.
Proof. unfold changed. by rewrite bool_decide_eq_true_2. Qed.
Lemma changed_Some mode t p mode' p' : changed mode t p = Some (mode', p') -> mode' = mode /\ p' = p /\ p <> t.
Proof. unfold changed. case_bool_decide; [done|]. by intros [= <- <-]. Qed.

Lemma proposal_kept handlers found t mode p :
  recovery_proposal handlers found t = Some (mode, p) -> kept t p.
Proof.
  unfold recovery_proposal. destruct (ts_envelope t) as [e|]; [|apply baseline_kept].
  destruct (handlers !! env_kind e) as [[scope|]|].
  - destruct found as [record|]; [|apply safe_kept]. cbv zeta.
    destruct (er_state record).
    + destruct (block_unknown_effect t _) as [q|] eqn:E; [|done]. cbn.
      intros (_ & -> & _)%changed_Some. by eapply block_kept.
    + destruct (er_result_digest record), (er_result_size_bytes record); try done.
      destruct (recover_committed_effect t _ _ _) as [q|] eqn:E; [|done]. cbn.
      intros (_ & -> & _)%changed_Some. by eapply recover_kept.
  - apply safe_kept.
  - destruct (is_one_of _ _); [|done]. intros [= <- <-]. split_and!; [done..|]. cbn. set_solver.
Qed.

Lemma recovered_kept g handlers found t :
  let t' := recovered_as g (recovery_proposal handlers found t) t in
  ts_attempts t' = ts_attempts t /\ ts_envelope t' = ts_envelope t /\ ts_task_id t' = ts_task_id t /\
  (known_status t -> known_status t').
Proof.
  destruct (recovery_proposal handlers found t) as [[mode p]|] eqn:E; [|done].
  destruct (proposal_kept _ _ _ _ _ E) as (Ha & He & Hi & Hs). split_and!; [done..|]. intros _.
  unfold known_status. cbn [recovered_as]. change (ts_status (store_commit p _ g)) with (ts_status p).
  elem_cases Hs; rewrite Hs; auto.
Qed.

(** ** The verdicts of the ledger are final *)

Lemma block_again t op p version g :
  block_unknown_effect t op = Ok p ->
  block_unknown_effect (store_commit p version g) op = Ok (store_commit p version g) /\
  requires_operator_reconciliation (store_commit p version g) = true.
Proof.
  intros H. split.
  2:{ apply block_unknown_effect_Ok in H as [(-> & _ & H)|(_ & _ & _ & H & _)]; exact H. }
  unfold block_unknown_effect in *. destruct (validate_canonical_sha256 op _); [|done]. cbv zeta in *.
  assert (ts_status p = "interrupted" /\
          ts_interrupted_reason p = Some (UNKNOWN_EFFECT_RECOVERY_REASON_PREFIX +:+ op)) as [Hs Hr].
  { destruct (String.eqb (ts_status t) "interrupted" && _) eqn:E.
    - injection H as <-. apply andb_true_iff in E as [E1%String.eqb_eq E2%bool_decide_eq_true]. done.
    - do 3 apply reject_Ok in H as [_ H]. by apply validated_Ok in H as [-> _]. }
  change (ts_status (store_commit p version g)) with (ts_status p).
  change (ts_interrupted_reason (store_commit p version g)) with (ts_interrupted_reason p).
  by rewrite Hs, Hr, bool_decide_eq_true_2.
Qed.

Lemma recover_again t op d z p version g :
  recover_committed_effect t op d z = Ok p ->
  recover_committed_effect (store_commit p version g) op d z = Ok (store_commit p version g) /\
  ts_status p = "completed" /\ ts_result_digest p = Some d /\ ts_result_size_bytes p = Some z.
Proof.
  intros H. assert (ts_status p = "completed" /\ ts_result_digest p = Some d /\
                    ts_result_size_bytes p = Some z) as (Hs & Hd & Hz).
  { apply recover_committed_effect_Ok in H as [(-> & ? & ? & ?)|(_ & _ & ? & ? & ? & _)]; done. }
  split; [|done]. destruct (recover_kept _ _ _ _ _ H) as (_ & He & _).
  unfold recover_committed_effect in *. destruct (validate_canonical_sha256 op _); [|done].
  destruct (validate_canonical_sha256 d _); [|done]. apply reject_Ok in H as [Hen _].
  change (ts_envelope (store_commit p version g)) with (ts_envelope p).
  change (ts_status (store_commit p version g)) with (ts_status p).
  change (ts_result_digest (store_commit p version g)) with (ts_result_digest p).
  change (ts_result_size_bytes (store_commit p version g)) with (ts_result_size_bytes p).
  by rewrite He, Hen, Hs, Hd, Hz, !bool_decide_eq_true_2.
Qed.

(** What the ledger's record decides about the task's record. *)
Definition carried_out (record : EffectLedgerRecord) (t' : TaskStateSnapshot) : Prop :=
  match er_state record with
  | EffectPrepared => requires_operator_reconciliation t' = true
  | EffectCommitted => ts_status t' = "completed" /\ ts_result_digest t' = er_result_digest record /\
      ts_result_size_bytes t' = er_result_size_bytes record
  end.

Section Final.
Variable sha256 : string -> string.
Hypothesis sha256_length : forall s, String.length (sha256 s) = 32.
Context (handlers : TaskHandlerRegistry) (ledger : Dir) (g : WriterGeneration).

Lemma effect_final t record :
  task_validate t = Ok tt -> known_status t -> ts_envelope t <> None -> effect_ok sha256 record ->
  match er_state record with
  | EffectPrepared => ts_status t <> "completed"
  | EffectCommitted => ts_status t = "completed" ->
      ts_result_digest t = er_result_digest record /\ ts_result_size_bytes t = er_result_size_bytes record
  end ->
  let decide_on t := match er_state record, er_result_digest record, er_result_size_bytes record with
    | EffectPrepared, _, _ =>
        ok (block_unknown_effect t (eo_operation_digest (er_operation record))) ≫= changed RestartRecovery t
    | EffectCommitted, Some d, Some z =>
        ok (recover_committed_effect t (eo_operation_digest (er_operation record)) d z) ≫= changed RestartRecovery t
    | _, _, _ => None
    end in
  let t' := recovered_as g (decide_on t) t in
  carried_out record t' /\ is_live t' = false /\ decide_on t' = None.
Proof using sha256_length.
  intros Hv Hk He Hok Hagree decide_on t'.
  destruct (operation_digest_forms sha256 sha256_length record "effect operation digest" (proj1 Hok)) as [Hop _].
  unfold t', decide_on, carried_out. clear t' decide_on. set (op := eo_operation_digest (er_operation record)) in *.
  destruct (er_state record) eqn:Es.
  - destruct (block_total t op Hv Hk Hagree He Hop) as [p Hp]. rewrite Hp. cbn [ok mbind option_bind].
    destruct (changed_cases RestartRecovery t p) as [[E ->]|[E _]]; rewrite E; cbn [recovered_as].
    + rewrite Hp. cbn [ok mbind option_bind].
      destruct (block_unknown_effect_Ok _ _ _ Hp) as [(_ & Hs & Hr)|(_ & _ & Hs & Hr & _)];
        (split_and!; [done|unfold is_live; by rewrite Hs|done]).
    + destruct (block_again t op p (ts_record_version t + 1) g Hp) as [Hb Hr]. rewrite Hb.
      split_and!; [done|unfold is_live; by rewrite (blocked_status _ Hr)|apply changed_same].
  - destruct (committed_result_forms sha256 record Hok Es) as (d & z & Ed & Ez & Hd & _ & _).
    rewrite Ed, Ez in *. destruct (recover_total t op d z Hv Hk He Hagree Hop Hd) as [p Hp].
    destruct (recover_again t op d z p (ts_record_version t + 1) g Hp) as (Hb & Hs & Hpd & Hpz).
    rewrite Hp. cbn [ok mbind option_bind].
    destruct (changed_cases RestartRecovery t p) as [[E ->]|[E _]]; rewrite E; cbn [recovered_as].
    + rewrite Hp. cbn [ok mbind option_bind]. split_and!; [done..|unfold is_live; by rewrite Hs|done].
    + rewrite Hb. split_and!; [done..| |apply changed_same].
      unfold is_live. change (ts_status (store_commit p _ g)) with (ts_status p). by rewrite Hs.
Qed.

Lemma legacy_final t :
  ts_replay_delivery t = None ->
  is_live (recovered_as g (baseline_proposal t) t) = false /\
  baseline_proposal (recovered_as g (baseline_proposal t) t) = None.
Proof.
  intros Hr. destruct (baseline_proposal t) as [[mode p]|] eqn:E.
  - unfold baseline_proposal in E. destruct (recovery_status t) as [status|] eqn:Es; [|done].
    rewrite Hr, andb_false_r in E. injection E as <- <-.
    apply recovery_status_cases in Es as [(_ & H & _)|(_ & Hs & _)]; [by rewrite Hr in H|].
    cbn [recovered_as]. split.
    + elem_cases Hs; by subst status.
    + apply baseline_refused; [|by right]. elem_cases Hs; subst status; by auto.
  - split; [|done]. cbn [recovered_as]. unfold is_live. destruct (is_one_of _ _) eqn:El; [|done]. exfalso.
    unfold baseline_proposal in E. destruct (recovery_status t) eqn:Es; [by rewrite Hr, andb_false_r in E|].
    unfold recovery_status in Es. rewrite Hr in Es. cbn [is_some andb] in Es.
    apply is_one_of_true in El. elem_cases El; rewrite El in Es; repeat case_match; done.
Qed.

Lemma plain_no_replay t : task_validate t = Ok tt -> ts_envelope t = None -> ts_replay_delivery t = None.
Proof.
  intros Hv%task_validate_iff He. pose proof (tv_marker t Hv) as H. unfold validate_replay_marker in H.
  destruct (ts_replay_delivery t) as [marker|]; [|done]. rewrite He in H.
  apply then_Ok in H as [_ H]. by apply reject_Ok in H as [_ H].
Qed.

Lemma recovery_final t found :
  task_validate t = Ok tt -> known_status t -> cancelling_requested t ->
  ledger_agrees sha256 handlers ledger t -> finds sha256 ledger t found ->
  let t' := recovered_as g (recovery_proposal handlers found t) t in
  is_live t' = false /\ recovery_proposal handlers found t' = None /\
  forall e record, ts_envelope t = Some e -> non_idempotent_effect_scope handlers (env_kind e) <> None ->
    found = Some record -> carried_out record t'.
Proof using sha256_length.
  intros Hv Hk Hc Hagree Hfinds t'.
  assert (He' : ts_envelope t' = ts_envelope t) by apply recovered_kept.
  enough (H : is_live t' = false /\
    match ts_envelope t with
    | None => baseline_proposal t'
    | Some e => recovery_proposal handlers found t' end = None /\
    forall e record, ts_envelope t = Some e -> non_idempotent_effect_scope handlers (env_kind e) <> None ->
      found = Some record -> carried_out record t').
  { destruct H as (? & H & ?). split_and!; try done. destruct (ts_envelope t); [done|].
    unfold recovery_proposal. by rewrite He'. }
  unfold recovery_proposal. rewrite He'. unfold t', recovery_proposal.
  destruct (ts_envelope t) as [e|] eqn:Ee.
  2:{ destruct (legacy_final t (plain_no_replay t Hv Ee)). by split_and!. }
  destruct (handlers !! env_kind e) as [[scope|]|] eqn:Eh.
  - destruct (Hagree (operation_new sha256 (env_idempotency_key e) (env_kind e) (env_agent_id e) scope
                        (input_digest (env_input e)))) as (op & Hop & Hrec).
    { unfold task_operation, non_idempotent_effect_scope. rewrite Ee. cbn. by rewrite Eh. }
    assert (Ek : eo_idempotency_key op = env_idempotency_key e)
      by (by apply operation_new_Ok in Hop as [-> _]). rewrite Ek in Hrec.
    destruct found as [record|].
    + pose proof (proj2 (Hfinds e Ee record) eq_refl) as Hon. destruct (Hrec record Hon) as [_ Hstate].
      destruct (effect_final t record Hv Hk) as (Hcar & Hlive & Hnone); [by rewrite Ee|by destruct Hon as (_ & ? & _)|done|].
      split_and!; [exact Hlive|exact Hnone|]. intros e' record' _ _ [= <-]. exact Hcar.
    + destruct (safe_final g t Hv) as [Hlive Hnone]; [by rewrite Ee|done|]. by split_and!.
  - destruct (safe_final g t Hv) as [Hlive Hnone]; [by rewrite Ee|done|]. split_and!; try done.
    intros e' record [= <-] H. exfalso. apply H. unfold non_idempotent_effect_scope. by rewrite Eh.
  - split_and!.
    + destruct (is_one_of (ts_status t) ["running"; "cancelling"; "recovering"]) eqn:Es; [done|].
      cbn [recovered_as]. unfold is_live. destruct (is_one_of (ts_status t) ["running"; "cancelling"]) eqn:El; [|done].
      exfalso. apply is_one_of_true in El. elem_cases El; by rewrite El in Es.
    + destruct (is_one_of (ts_status t) ["running"; "cancelling"; "recovering"]) eqn:Es; [done|].
      cbn [recovered_as]. by rewrite Es.
    + intros e' record [= <-] H. exfalso. apply H. unfold non_idempotent_effect_scope. by rewrite Eh.
Qed.
End Final.
