(* ===== verification/RecoveryRun.v ===== *)
(** * The recovery of a task directory (crates/eva-runtime/src/recovery.rs)

    The listing finds every task on disk, and the recovery of all of them
    (run alone) leaves the directory as [recovery_proposal] says: nothing is
    running any more, the ledger's verdicts are carried out, and a second
    recovery changes nothing. *)

From Stdlib Require Import Ascii.
From stdpp Require Import base numbers strings gmap list sorting.
From S2P Require Import Prelude RustStr Digest Error Ids Durable EventLog TaskState.
From S2P Require Import TaskTransition TaskAccept FieldEscape TaskStorage EffectLedger EffectSafety TaskWorker TaskStore.
From S2P Require Import TaskWritable TaskDirectory TaskProgress TaskRecovery RecoverySafety.

(** ** File names *)

Lemma split_app c s t : split c (s +:+ String c t) = split c s ++ split c t.
Proof.
  induction s as [|d s IH].
  - rewrite append_nil_l. cbn. by rewrite Ascii.eqb_refl.
  - rewrite append_cons. cbn. rewrite IH. destruct (Ascii.eqb c d); [done|].
    pose proof (split_nonempty c s). by destruct (split c s).
Qed.

Lemma join_snoc sep l x : l <> [] -> join sep (l ++ [x]) = join sep l +:+ (sep +:+ x).
Proof.
  induction l as [|y l IH]; intros H; [done|]. destruct l as [|z l]; [done|].
  change ((y :: z :: l) ++ [x]) with (y :: ((z :: l) ++ [x])). destruct ((z :: l) ++ [x]) as [|a b] eqn:E; [done|].
  rewrite !join_cons, IH by done. by rewrite !append_assoc.
Qed.

(** A name with an extension is its stem, a dot and the extension. *)
Lemma extension_stem name ext :
  file_extension name = Some ext ->
  name = file_stem name +:+ String "." ext /\ file_stem name <> "" /\ contains_char "." ext = false.
Proof.
  unfold file_extension, file_stem. pose proof (join_split "." name) as Hj.
  pose proof (split_Forall_no_sep "." name) as Hn.
  destruct (rev (split "." name)) as [|x [|y l]] eqn:E; [done|done|].
  apply (f_equal (@rev string)) in E. rewrite rev_involutive in E.
  destruct (str_is_empty _) eqn:Ee; [done|]. intros [= ->].
  change (rev (ext :: y :: l)) with (rev (y :: l) ++ [ext]) in E. rewrite E in Hj, Hn.
  rewrite join_snoc in Hj.
  2:{ intros H. apply (f_equal length) in H. rewrite length_rev in H. discriminate H. }
  split_and!; [by rewrite <- Hj|intros H; by rewrite H in Ee|].
  apply Forall_app in Hn as [_ Hn]. exact (Forall_inv Hn).
Qed.

Lemma stem_extension stem ext :
  stem <> "" -> contains_char "." ext = false ->
  file_extension (stem +:+ String "." ext) = Some ext /\ file_stem (stem +:+ String "." ext) = stem.
Proof.
  intros Hs He. unfold file_extension, file_stem. rewrite split_app, (split_no_sep _ ext He), rev_app_distr.
  cbn [rev app]. assert (rev (rev (split "." stem)) = split "." stem) as Er by apply rev_involutive.
  destruct (rev (split "." stem)) as [|y l] eqn:E.
  { exfalso. apply (split_nonempty "." stem). by rewrite <- Er. }
  change (rev l ++ [y]) with (rev (y :: l)). rewrite Er.
  rewrite (join_split "." stem : join "." (split "." stem) = stem).
  by rewrite (str_is_empty_false stem Hs).
Qed.

(** ** The listing *)

Section Listing.
Context (dir : string) (s : FileSystemTaskStateStore).
Hypothesis Hstore : store_ok dir s.

Lemma path_join_inj a b : path_join dir a = path_join dir b -> a = b.
Proof. unfold path_join. intros H. by do 2 apply (inj (String.append _)) in H. Qed.

Lemma dir_name_Some (entry : string * string) name :
  match strip_prefix (dir +:+ "/") entry.1 with
  | Some name => if contains_char "/" name then None else Some name
  | None => None
  end = Some name <-> entry.1 = path_join dir name /\ contains_char "/" name = false.
Proof.
  unfold path_join. destruct (strip_prefix (dir +:+ "/") entry.1) as [n|] eqn:E.
  - apply strip_prefix_Some in E. rewrite <- append_assoc in E. split.
    + destruct (contains_char "/" n) eqn:Ec; [done|]. by intros [= <-].
    + intros [H Hc]. rewrite E in H. do 2 apply (inj (String.append _)) in H as H. subst n. by rewrite Hc.
  - split; [done|]. intros [H _]. rewrite append_assoc in H.
    by rewrite (proj2 (strip_prefix_Some _ _ name) H) in E.
Qed.

Lemma dir_names_spec files name :
  name ∈ dir_names files dir <->
  is_Some (files !! path_join dir name) /\ contains_char "/" name = false.
Proof.
  unfold dir_names. rewrite list_elem_of_omap. split.
  - intros ([path data] & Hin%elem_of_map_to_list & H). apply dir_name_Some in H as [E Hc]. cbn in E. subst path. by split.
  - intros [[data Hd] Hc]. exists (path_join dir name, data). split; [by apply elem_of_map_to_list|].
    by apply dir_name_Some.
Qed.

Lemma dir_names_NoDup files : NoDup (dir_names files dir).
Proof.
  apply omap_NoDup; [apply NoDup_map_to_list|].
  intros [p1 d1] [p2 d2] z H1%elem_of_map_to_list H2%elem_of_map_to_list E1 E2.
  apply dir_name_Some in E1 as [E1 _]. apply dir_name_Some in E2 as [E2 _]. cbn in E1, E2. subst. congruence.
Qed.

(** Every listed file reads as the record of its task. *)
Lemma list_record_spec files name :
  dir_ok dir files -> name ∈ dir_names files dir -> is_task_name name = true ->
  exists t, list_record s files name = Ok t /\ name = ts_task_id t +:+ ".task" /\
    on_disk dir files (ts_task_id t) t /\ ts_task_id t <> latest_id.
Proof using Hstore.
  intros Hd [[data Hf] _]%dir_names_spec [Hl Hx%bool_decide_eq_true]%andb_true_iff.
  apply negb_true_iff, String.eqb_neq in Hl. apply extension_stem in Hx as (En & Hne & _).
  set (stem := file_stem name) in *. change (String "." "task") with ".task" in En.
  assert (stem <> latest_id) as Hlat by (intros E; apply Hl; by rewrite En, E).
  assert (files !! record_path dir stem = Some data) as Hrec by (unfold record_path; by rewrite <- En).
  destruct (Hd stem data Hrec) as (t & Hst & -> & Hid). specialize (Hid Hlat).
  assert (on_disk dir files stem t) as Hon by (by split_and!).
  exists t. rewrite Hid. split_and!; [|done|done|done]. unfold list_record.
  rewrite (proj1 Hstore). destruct Hst as [Hs Hw]. unfold read_to_string. rewrite Hf.
  assert (task_valid t) as Hval by (apply task_validate_iff, Hs).
  rewrite to_storage_utf8 by done. rewrite read_back by done. cbn [map_err]. fold stem.
  assert (utf8_valid stem = true) as ->.
  { rewrite <- Hid. destruct (tv_id t Hval) as [i [Hi _]%id_parse_Ok]. by apply graphic_utf8, id_valid_graphic. }
  cbn [negb]. by rewrite Hid, String.eqb_refl.
Qed.

Lemma task_listed files task_id t :
  on_disk dir files task_id t -> task_id <> latest_id ->
  task_id +:+ ".task" ∈ dir_names files dir /\ is_task_name (task_id +:+ ".task") = true.
Proof.
  intros (Hf & [Hs _] & Hid) Hl. assert (id_valid task_id = true) as Hv.
  { rewrite <- Hid. assert (task_valid t) as Hval by (apply task_validate_iff, Hs).
    by destruct (tv_id t Hval) as [i [Hi _]%id_parse_Ok]. }
  split.
  - apply dir_names_spec. split; [by eexists|]. rewrite contains_char_append.
    by rewrite (id_valid_not_contains "/" task_id).
  - unfold is_task_name. change ".task" with (String "." "task").
    destruct (stem_extension task_id "task") as [-> _]; [|done|].
    + intros ->. discriminate Hv.
    + rewrite bool_decide_eq_true_2 by done. rewrite andb_true_r. apply negb_true_iff, String.eqb_neq.
      intros E. apply Hl. change "latest-basic.task" with (latest_id +:+ ".task") in E.
      change (String "." "task") with ".task" in E.
      apply append_inj_length in E as [E _]; [done|].
      apply (f_equal String.length) in E. rewrite !length_append in E. lia.
Qed.

Lemma list_records_spec files :
  dir_ok dir files ->
  exists ts, list_records s files (Ok tt) = Ok ts /\ NoDup (ts_task_id <$> ts) /\
    forall t, t ∈ ts <-> on_disk dir files (ts_task_id t) t /\ ts_task_id t <> latest_id.
Proof using Hstore.
  intros Hd. unfold list_records. rewrite (proj1 Hstore).
  set (names := merge_sort name_le (List.filter is_task_name (dir_names files dir))).
  assert (Hnames : forall name, name ∈ names <-> name ∈ dir_names files dir /\ is_task_name name = true).
  { intros name. unfold names. rewrite merge_sort_Permutation, !list_elem_of_In. apply filter_In. }
  assert (Hnd : NoDup names).
  { unfold names. rewrite merge_sort_Permutation. apply NoDup_ListNoDup, List.NoDup_filter, NoDup_ListNoDup.
    apply dir_names_NoDup. }
  clearbody names.
  assert (exists ts, Forall2 (fun name t => list_record s files name = Ok t) names ts /\
            Forall2 (fun name t => name = ts_task_id t +:+ ".task" /\
              on_disk dir files (ts_task_id t) t /\ ts_task_id t <> latest_id) names ts) as (ts & H1 & H2).
  { assert (Forall (fun name => name ∈ dir_names files dir /\ is_task_name name = true) names) as Hall
      by (apply Forall_forall; intros name; apply Hnames).
    clear Hnames Hnd. induction Hall as [|name names [Hin Ht] _ (ts & IH1 & IH2)]; [by exists []|].
    destruct (list_record_spec files name Hd Hin Ht) as (t & Hr & Hrest).
    exists (t :: ts). split; by constructor. }
  exists ts. split; [by apply try_map_Ok|]. split.
  - clear H1 Hnames. induction H2 as [|name t names ts (-> & _) H2 IH]; [constructor|].
    apply NoDup_cons in Hnd as [Hn Hnd]. rewrite fmap_cons. constructor; [|by apply IH].
    intros (t' & Et & Ht')%list_elem_of_fmap. apply Hn. rewrite Et.
    apply list_elem_of_lookup in Ht' as [i Hi]. destruct (Forall2_lookup_r _ _ _ _ _ H2 Hi) as (n & Hn' & -> & _).
    by apply list_elem_of_lookup_2 in Hn'.
  - intros t. split.
    + intros [i Hi]%list_elem_of_lookup. by destruct (Forall2_lookup_r _ _ _ _ _ H2 Hi) as (n & _ & _ & ?).
    + intros [Hon Hl]. destruct (task_listed files _ t Hon Hl) as [Hin Ht].
      assert (ts_task_id t +:+ ".task" ∈ names) as [i Hi]%list_elem_of_lookup by (by apply Hnames).
      destruct (Forall2_lookup_l _ _ _ _ _ H2 Hi) as (t' & Ht' & En & Hon' & _).
      assert (ts_task_id t = ts_task_id t') as Eid.
      { apply append_inj_length in En as [En _]; [done|].
        apply (f_equal String.length) in En. rewrite !length_append in En. lia. }
      rewrite Eid in Hon. rewrite (on_disk_unique dir files _ _ _ Hon Hon').
      by apply list_elem_of_lookup_2 in Ht'.
Qed.
End Listing.

(** ** All tasks, alone *)

Section Run.
Variable sha256 : string -> string.
Hypothesis sha256_length : forall s, String.length (sha256 s) = 32.
Context (dir : string) (s : FileSystemTaskStateStore) (w : DurableWriterGuard).
Hypothesis Hstore : store_ok dir s.
Hypothesis Hapart : writer_apart s.
Hypothesis Hwriter : tss_writer s = Some w.
Context (handlers : TaskHandlerRegistry) (ledger : Dir).
Hypothesis Hledger : ledger_ok sha256 ledger.
Abbreviation g := (wg_generation w).
Abbreviation finds := (finds sha256 ledger).
Abbreviation recovered found t := (recovered_as g (recovery_proposal handlers found t) t).

(** What the recovery of one task relies on. *)
Definition step_ok (t : TaskStateSnapshot) : Prop :=
  known_status t /\ ledger_agrees sha256 handlers ledger t /\
  (is_live t = true -> ts_owner_generation t <> g) /\
  forall found, finds t found -> ready g t (recovery_proposal handlers found t).

Lemma finds_exists t : exists found, finds t found.
Proof using sha256_length Hledger.
  destruct (load_effect_records_ok sha256 sha256_length "" ledger Hledger) as (records & _ & Hiff).
  destruct (ts_envelope t) as [e|] eqn:Ee.
  - exists (records !! env_idempotency_key e). intros e' He' record. rewrite He' in Ee. injection Ee as ->.
    by rewrite Hiff.
  - exists None. intros e He. congruence.
Qed.

Lemma finds_agree t found found' :
  finds t found -> finds t found' ->
  recovery_proposal handlers found t = recovery_proposal handlers found' t.
Proof.
  intros H H'. unfold recovery_proposal. destruct (ts_envelope t) as [e|] eqn:Ee; [|done].
  assert (found = found') as ->; [|done].
  destruct found as [r|].
  - symmetry. by apply (H' e Ee), (H e Ee).
  - destruct found' as [r|]; [|done]. by apply (H e Ee), (H' e Ee).
Qed.

Abbreviation recover_all := (recover_each sha256 (run_alone s) s handlers).

Lemma recover_each_alone ts : forall files l r,
  dir_ok dir files -> verify_current w files = Ok tt -> el_writer l = Some w ->
  NoDup (ts_task_id <$> ts) ->
  Forall (fun t => on_disk dir files (ts_task_id t) t /\ ts_task_id t <> latest_id /\ step_ok t) ts ->
  exists r' l' files',
    recover_all l files (Some ledger) (fun _ => Ok tt) r ts = (Ok r', l', files') /\
    dir_ok dir files' /\ verify_current w files' = Ok tt /\ el_writer l' = Some w /\
    (forall t found, t ∈ ts -> finds t found -> on_disk dir files' (ts_task_id t) (recovered found t)) /\
    (forall path, path ∉ (fun t => record_path dir (ts_task_id t)) <$> ts -> path <> record_path dir latest_id ->
       files' !! path = files !! path) /\
    rr_scanned_tasks r' = rr_scanned_tasks r /\
    ((forall t found, t ∈ ts -> finds t found -> recovery_proposal handlers found t = None) ->
     files' = files /\ rr_recovered_tasks r' = rr_recovered_tasks r).
Proof using sha256_length Hstore Hapart Hwriter Hledger.
  induction ts as [|t ts IH]; intros files l r Hd Hv Hl Hnd Hall.
  { exists r, l, files. split_and!; try done. intros t found H. by apply elem_of_nil in H. }
  rewrite fmap_cons in Hnd. apply NoDup_cons in Hnd as [Hnew Hnd].
  apply Forall_cons in Hall as [(Hon & Hne & Hk & Hagree & Hlive & Hready) Hall].
  destruct (finds_exists t) as [found Hfound].
  destruct (task_decides sha256 sha256_length dir s w Hstore Hapart Hwriter handlers ledger Hledger
              files (ts_task_id t) t l found) as (p & l1 & decision & Ep & Hl1 & files1 & Erun & (Hd1 & Hv1 & Hon1 & Hf1) & Hsame);
    [by split_and!|done..|by apply Hready|].
  destruct (IH files1 l1 (note_recovery r t (recovered found t) decision))
    as (r' & l' & files' & Eall & Hd' & Hv' & Hl' & Hts & Hf' & Hscan & Hquiet); try done.
  { apply Forall_forall. intros u Hu. rewrite Forall_forall in Hall. destruct (Hall u Hu) as ((Hfu & Hsu & _) & Hneu & Hoku).
    split_and!; try done. split_and!; [|done..].
    rewrite Hf1; [done| |by intros ?%record_path_inj].
    intros E%record_path_inj. apply Hnew. rewrite <- E. by apply list_elem_of_fmap_2. }
  exists r', l', files'. cbn [recover_each]. rewrite Ep, Erun. split_and!; try done.
  - intros u found' [->|Hu]%elem_of_cons Hfound'; [|by apply Hts].
    rewrite (finds_agree t found' found Hfound' Hfound). destruct Hon1 as (Hft & Hst & Hit).
    split_and!; [|done..]. rewrite Hf'; [done| |by intros ?%record_path_inj].
    intros (v & Ev%record_path_inj & Hv2)%list_elem_of_fmap. apply Hnew. rewrite Ev. by apply list_elem_of_fmap_2.
  - intros path Ho Hlo. rewrite fmap_cons, not_elem_of_cons in Ho. destruct Ho as [Ho1 Ho2]. rewrite Hf' by done. by apply Hf1.
  - rewrite Hscan. unfold note_recovery. by destruct (bool_decide _).
  - intros Hnone. assert (recovery_proposal handlers found t = None) as En by (apply (Hnone t found); [left|done]).
    destruct Hquiet as [-> ->]; [intros u f Hu; apply (Hnone u f); by right|].
    split; [by apply Hsame|]. unfold note_recovery. rewrite En. cbn [recovered_as].
    by rewrite bool_decide_eq_true_2.
Qed.

(** The run over the whole directory. *)
Lemma recover_directory files l :
  dir_ok dir files -> verify_current w files = Ok tt -> el_writer l = Some w ->
  (forall task_id t, task_id <> latest_id -> on_disk dir files task_id t -> step_ok t) ->
  exists report l' files',
    recover_effect_aware_tasks sha256 (run_alone s) s handlers l files (Some ledger) (Ok tt) (fun _ => Ok tt)
    = (Ok report, l', files') /\
    dir_ok dir files' /\ verify_current w files' = Ok tt /\ el_writer l' = Some w /\
    (forall task_id t found, task_id <> latest_id -> on_disk dir files task_id t -> finds t found ->
       on_disk dir files' task_id (recovered found t)) /\
    (forall path, path <> record_path dir latest_id ->
       (forall task_id t, task_id <> latest_id -> on_disk dir files task_id t -> path <> record_path dir task_id) ->
       files' !! path = files !! path) /\
    ((forall task_id t found, task_id <> latest_id -> on_disk dir files task_id t -> finds t found ->
        recovery_proposal handlers found t = None) -> files' = files /\ rr_recovered_tasks report = []).
Proof using sha256_length Hstore Hapart Hwriter Hledger.
  intros Hd Hv Hl Hok. destruct (list_records_spec dir s Hstore files Hd) as (ts & Els & Hnd & Hts).
  destruct (recover_each_alone ts files l (empty_recovery_report (len ts)))
    as (r' & l' & files' & E & Hd' & Hv' & Hl' & Hon' & Hf' & Hscan & Hquiet); try done.
  { apply Forall_forall. intros t Ht. apply Hts in Ht as [Hon Hne]. split_and!; try done. by eapply Hok. }
  do 3 eexists. split; [unfold recover_effect_aware_tasks; rewrite Els, E; reflexivity|].
  split_and!; try done.
  - intros task_id t found Hne Hon Hfound. assert (ts_task_id t = task_id) as <- by apply Hon.
    apply Hon'; [|done]. by apply Hts.
  - intros path Hne Hno. apply Hf'; [|done]. intros (t & -> & Ht)%list_elem_of_fmap.
    apply Hts in Ht as [Hon Hn]. by eapply Hno.
  - intros Hnone. destruct Hquiet as [-> Hr]; [|by split].
    intros t found Ht Hfound. apply Hts in Ht as [Hon Hne]. by eapply Hnone.
Qed.
End Run.

(** ** The tasks a crash can leave *)

(** A record written by an earlier owner of the directory that agrees with
    the ledger. *)
Record restartable (sha256 : string -> string) (handlers : TaskHandlerRegistry) (ledger : Dir)
    (g : WriterGeneration) (t : TaskStateSnapshot) : Prop := {
  rs_version : (ts_record_version t + 1 <= u64_max)%N;
  rs_logs : (len (ts_logs t) < usize_max)%N;
  rs_generation : ts_owner_generation t <> g;
  rs_status : known_status t;
  rs_cancelling : cancelling_requested t;
  rs_ledger : ledger_agrees sha256 handlers ledger t
}.

Lemma restartable_step sha256 w handlers ledger dir files task_id t :
  on_disk dir files task_id t -> restartable sha256 handlers ledger (wg_generation w) t ->
  step_ok sha256 w handlers ledger t.
Proof.
  intros (_ & Hst & _) []. by split_and!.
Qed.

(** A recovered record is one that needs no recovery. *)
Lemma recovered_step sha256 w handlers ledger t found :
  (forall s, String.length (sha256 s) = 32) -> task_validate t = Ok tt ->
  restartable sha256 handlers ledger (wg_generation w) t -> finds sha256 ledger t found ->
  let t' := recovered_as (wg_generation w) (recovery_proposal handlers found t) t in
  step_ok sha256 w handlers ledger t' /\ finds sha256 ledger t' found /\
  recovery_proposal handlers found t' = None.
Proof.
  intros Hlen Hv [_ _ _ Hk Hc Hagree] Hfound t'.
  destruct (recovery_final sha256 Hlen handlers ledger (wg_generation w) t found Hv Hk Hc Hagree Hfound)
    as (Hlive & Hnone & Hcar). fold t' in Hlive, Hnone, Hcar.
  destruct (recovered_kept (wg_generation w) handlers found t) as (_ & He & _ & Hk'). fold t' in He, Hk'.
  assert (finds sha256 ledger t' found) as Hfound' by (unfold finds; by rewrite He).
  split_and!; try done. split_and!; [by apply Hk'| |by rewrite Hlive|].
  - intros r Hr. unfold task_operation in Hr. rewrite He in Hr. destruct (Hagree r Hr) as (op & -> & Hrec).
    exists op. split; [done|]. intros record Hon. destruct (Hrec record Hon) as [Hop _]. split; [done|].
    destruct (ts_envelope t) as [e|] eqn:Ee; [|done]. cbn in Hr.
    destruct (non_idempotent_effect_scope handlers (env_kind e)) as [scope|] eqn:Es; [|done].
    assert (eo_idempotency_key op = env_idempotency_key e) as Ek.
    { injection Hr as Hr. by apply operation_new_Ok in Hr as [-> _]. }
    rewrite Ek in Hon. specialize (Hcar e record eq_refl). rewrite Es in Hcar.
    assert (carried_out record t') as H by (apply Hcar; [discriminate|by apply (Hfound e Ee)]).
    clear Hcar. unfold carried_out in H.
    destruct (er_state record); [|by destruct H as (_ & ? & ?)]. apply blocked_status in H. by rewrite H.
  - intros found' Hf' H. exfalso. apply H. by rewrite (finds_agree sha256 handlers ledger t' found' found Hf' Hfound').
Qed.

(** C11: restart recovery decides every task.  On a task directory that holds
    what earlier owners wrote, consistent with the effect ledger, the recovery
    of a new owner succeeds (alone, without I/O failures); afterwards no task
    is running or cancelling, no attempt was added, every file but the
    records of tasks and the alias of the latest one is as it was, and every
    task whose handler is registered as non-idempotent follows the ledger: a prepared effect blocks it for an operator, a
    committed one completes it with the recorded result.  What is written is
    the abstract [recovery_proposal] of the task. *)
Theorem restart_recovery_settles (sha256 : string -> string)
    (sha256_length : forall s, String.length (sha256 s) = 32)
    dir s w handlers ledger l files :
  store_ok dir s -> writer_apart s -> tss_writer s = Some w -> verify_current w files = Ok tt ->
  dir_ok dir files -> ledger_ok sha256 ledger -> el_writer l = Some w ->
  (forall task_id t, task_id <> latest_id -> on_disk dir files task_id t ->
     restartable sha256 handlers ledger (wg_generation w) t) ->
  exists report l' files',
    recover_effect_aware_tasks sha256 (run_alone s) s handlers l files (Some ledger) (Ok tt) (fun _ => Ok tt)
    = (Ok report, l', files') /\ dir_ok dir files' /\
    (forall path, path <> record_path dir latest_id ->
       (forall task_id t, task_id <> latest_id -> on_disk dir files task_id t -> path <> record_path dir task_id) ->
       files' !! path = files !! path) /\
    forall task_id t, task_id <> latest_id -> on_disk dir files task_id t ->
      exists found, finds sha256 ledger t found /\
        let t' := recovered_as (wg_generation w) (recovery_proposal handlers found t) t in
        on_disk dir files' task_id t' /\ is_live t' = false /\ ts_attempts t' = ts_attempts t /\
        forall e record, ts_envelope t = Some e ->
          non_idempotent_effect_scope handlers (env_kind e) <> None ->
          on_ledger sha256 ledger (env_idempotency_key e) record -> carried_out record t'.
Proof.
  intros Hs Ha Hw Hv Hd Hl Hlw Hall.
  destruct (recover_directory sha256 sha256_length dir s w Hs Ha Hw handlers ledger Hl files l)
    as (report & l' & files' & E & Hd' & _ & _ & Hon' & Hf' & _); try done.
  { intros task_id t Hne Hon. eapply restartable_step; [done|]. by eapply Hall. }
  exists report, l', files'. split_and!; try done. intros task_id t Hne Hon.
  destruct (finds_exists sha256 sha256_length ledger Hl t) as [found Hfound]. exists found.
  destruct (Hall task_id t Hne Hon) as [_ _ _ Hk Hc Hagree].
  assert (task_validate t = Ok tt) as Hval by apply Hon.
  destruct (recovery_final sha256 sha256_length handlers ledger (wg_generation w) t found Hval Hk Hc Hagree Hfound)
    as (Hlive & _ & Hcar).
  split; [done|]. split_and!; [by apply Hon'|done|by apply recovered_kept|].
  intros e record He Hscope Hrec. eapply Hcar; [done..|]. by apply (Hfound e He).
Qed.

(** C12: recovery is idempotent: run again on what it left (the daemon
    crashed once more before its workers started), it succeeds, reports no
    recovered task and changes no file. *)
Theorem restart_recovery_idempotent (sha256 : string -> string)
    (sha256_length : forall s, String.length (sha256 s) = 32)
    dir s w handlers ledger l files :
  store_ok dir s -> writer_apart s -> tss_writer s = Some w -> verify_current w files = Ok tt ->
  dir_ok dir files -> ledger_ok sha256 ledger -> el_writer l = Some w ->
  (forall task_id t, task_id <> latest_id -> on_disk dir files task_id t ->
     restartable sha256 handlers ledger (wg_generation w) t) ->
  exists report l' files' report2 l2,
    recover_effect_aware_tasks sha256 (run_alone s) s handlers l files (Some ledger) (Ok tt) (fun _ => Ok tt)
    = (Ok report, l', files') /\
    recover_effect_aware_tasks sha256 (run_alone s) s handlers l' files' (Some ledger) (Ok tt) (fun _ => Ok tt)
    = (Ok report2, l2, files') /\ rr_recovered_tasks report2 = [].
Proof.
  intros Hs Ha Hw Hv Hd Hl Hlw Hall.
  destruct (recover_directory sha256 sha256_length dir s w Hs Ha Hw handlers ledger Hl files l)
    as (report & l' & files' & E & Hd' & Hv' & Hlw' & Hon' & Hf' & _); try done.
  { intros task_id t Hne Hon. eapply restartable_step; [done|]. by eapply Hall. }
  assert (Hback : forall task_id t', task_id <> latest_id -> on_disk dir files' task_id t' ->
    exists t found, finds sha256 ledger t found /\ task_validate t = Ok tt /\
      restartable sha256 handlers ledger (wg_generation w) t /\
      t' = recovered_as (wg_generation w) (recovery_proposal handlers found t) t).
  { intros task_id t' Hne Hon2. destruct (files !! record_path dir task_id) as [data|] eqn:Ef.
    - destruct (Hd task_id data Ef) as (t & Hst & -> & Hid).
      assert (on_disk dir files task_id t) as Hon by (split_and!; [done|done|by apply Hid]).
      destruct (finds_exists sha256 sha256_length ledger Hl t) as [found Hfound]. exists t, found.
      split_and!; [done|apply Hst|by eapply Hall|]. eapply on_disk_unique; [exact Hon2|by apply Hon'].
    - exfalso. destruct Hon2 as (H2 & _). rewrite Hf', Ef in H2; [done|by intros ?%record_path_inj|].
      intros other t _ (H & _) Ep%record_path_inj. subst other. by rewrite Ef in H. }
  destruct (recover_directory sha256 sha256_length dir s w Hs Ha Hw handlers ledger Hl files' l')
    as (report2 & l2 & files2 & E2 & _ & _ & _ & _ & _ & Hquiet); try done.
  { intros task_id t' Hne Hon2. destruct (Hback task_id t' Hne Hon2) as (t & found & Hfound & Hval & Hr & ->).
    by apply recovered_step. }
  destruct Hquiet as [-> Hrec].
  { intros task_id t' found' Hne Hon2 Hfound'.
    destruct (Hback task_id t' Hne Hon2) as (t & found & Hfound & Hval & Hr & ->).
    destruct (recovered_step sha256 w handlers ledger t found sha256_length Hval Hr Hfound) as (_ & Hf2 & Hnone).
    by rewrite (finds_agree sha256 handlers ledger _ found' found Hfound' Hf2). }
  by exists report, l', files', report2, l2.
Qed.

(** ** A crash after the effect was prepared *)

(** The owner of generation 1 died; the next one has acquired the directory. *)
Definition crash_acquired : Res DurableWriterGuard * Files :=
  writer_acquire effect_layout effect_acquired.2 (Ok tt) 8 2 0 WriteOk WriteOk.
Definition crash_writer : DurableWriterGuard :=
  match crash_acquired.1 with
  | Ok g => g
  | Err _ => MkWriterGuard "" "" "" "" "" 0 0
  end.
Definition crash_dir : string := layout_task_dir effect_layout.
Definition crash_store : FileSystemTaskStateStore := MkTaskStore "r" crash_dir true (Some crash_writer).
Definition crash_files : Files := <[record_path crash_dir "task-1" := to_storage effect_task]> crash_acquired.2.
Definition crash_record : EffectLedgerRecord := effect_prepared sample_intent.
Definition crash_ledger : Dir :=
  {[ effect_file sha256_bytes "request-1" := effect_record_to_storage crash_record ]}.
Definition crash_handle : FileSystemEffectLedger :=
  MkEffectLedger (path_join (layout_state_dir effect_layout) EFFECT_LEDGER_DIR) ∅ (Some crash_writer).
Definition crash_handlers : TaskHandlerRegistry := {["agent.run" := Some "mail"]}.

(** The task is blocked for an operator, with the attempt it had used. *)
Example crash_recovery :
  (fun r : RuntimeRecoveryReport =>
     ((fun t => (rt_previous_status t, rt_status t)) <$> rr_recovered_tasks r,
      requires_operator_reconciliation <$> rr_recovered_snapshots r)) <$>
    ok (recover_effect_aware_tasks sha256_bytes (run_alone crash_store) crash_store crash_handlers crash_handle
          crash_files (Some crash_ledger) (Ok tt) (fun _ => Ok tt)).1.1
  = Some ([("running", "interrupted")], [true]).
Proof. vm_compute. reflexivity. Qed.

Lemma crash_writer_files path data :
  crash_acquired.2 !! path = Some data ->
  path = "r/runtime.writer.generation" \/ path = "r/runtime.writer.owner".
Proof.
  intros H%elem_of_map_to_list. apply (list_elem_of_fmap_2 fst), list_elem_of_In in H. cbn [fst] in H.
  assert (forallb (fun p => String.eqb p "r/runtime.writer.generation" || String.eqb p "r/runtime.writer.owner")
            (map_to_list crash_acquired.2).*1 = true) as Hall by (vm_compute; reflexivity).
  rewrite forallb_forall in Hall. specialize (Hall path H).
  apply orb_true_iff in Hall as [E|E]; apply String.eqb_eq in E; [by left|by right].
Qed.

Lemma crash_record_apart task_id data : crash_acquired.2 !! record_path crash_dir task_id <> Some data.
Proof.
  intros [E|E]%crash_writer_files; unfold record_path, path_join in E.
  - change "r/runtime.writer.generation" with ("r/runtime.writer.gener" +:+ "ation") in E.
    rewrite !append_assoc in E. by apply append_inj_suffix in E.
  - change "r/runtime.writer.owner" with ("r/runtime.writer." +:+ "owner") in E.
    rewrite !append_assoc in E. by apply append_inj_suffix in E.
Qed.

Lemma crash_task_stored : stored effect_task.
Proof.
  assert (writable running_sample) as Hw.
  { apply (claim_writable sample_task "worker-1" 10 (Some 1010%N) "token-1" 1);
      [vm_compute; reflexivity|reflexivity|reflexivity|apply N.leb_le; reflexivity|apply N.leb_le; reflexivity|].
    apply (writable_version shared_task 0); [apply N.leb_le; reflexivity|apply shared_task_stored]. }
  assert (writable effect_task) as Hw'.
  { apply writable_generation; [apply N.leb_le; reflexivity|].
    apply writable_version; [apply N.leb_le; reflexivity|exact Hw]. }
  split; [|exact Hw']. apply writable_storable; [exact Hw'|vm_compute; reflexivity|left; discriminate].
Qed.

Lemma crash_task_on_disk : on_disk crash_dir crash_files "task-1" effect_task.
Proof.
  split; [unfold crash_files; apply lookup_insert_eq|]. split; [exact crash_task_stored|].
  vm_compute. reflexivity.
Qed.

Lemma crash_on_disk task_id t :
  on_disk crash_dir crash_files task_id t -> task_id = "task-1" /\ t = effect_task.
Proof.
  intros Hon. pose proof (proj1 Hon) as H. unfold crash_files in H.
  apply lookup_insert_Some in H as [[E _]|[_ H]]; [|by apply crash_record_apart in H].
  apply record_path_inj in E. subst task_id. split; [reflexivity|].
  exact (on_disk_unique crash_dir crash_files "task-1" _ _ Hon crash_task_on_disk).
Qed.

Lemma crash_dir_ok : dir_ok crash_dir crash_files.
Proof.
  intros task_id data H. unfold crash_files in H. apply lookup_insert_Some in H as [[E H]|[_ H]].
  - apply record_path_inj in E. subst task_id data. exists effect_task.
    split; [exact crash_task_stored|]. split; [reflexivity|]. intros _. vm_compute. reflexivity.
  - by apply crash_record_apart in H.
Qed.

Lemma crash_record_ok : effect_ok sha256_bytes crash_record.
Proof.
  split.
  - apply effect_validate_iff. vm_compute. reflexivity.
  - constructor; try exact I; apply N.leb_le; vm_compute; reflexivity.
Qed.

Lemma crash_record_key : effect_key crash_record = "request-1".
Proof. vm_compute. reflexivity. Qed.

Lemma crash_ledger_ok : ledger_ok sha256_bytes crash_ledger.
Proof.
  intros name data H _. unfold crash_ledger in H. apply lookup_singleton_Some in H as [<- <-].
  exists crash_record. split; [exact crash_record_ok|]. split; [reflexivity|]. rewrite crash_record_key. reflexivity.
Qed.

Lemma crash_restartable : restartable sha256_bytes crash_handlers crash_ledger (wg_generation crash_writer) effect_task.
Proof.
  constructor.
  - apply N.leb_le. vm_compute. reflexivity.
  - apply N.ltb_lt. vm_compute. reflexivity.
  - apply N.eqb_neq. vm_compute. reflexivity.
  - right. vm_compute. reflexivity.
  - intros H. apply (f_equal (String.eqb "running")) in H. vm_compute in H. discriminate H.
  - intros r Hr. exists effect_operation. split.
    + apply (inj Some). rewrite <- Hr. vm_compute. reflexivity.
    + intros record Hon. assert (record = crash_record) as ->.
      { apply (on_ledger_unique sha256_bytes crash_ledger "request-1").
        - assert (eo_idempotency_key effect_operation = "request-1") as E by (vm_compute; reflexivity).
          rewrite E in Hon. exact Hon.
        - split; [apply lookup_singleton_eq|]. split; [exact crash_record_ok|exact crash_record_key]. }
      split; [vm_compute; reflexivity|]. cbn [er_state crash_record effect_prepared].
      intros H. apply (f_equal (String.eqb "running")) in H. vm_compute in H. discriminate H.
Qed.

Lemma crash_writer_apart : writer_apart crash_store.
Proof.
  intros w H. pose proof (inj Some _ _ (H : Some crash_writer = Some w)) as E. subst w. clear H. split; [exists "r/"|exists "r/"]; vm_compute; reflexivity.
Qed.

Lemma crash_all_restartable task_id t :
  task_id <> latest_id -> on_disk crash_dir crash_files task_id t ->
  restartable sha256_bytes crash_handlers crash_ledger (wg_generation crash_writer) t.
Proof. intros _ Hon. destruct (crash_on_disk _ _ Hon) as [_ ->]. exact crash_restartable. Qed.

Lemma crash_store_ok : store_ok crash_dir crash_store.
Proof. split; [reflexivity|]. 
  intros g H. pose proof (inj Some _ _ (H : Some crash_writer = Some g)) as E. subst g. clear H. apply N.leb_le. vm_compute. reflexivity.
Qed.

Lemma restart_recovery_settles_witness :
  exists report l' files' t',
    recover_effect_aware_tasks sha256_bytes (run_alone crash_store) crash_store crash_handlers crash_handle
      crash_files (Some crash_ledger) (Ok tt) (fun _ => Ok tt) = (Ok report, l', files') /\
    on_disk crash_dir files' "task-1" t' /\ requires_operator_reconciliation t' = true.
Proof.
  destruct (restart_recovery_settles sha256_bytes sha256_bytes_length crash_dir crash_store crash_writer
    crash_handlers crash_ledger crash_handle crash_files crash_store_ok crash_writer_apart eq_refl
    ltac:(vm_compute; reflexivity) crash_dir_ok crash_ledger_ok eq_refl crash_all_restartable)
    as (report & l' & files' & E & _ & _ & H).
  destruct (H "task-1" effect_task ltac:(discriminate) crash_task_on_disk) as (found & _ & Hon' & _ & _ & Hcar).
  eexists report, l', files', _. split; [exact E|]. split; [exact Hon'|].
  assert (exists e, ts_envelope effect_task = Some e /\ env_idempotency_key e = "request-1" /\
            is_some (non_idempotent_effect_scope crash_handlers (env_kind e)) = true) as (e & He & Hk & Hs).
  { destruct (ts_envelope effect_task) as [e|] eqn:Ee.
    - exists e. split; [reflexivity|].
      assert (env_idempotency_key <$> ts_envelope effect_task = Some "request-1" /\
        (fun e => is_some (non_idempotent_effect_scope crash_handlers (env_kind e))) <$> ts_envelope effect_task
        = Some true) as [H1 H2] by (split; vm_compute; reflexivity).
      rewrite Ee in H1, H2. split; [exact (inj Some _ _ H1)|exact (inj Some _ _ H2)].
    - exfalso. apply (f_equal is_some) in Ee. vm_compute in Ee. discriminate Ee. }
  refine (Hcar e crash_record He _ _).
  - intros E'. rewrite E' in Hs. discriminate Hs.
  - rewrite Hk. split; [apply lookup_singleton_eq|]. split; [exact crash_record_ok|exact crash_record_key].
Defined.

Lemma restart_recovery_idempotent_witness :
  exists report l' files' report2 l2,
    recover_effect_aware_tasks sha256_bytes (run_alone crash_store) crash_store crash_handlers crash_handle
      crash_files (Some crash_ledger) (Ok tt) (fun _ => Ok tt) = (Ok report, l', files') /\
    recover_effect_aware_tasks sha256_bytes (run_alone crash_store) crash_store crash_handlers l'
      files' (Some crash_ledger) (Ok tt) (fun _ => Ok tt) = (Ok report2, l2, files') /\
    rr_recovered_tasks report2 = [].
Proof.
  exact (restart_recovery_idempotent sha256_bytes sha256_bytes_length crash_dir crash_store crash_writer
    crash_handlers crash_ledger crash_handle crash_files crash_store_ok crash_writer_apart eq_refl
    ltac:(vm_compute; reflexivity) crash_dir_ok crash_ledger_ok eq_refl crash_all_restartable).
Defined.
