(* ===== verification/ReplayDelivery.v ===== *)
(** * Replay deliveries as tasks (crates/eva-runtime/src/task_worker.rs, lines 1218-1524)

    The daemon's [OwnedReplayHandler], which the scheduler's retry tick calls
    for every binding of a replayed event: the delivery is a task under an id
    computed from the event, the binding and the delivery index; the call
    creates it, looks at its status, schedules its retry or recovers it, and
    reports it as pending, succeeded or failed.

    A call is a tree of store accesses ([StoreProg]), so other processes may
    act in between; the wake-up signal to the worker thread is left out. *)

From Stdlib Require Import Ascii.
From stdpp Require Import base numbers strings gmap list.
From S2P Require Import Prelude RustStr Digest Error Ids Topic Event Durable EventLog EventBus.
From S2P Require Import SchedulerRetry TaskState TaskTransition TaskAccept FieldEscape TaskStorage EffectLedger.
From S2P Require Import TaskWorker TaskStore.

(** ** Identities *)

Definition NUL : string := String "000" "".

Definition event_payload_bytes (p : EventPayload) : string :=
  match p with PayloadEmpty => "" | PayloadText value | PayloadBytes value => value end.

Definition digest_hex (digest : string) : string := default digest (strip_prefix "sha256:" digest).

Definition replay_delivery_task_id (event : Event) (binding : ReplayHandlerBinding)
    (delivery_index : N) : Res RequestId :=
  let material := id_str (event_id event) +:+ NUL +:+ n_to_string delivery_index +:+ NUL
                    +:+ rh_handler_kind binding +:+ NUL +:+ id_str (rh_agent_id binding) in
  id_parse KRequest ("replay-delivery-" +:+ digest_hex (sha256_digest material)).

Definition task_failure_event_id (task_id : string) (attempt : N) : Res EventId :=
  let digest := sha256_digest (task_id +:+ NUL +:+ n_to_string attempt) in
  id_parse KEvent ("task-failure-" +:+ String.substring 0 32 (digest_hex digest)).

Definition TASK_FAILURE_TOPIC : string := "/runtime/task/failure".

(** The original task vouches for its idempotency key. *)
Definition legacy_evidence_matches (binding : ReplayHandlerBinding) (event : Event)
    (original : TaskStateSnapshot) (envelope : TaskEnvelopeSnapshot) (failure_event_id : EventId) : bool :=
  let source_event_matches :=
    bool_decide (event_id event = failure_event_id)
    || bool_decide (causation_id (meta_trace (event_metadata event)) = Some failure_event_id) in
  let dead_letter_matches :=
    existsb (fun record => String.eqb (td_event_id record) (id_str failure_event_id)
               && String.eqb (td_topic record) TASK_FAILURE_TOPIC
               && bool_decide (ts_error_kind original = Some (td_reason_kind record))
               && bool_decide (ts_error_message original = Some (td_reason record)))
      (ts_dead_letters original) in
  let target_matches := match event_target event with
    | TargetAgent agent_id => String.eqb (id_str agent_id) (env_agent_id envelope) | _ => false end in
  let payload_matches :=
    String.eqb (sha256_digest (event_payload_bytes (event_payload event))) (input_digest (env_input envelope)) in
  negb (is_some (ts_replay_delivery original)
        || negb (is_one_of (ts_status original) ["failed"; "timed_out"])
        || is_none (ts_error_retryable original)
        || negb (String.eqb (rh_handler_kind binding) (env_kind envelope))
        || negb (String.eqb (id_str (rh_agent_id binding)) (env_agent_id envelope))
        || negb source_event_matches || negb dead_letter_matches
        || negb target_matches || negb payload_matches).

Definition replay_delivery_idempotency_key {A} (binding : ReplayHandlerBinding) (event : Event)
    (replay_task_id : RequestId) (k : string -> StoreProg A) : StoreProg A :=
  let own := attempt (idempotency_key_parse (id_str replay_task_id)) k in
  match rh_idempotency_key binding with
  | Some key => attempt (idempotency_key_parse (id_str key)) k
  | None =>
      if negb (String.eqb (topic_path (event_topic event)) TASK_FAILURE_TOPIC) then own else
      match meta_request_id (event_metadata event) with
      | None => own
      | Some original_task_id =>
          Perform (ARead (id_str original_task_id)) (fun r =>
            match r with
            | Err error => if bool_decide (err_kind error = NotFound) then own else Done (Err error)
            | Ok original =>
                attempt (ok_or (ts_envelope original)
                  (conflict "legacy task failure binding points to a task without an envelope"
                     ⊕ ("task_id", ts_task_id original))) (fun envelope =>
                attempt (task_failure_event_id (ts_task_id original) (ts_attempts original))
                  (fun failure_event_id =>
                if negb (legacy_evidence_matches binding event original envelope failure_event_id) then
                  Done (Err (conflict "legacy task failure binding does not match its original task evidence"
                               ⊕ ("task_id", ts_task_id original)
                               ⊕ ("replay_event_id", id_str (event_id event))))
                else attempt (idempotency_key_parse (env_idempotency_key envelope)) k))
            end)
      end
  end.

Definition legacy_replay_envelope_matches (binding : ReplayHandlerBinding) (replay_task_id : RequestId)
    (actual expected : TaskEnvelopeSnapshot) : bool :=
  if is_some (rh_idempotency_key binding)
     || negb (String.eqb (env_idempotency_key actual) (id_str replay_task_id)) then false
  else bool_decide (MkEnvelope (env_kind actual) (env_agent_id actual) (env_input actual)
                      (env_idempotency_key expected) (env_attempt_policy actual) = expected).

Definition error_kind_of (value : string) : option ErrorKind :=
  List.find (fun k => String.eqb (error_kind_str k) value)
    [InvalidArgument; NotFound; Conflict; PermissionDenied; Timeout; Unavailable; Internal; Unsupported].

Definition task_snapshot_error (t : TaskStateSnapshot) : Res EvaError :=
  let about (e : EvaError) := e ⊕ ("task_id", ts_task_id t) in
  let? value := ok_or (ts_error_kind t)
    (about (conflict "failed replay delivery task is missing its error kind")) in
  let? kind := ok_or (error_kind_of value)
    (about (conflict "replay delivery task has an invalid error kind") ⊕ ("error_kind", value)) in
  let? message := ok_or (ts_error_message t)
    (about (conflict "failed replay delivery task is missing its error message")) in
  Ok (with_retryable (error_new kind message) (default (default_retryable kind) (ts_error_retryable t))).

(** ** The reconciliation *)

(** [match p { .. }] *)
Fixpoint answering {A B} (p : StoreProg A) (k : Res A -> StoreProg B) : StoreProg B :=
  match p with
  | Done r => k r
  | Perform a f => Perform a (fun r => answering (f r) k)
  end.

(** [let x = p?; k] *)
Definition awaiting {A B} (p : StoreProg A) (k : A -> StoreProg B) : StoreProg B :=
  answering p (fun r => attempt r k).

(** What a delivery task must be. *)
Record ExpectedDelivery := MkExpected {
  ed_task_id : RequestId;
  ed_envelope : TaskEnvelopeSnapshot;
  ed_queued : TaskStateSnapshot
}.

Definition delivery_mismatch (message : string) (e : ExpectedDelivery) (event : Event) (index : N) :
    EvaError :=
  conflict message ⊕ ("task_id", id_str (ed_task_id e)) ⊕ ("replay_event_id", id_str (event_id event))
    ⊕ ("delivery_index", n_to_string index).

(** The [match snapshot.status] of the loop body. *)
Definition delivery_status (s : FileSystemTaskStateStore) (task_id : string) (observed_at_ms : N)
    (t : TaskStateSnapshot) : StoreProg OwnedReplayDeliveryStatus :=
  let status := ts_status t in
  if is_one_of status ["queued"; "running"; "cancelling"] then
    Done (Ok (DeliveryPending task_id status))
  else if String.eqb status "completed" then
    Done (let? result_digest := ok_or (ts_result_digest t)
            (conflict "completed replay delivery is missing its result digest" ⊕ ("task_id", task_id)) in
          let? result_size_bytes := ok_or (ts_result_size_bytes t)
            (conflict "completed replay delivery is missing its result size" ⊕ ("task_id", task_id)) in
          Ok (DeliverySucceeded task_id result_digest result_size_bytes))
  else if is_one_of status ["failed"; "timed_out"] then
    attempt (task_snapshot_error t) (fun error =>
    let failed retry_scheduled := Done (Ok (DeliveryFailed task_id error retry_scheduled)) in
    if err_retryable error && (ts_attempts t <? ts_retry_max_attempts t)%N then
      awaiting (requeue_retryable task_id observed_at_ms) (fun requeued =>
        let restarted := is_one_of (ts_status requeued) ["queued"; "running"] in
        if is_some (ts_retry_ready_at_ms t) && restarted then
          Done (Ok (DeliveryPending task_id (ts_status requeued)))
        else failed (is_some (ts_retry_ready_at_ms requeued) || restarted))
    else failed false)
  else if is_one_of status ["interrupted"; "recovering"] then
    awaiting (recover_abandoned_replay_delivery s task_id) (fun recovered =>
      if String.eqb (ts_status recovered) "queued" then
        Done (Ok (DeliveryPending task_id (ts_status recovered)))
      else Done (Ok (DeliveryFailed task_id
             (conflict "replay delivery could not be recovered from its durable task state"
                ⊕ ("status", ts_status recovered)) false)))
  else if String.eqb status "cancelled" then
    Done (Ok (DeliveryFailed task_id
           (conflict "replay delivery cannot continue from its durable task state" ⊕ ("status", status)) false))
  else Done (Err (conflict "replay delivery task has an unsupported lifecycle status"
                    ⊕ ("task_id", task_id) ⊕ ("status", status))).

(** The checks before it. *)
Definition delivery_reconciled (s : FileSystemTaskStateStore) (binding : ReplayHandlerBinding)
    (event : Event) (index observed_at_ms : N) (e : ExpectedDelivery) (t : TaskStateSnapshot) :
    StoreProg OwnedReplayDeliveryStatus :=
  let envelope_matches :=
    bool_decide (ts_envelope t = Some (ed_envelope e))
    || match ts_envelope t with
       | Some actual => legacy_replay_envelope_matches binding (ed_task_id e) actual (ed_envelope e)
       | None => false
       end in
  if negb envelope_matches then
    Done (Err (delivery_mismatch "replay delivery task envelope does not match its durable binding" e event index))
  else if negb (bool_decide (ts_replay_delivery t = ts_replay_delivery (ed_queued e))) then
    Done (Err (delivery_mismatch "replay delivery task is missing its durable replay identity" e event index))
  else delivery_status s (id_str (ed_task_id e)) observed_at_ms t.

Definition expected_delivery (binding : ReplayHandlerBinding) (event : Event) (index retry_backoff_ms : N)
    (task_id : RequestId) (idempotency_key : string) : Res ExpectedDelivery :=
  let? kind := task_kind_parse (rh_handler_kind binding) in
  let? input := input_inline (event_payload_bytes (event_payload event)) in
  let? policy := attempt_policy_new u32_max retry_backoff_ms None in
  let? envelope := task_envelope_new kind (rh_agent_id binding) input idempotency_key policy in
  let expected := envelope_to_snapshot envelope in
  let? queued := queued_with_replay_delivery (id_str task_id) expected (id_str (event_id event)) index in
  Ok (MkExpected task_id expected queued).

Definition REPLAY_RECONCILE_LIMIT : nat := 4.

(** [health] is [check_health], [accepting] whether claims are enabled and no
    stop was requested. *)
Definition reconcile_replay_delivery (s : FileSystemTaskStateStore) (health : Res unit) (accepting : bool)
    (execution_owner : string) (binding : ReplayHandlerBinding) (event : Event)
    (delivery_index retry_backoff_ms observed_at_ms : N) : StoreProg OwnedReplayDeliveryStatus :=
  attempt health (fun _ =>
  if negb accepting then
    Done (Err (unavailable "task worker is not accepting replay handler work"
                 ⊕ ("execution_owner", execution_owner)))
  else
  attempt (replay_delivery_task_id event binding delivery_index) (fun task_id =>
  replay_delivery_idempotency_key binding event task_id (fun idempotency_key =>
  attempt (expected_delivery binding event delivery_index retry_backoff_ms task_id idempotency_key)
    (fun expected =>
  let reconciled := delivery_reconciled s binding event delivery_index observed_at_ms expected in
  cas_loop REPLAY_RECONCILE_LIMIT (fun again =>
    Perform (ARead (id_str task_id)) (fun r =>
      match r with
      | Ok snapshot => reconciled snapshot
      | Err error =>
          if bool_decide (err_kind error = NotFound) then
            answering (create (ed_queued expected)) (fun r =>
              match r with
              | Ok snapshot => reconciled snapshot
              | Err error => if bool_decide (err_kind error = Conflict) then again else Done (Err error)
              end)
          else Done (Err error)
      end))
    (conflict "replay delivery reconciliation exceeded the CAS retry limit"
       ⊕ ("task_id", id_str task_id)))))).
