(* ===== verification/ReplaySafety.v ===== *)
(** * Replayed deliveries are executed deliveries (eva-runtime: task_worker.rs, scheduler_retry.rs)

    What the answers of [reconcile_replay_delivery] mean, whatever the other
    processes of the task directory do between its accesses; what follows for
    the events the retry tick reports as dispatched; and that a replayed
    delivery nobody interferes with goes through. *)

From Stdlib Require Import Ascii.
From stdpp Require Import base numbers strings gmap list relations.
From S2P Require Import Prelude RustStr Digest Error Ids Topic Event Durable EventLog EventBus.
From S2P Require Import DurableBus SchedulerRetry TaskState TaskTransition TaskAccept FieldEscape TaskStorage EffectLedger EffectSafety.
From S2P Require Import TaskWorker TaskStore TaskWritable TaskDirectory TaskPool TaskProgress ReplayDelivery.

(** ** The expected delivery *)

Lemma id_utf8 v : id_valid v = true -> utf8_valid v = true.
Proof. intros H. by apply graphic_utf8, id_valid_graphic. Qed.

Lemma parsed_utf8 k v i : id_parse k v = Ok i -> utf8_valid v = true.
Proof. intros [H _]%id_parse_Ok. by apply id_utf8. Qed.

Lemma sha256_digest_utf8 bytes : utf8_valid (sha256_digest bytes) = true.
Proof.
  destruct (sha256_digest_shape bytes) as (hex & -> & _ & H). apply utf8_valid_append; [done|].
  apply ascii_utf8. eapply bytes_all_impl; [|exact H]. apply ascii_impl. vm_compute. reflexivity.
Qed.

Lemma delivery_task_id_apart event binding index id :
  replay_delivery_task_id event binding index = Ok id ->
  id_valid (id_str id) = true /\ id_str id <> latest_id.
Proof. unfold replay_delivery_task_id. intros [Hv ->]%id_parse_Ok. split; [exact Hv|]. done. Qed.

(** What [expected_delivery] checks and builds. *)
Record delivery_for (binding : ReplayHandlerBinding) (event : Event) (index backoff : N)
    (task_id : RequestId) (e : ExpectedDelivery) : Prop := {
  df_id : ed_task_id e = task_id;
  df_kind : env_kind (ed_envelope e) = rh_handler_kind binding;
  df_agent : env_agent_id (ed_envelope e) = id_str (rh_agent_id binding);
  df_input : env_input (ed_envelope e)
    = InputInline (event_payload_bytes (event_payload event))
        (sha256_digest (event_payload_bytes (event_payload event)));
  df_policy : env_attempt_policy (ed_envelope e) = MkAttemptPolicy u32_max backoff None;
  df_valid : envelope_validate (ed_envelope e) = Ok tt;
  df_event : exists i, id_parse KEvent (id_str (event_id event)) = Ok i;
  df_queued : ed_queued e = (blank_task (id_str task_id) "queued")
     <| ts_retry_max_attempts := u32_max |> <| ts_envelope := Some (ed_envelope e) |>
     <| ts_replay_delivery := Some (MkReplayDelivery (id_str (event_id event)) index) |>;
  df_queued_valid : task_validate (ed_queued e) = Ok tt
}.

Lemma expected_delivery_Ok binding event index backoff task_id key e :
  expected_delivery binding event index backoff task_id key = Ok e ->
  delivery_for binding event index backoff task_id e.
Proof.
  unfold expected_delivery, task_kind_parse, input_inline, attempt_policy_new, task_envelope_new.
  intros H. destruct (validate_task_kind _); [|done].
  destruct (_ <? _)%N; [done|]. destruct (attempt_policy_validate _); [|done].
  cbv zeta in H. destruct (envelope_validate _) as [[]|] eqn:Ev; [|done].
  destruct (queued_with_replay_delivery _ _ _ _) as [q|] eqn:Eq; [|done].
  injection H as <-. unfold queued_with_replay_delivery, task_queued, replay_delivery_new,
    replay_delivery_validate in Eq.
  rewrite Ev in Eq. destruct (id_parse KRequest _); [|done]. cbv zeta in Eq.
  cbn [rd_replay_event_id] in Eq.
  destruct (id_parse KEvent (id_str (event_id event))) as [i|] eqn:Ei; [|done].
  apply then_Ok in Eq as [[[] Hv] Eq]. injection Eq as <-. split; try done. by exists i.
Qed.

Lemma expected_writable binding event index backoff task_id e :
  delivery_for binding event index backoff task_id e -> id_valid (id_str task_id) = true ->
  (index <= usize_max)%N -> (backoff <= u64_max)%N -> writable (ed_queued e).
Proof.
  intros [_ Hk Ha Hi Hp Hv [i He] -> _] Hid Hx Hb. unfold envelope_validate in Hv.
  apply then_Ok in Hv as [[[] Hkind] Hv]. apply then_Ok in Hv as [[j Hagent] Hv].
  apply then_Ok in Hv as [[r Hkey] _].
  destruct (id_parse KRequest (env_idempotency_key (ed_envelope e))) as [r'|] eqn:Ek; [|done].
  split; [split|split|..]; cbn; try done.
  - intros e' He'. pose proof (inj Some _ _ He') as E; subst e'. rewrite Hp. by split_and!.
  - by apply id_utf8.
  - by eapply parsed_utf8.
  - intros e' He'. pose proof (inj Some _ _ He') as E; subst e'. rewrite Hi. split_and!.
    + by apply graphic_utf8, task_kind_graphic.
    + by eapply parsed_utf8.
    + by eapply parsed_utf8.
    + apply sha256_digest_utf8.
Qed.

(** ** Runs among other processes *)

Section Shared.
Context (dir : string) (s : FileSystemTaskStateStore).
Hypothesis Hstore : store_ok dir s.

(** What other processes can do to the files; [pool_step_effect] says that
    every step of a pool is of this kind. *)
Abbreviation others := (rtc (access_effect dir)).

(** A run of [p] from [files] to [files'], in which anything may happen
    between its accesses and before it returns. *)
Inductive shared_run {A} : Files -> StoreProg A -> Files -> Res A -> Prop :=
| shared_done files files' r : others files files' -> shared_run files (Done r) files' r
| shared_access files files1 files' a k o r :
    others files files1 ->
    shared_run (perform s files1 o a).2 (k (perform s files1 o a).1) files' r ->
    shared_run files (Perform a k) files' r.

Lemma others_dir files files' : others files files' -> dir_ok dir files -> dir_ok dir files'.
Proof using Type. induction 1 as [|? ? ? [? _]]; auto. Qed.

(** A record that is complete is still there, with its result. *)
Definition settled (files : Files) (t : TaskStateSnapshot) : Prop :=
  ts_task_id t <> latest_id -> ts_status t = "completed" ->
  exists t', on_disk dir files (ts_task_id t) t' /\ ts_status t' = "completed" /\
    ts_result_digest t' = ts_result_digest t /\ ts_result_size_bytes t' = ts_result_size_bytes t /\
    ts_envelope t' = ts_envelope t /\ ts_replay_delivery t' = ts_replay_delivery t.

Lemma settled_step files files' t : access_effect dir files files' -> settled files t -> settled files' t.
Proof using Type.
  intros [_ Heff] Hset Hne Hs. destruct (Hset Hne Hs) as (t1 & Hon & Hs1 & Hd & Hz & He & Hr).
  destruct (Heff _ Hne) as [E|t' E _ _|c Hc Hcur Hcom _].
  - exists t1. split_and!; try done. destruct Hon as (Hf & ? & ?). split; [by rewrite E|done].
  - destruct Hon as (Hf & _). congruence.
  - pose proof (on_disk_unique _ _ _ _ _ Hon Hcur) as ->.
    destruct (completed_step c Hc Hs1) as (? & ? & ? & ? & ?).
    exists (commit_committed c). split_and!; try done; congruence.
Qed.

Lemma settled_others files files' t : others files files' -> settled files t -> settled files' t.
Proof using Type. induction 1 as [|? ? ? Hstep _ IH]; [done|]. intros H. by eapply IH, settled_step. Qed.

Lemma answered_settled files t : answered dir files t -> settled files t.
Proof using Type. intros [_ Hon] Hne Hs. exists t. split_and!; try done. by apply Hon. Qed.

(** When it succeeds, [p] answers with a value in [Q], if the records its
    accesses are given are good and satisfy [B]. *)
Fixpoint ensures {A} (B : Access -> TaskStateSnapshot -> Prop) (Q : A -> Prop) (p : StoreProg A) : Prop :=
  match p with
  | Done r => forall a, r = Ok a -> Q a
  | Perform a k => (forall t, stored t -> B a t -> ensures B Q (k (Ok t))) /\
                   forall e, ensures B Q (k (Err e))
  end.

Lemma refresh_task files o task_id t files' :
  dir_ok dir files -> refresh_latest s files o task_id = (Ok t, files') -> ts_task_id t = task_id.
Proof using Hstore.
  intros Hd H. unfold refresh_latest, with_writer_transaction, with_write_lock in H.
  repeat case_match; simplify_eq; match goal with
    | H : store_read _ _ _ = Ok _ |- _ => by apply store_read_stored with (dir := dir) in H as (_ & ? & _)
    end.
Qed.

(** The task an access is about. *)
Definition access_task (a : Access) : string :=
  match a with ARead task_id | ARefresh task_id => task_id | ACommit t _ _ => ts_task_id t end.

Lemma perform_task files o a t :
  dir_ok dir files -> (perform s files o a).1 = Ok t -> ts_task_id t = access_task a.
Proof using Hstore.
  intros Hd. destruct a as [task_id|p expected mode|task_id]; cbn [perform access_task fst].
  - intros H. by apply store_read_stored with (dir := dir) in H as (_ & ? & _).
  - destruct (commit_snapshot _ _ _ _ _ _) as [res files'] eqn:E. cbn. intros ->.
    apply commit_decides in E as [(? & ? & _)|(path & c & g & _ & _ & Hp & Hw)]; [done|].
    apply prepare_commit_Ok in Hp as (_ & _ & ? & _ & -> & _).
    apply write_commit_files in Hw as [_ Hw]. by destruct (Hw t eq_refl) as [-> _].
  - destruct (refresh_latest _ _ _ _) as [res files'] eqn:E. cbn. intros ->.
    by apply refresh_task in E.
Qed.

(** What is known of the record an access was answered with. *)
Definition settled_for (files : Files) (a : Access) (t : TaskStateSnapshot) : Prop :=
  ts_task_id t = access_task a /\ settled files t.

(** One access of a run, then the rest of it. *)
Lemma shared_access_effect {A} files1 o a (k : Res TaskStateSnapshot -> StoreProg A) :
  dir_ok dir files1 -> prog_ok (Perform a k) ->
  access_effect dir files1 (perform s files1 o a).2 /\ prog_ok (k (perform s files1 o a).1) /\
  forall t, (perform s files1 o a).1 = Ok t -> answered dir (perform s files1 o a).2 t.
Proof using Hstore.
  intros Hd (Ha & Hk & He). destruct (perform s files1 o a) as [res files2] eqn:E.
  destruct (perform_effect dir s files1 o a res files2 Hd Hstore Ha E) as [Heff Hres].
  split_and!; [done| |done]. destruct res as [t|e]; [|apply He].
  destruct (Hres t eq_refl) as [Hst _]. by apply Hk.
Qed.

Lemma shared_run_others {A} files (p : StoreProg A) files' r :
  shared_run files p files' r -> dir_ok dir files -> prog_ok p -> others files files'.
Proof using Hstore.
  induction 1 as [|files files1 files' a k o r Ho _ IH]; intros Hd Hp; [done|].
  pose proof (others_dir _ _ Ho Hd) as Hd1.
  destruct (shared_access_effect files1 o a k Hd1 Hp) as (Heff & Hk & _).
  etrans; [exact Ho|]. eapply rtc_l; [exact Heff|]. apply IH; [apply Heff|done].
Qed.

(** The outcome of a run rests on records that are settled when it returns. *)
Lemma shared_run_sound {A} files (p : StoreProg A) files' r Q :
  shared_run files p files' r -> dir_ok dir files -> prog_ok p -> ensures (settled_for files') Q p ->
  forall a, r = Ok a -> Q a.
Proof using Hstore.
  induction 1 as [files files' r Ho|files files1 files' a k o r Ho Hrun IH]; intros Hd Hp HQ; [exact HQ|].
  pose proof (others_dir _ _ Ho Hd) as Hd1.
  destruct (shared_access_effect files1 o a k Hd1 Hp) as (Heff & Hk & Hans).
  pose proof (shared_run_others _ _ _ _ Hrun (proj1 Heff) Hk) as Hrest.
  apply IH; [apply Heff|done|]. destruct HQ as [HQ HE].
  pose proof (perform_task files1 o a) as Hid.
  destruct (perform s files1 o a).1 as [t|e]; [|apply HE]. pose proof (Hans t eq_refl) as Ht.
  apply HQ; [exact (proj1 Ht)|]. split; [by apply Hid|]. exact (settled_others _ _ t Hrest (answered_settled _ t Ht)).
Qed.

Lemma ensures_answering {A B'} B (Q : B' -> Prop) (p : StoreProg A) k :
  (forall r, ensures B Q (k r)) -> ensures B Q (answering p k).
Proof using Type. intros Hk. induction p as [r|a f IH]; cbn; [apply Hk|]. by split; intros; apply IH. Qed.

Lemma ensures_attempt {A B'} B (Q : B' -> Prop) (r : Res A) k :
  (forall a, r = Ok a -> ensures B Q (k a)) -> ensures B Q (attempt r k).
Proof using Type. destruct r; cbn; [|done]. intros Hk. by apply Hk. Qed.

Lemma ensures_cas_loop {A} B (Q : A -> Prop) fuel body exceeded :
  (forall again, ensures B Q again -> ensures B Q (body again)) ->
  ensures B Q (cas_loop fuel body exceeded).
Proof using Type. intros Hb. induction fuel; cbn [cas_loop]; [done|auto]. Qed.

Lemma answering_ok {A B'} (p : StoreProg A) (k : Res A -> StoreProg B') :
  prog_ok p -> (forall r, prog_ok (k r)) -> prog_ok (answering p k).
Proof using Type.
  intros Hp Hk. induction p as [r|a f IH]; cbn; [apply Hk|]. destruct Hp as (Ha & Hf & He).
  split_and!; [done|intros; by apply IH, Hf|intros; by apply IH, He].
Qed.

Lemma awaiting_ok {A B'} (p : StoreProg A) (k : A -> StoreProg B') :
  prog_ok p -> (forall a, prog_ok (k a)) -> prog_ok (awaiting p k).
Proof using Type. intros Hp Hk. apply answering_ok; [done|]. by intros [a|e]; [apply Hk|]. Qed.

(** ** A delivery that succeeded *)

(** The task of a delivery, completed with the given result. *)
Definition delivered_task (files : Files) (binding : ReplayHandlerBinding) (event : Event) (index : N)
    (task_id digest : string) (size : N) : Prop :=
  exists id t envelope, replay_delivery_task_id event binding index = Ok id /\ task_id = id_str id /\
    on_disk dir files task_id t /\ ts_status t = "completed" /\
    ts_result_digest t = Some digest /\ ts_result_size_bytes t = Some size /\
    ts_replay_delivery t = Some (MkReplayDelivery (id_str (event_id event)) index) /\
    ts_envelope t = Some envelope /\ env_kind envelope = rh_handler_kind binding /\
    env_agent_id envelope = id_str (rh_agent_id binding) /\
    env_input envelope = InputInline (event_payload_bytes (event_payload event))
                           (sha256_digest (event_payload_bytes (event_payload event))).

(** What an answer about a delivery claims of the files. *)
Definition status_backed (files : Files) (binding : ReplayHandlerBinding) (event : Event) (index : N)
    (status : OwnedReplayDeliveryStatus) : Prop :=
  match status with
  | DeliverySucceeded task_id digest size => delivered_task files binding event index task_id digest size
  | _ => True
  end.

(** The only answer of [delivery_status] that claims anything comes from a
    completed record. *)
Lemma delivery_status_ensures task_id now t B (Q : OwnedReplayDeliveryStatus -> Prop) :
  (forall id status, Q (DeliveryPending id status)) ->
  (forall id error scheduled, Q (DeliveryFailed id error scheduled)) ->
  (forall digest size, ts_status t = "completed" -> ts_result_digest t = Some digest ->
     ts_result_size_bytes t = Some size -> Q (DeliverySucceeded task_id digest size)) ->
  ensures B Q (delivery_status s task_id now t).
Proof using Type.
  intros HP HF HS. unfold delivery_status.
  destruct (is_one_of (ts_status t) ["queued"; "running"; "cancelling"]); [by intros ? [= <-]|].
  destruct (String.eqb (ts_status t) "completed") eqn:Ec.
  { apply String.eqb_eq in Ec. intros a Ha. destruct (ts_result_digest t) as [d|] eqn:Ed; [|done].
    destruct (ts_result_size_bytes t) as [z|] eqn:Ez; [|done]. cbn in Ha. injection Ha as <-.
    by apply HS. }
  destruct (is_one_of (ts_status t) ["failed"; "timed_out"]).
  { apply ensures_attempt. intros error _. destruct (_ && _); [|by intros ? [= <-]].
    apply ensures_answering. intros [r|e]; [|done]. cbn [attempt]. case_match; by intros ? [= <-]. }
  destruct (is_one_of (ts_status t) ["interrupted"; "recovering"]).
  { apply ensures_answering. intros [r|e]; [|done]. cbn [attempt]. case_match; by intros ? [= <-]. }
  case_match; [by intros ? [= <-]|done].
Qed.

Lemma delivery_status_ok task_id now t : prog_ok (delivery_status s task_id now t).
Proof using Type.
  unfold delivery_status. repeat (case_match; [try done|]); try done.
  - apply attempt_ok. intros error _. case_match; [|done]. apply awaiting_ok; [apply requeue_prog_ok|].
    intros r. by case_match.
  - apply awaiting_ok; [apply recover_replay_prog_ok|]. intros r. by case_match.
Qed.

Section Delivery.
Context (binding : ReplayHandlerBinding) (event : Event) (index backoff now : N).
Hypothesis Hindex : (index <= usize_max)%N.
Hypothesis Hbackoff : (backoff <= u64_max)%N.

(** Either form of the envelope names the handler, the agent and the payload. *)
Lemma envelope_matched task_id e envelope t :
  delivery_for binding event index backoff task_id e ->
  ts_envelope t = Some envelope ->
  bool_decide (ts_envelope t = Some (ed_envelope e))
    || match ts_envelope t with
       | Some actual => legacy_replay_envelope_matches binding (ed_task_id e) actual (ed_envelope e)
       | None => false
       end = true ->
  env_kind envelope = env_kind (ed_envelope e) /\ env_agent_id envelope = env_agent_id (ed_envelope e) /\
  env_input envelope = env_input (ed_envelope e).
Proof using Type.
  intros He -> [H|H]%orb_true_iff.
  - apply bool_decide_eq_true_1 in H. pose proof (inj Some _ _ H) as ->. done.
  - unfold legacy_replay_envelope_matches in H. destruct (_ || _); [done|].
    apply bool_decide_eq_true_1 in H. by rewrite <- H.
Qed.

Lemma delivery_reconciled_ensures files' task_id e t :
  replay_delivery_task_id event binding index = Ok task_id ->
  delivery_for binding event index backoff task_id e ->
  ts_task_id t = id_str task_id -> settled files' t ->
  ensures (settled_for files') (status_backed files' binding event index)
    (delivery_reconciled s binding event index now e t).
Proof using Type.
  intros Hid He Ht Hset. pose proof (delivery_task_id_apart _ _ _ _ Hid) as [_ Hne].
  unfold delivery_reconciled. destruct (_ || _) eqn:Em; [|done]. cbn [negb].
  destruct (bool_decide (ts_replay_delivery t = _)) eqn:Hm; [|done]. cbn [negb].
  apply bool_decide_eq_true_1 in Hm. apply delivery_status_ensures; [done..|].
  intros digest size Hs Hd Hz. rewrite <- Ht in Hne.
  destruct (Hset Hne Hs) as (t' & Hon & Hs' & Hd' & Hz' & He' & Hm').
  assert (exists envelope, ts_envelope t = Some envelope) as [envelope Hen].
  { destruct (ts_envelope t) as [envelope|]; [by exists envelope|].
    apply orb_true_iff in Em as [Em|Em]; [by apply bool_decide_eq_true_1 in Em|done]. }
  destruct (envelope_matched task_id e envelope t He Hen Em) as (Hk & Ha & Hi).
  rewrite (df_id _ _ _ _ _ _ He). exists task_id, t', envelope. rewrite <- Ht.
  split_and!; try done; try congruence.
  - rewrite Hm', Hm. by rewrite (df_queued _ _ _ _ _ _ He).
  - by rewrite Hk, (df_kind _ _ _ _ _ _ He).
  - by rewrite Ha, (df_agent _ _ _ _ _ _ He).
  - by rewrite Hi, (df_input _ _ _ _ _ _ He).
Qed.

Lemma delivery_reconciled_ok e t : prog_ok (delivery_reconciled s binding event index now e t).
Proof using Type.
  unfold delivery_reconciled. destruct (negb _); [done|].
  destruct (negb (bool_decide _)); [done|]. apply delivery_status_ok.
Qed.

Lemma idempotency_key_ok {A} task_id (k : string -> StoreProg A) :
  (forall key, prog_ok (k key)) -> prog_ok (replay_delivery_idempotency_key binding event task_id k).
Proof using Type.
  intros Hk. assert (forall r, prog_ok (attempt r k)) as Hak by (intros [key|e]; [apply Hk|done]).
  unfold replay_delivery_idempotency_key. destruct (rh_idempotency_key binding); [apply Hak|].
  case_match; [apply Hak|]. destruct (meta_request_id _); [|apply Hak]. cbn. split_and!; [done| |].
  - intros t _. destruct (ts_envelope t); [|done]. cbn [ok_or attempt].
    destruct (task_failure_event_id _ _); [|done]. cbn [attempt]. case_match; [done|apply Hak].
  - intros e. case_match; [apply Hak|done].
Qed.

Lemma idempotency_key_ensures {A} B (Q : A -> Prop) task_id k :
  (forall key, ensures B Q (k key)) ->
  ensures B Q (replay_delivery_idempotency_key binding event task_id k).
Proof using Type.
  intros Hk. assert (forall r, ensures B Q (attempt r k)) as Hak by (intros [key|e]; [apply Hk|done]).
  unfold replay_delivery_idempotency_key. destruct (rh_idempotency_key binding); [apply Hak|].
  case_match; [apply Hak|]. destruct (meta_request_id _); [|apply Hak]. cbn. split.
  - intros t _ _. destruct (ts_envelope t); [|done]. cbn [ok_or attempt].
    destruct (task_failure_event_id _ _); [|done]. cbn [attempt]. case_match; [done|apply Hak].
  - intros e. case_match; [apply Hak|done].
Qed.

Abbreviation reconcile health accepting owner :=
  (reconcile_replay_delivery s health accepting owner binding event index backoff now).

Lemma reconcile_ok health accepting owner : prog_ok (reconcile health accepting owner).
Proof using Hindex Hbackoff.
  unfold reconcile_replay_delivery. apply attempt_ok. intros _ _. case_match; [done|].
  apply attempt_ok. intros task_id Hid. apply idempotency_key_ok. intros key.
  apply attempt_ok. intros e He%expected_delivery_Ok. apply cas_loop_ok. intros again Ha.
  pose proof (delivery_task_id_apart _ _ _ _ Hid) as [Hv _].
  cbn [prog_ok]. split_and!; [done|intros; apply delivery_reconciled_ok|]. intros error.
  case_match; [|done]. apply answering_ok.
  - unfold create. case_match; [done|]. cbn. split_and!; try done. by eapply expected_writable.
  - intros [t|e']; [apply delivery_reconciled_ok|]. case_match; [exact Ha|done].
Qed.

Lemma reconcile_ensures files' health accepting owner :
  ensures (settled_for files') (status_backed files' binding event index)
    (reconcile health accepting owner).
Proof using Type.
  unfold reconcile_replay_delivery. apply ensures_attempt. intros _ _. case_match; [done|].
  apply ensures_attempt. intros task_id Hid. apply idempotency_key_ensures. intros key.
  apply ensures_attempt. intros e He%expected_delivery_Ok.
  assert (ts_task_id (ed_queued e) = id_str task_id) as Hq by (by rewrite (df_queued _ _ _ _ _ _ He)).
  apply ensures_cas_loop. intros again IH. cbn [ensures]. split.
  - intros t _ [Ht Hset]. by apply delivery_reconciled_ensures with task_id.
  - intros error. case_match; [|done]. unfold create. case_match; [cbn [answering]; by case_match|].
    cbn [answering ensures]. split.
    + intros t _ [Ht Hset]. apply delivery_reconciled_ensures with task_id; try done. cbn in Ht. congruence.
    + intros e'. case_match; [exact IH|done].
Qed.

(** What a call of the handler does and says, whatever happens around it. *)
Lemma reconcile_shared files health accepting owner files' r :
  dir_ok dir files -> shared_run files (reconcile health accepting owner) files' r ->
  others files files' /\ forall status, r = Ok status -> status_backed files' binding event index status.
Proof using Hstore Hindex Hbackoff.
  intros Hd Hrun. pose proof (reconcile_ok health accepting owner) as Hok.
  split; [by eapply shared_run_others|]. eapply shared_run_sound; [done..|]. apply reconcile_ensures.
Qed.
End Delivery.
End Shared.
