(* ===== verification/ReplayTick.v ===== *)
(** * Replayed deliveries and the retry tick (eva-runtime: task_worker.rs, scheduler_retry.rs)

    The delivery handler of the daemon under the retry tick: an event the tick
    reports as dispatched has been executed, binding by binding; and a
    replayed delivery that nobody interferes with goes through. *)

From Stdlib Require Import Ascii.
From stdpp Require Import base numbers strings gmap list relations.
From S2P Require Import Prelude RustStr Digest Error Ids Topic Event EventCodec Durable EventLog EventBus.
From S2P Require Import Scheduler DeadLetterStore DurableBus SchedulerRetry TaskState TaskTransition TaskAccept FieldEscape TaskStorage EffectLedger EffectSafety.
From S2P Require Import TaskWorker TaskStore TaskWritable TaskDirectory TaskPool TaskProgress ReplayDelivery ReplaySafety.

(** ** The handler's state across a tick *)

Section Kept.
Context {H : Type}.
Variable handler : ReplayHandlerBinding -> Event -> N -> N -> N -> H ->
  Res OwnedReplayDeliveryStatus * H.
Variable project : ProjectConfig.
Variable options : SchedulerRetryTickOptions.
Variable P : H -> Prop.
Hypothesis Hkeep : forall b event index delay now h,
  (index < opt_mailbox_capacity options)%N -> (delay <= u64_max)%N -> P h ->
  P (handler b event index delay now h).2.

Lemma reconcile_bindings_keeps event delay bs : forall index pending failure lines h,
  (delay <= u64_max)%N -> (index + len bs <= opt_mailbox_capacity options)%N -> P h ->
  P (reconcile_bindings handler options event delay index bs pending failure lines h).2.
Proof using Hkeep.
  unfold len. induction bs as [|b bs IH]; intros index pending failure lines h Hd Hi HP; [done|].
  cbn [reconcile_bindings]. cbn [length] in Hi.
  pose proof (Hkeep b event index delay (opt_redrive_ready_at_ms options) h ltac:(lia) Hd HP) as Hh.
  destruct (handler b event index delay _ h) as [[status|e] h']; [|done].
  destruct status; apply IH; (done || lia).
Qed.

Lemma reconcile_plan_keeps d event h :
  (rp_retry_delay_ms (dl_redrive d) <= u64_max)%N -> P h ->
  P (reconcile_replay_plan handler project options d event h).2.
Proof using Hkeep.
  intros Hd HP. unfold reconcile_replay_plan. destruct (route _ event) as [ps|]; [|done].
  destruct (validate_replay_bindings _ _ _ _) as [[]|] eqn:Ev; [|done].
  apply validate_replay_bindings_Ok in Ev as (_ & Hb & _).
  pose proof (reconcile_bindings_keeps event _ (dl_replay_handlers d) 0 false None [] h Hd ltac:(lia) HP) as Hr.
  by destruct (reconcile_bindings _ _ _ _ _ _ _ _ _ _) as [[[[[] []]|] lines] h'].
Qed.

Abbreviation State := (TickState (H := H)).

Lemma finish_succeeded_keeps a (st : State) d receipt deliveries :
  tk_handler (finish_succeeded a st d receipt deliveries).2 = tk_handler st.
Proof using Type. unfold finish_succeeded. by repeat case_match. Qed.

Lemma finish_failed_keeps a (st : State) d receipt error :
  tk_handler (finish_failed options a st d receipt error).2 = tk_handler st.
Proof using Type. unfold finish_failed. repeat case_match; by simplify_eq. Qed.

Lemma reconcile_receipt_keeps a (st : State) d receipt :
  (rp_retry_delay_ms (dl_redrive d) <= u64_max)%N -> P (tk_handler st) ->
  P (tk_handler (reconcile_receipt handler project options a st d receipt).2).
Proof using Hkeep.
  intros Hd HP. unfold reconcile_receipt. destruct (retry_replay_event _ _) as [event|]; [|done].
  pose proof (reconcile_plan_keeps d event (tk_handler st) Hd HP) as Hr.
  destruct (reconcile_replay_plan _ _ _ _ _ _) as [[execution lines] h].
  destruct execution as [[|ps|error]|error]; [done|..].
  - by rewrite finish_succeeded_keeps.
  - by rewrite finish_failed_keeps.
  - by rewrite finish_failed_keeps.
Qed.

Lemma retry_one_keeps a (st : State) d :
  (rp_retry_delay_ms (dl_redrive d) <= u64_max)%N -> P (tk_handler st) ->
  P (tk_handler (retry_one handler project options a st d).2).
Proof using Hkeep.
  intros Hd HP. unfold retry_one. destruct (_ <? _)%N; [done|].
  destruct (event_log_status _ _) as [[]|]; try done.
  all: destruct (latest_replay_record _ _); [case_bool_decide; [done|by apply reconcile_receipt_keeps]|].
  all: destruct (redrive_dead_letter_at _ _ _ _ _ _ _) as [[[[receipt|] bus] ldir] ddir]; [|done].
  all: by apply reconcile_receipt_keeps.
Qed.

Lemma retry_each_keeps env ds : forall index (st : State),
  Forall (fun d => rp_retry_delay_ms (dl_redrive d) <= u64_max)%N ds -> P (tk_handler st) ->
  P (tk_handler (retry_each handler project options env index st ds).2).
Proof using Hkeep.
  induction ds as [|d ds IH]; intros index st HF HP; [done|]. inversion HF as [|? ? Hd HF']; subst.
  cbn [retry_each]. pose proof (retry_one_keeps (env index) st d Hd HP) as H1.
  destruct (retry_one _ _ _ _ _ _) as [[u|] st1]; [|done]. by apply IH.
Qed.
End Kept.

(** ** Dispatched events are executed events *)

(** A delivery handler that runs [reconcile_replay_delivery] over the shared
    files, with anything happening around its accesses. *)
Class DeliveryHandler (dir : string) (s : FileSystemTaskStateStore)
    (handler : ReplayHandlerBinding -> Event -> N -> N -> N -> Files -> Res OwnedReplayDeliveryStatus * Files) :=
  delivery_run : forall b event index backoff now files, exists health accepting owner,
    shared_run dir s files
      (reconcile_replay_delivery s health accepting owner b event index backoff now)
      (handler b event index backoff now files).2 (handler b event index backoff now files).1.

Section Executed.
Context (dir : string) (s : FileSystemTaskStateStore) handler `{!DeliveryHandler dir s handler}.
Context (options : SchedulerRetryTickOptions).
Hypothesis Hstore : store_ok dir s.
Hypothesis Hcapacity : (opt_mailbox_capacity options <= usize_max)%N.

Lemma delivered_task_stays files files' b event index task_id digest size :
  rtc (access_effect dir) files files' ->
  delivered_task dir files b event index task_id digest size ->
  delivered_task dir files' b event index task_id digest size.
Proof using Type.
  intros Ho (id & t & envelope & Hid & -> & Hon & Hs & Hd & Hz & Hm & He & Hk & Ha & Hi).
  pose proof (delivery_task_id_apart _ _ _ _ Hid) as [_ Hne].
  assert (settled dir files t) as Hset by (apply answered_settled; split; [apply Hon|by rewrite (proj2 (proj2 Hon))]).
  destruct Hon as (Hf & Hst & Ht).
  pose proof (settled_others dir _ _ _ Ho Hset) as Hset'. rewrite <- Ht in Hne.
  destruct (Hset' Hne Hs) as (t' & Hon' & Hs' & Hd' & Hz' & He' & Hm'). rewrite Ht in Hon'.
  exists id, t', envelope. split_and!; try done; congruence.
Qed.

(** Every answer given so far still holds. *)
Definition calls_backed (st : Files * list DeliveryCall) : Prop :=
  dir_ok dir st.1 /\
  forall c status, c ∈ st.2 -> call_result c = Ok status ->
    status_backed dir st.1 (call_binding c) (call_event c) (call_index c) status.

Lemma recorded_keeps b event index delay now st :
  (index < opt_mailbox_capacity options)%N -> (delay <= u64_max)%N -> calls_backed st ->
  calls_backed (recorded handler b event index delay now st).2.
Proof using All.
  intros Hi Hdelay [Hd Hc]. destruct (delivery_run b event index delay now st.1) as (health & accepting & owner & Hrun).
  unfold recorded. destruct (handler b event index delay now st.1) as [res files']. cbn [fst snd] in *.
  destruct (reconcile_shared dir s Hstore b event index delay now ltac:(lia) Hdelay st.1 health accepting
              owner files' res Hd Hrun) as [Ho Hres].
  split; [by eapply others_dir|]. cbn [fst snd]. intros c status Hin Hok.
  apply elem_of_app in Hin as [Hin| ->%list_elem_of_singleton]; [|by apply Hres].
  specialize (Hc c status Hin Hok). destruct status; try done. by eapply delivered_task_stays.
Qed.
End Executed.

(** C26: an event the retry tick reports as dispatched has really been
    executed.  The event is the replay of a dead letter the store holds: when
    the tick reached that letter, after the iterations of the letters before
    it, it is what the log recorded under the latest replay id, or under the
    id of the replay the iteration appended when the log had none.  Whatever
    other processes do to the task directory before, during and after the
    daemon's accesses, for every handler binding of the dead letter the files
    hold, when the tick returns, a completed task under the delivery's own id,
    marked with the replay event and the delivery index, for the binding's
    handler kind and agent, with the payload of that event as input. *)
Theorem dispatched_events_executed dir s handler `{!DeliveryHandler dir s handler}
    project options env bus ldir ddir files report st' :
  store_ok dir s -> dir_ok dir files -> (opt_mailbox_capacity options <= usize_max)%N ->
  Forall (fun d => rp_retry_delay_ms (dl_redrive d) <= u64_max)%N (ds_records (db_dead bus)) ->
  run_scheduler_retry_tick_with_handler (recorded handler) project options env bus ldir ddir (files, [])
    = (Ok report, st') ->
  forall e, e ∈ rep_dispatched_events report ->
    exists k d event,
      reaches handler project options env 0 (tick_start bus ldir ddir (files, [])) (ds_records (db_dead bus)) k d event /\
      dis_event_id e = id_str (dl_id d) /\
      id_str (event_id event) = dis_replay_event_id e /\ dl_replay_handlers d <> [] /\
      forall i b, dl_replay_handlers d !! i = Some b -> exists task_id digest size,
        delivered_task dir (tk_handler st').1 b event (N.of_nat i) task_id digest size.
Proof.
  intros Hstore Hd Hcap Hdelay. unfold run_scheduler_retry_tick_with_handler. destruct (_ =? 0)%N; [done|].
  match goal with |- context [retry_each _ _ _ env 0 ?s0 _] => change s0 with (tick_start bus ldir ddir (files, @nil DeliveryCall)) end.
  pose proof (retry_each_keeps (recorded handler) project options (calls_backed dir)
    (recorded_keeps dir s handler options Hstore Hcap) env _ 0 (tick_start bus ldir ddir (files, [])) Hdelay) as Hkept.
  destruct (retry_each _ _ _ _ _ _ _) as [[u|] st1] eqn:E; [|done]. intros [= <- <-] e He.
  destruct Hkept as [_ Hback]. { split; [exact Hd|]. intros c status Hin. by apply elem_of_nil in Hin. }
  apply retry_each_reports in E as (_ & _ & Hdis).
  destruct (Hdis e He) as [He'|(k & d & event & Hreach & [Hev _ _ _ Hrep _ _ Hne _ Hcalls])];
    [by apply elem_of_nil in He'|].
  exists k, d, event. split_and!; try done. intros i b Hb.
  destruct (Hcalls i b Hb) as (task_id & digest & size & Hc). exists task_id, digest, size.
  exact (Hback _ _ Hc eq_refl).
Qed.

(** ** A delivery alone *)

(** The idempotency key of a binding that is not a legacy one. *)
Definition delivery_key (binding : ReplayHandlerBinding) (task_id : RequestId) : string :=
  match rh_idempotency_key binding with Some key => id_str key | None => id_str task_id end.

Definition legacy_binding (binding : ReplayHandlerBinding) (event : Event) : bool :=
  is_none (rh_idempotency_key binding) && String.eqb (topic_path (event_topic event)) TASK_FAILURE_TOPIC.

Lemma delivery_key_found {A} binding event task_id key (k : string -> StoreProg A) index backoff e :
  legacy_binding binding event = false -> key = delivery_key binding task_id ->
  expected_delivery binding event index backoff task_id key = Ok e ->
  replay_delivery_idempotency_key binding event task_id k = k key.
Proof.
  intros Hl -> He. unfold replay_delivery_idempotency_key.
  assert (idempotency_key_parse (delivery_key binding task_id) = Ok (delivery_key binding task_id)) as Hk.
  { unfold expected_delivery in He. destruct (task_kind_parse _); [|done].
    destruct (input_inline _); [|done]. destruct (attempt_policy_new _ _ _); [|done].
    unfold task_envelope_new, envelope_validate in He. cbn [env_idempotency_key envelope_to_snapshot te_idempotency_key] in He.
    cbv zeta in He. destruct (validate_task_kind _); [|done]. destruct (id_parse KAgent _); [|done].
    unfold idempotency_key_parse. by destruct (map_err _ (id_parse KRequest _)). }
  unfold delivery_key, legacy_binding in *. destruct (rh_idempotency_key binding) as [key|].
  - by rewrite Hk.
  - cbn [is_none andb] in Hl. by rewrite Hl, Hk.
Qed.

(** A run on its own is a run among idle processes. *)
Lemma run_alone_shared {A} dir s files (p : StoreProg A) :
  shared_run dir s files p (run_alone s files p).2 (run_alone s files p).1.
Proof.
  revert files. induction p as [r|a k IH]; intros files; cbn [run_alone]; [by apply shared_done|].
  eapply (shared_access _ _ _ files _ a k all_well); [done|].
  destruct (perform s files all_well a) as [r files']. apply IH.
Qed.

(** A task keeps its envelope and its delivery. *)
Lemma identity_others dir files files' task_id t :
  rtc (access_effect dir) files files' -> task_id <> latest_id -> on_disk dir files task_id t ->
  exists t', on_disk dir files' task_id t' /\ ts_envelope t' = ts_envelope t /\
    ts_replay_delivery t' = ts_replay_delivery t.
Proof.
  intros Ho Hne. revert t. induction Ho as [files|files files1 files' [_ Heff] _ IH]; intros t Hon; [by exists t|].
  destruct (Heff _ Hne) as [E|t' E _ _|c Hc Hcur Hcom _].
  - apply IH. destruct Hon as (Hf & ? & ?). split; [by rewrite E|done].
  - destruct Hon as (Hf & _). congruence.
  - pose proof (on_disk_unique _ _ _ _ _ Hon Hcur) as ->.
    destruct (IH _ Hcom) as (t' & Hon' & He & Hr). exists t'. split; [done|].
    destruct Hc as (p & v & g & _ & _ & He' & Hr' & _ & Hc). rewrite He, Hr, Hc. done.
Qed.

Section Alone.
Context (dir : string) (s : FileSystemTaskStateStore) (g : WriterGeneration).
Hypothesis Hstore : store_ok dir s.
Hypothesis Hapart : writer_apart s.
Context (binding : ReplayHandlerBinding) (event : Event) (index backoff : N) (execution_owner : string).
Context (task_id : RequestId) (e : ExpectedDelivery).
Hypothesis Hindex : (index <= usize_max)%N.
Hypothesis Hbackoff : (backoff <= u64_max)%N.
Hypothesis Hid : replay_delivery_task_id event binding index = Ok task_id.
Hypothesis Hlegacy : legacy_binding binding event = false.
Hypothesis Hexpected :
  expected_delivery binding event index backoff task_id (delivery_key binding task_id) = Ok e.

Definition delivery_call (now : N) : StoreProg OwnedReplayDeliveryStatus :=
  reconcile_replay_delivery s (Ok tt) true execution_owner binding event index backoff now.

Definition delivery_turn (now : N) (again : StoreProg OwnedReplayDeliveryStatus) :
    StoreProg OwnedReplayDeliveryStatus :=
  Perform (ARead (id_str task_id)) (fun r =>
    match r with
    | Ok snapshot => delivery_reconciled s binding event index now e snapshot
    | Err error =>
        if bool_decide (err_kind error = NotFound) then
          answering (create (ed_queued e)) (fun r =>
            match r with
            | Ok snapshot => delivery_reconciled s binding event index now e snapshot
            | Err error => if bool_decide (err_kind error = Conflict) then again else Done (Err error)
            end)
        else Done (Err error)
    end).

(** The call begins with a turn of its loop. *)
Lemma delivery_call_turn now : exists again, delivery_call now = delivery_turn now again.
Proof using Hid Hlegacy Hexpected.
  unfold delivery_call, reconcile_replay_delivery. cbn [attempt negb]. rewrite Hid. cbn [attempt].
  rewrite (delivery_key_found binding event task_id _ _ index backoff e Hlegacy eq_refl Hexpected).
  rewrite Hexpected. cbn [attempt cas_loop REPLAY_RECONCILE_LIMIT]. by eexists.
Qed.

Lemma reconciled_as now t :
  ts_envelope t = Some (ed_envelope e) -> ts_replay_delivery t = ts_replay_delivery (ed_queued e) ->
  delivery_reconciled s binding event index now e t = delivery_status s (id_str task_id) now t.
Proof using Hexpected.
  intros He Hr. unfold delivery_reconciled. rewrite He, Hr, !bool_decide_eq_true_2 by done. cbn [orb negb].
  by rewrite (df_id _ _ _ _ _ _ (expected_delivery_Ok _ _ _ _ _ _ _ Hexpected)).
Qed.

(** A new delivery becomes a queued task. *)
Lemma delivery_created_alone files now :
  dir_ok dir files -> can_write s files g -> files !! record_path dir (id_str task_id) = None ->
  exists files', run_alone s files (delivery_call now) = (Ok (DeliveryPending (id_str task_id) "queued"), files') /\
    dir_ok dir files' /\ can_write s files' g /\
    on_disk dir files' (id_str task_id) (store_commit (ed_queued e) 1 g).
Proof using All.
  intros Hd Hw Hf. destruct (delivery_call_turn now) as [again ->].
  pose proof (expected_delivery_Ok _ _ _ _ _ _ _ Hexpected) as He.
  pose proof (delivery_task_id_apart _ _ _ _ Hid) as [Hv Hne].
  assert (writable (ed_queued e)) as Hwq by (by eapply expected_writable).
  pose proof (df_queued _ _ _ _ _ _ He) as Hq.
  destruct (create_alone dir s files g (id_str task_id) (ed_queued e)) as (files' & Hrun & Hd' & Hw' & Hon);
    try done; [by rewrite Hq|by eapply df_queued_valid|by rewrite Hq|].
  exists files'. split; [|done].
  assert (exists error, perform s files all_well (ARead (id_str task_id)) = (Err error, files) /\
            err_kind error = NotFound) as (error & Hread & Hkind).
  { cbn [perform]. unfold store_read, task_path. rewrite (id_parse_valid KRequest _ Hv).
    rewrite (task_file_record dir) by done. unfold read_task_snapshot.
    pose proof (read_dir dir files (id_str task_id) Hd) as Hr. rewrite Hf in Hr. rewrite Hr.
    by eexists. }
  unfold delivery_turn. cbn [run_alone]. rewrite Hread, Hkind, bool_decide_eq_true_2 by done.
  revert Hrun. unfold create. replace (ts_record_version (ed_queued e)) with 0%N by (by rewrite Hq).
  cbn [N.eqb negb answering run_alone].
  destruct (perform s files all_well (ACommit (ed_queued e) 0 Create)) as [r files1].
  intros E. injection E as -> ->.
  rewrite reconciled_as; [|by rewrite Hq..]. rewrite Hq. done.
Qed.

(** A completed delivery is answered with its result, without a write. *)
Lemma delivery_answered_alone files now t d z :
  on_disk dir files (id_str task_id) t -> ts_envelope t = Some (ed_envelope e) ->
  ts_replay_delivery t = ts_replay_delivery (ed_queued e) -> ts_status t = "completed" ->
  ts_result_digest t = Some d -> ts_result_size_bytes t = Some z ->
  run_alone s files (delivery_call now) = (Ok (DeliverySucceeded (id_str task_id) d z), files).
Proof using Hstore Hid Hlegacy Hexpected.
  intros Hon He Hr Hs Hd Hz. destruct (delivery_call_turn now) as [again ->].
  unfold delivery_turn. cbn [run_alone]. rewrite (read_alone dir s files _ t Hstore Hon).
  rewrite reconciled_as by done. unfold delivery_status. rewrite Hs, Hd, Hz. done.
Qed.

(** A queued delivery can be claimed. *)
Lemma delivery_claimable :
  not_claimable (store_commit (ed_queued e) 1 g) = false /\
  forall now, claim_deadline (store_commit (ed_queued e) 1 g) now = Some None.
Proof using Hexpected.
  pose proof (expected_delivery_Ok _ _ _ _ _ _ _ Hexpected) as Hx.
  unfold not_claimable, claim_deadline. rewrite (df_queued _ _ _ _ _ _ Hx).
  split; [done|]. intros now. cbn. by rewrite (df_policy _ _ _ _ _ _ Hx).
Qed.
End Alone.

(** A replayed delivery nobody interferes with goes through: the first
    call of the handler creates the delivery's task and answers that it is
    pending; a worker can claim that task as its first attempt and complete it;
    and the next call, at any time, answers that the delivery succeeded, with
    the worker's result, and writes nothing. *)
Theorem replayed_delivery_completes dir s files g binding event index backoff execution_owner task_id e
    owner token now now1 now2 d z :
  let call := delivery_call s binding event index backoff execution_owner in
  store_ok dir s -> writer_apart s -> dir_ok dir files -> can_write s files g ->
  (index <= usize_max)%N -> (backoff <= u64_max)%N ->
  replay_delivery_task_id event binding index = Ok task_id -> legacy_binding binding event = false ->
  expected_delivery binding event index backoff task_id (delivery_key binding task_id) = Ok e ->
  files !! record_path dir (id_str task_id) = None ->
  validate_execution_owner owner = Ok tt -> validate_cancel_token token = Ok tt ->
  utf8_valid owner = true -> utf8_valid token = true -> (now <= u128_max)%N ->
  validate_canonical_sha256 d "task result digest" = Ok tt -> utf8_valid d = true -> (z <= usize_max)%N ->
  exists files1 claim files2 t files3,
    run_alone s files (call now1) = (Ok (DeliveryPending (id_str task_id) "queued"), files1) /\
    run_alone s files1 (try_claim_queued (id_str task_id) owner token now) = (Ok (Some claim), files2) /\
    claim_fence claim = MkFence (id_str task_id) g owner 1 token /\
    run_alone s files2 (finish_execution (claim_fence claim) (OutcomeCompleted d z)) = (Ok t, files3) /\
    run_alone s files3 (call now2) = (Ok (DeliverySucceeded (id_str task_id) d z), files3) /\
    dir_ok dir files3 /\ can_write s files3 g.
Proof.
  intros call Hs Ha Hd Hw Hi Hb Hid Hl He Hf Ho Ht Huo Hut Hnow Hdig Hud Hz.
  destruct (delivery_created_alone dir s g Hs Ha binding event index backoff execution_owner task_id e
    Hi Hb Hid Hl He files now1 Hd Hw Hf) as (files1 & Hrun1 & Hd1 & Hw1 & Hon1).
  pose proof (delivery_task_id_apart _ _ _ _ Hid) as [_ Hne].
  pose proof (df_queued _ _ _ _ _ _ (expected_delivery_Ok _ _ _ _ _ _ _ He)) as Hq.
  set (c := store_commit (ed_queued e) 1 g) in *.
  assert (ts_envelope c = Some (ed_envelope e)) as Hec by (unfold c; by rewrite Hq).
  assert (ts_attempts c = 0%N /\ ts_record_version c = 1%N) as [Hac Hvc] by (unfold c; by rewrite Hq).
  destruct (delivery_claimable g binding event index backoff task_id e He) as [Hclaim Hdl].
  destruct (claim_alone dir s files1 g (id_str task_id) c owner token now None)
    as (c2 & files2 & Hrun2 & Hd2 & Hw2 & Hon2 & Hs2 & Ha2 & Ho2 & Ht2 & Hg2 & Hv2);
    [done..|by apply Hdl|by rewrite Hvc|].
  rewrite Hac in *. rewrite Hvc in Hv2.
  pose proof (verify_fence_of c2 (id_str task_id) g owner token (proj2 (proj2 Hon2)) Hg2 Ho2 Ht2) as Hver.
  rewrite Ha2 in Hver.
  destruct (complete_alone dir s files2 g (id_str task_id) c2 (MkFence (id_str task_id) g owner (0 + 1) token) d z)
    as (t & files3 & Hrun3 & Hd3 & Hw3 & Hon3 & Hs3 & Hd3' & Hz3 & _); try done; [by rewrite Hv2|].
  assert (rtc (access_effect dir) files1 files3) as Hoth.
  { pose proof (run_alone_shared dir s files1 (try_claim_queued (id_str task_id) owner token now)) as H12.
    pose proof (run_alone_shared dir s files2
      (finish_execution (MkFence (id_str task_id) g owner (0 + 1) token) (OutcomeCompleted d z))) as H23.
    rewrite Hrun2 in H12. rewrite Hrun3 in H23. cbn [fst snd] in *.
    etrans; eapply shared_run_others; try done; [by apply claim_prog_ok|by apply finish_prog_ok]. }
  destruct (identity_others dir files1 files3 (id_str task_id) c Hoth Hne Hon1) as (t' & Hon' & He' & Hr').
  pose proof (on_disk_unique _ _ _ _ _ Hon3 Hon') as <-.
  exists files1, (MkClaim c2 (MkFence (id_str task_id) g owner (0 + 1) token)), files2, t, files3.
  split_and!; try done. eapply delivery_answered_alone; try done. by rewrite He'.
Qed.

(** ** A concrete delivery *)

Definition sample_binding : ReplayHandlerBinding := MkReplayHandlerBinding "agent.run" (MkId "agent-1") None.
Definition sample_replay : Event := sample_event "e1:replay-1".
Definition sample_delivery_id : RequestId :=
  match replay_delivery_task_id sample_replay sample_binding 0 with Ok id => id | Err _ => MkId "" end.
Definition sample_call : N -> StoreProg OwnedReplayDeliveryStatus :=
  delivery_call shared_store sample_binding sample_replay 0 0 "daemon-1".

Lemma no_files_ok dir : dir_ok dir ∅.
Proof. intros task_id data H. by rewrite lookup_empty in H. Qed.

Lemma replayed_delivery_completes_witness :
  exists files1 files3,
    run_alone shared_store ∅ (sample_call 5)
      = (Ok (DeliveryPending (id_str sample_delivery_id) "queued"), files1) /\
    run_alone shared_store files3 (sample_call 20)
      = (Ok (DeliverySucceeded (id_str sample_delivery_id) (sha256_digest "done") 4), files3).
Proof.
  destruct (expected_delivery sample_binding sample_replay 0 0 sample_delivery_id
              (delivery_key sample_binding sample_delivery_id)) as [e|] eqn:He.
  2: { apply (f_equal is_ok) in He. vm_compute in He. discriminate He. }
  destruct (replayed_delivery_completes shared_dir shared_store ∅ 0 sample_binding sample_replay 0 0
              "daemon-1" sample_delivery_id e "worker-1" "token-1" 10 5 20 (sha256_digest "done") 4)
    as (files1 & claim & files2 & t & files3 & H1 & _ & _ & _ & H5 & _);
    [exact shared_store_ok|intros w Hw; discriminate Hw|apply no_files_ok|split; reflexivity
    |apply N.leb_le; vm_compute; reflexivity|apply N.leb_le; vm_compute; reflexivity
    |vm_compute; reflexivity|vm_compute; reflexivity|exact He|apply lookup_empty
    |vm_compute; reflexivity|vm_compute; reflexivity|vm_compute; reflexivity|vm_compute; reflexivity
    |apply N.leb_le; vm_compute; reflexivity|vm_compute; reflexivity|vm_compute; reflexivity
    |apply N.leb_le; vm_compute; reflexivity|].
  exists files1, files3. split; [exact H1|exact H5].
Defined.

(** The daemon's handler when nobody else runs. *)
Definition lone_handler (s : FileSystemTaskStateStore) (b : ReplayHandlerBinding) (event : Event)
    (index backoff now : N) (files : Files) : Res OwnedReplayDeliveryStatus * Files :=
  run_alone s files (delivery_call s b event index backoff "daemon-1" now).

#[export] Instance lone_handler_delivers dir s : DeliveryHandler dir s (lone_handler s).
Proof. intros b event index backoff now files. exists (Ok tt), true, "daemon-1". apply run_alone_shared. Qed.

Lemma alone_dir_ok {A} dir s files (p : StoreProg A) :
  store_ok dir s -> prog_ok p -> dir_ok dir files -> dir_ok dir (run_alone s files p).2.
Proof.
  intros Hs Hp Hd. eapply others_dir; [|exact Hd].
  exact (shared_run_others dir s Hs _ _ _ _ (run_alone_shared dir s files p) Hd Hp).
Qed.

(** The delivery after a worker has completed its task. *)
Definition sample_fence : TaskAttemptFence := MkFence (id_str sample_delivery_id) 0 "worker-1" 1 "token-1".
Definition sample_work : list (StoreProg unit) :=
  [ prog_map (fun _ => tt) (sample_call 5);
    prog_map (fun _ => tt) (try_claim_queued (id_str sample_delivery_id) "worker-1" "token-1" 10);
    prog_map (fun _ => tt) (finish_execution sample_fence (OutcomeCompleted (sha256_digest "done") 4)) ].
Definition sample_worked : Files := foldl (fun files p => (run_alone shared_store files p).2) ∅ sample_work.

Lemma work_dir_ok dir s ps : forall files,
  store_ok dir s -> Forall prog_ok ps -> dir_ok dir files ->
  dir_ok dir (foldl (fun files p => (run_alone (A := unit) s files p).2) files ps).
Proof.
  induction ps as [|p ps IH]; intros files Hs HF Hd; [done|]. inversion HF; subst.
  cbn [foldl]. apply IH; [done..|]. by apply alone_dir_ok.
Qed.

Lemma sample_worked_ok : dir_ok shared_dir sample_worked.
Proof.
  apply work_dir_ok; [exact shared_store_ok| |apply no_files_ok].
  unfold sample_work. apply Forall_cons_2; [|apply Forall_cons_2; [|apply Forall_cons_2; [|apply Forall_nil_2]]];
    apply prog_map_ok.
  - apply reconcile_ok; apply N.leb_le; vm_compute; reflexivity.
  - apply claim_prog_ok; [vm_compute; reflexivity..|apply N.leb_le; vm_compute; reflexivity].
  - apply finish_prog_ok. split; [vm_compute; reflexivity|apply N.leb_le; vm_compute; reflexivity].
Qed.

Definition sample_executed_bus : DurableEventBus :=
  sample_retry_bus [record_appended 1 (sample_event "e1")] [sample_retry_letter "e1"].

Lemma sample_executed_delays :
  Forall (fun d => rp_retry_delay_ms (dl_redrive d) <= u64_max)%N (ds_records (db_dead sample_executed_bus)).
Proof. apply Forall_singleton. apply N.leb_le. vm_compute. reflexivity. Qed.

Abbreviation sample_executed_tick :=
  (run_scheduler_retry_tick_with_handler (recorded (lone_handler shared_store)) sample_project
     tick_options_default sample_tick_access sample_executed_bus ∅ ∅ (sample_worked, [])).

Lemma sample_executed_dispatches : exists report st', sample_executed_tick = (Ok report, st') /\
  dis_replay_event_id <$> rep_dispatched_events report = ["e1:replay-1"].
Proof.
  assert (result_map (fun r => dis_replay_event_id <$> rep_dispatched_events r) sample_executed_tick.1
          = Ok ["e1:replay-1"]) as H by (vm_compute; reflexivity).
  revert H. generalize sample_executed_tick. intros [[report|e] st'] H; [|discriminate H].
  exists report, st'. split; [reflexivity|]. cbn [fst result_map] in H. injection H as H. exact H.
Qed.

(** The tick dispatches the dead letter, and its delivery is on disk. *)
Lemma dispatched_events_executed_witness : exists report st', sample_executed_tick = (Ok report, st') /\
  dis_replay_event_id <$> rep_dispatched_events report = ["e1:replay-1"] /\
  forall e, e ∈ rep_dispatched_events report -> exists d event, forall i b,
    dl_replay_handlers d !! i = Some b -> exists task_id digest size,
      delivered_task shared_dir (tk_handler st').1 b event (N.of_nat i) task_id digest size.
Proof.
  destruct sample_executed_dispatches as (report & st' & E & Hdis). exists report, st'.
  split; [exact E|]. split; [exact Hdis|]. intros e He.
  destruct (dispatched_events_executed shared_dir shared_store (lone_handler shared_store) sample_project
    tick_options_default sample_tick_access sample_executed_bus ∅ ∅ sample_worked report st') with e
    as (k & d & event & _ & _ & _ & _ & Hall);
    [exact shared_store_ok|exact sample_worked_ok|apply N.leb_le; vm_compute; reflexivity
    |exact sample_executed_delays|exact E|exact He|].
  exists d, event. exact Hall.
Defined.
