(* ===== verification/Json.v ===== *)
(** * JSON text (crates/eva-mcp/src/json_rpc.rs, lines 3096-3669)

    The MCP client's own JSON scanner: where a value ends, the fields of an
    object, string literals and their escapes.  A position in the text is the
    text from there on, so a function that returns an offset returns the rest
    of the text, and a slice is what lies before that rest. *)

From Stdlib Require Import Ascii.
From stdpp Require Import base numbers strings gmap list.
From S2P Require Import Prelude RustStr Error.

(** ** Text *)

(** A literal with ['] for the double quote. *)
Definition js (s : string) : string := replace_char "'" (str dquote) s.

Definition protocol_error (message : string) : EvaError :=
  with_retryable (with_provider_code (unavailable message) "mcp_protocol_error") false.

(** [&text[start..end]], given the text at both positions. *)
Definition slice (at_start at_end : string) : string :=
  String.substring 0 (String.length at_start - String.length at_end) at_start.

Definition is_json_whitespace (c : ascii) : bool :=
  Ascii.eqb c " " || Ascii.eqb c tab || Ascii.eqb c cr || Ascii.eqb c nl.

Fixpoint skip_json_whitespace (s : string) : string :=
  match s with
  | String c r => if is_json_whitespace c then skip_json_whitespace r else s
  | EmptyString => ""
  end.

(** [bytes.get(offset)] *)
Definition head (s : string) : option ascii := match s with String c _ => Some c | EmptyString => None end.
Definition head_is (c : ascii) (s : string) : bool := bool_decide (head s = Some c).
Definition tail (s : string) : string := match s with String _ r => r | EmptyString => "" end.

(** ** String tokens *)

Definition is_simple_escape (c : ascii) : bool :=
  Ascii.eqb c dquote || Ascii.eqb c backslash || Ascii.eqb c "/" || Ascii.eqb c "b" || Ascii.eqb c "f"
  || Ascii.eqb c "n" || Ascii.eqb c "r" || Ascii.eqb c "t".

(** [u8::is_ascii_hexdigit] *)
Definition is_ascii_hexdigit (c : ascii) : bool := bool_decide (is_Some (hex_value c)).

(** The loop of [json_string_token_end], after the opening quote. *)
Fixpoint string_body_end (s : string) : Res string :=
  match s with
  | EmptyString => Err (protocol_error "MCP JSON-RPC string field is unterminated")
  | String c r =>
      if Ascii.eqb c dquote then Ok r
      else if Ascii.eqb c backslash then
        match r with
        | EmptyString => Err (protocol_error "MCP JSON-RPC string escape is incomplete")
        | String e r1 =>
            if is_simple_escape e then string_body_end r1
            else if Ascii.eqb e "u" then
              match r1 with
              | String h1 (String h2 (String h3 (String h4 r5))) =>
                  if is_ascii_hexdigit h1 && is_ascii_hexdigit h2 && is_ascii_hexdigit h3
                     && is_ascii_hexdigit h4
                  then string_body_end r5
                  else Err (protocol_error "MCP JSON-RPC unicode escape is invalid")
              | _ => Err (protocol_error "MCP JSON-RPC unicode escape is incomplete")
              end
            else Err (protocol_error "MCP JSON-RPC string escape is unsupported")
        end
      else if (byte_of c <? 32)%N then
        Err (protocol_error "MCP JSON-RPC string contains an unescaped control character")
      else string_body_end r
  end.

Definition json_string_token_end (s : string) : Res string :=
  if head_is dquote s then string_body_end (tail s)
  else Err (protocol_error "MCP JSON-RPC string field is invalid").

(** ** Numbers *)

Fixpoint skip_digits (s : string) : string :=
  match s with
  | String c r => if is_ascii_digit c then skip_digits r else s
  | EmptyString => ""
  end.

(** [while digit { offset += 1 }] that must advance. *)
Definition some_digits (s : string) : option string :=
  let rest := skip_digits s in if String.eqb rest s then None else Some rest.

Definition skip_minus (s : string) : string := if head_is "-" s then tail s else s.

Definition number_integer (s : string) : option string :=
  match s with
  | String c r =>
      if Ascii.eqb c "0" then Some r
      else if is_ascii_digit c then Some (skip_digits r)
      else None
  | EmptyString => None
  end.

Definition number_fraction (s : string) : option string :=
  if head_is "." s then some_digits (tail s) else Some s.

Definition number_exponent (s : string) : option string :=
  if head_is "e" s || head_is "E" s then
    let r := tail s in some_digits (if head_is "+" r || head_is "-" r then tail r else r)
  else Some s.

Definition is_json_number (token : string) : bool :=
  bool_decide (((number_integer (skip_minus token) ≫= number_fraction) ≫= number_exponent) = Some "").

(** ** Values *)

Definition MAX_JSON_NESTING_DEPTH : N := 64.

Definition next_json_nesting_depth (depth : N) : Res N :=
  let? nested_depth := ok_or (checked_add usize_max depth 1)
    (protocol_error "MCP JSON-RPC nesting limit exceeded") in
  reject (MAX_JSON_NESTING_DEPTH <? nested_depth)%N with
    protocol_error "MCP JSON-RPC nesting limit exceeded" else
  Ok nested_depth.

Definition is_delimiter (c : ascii) : bool :=
  is_json_whitespace c || Ascii.eqb c "," || Ascii.eqb c "}" || Ascii.eqb c "]".

Fixpoint skip_primitive (s : string) : string :=
  match s with
  | String c r => if is_delimiter c then s else skip_primitive r
  | EmptyString => ""
  end.

Definition is_json_primitive (token : string) : bool :=
  existsb (String.eqb token) ["true"; "false"; "null"] || is_json_number token.

Definition primitive_token_end (s : string) : Res string :=
  let rest := skip_primitive s in
  reject negb (is_json_primitive (slice s rest)) with
    protocol_error "MCP JSON-RPC primitive value is invalid" else
  Ok rest.

Definition out_of_fuel : EvaError := internal "out of fuel".

(** [json_value_token_end_at_depth], and the loops of [json_object_token_end]
    (at a key) and [json_array_token_end] (at a value); every call uses one
    unit of fuel. *)
Fixpoint value_end (fuel : nat) (depth : N) (s : string) : Res string :=
  match fuel with
  | O => Err out_of_fuel
  | S fuel =>
      match head s with
      | None => Err (protocol_error "MCP JSON-RPC object value is missing")
      | Some c =>
          if Ascii.eqb c dquote then json_string_token_end s
          else if Ascii.eqb c "{" then
            let? nested_depth := next_json_nesting_depth depth in
            let s := skip_json_whitespace (tail s) in
            if head_is "}" s then Ok (tail s) else fields_end fuel nested_depth s
          else if Ascii.eqb c "[" then
            let? nested_depth := next_json_nesting_depth depth in
            let s := skip_json_whitespace (tail s) in
            if head_is "]" s then Ok (tail s) else elements_end fuel nested_depth s
          else primitive_token_end s
      end
  end
with fields_end (fuel : nat) (depth : N) (s : string) : Res string :=
  match fuel with
  | O => Err out_of_fuel
  | S fuel =>
      reject negb (head_is dquote s) with
        protocol_error "MCP JSON-RPC nested object key is invalid" else
      let? s := json_string_token_end s in
      let s := skip_json_whitespace s in
      reject negb (head_is ":" s) with
        protocol_error "MCP JSON-RPC nested object key is missing a colon" else
      let s := skip_json_whitespace (tail s) in
      let? s := value_end fuel depth s in
      let s := skip_json_whitespace s in
      if head_is "," s then
        let s := skip_json_whitespace (tail s) in
        reject head_is "}" s with
          protocol_error "MCP JSON-RPC nested object contains a trailing comma" else
        fields_end fuel depth s
      else if head_is "}" s then Ok (tail s)
      else Err (protocol_error "MCP JSON-RPC nested object fields are not comma-separated")
  end
with elements_end (fuel : nat) (depth : N) (s : string) : Res string :=
  match fuel with
  | O => Err out_of_fuel
  | S fuel =>
      let? s := value_end fuel depth s in
      let s := skip_json_whitespace s in
      if head_is "," s then
        let s := skip_json_whitespace (tail s) in
        reject head_is "]" s with
          protocol_error "MCP JSON-RPC array contains a trailing comma" else
        elements_end fuel depth s
      else if head_is "]" s then Ok (tail s)
      else Err (protocol_error "MCP JSON-RPC array values are not comma-separated")
  end.

(** A call passes a shorter text on, but for the first value of an array. *)
Definition json_fuel (s : string) : nat := S (S (String.length s + String.length s)).

Definition json_value_token_end_at_depth (s : string) (depth : N) : Res string :=
  value_end (json_fuel s) depth s.
Definition json_value_token_end (s : string) : Res string := json_value_token_end_at_depth s 0.

(** ** String literals *)

(** [String::push] of a scalar value. *)
Definition utf8_encode (n : N) : string :=
  let b (x : N) := str (ascii_of_N x) in
  if (n <? 128)%N then b n
  else if (n <? 2048)%N then b (192 + n / 64)%N +:+ b (128 + n mod 64)%N
  else if (n <? 65536)%N then
    b (224 + n / 4096)%N +:+ b (128 + n / 64 mod 64)%N +:+ b (128 + n mod 64)%N
  else b (240 + n / 262144)%N +:+ b (128 + n / 4096 mod 64)%N +:+ b (128 + n / 64 mod 64)%N
         +:+ b (128 + n mod 64)%N.

(** The digits of [u16::from_str_radix(_, 16)], most significant first. *)
Fixpoint hex_number (acc : N) (digits : list string) : option N :=
  match digits with
  | [] => Some acc
  | String c EmptyString :: rest =>
      match hex_value c with Some v => hex_number (16 * acc + v) rest | None => None end
  | _ :: _ => None
  end.

(** [u16::from_str_radix] of four characters; a leading [+] is a sign. *)
Definition parse_hex4 (digits : list string) : Res N :=
  let digits := match digits with d :: rest => if String.eqb d "+" then rest else digits | [] => [] end in
  ok_or (hex_number 0 digits)
    (protocol_error "MCP JSON-RPC unicode escape is invalid"
       ⊕ ("parse_error", "invalid digit found in string")).

Definition simple_unescape (c : string) : option string :=
  if String.eqb c (str dquote) then Some (str dquote)
  else if String.eqb c (str backslash) then Some (str backslash)
  else if String.eqb c "/" then Some "/"
  else if String.eqb c "b" then Some (str "008")
  else if String.eqb c "f" then Some (str "012")
  else if String.eqb c "n" then Some (str nl)
  else if String.eqb c "r" then Some (str cr)
  else if String.eqb c "t" then Some (str tab)
  else None.

Definition in_code_range (lo hi n : N) : bool := ((lo <=? n) && (n <=? hi))%N.
Definition surrogate_pair (code low : N) : N := (65536 + (code - 55296) * 1024 + (low - 56320))%N.

(** The loop of [parse_json_string] over the characters after the quote. *)
Fixpoint unescape (output : string) (cs : list string) : Res string :=
  match cs with
  | [] => Err (protocol_error "MCP JSON-RPC string field is unterminated")
  | c :: rest =>
      if String.eqb c (str dquote) then Ok output
      else if String.eqb c (str backslash) then
        match rest with
        | [] => Err (protocol_error "MCP JSON-RPC string escape is incomplete")
        | e :: rest =>
            match simple_unescape e with
            | Some character => unescape (output +:+ character) rest
            | None =>
                if String.eqb e "u" then
                  match rest with
                  | h1 :: h2 :: h3 :: h4 :: rest =>
                      let? code := parse_hex4 [h1; h2; h3; h4] in
                      if in_code_range 55296 56319 code then
                        match rest with
                        | b :: u :: rest =>
                            reject negb (String.eqb b (str backslash) && String.eqb u "u") with
                              protocol_error "MCP JSON-RPC unicode surrogate pair is incomplete" else
                            match rest with
                            | l1 :: l2 :: l3 :: l4 :: rest =>
                                let? low := parse_hex4 [l1; l2; l3; l4] in
                                reject negb (in_code_range 56320 57343 low) with
                                  protocol_error "MCP JSON-RPC unicode surrogate pair is invalid" else
                                unescape (output +:+ utf8_encode (surrogate_pair code low)) rest
                            | _ => Err (protocol_error "MCP JSON-RPC unicode surrogate pair is incomplete")
                            end
                        | _ => Err (protocol_error "MCP JSON-RPC unicode surrogate pair is incomplete")
                        end
                      else if in_code_range 56320 57343 code then
                        Err (protocol_error "MCP JSON-RPC unicode surrogate pair is invalid")
                      else unescape (output +:+ utf8_encode code) rest
                  | _ => Err (protocol_error "MCP JSON-RPC unicode escape is incomplete")
                  end
                else Err (protocol_error "MCP JSON-RPC string escape is unsupported")
            end
        end
      else unescape (output +:+ c) rest
  end.

Definition parse_json_string (value : string) : Res string :=
  if head_is dquote value then unescape "" (chars (tail value))
  else Err (protocol_error "MCP JSON-RPC string field is invalid").

(** [value as u32] of a character. *)
Definition char_code (c : string) : N :=
  match char_bytes c with
  | [a] => a
  | [a; b] => (a mod 32 * 64 + b mod 64)%N
  | [a; b; c] => (a mod 16 * 4096 + b mod 64 * 64 + c mod 64)%N
  | [a; b; c; d] => (a mod 8 * 262144 + b mod 64 * 4096 + c mod 64 * 64 + d mod 64)%N
  | _ => 0%N
  end.

(** [{:04x}] of a number below 65536. *)
Definition hex4 (n : N) : string :=
  String (hex_digit (n / 4096)) (String (hex_digit (n / 256 mod 16))
    (String (hex_digit (n / 16 mod 16)) (str (hex_digit (n mod 16))))).

Definition escape_json_char (c : string) : string :=
  if String.eqb c (str dquote) then str backslash +:+ str dquote
  else if String.eqb c (str backslash) then str backslash +:+ str backslash
  else if String.eqb c (str "008") then str backslash +:+ "b"
  else if String.eqb c (str "012") then str backslash +:+ "f"
  else if String.eqb c (str nl) then str backslash +:+ "n"
  else if String.eqb c (str cr) then str backslash +:+ "r"
  else if String.eqb c (str tab) then str backslash +:+ "t"
  else if is_control c then str backslash +:+ "u" +:+ hex4 (char_code c)
  else c.

Definition mcp_escape_json (value : string) : string := str_concat (escape_json_char <$> chars value).
Definition json_string (value : string) : string := str dquote +:+ mcp_escape_json value +:+ str dquote.

(** ** Objects and arrays *)

(** The end of the text after the closing bracket. *)
Definition nothing_after (s : string) : bool := str_is_empty (skip_json_whitespace s).

(** One field of the loop of [parse_json_object_fields], from its key: the
    key, the value and the text after it. *)
Definition object_field (s : string) : Res (string * string * string) :=
  reject negb (head_is dquote s) with protocol_error "MCP JSON-RPC object key is invalid" else
  let? key_end := json_string_token_end s in
  let? key := parse_json_string (slice s key_end) in
  let s := skip_json_whitespace key_end in
  reject negb (head_is ":" s) with protocol_error "MCP JSON-RPC object key is missing a colon" else
  let value_start := skip_json_whitespace (tail s) in
  let? value_end := json_value_token_end_at_depth value_start 1 in
  Ok (key, slice value_start value_end, value_end).

Definition object_finish (fields : gmap string string) (s : string) : Res (gmap string string) :=
  if nothing_after s then Ok fields
  else Err (protocol_error "MCP JSON-RPC object has trailing non-whitespace data").

(** The loop of [parse_json_object_fields]. *)
Fixpoint object_fields (fuel : nat) (fields : gmap string string) (s : string) :
    Res (gmap string string) :=
  match fuel with
  | O => Err out_of_fuel
  | S fuel =>
      let s := skip_json_whitespace s in
      if head_is "}" s then object_finish fields (tail s) else
      let? '(key, value, value_end) := object_field s in
      reject bool_decide (is_Some (fields !! key)) with
        protocol_error "MCP JSON-RPC object contains a duplicate field" else
      let fields := <[key := value]> fields in
      let s := skip_json_whitespace value_end in
      if head_is "," s then
        let s := skip_json_whitespace (tail s) in
        reject head_is "}" s with protocol_error "MCP JSON-RPC object contains a trailing comma" else
        object_fields fuel fields s
      else if head_is "}" s then object_finish fields (tail s)
      else Err (protocol_error "MCP JSON-RPC object fields are not comma-separated")
  end.

Definition parse_json_object_fields (text : string) : Res (gmap string string) :=
  let s := skip_json_whitespace text in
  reject negb (head_is "{" s) with protocol_error "MCP JSON-RPC value must be an object" else
  object_fields (S (String.length s)) ∅ (tail s).

(** The loop of [parse_json_string_array], at a value. *)
Fixpoint string_array_values (fuel : nat) (values : list string) (s : string) : Res (list string) :=
  match fuel with
  | O => Err out_of_fuel
  | S fuel =>
      let? string_end := json_string_token_end s in
      let? value := parse_json_string (slice s string_end) in
      let values := values ++ [value] in
      let s := skip_json_whitespace string_end in
      if head_is "," s then
        let s := skip_json_whitespace (tail s) in
        reject head_is "]" s with protocol_error "MCP JSON string array contains a trailing comma" else
        string_array_values fuel values s
      else if head_is "]" s then
        if nothing_after (tail s) then Ok values
        else Err (protocol_error "MCP JSON string array has trailing data")
      else Err (protocol_error "MCP JSON string array values are not comma-separated")
  end.

Definition parse_json_string_array (text : string) : Res (list string) :=
  let s := skip_json_whitespace text in
  reject negb (head_is "[" s) with protocol_error "MCP JSON string array is invalid" else
  let s := skip_json_whitespace (tail s) in
  if head_is "]" s then
    if nothing_after (tail s) then Ok []
    else Err (protocol_error "MCP JSON string array has trailing data")
  else string_array_values (S (String.length s)) [] s.

(** ** Fields by name *)

Definition json_field_value (text key : string) : Res (option string) :=
  let? fields := parse_json_object_fields text in Ok (fields !! key).

(** [value.map(f).transpose()] *)
Definition transpose {A B} (f : A -> Res B) (o : option A) : Res (option B) :=
  match o with
  | None => Ok None
  | Some a => let? b := f a in Ok (Some b)
  end.

Definition json_string_field (text key : string) : Res (option string) :=
  let? value := json_field_value text key in transpose parse_json_string value.

Definition digit_value (c : ascii) : option N :=
  if is_ascii_digit c then Some (byte_of c - 48)%N else None.

(** The digits of an integer with absolute value at most [max], as Rust reads
    them; an error is its text. *)
Fixpoint parse_digits (max : N) (overflow : string) (acc : N) (s : string) : Result string N :=
  match s with
  | EmptyString => Ok acc
  | String c r =>
      match digit_value c with
      | None => Err "invalid digit found in string"
      | Some d =>
          if (max <? 10 * acc + d)%N then Err overflow
          else parse_digits max overflow (10 * acc + d) r
      end
  end.

Definition too_large : string := "number too large to fit in target type".
Definition too_small : string := "number too small to fit in target type".
Definition no_digits : string := "cannot parse integer from empty string".
Definition i64_max : N := 9223372036854775807.

(** [str::parse] for an unsigned type and [str::parse::<i64>], with the
    error's text. *)
Definition parse_uint (max : N) (s : string) : Result string N :=
  match s with
  | EmptyString => Err no_digits
  | String c r =>
      let digits := if Ascii.eqb c "+" then r else s in
      if str_is_empty digits then Err "invalid digit found in string"
      else parse_digits max too_large 0 digits
  end.
Definition parse_u64 : string -> Result string N := parse_uint u64_max.

Definition parse_i64 (s : string) : Result string Z :=
  match s with
  | EmptyString => Err no_digits
  | String c r =>
      if (Ascii.eqb c "+" || Ascii.eqb c "-") && str_is_empty r then Err "invalid digit found in string"
      else if Ascii.eqb c "-" then result_map (fun n => - Z.of_N n)%Z (parse_digits (i64_max + 1) too_small 0 r)
      else result_map Z.of_N (parse_digits i64_max too_large 0 (if Ascii.eqb c "+" then r else s))
  end.

Definition numeric_field {A} (parse : string -> Result string A) (text key : string) : Res (option A) :=
  let? value := json_field_value text key in
  transpose (fun value =>
    match parse (trim value) with
    | Ok a => Ok a
    | Err error => Err (protocol_error "MCP JSON-RPC numeric field is invalid"
                          ⊕ ("field", key) ⊕ ("parse_error", error))
    end) value.

Definition json_u64_field : string -> string -> Res (option N) := numeric_field parse_u64.
Definition json_i64_field : string -> string -> Res (option Z) := numeric_field parse_i64.

(** [text.find(pattern)]: the text from the first match on. *)
Fixpoint find_str (pattern text : string) : option string :=
  if starts_with pattern text then Some text
  else match text with String _ r => find_str pattern r | EmptyString => None end.

Definition find_json_field_value (text key : string) : option string :=
  let pattern := str dquote +:+ key +:+ str dquote in
  match find_str pattern text with
  | None => None
  | Some at_key =>
      match strip_prefix pattern at_key with
      | None => None
      | Some after_key =>
          match find_str ":" after_key with
          | None => None
          | Some at_colon =>
              let value_start := skip_json_whitespace (tail at_colon) in
              match json_value_token_end value_start with
              | Ok value_end => Some (slice value_start value_end)
              | Err _ => None
              end
          end
      end
  end.
