(* ===== verification/JsonGrammar.v ===== *)
(** * The grammar the JSON scanner recognises (crates/eva-mcp/src/json_rpc.rs)

    RFC 8259 as inductive predicates on byte strings, with a bound on the
    nesting of objects and arrays.  The scanner of Json.v accepts exactly this
    grammar, and its fuel never runs out. *)

From Stdlib Require Import Ascii.
From stdpp Require Import base numbers strings gmap list.
From S2P Require Import Prelude RustStr Error Json.

(** Appends to the right. *)
Ltac append_right := repeat first [rewrite append_cons | rewrite <- append_assoc | rewrite append_nil_l].

(** ** White space and strings *)

Definition blank (w : string) : Prop := bytes_all is_json_whitespace w = true.

(** The text does not start with white space. *)
Definition unspaced (s : string) : Prop := match head s with Some c => is_json_whitespace c = false | None => True end.

Lemma skip_blank w s : blank w -> unspaced s -> skip_json_whitespace (w +:+ s) = s.
Proof.
  unfold blank. intros Hw Hs. induction w as [|c w IH].
  - rewrite append_nil_l. destruct s as [|c s]; [done|]. cbn in Hs |- *. by rewrite Hs.
  - cbn in Hw. apply andb_true_iff in Hw as [Hc Hw]. rewrite append_cons. cbn. rewrite Hc. by apply IH.
Qed.

Lemma skip_whitespace_spec s :
  exists w, blank w /\ s = w +:+ skip_json_whitespace s /\ unspaced (skip_json_whitespace s).
Proof.
  unfold blank. induction s as [|c s IH]; [by exists ""|]. cbn [skip_json_whitespace].
  destruct (is_json_whitespace c) eqn:E.
  - destruct IH as (w & Hw & Hs & Hu). exists (String c w). rewrite append_cons, <- Hs. cbn. by rewrite E.
  - by exists "".
Qed.

(** What may stand between the quotes of a string. *)
Inductive string_body : string -> Prop :=
| body_nil : string_body ""
| body_plain c b :
    (32 <= byte_of c)%N -> c <> dquote -> c <> backslash -> string_body b -> string_body (String c b)
| body_escape e b :
    is_simple_escape e = true -> string_body b -> string_body (String backslash (String e b))
| body_unicode h1 h2 h3 h4 b :
    is_ascii_hexdigit h1 = true -> is_ascii_hexdigit h2 = true -> is_ascii_hexdigit h3 = true ->
    is_ascii_hexdigit h4 = true -> string_body b ->
    string_body (String backslash (String "u" (String h1 (String h2 (String h3 (String h4 b)))))).

Definition quote (b : string) : string := String dquote (b +:+ str dquote).
Definition string_token (t : string) : Prop := exists b, string_body b /\ t = quote b.

Lemma string_body_end_complete b rest : string_body b -> string_body_end (b +:+ String dquote rest) = Ok rest.
Proof.
  induction 1 as [|c b Hc Hq Hb _ IH|e b He _ IH|h1 h2 h3 h4 b H1 H2 H3 H4 _ IH]; rewrite ?append_cons.
  - done.
  - cbn [string_body_end]. apply Ascii.eqb_neq in Hq, Hb. rewrite Hq, Hb.
    rewrite (proj2 (N.ltb_ge _ _)) by done. exact IH.
  - cbn [string_body_end]. change (Ascii.eqb backslash dquote) with false.
    rewrite Ascii.eqb_refl, He. exact IH.
  - cbn [string_body_end]. change (Ascii.eqb backslash dquote) with false. rewrite Ascii.eqb_refl.
    change (is_simple_escape "u") with false. change (Ascii.eqb "u" "u") with true.
    rewrite H1, H2, H3, H4. exact IH.
Qed.

Lemma string_body_end_sound s rest :
  string_body_end s = Ok rest -> exists b, string_body b /\ s = b +:+ String dquote rest.
Proof.
  remember (String.length s) as n eqn:Hn. assert (String.length s <= n) as Hle by lia. clear Hn.
  revert s Hle. induction n as [|n IH]; intros s Hle H; destruct s as [|c s]; try done; [cbn in Hle; lia|].
  cbn [String.length] in Hle. cbn [string_body_end] in H.
  destruct (Ascii.eqb_spec c dquote) as [->|Hq].
  { injection H as ->. exists "". split; [constructor|done]. }
  destruct (Ascii.eqb_spec c backslash) as [->|Hb].
  - destruct s as [|e s]; [done|]. cbn [String.length] in Hle. destruct (is_simple_escape e) eqn:He.
    + apply IH in H as (b & Hbody & ->); [|lia]. exists (String backslash (String e b)).
      split; [by constructor|done].
    + destruct (Ascii.eqb_spec e "u") as [->|]; [|done].
      destruct s as [|h1 [|h2 [|h3 [|h4 s]]]]; try done. cbn [String.length] in Hle.
      destruct (is_ascii_hexdigit h1) eqn:H1; [|done]. destruct (is_ascii_hexdigit h2) eqn:H2; [|done].
      destruct (is_ascii_hexdigit h3) eqn:H3; [|done]. destruct (is_ascii_hexdigit h4) eqn:H4; [|done].
      apply IH in H as (b & Hbody & ->); [|lia].
      exists (String backslash (String "u" (String h1 (String h2 (String h3 (String h4 b)))))).
      split; [by apply body_unicode|done].
  - destruct (_ <? _)%N eqn:E; [done|]. apply N.ltb_ge in E.
    apply IH in H as (b & Hbody & ->); [|lia]. exists (String c b). split; [by constructor|done].
Qed.

Lemma quote_append b rest : quote b +:+ rest = String dquote (b +:+ String dquote rest).
Proof. unfold quote. rewrite append_cons, <- append_assoc. done. Qed.

Lemma json_string_token_end_iff s rest :
  json_string_token_end s = Ok rest <-> exists t, string_token t /\ s = t +:+ rest.
Proof.
  unfold json_string_token_end, head_is. split.
  - destruct s as [|c s]; [done|]. cbn [head]. case_bool_decide as Hc; [|done].
    pose proof (inj Some _ _ Hc) as ->. intros (b & Hb & E)%string_body_end_sound. cbn [tail] in E.
    exists (quote b). split; [by exists b|]. by rewrite quote_append, E.
  - intros (t & (b & Hb & ->) & ->). rewrite quote_append. cbn [head tail].
    rewrite bool_decide_eq_true_2 by done. by apply string_body_end_complete.
Qed.

(** ** Numbers and other primitives *)

Definition digits (d : string) : Prop := bytes_all is_ascii_digit d = true.

Inductive integer_part : string -> Prop :=
| int_zero : integer_part "0"
| int_digits c d : is_ascii_digit c = true -> c <> "0"%char -> digits d -> integer_part (String c d).

Inductive fraction_part : string -> Prop :=
| frac_none : fraction_part ""
| frac_digits d : digits d -> d <> "" -> fraction_part (String "." d).

Inductive exponent_part : string -> Prop :=
| exp_none : exponent_part ""
| exp_digits e sign d :
    e = "e"%char \/ e = "E"%char -> sign ∈ [""; "+"; "-"] -> digits d -> d <> "" ->
    exponent_part (String e (sign +:+ d)).

Definition number_token (t : string) : Prop :=
  exists sign i f e, t = sign +:+ i +:+ f +:+ e /\ sign ∈ [""; "-"] /\ integer_part i /\
    fraction_part f /\ exponent_part e.

(** The text does not start with a digit. *)
Definition undigited (s : string) : Prop := match head s with Some c => is_ascii_digit c = false | None => True end.

Lemma skip_digits_append d s : digits d -> undigited s -> skip_digits (d +:+ s) = s.
Proof.
  unfold digits. intros Hd Hs. induction d as [|c d IH].
  - rewrite append_nil_l. destruct s as [|c s]; [done|]. cbn in Hs |- *. by rewrite Hs.
  - cbn in Hd. apply andb_true_iff in Hd as [Hc Hd]. rewrite append_cons. cbn. rewrite Hc. by apply IH.
Qed.

Lemma skip_digits_spec s : exists d, digits d /\ s = d +:+ skip_digits s /\ undigited (skip_digits s).
Proof.
  unfold digits. induction s as [|c s IH]; [by exists ""|]. cbn [skip_digits].
  destruct (is_ascii_digit c) eqn:E; [|by exists ""].
  destruct IH as (d & Hd & Hs & Hu). exists (String c d). rewrite append_cons, <- Hs. cbn. by rewrite E.
Qed.

Lemma some_digits_spec s rest :
  some_digits s = Some rest -> exists d, digits d /\ d <> "" /\ s = d +:+ rest /\ undigited rest.
Proof.
  unfold some_digits. destruct (skip_digits_spec s) as (d & Hd & Hs & Hu).
  destruct (String.eqb_spec (skip_digits s) s) as [|Hne]; [done|]. intros [= <-].
  exists d. split_and!; try done. intros ->. by rewrite append_nil_l in Hs.
Qed.

Lemma some_digits_append d s : digits d -> d <> "" -> undigited s -> some_digits (d +:+ s) = Some s.
Proof.
  intros Hd Hne Hs. unfold some_digits. rewrite skip_digits_append by done.
  destruct (String.eqb_spec s (d +:+ s)) as [E|]; [|done].
  apply (f_equal String.length) in E. rewrite length_append in E. destruct d; [done|cbn in E; lia].
Qed.

Lemma number_integer_iff s rest :
  (exists i, integer_part i /\ s = i +:+ rest /\ (i <> "0" -> undigited rest)) <-> number_integer s = Some rest.
Proof.
  split.
  - intros (i & Hi & -> & Hu). destruct Hi as [|c d Hc Hz Hd]; [done|].
    rewrite append_cons. cbn [number_integer]. apply Ascii.eqb_neq in Hz as Hz'. rewrite Hz', Hc.
    rewrite skip_digits_append; [done..|]. apply Hu. by intros [= -> ->].
  - destruct s as [|c s]; [done|]. cbn [number_integer].
    destruct (Ascii.eqb_spec c "0") as [->|Hz].
    { intros [= ->]. exists "0". split_and!; [constructor|done..]. }
    destruct (is_ascii_digit c) eqn:Ec; [|done]. intros [= <-].
    destruct (skip_digits_spec s) as (d & Hd & Hs & Hu). exists (String c d).
    split_and!; [by constructor|by rewrite append_cons, <- Hs|done].
Qed.

Lemma fraction_undigited f : fraction_part f -> forall e, exponent_part e -> undigited (f +:+ e).
Proof. destruct 1; [|done]. intros e He. rewrite append_nil_l. by destruct He as [|? ? ? [->| ->]]. Qed.

Lemma head_is_true c s : head_is c s = true <-> s = String c (tail s).
Proof.
  unfold head_is. rewrite bool_decide_eq_true. destruct s as [|d s]; [done|]. cbn.
  split; [by intros [= ->]|by intros [= ->]].
Qed.

Lemma head_is_false c s : head_is c s = false <-> head s <> Some c.
Proof. unfold head_is. by rewrite bool_decide_eq_false. Qed.

Lemma number_fraction_sound s rest :
  number_fraction s = Some rest -> exists f, fraction_part f /\ s = f +:+ rest.
Proof.
  unfold number_fraction. destruct (head_is "." s) eqn:E.
  - apply head_is_true in E. intros (d & Hd & Hne & Hs & _)%some_digits_spec.
    exists (String "." d). split; [by constructor|]. by rewrite E, Hs.
  - intros [= ->]. exists "". split; [constructor|done].
Qed.

Lemma number_exponent_sound s : number_exponent s = Some "" -> exponent_part s.
Proof.
  unfold number_exponent. destruct (head_is "e" s || head_is "E" s) eqn:E; [|intros [= ->]; constructor].
  assert (exists e, (e = "e"%char \/ e = "E"%char) /\ s = String e (tail s)) as (e & He & Hs).
  { apply orb_true_iff in E as [E|E]; apply head_is_true in E; eauto. }
  rewrite Hs. set (r := tail s) in *. cbn [tail]. destruct (head_is "+" r || head_is "-" r) eqn:Er.
  - intros (d & Hd & Hne & Ht & _)%some_digits_spec. rewrite append_nil_r in Ht.
    assert (exists sign, sign ∈ [""; "+"; "-"] /\ r = sign +:+ d) as (sign & Hsign & ->).
    { apply orb_true_iff in Er as [Er|Er]; apply head_is_true in Er; rewrite Er, Ht;
        [exists "+"|exists "-"]; (split; [set_solver|done]). }
    by constructor.
  - intros (d & Hd & Hne & Ht & _)%some_digits_spec. rewrite append_nil_r in Ht. rewrite Ht.
    change d with ("" +:+ d). constructor; try done. set_solver.
Qed.

Lemma is_json_number_sound t : is_json_number t = true -> number_token t.
Proof.
  unfold is_json_number. intros H%bool_decide_eq_true_1.
  destruct (number_integer (skip_minus t)) as [s1|] eqn:E1; [|done]. cbn in H.
  destruct (number_fraction s1) as [s2|] eqn:E2; [|done]. cbn in H.
  apply number_integer_iff in E1 as (i & Hi & Ei & _). apply number_fraction_sound in E2 as (f & Hf & ->).
  apply number_exponent_sound in H. unfold skip_minus in Ei. destruct (head_is "-" t) eqn:Em.
  - apply head_is_true in Em. exists "-", i, f, s2. rewrite Em, Ei. split_and!; try done. set_solver.
  - exists "", i, f, s2. split_and!; try done. set_solver.
Qed.

Lemma exponent_accepted e : exponent_part e -> number_exponent e = Some "".
Proof.
  destruct 1 as [|e sign d He Hs Hd Hne]; [done|]. unfold number_exponent.
  assert (head_is "e" (String e (sign +:+ d)) || head_is "E" (String e (sign +:+ d)) = true) as ->
    by (destruct He as [-> | ->]; done).
  cbn [tail]. destruct d as [|c d]; [done|]. unfold digits in Hd. pose proof Hd as Hd'. cbn in Hd'.
  apply andb_true_iff in Hd' as [Hc _].
  assert (some_digits (String c d) = Some "") as Hsome.
  { rewrite <- (append_nil_r (String c d)). by apply some_digits_append. }
  apply elem_of_cons in Hs as [->|Hs].
  - rewrite append_nil_l. destruct (_ || _) eqn:E; [|exact Hsome].
    apply orb_true_iff in E as [E|E]; apply head_is_true in E; injection E as ->; done.
  - apply elem_of_cons in Hs as [->|Hs]; [exact Hsome|].
    apply list_elem_of_singleton in Hs as ->. exact Hsome.
Qed.

Lemma fraction_accepted f e : fraction_part f -> exponent_part e -> number_fraction (f +:+ e) = Some e.
Proof.
  destruct 1 as [|d Hd Hne]; intros He.
  - rewrite append_nil_l. unfold number_fraction. destruct (head_is "." e) eqn:E; [|done].
    apply head_is_true in E. by destruct He as [|? ? ? [->| ->]].
  - rewrite append_cons. unfold number_fraction, head_is. cbn [head tail].
    rewrite bool_decide_eq_true_2 by done. apply some_digits_append; [done..|].
    by destruct He as [|? ? ? [->| ->]].
Qed.

Lemma is_json_number_iff t : is_json_number t = true <-> number_token t.
Proof.
  split; [apply is_json_number_sound|]. intros (sign & i & f & e & -> & Hs & Hi & Hf & He).
  unfold is_json_number. apply bool_decide_eq_true_2.
  assert (skip_minus (sign +:+ i +:+ f +:+ e) = i +:+ f +:+ e) as ->.
  { apply elem_of_cons in Hs as [->|Hs].
    - rewrite append_nil_l. unfold skip_minus. destruct (head_is "-" _) eqn:E; [|done].
      apply head_is_true in E. destruct Hi as [|c d Hc]; rewrite append_cons in E; [done|].
      by injection E as ->.
    - apply list_elem_of_singleton in Hs as ->. done. }
  assert (number_integer (i +:+ f +:+ e) = Some (f +:+ e)) as ->.
  { apply number_integer_iff. exists i. split_and!; [done..|]. intros _. by apply fraction_undigited. }
  cbn [mbind option_bind]. rewrite fraction_accepted by done. by apply exponent_accepted.
Qed.

Definition primitive (t : string) : Prop := t ∈ ["true"; "false"; "null"] \/ number_token t.

Lemma is_json_primitive_iff t : is_json_primitive t = true <-> primitive t.
Proof.
  unfold is_json_primitive, primitive. rewrite orb_true_iff, is_json_number_iff.
  assert (existsb (String.eqb t) ["true"; "false"; "null"] = true <-> t ∈ ["true"; "false"; "null"]) as ->;
    [|done].
  rewrite existsb_exists. setoid_rewrite String.eqb_eq. setoid_rewrite list_elem_of_In. naive_solver.
Qed.

(** A primitive ends at white space, a comma, a closing bracket or the end. *)
Definition delimited (s : string) : Prop := match head s with Some c => is_delimiter c = true | None => True end.

Definition is_primitive_char (c : ascii) : bool :=
  is_ascii_digit c || existsb (Ascii.eqb c) ["-"; "+"; "."; "e"; "E"]%char.

Lemma digits_chars d : digits d -> bytes_all is_primitive_char d = true.
Proof. apply bytes_all_impl. intros c H. unfold is_primitive_char. by rewrite H. Qed.

Lemma number_chars t : number_token t -> bytes_all is_primitive_char t = true.
Proof.
  intros (sign & i & f & e & -> & Hs & Hi & Hf & He). rewrite !bytes_all_append, !andb_true_iff. split_and!.
  - apply elem_of_cons in Hs as [->|Hs]; [done|]. by apply list_elem_of_singleton in Hs as ->.
  - destruct Hi as [|c d Hc _ Hd]; [done|]. cbn. rewrite digits_chars by done.
    unfold is_primitive_char. by rewrite Hc.
  - destruct Hf as [|d Hd _]; [done|]. cbn. by rewrite digits_chars.
  - destruct He as [|e sign' d He Hsign Hd _]; [done|]. cbn. rewrite bytes_all_append, (digits_chars d) by done.
    rewrite andb_true_r. apply andb_true_iff. split; [by destruct He as [->| ->]|].
    apply elem_of_cons in Hsign as [->|Hsign]; [done|]. apply elem_of_cons in Hsign as [->|Hsign]; [done|].
    by apply list_elem_of_singleton in Hsign as ->.
Qed.

Lemma number_nonempty t : number_token t -> t <> "".
Proof.
  intros (sign & i & f & e & -> & _ & Hi & _) E. apply (f_equal String.length) in E.
  rewrite !length_append in E. destruct Hi; cbn in E; lia.
Qed.

Lemma primitive_chars t :
  primitive t -> bytes_all (fun c => negb (is_delimiter c)) t = true /\
  exists c r, t = String c r /\ c <> dquote /\ c <> "{"%char /\ c <> "["%char.
Proof.
  intros [Ht|Ht].
  - apply elem_of_cons in Ht as [->|Ht]; [by eauto 10|]. apply elem_of_cons in Ht as [->|Ht]; [by eauto 10|].
    apply list_elem_of_singleton in Ht as ->. by eauto 10.
  - pose proof (number_chars t Ht) as Hc. split.
    + eapply bytes_all_impl; [|exact Hc]. apply ascii_impl. vm_compute. reflexivity.
    + pose proof (number_nonempty t Ht). destruct t as [|c r]; [done|]. exists c, r. cbn in Hc.
      apply andb_true_iff in Hc as [Hc _]. split_and!; [done|..]; intros ->; done.
Qed.

Lemma skip_primitive_append t rest :
  bytes_all (fun c => negb (is_delimiter c)) t = true -> delimited rest -> skip_primitive (t +:+ rest) = rest.
Proof.
  intros Ht Hr. induction t as [|c t IH].
  - rewrite append_nil_l. destruct rest as [|c r]; [done|]. cbn in Hr |- *. by rewrite Hr.
  - cbn in Ht. apply andb_true_iff in Ht as [Hc Ht]. rewrite append_cons. cbn. apply negb_true_iff in Hc.
    rewrite Hc. by apply IH.
Qed.

Lemma skip_primitive_spec s : exists t, s = t +:+ skip_primitive s /\ delimited (skip_primitive s).
Proof.
  induction s as [|c s IH]; [by exists ""|]. cbn [skip_primitive]. destruct (is_delimiter c) eqn:E.
  - exists "". by cbn.
  - destruct IH as (t & Hs & Hd). exists (String c t). by rewrite append_cons, <- Hs.
Qed.

Lemma substring_prefix t r : String.substring 0 (String.length t) (t +:+ r) = t.
Proof. induction t as [|c t IH]; [by destruct r|]. rewrite append_cons. cbn. by rewrite IH. Qed.

Lemma slice_append t r : slice (t +:+ r) r = t.
Proof.
  unfold slice. rewrite length_append. replace (_ + _ - _) with (String.length t) by lia. apply substring_prefix.
Qed.

Lemma primitive_token_end_iff s rest :
  primitive_token_end s = Ok rest <-> exists t, primitive t /\ s = t +:+ rest /\ delimited rest.
Proof.
  unfold primitive_token_end. cbv zeta. split.
  - destruct (skip_primitive_spec s) as (t & Hs & Hd). rewrite Hs at 1. rewrite slice_append.
    intros [Hp E]%reject_Ok. injection E as <-. apply negb_false_iff, is_json_primitive_iff in Hp.
    by exists t.
  - intros (t & Ht & -> & Hd). destruct (primitive_chars t Ht) as [Hc _].
    rewrite skip_primitive_append, slice_append by done.
    by rewrite (proj2 (is_json_primitive_iff t)).
Qed.

(** ** Values *)

(** [json_value n t]: the token [t] is a value with at most [n] levels of
    objects and arrays.  [members] and [elements] run to the closing bracket. *)
Inductive json_value : nat -> string -> Prop :=
| value_string n t : string_token t -> json_value n t
| value_primitive n t : primitive t -> json_value n t
| value_empty_object n w : blank w -> json_value (S n) (String "{" (w +:+ "}"))
| value_object n w ms : blank w -> members n ms -> json_value (S n) (String "{" (w +:+ ms))
| value_empty_array n w : blank w -> json_value (S n) (String "[" (w +:+ "]"))
| value_array n w es : blank w -> elements n es -> json_value (S n) (String "[" (w +:+ es))
with members : nat -> string -> Prop :=
| members_last n k w1 w2 v w3 :
    string_token k -> blank w1 -> blank w2 -> json_value n v -> blank w3 ->
    members n (k +:+ w1 +:+ String ":" (w2 +:+ v +:+ w3 +:+ "}"))
| members_more n k w1 w2 v w3 w4 ms :
    string_token k -> blank w1 -> blank w2 -> json_value n v -> blank w3 -> blank w4 -> members n ms ->
    members n (k +:+ w1 +:+ String ":" (w2 +:+ v +:+ w3 +:+ String "," (w4 +:+ ms)))
with elements : nat -> string -> Prop :=
| elements_last n v w : json_value n v -> blank w -> elements n (v +:+ w +:+ "]")
| elements_more n v w1 w2 es :
    json_value n v -> blank w1 -> blank w2 -> elements n es ->
    elements n (v +:+ w1 +:+ String "," (w2 +:+ es)).

Scheme value_mut := Minimality for json_value Sort Prop
  with members_mut := Minimality for members Sort Prop
  with elements_mut := Minimality for elements Sort Prop.
Combined Scheme json_mutind from value_mut, members_mut, elements_mut.

(** Where a value token stands, the scanner can tell its end. *)
Definition ends_before (t rest : string) : Prop := primitive t -> delimited rest.

(** *** Soundness *)

Definition nesting_left (depth : N) : nat := N.to_nat (MAX_JSON_NESTING_DEPTH - depth).

Lemma next_depth_Ok depth d :
  next_json_nesting_depth depth = Ok d -> d = (depth + 1)%N /\ nesting_left depth = S (nesting_left d).
Proof.
  unfold next_json_nesting_depth, nesting_left. intros H.
  destruct (checked_add usize_max depth 1) as [n|] eqn:E; [|done]. apply checked_add_Some in E as [-> _].
  apply reject_Ok in H as [Hb H]. injection H as <-. apply N.ltb_ge in Hb. split; [done|].
  unfold MAX_JSON_NESTING_DEPTH in *. lia.
Qed.

Lemma next_depth_total depth n :
  nesting_left depth = S n -> next_json_nesting_depth depth = Ok (depth + 1)%N.
Proof.
  unfold nesting_left, next_json_nesting_depth, MAX_JSON_NESTING_DEPTH. intros H.
  rewrite (proj2 (checked_add_Some usize_max depth 1 (depth + 1)%N)).
  - cbn [ok_or]. by rewrite (proj2 (N.ltb_ge _ _)) by lia.
  - split; [done|]. unfold usize_max, u64_max. lia.
Qed.

(** White space before a text that starts as stated. *)
Ltac spaces s w :=
  let Hw := fresh "H" w in let Hs := fresh "Hs" in
  destruct (skip_whitespace_spec s) as (w & Hw & Hs & _).

Definition value_sound (fuel : nat) : Prop := forall depth s rest,
  value_end fuel depth s = Ok rest ->
  exists t, json_value (nesting_left depth) t /\ s = t +:+ rest /\ ends_before t rest.
Definition fields_sound (fuel : nat) : Prop := forall depth s rest,
  fields_end fuel depth s = Ok rest -> exists ms, members (nesting_left depth) ms /\ s = ms +:+ rest.
Definition elements_sound (fuel : nat) : Prop := forall depth s rest,
  elements_end fuel depth s = Ok rest -> exists es, elements (nesting_left depth) es /\ s = es +:+ rest.

Lemma bracket_not_primitive c r : (c = dquote \/ c = "{"%char \/ c = "["%char) -> ~ primitive (String c r).
Proof. intros Hc H%primitive_chars. destruct H as (_ & c' & r' & [= <- _] & H1 & H2 & H3). naive_solver. Qed.

Lemma value_sound_step fuel : fields_sound fuel -> elements_sound fuel -> value_sound (S fuel).
Proof.
  intros IHf IHe depth s rest H. cbn [value_end] in H. destruct s as [|c s]; [done|]. cbn [head] in H.
  destruct (Ascii.eqb_spec c dquote) as [->|Hq].
  { apply json_string_token_end_iff in H as (t & Ht & E). exists t. split_and!; [by constructor|done|].
    destruct Ht as (b & _ & ->). intros Hp. exfalso. revert Hp. apply bracket_not_primitive. auto. }
  destruct (Ascii.eqb_spec c "{") as [->|Hb].
  { destruct (next_json_nesting_depth depth) as [d|] eqn:Ed; [|done]. apply next_depth_Ok in Ed as [-> Hn].
    cbn [tail] in H. spaces s w. rewrite Hn. destruct (head_is "}" _) eqn:E.
    - apply head_is_true in E. injection H as <-. exists (String "{" (w +:+ "}")).
      split_and!; [by constructor| |intros Hp; exfalso; revert Hp; apply bracket_not_primitive; auto].
      rewrite append_cons, <- append_assoc. f_equal. rewrite Hs at 1. by rewrite E at 1.
    - apply IHf in H as (ms & Hms & E'). exists (String "{" (w +:+ ms)).
      split_and!; [by constructor| |intros Hp; exfalso; revert Hp; apply bracket_not_primitive; auto].
      rewrite append_cons, <- append_assoc, <- E'. by rewrite <- Hs. }
  destruct (Ascii.eqb_spec c "[") as [->|Hb'].
  { destruct (next_json_nesting_depth depth) as [d|] eqn:Ed; [|done]. apply next_depth_Ok in Ed as [-> Hn].
    cbn [tail] in H. spaces s w. rewrite Hn. destruct (head_is "]" _) eqn:E.
    - apply head_is_true in E. injection H as <-. exists (String "[" (w +:+ "]")).
      split_and!; [by constructor| |intros Hp; exfalso; revert Hp; apply bracket_not_primitive; auto].
      rewrite append_cons, <- append_assoc. f_equal. rewrite Hs at 1. by rewrite E at 1.
    - apply IHe in H as (es & Hes & E'). exists (String "[" (w +:+ es)).
      split_and!; [by constructor| |intros Hp; exfalso; revert Hp; apply bracket_not_primitive; auto].
      rewrite append_cons, <- append_assoc, <- E'. by rewrite <- Hs. }
  apply primitive_token_end_iff in H as (t & Ht & E & Hd). exists t. split_and!; [by apply value_primitive|done|by intros _].
Qed.

(** What follows a value in an object or an array. *)
Lemma separated_sound e1 e2 (close : ascii) s k rest :
  (if head_is "," (skip_json_whitespace s) then
     if head_is close (skip_json_whitespace (tail (skip_json_whitespace s))) then Err e1
     else k (skip_json_whitespace (tail (skip_json_whitespace s)))
   else if head_is close (skip_json_whitespace s) then Ok (tail (skip_json_whitespace s))
   else Err e2) = @Ok EvaError _ rest ->
  (exists w1 w2 s', blank w1 /\ blank w2 /\ s = w1 +:+ String "," (w2 +:+ s') /\ k s' = Ok rest) \/
  (exists w, blank w /\ s = w +:+ String close rest).
Proof.
  spaces s w1. destruct (head_is "," _) eqn:Ec.
  - apply head_is_true in Ec. set (s1 := tail (skip_json_whitespace s)) in *.
    spaces s1 w2. destruct (head_is close _); [done|]. intros Hk. left.
    exists w1, w2, (skip_json_whitespace s1). split_and!; try done. rewrite <- Hs0, <- Ec. done.
  - destruct (head_is close _) eqn:Eb; [|done]. apply head_is_true in Eb. intros [= <-]. right.
    exists w1. split; [done|]. by rewrite <- Eb.
Qed.

Lemma fields_sound_step fuel : value_sound fuel -> fields_sound fuel -> fields_sound (S fuel).
Proof.
  intros IHv IHf depth s rest H. cbn [fields_end] in H. apply reject_Ok in H as [_ H].
  destruct (json_string_token_end s) as [s1|] eqn:Ek; [|done].
  apply json_string_token_end_iff in Ek as (k & Hk & ->). cbv zeta in H.
  apply reject_Ok in H as [Hc H]. apply negb_false_iff, head_is_true in Hc. spaces s1 w1.
  set (s2 := tail (skip_json_whitespace s1)) in *. spaces s2 w2.
  destruct (value_end fuel depth _) as [s3|] eqn:Ev; [|done].
  apply IHv in Ev as (v & Hv & Es & _).
  assert (s1 = w1 +:+ String ":" (w2 +:+ v +:+ s3)) as E1.
  { rewrite Hs, Hc. f_equal. f_equal. by rewrite Hs0, Es at 1. }
  apply separated_sound in H as [(w3 & w4 & s' & Hw3 & Hw4 & E3 & H)|(w3 & Hw3 & E3)].
  - apply IHf in H as (ms & Hms & ->).
    exists (k +:+ w1 +:+ String ":" (w2 +:+ v +:+ w3 +:+ String "," (w4 +:+ ms))).
    split; [by constructor|]. rewrite E1, E3. by append_right.
  - exists (k +:+ w1 +:+ String ":" (w2 +:+ v +:+ w3 +:+ "}")).
    split; [by constructor|]. rewrite E1, E3. by append_right.
Qed.

Lemma elements_sound_step fuel : value_sound fuel -> elements_sound fuel -> elements_sound (S fuel).
Proof.
  intros IHv IHe depth s rest H. cbn [elements_end] in H.
  destruct (value_end fuel depth s) as [s1|] eqn:Ev; [|done]. apply IHv in Ev as (v & Hv & -> & _).
  cbv zeta in H. apply separated_sound in H as [(w1 & w2 & s' & Hw1 & Hw2 & -> & H)|(w & Hw & ->)].
  - apply IHe in H as (es & Hes & ->). exists (v +:+ w1 +:+ String "," (w2 +:+ es)).
    split; [by constructor|]. by append_right.
  - exists (v +:+ w +:+ "]"). split; [by constructor|]. by append_right.
Qed.

Lemma scanner_sound fuel : value_sound fuel /\ fields_sound fuel /\ elements_sound fuel.
Proof.
  induction fuel as [|fuel (IHv & IHf & IHe)]; [done|].
  split_and!; [by apply value_sound_step|by apply fields_sound_step|by apply elements_sound_step].
Qed.

(** *** Completeness *)

(** A value starts with a byte that is neither white space nor a delimiter. *)
Lemma value_start n v : json_value n v -> exists c r, v = String c r /\ is_delimiter c = false.
Proof.
  destruct 1 as [n t (b & _ & ->)|n t Hp|n w _|n w ms _ _|n w _|n w es _ _]; try (by eexists _, _).
  destruct (primitive_chars t Hp) as [Hc (c & r & -> & _)]. exists c, r. split; [done|].
  cbn in Hc. apply andb_true_iff in Hc as [Hc _]. by apply negb_true_iff.
Qed.

Lemma delimiter_false c :
  is_delimiter c = false ->
  is_json_whitespace c = false /\ c <> ","%char /\ c <> "}"%char /\ c <> "]"%char.
Proof.
  unfold is_delimiter. rewrite !orb_false_iff, !Ascii.eqb_neq. intros [[[H ?] ?] ?]. done.
Qed.

Lemma skip_before_value n w v rest : blank w -> json_value n v -> skip_json_whitespace (w +:+ v +:+ rest) = v +:+ rest.
Proof.
  intros Hw (c & r & -> & Hc)%value_start. apply skip_blank; [done|].
  apply delimiter_false in Hc as [Hc _]. exact Hc.
Qed.

Lemma value_not_closing n v rest close :
  json_value n v -> is_delimiter close = true -> head_is close (v +:+ rest) = false.
Proof.
  intros (c & r & -> & Hc)%value_start Hcl. apply head_is_false. cbn. intros [= ->]. congruence.
Qed.

Lemma members_start n ms : members n ms -> exists r, ms = String dquote r.
Proof. destruct 1 as [? ? ? ? ? ? (b & _ & ->)|? ? ? ? ? ? ? ? (b & _ & ->)]; by eexists. Qed.

Lemma elements_start n es : elements n es -> exists c r, es = String c r /\ is_delimiter c = false.
Proof.
  destruct 1 as [? ? ? Hv _|? ? ? ? ? Hv _ _ _]; apply value_start in Hv as (c & r & -> & Hc); by eexists _, _.
Qed.

Lemma skip_before w c r : blank w -> is_json_whitespace c = false -> skip_json_whitespace (w +:+ String c r) = String c r.
Proof. intros Hw Hc. by apply skip_blank. Qed.

Lemma ends_before_blank v w rest c : blank w -> is_delimiter c = true -> ends_before v (w +:+ String c rest).
Proof.
  intros Hw Hc _. destruct w as [|d w]; [exact Hc|]. unfold blank in Hw. cbn in Hw.
  apply andb_true_iff in Hw as [Hd _]. rewrite append_cons. unfold delimited, head, is_delimiter. by rewrite Hd.
Qed.

Definition value_complete (n : nat) (t : string) : Prop := forall depth fuel rest,
  n <= nesting_left depth -> 2 * String.length t < fuel -> ends_before t rest ->
  value_end fuel depth (t +:+ rest) = Ok rest.
Definition members_complete (n : nat) (ms : string) : Prop := forall depth fuel rest,
  n <= nesting_left depth -> 2 * String.length ms < fuel -> fields_end fuel depth (ms +:+ rest) = Ok rest.
Definition elements_complete (n : nat) (es : string) : Prop := forall depth fuel rest,
  n <= nesting_left depth -> 2 * String.length es + 1 < fuel -> elements_end fuel depth (es +:+ rest) = Ok rest.

Lemma next_depth_room depth n :
  S n <= nesting_left depth ->
  next_json_nesting_depth depth = Ok (depth + 1)%N /\ n <= nesting_left (depth + 1).
Proof.
  intros H. assert (exists m, nesting_left depth = S m /\ n <= m) as (m & Hm & Hle).
  { destruct (nesting_left depth) as [|m]; [lia|]. exists m. lia. }
  pose proof (next_depth_total depth m Hm) as E. split; [done|]. apply next_depth_Ok in E as [_ E]. lia.
Qed.

Lemma head_is_cons c d s : head_is c (String d s) = Ascii.eqb d c.
Proof.
  unfold head_is. cbn. destruct (Ascii.eqb_spec d c) as [->|Hne]; [by rewrite bool_decide_eq_true_2|].
  apply bool_decide_eq_false_2. by intros [= ->].
Qed.

(** The scanner after a value, before the end or another item. *)
Lemma field_step k w1 w2 v n depth fuel tail_text :
  string_token k -> blank w1 -> blank w2 -> json_value n v ->
  ends_before v tail_text -> value_complete n v -> n <= nesting_left depth -> 2 * String.length v < fuel ->
  fields_end (S fuel) depth (k +:+ w1 +:+ String ":" (w2 +:+ v +:+ tail_text))
  = (let s := skip_json_whitespace tail_text in
     if head_is "," s then
       let s := skip_json_whitespace (tail s) in
       reject head_is "}" s with
         protocol_error "MCP JSON-RPC nested object contains a trailing comma" else
       fields_end fuel depth s
     else if head_is "}" s then Ok (tail s)
     else Err (protocol_error "MCP JSON-RPC nested object fields are not comma-separated")).
Proof.
  intros Hk Hw1 Hw2 Hv He Hc Hn Hf. cbn [fields_end].
  assert (head_is dquote (k +:+ w1 +:+ String ":" (w2 +:+ v +:+ tail_text)) = true) as ->.
  { destruct Hk as (b & _ & ->). rewrite quote_append. by rewrite head_is_cons. }
  rewrite (proj2 (json_string_token_end_iff _ (w1 +:+ String ":" (w2 +:+ v +:+ tail_text)))) by (by exists k).
  cbn [negb]. rewrite skip_before by done. rewrite head_is_cons. cbn [tail].
  change (Ascii.eqb ":" ":") with true. cbn [negb]. rewrite (skip_before_value n) by done.
  by rewrite Hc.
Qed.

Lemma elements_step v n depth fuel tail_text :
  ends_before v tail_text -> value_complete n v -> n <= nesting_left depth -> 2 * String.length v < fuel ->
  elements_end (S fuel) depth (v +:+ tail_text)
  = (let s := skip_json_whitespace tail_text in
     if head_is "," s then
       let s := skip_json_whitespace (tail s) in
       reject head_is "]" s with
         protocol_error "MCP JSON-RPC array contains a trailing comma" else
       elements_end fuel depth s
     else if head_is "]" s then Ok (tail s)
     else Err (protocol_error "MCP JSON-RPC array values are not comma-separated")).
Proof. intros He Hc Hn Hf. cbn [elements_end]. by rewrite Hc. Qed.

Lemma string_token_complete n t : string_token t -> value_complete n t.
Proof.
  intros Ht depth fuel rest _ Hf _. destruct fuel as [|fuel]; [lia|]. cbn [value_end].
  destruct Ht as (b & Hb & ->). rewrite quote_append. cbn [head]. rewrite Ascii.eqb_refl.
  rewrite <- quote_append. apply json_string_token_end_iff. exists (quote b). split; [by exists b|done].
Qed.

Lemma primitive_complete n t : primitive t -> value_complete n t.
Proof.
  intros Ht depth fuel rest _ Hf He. destruct fuel as [|fuel]; [lia|]. cbn [value_end].
  destruct (primitive_chars t Ht) as [_ (c & r & -> & Hq & Hb & Hb')].
  rewrite append_cons. cbn [head]. apply Ascii.eqb_neq in Hq, Hb, Hb'. rewrite Hq, Hb, Hb'.
  rewrite <- append_cons. apply primitive_token_end_iff. exists (String c r). split_and!; [done..|by apply He].
Qed.

Lemma empty_complete n (open close : ascii) w :
  (open = "{"%char /\ close = "}"%char) \/ (open = "["%char /\ close = "]"%char) -> blank w ->
  value_complete (S n) (String open (w +:+ str close)).
Proof.
  intros Hoc Hw depth fuel rest Hn Hf _. destruct fuel as [|fuel]; [lia|].
  destruct (next_depth_room depth n Hn) as [Ed _].
  replace (String open (w +:+ str close) +:+ rest) with (String open (w +:+ String close rest)) by (by append_right).
  cbn [value_end head tail]. rewrite Ed, skip_before by (done || by destruct Hoc as [[_ ->]|[_ ->]]).
  by destruct Hoc as [[-> ->]|[-> ->]].
Qed.

Lemma object_complete n w ms : blank w -> members n ms -> members_complete n ms ->
  value_complete (S n) (String "{" (w +:+ ms)).
Proof.
  intros Hw Hms IH depth fuel rest Hn Hf _. destruct fuel as [|fuel]; [lia|].
  destruct (next_depth_room depth n Hn) as [Ed Hn'].
  apply members_start in Hms as [r Er]. cbn [String.length] in Hf. rewrite length_append in Hf.
  replace (String "{" (w +:+ ms) +:+ rest) with (String "{" (w +:+ ms +:+ rest)) by (by append_right).
  cbn [value_end head tail]. change (Ascii.eqb "{" dquote) with false. change (Ascii.eqb "{" "{") with true.
  rewrite Ed. rewrite skip_blank; [|done|by rewrite Er]. rewrite Er at 1. rewrite append_cons, head_is_cons.
  change (Ascii.eqb dquote "}") with false. apply IH; [done|lia].
Qed.

Lemma array_complete n w es : blank w -> elements n es -> elements_complete n es ->
  value_complete (S n) (String "[" (w +:+ es)).
Proof.
  intros Hw Hes IH depth fuel rest Hn Hf _. destruct fuel as [|fuel]; [lia|].
  destruct (next_depth_room depth n Hn) as [Ed Hn'].
  apply elements_start in Hes as (c & r & Er & Hc). apply delimiter_false in Hc as (Hc & _ & _ & Hc').
  cbn [String.length] in Hf. rewrite length_append in Hf.
  replace (String "[" (w +:+ es) +:+ rest) with (String "[" (w +:+ es +:+ rest)) by (by append_right).
  cbn [value_end head tail]. change (Ascii.eqb "[" dquote) with false. change (Ascii.eqb "[" "{") with false.
  change (Ascii.eqb "[" "[") with true.
  rewrite Ed. rewrite skip_blank; [|done|by rewrite Er]. rewrite Er at 1. rewrite append_cons, head_is_cons.
  apply Ascii.eqb_neq in Hc' as ->. apply IH; [done|lia].
Qed.

Lemma members_last_complete n k w1 w2 v w3 :
  string_token k -> blank w1 -> blank w2 -> json_value n v -> value_complete n v -> blank w3 ->
  members_complete n (k +:+ w1 +:+ String ":" (w2 +:+ v +:+ w3 +:+ "}")).
Proof.
  intros Hk Hw1 Hw2 Hv IH Hw3 depth fuel rest Hn Hf. destruct fuel as [|fuel]; [lia|].
  rewrite !length_append in Hf. cbn [String.length] in Hf. rewrite !length_append in Hf.
  replace ((k +:+ w1 +:+ String ":" (w2 +:+ v +:+ w3 +:+ "}")) +:+ rest)
    with (k +:+ w1 +:+ String ":" (w2 +:+ v +:+ w3 +:+ String "}" rest)) by (by append_right).
  rewrite (field_step k w1 w2 v n) by (done || lia || by apply ends_before_blank).
  cbv zeta. rewrite skip_before by done. by rewrite !head_is_cons.
Qed.

Lemma members_more_complete n k w1 w2 v w3 w4 ms :
  string_token k -> blank w1 -> blank w2 -> json_value n v -> value_complete n v -> blank w3 -> blank w4 ->
  members n ms -> members_complete n ms ->
  members_complete n (k +:+ w1 +:+ String ":" (w2 +:+ v +:+ w3 +:+ String "," (w4 +:+ ms))).
Proof.
  intros Hk Hw1 Hw2 Hv IH Hw3 Hw4 Hms IHms depth fuel rest Hn Hf. destruct fuel as [|fuel]; [lia|].
  rewrite !length_append in Hf. cbn [String.length] in Hf. rewrite !length_append in Hf.
  cbn [String.length] in Hf. rewrite !length_append in Hf.
  replace ((k +:+ w1 +:+ String ":" (w2 +:+ v +:+ w3 +:+ String "," (w4 +:+ ms))) +:+ rest)
    with (k +:+ w1 +:+ String ":" (w2 +:+ v +:+ w3 +:+ String "," (w4 +:+ ms +:+ rest))) by (by append_right).
  rewrite (field_step k w1 w2 v n) by (done || lia || by apply ends_before_blank).
  apply members_start in Hms as [r Er].
  cbv zeta. rewrite skip_before by done. rewrite head_is_cons. cbn [tail].
  change (Ascii.eqb "," ",") with true. rewrite skip_blank; [|done|by rewrite Er].
  rewrite Er at 1. rewrite append_cons, head_is_cons. change (Ascii.eqb dquote "}") with false.
  apply IHms; [done|lia].
Qed.

Lemma elements_last_complete n v w :
  json_value n v -> value_complete n v -> blank w -> elements_complete n (v +:+ w +:+ "]").
Proof.
  intros Hv IH Hw depth fuel rest Hn Hf. destruct fuel as [|fuel]; [lia|]. rewrite !length_append in Hf.
  replace ((v +:+ w +:+ "]") +:+ rest) with (v +:+ w +:+ String "]" rest) by (by append_right).
  cbn [String.length] in Hf. rewrite (elements_step v n) by (done || lia || by apply ends_before_blank).
  cbv zeta. rewrite skip_before by done. by rewrite !head_is_cons.
Qed.

Lemma elements_more_complete n v w1 w2 es :
  json_value n v -> value_complete n v -> blank w1 -> blank w2 -> elements n es -> elements_complete n es ->
  elements_complete n (v +:+ w1 +:+ String "," (w2 +:+ es)).
Proof.
  intros Hv IH Hw1 Hw2 Hes IHes depth fuel rest Hn Hf. destruct fuel as [|fuel]; [lia|].
  rewrite !length_append in Hf. cbn [String.length] in Hf. rewrite !length_append in Hf.
  replace ((v +:+ w1 +:+ String "," (w2 +:+ es)) +:+ rest)
    with (v +:+ w1 +:+ String "," (w2 +:+ es +:+ rest)) by (by append_right).
  rewrite (elements_step v n) by (done || lia || by apply ends_before_blank).
  apply elements_start in Hes as (c & r & Er & Hc). apply delimiter_false in Hc as (Hc & _ & _ & Hc').
  cbv zeta. rewrite skip_before by done. rewrite head_is_cons. cbn [tail].
  change (Ascii.eqb "," ",") with true. rewrite skip_blank; [|done|by rewrite Er].
  rewrite Er at 1. rewrite append_cons, head_is_cons. apply Ascii.eqb_neq in Hc' as ->.
  apply IHes; [done|lia].
Qed.

Lemma scanner_complete :
  (forall n t, json_value n t -> value_complete n t) /\
  (forall n ms, members n ms -> members_complete n ms) /\
  (forall n es, elements n es -> elements_complete n es).
Proof.
  apply json_mutind; intros.
  - by apply string_token_complete.
  - by apply primitive_complete.
  - apply (empty_complete n "{" "}"); auto.
  - by apply object_complete.
  - apply (empty_complete n "[" "]"); auto.
  - by apply array_complete.
  - by apply members_last_complete.
  - by apply members_more_complete.
  - by apply elements_last_complete.
  - by apply elements_more_complete.
Qed.

(** C24: the scanner recognises JSON: from any position and at any depth,
    [json_value_token_end_at_depth] succeeds exactly when the text there starts
    with a value of the RFC 8259 grammar nested at most to the limit, a number
    or literal being followed by a delimiter or the end, and it returns the
    text right after that value. *)
Theorem json_scanner_correct s depth rest :
  json_value_token_end_at_depth s depth = Ok rest <->
  exists t, json_value (nesting_left depth) t /\ s = t +:+ rest /\ (primitive t -> delimited rest).
Proof.
  split.
  - apply scanner_sound.
  - intros (t & Ht & -> & He). apply scanner_complete with (nesting_left depth); [done..| |done].
    unfold json_fuel. rewrite length_append. lia.
Qed.

(** ** Failures *)

(** The scanner's own failures: the peer broke the protocol, do not retry. *)
Definition protocol_failure (e : EvaError) : Prop :=
  err_kind e = Unavailable /\ err_retryable e = false /\ err_provider_code e = Some "mcp_protocol_error".
Definition fails_by_protocol {A} (r : Res A) : Prop := forall e, r = Err e -> protocol_failure e.

Lemma fails_Ok {A} (a : A) : fails_by_protocol (Ok a).
Proof. done. Qed.
Lemma fails_protocol {A} message : fails_by_protocol (Err (protocol_error message) : Res A).
Proof. intros e [= <-]. done. Qed.
Lemma fails_bind {A B} (r : Res A) (k : A -> Res B) :
  fails_by_protocol r -> (forall a, r = Ok a -> fails_by_protocol (k a)) ->
  fails_by_protocol (let? a := r in k a).
Proof. intros Hr Hk. destruct r as [a|e]; [by apply Hk|]. intros e' [= <-]. by apply Hr. Qed.
Lemma fails_if {A} (b : bool) (r1 r2 : Res A) :
  fails_by_protocol r1 -> fails_by_protocol r2 -> fails_by_protocol (if b then r1 else r2).
Proof. by destruct b. Qed.
#[export] Hint Resolve fails_Ok fails_protocol fails_bind fails_if : eva.

Lemma string_body_end_fails s : fails_by_protocol (string_body_end s).
Proof.
  remember (String.length s) as n eqn:Hn. assert (String.length s <= n) as Hle by lia. clear Hn.
  revert s Hle. induction n as [|n IH]; intros s Hle; destruct s as [|c s]; cbn [String.length] in Hle;
    try lia; try apply fails_protocol.
  cbn [string_body_end]. repeat apply fails_if; try (by eauto with eva).
  - destruct s as [|e s]; [by eauto with eva|]. cbn [String.length] in Hle.
    apply fails_if; [apply IH; lia|]. apply fails_if; [|by eauto with eva].
    destruct s as [|h1 [|h2 [|h3 [|h4 s]]]]; try (by eauto with eva). cbn [String.length] in Hle.
    apply fails_if; [apply IH; lia|by eauto with eva].
  - apply IH. lia.
Qed.

Lemma json_string_token_end_fails s : fails_by_protocol (json_string_token_end s).
Proof. apply fails_if; [apply string_body_end_fails|apply fails_protocol]. Qed.

Lemma next_depth_fails depth : fails_by_protocol (next_json_nesting_depth depth).
Proof.
  unfold next_json_nesting_depth. destruct (checked_add _ _ _); cbn [ok_or]; [|apply fails_protocol].
  by apply fails_if; eauto with eva.
Qed.

Lemma skip_whitespace_length s : String.length (skip_json_whitespace s) <= String.length s.
Proof. induction s as [|c s IH]; [done|]. cbn. case_match; cbn; lia. Qed.
Lemma tail_length s : String.length (tail s) <= String.length s - 1.
Proof. destruct s; cbn; lia. Qed.

Lemma value_end_shorter fuel depth s rest : value_end fuel depth s = Ok rest -> String.length rest < String.length s.
Proof.
  intros (t & Ht & -> & _)%scanner_sound. rewrite length_append.
  apply value_start in Ht as (c & r & -> & _). cbn. lia.
Qed.

Lemma string_end_shorter s rest : json_string_token_end s = Ok rest -> String.length rest + 2 <= String.length s.
Proof.
  intros (t & (b & _ & ->) & ->)%json_string_token_end_iff. rewrite quote_append. cbn.
  rewrite length_append. cbn. lia.
Qed.

(** The part after a value, as long as [k] fails by protocol on shorter texts. *)
Lemma separated_fails m1 m2 (close : ascii) s (k : string -> Res string) :
  (forall s', String.length s' < String.length s -> fails_by_protocol (k s')) ->
  fails_by_protocol
    (let s := skip_json_whitespace s in
     if head_is "," s then
       let s := skip_json_whitespace (tail s) in
       reject head_is close s with protocol_error m1 else k s
     else if head_is close s then Ok (tail s) else Err (protocol_error m2)).
Proof.
  intros Hk. cbv zeta. destruct (head_is "," _) eqn:E; [|by eauto with eva].
  apply fails_if; [apply fails_protocol|]. apply Hk. apply head_is_true in E.
  pose proof (skip_whitespace_length s) as H1. rewrite E in H1. cbn in H1.
  pose proof (skip_whitespace_length (tail (skip_json_whitespace s))). lia.
Qed.

Lemma scanner_fails fuel : forall depth s,
  (2 * String.length s < fuel -> fails_by_protocol (value_end fuel depth s)) /\
  (2 * String.length s < fuel -> fails_by_protocol (fields_end fuel depth s)) /\
  (2 * String.length s + 1 < fuel -> fails_by_protocol (elements_end fuel depth s)).
Proof.
  induction fuel as [|fuel IH]; intros depth s; [split_and!; lia|].
  pose proof (skip_whitespace_length (tail s)) as Hsk. pose proof (tail_length s) as Htl. split_and!; intros Hf.
  - cbn [value_end]. destruct s as [|c s]; cbn [head]; [apply fails_protocol|]. cbn [String.length tail] in *.
    apply fails_if; [apply json_string_token_end_fails|apply fails_if; [|apply fails_if]].
    + apply fails_bind; [apply next_depth_fails|]. intros d _. apply fails_if; [done|]. apply IH. lia.
    + apply fails_bind; [apply next_depth_fails|]. intros d _. apply fails_if; [done|]. apply IH. lia.
    + unfold primitive_token_end. by apply fails_if; eauto with eva.
  - cbn [fields_end]. apply fails_if; [apply fails_protocol|].
    apply fails_bind; [apply json_string_token_end_fails|]. intros s1 E1%string_end_shorter. cbv zeta.
    apply fails_if; [apply fails_protocol|].
    pose proof (skip_whitespace_length s1). pose proof (tail_length (skip_json_whitespace s1)).
    pose proof (skip_whitespace_length (tail (skip_json_whitespace s1))).
    apply fails_bind; [apply IH; lia|]. intros s2 E2%value_end_shorter.
    apply separated_fails. intros s' Hs'. apply IH. lia.
  - cbn [elements_end]. apply fails_bind; [apply IH; lia|]. intros s2 E2%value_end_shorter. cbv zeta.
    apply separated_fails. intros s' Hs'. apply IH. lia.
Qed.

Lemma json_value_fails s depth : fails_by_protocol (json_value_token_end_at_depth s depth).
Proof. apply scanner_fails. unfold json_fuel. lia. Qed.
