(* ===== verification/JsonStrings.v ===== *)
(** * JSON string literals (crates/eva-mcp/src/json_rpc.rs)

    [json_string] writes a Rust string as a JSON literal and
    [parse_json_string] reads it back, whatever it contains. *)

From Stdlib Require Import Ascii.
From stdpp Require Import base numbers strings gmap list.
From Stdlib Require Import Ascii Decimal DecimalString DecimalFacts DecimalPos DecimalN.
From S2P Require Import Prelude RustStr Error Json JsonGrammar.

(** ** Characters *)

(** One UTF-8 encoded character. *)
Definition utf8_char (c : string) : Prop := forall s, chars (c +:+ s) = c :: chars s.

Lemma ascii_char a : is_ascii a = true -> utf8_char (str a).
Proof.
  intros Ha s. change (str a +:+ s) with (String a s). cbn [chars].
  assert (utf8_width a = 1) as ->; [|done]. unfold is_ascii, in_range, utf8_width in *.
  apply andb_true_iff in Ha as [_ Ha]. apply N.leb_le in Ha. by rewrite (proj2 (N.ltb_lt _ _)) by lia.
Qed.

Lemma chars_ascii a s : is_ascii a = true -> chars (String a s) = str a :: chars s.
Proof. intros Ha. exact (ascii_char a Ha s). Qed.

Lemma width_at (lo hi : N) (n : nat) a :
  forallb (fun c => implb (in_range lo hi c) (utf8_width c =? n)%nat) (ascii_of_nat <$> seq 0 256) = true ->
  in_range lo hi a = true -> utf8_width a = n.
Proof. intros H Ha. apply Nat.eqb_eq. by apply (ascii_impl (in_range lo hi) (fun c => (utf8_width c =? n)%nat)). Qed.

Lemma char2 a b : in_range 194 223 a = true -> utf8_char (String a (str b)).
Proof.
  intros Ha s. rewrite !append_cons. cbn [chars].
  by rewrite (width_at 194 223 2 a) by (done || vm_compute; reflexivity).
Qed.
Lemma char3 a b c : in_range 224 239 a = true -> utf8_char (String a (String b (str c))).
Proof.
  intros Ha s. rewrite !append_cons. cbn [chars].
  by rewrite (width_at 224 239 3 a) by (done || vm_compute; reflexivity).
Qed.
Lemma char4 a b c d : in_range 240 244 a = true -> utf8_char (String a (String b (String c (str d)))).
Proof.
  intros Ha s. rewrite !append_cons. cbn [chars].
  by rewrite (width_at 240 244 4 a) by (done || vm_compute; reflexivity).
Qed.

(** The characters that need no escape by themselves. *)
Definition wide_char (c : string) : Prop :=
  utf8_char c /\ bytes_all (fun b => (128 <=? byte_of b)%N) c = true /\ 1 < String.length c.

Definition scalar (c : string) : Prop := (exists a, is_ascii a = true /\ c = str a) \/ wide_char c.

Lemma in_range_le lo hi lo' hi' a :
  in_range lo hi a = true -> (lo' <= lo)%N -> (hi <= hi')%N -> in_range lo' hi' a = true.
Proof. unfold in_range. rewrite !andb_true_iff, !N.leb_le. lia. Qed.

Lemma in_range_high lo hi a : in_range lo hi a = true -> (128 <= lo)%N -> (128 <=? byte_of a)%N = true.
Proof. unfold in_range. rewrite !andb_true_iff, !N.leb_le. lia. Qed.

(** A valid string is its characters. *)
Lemma utf8_scalars v : utf8_valid v = true -> Forall scalar (chars v) /\ str_concat (chars v) = v.
Proof.
  remember (String.length v) as n eqn:Hn. assert (String.length v <= n) as Hle by lia. clear Hn.
  revert v Hle. induction n as [|n IH]; intros v Hle Hv; (destruct v as [|a v]; [done|]); cbn [String.length] in Hle; [lia|].
  assert (Hgo : forall c r, scalar c -> utf8_char c -> String.length r <= n -> utf8_valid r = true ->
    String a v = c +:+ r -> Forall scalar (chars (String a v)) /\ str_concat (chars (String a v)) = String a v).
  { intros c r Hc Hu Hl Hr ->. rewrite Hu. destruct (IH r Hl Hr) as [HF E]. split; [by constructor|].
    cbn. fold (str_concat (chars r)). by rewrite E. }
  cbn [utf8_valid] in Hv. destruct (in_range 0 127 a) eqn:Ea.
  { apply (Hgo (str a) v); [left; by exists a|by apply ascii_char|lia|done|done]. }
  destruct v as [|b v]; [done|]. destruct (in_range 194 223 a) eqn:E2.
  { apply andb_true_iff in Hv as [Hb Hv]. pose proof (char2 a b E2) as Hu.
    apply (Hgo (String a (str b)) v); [|done|cbn in Hle; lia|done|done].
    right. split_and!; [done| |cbn; lia]. cbn. by rewrite (in_range_high _ _ _ E2), (in_range_high _ _ _ Hb). }
  destruct v as [|c v]; [done|].
  assert (H3 : in_range 224 239 a = true -> in_range 128 191 b = true -> in_range 128 191 c = true ->
    utf8_valid v = true -> Forall scalar (chars (String a (String b (String c v)))) /\
      str_concat (chars (String a (String b (String c v)))) = String a (String b (String c v))).
  { intros E3 Hb Hc Hr. pose proof (char3 a b c E3) as Hu.
    apply (Hgo (String a (String b (str c))) v); [|done|cbn in Hle; lia|done|done].
    right. split_and!; [done| |cbn; lia]. cbn.
    by rewrite (in_range_high _ _ _ E3), (in_range_high _ _ _ Hb), (in_range_high _ _ _ Hc). }
  destruct (in_range 224 224 a) eqn:E3.
  { apply andb_true_iff in Hv as [[Hb Hc]%andb_true_iff Hr].
    apply H3; [by eapply in_range_le|by eapply in_range_le|done..]. }
  destruct (in_range 237 237 a) eqn:E4.
  { apply andb_true_iff in Hv as [[Hb Hc]%andb_true_iff Hr].
    apply H3; [by eapply in_range_le|by eapply in_range_le|done..]. }
  destruct (in_range 225 239 a) eqn:E5.
  { apply andb_true_iff in Hv as [[Hb Hc]%andb_true_iff Hr].
    apply H3; [by eapply in_range_le|by eapply in_range_le|done..]. }
  destruct v as [|d v]; [done|]. apply andb_true_iff in Hv as [[[Hab Hc]%andb_true_iff Hd]%andb_true_iff Hr].
  assert (in_range 240 244 a = true /\ in_range 128 191 b = true) as [E6 Hb].
  { apply orb_true_iff in Hab as [[[H1 H2]%andb_true_iff|[H1 H2]%andb_true_iff]%orb_true_iff|[H1 H2]%andb_true_iff];
      (split; [by eapply in_range_le|by eapply in_range_le]). }
  pose proof (char4 a b c d E6) as Hu.
  apply (Hgo (String a (String b (String c (str d)))) v); [|done|cbn in Hle; lia|done|done].
  right. split_and!; [done| |cbn; lia]. cbn.
  by rewrite (in_range_high _ _ _ E6), (in_range_high _ _ _ Hb), (in_range_high _ _ _ Hc), (in_range_high _ _ _ Hd).
Qed.

Lemma utf8_valid_before p c t : is_ascii c = true -> utf8_valid (p +:+ String c t) = true -> utf8_valid p = true.
Proof.
  intros Hc. remember (String.length p) as n eqn:Hn. revert p Hn.
  induction n as [n IH] using lt_wf_ind. intros p -> H. destruct p as [|a p]; [done|].
  assert (IH' : forall r, String.length r < String.length (String a p) ->
    utf8_valid (r +:+ String c t) = true -> utf8_valid r = true) by (intros; by eapply IH). clear IH.
  assert (forall lo hi, (128 <= lo)%N -> in_range lo hi c = false) as Hno.
  { intros lo hi Hlo. unfold is_ascii, in_range in *. apply andb_true_iff in Hc as [_ Hc]. apply N.leb_le in Hc.
    apply andb_false_iff. left. apply N.leb_gt. lia. }
  rewrite append_cons in H. cbn [utf8_valid] in H |- *. destruct (in_range 0 127 a).
  { apply IH'; [cbn; lia|done]. }
  destruct p as [|b p].
  { change ("" +:+ String c t) with (String c t) in H. cbv beta iota in H. rewrite !Hno in H by done.
    destruct t as [|b' [|c' t]], (in_range 194 223 a), (in_range 224 224 a), (in_range 237 237 a), (in_range 225 239 a);
      try done; by rewrite ?andb_false_r in H. }
  rewrite append_cons in H. destruct (in_range 194 223 a). { apply andb_true_iff in H as [-> H]. apply IH'; [cbn; lia|done]. }
  destruct p as [|d p].
  { change ("" +:+ String c t) with (String c t) in H. cbv beta iota in H. rewrite !Hno, ?andb_false_r in H by done.
    destruct t as [|c' t], (in_range 224 224 a), (in_range 237 237 a), (in_range 225 239 a); try done;
      by rewrite ?andb_false_r in H. }
  rewrite append_cons in H. destruct (in_range 224 224 a). { apply andb_true_iff in H as [-> H]. apply IH'; [cbn; lia|done]. }
  destruct (in_range 237 237 a). { apply andb_true_iff in H as [-> H]. apply IH'; [cbn; lia|done]. }
  destruct (in_range 225 239 a). { apply andb_true_iff in H as [-> H]. apply IH'; [cbn; lia|done]. }
  destruct p as [|e p].
  { change ("" +:+ String c t) with (String c t) in H. cbv beta iota in H. by rewrite Hno, !andb_false_r in H. }
  rewrite append_cons in H. apply andb_true_iff in H as [-> H]. apply IH'; [cbn; lia|done].
Qed.

Lemma chars_append p t : utf8_valid p = true -> chars (p +:+ t) = chars p ++ chars t.
Proof.
  intros Hp. destruct (utf8_scalars p Hp) as [Hs Hc]. rewrite <- Hc at 1. clear Hp Hc.
  induction Hs as [|c cs Hcs _ IH]; [done|]. change (str_concat (c :: cs)) with (c +:+ str_concat cs).
  rewrite <- append_assoc. assert (utf8_char c) as ->; [|by rewrite IH].
  destruct Hcs as [(a & Ha & ->)|(Hu & _)]; [by apply ascii_char|done].
Qed.

(** ** Escapes *)

(** [\u00XX] of a code below 160 reads back as its character. *)
Definition unicode_escape_ok (n : N) (c : string) : bool :=
  match hex4 n with
  | String h1 (String h2 (String h3 (String h4 EmptyString))) =>
      is_ascii h1 && is_ascii h2 && is_ascii h3 && is_ascii h4
      && is_ascii_hexdigit h1 && is_ascii_hexdigit h2 && is_ascii_hexdigit h3 && is_ascii_hexdigit h4
      && bool_decide (parse_hex4 [str h1; str h2; str h3; str h4] = Ok n)
      && negb (in_code_range 55296 57343 n) && String.eqb (utf8_encode n) c
  | _ => false
  end.

Lemma unicode_escape_reads n c out rest :
  unicode_escape_ok n c = true ->
  unescape out (chars ((str backslash +:+ "u" +:+ hex4 n) +:+ rest)) = unescape (out +:+ c) (chars rest).
Proof.
  unfold unicode_escape_ok. destruct (hex4 n) as [|h1 [|h2 [|h3 [|h4 [|]]]]]; try done.
  intros H. rewrite !andb_true_iff in H. destruct_and? H.
  match goal with H : bool_decide _ = true |- _ => apply bool_decide_eq_true_1 in H as Hp end.
  match goal with H : String.eqb _ _ = true |- _ => apply String.eqb_eq in H as <- end.
  match goal with H : negb _ = true |- _ => apply negb_true_iff in H as Hr end.
  change ((str backslash +:+ "u" +:+ String h1 (String h2 (String h3 (String h4 "")))) +:+ rest)
    with (String backslash (String "u" (String h1 (String h2 (String h3 (String h4 rest)))))).
  rewrite !chars_ascii by done. cbn [unescape]. change (String.eqb (str backslash) (str dquote)) with false.
  change (String.eqb (str backslash) (str backslash)) with true. change (simple_unescape (str "u")) with (@None string).
  change (String.eqb (str "u") "u") with true. cbv iota beta. rewrite Hp. cbv iota beta.
  assert (in_code_range 55296 56319 n = false /\ in_code_range 56320 57343 n = false) as [-> ->]; [|done].
  unfold in_code_range in *. apply andb_false_iff in Hr. rewrite !andb_false_iff, !N.leb_gt in *. lia.
Qed.

Lemma unicode_escape_body n c b :
  unicode_escape_ok n c = true -> string_body b -> string_body ((str backslash +:+ "u" +:+ hex4 n) +:+ b).
Proof.
  unfold unicode_escape_ok. destruct (hex4 n) as [|h1 [|h2 [|h3 [|h4 [|]]]]]; try done.
  intros H Hb. rewrite !andb_true_iff in H. destruct_and? H. by apply body_unicode.
Qed.

(** What escaping makes of an ASCII character: a two-byte escape, a
    [\u00XX] escape or the character. *)
Definition ascii_escape_ok (a : ascii) : bool :=
  let c := str a in
  match escape_json_char c with
  | String b (String e EmptyString) =>
      Ascii.eqb b backslash && is_simple_escape e && is_ascii e && bool_decide (simple_unescape (str e) = Some c)
  | String d EmptyString =>
      Ascii.eqb d a && negb (Ascii.eqb a dquote) && negb (Ascii.eqb a backslash) && (32 <=? byte_of a)%N
  | _ => String.eqb (escape_json_char c) (str backslash +:+ "u" +:+ hex4 (byte_of a))
         && unicode_escape_ok (byte_of a) c
  end.

Lemma ascii_escapes_ok a : is_ascii a = true -> ascii_escape_ok a = true.
Proof. apply ascii_impl. vm_compute. reflexivity. Qed.

Lemma simple_escape_reads e c out rest :
  is_ascii e = true -> simple_unescape (str e) = Some c ->
  unescape out (chars (String backslash (String e rest))) = unescape (out +:+ c) (chars rest).
Proof. intros He Hs. rewrite !chars_ascii by done. cbn [unescape]. by rewrite Hs. Qed.

(** The escape of a character reads back as it, and is part of a literal. *)
Definition escape_faithful (c : string) : Prop :=
  (forall out rest, unescape out (chars (escape_json_char c +:+ rest)) = unescape (out +:+ c) (chars rest)) /\
  (forall b, string_body b -> string_body (escape_json_char c +:+ b)).

Lemma ascii_escape_faithful a : is_ascii a = true -> escape_faithful (str a).
Proof.
  intros Ha. pose proof (ascii_escapes_ok a Ha) as H. unfold ascii_escape_ok in H. cbv zeta in H. unfold escape_faithful.
  destruct (escape_json_char (str a)) as [|b [|e [|x s]]].
  - apply andb_true_iff in H as [H _]. by apply String.eqb_eq in H.
  - rewrite !andb_true_iff in H. destruct_and? H.
    match goal with H : Ascii.eqb _ _ = true |- _ => apply Ascii.eqb_eq in H as -> end.
    repeat match goal with H : negb _ = true |- _ => apply negb_true_iff, Ascii.eqb_neq in H end.
    match goal with H : (32 <=? _)%N = true |- _ => apply N.leb_le in H end. split.
    + intros out rest. rewrite append_cons, append_nil_l, chars_ascii by done. cbn [unescape].
      rewrite !(proj2 (String.eqb_neq (str a) _)) by (by intros [= ->]). done.
    + intros b Hb. by apply body_plain.
  - rewrite !andb_true_iff in H. destruct_and? H.
    match goal with H : Ascii.eqb _ _ = true |- _ => apply Ascii.eqb_eq in H as -> end.
    match goal with H : bool_decide _ = true |- _ => apply bool_decide_eq_true_1 in H as Hs end. split.
    + intros out rest. by apply simple_escape_reads.
    + intros b Hb. by apply body_escape.
  - apply andb_true_iff in H as [E%String.eqb_eq Hu]. rewrite E. split.
    + intros out rest. by apply unicode_escape_reads.
    + intros b' Hb. by eapply unicode_escape_body.
Qed.

Lemma wide_escape c :
  wide_char c -> escape_json_char c = c \/
  exists n, escape_json_char c = str backslash +:+ "u" +:+ hex4 n /\ unicode_escape_ok n c = true.
Proof.
  intros (Hu & Hb & Hl). unfold escape_json_char.
  rewrite !(proj2 (String.eqb_neq c _)) by (intros ->; cbn in Hl; lia).
  destruct (is_control c) eqn:Ec; [|by left]. right. exists (char_code c). split; [done|].
  destruct c as [|a [|b [|x s]]]; cbn in Hl; try lia.
  - assert (a = "194"%char /\ in_range 128 159 b = true) as [-> Hr].
    { unfold is_control, char_bytes in Ec. cbn in Ec.
      assert (byte_of a = 194%N) as Ea. { destruct (N.eq_dec (byte_of a) 194%N); [done|]. by repeat case_match. }
      rewrite Ea in Ec. split; [|exact Ec]. rewrite <- (ascii_N_embedding a). fold (byte_of a). by rewrite Ea. }
    revert Hr. apply (ascii_impl (in_range 128 159)
      (fun b => unicode_escape_ok (char_code (String "194" (str b))) (String "194" (str b)))).
    vm_compute. reflexivity.
  - unfold is_control, char_bytes in Ec. cbn in Ec. by repeat case_match.
Qed.

Lemma wide_escape_faithful c : wide_char c -> escape_faithful c.
Proof.
  intros Hw. pose proof Hw as (Hu & Hb & Hl). unfold escape_faithful.
  destruct (wide_escape c Hw) as [->|(n & -> & Hn)].
  - split.
    + intros out rest. rewrite Hu. cbn [unescape].
      by rewrite !(proj2 (String.eqb_neq c _)) by (intros ->; cbn in Hl; lia).
    + intros b Hbody. clear Hu Hl Hw. induction c as [|a c IH]; [done|]. rewrite append_cons. cbn in Hb.
      apply andb_true_iff in Hb as [Ha Hb]. apply N.leb_le in Ha.
      apply body_plain; [lia|by intros ->|by intros ->|by apply IH].
  - split; intros; [by apply unicode_escape_reads|by eapply unicode_escape_body].
Qed.

Lemma scalar_escape_faithful c : scalar c -> escape_faithful c.
Proof. intros [(a & Ha & ->)|Hw]; [by apply ascii_escape_faithful|by apply wide_escape_faithful]. Qed.

Lemma escaped_reads cs out rest :
  Forall scalar cs ->
  unescape out (chars (str_concat (escape_json_char <$> cs) +:+ rest)) = unescape (out +:+ str_concat cs) (chars rest).
Proof.
  intros HF. revert out. induction HF as [|c cs Hc _ IH]; intros out.
  - cbn. by rewrite append_nil_r.
  - rewrite fmap_cons. cbn [str_concat foldr]. fold (str_concat (escape_json_char <$> cs)). fold (str_concat cs).
    rewrite <- append_assoc. rewrite (proj1 (scalar_escape_faithful c Hc)), IH. by rewrite append_assoc.
Qed.

Lemma escaped_body cs : Forall scalar cs -> string_body (str_concat (escape_json_char <$> cs)).
Proof. induction 1 as [|c cs Hc _ IH]; [constructor|]. by apply scalar_escape_faithful. Qed.

(** The literal of a string is a JSON string. *)
Lemma json_string_token v : utf8_valid v = true -> string_token (json_string v).
Proof.
  intros Hv. exists (mcp_escape_json v). split; [|done]. apply escaped_body. by apply utf8_scalars.
Qed.

Lemma parse_json_string_literal v rest : utf8_valid v = true -> parse_json_string (json_string v +:+ rest) = Ok v.
Proof.
  intros Hv. destruct (utf8_scalars v Hv) as [HF E]. unfold json_string, parse_json_string.
  change (str dquote +:+ mcp_escape_json v +:+ str dquote) with (quote (mcp_escape_json v)). rewrite quote_append.
  rewrite head_is_cons, Ascii.eqb_refl. cbn [tail]. unfold mcp_escape_json.
  rewrite escaped_reads by done. rewrite append_nil_l, E, chars_ascii by done. done.
Qed.

(** C25: a Rust string survives JSON: whatever valid UTF-8 it holds and
    whatever follows in the text, the scanner finds the end of the literal
    [json_string] wrote, and [parse_json_string] reads the string back. *)
Theorem json_string_roundtrip v rest :
  utf8_valid v = true ->
  json_string_token_end (json_string v +:+ rest) = Ok rest /\
  slice (json_string v +:+ rest) rest = json_string v /\
  parse_json_string (json_string v) = Ok v.
Proof.
  intros Hv. split_and!; [|apply slice_append|].
  - apply json_string_token_end_iff. exists (json_string v). split; [by apply json_string_token|done].
  - rewrite <- (append_nil_r (json_string v)). by apply parse_json_string_literal.
Qed.

Lemma json_string_roundtrip_witness :
  parse_json_string (json_string (str dquote +:+ str nl +:+ str "194" +:+ str "133")) =
  Ok (str dquote +:+ str nl +:+ str "194" +:+ str "133").
Proof. apply (json_string_roundtrip _ ""). vm_compute. reflexivity. Defined.

(** ** Failures *)

Lemma parse_hex4_fails ds : fails_by_protocol (parse_hex4 ds).
Proof. unfold parse_hex4. cbv zeta. destruct (hex_number _ _); [done|]. intros e [= <-]. done. Qed.

Lemma unescape_fails cs : forall out, fails_by_protocol (unescape out cs).
Proof.
  remember (length cs) as n eqn:Hn. assert (length cs <= n) as Hle by lia. clear Hn.
  revert cs Hle. induction n as [|n IH]; intros cs Hle out; (destruct cs as [|c cs]; [apply fails_protocol|]);
    cbn [length] in Hle; [lia|].
  cbn [unescape]. apply fails_if; [done|]. apply fails_if; [|apply IH; lia].
  destruct cs as [|e cs]; [apply fails_protocol|]. cbn [length] in Hle.
  destruct (simple_unescape e); [apply IH; lia|]. apply fails_if; [|apply fails_protocol].
  destruct cs as [|h1 [|h2 [|h3 [|h4 cs]]]]; try apply fails_protocol. cbn [length] in Hle.
  apply fails_bind; [apply parse_hex4_fails|]. intros code _. apply fails_if.
  - destruct cs as [|b [|u cs]]; try apply fails_protocol. cbn [length] in Hle.
    apply fails_if; [apply fails_protocol|].
    destruct cs as [|l1 [|l2 [|l3 [|l4 cs]]]]; try apply fails_protocol. cbn [length] in Hle.
    apply fails_bind; [apply parse_hex4_fails|]. intros low _.
    apply fails_if; [apply fails_protocol|apply IH; lia].
  - apply fails_if; [apply fails_protocol|apply IH; lia].
Qed.

Lemma parse_json_string_fails v : fails_by_protocol (parse_json_string v).
Proof. apply fails_if; [apply unescape_fails|apply fails_protocol]. Qed.

(** ** Objects and their fields (crates/eva-mcp/src/json_rpc.rs)

    [parse_json_object_fields] accepts exactly the texts that are one JSON
    object with distinct keys, and returns its fields. *)

(** The fields of an object, from its first key to the end of the text. *)
Inductive field_list : list (string * string) -> string -> Prop :=
| fields_last k kt w1 w2 v w3 w4 :
    string_token kt -> parse_json_string kt = Ok k -> blank w1 -> blank w2 ->
    json_value (nesting_left 1) v -> blank w3 -> blank w4 ->
    field_list [(k, v)] (kt +:+ w1 +:+ String ":" (w2 +:+ v +:+ w3 +:+ String "}" w4))
| fields_more k kt w1 w2 v w3 w4 kvs s :
    string_token kt -> parse_json_string kt = Ok k -> blank w1 -> blank w2 ->
    json_value (nesting_left 1) v -> blank w3 -> blank w4 -> field_list kvs s ->
    field_list ((k, v) :: kvs) (kt +:+ w1 +:+ String ":" (w2 +:+ v +:+ w3 +:+ String "," (w4 +:+ s))).

(** What follows the opening brace. *)
Definition object_rest (kvs : list (string * string)) (s : string) : Prop :=
  exists w, blank w /\
    ((kvs = [] /\ exists w', blank w' /\ s = w +:+ String "}" w') \/
     (exists s', field_list kvs s' /\ s = w +:+ s')).

Definition object_text (kvs : list (string * string)) (text : string) : Prop :=
  exists w s, blank w /\ text = w +:+ String "{" s /\ object_rest kvs s.

Lemma field_list_start kvs s : field_list kvs s -> exists r, s = String dquote r.
Proof. destruct 1 as [? ? ? ? ? ? ? (b & _ & ->)|? ? ? ? ? ? ? ? ? (b & _ & ->)]; by eexists. Qed.

Lemma skip_before_fields w kvs s : blank w -> field_list kvs s -> skip_json_whitespace (w +:+ s) = s.
Proof. intros Hw (r & ->)%field_list_start. by apply skip_blank. Qed.

Lemma nothing_after_iff s : nothing_after s = true <-> blank s.
Proof.
  unfold nothing_after, str_is_empty. rewrite String.eqb_eq. split.
  - intros E. destruct (skip_whitespace_spec s) as (w & Hw & Hs & _). rewrite E, append_nil_r in Hs. by subst w.
  - intros H. rewrite <- (append_nil_r s). by apply skip_blank.
Qed.

Lemma slice_of s t rest : s = t +:+ rest -> slice s rest = t.
Proof. intros ->. apply slice_append. Qed.

Definition fresh_fields (kvs : list (string * string)) (m : gmap string string) : Prop :=
  NoDup kvs.*1 /\ Forall (fun kv => m !! kv.1 = None) kvs.

(** *** Soundness *)

(** One field, with what surrounds it. *)
Definition field_text (k v s rest : string) : Prop :=
  exists kt w1 w2, string_token kt /\ parse_json_string kt = Ok k /\ blank w1 /\ blank w2 /\
    json_value (nesting_left 1) v /\ s = kt +:+ w1 +:+ String ":" (w2 +:+ v +:+ rest).

Lemma object_field_sound s k v rest : object_field s = Ok (k, v, rest) -> field_text k v s rest.
Proof.
  unfold object_field. intros H. apply reject_Ok in H as [_ H].
  destruct (json_string_token_end s) as [key_end|] eqn:Ek; [|done].
  apply json_string_token_end_iff in Ek as (kt & Hkt & ->). rewrite slice_append in H.
  destruct (parse_json_string kt) as [key|] eqn:Ekey; [|done]. cbv zeta in H.
  apply reject_Ok in H as [Hc H]. apply negb_false_iff, head_is_true in Hc.
  destruct (skip_whitespace_spec key_end) as (w1 & Hw1 & Hs1 & _).
  set (s1 := tail (skip_json_whitespace key_end)) in *. destruct (skip_whitespace_spec s1) as (w2 & Hw2 & Hs2 & _).
  destruct (json_value_token_end_at_depth _ 1) as [value_end|] eqn:Ev; [|done].
  apply scanner_sound in Ev as (v' & Hv & Ev & _). rewrite (slice_of _ _ _ Ev) in H. injection H as <- <- <-.
  exists kt, w1, w2. split_and!; try done. rewrite Hs1, Hc. repeat f_equal. by rewrite Hs2, Ev at 1.
Qed.

Lemma fresh_cons k v kvs (m : gmap string string) :
  m !! k = None -> fresh_fields kvs (<[k := v]> m) ->
  fresh_fields ((k, v) :: kvs) m /\
  list_to_map kvs ∪ <[k := v]> m = (list_to_map ((k, v) :: kvs) : gmap string string) ∪ m.
Proof.
  intros Hk [Hnd Hfr]. assert (k ∉ kvs.*1) as Hin.
  { intros (kv & -> & Hin)%list_elem_of_fmap. rewrite Forall_forall in Hfr. specialize (Hfr kv Hin).
    by rewrite lookup_insert_eq in Hfr. }
  split; [split|].
  - by apply NoDup_cons.
  - constructor; [done|]. eapply Forall_impl; [exact Hfr|]. cbn. intros kv Hkv.
    by apply lookup_insert_None in Hkv as [? _].
  - rewrite list_to_map_cons, <- insert_union_l, <- insert_union_r; [done|].
    by apply not_elem_of_list_to_map_1.
Qed.

Lemma object_finish_Ok m s m' : object_finish m s = Ok m' <-> blank s /\ m' = m.
Proof.
  unfold object_finish. rewrite <- nothing_after_iff. destruct (nothing_after s); naive_solver.
Qed.

(** The empty remainder of an object starts with its brace. *)
Lemma object_rest_closed kvs s : unspaced s -> head s <> Some "}"%char -> object_rest kvs s -> field_list kvs s.
Proof.
  intros Hu Hh (w & Hw & [(_ & w' & _ & ->)|(s' & Hf & ->)]);
    (destruct w as [|c w]; [|unfold blank in Hw; cbn in Hw, Hu; by rewrite Hu in Hw]); [done|exact Hf].
Qed.

Lemma object_fields_sound fuel : forall m s m',
  object_fields fuel m s = Ok m' ->
  exists kvs, object_rest kvs s /\ fresh_fields kvs m /\ m' = list_to_map kvs ∪ m.
Proof.
  induction fuel as [|fuel IH]; intros m s m' H; [done|]. cbn [object_fields] in H.
  destruct (skip_whitespace_spec s) as (w & Hw & Hs & _). set (s0 := skip_json_whitespace s) in *.
  destruct (head_is "}" s0) eqn:Ec.
  { apply head_is_true in Ec. apply object_finish_Ok in H as [Hb ->]. exists [].
    split_and!; [|split; constructor|by rewrite list_to_map_nil, (left_id_L ∅ (∪))].
    exists w. split; [done|]. left. split; [done|]. exists (tail s0). by rewrite <- Ec. }
  destruct (object_field s0) as [[[k v] value_end]|] eqn:Ef; [|done].
  apply object_field_sound in Ef as (kt & w1 & w2 & Hkt & Hk & Hw1 & Hw2 & Hv & Es).
  apply reject_Ok in H as [Hdup H]. apply bool_decide_eq_false_1, eq_None_not_Some in Hdup.
  destruct (skip_whitespace_spec value_end) as (w3 & Hw3 & Hs3 & _).
  set (s2 := skip_json_whitespace value_end) in *. destruct (head_is "," s2) eqn:Ecomma.
  - apply head_is_true in Ecomma. apply reject_Ok in H as [Hclose H]. apply head_is_false in Hclose.
    destruct (skip_whitespace_spec (tail s2)) as (w4 & Hw4 & Hs4 & Hu).
    apply IH in H as (kvs & Hr & Hfr & ->). apply object_rest_closed in Hr; [|done..].
    destruct (fresh_cons k v kvs m Hdup Hfr) as [Hfr' Hm]. exists ((k, v) :: kvs). split_and!; [|done..].
    exists w. split; [done|]. right. eexists. split; [by apply (fields_more k kt w1 w2 v w3 w4)|].
    rewrite Hs, Es. repeat f_equal.
    rewrite Hs3 at 1. rewrite Ecomma at 1. by rewrite Hs4 at 1.
  - destruct (head_is "}" s2) eqn:Ebrace; [|done]. apply head_is_true in Ebrace.
    apply object_finish_Ok in H as [Hb ->]. exists [(k, v)].
    destruct (fresh_cons k v [] m Hdup) as [Hfr' Hm]; [split; constructor|].
    split_and!; [|done|by rewrite <- Hm, list_to_map_nil, (left_id_L ∅ (∪))].
    exists w. split; [done|]. right. eexists. split; [by apply (fields_last k kt w1 w2 v w3 (tail s2))|].
    rewrite Hs, Es. repeat f_equal. by rewrite Hs3 at 1; rewrite Ebrace at 1.
Qed.

(** *** Completeness *)

Lemma object_field_complete k v s rest : field_text k v s rest -> ends_before v rest -> object_field s = Ok (k, v, rest).
Proof.
  intros (kt & w1 & w2 & Hkt & Hk & Hw1 & Hw2 & Hv & ->) He. unfold object_field.
  assert (head_is dquote (kt +:+ w1 +:+ String ":" (w2 +:+ v +:+ rest)) = true) as ->.
  { destruct Hkt as (b & _ & ->). by rewrite quote_append, head_is_cons. }
  rewrite (proj2 (json_string_token_end_iff _ (w1 +:+ String ":" (w2 +:+ v +:+ rest)))) by (by exists kt).
  cbn [negb]. rewrite slice_append, Hk. cbv zeta. rewrite skip_before by done. rewrite head_is_cons.
  cbn [tail]. change (Ascii.eqb ":" ":") with true. cbn [negb]. rewrite (skip_before_value (nesting_left 1)) by done.
  assert (json_value_token_end_at_depth (v +:+ rest) 1 = Ok rest) as ->.
  { apply scanner_complete with (nesting_left 1); [done..| |done]. unfold json_fuel. rewrite length_append. lia. }
  by rewrite slice_append.
Qed.

Lemma fresh_uncons k v kvs (m : gmap string string) :
  fresh_fields ((k, v) :: kvs) m -> m !! k = None /\ fresh_fields kvs (<[k := v]> m).
Proof.
  intros [Hnd Hfr]. inversion Hfr as [|? ? Hk Hfr']; subst. rewrite fmap_cons, NoDup_cons in Hnd.
  destruct Hnd as [Hin Hnd]. split; [exact Hk|]. split; [done|]. rewrite Forall_forall in *. intros kv Hkv.
  apply lookup_insert_None. split; [by apply Hfr'|]. intros ->. apply Hin. apply list_elem_of_fmap. by exists kv.
Qed.

Lemma object_fields_complete kvs s : field_list kvs s -> forall fuel m,
  String.length s < fuel -> fresh_fields kvs m -> object_fields fuel m s = Ok (list_to_map kvs ∪ m).
Proof.
  induction 1 as [k kt w1 w2 v w3 w4 Hkt Hk Hw1 Hw2 Hv Hw3 Hw4
                 |k kt w1 w2 v w3 w4 kvs s Hkt Hk Hw1 Hw2 Hv Hw3 Hw4 Hf IH]; intros fuel m Hl Hfr;
    (destruct fuel as [|fuel]; [lia|]); apply fresh_uncons in Hfr as [Hnew Hfr]; cbn [object_fields].
  all: match goal with |- context [skip_json_whitespace ?t] => assert (skip_json_whitespace t = t) as -> end;
    [destruct Hkt as (b & _ & ->); by rewrite quote_append|].
  all: match goal with |- context [head_is "}" ?t] => assert (head_is "}" t = false) as -> end;
    [destruct Hkt as (b & _ & ->); by rewrite quote_append|].
  - rewrite (object_field_complete k v _ (w3 +:+ String "}" w4)); [|by exists kt, w1, w2|by apply ends_before_blank].
    rewrite bool_decide_eq_false_2 by (by rewrite Hnew; intros [? ?]).
    rewrite skip_before by done. rewrite !head_is_cons. cbn [tail].
    change (Ascii.eqb "}" ",") with false. change (Ascii.eqb "}" "}") with true. cbv iota.
    destruct (fresh_cons k v [] m Hnew Hfr) as [_ Hm]. rewrite <- Hm. apply object_finish_Ok.
    by rewrite list_to_map_nil, (left_id_L ∅ (∪)).
  - rewrite (object_field_complete k v _ (w3 +:+ String "," (w4 +:+ s)));
      [|by exists kt, w1, w2|by apply ends_before_blank].
    rewrite bool_decide_eq_false_2 by (by rewrite Hnew; intros [? ?]).
    rewrite skip_before by done. rewrite head_is_cons. cbn [tail]. change (Ascii.eqb "," ",") with true. cbv iota.
    rewrite (skip_before_fields w4 kvs) by done. destruct (field_list_start _ _ Hf) as [r Er].
    rewrite Er at 1. rewrite head_is_cons. change (Ascii.eqb dquote "}") with false. cbv iota.
    destruct (fresh_cons k v kvs m Hnew Hfr) as [_ Hm]. rewrite <- Hm. apply IH; [|done].
    rewrite !length_append in Hl. cbn in Hl. rewrite !length_append in Hl. cbn in Hl. rewrite !length_append in Hl. lia.
Qed.

Lemma object_fields_iff text fields :
  parse_json_object_fields text = Ok fields <->
  exists kvs, object_text kvs text /\ NoDup kvs.*1 /\ fields = list_to_map kvs.
Proof.
  unfold parse_json_object_fields. split.
  - intros H. destruct (skip_whitespace_spec text) as (w & Hw & Hs & _). cbv zeta in H.
    apply reject_Ok in H as [Hb H]. apply negb_false_iff, head_is_true in Hb.
    apply object_fields_sound in H as (kvs & Hr & [Hnd _] & ->). exists kvs.
    split_and!; [|done|by rewrite (right_id_L ∅ (∪))].
    exists w, (tail (skip_json_whitespace text)). by rewrite <- Hb.
  - intros (kvs & (w & s & Hw & -> & w' & Hw' & Hr) & Hnd & ->). rewrite skip_before by done.
    rewrite head_is_cons. cbv zeta. cbn [tail]. change (Ascii.eqb "{" "{") with true. cbn [negb].
    assert (fresh_fields kvs ∅) as Hfr by (split; [done|]; apply Forall_true; intros; apply lookup_empty).
    destruct Hr as [(-> & w'' & Hw'' & ->)|(s' & Hf & ->)].
    + cbn [object_fields]. rewrite skip_before by done. rewrite head_is_cons.
      change (Ascii.eqb "}" "}") with true. by apply object_finish_Ok.
    + pose proof (object_fields_complete kvs s' Hf (S (String.length (String "{" (w' +:+ s')))) ∅) as E.
      rewrite (right_id_L ∅ (∪)) in E. rewrite <- E; [|cbn; rewrite length_append; lia|done].
      cbn [object_fields]. rewrite (skip_before_fields w' kvs) by done.
      destruct (field_list_start _ _ Hf) as [r ->]. done.
Qed.

(** [parse_json_object_fields] accepts a text exactly when it is one JSON
    object, with nothing but white space around it, whose keys decode to
    different strings; it then returns the value text of every field. *)
Theorem object_fields_correct text fields :
  parse_json_object_fields text = Ok fields <->
  exists kvs, object_text kvs text /\ NoDup kvs.*1 /\ fields = list_to_map kvs.
Proof. apply object_fields_iff. Qed.

(** ** Integers in texts

    Rust's integer parser reads what [to_string] writes, and nothing that does
    not fit. *)

Fixpoint uint_value (acc : N) (d : Decimal.uint) : N :=
  match d with
  | Decimal.Nil => acc
  | Decimal.D0 r => uint_value (10 * acc) r
  | Decimal.D1 r => uint_value (10 * acc + 1) r
  | Decimal.D2 r => uint_value (10 * acc + 2) r
  | Decimal.D3 r => uint_value (10 * acc + 3) r
  | Decimal.D4 r => uint_value (10 * acc + 4) r
  | Decimal.D5 r => uint_value (10 * acc + 5) r
  | Decimal.D6 r => uint_value (10 * acc + 6) r
  | Decimal.D7 r => uint_value (10 * acc + 7) r
  | Decimal.D8 r => uint_value (10 * acc + 8) r
  | Decimal.D9 r => uint_value (10 * acc + 9) r
  end.

Lemma uint_value_acc d : forall p, uint_value (N.pos p) d = N.pos (Pos.of_uint_acc d p).
Proof.
  induction d; intros p; cbn [uint_value Pos.of_uint_acc]; [done|..];
    rewrite <- IHd; f_equal; lia.
Qed.

Lemma uint_value_of d : uint_value 0 d = N.of_uint d.
Proof.
  unfold N.of_uint. induction d; cbn [uint_value Pos.of_uint]; [done|exact IHd|..]; exact (uint_value_acc _ _).
Qed.

Lemma uint_value_le d : forall acc, (acc <= uint_value acc d)%N.
Proof. induction d; intros acc; cbn [uint_value]; [lia|..]; etransitivity; [|apply IHd| |apply IHd| |apply IHd| |apply IHd| |apply IHd| |apply IHd| |apply IHd| |apply IHd| |apply IHd| |apply IHd]; lia. Qed.

Lemma parse_digits_uint max ov d : forall acc,
  (uint_value acc d <= max)%N -> parse_digits max ov acc (NilEmpty.string_of_uint d) = Ok (uint_value acc d).
Proof.
  induction d; intros acc H; cbn [uint_value] in *; [done|..];
    cbn [NilEmpty.string_of_uint parse_digits]; pose proof (uint_value_le d) as Hle;
    match goal with |- context [digit_value ?c] => change (digit_value c) with (Some (byte_of c - 48)%N) end;
    match goal with |- context [(byte_of ?c - 48)%N] =>
      let v := eval vm_compute in (byte_of c - 48)%N in change (byte_of c - 48)%N with v end;
    cbv beta iota; rewrite ?N.add_0_r; (rewrite (proj2 (N.ltb_ge _ _)) by (etransitivity; [apply Hle|exact H])); by apply IHd.
Qed.

Lemma parse_uint_to_string max n : (n <= max)%N -> parse_uint max (n_to_string n) = Ok n.
Proof.
  intros Hn. assert (parse_digits max too_large 0 (n_to_string n) = Ok n) as E.
  { unfold n_to_string. assert (NilZero.string_of_uint (N.to_uint n) = NilEmpty.string_of_uint (N.to_uint n)) as ->.
    { destruct (N.to_uint n) eqn:E; [|done..]. destruct n; [done|].
      by apply DecimalPos.Unsigned.to_uint_nonnil in E. }
    rewrite parse_digits_uint; rewrite uint_value_of, DecimalN.Unsigned.of_to; done. }
  unfold parse_uint. pose proof (n_to_string_digits n) as Hd. destruct (n_to_string n) as [|c r] eqn:Es.
  { by apply n_to_string_nonempty in Es. }
  cbn [bytes_all] in Hd. apply andb_true_iff in Hd as [Hc _].
  destruct (Ascii.eqb c "+") eqn:Ep; [apply Ascii.eqb_eq in Ep as ->; done|]. exact E.
Qed.

Lemma parse_u64_to_string n : (n <= u64_max)%N -> parse_u64 (n_to_string n) = Ok n.
Proof. apply parse_uint_to_string. Qed.

(** What is parsed fits. *)
Lemma parse_digits_bound max ov s : forall acc n, (acc <= max)%N -> parse_digits max ov acc s = Ok n -> (n <= max)%N.
Proof.
  induction s as [|c s IH]; intros acc n Ha H; cbn [parse_digits] in H; [by injection H as <-|].
  destruct (digit_value c) as [d|]; [|done]. destruct (max <? 10 * acc + d)%N eqn:E; [done|].
  apply N.ltb_ge in E. by eapply IH.
Qed.

Lemma parse_uint_bound max s n : parse_uint max s = Ok n -> (n <= max)%N.
Proof.
  unfold parse_uint. destruct s as [|c r]; [done|]. destruct (str_is_empty _); [done|].
  apply parse_digits_bound. lia.
Qed.
