(* ===== verification/McpJsonRpc.v ===== *)
(** * The MCP JSON-RPC client (crates/eva-mcp/src/policy.rs, json_rpc.rs)

    The tool allowlist, the requests the client writes, the responses it
    accepts, and the exchange of one tool call over a transport.  The trait
    [McpJsonRpcTransport] is a class whose operations thread the transport's
    state; the stdio transport is an instance. *)

From Stdlib Require Import Ascii.
From stdpp Require Import base numbers strings gmap list.
From S2P Require Import Prelude RustStr Error Ids Json.

(** ** The allowlist *)

Record McpAllowlist := MkAllowlist {
  al_tools : gset string;
  al_resources : gset string;
  al_prompts : gset string
}.
#[export] Instance McpAllowlist_eta : Eta McpAllowlist := fun a =>
  MkAllowlist (al_tools a) (al_resources a) (al_prompts a).

Definition allowlist_new : McpAllowlist := MkAllowlist ∅ ∅ ∅.

Definition validate_token (field value : string) : Res string :=
  reject str_is_empty value || negb (String.eqb (trim value) value) with
    invalid_argument "MCP allowlist token must be non-empty and trimmed" ⊕ ("field", field) ⊕ ("value", value) else
  reject existsb is_whitespace (chars value) with
    invalid_argument "MCP allowlist token cannot contain whitespace" ⊕ ("field", field) ⊕ ("value", value) else
  Ok value.

Definition allow_tool (a : McpAllowlist) (tool : string) : Res McpAllowlist :=
  let? tool := validate_token "tool" tool in Ok (a <| al_tools := {[tool]} ∪ al_tools a |>).
Definition allow_resource (a : McpAllowlist) (resource : string) : Res McpAllowlist :=
  let? resource := validate_token "resource" resource in Ok (a <| al_resources := {[resource]} ∪ al_resources a |>).
Definition allow_prompt (a : McpAllowlist) (prompt : string) : Res McpAllowlist :=
  let? prompt := validate_token "prompt" prompt in Ok (a <| al_prompts := {[prompt]} ∪ al_prompts a |>).

Fixpoint allow_tools (a : McpAllowlist) (tools : list string) : Res McpAllowlist :=
  match tools with
  | [] => Ok a
  | tool :: r => let? a := allow_tool a tool in allow_tools a r
  end.
Definition from_tools (tools : list string) : Res McpAllowlist := allow_tools allowlist_new tools.

Definition permits_tool (a : McpAllowlist) (tool : string) : bool := bool_decide (tool ∈ al_tools a).

Definition require_tool (a : McpAllowlist) (tool : string) : Res unit :=
  if permits_tool a tool then Ok tt
  else Err (permission_denied "MCP tool is not allowlisted" ⊕ ("tool", tool)).

(** ** Configuration *)

Definition DEFAULT_PROTOCOL_VERSION : string := "2025-11-25".
Definition DEFAULT_REQUEST_TIMEOUT_MS : N := 30000.
Definition DEFAULT_OUTPUT_LIMIT_BYTES : N := 64 * 1024.
Definition MCP_PROTOCOL_VERSION_LIMIT_BYTES : N := 128.

(** [str::len] as a machine integer. *)
Definition slen (s : string) : N := N.of_nat (String.length s).

Record McpJsonRpcClientConfig := MkClientConfig {
  protocol_version : string;
  client_name : string;
  client_version : string;
  request_timeout_ms : N;
  output_limit_bytes : N
}.

(** [McpJsonRpcClientConfig::new]; the workspace version is the crate's. *)
Definition client_config_new : McpJsonRpcClientConfig :=
  {| protocol_version := DEFAULT_PROTOCOL_VERSION; client_name := "eva-mcp"; client_version := "1.11.5-alpha";
     request_timeout_ms := DEFAULT_REQUEST_TIMEOUT_MS; output_limit_bytes := DEFAULT_OUTPUT_LIMIT_BYTES |}.

(** [(0x21..=0x7e).contains(&byte)] *)
Definition is_visible_ascii (c : ascii) : bool := in_range 33 126 c.

Definition validate_mcp_protocol_version (value : string) : Res unit :=
  reject str_is_empty value || (MCP_PROTOCOL_VERSION_LIMIT_BYTES <? slen value)%N
         || negb (bytes_all is_visible_ascii value) with
    with_provider_code (invalid_argument "MCP protocol version must be bounded visible ASCII")
      "mcp_protocol_version_invalid" else
  Ok tt.

Definition validate_client_config (config : McpJsonRpcClientConfig) : Res unit :=
  validate_mcp_protocol_version (protocol_version config) >>?
  reject str_is_empty (trim (client_name config)) with invalid_argument "MCP client name must be non-empty" else
  reject (request_timeout_ms config =? 0)%N with
    invalid_argument "MCP JSON-RPC request timeout must be greater than zero" else
  reject (output_limit_bytes config =? 0)%N with
    invalid_argument "MCP JSON-RPC output limit must be greater than zero" else
  Ok tt.

(** ** Requests *)

Definition initialize_request (id : N) (config : McpJsonRpcClientConfig) : string :=
  js "{'jsonrpc':'2.0','id':" +:+ n_to_string id +:+ js ",'method':'initialize','params':{'protocolVersion':"
  +:+ json_string (protocol_version config) +:+ js ",'capabilities':{},'clientInfo':{'name':"
  +:+ json_string (client_name config) +:+ js ",'version':" +:+ json_string (client_version config) +:+ "}}}".

Definition initialized_notification : string :=
  js "{'jsonrpc':'2.0','method':'notifications/initialized','params':{}}".

Definition tools_list_request (id : N) : string :=
  js "{'jsonrpc':'2.0','id':" +:+ n_to_string id +:+ js ",'method':'tools/list','params':{}}".

Definition tool_arguments_json (input : string) : string :=
  let trimmed := trim input in
  if str_is_empty trimmed then "{}"
  else if starts_with "{" trimmed && ends_with_char "}" trimmed then trimmed
  else js "{'input':" +:+ json_string input +:+ "}".

Definition tools_call_request (id : N) (tool input : string) : string :=
  js "{'jsonrpc':'2.0','id':" +:+ n_to_string id +:+ js ",'method':'tools/call','params':{'name':"
  +:+ json_string tool +:+ js ",'arguments':" +:+ tool_arguments_json input +:+ "}}".

(** ** Responses *)

(** [i64::to_string] *)
Definition z_to_string (z : Z) : string :=
  if (z <? 0)%Z then String "-" (n_to_string (Z.to_N (- z))) else n_to_string (Z.to_N z).

Definition MAX_CONTEXT_CHARS : nat := 120.
Definition truncate_context (value : string) : string := str_concat (take MAX_CONTEXT_CHARS (chars value)).

(** [.ok().flatten()] *)
Definition ok_flatten {A} (r : Res (option A)) : option A := match r with Ok o => o | Err _ => None end.

Definition map_json_rpc_error (error : string) (expected_id : N) : EvaError :=
  let code := default 0%Z (ok_flatten (json_i64_field error "code")) in
  let message := default "MCP JSON-RPC error" (ok_flatten (json_string_field error "message")) in
  with_provider_code (unavailable "MCP JSON-RPC error object returned") ("json_rpc_" +:+ z_to_string code)
    ⊕ ("json_rpc_id", n_to_string expected_id)
    ⊕ ("json_rpc_code", z_to_string code)
    ⊕ ("json_rpc_message", truncate_context message).

Definition enforce_response_limit (response : string) (output_limit : N) : Res unit :=
  if (output_limit <? slen response)%N then
    Err (with_provider_code (conflict "MCP JSON-RPC response exceeded output limit") "mcp_response_too_large"
           ⊕ ("output_limit_bytes", n_to_string output_limit)
           ⊕ ("actual_bytes", n_to_string (slen response)))
  else Ok tt.

(** The [result] of a [JsonRpcResponse]. *)
Definition parse_json_rpc_response (response : string) (expected_id : N) : Res string :=
  let? version := json_string_field response "jsonrpc" in
  reject negb (bool_decide (version = Some "2.0")) with
    protocol_error "MCP JSON-RPC response has invalid version" ⊕ ("json_rpc_id", n_to_string expected_id) else
  let? id := json_u64_field response "id" in
  match id with
  | None => Err (protocol_error "MCP JSON-RPC response is missing id" ⊕ ("expected_id", n_to_string expected_id))
  | Some id =>
      reject negb (id =? expected_id)%N with
        protocol_error "MCP JSON-RPC response id mismatch"
          ⊕ ("expected_id", n_to_string expected_id) ⊕ ("actual_id", n_to_string id) else
      let? error := json_field_value response "error" in
      match error with
      | Some error => Err (map_json_rpc_error error expected_id)
      | None =>
          let? result := json_field_value response "result" in
          ok_or result (protocol_error "MCP JSON-RPC response is missing result"
                          ⊕ ("json_rpc_id", n_to_string expected_id))
      end
  end.

(** The loop of [parse_tools_list], at [&tools[offset..]]. *)
Fixpoint tool_names (fuel : nat) (names : list string) (tools : string) : Res (list string) :=
  match fuel with
  | O => Err out_of_fuel
  | S fuel =>
      match find_str (js "'name'") tools with
      | None => Ok names
      | Some at_name =>
          match find_json_field_value at_name "name" with
          | None => Ok names
          | Some value =>
              let? name := parse_json_string value in
              let names := names ++ [name] in
              let tools := String.substring 6 (String.length at_name - 6) at_name in
              if str_is_empty tools then Ok names else tool_names fuel names tools
          end
      end
  end.

(** The names of the listed tools. *)
Definition parse_tools_list (result : string) : Res (list string) :=
  let? tools := json_field_value result "tools" in
  let? tools := ok_or tools (with_provider_code (protocol_error "MCP tools/list response is missing tools")
                               "mcp_tools_list_missing_tools") in
  tool_names (S (String.length tools)) [] tools.
