(* ===== verification/McpClient.v ===== *)
(** * One MCP tool call over a transport (crates/eva-mcp/src/json_rpc.rs)

    The trait [McpJsonRpcTransport], the client's call sequence, and the
    stdio transport: the reader thread that cuts the server's output into
    lines, the loop that waits for a response, and the writes to the server's
    input. *)

From Stdlib Require Import Ascii.
From stdpp Require Import base numbers strings gmap list.
From S2P Require Import Prelude RustStr Error Ids Json McpJsonRpc.

(** ** The transport *)

(** [exchange t expected_id request timeout output_limit] *)
Class McpJsonRpcTransport (T : Type) := {
  exchange : T -> N -> string -> N -> N -> Res string * T;
  notify : T -> string -> N -> N -> Res unit * T;
  transport_audit : T -> list string
}.

(** The [?] operator on a call that also changes the transport. *)
Notation "'let@' x ',' t ':=' e 'in' k" :=
  (match e with (Ok x, t) => k | (Err err, t) => (Err err, t) end)
  (at level 10, x binder, t name, e at level 200, k at level 200) : eva_scope.

(** ** The client *)

Record McpJsonRpcClient := MkClient {
  mc_adapter_id : AdapterId;
  mc_allowlist : McpAllowlist;
  mc_config : McpJsonRpcClientConfig
}.

Record McpJsonRpcCallReport := MkCallReport {
  cr_request_id : RequestId;
  cr_adapter_id : AdapterId;
  cr_tool : string;
  cr_output : string;
  cr_audit : list string
}.

Definition call_output (adapter_id : AdapterId) (tool result : string) : string :=
  js "{'transport':'mcp','adapter_id':" +:+ json_string (id_str adapter_id) +:+ js ",'tool':" +:+ json_string tool
  +:+ js ",'mode':'json-rpc','result':" +:+ result +:+ "}".

Definition call_audit (tool : string) : list string :=
  ["transport:mcp"; "mcp.client:json_rpc"; "mcp.method:initialize"; "mcp.notification:initialized";
   "mcp.method:tools/list"; "mcp.method:tools/call"; "mcp.tool:" +:+ tool; "tool_allowlist:passed"].

Section Call.
  Context `{McpJsonRpcTransport T}.

(** A request, its size check and its response. *)
Definition request_response (c : McpJsonRpcClient) (t : T) (id : N) (request : string) : Res string * T :=
  let config := mc_config c in
  let@ response, t := exchange t id request (request_timeout_ms config) (output_limit_bytes config) in
  (enforce_response_limit response (output_limit_bytes config) >>? parse_json_rpc_response response id, t).

Definition call_tool_with_transport (c : McpJsonRpcClient) (t : T) (request_id : RequestId)
    (tool input : string) : Res McpJsonRpcCallReport * T :=
  let config := mc_config c in
  let@ _, t := (validate_client_config config, t) in
  let@ _, t := (require_tool (mc_allowlist c) tool, t) in
  let@ _, t := request_response c t 1 (initialize_request 1 config) in
  let@ _, t := notify t initialized_notification (request_timeout_ms config) (output_limit_bytes config) in
  let@ result, t := request_response c t 2 (tools_list_request 2) in
  let@ listed_tools, t := (parse_tools_list result, t) in
  if negb (bool_decide (tool ∈ listed_tools)) then
    (Err (with_provider_code (not_found "MCP server did not advertise allowlisted tool") "mcp_tool_not_listed"
            ⊕ ("adapter_id", id_str (mc_adapter_id c)) ⊕ ("tool", tool)), t)
  else
  let@ result, t := request_response c t 3 (tools_call_request 3 tool input) in
  (Ok {| cr_request_id := request_id; cr_adapter_id := mc_adapter_id c; cr_tool := tool;
         cr_output := call_output (mc_adapter_id c) tool result;
         cr_audit := call_audit tool ++ transport_audit t |}, t).

End Call.

(** ** The stdio transport *)

Inductive ReaderMessage :=
| Line (line : string)
| LimitExceeded
| ReadError (error : string)
| Eof.

(** What [recv_timeout] returns. *)
Inductive Received :=
| Message (message : ReaderMessage)
| RecvTimeout
| RecvDisconnected.

(** The buffer up to its first newline, and what follows. *)
Fixpoint through_newline (buffer : string) : string * string :=
  match buffer with
  | EmptyString => ("", "")
  | String c r =>
      if Ascii.eqb c nl then (str nl, r)
      else let '(taken, remainder) := through_newline r in (String c taken, remainder)
  end.

Definition READER_LINE_LIMIT : N := DEFAULT_OUTPUT_LIMIT_BYTES * 16.

(** The loop of [spawn_stdout_reader].  [buffers] are the results of the
    reads behind [fill_buf]; an empty buffer, or none, is the end of file. *)
Fixpoint reader_loop (fuel : nat) (line : string) (buffers : list (Result string string)) : list ReaderMessage :=
  match fuel with
  | O => []
  | S fuel =>
      match buffers with
      | [] => [Eof]
      | Err error :: _ => [ReadError error]
      | Ok buffer :: rest =>
          if str_is_empty buffer then [Eof] else
          let '(taken, remainder) := through_newline buffer in
          if (READER_LINE_LIMIT <? saturating_add usize_max (slen line) (slen taken))%N then [LimitExceeded] else
          let line := line +:+ taken in
          let buffers := if str_is_empty remainder then rest else Ok remainder :: rest in
          if ends_with_char nl line then Line line :: reader_loop fuel "" buffers
          else reader_loop fuel line buffers
      end
  end.

Definition buffer_fuel (b : Result string string) : nat :=
  match b with Ok s => S (String.length s) | Err _ => 1 end.
Definition spawn_stdout_reader (buffers : list (Result string string)) : list ReaderMessage :=
  reader_loop (S (sum_list (buffer_fuel <$> buffers))) "" buffers.

(** The text of [FromUtf8Error]: the offset of the first malformed character
    and, unless the text ends inside it, how many of its bytes are wrong. *)
Definition invalid_sequence (bytes index : N) : string :=
  "invalid utf-8 sequence of " +:+ n_to_string bytes +:+ " bytes from index " +:+ n_to_string index.
Definition incomplete_sequence (index : N) : string :=
  "incomplete utf-8 byte sequence from index " +:+ n_to_string index.

(** The range of the second byte of a character that starts with [a]. *)
Definition second_byte (a b : ascii) : bool :=
  if in_range 224 224 a then in_range 160 191 b
  else if in_range 237 237 a then in_range 128 159 b
  else if in_range 240 240 a then in_range 144 191 b
  else if in_range 244 244 a then in_range 128 143 b
  else in_range 128 191 b.

Fixpoint utf8_error_at (index : N) (s : string) : option string :=
  match s with
  | EmptyString => None
  | String a r1 =>
      if in_range 0 127 a then utf8_error_at (index + 1) r1
      else if negb (in_range 194 244 a) then Some (invalid_sequence 1 index)
      else match r1 with
      | EmptyString => Some (incomplete_sequence index)
      | String b r2 =>
          if negb (second_byte a b) then Some (invalid_sequence 1 index)
          else if in_range 194 223 a then utf8_error_at (index + 2) r2
          else match r2 with
          | EmptyString => Some (incomplete_sequence index)
          | String c r3 =>
              if negb (in_range 128 191 c) then Some (invalid_sequence 2 index)
              else if in_range 224 239 a then utf8_error_at (index + 3) r3
              else match r3 with
              | EmptyString => Some (incomplete_sequence index)
              | String d r4 =>
                  if negb (in_range 128 191 d) then Some (invalid_sequence 3 index)
                  else utf8_error_at (index + 4) r4
              end
          end
      end
  end.

(** [String::from_utf8], with the error's text. *)
Definition from_utf8 (bytes : string) : Result string string :=
  match utf8_error_at 0 bytes with None => Ok bytes | Some error => Err error end.

(** The server process: whether [terminate_gracefully] succeeds is its own. *)
Record McpStdioProcess := MkProcess { process_id : N; terminates : bool }.

(** [st_stdin] is what was written to the pipe and [st_open] whether it is
    still the pipe, not the sink that replaces it; [st_writes] are the results of the next writes and flushes, which
    succeed when the list is used up; [st_receiver] is what the next
    receptions return before the deadline. *)
Record McpStdioJsonRpcTransport := MkStdio {
  st_process : option McpStdioProcess;
  st_stdin : string;
  st_open : bool;
  st_writes : list (option string);
  st_receiver : list Received;
  st_audit : list string
}.
#[export] Instance McpStdio_eta : Eta McpStdioJsonRpcTransport := fun t =>
  MkStdio (st_process t) (st_stdin t) (st_open t) (st_writes t) (st_receiver t) (st_audit t).

(** One [write_all] or [flush]; a flush writes nothing. *)
Definition stdin_write (t : McpStdioJsonRpcTransport) (text : string) : Result string unit * McpStdioJsonRpcTransport :=
  if negb (st_open t) then (Ok tt, t) else
  match st_writes t with
  | Some error :: r => (Err error, t <| st_writes := r |>)
  | writes => (Ok tt, t <| st_writes := List.tl writes |> <| st_stdin := st_stdin t +:+ text |>)
  end.

Definition shutdown (t : McpStdioJsonRpcTransport) : list string * McpStdioJsonRpcTransport :=
  let audit :=
    match st_process t with
    | None => []
    | Some process => [if terminates process then "mcp.stdio:stopped" else "mcp.stdio:termination_failed"]
    end in
  (audit, t <| st_open := false |> <| st_process := None |>).

Definition response_timed_out (expected_id : N) : EvaError :=
  timeout_error "MCP JSON-RPC response timed out" ⊕ ("json_rpc_id", n_to_string expected_id).

(** Whether one line of output answers the request: [Ok None] to go on. *)
Definition line_response (line : string) (expected_id limit : N) : Res (option string) :=
  match from_utf8 line with
  | Err error =>
      Err (with_provider_code (unavailable "MCP JSON-RPC response was not UTF-8") "mcp_protocol_error"
             ⊕ ("utf8_error", error))
  | Ok text =>
      enforce_response_limit text limit >>?
      let envelope := trim text in
      if negb (starts_with "{" envelope) then Ok None else
      let? id := json_u64_field envelope "id" in
      match id with
      | None => Ok None
      | Some id =>
          reject negb (id =? expected_id)%N with
            protocol_error "MCP JSON-RPC response id mismatch"
              ⊕ ("expected_id", n_to_string expected_id) ⊕ ("actual_id", n_to_string id) else
          Ok (Some text)
      end
  end.

(** The loop of [exchange] over what is received before the deadline: the
    outcome, whether the server is shut down, and what is left to receive. *)
Fixpoint await_response (expected_id limit : N) (received : list Received) : Res string * bool * list Received :=
  match received with
  | [] | RecvTimeout :: _ => (Err (response_timed_out expected_id), true, List.tl received)
  | RecvDisconnected :: r =>
      (Err (with_provider_code (unavailable "MCP stdio reader stopped") "mcp_stdio_reader_stopped"), true, r)
  | Message LimitExceeded :: r =>
      (Err (with_provider_code (conflict "MCP JSON-RPC response exceeded output limit") "mcp_response_too_large"
              ⊕ ("output_limit_bytes", n_to_string limit)), true, r)
  | Message (ReadError error) :: r =>
      (Err (unavailable "failed to read MCP JSON-RPC response" ⊕ ("io_error", error)), true, r)
  | Message Eof :: r =>
      (Err (with_provider_code (unavailable "MCP stdio server closed stdout") "mcp_stdio_eof"), true, r)
  | Message (Line line) :: r =>
      match line_response line expected_id limit with
      | Err error => (Err error, false, r)
      | Ok (Some text) => (Ok text, false, r)
      | Ok None => await_response expected_id limit r
      end
  end.

(** [.map_err(|error| unavailable(message).with_context("io_error", error))] *)
Definition io_unavailable {A} (message : string) (r : Result string A) : Res A :=
  match r with Ok a => Ok a | Err error => Err (unavailable message ⊕ ("io_error", error)) end.

Definition stdio_exchange (t : McpStdioJsonRpcTransport) (expected_id : N) (request : string)
    (_timeout limit : N) : Res string * McpStdioJsonRpcTransport :=
  if (limit =? 0)%N then (Err (invalid_argument "MCP response output limit must be greater than zero"), t) else
  let '(w1, t) := stdin_write t request in
  let@ _, t := (io_unavailable "failed to write MCP JSON-RPC request" w1, t) in
  let '(w2, t) := stdin_write t (str nl) in
  let@ _, t := (io_unavailable "failed to write MCP JSON-RPC newline" w2, t) in
  let '(w3, t) := stdin_write t "" in
  let@ _, t := (io_unavailable "failed to flush MCP JSON-RPC request" w3, t) in
  let '(outcome, stopped, received) := await_response expected_id limit (st_receiver t) in
  let t := t <| st_receiver := received |> in
  (outcome, if stopped : bool then (shutdown t).2 else t).

Definition stdio_notify (t : McpStdioJsonRpcTransport) (notification : string) (_timeout _limit : N) :
    Res unit * McpStdioJsonRpcTransport :=
  let failed := "failed to write MCP JSON-RPC notification" in
  let '(w1, t) := stdin_write t notification in
  let@ _, t := (io_unavailable failed w1, t) in
  let '(w2, t) := stdin_write t (str nl) in
  let@ _, t := (io_unavailable failed w2, t) in
  let '(w3, t) := stdin_write t "" in
  (io_unavailable failed w3, t).

#[export] Instance stdio_transport : McpJsonRpcTransport McpStdioJsonRpcTransport := {
  exchange := stdio_exchange;
  notify := stdio_notify;
  transport_audit := st_audit
}.
