(* ===== verification/McpReader.v ===== *)
(** * The stdio reader thread (crates/eva-mcp/src/json_rpc.rs, spawn_stdout_reader)

    The messages the thread sends depend on the bytes of the server's output,
    not on how the reads cut them. *)

From Stdlib Require Import Ascii.
From stdpp Require Import base numbers strings list.
From S2P Require Import Prelude RustStr Error Json JsonStrings McpJsonRpc McpClient.

(** ** The reference: the lines of the whole output *)

(** The bytes before the end of the output, and the message that reports it. *)
Fixpoint stream_text (buffers : list (Result string string)) : string :=
  match buffers with
  | Ok buffer :: r => if str_is_empty buffer then "" else buffer +:+ stream_text r
  | _ => ""
  end.
Fixpoint stream_end (buffers : list (Result string string)) : ReaderMessage :=
  match buffers with
  | [] => Eof
  | Err error :: _ => ReadError error
  | Ok buffer :: r => if str_is_empty buffer then Eof else stream_end r
  end.

(** The messages for the pieces of [split]: every piece but the last ends
    with a newline. *)
Fixpoint line_messages (ending : ReaderMessage) (pieces : list string) : list ReaderMessage :=
  match pieces with
  | [] => [ending]
  | [l] => if (READER_LINE_LIMIT <? slen l)%N then [LimitExceeded] else [ending]
  | l :: r =>
      if (READER_LINE_LIMIT <? slen (l +:+ str nl))%N then [LimitExceeded]
      else Line (l +:+ str nl) :: line_messages ending r
  end.

(** ** Splitting *)

Lemma split_line c l t : contains_char c l = false -> split c (l +:+ String c t) = l :: split c t.
Proof.
  induction l as [|d l IH]; cbn [contains_char].
  - intros _. rewrite append_nil_l. cbn [split]. by rewrite (proj2 (Ascii.eqb_eq c c) eq_refl).
  - intros [Hd Hl]%orb_false_iff. rewrite append_cons. cbn [split]. by rewrite Hd, IH.
Qed.

Lemma split_unbroken c l t :
  contains_char c l = false -> exists w ws, split c (l +:+ t) = (l +:+ w) :: ws.
Proof.
  induction l as [|d l IH]; cbn [contains_char].
  - intros _. rewrite append_nil_l. destruct (split c t) as [|w ws] eqn:E; [|by exists w, ws].
    exfalso. destruct t as [|d t]; [done|]. cbn [split] in E. destruct (Ascii.eqb c d); [done|].
    by destruct (split c t).
  - intros [Hd Hl]%orb_false_iff. rewrite append_cons. cbn [split]. rewrite Hd.
    destruct (IH Hl) as (w & ws & ->). by exists w, ws.
Qed.

Lemma slen_append s t : slen (s +:+ t) = (slen s + slen t)%N.
Proof. unfold slen. rewrite length_append. lia. Qed.

(** A first piece beyond the limit stops the reader. *)
Lemma line_messages_exceeded ending l w ws :
  (READER_LINE_LIMIT < slen l)%N -> line_messages ending ((l +:+ w) :: ws) = [LimitExceeded].
Proof.
  intros H. cbn [line_messages]. destruct ws as [|w' ws].
  - by rewrite (proj2 (N.ltb_lt _ _)) by (rewrite slen_append; lia).
  - by rewrite (proj2 (N.ltb_lt _ _)) by (rewrite !slen_append; lia).
Qed.

Lemma line_messages_line ending l t :
  contains_char nl l = false -> (slen (l +:+ str nl) <= READER_LINE_LIMIT)%N ->
  line_messages ending (split nl (l +:+ String nl t)) = Line (l +:+ str nl) :: line_messages ending (split nl t).
Proof.
  intros Hl Hb. rewrite split_line by done. destruct (split_unbroken nl "" t eq_refl) as (w & ws & E).
  rewrite append_nil_l in E. rewrite E. cbn [line_messages]. by rewrite (proj2 (N.ltb_ge _ _)).
Qed.

Lemma split_single c l : contains_char c l = false -> split c l = [l].
Proof.
  induction l as [|d l IH]; [done|]. cbn [contains_char]. intros [Hd Hl]%orb_false_iff.
  cbn [split]. by rewrite Hd, IH.
Qed.

(** Where the output ends. *)
Lemma line_messages_stop line ending :
  contains_char nl line = false -> (slen line <= READER_LINE_LIMIT)%N ->
  line_messages ending (split nl (line +:+ "")) = [ending].
Proof.
  intros Hl Hb. rewrite append_nil_r, split_single by done. cbn [line_messages].
  by rewrite (proj2 (N.ltb_ge _ _)).
Qed.

(** ** The reader *)

Lemma through_newline_spec b taken remainder :
  through_newline b = (taken, remainder) ->
  b = taken +:+ remainder /\
  ((exists l, taken = l +:+ str nl /\ contains_char nl l = false) \/
   (remainder = "" /\ contains_char nl taken = false)).
Proof.
  revert taken remainder. induction b as [|c b IH]; intros taken remainder; cbn [through_newline].
  - intros [= <- <-]. split; [done|]. by right.
  - destruct (Ascii.eqb c nl) eqn:Ec.
    + intros [= <- <-]. apply Ascii.eqb_eq in Ec as ->. split; [done|]. left. by exists "".
    + destruct (through_newline b) as [taken' remainder'] eqn:E. intros [= <- <-].
      assert (Ascii.eqb nl c = false) as Ec' by (by rewrite Ascii.eqb_sym).
      destruct (IH _ _ eq_refl) as [-> [(l & -> & Hl)|[-> Hl]]]; (split; [done|]).
      * left. exists (String c l). split; [done|]. cbn [contains_char]. by rewrite Ec', Hl.
      * right. split; [done|]. cbn [contains_char]. by rewrite Ec', Hl.
Qed.

Lemma ends_with_char_snoc c s : ends_with_char c (s +:+ str c) = true.
Proof.
  induction s as [|d s IH]; [by apply Ascii.eqb_refl|]. rewrite append_cons. cbn [ends_with_char].
  by destruct (s +:+ str c) eqn:E; [destruct s|].
Qed.

Lemma ends_with_contains c s : ends_with_char c s = true -> contains_char c s = true.
Proof.
  induction s as [|d s IH]; [done|]. cbn [ends_with_char contains_char].
  destruct s; [by intros ->|]. intros H. by rewrite IH, orb_true_r.
Qed.

Lemma over_limit a b :
  (READER_LINE_LIMIT <? saturating_add usize_max (slen a) (slen b))%N = (READER_LINE_LIMIT <? slen (a +:+ b))%N.
Proof.
  rewrite slen_append. unfold saturating_add. apply Bool.eq_iff_eq_true. rewrite !N.ltb_lt.
  unfold READER_LINE_LIMIT, DEFAULT_OUTPUT_LIMIT_BYTES, usize_max, u64_max. lia.
Qed.

Lemma reader_loop_lines fuel : forall line buffers,
  sum_list (buffer_fuel <$> buffers) < fuel ->
  contains_char nl line = false -> (slen line <= READER_LINE_LIMIT)%N ->
  reader_loop fuel line buffers =
  line_messages (stream_end buffers) (split nl (line +:+ stream_text buffers)).
Proof.
  induction fuel as [|fuel IH]; intros line buffers Hfuel Hline Hlimit; [lia|].
  cbn [reader_loop]. destruct buffers as [|[buffer|error] rest]; [by rewrite line_messages_stop| |by rewrite line_messages_stop].
  cbn [stream_text stream_end]. destruct (str_is_empty buffer) eqn:Ee; [by rewrite line_messages_stop|].
  change (S (String.length buffer) + sum_list (buffer_fuel <$> rest) < S fuel) in Hfuel.
  destruct (through_newline buffer) as [taken remainder] eqn:Et.
  destruct (through_newline_spec _ _ _ Et) as [-> Hcase]. rewrite over_limit.
  set (buffers' := if str_is_empty remainder then rest else Ok remainder :: rest).
  assert (stream_text buffers' = remainder +:+ stream_text rest /\ stream_end buffers' = stream_end rest /\
          sum_list (buffer_fuel <$> buffers') <= S (String.length remainder) + sum_list (buffer_fuel <$> rest))
    as (Htext & Hend & Hsum).
  { unfold buffers'. destruct (str_is_empty remainder) eqn:Er.
    - apply String.eqb_eq in Er as ->. rewrite append_nil_l. split_and!; [done..|cbn; lia].
    - cbn [stream_text stream_end]. rewrite Er. done. }
  rewrite <- append_assoc, <- Htext, <- Hend.
  assert (0 < String.length taken) as Hpos.
  { destruct taken; [|cbn; lia]. destruct Hcase as [(l & E & _)|[-> _]]; [by destruct l|done]. }
  rewrite length_append in Hfuel. destruct Hcase as [(l & -> & Hl)|[-> Hl]].
  - assert (contains_char nl (line +:+ l) = false) as Hll by (by rewrite contains_char_append, Hline, Hl).
    set (text := stream_text buffers').
    assert (line +:+ (l +:+ str nl) +:+ text = (line +:+ l) +:+ String nl text) as ->.
    { by rewrite <- !append_assoc. }
    rewrite (append_assoc line l), ends_with_char_snoc. destruct (_ <? _)%N eqn:Eb.
    + rewrite split_line by done. destruct (split_unbroken nl "" text eq_refl) as (w & ws & E).
      rewrite append_nil_l in E. rewrite E. cbn [line_messages]. by rewrite Eb.
    + apply N.ltb_ge in Eb. rewrite line_messages_line by done. f_equal. rewrite IH; [done|lia|done|apply N.le_0_l].
  - assert (contains_char nl (line +:+ taken) = false) as Hll by (by rewrite contains_char_append, Hline, Hl).
    assert (ends_with_char nl (line +:+ taken) = false) as ->.
    { destruct (ends_with_char nl (line +:+ taken)) eqn:E; [|done]. apply ends_with_contains in E. congruence. }
    rewrite !append_assoc. destruct (_ <? _)%N eqn:Eb.
    + apply N.ltb_lt in Eb. destruct (split_unbroken nl (line +:+ taken) (stream_text buffers') Hll) as (w & ws & ->).
      by rewrite line_messages_exceeded.
    + apply N.ltb_ge in Eb. apply IH; [|done..]. subst buffers'. cbn in Hsum |- *. lia.
Qed.

(** The reader thread reports the lines of the server's output, whatever
    the sizes of the reads that delivered it: a complete line with its
    newline, unless it is longer than the limit of 1 MiB, at which the reader
    stops; then the end of the output, or the read error.  A last line
    without newline is never reported as a line. *)
Theorem stdout_reader_chunking buffers :
  spawn_stdout_reader buffers = line_messages (stream_end buffers) (split nl (stream_text buffers)).
Proof. unfold spawn_stdout_reader. rewrite reader_loop_lines; [done|lia|done|apply N.le_0_l]. Qed.

(** ** Valid texts stay valid

    The characters of a valid text are valid texts, JSON literals of valid
    texts are valid, and [String::from_utf8] takes every valid text. *)

(** The bytes of a wide character, in the cases of [utf8_valid]. *)
Inductive wide_bytes : string -> Prop :=
| wide_2 a b : in_range 194 223 a = true -> in_range 128 191 b = true -> wide_bytes (String a (str b))
| wide_3 a b c : in_range 224 239 a = true -> second_byte a b = true -> in_range 128 191 c = true ->
    wide_bytes (String a (String b (str c)))
| wide_4 a b c d : in_range 240 244 a = true -> second_byte a b = true -> in_range 128 191 c = true ->
    in_range 128 191 d = true -> wide_bytes (String a (String b (String c (str d)))).

(** A valid text is empty or starts with a character. *)
Inductive valid_text : string -> Prop :=
| valid_nil : valid_text ""
| valid_ascii a s : in_range 0 127 a = true -> valid_text s -> valid_text (String a s)
| valid_wide c s : wide_bytes c -> valid_text s -> valid_text (c +:+ s).

Lemma range_disjoint lo hi lo' hi' a : in_range lo hi a = true -> (hi < lo')%N -> in_range lo' hi' a = false.
Proof. unfold in_range. rewrite andb_true_iff, andb_false_iff, !N.leb_le, !N.leb_gt. lia. Qed.
Lemma range_disjoint_low lo hi lo' hi' a : in_range lo hi a = true -> (hi' < lo)%N -> in_range lo' hi' a = false.
Proof. unfold in_range. rewrite andb_true_iff, andb_false_iff, !N.leb_le, !N.leb_gt. lia. Qed.
Ltac out_of_range := first [eapply range_disjoint; [eassumption|lia] | eapply range_disjoint_low; [eassumption|lia]].

Lemma valid_text_iff s : utf8_valid s = true -> valid_text s.
Proof.
  remember (String.length s) as n eqn:Hn. assert (String.length s <= n) as Hle by lia. clear Hn.
  revert s Hle. induction n as [|n IH]; intros s Hle Hv; (destruct s as [|a s]; [constructor|]); cbn [String.length] in Hle; [lia|].
  cbn [utf8_valid] in Hv. destruct (in_range 0 127 a) eqn:Ea; [apply valid_ascii; [done|apply IH; [lia|done]]|].
  destruct s as [|b s]; [done|]. destruct (in_range 194 223 a) eqn:E2.
  { apply andb_true_iff in Hv as [Hb Hv]. apply (valid_wide (String a (str b))); [by constructor|apply IH; [cbn in Hle; lia|done]]. }
  destruct s as [|c s]; [done|].
  assert (forall Hs : in_range 224 239 a = true, second_byte a b = true -> in_range 128 191 c = true -> utf8_valid s = true ->
    valid_text (String a (String b (String c s)))) as H3.
  { intros. apply (valid_wide (String a (String b (str c)))); [by constructor|apply IH; [cbn in Hle; lia|done]]. }
  destruct (in_range 224 224 a) eqn:E3.
  { apply andb_true_iff in Hv as [[Hb Hc]%andb_true_iff Hr]. apply H3; [by eapply in_range_le| |done..].
    unfold second_byte. by rewrite E3. }
  destruct (in_range 237 237 a) eqn:E4.
  { apply andb_true_iff in Hv as [[Hb Hc]%andb_true_iff Hr]. apply H3; [by eapply in_range_le| |done..].
    unfold second_byte. by rewrite E3, E4. }
  destruct (in_range 225 239 a) eqn:E5.
  { apply andb_true_iff in Hv as [[Hb Hc]%andb_true_iff Hr]. apply H3; [by eapply in_range_le| |done..].
    unfold second_byte. rewrite E3, E4.
    assert (in_range 240 240 a = false) as -> by out_of_range. assert (in_range 244 244 a = false) as -> by out_of_range. done. }
  destruct s as [|d s]; [done|]. apply andb_true_iff in Hv as [[[Hab Hc]%andb_true_iff Hd]%andb_true_iff Hr].
  apply (valid_wide (String a (String b (String c (str d))))); [|apply IH; [cbn in Hle; lia|done]].
  assert (in_range 240 244 a = true /\ second_byte a b = true) as [? ?]; [|by constructor].
  unfold second_byte. rewrite E3, E4.
  apply orb_true_iff in Hab as [[[H1 H2]%andb_true_iff|[H1 H2]%andb_true_iff]%orb_true_iff|[H1 H2]%andb_true_iff];
    (split; [by eapply in_range_le|]).
  - by rewrite H1.
  - assert (in_range 240 240 a = false) as -> by out_of_range. assert (in_range 244 244 a = false) as -> by out_of_range. done.
  - assert (in_range 240 240 a = false) as -> by out_of_range. by rewrite H1.
Qed.

Lemma wide_valid c : wide_bytes c -> utf8_valid c = true.
Proof.
  destruct 1 as [a b Ha Hb|a b c Ha Hs Hc|a b c d Ha Hs Hc Hd]; unfold str; cbn [utf8_valid].
  - assert (in_range 0 127 a = false) as -> by out_of_range. by rewrite Ha, Hb.
  - assert (in_range 0 127 a = false) as -> by out_of_range. assert (in_range 194 223 a = false) as -> by out_of_range.
    unfold second_byte in Hs. destruct (in_range 224 224 a) eqn:E1; [by rewrite Hs, Hc|].
    destruct (in_range 237 237 a); [by rewrite Hs, Hc|].
    assert (in_range 225 239 a = true) as ->.
    { unfold in_range in *. rewrite andb_true_iff, !N.leb_le in *. rewrite andb_false_iff, !N.leb_gt in E1. lia. }
    assert (in_range 240 240 a = false) as E2 by out_of_range. assert (in_range 244 244 a = false) as E3 by out_of_range.
    rewrite E2, E3 in Hs. by rewrite Hs, Hc.
  - assert (in_range 0 127 a = false) as -> by out_of_range. assert (in_range 194 223 a = false) as -> by out_of_range.
    assert (in_range 224 224 a = false) as E0 by out_of_range. assert (in_range 237 237 a = false) as E1 by out_of_range.
    assert (in_range 225 239 a = false) as -> by out_of_range. unfold second_byte in Hs. rewrite E0, E1 in *. rewrite Hc, Hd.
    destruct (in_range 240 240 a) eqn:E2; [by rewrite Hs|]. destruct (in_range 244 244 a) eqn:E3; [by rewrite Hs, !orb_true_r|].
    assert (in_range 241 243 a = true) as ->.
    { unfold in_range in *. rewrite andb_true_iff, !N.leb_le in *. rewrite andb_false_iff, !N.leb_gt in E2, E3. lia. }
    by rewrite Hs.
Qed.

Lemma wide_is_char c : wide_bytes c -> utf8_char c.
Proof. destruct 1; [by apply char2|by apply char3|by apply char4]. Qed.

Lemma chars_valid s : utf8_valid s = true -> Forall (fun c => utf8_valid c = true) (chars s).
Proof.
  intros H%valid_text_iff. induction H as [|a s Ha _ IH|c s Hc _ IH]; [constructor| |].
  - rewrite chars_ascii by exact Ha. constructor; [cbn; by rewrite Ha|done].
  - rewrite (wide_is_char c Hc). constructor; [by apply wide_valid|done].
Qed.

(** Literals. *)
Lemma escape_valid c : scalar c -> utf8_valid c = true -> utf8_valid (escape_json_char c) = true.
Proof.
  intros [(a & Ha & ->)|Hw] Hc.
  - apply ascii_utf8. revert Ha. apply (ascii_impl is_ascii (fun a => bytes_all is_ascii (escape_json_char (str a)))).
    vm_compute. reflexivity.
  - destruct (wide_escape c Hw) as [->|(n & -> & Hn)]; [done|]. unfold unicode_escape_ok in Hn.
    destruct (hex4 n) as [|h1 [|h2 [|h3 [|h4 [|]]]]]; try done. rewrite !andb_true_iff in Hn. destruct_and? Hn.
    apply ascii_utf8.
    change (bytes_all is_ascii (String backslash (String "u" (String h1 (String h2 (String h3 (str h4)))))) = true). cbn [bytes_all str].
    repeat match goal with Hx : is_ascii ?h = true |- context [is_ascii ?h] => rewrite Hx end. reflexivity.
Qed.

Lemma json_string_valid v : utf8_valid v = true -> utf8_valid (json_string v) = true.
Proof.
  intros Hv. pose proof (utf8_scalars v Hv) as [Hs _]. pose proof (chars_valid v Hv) as Hc.
  unfold json_string, mcp_escape_json. apply utf8_valid_append; [done|]. apply utf8_valid_append; [|done].
  clear Hv. induction Hs as [|c cs Hsc _ IH]; [done|]. inversion Hc as [|? ? Hc1 Hc2]; subst.
  rewrite fmap_cons. apply utf8_valid_append; [by apply escape_valid|by apply IH].
Qed.

(** Decoding. *)
Lemma utf8_error_none s : valid_text s -> forall i, utf8_error_at i s = None.
Proof.
  induction 1 as [|a s Ha _ IH|c s Hc _ IH]; intros i; [done| |].
  - cbn [utf8_error_at]. by rewrite Ha, IH.
  - destruct Hc as [a b Ha Hb|a b c Ha Hs Hc|a b c d Ha Hs Hc Hd]; unfold str; rewrite !append_cons, append_nil_l;
      cbn [utf8_error_at]; assert (in_range 0 127 a = false) as -> by out_of_range;
      assert (in_range 194 244 a = true) as -> by (by eapply in_range_le); cbn [negb].
    + assert (second_byte a b = true) as ->.
      { unfold second_byte. assert (in_range 224 224 a = false) as -> by out_of_range.
        assert (in_range 237 237 a = false) as -> by out_of_range. assert (in_range 240 240 a = false) as -> by out_of_range.
        assert (in_range 244 244 a = false) as -> by out_of_range. done. }
      rewrite Ha. apply IH.
    + rewrite Hs, Hc. assert (in_range 194 223 a = false) as -> by out_of_range. rewrite Ha. apply IH.
    + rewrite Hs, Hc, Hd. assert (in_range 194 223 a = false) as -> by out_of_range.
      assert (in_range 224 239 a = false) as -> by out_of_range. apply IH.
Qed.

Lemma from_utf8_valid s : utf8_valid s = true -> from_utf8 s = Ok s.
Proof. intros H%valid_text_iff. unfold from_utf8. by rewrite utf8_error_none. Qed.
