(* ===== verification/McpRequests.v ===== *)
(** * The texts the MCP client writes (crates/eva-mcp/src/json_rpc.rs)

    The requests, notifications and call reports are JSON objects with the
    fields they are meant to have, provided the tool input is embedded as a
    JSON value. *)

From Stdlib Require Import Ascii Decimal DecimalString DecimalFacts DecimalPos DecimalN.
From stdpp Require Import base numbers strings gmap list.
From S2P Require Import Prelude RustStr Error Ids Json JsonGrammar JsonStrings McpJsonRpc McpClient.

(** ** Objects without white space *)

Fixpoint compact_members (kvs : list (string * string)) : string :=
  match kvs with
  | [] => "}"
  | [(k, v)] => json_string k +:+ String ":" (v +:+ "}")
  | (k, v) :: r => json_string k +:+ String ":" (v +:+ String "," (compact_members r))
  end.
Definition compact_object (kvs : list (string * string)) : string := String "{" (compact_members kvs).

Definition values_within (n : nat) (kvs : list (string * string)) : Prop :=
  Forall (fun kv => utf8_valid kv.1 = true /\ json_value n kv.2) kvs.

Lemma blank_nil : blank "".
Proof. done. Qed.
#[local] Hint Resolve blank_nil : core.

Lemma parse_literal k : utf8_valid k = true -> parse_json_string (json_string k) = Ok k.
Proof. intros H. rewrite <- (append_nil_r (json_string k)). by apply parse_json_string_literal. Qed.

Lemma compact_field_list kvs : kvs <> [] -> values_within (nesting_left 1) kvs ->
  field_list kvs (compact_members kvs).
Proof.
  induction kvs as [|[k v] kvs IH]; [done|]. intros _ H. inversion H as [|? ? [Hk Hv] Hr]; subst.
  destruct kvs as [|kv kvs].
  - apply (fields_last k (json_string k) "" "" v "" ""); try done; [by apply json_string_token|by apply parse_literal].
  - apply (fields_more k (json_string k) "" "" v "" ""); try done;
      [by apply json_string_token|by apply parse_literal|exact (IH ltac:(done) Hr)].
Qed.

Lemma compact_object_fields kvs :
  kvs <> [] -> NoDup kvs.*1 -> values_within (nesting_left 1) kvs ->
  parse_json_object_fields (compact_object kvs) = Ok (list_to_map kvs).
Proof.
  intros Hne Hnd Hv. apply object_fields_iff. exists kvs. split_and!; [|done..].
  exists "", (compact_members kvs). split_and!; [done..|]. exists "". split; [done|]. right.
  eexists. split; [by apply compact_field_list|done].
Qed.

Lemma compact_members_text n kvs : kvs <> [] -> values_within n kvs -> members n (compact_members kvs).
Proof.
  induction kvs as [|[k v] kvs IH]; [done|]. intros _ H. inversion H as [|? ? [Hk Hv] Hr]; subst.
  destruct kvs as [|kv kvs].
  - apply (members_last n (json_string k) "" "" v ""); try done. by apply json_string_token.
  - apply (members_more n (json_string k) "" "" v "" ""); try done; [by apply json_string_token|exact (IH ltac:(done) Hr)].
Qed.

Lemma compact_object_value n kvs : values_within n kvs -> json_value (S n) (compact_object kvs).
Proof.
  destruct kvs as [|kv kvs]; intros H; [by apply (value_empty_object n "")|].
  apply (value_object n ""); [done|]. exact (compact_members_text n (kv :: kvs) ltac:(done) H).
Qed.

Lemma json_string_value n s : utf8_valid s = true -> json_value n (json_string s).
Proof. intros H. by apply value_string, json_string_token. Qed.

(** ** Numbers *)

Lemma n_to_string_integer n : integer_part (n_to_string n).
Proof.
  unfold n_to_string. assert (N.to_uint n = Decimal.unorm (N.to_uint n)) as ->.
  { by rewrite <- DecimalN.Unsigned.to_of, DecimalN.Unsigned.of_to. }
  unfold Decimal.unorm. generalize (N.to_uint n) as d.
  induction d; [apply int_zero|exact IHd|..]; cbn [Decimal.nzhead NilZero.string_of_uint NilEmpty.string_of_uint];
    (apply int_digits; [done|done|apply string_of_uint_digits]).
Qed.

Lemma number_value n m : json_value m (n_to_string n).
Proof.
  apply value_primitive. right. exists "", (n_to_string n), "", "". rewrite !append_nil_r.
  split_and!; [done|by left|apply n_to_string_integer|constructor|constructor].
Qed.

(** ** Nesting *)

Lemma nesting_monotone :
  (forall n t, json_value n t -> forall m, n <= m -> json_value m t) /\
  (forall n t, members n t -> forall m, n <= m -> members m t) /\
  (forall n t, elements n t -> forall m, n <= m -> elements m t).
Proof.
  apply json_mutind; intros.
  1: by apply value_string.
  1: by apply value_primitive.
  1-4: destruct m as [|m]; [lia|].
  1: by apply value_empty_object.
  1: apply value_object; auto with lia.
  1: by apply value_empty_array.
  1: apply value_array; auto with lia.
  1: apply members_last; auto.
  1: apply members_more; auto.
  1: apply elements_last; auto.
  apply elements_more; auto.
Qed.

Lemma values_within_le n m kvs : n <= m -> values_within n kvs -> values_within m kvs.
Proof.
  intros Hle H. eapply Forall_impl; [exact H|]. intros kv [Hk Hv]. split; [done|]. by apply (proj1 nesting_monotone n).
Qed.

Lemma cons_nonempty {A} (x : A) l : x :: l <> [].
Proof. done. Qed.

(** A field of an object that was built without white space. *)
Lemma compact_object_field kvs k :
  kvs <> [] -> NoDup kvs.*1 -> values_within (nesting_left 1) kvs ->
  json_field_value (compact_object kvs) k = Ok ((list_to_map kvs : gmap string string) !! k).
Proof. intros ? ? ?. unfold json_field_value. by rewrite compact_object_fields. Qed.

Lemma string_field_of text k v :
  json_field_value text k = Ok (Some (json_string v)) -> utf8_valid v = true ->
  json_string_field text k = Ok (Some v).
Proof. intros H Hv. unfold json_string_field. rewrite H. cbn [transpose]. by rewrite parse_literal. Qed.

Lemma u64_field_of text k n :
  json_field_value text k = Ok (Some (n_to_string n)) -> (n <= u64_max)%N ->
  json_u64_field text k = Ok (Some n).
Proof.
  intros H Hn. unfold json_u64_field, numeric_field. rewrite H. cbn [transpose].
  rewrite trim_graphic by (apply digits_graphic, n_to_string_digits). by rewrite parse_u64_to_string.
Qed.

(** ** The requests *)

(** Equality of texts up to the nesting of their pieces. *)
Ltac same_text := repeat (progress (rewrite ?append_cons, <- ?append_assoc)); reflexivity.

(** The input is sent as it stands. *)
Definition embedded (input : string) : bool :=
  let trimmed := trim input in
  negb (str_is_empty trimmed) && starts_with "{" trimmed && ends_with_char "}" trimmed.

(** What the input is: a JSON value when it is embedded. *)
Definition input_ok (input : string) : Prop :=
  utf8_valid input = true /\
  (embedded input = true -> json_value_token_end_at_depth (trim input) 2 = Ok "").

Lemma arguments_value input : input_ok input -> json_value (nesting_left 2) (tool_arguments_json input).
Proof.
  unfold input_ok, embedded, tool_arguments_json. intros [Hu Hv].
  destruct (str_is_empty (trim input)); [by apply (value_empty_object _ "")|].
  destruct (starts_with "{" (trim input) && ends_with_char "}" (trim input)) eqn:Ew.
  - specialize (Hv Ew). apply scanner_sound in Hv as (v & Hv & E & _). by rewrite append_nil_r in E; subst v.
  - apply (compact_object_value _ [("input", json_string input)]). constructor; [|done].
    split; [done|]. by apply json_string_value.
Qed.

(** Every value of a literal list of fields. *)
Ltac each_value :=
  unfold values_within; rewrite ?Forall_cons, Forall_nil; cbn [fst snd];
  split_and!; auto using json_string_value, number_value, arguments_value.

Definition request_fields (id : N) (method params : string) : list (string * string) :=
  [("jsonrpc", json_string "2.0"); ("id", n_to_string id); ("method", json_string method); ("params", params)].

Definition call_params (tool input : string) : list (string * string) :=
  [("name", json_string tool); ("arguments", tool_arguments_json input)].

Lemma tools_call_text id tool input :
  tools_call_request id tool input = compact_object (request_fields id "tools/call" (compact_object (call_params tool input))).
Proof.
  unfold tools_call_request, compact_object, call_params, request_fields. cbn [compact_members].
  generalize (tool_arguments_json input) (json_string tool) (n_to_string id). intros a t i.
  same_text.
Qed.

Lemma request_fields_ok id method params :
  utf8_valid method = true -> json_value (nesting_left 1) params ->
  NoDup (request_fields id method params).*1 /\ values_within (nesting_left 1) (request_fields id method params).
Proof.
  intros Hm Hp. split; [apply (bool_decide_unpack _); vm_compute; exact I|].
  unfold request_fields. each_value.
Qed.

Lemma call_params_ok tool input : utf8_valid tool = true -> input_ok input ->
  NoDup (call_params tool input).*1 /\ values_within (nesting_left 2) (call_params tool input).
Proof.
  intros Ht Hi. split; [apply (bool_decide_unpack _); vm_compute; exact I|].
  unfold call_params. each_value.
Qed.

(** A [tools/call] request is a JSON object whose [method], [id] and
    [params] are the ones meant: the receiver that reads [params] finds the
    tool's name and the arguments, provided an input that is sent as it stands
    is one JSON value. *)
Theorem tools_call_request_reads id tool input :
  (id <= u64_max)%N -> utf8_valid tool = true -> input_ok input ->
  let request := tools_call_request id tool input in
  json_string_field request "jsonrpc" = Ok (Some "2.0") /\
  json_u64_field request "id" = Ok (Some id) /\
  json_string_field request "method" = Ok (Some "tools/call") /\
  exists params,
    json_field_value request "params" = Ok (Some params) /\
    json_string_field params "name" = Ok (Some tool) /\
    json_field_value params "arguments" = Ok (Some (tool_arguments_json input)).
Proof.
  intros Hid Ht Hi request. unfold request. rewrite tools_call_text.
  destruct (call_params_ok tool input Ht Hi) as [Hnp Hvp].
  destruct (request_fields_ok id "tools/call" (compact_object (call_params tool input))) as [Hn Hv];
    [done|by apply compact_object_value|].
  pose proof (fun k => compact_object_field _ k (cons_nonempty _ _) Hn Hv) as Hf.
  apply (values_within_le _ (nesting_left 1)) in Hvp; [|vm_compute; lia].
  pose proof (fun k => compact_object_field _ k (cons_nonempty _ _) Hnp Hvp) as Hp.
  split_and!.
  - apply string_field_of; [exact (Hf "jsonrpc")|done].
  - apply u64_field_of; [exact (Hf "id")|done].
  - apply string_field_of; [exact (Hf "method")|done].
  - exists (compact_object (call_params tool input)). split; [exact (Hf "params")|]. split.
    + apply string_field_of; [exact (Hp "name")|done].
    + exact (Hp "arguments").
Qed.

Lemma tools_call_request_reads_witness :
  exists params,
    json_field_value (tools_call_request 3 "read" (js "{'path':'a'}")) "params" = Ok (Some params) /\
    json_string_field params "name" = Ok (Some "read") /\
    json_field_value params "arguments" = Ok (Some (js "{'path':'a'}")).
Proof.
  destruct (tools_call_request_reads 3 "read" (js "{'path':'a'}")) as (_ & _ & _ & params & H1 & H2 & H3).
  - by apply N.leb_le.
  - reflexivity.
  - split; [reflexivity|]. intros _. vm_compute. reflexivity.
  - exists params. split_and!; [exact H1|exact H2|exact H3].
Defined.

(** ** The call report *)

Definition output_fields (adapter_id : AdapterId) (tool result : string) : list (string * string) :=
  [("transport", json_string "mcp"); ("adapter_id", json_string (id_str adapter_id)); ("tool", json_string tool);
   ("mode", json_string "json-rpc"); ("result", result)].

Lemma call_output_text a tool result : call_output a tool result = compact_object (output_fields a tool result).
Proof. unfold call_output, compact_object, output_fields. cbn [compact_members]. same_text. Qed.

(** The value of a field of a parsed object is a JSON value of its own. *)
Lemma field_value_text text k v :
  json_field_value text k = Ok (Some v) -> json_value (nesting_left 1) v.
Proof.
  unfold json_field_value. destruct (parse_json_object_fields text) as [fields|] eqn:E; [|done].
  apply object_fields_iff in E as (kvs & (w & s & _ & _ & w' & _ & Hr) & _ & ->). intros [= Hk].
  apply elem_of_list_to_map_2 in Hk.
  assert (forall kvs s, field_list kvs s -> forall kv, kv ∈ kvs -> json_value (nesting_left 1) kv.2) as Hfl.
  { clear. induction 1; intros kv Hkv.
    - apply list_elem_of_singleton in Hkv as ->. done.
    - apply elem_of_cons in Hkv as [->|Hkv]; [done|auto]. }
  destruct Hr as [(-> & _)|(s' & Hf & _)]; [by apply not_elem_of_nil in Hk|]. exact (Hfl _ _ Hf _ Hk).
Qed.

Lemma response_result_value response id result :
  parse_json_rpc_response response id = Ok result -> json_value (nesting_left 1) result.
Proof.
  unfold parse_json_rpc_response. intros H.
  destruct (json_string_field response "jsonrpc") as [version|]; [|done]. apply reject_Ok in H as [_ H].
  destruct (json_u64_field response "id") as [[id'|]|]; [|done..]. apply reject_Ok in H as [_ H].
  destruct (json_field_value response "error") as [[e|]|]; [done| |done].
  destruct (json_field_value response "result") as [[r|]|] eqn:E; [|done..].
  injection H as <-. exact (field_value_text _ _ _ E).
Qed.

Lemma call_output_fields a tool result :
  utf8_valid (id_str a) = true -> utf8_valid tool = true -> json_value (nesting_left 1) result ->
  parse_json_object_fields (call_output a tool result) = Ok (list_to_map (output_fields a tool result)).
Proof.
  intros Ha Ht Hr. rewrite call_output_text. apply compact_object_fields; [done| |].
  - apply (bool_decide_unpack _). vm_compute. exact I.
  - unfold output_fields. each_value.
Qed.
