(* ===== verification/McpCall.v ===== *)
(** * What one MCP tool call sends (crates/eva-mcp/src/json_rpc.rs, call_tool_with_transport)

    The order of the messages of a call and the checks between them, for any
    transport, and the lines they become on a stdio server's input. *)

From Stdlib Require Import Ascii.
From stdpp Require Import base numbers strings gmap list.
From S2P Require Import Prelude RustStr Error Ids Json JsonGrammar JsonStrings.
From S2P Require Import McpJsonRpc McpClient McpReader McpRequests.

(** ** Recording a transport *)

Inductive Sent :=
| SentRequest (id : N) (text : string) (reply : Res string)
| SentNotification (text : string) (reply : Res unit).

Definition sent_text (s : Sent) : string :=
  match s with SentRequest _ text _ => text | SentNotification text _ => text end.

#[export] Instance recorded {T} `{McpJsonRpcTransport T} : McpJsonRpcTransport (T * list Sent) := {
  exchange s id request timeout limit :=
    let '(reply, t) := exchange s.1 id request timeout limit in
    (reply, (t, s.2 ++ [SentRequest id request reply]));
  notify s notification timeout limit :=
    let '(reply, t) := notify s.1 notification timeout limit in
    (reply, (t, s.2 ++ [SentNotification notification reply]));
  transport_audit s := transport_audit s.1
}.

(** The messages of a call, in order. *)
Definition call_messages (c : McpJsonRpcClient) (tool input : string) : list string :=
  [initialize_request 1 (mc_config c); initialized_notification; tools_list_request 2;
   tools_call_request 3 tool input].

(** The request was sent and answered with a result within the limit. *)
Definition answered (c : McpJsonRpcClient) (s : option Sent) (id : N) (request result : string) : Prop :=
  exists response, s = Some (SentRequest id request (Ok response)) /\
    (slen response <= output_limit_bytes (mc_config c))%N /\
    parse_json_rpc_response response id = Ok result.

Lemma client_config_limit config :
  validate_client_config config = Ok tt -> (0 < output_limit_bytes config)%N.
Proof.
  unfold validate_client_config. intros Ev. apply then_Ok in Ev as [_ Ev]. apply reject_Ok in Ev as [_ Ev].
  apply reject_Ok in Ev as [_ Ev]. apply reject_Ok in Ev as [Hl _]. apply N.eqb_neq in Hl. lia.
Qed.

#[local] Opaque initialize_request initialized_notification tools_list_request tools_call_request
  validate_client_config parse_tools_list js call_output call_audit.

Section Sequence.
  Context `{McpJsonRpcTransport T}.

Lemma recorded_request (c : McpJsonRpcClient) (t : T) log id request :
  exists reply,
    request_response c (t, log) id request =
      ((request_response c t id request).1,
       ((request_response c t id request).2, log ++ [SentRequest id request reply])) /\
    forall result, (request_response c t id request).1 = Ok result <->
      answered c (Some (SentRequest id request reply)) id request result.
Proof.
  unfold request_response, answered. cbn [exchange recorded fst snd].
  destruct (exchange t id request _ _) as [[response|e] t'].
  - exists (Ok response). cbn. split; [done|]. unfold enforce_response_limit. intros result.
    destruct (_ <? _)%N eqn:El; [apply N.ltb_lt in El|apply N.ltb_ge in El]; (split; [try done; intros Hp|]).
    + intros (? & [= <-] & Hl & _). lia.
    + by exists response.
    + by intros (? & [= <-] & _ & ?).
  - exists (Err e). split; [done|]. intros result. split; [done|]. by intros (? & ? & _).
Qed.

Lemma recorded_notify (t : T) log text timeout limit :
  notify (t, log) text timeout limit =
    ((notify t text timeout limit).1,
     ((notify t text timeout limit).2, log ++ [SentNotification text (notify t text timeout limit).1])).
Proof. cbn. by destruct (notify t text timeout limit) as [reply t']. Qed.

(** The message at position [i] did what the next one needs: the request was
    answered with a result within the limit, the notification was delivered,
    and the listing names the tool. *)
Definition step_accepted (c : McpJsonRpcClient) (tool input : string) (log : list Sent) (i : nat) : Prop :=
  match i with
  | 0 => exists result, answered c (log !! 0) 1 (initialize_request 1 (mc_config c)) result
  | 1 => log !! 1 = Some (SentNotification initialized_notification (Ok tt))
  | 2 => exists listing names, answered c (log !! 2) 2 (tools_list_request 2) listing /\
           parse_tools_list listing = Ok names /\ tool ∈ names
  | _ => exists result, answered c (log !! 3) 3 (tools_call_request 3 tool input) result
  end.

(** What a finished or interrupted call has sent: a message follows another
    only when that one was accepted, and the call succeeds exactly when all
    four were. *)
Definition call_outcome (c : McpJsonRpcClient) (tool input : string) (log : list Sent) (r : Res McpJsonRpcCallReport) : Prop :=
  sent_text <$> log `prefix_of` call_messages c tool input /\
  (log <> [] -> validate_client_config (mc_config c) = Ok tt /\ permits_tool (mc_allowlist c) tool = true) /\
  (forall i, S i < length log -> step_accepted c tool input log i) /\
  (is_ok r = true <-> length log = 4 /\ step_accepted c tool input log 3) /\
  (forall report, r = Ok report -> exists result,
     answered c (log !! 3) 3 (tools_call_request 3 tool input) result /\
     cr_tool report = tool /\ cr_output report = call_output (mc_adapter_id c) tool result).

Lemma call_outcome_stopped c tool input log e :
  sent_text <$> log `prefix_of` call_messages c tool input ->
  (log <> [] -> validate_client_config (mc_config c) = Ok tt /\ permits_tool (mc_allowlist c) tool = true) ->
  (forall i, S i < length log -> step_accepted c tool input log i) ->
  (length log = 4 -> ~ step_accepted c tool input log 3) ->
  call_outcome c tool input log (Err e).
Proof. intros Hp Hg Hs Hn. split_and!; [done..| |done]. split; [done|]. by intros [? ?%Hn]. Qed.

(** The steps before the last message, from the facts of each. *)
Ltac accepted_steps :=
  let i := fresh "i" in let Hi := fresh "Hi" in
  intros i Hi; cbn [length app] in Hi;
  destruct i as [|[|[|i]]]; try (exfalso; lia); cbn [step_accepted lookup list_lookup app];
  first [reflexivity|by eauto].

(** A branch that ends the call with an error. *)
Ltac stopped :=
  eexists; split; [reflexivity|];
  apply call_outcome_stopped; [by eexists|intros _; split; assumption|accepted_steps|try done].

Lemma call_sequence (c : McpJsonRpcClient) (t : T) request_id tool input :
  exists log,
    call_tool_with_transport c (t, []) request_id tool input =
      ((call_tool_with_transport c t request_id tool input).1,
       ((call_tool_with_transport c t request_id tool input).2, log)) /\
    call_outcome c tool input log (call_tool_with_transport c t request_id tool input).1.
Proof.
  unfold call_tool_with_transport.
  destruct (validate_client_config (mc_config c)) as [[]|e] eqn:Ev;
    [|exists []; split; [reflexivity|]; apply call_outcome_stopped; [apply prefix_nil|done|cbn; lia|done]].
  unfold require_tool. destruct (permits_tool (mc_allowlist c) tool) eqn:Ea;
    [|exists []; split; [reflexivity|]; apply call_outcome_stopped; [apply prefix_nil|done|cbn; lia|done]].
  destruct (recorded_request c t [] 1 (initialize_request 1 (mc_config c))) as (r1 & E1 & A1). rewrite E1.
  destruct (request_response c t 1 _) as [[x1|e1] t1]; cbn [fst snd app]; [|stopped].
  specialize (proj1 (A1 x1) eq_refl) as H1.
  rewrite recorded_notify.
  destruct (notify t1 _ _ _) as [[[]|e2] t2]; cbn [fst snd app]; [|stopped].
  match goal with |- context [request_response c (t2, ?log) 2 ?q] =>
    destruct (recorded_request c t2 log 2 q) as (r3 & E3 & A3); rewrite E3 end.
  destruct (request_response c t2 2 _) as [[x3|e3] t3]; cbn [fst snd app]; [|stopped].
  specialize (proj1 (A3 x3) eq_refl) as H3.
  destruct (parse_tools_list x3) as [names|e4] eqn:En; cbn [fst snd app]; [|stopped].
  destruct (negb (bool_decide (tool ∈ names))) eqn:Et; cbn [fst snd app]; [stopped|].
  apply negb_false_iff, bool_decide_eq_true in Et.
  match goal with |- context [request_response c (t3, ?log) 3 ?q] =>
    destruct (recorded_request c t3 log 3 q) as (r4 & E4 & A4); rewrite E4 end.
  destruct (request_response c t3 3 _) as [[x4|e4] t4]; cbn [fst snd app].
  - specialize (proj1 (A4 x4) eq_refl) as H4. eexists. split; [reflexivity|].
    split_and!; [by eexists|intros _; split; assumption|accepted_steps|..].
    + split; [|done]. intros _. split; [done|]. by exists x4.
    + intros report [= <-]. exists x4. by split_and!.
  - stopped. intros _ [result Hr%A4]. done.
Qed.

End Sequence.

(** C22: A tool call sends, in this order and without repetition, the
    [initialize] request, the [initialized] notification, the [tools/list]
    request and the [tools/call] request, and stops at the first failure: a
    message is sent only after the one before it was accepted, that is after
    [initialize] was answered with a result within the size limit, after the
    notification was delivered, and after [tools/list] was answered, within
    the limit, with a listing that names the tool.  Nothing is sent unless
    the configuration is valid and the tool is on the allowlist.  The call
    succeeds exactly when [tools/call] was sent and answered with a result
    within the limit, and the report carries that result. *)
Theorem call_tool_sequence `{McpJsonRpcTransport T} (c : McpJsonRpcClient) (t : T) request_id tool input :
  exists log,
    call_tool_with_transport c (t, []) request_id tool input =
      ((call_tool_with_transport c t request_id tool input).1,
       ((call_tool_with_transport c t request_id tool input).2, log)) /\
    call_outcome c tool input log (call_tool_with_transport c t request_id tool input).1.
Proof. apply call_sequence. Qed.

(** ** The call over stdio *)

Section Invariant.
  Context `{McpJsonRpcTransport T}.
  Variables P Q : T -> Prop.
  Hypothesis P_Q : forall t, P t -> Q t.
  Hypothesis exchange_ok : forall t id request timeout limit,
    P t -> (0 < limit)%N -> let s := exchange t id request timeout limit in Q s.2 /\ (is_ok s.1 = true -> P s.2).
  Hypothesis notify_ok : forall t text timeout limit,
    P t -> let s := notify t text timeout limit in Q s.2 /\ (is_ok s.1 = true -> P s.2).

Lemma request_invariant c t id request : P t -> (0 < output_limit_bytes (mc_config c))%N ->
  let s := request_response c t id request in Q s.2 /\ (is_ok s.1 = true -> P s.2).
Proof.
  intros Ht Hl. unfold request_response.
  destruct (exchange_ok t id request (request_timeout_ms (mc_config c)) _ Ht Hl) as [HQ HP].
  destruct (exchange t id request _ _) as [[response|e] t']; cbn in *; [|done]. split; [done|]. auto.
Qed.

(** What every successful step keeps and every step establishes holds after
    the call. *)
Lemma call_invariant c t request_id tool input :
  P t -> Q (call_tool_with_transport c t request_id tool input).2.
Proof.
  intros Ht. unfold call_tool_with_transport.
  destruct (validate_client_config (mc_config c)) as [[]|e] eqn:Ev; [|by apply P_Q].
  apply client_config_limit in Ev as Hl.
  destruct (require_tool (mc_allowlist c) tool) as [[]|e]; [|by apply P_Q].
  destruct (request_invariant c t 1 (initialize_request 1 (mc_config c)) Ht Hl) as [HQ1 HP1].
  destruct (request_response c t 1 _) as [[x1|e1] t1]; cbn in *; [|done]. specialize (HP1 eq_refl).
  destruct (notify_ok t1 initialized_notification (request_timeout_ms (mc_config c))
              (output_limit_bytes (mc_config c)) HP1) as [HQ2 HP2].
  destruct (notify t1 _ _ _) as [[x2|e2] t2]; cbn in *; [|done]. specialize (HP2 eq_refl).
  destruct (request_invariant c t2 2 (tools_list_request 2) HP2 Hl) as [HQ3 HP3].
  destruct (request_response c t2 2 _) as [[x3|e3] t3]; cbn in *; [|done].
  destruct (parse_tools_list x3) as [names|e4]; [|done].
  destruct (negb (bool_decide (tool ∈ names))); [done|].
  destruct (request_invariant c t3 3 (tools_call_request 3 tool input) (HP3 eq_refl) Hl) as [HQ4 HP4].
  by destruct (request_response c t3 3 _) as [[x4|e4] t4].
Qed.

End Invariant.

(** Every message as a line. *)
Definition as_lines (messages : list string) : string := str_concat ((fun m => m +:+ str nl) <$> messages).

Lemma as_lines_cons m ms : as_lines (m :: ms) = m +:+ str nl +:+ as_lines ms.
Proof. unfold as_lines. rewrite fmap_cons. unfold str_concat. cbn [foldr]. by rewrite <- append_assoc. Qed.

Lemma as_lines_snoc ms m : as_lines (ms ++ [m]) = as_lines ms +:+ m +:+ str nl.
Proof.
  induction ms as [|m' ms IH].
  - cbn [app]. rewrite as_lines_cons. done.
  - cbn [app]. by rewrite !as_lines_cons, IH, <- !append_assoc.
Qed.

Lemma split_as_lines ms :
  Forall (fun m => contains_char nl m = false) ms -> split nl (as_lines ms) = ms ++ [""].
Proof.
  induction 1 as [|m ms Hm Hms IH]; [done|].
  rewrite as_lines_cons. change (str nl +:+ as_lines ms) with (String nl (as_lines ms)).
  rewrite split_line by done. by rewrite IH.
Qed.

(** The pipe holds the messages sent so far, one per line. *)
Definition written (before : string) (s : McpStdioJsonRpcTransport * list Sent) : Prop :=
  st_writes s.1 = [] /\ st_stdin s.1 = before +:+ as_lines (sent_text <$> s.2).
Definition writable (before : string) (s : McpStdioJsonRpcTransport * list Sent) : Prop :=
  st_open s.1 = true /\ written before s.

Lemma stdin_write_open t text : st_open t = true -> st_writes t = [] ->
  stdin_write t text = (Ok tt, t <| st_writes := [] |> <| st_stdin := st_stdin t +:+ text |>).
Proof. intros Ho Hw. unfold stdin_write. by rewrite Ho, Hw. Qed.

(** Only a failing wait shuts the server down. *)
Lemma await_keeps id limit received text :
  (await_response id limit received).1.1 = Ok text -> (await_response id limit received).1.2 = false.
Proof.
  induction received as [|[[line| |e|]| |] r IH]; try done. cbn.
  by destruct (line_response line id limit) as [[x|]|].
Qed.

Lemma write_line_text (s text : string) : ((s +:+ text) +:+ str nl) +:+ "" = s +:+ text +:+ str nl.
Proof. by rewrite append_nil_r, append_assoc. Qed.

Lemma stdio_exchange_open t id request timeout limit : st_open t = true -> st_writes t = [] -> (0 < limit)%N ->
  stdio_exchange t id request timeout limit =
  (let '(outcome, stopped, received) := await_response id limit (st_receiver t) in
   let t := MkStdio (st_process t) (st_stdin t +:+ request +:+ str nl) true [] received (st_audit t) in
   (outcome, if stopped : bool then (shutdown t).2 else t)).
Proof.
  destruct t as [process stdin open writes receiver audit]. cbn [st_open st_writes]. intros -> -> Hl.
  unfold stdio_exchange. rewrite (proj2 (N.eqb_neq limit 0)) by lia.
  cbn -[await_response]. by rewrite write_line_text.
Qed.

Lemma stdio_notify_open t text timeout limit : st_open t = true -> st_writes t = [] ->
  stdio_notify t text timeout limit =
  (Ok tt, MkStdio (st_process t) (st_stdin t +:+ text +:+ str nl) true [] (st_receiver t) (st_audit t)).
Proof.
  destruct t as [process stdin open writes receiver audit]. cbn [st_open st_writes]. intros -> ->.
  unfold stdio_notify. cbn. by rewrite write_line_text.
Qed.

Lemma written_snoc before stdin log m :
  stdin = before +:+ as_lines (sent_text <$> log) ->
  stdin +:+ sent_text m +:+ str nl = before +:+ as_lines (sent_text <$> (log ++ [m])).
Proof.
  intros ->. rewrite fmap_app. rewrite (as_lines_snoc (sent_text <$> log) (sent_text m)). by rewrite <- !append_assoc.
Qed.

Lemma stdio_exchange_written before s id request timeout limit :
  writable before s -> (0 < limit)%N ->
  let s' := exchange s id request timeout limit in
  written before s'.2 /\ (is_ok s'.1 = true -> writable before s'.2).
Proof.
  destruct s as [t log]. intros (Ho & Hw & Hs) Hl. cbn [fst snd] in Ho, Hw, Hs.
  cbn [exchange recorded stdio_transport fst snd]. rewrite stdio_exchange_open by done.
  pose proof (await_keeps id limit (st_receiver t)) as Hk.
  destruct (await_response id limit (st_receiver t)) as [[outcome stopped] received]. cbn [fst snd] in Hk |- *.
  pose proof (written_snoc before _ log (SentRequest id request outcome) Hs) as Htext. destruct outcome as [text|e].
  - rewrite (Hk text eq_refl). split; [by split|]. intros _. by split_and!.
  - split; [|done]. by destruct stopped; split.
Qed.

Lemma stdio_notify_written before s text timeout limit :
  writable before s ->
  let s' := notify s text timeout limit in
  written before s'.2 /\ (is_ok s'.1 = true -> writable before s'.2).
Proof.
  destruct s as [t log]. intros (Ho & Hw & Hs). cbn [fst snd] in Ho, Hw, Hs.
  cbn [notify recorded stdio_transport fst snd]. rewrite stdio_notify_open by done. cbn [fst snd].
  pose proof (written_snoc before _ log (SentNotification text (Ok tt)) Hs) as Htext.
  split; [by split|]. intros _. by split_and!.
Qed.

(** What a call over an open pipe leaves on the server's input. *)
Lemma stdio_call_written c t request_id tool input :
  st_open t = true -> st_writes t = [] ->
  let s := call_tool_with_transport c (t, []) request_id tool input in
  st_stdin s.2.1 = st_stdin t +:+ as_lines (sent_text <$> s.2.2).
Proof.
  intros Ho Hw s. assert (written (st_stdin t) s.2) as [_ H]; [|exact H].
  apply (call_invariant (writable (st_stdin t))).
  - by intros ? [_ ?].
  - apply stdio_exchange_written.
  - intros ? text timeout limit. apply stdio_notify_written.
  - split; [exact Ho|]. split; [exact Hw|]. cbn. by rewrite append_nil_r.
Qed.

(** *** Messages without line breaks *)

Definition one_line (m : string) : Prop := contains_char nl m = false.

Lemma one_line_append s t : one_line s -> one_line t -> one_line (s +:+ t).
Proof. unfold one_line. intros Hs Ht. by rewrite contains_char_append, Hs, Ht. Qed.

Lemma string_body_one_line b : string_body b -> one_line b.
Proof.
  unfold one_line. induction 1 as [|c b Hc|e b He|h1 h2 h3 h4 b H1 H2 H3 H4]; [done|..]; cbn [contains_char].
  - rewrite IHstring_body, orb_false_r. apply Ascii.eqb_neq. intros <-. done.
  - rewrite IHstring_body, orb_false_r. apply Ascii.eqb_neq. intros <-. done.
  - rewrite IHstring_body.
    assert (forall h, is_ascii_hexdigit h = true -> Ascii.eqb nl h = false) as Hh.
    { intros h Hh. apply Ascii.eqb_neq. intros <-. done. }
    by rewrite (Hh h1), (Hh h2), (Hh h3), (Hh h4).
Qed.

Lemma json_string_one_line v : utf8_valid v = true -> one_line (json_string v).
Proof.
  intros H. destruct (json_string_token v H) as (b & Hb & ->). unfold quote.
  apply (one_line_append (str dquote)); [done|]. by apply one_line_append; [apply string_body_one_line|].
Qed.

Lemma n_to_string_one_line n : one_line (n_to_string n).
Proof.
  apply contains_char_false. eapply bytes_all_impl; [|apply n_to_string_digits].
  apply ascii_impl. vm_compute. reflexivity.
Qed.

(** The strings of a client and of a call are Rust strings. *)
Definition call_utf8 (c : McpJsonRpcClient) (tool input : string) : Prop :=
  utf8_valid (protocol_version (mc_config c)) = true /\ utf8_valid (client_name (mc_config c)) = true /\
  utf8_valid (client_version (mc_config c)) = true /\ utf8_valid tool = true /\ utf8_valid input = true.

#[local] Transparent initialize_request initialized_notification tools_list_request tools_call_request js.

(** A text put together from pieces without line breaks. *)
Ltac one_line_pieces :=
  repeat lazymatch goal with
  | |- one_line (js _ +:+ _) => apply one_line_append; [vm_compute; reflexivity|]
  | |- one_line (n_to_string _ +:+ _) => apply one_line_append; [apply n_to_string_one_line|]
  | |- one_line (json_string _ +:+ _) => apply one_line_append; [by apply json_string_one_line|]
  end; try (vm_compute; reflexivity).

Lemma arguments_one_line input : utf8_valid input = true ->
  (embedded input = true -> one_line (trim input)) -> one_line (tool_arguments_json input).
Proof.
  unfold embedded, tool_arguments_json. intros Hu He. destruct (str_is_empty (trim input)); [done|].
  destruct (starts_with "{" (trim input) && ends_with_char "}" (trim input)) eqn:Ew; [exact (He Ew)|].
  one_line_pieces.
Qed.

Lemma call_messages_one_line c tool input :
  call_utf8 c tool input -> (embedded input = true -> one_line (trim input)) ->
  Forall one_line (call_messages c tool input).
Proof.
  intros (H1 & H2 & H3 & H4 & H5) He. unfold call_messages. rewrite !Forall_cons, Forall_nil. split_and!; [..|done].
  - unfold initialize_request. one_line_pieces.
  - vm_compute. reflexivity.
  - unfold tools_list_request. one_line_pieces.
  - unfold tools_call_request. one_line_pieces.
    apply one_line_append; [by apply arguments_one_line|done].
Qed.

#[local] Opaque initialize_request initialized_notification tools_list_request tools_call_request js.

(** Over stdio, what a call writes to the server's input is the messages
    it sends, one per line, so the server that reads line by line reads those
    messages and nothing else, provided an input that is sent as it stands
    holds no line break. *)
Theorem stdio_call_lines c t request_id tool input :
  st_open t = true -> st_writes t = [] -> st_stdin t = "" ->
  call_utf8 c tool input -> (embedded input = true -> one_line (trim input)) ->
  exists sent, sent `prefix_of` call_messages c tool input /\
    split nl (st_stdin (call_tool_with_transport c t request_id tool input).2) = sent ++ [""].
Proof.
  intros Ho Hw Hs Hu He. destruct (call_sequence c t request_id tool input) as (log & Erun & Hpre & _).
  exists (sent_text <$> log). split; [done|].
  pose proof (stdio_call_written c t request_id tool input Ho Hw) as Hwritten.
  rewrite Erun in Hwritten. cbn [fst snd] in Hwritten. rewrite Hwritten, Hs, append_nil_l. apply split_as_lines.
  pose proof (call_messages_one_line c tool input Hu He) as Hone. destruct Hpre as [rest Erest].
  rewrite Erest in Hone. by apply Forall_app in Hone as [? _].
Qed.

(** *** A concrete server *)

Definition sample_client : McpJsonRpcClient :=
  {| mc_adapter_id := MkId "mcp"; mc_allowlist := MkAllowlist {["read"]} ∅ ∅; mc_config := client_config_new |}.

(** A server that advertises [read] and answers the three requests. *)
Definition sample_server : McpStdioJsonRpcTransport :=
  {| st_process := Some (MkProcess 7 true); st_stdin := ""; st_open := true; st_writes := [];
     st_receiver :=
       [Message (Line (js "{'jsonrpc':'2.0','id':1,'result':{}}" +:+ str nl));
        Message (Line (js "{'jsonrpc':'2.0','id':2,'result':{'tools':[{'name':'read'}]}}" +:+ str nl));
        Message (Line (js "{'jsonrpc':'2.0','id':3,'result':{'ok':true}}" +:+ str nl))];
     st_audit := [] |}.

Lemma stdio_call_lines_witness :
  exists sent, sent `prefix_of` call_messages sample_client "read" "notes.txt" /\
    split nl (st_stdin (call_tool_with_transport sample_client sample_server (MkId "r1") "read" "notes.txt").2)
    = sent ++ [""].
Proof.
  apply (stdio_call_lines sample_client sample_server (MkId "r1") "read" "notes.txt").
  - reflexivity.
  - reflexivity.
  - reflexivity.
  - split_and!; vm_compute; reflexivity.
  - vm_compute. congruence.
Defined.

(** *** An input that is two requests *)

(** An input that closes the request it is embedded in and starts another,
    for the tool [evil]. *)
Definition smuggled_input (evil : string) : string :=
  "{}}}" +:+ str nl +:+ js "{'jsonrpc':'2.0','id':4,'method':'tools/call','params':{'name':"
  +:+ json_string evil +:+ js ",'arguments':{}".

Lemma trim_delimited a m b : is_graphic a = true -> is_graphic b = true -> utf8_valid m = true ->
  trim (String a (m +:+ str b)) = String a (m +:+ str b).
Proof.
  intros Ha Hb Hm. change (String a (m +:+ str b)) with (str a +:+ (m +:+ str b)).
  assert (forall c, is_graphic c = true -> chars (str c) = [str c] /\ utf8_valid (str c) = true) as Hg.
  { intros c Hc. assert (bytes_all is_graphic (str c) = true) as H by (cbn; by rewrite Hc).
    split; [by rewrite (chars_graphic _ H)|by apply graphic_utf8]. }
  destruct (Hg a Ha) as [Eca Hua], (Hg b Hb) as [Ecb _].
  unfold trim. rewrite chars_append, chars_append, Eca, Ecb by done. cbn [app drop_while].
  rewrite (graphic_not_whitespace a Ha), app_comm_cons, rev_app_distr. cbn [rev app drop_while].
  rewrite (graphic_not_whitespace b Hb).
  change (str b :: rev (chars m) ++ [str a]) with (rev [str b] ++ rev (str a :: chars m)).
  rewrite <- rev_app_distr, rev_involutive, str_concat_app. cbn [str_concat foldr].
  destruct (utf8_scalars m Hm) as [_ Ec]. unfold str_concat in Ec. by rewrite Ec, append_nil_r.
Qed.

Lemma smuggled_arguments evil : utf8_valid evil = true ->
  tool_arguments_json (smuggled_input evil) = smuggled_input evil.
Proof.
  intros He. set (m := "}}}" +:+ str nl +:+ js "{'jsonrpc':'2.0','id':4,'method':'tools/call','params':{'name':"
    +:+ json_string evil +:+ js ",'arguments':{").
  assert (utf8_valid m = true) as Hm.
  { unfold m. repeat first [apply json_string_valid; exact He|apply utf8_valid_append; [first [apply json_string_valid; exact He|vm_compute; reflexivity]|]|vm_compute; reflexivity]. }
  assert (smuggled_input evil = String "{" (m +:+ str "}")) as E.
  { unfold smuggled_input, m. rewrite <- !append_assoc. reflexivity. }
  unfold tool_arguments_json. rewrite E, trim_delimited by done.
  change (String "{" (m +:+ str "}")) with ((str "{" +:+ m) +:+ str "}") at 3.
  by rewrite ends_with_char_snoc.
Qed.

#[local] Transparent tools_call_request.

Lemma smuggled_request tool evil : utf8_valid evil = true ->
  tools_call_request 3 tool (smuggled_input evil)
  = tools_call_request 3 tool "{}" +:+ str nl +:+ tools_call_request 4 evil "{}".
Proof.
  intros He. unfold tools_call_request. rewrite smuggled_arguments by done. unfold smuggled_input.
  rewrite <- !append_assoc. do 5 f_equal.
Qed.

#[local] Opaque tools_call_request.

(** C23: The allowlist does not bound what an embedded input makes the client
    write.  Whatever the client, the allowed tool and the stdio server, and
    whatever other tool [evil] is named, permitted or not: when the call of
    the tool with the input above succeeds, what the server's input got is,
    line by line, the messages of a call of the tool with an empty object and
    then the very [tools/call] request, with its own id, that the client
    writes for a call of [evil]; a server reads that tool's name in it. *)
Theorem embedded_input_smuggles_call c t request_id tool evil :
  st_open t = true -> st_writes t = [] -> utf8_valid evil = true ->
  let call := call_tool_with_transport c t request_id tool (smuggled_input evil) in
  is_ok call.1 = true ->
  st_stdin call.2
    = st_stdin t +:+ as_lines (call_messages c tool "{}" ++ [tools_call_request 4 evil "{}"]) /\
  exists params,
    json_string_field (tools_call_request 4 evil "{}") "method" = Ok (Some "tools/call") /\
    json_field_value (tools_call_request 4 evil "{}") "params" = Ok (Some params) /\
    json_string_field params "name" = Ok (Some evil).
Proof.
  intros Ho Hw He call Hok. split.
  - destruct (call_sequence c t request_id tool (smuggled_input evil)) as (log & Erun & Hpre & _ & _ & Hfull & _).
    destruct (proj1 Hfull Hok) as [Hlen _]. pose proof (stdio_call_written c t request_id tool (smuggled_input evil) Ho Hw) as H.
    rewrite Erun in H. cbn [fst snd] in H. unfold call. rewrite H. f_equal.
    assert (sent_text <$> log = call_messages c tool (smuggled_input evil)) as ->.
    { destruct Hpre as [rest E]. apply (f_equal length) in E as El. rewrite length_app, length_fmap, Hlen in El.
      destruct rest; [by rewrite app_nil_r in E|unfold call_messages in El; cbn [length] in El; lia]. }
    unfold call_messages. cbn [app]. rewrite smuggled_request, !as_lines_cons by done. by rewrite <- !append_assoc.
  - destruct (tools_call_request_reads 4 evil "{}") as (_ & _ & Hm & params & Hp & Hn & _); [by apply N.leb_le|done|..].
    { split; [reflexivity|]. intros _. vm_compute. reflexivity. }
    by exists params.
Qed.

Lemma embedded_input_smuggles_call_witness :
  permits_tool (mc_allowlist sample_client) "read" = true /\ permits_tool (mc_allowlist sample_client) "delete" = false /\
  st_stdin (call_tool_with_transport sample_client sample_server (MkId "r1") "read" (smuggled_input "delete")).2
  = as_lines (call_messages sample_client "read" "{}" ++ [tools_call_request 4 "delete" "{}"]).
Proof.
  split; [reflexivity|]. split; [reflexivity|].
  apply (embedded_input_smuggles_call sample_client sample_server (MkId "r1") "read" "delete").
  - reflexivity.
  - reflexivity.
  - reflexivity.
  - vm_compute. reflexivity.
Defined.

(** A server's tool whose input schema has a property called [name] makes
    the client reject the whole [tools/list] answer: the scan for names does
    not stop at the tool's own field. *)
Theorem schema_name_breaks_listing :
  parse_tools_list (js "{'tools':[{'name':'read','inputSchema':{'type':'object'}}]}") = Ok ["read"] /\
  parse_tools_list (js "{'tools':[{'name':'read','inputSchema':{'properties':{'name':{'type':'string'}}}}]}")
  = Err (protocol_error "MCP JSON-RPC string field is invalid").
Proof. split; vm_compute; reflexivity. Qed.
