(* ===== verification/Ipv6.v ===== *)
(** * IPv6 addresses as the standard library reads and writes them

    [str::parse::<Ipv6Addr>] and its [Display], which session.rs and
    json_rpc.rs use to bring the host of an endpoint into one spelling.  An
    address is the list of its eight groups. *)

From Stdlib Require Import Ascii.
From stdpp Require Import base numbers strings list.
From S2P Require Import Prelude RustStr.

(** ** Reading *)

(** A parser takes a prefix of its text or fails. *)
Definition Parser (A : Type) : Type := string -> option (A * string).

(** The digits at the front, as values. *)
Fixpoint span_digits (digit : ascii -> option N) (s : string) : list N * string :=
  match s with
  | EmptyString => ([], "")
  | String c r =>
      match digit c with
      | Some d => let '(ds, rest) := span_digits digit r in (d :: ds, rest)
      | None => ([], s)
      end
  end.

Definition decimal_value (c : ascii) : option N := if is_ascii_digit c then Some (byte_of c - 48)%N else None.

Definition digits_value (radix : N) (ds : list N) : N := fold_left (fun acc d => acc * radix + d)%N ds 0%N.

(** [read_number]: at most [max_digits] digits with a value that fits. *)
Definition read_number (digit : ascii -> option N) (radix : N) (max_digits : nat) (allow_zero_prefix : bool) (max : N) :
    Parser N := fun s =>
  let '(ds, rest) := span_digits digit s in
  if Nat.ltb max_digits (length ds) then None
  else match ds with
  | [] => None
  | d :: more =>
      if negb allow_zero_prefix && (d =? 0)%N && negb (Nat.eqb (length more) 0) then None
      else let n := digits_value radix ds in if (n <=? max)%N then Some (n, rest) else None
  end.

Definition read_octet : Parser N := read_number decimal_value 10 3 false 255.
Definition read_group : Parser N := read_number hex_value 16 4 true 65535.

(** [read_separator]: every element but the first follows a separator. *)
Definition separated {A} (sep : string) (first : bool) (p : Parser A) : Parser A := fun s =>
  if first then p s else match strip_prefix sep s with Some r => p r | None => None end.

Fixpoint read_octets (n : nat) (first : bool) (s : string) : option (list N * string) :=
  match n with
  | O => Some ([], s)
  | S n =>
      match separated "." first read_octet s with
      | Some (o, r) => match read_octets n false r with Some (os, rest) => Some (o :: os, rest) | None => None end
      | None => None
      end
  end.

(** [read_ipv4_addr], as the two groups it stands for. *)
Definition read_ipv4_addr : Parser (list N) := fun s =>
  match read_octets 4 true s with
  | Some ([a; b; c; d], rest) => Some ([a * 256 + b; c * 256 + d]%N, rest)
  | _ => None
  end.

(** [read_groups] for a slice of [left] groups: the groups read and whether
    the last two were an IPv4 address. *)
Fixpoint read_groups (left : nat) (first : bool) (s : string) : list N * bool * string :=
  match left with
  | O => ([], false, s)
  | S rest_left =>
      match if Nat.ltb 1 left then separated ":" first read_ipv4_addr s else None with
      | Some (groups, r) => (groups, true, r)
      | None =>
          match separated ":" first read_group s with
          | None => ([], false, s)
          | Some (g, r) => let '(groups, ipv4, rest) := read_groups rest_left false r in (g :: groups, ipv4, rest)
          end
      end
  end.

Definition parse_ipv6 (s : string) : option (list N) :=
  let '(head, ipv4, r) := read_groups 8 true s in
  if Nat.eqb (length head) 8 then if str_is_empty r then Some head else None
  else if ipv4 then None
  else match strip_prefix "::" r with
  | None => None
  | Some r =>
      let '(tail, _, r) := read_groups (8 - (length head + 1)) true r in
      if str_is_empty r then Some (head ++ replicate (8 - length head - length tail) 0%N ++ tail) else None
  end.

(** ** Writing *)

Fixpoint drop_zeros (ds : list N) : list N :=
  match ds with
  | [] => []
  | [d] => [d]
  | d :: more => if (d =? 0)%N then drop_zeros more else ds
  end.

(** A group in hexadecimal, without leading zeros. *)
Definition group_text (g : N) : string :=
  String.string_of_list_ascii
    (hex_digit <$> drop_zeros [g / 4096; g / 256 mod 16; g / 16 mod 16; g mod 16]%N).

Definition groups_text (gs : list N) : string := join ":" (group_text <$> gs).

(** The first longest run of zeros: the groups before it and its length. *)
Fixpoint zeros_at (gs : list N) : nat :=
  match gs with g :: r => if (g =? 0)%N then S (zeros_at r) else 0 | [] => 0 end.

Fixpoint longest_zeros (gs : list N) : nat * nat :=
  match gs with
  | [] => (0, 0)
  | _ :: r =>
      let '(start, len) := longest_zeros r in
      if Nat.leb len (zeros_at gs) then (0, zeros_at gs) else (S start, len)
  end.

Definition ipv4_text (a b : N) : string :=
  n_to_string (a / 256) +:+ "." +:+ n_to_string (a mod 256) +:+ "." +:+
  n_to_string (b / 256) +:+ "." +:+ n_to_string (b mod 256).

(** [to_ipv4_mapped] *)
Definition to_ipv4_mapped (gs : list N) : option (N * N) :=
  match drop 6 gs with
  | [a; b] => if bool_decide (take 6 gs = [0; 0; 0; 0; 0; 65535]%N) then Some (a, b) else None
  | _ => None
  end.

Definition ipv6_to_string (gs : list N) : string :=
  match to_ipv4_mapped gs with
  | Some (a, b) => "::ffff:" +:+ ipv4_text a b
  | None =>
      let '(start, len) := longest_zeros gs in
      if Nat.ltb 1 len then groups_text (take start gs) +:+ "::" +:+ groups_text (drop (start + len) gs)
      else groups_text gs
  end.

Definition ipv6_ok (gs : list N) : Prop := length gs = 8 /\ Forall (fun g => (g <= 65535)%N) gs.

Example ipv6_samples :
  parse_ipv6 "::1" = Some [0; 0; 0; 0; 0; 0; 0; 1]%N /\
  parse_ipv6 "2001:DB8:0:0:1::1" = Some [8193; 3512; 0; 0; 1; 0; 0; 1]%N /\
  parse_ipv6 "::ffff:192.168.0.1" = Some [0; 0; 0; 0; 0; 65535; 49320; 1]%N /\
  parse_ipv6 "1:2:3:4:5:6:7:8:9" = None /\ parse_ipv6 ":::" = None /\ parse_ipv6 "1::01.2.3.4" = None /\
  ipv6_to_string [8193; 3512; 0; 0; 1; 0; 0; 1]%N = "2001:db8::1:0:0:1" /\
  ipv6_to_string [0; 0; 0; 0; 0; 0; 0; 0]%N = "::" /\
  ipv6_to_string [1; 0; 2; 3; 4; 5; 6; 0]%N = "1:0:2:3:4:5:6:0" /\
  ipv6_to_string [0; 0; 0; 0; 0; 65535; 49320; 1]%N = "::ffff:192.168.0.1".
Proof. vm_compute. repeat split. Qed.

(** ** Digits *)

(** The text goes on with no digit. *)
Definition stops (digit : ascii -> option N) (s : string) : Prop :=
  match s with EmptyString => True | String c _ => digit c = None end.

Lemma span_digits_app digit s ds rest :
  span_digits digit s = (ds, "") -> stops digit rest -> span_digits digit (s +:+ rest) = (ds, rest).
Proof.
  revert ds. induction s as [|c s IH]; intros ds H Hr.
  { injection H as <-. rewrite append_nil_l. destruct rest as [|c r]; [done|]. cbn in Hr |- *. by rewrite Hr. }
  rewrite append_cons. cbn [span_digits] in *. destruct (digit c) as [d|]; [|done].
  destruct (span_digits digit s) as [ds' r']. injection H as <- ->. by rewrite (IH ds' eq_refl Hr).
Qed.

Lemma span_digits_rest digit c s ds rest :
  contains_char c s = false -> span_digits digit s = (ds, rest) -> contains_char c rest = false.
Proof.
  revert ds. induction s as [|a s IH]; intros ds Hc H; cbn [span_digits] in H; [by injection H as <- <-|].
  destruct (digit a); [|by injection H as <- <-]. destruct (span_digits digit s) as [ds' r'] eqn:E. injection H as <- <-.
  cbn [contains_char] in Hc. apply orb_false_iff in Hc as [_ Hc]. by eapply IH.
Qed.

Lemma read_number_app digit radix k zero max s ds rest :
  span_digits digit s = (ds, "") -> stops digit rest ->
  read_number digit radix k zero max (s +:+ rest) =
  match read_number digit radix k zero max s with Some (n, _) => Some (n, rest) | None => None end.
Proof.
  intros Hs Hr. unfold read_number. rewrite (span_digits_app _ _ _ _ Hs Hr), Hs.
  destruct (Nat.ltb _ _), ds; [done..|]. by repeat case_match; simplify_eq.
Qed.

Lemma read_number_rest digit radix k zero max c s n rest :
  contains_char c s = false -> read_number digit radix k zero max s = Some (n, rest) -> contains_char c rest = false.
Proof.
  intros Hc H. unfold read_number in H. destruct (span_digits digit s) as [ds r] eqn:E.
  assert (r = rest) as -> by (repeat case_match; simplify_eq; done). by eapply span_digits_rest.
Qed.

Lemma read_number_stops digit radix k zero max s : stops digit s -> read_number digit radix k zero max s = None.
Proof. unfold read_number. destruct s as [|c s]; cbn; [done|]. intros ->. done. Qed.

(** *** The numbers that are written *)

Fixpoint count_from (n : nat) (k : N) : list N :=
  match n with O => [] | S n => k :: count_from n (k + 1)%N end.
Definition upto (n : N) : list N := count_from (N.to_nat n) 0.

Lemma count_from_elem n : forall k g, (k <= g)%N -> (g < k + N.of_nat n)%N -> g ∈ count_from n k.
Proof.
  induction n as [|n IH]; intros k g H1 H2; [lia|]. cbn. destruct (decide (g = k)) as [->|]; [constructor|].
  constructor. apply IH; lia.
Qed.

Lemma upto_elem n (g : N) : (g < n)%N -> g ∈ upto n.
Proof. intros H. apply count_from_elem; lia. Qed.

Lemma forallb_upto n (p : N -> bool) g : forallb p (upto n) = true -> (g < n)%N -> p g = true.
Proof. intros H Hg. rewrite forallb_forall in H. apply H. apply list_elem_of_In. by apply upto_elem. Qed.

(** The characters of an address. *)
Definition is_ipv6_char (c : ascii) : bool := is_lower_hex c || Ascii.eqb c ":" || Ascii.eqb c ".".

Definition reads_back (p : Parser N) (digit : ascii -> option N) (s : string) (n : N) : bool :=
  match p s with Some (m, r) => (m =? n)%N && str_is_empty r | None => false end &&
  str_is_empty (span_digits digit s).2 && bytes_all is_lower_hex s.

Lemma hex_digit_back d : (d < 16)%N -> hex_value (hex_digit d) = Some d /\ is_lower_hex (hex_digit d) = true.
Proof.
  intros Hd. set (p := fun d => match hex_value (hex_digit d) with Some m => (m =? d)%N | None => false end
    && is_lower_hex (hex_digit d)).
  assert (p d = true) as H by (apply (forallb_upto 16 p d); [vm_compute; reflexivity|done]). unfold p in H.
  apply andb_true_iff in H as [H H2]. split; [|done]. destruct (hex_value (hex_digit d)); [|done].
  by apply N.eqb_eq in H as ->.
Qed.

Lemma hex_digits_back ds : Forall (fun d => (d < 16)%N) ds ->
  let s := String.string_of_list_ascii (hex_digit <$> ds) in
  span_digits hex_value s = (ds, "") /\ bytes_all is_lower_hex s = true.
Proof.
  induction 1 as [|d ds Hd _ [IH1 IH2]]; [done|]. destruct (hex_digit_back d Hd) as [H1 H2].
  cbn. rewrite H1, H2. fold (hex_digit <$> ds). by rewrite IH1, IH2.
Qed.

Lemma drop_zeros_ok ds : Forall (fun d => (d < 16)%N) ds ->
  Forall (fun d => (d < 16)%N) (drop_zeros ds) /\ digits_value 16 (drop_zeros ds) = digits_value 16 ds /\
  length (drop_zeros ds) <= length ds /\ (ds <> [] -> drop_zeros ds <> []).
Proof.
  induction ds as [|d ds IH]; [done|]. intros Hds. inversion Hds as [|? ? Hd Hds']; subst.
  destruct ds as [|d' ds]; [done|].
  assert (drop_zeros (d :: d' :: ds) = if (d =? 0)%N then drop_zeros (d' :: ds) else d :: d' :: ds) as -> by done.
  destruct (d =? 0)%N eqn:E; [|done]. apply N.eqb_eq in E as ->. destruct (IH Hds') as (H1 & H2 & H3 & H4).
  split_and!; [done| |cbn [length] in *; lia|].
  - rewrite H2. unfold digits_value. cbn [fold_left]. f_equal.
  - intros _. by apply H4.
Qed.

Lemma group_reads_back g : (g <= 65535)%N -> reads_back read_group hex_value (group_text g) g = true.
Proof.
  intros Hg. set (nibbles := [g / 4096; g / 256 mod 16; g / 16 mod 16; g mod 16]%N).
  assert (Forall (fun d => (d < 16)%N) nibbles) as Hn.
  { unfold nibbles. rewrite !Forall_cons, Forall_nil. split_and!; [apply N.Div0.div_lt_upper_bound; lia|by apply N.mod_lt..|done]. }
  assert (digits_value 16 nibbles = g) as Hv.
  { unfold nibbles, digits_value. cbn [fold_left]. change 4096%N with (16 * 16 * 16)%N. change 256%N with (16 * 16)%N.
    rewrite <- !N.Div0.div_div. pose proof (N.div_mod' g 16). pose proof (N.div_mod' (g / 16) 16).
    pose proof (N.div_mod' (g / 16 / 16) 16). lia. }
  destruct (drop_zeros_ok nibbles Hn) as (H1 & H2 & H3 & H4). destruct (hex_digits_back _ H1) as [Hs Hx].
  unfold reads_back, group_text. fold nibbles. rewrite Hs, Hx. unfold read_group, read_number. rewrite Hs.
  cbn [length nibbles] in H3. rewrite (proj2 (Nat.ltb_ge _ _)) by done.
  destruct (drop_zeros nibbles) as [|d ds] eqn:Ed; [by destruct H4|]. cbn [negb andb].
  rewrite H2, Hv. rewrite (proj2 (N.leb_le _ _)) by done. by rewrite N.eqb_refl.
Qed.

Lemma octet_reads_back a : (a <= 255)%N -> reads_back read_octet decimal_value (n_to_string a) a = true.
Proof.
  intros Ha. apply (forallb_upto 256 (fun a => reads_back read_octet decimal_value (n_to_string a) a) a); [|lia].
  vm_compute. reflexivity.
Qed.

Lemma reads_back_app digit radix k zero max s n rest :
  reads_back (read_number digit radix k zero max) digit s n = true -> stops digit rest ->
  read_number digit radix k zero max (s +:+ rest) = Some (n, rest).
Proof.
  unfold reads_back. rewrite !andb_true_iff. intros [[H1 H2] _] Hr.
  destruct (span_digits digit s) as [ds r] eqn:E. apply String.eqb_eq in H2. cbn [snd] in H2. subst r.
  rewrite (read_number_app _ _ _ _ _ _ _ _ E Hr).
  destruct (read_number digit radix k zero max s) as [[m r]|]; [|done]. apply andb_true_iff in H1 as [H1 _].
  by apply N.eqb_eq in H1 as ->.
Qed.

Lemma read_group_text g rest : (g <= 65535)%N -> stops hex_value rest -> read_group (group_text g +:+ rest) = Some (g, rest).
Proof. intros Hg. apply reads_back_app. by apply group_reads_back. Qed.

Lemma read_octet_text a rest : (a <= 255)%N -> stops decimal_value rest -> read_octet (n_to_string a +:+ rest) = Some (a, rest).
Proof. intros Ha. apply reads_back_app. by apply octet_reads_back. Qed.

Lemma group_text_hex g : (g <= 65535)%N -> bytes_all is_lower_hex (group_text g) = true.
Proof. intros Hg. pose proof (group_reads_back g Hg) as H. unfold reads_back in H. by apply andb_true_iff in H as [_ H]. Qed.

(** ** Groups *)

Lemma hex_no_dot_text g : (g <= 65535)%N -> contains_char "." (group_text g) = false.
Proof.
  intros Hg. apply contains_char_false. eapply bytes_all_impl; [|by apply group_text_hex].
  apply ascii_impl. vm_compute. reflexivity.
Qed.

Lemma strip_prefix_rest p c s r : contains_char c s = false -> strip_prefix p s = Some r -> contains_char c r = false.
Proof. intros Hc Hp. apply strip_prefix_Some in Hp as ->. rewrite contains_char_append in Hc. by apply orb_false_iff in Hc as [_ Hc]. Qed.

(** A text without dots is no IPv4 address. *)
Lemma read_ipv4_no_dot s : contains_char "." s = false -> read_ipv4_addr s = None.
Proof.
  intros Hc. unfold read_ipv4_addr. cbn [read_octets separated].
  destruct (read_octet s) as [[o r]|] eqn:E; [|done]. pose proof (read_number_rest _ _ _ _ _ _ _ _ _ Hc E) as Hr.
  destruct (strip_prefix "." r) as [r'|] eqn:Ep; [|done]. apply strip_prefix_Some in Ep as ->. by cbn in Hr.
Qed.

Lemma separated_ipv4_no_dot first s : contains_char "." s = false -> separated ":" first read_ipv4_addr s = None.
Proof.
  intros Hc. unfold separated. destruct first; [by apply read_ipv4_no_dot|].
  destruct (strip_prefix ":" s) as [r|] eqn:E; [|done]. apply read_ipv4_no_dot. by eapply strip_prefix_rest.
Qed.

(** What the groups are followed by: the end, or the gap. *)
Definition groups_stop (rest : string) : Prop := rest = "" \/ exists r, rest = "::" +:+ r.

Fixpoint more_groups (gs : list N) (rest : string) : string :=
  match gs with [] => rest | g :: r => ":" +:+ group_text g +:+ more_groups r rest end.

Lemma groups_text_cons g gs rest : groups_text (g :: gs) +:+ rest = group_text g +:+ more_groups gs rest.
Proof.
  unfold groups_text. revert g. induction gs as [|g' gs IH]; intros g; [done|].
  cbn [fmap list_fmap more_groups] in *. rewrite join_cons, <- !append_assoc. do 2 f_equal. exact (IH g').
Qed.

Lemma more_groups_no_dot gs rest : Forall (fun g => (g <= 65535)%N) gs -> contains_char "." rest = false ->
  contains_char "." (more_groups gs rest) = false.
Proof.
  induction 1 as [|g gs Hg _ IH]; [done|]. intros Hr. cbn [more_groups]. rewrite !contains_char_append, (hex_no_dot_text g Hg).
  by rewrite IH.
Qed.

Lemma more_groups_stops gs rest : groups_stop rest -> stops hex_value (more_groups gs rest).
Proof. intros Hr. destruct gs as [|g gs]; [|done]. destruct Hr as [->|(r & ->)]; done. Qed.

Lemma read_more_groups gs : forall left rest, Forall (fun g => (g <= 65535)%N) gs -> length gs <= left ->
  groups_stop rest -> contains_char "." rest = false -> read_groups left false (more_groups gs rest) = (gs, false, rest).
Proof.
  induction gs as [|g gs IH]; intros left rest Hg Hl Hr Hd; destruct left as [|left]; cbn [length] in Hl;
    [done| |lia|]; cbn [read_groups].
  - rewrite separated_ipv4_no_dot by done. replace (if Nat.ltb 1 (S left) then None else None) with (@None (list N * string))
      by by destruct (Nat.ltb 1 (S left)).
    cbn [more_groups separated]. destruct Hr as [->|(r & ->)]; [done|].
    change (strip_prefix ":" ("::" +:+ r)) with (Some (":" +:+ r)). unfold read_group. by rewrite read_number_stops.
  - inversion Hg as [|? ? Hg1 Hg2]; subst. rewrite separated_ipv4_no_dot by by apply more_groups_no_dot.
    replace (if Nat.ltb 1 (S left) then None else None) with (@None (list N * string)) by by destruct (Nat.ltb 1 (S left)).
    cbn [more_groups separated]. rewrite strip_prefix_append.
    rewrite read_group_text by (done || by apply more_groups_stops). by rewrite IH by (done || lia).
Qed.

Lemma read_groups_text gs left rest : Forall (fun g => (g <= 65535)%N) gs -> length gs <= left ->
  groups_stop rest -> contains_char "." rest = false -> read_groups left true (groups_text gs +:+ rest) = (gs, false, rest).
Proof.
  intros Hg Hl Hr Hd. destruct gs as [|g gs].
  - change (groups_text [] +:+ rest) with rest. destruct left as [|left]; [done|]. cbn [read_groups].
    rewrite separated_ipv4_no_dot by done. replace (if Nat.ltb 1 (S left) then None else None) with (@None (list N * string))
      by by destruct (Nat.ltb 1 (S left)).
    cbn [separated]. unfold read_group. rewrite read_number_stops; [done|]. by destruct Hr as [->|(r & ->)].
  - rewrite groups_text_cons. inversion Hg as [|? ? Hg1 Hg2]; subst. destruct left as [|left]; cbn [length] in Hl; [lia|].
    cbn [read_groups]. rewrite separated_ipv4_no_dot.
    2: { rewrite contains_char_append, hex_no_dot_text by done. by rewrite more_groups_no_dot. }
    replace (if Nat.ltb 1 (S left) then None else None) with (@None (list N * string)) by by destruct (Nat.ltb 1 (S left)).
    cbn [separated]. rewrite read_group_text by (done || by apply more_groups_stops). by rewrite read_more_groups by (done || lia).
Qed.

(** ** The round trip *)

Lemma zeros_at_le gs : zeros_at gs <= length gs /\ take (zeros_at gs) gs = replicate (zeros_at gs) 0%N.
Proof.
  induction gs as [|g gs [IH1 IH2]]; [done|]. cbn [zeros_at]. destruct (g =? 0)%N eqn:E; [|by cbn; split; [lia|]].
  apply N.eqb_eq in E as ->. cbn. rewrite IH2. split; [lia|done].
Qed.

Lemma longest_zeros_run gs start len : longest_zeros gs = (start, len) ->
  gs = take start gs ++ replicate len 0%N ++ drop (start + len) gs /\ start + len <= length gs.
Proof.
  revert start len. induction gs as [|g gs IH]; intros start len H; [by injection H as <- <-|].
  destruct (zeros_at_le (g :: gs)) as [H1 H2].
  cbn [longest_zeros] in H. destruct (longest_zeros gs) as [s l] eqn:E. remember (zeros_at (g :: gs)) as z.
  destruct (Nat.leb l z).
  - injection H as <- <-. change (take 0 (g :: gs)) with (@nil N). cbn [Nat.add app]. split; [|done].
    rewrite <- H2. symmetry. apply take_drop.
  - injection H as <- <-. destruct (IH s l eq_refl) as [H3 H4]. cbn [take Nat.add drop app length]. split; [|lia].
    f_equal. exact H3.
Qed.

Lemma parse_compressed head len tail :
  Forall (fun g => (g <= 65535)%N) (head ++ tail) -> 1 < len -> length head + len + length tail = 8 ->
  parse_ipv6 (groups_text head +:+ "::" +:+ groups_text tail) = Some (head ++ replicate len 0%N ++ tail).
Proof.
  intros [Hh Ht]%Forall_app Hlen Hsum. unfold parse_ipv6.
  assert (contains_char "." (groups_text tail) = false) as Hd.
  { destruct tail as [|g gs]; [done|]. rewrite <- (append_nil_r (groups_text _)), groups_text_cons.
    inversion Ht; subst. rewrite contains_char_append, hex_no_dot_text by done. by apply more_groups_no_dot. }
  rewrite read_groups_text; [|done|lia|right; by eexists|by rewrite contains_char_append].
  rewrite (proj2 (Nat.eqb_neq _ _)) by lia. rewrite strip_prefix_append.
  rewrite <- (append_nil_r (groups_text tail)), read_groups_text; [|done|lia|by left|done].
  cbn [str_is_empty]. by replace (8 - length head - length tail) with len by lia.
Qed.

Lemma parse_ipv4_mapped a b : (a <= 65535)%N -> (b <= 65535)%N ->
  parse_ipv6 ("::ffff:" +:+ ipv4_text a b) = Some [0; 0; 0; 0; 0; 65535; a; b]%N.
Proof.
  intros Ha Hb. assert (read_ipv4_addr (ipv4_text a b) = Some ([a; b], "")) as E.
  { assert (forall n, (n <= 65535)%N -> (n / 256 <= 255)%N /\ (n mod 256 <= 255)%N /\ (n / 256 * 256 + n mod 256 = n)%N) as Hq.
    { intros n Hn. pose proof (N.div_mod' n 256) as Hd. pose proof (N.mod_lt n 256 ltac:(done)) as Hm.
      remember (n / 256)%N as q. remember (n mod 256)%N as r. split_and!; lia. }
    destruct (Hq a Ha) as (A1 & A2 & A3), (Hq b Hb) as (B1 & B2 & B3).
    unfold read_ipv4_addr, ipv4_text. cbn [read_octets separated].
    rewrite read_octet_text by done. rewrite strip_prefix_append. rewrite read_octet_text by done.
    rewrite strip_prefix_append. rewrite read_octet_text by done. rewrite strip_prefix_append.
    rewrite <- (append_nil_r (n_to_string (b mod 256))). rewrite read_octet_text by done. by rewrite A3, B3. }
  unfold parse_ipv6. change (read_groups 8 true ("::ffff:" +:+ ipv4_text a b)) with (@nil N, false, "::ffff:" +:+ ipv4_text a b).
  cbn [length Nat.eqb Nat.add Nat.sub].
  change (strip_prefix "::" ("::ffff:" +:+ ipv4_text a b)) with (Some ("ffff:" +:+ ipv4_text a b)).
  cbv beta iota.
  assert (read_groups 7 true ("ffff:" +:+ ipv4_text a b) = ([65535; a; b]%N, true, "")) as ->; [|done].
  change (read_groups 7 true ("ffff:" +:+ ipv4_text a b)) with
    (let '(gs, v4, rest) := read_groups 6 false (":" +:+ ipv4_text a b) in (65535%N :: gs, v4, rest)).
  cbn [read_groups Nat.ltb Nat.leb separated]. rewrite strip_prefix_append, E. done.
Qed.

Lemma ipv6_roundtrip gs : ipv6_ok gs -> parse_ipv6 (ipv6_to_string gs) = Some gs.
Proof.
  intros [Hl Hg].
  assert (parse_ipv6 (let '(start, len) := longest_zeros gs in
      if Nat.ltb 1 len then groups_text (take start gs) +:+ "::" +:+ groups_text (drop (start + len) gs)
      else groups_text gs) = Some gs) as Hplain.
  { destruct (longest_zeros gs) as [start len] eqn:E. apply longest_zeros_run in E as [E Hle].
    destruct (Nat.ltb 1 len) eqn:El.
    - apply Nat.ltb_lt in El. rewrite E at 3. apply parse_compressed; [|done|].
      + apply Forall_app. split; [by apply Forall_take|by apply Forall_drop].
      + rewrite length_take, length_drop. lia.
    - unfold parse_ipv6. rewrite <- (append_nil_r (groups_text gs)), read_groups_text; [|done|lia|by left|done].
      by rewrite Hl. }
  unfold ipv6_to_string. destruct (to_ipv4_mapped gs) as [[a b]|] eqn:E; [|done]. unfold to_ipv4_mapped in E.
  destruct (drop 6 gs) as [|a' [|b' [|]]] eqn:Ed; [done..| |done]. case_bool_decide as Et; [|done]. injection E as -> ->.
  rewrite <- (take_drop 6 gs), Et, Ed in Hg |- *. rewrite Forall_app, !Forall_cons in Hg.
  destruct Hg as (_ & Ha & Hb & _). exact (parse_ipv4_mapped a b Ha Hb).
Qed.

(** *** The characters of an address *)

Lemma ipv6_chars (p : ascii -> bool) gs : Forall (fun g => (g <= 65535)%N) gs ->
  (forall c, is_ipv6_char c = true -> p c = true) -> bytes_all p (ipv6_to_string gs) = true.
Proof.
  intros Hg Hp. apply (bytes_all_impl is_ipv6_char); [done|]. clear p Hp.
  assert (forall g, (g <= 65535)%N -> bytes_all is_ipv6_char (group_text g) = true) as Hgroup.
  { intros g H. eapply bytes_all_impl; [|by apply group_text_hex]. apply ascii_impl. vm_compute. reflexivity. }
  assert (forall l, Forall (fun g => (g <= 65535)%N) l -> bytes_all is_ipv6_char (groups_text l) = true) as Hgroups.
  { intros l Hl. unfold groups_text. induction Hl as [|g l H Hl IH]; [done|]. destruct l as [|g' l]; [by apply Hgroup|].
    cbn [fmap list_fmap] in *. rewrite join_cons, !bytes_all_append, Hgroup by done. by rewrite IH. }
  assert (forall n, bytes_all is_ipv6_char (n_to_string n) = true) as Hn.
  { intros n. eapply bytes_all_impl; [|apply n_to_string_digits]. apply ascii_impl. vm_compute. reflexivity. }
  unfold ipv6_to_string. destruct (to_ipv4_mapped gs) as [[a b]|].
  - unfold ipv4_text. by rewrite !bytes_all_append, !Hn.
  - destruct (longest_zeros gs) as [start len]. destruct (Nat.ltb 1 len); [|by apply Hgroups].
    rewrite !bytes_all_append, !Hgroups; [done|by apply Forall_drop|by apply Forall_take].
Qed.

(** What is read is an address. *)
Lemma read_number_bound digit radix k zero max s n r :
  read_number digit radix k zero max s = Some (n, r) -> (n <= max)%N.
Proof.
  unfold read_number. destruct (span_digits digit s) as [ds rest]. destruct (Nat.ltb k (length ds)); [done|].
  destruct ds as [|d more]; [done|]. destruct (negb zero && _ && _); [done|].
  destruct (_ <=? max)%N eqn:E; [|done]. intros [= <- _]. by apply N.leb_le.
Qed.

Lemma read_octets_bound n : forall first s os r, read_octets n first s = Some (os, r) -> Forall (fun o => (o <= 255)%N) os.
Proof.
  induction n as [|n IH]; intros first s os r H; cbn [read_octets] in H; [by injection H as <- <-|].
  destruct (separated "." first read_octet s) as [[o r']|] eqn:E; [|done].
  destruct (read_octets n false r') as [[os' rest]|] eqn:E2; [|done]. injection H as <- <-.
  constructor; [|by eapply IH]. unfold separated in E. destruct first; [by eapply read_number_bound|].
  destruct (strip_prefix "." s); [by eapply read_number_bound|done].
Qed.

Lemma separated_Some {A} sep first (p : Parser A) s x : separated sep first p s = Some x -> exists t, p t = Some x.
Proof. unfold separated. destruct first; [by eexists|]. destruct (strip_prefix sep s); [by eexists|done]. Qed.

Lemma read_groups_bound left : forall first s gs v4 r, read_groups left first s = (gs, v4, r) ->
  Forall (fun g => (g <= 65535)%N) gs /\ length gs <= left.
Proof.
  induction left as [|left IH]; intros first s gs v4 r H; cbn [read_groups] in H; [by injection H as <- <- <-|].
  destruct (if Nat.ltb 1 (S left) then _ else _) as [[groups r']|] eqn:E.
  - injection H as <- <- <-. destruct (Nat.ltb 1 (S left)) eqn:El; [|done]. apply Nat.ltb_lt in El.
    apply separated_Some in E as [t E]. unfold read_ipv4_addr in E.
    destruct (read_octets 4 true t) as [[os r0]|] eqn:Eo; [|done]. apply read_octets_bound in Eo.
    destruct os as [|a [|b [|c [|d [|]]]]]; try done. injection E as <- <-.
    rewrite !Forall_cons in Eo. destruct Eo as (Ha & Hb & Hc & Hd & _). split; [|cbn; lia].
    repeat constructor; lia.
  - destruct (separated ":" first read_group s) as [[g r1]|] eqn:Eg; [|by injection H as <- <- <-; split; [|cbn; lia]].
    destruct (read_groups left false r1) as [[gs' v'] rest] eqn:Er. injection H as <- <- <-.
    apply IH in Er as [H1 H2]. apply separated_Some in Eg as [t Eg]. split; [|cbn; lia].
    constructor; [by eapply read_number_bound|done].
Qed.

Lemma parse_ipv6_ok s gs : parse_ipv6 s = Some gs -> ipv6_ok gs.
Proof.
  unfold parse_ipv6. destruct (read_groups 8 true s) as [[hd v4] r] eqn:E. apply read_groups_bound in E as [H1 H2].
  destruct (Nat.eqb (length hd) 8) eqn:El.
  { apply Nat.eqb_eq in El. destruct (str_is_empty r); [|done]. by intros [= <-]. }
  apply Nat.eqb_neq in El. destruct v4; [done|]. destruct (strip_prefix "::" r) as [r1|]; [|done].
  destruct (read_groups (8 - (length hd + 1)) true r1) as [[tl w] r2] eqn:E2. apply read_groups_bound in E2 as [H3 H4].
  destruct (str_is_empty r2); [|done]. intros [= <-]. split.
  - rewrite !length_app, length_replicate. lia.
  - rewrite !Forall_app. split_and!; [done| |done]. by apply Forall_replicate.
Qed.
