(* ===== verification/HttpFraming.v ===== *)
(** * HTTP responses on the wire (crates/eva-mcp/src/json_rpc.rs, lines 1605-2872)

    Reading a response head, choosing how its body is delimited, and reading
    the body: by content length, in chunks, or to the end of the connection.
    The reader is the list of what the reads of the connection return. *)

From Stdlib Require Import Ascii.
From stdpp Require Import base numbers strings list.
From S2P Require Import Prelude RustStr Error Json McpJsonRpc McpClient.

(** ** The connection *)

(** [io::ErrorKind], as far as the code tells the kinds apart. *)
Inductive ReadFailureKind := TimedOut | WouldBlock | OtherFailure.

Definition is_timeout_error (kind : ReadFailureKind) : bool :=
  match kind with TimedOut | WouldBlock => true | OtherFailure => false end.

Definition map_http_read_error (kind : ReadFailureKind) (origin : string) : EvaError :=
  if is_timeout_error kind then
    with_provider_code (timeout_error "MCP HTTP response read timed out") "mcp_http_read_timeout" ⊕ ("origin", origin)
  else
    with_provider_code (unavailable "failed to read MCP HTTP response") "mcp_http_read_failed" ⊕ ("origin", origin).

(** What the reads return; an empty chunk, or no chunk, is the end. *)
Definition Stream : Type := list (Result ReadFailureKind string).

(** [reader.read(&mut buffer)] for a buffer of [n] bytes. *)
Definition read (s : Stream) (n : nat) : Result ReadFailureKind string * Stream :=
  match s with
  | [] => (Ok "", [])
  | Err e :: r => (Err e, r)
  | Ok chunk :: r =>
      if str_is_empty chunk then (Ok "", s)
      else if n <? String.length chunk then
        (Ok (String.substring 0 n chunk), Ok (String.substring n (String.length chunk - n) chunk) :: r)
      else (Ok chunk, r)
  end.

(** [.map_err(|error| map_http_read_error(error, origin))] *)
Definition http_read (s : Stream) (n : nat) (origin : string) : Res (string * Stream) :=
  match read s n with
  | (Ok bytes, s) => Ok (bytes, s)
  | (Err e, _) => Err (map_http_read_error e origin)
  end.

(** The bytes before the end, and how the connection ends. *)
Fixpoint stream_bytes (s : Stream) : string :=
  match s with
  | Ok chunk :: r => if str_is_empty chunk then "" else chunk +:+ stream_bytes r
  | _ => ""
  end.
Fixpoint stream_failure (s : Stream) : option ReadFailureKind :=
  match s with
  | [] => None
  | Err e :: _ => Some e
  | Ok chunk :: r => if str_is_empty chunk then None else stream_failure r
  end.

(** ** Errors *)

Definition http_framing_error (origin reason : string) : EvaError :=
  with_provider_code (unavailable "MCP HTTP response framing is invalid") "mcp_http_framing_invalid"
    ⊕ ("origin", origin) ⊕ ("reason", reason).

Definition http_body_incomplete_error (origin reason : string) : EvaError :=
  with_provider_code (unavailable "MCP HTTP response body ended before its framing completed") "mcp_http_body_incomplete"
    ⊕ ("origin", origin) ⊕ ("reason", reason).

(** ** Lines *)

Definition HTTP_HEADER_LIMIT_BYTES : N := 64 * 1024.
Definition crlf : string := String cr (str nl).

Definition headers_too_large (origin : string) (limit : N) : EvaError :=
  with_provider_code (conflict "MCP HTTP response headers exceeded limit") "mcp_http_headers_too_large"
    ⊕ ("origin", origin) ⊕ ("header_limit_bytes", n_to_string limit).

(** The loop of [read_http_line]: the line with its newline, how much was
    consumed and what is left. *)
Fixpoint http_line_bytes (fuel : nat) (origin : string) (limit : N) (line : string) (consumed : N) (s : Stream) :
    Res (string * N * Stream) :=
  match fuel with
  | O => Err out_of_fuel
  | S fuel =>
      let? '(byte, s) := http_read s 1 origin in
      reject str_is_empty byte with http_body_incomplete_error origin "missing CRLF-terminated line" else
      let consumed := saturating_add usize_max consumed 1 in
      reject (limit <? consumed)%N with headers_too_large origin limit else
      let line := line +:+ byte in
      if String.eqb byte (str nl) then Ok (line, consumed, s)
      else http_line_bytes fuel origin limit line consumed s
  end.

Definition ends_with_crlf (line : string) : bool :=
  (2 <=? String.length line) && String.eqb (String.substring (String.length line - 2) 2 line) crlf.

Definition read_http_line (s : Stream) (consumed : N) (origin : string) (limit : N) : Res (string * N * Stream) :=
  let? '(line, consumed, s) := http_line_bytes (S (String.length (stream_bytes s))) origin limit "" consumed s in
  reject negb (ends_with_crlf line) with http_framing_error origin "line is not CRLF terminated" else
  Ok (String.substring 0 (String.length line - 2) line, consumed, s).

(** ** The head *)

Inductive HttpBodyFraming :=
| FramingNone
| ContentLength (length : N)
| Chunked
| CloseDelimited.
#[export] Instance HttpBodyFraming_eq_dec : EqDecision HttpBodyFraming.
Proof. solve_decision. Defined.

Record HttpResponseHead := MkHead {
  status_code : N;
  http_11 : bool;
  content_length : option N;
  transfer_encoding_chunked : bool;
  content_type : option string;
  connection_close : bool;
  connection_keep_alive : bool;
  session_id : option string
}.
#[export] Instance HttpResponseHead_eta : Eta HttpResponseHead := fun h =>
  MkHead (status_code h) (http_11 h) (content_length h) (transfer_encoding_chunked h) (content_type h)
    (connection_close h) (connection_keep_alive h) (session_id h).

Definition u16_max : N := 65535.

(** [text.splitn(3, ' ')] *)
Definition splitn_3 (s : string) : string * option (string * option string) :=
  match split_once " " s with
  | None => (s, None)
  | Some (a, r) =>
      match split_once " " r with
      | None => (a, Some (r, None))
      | Some (b, c) => (a, Some (b, Some c))
      end
  end.

Definition is_reason_byte (c : ascii) : bool :=
  negb ((byte_of c <? 32)%N && negb (Ascii.eqb c tab) || (byte_of c =? 127)%N).

Definition parse_http_status_line (line origin : string) : Res (N * bool) :=
  reject negb (utf8_valid line) with http_framing_error origin "status line is not valid UTF-8" else
  let '(version, rest) := splitn_3 line in
  let? '(code, reason) := ok_or rest (http_framing_error origin "missing status code") in
  reject negb (String.eqb version "HTTP/1.1") && negb (String.eqb version "HTTP/1.0") with
    http_framing_error origin "unsupported HTTP version" else
  reject negb (Nat.eqb (String.length code) 3) || negb (bytes_all is_ascii_digit code) with
    http_framing_error origin "invalid status code" else
  let? status := ok_or (parse_unsigned u16_max code) (http_framing_error origin "invalid status code") in
  reject negb ((100 <=? status) && (status <=? 599))%N with
    http_framing_error origin "status code is outside HTTP range" else
  reject match reason with Some reason => negb (bytes_all is_reason_byte reason) | None => false end with
    http_framing_error origin "invalid reason phrase" else
  Ok (status, String.eqb version "HTTP/1.1").

Definition is_http_token_byte (c : ascii) : bool :=
  is_ascii_alphanumeric c || contains_char c "!#$%&'*+-.^_`|~".

(** [to_ascii_lowercase] *)
Definition ascii_lower (c : ascii) : ascii :=
  if in_range 65 90 c then ascii_of_N (byte_of c + 32) else c.
Fixpoint to_ascii_lowercase (s : string) : string :=
  match s with EmptyString => "" | String c r => String (ascii_lower c) (to_ascii_lowercase r) end.
Definition eq_ignore_ascii_case (a b : string) : bool :=
  String.eqb (to_ascii_lowercase a) (to_ascii_lowercase b).

(** The replacement character, and [String::from_utf8_lossy]: a malformed
    character, as far as it goes, is replaced. *)
Definition replacement : string :=
  String (ascii_of_N 239) (String (ascii_of_N 191) (str (ascii_of_N 189))).
Fixpoint from_utf8_lossy (s : string) : string :=
  match s with
  | EmptyString => ""
  | String a r1 =>
      if in_range 0 127 a then String a (from_utf8_lossy r1)
      else if negb (in_range 194 244 a) then replacement +:+ from_utf8_lossy r1
      else match r1 with
      | EmptyString => replacement
      | String b r2 =>
          if negb (second_byte a b) then replacement +:+ from_utf8_lossy r1
          else if in_range 194 223 a then String a (String b (from_utf8_lossy r2))
          else match r2 with
          | EmptyString => replacement
          | String c r3 =>
              if negb (in_range 128 191 c) then replacement +:+ from_utf8_lossy r2
              else if in_range 224 239 a then String a (String b (String c (from_utf8_lossy r3)))
              else match r3 with
              | EmptyString => replacement
              | String d r4 =>
                  if negb (in_range 128 191 d) then replacement +:+ from_utf8_lossy r3
                  else String a (String b (String c (String d (from_utf8_lossy r4))))
              end
          end
      end
  end.

Definition is_blank_char (c : string) : bool := String.eqb c " " || String.eqb c (str tab).
(** [trim_matches(|c| c == ' ' || c == '\t')] *)
Definition trim_blanks (s : string) : string :=
  str_concat (rev (drop_while is_blank_char (rev (drop_while is_blank_char (chars s))))).

Definition parse_http_header_line (line origin : string) : Res (string * string) :=
  reject head_is " " line || head_is tab line with http_framing_error origin "obsolete folded header" else
  let? '(name, value) := ok_or (split_once ":" line) (http_framing_error origin "header is missing colon") in
  reject str_is_empty name || negb (bytes_all is_http_token_byte name) with
    http_framing_error origin "invalid header name" else
  reject negb (bytes_all is_reason_byte value) with http_framing_error origin "invalid header value" else
  Ok (to_ascii_lowercase name, trim_blanks (from_utf8_lossy value)).

Definition parse_http_content_length (value origin : string) : Res N :=
  reject str_is_empty value || negb (bytes_all is_ascii_digit value) with
    http_framing_error origin "invalid content-length" else
  ok_or (parse_unsigned usize_max value) (http_framing_error origin "content-length overflows host size").

(** [u8::is_ascii_control] *)
Definition is_ascii_control (c : ascii) : bool := ((byte_of c <? 32) || (byte_of c =? 127))%N.

Definition parse_http_media_type (value origin : string) : Res string :=
  let media_type := match split ";" value with [] => "" | first :: _ => trim first end in
  reject str_is_empty media_type with http_framing_error origin "empty content-type" else
  reject negb (contains_char "/" media_type) || negb (bytes_all (fun c => negb (is_ascii_control c)) media_type) with
    http_framing_error origin "invalid content-type" else
  Ok (to_ascii_lowercase media_type).

Definition MCP_SESSION_ID_LIMIT_BYTES : N := 4 * 1024.

Definition parse_mcp_session_id (value origin : string) : Res string :=
  reject str_is_empty value || (MCP_SESSION_ID_LIMIT_BYTES <? slen value)%N
         || negb (bytes_all is_visible_ascii value) with
    http_framing_error origin "invalid MCP session id" else
  Ok value.

(** The value of a transfer-encoding header. *)
Definition is_chunked_encoding (value : string) : bool :=
  match trim <$> split "," value with
  | [token] => negb (str_is_empty token) && eq_ignore_ascii_case token "chunked"
  | _ => false
  end.

(** The [for] loop over the directives of a connection header. *)
Fixpoint connection_directives (head : HttpResponseHead) (tokens : list string) : HttpResponseHead :=
  match tokens with
  | [] => head
  | token :: r =>
      let head :=
        if eq_ignore_ascii_case token "close" then head <| connection_close := true |>
        else if eq_ignore_ascii_case token "keep-alive" then head <| connection_keep_alive := true |>
        else head in
      connection_directives head r
  end.

(** One header of the head. *)
Definition head_header (head : HttpResponseHead) (name value origin : string) : Res HttpResponseHead :=
  if String.eqb name "content-length" then
    reject bool_decide (is_Some (content_length head)) with http_framing_error origin "duplicate content-length" else
    let? length := parse_http_content_length value origin in Ok (head <| content_length := Some length |>)
  else if String.eqb name "transfer-encoding" then
    reject transfer_encoding_chunked head with http_framing_error origin "duplicate transfer-encoding" else
    reject negb (is_chunked_encoding value) with http_framing_error origin "unsupported transfer-encoding" else
    Ok (head <| transfer_encoding_chunked := true |>)
  else if String.eqb name "content-type" then
    reject bool_decide (is_Some (content_type head)) with http_framing_error origin "duplicate content-type" else
    let? media_type := parse_http_media_type value origin in Ok (head <| content_type := Some media_type |>)
  else if String.eqb name "mcp-session-id" then
    reject bool_decide (is_Some (session_id head)) with http_framing_error origin "duplicate MCP session id" else
    let? id := parse_mcp_session_id value origin in Ok (head <| session_id := Some id |>)
  else if String.eqb name "connection" then
    let head := connection_directives head (trim <$> split "," value) in
    reject connection_close head && connection_keep_alive head with
      http_framing_error origin "conflicting connection directives" else
    Ok head
  else if String.eqb name "content-encoding" && negb (eq_ignore_ascii_case (trim value) "identity") then
    Err (http_framing_error origin "unsupported content-encoding")
  else Ok head.

(** The loop of [read_http_response_head]. *)
Fixpoint head_lines (fuel : nat) (head : HttpResponseHead) (consumed : N) (s : Stream) (origin : string) :
    Res (HttpResponseHead * Stream) :=
  match fuel with
  | O => Err out_of_fuel
  | S fuel =>
      let? '(line, consumed, s) := read_http_line s consumed origin HTTP_HEADER_LIMIT_BYTES in
      if str_is_empty line then Ok (head, s) else
      let? '(name, value) := parse_http_header_line line origin in
      let? head := head_header head name value origin in
      head_lines fuel head consumed s origin
  end.

Definition read_http_response_head (s : Stream) (origin : string) : Res (HttpResponseHead * Stream) :=
  let? '(line, consumed, s) := read_http_line s 0 origin HTTP_HEADER_LIMIT_BYTES in
  let? '(status, version_11) := parse_http_status_line line origin in
  let head := {| status_code := status; http_11 := version_11; content_length := None;
                 transfer_encoding_chunked := false; content_type := None; connection_close := false;
                 connection_keep_alive := false; session_id := None |} in
  head_lines (S (String.length (stream_bytes s))) head consumed s origin.

Definition is_informational (status : N) : bool := ((100 <=? status) && (status <? 200))%N.

Definition select_http_body_framing (head : HttpResponseHead) (origin : string) (allow_bodyless_accepted : bool) :
    Res HttpBodyFraming :=
  let status := status_code head in
  if is_informational status || (status =? 204)%N || (status =? 205)%N || (status =? 304)%N then
    reject transfer_encoding_chunked head
           || (is_informational status || (status =? 204)%N || (status =? 205)%N)
              && (0 <? default 0 (content_length head))%N with
      http_framing_error origin "body is forbidden for status" else
    Ok FramingNone
  else if allow_bodyless_accepted && (status =? 202)%N && bool_decide (content_length head = None)
          && negb (transfer_encoding_chunked head) then Ok FramingNone
  else if transfer_encoding_chunked head then
    reject bool_decide (is_Some (content_length head)) with
      http_framing_error origin "content-length conflicts with transfer-encoding" else
    Ok Chunked
  else
    match content_length head with
    | Some length => Ok (ContentLength length)
    | None =>
        if connection_close head || negb (http_11 head) && negb (connection_keep_alive head) then Ok CloseDelimited
        else Err (http_framing_error origin "response body framing is missing")
    end.

(** The loop of [read_final_http_response_head]: at most eight informational
    responses precede the final one. *)
Fixpoint final_head (fuel : nat) (informational : N) (s : Stream) (origin : string) : Res (HttpResponseHead * Stream) :=
  match fuel with
  | O => Err out_of_fuel
  | S fuel =>
      let? '(head, s) := read_http_response_head s origin in
      if is_informational (status_code head) && negb (status_code head =? 101)%N then
        let? framing := select_http_body_framing head origin false in
        reject negb (bool_decide (framing = FramingNone)) with
          http_framing_error origin "informational response carried a body" else
        let informational := saturating_add 255 informational 1 in
        reject (8 <? informational)%N with http_framing_error origin "too many informational responses" else
        final_head fuel informational s origin
      else Ok (head, s)
  end.

Definition read_final_http_response_head (s : Stream) (origin : string) (allow_bodyless_accepted : bool) :
    Res (HttpResponseHead * HttpBodyFraming * Stream) :=
  let? '(head, s) := final_head 10 0 s origin in
  let? framing := select_http_body_framing head origin allow_bodyless_accepted in
  Ok (head, framing, s).

(** ** The body *)

(** The loop of [read_http_exact], with the bytes still to be read. *)
Fixpoint http_exact (fuel : nat) (s : Stream) (target : string) (missing : nat) (origin : string) : Res (string * Stream) :=
  match missing with
  | O => Ok (target, s)
  | S _ =>
      match fuel with
      | O => Err out_of_fuel
      | S fuel =>
          let? '(bytes, s) := http_read s missing origin in
          reject str_is_empty bytes with http_body_incomplete_error origin "content-length body ended early" else
          http_exact fuel s (target +:+ bytes) (missing - String.length bytes) origin
      end
  end.
Definition read_http_exact (s : Stream) (length : N) (origin : string) : Res (string * Stream) :=
  http_exact (S (N.to_nat length)) s "" (N.to_nat length) origin.

(** [u64::from_str_radix(text, 16)] for a text of hex digits. *)
Fixpoint hex_digits_value (acc : N) (s : string) : option N :=
  match s with
  | EmptyString => Some acc
  | String c r =>
      match hex_value c with
      | None => None
      | Some d => if (u64_max <? 16 * acc + d)%N then None else hex_digits_value (16 * acc + d) r
      end
  end.

Definition parse_http_chunk_size (line origin : string) : Res N :=
  reject negb (bytes_all (fun c => negb (is_ascii_control c)) line) with
    http_framing_error origin "invalid chunk extension" else
  let size_text := match split ";" line with [] => "" | first :: _ => first end in
  reject negb (utf8_valid size_text) with http_framing_error origin "chunk size is not ASCII" else
  reject str_is_empty size_text || negb (bytes_all is_ascii_hexdigit size_text) with
    http_framing_error origin "invalid chunk size" else
  ok_or (hex_digits_value 0 size_text) (http_framing_error origin "chunk size overflows host size").

Definition forbidden_trailers : list string :=
  ["host"; "content-length"; "transfer-encoding"; "content-type"; "content-encoding"; "connection"; "trailer";
   "te"; "upgrade"; "proxy-authenticate"; "proxy-authorization"].

Definition validate_http_trailer (line origin : string) : Res unit :=
  let? '(name, _) := parse_http_header_line line origin in
  reject bool_decide (name ∈ forbidden_trailers) with http_framing_error origin "forbidden trailer field" else
  Ok tt.

(** The trailers after the last chunk, to the empty line. *)
Fixpoint chunk_trailers (fuel : nat) (s : Stream) (metadata : N) (origin : string) : Res Stream :=
  match fuel with
  | O => Err out_of_fuel
  | S fuel =>
      let? '(trailer, metadata, s) := read_http_line s metadata origin HTTP_HEADER_LIMIT_BYTES in
      if str_is_empty trailer then Ok s else
      validate_http_trailer trailer origin >>? chunk_trailers fuel s metadata origin
  end.

(** The loop of [read_http_chunked_body]: the body, whether it is cut short,
    and what is left of the connection. *)
Fixpoint chunked_body (fuel : nat) (s : Stream) (metadata : N) (body : string) (limit : N) (origin : string) :
    Res (string * bool * Stream) :=
  match fuel with
  | O => Err out_of_fuel
  | S fuel =>
      let? '(line, metadata, s) := read_http_line s metadata origin HTTP_HEADER_LIMIT_BYTES in
      let? size := parse_http_chunk_size line origin in
      if (size =? 0)%N then
        let? s := chunk_trailers (S (String.length (stream_bytes s))) s metadata origin in Ok (body, false, s)
      else if (limit - slen body <? size)%N then Ok (body, true, s)
      else
        let? '(chunk, s) := read_http_exact s size origin in
        let body := body +:+ chunk in
        let? '(delimiter, s) := read_http_exact s 2 origin in
        reject negb (String.eqb delimiter crlf) with http_framing_error origin "chunk data is not CRLF terminated" else
        chunked_body fuel s metadata body limit origin
  end.
Definition read_http_chunked_body (s : Stream) (limit : N) (origin : string) : Res (string * bool * Stream) :=
  chunked_body (S (String.length (stream_bytes s))) s 0 "" limit origin.

(** The loop of [read_http_close_delimited_body]. *)
Fixpoint close_delimited (fuel : nat) (s : Stream) (body : string) (limit : N) (origin : string) :
    Res (string * bool * Stream) :=
  match fuel with
  | O => Err out_of_fuel
  | S fuel =>
      let? '(bytes, s) := http_read s (N.to_nat 8192) origin in
      if str_is_empty bytes then Ok (body, false, s) else
      let remaining := (limit - slen body)%N in
      if (remaining <? slen bytes)%N then Ok (body +:+ String.substring 0 (N.to_nat remaining) bytes, true, s) else
      let body := body +:+ bytes in
      if (slen body =? limit)%N then
        let? '(extra, s) := http_read s 1 origin in Ok (body, negb (str_is_empty extra), s)
      else close_delimited fuel s body limit origin
  end.
Definition read_http_close_delimited_body (s : Stream) (limit : N) (origin : string) : Res (string * bool * Stream) :=
  close_delimited (S (String.length (stream_bytes s))) s "" limit origin.

Definition read_http_body (s : Stream) (framing : HttpBodyFraming) (limit : N) (origin : string) :
    Res (string * bool * Stream) :=
  match framing with
  | FramingNone => Ok ("", false, s)
  | ContentLength length =>
      if (limit <? length)%N then Ok ("", true, s)
      else let? '(body, s) := read_http_exact s length origin in Ok (body, false, s)
  | Chunked => read_http_chunked_body s limit origin
  | CloseDelimited => read_http_close_delimited_body s limit origin
  end.

(** ** Responses *)

Record HttpJsonRpcResponse := MkHttpResponse {
  response_status : N;
  response_content_type : option string;
  response_body : string;
  response_truncated : bool;
  response_session : option string
}.

(** [HttpOpenResponse::into_buffered], between its deadline checks. *)
Definition into_buffered (head : HttpResponseHead) (framing : HttpBodyFraming) (s : Stream) (limit : N) (origin : string) :
    Res (HttpJsonRpcResponse * Stream) :=
  let? '(body, truncated, s) := read_http_body s framing limit origin in
  Ok ({| response_status := status_code head; response_content_type := content_type head; response_body := body;
         response_truncated := truncated; response_session := session_id head |}, s).

Definition require_json_content_type (content_type : option string) : Res unit :=
  match content_type with
  | Some value =>
      if String.eqb value "application/json" then Ok tt
      else Err (with_provider_code (unsupported "MCP HTTP response content type is unsupported")
                  "mcp_http_content_type_unsupported")
  | None => Err (with_provider_code (unavailable "MCP HTTP response content type is missing")
                   "mcp_http_content_type_missing")
  end.

Definition require_event_stream_content_type (content_type : option string) : Res unit :=
  match content_type with
  | Some value =>
      if String.eqb value "text/event-stream" then Ok tt
      else Err (with_provider_code (unsupported "MCP HTTP GET response is not an event stream")
                  "mcp_http_content_type_unsupported")
  | None => Err (with_provider_code (unavailable "MCP HTTP GET response content type is missing")
                   "mcp_http_content_type_missing")
  end.

Definition is_success (status : N) : bool := ((200 <=? status) && (status <? 300))%N.

Definition decode_http_exchange_response (response : HttpJsonRpcResponse) (expected_id limit : N) : Res string :=
  reject negb (is_success (response_status response)) with
    with_provider_code (unavailable "MCP HTTP server returned non-success status") "mcp_http_status"
      ⊕ ("json_rpc_id", n_to_string expected_id) ⊕ ("status_code", n_to_string (response_status response)) else
  reject response_truncated response with
    with_provider_code (conflict "MCP HTTP response exceeded output limit") "mcp_response_too_large"
      ⊕ ("json_rpc_id", n_to_string expected_id) ⊕ ("output_limit_bytes", n_to_string limit) else
  reject str_is_empty (response_body response) with
    with_provider_code (unavailable "MCP HTTP response did not contain a JSON-RPC body") "mcp_http_body_missing"
      ⊕ ("json_rpc_id", n_to_string expected_id) ⊕ ("status_code", n_to_string (response_status response)) else
  require_json_content_type (response_content_type response) >>?
  match from_utf8 (response_body response) with
  | Err error =>
      Err (with_provider_code (unavailable "MCP HTTP response was not UTF-8") "mcp_protocol_error"
             ⊕ ("utf8_error", error))
  | Ok text => enforce_response_limit text limit >>? Ok text
  end.

Definition validate_http_event_stream_metadata (response : HttpJsonRpcResponse) : Res unit :=
  reject (response_status response =? 405)%N with
    with_provider_code (unsupported "MCP HTTP server does not provide a server event stream") "mcp_http_sse_unsupported" else
  reject negb (response_status response =? 200)%N with
    with_provider_code (unavailable "MCP HTTP GET did not return an event stream") "mcp_http_status"
      ⊕ ("status_code", n_to_string (response_status response)) else
  require_event_stream_content_type (response_content_type response).

Definition decode_http_event_stream_response (response : HttpJsonRpcResponse) (limit : N) : Res string :=
  validate_http_event_stream_metadata response >>?
  reject response_truncated response with
    with_provider_code (conflict "MCP HTTP GET response exceeded output limit") "mcp_response_too_large"
      ⊕ ("output_limit_bytes", n_to_string limit) else
  Ok (response_body response).

Definition validate_http_notification_response (response : HttpJsonRpcResponse) (limit : N) : Res unit :=
  reject negb (response_status response =? 202)%N with
    with_provider_code (unavailable "MCP HTTP notification was not accepted with status 202") "mcp_http_status"
      ⊕ ("status_code", n_to_string (response_status response)) else
  reject response_truncated response with
    with_provider_code (conflict "MCP HTTP notification response exceeded output limit") "mcp_response_too_large"
      ⊕ ("output_limit_bytes", n_to_string limit) else
  reject negb (str_is_empty (response_body response)) with
    with_provider_code (protocol_error "MCP HTTP notification response must not contain a body")
      "mcp_http_notification_body_unexpected" else
  Ok tt.
