(* ===== verification/McpEndpoint.v ===== *)
(** * Endpoints (crates/eva-mcp/src/session.rs and json_rpc.rs)

    The canonical spelling of an MCP endpoint and its parts: [McpEndpoint] of
    session.rs, which the origin policy compares, and [ParsedHttpUrl] of
    json_rpc.rs, which the connection uses. *)

From Stdlib Require Import Ascii.
From stdpp Require Import base numbers strings list.
From stdpp Require Import base numbers strings gmap list sorting.
From S2P Require Import Prelude RustStr Error Json McpJsonRpc Ipv6 HttpFraming.

(** ** Searching *)

(** [text.split_once(pattern)] for a pattern of several bytes. *)
Fixpoint split_once_str (pattern text : string) : option (string * string) :=
  match strip_prefix pattern text with
  | Some r => Some ("", r)
  | None =>
      match text with
      | EmptyString => None
      | String c r => match split_once_str pattern r with Some (a, b) => Some (String c a, b) | None => None end
      end
  end.

(** [text.find(p)], as the texts before and from there. *)
Fixpoint break_at (p : ascii -> bool) (text : string) : string * string :=
  match text with
  | EmptyString => ("", "")
  | String c r => if p c then ("", text) else let '(a, b) := break_at p r in (String c a, b)
  end.

(** [text.rsplit_once(c)] *)
Fixpoint rsplit_once (c : ascii) (text : string) : option (string * string) :=
  match text with
  | EmptyString => None
  | String d r =>
      match rsplit_once c r with
      | Some (a, b) => Some (String d a, b)
      | None => if Ascii.eqb c d then Some ("", r) else None
      end
  end.

Fixpoint count_char (c : ascii) (s : string) : nat :=
  match s with EmptyString => 0 | String d r => (if Ascii.eqb c d then 1 else 0) + count_char c r end.

Definition is_one_of (cs : string) (c : ascii) : bool := contains_char c cs.

(** ** The canonical spelling *)

Definition endpoint_error {A} (message : string) : Res A := Err (invalid_argument message).

Definition parse_port (value : string) : Res N :=
  match parse_uint u16_max value with
  | Err _ => Err (invalid_argument "MCP endpoint port is invalid" ⊕ ("port", value))
  | Ok port => reject (port =? 0)%N with invalid_argument "MCP endpoint port must be non-zero" else Ok port
  end.

Definition default_port (scheme : string) : N := if String.eqb scheme "https" then 443 else 80.

(** The port of a canonical authority, left out when it is the default. *)
Definition port_suffix (scheme : string) (port : option N) : string :=
  match port with
  | Some port => if (port =? default_port scheme)%N then "" else ":" +:+ n_to_string port
  | None => ""
  end.

Definition is_host_byte (c : ascii) : bool := is_ascii_alphanumeric c || is_one_of ".-_" c.

Definition bracket_authority (scheme after : string) : Res string :=
  let '(host, from) := break_at (Ascii.eqb "]") after in
  match from with
  | EmptyString => endpoint_error "MCP endpoint IPv6 authority is malformed"
  | String _ suffix =>
      if str_is_empty host then endpoint_error "MCP endpoint host cannot be empty" else
      let? host := ok_or (parse_ipv6 host) (invalid_argument "MCP endpoint IPv6 address is malformed") in
      let? port :=
        if str_is_empty suffix then Ok None else
        let? port := ok_or (strip_prefix ":" suffix) (invalid_argument "MCP endpoint IPv6 authority is malformed") in
        let? port := parse_port port in Ok (Some port) in
      Ok ("[" +:+ ipv6_to_string host +:+ "]" +:+ port_suffix scheme port)
  end.

Definition name_authority (scheme authority : string) : Res string :=
  reject Nat.ltb 1 (count_char ":" authority) with
    invalid_argument "MCP endpoint IPv6 addresses must use brackets" else
  let? '(host, port) :=
    match rsplit_once ":" authority with
    | Some (host, port) =>
        reject str_is_empty host || str_is_empty port with
          invalid_argument "MCP endpoint authority contains an empty port" else
        let? port := parse_port port in Ok (host, Some port)
    | None => Ok (authority, None)
    end in
  let host := to_ascii_lowercase host in
  reject str_is_empty host || String.eqb host "*" || negb (bytes_all is_host_byte host) with
    invalid_argument "MCP endpoint host is malformed" else
  Ok (host +:+ port_suffix scheme port).

Definition canonical_authority (scheme authority : string) : Res string :=
  match authority with
  | String "[" after => bracket_authority scheme after
  | _ => name_authority scheme authority
  end.

Definition has_space (s : string) : bool := existsb (fun c => is_control c || is_whitespace c) (chars s).

(** [McpEndpoint::canonicalize] *)
Definition canonicalize (url : string) : Res string :=
  let? '(scheme, rest) := ok_or (split_once_str "://" url) (invalid_argument "MCP endpoint must include a scheme") in
  let scheme := to_ascii_lowercase scheme in
  reject negb (String.eqb scheme "http" || String.eqb scheme "https") with
    unsupported "MCP endpoint scheme is unsupported" ⊕ ("scheme", scheme) else
  reject has_space url with invalid_argument "MCP endpoint must not contain whitespace or control characters" else
  reject contains_char "#" rest with invalid_argument "MCP endpoint must not contain a fragment" else
  let '(authority, suffix) := break_at (is_one_of "/?") rest in
  reject str_is_empty authority with invalid_argument "MCP endpoint must include a host" else
  reject contains_char "@" authority with invalid_argument "MCP endpoint must not include userinfo" else
  let? authority := canonical_authority scheme authority in
  let suffix := if starts_with "?" suffix then "/" +:+ suffix else suffix in
  Ok (scheme +:+ "://" +:+ authority +:+ suffix).

Record McpEndpoint := MkEndpoint {
  ep_scheme : string;
  ep_authority : string;
  ep_origin : string
}.

(** A panic, here the one of [expect]; McpEndpointLaws.v shows that it does
    not happen. *)
Definition panicked (message : string) : EvaError := internal message.

(** [McpEndpoint::parse] *)
Definition endpoint_parse (url : string) : Res McpEndpoint :=
  let? canonical := canonicalize url in
  let? '(scheme, rest) := ok_or (split_once_str "://" canonical) (panicked "canonical endpoint always has a scheme") in
  let authority := (break_at (is_one_of "/?") rest).1 in
  reject str_is_empty authority with invalid_argument "MCP endpoint must include a host" else
  Ok {| ep_origin := scheme +:+ "://" +:+ authority; ep_scheme := scheme; ep_authority := authority |}.

(** [McpEndpoint::parse_origin] *)
Definition parse_origin (origin : string) : Res McpEndpoint :=
  reject String.eqb origin "*" || contains_char "*" origin with
    permission_denied "MCP origin policy does not support wildcard origins" ⊕ ("origin", origin) else
  let? parsed := endpoint_parse origin in
  let rest := match split_once_str "://" origin with Some (_, rest) => rest | None => "" end in
  reject negb (bytes_all (fun c => negb (is_one_of "/?#" c)) rest) with
    invalid_argument "MCP origin policy entries must not contain a path or query" ⊕ ("origin", origin) else
  Ok parsed.

(** ** The URL of a connection (json_rpc.rs) *)

Definition parse_http_port (value : string) : Res N :=
  match parse_uint u16_max value with
  | Err error => Err (invalid_argument "MCP HTTP URL port is invalid" ⊕ ("port", value) ⊕ ("parse_error", error))
  | Ok port => reject (port =? 0)%N with invalid_argument "MCP HTTP URL port must be non-zero" else Ok port
  end.

Definition parse_http_authority (scheme authority : string) : Res (string * N) :=
  match authority with
  | String "[" after =>
      let '(host, from) := break_at (Ascii.eqb "]") after in
      match from with
      | EmptyString => endpoint_error "MCP HTTP URL IPv6 authority is malformed"
      | String _ suffix =>
          let? host := ok_or (parse_ipv6 host) (invalid_argument "MCP HTTP URL IPv6 address is malformed") in
          let? port :=
            if str_is_empty suffix then Ok (default_port scheme) else
            let? value := ok_or (strip_prefix ":" suffix) (invalid_argument "MCP HTTP URL IPv6 authority is malformed") in
            parse_http_port value in
          Ok (ipv6_to_string host, port)
      end
  | _ =>
      reject Nat.ltb 1 (count_char ":" authority) with
        invalid_argument "MCP HTTP URL IPv6 addresses must use brackets" else
      match rsplit_once ":" authority with
      | Some (host, port) =>
          reject str_is_empty host || str_is_empty port with
            invalid_argument "MCP HTTP URL authority is malformed" else
          let? port := parse_http_port port in Ok (host, port)
      | None => Ok (authority, default_port scheme)
      end
  end.

Record ParsedHttpUrl := MkHttpUrl {
  hu_scheme : string;
  hu_host : string;
  hu_port : N;
  hu_path : string;
  hu_authority : string;
  hu_origin : string
}.

(** [ParsedHttpUrl::parse] *)
Definition http_url_parse (url : string) : Res ParsedHttpUrl :=
  let? canonical := canonicalize url in
  let? '(scheme, rest) := ok_or (split_once_str "://" canonical) (invalid_argument "MCP HTTP URL must include a scheme") in
  let '(authority, from_path) := break_at (is_one_of "/?#") rest in
  reject str_is_empty (trim authority) with invalid_argument "MCP HTTP URL must include a host" else
  reject contains_char "@" authority with
    invalid_argument "MCP HTTP URL must not include userinfo" ⊕ ("url", url) else
  let? '(host, port) := parse_http_authority scheme authority in
  let path :=
    if str_is_empty from_path then "/"
    else if starts_with "?" from_path || starts_with "#" from_path then "/" +:+ from_path else from_path in
  Ok {| hu_scheme := scheme; hu_host := host; hu_port := port; hu_path := path; hu_authority := authority;
        hu_origin := scheme +:+ "://" +:+ authority |}.

Example canonical_samples :
  canonicalize "HTTP://Example.COM:0080?x" = Ok "http://example.com/?x" /\
  canonicalize "https://[2001:DB8:0:0::1]:8443/mcp" = Ok "https://[2001:db8::1]:8443/mcp" /\
  is_ok (canonicalize "http://a b/") = false /\ is_ok (canonicalize "http://u@h/") = false /\
  result_map hu_port (http_url_parse "https://h/mcp") = Ok 443%N /\
  result_map hu_host (http_url_parse "http://[::1]:8080/mcp") = Ok "::1".
Proof. vm_compute. repeat split. Qed.

(** ** The configuration of an HTTP transport (crates/eva-mcp/src/session.rs)

    Trust roots, client authentication, redirects and allowed origins of an
    endpoint, and what is checked of them. *)

(** [text.trim_start_matches(prefix)] for a prefix that is not empty. *)
Fixpoint trim_start_matches (fuel : nat) (prefix text : string) : string :=
  match fuel with
  | O => text
  | S fuel => match strip_prefix prefix text with Some r => trim_start_matches fuel prefix r | None => text end
  end.
Definition trim_start (prefix text : string) : string := trim_start_matches (S (String.length text)) prefix text.

(** [path.split(['/', '\\'])] *)
Definition segments (path : string) : list string := split "/" path ≫= split backslash.

Definition contains_str (pattern text : string) : bool := bool_decide (is_Some (find_str pattern text)).

Definition not_trimmed_or_spaced (s : string) : bool := str_is_empty s || negb (String.eqb s (trim s)) || has_space s.

Definition validate_trust_root (root : string) : Res unit :=
  reject not_trimmed_or_spaced root with invalid_argument "MCP trust root reference is invalid" else
  reject negb (String.eqb root "system") && negb (starts_with "file:" root) && negb (starts_with "pem:" root) with
    unsupported "unsupported MCP trust root reference" ⊕ ("trust_root", root) else
  (if starts_with "file:" root then
     let path := trim_start "file:" root in
     reject str_is_empty path || starts_with "/" path || starts_with (str backslash) path
            || existsb (fun segment => str_is_empty segment || String.eqb segment "..") (segments path)
            || existsb (contains_char ":") (segments path) with
       permission_denied "MCP trust root file reference escapes its configured root" else Ok tt
   else Ok tt) >>?
  (if starts_with "pem:" root then
     let reference := trim_start "pem:" root in
     reject str_is_empty reference || contains_str "BEGIN " reference || starts_with "-" reference with
       invalid_argument "MCP PEM trust root must be an indirect reference" else Ok tt
   else Ok tt).

Definition is_vault_byte (c : ascii) : bool := is_ascii_alphanumeric c || is_one_of "._-" c.
Definition is_valid_vault_segment (value : string) : bool :=
  negb (str_is_empty value) && negb (String.eqb value ".") && negb (String.eqb value "..") && bytes_all is_vault_byte value.
Definition is_valid_vault_key (value : string) : bool :=
  negb (str_is_empty value) && (slen value <=? 128)%N && bytes_all is_vault_byte value.

Definition is_ascii_alphabetic (c : ascii) : bool := in_range 65 90 c || in_range 97 122 c.

Definition is_env_name (name : string) : bool :=
  (slen name <=? 128)%N &&
  match name with
  | String c r => (is_ascii_alphabetic c || Ascii.eqb c "_")
                  && bytes_all (fun c => is_ascii_alphanumeric c || Ascii.eqb c "_") r
  | EmptyString => false
  end.

(** The path, the key and what follows a second [#]. *)
Definition is_vault_reference (value body : string) : bool :=
  match split "#" body with
  | [] => false
  | secret_path :: more =>
      (slen value <=? 512)%N
      && (negb (str_is_empty secret_path) && (slen secret_path <=? 384)%N
          && forallb is_valid_vault_segment (split "/" secret_path))
      && match more with key :: _ => is_valid_vault_key key | [] => true end
      && Nat.leb (length more) 1
  end.

Definition validate_credential_reference (value field : string) : Res unit :=
  reject not_trimmed_or_spaced value with
    invalid_argument "MCP client auth reference is invalid" ⊕ ("field", field) else
  let env := match strip_prefix "env:" value with Some name => is_env_name name | None => false end in
  let vault := match strip_prefix "vault://" value with Some body => is_vault_reference value body | None => false end in
  if env || vault then Ok tt
  else Err (permission_denied "MCP client auth must use a valid env: or vault:// reference" ⊕ ("field", field)).

(** ** Redirects *)

Inductive McpRedirectPolicy :=
| Deny
| SameOrigin (max_hops : N).

Definition validate_redirect_policy (policy : McpRedirectPolicy) : Res unit :=
  match policy with
  | Deny => Ok tt
  | SameOrigin max_hops =>
      if ((1 <=? max_hops) && (max_hops <=? 10))%N then Ok tt
      else Err (invalid_argument "MCP same_origin redirect max_hops must be between 1 and 10")
  end.

(** [McpRedirectPolicy::parse] *)
Definition redirect_policy_parse (mode : string) (max_hops : option N) : Res McpRedirectPolicy :=
  if String.eqb mode "deny" then
    reject match max_hops with Some value => negb (value =? 0)%N | None => false end with
      invalid_argument "MCP deny redirect policy requires max_hops=0" else Ok Deny
  else if String.eqb mode "same_origin" then
    let max_hops := default 3%N max_hops in
    reject (255 <? max_hops)%N with invalid_argument "MCP redirect max_hops exceeds u8" else
    reject ((max_hops =? 0) || (10 <? max_hops))%N with
      invalid_argument "MCP same_origin redirect max_hops must be between 1 and 10" else
    Ok (SameOrigin max_hops)
  else Err (unsupported "unsupported MCP redirect policy" ⊕ ("mode", mode)).

(** ** The configuration *)

Record McpClientAuthConfig := MkClientAuth {
  certificate_ref : string;
  private_key_ref : string
}.

Definition validate_auth (auth : McpClientAuthConfig) : Res unit :=
  validate_credential_reference (certificate_ref auth) "certificate_ref" >>?
  validate_credential_reference (private_key_ref auth) "private_key_ref".

(** [McpClientAuthConfig::new] *)
Definition client_auth_new (certificate_ref private_key_ref : string) : Res McpClientAuthConfig :=
  let config := MkClientAuth certificate_ref private_key_ref in validate_auth config >>? Ok config.

(** The sets in the order of a [BTreeSet]. *)
Record McpStreamableHttpConfig := MkHttpConfig {
  hc_endpoint : string;
  trust_roots : list string;
  client_auth : option McpClientAuthConfig;
  redirect_policy : McpRedirectPolicy;
  allowed_origins : list string
}.

Fixpoint each {A} (check : A -> Res unit) (l : list A) : Res unit :=
  match l with [] => Ok tt | a :: r => check a >>? each check r end.

Definition validate_origin (origin : string) : Res unit :=
  let? parsed := parse_origin origin in
  reject negb (String.eqb (ep_origin parsed) origin) with
    invalid_argument "MCP allowed origins must use canonical origin spelling" ⊕ ("origin", origin) else Ok tt.

Definition origin_allowed (origins : list string) (origin : string) : bool :=
  bool_decide (origins = []) || bool_decide (origin ∈ origins).

Definition check_auth (auth : option McpClientAuthConfig) : Res unit :=
  match auth with Some auth => validate_auth auth | None => Ok tt end.

(** [validate_static] *)
Definition validate_static (c : McpStreamableHttpConfig) : Res McpEndpoint :=
  let? canonical := canonicalize (hc_endpoint c) in
  reject negb (String.eqb canonical (hc_endpoint c)) with
    invalid_argument "MCP endpoint must use canonical URL spelling" else
  let? endpoint := endpoint_parse (hc_endpoint c) in
  each validate_trust_root (trust_roots c) >>?
  each validate_origin (allowed_origins c) >>?
  reject negb (origin_allowed (allowed_origins c) (ep_origin endpoint)) with
    permission_denied "MCP allowed origins must include the endpoint origin" ⊕ ("endpoint_origin", ep_origin endpoint) else
  check_auth (client_auth c) >>?
  reject String.eqb (ep_scheme endpoint) "http" && negb (bool_decide (trust_roots c = [])) with
    unsupported "MCP trust roots require an HTTPS endpoint" else
  reject String.eqb (ep_scheme endpoint) "http" && bool_decide (is_Some (client_auth c)) with
    unsupported "MCP client certificate authentication requires an HTTPS endpoint" else
  validate_redirect_policy (redirect_policy c) >>?
  Ok endpoint.

Definition validate_for_environment (c : McpStreamableHttpConfig) (environment : string) : Res unit :=
  let? endpoint := validate_static c in
  let production := bool_decide (to_ascii_lowercase environment ∈ ["prod"; "production"]) in
  reject production && String.eqb (ep_scheme endpoint) "https" && bool_decide (trust_roots c = []) with
    with_provider_code (permission_denied "production MCP HTTPS requires an explicit trust policy")
      "mcp_https_trust_policy_required" ⊕ ("endpoint_origin", ep_origin endpoint) else
  reject production && String.eqb (ep_scheme endpoint) "https" && bool_decide (allowed_origins c = []) with
    with_provider_code (permission_denied "production MCP HTTPS requires an explicit origin policy")
      "mcp_https_origin_policy_required" ⊕ ("endpoint_origin", ep_origin endpoint) else
  validate_redirect_policy (redirect_policy c).

(** [McpStreamableHttpConfig::new] *)
Definition http_config_new (endpoint : string) : Res McpStreamableHttpConfig :=
  let? endpoint := canonicalize endpoint in
  let config := MkHttpConfig endpoint [] None Deny [] in
  validate_for_environment config "dev" >>? Ok config.

(** The order of a [BTreeSet<String>]. *)
Definition btree_set (l : list string) : list string := merge_sort text_le l.

(** [McpStreamableHttpConfig::from_parts] *)
Definition http_config_from_parts (endpoint : string) (roots : list string) (auth : option McpClientAuthConfig)
    (policy : McpRedirectPolicy) (origins : list string) : Res McpStreamableHttpConfig :=
  let? endpoint := canonicalize endpoint in
  let? endpoint_view := endpoint_parse endpoint in
  reject negb (bool_decide (NoDup roots)) with invalid_argument "MCP trust roots must not contain duplicates" else
  each validate_trust_root (btree_set roots) >>?
  reject negb (bool_decide (NoDup origins)) with invalid_argument "MCP allowed origins must not contain duplicates" else
  each validate_origin (btree_set origins) >>?
  validate_redirect_policy policy >>?
  reject negb (origin_allowed origins (ep_origin endpoint_view)) with
    permission_denied "MCP allowed origins must include the endpoint origin"
      ⊕ ("endpoint_origin", ep_origin endpoint_view) else
  check_auth auth >>?
  let config := MkHttpConfig endpoint (btree_set roots) auth policy (btree_set origins) in
  validate_for_environment config "dev" >>? Ok config.

(** [validate_redirect_target] *)
Definition validate_redirect_target (c : McpStreamableHttpConfig) (target : string) : Res unit :=
  let? endpoint := validate_static c in
  let? target := endpoint_parse target in
  match redirect_policy c with
  | Deny =>
      Err (with_provider_code (permission_denied "MCP redirects are disabled by policy") "mcp_redirect_denied"
             ⊕ ("target_origin", ep_origin target))
  | SameOrigin _ =>
      if negb (String.eqb (ep_origin target) (ep_origin endpoint)) then
        Err (with_provider_code (permission_denied "MCP redirect crosses origin boundary") "mcp_cross_origin_redirect"
               ⊕ ("from_origin", ep_origin endpoint) ⊕ ("target_origin", ep_origin target))
      else if negb (origin_allowed (allowed_origins c) (ep_origin target)) then
        Err (with_provider_code (permission_denied "MCP redirect target is not in the origin policy")
               "mcp_origin_not_allowlisted" ⊕ ("target_origin", ep_origin target))
      else Ok tt
  end.

(** [endpoint_origin] and [is_https] *)
Definition endpoint_origin (c : McpStreamableHttpConfig) : Res string :=
  let? endpoint := endpoint_parse (hc_endpoint c) in Ok (ep_origin endpoint).
Definition is_https (c : McpStreamableHttpConfig) : Res bool :=
  let? endpoint := endpoint_parse (hc_endpoint c) in Ok (String.eqb (ep_scheme endpoint) "https").

Example trust_root_samples :
  is_ok (validate_trust_root "file:certs/ca.pem") = true /\ is_ok (validate_trust_root "file:../ca.pem") = false /\
  is_ok (validate_trust_root "file:file:ca.pem") = true /\ is_ok (validate_trust_root "pem:-----BEGIN X") = false /\
  is_ok (validate_credential_reference "vault://a/b#k" "f") = true /\
  is_ok (validate_credential_reference "vault://a/b#k#l" "f") = false /\
  is_ok (validate_credential_reference "env:MCP_KEY" "f") = true.
Proof. vm_compute. repeat split. Qed.
