(* ===== verification/HttpReader.v ===== *)
(** * Reading HTTP responses (crates/eva-mcp/src/json_rpc.rs)

    What the line and body readers accept, and that nothing they return
    depends on how the connection's reads cut the bytes. *)

From Stdlib Require Import Ascii.
From stdpp Require Import base numbers strings list.
From S2P Require Import Prelude RustStr Error Json JsonGrammar McpJsonRpc McpClient McpReader HttpFraming.

(** ** Strings *)

Lemma substring_full s : String.substring 0 (String.length s) s = s.
Proof. induction s as [|c s IH]; [done|]. cbn. by rewrite IH. Qed.

Lemma substring_split n s : n <= String.length s ->
  String.substring 0 n s +:+ String.substring n (String.length s - n) s = s.
Proof.
  revert n. induction s as [|c s IH]; intros [|n] H; cbn [String.length] in *; try lia; [done| |].
  - rewrite Nat.sub_0_r. exact (substring_full (String c s)).
  - cbn [String.substring]. rewrite append_cons. f_equal. cbn. apply IH. lia.
Qed.

Lemma substring_length n s : n <= String.length s -> String.length (String.substring 0 n s) = n.
Proof. revert n. induction s as [|c s IH]; intros [|n] H; cbn in *; try lia; try done. rewrite IH; lia. Qed.

Lemma append_split (b d x y : string) : b +:+ x = d +:+ y -> String.length b <= String.length d ->
  exists d', d = b +:+ d' /\ x = d' +:+ y.
Proof.
  revert d. induction b as [|c b IH]; intros d H Hl; [by exists d|].
  destruct d as [|c' d]; [cbn in Hl; lia|]. rewrite !append_cons in H. injection H as -> H.
  destruct (IH d H) as (d' & -> & ->); [cbn in Hl; lia|]. by exists d'.
Qed.

Lemma not_empty s : s <> "" <-> str_is_empty s = false.
Proof. unfold str_is_empty. by rewrite String.eqb_neq. Qed.

(** ** One read *)

(** Two connections that deliver the same bytes and end the same way. *)
Definition same_stream (s1 s2 : Stream) : Prop :=
  stream_bytes s1 = stream_bytes s2 /\ stream_failure s1 = stream_failure s2.

#[export] Instance same_stream_equiv : Equivalence same_stream.
Proof. split; unfold same_stream; [done|intros ? ? [? ?]; done|intros ? ? ? [-> ->] [? ?]; done]. Qed.

(** What the connection does when its bytes are used up. *)
Definition stream_ended {A} (s : Stream) (origin : string) (a : A) : Res A :=
  match stream_failure s with None => Ok a | Some e => Err (map_http_read_error e origin) end.

Lemma http_read_end s n origin : stream_bytes s = "" ->
  match http_read s n origin with
  | Ok (b, s') => b = "" /\ stream_failure s = None /\ same_stream s' s
  | Err e => exists k, stream_failure s = Some k /\ e = map_http_read_error k origin
  end.
Proof.
  destruct s as [|[chunk|k] r]; unfold http_read; cbn [stream_bytes stream_failure read]; [done| |by eauto].
  destruct (str_is_empty chunk) eqn:Ec; [done|]. apply not_empty in Ec. by destruct chunk.
Qed.

Lemma http_read_some s n origin : stream_bytes s <> "" -> 0 < n ->
  exists b s', http_read s n origin = Ok (b, s') /\ b <> "" /\ String.length b <= n /\
    stream_bytes s = b +:+ stream_bytes s' /\ stream_failure s' = stream_failure s.
Proof.
  destruct s as [|[chunk|k] r]; cbn [stream_bytes]; [done| |done]. unfold http_read. cbn [read stream_failure].
  destruct (str_is_empty chunk) eqn:Ec; [done|]. intros _ Hn. pose proof Ec as Hc. apply not_empty in Hc.
  destruct (n <? String.length chunk) eqn:El.
  - apply Nat.ltb_lt in El. eexists _, _. split; [done|]. pose proof (substring_length n chunk ltac:(lia)) as Hlen.
    assert (str_is_empty (String.substring n (String.length chunk - n) chunk) = false) as Hr.
    { apply not_empty. intros E. pose proof (substring_split n chunk ltac:(lia)) as Hs. rewrite E, append_nil_r in Hs.
      rewrite Hs in Hlen. lia. }
    cbn [stream_bytes stream_failure]. rewrite Hr. split_and!; [|lia| |done].
    + intros E. rewrite E in Hlen. cbn in Hlen. lia.
    + by rewrite append_assoc, substring_split by lia.
  - apply Nat.ltb_ge in El. exists chunk, r. by split_and!.
Qed.

Lemma http_read_byte s origin c r : stream_bytes s = String c r ->
  exists s', http_read s 1 origin = Ok (str c, s') /\ stream_bytes s' = r /\ stream_failure s' = stream_failure s.
Proof.
  intros E. destruct (http_read_some s 1 origin) as (b & s' & Hr & Hb & Hl & Hs & Hf); [by rewrite E|lia|].
  rewrite Hs in E. destruct b as [|d [|d' b]]; [done| |cbn in Hl; lia]. injection E as -> <-. by exists s'.
Qed.

(** ** Lines *)

Lemma ends_with_crlf_iff line : ends_with_crlf line = true <-> exists l, line = l +:+ crlf.
Proof.
  unfold ends_with_crlf. split.
  - intros [Hl He]%andb_true_iff. apply Nat.leb_le in Hl. apply String.eqb_eq in He.
    exists (String.substring 0 (String.length line - 2) line).
    pose proof (substring_split (String.length line - 2) line ltac:(lia)) as Hs.
    replace (String.length line - (String.length line - 2)) with 2 in Hs by lia. by rewrite He in Hs.
  - intros (l & ->). rewrite length_append. cbn [String.length crlf str].
    rewrite (proj2 (Nat.leb_le _ _)) by lia. replace (String.length l + 2 - 2) with (String.length l) by lia.
    cbn [andb]. apply String.eqb_eq. induction l as [|c l IH]; [done|exact IH].
Qed.

Lemma http_line_bytes_complete l fuel : forall origin limit line consumed s rest,
  stream_bytes s = l +:+ String nl rest -> contains_char nl l = false -> String.length l < fuel ->
  (consumed + slen l + 1 <= limit)%N -> (limit < usize_max)%N ->
  exists s', http_line_bytes fuel origin limit line consumed s = Ok (line +:+ l +:+ str nl, (consumed + slen l + 1)%N, s') /\
    stream_bytes s' = rest /\ stream_failure s' = stream_failure s.
Proof.
  revert fuel. induction l as [|c l IH]; intros [|fuel] origin limit line consumed s rest Hs Hl Hfuel Hc Hu;
    cbn [String.length] in Hfuel; try lia; cbn [http_line_bytes].
  - destruct (http_read_byte s origin nl rest Hs) as (s' & -> & Hs' & Hf').
    change (str_is_empty (str nl)) with false. cbv iota zeta. unfold slen in *. cbn [String.length] in *.
    unfold saturating_add. rewrite (proj2 (N.ltb_ge _ _)) by lia. rewrite String.eqb_refl.
    exists s'. split_and!; [|done..]. do 3 f_equal. lia.
  - cbn [contains_char] in Hl. apply orb_false_iff in Hl as [Hcn Hl]. rewrite append_cons in Hs.
    destruct (http_read_byte s origin c _ Hs) as (s' & -> & Hs' & Hf').
    change (str_is_empty (str c)) with false. cbv iota zeta. unfold slen in Hc. cbn [String.length] in Hc.
    unfold saturating_add at 1. rewrite (proj2 (N.ltb_ge _ _)) by lia.
    assert (String.eqb (str c) (str nl) = false) as ->.
    { apply String.eqb_neq. intros [= ->]. by rewrite (proj2 (Ascii.eqb_eq nl nl) eq_refl) in Hcn. }
    destruct (IH fuel origin limit (line +:+ str c) (saturating_add usize_max consumed 1) s' rest) as (s'' & E & H1 & H2);
      [done|done|lia|unfold saturating_add, slen; lia|done|].
    exists s''. rewrite E. split_and!; [|done|congruence]. rewrite <- append_assoc. do 3 f_equal.
    unfold saturating_add, slen. cbn [String.length]. lia.
Qed.

(** What a line reader took from the connection. *)
Definition took (s s' : Stream) (text : string) : Prop :=
  stream_bytes s = text +:+ stream_bytes s' /\ stream_failure s' = stream_failure s.

Lemma took_trans s1 s2 s3 a b : took s1 s2 a -> took s2 s3 b -> took s1 s3 (a +:+ b).
Proof. intros [H1 F1] [H2 F2]. split; [by rewrite H1, H2, append_assoc|congruence]. Qed.

Lemma http_read_Ok s n origin b s' : 0 < n -> http_read s n origin = Ok (b, s') ->
  took s s' b /\ String.length b <= n /\ (b = "" -> stream_bytes s = "" /\ stream_failure s = None).
Proof.
  intros Hn H. destruct (decide (stream_bytes s = "")) as [E|E].
  - pose proof (http_read_end s n origin E) as He. rewrite H in He. destruct He as (-> & Hf & [Hb Hf']).
    split_and!; [split; [by rewrite Hb, !E|congruence]|cbn; lia|done].
  - destruct (http_read_some s n origin E Hn) as (b0 & s0 & E0 & Hb & Hl & Hs & Hf). rewrite E0 in H.
    injection H as -> ->. by split_and!.
Qed.

Lemma http_line_bytes_sound fuel : forall origin limit line consumed s r c' s',
  (limit < usize_max)%N -> http_line_bytes fuel origin limit line consumed s = Ok (r, c', s') ->
  exists l, r = line +:+ l +:+ str nl /\ contains_char nl l = false /\ c' = (consumed + slen l + 1)%N /\
    (c' <= limit)%N /\ took s s' (l +:+ str nl).
Proof.
  induction fuel as [|fuel IH]; intros origin limit line consumed s r c' s' Hu H; [done|].
  cbn [http_line_bytes] in H. destruct (http_read s 1 origin) as [[byte s1]|e] eqn:Er; [|done].
  apply http_read_Ok in Er as (Ht & Hl & _); [|lia]. apply reject_Ok in H as [Hb H]. apply not_empty in Hb.
  destruct byte as [|c [|? ?]]; [done| |cbn in Hl; lia]. clear Hl Hb.
  cbv zeta in H. apply reject_Ok in H as [Hlim H]. apply N.ltb_ge in Hlim.
  assert (saturating_add usize_max consumed 1 = consumed + 1)%N as Hsat by (unfold saturating_add in *; lia).
  rewrite Hsat in *. destruct (String.eqb (String c "") (str nl)) eqn:En.
  - apply String.eqb_eq in En as [= ->]. injection H as <- <- <-. exists "". rewrite append_nil_l.
    split_and!; [done..|unfold slen; cbn; lia|done|exact Ht].
  - apply String.eqb_neq in En. apply IH in H as (l & -> & Hn & -> & Hle & Ht'); [|done].
    exists (String c l). split_and!.
    + rewrite <- append_assoc. done.
    + cbn [contains_char]. rewrite Hn, orb_false_r. apply Ascii.eqb_neq. intros <-. done.
    + unfold slen. cbn [String.length]. lia.
    + done.
    + exact (took_trans _ _ _ (str c) _ Ht Ht').
Qed.

Lemma read_http_line_sound s consumed origin limit l c' s' :
  (limit < usize_max)%N -> read_http_line s consumed origin limit = Ok (l, c', s') ->
  contains_char nl l = false /\ c' = (consumed + slen l + 2)%N /\ (c' <= limit)%N /\ took s s' (l +:+ crlf).
Proof.
  unfold read_http_line. intros Hu H.
  destruct (http_line_bytes _ _ _ _ _ _) as [[[line c1] s1]|e] eqn:E; [|done].
  apply http_line_bytes_sound in E as (l0 & -> & Hn & -> & Hle & Ht); [|done]. rewrite append_nil_l in H.
  apply reject_Ok in H as [Hc H]. apply negb_false_iff, ends_with_crlf_iff in Hc as (l1 & E1).
  assert (l0 = l1 +:+ str cr) as ->.
  { change crlf with (str cr +:+ str nl) in E1. rewrite append_assoc in E1. by apply append_suffix_inj in E1. }
  rewrite contains_char_append in Hn. apply orb_false_iff in Hn as [Hn _].
  injection H as <- <- <-. rewrite <- append_assoc in *. change (str cr +:+ str nl) with crlf in *.
  assert (String.substring 0 (String.length (l1 +:+ crlf) - 2) (l1 +:+ crlf) = l1) as ->.
  { rewrite length_append. cbn [String.length crlf str]. rewrite Nat.add_sub. apply substring_prefix. }
  unfold slen in *. rewrite length_append in *. cbn [String.length str] in *. split_and!; [done|lia|lia|done].
Qed.

Lemma read_http_line_complete s consumed origin limit l rest :
  (limit < usize_max)%N -> stream_bytes s = l +:+ crlf +:+ rest -> contains_char nl l = false ->
  (consumed + slen l + 2 <= limit)%N ->
  exists s', read_http_line s consumed origin limit = Ok (l, (consumed + slen l + 2)%N, s') /\
    stream_bytes s' = rest /\ stream_failure s' = stream_failure s.
Proof.
  intros Hu Hs Hl Hc. unfold read_http_line.
  assert (stream_bytes s = (l +:+ str cr) +:+ String nl rest) as Hs' by (by rewrite <- append_assoc).
  destruct (http_line_bytes_complete (l +:+ str cr) (S (String.length (stream_bytes s))) origin limit "" consumed s rest)
    as (s' & -> & H1 & H2); [done|by rewrite contains_char_append, Hl| | |done|].
  - rewrite Hs', !length_append. cbn. lia.
  - unfold slen in *. rewrite length_append. cbn. lia.
  - rewrite append_nil_l, <- append_assoc. change (str cr +:+ str nl) with crlf.
    rewrite (proj2 (ends_with_crlf_iff _)) by (by eexists). cbn [negb]. exists s'. split_and!; [|done..].
    rewrite length_append. cbn [String.length crlf str]. rewrite Nat.add_sub, substring_prefix. do 3 f_equal.
    unfold slen. rewrite length_append. cbn. lia.
Qed.

(** ** Exact reads *)

Lemma http_exact_sound fuel : forall s target missing origin b s',
  http_exact fuel s target missing origin = Ok (b, s') ->
  exists d, b = target +:+ d /\ String.length d = missing /\ took s s' d.
Proof.
  induction fuel as [|fuel IH]; intros s target missing origin b s' H; (destruct missing as [|m]; [cbn in H;
    injection H as <- <-; exists ""; rewrite append_nil_r; by split_and!|]); [done|].
  cbn [http_exact] in H. destruct (http_read s (S m) origin) as [[bytes s1]|e] eqn:Er; [|done].
  apply http_read_Ok in Er as (Ht & Hl & _); [|lia]. apply reject_Ok in H as [Hb H].
  apply IH in H as (d & -> & Hd & Ht'). exists (bytes +:+ d). rewrite append_assoc.
  split_and!; [done|rewrite length_append; lia|by eapply took_trans].
Qed.

Lemma http_exact_complete fuel : forall s target d rest origin,
  stream_bytes s = d +:+ rest -> String.length d < fuel ->
  exists s', http_exact fuel s target (String.length d) origin = Ok (target +:+ d, s') /\
    stream_bytes s' = rest /\ stream_failure s' = stream_failure s.
Proof.
  induction fuel as [|fuel IH]; intros s target d rest origin Hs Hf; [lia|].
  destruct d as [|c d]; [exists s; cbn; by rewrite append_nil_r|].
  set (m := String.length (String c d)) in *. cbn [http_exact]. destruct m as [|m'] eqn:Em; [done|].
  destruct (http_read_some s (S m') origin) as (b & s1 & -> & Hb & Hl & Hs1 & Hf1); [by rewrite Hs|lia|].
  rewrite (proj1 (not_empty b) Hb). rewrite Hs1 in Hs.
  destruct (append_split b (String c d) _ _ Hs) as (d' & Ed & Hrest); [fold m; lia|].
  assert (S m' - String.length b = String.length d') as ->.
  { rewrite <- Em. unfold m. rewrite Ed, length_append. lia. }
  destruct (IH s1 (target +:+ b) d' rest origin) as (s2 & -> & H1 & H2); [done| |].
  - assert (0 < String.length b) by (destruct b; [done|cbn; lia]).
    assert (String.length b + String.length d' = S m') by (rewrite <- Em; unfold m; rewrite Ed, length_append; lia). lia.
  - exists s2. rewrite Ed, append_assoc. split_and!; [done..|congruence].
Qed.

(** ** Chunked bodies (crates/eva-mcp/src/json_rpc.rs, read_http_chunked_body)

    The grammar of a chunked body and that the reader accepts exactly its
    texts, within the limits on the body and on the chunk lines. *)

(** The trailers to the empty line. *)
Inductive trailer_text (origin : string) : string -> Prop :=
| trailers_end : trailer_text origin crlf
| trailers_more line text :
    line <> "" -> contains_char nl line = false -> validate_http_trailer line origin = Ok tt ->
    trailer_text origin text -> trailer_text origin (line +:+ crlf +:+ text).

(** [chunked_text origin text body metadata]: the chunks of [text] carry
    [body], with [metadata] bytes in chunk lines and trailers. *)
Inductive chunked_text (origin : string) : string -> string -> N -> Prop :=
| chunk_last line trailers :
    contains_char nl line = false -> parse_http_chunk_size line origin = Ok 0%N -> trailer_text origin trailers ->
    chunked_text origin (line +:+ crlf +:+ trailers) "" (slen line + 2 + slen trailers)
| chunk_more line data text body metadata :
    contains_char nl line = false -> parse_http_chunk_size line origin = Ok (slen data) -> data <> "" ->
    chunked_text origin text body metadata ->
    chunked_text origin (line +:+ crlf +:+ data +:+ crlf +:+ text) (data +:+ body) (slen line + 2 + metadata).

Lemma limit_small : (HTTP_HEADER_LIMIT_BYTES < usize_max)%N.
Proof. done. Qed.
#[local] Hint Resolve limit_small : core.

Lemma read_http_exact_sound s n origin b s' :
  read_http_exact s n origin = Ok (b, s') -> slen b = n /\ took s s' b.
Proof.
  unfold read_http_exact. intros H. apply http_exact_sound in H as (d & -> & Hd & Ht). rewrite append_nil_l.
  split; [unfold slen; lia|done].
Qed.

Lemma read_http_exact_complete s d rest origin :
  stream_bytes s = d +:+ rest ->
  exists s', read_http_exact s (slen d) origin = Ok (d, s') /\ stream_bytes s' = rest /\
    stream_failure s' = stream_failure s.
Proof.
  intros H. unfold read_http_exact, slen. rewrite Nat2N.id.
  destruct (http_exact_complete (S (String.length d)) s "" d rest origin) as (s' & E & H'); [done|lia|].
  exists s'. by rewrite E.
Qed.

(** ** Trailers *)

Lemma chunk_trailers_sound fuel : forall s metadata origin s',
  chunk_trailers fuel s metadata origin = Ok s' ->
  exists text, trailer_text origin text /\ took s s' text /\ (metadata + slen text <= HTTP_HEADER_LIMIT_BYTES)%N.
Proof.
  induction fuel as [|fuel IH]; intros s metadata origin s' H; [done|]. cbn [chunk_trailers] in H.
  destruct (read_http_line s metadata origin _) as [[[line m1] s1]|e] eqn:El; [|done].
  apply read_http_line_sound in El as (Hn & -> & Hle & Ht); [|done].
  destruct (str_is_empty line) eqn:Ee.
  - apply String.eqb_eq in Ee as ->. injection H as <-. exists crlf. split; [constructor|]. split; [done|].
    unfold slen in *. cbn in *. lia.
  - apply then_Ok in H as [[[] Hv] H]. apply IH in H as (text & Htext & Ht' & Hm).
    exists (line +:+ crlf +:+ text). split_and!.
    + apply trailers_more; [by apply not_empty|done..].
    + rewrite append_assoc. by eapply took_trans.
    + unfold slen in *. rewrite !length_append. cbn [String.length crlf str]. lia.
Qed.

Lemma chunk_trailers_complete origin text : trailer_text origin text -> forall fuel s metadata rest,
  stream_bytes s = text +:+ rest -> String.length text < fuel ->
  (metadata + slen text <= HTTP_HEADER_LIMIT_BYTES)%N ->
  exists s', chunk_trailers fuel s metadata origin = Ok s' /\ stream_bytes s' = rest /\
    stream_failure s' = stream_failure s.
Proof.
  induction 1 as [|line text Hne Hn Hv Htext IH]; intros [|fuel] s metadata rest Hs Hf Hm; try lia;
    cbn [chunk_trailers].
  - destruct (read_http_line_complete s metadata origin HTTP_HEADER_LIMIT_BYTES "" rest) as (s' & -> & H1 & H2);
      [done..|unfold slen in *; cbn in *; lia|]. by exists s'.
  - rewrite <- !append_assoc in Hs. unfold slen in *. rewrite !length_append in *. cbn [String.length crlf str] in *.
    destruct (read_http_line_complete s metadata origin HTTP_HEADER_LIMIT_BYTES line (text +:+ rest)) as (s' & -> & H1 & H2);
      [done..|unfold slen; lia|].
    rewrite (proj1 (not_empty line) Hne), Hv.
    destruct (IH fuel s' (metadata + slen line + 2)%N rest) as (s'' & -> & H3 & H4); [done|lia|unfold slen; lia|].
    exists s''. split_and!; [done..|congruence].
Qed.

(** ** Chunks *)

Lemma took_length s s' text : took s s' text ->
  String.length (stream_bytes s) = String.length text + String.length (stream_bytes s').
Proof. intros [-> _]. by rewrite length_append. Qed.

Lemma chunked_body_sound fuel : forall s metadata body limit origin result truncated s',
  (slen body <= limit)%N -> chunked_body fuel s metadata body limit origin = Ok (result, truncated, s') ->
  (slen result <= limit)%N /\
  (truncated = false -> exists text tail m, result = body +:+ tail /\ chunked_text origin text tail m /\ took s s' text /\
     (metadata + m <= HTTP_HEADER_LIMIT_BYTES)%N).
Proof.
  induction fuel as [|fuel IH]; intros s metadata body limit origin result truncated s' Hb H; [done|].
  cbn [chunked_body] in H. destruct (read_http_line s metadata origin _) as [[[line m1] s1]|e] eqn:El; [|done].
  apply read_http_line_sound in El as (Hn & -> & Hle & Ht); [|done].
  destruct (parse_http_chunk_size line origin) as [size|e] eqn:Es; [|done]. destruct (size =? 0)%N eqn:E0.
  - apply N.eqb_eq in E0 as ->. destruct (chunk_trailers _ _ _ _) as [s2|e] eqn:Et; [|done].
    apply chunk_trailers_sound in Et as (trailers & Htr & Ht2 & Hm). injection H as <- <- <-. split; [done|].
    intros _. exists (line +:+ crlf +:+ trailers), "", (slen line + 2 + slen trailers)%N.
    split_and!; [by rewrite append_nil_r|by constructor|rewrite append_assoc; by eapply took_trans|lia].
  - destruct (limit - slen body <? size)%N eqn:Eo; [by injection H as <- <- <-|].
    apply N.ltb_ge in Eo. apply N.eqb_neq in E0.
    destruct (read_http_exact s1 size origin) as [[chunk s2]|e] eqn:Ec; [|done].
    apply read_http_exact_sound in Ec as [Hlen Ht2].
    destruct (read_http_exact s2 2 origin) as [[delimiter s3]|e] eqn:Ed; [|done].
    apply read_http_exact_sound in Ed as [_ Ht3]. apply reject_Ok in H as [Hd H].
    apply negb_false_iff, String.eqb_eq in Hd as ->.
    apply IH in H as [Hres Hmore]; [|rewrite slen_append; lia]. split; [done|]. intros Hf.
    destruct (Hmore Hf) as (text & tail & m & -> & Htext & Ht4 & Hm).
    exists (line +:+ crlf +:+ chunk +:+ crlf +:+ text), (chunk +:+ tail), (slen line + 2 + m)%N. split_and!.
    + by rewrite append_assoc.
    + apply chunk_more; [done|by rewrite Es, Hlen|intros ->; apply E0; by rewrite <- Hlen|done].
    + pose proof (took_trans _ _ _ _ _ Ht (took_trans _ _ _ _ _ Ht2 (took_trans _ _ _ _ _ Ht3 Ht4))) as Hall.
      by rewrite <- append_assoc in Hall.
    + lia.
Qed.

Lemma chunked_body_complete origin text tail m : chunked_text origin text tail m ->
  forall fuel s metadata body limit rest,
  stream_bytes s = text +:+ rest -> String.length text < fuel ->
  (metadata + m <= HTTP_HEADER_LIMIT_BYTES)%N -> (slen (body +:+ tail) <= limit)%N ->
  exists s', chunked_body fuel s metadata body limit origin = Ok (body +:+ tail, false, s') /\
    stream_bytes s' = rest /\ stream_failure s' = stream_failure s.
Proof.
  induction 1 as [line trailers Hn Hsize Htr|line data text tail m Hn Hsize Hne Htext IH];
    intros [|fuel] s metadata body limit rest Hs Hf Hm Hl; try lia; cbn [chunked_body];
    rewrite <- !append_assoc in Hs; rewrite !length_append in Hf; cbn [String.length crlf str] in Hf.
  - destruct (read_http_line_complete s metadata origin HTTP_HEADER_LIMIT_BYTES line (trailers +:+ rest))
      as (s1 & -> & H1 & H2); [done..|lia|].
    rewrite Hsize. cbn [N.eqb]. destruct (chunk_trailers_complete origin trailers Htr (S (String.length (stream_bytes s1)))
      s1 (metadata + slen line + 2)%N rest) as (s2 & -> & H3 & H4); [done|rewrite H1, length_append; lia|lia|].
    exists s2. rewrite append_nil_r. split_and!; [done..|congruence].
  - destruct (read_http_line_complete s metadata origin HTTP_HEADER_LIMIT_BYTES line (data +:+ crlf +:+ text +:+ rest))
      as (s1 & -> & H1 & H2); [done..|lia|].
    rewrite Hsize. rewrite !slen_append in Hl.
    assert (slen data <> 0)%N as Hnz by (unfold slen; destruct data; [done|cbn; lia]).
    rewrite (proj2 (N.eqb_neq _ _)) by done. rewrite (proj2 (N.ltb_ge _ _)) by lia.
    destruct (read_http_exact_complete s1 data _ origin H1) as (s2 & -> & H3 & H4).
    destruct (read_http_exact_complete s2 crlf _ origin H3) as (s3 & E3 & H5 & H6).
    change (slen crlf) with 2%N in E3. rewrite E3, String.eqb_refl. cbn [negb].
    destruct (IH fuel s3 (metadata + slen line + 2)%N (body +:+ data) limit rest) as (s4 & -> & H7 & H8);
      [done|lia|lia|rewrite !slen_append; lia|].
    exists s4. rewrite append_assoc. split_and!; [done..|congruence].
Qed.

(** C31: A chunked body is accepted exactly when the connection's bytes start
    with a well-formed chunk sequence, whatever reads deliver them, whose chunk
    lines and trailers stay within 64 KiB and whose data fits the output
    limit; the result is the data of the chunks in order. *)
Theorem http_chunked_correct s limit origin body :
  (exists s', read_http_chunked_body s limit origin = Ok (body, false, s')) <->
  (exists text rest m, stream_bytes s = text +:+ rest /\ chunked_text origin text body m /\
     (m <= HTTP_HEADER_LIMIT_BYTES)%N /\ (slen body <= limit)%N).
Proof.
  unfold read_http_chunked_body. split.
  - intros (s' & H). apply chunked_body_sound in H as [Hb Hmore]; [|apply N.le_0_l].
    destruct (Hmore eq_refl) as (text & tail & m & -> & Htext & [Hs _] & Hm). by exists text, (stream_bytes s'), m.
  - intros (text & rest & m & Hs & Htext & Hm & Hb).
    destruct (chunked_body_complete origin text body m Htext (S (String.length (stream_bytes s))) s 0 "" limit rest)
      as (s' & E & _); [done|rewrite Hs, length_append; lia|done|done|]. by exists s'.
Qed.

(** ** Every body *)

Lemma close_delimited_bounded fuel : forall s body limit origin result truncated s',
  (slen body <= limit)%N -> close_delimited fuel s body limit origin = Ok (result, truncated, s') ->
  (slen result <= limit)%N.
Proof.
  induction fuel as [|fuel IH]; intros s body limit origin result truncated s' Hb H; [done|].
  cbn [close_delimited] in H. destruct (http_read s _ origin) as [[bytes s1]|e]; [|done].
  destruct (str_is_empty bytes); [by injection H as <- _ _|]. cbv zeta in H.
  destruct (limit - slen body <? slen bytes)%N eqn:Eo.
  - injection H as <- _ _. apply N.ltb_lt in Eo. rewrite slen_append. unfold slen in *.
    rewrite substring_length by lia. lia.
  - apply N.ltb_ge in Eo. assert (slen (body +:+ bytes) <= limit)%N as Hb' by (rewrite slen_append; lia).
    destruct (slen (body +:+ bytes) =? limit)%N; [|by eapply IH].
    destruct (http_read s1 1 origin) as [[extra s2]|e]; [|done]. by injection H as <- _ _.
Qed.

(** C33: Whatever the response's framing and whatever the server sends, the
    body kept in memory never exceeds the output limit. *)
Theorem http_body_bounded s framing limit origin body truncated s' :
  read_http_body s framing limit origin = Ok (body, truncated, s') -> (slen body <= limit)%N.
Proof.
  destruct framing as [|length| |]; cbn [read_http_body].
  - intros [= <- _ _]. apply N.le_0_l.
  - destruct (limit <? length)%N eqn:El; [intros [= <- _ _]; apply N.le_0_l|]. apply N.ltb_ge in El.
    destruct (read_http_exact s length origin) as [[b s1]|e] eqn:Er; [|done].
    apply read_http_exact_sound in Er as [<- _]. by intros [= <- _ _].
  - intros H. eapply chunked_body_sound; [|exact H]. apply N.le_0_l.
  - apply close_delimited_bounded. apply N.le_0_l.
Qed.

(** Two chunks and a trailer, delivered in three reads. *)
Definition sample_chunks : Stream :=
  [Ok ("3;name=x" +:+ crlf +:+ "ab"); Ok ("c" +:+ crlf +:+ "a" +:+ crlf +:+ "0123456789" +:+ str cr);
   Ok (str nl +:+ "0" +:+ crlf +:+ "Expires: never" +:+ crlf +:+ crlf +:+ "next")].

Lemma http_body_bounded_witness :
  read_http_body sample_chunks Chunked 16 "http://h" = Ok ("abc0123456789", false, [Ok "next"]) /\
  (slen "abc0123456789" <= 16)%N.
Proof.
  assert (read_http_body sample_chunks Chunked 16 "http://h" = Ok ("abc0123456789", false, [Ok "next"])) as E
    by (vm_compute; reflexivity).
  split; [exact E|]. exact (http_body_bounded _ _ _ _ _ _ _ E).
Defined.
