(* ===== verification/HttpHead.v ===== *)
(** * Response heads (crates/eva-mcp/src/json_rpc.rs, read_final_http_response_head)

    The framing chosen for a body follows from header lines that occur at most
    once, so a response cannot be delimited in two ways. *)

From Stdlib Require Import Ascii.
From stdpp Require Import base numbers strings list.
From S2P Require Import Prelude RustStr Error Json McpJsonRpc McpClient McpReader HttpFraming HttpReader.

(** The header lines with their line ends. *)
Definition lines_text (ls : list string) : string := str_concat ((fun l => l +:+ crlf) <$> ls).

(** The values of the headers of a name, in order. *)
Definition header_values (origin name : string) (ls : list string) : list string :=
  omap (fun line =>
    match parse_http_header_line line origin with
    | Ok (n, v) => if String.eqb n name then Some v else None
    | Err _ => None
    end) ls.

(** What a head remembers of the headers that delimit its body. *)
Definition framing_headers (origin : string) (head : HttpResponseHead) (ls : list string) : Prop :=
  match content_length head with
  | None => header_values origin "content-length" ls = []
  | Some n => exists v, header_values origin "content-length" ls = [v] /\ parse_http_content_length v origin = Ok n
  end /\
  length (header_values origin "transfer-encoding" ls) = (if transfer_encoding_chunked head then 1 else 0).

Lemma header_values_snoc origin name ls line n v :
  parse_http_header_line line origin = Ok (n, v) ->
  header_values origin name (ls ++ [line]) =
  header_values origin name ls ++ (if String.eqb n name then [v] else []).
Proof.
  intros H. unfold header_values. rewrite omap_app. f_equal. cbn. rewrite H. by destruct (String.eqb n name).
Qed.

Lemma connection_directives_framing tokens : forall head,
  content_length (connection_directives head tokens) = content_length head /\
  transfer_encoding_chunked (connection_directives head tokens) = transfer_encoding_chunked head.
Proof.
  induction tokens as [|token r IH]; intros head; [done|]. cbn [connection_directives].
  destruct (eq_ignore_ascii_case token "close"); [exact (IH _)|].
  destruct (eq_ignore_ascii_case token "keep-alive"); exact (IH _).
Qed.

(** A header other than the two leaves the framing alone. *)
Lemma head_header_other head name value origin head' :
  name <> "content-length" -> name <> "transfer-encoding" -> head_header head name value origin = Ok head' ->
  content_length head' = content_length head /\ transfer_encoding_chunked head' = transfer_encoding_chunked head.
Proof.
  intros H1 H2. unfold head_header. rewrite (proj2 (String.eqb_neq _ _) H1), (proj2 (String.eqb_neq _ _) H2).
  destruct (String.eqb name "content-type").
  { intros H. apply reject_Ok in H as [_ H]. destruct (parse_http_media_type value origin); [|done]. by injection H as <-. }
  destruct (String.eqb name "mcp-session-id").
  { intros H. apply reject_Ok in H as [_ H]. destruct (parse_mcp_session_id value origin); [|done]. by injection H as <-. }
  destruct (String.eqb name "connection").
  { cbv zeta. intros H. apply reject_Ok in H as [_ H]. injection H as <-. apply connection_directives_framing. }
  destruct (_ && _); [done|]. by intros [= <-].
Qed.

Lemma head_header_framing origin head ls line name value head' :
  framing_headers origin head ls -> parse_http_header_line line origin = Ok (name, value) ->
  head_header head name value origin = Ok head' -> framing_headers origin head' (ls ++ [line]).
Proof.
  intros [Hcl Hte] Hline H. unfold framing_headers. rewrite !(header_values_snoc _ _ _ _ _ _ Hline), length_app.
  destruct (decide (name = "content-length")) as [->|H1].
  - change (String.eqb "content-length" "transfer-encoding") with false. rewrite String.eqb_refl.
    unfold head_header in H. rewrite String.eqb_refl in H. apply reject_Ok in H as [Hd H].
    apply bool_decide_eq_false in Hd. destruct (content_length head) as [n|] eqn:Ec; [by destruct Hd|].
    destruct (parse_http_content_length value origin) as [n|] eqn:Ep; [|done]. injection H as <-. cbn.
    rewrite Hcl, Nat.add_0_r. split; [by exists value|done].
  - rewrite (proj2 (String.eqb_neq _ _) H1), app_nil_r.
    destruct (decide (name = "transfer-encoding")) as [->|H2].
    + rewrite String.eqb_refl. unfold head_header in H.
      change (String.eqb "transfer-encoding" "content-length") with false in H. rewrite String.eqb_refl in H.
      apply reject_Ok in H as [Hd H]. apply reject_Ok in H as [_ H]. injection H as <-. cbn.
      rewrite Hd in Hte. rewrite Hte. done.
    + rewrite (proj2 (String.eqb_neq _ _) H2), Nat.add_0_r.
      destruct (head_header_other _ _ _ _ _ H1 H2 H) as [-> ->]. done.
Qed.

Lemma lines_text_snoc ls l : lines_text (ls ++ [l]) = lines_text ls +:+ l +:+ crlf.
Proof.
  unfold lines_text. rewrite fmap_app. induction ls as [|x ls IH]; [by cbn; rewrite append_nil_r|].
  rewrite fmap_cons. cbn [app str_concat foldr] in *. unfold str_concat in *. cbn [foldr] in *.
  by rewrite IH, append_assoc.
Qed.

(** A head as it is written: its status line and its header lines. *)
Record RawHead := MkRawHead { raw_status : string; raw_lines : list string }.

Definition raw_text (h : RawHead) : string :=
  raw_status h +:+ crlf +:+ lines_text (raw_lines h) +:+ crlf.

(** The lines are lines: without a line break, and the header lines not empty. *)
Definition raw_ok (h : RawHead) : Prop :=
  contains_char nl (raw_status h) = false /\
  Forall (fun l => contains_char nl l = false /\ l <> "") (raw_lines h).

Lemma line_unique l l' x x' :
  contains_char nl l = false -> contains_char nl l' = false ->
  l +:+ crlf +:+ x = l' +:+ crlf +:+ x' -> l = l' /\ x = x'.
Proof.
  intros Hl Hl' E. apply (f_equal (split_once nl)) in E. change (crlf +:+ x) with (str cr +:+ String nl x) in E.
  change (crlf +:+ x') with (str cr +:+ String nl x') in E. rewrite !append_assoc in E.
  rewrite !split_once_append in E by (rewrite contains_char_append, ?Hl, ?Hl'; done).
  injection E as E ->. by apply append_suffix_inj in E.
Qed.

Lemma header_lines_unique ls : forall ls' x x',
  Forall (fun l => contains_char nl l = false /\ l <> "") ls ->
  Forall (fun l => contains_char nl l = false /\ l <> "") ls' ->
  lines_text ls +:+ crlf +:+ x = lines_text ls' +:+ crlf +:+ x' -> ls = ls' /\ x = x'.
Proof.
  assert (forall l ls, lines_text (l :: ls) = l +:+ crlf +:+ lines_text ls) as Hcons
    by (intros; unfold lines_text; rewrite fmap_cons; cbn [str_concat foldr]; by rewrite <- append_assoc).
  induction ls as [|l ls IH]; intros [|l' ls'] x x' H H' E; rewrite ?Hcons, <- ?append_assoc in E.
  - split; [done|]. by apply (line_unique "" "") in E as [_ ?].
  - apply Forall_cons in H' as [[Hl Hne] _]. apply (line_unique "" l') in E as [E _]; [by destruct Hne|done..].
  - apply Forall_cons in H as [[Hl Hne] _]. apply (line_unique l "") in E as [E _]; [by destruct Hne|done..].
  - apply Forall_cons in H as [[Hl _] H]. apply Forall_cons in H' as [[Hl' _] H'].
    apply line_unique in E as [-> E]; [|done..]. by destruct (IH _ _ _ H H' E) as [-> ->].
Qed.

(** A text has one reading as a head and a rest. *)
Lemma raw_head_unique h h' x x' :
  raw_ok h -> raw_ok h' -> raw_text h +:+ x = raw_text h' +:+ x' -> h = h' /\ x = x'.
Proof.
  intros [Hs Hl] [Hs' Hl'] E. unfold raw_text in E. rewrite <- !append_assoc in E.
  apply line_unique in E as [E1 E]; [|done..]. apply header_lines_unique in E as [E2 ->]; [|done..].
  destruct h, h'. cbn in *. by subst.
Qed.

Lemma head_lines_sound fuel : forall head consumed s origin head' s' ls,
  framing_headers origin head ls -> head_lines fuel head consumed s origin = Ok (head', s') ->
  exists more, framing_headers origin head' (ls ++ more) /\ took s s' (lines_text more +:+ crlf) /\
    Forall (fun l => contains_char nl l = false /\ l <> "") more /\
    Forall (fun l => is_ok (parse_http_header_line l origin) = true) more /\
    status_code head' = status_code head /\ http_11 head' = http_11 head.
Proof.
  induction fuel as [|fuel IH]; intros head consumed s origin head' s' ls Hf H; [done|]. cbn [head_lines] in H.
  destruct (read_http_line s consumed origin _) as [[[line c1] s1]|e] eqn:El; [|done].
  apply read_http_line_sound in El as (Hnl & _ & _ & Ht); [|done]. destruct (str_is_empty line) eqn:Ee.
  { apply String.eqb_eq in Ee as ->. injection H as <- <-. exists []. rewrite app_nil_r. by split_and!. }
  destruct (parse_http_header_line line origin) as [[name value]|e] eqn:Ep; [|done].
  destruct (head_header head name value origin) as [head1|e] eqn:Eh; [|done].
  pose proof (head_header_framing _ _ _ _ _ _ _ Hf Ep Eh) as Hf1.
  destruct (IH _ _ _ _ _ _ _ Hf1 H) as (more & Hmore & Ht' & Hls & Hps & Hst & Hv). exists (line :: more).
  assert (status_code head1 = status_code head /\ http_11 head1 = http_11 head) as [Hst1 Hv1].
  { clear -Eh. unfold head_header in Eh. repeat case_match; simplify_eq; try done.
    clear. generalize (trim <$> split "," value). intros tokens. revert head.
    induction tokens as [|token r IH]; intros head; [done|]. cbn [connection_directives].
    repeat case_match; destruct (IH (head <| connection_close := true |>)),
      (IH (head <| connection_keep_alive := true |>)), (IH head); done. }
  split_and!.
  - by rewrite <- app_assoc in Hmore.
  - pose proof (took_trans _ _ _ _ _ Ht Ht') as Hall. unfold lines_text, str_concat. rewrite fmap_cons. cbn [foldr].
    by rewrite <- append_assoc.
  - constructor; [|done]. split; [done|]. by apply not_empty.
  - constructor; [by rewrite Ep|done].
  - by rewrite Hst.
  - by rewrite Hv.
Qed.

(** [head] is what the reader makes of the head [h]. *)
Definition head_of (origin : string) (head : HttpResponseHead) (h : RawHead) : Prop :=
  raw_ok h /\ parse_http_status_line (raw_status h) origin = Ok (status_code head, http_11 head) /\
  Forall (fun l => is_ok (parse_http_header_line l origin) = true) (raw_lines h) /\
  framing_headers origin head (raw_lines h).

Lemma response_head_sound s origin head s' :
  read_http_response_head s origin = Ok (head, s') ->
  exists h, head_of origin head h /\ took s s' (raw_text h).
Proof.
  unfold read_http_response_head. intros H.
  destruct (read_http_line s 0 origin _) as [[[line c1] s1]|e] eqn:El; [|done].
  apply read_http_line_sound in El as (Hnl & _ & _ & Ht); [|done].
  destruct (parse_http_status_line line origin) as [[status version_11]|e] eqn:Es; [|done]. cbv zeta in H.
  apply head_lines_sound with (ls := []) in H as (ls & Hf & Ht' & Hls & Hps & Hst & Hv); [|done].
  exists (MkRawHead line ls). split.
  - split_and!; [done..| |exact Hps|exact Hf]. cbn [raw_status]. by rewrite Es, Hst, Hv.
  - pose proof (took_trans _ _ _ _ _ Ht Ht') as Hall. by rewrite <- append_assoc in Hall.
Qed.

(** A head that delimits its body twice: it repeats one of the two headers,
    or has both. *)
Definition delimited_twice (origin : string) (h : RawHead) : Prop :=
  let lengths := length (header_values origin "content-length" (raw_lines h)) in
  let encodings := length (header_values origin "transfer-encoding" (raw_lines h)) in
  2 <= lengths \/ 2 <= encodings \/ 1 <= lengths /\ 1 <= encodings.

(** A response that never has a body. *)
Definition bodyless (status : N) : bool :=
  is_informational status || (status =? 204)%N || (status =? 205)%N || (status =? 304)%N.

(** The body's framing, as the status and the header lines determine it. *)
Definition framing_determined (origin : string) (allow : bool) (head : HttpResponseHead) (h : RawHead)
    (framing : HttpBodyFraming) : Prop :=
  let lengths := header_values origin "content-length" (raw_lines h) in
  let encodings := length (header_values origin "transfer-encoding" (raw_lines h)) in
  match framing with
  | FramingNone => encodings = 0 /\
      (bodyless (status_code head) = true \/ allow = true /\ status_code head = 202%N /\ lengths = [])
  | ContentLength n => bodyless (status_code head) = false /\ encodings = 0 /\
      exists v, lengths = [v] /\ parse_http_content_length v origin = Ok n
  | Chunked => bodyless (status_code head) = false /\ encodings = 1 /\ lengths = []
  | CloseDelimited => bodyless (status_code head) = false /\ encodings = 0 /\ lengths = []
  end.

Lemma select_framing_sound origin head h allow framing :
  framing_headers origin head (raw_lines h) -> select_http_body_framing head origin allow = Ok framing ->
  framing_determined origin allow head h framing.
Proof.
  intros [Hcl Hte] H. unfold framing_determined. rewrite Hte. unfold select_http_body_framing in H.
  fold (bodyless (status_code head)) in H. destruct (bodyless (status_code head)).
  { apply reject_Ok in H as [Hf H]. injection H as <-. apply orb_false_iff in Hf as [-> _]. auto. }
  destruct (allow && _ && _ && _) eqn:Ea.
  { injection H as <-. rewrite !andb_true_iff in Ea. destruct Ea as [[[-> ?%N.eqb_eq] Ec%bool_decide_eq_true] Et].
    rewrite Ec in Hcl. apply negb_true_iff in Et as ->. auto. }
  destruct (transfer_encoding_chunked head).
  - apply reject_Ok in H as [Hd H]. injection H as <-. apply bool_decide_eq_false in Hd. split_and!; [done..|].
    destruct (content_length head); [by destruct Hd|done].
  - destruct (content_length head) as [n|]; [injection H as <-; done|]. destruct (_ || _); [|done].
    by injection H as <-.
Qed.

Lemma select_framing_single origin head h allow framing :
  framing_headers origin head (raw_lines h) -> select_http_body_framing head origin allow = Ok framing ->
  ~ delimited_twice origin h.
Proof.
  intros Hf H Ht. pose proof (select_framing_sound _ _ _ _ _ Hf H) as Hd. destruct Hf as [Hcl Hte].
  unfold delimited_twice in Ht. unfold framing_determined in Hd. rewrite Hte in *.
  assert (length (header_values origin "content-length" (raw_lines h)) <= 1) as Hl.
  { destruct (content_length head); [destruct Hcl as (v & -> & _)|rewrite Hcl]; cbn; lia. }
  assert (transfer_encoding_chunked head = true -> length (header_values origin "content-length" (raw_lines h)) = 0) as Hno.
  { intros E. rewrite E in Hd. destruct framing.
    - by destruct Hd as [? _].
    - by destruct Hd as (_ & ? & _).
    - by destruct Hd as (_ & _ & ->).
    - by destruct Hd as (_ & ? & _). }
  destruct (transfer_encoding_chunked head); [specialize (Hno eq_refl)|]; lia.
Qed.

(** An informational head, other than 101. *)
Definition informational_head (origin : string) (h : RawHead) : Prop :=
  raw_ok h /\ exists status version_11,
    parse_http_status_line (raw_status h) origin = Ok (status, version_11) /\
    is_informational status = true /\ status <> 101%N.

Definition heads_text (hs : list RawHead) : string := str_concat (raw_text <$> hs).

(** The informational heads are skipped whole. *)
Lemma final_head_sound fuel : forall informational s origin head s',
  final_head fuel informational s origin = Ok (head, s') ->
  exists hs h, stream_bytes s = heads_text hs +:+ raw_text h +:+ stream_bytes s' /\
    Forall (informational_head origin) hs /\ head_of origin head h /\
    (is_informational (status_code head) = true -> status_code head = 101%N).
Proof.
  induction fuel as [|fuel IH]; intros informational s origin head s' H; [done|]. cbn [final_head] in H.
  destruct (read_http_response_head s origin) as [[head1 s1]|e] eqn:Er; [|done].
  apply response_head_sound in Er as (h1 & Hh1 & Hb & _).
  destruct (is_informational (status_code head1) && negb (status_code head1 =? 101)%N) eqn:Ei.
  - destruct (select_http_body_framing head1 origin false) as [framing|e]; [|done].
    apply reject_Ok in H as [_ H]. cbv zeta in H. apply reject_Ok in H as [_ H].
    apply IH in H as (hs & h & Hs & Hhs & Hh & Hi). exists (h1 :: hs), h. split_and!; [|constructor|done..].
    + rewrite Hb, Hs. unfold heads_text. rewrite fmap_cons. cbn [str_concat foldr]. by rewrite <- append_assoc.
    + apply andb_true_iff in Ei as [Ei En%negb_true_iff%N.eqb_neq]. destruct Hh1 as (Hok & Hst & _). split; [done|].
      by exists (status_code head1), (http_11 head1).
    + done.
  - injection H as <- <-. exists [], h1. split_and!; [exact Hb|constructor|done|].
    intros Hi. rewrite Hi in Ei. by apply negb_false_iff, N.eqb_eq in Ei.
Qed.

(** A head after informational ones is either refused or the final head. *)
Lemma final_head_reaches fuel : forall informational s origin hs h rest head s',
  stream_bytes s = heads_text hs +:+ raw_text h +:+ rest ->
  Forall (informational_head origin) hs -> raw_ok h -> delimited_twice origin h ->
  final_head fuel informational s origin = Ok (head, s') -> head_of origin head h.
Proof.
  induction fuel as [|fuel IH]; intros informational s origin hs h rest head s' Hs Hhs Hh Ht H; [done|].
  cbn [final_head] in H. destruct (read_http_response_head s origin) as [[head1 s1]|e] eqn:Er; [|done].
  apply response_head_sound in Er as (h1 & Hh1 & Hb & _). rewrite Hs in Hb. destruct hs as [|i hs].
  - change (heads_text [] +:+ raw_text h +:+ rest) with (raw_text h +:+ rest) in Hb.
    apply raw_head_unique in Hb as [-> _]; [|done|by apply Hh1].
    destruct (_ && _); [|by injection H as <- _].
    destruct (select_http_body_framing head1 origin false) as [framing|e] eqn:Es; [|done].
    exfalso. by apply (select_framing_single _ _ h1 _ _) in Es; [|apply Hh1].
  - apply Forall_cons in Hhs as [[Hi (status & version & Hst & Hinf & H101)] Hhs].
    unfold heads_text in Hb. rewrite fmap_cons in Hb. cbn [str_concat foldr] in Hb. rewrite <- append_assoc in Hb.
    apply raw_head_unique in Hb as [-> Hb]; [|done|by apply Hh1].
    destruct Hh1 as (_ & Hst1 & _). rewrite Hst in Hst1. injection Hst1 as -> _.
    rewrite Hinf, (proj2 (N.eqb_neq _ _) H101) in H. cbn [andb negb] in H.
    destruct (select_http_body_framing head1 origin false) as [framing|e]; [|done].
    apply reject_Ok in H as [_ H]. cbv zeta in H. apply reject_Ok in H as [_ H].
    eapply IH; [symmetry; exact Hb|done|done|done|exact H].
Qed.

(** C32: the framing of a response body is determined by the status and the
    header lines of the final head and never ambiguous.  A response that is
    read consists of informational heads and one final head, each a status
    line and header lines in the reader's syntax without a line break in
    them; the response has no body when its status forbids one, or it is an
    accepted 202 without either header; otherwise a chunked body has one
    transfer-encoding header and no content-length header, a body of a given
    length one content-length header with that value and no
    transfer-encoding header, and a body that ends with the connection
    neither.  And a response whose final head, or any informational one,
    repeats either header, or has both, is rejected whatever its values. *)
Theorem http_framing_unambiguous s origin allow :
  (forall head framing s', read_final_http_response_head s origin allow = Ok (head, framing, s') ->
     exists informational final,
       stream_bytes s = heads_text informational +:+ raw_text final +:+ stream_bytes s' /\
       Forall (informational_head origin) informational /\ head_of origin head final /\
       (is_informational (status_code head) = true -> status_code head = 101%N) /\
       framing_determined origin allow head final framing) /\
  (forall informational final rest,
     stream_bytes s = heads_text informational +:+ raw_text final +:+ rest ->
     Forall (informational_head origin) informational -> raw_ok final -> delimited_twice origin final ->
     is_ok (read_final_http_response_head s origin allow) = false).
Proof.
  unfold read_final_http_response_head. split.
  - intros head framing s' H.
    destruct (final_head 10 0 s origin) as [[head1 s1]|e] eqn:Ef; [|done].
    destruct (select_http_body_framing head1 origin allow) as [framing1|e] eqn:Es; [|done]. injection H as -> -> ->.
    apply final_head_sound in Ef as (hs & h & Hs & Hhs & Hh & Hi). exists hs, h. split_and!; [done..|].
    eapply select_framing_sound; [apply Hh|exact Es].
  - intros informational final rest Hs Hhs Hf Ht.
    destruct (final_head 10 0 s origin) as [[head1 s1]|e] eqn:Ef; [|done].
    eapply final_head_reaches in Ef; [|done..].
    destruct (select_http_body_framing head1 origin allow) as [framing1|e] eqn:Es; [|done].
    exfalso. eapply select_framing_single; [apply Ef|exact Es|exact Ht].
Qed.

Definition sample_head : Stream :=
  [Ok ("HTTP/1.1 100 Continue" +:+ crlf +:+ crlf +:+ "HTTP/1.1 200 OK" +:+ crlf +:+ "Content-Le");
   Ok ("ngth: 2" +:+ crlf +:+ "Content-Type: application/json" +:+ crlf +:+ crlf +:+ "{}")].

(** A response with a repeated length, after an informational head. *)
Definition sample_repeated : RawHead :=
  MkRawHead "HTTP/1.1 200 OK" ["Content-Length: 5"; "Content-Type: text/plain"; "content-length: 2"].

Lemma http_framing_unambiguous_witness :
  (exists head final s', read_final_http_response_head sample_head "http://h" false = Ok (head, ContentLength 2, s') /\
     head_of "http://h" head final /\ framing_determined "http://h" false head final (ContentLength 2)) /\
  is_ok (read_final_http_response_head
           [Ok (heads_text [MkRawHead "HTTP/1.1 100 Continue" []] +:+ raw_text sample_repeated +:+ "hello")]
           "http://h" false) = false.
Proof.
  split.
  - assert (exists head s', read_final_http_response_head sample_head "http://h" false = Ok (head, ContentLength 2, s'))
      as (head & s' & E) by (eexists _, _; vm_compute; reflexivity).
    destruct (proj1 (http_framing_unambiguous sample_head "http://h" false) _ _ _ E) as (hs & h & _ & _ & Hh & _ & Hf).
    exists head, h, s'. split; [exact E|]. split; [exact Hh|exact Hf].
  - apply (proj2 (http_framing_unambiguous _ "http://h" false) [MkRawHead "HTTP/1.1 100 Continue" []] sample_repeated "hello").
    + apply append_nil_r.
    + constructor; [|constructor]. split; [split; [reflexivity|constructor]|].
      exists 100%N, true. split_and!; [vm_compute; reflexivity..|discriminate].
    + split; [reflexivity|]. repeat constructor; discriminate.
    + left. vm_compute. repeat constructor.
Defined.

(** ** HTTP reading ends (crates/eva-mcp/src/json_rpc.rs)

    Every loop that reads a response ends: with a result or with one of the
    reader's errors. *)

Definition http_error_codes : list string :=
  ["mcp_http_read_timeout"; "mcp_http_read_failed"; "mcp_http_framing_invalid"; "mcp_http_body_incomplete";
   "mcp_http_headers_too_large"].

Definition http_failure (e : EvaError) : Prop :=
  match err_provider_code e with Some code => code ∈ http_error_codes | None => False end.

Definition fails_by_http {A} (r : Res A) : Prop := forall e, r = Err e -> http_failure e.

Lemma http_Ok {A} (a : A) : fails_by_http (Ok a).
Proof. by intros e. Qed.

Lemma http_Err {A} e : http_failure e -> fails_by_http (Err e : Res A).
Proof. intros H e' [= <-]. done. Qed.

Lemma http_bind {A B} (r : Res A) (k : A -> Res B) :
  fails_by_http r -> (forall a, r = Ok a -> fails_by_http (k a)) -> fails_by_http (let? a := r in k a).
Proof. intros Hr Hk. destruct r as [a|e]; [by apply Hk|]. intros e' [= <-]. by apply Hr. Qed.

Lemma http_if {A} (b : bool) (r1 r2 : Res A) :
  (b = true -> fails_by_http r1) -> (b = false -> fails_by_http r2) -> fails_by_http (if b then r1 else r2).
Proof. destruct b; auto. Qed.

Lemma http_ok_or {A} (o : option A) e : http_failure e -> fails_by_http (ok_or o e).
Proof. destruct o; [intros _; apply http_Ok|apply http_Err]. Qed.

Lemma framing_failure origin reason : http_failure (http_framing_error origin reason).
Proof. do 2 right. by left. Qed.
Lemma incomplete_failure origin reason : http_failure (http_body_incomplete_error origin reason).
Proof. do 3 right. by left. Qed.
Lemma too_large_failure origin limit : http_failure (headers_too_large origin limit).
Proof. do 4 right. by left. Qed.
Lemma read_failure kind origin : http_failure (map_http_read_error kind origin).
Proof. destruct kind; cbn; [by left|by left|right; by left]. Qed.
#[local] Hint Resolve framing_failure incomplete_failure too_large_failure read_failure : core.
#[local] Hint Resolve @http_Ok @http_Err @http_ok_or : core.

Lemma http_read_fails s n origin : fails_by_http (http_read s n origin).
Proof. unfold http_read. destruct (read s n) as [[b|k] s']; auto. Qed.
#[local] Hint Resolve http_read_fails : core.

(** ** Lines *)

Lemma http_line_bytes_fails fuel : forall origin limit line consumed s,
  String.length (stream_bytes s) < fuel -> fails_by_http (http_line_bytes fuel origin limit line consumed s).
Proof.
  induction fuel as [|fuel IH]; intros origin limit line consumed s Hf; [lia|]. cbn [http_line_bytes].
  apply (http_bind (http_read s 1 origin)); [auto|]. intros [byte s1] Er.
  apply http_read_Ok in Er as (Ht & _ & _); [|lia]. apply took_length in Ht.
  apply http_if; [auto|]. intros Hb. apply not_empty in Hb. apply http_if; [auto|]. intros _.
  apply http_if; [auto|]. intros _. apply IH. destruct byte; [done|cbn in Ht; lia].
Qed.

Lemma read_http_line_fails s consumed origin limit : fails_by_http (read_http_line s consumed origin limit).
Proof.
  unfold read_http_line. apply http_bind; [apply http_line_bytes_fails; lia|]. intros [[line c] s1] _.
  apply http_if; auto.
Qed.
#[local] Hint Resolve read_http_line_fails : core.

(** A line that was read is gone. *)
Lemma read_http_line_shorter s consumed origin l c' s' :
  read_http_line s consumed origin HTTP_HEADER_LIMIT_BYTES = Ok (l, c', s') ->
  String.length (stream_bytes s') + 2 <= String.length (stream_bytes s).
Proof.
  intros H. apply read_http_line_sound in H as (_ & _ & _ & Ht); [|done]. apply took_length in Ht.
  rewrite length_append in Ht. cbn in Ht. lia.
Qed.

(** ** Heads *)

Lemma header_line_fails line origin : fails_by_http (parse_http_header_line line origin).
Proof.
  unfold parse_http_header_line. apply http_if; [auto|intros _]. apply http_bind; [auto|]. intros [name value] _.
  apply http_if; [auto|intros _]. apply http_if; auto.
Qed.

Lemma status_line_fails line origin : fails_by_http (parse_http_status_line line origin).
Proof.
  unfold parse_http_status_line. apply http_if; [auto|intros _]. destruct (splitn_3 line) as [version rest].
  apply http_bind; [auto|]. intros [code reason] _. apply http_if; [auto|intros _]. apply http_if; [auto|intros _].
  apply http_bind; [auto|]. intros status _. apply http_if; [auto|intros _]. apply http_if; auto.
Qed.

Lemma head_header_fails head name value origin : fails_by_http (head_header head name value origin).
Proof.
  unfold head_header. apply http_if; intros _.
  { apply http_if; [auto|intros _]. apply http_bind; [|auto]. unfold parse_http_content_length. apply http_if; auto. }
  apply http_if; intros _; [apply http_if; [auto|intros _]; apply http_if; auto|].
  apply http_if; intros _.
  { apply http_if; [auto|intros _]. apply http_bind; [|auto]. unfold parse_http_media_type.
    apply http_if; [auto|intros _]. apply http_if; auto. }
  apply http_if; intros _.
  { apply http_if; [auto|intros _]. apply http_bind; [|auto]. unfold parse_mcp_session_id. apply http_if; auto. }
  apply http_if; intros _; [apply http_if; auto|]. apply http_if; auto.
Qed.

Lemma head_lines_fails fuel : forall head consumed s origin,
  String.length (stream_bytes s) < fuel -> fails_by_http (head_lines fuel head consumed s origin).
Proof.
  induction fuel as [|fuel IH]; intros head consumed s origin Hf; [lia|]. cbn [head_lines].
  apply http_bind; [auto|]. intros [[line c1] s1] El. apply read_http_line_shorter in El.
  apply http_if; [auto|intros _]. apply http_bind; [apply header_line_fails|]. intros [name value] _.
  apply http_bind; [apply head_header_fails|]. intros head1 _. apply IH. lia.
Qed.

Lemma response_head_fails s origin : fails_by_http (read_http_response_head s origin).
Proof.
  unfold read_http_response_head. apply http_bind; [auto|]. intros [[line c1] s1] _.
  apply http_bind; [apply status_line_fails|]. intros [status version_11] _. apply head_lines_fails. lia.
Qed.

Lemma select_framing_fails head origin allow : fails_by_http (select_http_body_framing head origin allow).
Proof.
  unfold select_http_body_framing. apply http_if; intros _; [apply http_if; auto|].
  apply http_if; [auto|intros _]. apply http_if; intros _; [apply http_if; auto|].
  destruct (content_length head); [auto|]. apply http_if; auto.
Qed.

(** The ninth informational response is refused before the fuel is used up. *)
Lemma final_head_fails fuel : forall informational s origin,
  (informational <= 8)%N -> (10 <= N.of_nat fuel + informational)%N ->
  fails_by_http (final_head fuel informational s origin).
Proof.
  induction fuel as [|fuel IH]; intros informational s origin Hi Hf; [lia|]. cbn [final_head].
  apply http_bind; [apply response_head_fails|]. intros [head s1] _. apply http_if; [intros _|auto].
  apply http_bind; [apply select_framing_fails|]. intros framing _. apply http_if; [auto|intros _].
  apply http_if; [auto|]. intros Hb. apply N.ltb_ge in Hb. unfold saturating_add in *. apply IH; lia.
Qed.

(** ** Bodies *)

Lemma http_exact_fails fuel : forall s target missing origin,
  missing < fuel -> fails_by_http (http_exact fuel s target missing origin).
Proof.
  induction fuel as [|fuel IH]; intros s target [|m] origin Hf; try lia; cbn [http_exact]; auto.
  apply http_bind; [auto|]. intros [bytes s1] _. apply http_if; [auto|]. intros Hb. apply not_empty in Hb.
  apply IH. destruct bytes; [done|cbn; lia].
Qed.

Lemma read_http_exact_fails s n origin : fails_by_http (read_http_exact s n origin).
Proof. apply http_exact_fails. lia. Qed.

Lemma chunk_trailers_fails fuel : forall s metadata origin,
  String.length (stream_bytes s) < fuel -> fails_by_http (chunk_trailers fuel s metadata origin).
Proof.
  induction fuel as [|fuel IH]; intros s metadata origin Hf; [lia|]. cbn [chunk_trailers].
  apply http_bind; [auto|]. intros [[line m1] s1] El. apply read_http_line_shorter in El.
  apply http_if; [auto|intros _]. apply (http_bind (validate_http_trailer line origin)); [|intros _ _; apply IH; lia].
  unfold validate_http_trailer. apply http_bind; [apply header_line_fails|]. intros [name value] _. apply http_if; auto.
Qed.

Lemma chunk_size_fails line origin : fails_by_http (parse_http_chunk_size line origin).
Proof. unfold parse_http_chunk_size. do 3 (apply http_if; [auto|intros _]). auto. Qed.

Lemma chunked_body_fails fuel : forall s metadata body limit origin,
  String.length (stream_bytes s) < fuel -> fails_by_http (chunked_body fuel s metadata body limit origin).
Proof.
  induction fuel as [|fuel IH]; intros s metadata body limit origin Hf; [lia|]. cbn [chunked_body].
  apply http_bind; [auto|]. intros [[line m1] s1] El. apply read_http_line_shorter in El.
  apply http_bind; [apply chunk_size_fails|]. intros size _. apply http_if; intros _.
  { apply http_bind; [apply chunk_trailers_fails; lia|auto]. }
  apply http_if; [auto|intros _]. apply http_bind; [apply read_http_exact_fails|]. intros [chunk s2] Ec.
  apply read_http_exact_sound in Ec as [_ Ht2]. apply took_length in Ht2.
  apply http_bind; [apply read_http_exact_fails|]. intros [delimiter s3] Ed.
  apply read_http_exact_sound in Ed as [_ Ht3]. apply took_length in Ht3.
  apply http_if; [auto|intros _]. apply IH. lia.
Qed.

Lemma close_delimited_fails fuel : forall s body limit origin,
  String.length (stream_bytes s) < fuel -> fails_by_http (close_delimited fuel s body limit origin).
Proof.
  induction fuel as [|fuel IH]; intros s body limit origin Hf; [lia|]. cbn [close_delimited].
  apply http_bind; [auto|]. intros [bytes s1] Er. apply http_read_Ok in Er as (Ht & _ & _); [|lia].
  apply took_length in Ht. apply http_if; [auto|]. intros Hb. apply not_empty in Hb.
  apply http_if; [auto|intros _]. apply http_if; intros _; [apply http_bind; [auto|]; intros [extra s2] _; auto|].
  apply IH. destruct bytes; [done|cbn in Ht; lia].
Qed.

Lemma http_body_fails s framing limit origin : fails_by_http (read_http_body s framing limit origin).
Proof.
  destruct framing as [|length| |]; cbn [read_http_body]; auto.
  - apply http_if; [auto|intros _]. apply http_bind; [apply read_http_exact_fails|]. intros [b s1] _. auto.
  - apply chunked_body_fails. lia.
  - apply close_delimited_fails. lia.
Qed.

(** Reading a response ends whatever the server sends: with a response, or
    with one of the five errors the reader raises; the bounds on the loops of
    the model are never what stops it. *)
Theorem http_response_total s origin allow limit :
  let response :=
    let? '(head, framing, s') := read_final_http_response_head s origin allow in
    into_buffered head framing s' limit origin in
  match response with
  | Ok _ => True
  | Err e => http_failure e
  end.
Proof.
  cbv zeta. match goal with |- match ?r with _ => _ end => enough (fails_by_http r) as H by (destruct r; auto) end.
  apply http_bind.
  - unfold read_final_http_response_head. apply http_bind; [apply final_head_fails; lia|]. intros [head s1] _.
    apply http_bind; [apply select_framing_fails|auto].
  - intros [[head framing] s1] _. unfold into_buffered. apply http_bind; [apply http_body_fails|].
    intros [[body truncated] s2] _. auto.
Qed.
