(* ===== verification/HttpSse.v ===== *)
(** * Streaming a response body (crates/eva-mcp/src/json_rpc.rs, HttpSseSource)

    The source behind an event stream decodes the body as it is read, a
    buffer at a time.  It delivers the bytes that reading the body whole
    would. *)

From Stdlib Require Import Ascii.
From stdpp Require Import base numbers strings list.
From S2P Require Import Prelude RustStr Error Json McpJsonRpc McpClient McpReader HttpFraming HttpReader.

(** ** The source *)

Inductive HttpChunkReadState :=
| Size
| Data (remaining : N)
| Delimiter
| Trailers (metadata_bytes : N)
| Done.

Record HttpSseSource := MkSource {
  hs_reader : Stream;
  hs_framing : HttpBodyFraming;
  hs_origin : string;
  hs_chunk_state : HttpChunkReadState
}.
#[export] Instance HttpSseSource_eta : Eta HttpSseSource := fun s =>
  MkSource (hs_reader s) (hs_framing s) (hs_origin s) (hs_chunk_state s).

Definition source_new (reader : Stream) (framing : HttpBodyFraming) (origin : string) : HttpSseSource :=
  MkSource reader framing origin Size.

(** The loop of [read_chunked] for a buffer of [n] bytes. *)
Fixpoint read_chunked (fuel : nat) (src : HttpSseSource) (n : nat) : Res (string * HttpSseSource) :=
  match fuel with
  | O => Err out_of_fuel
  | S fuel =>
      let origin := hs_origin src in
      match hs_chunk_state src with
      | Size =>
          let? '(line, _, reader) := read_http_line (hs_reader src) 0 origin HTTP_HEADER_LIMIT_BYTES in
          let? size := parse_http_chunk_size line origin in
          let state := if (size =? 0)%N then Trailers 0 else Data size in
          read_chunked fuel (src <| hs_reader := reader |> <| hs_chunk_state := state |>) n
      | Data remaining =>
          let? '(bytes, reader) := http_read (hs_reader src) (Nat.min n (N.to_nat remaining)) origin in
          reject str_is_empty bytes with http_body_incomplete_error origin "chunked SSE body ended early" else
          let state := if (slen bytes =? remaining)%N then Delimiter else Data (remaining - slen bytes) in
          Ok (bytes, src <| hs_reader := reader |> <| hs_chunk_state := state |>)
      | Delimiter =>
          let? '(delimiter, reader) := read_http_exact (hs_reader src) 2 origin in
          reject negb (String.eqb delimiter crlf) with http_framing_error origin "chunk data is not CRLF terminated" else
          read_chunked fuel (src <| hs_reader := reader |> <| hs_chunk_state := Size |>) n
      | Trailers metadata =>
          let? '(trailer, metadata, reader) := read_http_line (hs_reader src) metadata origin HTTP_HEADER_LIMIT_BYTES in
          if str_is_empty trailer then Ok ("", src <| hs_reader := reader |> <| hs_chunk_state := Done |>) else
          validate_http_trailer trailer origin >>?
          read_chunked fuel (src <| hs_reader := reader |> <| hs_chunk_state := Trailers metadata |>) n
      | Done => Ok ("", src)
      end
  end.

Definition ensure_http_read_deadline (passed : bool) (origin : string) : Res unit :=
  if passed then
    Err (with_provider_code (timeout_error "MCP HTTP response read timed out") "mcp_http_read_timeout" ⊕ ("origin", origin))
  else Ok tt.

(** [read_sse] for a buffer of [n] bytes; [late] is whether the deadline has
    passed before and after the read. *)
Definition read_sse (late : bool * bool) (src : HttpSseSource) (n : nat) : Res (string * HttpSseSource) :=
  if Nat.eqb n 0 then Ok ("", src) else
  ensure_http_read_deadline late.1 (hs_origin src) >>?
  let? '(bytes, src) :=
    match hs_framing src with
    | FramingNone => Ok ("", src)
    | ContentLength remaining =>
        if (remaining =? 0)%N then Ok ("", src) else
        let? '(bytes, reader) := http_read (hs_reader src) (Nat.min n (N.to_nat remaining)) (hs_origin src) in
        reject str_is_empty bytes with
          http_body_incomplete_error (hs_origin src) "content-length SSE body ended early" else
        Ok (bytes, src <| hs_reader := reader |> <| hs_framing := ContentLength (remaining - slen bytes) |>)
    | Chunked => read_chunked (S (S (String.length (stream_bytes (hs_reader src))))) src n
    | CloseDelimited =>
        let? '(bytes, reader) := http_read (hs_reader src) n (hs_origin src) in
        Ok (bytes, src <| hs_reader := reader |>)
    end in
  ensure_http_read_deadline late.2 (hs_origin src) >>? Ok (bytes, src).

(** Reading with buffers of the given sizes until the body ends. *)
Fixpoint drain (src : HttpSseSource) (sizes : list nat) : Res (string * HttpSseSource) :=
  match sizes with
  | [] => Ok ("", src)
  | n :: r =>
      let? '(bytes, src) := read_sse (false, false) src n in
      if str_is_empty bytes then Ok ("", src)
      else let? '(rest, src) := drain src r in Ok (bytes +:+ rest, src)
  end.

(** ** What is still to come *)

Inductive to_come (origin : string) : HttpChunkReadState -> string -> string -> Prop :=
| come_size text body m :
    chunked_text origin text body m -> (m <= HTTP_HEADER_LIMIT_BYTES)%N -> to_come origin Size text body
| come_data data text body m :
    data <> "" -> chunked_text origin text body m -> (m <= HTTP_HEADER_LIMIT_BYTES)%N ->
    to_come origin (Data (slen data)) (data +:+ crlf +:+ text) (data +:+ body)
| come_delimiter text body m :
    chunked_text origin text body m -> (m <= HTTP_HEADER_LIMIT_BYTES)%N -> to_come origin Delimiter (crlf +:+ text) body
| come_trailers m text :
    trailer_text origin text -> (m + slen text <= HTTP_HEADER_LIMIT_BYTES)%N -> to_come origin (Trailers m) text ""
| come_done : to_come origin Done "" "".

#[local] Hint Resolve limit_small : core.

#[local] Abbreviation source reader origin state := (MkSource reader Chunked origin state).

(** One read delivers some bytes of the body, or its end. *)
Definition read_progress (origin body rest : string) (r : Res (string * HttpSseSource)) : Prop :=
  exists bytes reader state text' body', r = Ok (bytes, source reader origin state) /\
    to_come origin state text' body' /\ stream_bytes reader = text' +:+ rest /\ body = bytes +:+ body' /\
    (bytes = "" -> state = Done /\ text' = "" /\ body' = "").

Lemma trailers_end_read origin fuel : forall reader n m text rest,
  trailer_text origin text -> (m + slen text <= HTTP_HEADER_LIMIT_BYTES)%N ->
  stream_bytes reader = text +:+ rest -> String.length text < fuel ->
  read_progress origin "" rest (read_chunked fuel (source reader origin (Trailers m)) n).
Proof.
  induction fuel as [|fuel IH]; intros reader n m text rest Htr Hm Hs Hfuel; [lia|].
  cbn [read_chunked hs_chunk_state hs_origin hs_reader]. inversion Htr as [E|line text' Hne Hn Hv Htext E]; subst text.
  - destruct (read_http_line_complete reader m origin HTTP_HEADER_LIMIT_BYTES "" rest)
      as (reader' & -> & H1 & _); [done|done|done|unfold slen in *; cbn in *; lia|].
    cbn [str_is_empty]. exists "", reader', Done, "", "". split_and!; try done. constructor.
  - rewrite <- !append_assoc in Hs. unfold slen in Hm. rewrite !length_append in Hm, Hfuel.
    cbn [String.length crlf str] in Hm, Hfuel.
    destruct (read_http_line_complete reader m origin HTTP_HEADER_LIMIT_BYTES line (text' +:+ rest))
      as (reader' & -> & H1 & _); [done|done|done|unfold slen; lia|].
    rewrite (proj1 (not_empty line) Hne), Hv.
    exact (IH reader' n (m + slen line + 2)%N text' rest Htext ltac:(unfold slen in *; lia) H1 ltac:(lia)).
Qed.

Lemma data_read origin fuel reader n data text body m rest :
  0 < n -> data <> "" -> chunked_text origin text body m -> (m <= HTTP_HEADER_LIMIT_BYTES)%N ->
  stream_bytes reader = data +:+ crlf +:+ text +:+ rest ->
  read_progress origin (data +:+ body) rest (read_chunked (S fuel) (source reader origin (Data (slen data))) n).
Proof.
  intros Hn Hne Htext Hm Hs. cbn [read_chunked hs_chunk_state hs_origin hs_reader]. unfold slen. rewrite Nat2N.id.
  destruct (http_read_some reader (Nat.min n (String.length data)) origin)
    as (bytes & reader' & -> & Hb & Hl & Hsplit & _); [rewrite Hs; by destruct data|destruct data; [done|cbn; lia]|].
  rewrite (proj1 (not_empty bytes) Hb). rewrite Hs in Hsplit. symmetry in Hsplit.
  destruct (append_split bytes data _ _ Hsplit ltac:(lia)) as (data' & -> & Hrest). rewrite length_append.
  destruct (decide (data' = "")) as [->|Hne'].
  - cbn [String.length]. rewrite Nat.add_0_r, N.eqb_refl. exists bytes, reader', Delimiter, (crlf +:+ text), body.
    split_and!; [done|by eapply come_delimiter| |by rewrite append_nil_r|by intros ->].
    by rewrite Hrest, append_nil_l, <- append_assoc.
  - assert (String.length data' <> 0) by (by destruct data').
    rewrite (proj2 (N.eqb_neq _ _)) by lia.
    exists bytes, reader', (Data (slen data')), (data' +:+ crlf +:+ text), (data' +:+ body).
    split_and!; [|by eapply come_data| |by rewrite append_assoc|by intros ->].
    + by replace (N.of_nat (String.length bytes + String.length data') - N.of_nat (String.length bytes))%N
        with (slen data') by (unfold slen; lia).
    + by rewrite Hrest, <- !append_assoc.
Qed.

Lemma size_read origin fuel reader n text body m rest :
  0 < n -> chunked_text origin text body m -> (m <= HTTP_HEADER_LIMIT_BYTES)%N ->
  stream_bytes reader = text +:+ rest -> String.length text < fuel ->
  read_progress origin body rest (read_chunked (S fuel) (source reader origin Size) n).
Proof.
  intros Hn Htext Hm Hs Hfuel. cbn [read_chunked hs_chunk_state hs_origin hs_reader].
  inversion Htext as [line trailers Hl Hsize Htr E1 E2 E3|line data text' body' m' Hl Hsize Hne Htext' E1 E2 E3]; subst;
    rewrite <- !append_assoc in Hs; rewrite !length_append in Hfuel; cbn [String.length crlf str] in Hfuel.
  - destruct (read_http_line_complete reader 0 origin HTTP_HEADER_LIMIT_BYTES line (trailers +:+ rest))
      as (reader' & -> & H1 & _); [done|done|done|lia|].
    rewrite Hsize. exact (trailers_end_read origin fuel reader' n 0 trailers rest Htr ltac:(lia) H1 ltac:(lia)).
  - destruct (read_http_line_complete reader 0 origin HTTP_HEADER_LIMIT_BYTES line (data +:+ crlf +:+ text' +:+ rest))
      as (reader' & -> & H1 & _); [done|done|done|lia|].
    rewrite Hsize. rewrite (proj2 (N.eqb_neq _ _)) by (unfold slen; destruct data; [done|cbn; lia]).
    destruct fuel as [|fuel]; [lia|].
    exact (data_read origin fuel reader' n data text' body' m' rest Hn Hne Htext' ltac:(lia) H1).
Qed.

Lemma delimiter_read origin fuel reader n text body m rest :
  0 < n -> chunked_text origin text body m -> (m <= HTTP_HEADER_LIMIT_BYTES)%N ->
  stream_bytes reader = crlf +:+ text +:+ rest -> S (String.length text) < fuel ->
  read_progress origin body rest (read_chunked (S fuel) (source reader origin Delimiter) n).
Proof.
  intros Hn Htext Hm Hs Hfuel.
  destruct (read_http_exact_complete reader crlf _ origin Hs) as (r' & E & H1 & _). change (slen crlf) with 2%N in E.
  cbn [read_chunked hs_chunk_state hs_origin hs_reader]. rewrite E, String.eqb_refl. cbn [negb].
  destruct fuel as [|fuel]; [lia|].
  exact (size_read origin fuel r' n text body m rest Hn Htext Hm H1 ltac:(lia)).
Qed.

Lemma chunked_read origin reader n state text body rest :
  0 < n -> to_come origin state text body -> stream_bytes reader = text +:+ rest ->
  read_progress origin body rest (read_sse (false, false) (source reader origin state) n).
Proof.
  intros Hn Hcome Hs. unfold read_sse. rewrite (proj2 (Nat.eqb_neq n 0)) by lia.
  cbn [fst snd ensure_http_read_deadline hs_framing hs_reader].
  assert (read_progress origin body rest
    (read_chunked (S (S (String.length (stream_bytes reader)))) (source reader origin state) n)) as Hp; cycle 1.
  { destruct Hp as (b & r & st & t' & b' & -> & Hp). by exists b, r, st, t', b'. }
  rewrite Hs, length_append. inversion Hcome; subst.
  - eapply size_read; [done..|lia].
  - eapply data_read; [done..|]. by rewrite Hs, <- !append_assoc.
  - rewrite <- append_assoc in Hs. rewrite length_append. cbn [String.length crlf str].
    eapply delimiter_read; [done..|lia].
  - eapply trailers_end_read; [done..|lia].
  - exists "", reader, Done, "", "". by split_and!.
Qed.

(** ** The whole body *)

Lemma drain_chunked origin rest sizes : forall reader state text body,
  Forall (fun n => 0 < n) sizes -> String.length body < length sizes ->
  to_come origin state text body -> stream_bytes reader = text +:+ rest ->
  exists reader', drain (source reader origin state) sizes = Ok (body, source reader' origin Done) /\
    stream_bytes reader' = rest.
Proof.
  induction sizes as [|n sizes IH]; intros reader state text body Hpos Hlen Hcome Hs; [cbn in Hlen; lia|].
  apply Forall_cons in Hpos as [Hn Hpos]. cbn [drain].
  destruct (chunked_read origin reader n state text body rest Hn Hcome Hs)
    as (bytes & r1 & st & t' & b' & -> & Hcome' & Hs' & -> & Hend).
  destruct (str_is_empty bytes) eqn:Ee.
  - apply String.eqb_eq in Ee as ->. destruct (Hend eq_refl) as (-> & -> & ->). by exists r1.
  - rewrite length_append in Hlen. cbn [length] in Hlen. apply not_empty in Ee.
    assert (String.length bytes <> 0) by (by destruct bytes).
    destruct (IH r1 st t' b' Hpos ltac:(lia) Hcome' Hs') as (r2 & -> & H2). by exists r2.
Qed.

(** Reading an event stream's chunked body piecemeal, with buffers of any
    positive sizes over any reads of the connection, delivers exactly the body
    that reading it whole would, ends in the finished state and leaves the
    connection after the trailers. *)
Theorem sse_source_streams s limit origin body s1 sizes :
  read_http_chunked_body s limit origin = Ok (body, false, s1) ->
  Forall (fun n => 0 < n) sizes -> String.length body < length sizes ->
  exists reader, drain (source_new s Chunked origin) sizes = Ok (body, source reader origin Done) /\
    stream_bytes reader = stream_bytes s1.
Proof.
  intros H Hpos Hlen. unfold read_http_chunked_body in H. apply chunked_body_sound in H as [_ Hmore]; [|apply N.le_0_l].
  destruct (Hmore eq_refl) as (text & tail & m & -> & Htext & [Hs _] & Hm).
  exact (drain_chunked origin (stream_bytes s1) sizes s Size text tail Hpos Hlen (come_size _ _ _ _ Htext Hm) Hs).
Qed.

Lemma sse_source_streams_witness : exists reader,
  drain (source_new sample_chunks Chunked "http://h") (replicate 20 4) =
    Ok ("abc0123456789", MkSource reader Chunked "http://h" Done) /\ stream_bytes reader = "next".
Proof.
  assert (read_http_chunked_body sample_chunks 16 "http://h" = Ok ("abc0123456789", false, [Ok "next"])) as E
    by (vm_compute; reflexivity).
  exact (sse_source_streams _ _ _ _ _ (replicate 20 4) E
    ltac:(apply Forall_replicate; lia) ltac:(rewrite length_replicate; cbn; lia)).
Defined.
