(* ===== verification/Sse.v ===== *)
(** * Server-sent events (crates/eva-mcp/src/sse.rs)

    The incremental parser of an event stream, and the stream that reads a
    source, parses it and sorts the JSON-RPC messages by the request they
    answer.  The trait [McpSseSource] is the list of what its reads return. *)

From Stdlib Require Import Ascii.
From stdpp Require Import base numbers strings gmap countable list.
From S2P Require Import Prelude RustStr Error Json McpJsonRpc.

(** ** Envelopes *)

Inductive McpJsonRpcMessageId :=
| IdNumber (n : N)
| IdString (s : string).
#[export] Instance McpJsonRpcMessageId_eq_dec : EqDecision McpJsonRpcMessageId.
Proof. solve_decision. Defined.
#[export] Instance McpJsonRpcMessageId_countable : Countable McpJsonRpcMessageId.
Proof.
  apply (inj_countable' (fun i => match i with IdNumber n => inl n | IdString s => inr s end)
           (fun x => match x with inl n => IdNumber n | inr s => IdString s end)).
  by intros [].
Defined.

Inductive McpJsonRpcMessageKind := Notification | Request | Response.
#[export] Instance McpJsonRpcMessageKind_eq_dec : EqDecision McpJsonRpcMessageKind.
Proof. solve_decision. Defined.

Definition parse_sse_json_rpc_id (value : string) : Res McpJsonRpcMessageId :=
  if head_is dquote value then result_map IdString (parse_json_string value)
  else match parse_u64 value with
       | Ok n => Ok (IdNumber n)
       | Err _ => Err (protocol_error "MCP SSE JSON-RPC id must be a string or non-negative integer")
       end.

(** [ParsedSseJsonRpcEnvelope]: the request id and the kind. *)
Definition parse_sse_json_rpc_envelope (message : string) :
    Res (option McpJsonRpcMessageId * McpJsonRpcMessageKind) :=
  let? fields := parse_json_object_fields message in
  let? version := transpose parse_json_string (fields !! "jsonrpc") in
  reject negb (bool_decide (version = Some "2.0")) with
    protocol_error "MCP SSE JSON-RPC message has invalid version" else
  let? request_id := transpose parse_sse_json_rpc_id (fields !! "id") in
  let? method := transpose parse_json_string (fields !! "method") in
  reject bool_decide (method = Some "") with protocol_error "MCP SSE JSON-RPC method is empty" else
  let has_result := bool_decide (is_Some (fields !! "result")) in
  let has_error := bool_decide (is_Some (fields !! "error")) in
  match bool_decide (is_Some request_id), bool_decide (is_Some method), has_result, has_error with
  | false, true, false, false => Ok (request_id, Notification)
  | true, true, false, false => Ok (request_id, Request)
  | true, false, true, false | true, false, false, true => Ok (request_id, Response)
  | _, _, _, _ => Err (protocol_error "MCP SSE JSON-RPC envelope has conflicting message fields")
  end.

(** ** Messages and errors *)

Record McpSseMessage := MkSseMessage {
  sm_request_id : option McpJsonRpcMessageId;
  sm_kind : McpJsonRpcMessageKind;
  sm_event_id : option string;
  sm_event_type : option string;
  sm_data : string
}.
#[export] Instance McpSseMessage_eq_dec : EqDecision McpSseMessage.
Proof. solve_decision. Defined.

Inductive McpSseItem :=
| Ping
| SseMessage (message : McpSseMessage).

Definition sse_protocol_error (message code : string) : EvaError :=
  with_retryable (with_provider_code (unavailable message) code) false.

Definition sse_disconnect_error (partial_event : bool) : EvaError :=
  with_provider_code (unavailable "MCP SSE stream disconnected") "mcp_sse_disconnected"
    ⊕ ("partial_event", bool_to_string partial_event).

Definition sse_limit_error (message code : string) (limit : N) : EvaError :=
  with_provider_code (conflict message) code ⊕ ("output_limit_bytes", n_to_string limit).

(** ** The parser *)

Definition SSE_ITEMS_PER_PUSH_LIMIT : N := 256.
Definition SSE_PENDING_MESSAGE_LIMIT : N := 256.

Record McpSseParser := MkSseParser {
  sp_limit : N;
  sp_line : string;
  sp_data : string;
  sp_has_data : bool;
  sp_event_type : option string;
  sp_last_event_id : option string;
  sp_retry_ms : option N;
  sp_first_line : bool;
  sp_skip_lf : bool;
  sp_closed : bool
}.
#[export] Instance McpSseParser_eta : Eta McpSseParser := fun p =>
  MkSseParser (sp_limit p) (sp_line p) (sp_data p) (sp_has_data p) (sp_event_type p) (sp_last_event_id p)
    (sp_retry_ms p) (sp_first_line p) (sp_skip_lf p) (sp_closed p).

Definition parser_new (limit : N) : Res McpSseParser :=
  reject (limit =? 0)%N with invalid_argument "MCP SSE output limit must be greater than zero" else
  Ok {| sp_limit := limit; sp_line := ""; sp_data := ""; sp_has_data := false; sp_event_type := None;
        sp_last_event_id := None; sp_retry_ms := None; sp_first_line := true; sp_skip_lf := false;
        sp_closed := false |}.

(** A step of the parser: its outcome and the parser it leaves. *)
Definition dispatch_event (p : McpSseParser) : Res (option McpSseItem) * McpSseParser :=
  if negb (sp_has_data p) then (Ok None, p <| sp_event_type := None |>) else
  let data := sp_data p in
  let event_type := sp_event_type p in
  let p := p <| sp_data := "" |> <| sp_has_data := false |> <| sp_event_type := None |> in
  if bool_decide (event_type = Some "error") then
    (Err (sse_protocol_error "MCP SSE server emitted an error event" "mcp_sse_error_event"), p)
  else
    match parse_sse_json_rpc_envelope data with
    | Err e => (Err e, p)
    | Ok (request_id, kind) =>
        (Ok (Some (SseMessage {| sm_request_id := request_id; sm_kind := kind; sm_event_id := sp_last_event_id p;
                                 sm_event_type := event_type; sm_data := data |})), p)
    end.

Definition nul : ascii := ascii_of_N 0.

(** The value without one leading space. *)
Definition strip_space (value : string) : string := default value (strip_prefix " " value).

Definition event_too_large (message : string) (limit : N) : EvaError :=
  sse_limit_error message "mcp_sse_event_too_large" limit.

Definition data_field (p : McpSseParser) (value : string) : Res unit * McpSseParser :=
  let separator := if sp_has_data p then 1%N else 0%N in
  match checked_add usize_max (slen (sp_data p)) separator with
  | None => (Err (event_too_large "MCP SSE event size overflowed" (sp_limit p)), p)
  | Some length =>
      match checked_add usize_max length (slen value) with
      | None => (Err (event_too_large "MCP SSE event size overflowed" (sp_limit p)), p)
      | Some next_len =>
          if (sp_limit p <? next_len)%N then
            (Err (event_too_large "MCP SSE event exceeded output limit" (sp_limit p)), p)
          else
            let data := if sp_has_data p then sp_data p +:+ str nl else sp_data p in
            (Ok tt, p <| sp_data := data +:+ value |> <| sp_has_data := true |>)
      end
  end.

Definition process_line (p : McpSseParser) (line : string) : Res (option McpSseItem) * McpSseParser :=
  if str_is_empty line then dispatch_event p
  else if head_is ":" line then (Ok (Some Ping), p)
  else
    let '(field, value) := default (line, "") (split_once ":" line) in
    let value := strip_space value in
    if String.eqb field "data" then
      let '(r, p) := data_field p value in (result_map (fun _ => None) r, p)
    else if String.eqb field "event" then
      (Ok None, p <| sp_event_type := if str_is_empty value then None else Some value |>)
    else if String.eqb field "id" && negb (contains_char nul value) then
      (Ok None, p <| sp_last_event_id := Some value |>)
    else if String.eqb field "retry" && negb (str_is_empty value) && bytes_all is_ascii_digit value then
      (Ok None, match parse_unsigned u64_max value with
                | Some retry => p <| sp_retry_ms := Some retry |>
                | None => p
                end)
    else (Ok None, p).

Definition bom : string := String (ascii_of_N 239) (String (ascii_of_N 187) (str (ascii_of_N 191))).

(** [emit_line]: the items of the push so far, with the line's item. *)
Definition emit_line (p : McpSseParser) (items : list McpSseItem) : Res (list McpSseItem) * McpSseParser :=
  let line := sp_line p in
  let p := p <| sp_line := "" |> in
  let line := if sp_first_line p then default line (strip_prefix bom line) else line in
  let p := p <| sp_first_line := false |> in
  if negb (utf8_valid line) then
    (Err (sse_protocol_error "MCP SSE line is not valid UTF-8" "mcp_sse_utf8_invalid"), p)
  else
    match process_line p line with
    | (Err e, p) => (Err e, p)
    | (Ok None, p) => (Ok items, p)
    | (Ok (Some item), p) =>
        if (len items =? SSE_ITEMS_PER_PUSH_LIMIT)%N then
          (Err (sse_limit_error "MCP SSE chunk emitted too many items" "mcp_sse_item_limit" SSE_ITEMS_PER_PUSH_LIMIT), p)
        else (Ok (items ++ [item]), p)
    end.

(** The loop of [push_inner]. *)
Fixpoint push_bytes (p : McpSseParser) (items : list McpSseItem) (chunk : string) :
    Res (list McpSseItem) * McpSseParser :=
  match chunk with
  | EmptyString => (Ok items, p)
  | String byte r =>
      if sp_skip_lf p && Ascii.eqb byte nl then push_bytes (p <| sp_skip_lf := false |>) items r
      else
        let p := p <| sp_skip_lf := false |> in
        if Ascii.eqb byte cr then
          match emit_line p items with
          | (Err e, p) => (Err e, p)
          | (Ok items, p) => push_bytes (p <| sp_skip_lf := true |>) items r
          end
        else if Ascii.eqb byte nl then
          match emit_line p items with
          | (Err e, p) => (Err e, p)
          | (Ok items, p) => push_bytes p items r
          end
        else if (slen (sp_line p) =? sp_limit p)%N then
          (Err (sse_limit_error "MCP SSE line exceeded output limit" "mcp_sse_line_too_large" (sp_limit p)), p)
        else push_bytes (p <| sp_line := sp_line p +:+ str byte |>) items r
  end.
Definition push_inner (p : McpSseParser) (chunk : string) : Res (list McpSseItem) * McpSseParser :=
  push_bytes p [] chunk.

Definition parser_closed_error : EvaError :=
  sse_protocol_error "MCP SSE parser is already closed" "mcp_sse_parser_closed".

Definition push (p : McpSseParser) (chunk : string) : Res (list McpSseItem) * McpSseParser :=
  if sp_closed p then (Err parser_closed_error, p) else
  match push_inner p chunk with
  | (Ok items, p) => (Ok items, p)
  | (Err e, p) => (Err e, p <| sp_closed := true |>)
  end.

Definition parser_finish (p : McpSseParser) : Res unit * McpSseParser :=
  if sp_closed p then (Err parser_closed_error, p) else
  let p := p <| sp_closed := true |> in
  if negb (str_is_empty (sp_line p)) && negb (utf8_valid (sp_line p)) then
    (Err (sse_protocol_error "MCP SSE line is not valid UTF-8" "mcp_sse_utf8_invalid"), p)
  else if negb (str_is_empty (sp_line p)) || sp_has_data p || bool_decide (is_Some (sp_event_type p)) then
    (Err (sse_disconnect_error true), p)
  else (Ok tt, p).

(** ** The event stream *)

(** [es_source] is what the reads of the source return before they are cut to
    the buffer; an empty read, or none, is the end. *)
Record McpSseEventStream := MkEventStream {
  es_source : list (Res string);
  es_parser : McpSseParser;
  es_ready : list McpSseItem;
  es_pending_responses : gmap McpJsonRpcMessageId (list McpSseMessage);
  es_pending_peer_messages : list McpSseMessage;
  es_pending_message_count : N;
  es_pending_bytes : N;
  es_limit : N;
  es_ping_count : N;
  es_disconnected : bool
}.
#[export] Instance McpSseEventStream_eta : Eta McpSseEventStream := fun s =>
  MkEventStream (es_source s) (es_parser s) (es_ready s) (es_pending_responses s) (es_pending_peer_messages s)
    (es_pending_message_count s) (es_pending_bytes s) (es_limit s) (es_ping_count s) (es_disconnected s).

Definition from_source (source : list (Res string)) (limit : N) : Res McpSseEventStream :=
  let? parser := parser_new limit in
  Ok {| es_source := source; es_parser := parser; es_ready := []; es_pending_responses := ∅;
        es_pending_peer_messages := []; es_pending_message_count := 0; es_pending_bytes := 0; es_limit := limit;
        es_ping_count := 0; es_disconnected := false |}.

Definition SSE_READ_BUFFER_BYTES : N := 8 * 1024.

Definition opt_len (o : option string) : N := match o with Some s => slen s | None => 0%N end.

Definition retained_message_bytes (m : McpSseMessage) : N :=
  saturating_add usize_max
    (saturating_add usize_max (saturating_add usize_max (slen (sm_data m)) (opt_len (sm_event_id m)))
       (opt_len (sm_event_type m)))
    match sm_request_id m with
    | Some (IdNumber _) => 8
    | Some (IdString s) => slen s
    | None => 0
    end.

Definition retained_item_bytes (i : McpSseItem) : N :=
  match i with Ping => 0 | SseMessage m => retained_message_bytes m end.

(** [next_item]: [reads] is the source, read until an item is ready. *)
Fixpoint next_item_from (reads : list (Res string)) (s : McpSseEventStream) : Res McpSseItem * McpSseEventStream :=
  match es_ready s with
  | item :: ready =>
      let s := s <| es_source := reads |> <| es_ready := ready |> in
      (Ok item, match item with
                | Ping => s <| es_ping_count := saturating_add usize_max (es_ping_count s) 1 |>
                | SseMessage _ => s
                end)
  | [] =>
      if es_disconnected s then (Err (sse_disconnect_error false), s <| es_source := reads |>) else
      match reads with
      | Err e :: r => (Err e, s <| es_source := r |> <| es_disconnected := true |>)
      | Ok chunk :: r =>
          if (SSE_READ_BUFFER_BYTES <? slen chunk)%N then
            (Err (with_provider_code (internal "MCP SSE source returned an invalid length")
                    "mcp_sse_source_length_invalid"), s <| es_source := r |> <| es_disconnected := true |>)
          else if str_is_empty chunk then
            let '(finished, parser) := parser_finish (es_parser s) in
            (match finished with Err e => Err e | Ok _ => Err (sse_disconnect_error false) end,
             s <| es_source := r |> <| es_disconnected := true |> <| es_parser := parser |>)
          else
            match push (es_parser s) chunk with
            | (Ok items, parser) => next_item_from r (s <| es_parser := parser |> <| es_ready := items |>)
            | (Err e, parser) =>
                (Err e, s <| es_source := r |> <| es_disconnected := true |> <| es_parser := parser |>)
            end
      | [] =>
          let '(finished, parser) := parser_finish (es_parser s) in
          (match finished with Err e => Err e | Ok _ => Err (sse_disconnect_error false) end,
           s <| es_source := [] |> <| es_disconnected := true |> <| es_parser := parser |>)
      end
  end.
Definition next_item (s : McpSseEventStream) : Res McpSseItem * McpSseEventStream := next_item_from (es_source s) s.

Definition release_pending (s : McpSseEventStream) (m : McpSseMessage) : McpSseEventStream :=
  s <| es_pending_message_count := (es_pending_message_count s - 1)%N |>
    <| es_pending_bytes := (es_pending_bytes s - retained_message_bytes m)%N |>.

Definition take_response (s : McpSseEventStream) (id : McpJsonRpcMessageId) : option McpSseMessage * McpSseEventStream :=
  match es_pending_responses s !! id with
  | Some (message :: queue) =>
      let responses := match queue with
                       | [] => delete id (es_pending_responses s)
                       | _ => <[id := queue]> (es_pending_responses s)
                       end in
      (Some message, release_pending (s <| es_pending_responses := responses |>) message)
  | _ => (None, s)
  end.

Definition take_peer_message (s : McpSseEventStream) : option McpSseMessage * McpSseEventStream :=
  match es_pending_peer_messages s with
  | [] => (None, s)
  | message :: r => (Some message, release_pending (s <| es_pending_peer_messages := r |>) message)
  end.

Definition is_notification (m : McpSseMessage) : Prop := sm_kind m = Notification.
#[export] Instance is_notification_dec m : Decision (is_notification m).
Proof. unfold is_notification. apply _. Defined.

Definition take_notification (s : McpSseEventStream) : option McpSseMessage * McpSseEventStream :=
  match list_find is_notification (es_pending_peer_messages s) with
  | None => (None, s)
  | Some (position, message) =>
      (Some message,
       release_pending (s <| es_pending_peer_messages := delete position (es_pending_peer_messages s) |>) message)
  end.

Definition buffer_message (s : McpSseEventStream) (m : McpSseMessage) : Res unit * McpSseEventStream :=
  match checked_add usize_max (es_pending_bytes s) (retained_message_bytes m) with
  | None => (Err (sse_limit_error "MCP SSE pending messages overflowed" "mcp_sse_pending_limit" (es_limit s)), s)
  | Some next_bytes =>
      if (es_pending_message_count s =? SSE_PENDING_MESSAGE_LIMIT)%N || (es_limit s <? next_bytes)%N then
        (Err (sse_limit_error "MCP SSE pending messages exceeded limit" "mcp_sse_pending_limit" (es_limit s)), s)
      else
        let s := s <| es_pending_message_count := (es_pending_message_count s + 1)%N |>
                   <| es_pending_bytes := next_bytes |> in
        if decide (sm_kind m = Response) then
          match sm_request_id m with
          | None => (Err (sse_protocol_error "MCP SSE response is missing a request ID" "mcp_sse_response_id_missing"), s)
          | Some id =>
              let queue := default [] (es_pending_responses s !! id) in
              (Ok tt, s <| es_pending_responses := <[id := queue ++ [m]]> (es_pending_responses s) |>)
          end
        else (Ok tt, s <| es_pending_peer_messages := es_pending_peer_messages s ++ [m] |>)
  end.

Definition answers (id : McpJsonRpcMessageId) (m : McpSseMessage) : bool :=
  bool_decide (sm_kind m = Response) && bool_decide (sm_request_id m = Some id).

(** The loop of [next_response]; every round takes an item. *)
Fixpoint await_sse_response (fuel : nat) (s : McpSseEventStream) (id : McpJsonRpcMessageId) :
    Res McpSseMessage * McpSseEventStream :=
  match fuel with
  | O => (Err out_of_fuel, s)
  | S fuel =>
      match next_item s with
      | (Err e, s) => (Err e, s)
      | (Ok Ping, s) => await_sse_response fuel s id
      | (Ok (SseMessage m), s) =>
          if answers id m then (Ok m, s)
          else match buffer_message s m with
               | (Err e, s) => (Err e, s <| es_disconnected := true |>)
               | (Ok _, s) => await_sse_response fuel s id
               end
      end
  end.

(** The bytes the source can still deliver. *)
Definition read_bytes (r : Res string) : nat := match r with Ok chunk => String.length chunk | Err _ => 0 end.
Definition item_budget (s : McpSseEventStream) : nat :=
  length (es_ready s) + sum_list_with read_bytes (es_source s).

Definition next_response (s : McpSseEventStream) (id : McpJsonRpcMessageId) : Res McpSseMessage * McpSseEventStream :=
  match take_response s id with
  | (Some m, s) => (Ok m, s)
  | (None, s) => await_sse_response (S (item_budget s)) s id
  end.
