(* ===== verification/SseParser.v ===== *)
(** * The event-stream parser (crates/eva-mcp/src/sse.rs, McpSseParser)

    The parser's items do not depend on how the bytes are cut into chunks,
    they are the items of the stream's lines, and what the parser holds is
    bounded. *)

From Stdlib Require Import Ascii.
From stdpp Require Import base numbers strings gmap list.
From S2P Require Import Prelude RustStr Error Json McpJsonRpc McpReader Sse.

(** ** Items of a push *)

Definition within_push (items : list McpSseItem) : Prop := (len items <= SSE_ITEMS_PER_PUSH_LIMIT)%N.

Lemma len_app {A} (l1 l2 : list A) : len (l1 ++ l2) = (len l1 + len l2)%N.
Proof. unfold len. rewrite length_app. lia. Qed.

Lemma len_one {A} (x : A) : len [x] = 1%N.
Proof. done. Qed.

Lemma within_nil : within_push [].
Proof. done. Qed.
#[local] Hint Resolve within_nil : core.

(** A computation that only adds items: those already there merely count
    against the limit. *)
Definition shifts (f : list McpSseItem -> Res (list McpSseItem) * McpSseParser) : Prop :=
  forall items r p', within_push items ->
    f items = (Ok r, p') <-> exists new, f [] = (Ok new, p') /\ r = items ++ new /\ within_push r.

Lemma shifts_err e p : shifts (fun _ => (Err e, p)).
Proof. intros items r p' _. split; [done|by intros (? & ? & _)]. Qed.

Lemma shifts_ok p : shifts (fun items => (Ok items, p)).
Proof.
  intros items r p' Hw. split.
  - intros [= <- <-]. exists []. by rewrite app_nil_r.
  - intros (new & [= <- <-] & -> & _). by rewrite app_nil_r.
Qed.

Lemma shifts_then f g : shifts f -> (forall q, shifts (g q)) ->
  shifts (fun items => match f items with (Ok i, q) => g q i | (Err e, q) => (Err e, q) end).
Proof.
  intros Hf Hg items r p' Hw. split.
  - destruct (f items) as [[i|e] q] eqn:E; [|done]. apply Hf in E as (n1 & E1 & -> & Hw1); [|done]. rewrite E1.
    intros H. apply Hg in H as (n2 & E2 & -> & Hw2); [|done]. exists (n1 ++ n2). rewrite app_assoc.
    split_and!; [|done..]. unfold within_push in *. rewrite !len_app in *.
    apply Hg; [unfold within_push; lia|]. exists n2. split_and!; [done..|]. unfold within_push. rewrite len_app. lia.
  - intros (new & H & -> & Hr). destruct (f []) as [[n1|e] q] eqn:E; [|done].
    assert (within_push n1) as Hw1 by (by apply Hf in E as (n & _ & _ & Hn)).
    apply Hg in H as (n2 & E2 & -> & Hw2); [|done].
    assert (f items = (Ok (items ++ n1), q)) as ->.
    { apply Hf; [done|]. exists n1. split_and!; [done..|]. unfold within_push in *. rewrite !len_app in *. lia. }
    apply Hg; [unfold within_push in *; rewrite !len_app in *; lia|]. exists n2. by rewrite <- app_assoc.
Qed.

Lemma emit_line_shifts p : shifts (emit_line p).
Proof.
  unfold emit_line. cbv zeta. destruct (negb _); [apply shifts_err|].
  destruct (process_line _ _) as [[[item|]|e] q]; [|apply shifts_ok|apply shifts_err].
  intros items r p' Hw. unfold within_push in *.
  change (len (@nil McpSseItem) =? SSE_ITEMS_PER_PUSH_LIMIT)%N with false. cbv iota. cbn [app].
  destruct (len items =? SSE_ITEMS_PER_PUSH_LIMIT)%N eqn:El.
  - apply N.eqb_eq in El. split; [done|]. intros (new & [= <- <-] & -> & Hr). rewrite len_app, El, len_one in Hr. lia.
  - apply N.eqb_neq in El. split; [|by intros (new & [= <- <-] & -> & _)].
    intros [= <- <-]. exists [item]. split_and!; [done..|]. rewrite len_app, len_one. lia.
Qed.

Lemma push_bytes_shifts chunk : forall p, shifts (fun items => push_bytes p items chunk).
Proof.
  induction chunk as [|byte chunk IH]; intros p; cbn [push_bytes]; [apply shifts_ok|].
  destruct (sp_skip_lf p && Ascii.eqb byte nl); [apply IH|]. cbv zeta.
  destruct (Ascii.eqb byte cr).
  { apply (shifts_then _ (fun q items => push_bytes (q <| sp_skip_lf := true |>) items chunk)); [apply emit_line_shifts|].
    intros q. apply IH. }
  destruct (Ascii.eqb byte nl).
  { apply (shifts_then _ (fun q items => push_bytes q items chunk)); [apply emit_line_shifts|exact IH]. }
  destruct (_ =? _)%N; [apply shifts_err|apply IH].
Qed.

(** ** Chunks *)

Lemma push_bytes_app a b : forall p items,
  push_bytes p items (a +:+ b) =
  match push_bytes p items a with (Ok i, q) => push_bytes q i b | (Err e, q) => (Err e, q) end.
Proof.
  induction a as [|byte a IH]; intros p items; [done|]. rewrite append_cons. cbn [push_bytes].
  destruct (sp_skip_lf p && Ascii.eqb byte nl); [apply IH|]. cbv zeta.
  destruct (Ascii.eqb byte cr); [by destruct (emit_line _ items) as [[i|e] q]; [apply IH|]|].
  destruct (Ascii.eqb byte nl); [by destruct (emit_line _ items) as [[i|e] q]; [apply IH|]|].
  by destruct (_ =? _)%N; [|apply IH].
Qed.

(** A parser that took its last line break as [\r] stays open. *)
Lemma emit_line_closed p items : sp_closed (emit_line p items).2 = sp_closed p.
Proof.
  unfold emit_line. cbv zeta. destruct (negb _); [done|].
  match goal with |- context [process_line ?q ?l] => assert (sp_closed (process_line q l).2 = sp_closed p) as H end.
  { unfold process_line, dispatch_event, data_field. by repeat case_match; simplify_eq. }
  destruct (process_line _ _) as [[[item|]|e] q]; [|done..]. by destruct (_ =? _)%N.
Qed.

Lemma push_bytes_closed chunk : forall p items, sp_closed (push_bytes p items chunk).2 = sp_closed p.
Proof.
  induction chunk as [|byte chunk IH]; intros p items; [done|]. cbn [push_bytes].
  destruct (sp_skip_lf p && Ascii.eqb byte nl); [exact (IH _ _)|]. cbv zeta.
  pose proof (emit_line_closed (p <| sp_skip_lf := false |>) items) as He.
  destruct (Ascii.eqb byte cr).
  { destruct (emit_line _ items) as [[i|e] q]; [|exact He]. rewrite IH. exact He. }
  destruct (Ascii.eqb byte nl).
  { destruct (emit_line _ items) as [[i|e] q]; [|exact He]. rewrite IH. exact He. }
  destruct (_ =? _)%N; [done|exact (IH _ _)].
Qed.

(** Feeding chunk after chunk, collecting the items. *)
Fixpoint feed (p : McpSseParser) (chunks : list string) : Res (list McpSseItem) * McpSseParser :=
  match chunks with
  | [] => (Ok [], p)
  | chunk :: r =>
      match push p chunk with
      | (Err e, p) => (Err e, p)
      | (Ok i1, p) => match feed p r with (Ok i2, p) => (Ok (i1 ++ i2), p) | (Err e, p) => (Err e, p) end
      end
  end.

Lemma push_open p chunk items p' : sp_closed p = false ->
  push p chunk = (Ok items, p') <-> push_bytes p [] chunk = (Ok items, p').
Proof.
  intros Hc. unfold push, push_inner. rewrite Hc. destruct (push_bytes p [] chunk) as [[i|e] q]; done.
Qed.

Lemma push_app p a b items p' : sp_closed p = false ->
  push p (a +:+ b) = (Ok items, p') <->
  exists i1 q i2, push p a = (Ok i1, q) /\ push q b = (Ok i2, p') /\ items = i1 ++ i2 /\ within_push items.
Proof.
  intros Hc. rewrite push_open by done. rewrite push_bytes_app. split.
  - destruct (push_bytes p [] a) as [[i1|e] q] eqn:Ea; [|done].
    assert (sp_closed q = false) as Hq by (pose proof (push_bytes_closed a p []) as H; by rewrite Ea in H; cbn in H; rewrite H).
    assert (within_push i1) as Hw by (by apply (push_bytes_shifts a p []) in Ea as (n & _ & _ & Hn)).
    intros H. apply (push_bytes_shifts b q) in H as (i2 & E2 & -> & Hr); [|done].
    exists i1, q, i2. split_and!; [by apply push_open|by apply push_open|done..].
  - intros (i1 & q & i2 & Ha & Hb & -> & Hr). apply push_open in Ha; [|done]. rewrite Ha.
    assert (sp_closed q = false) as Hq by (pose proof (push_bytes_closed a p []) as H; by rewrite Ha in H; cbn in H; rewrite H).
    apply push_open in Hb; [|done].
    assert (within_push i1) as Hw by (by apply (push_bytes_shifts a p []) in Ha as (n & _ & _ & Hn)).
    apply (push_bytes_shifts b q); [done|]. by exists i2.
Qed.

Lemma feed_concat chunks : forall p items p', sp_closed p = false ->
  push p (str_concat chunks) = (Ok items, p') <-> feed p chunks = (Ok items, p') /\ within_push items.
Proof.
  induction chunks as [|chunk chunks IH]; intros p items p' Hc.
  - rewrite push_open by done. cbn. split; [by intros [= <- <-]|by intros [[= <- <-] _]].
  - change (str_concat (chunk :: chunks)) with (chunk +:+ str_concat chunks). rewrite push_app by done. cbn [feed].
    assert (forall i1 q, push p chunk = (Ok i1, q) -> sp_closed q = false) as Hq.
    { intros i1 q H. apply push_open in H; [|done]. pose proof (push_bytes_closed chunk p []) as H'.
      rewrite H in H'. cbn in H'. by rewrite H'. }
    split.
    + intros (i1 & q & i2 & H1 & H2 & -> & Hw). apply IH in H2 as [H2 _]; [|by eapply Hq]. by rewrite H1, H2.
    + intros [H Hw]. destruct (push p chunk) as [[i1|e] q] eqn:E1; [|done]. pose proof (Hq _ _ eq_refl) as Hcq.
      destruct (feed q chunks) as [[i2|e] q2] eqn:E2; [|done]. injection H as <- <-.
      exists i1, q, i2. split_and!; [done| |done..]. apply IH; [done|]. split; [done|].
      unfold within_push in *. rewrite len_app in Hw. lia.
Qed.

(** C34: The parser's items do not depend on how the stream is cut: pushing the
    bytes at once succeeds exactly when pushing them chunk by chunk does and
    there are at most 256 items, and then the items and the parser that is
    left are the same. *)
Theorem sse_chunking p chunks items p' :
  sp_closed p = false ->
  push p (str_concat chunks) = (Ok items, p') <-> feed p chunks = (Ok items, p') /\ within_push items.
Proof. apply feed_concat. Qed.

Definition sample_parser : McpSseParser :=
  {| sp_limit := 64; sp_line := ""; sp_data := ""; sp_has_data := false; sp_event_type := None;
     sp_last_event_id := None; sp_retry_ms := None; sp_first_line := true; sp_skip_lf := false; sp_closed := false |}.

Definition sample_event : string := js "data: {'jsonrpc':'2.0','id':7,'result':{}}" +:+ str nl +:+ str nl.

Lemma sse_chunking_witness :
  exists items p',
    push sample_parser (str_concat [": k"; str cr; str nl +:+ sample_event]) = (Ok items, p') /\ len items = 2%N /\
    feed sample_parser [": k"; str cr; str nl +:+ sample_event] = (Ok items, p').
Proof.
  assert (exists items p', push sample_parser (str_concat [": k"; str cr; str nl +:+ sample_event]) = (Ok items, p') /\
    len items = 2%N) as (items & p' & H & Hl) by (eexists _, _; vm_compute; split; reflexivity).
  exists items, p'. split; [exact H|]. split; [exact Hl|].
  apply (sse_chunking sample_parser [": k"; str cr; str nl +:+ sample_event] items p' eq_refl) in H as [H _]. exact H.
Defined.

(** ** Lines *)

(** The stream with every line end as a newline: [\r\n] and [\r] are one. *)
Fixpoint line_ends (skip : bool) (text : string) : string :=
  match text with
  | EmptyString => ""
  | String c r =>
      if skip && Ascii.eqb c nl then line_ends false r
      else if Ascii.eqb c cr then String nl (line_ends true r)
      else String c (line_ends false r)
  end.

(** Whether a newline that comes next belongs to the line end before it. *)
Fixpoint after_cr (skip : bool) (text : string) : bool :=
  match text with EmptyString => skip | String c r => after_cr (Ascii.eqb c cr) r end.

Definition line_too_large (limit : N) : EvaError :=
  sse_limit_error "MCP SSE line exceeded output limit" "mcp_sse_line_too_large" limit.

(** The reference: the complete lines one after the other, the last piece
    waits for its end. *)
Fixpoint parse_lines (p : McpSseParser) (items : list McpSseItem) (pieces : list string) :
    Res (list McpSseItem) * McpSseParser :=
  match pieces with
  | [] => (Ok items, p)
  | [piece] =>
      if (sp_limit p <? slen piece)%N then (Err (line_too_large (sp_limit p)), p <| sp_line := "" |>)
      else (Ok items, p <| sp_line := piece |>)
  | line :: r =>
      if (sp_limit p <? slen line)%N then (Err (line_too_large (sp_limit p)), p <| sp_line := "" |>)
      else match emit_line (p <| sp_line := line |>) items with
           | (Ok items, p) => parse_lines p items r
           | (Err e, p) => (Err e, p)
           end
  end.

(** What the parser keeps besides the line-end flag. *)
Definition same_outcome (skip : bool) (r1 r2 : Res (list McpSseItem) * McpSseParser) : Prop :=
  r1.1 = r2.1 /\ (is_ok r1.1 = true -> r1.2 = r2.2 <| sp_skip_lf := skip |>).

Lemma append_assoc_char (l : string) c t : l +:+ String c t = (l +:+ str c) +:+ t.
Proof. by rewrite <- append_assoc. Qed.

Lemma parse_lines_start p x items piece pieces :
  parse_lines (p <| sp_line := x |>) items (piece :: pieces) = parse_lines p items (piece :: pieces).
Proof. destruct p. by destruct pieces. Qed.

(** Every step keeps the limit and the line-end flag, and [emit_line] starts
    an empty line. *)
Definition keeps (p q : McpSseParser) : Prop :=
  sp_limit q = sp_limit p /\ sp_skip_lf q = sp_skip_lf p /\ sp_line q = sp_line p.

Lemma process_line_keeps p line : keeps p (process_line p line).2.
Proof. unfold process_line, dispatch_event, data_field. by repeat case_match; simplify_eq. Qed.

Lemma emit_line_keeps p items : keeps (p <| sp_line := "" |>) (emit_line p items).2.
Proof.
  unfold emit_line. cbv zeta. destruct (negb _); [done|].
  match goal with |- context [process_line ?q ?l] => pose proof (process_line_keeps q l) as H end.
  destruct (process_line _ _) as [[[item|]|e] q]; [|exact H..]. destruct (_ =? _)%N; exact H.
Qed.

Lemma split_cons (l t : string) : contains_char nl l = false ->
  exists piece pieces, split nl t = piece :: pieces /\ split nl (l +:+ t) = (l +:+ piece) :: pieces.
Proof.
  induction l as [|c l IH]; cbn [contains_char].
  - intros _. destruct (split_unbroken nl "" t eq_refl) as (w & ws & E). rewrite append_nil_l in E. by exists w, ws.
  - intros [Hc Hl]%orb_false_iff. destruct (IH Hl) as (piece & pieces & E1 & E2). exists piece, pieces.
    split; [done|]. rewrite append_cons. cbn [split]. by rewrite Hc, E2.
Qed.

(** A piece that is already too long. *)
Lemma parse_lines_too_long p items l pieces : (sp_limit p < slen l)%N ->
  (parse_lines p items (l :: pieces)).1 = Err (line_too_large (sp_limit p)).
Proof. intros H. cbn [parse_lines]. by destruct pieces; rewrite (proj2 (N.ltb_lt _ _)). Qed.

(** A complete line. *)
Lemma parse_lines_line p items line piece pieces : (slen line <= sp_limit p)%N ->
  parse_lines p items (line :: piece :: pieces) =
  match emit_line (p <| sp_line := line |>) items with
  | (Ok items, p) => parse_lines p items (piece :: pieces)
  | (Err e, p) => (Err e, p)
  end.
Proof. intros H. cbn [parse_lines]. by rewrite (proj2 (N.ltb_ge _ _)). Qed.

Lemma set_line_same p : p <| sp_line := sp_line p |> = p.
Proof. by destruct p. Qed.
Lemma set_skip_same p : sp_skip_lf p = false -> p <| sp_skip_lf := false |> = p.
Proof. destruct p. cbn. by intros ->. Qed.

(** The line ends here, whichever byte ended it. *)
Lemma line_end_outcome p items skip text rest :
  (slen (sp_line p) <= sp_limit p)%N -> contains_char nl (sp_line p) = false -> sp_skip_lf p = false ->
  (forall q items, sp_skip_lf q = false -> sp_line q = "" -> same_outcome (after_cr skip text)
     (push_bytes (q <| sp_skip_lf := skip |>) items text) (parse_lines q items (split nl rest))) ->
  same_outcome (after_cr skip text)
    (match emit_line p items with (Ok i, q) => push_bytes (q <| sp_skip_lf := skip |>) i text | (Err e, q) => (Err e, q) end)
    (parse_lines p items (split nl (sp_line p +:+ String nl rest))).
Proof.
  intros Hl Hn Hs IH. rewrite split_line by done.
  destruct (split_unbroken nl "" rest eq_refl) as (w & ws & E). rewrite append_nil_l in E. rewrite E in *.
  rewrite parse_lines_line by done. rewrite set_line_same. pose proof (emit_line_keeps p items) as (_ & Hks & Hkl).
  destruct (emit_line p items) as [[i|e] q]; [|done]. cbn [snd] in Hks, Hkl. cbn in Hks, Hkl.
  apply IH; [by rewrite Hks|done].
Qed.

Lemma push_bytes_lines text : forall p items skip,
  (slen (sp_line p) <= sp_limit p)%N -> contains_char nl (sp_line p) = false -> sp_skip_lf p = false ->
  same_outcome (after_cr skip text) (push_bytes (p <| sp_skip_lf := skip |>) items text)
    (parse_lines p items (split nl (sp_line p +:+ line_ends skip text))).
Proof.
  induction text as [|c text IH]; intros p items skip Hl Hn Hs; cbn [push_bytes line_ends after_cr].
  - rewrite append_nil_r, split_single by done. cbn [parse_lines]. rewrite (proj2 (N.ltb_ge _ _)) by done.
    by rewrite set_line_same.
  - change (sp_skip_lf (p <| sp_skip_lf := skip |>)) with skip.
    change ((p <| sp_skip_lf := skip |>) <| sp_skip_lf := false |>) with (p <| sp_skip_lf := false |>).
    assert (forall skip q items, sp_skip_lf q = false -> sp_line q = "" -> same_outcome (after_cr skip text)
      (push_bytes (q <| sp_skip_lf := skip |>) items text) (parse_lines q items (split nl (line_ends skip text)))) as IH0.
    { intros b q i Hq Hline. pose proof (IH q i b) as H. rewrite Hline in H. apply H; [apply N.le_0_l|done..]. }
    destruct (skip && Ascii.eqb c nl) eqn:Esk.
    { apply andb_true_iff in Esk as [_ Ec]. apply Ascii.eqb_eq in Ec as ->. by apply IH. }
    rewrite set_skip_same by done. cbv zeta. destruct (Ascii.eqb c cr) eqn:Ecr.
    { apply line_end_outcome; [done..|]. exact (IH0 true). }
    destruct (Ascii.eqb c nl) eqn:Enl.
    { apply Ascii.eqb_eq in Enl as ->.
      assert (match emit_line p items with (Ok i, q) => push_bytes q i text | (Err e, q) => (Err e, q) end =
              match emit_line p items with
              | (Ok i, q) => push_bytes (q <| sp_skip_lf := false |>) i text | (Err e, q) => (Err e, q) end) as ->.
      { pose proof (emit_line_keeps p items) as (_ & Hks & _). destruct (emit_line p items) as [[i|e] q]; [|done].
        cbn in Hks. by rewrite set_skip_same by (by rewrite Hks). }
      apply line_end_outcome; [done..|]. exact (IH0 false). }
    rewrite (append_assoc_char (sp_line p) c). assert (contains_char nl (sp_line p +:+ str c) = false) as Hn'.
    { rewrite contains_char_append, Hn. change (Ascii.eqb nl c || false = false). by rewrite Ascii.eqb_sym, Enl. }
    destruct (split_cons (sp_line p +:+ str c) (line_ends false text) Hn') as (piece & pieces & _ & Esplit).
    destruct (slen (sp_line p) =? sp_limit p)%N eqn:Efull.
    + apply N.eqb_eq in Efull. rewrite Esplit. split; [|done]. rewrite parse_lines_too_long; [done|].
      rewrite !slen_append, <- Efull. unfold slen at 3. cbn. lia.
    + apply N.eqb_neq in Efull. set (q := p <| sp_line := sp_line p +:+ str c |>).
      pose proof (IH q items false) as Hq. change (sp_line q) with (sp_line p +:+ str c) in Hq.
      rewrite Esplit in Hq |- *.
      rewrite (parse_lines_start p (sp_line p +:+ str c) items _ pieces : parse_lines q items _ = _) in Hq.
      assert (push_bytes (q <| sp_skip_lf := false |>) items text = push_bytes q items text) as E.
      { by rewrite set_skip_same. }
      rewrite E in Hq. apply Hq; [|done|done]. rewrite slen_append. change (slen (str c)) with 1%N.
      change (sp_limit q) with (sp_limit p). lia.
Qed.

(** ** What the parser holds *)

Definition parser_ok (p : McpSseParser) : Prop :=
  (slen (sp_line p) <= sp_limit p)%N /\ contains_char nl (sp_line p) = false /\ (slen (sp_data p) <= sp_limit p)%N.

(** An item was parsed from data within the limit. *)
Definition item_ok (limit : N) (i : McpSseItem) : Prop :=
  match i with
  | Ping => True
  | SseMessage m =>
      (slen (sm_data m) <= limit)%N /\ parse_sse_json_rpc_envelope (sm_data m) = Ok (sm_request_id m, sm_kind m)
  end.

Lemma dispatch_event_ok p : parser_ok p ->
  parser_ok (dispatch_event p).2 /\
  forall i, (dispatch_event p).1 = Ok (Some i) -> item_ok (sp_limit p) i.
Proof.
  intros (Hl & Hn & Hd). unfold dispatch_event. destruct (negb (sp_has_data p)); [by split|]. cbv zeta.
  assert (slen "" <= sp_limit p)%N as H0 by apply N.le_0_l.
  destruct (bool_decide _); [by split|]. destruct (parse_sse_json_rpc_envelope (sp_data p)) as [[id kind]|e] eqn:E;
    [|by split]. split; [by split_and!|]. cbn. intros i [= <-]. by split.
Qed.

Lemma data_field_ok p value : parser_ok p -> parser_ok (data_field p value).2.
Proof.
  intros (Hl & Hn & Hd). unfold data_field. destruct (checked_add usize_max (slen (sp_data p)) _) as [n1|] eqn:E1; [|done].
  apply checked_add_Some in E1 as [-> _]. destruct (checked_add usize_max _ (slen value)) as [n2|] eqn:E2; [|done].
  apply checked_add_Some in E2 as [-> _]. destruct (_ <? _)%N eqn:Eb; [done|]. apply N.ltb_ge in Eb.
  split_and!; [done..|]. cbn. destruct (sp_has_data p); rewrite ?slen_append; change (slen (str nl)) with 1%N; lia.
Qed.

Lemma process_line_ok p line : parser_ok p ->
  parser_ok (process_line p line).2 /\
  forall i, (process_line p line).1 = Ok (Some i) -> item_ok (sp_limit p) i.
Proof.
  intros Hp. unfold process_line. destruct (str_is_empty line); [by apply dispatch_event_ok|].
  destruct (head_is ":" line); [split; [done|by intros i [= <-]]|].
  destruct (default _ _) as [field value]. cbv zeta. destruct (String.eqb field "data").
  { pose proof (data_field_ok p (strip_space value) Hp) as H. destruct (data_field p (strip_space value)) as [[]]; done. }
  destruct (String.eqb field "event"); [done|]. destruct (_ && _); [done|]. destruct (_ && _); [|done].
  by destruct (parse_unsigned u64_max (strip_space value)).
Qed.

Definition items_ok (limit : N) (items : list McpSseItem) : Prop := Forall (item_ok limit) items.

Lemma emit_line_ok p items : parser_ok p -> items_ok (sp_limit p) items ->
  parser_ok (emit_line p items).2 /\ sp_limit (emit_line p items).2 = sp_limit p /\
  forall r, (emit_line p items).1 = Ok r -> items_ok (sp_limit p) r.
Proof.
  intros (Hl & Hn & Hd) Hi. pose proof (emit_line_keeps p items) as (Hlim & _ & _).
  assert (forall x y : Prop, x /\ y -> x /\ sp_limit (emit_line p items).2 = sp_limit p /\ y) as Hgoal by (by intros ? ? [? ?]).
  apply Hgoal. clear Hgoal Hlim. unfold emit_line. cbv zeta. set (p0 := (p <| sp_line := "" |>) <| sp_first_line := false |>).
  assert (parser_ok p0) as Hp0 by (split_and!; [apply N.le_0_l|done|exact Hd]).
  destruct (negb _); [by split|].
  match goal with |- context [process_line p0 ?l] => destruct (process_line_ok p0 l Hp0) as [Hok Hitem];
    destruct (process_line p0 l) as [[[item|]|e] q] end; cbn [fst snd] in *; [|by split; [|intros r [= <-]]|done].
  destruct (_ =? _)%N; [done|]. cbn. split; [done|]. intros r [= <-]. apply Forall_snoc.
  split; [done|]. exact (Hitem item eq_refl).
Qed.

Lemma push_bytes_ok chunk : forall p limit items, sp_limit p = limit -> parser_ok p -> items_ok limit items ->
  parser_ok (push_bytes p items chunk).2 /\ sp_limit (push_bytes p items chunk).2 = limit /\
  forall r, (push_bytes p items chunk).1 = Ok r -> items_ok limit r.
Proof.
  induction chunk as [|byte chunk IH]; intros p limit items Hlim Hp Hi; cbn [push_bytes].
  { split_and!; [done..|]. by intros r [= <-]. }
  destruct (sp_skip_lf p && Ascii.eqb byte nl); [by apply IH|]. cbv zeta. set (p0 := p <| sp_skip_lf := false |>).
  assert (parser_ok p0) as Hp0 by exact Hp. assert (sp_limit p0 = limit) as Hlim0 by exact Hlim.
  destruct (emit_line_ok p0 items Hp0) as (H1 & H2 & H3); [by rewrite Hlim0|]. rewrite Hlim0 in H2, H3.
  destruct (Ascii.eqb byte cr); [destruct (emit_line p0 items) as [[i|e] q]; cbn [fst snd] in *; [by apply IH; auto|done]|].
  destruct (Ascii.eqb byte nl) eqn:Enl;
    [destruct (emit_line p0 items) as [[i|e] q]; cbn [fst snd] in *; [by apply IH; auto|done]|].
  destruct (slen (sp_line p0) =? sp_limit p0)%N eqn:Efull; [done|]. apply N.eqb_neq in Efull.
  destruct Hp0 as (Hl & Hn & Hd). apply IH; [done| |done]. split_and!; [| |done]; cbn.
  - rewrite slen_append. change (slen (str byte)) with 1%N. cbn in Hl, Efull. lia.
  - cbn in Hn. rewrite contains_char_append, Hn. change (Ascii.eqb nl byte || false = false).
    by rewrite Ascii.eqb_sym, Enl.
Qed.

Lemma push_ok p chunk : parser_ok p ->
  parser_ok (push p chunk).2 /\ sp_limit (push p chunk).2 = sp_limit p /\
  forall items, (push p chunk).1 = Ok items -> items_ok (sp_limit p) items.
Proof.
  intros Hp. unfold push, push_inner. destruct (sp_closed p); [by split_and!|].
  destruct (push_bytes_ok chunk p (sp_limit p) [] eq_refl Hp) as (H1 & H2 & H3); [constructor|].
  destruct (push_bytes p [] chunk) as [[items|e] q]; cbn [fst snd] in *; by split_and!.
Qed.

(** The parser computes the items of the stream's lines: cut at [\n],
    [\r] or [\r\n], with the unfinished line kept for the next chunk, each
    complete line within the limit is processed in order and the first line
    beyond the limit, or the first line that fails, ends the stream. *)
Theorem sse_lines p chunk :
  parser_ok p -> sp_closed p = false ->
  let pieces := split nl (sp_line p +:+ line_ends (sp_skip_lf p) chunk) in
  let reference := parse_lines (p <| sp_skip_lf := false |>) [] pieces in
  (push p chunk).1 = reference.1 /\
  (is_ok (push p chunk).1 = true ->
   (push p chunk).2 = reference.2 <| sp_skip_lf := after_cr (sp_skip_lf p) chunk |>).
Proof.
  intros (Hl & Hn & _) Hc. cbv zeta. unfold push, push_inner. rewrite Hc.
  destruct (push_bytes_lines chunk (p <| sp_skip_lf := false |>) [] (sp_skip_lf p)) as [H1 H2]; [done..|].
  assert ((p <| sp_skip_lf := false |>) <| sp_skip_lf := sp_skip_lf p |> = p) as E by (by destruct p). rewrite E in H1, H2.
  change (sp_line (p <| sp_skip_lf := false |>)) with (sp_line p) in H1, H2.
  destruct (push_bytes p [] chunk) as [[items|e] q]; cbn [fst snd] in *; (split; [exact H1|]); [exact H2|done].
Qed.

Lemma sse_lines_witness :
  exists items, (push sample_parser (str cr +:+ str nl +:+ sample_event)).1 = Ok items /\
    (parse_lines sample_parser [] (split nl (line_ends false (str cr +:+ str nl +:+ sample_event)))).1 = Ok items /\
    len items = 1%N.
Proof.
  assert (exists items, (push sample_parser (str cr +:+ str nl +:+ sample_event)).1 = Ok items /\ len items = 1%N)
    as (items & H & Hl) by (eexists; vm_compute; split; reflexivity).
  exists items. split; [exact H|]. split; [|exact Hl].
  destruct (sse_lines sample_parser (str cr +:+ str nl +:+ sample_event)) as [E _].
  - split; [vm_compute; discriminate|]. split; [reflexivity|vm_compute; discriminate].
  - reflexivity.
  - rewrite H in E. symmetry. exact E.
Defined.
