(* ===== verification/SseStream.v ===== *)
(** * The event stream (crates/eva-mcp/src/sse.rs, McpSseEventStream)

    The stream keeps account of the messages it holds back, loses and invents
    none, and answers a request with a response to that request. *)

From Stdlib Require Import Ascii.
From stdpp Require Import base numbers strings gmap list.
From S2P Require Import Prelude RustStr Error Json McpJsonRpc McpReader Sse SseParser.

(** ** The messages held back *)

Definition queued (m : gmap McpJsonRpcMessageId (list McpSseMessage)) : list McpSseMessage :=
  concat (map_to_list m).*2.

Definition pending (s : McpSseEventStream) : list McpSseMessage :=
  es_pending_peer_messages s ++ queued (es_pending_responses s).

Definition total_retained (l : list McpSseMessage) : N := foldr (fun m n => retained_message_bytes m + n)%N 0%N l.

#[export] Instance total_retained_proper : Proper (Permutation ==> eq) total_retained.
Proof.
  induction 1 as [|m l l' _ IH|m1 m2 l|l1 l2 l3 _ IH1 _ IH2]; cbn [total_retained foldr]; [done| |lia|congruence].
  unfold total_retained in IH. by rewrite IH.
Qed.

Lemma total_cons m l : total_retained (m :: l) = (retained_message_bytes m + total_retained l)%N.
Proof. done. Qed.

Lemma queued_lookup m id q : m !! id = Some q -> queued m ≡ₚ q ++ queued (delete id m).
Proof. intros H. unfold queued. rewrite <- (map_to_list_delete m id q H). done. Qed.

Lemma queued_insert m id q : queued (<[id := q]> m) ≡ₚ q ++ queued (delete id m).
Proof.
  unfold queued. rewrite <- insert_delete_eq. rewrite map_to_list_insert by apply lookup_delete_eq. done.
Qed.

Lemma queued_delete m id : m !! id = None -> queued (delete id m) = queued m.
Proof. intros H. by rewrite delete_id. Qed.

(** ** The invariant *)

Definition accounted (s : McpSseEventStream) : Prop :=
  es_pending_message_count s = len (pending s) /\ es_pending_bytes s = total_retained (pending s).

Definition within_limits (s : McpSseEventStream) : Prop :=
  (es_pending_message_count s <= SSE_PENDING_MESSAGE_LIMIT)%N /\ (es_pending_bytes s <= es_limit s)%N.

(** A queue holds responses to its request; the other messages are none. *)
Definition sorted_by_request (s : McpSseEventStream) : Prop :=
  (forall id q, es_pending_responses s !! id = Some q -> q <> [] /\ Forall (fun m => answers id m = true) q) /\
  Forall (fun m => sm_kind m <> Response) (es_pending_peer_messages s).

Definition stream_ok (s : McpSseEventStream) : Prop :=
  parser_ok (es_parser s) /\ sp_limit (es_parser s) = es_limit s /\ items_ok (es_limit s) (es_ready s) /\
  accounted s /\ within_limits s /\ sorted_by_request s.

(** What the parser and the source do not touch. *)
Definition same_pending (s s' : McpSseEventStream) : Prop :=
  es_pending_responses s' = es_pending_responses s /\ es_pending_peer_messages s' = es_pending_peer_messages s /\
  es_pending_message_count s' = es_pending_message_count s /\ es_pending_bytes s' = es_pending_bytes s /\
  es_limit s' = es_limit s.

(** The stream after a read: only the source, the parser, the items that are
    ready, the ping count and the connection may change. *)
Definition replaced (s : McpSseEventStream) (source : list (Res string)) (parser : McpSseParser)
    (ready : list McpSseItem) (pings : N) (gone : bool) : McpSseEventStream :=
  MkEventStream source parser ready (es_pending_responses s) (es_pending_peer_messages s)
    (es_pending_message_count s) (es_pending_bytes s) (es_limit s) pings gone.

Lemma replaced_ok s source parser ready pings gone :
  stream_ok s -> parser_ok parser -> sp_limit parser = es_limit s -> items_ok (es_limit s) ready ->
  stream_ok (replaced s source parser ready pings gone).
Proof. intros (_ & _ & _ & Ha & Hw & Hs) H1 H2 H3. exact (conj H1 (conj H2 (conj H3 (conj Ha (conj Hw Hs))))). Qed.

Lemma parser_finish_ok p : parser_ok p -> parser_ok (parser_finish p).2 /\ sp_limit (parser_finish p).2 = sp_limit p.
Proof.
  intros H. unfold parser_finish. destruct (sp_closed p); [done|]. cbv zeta. destruct (_ && _); [done|].
  by destruct (_ || _ || _).
Qed.

Lemma next_item_ok reads : forall s, stream_ok s ->
  same_pending s (next_item_from reads s).2 /\ stream_ok (next_item_from reads s).2 /\
  forall i, (next_item_from reads s).1 = Ok i -> item_ok (es_limit s) i.
Proof.
  induction reads as [|read reads IH]; intros s Hs; pose proof Hs as (Hp & Hlim & Hready & _);
    pose proof (fun source q gone Hq1 Hq2 =>
      replaced_ok s source q (es_ready s) (es_ping_count s) gone Hs Hq1 Hq2 Hready) as Hkept;
    pose proof (parser_finish_ok (es_parser s) Hp) as [Hf1 Hf2]; rewrite Hlim in Hf2;
    cbn [next_item_from]; destruct (es_ready s) as [|item ready] eqn:Er.
  2, 4: inversion Hready as [|? ? Hitem Hrest]; subst; destruct item;
    (split_and!; [done|exact (replaced_ok s _ _ _ _ _ Hs Hp Hlim Hrest)|by intros i [= <-]]).
  - destruct (es_disconnected s) eqn:Ed; [split_and!; [done|by rewrite <- Er in Hkept; apply Hkept|done]|].
    destruct (parser_finish (es_parser s)) as [finished q]. cbn [fst snd] in *.
    split_and!; [done|by rewrite <- Er in Hkept; apply Hkept|by destruct finished].
  - rewrite <- Er in Hkept. destruct (es_disconnected s) eqn:Ed; [split_and!; [done|by apply Hkept|done]|].
    destruct read as [chunk|e]; [|split_and!; [done|by apply Hkept|done]].
    destruct (_ <? _)%N; [split_and!; [done|by apply Hkept|done]|]. destruct (str_is_empty chunk).
    { destruct (parser_finish (es_parser s)) as [finished q]. cbn [fst snd] in *.
      split_and!; [done|by apply Hkept|by destruct finished]. }
    pose proof (push_ok (es_parser s) chunk Hp) as (Hq1 & Hq2 & Hq3). rewrite Hlim in Hq2, Hq3.
    destruct (push (es_parser s) chunk) as [[items|e] q]; cbn [fst snd] in *; [|split_and!; [done|by apply Hkept|done]].
    refine (IH (replaced s (es_source s) q items (es_ping_count s) (es_disconnected s)) _).
    apply replaced_ok; [done..|]. exact (Hq3 items eq_refl).
Qed.

(** ** Holding messages back and handing them out *)

Lemma response_has_id limit m : item_ok limit (SseMessage m) -> sm_kind m = Response -> exists id, sm_request_id m = Some id.
Proof.
  intros [_ H] Hk. unfold parse_sse_json_rpc_envelope in H. rewrite Hk in H.
  destruct (parse_json_object_fields (sm_data m)) as [fields|]; [|done].
  destruct (transpose parse_json_string (fields !! "jsonrpc")) as [version|]; [|done]. apply reject_Ok in H as [_ H].
  destruct (transpose parse_sse_json_rpc_id (fields !! "id")) as [id|]; [|done].
  destruct (transpose parse_json_string (fields !! "method")) as [method|]; [|done]. apply reject_Ok in H as [_ H].
  cbv zeta in H. destruct id as [id|]; [|by repeat case_match]. exists id. by repeat case_match; simplify_eq.
Qed.

(** The pending messages changed by a permutation-invariant account. *)
Lemma accounted_as s l : pending s ≡ₚ l ->
  es_pending_message_count s = len l -> es_pending_bytes s = total_retained l -> accounted s.
Proof. intros Hp Hc Hb. unfold accounted, len in *. by rewrite Hp. Qed.

Lemma buffer_message_ok s m : stream_ok s -> item_ok (es_limit s) (SseMessage m) ->
  stream_ok (buffer_message s m).2 /\ es_limit (buffer_message s m).2 = es_limit s /\
  (is_ok (buffer_message s m).1 = true -> pending (buffer_message s m).2 ≡ₚ m :: pending s).
Proof.
  intros Hs Hm. pose proof Hs as (Hp & Hlim & Hready & [Hcount Hbytes] & [Hw1 Hw2] & [Hsort1 Hsort2]).
  unfold buffer_message. destruct (checked_add usize_max _ _) as [next_bytes|] eqn:Ea; [|done].
  apply checked_add_Some in Ea as [-> _]. destruct (_ || _) eqn:Efull; [done|].
  apply orb_false_iff in Efull as [Ec Eb]. apply N.eqb_neq in Ec. apply N.ltb_ge in Eb.
  assert (forall s', pending s' ≡ₚ m :: pending s -> es_pending_message_count s' = (es_pending_message_count s + 1)%N ->
    es_pending_bytes s' = (es_pending_bytes s + retained_message_bytes m)%N -> es_limit s' = es_limit s ->
    accounted s' /\ within_limits s') as Hgrown.
  { intros s' Hperm Hc' Hb' Hl'. split; [|unfold within_limits; rewrite Hc', Hb', Hl'; lia].
    apply (accounted_as _ _ Hperm); [rewrite Hc', Hcount; unfold len; cbn; lia|rewrite Hb', Hbytes, total_cons; lia]. }
  cbv zeta. destruct (decide (sm_kind m = Response)) as [Hk|Hk].
  - destruct (response_has_id _ _ Hm Hk) as [id Hid]. rewrite Hid. cbn [fst snd].
    match goal with |- stream_ok ?x /\ _ => set (s' := x) end.
    assert (pending s' ≡ₚ m :: pending s) as Hperm.
    { unfold pending. cbn. rewrite queued_insert. destruct (es_pending_responses s !! id) as [q|] eqn:Eq; cbn [default].
      - rewrite (queued_lookup _ _ _ Eq). solve_Permutation.
      - rewrite queued_delete by done. solve_Permutation. }
    destruct (Hgrown s' Hperm) as [Ha Hw]; [done..|]. split; [|by split].
    split_and!; [done..|exact Ha|exact Hw|]. split; [|done]. cbn. intros id' q' Hq'.
    destruct (decide (id' = id)) as [->|Hne].
    + rewrite lookup_insert_eq in Hq'. injection Hq' as <-. split; [by destruct (default _ _)|].
      apply Forall_snoc. split.
      * destruct (es_pending_responses s !! id) as [q|] eqn:Eq; [|constructor]. by apply (Hsort1 id q).
      * unfold answers. by rewrite Hk, Hid, !bool_decide_eq_true_2.
    + rewrite lookup_insert_ne in Hq' by done. by apply Hsort1.
  - cbn [fst snd]. match goal with |- stream_ok ?x /\ _ => set (s' := x) end.
    assert (pending s' ≡ₚ m :: pending s) as Hperm by (unfold pending; cbn; solve_Permutation).
    destruct (Hgrown s' Hperm) as [Ha Hw]; [done..|]. split; [|by split].
    split_and!; [done..|exact Ha|exact Hw|]. split; [done|]. cbn. by apply Forall_snoc.
Qed.

(** A message leaves the account. *)
Lemma release_ok s s1 m : accounted s -> within_limits s -> pending s ≡ₚ m :: pending s1 ->
  es_pending_message_count s1 = es_pending_message_count s -> es_pending_bytes s1 = es_pending_bytes s ->
  es_limit s1 = es_limit s ->
  accounted (release_pending s1 m) /\ within_limits (release_pending s1 m).
Proof.
  intros [Hc Hb] [Hw1 Hw2] Hperm Hc1 Hb1 Hl1. unfold len in Hc. rewrite Hperm in Hc, Hb. rewrite total_cons in Hb. cbn in Hc.
  split; [|unfold within_limits; cbn; rewrite Hc1, Hb1, Hl1; lia].
  apply (accounted_as _ (pending s1)); [done|cbn; rewrite Hc1, Hc; unfold len; lia|cbn; rewrite Hb1, Hb; lia].
Qed.

Lemma take_response_ok s id : stream_ok s ->
  stream_ok (take_response s id).2 /\
  match (take_response s id).1 with
  | Some m => answers id m = true /\ pending s ≡ₚ m :: pending (take_response s id).2
  | None => (take_response s id).2 = s /\ es_pending_responses s !! id = None
  end.
Proof.
  intros Hs. pose proof Hs as (Hp & Hlim & Hready & Ha & Hw & [Hsort1 Hsort2]).
  unfold take_response. destruct (es_pending_responses s !! id) as [[|m q]|] eqn:Eq; [by destruct (Hsort1 id [] Eq)| |done].
  destruct (Hsort1 id _ Eq) as [_ Hq]. inversion Hq as [|? ? Hm Hrest]; subst. cbn [fst snd].
  match goal with |- context [release_pending ?x m] => set (s1 := x) end.
  assert (pending s ≡ₚ m :: pending s1) as Hperm.
  { unfold pending. cbn. rewrite (queued_lookup _ _ _ Eq). destruct q as [|m' q].
    - solve_Permutation.
    - rewrite queued_insert. solve_Permutation. }
  destruct (release_ok s s1 m Ha Hw Hperm) as [Ha' Hw']; [done..|]. split; [|by split].
  split_and!; [done..|exact Ha'|exact Hw'|]. split; [|done]. cbn. intros id' q' Hq'. destruct q as [|m' q].
  - apply lookup_delete_Some in Hq' as [_ Hq']. by apply Hsort1.
  - destruct (decide (id' = id)) as [->|Hne].
    + rewrite lookup_insert_eq in Hq'. injection Hq' as <-. done.
    + rewrite lookup_insert_ne in Hq' by done. by apply Hsort1.
Qed.

Lemma take_peer_ok s : stream_ok s ->
  stream_ok (take_peer_message s).2 /\
  match (take_peer_message s).1 with
  | Some m => sm_kind m <> Response /\ pending s ≡ₚ m :: pending (take_peer_message s).2
  | None => (take_peer_message s).2 = s /\ es_pending_peer_messages s = []
  end.
Proof.
  intros Hs. pose proof Hs as (Hp & Hlim & Hready & Ha & Hw & [Hsort1 Hsort2]).
  unfold take_peer_message. destruct (es_pending_peer_messages s) as [|m r] eqn:Er; [done|].
  inversion Hsort2 as [|? ? Hm Hrest]; subst. cbn [fst snd].
  match goal with |- context [release_pending ?x m] => set (s1 := x) end.
  assert (pending s ≡ₚ m :: pending s1) as Hperm by (unfold pending; cbn; by rewrite Er).
  destruct (release_ok s s1 m Ha Hw Hperm) as [Ha' Hw']; [done..|]. split; [|by split].
  split_and!; [done..|exact Ha'|exact Hw'|]. split; [exact Hsort1|exact Hrest].
Qed.

Lemma take_notification_ok s : stream_ok s ->
  stream_ok (take_notification s).2 /\
  match (take_notification s).1 with
  | Some m => sm_kind m = Notification /\ pending s ≡ₚ m :: pending (take_notification s).2
  | None => (take_notification s).2 = s /\ Forall (fun m => sm_kind m <> Notification) (es_pending_peer_messages s)
  end.
Proof.
  intros Hs. pose proof Hs as (Hp & Hlim & Hready & Ha & Hw & [Hsort1 Hsort2]).
  unfold take_notification. destruct (list_find is_notification (es_pending_peer_messages s)) as [[i m]|] eqn:Ef;
    [|split; [done|]; split; [done|]; by apply list_find_None in Ef].
  apply list_find_Some in Ef as (Hi & Hm & _). cbn [fst snd].
  match goal with |- context [release_pending ?x m] => set (s1 := x) end.
  assert (pending s ≡ₚ m :: pending s1) as Hperm.
  { unfold pending. cbn. rewrite app_comm_cons. apply Permutation_app; [|done]. by apply delete_Permutation. }
  destruct (release_ok s s1 m Ha Hw Hperm) as [Ha' Hw']; [done..|]. split; [|by split].
  split_and!; [done..|exact Ha'|exact Hw'|]. split; [exact Hsort1|]. cbn. by apply Forall_delete.
Qed.

(** ** Reading *)

Lemma emit_line_length p items r : (emit_line p items).1 = Ok r -> length r <= S (length items).
Proof.
  unfold emit_line. cbv zeta. destruct (negb _); [done|].
  destruct (process_line _ _) as [[[item|]|e] q]; [|intros [= <-]; lia|done].
  destruct (_ =? _)%N; [done|]. cbn. intros [= <-]. rewrite length_app. cbn. lia.
Qed.

(** Every item takes a byte of the stream. *)
Lemma push_bytes_length chunk : forall p items r,
  (push_bytes p items chunk).1 = Ok r -> length r <= length items + String.length chunk.
Proof.
  induction chunk as [|byte chunk IH]; intros p items r; cbn [push_bytes String.length]; [intros [= <-]; lia|].
  destruct (_ && _); [intros H; apply IH in H; lia|]. cbv zeta.
  pose proof (emit_line_length (p <| sp_skip_lf := false |>) items) as He.
  destruct (Ascii.eqb byte cr); [|destruct (Ascii.eqb byte nl)].
  1, 2: destruct (emit_line _ items) as [[i|e] q]; [|done]; intros H; apply IH in H; specialize (He i eq_refl); lia.
  destruct (_ =? _)%N; [done|]. intros H. apply IH in H. lia.
Qed.

Lemma push_length p chunk items p' : push p chunk = (Ok items, p') -> length items <= String.length chunk.
Proof.
  unfold push, push_inner. destruct (sp_closed p); [done|]. pose proof (push_bytes_length chunk p [] items) as H.
  destruct (push_bytes p [] chunk) as [[i|e] q]; [|done]. intros [= <- _]. exact (H eq_refl).
Qed.

(** An item comes from those that are ready or from what is read next, in
    order. *)
Lemma next_item_reads reads : forall s i s', next_item_from reads s = (Ok i, s') ->
  exists chunks parsed, reads = (Ok <$> chunks) ++ es_source s' /\
    feed (es_parser s) chunks = (Ok parsed, es_parser s') /\ es_ready s ++ parsed = i :: es_ready s' /\
    length (es_ready s') + sum_list_with read_bytes (es_source s') <
    length (es_ready s) + sum_list_with read_bytes reads.
Proof.
  induction reads as [|read reads IH]; intros s i s'; cbn [next_item_from];
    destruct (es_ready s) as [|item ready] eqn:Er.
  2, 4: destruct item; intros [= <- <-]; exists [], []; (split_and!; [done|done|by rewrite app_nil_r|cbn; lia]).
  - destruct (es_disconnected s); [done|]. by destruct (parser_finish (es_parser s)) as [[?|?] ?].
  - destruct (es_disconnected s); [done|]. destruct read as [chunk|e]; [|done]. destruct (_ <? _)%N; [done|].
    destruct (str_is_empty chunk); [by destruct (parser_finish (es_parser s)) as [[?|?] ?]|].
    destruct (push (es_parser s) chunk) as [[items|e] q] eqn:Ep; [|done]. apply push_length in Ep as Hlen.
    intros H. apply IH in H as (chunks & parsed & -> & Hfeed & Hready & Hless). cbn in Hfeed, Hready, Hless.
    exists (chunk :: chunks), (items ++ parsed). split_and!; [done|cbn [feed]; by rewrite Ep, Hfeed|done|].
    cbn. lia.
Qed.

(** A failed read leaves the stream disconnected. *)
Lemma next_item_Err reads : forall s e s', next_item_from reads s = (Err e, s') -> es_disconnected s' = true.
Proof.
  induction reads as [|read reads IH]; intros s e s'; cbn [next_item_from];
    destruct (es_ready s) as [|item ready]; try done.
  - destruct (es_disconnected s) eqn:Ed; [by intros [= _ <-]|]. destruct (parser_finish (es_parser s)). by intros [= _ <-].
  - destruct (es_disconnected s) eqn:Ed; [by intros [= _ <-]|]. destruct read as [chunk|e']; [|by intros [= _ <-]].
    destruct (_ <? _)%N; [by intros [= _ <-]|].
    destruct (str_is_empty chunk); [destruct (parser_finish (es_parser s)); by intros [= _ <-]|].
    destruct (push (es_parser s) chunk) as [[items|e'] q]; [apply IH|by intros [= _ <-]].
Qed.

Definition messages (items : list McpSseItem) : list McpSseMessage :=
  omap (fun i => match i with SseMessage m => Some m | Ping => None end) items.

(** All the messages the stream has parsed and not handed out. *)
Definition held (s : McpSseEventStream) : list McpSseMessage := messages (es_ready s) ++ pending s.

(** The stream read [chunks] and parsed [items] from them. *)
Definition read_on (s s' : McpSseEventStream) (chunks : list string) (items : list McpSseItem) : Prop :=
  es_source s = (Ok <$> chunks) ++ es_source s' /\ feed (es_parser s) chunks = (Ok items, es_parser s').

Lemma feed_app p c1 : forall c2 i1 p1 i2 p2, feed p c1 = (Ok i1, p1) -> feed p1 c2 = (Ok i2, p2) ->
  feed p (c1 ++ c2) = (Ok (i1 ++ i2), p2).
Proof.
  revert p. induction c1 as [|c c1 IH]; intros p c2 i1 p1 i2 p2; cbn [feed app].
  - by intros [= <- <-] ->.
  - destruct (push p c) as [[i|e] q]; [|done]. destruct (feed q c1) as [[i'|e] q'] eqn:E; [|done].
    intros [= <- <-] H2. rewrite (IH _ _ _ _ _ _ E H2). by rewrite app_assoc.
Qed.

Lemma read_on_trans s1 s2 s3 c1 i1 c2 i2 :
  read_on s1 s2 c1 i1 -> read_on s2 s3 c2 i2 -> read_on s1 s3 (c1 ++ c2) (i1 ++ i2).
Proof.
  intros [Hs1 Hf1] [Hs2 Hf2]. split; [by rewrite Hs1, Hs2, fmap_app, app_assoc|by eapply feed_app].
Qed.

Lemma messages_app l1 l2 : messages (l1 ++ l2) = messages l1 ++ messages l2.
Proof. apply omap_app. Qed.

(** What a stream that is left by buffering shares with the one before. *)
Lemma buffer_message_reading s m :
  es_source (buffer_message s m).2 = es_source s /\ es_parser (buffer_message s m).2 = es_parser s /\
  es_ready (buffer_message s m).2 = es_ready s.
Proof. unfold buffer_message. by repeat case_match. Qed.

Lemma await_response_spec fuel : forall s id, item_budget s < fuel -> stream_ok s ->
  stream_ok (await_sse_response fuel s id).2 /\
  match (await_sse_response fuel s id).1 with
  | Ok m => answers id m = true /\ exists chunks items,
      read_on s (await_sse_response fuel s id).2 chunks items /\
      held s ++ messages items ≡ₚ m :: held (await_sse_response fuel s id).2
  | Err _ => es_disconnected (await_sse_response fuel s id).2 = true
  end.
Proof.
  induction fuel as [|fuel IH]; intros s id Hf Hs; [lia|]. cbn [await_sse_response]. unfold next_item.
  pose proof (next_item_ok (es_source s) s Hs) as ((Hr & Hpe & _ & _ & Hl) & Hs1 & Hitem).
  destruct (next_item_from (es_source s) s) as [[i|e] s1] eqn:En; [|split; [done|by eapply next_item_Err]].
  pose proof (next_item_reads _ _ _ _ En) as (chunks & parsed & Hsrc & Hfeed & Hready & Hless).
  cbn [fst snd] in *. specialize (Hitem i eq_refl).
  assert (read_on s s1 chunks parsed) as Hread by done. assert (pending s1 = pending s) as Hpend.
  { unfold pending. by rewrite Hr, Hpe. }
  assert (messages (es_ready s) ++ messages parsed = messages (i :: es_ready s1)) as Hmsgs.
  { by rewrite <- messages_app, Hready. }
  assert (item_budget s1 < fuel) as Hf1 by (unfold item_budget in *; lia).
  assert (forall s2 s3, es_source s2 = es_source s1 -> es_parser s2 = es_parser s1 ->
    forall items chunks', read_on s2 s3 chunks' items -> read_on s s3 (chunks ++ chunks') (parsed ++ items)) as Hgo.
  { intros s2 s3 E1 E2 items chunks' [H1 H2]. eapply read_on_trans; [exact Hread|].
    split; [by rewrite <- E1|by rewrite <- E2]. }
  destruct i as [|m].
  - destruct (IH s1 id Hf1 Hs1) as [Hok Hres]. split; [done|].
    destruct (await_sse_response fuel s1 id) as [[m|e] s2]; cbn [fst snd] in *; [|done].
    destruct Hres as (Hans & chunks' & items & Hro & Hperm). split; [done|].
    eexists _, _. split; [by eapply (Hgo s1)|]. rewrite messages_app, <- Hperm. unfold held. rewrite Hpend.
    change (messages (Ping :: es_ready s1)) with (messages (es_ready s1)) in Hmsgs. rewrite <- Hmsgs. solve_Permutation.
  - change (messages (SseMessage m :: es_ready s1)) with (m :: messages (es_ready s1)) in Hmsgs.
    destruct (answers id m) eqn:Ea.
    + cbn [fst snd]. split; [done|]. split; [done|]. exists chunks, parsed. split; [done|]. unfold held. rewrite Hpend.
      rewrite app_comm_cons, <- Hmsgs. solve_Permutation.
    + pose proof (buffer_message_ok s1 m Hs1) as (Hs2 & _ & Hp2); [by rewrite Hl|].
      pose proof (buffer_message_reading s1 m) as (E1 & E2 & E3).
      destruct (buffer_message s1 m) as [[[]|e] s2]; cbn [fst snd] in *; [|split; [exact Hs2|done]].
      specialize (Hp2 eq_refl). destruct (IH s2 id) as [Hok Hres]; [unfold item_budget in *; by rewrite E1, E3|done|].
      split; [done|]. destruct (await_sse_response fuel s2 id) as [[m'|e] s3]; cbn [fst snd] in *; [|done].
      destruct Hres as (Hans & chunks' & items & Hro & Hperm). split; [done|].
      eexists _, _. split; [by eapply (Hgo s2)|]. rewrite messages_app, <- Hperm. unfold held. rewrite Hp2, E3, Hpend.
      transitivity ((m :: messages (es_ready s1)) ++ pending s ++ messages items); [rewrite <- Hmsgs|]; solve_Permutation.
Qed.

(** ** Properties *)

Inductive stream_step : McpSseEventStream -> McpSseEventStream -> Prop :=
| step_next_item s : stream_step s (next_item s).2
| step_next_response s id : stream_step s (next_response s id).2
| step_take_response s id : stream_step s (take_response s id).2
| step_take_peer s : stream_step s (take_peer_message s).2
| step_take_notification s : stream_step s (take_notification s).2.

Lemma next_response_spec s id : stream_ok s ->
  stream_ok (next_response s id).2 /\
  match (next_response s id).1 with
  | Ok m => answers id m = true /\ exists chunks items,
      read_on s (next_response s id).2 chunks items /\ held s ++ messages items ≡ₚ m :: held (next_response s id).2
  | Err _ => es_disconnected (next_response s id).2 = true
  end.
Proof.
  intros Hs. unfold next_response. pose proof (take_response_ok s id Hs) as [Hs1 Ht].
  assert (es_source (take_response s id).2 = es_source s /\ es_parser (take_response s id).2 = es_parser s /\
          es_ready (take_response s id).2 = es_ready s) as (E1 & E2 & E3).
  { unfold take_response. by repeat case_match. }
  destruct (take_response s id) as [[m|] s1]; cbn [fst snd] in *.
  - split; [done|]. destruct Ht as [Hans Hperm]. split; [done|]. exists [], []. split; [by split; [rewrite E1|rewrite E2]|].
    unfold held. rewrite E3, Hperm. solve_Permutation.
  - destruct Ht as [-> _]. apply await_response_spec; [lia|done].
Qed.

Lemma stream_step_ok s s' : stream_step s s' -> stream_ok s -> stream_ok s'.
Proof.
  destruct 1 as [s|s id|s id|s|s]; intros Hs.
  - by apply next_item_ok.
  - by apply next_response_spec.
  - by apply take_response_ok.
  - by apply take_peer_ok.
  - by apply take_notification_ok.
Qed.

Lemma from_source_ok source limit s : from_source source limit = Ok s -> stream_ok s.
Proof.
  unfold from_source, parser_new. intros H. destruct (limit =? 0)%N; [done|]. injection H as <-.
  split; [split_and!; [apply N.le_0_l|done|apply N.le_0_l]|]. split; [done|]. split; [constructor|]. split; [done|].
  split; [split; apply N.le_0_l|]. split; [|constructor]. intros id q Hq. cbn in Hq. by rewrite lookup_empty in Hq.
Qed.

(** C35: Whatever is read and whatever is asked of the stream, the count and
    the size it keeps are those of the messages it holds back, they stay
    within 256 messages and the output limit, and every message waits in the
    queue of the request it answers, or, when it is no response, among the
    peer's own messages. *)
Theorem sse_pending_invariant source limit s0 s :
  from_source source limit = Ok s0 -> rtc stream_step s0 s ->
  accounted s /\ within_limits s /\ sorted_by_request s.
Proof.
  intros H0 Hsteps. assert (stream_ok s) as (_ & _ & _ & Ha & Hw & Hsort); [|done].
  apply from_source_ok in H0. induction Hsteps as [|s1 s2 s3 Hstep _ IH]; [done|].
  apply IH. by eapply stream_step_ok.
Qed.

(** [next_response] answers with a response to the request, whether it
    was held back or is read now, and loses nothing: the messages parsed from
    the chunks it read and those held before are the one returned and those
    held after.  It fails only by leaving the stream disconnected; in
    particular it always returns. *)
Theorem next_response_correct s id :
  stream_ok s ->
  match next_response s id with
  | (Ok m, s') => answers id m = true /\ exists chunks items,
      read_on s s' chunks items /\ held s ++ messages items ≡ₚ m :: held s'
  | (Err _, s') => es_disconnected s' = true
  end.
Proof.
  intros Hs. pose proof (next_response_spec s id Hs) as [_ H]. by destruct (next_response s id) as [[m|e] s'].
Qed.

Definition sample_response (id : string) : string :=
  js "data: {'jsonrpc':'2.0','id':" +:+ id +:+ js ",'result':{}}" +:+ str nl +:+ str nl.

(** Two responses, the one asked for last. *)
Definition sample_source : list (Res string) := [Ok (sample_response "2"); Ok (": ping" +:+ str nl +:+ sample_response "1")].

Definition sample_stream (source : list (Res string)) : McpSseEventStream :=
  MkEventStream source (MkSseParser 64 "" "" false None None None true false false) [] ∅ [] 0 0 64 0 false.

Lemma sample_stream_ok source : stream_ok (sample_stream source).
Proof. exact (from_source_ok source 64 (sample_stream source) eq_refl). Qed.

Lemma next_response_correct_witness :
  exists m s', next_response (sample_stream sample_source) (IdNumber 1) = (Ok m, s') /\
    es_pending_message_count s' = 1%N /\ answers (IdNumber 1) m = true.
Proof.
  assert (exists m s', next_response (sample_stream sample_source) (IdNumber 1) = (Ok m, s') /\
    es_pending_message_count s' = 1%N) as (m & s' & E & Hc) by (eexists _, _; vm_compute; split; reflexivity).
  exists m, s'. split; [exact E|]. split; [exact Hc|].
  pose proof (next_response_correct (sample_stream sample_source) (IdNumber 1) (sample_stream_ok _)) as H.
  rewrite E in H. destruct H as [H _]. exact H.
Defined.

Lemma sse_pending_invariant_witness :
  exists s, rtc stream_step (sample_stream sample_source) s /\ es_pending_message_count s = 1%N /\
    es_pending_message_count s = len (pending s).
Proof.
  assert (exists s, (next_response (sample_stream sample_source) (IdNumber 1)).2 = s /\
    es_pending_message_count s = 1%N) as (s & E & Hc) by (eexists; vm_compute; split; reflexivity).
  assert (rtc stream_step (sample_stream sample_source) s) as Hsteps
    by (rewrite <- E; apply rtc_once, step_next_response).
  exists s. split; [exact Hsteps|]. split; [exact Hc|].
  destruct (sse_pending_invariant sample_source 64 (sample_stream sample_source) s eq_refl Hsteps) as [[H _] _]. exact H.
Defined.

(** An event that reports an error. *)
Definition error_event : string := "event: error" +:+ str nl +:+ "data: x" +:+ str nl +:+ str nl.

(** A complete response is lost when the bytes after it fail to parse
    and arrive in the same read: the same bytes in two reads deliver it. *)
Theorem coalesced_read_loses_response :
  (exists m s', next_response (sample_stream [Ok (sample_response "1"); Ok error_event]) (IdNumber 1) = (Ok m, s')) /\
  (exists e s', next_response (sample_stream [Ok (sample_response "1" +:+ error_event)]) (IdNumber 1) = (Err e, s') /\
     err_provider_code e = Some "mcp_sse_error_event").
Proof. split; [eexists _, _; vm_compute; reflexivity|eexists _, _; vm_compute; split; reflexivity]. Qed.
