(* ===== verification/HttpSession.v ===== *)
(** * The Streamable HTTP session (crates/eva-mcp/src/json_rpc.rs, McpHttpJsonRpcTransport)

    The text of a request's head, and the session that a transport keeps over
    its requests: initialize once, announce it, then exchange; close on an
    unknown or unexpected session.  The server and the network are the
    connections that the requests find, one after the other. *)

From Stdlib Require Import Ascii.
From stdpp Require Import base numbers strings gmap list.
From S2P Require Import Prelude RustStr Error Json McpJsonRpc McpClient HttpFraming McpEndpoint HttpSse Sse.

(** ** The request's head *)

Definition transport_headers : list string :=
  ["host"; "connection"; "content-type"; "accept"; "content-length"; "transfer-encoding"; "te"; "trailer";
   "upgrade"; "proxy-connection"; "mcp-session-id"; "mcp-protocol-version"].

Definition validate_http_header (name value : string) : Res unit :=
  reject str_is_empty (trim name) || negb (bytes_all (fun c => is_ascii_alphanumeric c || Ascii.eqb c "-") name) with
    invalid_argument "MCP HTTP header name is unsupported" ⊕ ("header", name) else
  reject bool_decide (to_ascii_lowercase name ∈ transport_headers) with
    permission_denied "MCP HTTP header is controlled by the transport" ⊕ ("header", name) else
  reject existsb (fun c => negb (String.eqb c (str tab)) && is_control c) (chars value) with
    invalid_argument "MCP HTTP header value contains a control character" ⊕ ("header", name) else
  Ok tt.

Definition validate_internal_http_header (name value : string) : Res unit :=
  reject str_is_empty (trim name) || negb (bytes_all is_http_token_byte name) with
    with_provider_code (internal "MCP HTTP internal header name is invalid") "mcp_http_internal_header_invalid" else
  reject str_is_empty value || negb (bytes_all (fun c => negb (is_ascii_control c || (128 <=? byte_of c)%N)) value) with
    with_provider_code (internal "MCP HTTP internal header value is invalid") "mcp_http_internal_header_invalid" else
  Ok tt.

Definition header_line (name value : string) : string := name +:+ ": " +:+ value +:+ crlf.

(** The loop over the caller's headers: the names seen and the text. *)
Fixpoint push_headers (names : gset string) (request : string) (headers : list (string * string)) :
    Res (gset string * string) :=
  match headers with
  | [] => Ok (names, request)
  | (name, value) :: r =>
      validate_http_header name value >>?
      reject bool_decide (to_ascii_lowercase name ∈ names) with
        invalid_argument "MCP HTTP request header collides with a transport header" ⊕ ("header", name) else
      push_headers ({[to_ascii_lowercase name]} ∪ names) (request +:+ header_line name value) r
  end.

Fixpoint push_extra_headers (names : gset string) (request : string) (headers : list (string * string)) :
    Res (gset string * string) :=
  match headers with
  | [] => Ok (names, request)
  | (name, value) :: r =>
      validate_internal_http_header name value >>?
      reject bool_decide (to_ascii_lowercase name ∈ names) with
        with_provider_code (internal "MCP HTTP internal header collides with a transport header")
          "mcp_http_internal_header_collision" else
      push_extra_headers ({[to_ascii_lowercase name]} ∪ names) (request +:+ header_line name value) r
  end.

Record HttpRequestSpec := MkRequestSpec {
  rs_extra_headers : list (string * string);
  rs_method : string;
  rs_accept : string;
  rs_body : string;
  rs_allow_bodyless_accepted : bool
}.

(** The names and the text of the lines the transport writes itself. *)
Definition own_request_head (path authority : string) (spec : HttpRequestSpec) : gset string * string :=
  let names : gset string := {["host"; "connection"; "accept"]} in
  let request := rs_method spec +:+ " " +:+ path +:+ " HTTP/1.1" +:+ crlf +:+ header_line "Host" authority
                 +:+ header_line "Connection" "close" +:+ header_line "Accept" (rs_accept spec) in
  if str_is_empty (rs_body spec) then (names, request)
  else ({["content-type"; "content-length"]} ∪ names,
        request +:+ header_line "Content-Type" "application/json"
                +:+ header_line "Content-Length" (n_to_string (slen (rs_body spec)))).

(** The part of [open_http_response] that writes the request's head;
    [headers] in the order of their names. *)
Definition http_request_head (path authority : string) (headers : list (string * string)) (spec : HttpRequestSpec) :
    Res string :=
  reject str_is_empty (rs_method spec)
         || negb (bytes_all (fun c => in_range 65 90 c || is_ascii_digit c || Ascii.eqb c "-") (rs_method spec)) with
    with_provider_code (internal "MCP HTTP method is invalid") "mcp_http_method_invalid" else
  reject str_is_empty (rs_accept spec) || negb (bytes_all (fun c => negb (is_ascii_control c)) (rs_accept spec)) with
    with_provider_code (internal "MCP HTTP accept value is invalid") "mcp_http_accept_invalid" else
  let '(names, request) := own_request_head path authority spec in
  let? '(names, request) := push_headers names request headers in
  let? '(_, request) := push_extra_headers names request (rs_extra_headers spec) in
  Ok (request +:+ crlf).

(** ** The session *)

Inductive HttpExchangeResponse :=
| Buffered (response : HttpJsonRpcResponse)
| EventStream (response : HttpJsonRpcResponse) (stream : McpSseEventStream).

Definition metadata (r : HttpExchangeResponse) : HttpJsonRpcResponse :=
  match r with Buffered response => response | EventStream response _ => response end.

(** A connection that took the request: what its reads return, whether the
    deadline has passed after the head, before and after the body, and whether
    the idle timeout of a stream cannot be set. *)
Record Connection := MkConnection {
  cn_stream : Stream;
  cn_late_head : bool;
  cn_late_body : bool * bool;
  cn_no_idle_timeout : option EvaError
}.

(** [HttpOpenResponse]: the head is read, the body is still on the wire. *)
Record HttpOpenResponse := MkOpenResponse {
  or_head : HttpResponseHead;
  or_framing : HttpBodyFraming;
  or_origin : string;
  or_connection : Connection
}.

Definition or_metadata (r : HttpOpenResponse) : HttpJsonRpcResponse :=
  {| response_status := status_code (or_head r); response_content_type := content_type (or_head r);
     response_body := ""; response_truncated := false; response_session := session_id (or_head r) |}.

(** [ensure_deadline] of a response. *)
Definition response_deadline (late : bool) (origin : string) : Res unit :=
  if late then Err (map_http_read_error TimedOut origin) else Ok tt.

(** [HttpOpenResponse::into_buffered] *)
Definition or_buffered (r : HttpOpenResponse) (limit : N) : Res HttpJsonRpcResponse :=
  let late := cn_late_body (or_connection r) in
  response_deadline late.1 (or_origin r) >>?
  let? '(response, _) := into_buffered (or_head r) (or_framing r) (cn_stream (or_connection r)) limit (or_origin r) in
  response_deadline late.2 (or_origin r) >>?
  Ok response.

(** What the successive reads of an event stream's source return, for the
    stream's own buffer; a deadline that passes shows as a failed read. *)
Fixpoint source_reads (fuel : nat) (src : HttpSseSource) : list (Res string) :=
  match fuel with
  | O => []
  | S fuel =>
      match read_sse (false, false) src (N.to_nat SSE_READ_BUFFER_BYTES) with
      | Err error => [Err error]
      | Ok (bytes, src) => if str_is_empty bytes then [Ok ""] else Ok bytes :: source_reads fuel src
      end
  end.

(** [HttpOpenResponse::into_event_stream] *)
Definition or_stream (r : HttpOpenResponse) (limit : N) : Res McpSseEventStream :=
  let source := source_new (cn_stream (or_connection r)) (or_framing r) (or_origin r) in
  from_source (source_reads (S (String.length (stream_bytes (cn_stream (or_connection r))))) source) limit.

(** [into_persistent_event_stream] *)
Definition or_persistent_stream (r : HttpOpenResponse) (limit : N) : Res McpSseEventStream :=
  response_deadline (cn_late_body (or_connection r)).1 (or_origin r) >>?
  match cn_no_idle_timeout (or_connection r) with Some error => Err error | None => or_stream r limit end.

(** [ht_sent] are the requests that the operations made, [ht_wire] the texts
    that went out for them, and [ht_replies] the connections that the next
    ones find: none, or one that failed before the request was written. *)
Record McpHttpJsonRpcTransport := MkHttp {
  ht_endpoint : string;
  ht_headers : list (string * string);
  ht_audit : list string;
  ht_exchange_count : N;
  ht_notification_count : N;
  ht_session_id : option string;
  ht_protocol_version : option string;
  ht_session_closed : bool;
  ht_initialized : bool;
  ht_sent : list HttpRequestSpec;
  ht_wire : list string;
  ht_replies : list (Res Connection)
}.
#[export] Instance McpHttp_eta : Eta McpHttpJsonRpcTransport := fun t =>
  MkHttp (ht_endpoint t) (ht_headers t) (ht_audit t) (ht_exchange_count t) (ht_notification_count t) (ht_session_id t)
    (ht_protocol_version t) (ht_session_closed t) (ht_initialized t) (ht_sent t) (ht_wire t) (ht_replies t).

(** The uniqueness check over the caller's headers. *)
Fixpoint unique_headers (names : gset string) (headers : list (string * string)) : Res unit :=
  match headers with
  | [] => Ok tt
  | (name, value) :: r =>
      validate_http_header name value >>?
      reject bool_decide (to_ascii_lowercase name ∈ names) with
        invalid_argument "MCP HTTP header names must be unique ignoring ASCII case" ⊕ ("header", name) else
      unique_headers ({[to_ascii_lowercase name]} ∪ names) r
  end.

(** [new_with_config_and_tls]; [connector] is whether the TLS material gives a
    connector, [headers] is in the order of the names. *)
Definition http_transport_new (config : McpStreamableHttpConfig) (headers : list (string * string)) (connector : Res unit)
    (replies : list (Res Connection)) : Res McpHttpJsonRpcTransport :=
  validate_for_environment config "dev" >>?
  let endpoint := hc_endpoint config in
  let? parsed := http_url_parse endpoint in
  unique_headers ∅ headers >>?
  connector >>?
  let audit := ["mcp.http:client"; "mcp.http.origin:" +:+ hu_origin parsed; "mcp.http.method:POST"] in
  let audit := if String.eqb (hu_scheme parsed) "https" then
                 audit ++ ["mcp.tls:certificate_verification_enabled"; "mcp.tls:sni_enabled";
                           "mcp.tls:client_auth_configured:" +:+ bool_to_string (bool_decide (is_Some (client_auth config)))]
               else audit in
  let audit := audit ++ ((fun h => "mcp.http.header:" +:+ h.1 +:+ ":redacted") <$> headers) in
  Ok (MkHttp endpoint headers audit 0 0 None None false false [] [] replies).

Definition limit_zero : EvaError := invalid_argument "MCP HTTP response output limit must be greater than zero".

(** The request is made, written to the next connection, and the head of its
    response is read. *)
Definition open_http_response (t : McpHttpJsonRpcTransport) (spec : HttpRequestSpec) (limit : N) :
    Res HttpOpenResponse * McpHttpJsonRpcTransport :=
  let t := t <| ht_sent := ht_sent t ++ [spec] |> in
  if (limit =? 0)%N then (Err limit_zero, t) else
  let@ parsed, t := (http_url_parse (ht_endpoint t), t) in
  let@ head, t := (http_request_head (hu_path parsed) (hu_authority parsed) (ht_headers t) spec, t) in
  match ht_replies t with
  | [] => (Err (map_http_read_error OtherFailure (hu_origin parsed)), t)
  | Err error :: r => (Err error, t <| ht_replies := r |>)
  | Ok connection :: r =>
      let t := t <| ht_wire := ht_wire t ++ [head +:+ rs_body spec] |> <| ht_replies := r |> in
      (let? '(head, framing, stream) :=
         read_final_http_response_head (cn_stream connection) (hu_origin parsed) (rs_allow_bodyless_accepted spec) in
       response_deadline (cn_late_head connection) (hu_origin parsed) >>?
       Ok {| or_head := head; or_framing := framing; or_origin := hu_origin parsed;
             or_connection := MkConnection stream (cn_late_head connection) (cn_late_body connection)
                                (cn_no_idle_timeout connection) |}, t)
  end.

Definition send_http_request (t : McpHttpJsonRpcTransport) (spec : HttpRequestSpec) (limit : N) :
    Res HttpJsonRpcResponse * McpHttpJsonRpcTransport :=
  let@ response, t := open_http_response t spec limit in (or_buffered response limit, t).

Definition send_http_exchange_request (t : McpHttpJsonRpcTransport) (spec : HttpRequestSpec) (limit : N) :
    Res HttpExchangeResponse * McpHttpJsonRpcTransport :=
  let@ response, t := open_http_response t spec limit in
  (if bool_decide (response_content_type (or_metadata response) = Some "text/event-stream") then
     let? stream := or_stream response limit in Ok (EventStream (or_metadata response) stream)
   else let? response := or_buffered response limit in Ok (Buffered response), t).

Definition session_closed_error : EvaError :=
  with_provider_code (conflict "MCP HTTP session is already closed") "mcp_http_session_closed".

Definition ensure_not_closed (t : McpHttpJsonRpcTransport) : Res unit :=
  reject ht_session_closed t with session_closed_error else Ok tt.

Definition ensure_session_open (t : McpHttpJsonRpcTransport) : Res unit :=
  reject ht_session_closed t with session_closed_error else
  reject (ht_exchange_count t =? 0)%N || bool_decide (ht_protocol_version t = None) with
    with_provider_code (conflict "MCP HTTP session requires a successful initialize exchange")
      "mcp_http_session_not_initialized" else
  Ok tt.

Definition ensure_session_ready (t : McpHttpJsonRpcTransport) : Res unit :=
  ensure_session_open t >>?
  reject negb (ht_initialized t) with
    with_provider_code (conflict "MCP HTTP session requires notifications/initialized before application I/O")
      "mcp_http_session_not_ready" else
  Ok tt.

Definition cleanup_headers (t : McpHttpJsonRpcTransport) : Res (list (string * string)) :=
  let? version := ok_or (ht_protocol_version t)
    (with_provider_code (conflict "MCP HTTP protocol version was not negotiated") "mcp_protocol_version_missing") in
  Ok (("MCP-Protocol-Version", version) ::
      match ht_session_id t with Some id => [("Mcp-Session-Id", id)] | None => [] end).

Definition session_headers (t : McpHttpJsonRpcTransport) : Res (list (string * string)) :=
  ensure_session_open t >>? cleanup_headers t.

Definition validate_response_session (t : McpHttpJsonRpcTransport) (response : HttpJsonRpcResponse) :
    Res unit * McpHttpJsonRpcTransport :=
  match ht_session_id t, response_session response with
  | Some expected, Some actual =>
      if String.eqb expected actual then (Ok tt, t)
      else (Err (with_provider_code (permission_denied "MCP HTTP response carried an unexpected session")
                   "mcp_http_session_id_mismatch"), t <| ht_session_closed := true |>)
  | None, Some _ =>
      (Err (with_provider_code (permission_denied "MCP HTTP response introduced an unknown session")
              "mcp_http_session_id_unexpected"), t <| ht_session_closed := true |>)
  | _, None => (Ok tt, t)
  end.

Definition close_and_clear_session (t : McpHttpJsonRpcTransport) : McpHttpJsonRpcTransport :=
  t <| ht_session_closed := true |> <| ht_session_id := None |> <| ht_protocol_version := None |>
    <| ht_initialized := false |>.

Definition reject_unknown_session (t : McpHttpJsonRpcTransport) (response : HttpJsonRpcResponse) :
    Res unit * McpHttpJsonRpcTransport :=
  if negb (response_status response =? 404)%N then (Ok tt, t)
  else (Err (with_provider_code (not_found "MCP HTTP session is no longer known") "mcp_http_session_not_found"),
        close_and_clear_session t).

(** The two checks every response after [initialize] passes. *)
Definition check_session (t : McpHttpJsonRpcTransport) (response : HttpJsonRpcResponse) :
    Res unit * McpHttpJsonRpcTransport :=
  let@ _, t := reject_unknown_session t response in validate_response_session t response.

Definition http_audit (t : McpHttpJsonRpcTransport) (entry : string) : McpHttpJsonRpcTransport :=
  t <| ht_audit := ht_audit t ++ [entry] |>.

Definition delete_spec (headers : list (string * string)) : HttpRequestSpec :=
  {| rs_extra_headers := headers; rs_method := "DELETE"; rs_accept := "application/json"; rs_body := "";
     rs_allow_bodyless_accepted := true |}.

Definition shutdown_session (t : McpHttpJsonRpcTransport) (limit : N) : Res unit * McpHttpJsonRpcTransport :=
  if (limit =? 0)%N then (Err limit_zero, t)
  else if bool_decide (ht_session_id t = None) then (Ok tt, close_and_clear_session t)
  else
  let@ headers, t := (cleanup_headers t, t) in
  let@ response, t := send_http_request t (delete_spec headers) limit in
  let@ _, t := check_session t response in
  if (response_status response =? 405)%N then
    (Ok tt, http_audit (close_and_clear_session t) "mcp.http:session_delete_unsupported")
  else if negb (is_success (response_status response)) then
    (Err (with_provider_code (unavailable "MCP HTTP session DELETE returned non-success status")
            "mcp_http_session_delete_failed" ⊕ ("status_code", n_to_string (response_status response))), t)
  else if response_truncated response then
    (Err (with_provider_code (conflict "MCP HTTP session DELETE response exceeded output limit")
            "mcp_response_too_large" ⊕ ("output_limit_bytes", n_to_string limit)), t)
  else (Ok tt, http_audit (close_and_clear_session t) "mcp.http:session_deleted").

(** [decode_http_exchange_payload] *)
Definition decode_http_exchange_payload (response : HttpExchangeResponse) (expected_id limit : N) : Res string :=
  match response with
  | Buffered response => decode_http_exchange_response response expected_id limit
  | EventStream response stream =>
      reject negb (is_success (response_status response)) with
        with_provider_code (unavailable "MCP HTTP server returned non-success status") "mcp_http_status"
          ⊕ ("json_rpc_id", n_to_string expected_id) ⊕ ("status_code", n_to_string (response_status response)) else
      require_event_stream_content_type (response_content_type response) >>?
      let? message := (next_response stream (IdNumber expected_id)).1 in
      enforce_response_limit (sm_data message) limit >>? Ok (sm_data message)
  end.

(** A non-blank [protocolVersion] of an object. *)
Definition protocol_version_of (text missing invalid : string) : Res string :=
  let? value := json_string_field text "protocolVersion" in
  let? value := ok_or (match value with
                       | Some v => if str_is_empty (trim v) then None else Some v
                       | None => None
                       end)
    (with_provider_code (protocol_error missing) "mcp_protocol_version_missing") in
  map_err (fun _ => with_provider_code (protocol_error invalid) "mcp_protocol_version_invalid")
    (validate_mcp_protocol_version value) >>?
  Ok value.

(** The closure of [remember_initialize]. *)
Definition negotiate (response : HttpExchangeResponse) (expected_id limit : N) (requested : string) : Res (string * string) :=
  let? text := decode_http_exchange_payload response expected_id limit in
  let? result := parse_json_rpc_response text expected_id in
  let? negotiated := protocol_version_of result "MCP initialize response is missing protocolVersion"
                       "MCP initialize response has an invalid protocolVersion" in
  reject negb (String.eqb negotiated requested) with
    with_provider_code (unsupported "MCP server negotiated an unsupported protocol version")
      "mcp_protocol_version_mismatch" else
  Ok (text, negotiated).

Definition remember_initialize (t : McpHttpJsonRpcTransport) (response : HttpExchangeResponse)
    (expected_id limit : N) (requested : string) : Res string * McpHttpJsonRpcTransport :=
  let t := t <| ht_session_id := response_session (metadata response) |> in
  let t := if bool_decide (is_Some (ht_session_id t)) then t <| ht_protocol_version := Some requested |> else t in
  match negotiate response expected_id limit requested with
  | Err error => (Err error, t <| ht_session_closed := true |>)
  | Ok (text, negotiated) =>
      let t := http_audit (t <| ht_protocol_version := Some negotiated |>) "mcp.http:session_initialized" in
      (Ok text, if bool_decide (is_Some (ht_session_id t)) then http_audit t "mcp.http:session_id_received" else t)
  end.

Definition post_spec (headers : list (string * string)) (body : string) (allow : bool) : HttpRequestSpec :=
  {| rs_extra_headers := headers; rs_method := "POST"; rs_accept := "application/json, text/event-stream";
     rs_body := body; rs_allow_bodyless_accepted := allow |}.

Definition get_spec (headers : list (string * string)) : HttpRequestSpec :=
  {| rs_extra_headers := headers; rs_method := "GET"; rs_accept := "text/event-stream"; rs_body := "";
     rs_allow_bodyless_accepted := false |}.

(** The code of an error for the cleanup context. *)
Definition error_code (e : EvaError) : string := default (error_kind_str (err_kind e)) (err_provider_code e).

(** The version the [initialize] request asks for. *)
Definition requested_protocol (request method : string) : Res string :=
  reject negb (String.eqb method "initialize") with
    with_provider_code (protocol_error "MCP HTTP session must begin with initialize")
      "mcp_http_session_not_initialized" else
  let? params := json_field_value request "params" in
  let? params := ok_or params (with_provider_code (protocol_error "MCP initialize request is missing params")
                                 "mcp_protocol_version_missing") in
  protocol_version_of params "MCP initialize request is missing protocolVersion"
    "MCP initialize request has an invalid protocolVersion".

(** The first exchange of a transport. *)
Definition http_initialize (t : McpHttpJsonRpcTransport) (expected_id : N) (request method : string) (limit : N) :
    Res string * McpHttpJsonRpcTransport :=
  let@ requested, t := (requested_protocol request method, t) in
  let@ response, t := send_http_exchange_request t (post_spec [] request false) limit in
  match remember_initialize t response expected_id limit requested with
  | (Ok text, t) => (Ok text, t)
  | (Err error, t) =>
      match shutdown_session t limit with
      | (Ok _, t) => (Err error, t)
      | (Err cleanup_error, t) =>
          (Err (error ⊕ ("mcp_session_cleanup", "failed") ⊕ ("mcp_session_cleanup_code", error_code cleanup_error)), t)
      end
  end.

(** Every later exchange. *)
Definition http_application (t : McpHttpJsonRpcTransport) (expected_id : N) (request method : string) (limit : N) :
    Res string * McpHttpJsonRpcTransport :=
  if String.eqb method "initialize" then
    (Err (with_provider_code (conflict "MCP HTTP session is already initialized") "mcp_http_session_already_initialized"), t)
  else
  let@ _, t := (ensure_session_ready t, t) in
  let@ headers, t := (session_headers t, t) in
  let@ response, t := send_http_exchange_request t (post_spec headers request false) limit in
  let@ _, t := check_session t (metadata response) in
  (decode_http_exchange_payload response expected_id limit, t).

Definition http_exchange (t : McpHttpJsonRpcTransport) (expected_id : N) (request : string) (_timeout limit : N) :
    Res string * McpHttpJsonRpcTransport :=
  if (limit =? 0)%N then (Err limit_zero, t) else
  let@ _, t := (ensure_not_closed t, t) in
  let@ method, t := (json_string_field request "method", t) in
  let@ method, t := (ok_or method (protocol_error "MCP HTTP JSON-RPC request is missing a top-level method"), t) in
  let@ text, t := (if (ht_exchange_count t =? 0)%N then http_initialize t expected_id request method limit
                   else http_application t expected_id request method limit) in
  (Ok text, t <| ht_exchange_count := saturating_add usize_max (ht_exchange_count t) 1 |>).

Definition INITIALIZED : string := "notifications/initialized".

Definition http_notify (t : McpHttpJsonRpcTransport) (notification : string) (_timeout limit : N) :
    Res unit * McpHttpJsonRpcTransport :=
  if (limit =? 0)%N then (Err limit_zero, t) else
  let@ _, t := (ensure_not_closed t, t) in
  let@ method, t := (json_string_field notification "method", t) in
  let@ method, t := (ok_or method (protocol_error "MCP HTTP JSON-RPC notification is missing a top-level method"), t) in
  if (ht_exchange_count t =? 0)%N then
    (Err (with_provider_code (conflict "MCP initialized notification requires a successful initialize exchange")
            "mcp_http_session_not_initialized"), t)
  else
  let initialized := String.eqb method INITIALIZED in
  if negb (ht_initialized t) && negb initialized then
    (Err (with_provider_code (conflict "MCP HTTP session requires notifications/initialized as its first notification")
            "mcp_http_initialized_notification_required"), t)
  else if ht_initialized t && initialized then
    (Err (with_provider_code (conflict "MCP HTTP notifications/initialized was already accepted")
            "mcp_http_initialized_notification_duplicate"), t)
  else
  let@ headers, t := (session_headers t, t) in
  let@ response, t := send_http_request t (post_spec headers notification true) limit in
  let@ _, t := check_session t response in
  let@ _, t := (validate_http_notification_response response limit, t) in
  let t := t <| ht_notification_count := saturating_add usize_max (ht_notification_count t) 1 |> in
  (Ok tt, if initialized then http_audit (t <| ht_initialized := true |>) "mcp.http:initialized_notification_accepted"
          else t).

(** [session_id], [negotiated_protocol_version], [is_ready] *)
Definition current_session (t : McpHttpJsonRpcTransport) : option string :=
  if negb (ht_session_closed t) && (0 <? ht_exchange_count t)%N then ht_session_id t else None.
Definition negotiated_protocol_version (t : McpHttpJsonRpcTransport) : option string :=
  if negb (ht_session_closed t) && (0 <? ht_exchange_count t)%N then ht_protocol_version t else None.
Definition is_ready (t : McpHttpJsonRpcTransport) : bool := negb (ht_session_closed t) && ht_initialized t.

Definition http_transport_audit (t : McpHttpJsonRpcTransport) : list string :=
  ht_audit t ++
  ["mcp.http.exchange_count:" +:+ n_to_string (ht_exchange_count t);
   "mcp.http.notification_count:" +:+ n_to_string (ht_notification_count t);
   "mcp.http.session_present:" +:+ bool_to_string (bool_decide (is_Some (current_session t)));
   "mcp.http.protocol_version_present:" +:+ bool_to_string (bool_decide (is_Some (negotiated_protocol_version t)));
   "mcp.http.session_ready:" +:+ bool_to_string (is_ready t);
   "mcp.http.session_closed:" +:+ bool_to_string (ht_session_closed t)].

#[export] Instance http_transport : McpJsonRpcTransport McpHttpJsonRpcTransport := {
  exchange := http_exchange;
  notify := http_notify;
  transport_audit := http_transport_audit
}.

(** [get], buffered. *)
Definition http_get (t : McpHttpJsonRpcTransport) (limit : N) : Res string * McpHttpJsonRpcTransport :=
  if (limit =? 0)%N then (Err limit_zero, t) else
  let@ _, t := (ensure_session_ready t, t) in
  let@ headers, t := (session_headers t, t) in
  let@ response, t := send_http_request t (get_spec headers) limit in
  let@ _, t := check_session t response in
  let@ body, t := (decode_http_event_stream_response response limit, t) in
  (Ok body, http_audit t "mcp.http:session_get").

Definition open_event_stream (t : McpHttpJsonRpcTransport) (limit : N) : Res McpSseEventStream * McpHttpJsonRpcTransport :=
  if (limit =? 0)%N then (Err limit_zero, t) else
  let@ _, t := (ensure_session_ready t, t) in
  let@ headers, t := (session_headers t, t) in
  let@ response, t := open_http_response t (get_spec headers) limit in
  let@ _, t := check_session t (or_metadata response) in
  let@ _, t := (validate_http_event_stream_metadata (or_metadata response), t) in
  let@ stream, t := (or_persistent_stream response limit, t) in
  (Ok stream, http_audit t "mcp.http:session_stream_opened").

Definition post_event_stream (t : McpHttpJsonRpcTransport) (expected_id : N) (request : string) (limit : N) :
    Res McpSseEventStream * McpHttpJsonRpcTransport :=
  if (limit =? 0)%N then (Err limit_zero, t) else
  let@ _, t := (ensure_session_ready t, t) in
  let@ envelope, t := (parse_sse_json_rpc_envelope request, t) in
  if negb (bool_decide (envelope.2 = Request)) || negb (bool_decide (envelope.1 = Some (IdNumber expected_id))) then
    (Err (protocol_error "MCP HTTP streaming POST request id does not match its envelope"), t)
  else
  let@ method, t := (json_string_field request "method", t) in
  if bool_decide (method = Some "initialize") then
    (Err (with_provider_code (conflict "MCP HTTP session is already initialized") "mcp_http_session_already_initialized"), t)
  else
  let@ headers, t := (session_headers t, t) in
  let@ response, t := open_http_response t (post_spec headers request false) limit in
  let@ _, t := check_session t (or_metadata response) in
  if negb (is_success (response_status (or_metadata response))) then
    (Err (with_provider_code (unavailable "MCP HTTP server returned non-success status") "mcp_http_status"
            ⊕ ("json_rpc_id", n_to_string expected_id)
            ⊕ ("status_code", n_to_string (response_status (or_metadata response)))), t)
  else
  let@ _, t := (require_event_stream_content_type (response_content_type (or_metadata response)), t) in
  let@ stream, t := (or_persistent_stream response limit, t) in
  (Ok stream, http_audit (t <| ht_exchange_count := saturating_add usize_max (ht_exchange_count t) 1 |>)
                "mcp.http:session_post_stream_opened").
