(* ===== verification/HttpSessionSafety.v ===== *)
(** * The session protocol (crates/eva-mcp/src/json_rpc.rs, McpHttpJsonRpcTransport)

    The transport's operations, in any order and against any server, follow
    an automaton of session phases: what is sent in each phase and where it
    leads. *)

From Stdlib Require Import Ascii.
From stdpp Require Import base numbers strings gmap list relations.
From S2P Require Import Prelude RustStr Error Json McpJsonRpc McpClient HttpFraming McpEndpoint Sse HttpSession.

(** ** The automaton *)

Inductive SessionPhase :=
| Fresh
| Opened (version : string) (session : option string)
| Ready (version : string) (session : option string)
| Closed (left_over : option (string * string)).

(** The headers of a session's requests. *)
Definition headers_of (version : string) (session : option string) : list (string * string) :=
  ("MCP-Protocol-Version", version) :: match session with Some id => [("Mcp-Session-Id", id)] | None => [] end.

(** What a closed session still has to delete. *)
Definition left_of (version : string) (session : option string) : option (string * string) :=
  match session with Some id => Some (version, id) | None => None end.

Definition session_of (p : SessionPhase) : option (string * option string) :=
  match p with
  | Fresh | Closed None => None
  | Opened v s | Ready v s => Some (v, s)
  | Closed (Some (v, s)) => Some (v, Some s)
  end.

(** The method of a JSON-RPC text. *)
Definition has_method (body method : string) : Prop := json_string_field body "method" = Ok (Some method).

(** The requests of an operation and the phase it leads to. *)
Inductive phase_step : SessionPhase -> list HttpRequestSpec -> SessionPhase -> Prop :=
| phase_stays p : phase_step p [] p
| phase_closes p : (forall v s, session_of p <> Some (v, Some s)) -> phase_step p [] (Closed None)
| phase_initialize body q :
    has_method body "initialize" ->
    match q with Fresh | Closed _ => True | Opened _ _ => True | Ready _ _ => False end ->
    phase_step Fresh [post_spec [] body false] q
| phase_cleanup body v s left_over :
    has_method body "initialize" -> left_over = None \/ left_over = Some (v, s) ->
    phase_step Fresh [post_spec [] body false; delete_spec (headers_of v (Some s))] (Closed left_over)
| phase_announce v s text q :
    has_method text INITIALIZED -> q ∈ [Opened v s; Ready v s; Closed (left_of v s); Closed None] ->
    phase_step (Opened v s) [post_spec (headers_of v s) text true] q
| phase_exchange v s text method q :
    has_method text method -> method <> "initialize" -> q ∈ [Ready v s; Closed (left_of v s); Closed None] ->
    phase_step (Ready v s) [post_spec (headers_of v s) text false] q
| phase_notify v s text method q :
    has_method text method -> method <> INITIALIZED -> q ∈ [Ready v s; Closed (left_of v s); Closed None] ->
    phase_step (Ready v s) [post_spec (headers_of v s) text true] q
| phase_listen v s q :
    q ∈ [Ready v s; Closed (left_of v s); Closed None] -> phase_step (Ready v s) [get_spec (headers_of v s)] q
| phase_delete p v s q :
    session_of p = Some (v, Some s) -> q ∈ [p; Closed (Some (v, s)); Closed None] ->
    phase_step p [delete_spec (headers_of v (Some s))] q.

(** ** The phase of a transport *)

Definition phase (t : McpHttpJsonRpcTransport) : SessionPhase :=
  if ht_session_closed t then
    Closed (match ht_protocol_version t with Some v => left_of v (ht_session_id t) | None => None end)
  else if (ht_exchange_count t =? 0)%N then Fresh
  else match ht_protocol_version t with
       | None => Fresh
       | Some v => if ht_initialized t then Ready v (ht_session_id t) else Opened v (ht_session_id t)
       end.

Definition session_inv (t : McpHttpJsonRpcTransport) : Prop :=
  (is_Some (ht_session_id t) -> is_Some (ht_protocol_version t)) /\
  (ht_session_closed t = false -> ht_exchange_count t = 0%N ->
     ht_session_id t = None /\ ht_protocol_version t = None /\ ht_initialized t = false) /\
  (ht_session_closed t = false -> ht_exchange_count t <> 0%N -> is_Some (ht_protocol_version t)).

(** The transports differ in what was sent, answered and audited only. *)
Definition same_session (t t' : McpHttpJsonRpcTransport) : Prop :=
  ht_exchange_count t' = ht_exchange_count t /\ ht_session_id t' = ht_session_id t /\
  ht_protocol_version t' = ht_protocol_version t /\ ht_session_closed t' = ht_session_closed t /\
  ht_initialized t' = ht_initialized t.

Lemma same_session_inv t t' : same_session t t' -> session_inv t -> session_inv t'.
Proof. intros (H1 & H2 & H3 & H4 & H5). unfold session_inv. by rewrite H1, H2, H3, H4, H5. Qed.

Lemma same_session_phase t t' : same_session t t' -> phase t' = phase t.
Proof. intros (H1 & H2 & H3 & H4 & H5). unfold phase. by rewrite H1, H2, H3, H4, H5. Qed.

(** ** One request *)

Lemma open_http_response_sends t spec limit :
  same_session t (open_http_response t spec limit).2 /\ ht_sent (open_http_response t spec limit).2 = ht_sent t ++ [spec].
Proof.
  unfold open_http_response. destruct (limit =? 0)%N; [done|]. destruct (http_url_parse _) as [parsed|e]; [|done].
  destruct (http_request_head _ _ _ _) as [head|e]; [|done]. by destruct (ht_replies _) as [|[c|e] r].
Qed.

Lemma send_http_request_sends t spec limit :
  same_session t (send_http_request t spec limit).2 /\ ht_sent (send_http_request t spec limit).2 = ht_sent t ++ [spec].
Proof.
  pose proof (open_http_response_sends t spec limit) as H. unfold send_http_request.
  by destruct (open_http_response t spec limit) as [[r|e] t1].
Qed.

Lemma send_http_exchange_sends t spec limit :
  same_session t (send_http_exchange_request t spec limit).2 /\
  ht_sent (send_http_exchange_request t spec limit).2 = ht_sent t ++ [spec].
Proof.
  pose proof (open_http_response_sends t spec limit) as H. unfold send_http_exchange_request.
  by destruct (open_http_response t spec limit) as [[r|e] t1].
Qed.

(** The session as a rejected response leaves it. *)
Definition shut (t t' : McpHttpJsonRpcTransport) : Prop :=
  session_inv t' /\ ht_sent t' = ht_sent t /\ ht_session_closed t' = true /\
  (phase t' = Closed None \/
   phase t' = Closed (match ht_protocol_version t with Some v => left_of v (ht_session_id t) | None => None end)).

Lemma closed_shut t : session_inv t -> shut t (t <| ht_session_closed := true |>).
Proof. intros (H1 & _). split_and!; [by split_and!|done..|]. by right. Qed.

Lemma cleared_shut t : shut t (close_and_clear_session t).
Proof. split_and!; [by split_and!; [intros [? ?]|..]|done..|]. by left. Qed.

Lemma check_session_cases t response : session_inv t ->
  check_session t response = (Ok tt, t) \/
  exists e, (check_session t response).1 = Err e /\ shut t (check_session t response).2.
Proof.
  intros Hi. unfold check_session, reject_unknown_session, validate_response_session.
  destruct (negb _); [|right; eexists; split; [done|apply cleared_shut]].
  destruct (ht_session_id t) as [id|], (response_session response) as [id'|]; [|by left| |by left].
  - destruct (String.eqb id id'); [by left|]. right. eexists. split; [done|]. by apply closed_shut.
  - right. eexists. split; [done|]. by apply closed_shut.
Qed.

(** ** Phases of an open session *)

Lemma session_open_phase t : session_inv t -> ensure_session_open t = Ok tt ->
  exists v, ht_protocol_version t = Some v /\ ht_session_closed t = false /\ ht_exchange_count t <> 0%N /\
    session_headers t = Ok (headers_of v (ht_session_id t)) /\
    phase t = if ht_initialized t then Ready v (ht_session_id t) else Opened v (ht_session_id t).
Proof.
  intros _ H. unfold session_headers. rewrite H. unfold ensure_session_open in H.
  apply reject_Ok in H as [Hc H]. apply reject_Ok in H as [Hb _]. apply orb_false_iff in Hb as [He Hv].
  apply bool_decide_eq_false in Hv. destruct (ht_protocol_version t) as [v|] eqn:Ev; [|done]. exists v.
  unfold cleanup_headers, phase. rewrite Ev, Hc, He. apply N.eqb_neq in He. by split_and!.
Qed.

Lemma session_ready_phase t : session_inv t -> ensure_session_ready t = Ok tt ->
  exists v, ht_protocol_version t = Some v /\ ht_session_closed t = false /\ ht_exchange_count t <> 0%N /\
    session_headers t = Ok (headers_of v (ht_session_id t)) /\ phase t = Ready v (ht_session_id t).
Proof.
  intros Hi H. unfold ensure_session_ready in H. apply then_Ok in H as [[[] Ho] H]. apply reject_Ok in H as [Hn _].
  apply negb_false_iff in Hn. destruct (session_open_phase t Hi Ho) as (v & H1 & H2 & H3 & H4 & H5).
  exists v. rewrite Hn in H5. by split_and!.
Qed.

(** ** Operations *)

(** The operation follows the automaton. *)
Definition follows (t t' : McpHttpJsonRpcTransport) : Prop :=
  session_inv t' /\ exists requests, ht_sent t' = ht_sent t ++ requests /\ phase_step (phase t) requests (phase t').

Lemma follows_same t : session_inv t -> follows t t.
Proof. intros Hi. split; [done|]. exists []. rewrite app_nil_r. split; [done|constructor]. Qed.

(** A request was sent and the session is as it was. *)
Lemma follows_sent t t' spec : session_inv t -> same_session t t' -> ht_sent t' = ht_sent t ++ [spec] ->
  phase_step (phase t) [spec] (phase t) -> follows t t'.
Proof.
  intros Hi Hs Hsent Hstep. split; [by eapply same_session_inv|]. exists [spec]. split; [done|].
  by rewrite (same_session_phase _ _ Hs).
Qed.

(** A request was sent and its response shut the session. *)
Lemma follows_shut t t1 t' spec v : session_inv t -> same_session t t1 -> ht_sent t1 = ht_sent t ++ [spec] -> shut t1 t' ->
  ht_protocol_version t = Some v ->
  (forall q, q ∈ [Closed (left_of v (ht_session_id t)); Closed None] -> phase_step (phase t) [spec] q) -> follows t t'.
Proof.
  intros Hi (_ & Hid & Hver & _) Hsent (Hinv & Hsent' & _ & Hphase) Hver' Hstep. split; [done|]. exists [spec].
  split; [by rewrite Hsent'|]. apply Hstep. rewrite Hid, Hver, Hver' in Hphase. destruct Hphase as [->| ->]; set_solver.
Qed.

(** An operation that answers and may audit, count or announce afterwards. *)
Lemma follows_then t t' t'' : follows t t' -> session_inv t'' -> ht_sent t'' = ht_sent t' -> phase t'' = phase t' -> follows t t''.
Proof. intros (_ & requests & Hs & Hp) Hi Hs' Hp'. split; [done|]. exists requests. by rewrite Hs', Hp'. Qed.

(** The phases a session request may lead to. *)
Lemma ready_next v s q : q ∈ [Closed (left_of v s); Closed None] -> q ∈ [Ready v s; Closed (left_of v s); Closed None].
Proof. set_solver. Qed.

(** A request of a ready session, up to the check of its response. *)
Lemma ready_request t spec {A} (send : Res A * McpHttpJsonRpcTransport) (response_of : A -> HttpJsonRpcResponse) :
  session_inv t -> ensure_session_ready t = Ok tt ->
  same_session t send.2 -> ht_sent send.2 = ht_sent t ++ [spec] ->
  (forall v q, q ∈ [Ready v (ht_session_id t); Closed (left_of v (ht_session_id t)); Closed None] ->
     ht_protocol_version t = Some v -> phase_step (Ready v (ht_session_id t)) [spec] q) ->
  match send with
  | (Err _, t1) => follows t t1
  | (Ok a, t1) =>
      match check_session t1 (response_of a) with
      | (Err _, t2) => follows t t2
      | (Ok _, t2) => t2 = t1 /\ follows t t1
      end
  end.
Proof.
  intros Hi Hr Hsame Hsent Hstep. destruct (session_ready_phase t Hi Hr) as (v & Hv & Hc & Hn & _ & Hp).
  assert (follows t send.2) as Hf.
  { eapply follows_sent; [done|done|exact Hsent|]. rewrite Hp. apply Hstep; [set_solver|done]. }
  destruct send as [[a|e] t1]; cbn [snd] in *; [|done].
  assert (session_inv t1) as Hi1 by (by eapply same_session_inv).
  destruct (check_session_cases t1 (response_of a) Hi1) as [->|(e & He & Hshut)]; [done|].
  destruct (check_session t1 (response_of a)) as [[]]; [done|]. cbn [snd] in Hshut.
  eapply follows_shut; [done|done|exact Hsent|done|done|]. intros q Hq. rewrite Hp. apply Hstep; [|done].
  by apply ready_next.
Qed.

Lemma http_application_follows t id request method limit : session_inv t -> has_method request method ->
  follows t (http_application t id request method limit).2 /\
  (is_ok (http_application t id request method limit).1 = true -> ht_exchange_count t <> 0%N /\
     ht_exchange_count (http_application t id request method limit).2 = ht_exchange_count t /\
     ht_session_closed (http_application t id request method limit).2 = false).
Proof.
  intros Hi Hm. unfold http_application. destruct (String.eqb method "initialize") eqn:Em; [by split; [apply follows_same|]|].
  apply String.eqb_neq in Em. destruct (ensure_session_ready t) as [[]|e] eqn:Er; [|by split; [apply follows_same|]].
  destruct (session_ready_phase t Hi Er) as (v & Hv & Hc & Hn & -> & Hp).
  set (spec := post_spec (headers_of v (ht_session_id t)) request false).
  pose proof (send_http_exchange_sends t spec limit) as [Hsame Hsent].
  pose proof (ready_request t spec (send_http_exchange_request t spec limit) metadata Hi Er Hsame Hsent) as H.
  destruct (send_http_exchange_request t spec limit) as [[response|e] t1]; cbn [fst snd] in *.
  - assert (follows t (check_session t1 (metadata response)).2 /\
            (is_ok (check_session t1 (metadata response)).1 = true -> (check_session t1 (metadata response)).2 = t1)) as [Hf Heq].
    { destruct (check_session t1 (metadata response)) as [[x|e] t2]; cbn [fst snd].
      - destruct H as [-> Hf]; [|done]. intros v' q Hq Hv'. simplify_eq. by eapply phase_exchange.
      - split; [|done]. apply H. intros v' q Hq Hv'. simplify_eq. by eapply phase_exchange. }
    destruct (check_session t1 (metadata response)) as [[x|e] t2]; cbn [fst snd] in *; [|done].
    split; [done|]. intros _. rewrite Heq by done. destruct Hsame as (-> & _ & _ & -> & _). by split_and!.
  - split; [|done]. apply H. intros v' q Hq Hv'. simplify_eq. by eapply phase_exchange.
Qed.

(** *** Closing *)

Lemma phase_session t v s : session_inv t -> ht_protocol_version t = Some v -> ht_session_id t = Some s ->
  session_of (phase t) = Some (v, Some s).
Proof.
  intros (_ & Hfresh & _) Hv Hs. unfold phase. rewrite Hv, Hs. destruct (ht_session_closed t) eqn:Ec; [done|].
  destruct (ht_exchange_count t =? 0)%N eqn:Ee; [|by destruct (ht_initialized t)].
  apply N.eqb_eq in Ee. destruct (Hfresh eq_refl Ee) as [Hn _]. congruence.
Qed.

Lemma phase_no_session t : ht_session_id t = None -> forall v s, session_of (phase t) <> Some (v, Some s).
Proof.
  intros Hs v s. unfold phase. rewrite Hs. destruct (ht_session_closed t), (ht_exchange_count t =? 0)%N,
    (ht_protocol_version t), (ht_initialized t); cbn; congruence.
Qed.

Lemma http_audit_same t entry : same_session t (http_audit t entry).
Proof. done. Qed.

Lemma shutdown_cases t limit : session_inv t ->
  let t' := (shutdown_session t limit).2 in
  session_inv t' /\
  ((ht_sent t' = ht_sent t /\ (phase t' = phase t \/ ht_session_id t = None /\ phase t' = Closed None)) \/
   (exists v s, ht_protocol_version t = Some v /\ ht_session_id t = Some s /\
      ht_sent t' = ht_sent t ++ [delete_spec (headers_of v (Some s))] /\
      phase t' ∈ [phase t; Closed (Some (v, s)); Closed None])).
Proof.
  intros Hi. cbv zeta. unfold shutdown_session. destruct (limit =? 0)%N; [by split; [|left; split; [|left]]|].
  destruct (ht_session_id t) as [s|] eqn:Es.
  2: { rewrite bool_decide_eq_true_2 by done. destruct (cleared_shut t) as (H1 & H2 & _).
       split; [exact H1|]. left. split; [exact H2|]. by right. }
  rewrite bool_decide_eq_false_2 by done. pose proof Hi as (Hver & _).
  assert (is_Some (ht_protocol_version t)) as [v Ev] by (apply Hver; rewrite Es; by eexists). rewrite Ev.
  assert (cleanup_headers t = Ok (headers_of v (Some s))) as -> by (unfold cleanup_headers; by rewrite Ev, Es).
  pose proof (send_http_request_sends t (delete_spec (headers_of v (Some s))) limit) as [Hsame Hsent].
  destruct (send_http_request t _ limit) as [[response|e] t1]; cbn [fst snd] in *.
  2: { split; [by eapply same_session_inv|]. right. exists v, s. rewrite (same_session_phase _ _ Hsame).
       split_and!; [done..|]. set_solver. }
  assert (session_inv t1) as Hi1 by (by eapply same_session_inv).
  destruct (check_session_cases t1 response Hi1) as [->|(e & He & Hshut)].
  2: { destruct (check_session t1 response) as [[x|e'] t2]; [done|]. cbn [snd] in Hshut |- *.
       destruct Hshut as (H1 & H2 & _ & H3). split; [done|]. right. exists v, s.
       split_and!; [done..|by rewrite H2|]. destruct Hsame as (_ & E1 & E2 & _). rewrite E1, E2, Ev, Es in H3.
       destruct H3 as [->| ->]; set_solver. }
  assert (forall entry, session_inv (http_audit (close_and_clear_session t1) entry) /\
    ht_sent (http_audit (close_and_clear_session t1) entry) = ht_sent t ++ [delete_spec (headers_of v (Some s))] /\
    phase (http_audit (close_and_clear_session t1) entry) = Closed None) as Hclosed.
  { intros entry. destruct (cleared_shut t1) as (H1 & H2 & _ & _). split_and!; [exact H1| |done]. exact Hsent. }
  assert (session_inv t1 /\ ht_sent t1 = ht_sent t ++ [delete_spec (headers_of v (Some s))] /\ phase t1 = phase t) as Hkept
    by (split_and!; [done..|by apply same_session_phase]).
  destruct (response_status response =? 405)%N; [|destruct (negb _); [|destruct (response_truncated response)]];
    cbn [fst snd].
  1, 4: match goal with |- context [http_audit _ ?x] => destruct (Hclosed x) as (H1 & H2 & H3) end.
  1, 2: split; [exact H1|]; right; exists v, s; rewrite H3; split_and!; [done..|set_solver].
  all: destruct Hkept as (H1 & H2 & H3); split; [exact H1|]; right; exists v, s; rewrite H3; split_and!; [done..|set_solver].
Qed.

Lemma shutdown_follows t limit : session_inv t -> follows t (shutdown_session t limit).2.
Proof.
  intros Hi. destruct (shutdown_cases t limit Hi) as [Hi' [[Hs [Hp|[Hn Hp]]]|(v & s & Hv & Hid & Hs & Hp)]].
  - split; [done|]. exists []. rewrite app_nil_r, Hp. split; [done|constructor].
  - split; [done|]. exists []. rewrite app_nil_r, Hp. split; [done|]. constructor. by apply phase_no_session.
  - split; [done|]. eexists. split; [exact Hs|]. eapply phase_delete; [by apply phase_session|done].
Qed.

(** *** Opening *)

Lemma fresh_phase t : session_inv t -> ht_session_closed t = false -> ht_exchange_count t = 0%N ->
  phase t = Fresh /\ ht_session_id t = None /\ ht_protocol_version t = None /\ ht_initialized t = false.
Proof.
  intros (_ & Hf & _) Hc He. destruct (Hf Hc He) as (H1 & H2 & H3). split_and!; [|done..].
  unfold phase. by rewrite Hc, He.
Qed.

(** What [remember_initialize] makes of a fresh session. *)
Lemma remember_initialize_cases t response id limit requested :
  session_inv t -> ht_session_closed t = false -> ht_exchange_count t = 0%N ->
  let '(r, t') := remember_initialize t response id limit requested in
  ht_sent t' = ht_sent t /\ ht_exchange_count t' = 0%N /\ ht_initialized t' = false /\
  match r with
  | Ok _ => ht_session_closed t' = false /\ exists v, ht_protocol_version t' = Some v
  | Err _ => session_inv t' /\ ht_session_closed t' = true
  end.
Proof.
  intros Hi Hc He. destruct (fresh_phase t Hi Hc He) as (_ & _ & Hv & Hn). unfold remember_initialize.
  set (t1 := t <| ht_session_id := response_session (metadata response) |>).
  set (t2 := if bool_decide (is_Some (ht_session_id t1)) then t1 <| ht_protocol_version := Some requested |> else t1).
  assert (ht_sent t2 = ht_sent t /\ ht_exchange_count t2 = 0%N /\ ht_initialized t2 = false /\
          ht_session_closed t2 = false /\ (is_Some (ht_session_id t2) -> is_Some (ht_protocol_version t2)))
    as (H1 & H2 & H3 & H4 & H5).
  { unfold t2. case_bool_decide; by split_and!. }
  clearbody t2.
  destruct (negotiate response id limit requested) as [[text negotiated]|e].
  - cbv zeta. case_bool_decide; (split_and!; [done..|by eexists]).
  - split_and!; try done; by split_and!.
Qed.

(** A failed [initialize] closes what it opened. *)
Lemma http_initialize_follows t id request method limit :
  session_inv t -> ht_session_closed t = false -> ht_exchange_count t = 0%N -> has_method request method ->
  let '(r, t') := http_initialize t id request method limit in
  match r with
  | Ok _ => ht_sent t' = ht_sent t ++ [post_spec [] request false] /\ ht_exchange_count t' = 0%N /\
      ht_initialized t' = false /\ ht_session_closed t' = false /\ method = "initialize" /\
      exists v, ht_protocol_version t' = Some v
  | Err _ => follows t t'
  end.
Proof.
  intros Hi Hc He Hm. destruct (fresh_phase t Hi Hc He) as (Hp & _). unfold http_initialize.
  destruct (requested_protocol request method) as [requested|e] eqn:Er; [|by apply follows_same].
  assert (method = "initialize") as ->.
  { unfold requested_protocol in Er. apply reject_Ok in Er as [Em _]. by apply negb_false_iff, String.eqb_eq in Em. }
  pose proof (send_http_exchange_sends t (post_spec [] request false) limit) as [Hsame Hsent].
  destruct (send_http_exchange_request t _ limit) as [[response|e] t1]; cbn [fst snd] in *.
  2: { eapply follows_sent; [done..|]. rewrite Hp. by apply phase_initialize. }
  assert (session_inv t1) as Hi1 by (by eapply same_session_inv). pose proof Hsame as (He1 & _ & _ & Hc1 & _).
  pose proof (remember_initialize_cases t1 response id limit requested Hi1 ltac:(congruence) ltac:(congruence)) as Hr.
  destruct (remember_initialize t1 response id limit requested) as [[text|error] t2].
  { destruct Hr as (H1 & H2 & H3 & H4 & H5). split_and!; [by rewrite H1|done..]. }
  destruct Hr as (H1 & H2 & H3 & Hi2 & Hc2).
  assert (follows t (shutdown_session t2 limit).2) as Hf.
  { destruct (shutdown_cases t2 limit Hi2) as [Hi3 Hcases]. split; [done|]. rewrite Hp.
    assert (exists left_over, phase t2 = Closed left_over) as [left_over Hp2] by (unfold phase; rewrite Hc2; by eexists).
    destruct Hcases as [[Hs Hph]|(v & s & Hv & Hid & Hs & Hph)].
    - eexists. split; [by rewrite Hs, H1|]. apply phase_initialize; [done|]. rewrite Hp2 in Hph.
      by destruct Hph as [->|[_ ->]].
    - exists [post_spec [] request false; delete_spec (headers_of v (Some s))].
      split; [by rewrite Hs, H1, Hsent, <- app_assoc|].
      assert (phase t2 = Closed (Some (v, s))) as E by (unfold phase; by rewrite Hc2, Hv, Hid). rewrite E in Hph.
      rewrite !elem_of_cons, elem_of_nil in Hph. destruct Hph as [->|[->|[->|[]]]]; apply phase_cleanup; auto. }
  by destruct (shutdown_session t2 limit) as [[x|cleanup_error] t3].
Qed.

Lemma saturating_positive n : saturating_add usize_max n 1 <> 0%N.
Proof. unfold saturating_add, usize_max, u64_max. lia. Qed.

(** Counting an exchange does not change the phase of an open session. *)
Lemma counted_phase t : ht_session_closed t = false -> ht_exchange_count t <> 0%N ->
  phase (t <| ht_exchange_count := saturating_add usize_max (ht_exchange_count t) 1 |>) = phase t.
Proof.
  destruct t as [endpoint hs audit n notes sid version closed init sent wire replies]. cbn [ht_session_closed ht_exchange_count]. intros -> Hn.
  unfold phase. cbn -[N.eqb saturating_add].
  by rewrite (proj2 (N.eqb_neq _ _) (saturating_positive _)), (proj2 (N.eqb_neq _ _) Hn).
Qed.

Lemma http_exchange_follows t id request timeout limit : session_inv t -> follows t (http_exchange t id request timeout limit).2.
Proof.
  intros Hi. unfold http_exchange. destruct (limit =? 0)%N; [by apply follows_same|].
  unfold ensure_not_closed. destruct (ht_session_closed t) eqn:Ec; [by apply follows_same|].
  destruct (json_string_field request "method") as [[method|]|e] eqn:Em; [|by apply follows_same..]. cbn [ok_or].
  destruct (ht_exchange_count t =? 0)%N eqn:Ee.
  - apply N.eqb_eq in Ee. pose proof (http_initialize_follows t id request method limit Hi Ec Ee Em) as H.
    destruct (http_initialize t id request method limit) as [[text|e] t1]; [|done].
    destruct H as (H1 & H2 & H3 & H4 & -> & v & Hv). destruct (fresh_phase t Hi Ec Ee) as (Hp & _).
    set (t2 := t1 <| ht_exchange_count := saturating_add usize_max (ht_exchange_count t1) 1 |>).
    assert (phase t2 = Opened v (ht_session_id t1)) as Hp2.
    { unfold phase.
      change (ht_session_closed t2) with (ht_session_closed t1).
      change (ht_exchange_count t2) with (saturating_add usize_max (ht_exchange_count t1) 1).
      change (ht_protocol_version t2) with (ht_protocol_version t1).
      change (ht_initialized t2) with (ht_initialized t1). change (ht_session_id t2) with (ht_session_id t1).
      by rewrite H4, (proj2 (N.eqb_neq _ _) (saturating_positive _)), Hv, H3. }
    split.
    + split_and!; [by intros _; cbn; rewrite Hv|intros _ Hz; by apply saturating_positive in Hz|by intros _ _; cbn; rewrite Hv].
    + exists [post_spec [] request false]. split; [exact H1|]. cbn [fst snd]. rewrite Hp, Hp2. by apply phase_initialize.
  - apply N.eqb_neq in Ee. pose proof (http_application_follows t id request method limit Hi Em) as [Hf Hok].
    destruct (http_application t id request method limit) as [[text|e] t1]; cbn [fst snd] in *; [|done].
    destruct (Hok eq_refl) as (_ & Hn1 & Hc1). pose proof Hf as [Hi1 _]. rewrite <- Hn1 in Ee.
    eapply follows_then; [exact Hf| |done|].
    + destruct Hi1 as (H1 & H2 & H3). split_and!; [exact H1|intros _ Hz; by apply saturating_positive in Hz|].
      intros Hc _. by apply H3.
    + apply counted_phase; done.
Qed.

(** *** Notifications *)

Lemma announced_phase t v : ht_session_closed t = false -> ht_exchange_count t <> 0%N -> ht_protocol_version t = Some v ->
  phase (t <| ht_initialized := true |>) = Ready v (ht_session_id t).
Proof.
  destruct t as [endpoint hs audit n notes sid version closed init sent wire replies].
  cbn [ht_session_closed ht_exchange_count ht_protocol_version ht_session_id]. intros -> Hn ->.
  unfold phase. cbn -[N.eqb]. by rewrite (proj2 (N.eqb_neq _ _) Hn).
Qed.

Lemma http_notify_follows t text timeout limit : session_inv t -> follows t (http_notify t text timeout limit).2.
Proof.
  intros Hi. unfold http_notify. destruct (limit =? 0)%N; [by apply follows_same|].
  unfold ensure_not_closed. destruct (ht_session_closed t) eqn:Ec; [by apply follows_same|].
  destruct (json_string_field text "method") as [[method|]|e] eqn:Em; [|by apply follows_same..]. cbn [ok_or].
  destruct (ht_exchange_count t =? 0)%N eqn:Ee; [by apply follows_same|]. cbv zeta.
  destruct (negb (ht_initialized t) && negb (String.eqb method INITIALIZED)) eqn:E1; [by apply follows_same|].
  destruct (ht_initialized t && String.eqb method INITIALIZED) eqn:E2; [by apply follows_same|].
  destruct (session_headers t) as [headers|e] eqn:Eh; [|by apply follows_same].
  assert (ensure_session_open t = Ok tt) as Ho.
  { unfold session_headers in Eh. by apply then_Ok in Eh as [[[] Ho] _]. }
  destruct (session_open_phase t Hi Ho) as (v & Hv & _ & Hn & Hh & Hp). rewrite Hh in Eh. injection Eh as <-.
  set (spec := post_spec (headers_of v (ht_session_id t)) text true).
  assert (forall q, q ∈ [phase t; Closed (left_of v (ht_session_id t)); Closed None] \/
    (String.eqb method INITIALIZED = true /\ q = Ready v (ht_session_id t)) -> phase_step (phase t) [spec] q) as Hstep.
  { intros q Hq. rewrite Hp in *. destruct (ht_initialized t) eqn:Ei; cbn [negb andb] in *.
    - eapply phase_notify; [done|by apply String.eqb_neq|]. destruct Hq as [Hq|[E _]]; [exact Hq|congruence].
    - apply negb_false_iff in E1. apply String.eqb_eq in E1 as ->. apply phase_announce; [done|]. set_solver. }
  pose proof (send_http_request_sends t spec limit) as [Hsame Hsent].
  assert (follows t (send_http_request t spec limit).2) as Hf.
  { eapply follows_sent; [done..|]. apply Hstep. left. set_solver. }
  destruct (send_http_request t spec limit) as [[response|e] t1]; cbn [fst snd] in *; [|done].
  assert (session_inv t1) as Hi1 by (by eapply same_session_inv).
  destruct (check_session_cases t1 response Hi1) as [->|(e & He & Hshut)].
  2: { destruct (check_session t1 response) as [[]]; [done|]. eapply follows_shut; [done..|]. intros q Hq. apply Hstep. set_solver. }
  destruct (validate_http_notification_response response limit); [|done]. cbn [fst snd].
  destruct (String.eqb method INITIALIZED) eqn:Ei; [|exact Hf].
  pose proof Hsame as (Hsn & Hsid & Hsv & Hsc & _). split.
  - destruct Hi1 as (H1 & _ & H3). split_and!; [exact H1| |exact H3]. cbn. intros _ Hz. congruence.
  - exists [spec]. split; [exact Hsent|]. apply Hstep. right. split; [done|].
    rewrite <- Hsid. rewrite <- (announced_phase t1 v); [done|congruence..].
Qed.

(** *** Event streams *)

Lemma http_get_follows t limit : session_inv t -> follows t (http_get t limit).2.
Proof.
  intros Hi. unfold http_get. destruct (limit =? 0)%N; [by apply follows_same|].
  destruct (ensure_session_ready t) as [[]|e] eqn:Er; [|by apply follows_same].
  destruct (session_ready_phase t Hi Er) as (v & Hv & _ & _ & -> & _).
  set (spec := get_spec _). pose proof (send_http_request_sends t spec limit) as [Hsame Hsent].
  pose proof (ready_request t spec (send_http_request t spec limit) id Hi Er Hsame Hsent
    ltac:(intros v' q Hq Hv'; simplify_eq; by apply phase_listen)) as H.
  destruct (send_http_request t spec limit) as [[response|e] t1]; cbn [fst snd] in *; [|done]. unfold id in H.
  destruct (check_session t1 response) as [[x|e] t2]; [|done]. destruct H as [-> Hf].
  by destruct (decode_http_event_stream_response response limit).
Qed.

Lemma open_event_stream_follows t limit : session_inv t -> follows t (open_event_stream t limit).2.
Proof.
  intros Hi. unfold open_event_stream. destruct (limit =? 0)%N; [by apply follows_same|].
  destruct (ensure_session_ready t) as [[]|e] eqn:Er; [|by apply follows_same].
  destruct (session_ready_phase t Hi Er) as (v & Hv & _ & _ & -> & _).
  set (spec := get_spec _). pose proof (open_http_response_sends t spec limit) as [Hsame Hsent].
  pose proof (ready_request t spec (open_http_response t spec limit) or_metadata Hi Er Hsame Hsent
    ltac:(intros v' q Hq Hv'; simplify_eq; by apply phase_listen)) as H.
  destruct (open_http_response t spec limit) as [[response|e] t1]; cbn [fst snd] in *; [|done].
  destruct (check_session t1 (or_metadata response)) as [[x|e] t2]; [|done]. destruct H as [-> Hf].
  destruct (validate_http_event_stream_metadata (or_metadata response)); [|done]. by destruct (or_persistent_stream response limit).
Qed.

(** A request's envelope names its method. *)
Lemma envelope_method request id : parse_sse_json_rpc_envelope request = Ok (id, Request) ->
  exists method, has_method request method.
Proof.
  unfold parse_sse_json_rpc_envelope, has_method, json_string_field, json_field_value.
  destruct (parse_json_object_fields request) as [fields|]; [|done].
  destruct (transpose parse_json_string (fields !! "jsonrpc")) as [version|]; [|done]. intros H.
  apply reject_Ok in H as [_ H]. destruct (transpose parse_sse_json_rpc_id (fields !! "id")) as [rid|]; [|done].
  destruct (transpose parse_json_string (fields !! "method")) as [[method|]|] eqn:Em; [by exists method| |done].
  apply reject_Ok in H as [_ H]. cbv zeta in H. by repeat case_match; simplify_eq.
Qed.

Lemma post_event_stream_follows t id request limit : session_inv t -> follows t (post_event_stream t id request limit).2.
Proof.
  intros Hi. unfold post_event_stream. destruct (limit =? 0)%N; [by apply follows_same|].
  destruct (ensure_session_ready t) as [[]|e] eqn:Er; [|by apply follows_same].
  destruct (session_ready_phase t Hi Er) as (v & Hv & Hc & Hn & Hh & _).
  destruct (parse_sse_json_rpc_envelope request) as [[rid kind]|e] eqn:Ep; [|by apply follows_same]. cbn [fst snd].
  destruct (negb (bool_decide (kind = Request)) || _) eqn:Ek; [by apply follows_same|].
  apply orb_false_iff in Ek as [Ek _]. apply negb_false_iff, bool_decide_eq_true in Ek as ->.
  destruct (envelope_method _ _ Ep) as [method Hm]. rewrite Hm.
  case_bool_decide as Einit; [by apply follows_same|]. rewrite Hh. set (spec := post_spec _ _ _).
  pose proof (open_http_response_sends t spec limit) as [Hsame Hsent].
  pose proof (ready_request t spec (open_http_response t spec limit) or_metadata Hi Er Hsame Hsent
    ltac:(intros v' q Hq Hv'; simplify_eq; eapply phase_exchange; [done|congruence|done])) as H.
  destruct (open_http_response t spec limit) as [[response|e] t1]; cbn [fst snd] in *; [|done].
  destruct (check_session t1 (or_metadata response)) as [[x|e] t2]; [|done]. destruct H as [-> Hf].
  destruct (negb (is_success _)); [done|]. destruct (require_event_stream_content_type _); [|done].
  destruct (or_persistent_stream response limit); [|done]. cbn [fst snd]. pose proof Hf as [(H1 & H2 & H3) _].
  destruct Hsame as (Hsn & _ & _ & Hsc & _). eapply follows_then; [exact Hf| |done|].
  - split_and!; [exact H1|intros _ Hz; by apply saturating_positive in Hz|]. intros Hcl _. apply H3; [exact Hcl|congruence].
  - etransitivity; [by apply same_session_phase, http_audit_same|]. apply counted_phase; congruence.
Qed.

(** ** Runs *)

Inductive transport_step : McpHttpJsonRpcTransport -> McpHttpJsonRpcTransport -> Prop :=
| step_exchange t id request timeout limit : transport_step t (http_exchange t id request timeout limit).2
| step_notify t text timeout limit : transport_step t (http_notify t text timeout limit).2
| step_get t limit : transport_step t (http_get t limit).2
| step_open_stream t limit : transport_step t (open_event_stream t limit).2
| step_post_stream t id request limit : transport_step t (post_event_stream t id request limit).2
| step_shutdown t limit : transport_step t (shutdown_session t limit).2.

Inductive phase_run : SessionPhase -> list HttpRequestSpec -> SessionPhase -> Prop :=
| run_start p : phase_run p [] p
| run_more p requests q more q' : phase_run p requests q -> phase_step q more q' -> phase_run p (requests ++ more) q'.

Lemma transport_step_follows t t' : transport_step t t' -> session_inv t -> follows t t'.
Proof.
  destruct 1; auto using http_exchange_follows, http_notify_follows, http_get_follows, open_event_stream_follows,
    post_event_stream_follows, shutdown_follows.
Qed.

Lemma http_transport_new_fresh config headers connector replies t : http_transport_new config headers connector replies = Ok t ->
  exists audit, t = MkHttp (hc_endpoint config) headers audit 0 0 None None false false [] [] replies.
Proof.
  unfold http_transport_new. intros H. apply then_Ok in H as [_ H]. destruct (http_url_parse _) as [parsed|]; [|done].
  apply then_Ok in H as [_ H]. apply then_Ok in H as [_ H]. cbv zeta in H. injection H as <-. by eexists.
Qed.

Lemma transport_run config headers connector replies t0 t :
  http_transport_new config headers connector replies = Ok t0 -> rtc transport_step t0 t ->
  session_inv t /\ phase_run Fresh (ht_sent t) (phase t).
Proof.
  intros H0 H. apply http_transport_new_fresh in H0 as [audit ->].
  apply rtc_ind_r with (P := fun t => session_inv t /\ phase_run Fresh (ht_sent t) (phase t)) in H; [done| |].
  - split; [|constructor]. split_and!; [by intros [? ?]|done..].
  - intros t1 t2 _ Hstep [Hi Hrun]. destruct (transport_step_follows _ _ Hstep Hi) as (Hi2 & requests & -> & Hp).
    split; [done|]. by eapply run_more.
Qed.

(** C21: A new transport follows the session automaton, whatever is asked of it in
    whatever order and whatever the server answers: the requests it has sent
    are a run of the automaton from the fresh phase to the phase it is in. *)
Theorem http_session_refines config headers connector replies t0 t :
  http_transport_new config headers connector replies = Ok t0 -> rtc transport_step t0 t ->
  phase_run Fresh (ht_sent t) (phase t).
Proof. intros H0 H. by apply (transport_run config headers connector replies t0 t). Qed.

(** *** One session *)

Definition starts_session (r : HttpRequestSpec) : Prop :=
  rs_extra_headers r = [] /\ rs_method r = "POST" /\ has_method (rs_body r) "initialize".

Definition uniform (h : list (string * string)) (log : list HttpRequestSpec) : Prop :=
  Forall (fun r => starts_session r \/ rs_extra_headers r = h) log.

(** What the requests of a run that ends in a phase carried. *)
Definition carried (p : SessionPhase) (log : list HttpRequestSpec) : Prop :=
  match session_of p with
  | Some (v, s) => uniform (headers_of v s) log
  | None => match p with Fresh => Forall starts_session log | _ => exists v s, uniform (headers_of v s) log end
  end.

Lemma starts_uniform h log : Forall starts_session log -> uniform h log.
Proof. intros H. eapply Forall_impl; [exact H|]. auto. Qed.

Lemma carried_closed v s left_over log :
  uniform (headers_of v s) log -> left_over = None \/ left_over = left_of v s -> carried (Closed left_over) log.
Proof. intros H [->| ->]; [by exists v, s|]. destruct s as [s|]; [done|]. by exists v, None. Qed.

(** A request with the session's headers, whatever it leads to. *)
Lemma carried_request v s p log r q :
  session_of p = Some (v, s) -> carried p log -> rs_extra_headers r = headers_of v s ->
  session_of q = Some (v, s) \/ q = Closed (left_of v s) \/ q = Closed None -> carried q (log ++ [r]).
Proof.
  intros Hp Hc Hr Hq. assert (uniform (headers_of v s) (log ++ [r])) as H.
  { apply Forall_snoc. split; [|by right]. unfold carried in Hc. by rewrite Hp in Hc. }
  destruct Hq as [Hq|[->| ->]]; [unfold carried; by rewrite Hq|..]; (eapply carried_closed; [exact H|auto]).
Qed.

Lemma carried_step p log more q : carried p log -> phase_step p more q -> carried q (log ++ more).
Proof.
  intros Hc Hstep. destruct Hstep as [p|p Hp|body q Hm Hq|body v s left_over Hm Hl|v s text q Hm Hq|v s text method q Hm Hn Hq
    |v s text method q Hm Hn Hq|v s q Hq|p v s q Hp Hq]; rewrite ?app_nil_r.
  - done.
  - unfold carried in Hc. destruct p as [|v s|v s|[[v s]|]]; cbn in Hc |- *; [|by eexists _, _..|done].
    exists "", None. by apply starts_uniform.
  - assert (Forall starts_session (log ++ [post_spec [] body false])) as H.
    { apply Forall_snoc. split; [exact Hc|]. by split_and!. }
    destruct q as [|v s|v s|[[v s]|]]; cbn; [done|by apply starts_uniform|done|by apply starts_uniform|].
    exists "", None. by apply starts_uniform.
  - apply (carried_closed v (Some s)); [|done]. apply Forall_app. split; [by apply starts_uniform|].
    constructor; [left; by split_and!|]. constructor; [by right|constructor].
  - apply (carried_request v s (Opened v s)); [done..|]. rewrite !elem_of_cons, elem_of_nil in Hq. naive_solver.
  - apply (carried_request v s (Ready v s)); [done..|]. rewrite !elem_of_cons, elem_of_nil in Hq. naive_solver.
  - apply (carried_request v s (Ready v s)); [done..|]. rewrite !elem_of_cons, elem_of_nil in Hq. naive_solver.
  - apply (carried_request v s (Ready v s)); [done..|]. rewrite !elem_of_cons, elem_of_nil in Hq. naive_solver.
  - apply (carried_request v (Some s) p); [done..|]. rewrite !elem_of_cons, elem_of_nil in Hq. naive_solver.
Qed.

Lemma run_carried log p : phase_run Fresh log p -> carried p log.
Proof.
  intros H. remember Fresh as p0 eqn:E. induction H as [|p requests q more q' _ IH Hstep]; subst; [constructor|].
  eapply carried_step; [by apply IH|done].
Qed.

Lemma carried_uniform p log : carried p log -> exists v s, uniform (headers_of v s) log.
Proof.
  unfold carried. destruct p as [|v s|v s|[[v s]|]]; cbn; intros H; [|by eexists _, _..|done].
  exists "", None. by apply starts_uniform.
Qed.

(** One transport is one session: a request without session headers is an
    [initialize] request, and all the others carry the same protocol version
    and the same session identifier, the one the server gave at
    [initialize], until the end. *)
Theorem http_session_uniform config headers connector replies t0 t :
  http_transport_new config headers connector replies = Ok t0 -> rtc transport_step t0 t ->
  exists version session, uniform (headers_of version session) (ht_sent t).
Proof.
  intros H0 H. eapply carried_uniform, run_carried. by apply (transport_run config headers connector replies t0 t).
Qed.

(** *** A concrete session *)

Definition sample_connection (response : string) : Res Connection :=
  Ok (MkConnection [Ok response] false (false, false) None).

Definition sample_result : string := js "{'jsonrpc':'2.0','id':1,'result':{'protocolVersion':'2025-11-25'}}".

Definition sample_replies : list (Res Connection) :=
  [sample_connection ("HTTP/1.1 200 OK" +:+ crlf +:+ "Content-Type: application/json" +:+ crlf +:+ "Mcp-Session-Id: s-1" +:+ crlf
     +:+ "Content-Length: " +:+ n_to_string (slen sample_result) +:+ crlf +:+ crlf +:+ sample_result);
   sample_connection ("HTTP/1.1 202 Accepted" +:+ crlf +:+ "Mcp-Session-Id: s-1" +:+ crlf +:+ crlf)].

Definition sample_http : Res McpHttpJsonRpcTransport :=
  http_transport_new (MkHttpConfig "http://localhost:8080/mcp" [] None Deny []) [("Authorization", "Bearer x")] (Ok tt)
    sample_replies.

(** The transport after [initialize] and its announcement. *)
Definition sample_ready (t : McpHttpJsonRpcTransport) : McpHttpJsonRpcTransport :=
  (http_notify (http_exchange t 1 (initialize_request 1 client_config_new) 30000 4096).2
     initialized_notification 30000 4096).2.

Lemma sample_ready_run t : rtc transport_step t (sample_ready t).
Proof. eapply rtc_l; [apply step_exchange|]. apply rtc_once, step_notify. Qed.

Lemma sample_session : exists t0, sample_http = Ok t0 /\ length (ht_sent (sample_ready t0)) = 2 /\
  length (ht_wire (sample_ready t0)) = 2 /\ phase (sample_ready t0) = Ready "2025-11-25" (Some "s-1").
Proof. eexists. split; [vm_compute; reflexivity|]. vm_compute. repeat split. Qed.

Lemma http_session_refines_witness :
  exists t, length (ht_wire t) = 2 /\ phase t = Ready "2025-11-25" (Some "s-1") /\
    phase_run Fresh (ht_sent t) (Ready "2025-11-25" (Some "s-1")).
Proof.
  destruct sample_session as (t0 & E & _ & Hw & Hp). exists (sample_ready t0). split; [exact Hw|]. split; [exact Hp|].
  rewrite <- Hp. exact (http_session_refines _ _ _ _ t0 (sample_ready t0) E (sample_ready_run t0)).
Defined.

Lemma http_session_uniform_witness : exists t version session,
  length (ht_sent t) = 2 /\ uniform (headers_of version session) (ht_sent t).
Proof.
  destruct sample_session as (t0 & E & Hl & _). exists (sample_ready t0).
  destruct (http_session_uniform _ _ _ _ t0 (sample_ready t0) E (sample_ready_run t0)) as (v & s & H).
  exists v, s. split; [exact Hl|exact H].
Defined.
