(* ===== verification/HttpRequestHead.v ===== *)
(** * Request heads (crates/eva-mcp/src/json_rpc.rs, open_http_response)

    The head of a request is its request line and one line per header, with
    every header name once, so no header value can add a header or end the
    head. *)

From Stdlib Require Import Ascii.
From stdpp Require Import base numbers strings gmap list.
From S2P Require Import Prelude RustStr Error Json JsonStrings McpJsonRpc HttpFraming HttpHead HttpSession.

Definition clean (s : string) : Prop := line_clean s = true.

Lemma clean_append s t : clean s -> clean t -> clean (s +:+ t).
Proof. unfold clean. rewrite line_clean_append. by intros -> ->. Qed.

(** A text whose characters are no controls, the tab apart, is one line. *)
Lemma value_clean value : utf8_valid value = true ->
  existsb (fun c => negb (String.eqb c (str tab)) && is_control c) (chars value) = false -> clean value.
Proof.
  intros Hu. destruct (utf8_scalars value Hu) as [Hs Hc]. rewrite <- Hc at 2. clear Hc Hu.
  induction Hs as [|c cs Hscalar _ IH]; [done|]. cbn [existsb]. intros [Hctl Hrest]%orb_false_iff.
  change (str_concat (c :: cs)) with (c +:+ str_concat cs). apply clean_append; [|by apply IH].
  destruct Hscalar as [(a & _ & ->)|(_ & Hb & _)].
  - unfold clean, line_clean. destruct (Ascii.eqb nl a) eqn:En; [apply Ascii.eqb_eq in En; subst a; done|].
    destruct (Ascii.eqb cr a) eqn:Ec; [apply Ascii.eqb_eq in Ec; subst a; done|]. cbn [contains_char str]. by rewrite En, Ec.
  - by apply (line_clean_bytes_all (fun b => (128 <=? byte_of b)%N)).
Qed.

(** The line of a header, and the names as they are compared. *)
Definition header_text (h : string * string) : string := h.1 +:+ ": " +:+ h.2.
Definition names_of (hs : list (string * string)) : list string := (fun h => to_ascii_lowercase h.1) <$> hs.

Lemma header_line_text name value : header_line name value = lines_text [header_text (name, value)].
Proof.
  unfold header_line, lines_text, header_text. cbn. by rewrite append_nil_r, <- !append_assoc.
Qed.

Lemma lines_text_app l1 l2 : lines_text (l1 ++ l2) = lines_text l1 +:+ lines_text l2.
Proof.
  unfold lines_text. rewrite fmap_app. induction l1 as [|l l1 IH]; [done|].
  rewrite fmap_cons. unfold str_concat in *. cbn [app foldr]. by rewrite IH, append_assoc.
Qed.

Lemma name_clean (p : ascii -> bool) name : p nl = false -> p cr = false -> bytes_all p name = true -> clean name.
Proof. intros. by apply (line_clean_bytes_all p). Qed.

Lemma header_clean name value : clean name -> clean value -> clean (header_text (name, value)).
Proof. intros. apply clean_append; [done|]. by apply clean_append. Qed.

(** Both loops append one line per header and no name twice. *)
Definition appended (names : gset string) (request : string) (hs : list (string * string)) (names' : gset string)
    (request' : string) : Prop :=
  request' = request +:+ lines_text (header_text <$> hs) /\ Forall (fun h => clean (header_text h)) hs /\
  NoDup (names_of hs) /\ (forall n, n ∈ names_of hs -> n ∉ names) /\ names' = list_to_set (names_of hs) ∪ names.

Lemma appended_nil names request : appended names request [] names request.
Proof.
  split_and!; [by cbn; rewrite append_nil_r|done|constructor|by intros n ?%not_elem_of_nil|set_solver].
Qed.

Lemma appended_cons names request name value hs names' request' :
  clean name -> clean value -> to_ascii_lowercase name ∉ names ->
  appended ({[to_ascii_lowercase name]} ∪ names) (request +:+ header_line name value) hs names' request' ->
  appended names request ((name, value) :: hs) names' request'.
Proof.
  intros Hn Hv Hnew (-> & Hc & Hnd & Hfresh & ->). unfold appended. cbn [names_of fmap list_fmap].
  split_and!.
  - rewrite header_line_text, <- append_assoc. f_equal. by rewrite <- lines_text_app.
  - constructor; [by apply header_clean|done].
  - constructor; [|done]. intros Hin. apply (Hfresh _ Hin). set_solver.
  - intros n [->|Hin]%elem_of_cons; [done|]. specialize (Hfresh n Hin). set_solver.
  - set_solver.
Qed.

Lemma push_headers_lines hs : forall names request names' request',
  Forall (fun h => utf8_valid h.2 = true) hs ->
  push_headers names request hs = Ok (names', request') -> appended names request hs names' request'.
Proof.
  induction hs as [|[name value] hs IH]; intros names request names' request' Hu H; cbn [push_headers] in H.
  { injection H as <- <-. apply appended_nil. }
  inversion Hu as [|? ? Hv Hu']; subst. apply then_Ok in H as [[[] Hval] H]. apply reject_Ok in H as [Hnew H].
  apply bool_decide_eq_false in Hnew. unfold validate_http_header in Hval. apply reject_Ok in Hval as [Hname Hval].
  apply orb_false_iff in Hname as [_ Hname]. apply negb_false_iff in Hname.
  apply reject_Ok in Hval as [_ Hval]. apply reject_Ok in Hval as [Hctl _].
  apply appended_cons; [by eapply name_clean; [..|exact Hname]|by apply value_clean|done|by apply IH].
Qed.

Lemma push_extra_headers_lines hs : forall names request names' request',
  push_extra_headers names request hs = Ok (names', request') -> appended names request hs names' request'.
Proof.
  induction hs as [|[name value] hs IH]; intros names request names' request' H; cbn [push_extra_headers] in H.
  { injection H as <- <-. apply appended_nil. }
  apply then_Ok in H as [[[] Hval] H]. apply reject_Ok in H as [Hnew H]. apply bool_decide_eq_false in Hnew.
  unfold validate_internal_http_header in Hval. apply reject_Ok in Hval as [Hname Hval].
  apply orb_false_iff in Hname as [_ Hname]. apply negb_false_iff in Hname. apply reject_Ok in Hval as [Hvalue _].
  apply orb_false_iff in Hvalue as [_ Hvalue]. apply negb_false_iff in Hvalue.
  apply appended_cons; [by eapply name_clean; [..|exact Hname]|by eapply name_clean; [..|exact Hvalue]|done|by apply IH].
Qed.

(** The headers the transport writes itself. *)
Definition own_headers (authority : string) (spec : HttpRequestSpec) : list (string * string) :=
  [("Host", authority); ("Connection", "close"); ("Accept", rs_accept spec)] ++
  (if str_is_empty (rs_body spec) then []
   else [("Content-Type", "application/json"); ("Content-Length", n_to_string (slen (rs_body spec)))]).

Definition request_line (path : string) (spec : HttpRequestSpec) : string :=
  rs_method spec +:+ " " +:+ path +:+ " HTTP/1.1".

Lemma own_request_head_lines path authority spec :
  own_request_head path authority spec =
  (list_to_set (names_of (own_headers authority spec)),
   lines_text (request_line path spec :: (header_text <$> own_headers authority spec))).
Proof.
  unfold own_request_head, own_headers. cbv zeta. rewrite !header_line_text.
  destruct (str_is_empty (rs_body spec)); f_equal.
  - change (request_line path spec :: _) with ([request_line path spec] ++ [header_text ("Host", authority)] ++
      [header_text ("Connection", "close")] ++ [header_text ("Accept", rs_accept spec)]).
    rewrite !lines_text_app. unfold request_line, lines_text at 4. cbn [fmap list_fmap str_concat foldr].
    by rewrite append_nil_r, <- !append_assoc.
  - change (request_line path spec :: _) with ([request_line path spec] ++ [header_text ("Host", authority)] ++
      [header_text ("Connection", "close")] ++ [header_text ("Accept", rs_accept spec)] ++
      [header_text ("Content-Type", "application/json")] ++
      [header_text ("Content-Length", n_to_string (slen (rs_body spec)))]).
    rewrite !lines_text_app. unfold request_line, lines_text at 6. cbn [fmap list_fmap str_concat foldr].
    by rewrite append_nil_r, <- !append_assoc.
Qed.

Lemma own_headers_ok authority spec : clean authority -> clean (rs_accept spec) ->
  Forall (fun h => clean (header_text h)) (own_headers authority spec) /\ NoDup (names_of (own_headers authority spec)).
Proof.
  intros Ha Hc. unfold own_headers. destruct (str_is_empty (rs_body spec)); split.
  2, 4: apply (bool_decide_unpack _); vm_compute; exact I.
  all: cbn [app]; rewrite !Forall_cons, Forall_nil; split_and!; try done; apply header_clean; try done.
  apply n_to_string_clean.
Qed.

Lemma request_head_lines path authority headers spec text :
  clean path -> clean authority -> Forall (fun h => utf8_valid h.2 = true) headers ->
  http_request_head path authority headers spec = Ok text ->
  let hs := own_headers authority spec ++ headers ++ rs_extra_headers spec in
  text = lines_text (request_line path spec :: (header_text <$> hs)) +:+ crlf /\
  Forall clean (request_line path spec :: (header_text <$> hs)) /\ NoDup (names_of hs).
Proof.
  intros Hpath Hauth Hu H hs. unfold http_request_head in H. apply reject_Ok in H as [Hm H].
  apply orb_false_iff in Hm as [_ Hm]. apply negb_false_iff in Hm. apply reject_Ok in H as [Ha H].
  apply orb_false_iff in Ha as [_ Ha]. apply negb_false_iff in Ha. rewrite own_request_head_lines in H.
  assert (clean (rs_accept spec)) as Haccept by (by eapply name_clean; [..|exact Ha]).
  destruct (own_headers_ok authority spec Hauth Haccept) as [Hc0 Hn0].
  set (own := own_headers authority spec) in *.
  destruct (push_headers _ _ headers) as [[names1 request1]|e] eqn:E1; [|done].
  destruct (push_extra_headers names1 request1 _) as [[names2 request2]|e] eqn:E2; [|done].
  injection H as <-. apply push_headers_lines in E1 as (-> & Hc1 & Hn1 & Hf1 & ->); [|done].
  apply push_extra_headers_lines in E2 as (-> & Hc2 & Hn2 & Hf2 & _). unfold hs. split_and!.
  - by rewrite <- !lines_text_app, !fmap_app, app_comm_cons, app_assoc.
  - constructor; [|rewrite Forall_fmap, !Forall_app; by split_and!]. unfold request_line.
    apply clean_append; [by eapply name_clean; [..|exact Hm]|]. apply clean_append; [done|]. by apply clean_append.
  - unfold names_of in *. rewrite !fmap_app. apply NoDup_app. split_and!; [done| |].
    + intros n Hin Hin2. apply elem_of_app in Hin2 as [Hin2|Hin2]; [apply (Hf1 n Hin2)|apply (Hf2 n Hin2)]; set_solver.
    + apply NoDup_app. split_and!; [done| |done]. intros n Hin Hin2. apply (Hf2 n Hin2). set_solver.
Qed.
