(* ===== verification/McpEndpointLaws.v ===== *)
(** * Endpoints have one spelling (crates/eva-mcp/src/session.rs, json_rpc.rs)

    [canonicalize] is idempotent, and the view of an endpoint that the origin
    policy compares agrees with the one that the connection uses. *)

From Stdlib Require Import Ascii.
From stdpp Require Import base numbers strings gmap list.
From S2P Require Import Prelude RustStr Error Json JsonStrings Ipv6 HttpFraming McpEndpoint HttpSession HttpRequestHead.

(** ** Searching *)

Definition none_of (p : ascii -> bool) (s : string) : Prop := bytes_all (fun c => negb (p c)) s = true.
(** The text is empty or starts with a character of [p]. *)
Definition starts_at (p : ascii -> bool) (s : string) : Prop := match s with EmptyString => True | String c _ => p c = true end.

Lemma break_at_spec p s a b : break_at p s = (a, b) -> s = a +:+ b /\ none_of p a /\ starts_at p b.
Proof.
  revert a. induction s as [|c s IH]; intros a H; cbn [break_at] in H; [by injection H as <- <-|].
  destruct (p c) eqn:Ec; [by injection H as <- <-|]. destruct (break_at p s) as [a' b'] eqn:E. injection H as <- <-.
  destruct (IH a' eq_refl) as (-> & H2 & H3). split_and!; [done| |done]. unfold none_of in *. cbn [bytes_all]. by rewrite Ec, H2.
Qed.

Lemma break_at_app p a b : none_of p a -> starts_at p b -> break_at p (a +:+ b) = (a, b).
Proof.
  intros Ha Hb. induction a as [|c a IH].
  - rewrite append_nil_l. destruct b as [|c b]; [done|]. cbn in Hb |- *. by rewrite Hb.
  - unfold none_of in Ha. cbn [bytes_all] in Ha. apply andb_true_iff in Ha as [Hc Ha]. apply negb_true_iff in Hc.
    rewrite append_cons. cbn [break_at]. by rewrite Hc, (IH Ha).
Qed.

Lemma rsplit_once_none c s : contains_char c s = false -> rsplit_once c s = None.
Proof.
  induction s as [|d s IH]; [done|]. cbn [contains_char rsplit_once]. intros [Hd Hs]%orb_false_iff. by rewrite IH, Hd.
Qed.

Lemma rsplit_once_app c a b : contains_char c b = false -> rsplit_once c (a +:+ String c b) = Some (a, b).
Proof.
  intros Hb. induction a as [|d a IH].
  - rewrite append_nil_l. cbn [rsplit_once]. by rewrite rsplit_once_none, Ascii.eqb_refl.
  - rewrite append_cons. cbn [rsplit_once]. by rewrite IH.
Qed.

Lemma count_char_append c a b : count_char c (a +:+ b) = count_char c a + count_char c b.
Proof. induction a as [|d a IH]; [done|]. rewrite append_cons. cbn [count_char]. rewrite IH. lia. Qed.

Lemma count_char_none c s : contains_char c s = false -> count_char c s = 0.
Proof. induction s as [|d s IH]; [done|]. cbn [contains_char count_char]. intros [-> Hs]%orb_false_iff. by rewrite IH. Qed.

(** ** UTF-8 *)

Lemma has_space_append a b : utf8_valid a = true -> has_space (a +:+ b) = has_space a || has_space b.
Proof. intros Ha. unfold has_space. by rewrite chars_append, existsb_app. Qed.

Lemma graphic_no_space s : bytes_all is_graphic s = true -> has_space s = false.
Proof.
  unfold has_space. apply graphic_existsb. intros c Hc. by rewrite graphic_not_control, graphic_not_whitespace.
Qed.

Lemma spaceless_clean s : utf8_valid s = true -> has_space s = false -> clean s.
Proof.
  intros Hu H. apply value_clean; [done|]. unfold has_space in H. revert H. generalize (chars s) as cs.
  induction cs as [|c cs IH]; [done|]. cbn [existsb]. rewrite !orb_false_iff. intros [[-> _] H].
  rewrite andb_false_r. split; [done|]. by apply IH.
Qed.

(** ** Authorities *)

Definition is_authority_byte (c : ascii) : bool := is_host_byte c || is_one_of "[]:" c.

(** The text of a port that is not the default. *)
Inductive port_text (scheme : string) : string -> N -> Prop :=
| port_default : port_text scheme "" (default_port scheme)
| port_other n : (0 < n)%N -> (n <= u16_max)%N -> n <> default_port scheme -> port_text scheme (":" +:+ n_to_string n) n.

Lemma parse_port_Ok value n : parse_port value = Ok n -> (0 < n)%N /\ (n <= u16_max)%N.
Proof.
  unfold parse_port. destruct (parse_uint u16_max value) as [m|e] eqn:E; [|done]. apply parse_uint_bound in E.
  destruct (m =? 0)%N eqn:E0; [done|]. intros [= <-]. apply N.eqb_neq in E0. split; [lia|done].
Qed.

Lemma parse_port_text n : (0 < n)%N -> (n <= u16_max)%N ->
  parse_port (n_to_string n) = Ok n /\ parse_http_port (n_to_string n) = Ok n.
Proof.
  intros Hn Hm. unfold parse_port, parse_http_port. rewrite parse_uint_to_string by done.
  by rewrite (proj2 (N.eqb_neq n 0)) by lia.
Qed.

Lemma default_port_ok scheme : (0 < default_port scheme)%N /\ (default_port scheme <= u16_max)%N.
Proof. unfold default_port. by destruct (String.eqb scheme "https"). Qed.

Lemma port_suffix_text scheme port :
  match port with Some n => (0 < n)%N /\ (n <= u16_max)%N | None => True end ->
  exists n, port_text scheme (port_suffix scheme port) n.
Proof.
  unfold port_suffix. destruct port as [n|]; [|by eexists; constructor]. intros [Hn Hm].
  destruct (n =? default_port scheme)%N eqn:E; [by eexists; constructor|]. apply N.eqb_neq in E. exists n. by constructor.
Qed.

Lemma port_text_bytes scheme ps n : port_text scheme ps n -> bytes_all is_authority_byte ps = true.
Proof.
  destruct 1 as [|n Hn Hm Hd]; [done|]. rewrite bytes_all_append. cbn [bytes_all].
  rewrite (bytes_all_impl is_ascii_digit is_authority_byte (n_to_string n)); [done| |apply n_to_string_digits].
  apply ascii_impl. vm_compute. reflexivity.
Qed.

Lemma bracket_or_name (a : string) : (exists r, a = String "[" r) \/ ~ exists r, a = String "[" r.
Proof.
  destruct a as [|c r]; [right; by intros (r & ?)|]. destruct (Ascii.eqb "[" c) eqn:E.
  - apply Ascii.eqb_eq in E as <-. left. by exists r.
  - right. intros (r' & [= -> _]). by rewrite Ascii.eqb_refl in E.
Qed.

(** A text without a bracket in front is a name. *)
Lemma match_bracket {B} (a : string) (f : string -> B) (d : B) : ~ (exists r, a = String "[" r) ->
  match a with String "[" after => f after | _ => d end = d.
Proof.
  intros H. destruct a as [|c r]; [done|].
  destruct c as [[] [] [] [] [] [] [] []]; try done. by destruct H; exists r.
Qed.

Lemma digits_no c n : is_ascii_digit c = false -> contains_char c (n_to_string n) = false.
Proof.
  intros Hc. apply contains_char_false. eapply bytes_all_impl; [|apply n_to_string_digits].
  intros b Hb. apply negb_true_iff. destruct (Ascii.eqb c b) eqn:E; [|done]. apply Ascii.eqb_eq in E as ->. congruence.
Qed.

Lemma bytes_no (p : ascii -> bool) c s : p c = false -> bytes_all p s = true -> contains_char c s = false.
Proof.
  intros Hc H. apply contains_char_false. eapply bytes_all_impl; [|exact H]. intros b Hb. apply negb_true_iff.
  destruct (Ascii.eqb c b) eqn:E; [|done]. apply Ascii.eqb_eq in E as ->. congruence.
Qed.

Lemma lower_idempotent s : to_ascii_lowercase (to_ascii_lowercase s) = to_ascii_lowercase s.
Proof.
  induction s as [|c s IH]; [done|]. cbn [to_ascii_lowercase]. rewrite IH. f_equal.
  assert (Ascii.eqb (ascii_lower (ascii_lower c)) (ascii_lower c) = true) as H%Ascii.eqb_eq; [|done].
  revert c. apply ascii_forall. vm_compute. reflexivity.
Qed.

(** What a canonical authority is good for. *)
Definition authority_fixed (scheme a : string) : Prop :=
  canonical_authority scheme a = Ok a /\ bytes_all is_authority_byte a = true /\ a <> "" /\
  exists host port, parse_http_authority scheme a = Ok (host, port) /\ (0 < port)%N /\ (port <= u16_max)%N.

Lemma name_fixed scheme host ps n : host <> "" -> to_ascii_lowercase host = host -> bytes_all is_host_byte host = true ->
  port_text scheme ps n -> authority_fixed scheme (host +:+ ps).
Proof.
  intros Hne Hlow Hh Hps.
  assert (contains_char ":" host = false) as Hc by (by eapply bytes_no; [|exact Hh]).
  assert (~ exists r, host +:+ ps = String "[" r) as Hb.
  { intros (r & E). destruct host as [|c host]; [done|]. rewrite append_cons in E. injection E as -> _. by cbn in Hh. }
  assert (str_is_empty host = false) as He by (by apply String.eqb_neq).
  assert (String.eqb host "*" = false) as Hstar by (apply String.eqb_neq; by intros ->).
  unfold authority_fixed, canonical_authority, parse_http_authority. rewrite !match_bracket by done.
  assert (bytes_all is_authority_byte (host +:+ ps) = true) as Hbytes.
  { rewrite bytes_all_append, (port_text_bytes scheme ps n) by done. rewrite andb_true_r.
    eapply bytes_all_impl; [|exact Hh]. apply ascii_impl. vm_compute. reflexivity. }
  destruct Hps as [|n Hn Hm Hd].
  - rewrite append_nil_r in *. unfold name_authority. rewrite count_char_none, rsplit_once_none by done.
    cbn [Nat.ltb Nat.leb]. rewrite Hlow, He, Hstar, Hh. cbn [orb negb port_suffix]. rewrite append_nil_r.
    split_and!; [done..|]. exists host, (default_port scheme). split; [done|]. apply default_port_ok.
  - change (":" +:+ n_to_string n) with (String ":" (n_to_string n)) in *. unfold name_authority.
    assert (contains_char ":" (n_to_string n) = false) as Hcn by by apply digits_no.
    assert (str_is_empty (n_to_string n) = false) as Hen by apply String.eqb_neq, n_to_string_nonempty.
    destruct (parse_port_text n Hn Hm) as [Hp1 Hp2].
    assert (count_char ":" (host +:+ String ":" (n_to_string n)) = 1) as ->.
    { rewrite count_char_append, count_char_none by done. cbn [count_char]. rewrite count_char_none by done. done. }
    rewrite rsplit_once_app by done. cbn [Nat.ltb Nat.leb]. rewrite He, Hen, Hp1, Hp2. cbn [orb].
    rewrite Hlow, He, Hstar, Hh. cbn [orb negb port_suffix]. rewrite (proj2 (N.eqb_neq _ _) Hd).
    split_and!; [done..| |by exists host, n]. by destruct host.
Qed.

Lemma bracket_fixed scheme gs ps n : ipv6_ok gs -> port_text scheme ps n ->
  authority_fixed scheme ("[" +:+ ipv6_to_string gs +:+ "]" +:+ ps).
Proof.
  intros Hgs Hps. pose proof (ipv6_roundtrip gs Hgs) as Hparse. destruct Hgs as [_ Hg].
  assert (none_of (Ascii.eqb "]") (ipv6_to_string gs)) as Hno.
  { apply ipv6_chars; [done|]. intros c. apply (ascii_impl is_ipv6_char (fun c => negb (Ascii.eqb "]" c))). vm_compute. reflexivity. }
  assert (str_is_empty (ipv6_to_string gs) = false) as He.
  { apply String.eqb_neq. intros E. rewrite E in Hparse. done. }
  unfold authority_fixed.
  change ("[" +:+ ipv6_to_string gs +:+ "]" +:+ ps) with (String "[" (ipv6_to_string gs +:+ String "]" ps)).
  cbn [canonical_authority parse_http_authority]. unfold bracket_authority. rewrite !break_at_app by done.
  rewrite He, Hparse. cbn [ok_or].
  assert (bytes_all is_authority_byte (String "[" (ipv6_to_string gs +:+ String "]" ps)) = true) as Hbytes.
  { cbn [bytes_all]. rewrite bytes_all_append. cbn [bytes_all]. rewrite (port_text_bytes scheme ps n) by done.
    rewrite (ipv6_chars is_authority_byte) by (done || apply ascii_impl; vm_compute; reflexivity). done. }
  destruct Hps as [|n Hn Hm Hd].
  - cbn [str_is_empty]. change (str_is_empty "") with true. cbv beta iota. cbn [port_suffix].
    split_and!; [done..|]. exists (ipv6_to_string gs), (default_port scheme). split; [done|]. apply default_port_ok.
  - change (str_is_empty (":" +:+ n_to_string n)) with false. rewrite strip_prefix_append. cbn [ok_or].
    destruct (parse_port_text n Hn Hm) as [Hp1 Hp2]. rewrite Hp1, Hp2. cbn [port_suffix].
    rewrite (proj2 (N.eqb_neq _ _) Hd). split_and!; [done..|]. by exists (ipv6_to_string gs), n.
Qed.

Lemma canonical_authority_fixed scheme a a' : canonical_authority scheme a = Ok a' -> authority_fixed scheme a'.
Proof.
  intros H. destruct (bracket_or_name a) as [(r & ->)|Hs].
  - cbn [canonical_authority] in H.
    unfold bracket_authority in H. destruct (break_at (Ascii.eqb "]") r) as [host from] eqn:Eb.
    destruct from as [|c suffix]; [done|]. apply reject_Ok in H as [_ H].
    destruct (parse_ipv6 host) as [gs|] eqn:Eg; [|done]. cbn [ok_or] in H. apply parse_ipv6_ok in Eg.
    destruct (if str_is_empty suffix then _ else _) as [port|] eqn:Ep; [|done]. injection H as <-.
    destruct (port_suffix_text scheme port) as [n Hn]; [|by eapply bracket_fixed].
    destruct (str_is_empty suffix); [by injection Ep as <-|]. destruct (strip_prefix ":" suffix) as [v|]; [|done].
    cbn [ok_or] in Ep. destruct (parse_port v) as [n|] eqn:En; [|done]. injection Ep as <-. by apply parse_port_Ok in En.
  - unfold canonical_authority in H. rewrite match_bracket in H by done.
    unfold name_authority in H. apply reject_Ok in H as [_ H].
    destruct (match rsplit_once ":" a with Some _ => _ | None => _ end) as [[host port]|] eqn:Ep; [|done].
    apply reject_Ok in H as [Hbad H]. rewrite !orb_false_iff in Hbad. destruct Hbad as [[He _] Hb].
    apply negb_false_iff in Hb. apply String.eqb_neq in He. injection H as <-.
    destruct (port_suffix_text scheme port) as [n Hn]; [|eapply name_fixed; [done|apply lower_idempotent|done|done]].
    destruct (rsplit_once ":" a) as [[h p]|]; [|by injection Ep as <- <-]. apply reject_Ok in Ep as [_ Ep].
    destruct (parse_port p) as [m|] eqn:Em; [|done]. injection Ep as <- <-. by apply parse_port_Ok in Em.
Qed.

(** ** Endpoints *)

Definition path_start : ascii -> bool := is_one_of "/?".

(** A canonical endpoint in its parts. *)
Record canonical_parts (c scheme authority suffix : string) : Prop := {
  cp_text : c = scheme +:+ "://" +:+ authority +:+ suffix;
  cp_scheme : scheme = "http" \/ scheme = "https";
  cp_authority : authority_fixed scheme authority;
  cp_suffix : suffix = "" \/ exists r, suffix = "/" +:+ r;
  cp_no_fragment : contains_char "#" suffix = false;
  cp_spaceless : has_space suffix = false;
  cp_clean : clean suffix
}.

Lemma split_once_str_spec p s a b : split_once_str p s = Some (a, b) -> s = a +:+ p +:+ b.
Proof.
  revert a. induction s as [|c s IH]; intros a H; cbn [split_once_str] in H.
  - destruct (strip_prefix p "") as [r|] eqn:E; [|done]. injection H as <- <-. rewrite append_nil_l. by apply strip_prefix_Some.
  - destruct (strip_prefix p (String c s)) as [r|] eqn:E; [injection H as <- <-; rewrite append_nil_l; by apply strip_prefix_Some|].
    destruct (split_once_str p s) as [[a' b']|]; [|done]. injection H as <- <-. by rewrite append_cons, <- (IH a' eq_refl).
Qed.

(** The part of a valid text from a character on. *)
Lemma suffix_parts p c t : is_ascii c = true -> utf8_valid (p +:+ String c t) = true -> has_space (p +:+ String c t) = false ->
  has_space (String c t) = false /\ clean (String c t).
Proof.
  intros Hc Hu Hs. pose proof (utf8_valid_before p c t Hc Hu) as Hp. pose proof (spaceless_clean _ Hu Hs) as Hcl.
  rewrite has_space_append in Hs by done. apply orb_false_iff in Hs as [_ Hs]. split; [done|].
  unfold clean in *. rewrite line_clean_append in Hcl. by apply andb_true_iff in Hcl as [_ Hcl].
Qed.

Lemma separator_ascii d : is_one_of "/?" d = true -> is_ascii d = true.
Proof. revert d. apply ascii_impl. vm_compute. reflexivity. Qed.

Lemma canonicalize_parts url c : utf8_valid url = true -> canonicalize url = Ok c ->
  exists scheme authority suffix, canonical_parts c scheme authority suffix.
Proof.
  intros Hu H. unfold canonicalize in H. destruct (split_once_str "://" url) as [[scheme rest]|] eqn:Es; [|done].
  cbn [ok_or] in H. apply split_once_str_spec in Es. apply reject_Ok in H as [Hsch H]. apply reject_Ok in H as [Hsp H].
  apply reject_Ok in H as [Hfr H]. destruct (break_at (is_one_of "/?") rest) as [authority suffix] eqn:Eb.
  apply break_at_spec in Eb as (-> & _ & Hat). apply reject_Ok in H as [_ H]. apply reject_Ok in H as [_ H].
  destruct (canonical_authority _ authority) as [a'|] eqn:Ea; [|done]. injection H as <-.
  rewrite contains_char_append in Hfr. apply orb_false_iff in Hfr as [_ Hfr].
  exists (to_ascii_lowercase scheme), a', (if starts_with "?" suffix then "/" +:+ suffix else suffix).
  apply canonical_authority_fixed in Ea. split; try done.
  - apply negb_false_iff, orb_true_iff in Hsch as [Hs|Hs]; apply String.eqb_eq in Hs; auto.
  - destruct suffix as [|d t]; [by left|]. right. destruct (starts_with "?" (String d t)) eqn:Eq; [by eexists|].
    cbn in Hat. unfold is_one_of in Hat. cbn [contains_char] in Hat. apply orb_true_iff in Hat as [Hd|Hd].
    + apply Ascii.eqb_eq in Hd as ->. by exists t.
    + apply orb_true_iff in Hd as [Hd|Hd]; [|done]. apply Ascii.eqb_eq in Hd as ->. done.
  - by destruct (starts_with "?" suffix).
  - destruct suffix as [|d t]; [done|].
    assert (is_ascii d = true) as Hd by (by apply separator_ascii).
    subst url. rewrite !append_assoc in Hu, Hsp. destruct (suffix_parts _ d t Hd Hu Hsp) as [H1 _].
    destruct (starts_with "?" (String d t)); [|done]. by rewrite has_space_append, H1.
  - destruct suffix as [|d t]; [done|].
    assert (is_ascii d = true) as Hd by (by apply separator_ascii).
    subst url. rewrite !append_assoc in Hu, Hsp. destruct (suffix_parts _ d t Hd Hu Hsp) as [_ H1].
    destruct (starts_with "?" (String d t)); [|done]. unfold clean in *. by rewrite line_clean_append, H1.
Qed.

Lemma split_scheme scheme rest : scheme = "http" \/ scheme = "https" ->
  split_once_str "://" (scheme +:+ "://" +:+ rest) = Some (scheme, rest).
Proof. by intros [-> | ->]. Qed.

Lemma authority_graphic a : bytes_all is_authority_byte a = true -> bytes_all is_graphic a = true.
Proof. apply bytes_all_impl, ascii_impl. vm_compute. reflexivity. Qed.

Lemma suffix_starts suffix : suffix = "" \/ (exists r, suffix = "/" +:+ r) -> starts_at (is_one_of "/?") suffix /\
  starts_at (is_one_of "/?#") suffix /\ starts_with "?" suffix = false /\ starts_with "#" suffix = false.
Proof. by intros [-> |(r & ->)]. Qed.

Lemma authority_none p a : (forall c, is_authority_byte c = true -> negb (p c) = true) -> bytes_all is_authority_byte a = true ->
  none_of p a.
Proof. intros Hp. by apply bytes_all_impl. Qed.

Lemma parts_canonicalize c scheme authority suffix : canonical_parts c scheme authority suffix -> canonicalize c = Ok c.
Proof.
  intros [-> Hs (Hfix & Hb & Hne & _) Hsuf Hfr Hsp _]. unfold canonicalize. rewrite split_scheme by done. cbn [ok_or].
  assert (to_ascii_lowercase scheme = scheme) as -> by by destruct Hs as [-> | ->].
  assert (String.eqb scheme "http" || String.eqb scheme "https" = true) as -> by by destruct Hs as [-> | ->].
  assert (bytes_all is_graphic (scheme +:+ "://" +:+ authority) = true) as Hg.
  { rewrite !bytes_all_append, (authority_graphic authority) by done. by destruct Hs as [-> | ->]. }
  assert (has_space (scheme +:+ "://" +:+ authority +:+ suffix) = false) as ->.
  { rewrite !append_assoc, <- (append_assoc scheme), has_space_append by by apply graphic_utf8. by rewrite graphic_no_space. }
  rewrite contains_char_append, Hfr, (bytes_no is_authority_byte "#") by done. cbn [negb orb].
  destruct (suffix_starts suffix Hsuf) as (H1 & _ & H3 & _).
  rewrite break_at_app; [|apply authority_none; [|done]; apply ascii_impl; vm_compute; reflexivity|done].
  rewrite (proj2 (String.eqb_neq _ _) Hne : str_is_empty authority = false).
  rewrite (bytes_no is_authority_byte "@") by done. by rewrite Hfix, H3.
Qed.

(** The canonical spelling of an endpoint is canonical: spelling it again
    changes nothing, so two endpoints are the same exactly when their
    canonical texts are. *)
Theorem canonicalize_idempotent url c : utf8_valid url = true -> canonicalize url = Ok c -> canonicalize c = Ok c.
Proof. intros Hu H. destruct (canonicalize_parts url c Hu H) as (s & a & x & Hp). by eapply parts_canonicalize. Qed.

(** For a URL that has a canonical spelling, the endpoint that the origin
    policy sees and the one that the connection uses have the same scheme,
    authority and origin; the port is a valid one, the path starts with a
    slash, and neither path nor authority can break the request's lines.
    Neither parser panics. *)
Theorem endpoint_views_agree url c : utf8_valid url = true -> canonicalize url = Ok c ->
  exists endpoint parsed, endpoint_parse url = Ok endpoint /\ http_url_parse url = Ok parsed /\
    hu_scheme parsed = ep_scheme endpoint /\ hu_authority parsed = ep_authority endpoint /\
    hu_origin parsed = ep_origin endpoint /\ (hu_scheme parsed = "http" \/ hu_scheme parsed = "https") /\
    (0 < hu_port parsed <= u16_max)%N /\ starts_with "/" (hu_path parsed) = true /\
    clean (hu_path parsed) /\ clean (hu_authority parsed) /\
    (c = hu_origin parsed +:+ hu_path parsed \/ c = hu_origin parsed /\ hu_path parsed = "/").
Proof.
  intros Hu H. destruct (canonicalize_parts url c Hu H) as (scheme & authority & suffix & [E Hs (Hfix & Hb & Hne & Hhost) Hsuf _ _ Hcl]).
  destruct Hhost as (host & port & Hhost & Hport). destruct (suffix_starts suffix Hsuf) as (H1 & H2 & H3 & H4).
  pose proof (authority_graphic authority Hb) as Hg.
  assert (clean authority) as Hca by (apply (name_clean is_graphic); done).
  unfold endpoint_parse, http_url_parse. rewrite H, E, split_scheme by done. cbn [ok_or].
  rewrite !break_at_app;
    [|apply authority_none; [|done]; apply ascii_impl; vm_compute; reflexivity|done
     |apply authority_none; [|done]; apply ascii_impl; vm_compute; reflexivity|done].
  cbn [fst]. rewrite (proj2 (String.eqb_neq _ _) Hne : str_is_empty authority = false).
  rewrite trim_graphic by done. rewrite (proj2 (String.eqb_neq _ _) Hne : str_is_empty authority = false).
  rewrite (bytes_no is_authority_byte "@") by done. rewrite Hhost, H3, H4. cbn [orb].
  eexists _, _. split; [reflexivity|]. split; [reflexivity|]. cbn.
  split_and!; [done..|by destruct Hport|by destruct Hport| | |done|].
  - destruct Hsuf as [->|(r & ->)]; done.
  - destruct Hsuf as [->|(r & ->)]; done.
  - destruct Hsuf as [->|(r & ->)]; [right; by rewrite append_nil_r|left]. by rewrite <- !append_assoc.
Qed.

Definition sample_url : string := "HTTPS://Example.COM:0443?q=1".

Lemma canonicalize_idempotent_witness : canonicalize "https://example.com/?q=1" = Ok "https://example.com/?q=1".
Proof.
  exact (canonicalize_idempotent sample_url _ ltac:(vm_compute; reflexivity) ltac:(vm_compute; reflexivity)).
Defined.

Lemma endpoint_views_agree_witness : exists endpoint parsed,
  endpoint_parse sample_url = Ok endpoint /\ http_url_parse sample_url = Ok parsed /\
  hu_origin parsed = ep_origin endpoint /\ hu_port parsed = 443%N.
Proof.
  destruct (endpoint_views_agree sample_url "https://example.com/?q=1" ltac:(vm_compute; reflexivity)
    ltac:(vm_compute; reflexivity)) as (e & p & H1 & H2 & _ & _ & H3 & _).
  exists e, p. split; [exact H1|]. split; [exact H2|]. split; [exact H3|].
  vm_compute in H2. injection H2 as <-. reflexivity.
Defined.

(** ** What an accepted transport configuration guarantees (session.rs) *)

Lemma validate_static_Ok c endpoint : validate_static c = Ok endpoint ->
  canonicalize (hc_endpoint c) = Ok (hc_endpoint c) /\ endpoint_parse (hc_endpoint c) = Ok endpoint /\
  origin_allowed (allowed_origins c) (ep_origin endpoint) = true /\
  validate_redirect_policy (redirect_policy c) = Ok tt.
Proof.
  unfold validate_static. destruct (canonicalize (hc_endpoint c)) as [canonical|]; [|done]. intros H.
  apply reject_Ok in H as [Hc H]. apply negb_false_iff, String.eqb_eq in Hc as ->.
  destruct (endpoint_parse (hc_endpoint c)) as [e|]; [|done]. apply then_Ok in H as [_ H]. apply then_Ok in H as [_ H].
  apply reject_Ok in H as [Ho H]. apply negb_false_iff in Ho. apply then_Ok in H as [_ H].
  apply reject_Ok in H as [_ H]. apply reject_Ok in H as [_ H]. apply then_Ok in H as [[[] Hr] H]. injection H as ->. done.
Qed.

(** A configuration with nothing but an endpoint is accepted whenever the
    endpoint has a canonical spelling. *)
Lemma http_config_new_total url : utf8_valid url = true ->
  http_config_new url = match canonicalize url with
                        | Ok c => Ok (MkHttpConfig c [] None Deny [])
                        | Err e => Err e
                        end.
Proof.
  intros Hu. unfold http_config_new. destruct (canonicalize url) as [c|e] eqn:Ec; [|done].
  destruct (canonicalize_parts url c Hu Ec) as (scheme & authority & suffix & Hp).
  assert (exists endpoint, endpoint_parse c = Ok endpoint) as [endpoint Ee].
  { pose proof (parts_canonicalize _ _ _ _ Hp) as Hc. destruct Hp as [-> Hs (_ & Hb & Hne & _) Hsuf _ _ _].
    unfold endpoint_parse. rewrite Hc, split_scheme by done. cbn [ok_or].
    destruct (suffix_starts suffix Hsuf) as (H1 & _).
    rewrite break_at_app; [|apply authority_none; [|done]; apply ascii_impl; vm_compute; reflexivity|done].
    cbn [fst]. rewrite (proj2 (String.eqb_neq _ _) Hne : str_is_empty authority = false). by eexists. }
  unfold validate_for_environment, validate_static. cbn [hc_endpoint].
  rewrite (parts_canonicalize _ _ _ _ Hp), String.eqb_refl, Ee. cbn. rewrite !andb_false_r. cbn. done.
Qed.

(** A redirect is followed exactly when the configuration itself is valid
    and follows redirects, and the target has the endpoint's own origin in
    canonical spelling; the origin is then one of the allowed ones, and at most
    ten hops are allowed. *)
Theorem redirect_within_origin c target :
  validate_redirect_target c target = Ok tt <->
  exists endpoint hops target_endpoint, validate_static c = Ok endpoint /\ redirect_policy c = SameOrigin hops /\
    (1 <= hops <= 10)%N /\ endpoint_parse target = Ok target_endpoint /\ ep_origin target_endpoint = ep_origin endpoint /\
    (allowed_origins c = [] \/ ep_origin target_endpoint ∈ allowed_origins c).
Proof.
  unfold validate_redirect_target. destruct (validate_static c) as [endpoint|e] eqn:Es.
  2: { split; [done|]. by intros (? & ? & ? & ? & _). }
  apply validate_static_Ok in Es as (_ & _ & Ho & Hr).
  destruct (endpoint_parse target) as [t|e].
  2: { split; [done|]. by intros (? & ? & ? & _ & _ & _ & ? & _). }
  destruct (redirect_policy c) as [|hops]; cbn [validate_redirect_policy] in Hr.
  { split; [done|]. by intros (? & ? & ? & _ & ? & _). }
  destruct ((1 <=? hops) && (hops <=? 10))%N eqn:Eh; [|done]. apply andb_true_iff in Eh as [H1 H2].
  apply N.leb_le in H1, H2. destruct (String.eqb (ep_origin t) (ep_origin endpoint)) eqn:Eo.
  - apply String.eqb_eq in Eo. rewrite Eo, Ho. cbn [negb]. split; [|done]. intros _.
    exists endpoint, hops, t. split_and!; [done..|]. rewrite Eo. unfold origin_allowed in Ho.
    apply orb_true_iff in Ho as [Ho|Ho]; [left|right]; by apply bool_decide_eq_true in Ho.
  - split; [done|]. intros (e' & h' & t' & [= <-] & _ & _ & [= <-] & E & _). by rewrite E, String.eqb_refl in Eo.
Qed.

(** The environments [validate_for_environment] takes for production. *)
Definition production (environment : string) : Prop :=
  to_ascii_lowercase environment ∈ ["prod"; "production"].

(** C37: a configuration is accepted for an environment exactly when it is
    valid by itself and, in production ("prod" or "production", in any case),
    an HTTPS endpoint comes with trust roots and with origins of which the
    endpoint's own is one. *)
Theorem production_origin_pinned c environment :
  validate_for_environment c environment = Ok tt <->
  exists endpoint, validate_static c = Ok endpoint /\ endpoint_parse (hc_endpoint c) = Ok endpoint /\
    (production environment -> ep_scheme endpoint = "https" ->
       trust_roots c <> [] /\ ep_origin endpoint ∈ allowed_origins c).
Proof.
  unfold validate_for_environment, production. destruct (validate_static c) as [e|] eqn:Es.
  2: { split; [done|]. by intros (? & ? & _). }
  pose proof Es as (_ & He & Ho & Hr)%validate_static_Ok. rewrite Hr. split.
  - intros H. exists e. split_and!; [done..|]. intros Henv Hs. rewrite (bool_decide_eq_true_2 _ Henv), Hs in H.
    apply reject_Ok in H as [H1 H]. apply reject_Ok in H as [H2 _].
    change (String.eqb "https" "https") with true in *. cbn [andb] in *.
    apply bool_decide_eq_false in H1, H2. split; [done|]. unfold origin_allowed in Ho.
    apply orb_true_iff in Ho as [Ho|Ho]; apply bool_decide_eq_true in Ho; [done|exact Ho].
  - intros (e' & [= <-] & _ & H). case_bool_decide as Henv; [|done].
    destruct (String.eqb (ep_scheme e) "https") eqn:Hs; [|done]. apply String.eqb_eq in Hs.
    destruct (H Henv Hs) as [H1 H2]. rewrite (bool_decide_eq_false_2 _ H1), bool_decide_eq_false_2; [done|].
    intros E. rewrite E in H2. by apply elem_of_nil in H2.
Qed.

Definition sample_config : McpStreamableHttpConfig :=
  MkHttpConfig "https://example.com/mcp" ["system"] None (SameOrigin 3) ["https://example.com"].

(** The short name of production, and the same configuration without its
    origins. *)
Lemma production_origin_pinned_witness :
  trust_roots sample_config <> [] /\ "https://example.com" ∈ allowed_origins sample_config /\
  validate_for_environment (MkHttpConfig "https://example.com/mcp" ["system"] None (SameOrigin 3) []) "PROD" <> Ok tt.
Proof.
  assert (validate_for_environment sample_config "Prod" = Ok tt) as H by (vm_compute; reflexivity).
  apply production_origin_pinned in H as (e & _ & He & H).
  vm_compute in He. injection He as <-. destruct H as [H1 H2]; [apply (bool_decide_unpack _); vm_compute; exact I|reflexivity|].
  split; [exact H1|]. split; [exact H2|]. intros H.
  apply production_origin_pinned in H as (e & _ & He & H). vm_compute in He. injection He as <-.
  destruct H as [_ H]; [apply (bool_decide_unpack _); vm_compute; exact I|reflexivity|]. by apply elem_of_nil in H.
Defined.
