(* ===== verification/HttpWire.v ===== *)
(** * What a transport writes (crates/eva-mcp/src/json_rpc.rs, session.rs)

    The texts that go out over a transport's connections, whatever is asked of
    it: each is the head of one request to the configured endpoint, followed by
    its body. *)

From Stdlib Require Import Ascii.
From stdpp Require Import base numbers strings gmap list relations.
From S2P Require Import Prelude RustStr Error Json McpJsonRpc McpClient HttpFraming HttpHead McpEndpoint.
From S2P Require Import Sse HttpSession HttpSessionSafety HttpRequestHead McpEndpointLaws.

(** The text of one request of a transport. *)
Definition request_text (endpoint : string) (headers : list (string * string)) (text : string) : Prop :=
  exists parsed spec head, http_url_parse endpoint = Ok parsed /\
    http_request_head (hu_path parsed) (hu_authority parsed) headers spec = Ok head /\ text = head +:+ rs_body spec.

(** The transport kept its target and wrote only requests. *)
Definition wired (t t' : McpHttpJsonRpcTransport) : Prop :=
  ht_endpoint t' = ht_endpoint t /\ ht_headers t' = ht_headers t /\
  exists texts, ht_wire t' = ht_wire t ++ texts /\ Forall (request_text (ht_endpoint t) (ht_headers t)) texts.

#[local] Instance wired_preorder : PreOrder wired.
Proof.
  split.
  - intros t. split_and!; [done..|]. exists []. by rewrite app_nil_r.
  - intros t1 t2 t3 (E1 & H1 & x1 & W1 & F1) (E2 & H2 & x2 & W2 & F2). split_and!; [congruence..|].
    exists (x1 ++ x2). rewrite W2, W1, app_assoc. split; [done|]. apply Forall_app. split; [done|]. by rewrite <- E1, <- H1.
Qed.

(** Changes that touch neither the target nor the wire. *)
Lemma wired_kept t t' : ht_endpoint t' = ht_endpoint t -> ht_headers t' = ht_headers t -> ht_wire t' = ht_wire t -> wired t t'.
Proof. intros H1 H2 H3. split_and!; [done..|]. exists []. by rewrite app_nil_r. Qed.

(** [let@] *)
Lemma wired_bind {A B} t (e : Res A * McpHttpJsonRpcTransport) (k : A -> McpHttpJsonRpcTransport -> Res B * McpHttpJsonRpcTransport) :
  wired t e.2 -> (forall x t1, wired t1 (k x t1).2) -> wired t (let@ x, t1 := e in k x t1).2.
Proof. destruct e as [[x|e] t1]; cbn [fst snd]; intros H Hk; [|done]. etransitivity; [exact H|apply Hk]. Qed.

Lemma open_http_response_wired t spec limit : wired t (open_http_response t spec limit).2.
Proof.
  unfold open_http_response. destruct (limit =? 0)%N; [by apply wired_kept|]. destruct (http_url_parse _) as [parsed|e] eqn:Ep; [|by apply wired_kept].
  destruct (http_request_head _ _ _ _) as [head|e] eqn:Eh; [|by apply wired_kept].
  destruct (ht_replies _) as [|[c|e] r]; [by apply wired_kept| |by apply wired_kept].
  split_and!; [done..|]. eexists. split; [reflexivity|]. constructor; [|done]. by exists parsed, spec, head.
Qed.

Lemma send_http_request_wired t spec limit : wired t (send_http_request t spec limit).2.
Proof. apply wired_bind; [apply open_http_response_wired|]. intros. reflexivity. Qed.

Lemma send_http_exchange_request_wired t spec limit : wired t (send_http_exchange_request t spec limit).2.
Proof. apply wired_bind; [apply open_http_response_wired|]. intros. reflexivity. Qed.

Lemma check_session_wired t response : wired t (check_session t response).2.
Proof.
  apply wired_bind; [unfold reject_unknown_session; by case_match; apply wired_kept|]. intros _ t1.
  unfold validate_response_session. repeat case_match; by apply wired_kept.
Qed.

Lemma remember_initialize_wired t response id limit requested : wired t (remember_initialize t response id limit requested).2.
Proof.
  unfold remember_initialize. destruct (negotiate _ _ _ _) as [[text negotiated]|e]; cbv zeta;
    repeat case_bool_decide; cbn [snd]; by apply wired_kept.
Qed.

Create HintDb wire.
#[local] Hint Resolve open_http_response_wired send_http_request_wired send_http_exchange_request_wired check_session_wired
  remember_initialize_wired : wire.

(** A step of an operation. *)
Ltac wire_step :=
  match goal with
  | |- wired ?t (_, ?t).2 => reflexivity
  | |- wired ?t (if ?b then _ else _).2 => destruct b
  | |- wired _ (_, if ?b then _ else _).2 => destruct b
  | |- wired _ (match ?e with (_, _) => _ end).2 => apply wired_bind; [|intros]
  | |- wired _ (match ?r with Ok _ => _ | Err _ => _ end).2 => destruct r
  | |- wired _ _ => solve [auto with wire | by apply wired_kept]
  end.

Lemma shutdown_session_wired t limit : wired t (shutdown_session t limit).2.
Proof. unfold shutdown_session. repeat wire_step. Qed.
#[local] Hint Resolve shutdown_session_wired : wire.

Lemma http_initialize_wired t id request method limit : wired t (http_initialize t id request method limit).2.
Proof.
  unfold http_initialize. destruct (requested_protocol request method) as [requested|e]; [|done].
  apply wired_bind; [auto with wire|]. intros response t1.
  pose proof (remember_initialize_wired t1 response id limit requested) as Hr.
  destruct (remember_initialize t1 response id limit requested) as [[text|error] t2]; [done|]. cbn [snd] in Hr.
  pose proof (shutdown_session_wired t2 limit) as Hs.
  destruct (shutdown_session t2 limit) as [[y|e] t3]; cbn [snd] in *; by etransitivity.
Qed.

Lemma http_application_wired t id request method limit : wired t (http_application t id request method limit).2.
Proof. unfold http_application. repeat wire_step. Qed.
#[local] Hint Resolve http_initialize_wired http_application_wired : wire.

Lemma transport_step_wired t t' : transport_step t t' -> wired t t'.
Proof.
  destruct 1; [unfold http_exchange|unfold http_notify; cbv zeta|unfold http_get|unfold open_event_stream|unfold post_event_stream|
    apply shutdown_session_wired]; repeat wire_step.
Qed.

(** Everything a transport writes is the head of a request to its own
    endpoint and the request's body: the head is the request line and one line
    per header, none with a line break, no header name twice, and it names
    the endpoint's authority as its host.  This holds for every configuration
    that is accepted, in any order of operations, whatever the server answers. *)
Theorem http_wire_well_formed config headers connector replies t0 t :
  http_transport_new config headers connector replies = Ok t0 -> rtc transport_step t0 t ->
  utf8_valid (hc_endpoint config) = true -> Forall (fun h => utf8_valid h.2 = true) headers ->
  exists endpoint, endpoint_parse (hc_endpoint config) = Ok endpoint /\
    Forall (fun text => exists path spec hs, text = lines_text (request_line path spec :: (header_text <$> hs)) +:+ crlf +:+ rs_body spec /\
      hs = own_headers (ep_authority endpoint) spec ++ headers ++ rs_extra_headers spec /\
      Forall clean (request_line path spec :: (header_text <$> hs)) /\ NoDup (names_of hs)) (ht_wire t).
Proof.
  intros H0 H Hu Hh. assert (exists c, canonicalize (hc_endpoint config) = Ok c) as [c Ec].
  { unfold http_transport_new in H0. apply then_Ok in H0 as [_ H0]. unfold http_url_parse in H0.
    destruct (canonicalize (hc_endpoint config)) as [c|]; [by exists c|done]. }
  destruct (endpoint_views_agree _ c Hu Ec) as (endpoint & parsed & He & Hp & _ & Ha & _ & _ & _ & _ & Hcp & Hca & _).
  exists endpoint. split; [done|]. apply http_transport_new_fresh in H0 as [audit ->].
  set (t0 := MkHttp _ _ _ _ _ _ _ _ _ _ _ _) in H.
  assert (wired t0 t) as (_ & _ & texts & -> & Htexts).
  { induction H as [|t1 t2 t3 Hstep _ IH]; [reflexivity|]. etransitivity; [by apply transport_step_wired|exact IH]. }
  cbn [ht_wire app t0]. eapply Forall_impl; [exact Htexts|]. cbn [ht_endpoint ht_headers t0].
  intros text (parsed' & spec & head & Hp' & Hhead & ->). rewrite Hp in Hp'. injection Hp' as <-.
  destruct (request_head_lines _ _ _ _ _ Hcp Hca Hh Hhead) as (-> & H1 & H2).
  rewrite Ha in *. exists (hu_path parsed), spec. eexists. split; [by rewrite <- append_assoc|]. split; [reflexivity|]. done.
Qed.

Lemma http_wire_well_formed_witness : exists t endpoint, length (ht_wire t) = 2 /\ ep_authority endpoint = "localhost:8080" /\
  Forall (fun text => exists path spec hs, text = lines_text (request_line path spec :: (header_text <$> hs)) +:+ crlf +:+ rs_body spec /\
    hs = own_headers (ep_authority endpoint) spec ++ [("Authorization", "Bearer x")] ++ rs_extra_headers spec /\
    Forall clean (request_line path spec :: (header_text <$> hs)) /\ NoDup (names_of hs)) (ht_wire t).
Proof.
  destruct sample_session as (t0 & E & _ & Hw & _).
  destruct (http_wire_well_formed _ _ _ _ t0 (sample_ready t0) E (sample_ready_run t0)) as (endpoint & He & H).
  - reflexivity.
  - constructor; [reflexivity|constructor].
  - exists (sample_ready t0), endpoint. split; [exact Hw|]. split; [|exact H].
    vm_compute in He. injection He as <-. reflexivity.
Defined.
