(* ===== verification/McpServer.v ===== *)
(** * The MCP server's tools (crates/eva-mcp/src/server.rs)

    The tools a server exposes, the schema language for their arguments, the
    gate on tool names and the checks on a call's arguments. *)

From Stdlib Require Import Ascii.
From stdpp Require Import base numbers strings gmap list.
From S2P Require Import Prelude RustStr Error Json McpJsonRpc McpEndpoint.

Definition MAX_TOOL_NAME_BYTES : N := 128.
Definition MAX_TOOL_DESCRIPTION_BYTES : N := 1024.
Definition MAX_TOOL_SCHEMA_BYTES : N := 16 * 1024.
Definition ADAPTER_LIST_SCHEMA : string := js "{'type':'object','additionalProperties':false}".
Definition ADAPTER_PROBE_SCHEMA : string :=
  js "{'type':'object','properties':{'adapter_id':{'type':'string'}},'required':['adapter_id'],'additionalProperties':false}".

Definition schema_error : EvaError :=
  with_provider_code (invalid_argument "MCP server tool input schema is unsupported or invalid")
    "mcp_server_tool_schema_invalid".
Definition arguments_error : EvaError :=
  with_provider_code (invalid_argument "MCP server tool arguments must be a JSON object")
    "mcp_server_tool_arguments_invalid".
Definition argument_unknown : EvaError :=
  with_provider_code (invalid_argument "MCP server tool arguments contain an unknown field")
    "mcp_server_tool_argument_unknown".
Definition argument_missing : EvaError :=
  with_provider_code (invalid_argument "MCP server tool required argument is missing")
    "mcp_server_tool_argument_missing".
Definition argument_type_invalid : EvaError :=
  with_provider_code (invalid_argument "MCP server tool string argument is invalid")
    "mcp_server_tool_argument_type_invalid".

(** ** Schemas *)

Record ToolInputSchema := MkSchema {
  properties : gset string;
  required : gset string
}.

Definition or_schema_error {A} (r : Res A) : Res A := map_err (fun _ => schema_error) r.

(** The body of the loop over the properties. *)
Definition property_ok (name property_schema : string) : Res unit :=
  reject str_is_empty name || (MAX_TOOL_NAME_BYTES <? slen name)%N || existsb is_control (chars name) with schema_error else
  let? property := or_schema_error (parse_json_object_fields property_schema) in
  reject negb (Nat.eqb (size property) 1) with schema_error else
  let? type := or_schema_error (transpose parse_json_string (property !! "type")) in
  reject negb (bool_decide (type = Some "string")) with schema_error else
  Ok tt.

Fixpoint properties_ok (fields : list (string * string)) : Res unit :=
  match fields with
  | [] => Ok tt
  | (name, schema) :: r => property_ok name schema >>? properties_ok r
  end.

(** The loop over the required names. *)
Fixpoint required_names (properties seen : gset string) (names : list string) : Res (gset string) :=
  match names with
  | [] => Ok seen
  | name :: r =>
      reject negb (bool_decide (name ∈ properties)) || bool_decide (name ∈ seen) with schema_error else
      required_names properties ({[name]} ∪ seen) r
  end.

Definition schema_keys : gset string := {["type"; "properties"; "required"; "additionalProperties"]}.

(** [ToolInputSchema::parse] *)
Definition schema_parse (schema : string) : Res ToolInputSchema :=
  let? fields := or_schema_error (parse_json_object_fields schema) in
  reject negb (bool_decide (dom fields ⊆ schema_keys)) with schema_error else
  let? type := or_schema_error (transpose parse_json_string (fields !! "type")) in
  reject negb (bool_decide (type = Some "object"))
         || negb (bool_decide (fields !! "additionalProperties" = Some "false")) with schema_error else
  let? property_fields := or_schema_error (transpose parse_json_object_fields (fields !! "properties")) in
  let property_fields := default ∅ property_fields in
  properties_ok (map_to_list property_fields) >>?
  let? required_values := or_schema_error (transpose parse_json_string_array (fields !! "required")) in
  let? required := required_names (dom property_fields) ∅ (default [] required_values) in
  Ok {| properties := dom property_fields; required := required |}.

Definition strings_only (fields : gmap string string) : bool :=
  forallb (fun f => is_ok (parse_json_string f.2)) (map_to_list fields).

(** [validate_arguments]; the last loop visits the known fields, which are all
    of them. *)
Definition validate_arguments (s : ToolInputSchema) (arguments : string) : Res unit :=
  let? fields := map_err (fun _ => arguments_error) (parse_json_object_fields arguments) in
  reject negb (bool_decide (dom fields ⊆ properties s)) with argument_unknown else
  reject negb (bool_decide (required s ⊆ dom fields)) with argument_missing else
  reject negb (strings_only fields) with argument_type_invalid else
  Ok tt.

(** ** Tools *)

Record McpServerTool := MkTool {
  tool_name : string;
  description : string;
  input_schema : string;
  side_effects : bool
}.

Definition is_tool_name_byte (c : ascii) : bool := is_ascii_alphanumeric c || is_one_of "._-" c.

(** [McpServerTool::validate] *)
Definition tool_validate (t : McpServerTool) : Res unit :=
  reject str_is_empty (tool_name t) || (MAX_TOOL_NAME_BYTES <? slen (tool_name t))%N
         || negb (bytes_all is_ascii (tool_name t)) || negb (bytes_all is_tool_name_byte (tool_name t)) with
    with_provider_code (invalid_argument "MCP server tool name must be bounded stable ASCII")
      "mcp_server_tool_name_invalid" else
  reject str_is_empty (description t) || (MAX_TOOL_DESCRIPTION_BYTES <? slen (description t))%N
         || existsb is_control (chars (description t)) with
    with_provider_code (invalid_argument "MCP server tool description must be bounded display text")
      "mcp_server_tool_description_invalid" else
  reject str_is_empty (input_schema t) || (MAX_TOOL_SCHEMA_BYTES <? slen (input_schema t))%N with
    with_provider_code (invalid_argument "MCP server tool input schema must be a bounded JSON object")
      "mcp_server_tool_schema_invalid" else
  let? _ := schema_parse (input_schema t) in Ok tt.

(** [McpServerTool::new] *)
Definition tool_new (name description schema : string) (side_effects : bool) : Res McpServerTool :=
  let tool := MkTool name description schema side_effects in tool_validate tool >>? Ok tool.

(** [EvaMcpServerSurface] is its list of tools. *)
Definition EvaMcpServerSurface : Type := list McpServerTool.

Fixpoint surface_check (names : gset string) (tools : list McpServerTool) : Res unit :=
  match tools with
  | [] => Ok tt
  | tool :: r =>
      tool_validate tool >>?
      reject bool_decide (tool_name tool ∈ names) with
        with_provider_code (conflict "MCP server surface contains a duplicate tool") "mcp_server_tool_duplicate" else
      surface_check ({[tool_name tool]} ∪ names) r
  end.

(** [EvaMcpServerSurface::new] *)
Definition surface_new (tools : list McpServerTool) : Res EvaMcpServerSurface :=
  reject bool_decide (tools = []) with
    with_provider_code (invalid_argument "MCP server surface must expose at least one explicit tool")
      "mcp_server_surface_empty" else
  surface_check ∅ tools >>? Ok tools.

(** [v11_minimal], with its [expect]s. *)
Definition v11_minimal : Res EvaMcpServerSurface :=
  let? adapter_list := tool_new "adapter.list" "List authorized Eva adapter handles" ADAPTER_LIST_SCHEMA false in
  let? adapter_probe := tool_new "adapter.probe" "Probe an authorized Eva adapter without invoking it"
                          ADAPTER_PROBE_SCHEMA false in
  surface_new [adapter_list; adapter_probe].

(** [EvaMcpServerSurface::tool] *)
Definition surface_tool (s : EvaMcpServerSurface) (name : string) : option McpServerTool :=
  snd <$> list_find (fun t => tool_name t = name) s.

Definition not_exposed : EvaError :=
  with_provider_code (permission_denied "MCP server tool is not explicitly exposed") "mcp_server_tool_not_exposed".

Definition validate_tool_arguments (s : EvaMcpServerSurface) (tool arguments : string) : Res unit :=
  let? descriptor := ok_or (surface_tool s tool) not_exposed in
  let? schema := schema_parse (input_schema descriptor) in
  validate_arguments schema arguments.

Record McpServerToolGateReport := MkGateReport {
  exposed_tool : option string;
  allowed : bool;
  gate_reason : option string;
  gate_audit : list string
}.

Definition gate_tool (s : EvaMcpServerSurface) (tool : string) : McpServerToolGateReport :=
  if existsb (fun entry => String.eqb (tool_name entry) tool) s then
    MkGateReport (Some tool) true None
      ["mcp.server.tool:allowed"; "mcp.server.tool_name:explicit"; "proxy_boundary:explicit_tools_only"]
  else
    MkGateReport None false (Some "tool is not explicitly exposed")
      ["mcp.server.tool:blocked"; "mcp.server.tool_name:redacted"; "proxy_boundary:explicit_tools_only"].

(** [EvaMcpServerSurface::require_tool] *)
Definition surface_require_tool (s : EvaMcpServerSurface) (tool : string) : Res McpServerToolGateReport :=
  let report := gate_tool s tool in
  if allowed report then Ok report
  else Err (not_exposed ⊕ ("proxy_boundary", "explicit_tools_only")).

(** ** Calls *)

Record McpServerToolCall := MkToolCall {
  call_tool : string;
  arguments_json : string
}.

(** [McpServerToolCall::admitted] *)
Definition admitted (tool arguments : string) : Res McpServerToolCall :=
  let? _ := map_err (fun _ => arguments_error) (parse_json_object_fields arguments) in Ok (MkToolCall tool arguments).

Definition call_arguments (c : McpServerToolCall) : Res (gmap string string) :=
  map_err (fun _ => arguments_error) (parse_json_object_fields (arguments_json c)).

Definition string_argument (c : McpServerToolCall) (name : string) : Res (option string) :=
  let? arguments := call_arguments c in
  transpose (fun value => map_err (fun _ => argument_type_invalid) (parse_json_string value)) (arguments !! name).

Definition required_string_argument (c : McpServerToolCall) (name : string) : Res string :=
  let? value := string_argument c name in ok_or value argument_missing.

Definition require_only_arguments (c : McpServerToolCall) (allowed : list string) : Res unit :=
  let? fields := call_arguments c in
  reject negb (bool_decide (dom fields ⊆ list_to_set (C := gset string) allowed)) with argument_unknown else Ok tt.

(** ** Theorems *)

Lemma v11_minimal_valid : is_ok v11_minimal = true.
Proof. vm_compute. reflexivity. Qed.

Lemma gate_tool_allowed s tool : allowed (gate_tool s tool) = true <-> exists t, surface_tool s tool = Some t.
Proof.
  unfold gate_tool, surface_tool. induction s as [|t s IH]; [split; [done|by intros [? ?]]|]. cbn [existsb list_find].
  destruct (String.eqb (tool_name t) tool) eqn:E.
  - apply String.eqb_eq in E. rewrite decide_True by done. cbn. split; [by eexists|done].
  - apply String.eqb_neq in E. rewrite decide_False by done. cbn [orb]. rewrite IH.
    destruct (list_find _ s) as [[i t']|]; cbn; split; intros [? ?]; simplify_eq; by eexists.
Qed.

Lemma required_names_subset ps seen names req :
  required_names ps seen names = Ok req -> seen ⊆ ps -> req ⊆ ps /\ req = seen ∪ list_to_set names.
Proof.
  revert seen. induction names as [|n names IH]; intros seen H Hs; cbn [required_names] in H.
  { injection H as <-. cbn. split; [done|set_solver]. }
  apply reject_Ok in H as [Hn H]. apply orb_false_iff in Hn as [Hn _]. apply negb_false_iff, bool_decide_eq_true in Hn.
  apply IH in H as [H1 ->]; [|set_solver]. split; [done|]. cbn. set_solver.
Qed.

(** Every required name is a property. *)
Lemma schema_required text schema : schema_parse text = Ok schema -> required schema ⊆ properties schema.
Proof.
  unfold schema_parse. destruct (or_schema_error (parse_json_object_fields text)) as [fields|]; [|done]. intros H.
  apply reject_Ok in H as [_ H]. destruct (or_schema_error (transpose parse_json_string _)) as [ty|]; [|done].
  apply reject_Ok in H as [_ H]. destruct (or_schema_error (transpose parse_json_object_fields _)) as [pf|]; [|done].
  cbv zeta in H. apply then_Ok in H as [_ H].
  destruct (or_schema_error (transpose parse_json_string_array _)) as [rv|]; [|done].
  destruct (required_names _ _ _) as [req|] eqn:Er; [|done]. injection H as <-. cbn [required properties].
  apply required_names_subset in Er as [Er _]; [done|set_solver].
Qed.

Lemma strings_only_spec fields : strings_only fields = true <-> forall k v, fields !! k = Some v -> is_ok (parse_json_string v) = true.
Proof.
  unfold strings_only. rewrite forallb_forall. split.
  - intros H k v Hk. apply (H (k, v)). apply list_elem_of_In. by apply elem_of_map_to_list.
  - intros H [k v] Hin. apply (H k v). by apply elem_of_map_to_list, list_elem_of_In.
Qed.

(** Arguments are accepted exactly when the tool is exposed and they are a
    JSON object whose fields are strings, all of them declared by the tool's
    schema, with every required one present; a handler that then asks for a
    required argument gets it, and no lookup of an argument fails. *)
Theorem accepted_arguments_read s tool arguments :
  validate_tool_arguments s tool arguments = Ok tt <->
  exists descriptor schema fields, surface_tool s tool = Some descriptor /\ allowed (gate_tool s tool) = true /\
    schema_parse (input_schema descriptor) = Ok schema /\ admitted tool arguments = Ok (MkToolCall tool arguments) /\
    parse_json_object_fields arguments = Ok fields /\
    (forall name, name ∈ dom fields -> name ∈ properties schema) /\
    (forall name, exists value, string_argument (MkToolCall tool arguments) name = Ok value /\ (is_Some value <-> name ∈ dom fields)) /\
    (forall name, name ∈ required schema -> exists value, required_string_argument (MkToolCall tool arguments) name = Ok value).
Proof.
  unfold validate_tool_arguments. destruct (surface_tool s tool) as [descriptor|] eqn:Et; cbn [ok_or].
  2: { split; [done|]. by intros (? & ? & ? & ? & _). }
  destruct (schema_parse (input_schema descriptor)) as [schema|e] eqn:Es.
  2: { split; [done|]. intros (? & ? & ? & [= <-] & _ & ? & _). congruence. }
  unfold validate_arguments, admitted, required_string_argument, string_argument, call_arguments. cbn [arguments_json].
  destruct (parse_json_object_fields arguments) as [fields|e] eqn:Ef; cbn [map_err].
  2: { split; [done|]. by intros (? & ? & ? & _ & _ & _ & ? & _). }
  split.
  - intros H. apply reject_Ok in H as [H1 H]. apply reject_Ok in H as [H2 H]. apply reject_Ok in H as [H3 _].
    apply negb_false_iff in H1, H2, H3. apply bool_decide_eq_true in H1, H2.
    assert (forall name, exists value, transpose (fun value => map_err (fun _ => argument_type_invalid) (parse_json_string value))
      (fields !! name) = Ok value /\ (is_Some value <-> name ∈ dom fields)) as Hread.
    { intros name. pose proof (elem_of_dom (D := gset string) fields name) as Hd.
      destruct (fields !! name) as [v|] eqn:Ev; cbn.
      - pose proof (proj1 (strings_only_spec fields) H3 name v Ev) as Hv.
        destruct (parse_json_string v) as [w|]; [|done]. cbn. eexists. split; [done|]. rewrite Hd. by split; intros _; eexists.
      - eexists. split; [done|]. rewrite Hd. by split; intros [? ?]. }
    exists descriptor, schema, fields. split_and!; [done|apply gate_tool_allowed; by eexists|done..|set_solver|done|].
    intros name Hn. destruct (Hread name) as (value & -> & Hv). destruct value as [v|]; [by exists v|].
    apply H2 in Hn. by apply Hv in Hn as [? ?].
  - intros (d & sc & f & [= <-] & _ & Es' & _ & [= <-] & H1 & H2 & H3). rewrite Es in Es'. injection Es' as <-.
    rewrite (bool_decide_eq_true_2 (dom fields ⊆ properties schema)) by set_solver.
    rewrite (bool_decide_eq_true_2 (required schema ⊆ dom fields)).
    2: { intros name Hn. destruct (H3 name Hn) as [value Hv]. destruct (H2 name) as (v & E & Hd).
         rewrite E in Hv. destruct v as [v|]; [|done]. apply Hd. by eexists. }
    assert (strings_only fields = true) as ->; [|done]. apply strings_only_spec. intros k v Hk.
    destruct (H2 k) as (value & E & _). rewrite Hk in E. cbn in E. by destruct (parse_json_string v).
Qed.
