(* ===== verification/McpSession.v ===== *)
(** * MCP server processes (crates/eva-mcp/src/session.rs) and small parts of the crate

    The session manager starts and stops a server process through a
    supervisor, which is met through what its calls return; the in-memory
    client of client.rs, the tool registry of tool_mapping.rs and the session
    wrapper of streamable_http.rs. *)

From Stdlib Require Import Ascii.
From stdpp Require Import base numbers strings gmap list.
From S2P Require Import Prelude RustStr Error Ids Event Json McpJsonRpc McpClient HttpFraming McpEndpoint Sse HttpSession.

(** ** Process sessions *)

Inductive McpServerTransport := Stdio | Http | StreamableHttp.
#[export] Instance McpServerTransport_eq_dec : EqDecision McpServerTransport.
Proof. solve_decision. Defined.

(** [as_str], [canonical_str], [is_http] and [McpServerTransport::parse] *)
Definition server_transport_str (t : McpServerTransport) : string :=
  match t with Stdio => "stdio" | Http => "http" | StreamableHttp => "streamable_http" end.
Definition canonical_str (t : McpServerTransport) : string :=
  match t with Stdio => "stdio" | Http | StreamableHttp => "streamable_http" end.
Definition is_http (t : McpServerTransport) : bool := match t with Stdio => false | _ => true end.
Definition server_transport_parse (value : string) : Res McpServerTransport :=
  if String.eqb value "stdio" then Ok Stdio
  else if String.eqb value "http" then Ok Http
  else if String.eqb value "streamable_http" then Ok StreamableHttp
  else Err (unsupported "unsupported MCP server transport" ⊕ ("server_transport", value)).

Definition DEFAULT_STARTUP_TIMEOUT_MS : N := 10000.
Definition DEFAULT_SHUTDOWN_TIMEOUT_MS : N := 5000.

Record McpProcessSpec := MkProcessSpec {
  command : string;
  args : list string;
  allowed_commands : gset string;
  startup_timeout_ms : N;
  shutdown_timeout_ms : N
}.

(** [McpProcessSpec::new] *)
Definition process_spec_new (command : string) : McpProcessSpec :=
  MkProcessSpec command [] {[command]} DEFAULT_STARTUP_TIMEOUT_MS DEFAULT_SHUTDOWN_TIMEOUT_MS.

Record McpSessionConfig := MkSessionConfig {
  sc_adapter_id : AdapterId;
  server_transport : McpServerTransport;
  process : McpProcessSpec
}.

Definition with_adapter (e : EvaError) (c : McpSessionConfig) : EvaError := e ⊕ ("adapter_id", id_str (sc_adapter_id c)).

Definition validate_config (c : McpSessionConfig) : Res unit :=
  let p := process c in
  reject str_is_empty (trim (command p)) with with_adapter (invalid_argument "MCP process command cannot be empty") c else
  reject negb (String.eqb (trim (command p)) (command p)) with
    with_adapter (invalid_argument "MCP process command must be trimmed") c ⊕ ("command", command p) else
  reject negb (bool_decide (command p ∈ allowed_commands p)) with
    with_adapter (permission_denied "MCP process command is not allowlisted") c ⊕ ("command", command p) else
  reject (startup_timeout_ms p =? 0)%N with
    with_adapter (invalid_argument "MCP process startup timeout must be greater than zero") c else
  reject (shutdown_timeout_ms p =? 0)%N with
    with_adapter (invalid_argument "MCP process shutdown timeout must be greater than zero") c else
  reject existsb (contains_char "000") (args p) with
    with_adapter (invalid_argument "MCP process argument cannot contain NUL") c else
  Ok tt.

(** [McpSessionConfig::new] and [McpSessionConfig::stdio] *)
Definition session_config_new (adapter_id : AdapterId) (transport : McpServerTransport) (process : McpProcessSpec) :
    Res McpSessionConfig :=
  let config := MkSessionConfig adapter_id transport process in validate_config config >>? Ok config.
Definition session_config_stdio (adapter_id : AdapterId) (command : string) : Res McpSessionConfig :=
  session_config_new adapter_id Stdio (process_spec_new command).

Record McpProcessHandle := MkHandle {
  session_id : string;
  process_id : option N
}.

Record McpSession := MkSession {
  ms_config : McpSessionConfig;
  ms_handle : option McpProcessHandle
}.

Record McpProcessStartRequest := MkStartRequest {
  start_adapter_id : AdapterId;
  start_server_transport : McpServerTransport;
  start_command : string;
  start_args : list string;
  start_timeout_ms : N
}.
Record McpProcessShutdownRequest := MkShutdownRequest {
  shutdown_adapter_id : AdapterId;
  shutdown_session_id : string;
  shutdown_request_timeout_ms : N
}.

(** The trait [McpSessionSupervisor], over the supervisor's own state. *)
Class McpSessionSupervisor (S : Type) := {
  start_process : S -> McpProcessStartRequest -> Res McpProcessHandle * S;
  shutdown_process : S -> McpProcessShutdownRequest -> Res unit * S
}.

Inductive McpSessionStatus := Started | Stopped.
Definition session_status_str (s : McpSessionStatus) : string :=
  match s with Started => "started" | Stopped => "stopped" end.

Record McpSessionReport := MkSessionReport {
  report_adapter_id : AdapterId;
  report_session_id : string;
  report_status : McpSessionStatus;
  report_audit : list string
}.

Definition start_audit (c : McpSessionConfig) (h : McpProcessHandle) : list string :=
  ["transport:mcp"; "mcp.server_transport:" +:+ server_transport_str (server_transport c); "mcp.session:start_requested";
   "mcp.session:started"; "shell:false"; "command_allowlist:passed"] ++
  match process_id h with Some id => ["process_id:" +:+ n_to_string id] | None => [] end.

(** [McpSession::is_running], [McpSession::start_report] *)
Definition is_running (s : McpSession) : bool := bool_decide (is_Some (ms_handle s)).
Definition start_report (s : McpSession) : Res McpSessionReport :=
  let? handle := ok_or (ms_handle s) (with_adapter (conflict "MCP session is not running") (ms_config s)) in
  Ok (MkSessionReport (sc_adapter_id (ms_config s)) (session_id handle) Started (start_audit (ms_config s) handle)).

Section Manager.
Context {S : Type} `{McpSessionSupervisor S}.

(** [McpSessionManager::start] *)
Definition session_start (supervisor : S) (config : McpSessionConfig) : Res McpSession * S :=
  let@ _, supervisor := (validate_config config, supervisor) in
  if negb (bool_decide (server_transport config = Stdio)) then
    (Err (with_adapter (unsupported "MCP session manager only starts stdio process sessions") config
            ⊕ ("server_transport", server_transport_str (server_transport config))), supervisor)
  else
  let request := MkStartRequest (sc_adapter_id config) (server_transport config) (command (process config))
                   (args (process config)) (startup_timeout_ms (process config)) in
  let@ handle, supervisor := start_process supervisor request in
  if str_is_empty (trim (session_id handle)) then
    (Err (with_adapter (internal "MCP supervisor returned empty session id") config), supervisor)
  else (Ok (MkSession config (Some handle)), supervisor).

(** [McpSessionManager::shutdown]: the session as it is left, too. *)
Definition session_shutdown (supervisor : S) (session : McpSession) : Res McpSessionReport * McpSession * S :=
  match ms_handle session with
  | None => (Err (with_adapter (conflict "MCP session is already stopped") (ms_config session)), session, supervisor)
  | Some handle =>
      let request := MkShutdownRequest (sc_adapter_id (ms_config session)) (session_id handle)
                       (shutdown_timeout_ms (process (ms_config session))) in
      match shutdown_process supervisor request with
      | (Ok _, supervisor) =>
          (Ok (MkSessionReport (sc_adapter_id (ms_config session)) (session_id handle) Stopped
                 ["transport:mcp"; "mcp.session:shutdown_requested"; "mcp.session:stopped"]),
           MkSession (ms_config session) None, supervisor)
      | (Err error, supervisor) => (Err error, MkSession (ms_config session) (Some handle), supervisor)
      end
  end.
End Manager.

(** ** The in-memory client (client.rs) *)

Record InMemoryMcpClient := MkMemoryClient {
  mc_adapter_id : AdapterId;
  mc_allowlist : McpAllowlist
}.

Inductive McpProbeStatus := Allowed | Blocked.
Record McpProbeReport := MkProbe {
  probe_adapter_id : AdapterId;
  probe_status : McpProbeStatus;
  probe_tool_name : string;
  probe_message : string
}.

Definition probe_tool (c : InMemoryMcpClient) (tool : string) : McpProbeReport :=
  if permits_tool (mc_allowlist c) tool then
    MkProbe (mc_adapter_id c) Allowed tool "tool is allowlisted for controlled MCP invocation"
  else MkProbe (mc_adapter_id c) Blocked tool "tool is not in the MCP allowlist".

(** The file's own [escape_json]. *)
Definition client_escape_char (c : string) : string :=
  if String.eqb c (str dquote) then str backslash +:+ str dquote
  else if String.eqb c (str backslash) then str backslash +:+ str backslash
  else if String.eqb c (str nl) then str backslash +:+ "n"
  else if String.eqb c (str cr) then str backslash +:+ "r"
  else if String.eqb c (str tab) then str backslash +:+ "t"
  else c.
Definition client_escape_json (value : string) : string := str_concat (client_escape_char <$> chars value).

(** The output of [InMemoryMcpClient::call_tool]; the report adds the ids. *)
Definition memory_call_tool (c : InMemoryMcpClient) (tool input : string) : Res string :=
  require_tool (mc_allowlist c) tool >>?
  Ok (js "{'transport':'mcp','adapter_id':'" +:+ client_escape_json (id_str (mc_adapter_id c)) +:+ js "','tool':'"
      +:+ client_escape_json tool +:+ js "','mode':'controlled-envelope','input':'" +:+ client_escape_json input +:+ js "'}").

(** ** The tool registry (tool_mapping.rs) *)

Record McpToolMapping := MkMapping {
  mapping_adapter : AdapterId;
  mapping_tool : string;
  mapping_capability : CapabilityName
}.

(** [McpToolMapping::new] *)
Definition mapping_new (adapter_id : AdapterId) (tool : string) (capability : CapabilityName) : Res McpToolMapping :=
  reject str_is_empty tool || negb (String.eqb (trim tool) tool) || existsb is_whitespace (chars tool) with
    invalid_argument "MCP tool name must be stable" ⊕ ("tool", tool) else
  Ok (MkMapping adapter_id tool capability).

(** [by_tool], keyed by the texts of the adapter and the tool. *)
Definition McpToolRegistry : Type := gmap (string * string) McpToolMapping.

Definition mapping_key (m : McpToolMapping) : string * string := (id_str (mapping_adapter m), mapping_tool m).

(** [McpToolRegistry::register] and [get] *)
Definition registry_register (r : McpToolRegistry) (m : McpToolMapping) : Res McpToolRegistry :=
  reject bool_decide (is_Some (r !! mapping_key m)) with
    conflict "MCP tool mapping already exists" ⊕ ("adapter_id", id_str (mapping_adapter m)) ⊕ ("tool", mapping_tool m) else
  Ok (<[mapping_key m := m]> r).
Definition registry_get (r : McpToolRegistry) (adapter_id : AdapterId) (tool : string) : option McpToolMapping :=
  r !! (id_str adapter_id, tool).

(** ** The session wrapper (streamable_http.rs) *)

Record McpStreamableHttpSession := MkStreamable {
  ss_transport : McpHttpJsonRpcTransport;
  ss_timeout : N;
  ss_limit : N
}.

(** [new_with_tls] *)
Definition streamable_new (config : McpStreamableHttpConfig) (headers : list (string * string)) (connector : Res unit)
    (replies : list (Res Connection)) (timeout limit : N) : Res McpStreamableHttpSession :=
  reject (timeout =? 0)%N with invalid_argument "MCP Streamable HTTP timeout must be greater than zero" else
  reject (limit =? 0)%N with invalid_argument "MCP Streamable HTTP output limit must be greater than zero" else
  let? transport := http_transport_new config headers connector replies in Ok (MkStreamable transport timeout limit).

(** An operation of the transport, as an operation of the session. *)
Definition on_transport {A} (s : McpStreamableHttpSession) (r : Res A * McpHttpJsonRpcTransport) :
    Res A * McpStreamableHttpSession :=
  (r.1, MkStreamable r.2 (ss_timeout s) (ss_limit s)).

Definition streamable_initialize (s : McpStreamableHttpSession) (id : N) (request : string) :
    Res string * McpStreamableHttpSession :=
  if bool_decide (is_Some (negotiated_protocol_version (ss_transport s))) then
    (Err (with_provider_code (conflict "MCP Streamable HTTP session is already initialized")
            "mcp_http_session_already_initialized"), s)
  else on_transport s (http_exchange (ss_transport s) id request (ss_timeout s) (ss_limit s)).

Definition streamable_post (s : McpStreamableHttpSession) (id : N) (request : string) :=
  on_transport s (http_exchange (ss_transport s) id request (ss_timeout s) (ss_limit s)).
Definition streamable_notify (s : McpStreamableHttpSession) (notification : string) :=
  on_transport s (http_notify (ss_transport s) notification (ss_timeout s) (ss_limit s)).
Definition streamable_get (s : McpStreamableHttpSession) := on_transport s (http_get (ss_transport s) (ss_limit s)).
Definition streamable_shutdown (s : McpStreamableHttpSession) :=
  on_transport s (shutdown_session (ss_transport s) (ss_limit s)).

#[export] Instance streamable_transport : McpJsonRpcTransport McpStreamableHttpSession := {
  exchange s id request timeout limit :=
    on_transport s (http_exchange (ss_transport s) id request (N.min timeout (ss_timeout s)) (N.min limit (ss_limit s)));
  notify s notification timeout limit :=
    on_transport s (http_notify (ss_transport s) notification (N.min timeout (ss_timeout s)) (N.min limit (ss_limit s)));
  transport_audit s := http_transport_audit (ss_transport s)
}.

(** ** Theorems *)

(** A session is started only for an accepted configuration and runs with
    an identifier that is not blank; stopping it either stops it, and then
    stopping it again is an error that asks the supervisor nothing, or leaves
    it running exactly as it was. *)
Theorem session_lifecycle {S} `{McpSessionSupervisor S} (supervisor : S) config session s1 :
  session_start supervisor config = (Ok session, s1) ->
  validate_config config = Ok tt /\ server_transport config = Stdio /\ ms_config session = config /\
  is_running session = true /\ (exists report, start_report session = Ok report /\ str_is_empty (trim (report_session_id report)) = false) /\
  forall s2, let '(r, session', s3) := session_shutdown s2 session in
    match r with
    | Ok report => is_running session' = false /\ report_status report = Stopped /\
        forall s4, exists e, session_shutdown s4 session' = (Err e, session', s4)
    | Err _ => session' = session
    end.
Proof.
  unfold session_start. destruct (validate_config config) as [[]|e]; [|done].
  case_bool_decide as Ht; [|done]. cbn [negb].
  destruct (start_process supervisor _) as [[handle|e] s'] eqn:Es; [|done].
  destruct (str_is_empty (trim (session_id handle))) eqn:Ei; [done|]. intros [= <- <-].
  split_and!; [done..|by eexists|]. intros s2. unfold session_shutdown. cbn [ms_handle ms_config].
  destruct (shutdown_process s2 _) as [[[]|e] s3]; [|done]. split_and!; [done..|]. intros s4. by eexists.
Qed.

(** A supervisor that counts the processes that run. *)
#[local] Instance counting_supervisor : McpSessionSupervisor nat := {
  start_process n _ := (Ok (MkHandle ("session-" +:+ n_to_string (N.of_nat n)) None), S n);
  shutdown_process n _ := (Ok tt, pred n)
}.
Definition sample_process : McpSessionConfig := MkSessionConfig (MkId "mcp") Stdio (process_spec_new "mcp-server").
Definition sample_process_session : McpSession := MkSession sample_process (Some (MkHandle "session-0" None)).

Lemma session_lifecycle_witness : session_start 0 sample_process = (Ok sample_process_session, 1) /\
  is_running sample_process_session = true /\
  (let '(r, session, n) := session_shutdown 1 sample_process_session in is_ok r = true /\ n = 0 /\ is_running session = false).
Proof.
  destruct (session_lifecycle 0 sample_process sample_process_session 1) as (_ & _ & _ & Hr & _ & Hs).
  - vm_compute. reflexivity.
  - split; [vm_compute; reflexivity|]. split; [exact Hr|]. specialize (Hs 1). vm_compute in Hs |- *. split_and!; reflexivity.
Defined.
