(* ===== verification/ServerRequest.v ===== *)
(** * Requests to the MCP server (crates/eva-mcp/src/server_transport.rs)

    The server's configuration and how a request is read from a connection:
    the request line, the headers, the checks on them, and the body. *)

From Stdlib Require Import Ascii.
From stdpp Require Import base numbers strings gmap list.
From S2P Require Import Prelude RustStr Error Json McpJsonRpc HttpFraming McpEndpoint.

(** ** Configuration *)

Definition DEFAULT_PATH : string := "/mcp".
Definition DEFAULT_HEADER_LIMIT_BYTES : N := 16 * 1024.
Definition DEFAULT_REQUEST_LIMIT_BYTES : N := 1024 * 1024.
Definition DEFAULT_RESPONSE_LIMIT_BYTES : N := 1024 * 1024.
Definition DEFAULT_MAX_SESSIONS : N := 64.
Definition MAX_HEADER_COUNT : nat := 128.
Definition MIN_RESPONSE_LIMIT_BYTES : N := 512.
Definition MAX_CONFIGURED_LIMIT_BYTES : N := 16 * 1024 * 1024.

(** The timeouts in milliseconds. *)
Record McpStreamableHttpServerConfig := MkServerConfig {
  sv_path : string;
  header_limit_bytes : N;
  request_limit_bytes : N;
  response_limit_bytes : N;
  max_sessions : N;
  io_timeout : N;
  accept_poll_interval : N;
  sv_allowed_origins : list string
}.

#[export] Instance McpStreamableHttpServerConfig_eta : Eta McpStreamableHttpServerConfig := fun c =>
  MkServerConfig (sv_path c) (header_limit_bytes c) (request_limit_bytes c) (response_limit_bytes c) (max_sessions c)
    (io_timeout c) (accept_poll_interval c) (sv_allowed_origins c).

Definition server_config_default : McpStreamableHttpServerConfig :=
  MkServerConfig DEFAULT_PATH DEFAULT_HEADER_LIMIT_BYTES DEFAULT_REQUEST_LIMIT_BYTES DEFAULT_RESPONSE_LIMIT_BYTES
    DEFAULT_MAX_SESSIONS 2000 10 [].

(** [byte <= 0x20 || byte == 0x7f] *)
Definition is_blank_or_delete (c : ascii) : bool := ((byte_of c <=? 32) || (byte_of c =? 127))%N.

Definition validate_origin_literal (origin : string) : Res unit :=
  let? authority := ok_or (strip_prefix "http://" origin)
    (with_provider_code (invalid_argument "MCP HTTP server origin must use explicit http scheme") "mcp_server_origin_invalid") in
  reject str_is_empty authority || negb (bytes_all (fun c => negb (is_one_of "/?#@" c)) authority)
         || negb (bytes_all is_ascii authority) || negb (bytes_all (fun c => negb (is_blank_or_delete c)) authority) with
    with_provider_code (invalid_argument "MCP HTTP server origin must be an exact bounded authority")
      "mcp_server_origin_invalid" else
  Ok tt.

Definition between (lo hi n : N) : bool := ((lo <=? n) && (n <=? hi))%N.

(** [McpStreamableHttpServerConfig::validate] *)
Definition server_config_validate (c : McpStreamableHttpServerConfig) : Res unit :=
  let path := sv_path c in
  reject (1024 <? slen path)%N || negb (starts_with "/" path) || starts_with "//" path
         || negb (bytes_all (fun b => negb (is_one_of ("?#%" +:+ str backslash) b)) path) || contains_str "//" path
         || existsb (fun segment => String.eqb segment "." || String.eqb segment "..") (split "/" path)
         || negb (bytes_all is_ascii path) || negb (bytes_all (fun b => negb (is_blank_or_delete b)) path) with
    with_provider_code (invalid_argument "MCP HTTP server path must be bounded exact origin-form ASCII")
      "mcp_server_path_invalid" else
  reject negb (between 512 MAX_CONFIGURED_LIMIT_BYTES (header_limit_bytes c))
         || negb (between 1 MAX_CONFIGURED_LIMIT_BYTES (request_limit_bytes c))
         || negb (between MIN_RESPONSE_LIMIT_BYTES MAX_CONFIGURED_LIMIT_BYTES (response_limit_bytes c))
         || (max_sessions c =? 0)%N || (4096 <? max_sessions c)%N || (io_timeout c =? 0)%N || (60000 <? io_timeout c)%N
         || (accept_poll_interval c =? 0)%N || (1000 <? accept_poll_interval c)%N with
    with_provider_code (invalid_argument "MCP HTTP server resource bounds are invalid") "mcp_server_limits_invalid" else
  each validate_origin_literal (sv_allowed_origins c).

(** Each constructor and builder checks the configuration it returns. *)
Definition validated (c : McpStreamableHttpServerConfig) : Res McpStreamableHttpServerConfig :=
  server_config_validate c >>? Ok c.
Definition server_config_new (path : string) : Res McpStreamableHttpServerConfig :=
  validated (server_config_default <| sv_path := path |>).
Definition with_limits (c : McpStreamableHttpServerConfig) (header request response : N) :
    Res McpStreamableHttpServerConfig :=
  validated (c <| header_limit_bytes := header |> <| request_limit_bytes := request |> <| response_limit_bytes := response |>).
Definition with_max_sessions (c : McpStreamableHttpServerConfig) (sessions : N) : Res McpStreamableHttpServerConfig :=
  validated (c <| max_sessions := sessions |>).
Definition with_timeouts (c : McpStreamableHttpServerConfig) (io poll : N) : Res McpStreamableHttpServerConfig :=
  validated (c <| io_timeout := io |> <| accept_poll_interval := poll |>).

(** The origins are a set, as the list in its order. *)
Definition with_allowed_origin (c : McpStreamableHttpServerConfig) (origin : string) : Res McpStreamableHttpServerConfig :=
  validate_origin_literal origin >>?
  validated (c <| sv_allowed_origins := if bool_decide (origin ∈ sv_allowed_origins c) then sv_allowed_origins c
                                        else btree_set (origin :: sv_allowed_origins c) |>).

(** ** Reading a request *)

Record HttpReadFailure := MkReadFailure {
  failure_status : N;
  failure_message : string;
  failure_allow : option string
}.
Definition ReadRes (A : Type) : Type := Result HttpReadFailure A.

Definition failure (status : N) (message : string) : HttpReadFailure := MkReadFailure status message None.
Definition bad_request (message : string) : HttpReadFailure := failure 400 message.
Definition request_timeout : HttpReadFailure := failure 408 "request did not complete within the server deadline".
Definition method_not_allowed : HttpReadFailure := MkReadFailure 405 "HTTP method is not supported" (Some "POST, DELETE").

Definition map_request_io_error (kind : ReadFailureKind) : HttpReadFailure :=
  if is_timeout_error kind then request_timeout else bad_request "request body ended before Content-Length".

Definition map_io_error {A} (r : Result ReadFailureKind A) : ReadRes A :=
  match r with Ok a => Ok a | Err kind => Err (map_request_io_error kind) end.

Record HttpRequest := MkHttpRequest {
  rq_method : string;
  rq_target : string;
  rq_headers : gmap string string;
  rq_body : string
}.

Definition request_header (r : HttpRequest) (name : string) : option string := rq_headers r !! name.

(** [reader.take(n).read_until(b'\n')] *)
Fixpoint read_until_nl (n : nat) (s : Stream) : Result ReadFailureKind (string * Stream) :=
  match n with
  | O => Ok ("", s)
  | S n =>
      match read s 1 with
      | (Err e, _) => Err e
      | (Ok b, s) =>
          if str_is_empty b then Ok ("", s)
          else if String.eqb b (str nl) then Ok (b, s)
          else match read_until_nl n s with Ok (r, s) => Ok (b +:+ r, s) | Err e => Err e end
      end
  end.

Definition request_headers_too_large (status : N) : HttpReadFailure :=
  failure status "request headers exceeded the server limit".

(** A line without its line end, or the end of the connection. *)
Definition read_crlf_line (s : Stream) (consumed limit status : N) : ReadRes (option string * N * Stream) :=
  reject (limit <=? consumed)%N with request_headers_too_large status else
  let remaining := (limit - consumed)%N in
  let? '(line, s) := map_io_error (read_until_nl (N.to_nat (remaining + 1)) s) in
  if str_is_empty line then Ok (None, consumed, s) else
  reject (remaining <? slen line)%N with request_headers_too_large status else
  reject negb (ends_with_crlf line) with bad_request "request lines must use CRLF framing" else
  Ok (Some (String.substring 0 (String.length line - 2) line), (consumed + slen line)%N, s).

Fixpoint skip_spaces (s : string) : string :=
  match s with String c r => if Ascii.eqb c " " then skip_spaces r else s | EmptyString => "" end.
Fixpoint cut_spaces (s : string) : string :=
  match s with
  | EmptyString => ""
  | String c r =>
      let r := cut_spaces r in
      if str_is_empty r && Ascii.eqb c " " then "" else String c r
  end.
Definition trim_ascii_spaces (s : string) : string := cut_spaces (skip_spaces s).

(** [u8::is_ascii_whitespace] *)
Definition is_ascii_whitespace (c : ascii) : bool :=
  bool_decide (byte_of c ∈ [9; 10; 12; 13; 32]%N).

(** The body of the loop over the header lines. *)
Definition parse_request_header (line : string) : ReadRes (string * string) :=
  reject match line with String c _ => is_ascii_whitespace c | EmptyString => false end with
    bad_request "folded headers are not supported" else
  let? '(name, value) := ok_or (split_once ":" line) (bad_request "request header is malformed") in
  let value := trim_ascii_spaces value in
  reject str_is_empty name || negb (bytes_all is_http_token_byte name) || negb (bytes_all (in_range 32 126) value) with
    bad_request "request header is invalid" else
  Ok (to_ascii_lowercase name, value).

Fixpoint read_request_headers (turns : nat) (headers : gmap string string) (s : Stream) (consumed limit : N) :
    ReadRes (gmap string string * Stream) :=
  match turns with
  | O => Ok (headers, s)
  | S turns =>
      let? '(line, consumed, s) := read_crlf_line s consumed limit 431 in
      let? line := ok_or line (bad_request "request headers ended early") in
      if str_is_empty line then Ok (headers, s) else
      reject Nat.eqb (size headers) MAX_HEADER_COUNT with failure 431 "too many request headers" else
      let? '(name, value) := parse_request_header line in
      reject bool_decide (is_Some (headers !! name)) with bad_request "duplicate request header" else
      read_request_headers turns (<[name := value]> headers) s consumed limit
  end.

Definition parse_request_content_length (value : string) : ReadRes N :=
  reject str_is_empty value || negb (bytes_all is_ascii_digit value) with bad_request "Content-Length is invalid" else
  match parse_uint usize_max value with Ok n => Ok n | Err _ => Err (bad_request "Content-Length is invalid") end.

(** *** Content negotiation *)

Definition is_json_content_type (value : string) : bool :=
  match split ";" value with
  | [] => false
  | media_type :: parameters =>
      eq_ignore_ascii_case (trim media_type) "application/json"
      && forallb (fun parameter =>
           eq_ignore_ascii_case (trim parameter) "charset=utf-8"
           || eq_ignore_ascii_case (trim parameter) (js "charset='utf-8'")) parameters
  end.

Definition parse_http_quality (value : string) : option N :=
  if String.eqb value "0" then Some 0%N
  else if String.eqb value "1" then Some 1000%N
  else match split_once "." value with
  | None => None
  | Some (whole, fraction) =>
      if (3 <? slen fraction)%N || negb (bytes_all is_ascii_digit fraction) then None
      else if String.eqb whole "0" then
        parse_unsigned u16_max (fraction +:+ String.substring 0 (3 - String.length fraction) "000")
      else if String.eqb whole "1" && bytes_all (Ascii.eqb "0") fraction then Some 1000%N
      else None
  end.

Definition media_specificity (media_type : string) : option N :=
  if eq_ignore_ascii_case media_type "application/json" then Some 2%N
  else if eq_ignore_ascii_case media_type "application/*" then Some 1%N
  else if String.eqb media_type "*/*" then Some 0%N
  else None.

(** The loop over the parameters; [None] is [continue 'entries]. *)
Fixpoint entry_quality (quality : N) (seen : bool) (parameters : list string) : option N :=
  match parameters with
  | [] => Some quality
  | parameter :: r =>
      match split_once "=" (trim parameter) with
      | None => entry_quality quality seen r
      | Some (name, value) =>
          if negb (eq_ignore_ascii_case (trim name) "q") then entry_quality quality seen r
          else if seen then None
          else match parse_http_quality (trim value) with
               | Some parsed => entry_quality parsed true r
               | None => None
               end
      end
  end.

Fixpoint select_entry (selected : option (N * N)) (entries : list string) : option (N * N) :=
  match entries with
  | [] => selected
  | entry :: r =>
      let parts := split ";" entry in
      match media_specificity (trim (default "" (hd_error parts))) with
      | None => select_entry selected r
      | Some specificity =>
          match entry_quality 1000 false (List.tl parts) with
          | None => select_entry selected r
          | Some quality =>
              match selected with
              | Some (s, q) =>
                  if ((specificity <? s) || (s =? specificity) && (quality <=? q))%N then select_entry selected r
                  else select_entry (Some (specificity, quality)) r
              | None => select_entry (Some (specificity, quality)) r
              end
          end
      end
  end.

Definition accepts_json (value : string) : bool :=
  match select_entry None (split "," value) with Some (_, quality) => (0 <? quality)%N | None => false end.

(** *** The whole request *)

Definition validate_request_head (method target : string) (headers : gmap string string) (content_length : N)
    (config : McpStreamableHttpServerConfig) (expected_host : string) : ReadRes unit :=
  reject negb (String.eqb target (sv_path config)) with failure 404 "endpoint not found" else
  reject negb (bool_decide (headers !! "host" = Some expected_host)) with
    failure 421 "Host does not match the bound listener" else
  reject match headers !! "origin" with
         | Some origin => negb (bool_decide (origin ∈ sv_allowed_origins config))
         | None => false
         end with failure 403 "Origin is not explicitly allowed" else
  if String.eqb method "POST" then
    reject negb (match headers !! "content-type" with Some v => is_json_content_type v | None => false end) with
      failure 415 "Content-Type must be application/json" else
    reject negb (match headers !! "accept" with Some v => accepts_json v | None => false end) with
      failure 406 "Accept must allow application/json" else
    Ok tt
  else if String.eqb method "DELETE" then
    reject negb (content_length =? 0)%N with bad_request "DELETE request body must be empty" else Ok tt
  else Err method_not_allowed.

(** The three parts of a request line. *)
Definition parse_request_line (line : string) : ReadRes (string * string) :=
  reject negb (utf8_valid line) with bad_request "request line must be ASCII" else
  let invalid := bad_request "request line is invalid" in
  match split " " line with
  | [method; target; version] =>
      reject str_is_empty method || str_is_empty target || negb (String.eqb version "HTTP/1.1")
             || negb (bytes_all is_http_token_byte method) || negb (bytes_all (in_range 65 90) method)
             || negb (bytes_all is_ascii target) || negb (bytes_all (fun b => negb (is_blank_or_delete b)) target) with
        invalid else
      Ok (method, target)
  | _ => Err invalid
  end.

(** [reader.read_exact(&mut body)]; the connection's end is an error. *)
Fixpoint read_exact (fuel : nat) (missing : nat) (s : Stream) : Result ReadFailureKind (string * Stream) :=
  match missing, fuel with
  | O, _ => Ok ("", s)
  | _, O => Err OtherFailure
  | S _, S fuel =>
      match read s missing with
      | (Err e, _) => Err e
      | (Ok bytes, s) =>
          if str_is_empty bytes then Err OtherFailure
          else match read_exact fuel (missing - String.length bytes) s with
               | Ok (rest, s) => Ok (bytes +:+ rest, s)
               | Err e => Err e
               end
      end
  end.

Definition unsupported_headers : list string :=
  ["content-encoding"; "expect"; "proxy-connection"; "te"; "trailer"; "upgrade"].

Definition has_header (headers : gmap string string) (name : string) : bool := bool_decide (is_Some (headers !! name)).

(** [read_http_request]: [None] when the connection ends before a request. *)
Definition read_http_request (s : Stream) (config : McpStreamableHttpServerConfig) (expected_host : string) :
    ReadRes (option HttpRequest) :=
  let? '(request_line, consumed, s) := read_crlf_line s 0 (header_limit_bytes config) 431 in
  match request_line with
  | None => Ok None
  | Some request_line =>
      let? '(method, target) := parse_request_line request_line in
      let? '(headers, s) := read_request_headers (S MAX_HEADER_COUNT) ∅ s consumed (header_limit_bytes config) in
      reject negb (has_header headers "host") with bad_request "Host header is required" else
      reject has_header headers "transfer-encoding" with bad_request "request transfer encoding is not supported" else
      reject existsb (has_header headers) unsupported_headers with
        bad_request "request uses an unsupported framing control header" else
      let? content_length :=
        match headers !! "content-length" with Some v => parse_request_content_length v | None => Ok 0%N end in
      reject String.eqb method "POST" && negb (has_header headers "content-length") with
        failure 411 "Content-Length is required for POST" else
      validate_request_head method target headers content_length config expected_host >>?
      reject (request_limit_bytes config <? content_length)%N with
        failure 413 "request body exceeded the server limit" else
      let? '(body, _) := map_io_error
        (read_exact (S (N.to_nat content_length)) (N.to_nat content_length) s) in
      reject negb (utf8_valid body) with bad_request "request body must be UTF-8 JSON" else
      Ok (Some (MkHttpRequest method target headers body))
  end.

Example negotiation_samples :
  accepts_json "application/json, text/event-stream" = true /\ accepts_json "*/*;q=0.001" = true /\
  accepts_json "application/json;q=0, */*" = false /\ accepts_json "text/html" = false /\
  is_json_content_type "Application/JSON; charset=UTF-8" = true /\ is_json_content_type "text/plain" = false /\
  is_ok (server_config_validate server_config_default) = true.
Proof. vm_compute. repeat split. Qed.
