(* ===== verification/ServerDispatch.v ===== *)
(** * The MCP server's dispatch (crates/eva-mcp/src/server_transport.rs)

    A request that was read is checked again, its JSON-RPC envelope parsed,
    and answered under the session it names; what changes the sessions is an
    action, carried out once the response is written.  The tool handler is met
    through its answers, the random bytes of a session identifier and the
    shutdown flag are arguments. *)

From Stdlib Require Import Ascii.
From stdpp Require Import base numbers strings gmap list.
From S2P Require Import Prelude RustStr Error Json McpJsonRpc HttpFraming McpEndpoint McpServer ServerRequest.

(** ** State *)

Inductive SessionPhase := AwaitingInitialized | Ready.
#[export] Instance SessionPhase_eq_dec : EqDecision SessionPhase.
Proof. solve_decision. Defined.

(** The address of a peer, as a text. *)
Record ServerSession := MkServerSession {
  peer_ip : string;
  phase : SessionPhase
}.

Record McpServerServeReport := MkServeReport {
  accepted_connections : N;
  requests : N;
  sessions_created : N;
  sessions_deleted : N;
  sessions_closed_on_shutdown : N;
  handler_calls : N;
  blocked_tool_calls : N;
  protocol_errors : N;
  dangling_sessions : N;
  serve_audit : list string
}.
#[export] Instance McpServerServeReport_eta : Eta McpServerServeReport := fun r =>
  MkServeReport (accepted_connections r) (requests r) (sessions_created r) (sessions_deleted r)
    (sessions_closed_on_shutdown r) (handler_calls r) (blocked_tool_calls r) (protocol_errors r) (dangling_sessions r)
    (serve_audit r).

Definition MAX_METHOD_BYTES : N := 128.
Definition MAX_ID_STRING_BYTES : N := 256.
Definition MAX_SESSION_ID_BYTES : N := 256.

(** [result.text] and [result.is_error] *)
Record McpServerToolResult := MkToolResult {
  result_text : string;
  is_error : bool
}.

(** The trait [McpServerToolHandler], over the handler's own state. *)
Class McpServerToolHandler (H : Type) := {
  handle_tool : H -> McpServerToolCall -> Res McpServerToolResult * H
}.

Record McpStreamableHttpServer (H : Type) := MkServer {
  expected_host : string;
  sv_config : McpStreamableHttpServerConfig;
  surface : EvaMcpServerSurface;
  handler : H;
  sessions : gmap string ServerSession;
  report : McpServerServeReport
}.
Arguments MkServer {H}.
Arguments expected_host {H}.
Arguments sv_config {H}.
Arguments surface {H}.
Arguments handler {H}.
Arguments sessions {H}.
Arguments report {H}.
#[export] Instance McpStreamableHttpServer_eta H : Eta (McpStreamableHttpServer H) := fun s =>
  MkServer (expected_host s) (sv_config s) (surface s) (handler s) (sessions s) (report s).

(** ** Responses *)

Record HttpResponse := MkResponse {
  rp_status : N;
  rp_body : string;
  rp_content_type : option string;
  rp_session_id : option string;
  rp_allow : option string;
  rp_error : bool
}.
#[export] Instance HttpResponse_eta : Eta HttpResponse := fun r =>
  MkResponse (rp_status r) (rp_body r) (rp_content_type r) (rp_session_id r) (rp_allow r) (rp_error r).

Definition json_rpc_error_body (id : option string) (code : Z) (message : string) : string :=
  js "{'jsonrpc':'2.0','id':" +:+ default "null" id +:+ js ",'error':{'code':" +:+ z_to_string code
  +:+ js ",'message':" +:+ json_string message +:+ "}}".

Definition response_json (status : N) (body : string) : HttpResponse :=
  MkResponse status body (Some "application/json") None None false.
Definition response_empty (status : N) : HttpResponse := MkResponse status "" None None None false.
Definition http_error (status : N) (message : string) : HttpResponse :=
  (response_json status (json_rpc_error_body None (-32600) message)) <| rp_error := true |>.
Definition rpc_error (id : option string) (code : Z) (message : string) : HttpResponse :=
  (response_json 200 (json_rpc_error_body id code message)) <| rp_error := true |>.
Definition with_session (r : HttpResponse) (session_id : string) : HttpResponse := r <| rp_session_id := Some session_id |>.
Definition with_allow (r : HttpResponse) (methods : string) : HttpResponse := r <| rp_allow := Some methods |>.

(** [HttpReadFailure::into_response] *)
Definition failure_response (f : HttpReadFailure) : HttpResponse :=
  let response := http_error (failure_status f) (failure_message f) in
  match failure_allow f with Some allow => with_allow response allow | None => response end.

Inductive ServerAction :=
| NoAction
| Create (session_id : string) (session : ServerSession)
| MarkReady (session_id : string)
| Delete (session_id : string).

(** ** The envelope *)

Record RpcFailure := MkRpcFailure {
  rf_id : option string;
  rf_code : Z;
  rf_message : string
}.
Definition rpc_parse_failure (message : string) : RpcFailure := MkRpcFailure None (-32700) message.
Definition rpc_invalid (id : option string) (message : string) : RpcFailure := MkRpcFailure id (-32600) message.

(** [id] is the raw text of a [ValidatedRequestId]. *)
Record ParsedRequestEnvelope := MkEnvelope {
  en_id : option string;
  en_method : string;
  en_params : option string
}.

Definition bounded_text (limit : N) (s : string) : bool :=
  negb (str_is_empty s) && (slen s <=? limit)%N && negb (existsb is_control (chars s)).

Definition validate_request_id (value : string) : option string :=
  if starts_with (str dquote) value then
    match parse_json_string value with
    | Ok decoded => if bounded_text MAX_ID_STRING_BYTES decoded then Some value else None
    | Err _ => None
    end
  else match parse_u64 value with Ok _ => Some value | Err _ => None end.

Definition envelope_keys : gset string := {["jsonrpc"; "id"; "method"; "params"]}.

(** A field that must be a string; the two messages are for a missing and an
    invalid one. *)
Definition string_field (fields : gmap string string) (name : string) (id : option string) (missing invalid : string) :
    Result RpcFailure string :=
  let? value := ok_or (fields !! name) (rpc_invalid id missing) in
  match parse_json_string value with Ok s => Ok s | Err _ => Err (rpc_invalid id invalid) end.

Definition parse_request_envelope (body : string) : Result RpcFailure ParsedRequestEnvelope :=
  match parse_json_object_fields body with
  | Err _ => Err (rpc_parse_failure "request body is not one complete JSON object")
  | Ok fields =>
      let? id :=
        match fields !! "id" with
        | None => Ok None
        | Some value => match validate_request_id value with
                        | Some id => Ok (Some id)
                        | None => Err (rpc_invalid None "request id is invalid")
                        end
        end in
      reject negb (bool_decide (dom fields ⊆ envelope_keys)) with
        rpc_invalid id "request contains an unknown envelope field" else
      let? version := string_field fields "jsonrpc" id "jsonrpc version is missing" "jsonrpc version is invalid" in
      reject negb (String.eqb version "2.0") with rpc_invalid id "jsonrpc version is unsupported" else
      let? method := string_field fields "method" id "request method is missing" "request method is invalid" in
      reject negb (bounded_text MAX_METHOD_BYTES method) with rpc_invalid id "request method is invalid" else
      Ok (MkEnvelope id method (fields !! "params"))
  end.

Definition initialize_keys : gset string := {["protocolVersion"; "capabilities"; "clientInfo"]}.
Definition client_info_keys : gset string := {["name"; "version"]}.

(** The loop over the fields of [clientInfo]. *)
Definition client_info_field (fields : gmap string string) (name : string) : Result string unit :=
  let? value := ok_or (fields !! name) "initialize clientInfo is incomplete" in
  match parse_json_string value with
  | Err _ => Err "initialize clientInfo is invalid"
  | Ok value => if bounded_text 256 value then Ok tt else Err "initialize clientInfo is invalid"
  end.

Definition object_of (value message : string) : Result string (gmap string string) :=
  match parse_json_object_fields value with Ok fields => Ok fields | Err _ => Err message end.

Definition validate_initialize_params (params : option string) : Result string unit :=
  let? params := ok_or params "initialize params are required" in
  let? fields := object_of params "initialize params are invalid" in
  reject negb (bool_decide (dom fields ⊆ initialize_keys)) with "initialize params contain an unknown field" else
  let? version := ok_or (fields !! "protocolVersion") "initialize protocolVersion is required" in
  match parse_json_string version with
  | Err _ => Err "initialize protocolVersion is invalid"
  | Ok version =>
      reject negb (String.eqb version DEFAULT_PROTOCOL_VERSION) with "initialize protocolVersion is unsupported" else
      let? capabilities := ok_or (fields !! "capabilities") "initialize capabilities are required" in
      let? _ := object_of capabilities "initialize capabilities are invalid" in
      let? client_info := ok_or (fields !! "clientInfo") "initialize clientInfo is required" in
      let? client_fields := object_of client_info "initialize clientInfo is invalid" in
      reject negb (bool_decide (dom client_fields ⊆ client_info_keys)) with
        "initialize clientInfo contains an unknown field" else
      client_info_field client_fields "name" >>? client_info_field client_fields "version"
  end.

Definition params_are_empty (params : option string) : bool :=
  match params with
  | None => true
  | Some params => match parse_json_object_fields params with Ok fields => bool_decide (fields = ∅) | Err _ => false end
  end.

Definition valid_session_id (value : string) : bool :=
  negb (str_is_empty value) && (slen value <=? MAX_SESSION_ID_BYTES)%N && bytes_all (in_range 33 126) value.

(** ** Bodies *)

Definition CARGO_PKG_VERSION : string := "1.11.5-alpha".

Definition initialize_body (id : string) : string :=
  js "{'jsonrpc':'2.0','id':" +:+ id +:+ js ",'result':{'protocolVersion':" +:+ json_string DEFAULT_PROTOCOL_VERSION
  +:+ js ",'capabilities':{'tools':{}},'serverInfo':{'name':'eva','version':" +:+ json_string CARGO_PKG_VERSION +:+ "}}}".

Definition tool_entry (t : McpServerTool) : string :=
  js "{'name':" +:+ json_string (tool_name t) +:+ js ",'description':" +:+ json_string (description t)
  +:+ js ",'inputSchema':" +:+ input_schema t +:+ js ",'annotations':{'readOnlyHint':true}}".
Definition tools_list_body (id : string) (tools : list McpServerTool) : string :=
  js "{'jsonrpc':'2.0','id':" +:+ id +:+ js ",'result':{'tools':[" +:+ join "," (tool_entry <$> tools) +:+ "]}}".

Definition tool_result_body (id : string) (r : McpServerToolResult) : string :=
  js "{'jsonrpc':'2.0','id':" +:+ id +:+ js ",'result':{'content':[{'type':'text','text':" +:+ json_string (result_text r)
  +:+ js "}],'isError':" +:+ bool_to_string (is_error r) +:+ "}}".

(** The bytes a character takes in a JSON string. *)
Definition escaped_width (c : string) : N :=
  if existsb (String.eqb c) [str dquote; str backslash; str "008"; str "012"; str nl; str cr; str tab] then 2
  else if is_control c then 6 else slen c.

Definition FIXED_BYTES : N :=
  slen (js "{'jsonrpc':'2.0','id':,'result':{'content':[{'type':'text','text':''}],'isError':false}}").

Definition tool_result_fits (id : string) (r : McpServerToolResult) (limit : N) : bool :=
  let escaped := foldl (fun total c =>
    match total with Some total => checked_add usize_max total (escaped_width c) | None => None end)
    (Some 0%N) (chars (result_text r)) in
  match escaped with
  | None => false
  | Some escaped =>
      match checked_add usize_max FIXED_BYTES (slen id) with
      | None => false
      | Some size => match checked_add usize_max size escaped with Some size => (size <=? limit)%N | None => false end
      end
  end.

(** ** Dispatch *)

Section Dispatch.
Context {H : Type} `{McpServerToolHandler H}.
Implicit Types s : McpStreamableHttpServer H.

(** [DispatchResult], with the server after the call. *)
Definition Dispatched : Type := HttpResponse * ServerAction * McpStreamableHttpServer H.
Definition respond (r : HttpResponse) (s : McpStreamableHttpServer H) : Dispatched := (r, NoAction, s).

Definition controlled_session s (request : HttpRequest) (peer : string) : Result HttpResponse (string * SessionPhase) :=
  reject negb (bool_decide (request_header request "mcp-protocol-version" = Some DEFAULT_PROTOCOL_VERSION)) with
    http_error 400 "MCP-Protocol-Version is missing or unsupported" else
  match request_header request "mcp-session-id" with
  | Some session_id =>
      reject negb (valid_session_id session_id) with http_error 400 "Mcp-Session-Id is missing or invalid" else
      match sessions s !! session_id with
      | None => Err (http_error 404 "MCP session was not found")
      | Some session =>
          reject negb (String.eqb (peer_ip session) peer) with http_error 404 "MCP session was not found" else
          Ok (session_id, phase session)
      end
  | None => Err (http_error 400 "Mcp-Session-Id is missing or invalid")
  end.

(** [new_session_id] of 32 random bytes. *)
Definition new_session_id (random : option string) : option string := hex_encode <$> random.

Definition dispatch_initialize s (request : HttpRequest) (envelope : ParsedRequestEnvelope) (peer : string)
    (random : option string) : Dispatched :=
  match en_id envelope with
  | None => respond (rpc_error None (-32600) "initialize requires a request id") s
  | Some id =>
      if bool_decide (is_Some (request_header request "mcp-session-id"))
         || bool_decide (is_Some (request_header request "mcp-protocol-version")) then
        respond (rpc_error (Some id) (-32600) "initialize must not carry session control headers") s
      else match validate_initialize_params (en_params envelope) with
      | Err message => respond (rpc_error (Some id) (-32602) message) s
      | Ok _ =>
          if (max_sessions (sv_config s) <=? N.of_nat (size (sessions s)))%N then
            respond (http_error 503 "server session capacity is exhausted") s
          else match new_session_id random with
          | None => respond (rpc_error (Some id) (-32603) "server could not create a session") s
          | Some session_id =>
              (with_session (response_json 200 (initialize_body id)) session_id,
               Create session_id (MkServerSession peer AwaitingInitialized), s)
          end
      end
  end.

Definition dispatch_initialized s (envelope : ParsedRequestEnvelope) (session_id : string) (phase : SessionPhase) : Dispatched :=
  if bool_decide (is_Some (en_id envelope)) || negb (params_are_empty (en_params envelope))
     || negb (bool_decide (phase = AwaitingInitialized)) then
    respond (with_session (http_error 400 "initialized notification is out of phase") session_id) s
  else (with_session (response_empty 202) session_id, MarkReady session_id, s).

Definition dispatch_tools_list s (envelope : ParsedRequestEnvelope) (session_id : string) (phase : SessionPhase) : Dispatched :=
  match en_id envelope with
  | None => respond (with_session (rpc_error None (-32600) "tools/list requires a request id") session_id) s
  | Some id =>
      if negb (bool_decide (phase = Ready)) then
        respond (with_session (rpc_error (Some id) (-32002) "session is awaiting notifications/initialized") session_id) s
      else if negb (params_are_empty (en_params envelope)) then
        respond (with_session (rpc_error (Some id) (-32602) "tools/list params are invalid") session_id) s
      else respond (with_session (response_json 200 (tools_list_body id (surface s))) session_id) s
  end.

(** The name of a call's tool. *)
Definition tool_name_of (params : gmap string string) : option string :=
  match params !! "name" with
  | None => None
  | Some value =>
      match parse_json_string value with
      | Ok name => if bounded_text MAX_METHOD_BYTES name then Some name else None
      | Err _ => None
      end
  end.

(** The handler's call, once everything is checked. *)
Definition call_handler s (id session_id : string) (call : McpServerToolCall) : Dispatched :=
  let s := s <| report := (report s) <| handler_calls := saturating_add usize_max (handler_calls (report s)) 1 |> |> in
  let '(result, h) := handle_tool (handler s) call in
  let s := s <| handler := h |> in
  match result with
  | Err _ => respond (with_session (rpc_error (Some id) (-32603) "tool handler failed") session_id) s
  | Ok result =>
      if negb (tool_result_fits id result (response_limit_bytes (sv_config s))) then
        respond (with_session (rpc_error (Some id) (-32603) "tool result exceeded server limit") session_id) s
      else respond (with_session (response_json 200 (tool_result_body id result)) session_id) s
  end.

Definition call_params (params : option string) : option (gmap string string) :=
  match params with
  | Some params => match parse_json_object_fields params with Ok fields => Some fields | Err _ => None end
  | None => None
  end.

(** [closing] is whether a shutdown was requested or the deadline has passed. *)
Definition dispatch_tools_call s (envelope : ParsedRequestEnvelope) (session_id : string) (phase : SessionPhase)
    (closing : bool) : Dispatched :=
  match en_id envelope with
  | None => respond (with_session (rpc_error None (-32600) "tools/call requires a request id") session_id) s
  | Some id =>
      let invalid message := respond (with_session (rpc_error (Some id) (-32602) message) session_id) s in
      if negb (bool_decide (phase = Ready)) then
        respond (with_session (rpc_error (Some id) (-32002) "session is awaiting notifications/initialized") session_id) s
      else match call_params (en_params envelope) with
      | None => invalid "tools/call params are invalid"
      | Some params =>
          match tool_name_of params with
          | None => invalid "tool name is invalid"
          | Some name =>
              if negb (is_ok (surface_require_tool (surface s) name)) then
                respond (with_session (rpc_error (Some id) (-32602) "tool is not explicitly exposed") session_id)
                  (s <| report := (report s) <| blocked_tool_calls := saturating_add usize_max (blocked_tool_calls (report s)) 1 |> |>)
              else if negb (bool_decide (dom params ⊆ ({["name"; "arguments"]} : gset string))) then
                invalid "tools/call params are invalid"
              else
              let arguments := default "{}" (params !! "arguments") in
              if negb (is_ok (validate_tool_arguments (surface s) name arguments)) then invalid "tool arguments are invalid"
              else match admitted name arguments with
              | Err _ => invalid "tool arguments are invalid"
              | Ok call =>
                  if closing then respond (with_session (http_error 503 "server is shutting down") session_id) s
                  else call_handler s id session_id call
              end
          end
      end
  end.

Definition dispatch_delete s (request : HttpRequest) (peer : string) : Dispatched :=
  if negb (str_is_empty (rq_body request)) then respond (http_error 400 "DELETE request body must be empty") s
  else match controlled_session s request peer with
  | Err response => respond response s
  | Ok (session_id, _) => (with_session (response_empty 204) session_id, Delete session_id, s)
  end.

Definition dispatch_post s (request : HttpRequest) (peer : string) (random : option string) (closing : bool) : Dispatched :=
  if negb (match request_header request "content-type" with Some v => is_json_content_type v | None => false end) then
    respond (http_error 415 "Content-Type must be application/json") s
  else if negb (match request_header request "accept" with Some v => accepts_json v | None => false end) then
    respond (http_error 406 "Accept must allow application/json") s
  else match parse_request_envelope (rq_body request) with
  | Err failure => respond (rpc_error (rf_id failure) (rf_code failure) (rf_message failure)) s
  | Ok envelope =>
      let has_id := bool_decide (is_Some (en_id envelope)) in
      if negb has_id && String.eqb (en_method envelope) "initialize" then respond (response_empty 202) s
      else if String.eqb (en_method envelope) "initialize" then dispatch_initialize s request envelope peer random
      else match controlled_session s request peer with
      | Err response => respond response s
      | Ok (session_id, phase) =>
          if negb has_id && negb (String.eqb (en_method envelope) "notifications/initialized") then
            respond (with_session (response_empty 202) session_id) s
          else if String.eqb (en_method envelope) "notifications/initialized" then
            dispatch_initialized s envelope session_id phase
          else if String.eqb (en_method envelope) "tools/list" then dispatch_tools_list s envelope session_id phase
          else if String.eqb (en_method envelope) "tools/call" then
            dispatch_tools_call s envelope session_id phase closing
          else respond (with_session (rpc_error (en_id envelope) (-32601) "method is not supported") session_id) s
      end
  end.

(** [McpStreamableHttpServer::dispatch] *)
Definition dispatch s (request : HttpRequest) (peer : string) (random : option string) (closing : bool) : Dispatched :=
  if negb (String.eqb (rq_target request) (sv_path (sv_config s))) then respond (http_error 404 "endpoint not found") s
  else if negb (bool_decide (request_header request "host" = Some (expected_host s))) then
    respond (http_error 421 "Host does not match the bound listener") s
  else if match request_header request "origin" with
          | Some origin => negb (bool_decide (origin ∈ sv_allowed_origins (sv_config s)))
          | None => false
          end then respond (http_error 403 "Origin is not explicitly allowed") s
  else if String.eqb (rq_method request) "POST" then dispatch_post s request peer random closing
  else if String.eqb (rq_method request) "DELETE" then dispatch_delete s request peer
  else respond (with_allow (http_error 405 "HTTP method is not supported") "POST, DELETE") s.

(** ** Connections *)

Definition protocol_error_counted s : McpStreamableHttpServer H :=
  s <| report := (report s) <| protocol_errors := saturating_add usize_max (protocol_errors (report s)) 1 |> |>.

Definition apply_action s (action : ServerAction) : McpStreamableHttpServer H :=
  match action with
  | NoAction => s
  | Create session_id session =>
      s <| sessions := <[session_id := session]> (sessions s) |>
        <| report := (report s) <| sessions_created := saturating_add usize_max (sessions_created (report s)) 1 |> |>
  | MarkReady session_id =>
      match sessions s !! session_id with
      | Some session => s <| sessions := <[session_id := MkServerSession (peer_ip session) Ready]> (sessions s) |>
      | None => s
      end
  | Delete session_id =>
      match sessions s !! session_id with
      | Some _ =>
          s <| sessions := delete session_id (sessions s) |>
            <| report := (report s) <| sessions_deleted := saturating_add usize_max (sessions_deleted (report s)) 1 |> |>
      | None => s
      end
  end.

(** What a write came to; [None] is an I/O error. *)
Inductive ResponseWriteOutcome := Original | LimitFallback.

Definition is_delete (a : ServerAction) : bool := match a with Delete _ => true | _ => false end.

Definition commit_action_after_response s (action : ServerAction) (outcome : option ResponseWriteOutcome) (shutdown : bool) :
    McpStreamableHttpServer H :=
  match outcome with
  | Some Original => if is_delete action || negb shutdown then apply_action s action else s
  | Some LimitFallback | None => protocol_error_counted s
  end.
End Dispatch.

Definition http_reason (status : N) : string :=
  match status with
  | 200 => "OK" | 202 => "Accepted" | 204 => "No Content" | 400 => "Bad Request" | 403 => "Forbidden" | 404 => "Not Found"
  | 405 => "Method Not Allowed" | 406 => "Not Acceptable" | 408 => "Request Timeout" | 411 => "Length Required"
  | 413 => "Payload Too Large" | 415 => "Unsupported Media Type" | 421 => "Misdirected Request"
  | 431 => "Request Header Fields Too Large" | 500 => "Internal Server Error" | 503 => "Service Unavailable"
  | _ => "Error"
  end%N.

(** The text that [write_http_response] writes, and whether it is the response
    itself. *)
Definition response_wire (response : HttpResponse) (limit : N) : string * ResponseWriteOutcome :=
  let '(response, outcome) :=
    if (limit <? slen (rp_body response))%N then (http_error 500 "response exceeded the server limit", LimitFallback)
    else (response, Original) in
  let line name value := name +:+ ": " +:+ value +:+ crlf in
  ("HTTP/1.1 " +:+ n_to_string (rp_status response) +:+ " " +:+ http_reason (rp_status response) +:+ crlf
   +:+ line "Connection" "close" +:+ line "Cache-Control" "no-store" +:+ line "X-Content-Type-Options" "nosniff"
   +:+ match rp_session_id response with
       | Some id => if valid_session_id id then line "Mcp-Session-Id" id else ""
       | None => ""
       end
   +:+ match rp_allow response with Some allow => line "Allow" allow | None => "" end
   +:+ match rp_content_type response with Some content_type => line "Content-Type" content_type | None => "" end
   +:+ (if (rp_status response =? 204)%N then "" else line "Content-Length" (n_to_string (slen (rp_body response))))
   +:+ crlf +:+ rp_body response, outcome).

(** One connection and what happens around it: whether its handle could be
    registered, the clock has a deadline, the peer is on the loopback; the
    shutdown flag at the start, after the request, after its dispatch and
    after the response; whether the deadline passed after the request and
    before the tool's call, the random bytes, and whether the response could
    be written. *)
Record Visit := MkVisit {
  vs_registered : bool;
  vs_shutdown_start : bool;
  vs_has_deadline : bool;
  vs_peer : string;
  vs_loopback : bool;
  vs_stream : Stream;
  vs_shutdown_read : bool;
  vs_late : bool;
  vs_random : option string;
  vs_closing : bool;
  vs_shutdown_dispatched : bool;
  vs_written : bool;
  vs_shutdown_written : bool
}.

Section Serve.
Context {H : Type} `{McpServerToolHandler H}.
Implicit Types s : McpStreamableHttpServer H.

(** [handle_connection]: the server afterwards and the text written. *)
Definition handle_connection s (v : Visit) : McpStreamableHttpServer H * option string :=
  if negb (vs_registered v) then (protocol_error_counted s, None)
  else if vs_shutdown_start v then (s, None)
  else if negb (vs_has_deadline v) then (protocol_error_counted s, None)
  else
  let write response := fst (response_wire response (response_limit_bytes (sv_config s))) in
  if negb (vs_loopback v) then (protocol_error_counted s, Some (write (http_error 403 "loopback client required")))
  else match read_http_request (vs_stream v) (sv_config s) (expected_host s) with
  | Ok None => (s, None)
  | Err failure => (protocol_error_counted s, Some (write (failure_response failure)))
  | Ok (Some request) =>
      if vs_shutdown_read v then (s, None)
      else if vs_late v then (protocol_error_counted s, None)
      else
      let s := s <| report := (report s) <| requests := saturating_add usize_max (requests (report s)) 1 |> |> in
      let '(response, action, s) := dispatch s request (vs_peer v) (vs_random v) (vs_closing v) in
      let s := if rp_error response then protocol_error_counted s else s in
      if vs_shutdown_dispatched v then (s, None)
      else
      let '(wire, outcome) := response_wire response (response_limit_bytes (sv_config s)) in
      (commit_action_after_response s action (if vs_written v then Some outcome else None) (vs_shutdown_written v), Some wire)
  end.

Definition close_all_sessions s : McpStreamableHttpServer H :=
  s <| report := (report s) <| sessions_closed_on_shutdown :=
         saturating_add usize_max (sessions_closed_on_shutdown (report s)) (N.of_nat (size (sessions s))) |> |>
    <| sessions := ∅ |>.

(** [from_listener] for a listener on [local_addr]. *)
Definition MAX_SURFACE_TOOLS : nat := 128.

Definition server_new (local_addr : string) (loopback : bool) (config : McpStreamableHttpServerConfig)
    (surface : EvaMcpServerSurface) (handler : H) : Res (McpStreamableHttpServer H) :=
  server_config_validate config >>?
  reject negb loopback with
    with_provider_code (permission_denied "MCP HTTP server must bind a numeric loopback address")
      "mcp_server_bind_not_loopback" else
  reject bool_decide (surface = []) || Nat.ltb MAX_SURFACE_TOOLS (length surface) || existsb side_effects surface with
    with_provider_code (permission_denied "local MCP HTTP server may expose only bounded side-effect-free tools")
      "mcp_server_surface_not_read_only" else
  reject existsb (fun origin => negb (String.eqb origin ("http://" +:+ local_addr))) (sv_allowed_origins config) with
    with_provider_code (permission_denied "MCP HTTP server allowed origins must exactly match its bound origin")
      "mcp_server_origin_not_bound" else
  Ok (MkServer local_addr config surface handler ∅ (MkServeReport 0 0 0 0 0 0 0 0 0 [])).

(** [serve]: the connections until the shutdown is seen; the accept loop's
    waiting is not modelled. *)
Definition serve s (visits : list Visit) : McpStreamableHttpServer H :=
  let s := s <| report := (report s) <| serve_audit :=
             ["mcp.server.transport:streamable_http"; "mcp.server.bind:loopback"; "mcp.server.tools:read_only";
              "mcp.server.origin:explicit_or_absent"] |> |> in
  let s := foldl (fun s v =>
    (handle_connection (s <| report := (report s) <| accepted_connections :=
                                saturating_add usize_max (accepted_connections (report s)) 1 |> |>) v).1) s visits in
  let s := close_all_sessions s in
  s <| report := (report s) <| dangling_sessions := N.of_nat (size (sessions s)) |>
                          <| serve_audit := serve_audit (report s) ++ ["mcp.server.shutdown:complete"] |> |>.
End Serve.
