(* ===== verification/ServerSafety.v ===== *)
(** * What the MCP server allows (crates/eva-mcp/src/server_transport.rs)

    The sessions of the server as an abstract state machine that every
    connection follows, and the conditions under which the tool handler is
    called. *)

From Stdlib Require Import Ascii.
From stdpp Require Import base numbers strings gmap list.
From S2P Require Import Prelude RustStr Error Ids Json McpJsonRpc McpClient HttpFraming McpEndpoint HttpSse HttpSession.
From S2P Require Import McpServer ServerRequest ServerDispatch.

(** ** A concrete MCP call

    The built-in server on 127.0.0.1:8080 and a client that calls one of its
    tools: the client's requests are given to the server, and the server's
    answers are the ones the client reads.  The samples of the theorems. *)

(** A handler that answers with what it was called with, and keeps it. *)
#[export] Instance echo_handler : McpServerToolHandler (list McpServerToolCall) := {
  handle_tool h call := (Ok (MkToolResult (call_tool call +:+ " " +:+ arguments_json call) false), h ++ [call])
}.

Definition sample_host : string := "127.0.0.1:8080".
Definition sample_server : Res (McpStreamableHttpServer (list McpServerToolCall)) :=
  let? tools := v11_minimal in server_new sample_host true server_config_default tools [].

Definition sample_started : McpStreamableHttpServer (list McpServerToolCall) :=
  match sample_server with
  | Ok s => s
  | Err _ => MkServer "" server_config_default [] [] ∅ (MkServeReport 0 0 0 0 0 0 0 0 0 [])
  end.

(** A connection from the same machine, with nothing in its way. *)
Definition sample_visit (text : string) : Visit :=
  MkVisit true false true "127.0.0.1" true [Ok text] false false (Some "0123456789abcdef") false false true false.
Definition sample_session_id : string := "30313233343536373839616263646566".

(** The server's answers to requests, in turn. *)
Fixpoint sample_answers (s : McpStreamableHttpServer (list McpServerToolCall)) (texts : list string) :
    list string * McpStreamableHttpServer (list McpServerToolCall) :=
  match texts with
  | [] => ([], s)
  | text :: r =>
      let '(s, wire) := handle_connection s (sample_visit text) in
      let '(wires, s) := sample_answers s r in (default "" wire :: wires, s)
  end.

Definition sample_reply (text : string) : Res Connection := Ok (MkConnection [Ok text] false (false, false) None).

Definition sample_caller : McpJsonRpcClient :=
  {| mc_adapter_id := MkId "mcp"; mc_allowlist := MkAllowlist {["adapter.probe"]} ∅ ∅; mc_config := client_config_new |}.
Definition sample_input : string := js "{'adapter_id':'a1'}".

(** The call, over a transport that finds the given answers, and the texts
    that it writes. *)
Definition sample_call (answers : list string) : Res (Res McpJsonRpcCallReport * list string) :=
  let? t := http_transport_new (MkHttpConfig ("http://" +:+ sample_host +:+ "/mcp") [] None Deny []) [] (Ok tt)
              (sample_reply <$> answers) in
  let '(r, t) := call_tool_with_transport sample_caller t (MkId "r1") "adapter.probe" sample_input in
  Ok (r, ht_wire t).

(** One exchange after the other: what the server answers to the texts so far. *)
Fixpoint sample_rounds (s : McpStreamableHttpServer (list McpServerToolCall)) (n : nat) (answers : list string) : list string :=
  match n with
  | O => answers
  | S n => sample_rounds s n (match sample_call (answers ++ [""]) with Ok (_, texts) => (sample_answers s texts).1 | Err _ => [] end)
  end.

Definition sample_dialogue : list string := Eval vm_compute in sample_rounds sample_started 4 [].

(** The client and the server understand each other: after four requests the
    call returns the result of the one call of the handler. *)
Example sample_call_completes :
  match sample_call sample_dialogue with
  | Ok (Ok report, texts) =>
      let '(answers, s) := sample_answers sample_started texts in
      length texts = 4 /\ answers = sample_dialogue /\
      handler s = [MkToolCall "adapter.probe" sample_input] /\ size (sessions s) = 1 /\
      cr_output report = call_output (MkId "mcp") "adapter.probe"
        (js "{'content':[{'type':'text','text':" +:+ json_string ("adapter.probe " +:+ sample_input) +:+ js "}],'isError':false}")
  | _ => False
  end.
Proof. vm_compute. repeat split. Qed.

(** The requests, and the server once the session is announced. *)
Definition sample_texts : list string := Eval vm_compute in match sample_call sample_dialogue with Ok (_, texts) => texts | Err _ => [] end.
Definition sample_announced : McpStreamableHttpServer (list McpServerToolCall) :=
  Eval vm_compute in (sample_answers sample_started (take 2 sample_texts)).2.

Section Safety.
Context {H : Type} `{McpServerToolHandler H}.
Implicit Types s : McpStreamableHttpServer H.

(** ** The session machine *)

(** What one connection of a peer may do to the sessions. *)
Inductive session_move (limit : N) (peer : string) : gmap string ServerSession -> gmap string ServerSession -> Prop :=
| move_none m : session_move limit peer m m
| move_create m id :
    (N.of_nat (size m) < limit)%N -> session_move limit peer m (<[id := MkServerSession peer AwaitingInitialized]> m)
| move_ready m id :
    m !! id = Some (MkServerSession peer AwaitingInitialized) ->
    session_move limit peer m (<[id := MkServerSession peer Ready]> m)
| move_delete m id phase : m !! id = Some (MkServerSession peer phase) -> session_move limit peer m (delete id m).

(** The action a dispatch asks for is a move. *)
Definition action_moves limit peer s (action : ServerAction) : Prop :=
  session_move limit peer (sessions s) (sessions (apply_action s action)).

(** The dispatched server differs in its report and its handler only. *)
Definition same_server s s' : Prop :=
  expected_host s' = expected_host s /\ sv_config s' = sv_config s /\ surface s' = surface s /\ sessions s' = sessions s.

Lemma controlled_session_Ok s request peer id ph : controlled_session s request peer = Ok (id, ph) ->
  valid_session_id id = true /\ request_header request "mcp-session-id" = Some id /\
  request_header request "mcp-protocol-version" = Some DEFAULT_PROTOCOL_VERSION /\
  sessions s !! id = Some (MkServerSession peer ph).
Proof.
  unfold controlled_session. intros E. apply reject_Ok in E as [Hv E]. apply negb_false_iff, bool_decide_eq_true in Hv.
  destruct (request_header request "mcp-session-id") as [i|]; [|done]. apply reject_Ok in E as [Hi E].
  apply negb_false_iff in Hi. destruct (sessions s !! i) as [[p ph']|] eqn:Es; [|done]. apply reject_Ok in E as [Hp E].
  apply negb_false_iff, String.eqb_eq in Hp. cbn in Hp. subst p. by injection E as <- <-.
Qed.

(** ** The handler's calls *)

(** One call of the handler, and what was checked before it. *)
Record permitted_call s (request : HttpRequest) (peer : string) (s' : McpStreamableHttpServer H) : Prop := {
  pc_method : rq_method request = "POST";
  pc_target : rq_target request = sv_path (sv_config s);
  pc_host : request_header request "host" = Some (expected_host s);
  pc_origin : forall origin, request_header request "origin" = Some origin -> origin ∈ sv_allowed_origins (sv_config s);
  pc_session : exists id, request_header request "mcp-session-id" = Some id /\ sessions s !! id = Some (MkServerSession peer Ready);
  pc_call : exists envelope name arguments call,
    parse_request_envelope (rq_body request) = Ok envelope /\ en_method envelope = "tools/call" /\
    validate_tool_arguments (surface s) name arguments = Ok tt /\ admitted name arguments = Ok call /\
    allowed (gate_tool (surface s) name) = true /\
    handler s' = (handle_tool (handler s) call).2
}.

(** The handler is as it was, or it was called with everything checked. *)
Definition guarded s (request : HttpRequest) (peer : string) (r : Dispatched (H := H)) : Prop :=
  let '(_, action, s') := r in
  same_server s s' /\ action_moves (max_sessions (sv_config s)) peer s action /\
  (handler s' = handler s /\ handler_calls (report s') = handler_calls (report s) \/
   permitted_call s request peer s' /\ action = NoAction /\
   handler_calls (report s') = saturating_add usize_max (handler_calls (report s)) 1).

Lemma respond_guarded s request peer r : guarded s request peer (respond r s).
Proof. split_and!; [done|constructor|by left]. Qed.

Lemma action_guarded s request peer r action : action_moves (max_sessions (sv_config s)) peer s action ->
  guarded s request peer (r, action, s).
Proof. intros Hm. split_and!; [done|exact Hm|by left]. Qed.

Lemma dispatch_initialize_guarded s request envelope peer random :
  guarded s request peer (dispatch_initialize s request envelope peer random).
Proof.
  unfold dispatch_initialize. destruct (en_id envelope); [|apply respond_guarded].
  destruct (_ || _); [apply respond_guarded|]. destruct (validate_initialize_params _); [|apply respond_guarded].
  destruct (max_sessions (sv_config s) <=? _)%N eqn:El; [apply respond_guarded|]. apply N.leb_gt in El.
  destruct (new_session_id random); [|apply respond_guarded]. apply action_guarded. by constructor.
Qed.

Lemma is_ok_unit {E} (r : Result E unit) : is_ok r = true -> r = Ok tt.
Proof. by destruct r as [[]|]. Qed.

Lemma surface_require_tool_Ok su name : is_ok (surface_require_tool su name) = true -> allowed (gate_tool su name) = true.
Proof. unfold surface_require_tool. by destruct (allowed (gate_tool su name)). Qed.

(** The tools/call branch, for a session that was found. *)
Lemma dispatch_tools_call_guarded s request envelope peer id ph closing :
  rq_method request = "POST" -> rq_target request = sv_path (sv_config s) ->
  request_header request "host" = Some (expected_host s) ->
  (forall origin, request_header request "origin" = Some origin -> origin ∈ sv_allowed_origins (sv_config s)) ->
  parse_request_envelope (rq_body request) = Ok envelope -> en_method envelope = "tools/call" ->
  controlled_session s request peer = Ok (id, ph) ->
  guarded s request peer (dispatch_tools_call s envelope id ph closing).
Proof.
  intros Hm Ht Hh Ho He Hmethod Hs. apply controlled_session_Ok in Hs as (_ & Hsid & _ & Hsession).
  unfold dispatch_tools_call. destruct (en_id envelope) as [rid|]; [|apply respond_guarded].
  case_bool_decide as Hready; cbn [negb]; [subst ph|apply respond_guarded].
  destruct (call_params (en_params envelope)) as [params|]; [|apply respond_guarded].
  destruct (tool_name_of params) as [name|]; [|apply respond_guarded].
  destruct (is_ok (surface_require_tool (surface s) name)) eqn:Er; cbn [negb].
  2: { split_and!; [done|constructor|by left]. }
  case_bool_decide; cbn [negb]; [|apply respond_guarded]. cbv zeta.
  destruct (is_ok (validate_tool_arguments (surface s) name _)) eqn:Ev; cbn [negb]; [|apply respond_guarded].
  destruct (admitted name _) as [call|] eqn:Ea; [|apply respond_guarded].
  destruct closing; [apply respond_guarded|].
  assert (forall h, h = (handle_tool (handler s) call).2 ->
    permitted_call s request peer (s <| report := (report s) <| handler_calls := saturating_add usize_max (handler_calls (report s)) 1 |> |>
      <| handler := h |>)) as Hcall.
  { intros h Eh. split; try done; [by exists id|]. exists envelope, name, (default "{}" (params !! "arguments")), call.
    split_and!; try done; [by apply is_ok_unit|by apply surface_require_tool_Ok]. }
  unfold call_handler. cbv zeta. match goal with |- context [handle_tool ?h call] => change h with (handler s) end.
  destruct (handle_tool (handler s) call) as [result h] eqn:Eh. specialize (Hcall h eq_refl).
  destruct result as [result|e]; [match goal with |- context [tool_result_fits ?a ?b ?c] => destruct (tool_result_fits a b c) end|];
    (split_and!; [done|constructor|right; split_and!; [exact Hcall|done..]]).
Qed.

Lemma dispatch_post_guarded s request peer random closing :
  rq_method request = "POST" -> rq_target request = sv_path (sv_config s) ->
  request_header request "host" = Some (expected_host s) ->
  (forall origin, request_header request "origin" = Some origin -> origin ∈ sv_allowed_origins (sv_config s)) ->
  guarded s request peer (dispatch_post s request peer random closing).
Proof.
  intros Hm Ht Hh Ho. unfold dispatch_post. do 2 (destruct (negb _); [apply respond_guarded|]).
  destruct (parse_request_envelope (rq_body request)) as [envelope|] eqn:Ee; [|apply respond_guarded]. cbv zeta.
  destruct (negb _ && String.eqb (en_method envelope) "initialize"); [apply respond_guarded|].
  destruct (String.eqb (en_method envelope) "initialize"); [apply dispatch_initialize_guarded|].
  destruct (controlled_session s request peer) as [[id ph]|] eqn:Ec; [|apply respond_guarded].
  destruct (negb _ && _); [apply respond_guarded|].
  destruct (String.eqb (en_method envelope) "notifications/initialized").
  { unfold dispatch_initialized. destruct (_ || _ || _) eqn:Eb; [apply respond_guarded|].
    apply orb_false_iff in Eb as [_ Eb]. apply negb_false_iff, bool_decide_eq_true in Eb. subst ph.
    apply controlled_session_Ok in Ec as (_ & _ & _ & Es). apply action_guarded. unfold action_moves, apply_action. rewrite Es.
    by apply move_ready. }
  destruct (String.eqb (en_method envelope) "tools/list").
  { unfold dispatch_tools_list. destruct (en_id envelope); [|apply respond_guarded]. by repeat case_match; apply respond_guarded. }
  destruct (String.eqb (en_method envelope) "tools/call") eqn:Et; [|apply respond_guarded].
  apply String.eqb_eq in Et. by eapply dispatch_tools_call_guarded.
Qed.

Lemma dispatch_guarded s request peer random closing : guarded s request peer (dispatch s request peer random closing).
Proof.
  unfold dispatch. destruct (String.eqb (rq_target request) _) eqn:Et; cbn [negb]; [|apply respond_guarded].
  case_bool_decide as Hh; cbn [negb]; [|apply respond_guarded].
  destruct (match request_header request "origin" with Some _ => _ | None => _ end) eqn:Eo; [apply respond_guarded|].
  apply String.eqb_eq in Et. destruct (String.eqb (rq_method request) "POST") eqn:Em.
  { apply String.eqb_eq in Em. apply dispatch_post_guarded; [done..|]. intros origin Horigin. rewrite Horigin in Eo.
    by apply negb_false_iff, bool_decide_eq_true in Eo. }
  destruct (String.eqb (rq_method request) "DELETE"); [|apply respond_guarded].
  unfold dispatch_delete. destruct (negb _); [apply respond_guarded|].
  destruct (controlled_session s request peer) as [[id ph]|] eqn:Ec; [|apply respond_guarded].
  apply controlled_session_Ok in Ec as (_ & _ & _ & Es). apply action_guarded. unfold action_moves, apply_action. rewrite Es.
  by eapply move_delete.
Qed.

(** ** Connections *)

(** The server after a connection, against the server before. *)
Definition visited s (v : Visit) s' : Prop :=
  expected_host s' = expected_host s /\ sv_config s' = sv_config s /\ surface s' = surface s /\
  session_move (max_sessions (sv_config s)) (vs_peer v) (sessions s) (sessions s') /\
  (handler s' = handler s /\ handler_calls (report s') = handler_calls (report s) \/
   vs_loopback v = true /\ (exists request, read_http_request (vs_stream v) (sv_config s) (expected_host s) = Ok (Some request) /\
     permitted_call s request (vs_peer v) s') /\ sessions s' = sessions s /\
   handler_calls (report s') = saturating_add usize_max (handler_calls (report s)) 1).

(** A change of the report that is not about the handler. *)
Lemma visited_reported s v s' : same_server s s' -> handler s' = handler s ->
  handler_calls (report s') = handler_calls (report s) -> visited s v s'.
Proof. intros (H1 & H2 & H3 & H4) Hh Hc. split_and!; [done..| |by left]. rewrite H4. constructor. Qed.

Lemma counted_same s : same_server s (protocol_error_counted s) /\ handler (protocol_error_counted s) = handler s /\
  handler_calls (report (protocol_error_counted s)) = handler_calls (report s).
Proof. done. Qed.

Lemma apply_action_kept s action : expected_host (apply_action s action) = expected_host s /\
  sv_config (apply_action s action) = sv_config s /\ surface (apply_action s action) = surface s /\
  handler (apply_action s action) = handler s /\ handler_calls (report (apply_action s action)) = handler_calls (report s).
Proof. destruct action; cbn; repeat case_match; done. Qed.

(** Applying an action to a server with the same sessions. *)
Lemma apply_action_sessions s s' action : sessions s' = sessions s ->
  sessions (apply_action s' action) = sessions (apply_action s action).
Proof. intros E. destruct action as [|id se|id|id]; cbn; rewrite ?E; [done..| |]; by destruct (sessions s !! id). Qed.

Lemma permitted_call_kept s0 s request peer s1 s2 :
  expected_host s0 = expected_host s -> sv_config s0 = sv_config s -> surface s0 = surface s -> sessions s0 = sessions s ->
  handler s0 = handler s -> handler s2 = handler s1 -> permitted_call s0 request peer s1 -> permitted_call s request peer s2.
Proof.
  intros E1 E2 E3 E4 E5 E6 [P1 P2 P3 P4 P5 P6]. split; [done|by rewrite <- E2|by rewrite <- E1|by rewrite <- E2| |].
  - by rewrite <- E4.
  - rewrite <- E3, <- E5, E6. done.
Qed.

Lemma handle_connection_visited s v : visited s v (handle_connection s v).1.
Proof.
  unfold handle_connection. destruct (negb (vs_registered v)); [by apply visited_reported|].
  destruct (vs_shutdown_start v); [by apply visited_reported|]. destruct (negb (vs_has_deadline v)); [by apply visited_reported|].
  cbv zeta. destruct (vs_loopback v) eqn:El; cbn [negb]; [|by apply visited_reported].
  destruct (read_http_request _ _ _) as [[request|]|failure] eqn:Er; [|by apply visited_reported..].
  destruct (vs_shutdown_read v); [by apply visited_reported|]. destruct (vs_late v); [by apply visited_reported|].
  set (s0 := s <| report := _ |>). pose proof (dispatch_guarded s0 request (vs_peer v) (vs_random v) (vs_closing v)) as Hg.
  destruct (dispatch s0 request _ _ _) as [[response action] s1]. destruct Hg as ((G1 & G2 & G3 & G4) & Hmove & Hcall).
  set (s2 := if rp_error response then protocol_error_counted s1 else s1).
  assert (same_server s s2 /\ handler s2 = handler s1 /\ handler_calls (report s2) = handler_calls (report s1)) as (Hsame & Hh & Hc).
  { unfold s2. destruct (rp_error response); by split_and!. }
  assert (forall s3, expected_host s3 = expected_host s2 -> sv_config s3 = sv_config s2 -> surface s3 = surface s2 ->
    handler s3 = handler s2 -> handler_calls (report s3) = handler_calls (report s2) ->
    sessions s3 = sessions s2 \/ sessions s3 = sessions (apply_action s2 action) -> visited s v s3) as Hend.
  { intros s3 E1 E2 E3 E4 E5 E6. destruct Hsame as (S1 & S2 & S3 & S4).
    assert (session_move (max_sessions (sv_config s)) (vs_peer v) (sessions s) (sessions s3)) as Hm.
    { destruct E6 as [->|E6]; [rewrite S4; constructor|]. rewrite E6, (apply_action_sessions s0 s2 action) by done. exact Hmove. }
    split_and!; [congruence..|exact Hm|]. destruct Hcall as [[C1 C2]|(C1 & C2 & C3)].
    - left. split; [rewrite E4, Hh, C1; done|rewrite E5, Hc, C2; done].
    - right. split; [done|]. split; [|split; [|rewrite E5, Hc, C3; done]].
      + exists request. split; [done|]. eapply permitted_call_kept, C1; try done. congruence.
      + destruct E6 as [E6|E6]; [congruence|]. rewrite E6, C2. cbn. congruence. }
  clearbody s2. destruct (vs_shutdown_dispatched v); [by apply Hend; auto|].
  destruct (response_wire response _) as [wire outcome]. cbn [fst]. unfold commit_action_after_response.
  destruct (if vs_written v then _ else _) as [[|]|]; [|by apply Hend; auto..].
  destruct (is_delete action || _); [|by apply Hend; auto].
  destruct (apply_action_kept s2 action) as (A1 & A2 & A3 & A4 & A5). apply Hend; auto.
Qed.

(** ** A run of the server *)

Lemma session_move_bounded limit peer m m' : session_move limit peer m m' ->
  (N.of_nat (size m) <= limit)%N -> (N.of_nat (size m') <= limit)%N.
Proof.
  destruct 1 as [|m id Hs|m id Hid|m id ph Hid]; intros Hb; [done|..].
  - destruct (m !! id) eqn:E; [rewrite map_size_insert_Some by (by eexists)|rewrite map_size_insert_None by done]; lia.
  - rewrite map_size_insert_Some by (by eexists). done.
  - rewrite map_size_delete_Some by (by eexists). lia.
Qed.

(** Whatever a session has become, the peer of a session is the one that
    created it. *)
Inductive session_history (limit : N) : list string -> gmap string ServerSession -> Prop :=
| history_start : session_history limit [] ∅
| history_more peers m peer m' : session_history limit peers m -> session_move limit peer m m' -> session_history limit (peers ++ [peer]) m'.

Lemma history_bounded limit peers m : session_history limit peers m -> (N.of_nat (size m) <= limit)%N.
Proof.
  induction 1 as [|peers m peer m' _ IH Hm]; [rewrite map_size_empty; lia|]. by eapply session_move_bounded.
Qed.

Definition after_visits s (visits : list Visit) : McpStreamableHttpServer H :=
  foldl (fun s v => (handle_connection s v).1) s visits.

Lemma after_visits_history s visits : sessions s = ∅ ->
  session_history (max_sessions (sv_config s)) (vs_peer <$> visits) (sessions (after_visits s visits)) /\
  expected_host (after_visits s visits) = expected_host s /\ sv_config (after_visits s visits) = sv_config s /\
  surface (after_visits s visits) = surface s.
Proof.
  intros E. induction visits as [|v visits IH] using rev_ind.
  - split_and!; [|done..]. cbn. rewrite E. constructor.
  - destruct IH as (IH & E1 & E2 & E3). unfold after_visits in *. rewrite foldl_app, fmap_app. cbn [foldl fmap list_fmap].
    destruct (handle_connection_visited (foldl (fun s v => (handle_connection s v).1) s visits) v) as (V1 & V2 & V3 & Hm & _).
    split_and!; [|congruence..]. rewrite E2 in Hm. by eapply history_more.
Qed.
End Safety.

(** C19: The tool handler is called only from a loopback connection whose
    request was read whole, is a POST to the server's path under its own host
    name and an allowed origin, and carries a session of the same peer that
    has been initialized and announced; the call names an exposed tool and its
    arguments fit the tool's schema.  It is called once, and changes no
    session. *)
Theorem server_calls_guarded {H} `{McpServerToolHandler H} (s : McpStreamableHttpServer H) v :
  let s' := (handle_connection s v).1 in
  handler s' = handler s /\ handler_calls (report s') = handler_calls (report s) \/
  vs_loopback v = true /\ sessions s' = sessions s /\ handler_calls (report s') = saturating_add usize_max (handler_calls (report s)) 1 /\
  exists request, read_http_request (vs_stream v) (sv_config s) (expected_host s) = Ok (Some request) /\
    permitted_call s request (vs_peer v) s'.
Proof.
  cbv zeta. destruct (handle_connection_visited s v) as (_ & _ & _ & _ & [Hc|(Hl & Hr & Hs & Hn)]); [by left|right].
  by split_and!.
Qed.

(** C20: From its start, whatever connects to it and whatever fails, the
    server's sessions follow the session machine: one move of one session per
    connection, made for the session's own peer, in the order created,
    announced, deleted; there are never more than configured. *)
Theorem server_refines_sessions {H} `{McpServerToolHandler H} local_addr loopback config tools h (s : McpStreamableHttpServer H) visits :
  server_new local_addr loopback config tools h = Ok s ->
  session_history (max_sessions config) (vs_peer <$> visits) (sessions (after_visits s visits)) /\
  (N.of_nat (size (sessions (after_visits s visits))) <= max_sessions config)%N.
Proof.
  intros Hs. assert (sessions s = ∅ /\ sv_config s = config) as [E <-].
  { unfold server_new in Hs. apply then_Ok in Hs as [_ Hs]. apply reject_Ok in Hs as [_ Hs]. apply reject_Ok in Hs as [_ Hs].
    apply reject_Ok in Hs as [_ Hs]. by injection Hs as <-. }
  destruct (after_visits_history s visits E) as [Hh _]. split; [done|]. by eapply history_bounded.
Qed.

Lemma server_refines_sessions_witness :
  size (sessions (after_visits sample_started (sample_visit <$> sample_texts))) = 1 /\
  session_history 64 (vs_peer <$> (sample_visit <$> sample_texts))
    (sessions (after_visits sample_started (sample_visit <$> sample_texts))) /\
  (N.of_nat (size (sessions (after_visits sample_started (sample_visit <$> sample_texts)))) <= 64)%N.
Proof.
  split; [vm_compute; reflexivity|].
  apply (server_refines_sessions sample_host true server_config_default (surface sample_started) [] sample_started).
  vm_compute. reflexivity.
Defined.
