(* ===== verification/ServerWire.v ===== *)
(** * Client and server on one connection (crates/eva-mcp/src/json_rpc.rs, server_transport.rs)

    What the client writes is what the server reads, and what the server
    writes is what the client reads, however a connection cuts the bytes. *)

From Stdlib Require Import Ascii.
From stdpp Require Import base numbers strings gmap list.
From S2P Require Import Prelude RustStr Error Json JsonGrammar JsonStrings McpJsonRpc McpClient McpReader HttpFraming HttpReader HttpHead.
From S2P Require Import McpEndpoint HttpSession HttpRequestHead McpEndpointLaws McpServer ServerRequest ServerDispatch ServerSafety.

(** ** The server's reads *)

Lemma read_of_http_read s n origin b s' : http_read s n origin = Ok (b, s') -> read s n = (Ok b, s').
Proof. unfold http_read. destruct (read s n) as [[bytes|e] s1]; [|done]. by intros [= -> ->]. Qed.

Lemma read_until_nl_complete l : forall n s rest,
  stream_bytes s = l +:+ String nl rest -> contains_char nl l = false -> String.length l < n ->
  exists s', read_until_nl n s = Ok (l +:+ str nl, s') /\ stream_bytes s' = rest /\ stream_failure s' = stream_failure s.
Proof.
  induction l as [|c l IH]; intros [|n] s rest Hs Hl Hn; cbn [String.length] in Hn; try lia; cbn [read_until_nl].
  - destruct (http_read_byte s "" nl rest Hs) as (s' & E & Hs' & Hf'). apply read_of_http_read in E as ->.
    change (str_is_empty (str nl)) with false. rewrite String.eqb_refl. by exists s'.
  - cbn [contains_char] in Hl. apply orb_false_iff in Hl as [Hcn Hl]. rewrite append_cons in Hs.
    destruct (http_read_byte s "" c _ Hs) as (s' & E & Hs' & Hf'). apply read_of_http_read in E as ->.
    change (str_is_empty (str c)) with false.
    assert (String.eqb (str c) (str nl) = false) as ->.
    { apply String.eqb_neq. intros [= ->]. by rewrite (proj2 (Ascii.eqb_eq nl nl) eq_refl) in Hcn. }
    destruct (IH n s' rest) as (s'' & -> & H1 & H2); [done..|lia|]. exists s''. split_and!; [done..|congruence].
Qed.

Lemma read_crlf_line_complete s consumed limit status l rest :
  stream_bytes s = l +:+ crlf +:+ rest -> contains_char nl l = false -> (consumed + slen l + 2 <= limit)%N ->
  exists s', read_crlf_line s consumed limit status = Ok (Some l, (consumed + slen l + 2)%N, s') /\
    stream_bytes s' = rest /\ stream_failure s' = stream_failure s.
Proof.
  intros Hs Hl Hc. unfold read_crlf_line. rewrite (proj2 (N.leb_gt _ _)) by lia. cbv zeta.
  assert (stream_bytes s = (l +:+ str cr) +:+ String nl rest) as Hs' by (by rewrite <- append_assoc).
  destruct (read_until_nl_complete (l +:+ str cr) (N.to_nat (limit - consumed + 1)) s rest) as (s' & -> & H1 & H2);
    [done|by rewrite contains_char_append, Hl|unfold slen in Hc; rewrite length_append; cbn [String.length str]; lia|].
  rewrite <- append_assoc. change (str cr +:+ str nl) with crlf. cbn [map_io_error].
  assert (slen (l +:+ crlf) = slen l + 2)%N as Hlen by (unfold slen; rewrite length_append; cbn; lia).
  assert (str_is_empty (l +:+ crlf) = false) as -> by (by destruct l).
  rewrite Hlen, (proj2 (N.ltb_ge _ _)) by lia. rewrite (proj2 (ends_with_crlf_iff _)) by (by eexists). cbn [negb].
  exists s'. split_and!; [|done..]. rewrite length_append. cbn [String.length crlf str]. rewrite Nat.add_sub, substring_prefix.
  do 3 f_equal. lia.
Qed.

Lemma read_exact_complete fuel : forall s d rest, stream_bytes s = d +:+ rest -> String.length d < fuel ->
  exists s', read_exact fuel (String.length d) s = Ok (d, s').
Proof.
  induction fuel as [|fuel IH]; intros s d rest Hs Hf; [lia|]. destruct d as [|c d]; [by exists s|].
  set (m := String.length (String c d)) in *. cbn [read_exact]. destruct m as [|m'] eqn:Em; [done|].
  destruct (http_read_some s (S m') "") as (b & s1 & E & Hb & Hl & Hs1 & _); [by rewrite Hs|lia|].
  apply read_of_http_read in E as ->. rewrite (proj1 (not_empty b) Hb). rewrite Hs1 in Hs.
  destruct (append_split b (String c d) _ _ Hs) as (d' & Ed & Hrest); [fold m; lia|].
  assert (String.length b + String.length d' = S m') as Hbd by (rewrite <- Em; unfold m; rewrite Ed, length_append; lia).
  replace (S m' - String.length b) with (String.length d') by lia.
  assert (0 < String.length b) by (destruct b; [done|cbn; lia]).
  destruct (IH s1 d' rest) as (s2 & ->); [done|lia|]. exists s2. by rewrite Ed.
Qed.

(** ** Header lines *)

(** A value that the server reads as it was written: printable, no space at
    its ends. *)
Definition plain (value : string) : Prop :=
  bytes_all (in_range 32 126) value = true /\ trim_ascii_spaces value = value.
Definition plain_header (h : string * string) : Prop :=
  h.1 <> "" /\ bytes_all is_http_token_byte h.1 = true /\ plain h.2.
Definition lowered (h : string * string) : string * string := (to_ascii_lowercase h.1, h.2).

Lemma token_byte c : is_http_token_byte c = true -> c <> ":"%char /\ is_ascii_whitespace c = false.
Proof. intros H. split; [by intros ->|]. by destruct c as [[] [] [] [] [] [] [] []]. Qed.

Lemma token_no_colon name : bytes_all is_http_token_byte name = true -> contains_char ":" name = false.
Proof.
  induction name as [|c r IH]; [done|]. cbn [bytes_all contains_char]. intros [Hc Hr]%andb_true_iff. rewrite IH by done.
  rewrite orb_false_r. apply Ascii.eqb_neq. intros <-. by apply token_byte in Hc as [].
Qed.

Lemma parse_request_header_text h : plain_header h -> parse_request_header (header_text h) = Ok (lowered h).
Proof.
  destruct h as [name value]. intros (Hn & Ht & Hp & Hv). unfold parse_request_header, header_text, lowered. cbn [fst snd] in *.
  assert (match name +:+ ": " +:+ value with String c _ => is_ascii_whitespace c | EmptyString => false end = false) as ->.
  { destruct name as [|c r]; [done|]. cbn [bytes_all] in Ht. apply andb_true_iff in Ht as [Hc _]. by apply token_byte in Hc as []. }
  change (": " +:+ value) with (String ":" (" " +:+ value)). rewrite split_once_append by (by apply token_no_colon).
  cbn [ok_or]. cbv zeta. assert (trim_ascii_spaces (" " +:+ value) = value) as -> by exact Hv.
  by rewrite (proj1 (not_empty name) Hn), Ht, Hp.
Qed.

Lemma plain_header_line h : plain_header h -> contains_char nl (header_text h) = false /\ header_text h <> "".
Proof.
  destruct h as [name value]. intros (Hn & Ht & Hp & _). unfold header_text. cbn [fst snd] in *. split.
  - rewrite !contains_char_append. rewrite (bytes_no is_http_token_byte nl name), (bytes_no (in_range 32 126) nl value) by done.
    done.
  - by destruct name.
Qed.

Lemma lines_text_cons l ls : lines_text (l :: ls) = l +:+ crlf +:+ lines_text ls.
Proof. unfold lines_text. cbn. by rewrite append_assoc. Qed.

Lemma read_request_headers_complete hs : forall turns headers s consumed limit rest,
  Forall plain_header hs -> NoDup (names_of hs) -> (forall n, n ∈ names_of hs -> headers !! n = None) ->
  length hs < turns -> size headers + length hs <= MAX_HEADER_COUNT ->
  stream_bytes s = lines_text (header_text <$> hs) +:+ crlf +:+ rest ->
  (consumed + slen (lines_text (header_text <$> hs)) + 2 <= limit)%N ->
  exists s', read_request_headers turns headers s consumed limit = Ok (list_to_map (lowered <$> hs) ∪ headers, s') /\
    stream_bytes s' = rest.
Proof.
  induction hs as [|h hs IH]; intros [|turns] headers s consumed limit rest Hp Hnd Hfresh Ht Hsize Hs Hc; cbn [length] in *;
    try lia; cbn [read_request_headers].
  - destruct (read_crlf_line_complete s consumed limit 431 "" rest) as (s' & -> & Hr & _);
      [exact Hs|done|unfold slen in *; cbn in *; lia|]. cbn [ok_or]. change (str_is_empty "") with true.
    exists s'. split; [|done]. do 2 f_equal. symmetry. apply (left_id_L ∅ (∪)).
  - inversion Hp as [|? ? Hh Hp']; subst. cbn [fmap list_fmap] in Hs, Hc. rewrite lines_text_cons in Hs, Hc.
    destruct (plain_header_line h Hh) as [Hnl Hne]. rewrite <- !append_assoc in Hs. rewrite !slen_append in Hc.
    change (slen crlf) with 2%N in Hc.
    destruct (read_crlf_line_complete s consumed limit 431 (header_text h) _ Hs Hnl) as (s' & -> & Hr & _); [lia|].
    cbn [ok_or]. rewrite (proj1 (not_empty _) Hne). rewrite (proj2 (Nat.eqb_neq _ _)) by lia.
    rewrite parse_request_header_text by done. unfold lowered at 1. cbn [names_of fmap list_fmap] in Hnd, Hfresh.
    inversion Hnd as [|? ? Hnew Hnd']; subst.
    assert (headers !! to_ascii_lowercase h.1 = None) as Hh0 by (apply Hfresh; left).
    rewrite Hh0. rewrite bool_decide_eq_false_2 by (by intros [? ?]).
    destruct (IH turns (<[to_ascii_lowercase h.1 := h.2]> headers) s' (consumed + slen (header_text h) + 2)%N limit rest)
      as (s2 & -> & Hr2); [done|done| |lia|rewrite map_size_insert_None by done; lia|done|lia|].
    + intros n Hin. rewrite lookup_insert_ne; [by apply Hfresh; right|]. by intros <-.
    + exists s2. split; [|done]. do 2 f_equal.
      change (list_to_map (lowered <$> h :: hs) : gmap string string)
        with (<[to_ascii_lowercase h.1 := h.2]> (list_to_map (lowered <$> hs) : gmap string string)).
      rewrite <- insert_union_l, insert_union_r; [done|]. apply not_elem_of_list_to_map_1.
      by rewrite <- list_fmap_compose.
Qed.

(** ** Requests *)

Lemma push_names names request hs r : push_headers names request hs = Ok r ->
  Forall (fun h => h.1 <> "" /\ bytes_all is_http_token_byte h.1 = true) hs.
Proof.
  revert names request. induction hs as [|[name value] hs IH]; intros names request H; [done|]. cbn [push_headers] in H.
  apply then_Ok in H as [[[] Hval] H]. apply reject_Ok in H as [_ H]. constructor; [|by eapply IH]. cbn [fst].
  unfold validate_http_header in Hval. apply reject_Ok in Hval as [Hname _].
  apply orb_false_iff in Hname as [He Hname]. apply negb_false_iff in Hname. split; [by intros ->|].
  revert Hname. apply bytes_all_impl. apply ascii_impl. vm_compute. reflexivity.
Qed.

Lemma push_extra_names names request hs r : push_extra_headers names request hs = Ok r ->
  Forall (fun h => h.1 <> "" /\ bytes_all is_http_token_byte h.1 = true) hs.
Proof.
  revert names request. induction hs as [|[name value] hs IH]; intros names request H; [done|]. cbn [push_extra_headers] in H.
  apply then_Ok in H as [[[] Hval] H]. apply reject_Ok in H as [_ H]. constructor; [|by eapply IH]. cbn [fst].
  unfold validate_internal_http_header in Hval. apply reject_Ok in Hval as [Hname _].
  apply orb_false_iff in Hname as [He Hname]. apply negb_false_iff in Hname. split; [by intros ->|done].
Qed.

Lemma request_head_names path host headers spec head : http_request_head path host headers spec = Ok head ->
  Forall (fun h => h.1 <> "" /\ bytes_all is_http_token_byte h.1 = true) (headers ++ rs_extra_headers spec).
Proof.
  unfold http_request_head. intros H. apply reject_Ok in H as [_ H]. apply reject_Ok in H as [_ H].
  destruct (own_request_head _ _ _) as [names request]. destruct (push_headers _ _ headers) as [[n1 r1]|] eqn:E1; [|done].
  destruct (push_extra_headers n1 r1 _) as [r2|] eqn:E2; [|done]. apply push_names in E1. apply push_extra_names in E2.
  apply Forall_app. by split.
Qed.

(** What the transport asks for: a POST with a body that may be answered in
    JSON, or a DELETE without a body. *)
Definition mcp_request (spec : HttpRequestSpec) : Prop :=
  rs_method spec = "POST" /\ rs_body spec <> "" /\ accepts_json (rs_accept spec) = true \/
  rs_method spec = "DELETE" /\ rs_body spec = "".

(** Headers that a request of the server's has none of. *)
Definition refused_headers : list string := "origin" :: "transfer-encoding" :: unsupported_headers.

Lemma plain_ascii value : plain value -> bytes_all is_ascii value = true.
Proof. intros [H _]. revert H. apply bytes_all_impl, ascii_impl. vm_compute. reflexivity. Qed.

Lemma digits_plain n : plain (n_to_string n).
Proof.
  pose proof (n_to_string_digits n) as Hd. split.
  - revert Hd. apply bytes_all_impl, ascii_impl. vm_compute. reflexivity.
  - assert (forall s, bytes_all is_ascii_digit s = true -> cut_spaces s = s /\ skip_spaces s = s) as Hs.
    { induction s as [|c s IH]; [done|]. cbn [bytes_all]. intros [Hc [IH1 _]%IH]%andb_true_iff.
      assert (Ascii.eqb c " " = false) as E by (apply Ascii.eqb_neq; by intros ->).
      split; [cbn [cut_spaces]; by rewrite IH1, E, andb_false_r|cbn [skip_spaces]; by rewrite E]. }
    unfold trim_ascii_spaces. destruct (Hs _ Hd) as [H1 ->]. exact H1.
Qed.

Lemma config_path config : server_config_validate config = Ok tt ->
  sv_path config <> "" /\ bytes_all is_ascii (sv_path config) = true /\
  bytes_all (fun b => negb (is_blank_or_delete b)) (sv_path config) = true.
Proof.
  unfold server_config_validate. intros H. apply reject_Ok in H as [H _].
  repeat (apply orb_false_iff in H as [H ?]). rewrite !negb_false_iff in *. split_and!; [|done..].
  destruct (sv_path config); [|done]. by cbn in *.
Qed.

Lemma parse_request_line_text method path : method = "POST" \/ method = "DELETE" -> path <> "" ->
  bytes_all is_ascii path = true -> bytes_all (fun b => negb (is_blank_or_delete b)) path = true ->
  parse_request_line (method +:+ " " +:+ path +:+ " HTTP/1.1") = Ok (method, path).
Proof.
  intros Hm Hp Ha Hb. unfold parse_request_line.
  assert (bytes_all is_ascii method = true /\ contains_char " " method = false /\ str_is_empty method = false /\
    bytes_all is_http_token_byte method = true /\ bytes_all (in_range 65 90) method = true) as (Hma & Hms & Hme & Hmt & Hmu)
    by (by destruct Hm as [-> | ->]).
  rewrite ascii_utf8 by (by rewrite !bytes_all_append, Hma, Ha). cbn [negb]. cbv zeta.
  change (" " +:+ path +:+ " HTTP/1.1") with (String " " (path +:+ String " " "HTTP/1.1")).
  rewrite split_append by done. rewrite split_append by (by eapply bytes_no; [|exact Hb]). change (split " " "HTTP/1.1") with ["HTTP/1.1"].
  cbv iota. by rewrite Hme, (proj1 (not_empty path) Hp), Hmt, Hmu, Ha, Hb.
Qed.

Lemma lowered_names hs : (lowered <$> hs).*1 = names_of hs.
Proof. by rewrite <- list_fmap_compose. Qed.

Lemma header_found hs name value : NoDup (names_of hs) -> (name, value) ∈ lowered <$> hs ->
  (list_to_map (lowered <$> hs) : gmap string string) !! name = Some value.
Proof. intros Hnd Hin. apply elem_of_list_to_map_1; [by rewrite lowered_names|done]. Qed.

Lemma header_absent hs name : name ∉ names_of hs -> (list_to_map (lowered <$> hs) : gmap string string) !! name = None.
Proof. intros Hin. apply not_elem_of_list_to_map_1. by rewrite lowered_names. Qed.

(** The request's headers, as the server keeps them. *)
Definition request_headers (host : string) (headers : list (string * string)) (spec : HttpRequestSpec) : gmap string string :=
  list_to_map (lowered <$> own_headers host spec ++ headers ++ rs_extra_headers spec).

(** What makes a request one that the server's configuration lets through. *)
Record fits (config : McpStreamableHttpServerConfig) (host : string) (headers : list (string * string))
    (spec : HttpRequestSpec) (head : string) : Prop := {
  fit_request : mcp_request spec;
  fit_plain : Forall plain (host :: rs_accept spec :: (snd <$> headers ++ rs_extra_headers spec));
  fit_names : forall n, n ∈ "content-length" :: refused_headers -> n ∉ names_of (headers ++ rs_extra_headers spec);
  fit_count : length (headers ++ rs_extra_headers spec) <= 123;
  fit_head : (slen head <= header_limit_bytes config)%N;
  fit_body : (slen (rs_body spec) <= request_limit_bytes config)%N /\ (slen (rs_body spec) <= usize_max)%N;
  fit_utf8 : utf8_valid (rs_body spec) = true
}.

Section Read.
Context (config : McpStreamableHttpServerConfig) (host : string) (headers : list (string * string))
  (spec : HttpRequestSpec) (head : string).
Hypothesis Hconfig : server_config_validate config = Ok tt.
Hypothesis Hhead : http_request_head (sv_path config) host headers spec = Ok head.
Hypothesis Hfit : fits config host headers spec head.
#[local] Set Default Proof Using "Type*".

Let hs := own_headers host spec ++ headers ++ rs_extra_headers spec.

Lemma fit_values_plain : Forall plain_header hs.
Proof using All.
  destruct Hfit as [_ Hp _ _ _ _ _]. rewrite !Forall_cons in Hp. destruct Hp as (Hhost & Haccept & Hvalues).
  pose proof (request_head_names _ _ _ _ _ Hhead) as Hn. apply Forall_app. split.
  - assert (Forall plain ["close"; "application/json"]) as Hown by (repeat constructor).
    rewrite !Forall_cons in Hown. destruct Hown as (Hc & Hj & _).
    unfold own_headers. destruct (str_is_empty (rs_body spec)); cbn [app]; rewrite !Forall_cons; unfold plain_header; cbn [fst snd];
      split_and!; try done; apply digits_plain.
  - rewrite Forall_fmap in Hvalues. rewrite Forall_forall in *. intros h Hin. specialize (Hn h Hin) as [? ?].
    split_and!; [done..|]. exact (Hvalues h Hin).
Qed.

Lemma fit_lines : head = lines_text (request_line (sv_path config) spec :: (header_text <$> hs)) +:+ crlf /\ NoDup (names_of hs).
Proof using All.
  destruct Hfit as [_ Hp _ _ _ _ _]. rewrite !Forall_cons in Hp. destruct Hp as (Hhost & _ & Hvalues).
  destruct (config_path config Hconfig) as (_ & _ & Hpath).
  destruct (request_head_lines (sv_path config) host headers spec head) as (H1 & _ & H2); [..|exact Hhead|done].
  - by eapply name_clean; [..|exact Hpath].
  - destruct Hhost as [Hhost _]. by eapply name_clean; [..|exact Hhost].
  - rewrite fmap_app, Forall_app in Hvalues. destruct Hvalues as [Hvalues _]. rewrite Forall_fmap in Hvalues.
    eapply Forall_impl; [exact Hvalues|]. intros h Hh. by apply ascii_utf8, plain_ascii.
Qed.

Lemma fit_length : length hs <= MAX_HEADER_COUNT.
Proof using All.
  destruct Hfit as [_ _ _ Hc _ _ _]. unfold hs, own_headers, MAX_HEADER_COUNT. rewrite length_app.
  destruct (str_is_empty (rs_body spec)); cbn [app length]; lia.
Qed.

Lemma fit_found name value : In (name, value) (own_headers host spec) ->
  request_headers host headers spec !! to_ascii_lowercase name = Some value.
Proof using All.
  intros Hin. destruct fit_lines as [_ Hnd]. apply header_found; [exact Hnd|].
  rewrite fmap_app. apply elem_of_app. left. apply (list_elem_of_fmap_2 lowered _ (name, value)). by apply list_elem_of_In.
Qed.

Lemma fit_extra_found name value : In (name, value) (rs_extra_headers spec) ->
  request_headers host headers spec !! to_ascii_lowercase name = Some value.
Proof using All.
  intros Hin. destruct fit_lines as [_ Hnd]. apply header_found; [exact Hnd|].
  rewrite !fmap_app. apply elem_of_app. right. apply elem_of_app. right.
  apply (list_elem_of_fmap_2 lowered _ (name, value)). by apply list_elem_of_In.
Qed.

Lemma fit_absent n : n ∈ refused_headers -> request_headers host headers spec !! n = None.
Proof using All.
  intros Hin. apply header_absent. destruct Hfit as [_ _ Hr _ _ _ _]. specialize (Hr n ltac:(by right)). unfold names_of in *.
  rewrite fmap_app. intros [Ho|Ho]%elem_of_app; [|done]. clear Hr Hfit.
  assert (Forall (fun m => m ∉ refused_headers) ["host"; "connection"; "accept"; "content-type"; "content-length"]) as Hown
    by (apply (bool_decide_unpack _); vm_compute; exact I).
  rewrite Forall_forall in Hown. apply (Hown n); [|done]. clear Hown Hin.
  unfold own_headers in Ho. destruct (str_is_empty (rs_body spec)); cbn in Ho; set_solver.
Qed.

(** The checks on the headers pass, and the length is the body's. *)
Lemma fit_content_length :
  match request_headers host headers spec !! "content-length" with Some v => parse_request_content_length v | None => Ok 0%N end
  = Ok (slen (rs_body spec)).
Proof using All.
  destruct (str_is_empty (rs_body spec)) eqn:Eb.
  - replace (rs_body spec) with "" by (symmetry; by apply String.eqb_eq in Eb). unfold request_headers.
    rewrite header_absent; [done|]. destruct Hfit as [_ _ Hr _ _ _ _]. specialize (Hr "content-length" ltac:(left)).
    unfold names_of in *. rewrite fmap_app. intros [Ho|Ho]%elem_of_app; [|done]. unfold own_headers in Ho. rewrite Eb in Ho.
    revert Ho. apply (bool_decide_unpack _). vm_compute. exact I.
  - change "content-length" with (to_ascii_lowercase "Content-Length").
    rewrite (fit_found _ (n_to_string (slen (rs_body spec)))) by (unfold own_headers; rewrite Eb; cbn; tauto).
    destruct Hfit as [_ _ _ _ _ [_ Hb] _]. unfold parse_request_content_length. rewrite n_to_string_digits, (proj1 (not_empty _) (n_to_string_nonempty _)).
    cbn [negb orb]. by rewrite parse_uint_to_string.
Qed.

Lemma fit_head_valid :
  validate_request_head (rs_method spec) (sv_path config) (request_headers host headers spec) (slen (rs_body spec)) config host = Ok tt.
Proof using All.
  unfold validate_request_head. rewrite String.eqb_refl. cbn [negb].
  change "host" with (to_ascii_lowercase "Host"). rewrite (fit_found _ host) by (unfold own_headers; cbn; tauto).
  rewrite bool_decide_eq_true_2 by done. cbn [negb]. rewrite (fit_absent "origin") by left.
  destruct Hfit as [[(Hm & Hb & Ha)|[Hm Hb]] _ _ _ _ _ _]; rewrite Hm; cbn [String.eqb Ascii.eqb eqb].
  - change "content-type" with (to_ascii_lowercase "Content-Type").
    rewrite (fit_found _ "application/json")
      by (unfold own_headers; rewrite (proj1 (not_empty _) Hb); cbn; tauto).
    change "accept" with (to_ascii_lowercase "Accept"). rewrite (fit_found _ (rs_accept spec)) by (unfold own_headers; cbn; tauto).
    rewrite Ha. reflexivity.
  - by rewrite Hb.
Qed.

Lemma request_reads s : stream_bytes s = head +:+ rs_body spec ->
  read_http_request s config host =
  Ok (Some (MkHttpRequest (rs_method spec) (sv_path config) (request_headers host headers spec) (rs_body spec))).
Proof using All.
  intros Hs. destruct fit_lines as [Ehead Hnd]. rewrite lines_text_cons in Ehead.
  destruct (config_path config Hconfig) as (Hpne & Hpa & Hpb).
  assert (rs_method spec = "POST" \/ rs_method spec = "DELETE") as Hm by (destruct Hfit as [[(?&?&?)|[? ?]] ? ? ? ? ? ?]; auto).
  assert (contains_char nl (request_line (sv_path config) spec) = false) as Hnl.
  { unfold request_line. rewrite !contains_char_append, (bytes_no _ nl _ eq_refl Hpb). by destruct Hm as [-> | ->]. }
  destruct Hfit as [_ _ _ _ Hlen [Hbody _] Hutf8].
  rewrite Ehead, !slen_append in Hlen. change (slen crlf) with 2%N in Hlen. rewrite Ehead, <- !append_assoc in Hs.
  unfold read_http_request.
  destruct (read_crlf_line_complete s 0 (header_limit_bytes config) 431 _ _ Hs Hnl) as (s1 & -> & Hs1 & _); [lia|].
  unfold request_line. rewrite parse_request_line_text by done. fold (request_line (sv_path config) spec).
  destruct (read_request_headers_complete hs (S MAX_HEADER_COUNT) ∅ s1 (0 + slen (request_line (sv_path config) spec) + 2)%N
    (header_limit_bytes config) (rs_body spec)) as (s2 & -> & Hs2); try done.
  - apply fit_values_plain.
  - pose proof fit_length. lia.
  - rewrite map_size_empty. pose proof fit_length. lia.
  - lia.
  - rewrite (right_id_L ∅ (∪)). change (list_to_map (lowered <$> hs)) with (request_headers host headers spec).
    assert (forall n, has_header (request_headers host headers spec) n = bool_decide (is_Some (request_headers host headers spec !! n))) as Hh by done.
    pose proof (fit_found "Host" host ltac:(unfold own_headers; cbn; tauto)) as Hhost. change (to_ascii_lowercase "Host") with "host" in Hhost.
    rewrite (Hh "host"), Hhost. cbn [negb]. rewrite bool_decide_eq_true_2 by (by eexists). cbn [negb].
    rewrite (Hh "transfer-encoding"), fit_absent by (right; left). rewrite bool_decide_eq_false_2 by (by intros [? ?]).
    assert (existsb (has_header (request_headers host headers spec)) unsupported_headers = false) as ->.
    { apply not_true_is_false. intros (n & Hin & Hn)%existsb_exists. apply list_elem_of_In in Hin.
      rewrite Hh, fit_absent in Hn by (by right; right). apply bool_decide_eq_true in Hn as [? ?]. done. }
    rewrite fit_content_length. cbv iota.
    assert (String.eqb (rs_method spec) "POST" && negb (has_header (request_headers host headers spec) "content-length") = false) as ->.
    { apply andb_false_iff. destruct Hfit as [[(_ & Hb & _)|[-> _]] _ _ _ _ _ _]; [right|by left].
      rewrite Hh. change "content-length" with (to_ascii_lowercase "Content-Length").
      rewrite (fit_found _ (n_to_string (slen (rs_body spec))))
        by (unfold own_headers; rewrite (proj1 (not_empty _) Hb); cbn; tauto). by rewrite bool_decide_eq_true_2 by (by eexists). }
    rewrite fit_head_valid. rewrite (proj2 (N.ltb_ge _ _)) by done. unfold slen at 1 2. rewrite Nat2N.id.
    destruct (read_exact_complete (S (String.length (rs_body spec))) s2 (rs_body spec) "") as (s3 & ->); [by rewrite append_nil_r|lia|].
    cbn [map_io_error]. by rewrite Hutf8.
Qed.
End Read.

Lemma server_reads_request config host headers spec head s :
  server_config_validate config = Ok tt -> http_request_head (sv_path config) host headers spec = Ok head ->
  fits config host headers spec head -> stream_bytes s = head +:+ rs_body spec ->
  read_http_request s config host =
  Ok (Some (MkHttpRequest (rs_method spec) (sv_path config) (request_headers host headers spec) (rs_body spec))).
Proof. intros. by eapply request_reads. Qed.

(** The client's request over a session. *)
Definition call_spec (sid : string) (id : N) (tool input : string) : HttpRequestSpec :=
  post_spec [("MCP-Protocol-Version", DEFAULT_PROTOCOL_VERSION); ("Mcp-Session-Id", sid)] (tools_call_request id tool input) false.

(** The concrete call. *)
Definition sample_head : string :=
  match http_request_head "/mcp" sample_host [] (call_spec sample_session_id 3 "adapter.probe" sample_input) with
  | Ok head => head
  | Err _ => ""
  end.

Lemma sample_fits : fits (sv_config sample_announced) (expected_host sample_announced) []
  (call_spec sample_session_id 3 "adapter.probe" sample_input) sample_head.
Proof.
  split.
  - left. split_and!; [reflexivity|discriminate|vm_compute; reflexivity].
  - repeat constructor; vm_compute; reflexivity.
  - intros n Hn. apply (bool_decide_unpack _). revert n Hn. apply Forall_forall. repeat constructor; vm_compute; exact I.
  - cbn. lia.
  - vm_compute. discriminate.
  - split; vm_compute; discriminate.
  - vm_compute. reflexivity.
Qed.

(** A request of the transport's that fits the server's limits is read by
    the server as it was written, whatever the pieces it arrives in: the
    method, the path, every header under its lower-case name, and the body. *)
Theorem server_reads_client_request config host headers spec head s :
  server_config_validate config = Ok tt -> http_request_head (sv_path config) host headers spec = Ok head ->
  fits config host headers spec head -> stream_bytes s = head +:+ rs_body spec ->
  read_http_request s config host =
  Ok (Some (MkHttpRequest (rs_method spec) (sv_path config) (request_headers host headers spec) (rs_body spec))).
Proof. intros. by eapply request_reads. Qed.

Lemma server_reads_client_request_witness :
  let spec := call_spec sample_session_id 3 "adapter.probe" sample_input in
  rs_method spec = "POST" /\
  read_http_request [Ok sample_head; Ok (rs_body spec)] server_config_default sample_host =
  Ok (Some (MkHttpRequest (rs_method spec) (sv_path server_config_default) (request_headers sample_host [] spec) (rs_body spec))).
Proof.
  intros spec. split; [reflexivity|].
  apply (server_reads_client_request server_config_default sample_host [] spec sample_head [Ok sample_head; Ok (rs_body spec)]).
  - vm_compute. reflexivity.
  - vm_compute. reflexivity.
  - exact sample_fits.
  - vm_compute. reflexivity.
Defined.
