(* ===== verification/ServerReply.v ===== *)
(** * The server's answers, as the client reads them (crates/eva-mcp/src/server_transport.rs, json_rpc.rs)

    Every text that the server writes on a connection is a response that the
    client reads in full: its status, its content type, its session and its
    body. *)

From Stdlib Require Import Ascii DecimalFacts DecimalString.
From stdpp Require Import base numbers strings gmap list.
From S2P Require Import Prelude RustStr Error Json JsonGrammar JsonStrings McpJsonRpc McpClient McpReader HttpFraming HttpReader HttpHead.
From S2P Require Import McpEndpoint HttpSession HttpRequestHead McpEndpointLaws McpServer ServerRequest ServerDispatch ServerSafety ServerWire.

(** ** Numbers *)

Lemma string_of_uint_length d : String.length (NilEmpty.string_of_uint d) = Decimal.nb_digits d.
Proof. induction d; cbn [NilEmpty.string_of_uint String.length Decimal.nb_digits]; congruence. Qed.

Lemma double_digits d : Decimal.nb_digits (Decimal.Little.double d) <= S (Decimal.nb_digits d) /\
  Decimal.nb_digits (Decimal.Little.succ_double d) <= S (Decimal.nb_digits d).
Proof. induction d; cbn; lia. Qed.

Lemma little_uint_digits p : Decimal.nb_digits (Pos.to_little_uint p) <= Pos.size_nat p.
Proof.
  induction p as [p IH|p IH|]; cbn [Pos.to_little_uint Pos.size_nat]; [| |done].
  - pose proof (double_digits (Pos.to_little_uint p)). lia.
  - pose proof (double_digits (Pos.to_little_uint p)). lia.
Qed.

(** The digits of a number are no more than its bits, or one. *)
Lemma n_to_string_length n : String.length (n_to_string n) <= S (N.size_nat n).
Proof.
  unfold n_to_string, NilZero.string_of_uint. destruct n as [|p]; [cbn; lia|].
  change (N.to_uint (N.pos p)) with (Decimal.rev (Pos.to_little_uint p)).
  pose proof (little_uint_digits p) as H. rewrite <- nb_digits_rev in H.
  cbn [N.size_nat]. destruct (Decimal.rev _) eqn:E; [cbn; lia|..]; rewrite string_of_uint_length; lia.
Qed.

Lemma size_nat_64 p : (N.pos p <= u64_max)%N -> Pos.size_nat p <= 64.
Proof.
  intros H. destruct (Pos.lt_total p 18446744073709551615) as [Hp|[->|Hp]].
  - apply Pos.size_nat_monotone in Hp. exact Hp.
  - apply Nat.le_refl.
  - exfalso. apply N.le_ngt in H. exact (H Hp).
Qed.

Lemma n_to_string_short n : (n <= usize_max)%N -> (slen (n_to_string n) <= 65)%N.
Proof.
  intros H. pose proof (n_to_string_length n) as Hl. unfold slen. enough (N.size_nat n <= 64) by lia. clear Hl.
  destruct n as [|p]; [apply Nat.le_0_l|by apply size_nat_64].
Qed.

(** ** Header lines *)

Lemma graphic_from_utf8_lossy s : bytes_all is_ascii s = true -> from_utf8_lossy s = s.
Proof.
  induction s as [|c s IH]; [done|]. cbn [bytes_all from_utf8_lossy]. intros [Hc Hs]%andb_true_iff.
  assert (in_range 0 127 c = true) as -> by (revert c Hc; apply ascii_impl; vm_compute; reflexivity). by rewrite IH.
Qed.

Lemma trim_blanks_graphic s : bytes_all is_graphic s = true -> trim_blanks (" " +:+ s) = s.
Proof.
  intros H. unfold trim_blanks. change (chars (" " +:+ s)) with (" " :: chars s).
  change (drop_while is_blank_char (" " :: chars s)) with (drop_while is_blank_char (chars s)).
  assert (Forall (fun c => is_blank_char c = false) (chars s)) as Hb.
  { rewrite (chars_graphic s H), Forall_fmap. clear -H. induction s as [|c s IH]; cbn in *; [constructor|].
    apply andb_true_iff in H as [Hc ?]. constructor; [|auto]. cbn. apply negb_true_iff. revert c Hc. apply ascii_impl. vm_compute. reflexivity. }
  rewrite (drop_while_none _ _ Hb), drop_while_none by (by apply Forall_rev). rewrite rev_involutive.
  by rewrite chars_graphic, str_concat_singletons, String.string_of_list_ascii_of_string.
Qed.

(** A header whose name is a token and whose value is graphic. *)
Lemma parse_http_header_text name value origin :
  name <> "" -> bytes_all is_http_token_byte name = true -> bytes_all is_graphic value = true ->
  parse_http_header_line (name +:+ ": " +:+ value) origin = Ok (to_ascii_lowercase name, value).
Proof.
  intros Hn Ht Hv. unfold parse_http_header_line.
  assert (head_is " " (name +:+ ": " +:+ value) || head_is tab (name +:+ ": " +:+ value) = false) as ->.
  { destruct name as [|c r]; [done|]. cbn [bytes_all] in Ht. apply andb_true_iff in Ht as [Hc _]. rewrite append_cons.
    cbn [head_is]. by destruct c as [[] [] [] [] [] [] [] []]. }
  change (": " +:+ value) with (String ":" (" " +:+ value)). rewrite split_once_append by (by apply token_no_colon).
  cbn [ok_or]. cbv zeta. rewrite (proj1 (not_empty name) Hn), Ht. cbn [negb orb].
  assert (bytes_all is_reason_byte (" " +:+ value) = true) as ->.
  { rewrite bytes_all_append. cbn [bytes_all andb]. rewrite andb_true_l. revert Hv. apply bytes_all_impl, ascii_impl. vm_compute. reflexivity. }
  cbn [negb]. rewrite graphic_from_utf8_lossy.
  - by rewrite trim_blanks_graphic.
  - rewrite bytes_all_append. apply andb_true_iff. split; [done|]. revert Hv. apply bytes_all_impl, ascii_impl. vm_compute. reflexivity.
Qed.

(** The headers of a response, in turn. *)
Fixpoint head_headers (head : HttpResponseHead) (hs : list (string * string)) (origin : string) : Res HttpResponseHead :=
  match hs with
  | [] => Ok head
  | (name, value) :: r => let? head := head_header head name value origin in head_headers head r origin
  end.

(** A line and the header it stands for. *)
Definition stands_for (origin l : string) (h : string * string) : Prop :=
  parse_http_header_line l origin = Ok h /\ contains_char nl l = false /\ l <> "".

Lemma head_lines_complete origin ls hs : Forall2 (stands_for origin) ls hs -> forall fuel head head' consumed s rest,
  head_headers head hs origin = Ok head' -> length ls < fuel -> stream_bytes s = lines_text ls +:+ crlf +:+ rest ->
  (consumed + slen (lines_text ls) + 2 <= HTTP_HEADER_LIMIT_BYTES)%N ->
  exists s', head_lines fuel head consumed s origin = Ok (head', s') /\ stream_bytes s' = rest.
Proof.
  induction 1 as [|l [name value] ls hs (Hp & Hnl & Hne) _ IH]; intros [|fuel] head head' consumed s rest Hh Hf Hs Hc;
    cbn [length] in Hf; try lia; cbn [head_lines].
  - destruct (read_http_line_complete s consumed origin HTTP_HEADER_LIMIT_BYTES "" rest limit_small) as (s' & -> & Hr & _);
      [exact Hs|done|unfold slen in *; cbn in *; lia|]. change (str_is_empty "") with true. cbn [head_headers] in Hh.
    injection Hh as <-. by exists s'.
  - rewrite lines_text_cons in Hs, Hc. rewrite !slen_append in Hc. change (slen crlf) with 2%N in Hc. rewrite <- !append_assoc in Hs.
    destruct (read_http_line_complete s consumed origin HTTP_HEADER_LIMIT_BYTES l _ limit_small Hs Hnl) as (s' & -> & Hr & _); [lia|].
    rewrite (proj1 (not_empty l) Hne), Hp. cbn [head_headers] in Hh.
    destruct (head_header head name value origin) as [head1|] eqn:E; [|done].
    destruct (IH fuel head1 head' (consumed + slen l + 2)%N s' rest) as (s2 & -> & H2); [done|lia|done|lia|]. by exists s2.
Qed.

(** ** Responses *)

Definition response_statuses : list N := [200; 202; 204; 400; 403; 404; 405; 406; 408; 411; 413; 415; 421; 431; 500; 503]%N.

(** What every response of the server is. *)
Record sendable (r : HttpResponse) : Prop := {
  sd_status : rp_status r ∈ response_statuses;
  sd_content : rp_content_type r = Some "application/json" \/ rp_content_type r = None /\ rp_body r = "";
  sd_no_content : rp_status r = 204%N -> rp_body r = "" /\ rp_content_type r = None;
  sd_allow : rp_allow r = None \/ rp_allow r = Some "POST, DELETE"
}.

(** The session a response names; an invalid one is left out. *)
Definition named_session (r : HttpResponse) : option string :=
  match rp_session_id r with Some id => if valid_session_id id then Some id else None | None => None end.

Definition response_headers (r : HttpResponse) : list (string * string) :=
  [("Connection", "close"); ("Cache-Control", "no-store"); ("X-Content-Type-Options", "nosniff")]
  ++ match named_session r with Some id => [("Mcp-Session-Id", id)] | None => [] end
  ++ match rp_allow r with Some allow => [("Allow", allow)] | None => [] end
  ++ match rp_content_type r with Some content_type => [("Content-Type", content_type)] | None => [] end
  ++ (if (rp_status r =? 204)%N then [] else [("Content-Length", n_to_string (slen (rp_body r)))]).

Definition status_line (status : N) : string := "HTTP/1.1 " +:+ n_to_string status +:+ " " +:+ http_reason status.

(** The response that goes out: one that is too large is replaced. *)
Definition sent_response (r : HttpResponse) (limit : N) : HttpResponse :=
  if (limit <? slen (rp_body r))%N then http_error 500 "response exceeded the server limit" else r.

Lemma append_eq a a' b b' : a = a' -> b = b' -> a +:+ b = a' +:+ b'.
Proof. by intros -> ->. Qed.

Lemma response_wire_text r limit : fst (response_wire r limit) =
  let r := sent_response r limit in
  lines_text (status_line (rp_status r) :: (header_text <$> response_headers r)) +:+ crlf +:+ rp_body r.
Proof.
  unfold response_wire, sent_response. cbv zeta.
  assert (forall r o, fst ("HTTP/1.1 " +:+ n_to_string (rp_status r) +:+ " " +:+ http_reason (rp_status r) +:+ crlf
      +:+ header_line "Connection" "close" +:+ header_line "Cache-Control" "no-store" +:+ header_line "X-Content-Type-Options" "nosniff"
      +:+ match rp_session_id r with Some id => if valid_session_id id then header_line "Mcp-Session-Id" id else "" | None => "" end
      +:+ match rp_allow r with Some allow => header_line "Allow" allow | None => "" end
      +:+ match rp_content_type r with Some content_type => header_line "Content-Type" content_type | None => "" end
      +:+ (if (rp_status r =? 204)%N then "" else header_line "Content-Length" (n_to_string (slen (rp_body r))))
      +:+ crlf +:+ rp_body r, o : ResponseWriteOutcome) =
    lines_text (status_line (rp_status r) :: (header_text <$> response_headers r)) +:+ crlf +:+ rp_body r) as Hw.
  { intros r0 o. cbn [fst]. rewrite lines_text_cons. unfold status_line, response_headers, named_session.
    rewrite !fmap_app, !lines_text_app, !header_line_text.
    assert (forall o : option string, forall name, lines_text (header_text <$> match o with Some v => [(name, v)] | None => [] end) =
      match o with Some v => lines_text [header_text (name, v)] | None => "" end) as Ho by (by intros [?|]).
    rewrite !Ho. rewrite <- !append_assoc. do 5 (apply append_eq; [reflexivity|]).
    change (header_text <$> [("Connection", "close"); ("Cache-Control", "no-store"); ("X-Content-Type-Options", "nosniff")])
      with ([header_text ("Connection", "close")] ++ [header_text ("Cache-Control", "no-store")] ++
            [header_text ("X-Content-Type-Options", "nosniff")]).
    rewrite !lines_text_app, <- !append_assoc. do 3 (apply append_eq; [reflexivity|]).
    apply append_eq; [destruct (rp_session_id r0) as [id|]; [|done]; rewrite header_line_text; by destruct (valid_session_id id)|].
    apply append_eq; [destruct (rp_allow r0); [apply header_line_text|done]|].
    apply append_eq; [destruct (rp_content_type r0); [apply header_line_text|done]|].
    apply append_eq; [|done]. by destruct (rp_status r0 =? 204)%N. }
  destruct (limit <? slen (rp_body r))%N.
  - exact (Hw (http_error 500 "response exceeded the server limit") LimitFallback).
  - exact (Hw r Original).
Qed.

(** The head that the client makes of it. *)
Definition read_head (r : HttpResponse) : HttpResponseHead :=
  MkHead (rp_status r) true (if (rp_status r =? 204)%N then None else Some (slen (rp_body r))) false (rp_content_type r)
    true false (named_session r).

(** The response as the client takes it. *)
Definition received (r : HttpResponse) : HttpJsonRpcResponse :=
  MkHttpResponse (rp_status r) (rp_content_type r) (rp_body r) false (named_session r).

Lemma valid_session_graphic id : valid_session_id id = true ->
  bytes_all is_graphic id = true /\ id <> "" /\ (slen id <= 256)%N.
Proof.
  unfold valid_session_id. intros [[Hn Hl]%andb_true_iff Hb]%andb_true_iff. apply negb_true_iff, not_empty in Hn.
  split_and!; [|done|by apply N.leb_le]. revert Hb. apply bytes_all_impl, ascii_impl. vm_compute. reflexivity.
Qed.

Lemma named_session_valid r id : named_session r = Some id -> valid_session_id id = true.
Proof. unfold named_session. destruct (rp_session_id r) as [i|]; [|done]. destruct (valid_session_id i) eqn:E; [|done]. by intros [= ->]. Qed.

Lemma n_to_string_is_graphic n : bytes_all is_graphic (n_to_string n) = true.
Proof. eapply bytes_all_impl; [|apply n_to_string_digits]. apply ascii_impl. vm_compute. reflexivity. Qed.

Lemma graphic_line name value origin : name <> "" -> bytes_all is_http_token_byte name = true -> bytes_all is_graphic value = true ->
  stands_for origin (header_text (name, value)) (to_ascii_lowercase name, value).
Proof.
  intros Hn Ht Hv. split_and!; [by apply parse_http_header_text| |by destruct name]. unfold header_text. cbn [fst snd].
  rewrite !contains_char_append, (bytes_no is_http_token_byte nl name), (bytes_no is_graphic nl value); done.
Qed.

(** One header of the answer each. *)
Section Headers.
Context (head : HttpResponseHead) (origin : string).

Lemma head_header_session id : session_id head = None -> parse_mcp_session_id id origin = Ok id ->
  head_header head (to_ascii_lowercase "Mcp-Session-Id") id origin = Ok (head <| session_id := Some id |>).
Proof. intros Hs Hp. unfold head_header. cbn -[parse_mcp_session_id]. by rewrite Hs, Hp. Qed.

Lemma head_header_length n : content_length head = None -> parse_http_content_length (n_to_string n) origin = Ok n ->
  head_header head (to_ascii_lowercase "Content-Length") (n_to_string n) origin = Ok (head <| content_length := Some n |>).
Proof. intros Hs Hp. unfold head_header. cbn -[parse_http_content_length n_to_string]. by rewrite Hs, Hp. Qed.

Lemma head_header_type : content_type head = None ->
  head_header head (to_ascii_lowercase "Content-Type") "application/json" origin = Ok (head <| content_type := Some "application/json" |>).
Proof. intros Hs. unfold head_header. rewrite Hs. reflexivity. Qed.

Lemma head_header_connection : connection_keep_alive head = false ->
  head_header head (to_ascii_lowercase "Connection") "close" origin = Ok (head <| connection_close := true |>).
Proof. intros Hk. destruct head. cbn in Hk. subst. reflexivity. Qed.

Lemma head_header_ignored name value : name ∈ ["Cache-Control"; "X-Content-Type-Options"; "Allow"] ->
  head_header head (to_ascii_lowercase name) value origin = Ok head.
Proof. intros Hin. repeat (apply elem_of_cons in Hin as [->|Hin]; [reflexivity|]). by apply not_elem_of_nil in Hin. Qed.
End Headers.

Section Answer.
Context (r : HttpResponse) (origin : string).
Hypothesis Hr : sendable r.
Hypothesis Hbody : (slen (rp_body r) <= usize_max)%N.
#[local] Set Default Proof Using "Type*".

Lemma response_lines : Forall2 (stands_for origin) (header_text <$> response_headers r) (lowered <$> response_headers r).
Proof using All.
  assert (forall allow, rp_allow r = Some allow -> stands_for origin (header_text ("Allow", allow)) ("allow", allow)) as Hallow.
  { destruct Hr as [_ _ _ [-> | ->]]; [done|]. intros ? [= <-]. split_and!; reflexivity || done. }
  assert (forall ct, rp_content_type r = Some ct -> bytes_all is_graphic ct = true) as Hct.
  { destruct Hr as [_ [-> | [-> _]] _ _]; [|done]. by intros ? [= <-]. }
  pose proof (named_session_valid r) as Hsession. unfold response_headers. rewrite !fmap_app. apply Forall2_app; [|apply Forall2_app; [|apply Forall2_app; [|apply Forall2_app]]].
  - repeat constructor; reflexivity || done.
  - destruct (named_session r) as [id|]; constructor; [|constructor]. apply graphic_line; [done..|].
    by apply valid_session_graphic, Hsession.
  - destruct (rp_allow r); constructor; [by apply Hallow|constructor].
  - destruct (rp_content_type r); constructor; [|constructor]. apply graphic_line; [done..|by apply Hct].
  - destruct (rp_status r =? 204)%N; constructor; [|constructor]. apply graphic_line; [done..|apply n_to_string_is_graphic].
Qed.

Lemma content_length_reads : parse_http_content_length (n_to_string (slen (rp_body r))) origin = Ok (slen (rp_body r)).
Proof using All.
  unfold parse_http_content_length. rewrite n_to_string_digits, (proj1 (not_empty _) (n_to_string_nonempty _)). cbn [negb orb].
  by rewrite parse_unsigned_to_string.
Qed.

Lemma response_head_folds :
  head_headers (MkHead (rp_status r) true None false None false false None) (lowered <$> response_headers r) origin = Ok (read_head r).
Proof using All.
  pose proof content_length_reads as Hlen. pose proof (named_session_valid r) as Hsession.
  assert (forall id, named_session r = Some id -> parse_mcp_session_id id origin = Ok id) as Hid.
  { intros id E. destruct (valid_session_graphic id (Hsession id E)) as (Hg & Hne & Hl). unfold parse_mcp_session_id.
    rewrite (proj1 (not_empty id) Hne), (proj2 (N.ltb_ge _ _)) by (unfold MCP_SESSION_ID_LIMIT_BYTES; lia).
    rewrite (bytes_all_impl is_graphic is_visible_ascii id); [done| |done]. apply ascii_impl. vm_compute. reflexivity. }
  unfold response_headers, read_head. destruct Hr as [_ Hct _ Hallow].
  destruct (named_session r) as [id|]; [pose proof (Hid id eq_refl) as Hp|]; destruct (rp_status r =? 204)%N;
    (destruct Hct as [-> | [-> _]]); (destruct Hallow as [-> | ->]); cbn [app fmap list_fmap head_headers lowered fst snd];
    repeat (first [rewrite head_header_connection by reflexivity | rewrite head_header_ignored by (apply list_elem_of_In; cbn; tauto)
                  |rewrite head_header_session by (reflexivity || exact Hp) | rewrite head_header_type by reflexivity
                  |rewrite head_header_length by (reflexivity || exact Hlen)]; cbv iota beta);
    reflexivity.
Qed.

Lemma response_status_line : parse_http_status_line (status_line (rp_status r)) origin = Ok (rp_status r, true) /\
  contains_char nl (status_line (rp_status r)) = false /\ (slen (status_line (rp_status r)) <= 60)%N /\ ~ (is_informational (rp_status r) = true).
Proof using All.
  destruct Hr as [Hs _ _ _]. revert Hs. generalize (rp_status r). clear. intros status Hs.
  assert (Forall (fun status => parse_http_status_line (status_line status) origin = Ok (status, true) /\
    contains_char nl (status_line status) = false /\ (slen (status_line status) <= 60)%N /\ ~ (is_informational status = true))
    response_statuses) as Hall by (repeat constructor; done).
  rewrite Forall_forall in Hall. by apply Hall.
Qed.

Lemma response_head_size : (slen (lines_text (header_text <$> response_headers r)) <= 900)%N.
Proof using All.
  pose proof (n_to_string_short _ Hbody). pose proof (named_session_valid r) as Hsession.
  unfold response_headers. rewrite !fmap_app, !lines_text_app, !slen_append.
  assert (forall name value, slen (lines_text [header_text (name, value)]) = slen name + slen value + 4)%N as Hline.
  { intros. unfold lines_text, header_text. cbn [fmap list_fmap str_concat foldr fst snd]. rewrite append_nil_r, !slen_append.
    change (slen ": ") with 2%N. change (slen crlf) with 2%N. lia. }
  assert (slen (lines_text (header_text <$> [("Connection", "close"); ("Cache-Control", "no-store"); ("X-Content-Type-Options", "nosniff")])) <= 100)%N
    by done.
  assert (slen (lines_text (header_text <$> match named_session r with Some id => [("Mcp-Session-Id", id)] | None => [] end)) <= 300)%N.
  { destruct (named_session r) as [id|]; [|done]. cbn [fmap list_fmap]. rewrite Hline.
    destruct (valid_session_graphic id (Hsession id eq_refl)) as (_ & _ & ?). change (slen "Mcp-Session-Id") with 14%N. lia. }
  assert (slen (lines_text (header_text <$> match rp_allow r with Some allow => [("Allow", allow)] | None => [] end)) <= 100)%N
    by (destruct Hr as [_ _ _ [-> | ->]]; done).
  assert (slen (lines_text (header_text <$> match rp_content_type r with Some ct => [("Content-Type", ct)] | None => [] end)) <= 100)%N
    by (destruct Hr as [_ [-> | [-> _]] _ _]; done).
  assert (slen (lines_text (header_text <$> (if (rp_status r =? 204)%N then [] else [("Content-Length", n_to_string (slen (rp_body r)))]))) <= 100)%N.
  { destruct (rp_status r =? 204)%N; [done|]. cbn [fmap list_fmap]. rewrite Hline. change (slen "Content-Length") with 14%N. lia. }
  lia.
Qed.

(** Whatever pieces it arrives in, the client has the response. *)
Lemma response_reads s allow :
  stream_bytes s = lines_text (status_line (rp_status r) :: (header_text <$> response_headers r)) +:+ crlf +:+ rp_body r ->
  exists framing s1, read_final_http_response_head s origin allow = Ok (read_head r, framing, s1) /\
    forall limit, (slen (rp_body r) <= limit)%N -> exists s2, into_buffered (read_head r) framing s1 limit origin = Ok (received r, s2).
Proof using All.
  destruct response_status_line as (Hst & Hnl & Hsl & Hinf). intros Hs. rewrite lines_text_cons, <- !append_assoc in Hs.
  pose proof response_head_size as Hsize.
  destruct (read_http_line_complete s 0 origin HTTP_HEADER_LIMIT_BYTES _ _ limit_small Hs Hnl) as (s1 & E1 & Hs1 & _);
    [unfold HTTP_HEADER_LIMIT_BYTES; lia|].
  destruct (head_lines_complete origin _ _ response_lines (S (String.length (stream_bytes s1)))
    (MkHead (rp_status r) true None false None false false None) (read_head r) (0 + slen (status_line (rp_status r)) + 2)%N s1 (rp_body r))
    as (s2 & E2 & Hs2).
  - exact response_head_folds.
  - rewrite Hs1, length_append. enough (forall ls, length ls <= String.length (lines_text ls)) as Hl by (specialize (Hl (header_text <$> response_headers r)); lia).
    induction ls as [|l ls IH]; [done|]. rewrite lines_text_cons, !length_append. cbn [length String.length crlf str]. lia.
  - done.
  - unfold HTTP_HEADER_LIMIT_BYTES. lia.
  - assert (final_head 10 0 s origin = Ok (read_head r, s2)) as Hfinal.
    { cbn [final_head]. unfold read_http_response_head. rewrite E1, Hst, E2. cbn [status_code read_head].
      by destruct (is_informational (rp_status r)). }
    unfold read_final_http_response_head. rewrite Hfinal.
    assert (exists framing, select_http_body_framing (read_head r) origin allow = Ok framing /\
      (framing = ContentLength (slen (rp_body r)) \/ framing = FramingNone /\ rp_body r = "")) as (framing & -> & Hframing).
    { unfold select_http_body_framing. cbn [status_code read_head transfer_encoding_chunked content_length connection_close http_11].
      destruct (is_informational (rp_status r)); [done|]. cbn [orb].
      destruct (rp_status r =? 204)%N eqn:E204.
      { apply N.eqb_eq in E204. destruct Hr as [_ _ Hn _]. destruct (Hn E204) as [Hb _]. exists FramingNone. cbn. by split; [|right]. }
      assert ((rp_status r =? 205)%N || (rp_status r =? 304)%N = false) as Hx.
      { destruct Hr as [Hin _ _ _]. revert Hin. generalize (rp_status r). clear. intros st Hin.
        assert (Forall (fun st => (st =? 205)%N || (st =? 304)%N = false) response_statuses) as Hall by (repeat constructor).
        rewrite Forall_forall in Hall. by apply Hall. }
      cbn [orb]. rewrite Hx. cbn [negb andb]. rewrite andb_false_r. cbn [andb]. exists (ContentLength (slen (rp_body r))). by split; [|left]. }
    exists framing, s2. split; [done|]. intros limit Hlimit. unfold into_buffered, received.
    destruct Hframing as [-> | [-> ->]]; cbn [read_http_body]; [|by exists s2]. rewrite (proj2 (N.ltb_ge _ _)) by done.
    destruct (read_http_exact_complete s2 (rp_body r) "" origin) as (s3 & E3 & _); [by rewrite append_nil_r|]. rewrite E3. by exists s3.
Qed.
End Answer.

(** ** Everything the server answers *)

Create HintDb sendable.
Ltac status_listed := unfold response_statuses; repeat first [left | right].

Lemma response_json_sendable body : sendable (response_json 200 body).
Proof. split; [by left|by left|done|by left]. Qed.
Lemma response_empty_sendable status : status = 202%N \/ status = 204%N -> sendable (response_empty status).
Proof. intros Hs. split; [right; destruct Hs as [-> | ->]; [left|right; left]|by right|done|by left]. Qed.
Lemma rpc_error_sendable id code message : sendable (rpc_error id code message).
Proof. split; [by left|by left|done|by left]. Qed.
Lemma http_error_sendable status message : status ∈ response_statuses -> status <> 204%N -> sendable (http_error status message).
Proof. intros Hs Hn. split; [exact Hs|by left|done|by left]. Qed.
Lemma with_session_sendable r id : sendable r -> sendable (with_session r id).
Proof. intros [? ? ? ?]. by split. Qed.
Lemma with_allow_sendable r : sendable r -> sendable (with_allow r "POST, DELETE").
Proof. intros [? ? ? ?]. split; [done..|by right]. Qed.
#[local] Hint Resolve response_json_sendable rpc_error_sendable with_session_sendable with_allow_sendable : sendable.
#[local] Hint Extern 1 (sendable (response_empty _)) => apply response_empty_sendable; auto : sendable.
#[local] Hint Extern 1 (sendable (http_error ?n _)) =>
  apply http_error_sendable; [status_listed|done] : sendable.

(** *** What reading a request fails with *)

Definition sendable_failure (f : HttpReadFailure) : Prop := sendable (failure_response f).
Definition fails_sendable {A} (r : ReadRes A) : Prop := forall f, r = Err f -> sendable_failure f.

Lemma fs_Ok {A} (a : A) : fails_sendable (Ok a).
Proof. by intros f. Qed.
Lemma fs_Err {A} f : sendable_failure f -> fails_sendable (Err f : ReadRes A).
Proof. by intros H f' [= <-]. Qed.
Lemma fs_bind {A B} (r : ReadRes A) (k : A -> ReadRes B) :
  fails_sendable r -> (forall a, fails_sendable (k a)) -> fails_sendable (let? a := r in k a).
Proof. intros Hr Hk. destruct r as [a|f]; [by apply Hk|]. intros f' [= <-]. by apply Hr. Qed.
Lemma fs_if {A} (b : bool) (r1 r2 : ReadRes A) : fails_sendable r1 -> fails_sendable r2 -> fails_sendable (if b then r1 else r2).
Proof. by destruct b. Qed.
Lemma fs_then {B} (r : ReadRes unit) (k : ReadRes B) : fails_sendable r -> fails_sendable k -> fails_sendable (r >>? k).
Proof. intros Hr Hk. destruct r; [done|]. intros f [= <-]. by apply Hr. Qed.
Lemma fs_ok_or {A} (o : option A) f : sendable_failure f -> fails_sendable (ok_or o f).
Proof. destruct o; [intros; apply fs_Ok|apply fs_Err]. Qed.
Lemma failure_sendable status message : status ∈ response_statuses -> status <> 204%N -> sendable_failure (failure status message).
Proof. apply http_error_sendable. Qed.
Lemma method_not_allowed_sendable : sendable_failure method_not_allowed.
Proof. unfold sendable_failure, failure_response. cbn [failure_allow method_not_allowed failure_status failure_message]. auto with sendable. Qed.
Lemma failure_response_sendable f : sendable_failure f -> sendable (failure_response f).
Proof. done. Qed.
#[local] Opaque sendable_failure.
Lemma map_io_error_sendable {A} (r : Result ReadFailureKind A) : fails_sendable (map_io_error r).
Proof. destruct r as [a|k]; [apply fs_Ok|]. apply fs_Err. unfold map_request_io_error. destruct (is_timeout_error k); apply failure_sendable; status_listed || done. Qed.
(** A failure with a listed status. *)
Ltac failure_step :=
  match goal with
  | |- sendable_failure method_not_allowed => exact method_not_allowed_sendable
  | |- sendable_failure (failure _ _) => apply failure_sendable; [status_listed|discriminate]
  | |- sendable_failure (bad_request _) => unfold bad_request; apply failure_sendable; [status_listed|discriminate]
  | |- sendable_failure request_timeout => unfold request_timeout; apply failure_sendable; [status_listed|discriminate]
  | |- sendable_failure (request_headers_too_large _) => unfold request_headers_too_large; apply failure_sendable; assumption
  end.

Ltac fails_step :=
  match goal with
  | |- fails_sendable (if _ then _ else _) => apply fs_if
  | |- fails_sendable (match ok_or _ _ with _ => _ end) => apply fs_bind; [apply fs_ok_or; failure_step|intros]
  | |- fails_sendable (match map_io_error _ with _ => _ end) => apply fs_bind; [apply map_io_error_sendable|intros [? ?]]
  | |- fails_sendable (match ?o with _ => _ end) => destruct o
  | |- fails_sendable (Ok _) => apply fs_Ok
  | |- fails_sendable (Err _) => apply fs_Err; failure_step
  end.

Lemma read_crlf_line_fails s consumed limit status : status ∈ response_statuses -> status <> 204%N ->
  fails_sendable (read_crlf_line s consumed limit status).
Proof. intros Hs Hn. unfold read_crlf_line. cbv zeta. repeat fails_step. Qed.

Lemma parse_request_header_fails line : fails_sendable (parse_request_header line).
Proof.
  unfold parse_request_header. apply fs_if; [fails_step|]. apply fs_bind; [apply fs_ok_or; failure_step|]. intros [name value].
  cbv zeta. repeat fails_step.
Qed.

Lemma line_431_fails s consumed limit : fails_sendable (read_crlf_line s consumed limit 431).
Proof. apply read_crlf_line_fails; [status_listed|discriminate]. Qed.

Lemma read_request_headers_fails turns : forall headers s consumed limit,
  fails_sendable (read_request_headers turns headers s consumed limit).
Proof.
  induction turns as [|turns IH]; intros; [apply fs_Ok|]. cbn [read_request_headers].
  apply fs_bind; [apply line_431_fails|]. intros [[line c] s1]. apply fs_bind; [apply fs_ok_or; failure_step|]. intros l.
  apply fs_if; [fails_step|]. apply fs_if; [fails_step|].
  apply fs_bind; [apply parse_request_header_fails|]. intros [name value]. apply fs_if; [fails_step|apply IH].
Qed.

Lemma content_length_fails value : fails_sendable (parse_request_content_length value).
Proof. unfold parse_request_content_length. repeat fails_step. Qed.

Lemma request_line_fails line : fails_sendable (parse_request_line line).
Proof. unfold parse_request_line. cbv zeta. repeat fails_step. Qed.

Lemma request_head_fails method target headers length config host :
  fails_sendable (validate_request_head method target headers length config host).
Proof. unfold validate_request_head. repeat fails_step. Qed.

Lemma read_http_request_fails s config host : fails_sendable (read_http_request s config host).
Proof.
  unfold read_http_request. apply fs_bind; [apply line_431_fails|]. intros [[line c] s1]. destruct line as [line|]; [|apply fs_Ok].
  apply fs_bind; [apply request_line_fails|]. intros [method target]. apply fs_bind; [apply read_request_headers_fails|]. intros [headers s2].
  do 3 (apply fs_if; [fails_step|]). apply fs_bind; [destruct (_ !! _); [apply content_length_fails|apply fs_Ok]|]. intros length.
  apply fs_if; [fails_step|]. apply fs_then; [apply request_head_fails|]. repeat fails_step.
Qed.

(** *** What a request is answered with *)

Ltac sendable_step :=
  match goal with
  | |- sendable (with_session _ _) => apply with_session_sendable
  | |- sendable (with_allow _ _) => apply with_allow_sendable
  | |- sendable (rpc_error _ _ _) => apply rpc_error_sendable
  | |- sendable (response_json 200 _) => apply response_json_sendable
  | |- sendable (response_empty _) => apply response_empty_sendable; (left; reflexivity) || (right; reflexivity)
  | |- sendable (http_error _ _) => apply http_error_sendable; [status_listed|discriminate]
  end.

Section Answers.
Context {H : Type} `{McpServerToolHandler H}.
Implicit Types s : McpStreamableHttpServer H.

(** The response of a dispatch. *)
Definition answer (d : Dispatched (H := H)) : HttpResponse := d.1.1.

Ltac answer_step :=
  match goal with
  | |- sendable (answer (respond _ _)) => cbn [answer respond fst]; repeat sendable_step
  | |- sendable (answer (_, _, _)) => cbn [answer fst]; repeat sendable_step
  | |- sendable (answer (if ?b then _ else _)) => destruct b
  | |- sendable (answer (match ?o with _ => _ end)) => destruct o
  end.

Lemma controlled_session_answers s request peer r : controlled_session s request peer = Err r -> sendable r.
Proof.
  unfold controlled_session. destruct (negb _); [intros [= <-]; sendable_step|].
  destruct (request_header request "mcp-session-id") as [id|]; [|intros [= <-]; sendable_step].
  destruct (negb _); [intros [= <-]; sendable_step|]. destruct (sessions s !! id) as [se|]; [|intros [= <-]; sendable_step].
  destruct (negb _); [intros [= <-]; sendable_step|done].
Qed.

Lemma initialize_answers s request envelope peer random : sendable (answer (dispatch_initialize s request envelope peer random)).
Proof. unfold dispatch_initialize. repeat answer_step. Qed.

Lemma initialized_answers s envelope id ph : sendable (answer (dispatch_initialized s envelope id ph)).
Proof. unfold dispatch_initialized. repeat answer_step. Qed.

Lemma tools_list_answers s envelope id ph : sendable (answer (dispatch_tools_list s envelope id ph)).
Proof. unfold dispatch_tools_list. repeat answer_step. Qed.

Lemma call_handler_answers s id session call : sendable (answer (call_handler s id session call)).
Proof. unfold call_handler. cbv zeta. destruct (handle_tool _ call) as [result h]. repeat answer_step. Qed.

Lemma tools_call_answers s envelope id ph closing : sendable (answer (dispatch_tools_call s envelope id ph closing)).
Proof.
  unfold dispatch_tools_call. cbv zeta. destruct (en_id envelope) as [rid|]; [|answer_step]. repeat answer_step.
  apply call_handler_answers.
Qed.

Lemma dispatch_answers s request peer random closing : sendable (answer (dispatch s request peer random closing)).
Proof.
  unfold dispatch. do 3 (answer_step; [answer_step|]). destruct (String.eqb (rq_method request) "POST").
  - unfold dispatch_post. do 2 (answer_step; [answer_step|]). destruct (parse_request_envelope _) as [envelope|]; [|answer_step]. cbv zeta.
    answer_step; [answer_step|]. destruct (String.eqb (en_method envelope) "initialize"); [apply initialize_answers|].
    destruct (controlled_session s request peer) as [[id ph]|r] eqn:Ec; [|exact (controlled_session_answers _ _ _ _ Ec)].
    answer_step; [answer_step|]. destruct (String.eqb (en_method envelope) "notifications/initialized"); [apply initialized_answers|].
    destruct (String.eqb (en_method envelope) "tools/list"); [apply tools_list_answers|].
    destruct (String.eqb (en_method envelope) "tools/call"); [apply tools_call_answers|answer_step].
  - answer_step; [|answer_step]. unfold dispatch_delete. answer_step; [answer_step|].
    destruct (controlled_session s request peer) as [[id ph]|r] eqn:Ec; [answer_step|exact (controlled_session_answers _ _ _ _ Ec)].
Qed.

(** Every text written is that of a sendable response. *)
Lemma written_sendable s v s' wire : handle_connection s v = (s', Some wire) ->
  exists r, sendable r /\ wire = fst (response_wire r (response_limit_bytes (sv_config s))).
Proof.
  unfold handle_connection. destruct (negb (vs_registered v)); [done|]. destruct (vs_shutdown_start v); [done|].
  destruct (negb (vs_has_deadline v)); [done|]. cbv zeta.
  destruct (negb (vs_loopback v)); [intros [= _ <-]; eexists; split; [|reflexivity]; sendable_step|].
  pose proof (read_http_request_fails (vs_stream v) (sv_config s) (expected_host s)) as Hf.
  destruct (read_http_request _ _ _) as [[request|]|failure]; [|done|].
  2: { intros [= _ <-]. eexists. split; [|reflexivity]. by apply failure_response_sendable, Hf. }
  destruct (vs_shutdown_read v); [done|]. destruct (vs_late v); [done|].
  set (s0 := s <| report := _ |>). pose proof (dispatch_answers s0 request (vs_peer v) (vs_random v) (vs_closing v)) as Ha.
  pose proof (dispatch_guarded s0 request (vs_peer v) (vs_random v) (vs_closing v)) as Hg.
  destruct (dispatch s0 request _ _ _) as [[response action] s1]. destruct Hg as ((_ & Hc & _) & _). cbn [answer fst] in Ha.
  destruct (vs_shutdown_dispatched v); [done|].
  assert (sv_config (if rp_error response then protocol_error_counted s1 else s1) = sv_config s) as -> by (by destruct (rp_error response)).
  destruct (response_wire response (response_limit_bytes (sv_config s))) as [w o] eqn:E. intros [= _ <-].
  exists response. by rewrite E.
Qed.
End Answers.

Lemma config_response_limit config : server_config_validate config = Ok tt ->
  (response_limit_bytes config <= usize_max)%N.
Proof.
  unfold server_config_validate. intros H. apply reject_Ok in H as [_ H]. apply reject_Ok in H as [Hl _].
  repeat (apply orb_false_iff in Hl as [Hl ?]). rewrite !negb_false_iff in *. unfold between in *.
  repeat match goal with Hx : _ && _ = true |- _ => apply andb_true_iff in Hx as [? ?] end.
  transitivity MAX_CONFIGURED_LIMIT_BYTES; [by apply N.leb_le|vm_compute; discriminate].
Qed.

(** C36: Whatever arrives on a connection, the text the server writes back, if
    it writes any, is one response that the client reads to its end: the
    status, the content type, the session identifier and the whole body, with
    the length it announces, whatever pieces it arrives in. *)
Theorem server_answers_readable {H} `{McpServerToolHandler H} (s : McpStreamableHttpServer H) v s' wire :
  server_config_validate (sv_config s) = Ok tt -> handle_connection s v = (s', Some wire) ->
  exists r, sendable r /\ forall stream origin allow limit,
    stream_bytes stream = wire -> (slen (rp_body r) <= limit)%N ->
    exists framing s1 s2, read_final_http_response_head stream origin allow = Ok (read_head r, framing, s1) /\
      into_buffered (read_head r) framing s1 limit origin = Ok (received r, s2).
Proof.
  intros Hconfig Hw. apply written_sendable in Hw as (r & Hr & ->). set (limit := response_limit_bytes (sv_config s)).
  exists (sent_response r limit).
  assert (sendable (sent_response r limit)) as Hs by (unfold sent_response; destruct (_ <? _)%N; [sendable_step|done]).
  split; [exact Hs|]. intros stream origin allow n Hb Hn. rewrite response_wire_text in Hb.
  destruct (response_reads (sent_response r limit) origin Hs) with (s := stream) (allow := allow) as (framing & s1 & E & Hread); [|exact Hb|].
  - pose proof (config_response_limit _ Hconfig) as Hlimit. fold limit in Hlimit.
    unfold sent_response. destruct (limit <? slen (rp_body r))%N eqn:El; [vm_compute; discriminate|].
    apply N.ltb_ge in El. etransitivity; [exact El|exact Hlimit].
  - destruct (Hread n Hn) as (s2 & Hbuf). by exists framing, s1, s2.
Qed.

Lemma server_answers_readable_witness : exists s' wire r,
  handle_connection sample_announced (sample_visit (nth 2 sample_texts "")) = (s', Some wire) /\ sendable r /\
  forall stream origin allow limit,
    stream_bytes stream = wire -> (slen (rp_body r) <= limit)%N ->
    exists framing s1 s2, read_final_http_response_head stream origin allow = Ok (read_head r, framing, s1) /\
      into_buffered (read_head r) framing s1 limit origin = Ok (received r, s2).
Proof.
  destruct (handle_connection sample_announced (sample_visit (nth 2 sample_texts ""))) as [s' [wire|]] eqn:E.
  2: { apply (f_equal (fun p => bool_decide (is_Some p.2))) in E. vm_compute in E. discriminate E. }
  destruct (server_answers_readable sample_announced (sample_visit (nth 2 sample_texts "")) s' wire) as (r & Hr & Hread).
  - vm_compute. reflexivity.
  - exact E.
  - exists s', wire, r. split; [reflexivity|]. split; [exact Hr|exact Hread].
Defined.
