(* ===== verification/ServerCall.v ===== *)
(** * A tool call, from the client's request to the client's result (crates/eva-mcp/src/server_transport.rs)

    A call of an exposed tool over an initialized session reaches the handler
    once, and what the handler returns is the result the client reads. *)

From Stdlib Require Import Ascii.
From stdpp Require Import base numbers strings gmap list.
From S2P Require Import Prelude RustStr Error Ids Json JsonGrammar JsonStrings McpJsonRpc McpClient McpReader McpRequests.
From S2P Require Import HttpFraming HttpReader HttpHead McpEndpoint HttpSession HttpRequestHead McpEndpointLaws.
From S2P Require Import McpServer ServerRequest ServerDispatch ServerSafety ServerWire ServerReply.

(** ** The size of a result *)

Lemma escaped_width_exact c : escaped_width c = slen (escape_json_char c).
Proof.
  unfold escaped_width, escape_json_char. cbn [existsb].
  repeat (match goal with |- context [String.eqb c ?x] => destruct (String.eqb c x) end; [reflexivity|]; cbn [orb]).
  destruct (is_control c); reflexivity.
Qed.

Lemma escaped_total cs : forall total n,
  foldl (fun total c => match total with Some total => checked_add usize_max total (escaped_width c) | None => None end) total cs = Some n ->
  exists t, total = Some t /\ n = (t + slen (str_concat (escape_json_char <$> cs)))%N.
Proof.
  induction cs as [|c cs IH]; intros total n; cbn [foldl].
  - intros ->. exists n. split; [done|]. cbn. unfold slen. cbn. lia.
  - intros Hn. apply IH in Hn as (t & Ht & ->). destruct total as [t0|]; [|done]. exists t0. split; [done|].
    apply checked_add_Some in Ht as [-> _]. rewrite escaped_width_exact.
    rewrite fmap_cons. change (str_concat (escape_json_char c :: (escape_json_char <$> cs)))
      with (escape_json_char c +:+ str_concat (escape_json_char <$> cs)). rewrite slen_append. lia.
Qed.

(** A result that fits has a body within the limit. *)
Lemma tool_result_fits_size id r limit : tool_result_fits id r limit = true -> (slen (tool_result_body id r) <= limit)%N.
Proof.
  unfold tool_result_fits. destruct (foldl _ _ _) as [escaped|] eqn:Ee; [|done].
  apply escaped_total in Ee as (t & [= <-] & ->). fold (mcp_escape_json (result_text r)).
  destruct (checked_add usize_max FIXED_BYTES _) as [a|] eqn:E1; [|done]. apply checked_add_Some in E1 as [-> _].
  destruct (checked_add usize_max _ _) as [b|] eqn:E2; [|done]. apply checked_add_Some in E2 as [-> _].
  intros Hl%N.leb_le. etransitivity; [|exact Hl].
  unfold tool_result_body, json_string. rewrite !slen_append.
  change (slen (str dquote)) with 1%N. assert (slen (bool_to_string (is_error r)) <= 5)%N by (by destruct (is_error r)).
  unfold FIXED_BYTES. change (slen "}}") with 2%N.
  repeat match goal with |- context [slen (js ?x)] => let n := eval vm_compute in (slen (js x)) in change (slen (js x)) with n end. lia.
Qed.

(** ** The request, as the server parses it *)

Lemma call_envelope id tool input : (id <= u64_max)%N -> utf8_valid tool = true -> input_ok input ->
  parse_request_envelope (tools_call_request id tool input) =
  Ok (MkEnvelope (Some (n_to_string id)) "tools/call" (Some (compact_object (McpRequests.call_params tool input)))).
Proof.
  intros Hid Ht Hi. destruct (call_params_ok tool input Ht Hi) as [Hnp Hvp].
  destruct (request_fields_ok id "tools/call" (compact_object (McpRequests.call_params tool input))) as [Hn Hv];
    [done|by apply compact_object_value|].
  unfold parse_request_envelope. rewrite tools_call_text, compact_object_fields by done.
  set (fields := list_to_map _). assert (fields !! "id" = Some (n_to_string id)) as -> by reflexivity.
  assert (validate_request_id (n_to_string id) = Some (n_to_string id)) as ->.
  { unfold validate_request_id. rewrite parse_u64_to_string by done.
    assert (starts_with (str dquote) (n_to_string id) = false) as ->; [|done].
    pose proof (n_to_string_digits id) as Hd. destruct (n_to_string id) as [|c r]; [done|]. cbn [bytes_all] in Hd.
    apply andb_true_iff in Hd as [Hc _]. by destruct c as [[] [] [] [] [] [] [] []]. }
  cbv iota. assert (dom fields ⊆ envelope_keys) as Hdom.
  { unfold fields. rewrite dom_list_to_map_L. apply (bool_decide_unpack _). vm_compute. exact I. }
  rewrite bool_decide_eq_true_2 by exact Hdom. cbn [negb].
  assert (forall name s m1 m2, fields !! name = Some (json_string s) -> utf8_valid s = true ->
    string_field fields name (Some (n_to_string id)) m1 m2 = Ok s) as Hstring.
  { intros name s m1 m2 E Hs. unfold string_field. rewrite E. cbn [ok_or]. by rewrite parse_literal. }
  rewrite (Hstring "jsonrpc" "2.0") by reflexivity. cbn [negb String.eqb Ascii.eqb eqb].
  rewrite (Hstring "method" "tools/call") by reflexivity. reflexivity.
Qed.

Section Dispatch.
Context {H : Type} `{McpServerToolHandler H}.
Implicit Types s : McpStreamableHttpServer H.

(** The dispatch of a call whose tool is exposed and whose arguments fit. *)
Lemma dispatch_call s id sid tool input : utf8_valid tool = true -> input_ok input ->
  bounded_text MAX_METHOD_BYTES tool = true -> allowed (gate_tool (surface s) tool) = true ->
  validate_tool_arguments (surface s) tool (tool_arguments_json input) = Ok tt ->
  dispatch_tools_call s (MkEnvelope (Some id) "tools/call" (Some (compact_object (McpRequests.call_params tool input)))) sid Ready false =
  call_handler s id sid (MkToolCall tool (tool_arguments_json input)).
Proof.
  intros Ht Hi Hb Ha Hv. destruct (call_params_ok tool input Ht Hi) as [Hn Hw].
  apply (values_within_le _ (nesting_left 1)) in Hw; [|vm_compute; lia].
  assert (surface_require_tool (surface s) tool = Ok (gate_tool (surface s) tool)) as Hr.
  { unfold surface_require_tool. by rewrite Ha. }
  assert (admitted tool (tool_arguments_json input) = Ok (MkToolCall tool (tool_arguments_json input))) as Had.
  { unfold validate_tool_arguments in Hv. destruct (surface_tool (surface s) tool) as [t|]; [|done]. cbn [ok_or] in Hv.
    destruct (schema_parse (input_schema t)) as [schema|]; [|done]. unfold validate_arguments in Hv. unfold admitted.
    by destruct (parse_json_object_fields (tool_arguments_json input)). }
  unfold dispatch_tools_call. cbn [en_id en_params]. rewrite bool_decide_eq_true_2 by done. cbn [negb].
  unfold call_params. rewrite compact_object_fields by done. set (params := list_to_map _).
  assert (tool_name_of params = Some tool) as ->.
  { unfold tool_name_of. change (params !! "name") with (Some (json_string tool)). cbv iota. rewrite parse_literal by done.
    by rewrite Hb. }
  rewrite Hr. cbn [is_ok negb].
  rewrite bool_decide_eq_true_2.
  2: { unfold params. rewrite dom_list_to_map_L. apply (bool_decide_unpack _). vm_compute. exact I. }
  cbn [negb]. cbv zeta. change (params !! "arguments") with (Some (tool_arguments_json input)).
  change (default "{}" (Some (tool_arguments_json input))) with (tool_arguments_json input). rewrite Hv. cbn [is_ok negb]. by rewrite Had.
Qed.
End Dispatch.

(** ** The result, as the client parses it *)

(** The [result] of the server's response. *)
Definition tool_result_json (r : McpServerToolResult) : string :=
  js "{'content':[{'type':'text','text':" +:+ json_string (result_text r) +:+ js "}],'isError':"
  +:+ bool_to_string (is_error r) +:+ "}".

Definition result_fields (id : N) (r : McpServerToolResult) : list (string * string) :=
  [("jsonrpc", json_string "2.0"); ("id", n_to_string id); ("result", tool_result_json r)].

Lemma tool_result_text id r : tool_result_body (n_to_string id) r = compact_object (result_fields id r).
Proof.
  unfold tool_result_body, compact_object, result_fields, tool_result_json. cbn [compact_members].
  generalize (json_string (result_text r)) (n_to_string id) (bool_to_string (is_error r)). intros t i b.
  repeat (progress (rewrite ?append_cons, <- ?append_assoc)). vm_compute. reflexivity.
Qed.

Lemma tool_result_value n r : utf8_valid (result_text r) = true -> json_value (S (S (S n))) (tool_result_json r).
Proof.
  intros Hu. set (item := compact_object [("type", json_string "text"); ("text", json_string (result_text r))]).
  assert (tool_result_json r = compact_object [("content", "[" +:+ item +:+ "]"); ("isError", bool_to_string (is_error r))]) as ->.
  { unfold tool_result_json, item, compact_object. cbn [compact_members].
    generalize (json_string (result_text r)) (bool_to_string (is_error r)). intros t b.
    repeat (progress (rewrite ?append_cons, <- ?append_assoc)). vm_compute. reflexivity. }
  apply compact_object_value. unfold values_within. rewrite !Forall_cons, Forall_nil. cbn [fst snd]. split_and!; try done.
  - apply (value_array (S n) "" (item +:+ "]")); [done|]. apply (elements_last (S n) item ""); [|done].
    apply compact_object_value. unfold values_within. rewrite !Forall_cons, Forall_nil. cbn [fst snd].
    split_and!; try done; by apply json_string_value.
  - apply value_primitive. left. destruct (is_error r); set_solver.
Qed.

Lemma tool_result_utf8 id r : utf8_valid (result_text r) = true -> utf8_valid (tool_result_body (n_to_string id) r) = true.
Proof.
  intros Hu. unfold tool_result_body.
  repeat first [apply n_to_string_utf8 | by apply json_string_valid | reflexivity
               |apply utf8_valid_append | by destruct (is_error r)].
Qed.

(** The response to a call is its result. *)
Lemma result_reads id r : (id <= u64_max)%N -> utf8_valid (result_text r) = true ->
  parse_json_rpc_response (tool_result_body (n_to_string id) r) id = Ok (tool_result_json r).
Proof.
  intros Hid Hu. rewrite tool_result_text.
  assert (NoDup (result_fields id r).*1) as Hn by (apply (bool_decide_unpack _); vm_compute; exact I).
  assert (values_within (nesting_left 1) (result_fields id r)) as Hv.
  { unfold result_fields, values_within. rewrite !Forall_cons, Forall_nil. cbn [fst snd].
    split_and!; auto using json_string_value, number_value. by apply (tool_result_value 60). }
  assert (forall k, json_field_value (compact_object (result_fields id r)) k =
    Ok ((list_to_map (result_fields id r) : gmap string string) !! k)) as Hf by (intros k; by apply compact_object_field).
  set (text := compact_object (result_fields id r)) in *.
  assert (json_string_field text "jsonrpc" = Ok (Some "2.0")) as E1 by (apply string_field_of; [exact (Hf "jsonrpc")|reflexivity]).
  assert (json_u64_field text "id" = Ok (Some id)) as E2 by (apply u64_field_of; [exact (Hf "id")|exact Hid]).
  assert (json_field_value text "error" = Ok None) as E3 by exact (Hf "error").
  assert (json_field_value text "result" = Ok (Some (tool_result_json r))) as E4.
  { rewrite (Hf "result"). f_equal. }
  unfold parse_json_rpc_response. rewrite E1, bool_decide_eq_true_2 by done. cbn [negb]. rewrite E2, N.eqb_refl. cbn [negb].
  by rewrite E3, E4.
Qed.

Lemma result_decodes id r session limit : (id <= u64_max)%N -> utf8_valid (result_text r) = true ->
  (slen (tool_result_body (n_to_string id) r) <= limit)%N ->
  (let? text := decode_http_exchange_response
                  (MkHttpResponse 200 (Some "application/json") (tool_result_body (n_to_string id) r) false session) id limit in
   parse_json_rpc_response text id) = Ok (tool_result_json r).
Proof.
  intros Hid Hu Hl. pose proof (result_reads id r Hid Hu) as Hr. pose proof (tool_result_utf8 id r Hu) as Hvalid.
  assert (str_is_empty (tool_result_body (n_to_string id) r) = false) as He by (apply String.eqb_neq; discriminate).
  generalize dependent (tool_result_body (n_to_string id) r). intros body Hl Hr Hvalid He.
  unfold decode_http_exchange_response. cbn [response_status response_truncated response_body response_content_type].
  change (is_success 200) with true. cbn [negb]. rewrite He, from_utf8_valid by done.
  unfold enforce_response_limit. by rewrite (proj2 (N.ltb_ge _ _)).
Qed.

(** ** The whole call *)

(** A connection that brings a text whole, while the server is running. *)
Definition undisturbed (peer : string) (stream : Stream) : Visit :=
  MkVisit true false true peer true stream false false None false false true false.

(** What a call must be for the server to let it through. *)
Record callable {H} (s : McpStreamableHttpServer H) (peer sid : string) (id : N) (tool input : string) : Prop := {
  ca_session : sessions s !! sid = Some (MkServerSession peer Ready);
  ca_session_id : valid_session_id sid = true;
  ca_id : (id <= u64_max)%N;
  ca_tool : utf8_valid tool = true /\ bounded_text MAX_METHOD_BYTES tool = true;
  ca_exposed : allowed (gate_tool (surface s) tool) = true;
  ca_input : input_ok input;
  ca_arguments : validate_tool_arguments (surface s) tool (tool_arguments_json input) = Ok tt
}.

Section Whole.
Context {H : Type} `{McpServerToolHandler H}.
Context (s : McpStreamableHttpServer H) (peer sid : string) (id : N) (tool input head : string) (headers : list (string * string)).
Hypothesis Hconfig : server_config_validate (sv_config s) = Ok tt.
Hypothesis Hhead : http_request_head (sv_path (sv_config s)) (expected_host s) headers (call_spec sid id tool input) = Ok head.
Hypothesis Hfit : fits (sv_config s) (expected_host s) headers (call_spec sid id tool input) head.
Hypothesis Hcall : callable s peer sid id tool input.
#[local] Set Default Proof Using "Type*".

Let spec := call_spec sid id tool input.
Let request := MkHttpRequest "POST" (sv_path (sv_config s)) (request_headers (expected_host s) headers spec) (rs_body spec).

(** The same server, whatever its report. *)
Lemma dispatch_whole s0 : sv_config s0 = sv_config s -> expected_host s0 = expected_host s -> sessions s0 = sessions s ->
  surface s0 = surface s ->
  dispatch s0 request peer None false = call_handler s0 (n_to_string id) sid (MkToolCall tool (tool_arguments_json input)).
Proof using All.
  intros Ec Eh Es Esu. destruct Hcall as [Hses Hsid Hid [Htool Hbt] Hex Hin Harg].
  assert (forall name value, In (name, value) (own_headers (expected_host s) spec) ->
    request_header request (to_ascii_lowercase name) = Some value) as Hown by exact (fit_found (sv_config s) _ headers spec head Hconfig Hhead Hfit).
  assert (forall name value, In (name, value) (rs_extra_headers spec) ->
    request_header request (to_ascii_lowercase name) = Some value) as Hextra by exact (fit_extra_found (sv_config s) _ headers spec head Hconfig Hhead Hfit).
  assert (str_is_empty (rs_body spec) = false) as Hbody by (apply String.eqb_neq; discriminate).
  unfold dispatch. rewrite Ec, Eh. change (rq_target request) with (sv_path (sv_config s)). rewrite String.eqb_refl. cbn [negb].
  pose proof (Hown "Host" (expected_host s) ltac:(unfold own_headers; rewrite Hbody; cbn; tauto)) as Hhost.
  change (to_ascii_lowercase "Host") with "host" in Hhost. rewrite Hhost, bool_decide_eq_true_2 by done. cbn [negb].
  assert (request_header request "origin" = None) as -> by (apply (fit_absent (sv_config s) _ headers spec head Hconfig Hhead Hfit); by left).
  change (String.eqb (rq_method request) "POST") with true. cbv iota. unfold dispatch_post.
  pose proof (Hown "Content-Type" "application/json" ltac:(unfold own_headers; rewrite Hbody; cbn; tauto)) as Hct.
  change (to_ascii_lowercase "Content-Type") with "content-type" in Hct. rewrite Hct.
  assert (is_json_content_type "application/json" = true) as -> by (vm_compute; reflexivity).
  pose proof (Hown "Accept" (rs_accept spec) ltac:(unfold own_headers; rewrite Hbody; cbn; tauto)) as Hac.
  change (to_ascii_lowercase "Accept") with "accept" in Hac. rewrite Hac.
  assert (accepts_json (rs_accept spec) = true) as -> by (vm_compute; reflexivity). cbn [negb].
  change (rq_body request) with (tools_call_request id tool input). rewrite call_envelope by done. cbv zeta. cbn [en_id en_method].
  rewrite bool_decide_eq_true_2 by (by eexists). cbn [negb andb].
  change (String.eqb "tools/call" "initialize") with false. cbv iota.
  assert (controlled_session s0 request peer = Ok (sid, Ready)) as ->.
  { unfold controlled_session.
    pose proof (Hextra "MCP-Protocol-Version" DEFAULT_PROTOCOL_VERSION ltac:(left; reflexivity)) as Hv.
    change (to_ascii_lowercase "MCP-Protocol-Version") with "mcp-protocol-version" in Hv. rewrite Hv, bool_decide_eq_true_2 by done. cbn [negb].
    pose proof (Hextra "Mcp-Session-Id" sid ltac:(right; left; reflexivity)) as Hs.
    change (to_ascii_lowercase "Mcp-Session-Id") with "mcp-session-id" in Hs. rewrite Hs, Hsid, Es, Hses. cbn [negb peer_ip phase].
    by rewrite String.eqb_refl. }
  change (String.eqb "tools/call" "notifications/initialized") with false. change (String.eqb "tools/call" "tools/list") with false.
  change (String.eqb "tools/call" "tools/call") with true. cbv iota. apply dispatch_call; by rewrite ?Esu.
Qed.
End Whole.

(** C18: A client's call of an exposed tool reaches the tool and comes back.
    Over an announced session, the request that the client writes makes the
    server call the handler, once, with the tool and the arguments that were
    meant; and when the handler's result fits the limit, the text the server
    writes is one the client reads as the result of its call.  Neither the
    pieces that the request arrives in nor those of the answer matter. *)
Theorem tool_call_completes {H} `{McpServerToolHandler H} (s : McpStreamableHttpServer H) peer sid id tool input headers head stream result h :
  server_config_validate (sv_config s) = Ok tt ->
  http_request_head (sv_path (sv_config s)) (expected_host s) headers (call_spec sid id tool input) = Ok head ->
  fits (sv_config s) (expected_host s) headers (call_spec sid id tool input) head ->
  callable s peer sid id tool input -> stream_bytes stream = head +:+ tools_call_request id tool input ->
  handle_tool (handler s) (MkToolCall tool (tool_arguments_json input)) = (Ok result, h) ->
  utf8_valid (result_text result) = true ->
  tool_result_fits (n_to_string id) result (response_limit_bytes (sv_config s)) = true ->
  exists s' wire, handle_connection s (undisturbed peer stream) = (s', Some wire) /\
    handler s' = h /\ sessions s' = sessions s /\
    handler_calls (report s') = saturating_add usize_max (handler_calls (report s)) 1 /\
    forall answer origin limit, stream_bytes answer = wire -> (slen (tool_result_body (n_to_string id) result) <= limit)%N ->
      exists head framing rest response rest',
        read_final_http_response_head answer origin false = Ok (head, framing, rest) /\
        into_buffered head framing rest limit origin = Ok (response, rest') /\ response_session response = Some sid /\
        (let? text := decode_http_exchange_response response id limit in parse_json_rpc_response text id) = Ok (tool_result_json result).
Proof.
  intros Hconfig Hhead Hfit Hcall Hstream Hhandler Hutf8 Hsize. pose proof (tool_result_fits_size _ _ _ Hsize) as Hbody.
  set (s0 := s <| report := (report s) <| requests := saturating_add usize_max (requests (report s)) 1 |> |>).
  assert (handle_connection s (undisturbed peer stream) =
    let '(response, action, s1) := call_handler s0 (n_to_string id) sid (MkToolCall tool (tool_arguments_json input)) in
    let s1 := if rp_error response then protocol_error_counted s1 else s1 in
    let '(wire, outcome) := response_wire response (response_limit_bytes (sv_config s1)) in
    (commit_action_after_response s1 action (Some outcome) false, Some wire)) as ->.
  { unfold handle_connection. cbn [undisturbed vs_registered vs_shutdown_start vs_has_deadline vs_loopback vs_stream negb]. cbv iota.
    erewrite server_reads_request; [|exact Hconfig|exact Hhead|exact Hfit|exact Hstream].
    cbn [vs_shutdown_read vs_late vs_peer vs_random vs_closing vs_shutdown_dispatched vs_written vs_shutdown_written]. cbv iota. fold s0.
    by erewrite dispatch_whole; [|exact Hconfig|exact Hhead|exact Hfit|exact Hcall|..]. }
  unfold call_handler. cbv zeta. change (handler (s0 <| report := _ |>)) with (handler s). rewrite Hhandler.
  match goal with |- context [tool_result_fits ?i ?r ?l] => change l with (response_limit_bytes (sv_config s)) end. rewrite Hsize. cbn [negb respond].
  set (body := tool_result_body (n_to_string id) result) in *. set (r := with_session (response_json 200 body) sid).
  change (rp_error r) with false. cbv iota.
  match goal with |- context [response_wire r (response_limit_bytes (sv_config ?x))] => set (s1 := x); change (sv_config s1) with (sv_config s) end.
  assert (sent_response r (response_limit_bytes (sv_config s)) = r) as Hsent.
  { unfold sent_response. change (rp_body r) with body. by rewrite (proj2 (N.ltb_ge _ _)). }
  pose proof (response_wire_text r (response_limit_bytes (sv_config s))) as Hwire. cbv zeta in Hwire. rewrite Hsent in Hwire.
  destruct (response_wire r _) as [wire outcome]. cbn [fst] in Hwire.
  exists (commit_action_after_response s1 NoAction (Some outcome) false), wire. split; [done|].
  assert (forall A (f : McpStreamableHttpServer H -> A), f (protocol_error_counted s1) = f s1 ->
    f (commit_action_after_response s1 NoAction (Some outcome) false) = f s1) as Hkept by (by destruct outcome).
  split_and!; [by rewrite (Hkept _ handler)|by rewrite (Hkept _ sessions)|by rewrite (Hkept _ (fun s => handler_calls (report s)))|].
  intros answer origin limit Hanswer Hlimit. subst wire. destruct Hcall as [_ Hsid Hid _ _ _ _].
  destruct (response_reads r origin) with (s := answer) (allow := false) as (framing & rest & E & Hread); [|..|exact Hanswer|].
  - unfold r. repeat sendable_step.
  - etransitivity; [exact Hbody|by apply config_response_limit].
  - destruct (Hread limit Hlimit) as (rest' & E'). exists (read_head r), framing, rest, (received r), rest'.
    split_and!; [exact E|exact E'| |].
    + cbn. unfold named_session. cbn. by rewrite Hsid.
    + unfold body in Hlimit. unfold received, r, body. by apply result_decodes.
Qed.

(** *** The concrete call *)

Lemma sample_callable : callable sample_announced "127.0.0.1" sample_session_id 3 "adapter.probe" sample_input.
Proof.
  split; [vm_compute; reflexivity|vm_compute; reflexivity|vm_compute; discriminate|split; vm_compute; reflexivity
         |vm_compute; reflexivity|split; [vm_compute; reflexivity|intros _; vm_compute; reflexivity]|vm_compute; reflexivity].
Qed.

Lemma tool_call_completes_witness : exists s' wire,
  handle_connection sample_announced (undisturbed "127.0.0.1" [Ok (sample_head +:+ tools_call_request 3 "adapter.probe" sample_input)]) = (s', Some wire) /\
  handler s' = [MkToolCall "adapter.probe" sample_input].
Proof.
  destruct (tool_call_completes sample_announced "127.0.0.1" sample_session_id 3 "adapter.probe" sample_input [] sample_head
    [Ok (sample_head +:+ tools_call_request 3 "adapter.probe" sample_input)]
    (MkToolResult ("adapter.probe " +:+ sample_input) false) [MkToolCall "adapter.probe" sample_input]) as (s' & wire & E & Hh & _).
  - vm_compute. reflexivity.
  - vm_compute. reflexivity.
  - exact sample_fits.
  - exact sample_callable.
  - vm_compute. reflexivity.
  - vm_compute. reflexivity.
  - vm_compute. reflexivity.
  - vm_compute. reflexivity.
  - exists s', wire. split; [exact E|exact Hh].
Defined.
